(* ===== verification/_CoqProject ===== *)
-Q . S2P
Prelude.v
CMem.v
BitRead.v
Float32.v
BitStream.v
BitOps.v
BitCopy.v
ReaderProps.v
Ice.v
IceProofs.v
Tins.v
Sniffles.v
Walk.v
Packets.v
Handler.v
SniffProps.v
Lzss.v
LzssHash.v
LzssCode.v
LzssProps.v
FloatProps.v
Coded.v
Wire.v
Messages.v
NetMessages.v
NetClasses.v
UserClasses.v
StreamClasses.v
TextGen.v
CodedOut.v
CodedSpec.v
CodedStream.v
WireSpec.v
MsgSpec.v
CodedWrite.v
UnknownSpec.v
WireTrip.v
MsgTables.v
MsgTrip.v
MsgSize.v
MsgParser.v
MsgProps.v
Console.v
Str.v
Cfg.v
Main.v
ConsoleSpec.v
StrProofs.v
CfgProofs.v
MainProofs.v
ConsoleFaults.v
ConsoleProps.v
ProgramProps.v
Demo.v
DemoProps.v
StrUtil.v
Numerals.v
StrUtilProofs.v
Escape.v
EscapeProofs.v
FloatText.v
Tokenizer.v
TextFormat.v
TextParser.v
TokenProofs.v
ParserRuns.v
ParserSim.v
Descriptors.v
TextGenProofs.v
CodedOutProofs.v
TextSpec.v
TextSize.v
MsgPrint.v
TextTrip.v
TextProps.v
Objects.v
ObjectProofs.v
ObjectRun.v
ClassProps.v
StreamProps.v
