(* ===== verification/Prelude.v ===== *)
(** * Sniffles: a verification library for the CS:GO packet sniffer

    The program (src/Sniffles) listens on a network device, picks the UDP
    datagrams of a game server, decrypts each payload with the ICE cipher, takes
    the inner packet out of it, walks over the packet's messages with a bit reader
    and prints the messages of four kinds.  This library models those parts as
    pure functions over explicit states and proves what they do.

    ** Parts of the program and files of the library

    - [Prelude]: faults and the [result] type, the state-and-fault monad [ST] with
      its loops, machine integers ([uwrap]/[swrap] at a width: [u32], [s32], ...),
      bit fields ([bits]), array accesses that fault out of range, and the lemmas
      and tactics all files share.  [CMem]: the byte-addressed memory of the
      32-bit process and little-endian loads.
    - [BitRead]: class [CBitRead] and namespace [bitbuf] (packetbitbuf.h/.cpp).
      The record has the class's fields; a method that changes the object is a
      computation in [ST CBitRead].  [BitStream] is its specification, a cursor
      over the bits of the buffer ([Rep] relates object and cursor, [Safe] is the
      weaker invariant of every state), [BitOps] and [BitCopy] carry it
      to the composite operations, [ReaderProps] states the properties.
    - [Ice]: ice.cpp, from the Galois-field tables to the key schedule and both
      directions of the cipher.  [IceProofs] proves the cipher a permutation of blocks,
      treats payloads and states the properties.
    - [Tins]: the inline accessors of libtins the handler calls (src/tins).
    - [Sniffles]: [ReadPacket] and [packet_loop_handler] of sniffles.cpp, with the
      heap, the stack array [data], the static data of ice.cpp and the output as
      state.  The message classes enter through the class [MessageParser], whose
      law [ParserLaws] says that a parse depends on the bytes of its array only.
      [Walk] and [Packets] refine [ReadPacket] to an abstract walk over a cursor
      and run it on well formed and hostile packets, [Handler] does the same for
      the decryption and the framing, [SniffProps] states the properties.

    - [Lzss]: class [CLZSS] (lzss.h/.cpp): the lists of the compressor's hash, the
      encoder with its bounded output buffer, the decoder and the header.
      [LzssHash] keeps the lists consistent while the window slides, [LzssCode]
      describes the stream as groups of items and runs the decoder on them,
      [LzssProps] shows that the encoder writes such a stream and states
      the properties.
    - [Float32]: single precision numbers as the standard library specifies them,
      when their operations are exact, and the floating point reads of [CBitRead], which [BitCopy]
      has in its sequences of calls;
      [FloatProps] their properties.
    - [Coded]: [CodedInputStream] over a flat array and over an [ArrayInputStream], with
      its limits, and the array writers of [CodedOutputStream] (io/coded_stream.h/.cc and
      io/zero_copy_stream_impl_lite.cc of the tree's protobuf); the
      stream's pointers are addresses of the process's memory.  [Wire]: the wire
      format (wire_format_lite.h, wire_format.cc): tags, the reads, writes and sizes
      of the field types, unknown fields and groups.  [Messages]: what the generated
      methods of netmessages_public.pb.cc have in common, as functions that read the
      tables of a class; [NetMessages]: the tables of the four classes the program
      parses, a definition for each method; [NetClasses] and [UserClasses]: those of the
      other classes of netmessages_public and of cstrike15_usermessages_public whose
      fields are numbers and strings, 73 of them.  [MsgParser] puts the four parsers behind
      [MessageParser].  The tag reader the generated code calls is not in the tree's
      copy of the library; it is a parameter, [TagReader], with its documented
      behaviour as [TagReaderLaws].
    - [CodedSpec], [CodedStream], [WireSpec], [MsgSpec]: reference decoders over lists
      of bytes and the refinement of each read to them, up to the whole parser;
      [CodedWrite], [WireTrip], [MsgTables], [MsgTrip], [MsgSize]: what is written, well formed tables and objects, merging, the round
      trip, sizes; streams of negative size are at the end of [MsgSpec].  [MsgProps] states the
      properties, whole datagrams of serialised messages included.
    - [CodedOut]: [CodedOutputStream] over the buffers of an output stream, a class of which
      [ArrayOutputStream] and [StringOutputStream] are instances, the stream writers of
      fields and unknown fields, and the functions of message_lite.cc that serialise through
      them.  [StreamClasses]: the statements of [SerializeWithCachedSizes] of the 77 classes.
      The writer that may alias a string is not in the tree's copy of the library; it is a
      parameter, [AliasedWriter].  [CodedOutProofs]: a stream as the characters it stores and
      their limit ([OutputLaws]; for a growing string [text_limit]), and what a computation
      emits; [StreamProps] states the properties.
    - [Console]: the state of the console program around the sniffer (heap, static
      configuration array, file cfg, typed input, output) and the run-time functions
      it calls, and [memory_t] of mem.h.  [Str]: [String] of str.h.  [Cfg]: cfg.h.
      [Main]: [_tmain] of sniffles.cpp, the device lists of net.h, and [sniff_loop] of
      src/tins/sniffer.h with the handler over what is captured: the whole program.  Small allocations succeed and [memcpy] within one block copies as
      [memmove] does; the contents of fresh memory, the moves of [realloc], the error
      of [fopen_s] and the devices pcap finds are parameters.
    - [ConsoleSpec], [StrProofs], [CfgProofs], [MainProofs], [ConsoleFaults]: what the
      operations do up to the names of new blocks, the search against the first
      occurrence, the configuration as a list of fields, whole runs, and the runs that
      fail; [ConsoleProps] states the properties.
    - [ProgramProps]: from the configuration file to the printed messages.
    - [Demo]: [CPacket] and the records of recorded demos (packet.h), which the program
      itself does not use.  [DemoProps]: round trips, and the lengths that are not
      checked.
    - [UnknownSpec]: simulates the array stream, from which an [UnknownFieldSet] is read
      (unknown_field_set.h/.cc, at the end of [Wire]), by the flat one, read by read, and
      carries the reference decoder over.
    - [StrUtil], [Escape], [FloatText]: stubs/strutil.cc, the parts that make text:
      integers, hexadecimal numbers, escapes, floating point numbers, with the buffers
      they write to.  What [snprintf] and [strtod] do is modelled with exact arithmetic.  [Numerals] specifies the
      numerals, [StrUtilProofs], [EscapeProofs] and the end of [FloatText] prove the
      functions.
    - [TextGen]: [StringOutputStream] over a growing string and the [TextGenerator] of
      text_format.cc; how fast a string's capacity grows is the class [StringGrowth].
      [TextFormat]: the descriptors of the four classes, what reflection lists, and the
      printer up to [DebugString].  [Descriptors]: the descriptor bytes that the generated
      code registers, for all 77 classes.  [MsgPrint]: [MsgPrintf] of str.h and the
      formats of the handler, up to all that the console shows; the text of an address ([AddressText]) and an object passed
      to [printf] ([VarargSlot]) are parameters.
    - [TextGenProofs], [TextSpec], [TextSize]: the generator as an
      indented text, a message as a tree of lines and blocks and the printer's refinement
      to it, sizes, values inside values, the bytes of a text, the console.  [TextProps] states the properties.
    - [Objects]: message objects with their string members as pointers (arenastring.h
      without arenas), the accessors and the life cycle that every generated class has,
      and programs as sequences of operations on objects.  [ObjectProofs] accounts for
      the owner of each string and sees an object through the heap as a [message],
      shows that Clear, MergeFrom and CopyFrom do what [Messages] says,
      [ObjectRun] has the specification without a heap.  [ClassProps] states the
      properties of the classes and of the objects.
    - [Tokenizer]: the tokenizer of io/tokenizer.h/.cc over the buffers of an input stream
      (the class [ZeroCopyInputStream]; [array_input] is its instance for arrays), with its
      recording of texts, its places and its errors, and the values of tokens
      ([ParseInteger], [ParseFloat] with io/strtod.cc, [ParseStringAppend]).  [TextParser]:
      [TextFormat::Parser] of text_format.cc over it, into a message through the setters
      of reflection; a collector of reports stands for the log.
    - [TokenProofs]: a stream as the characters that are left ([InputLaws]), triples for
      the computations of the tokenizer, the tokens of a text of the printer and their values.
      [ParserRuns]: every run is safe and ends.  [ParserSim]: runs on two streams with the
      same characters, step by step.  [TextTrip]: the printer's lines read as fields.
      The properties are in [TextProps].

    ** What the theorems show

    End to end, the program that is told to use its configuration file listens on
    the stored device with the filter of the stored port, and goes through a capture
    made of other traffic and of datagrams from source port 27015 - the handler takes no
    other, whatever port was chosen - that are rejected by the framing or hold a packet of
    well-framed messages: it prints exactly the objects of the four classes among them,
    with the sizes of each payload ([ProgramProps.program_prints_capture], the relation
    [shows]).  The theorem assumes neither that [realloc] stays in place nor that [malloc]
    succeeds: a run in which one of them does not may end in a fault, which is named
    ([unless] of [Prelude], [moved], [no_memory]).  What is printed is known to the byte and can always
    be shown, for messages of at most 11500 bytes ([TextProps.console_text_exact]).
    Settings survive from run to run; the first run, a separator inside a value and questions
    without an answer are the cases in which the console program fails ([ConsoleProps]).

    For arbitrary input, every read of the reader but two stays in its buffer and never
    faults ([reader_never_faults]; [ReadBit] loads behind the end, [ReadUBitVar] has an assert
    that data can break); the walk never faults by itself, and when no length field is negative
    or overflows it ends, with a result or at a message that claims to go on behind the array
    ([ReadPacket_terminates]).  Where the code has no check (negative and
    overlong length fields, payload-less datagrams, rejected framings, packets
    longer than the array) a theorem states
    exactly what happens.  The cipher, the zig-zag transform and the base-128
    integers have round-trip theorems for all inputs.

    The text of a parsed message is the text of its tree, of quadratic length at most,
    and its parts are plain numerals and escapes that can be undone; the recursion of
    the printer has no limit ([TextProps.nested_values_recurse]), and the text of a float
    does not determine it.

    The text parser takes the printer's text back to the message it came from, unless unknown
    fields were printed, which it rejects.  On any text from any stream it comes to an
    end with a result that agrees with its reports, or at a failing assert, and the
    buffers of the stream never show.

    In all 77 generated classes without nested messages the parser, the writer and the
    registered descriptor agree and every object survives the wire; the writers to streams
    store what the writers to arrays write, whatever the buffers ([StreamProps]); and no sequence of
    operations on such objects shares, loses or frees twice a string ([ClassProps]).

    ** Bounds and fuel

    Loops of the code whose number of rounds is bounded by the data run with that
    bound as fuel ([ReadVarInt32]: five bytes, six rounds; [gf_mult]: 32 shifts;
    [ReadBits]: one round per eight bits; the block loop: one per eight bytes).
    The message loop of [ReadPacket] and the loop of [ReadString] take their fuel
    as an argument: [ReadPacket_terminates] and [ReadString_terminates] say how
    much is enough, [negative_length_never_ends] that sometimes none is.  Buffers
    are shorter than 2^28 - 8 bytes, so that bit counts fit an [int]; packets leave
    ten bytes of the array free, as every UDP payload does.  Arrays that are parsed
    are shorter than 2^26 bytes, the limit of a stream; the sizes of messages that are written
    are [int]s that wrap around, and right below 2^31 ([MsgProps.SerializeToArray_exact] says what happens
    from there on); texts are shorter than
    [text_limit], half a gigabyte, so that a doubled size fits an [int] - messages of
    up to 11500 bytes always are.  [PrintUnknownFields] takes the depth of its calls
    as fuel: one more than the unknown fields weigh ([weights]) is enough, and
    [NextNonEmpty] needs one round because an array stream has no empty blocks.  Every loop
    of the tokenizer and of the text parser runs for [rounds]: more than there are characters
    in the text, and more than the stream has empty buffers, is enough
    ([TextProps.Parse_total]).

    ** Not modelled

    The dissection of captured frames, the sniffer object and pcap itself (compiled
    libraries: what they deliver is a parameter), the descriptor pool, and of the text
    format, printed or parsed, what the four classes do not have: extensions, enums, groups,
    nested messages and repeated numbers.  Of the tokenizer, [NextWithComments], which only
    the compiler of .proto files calls; of the parser, a user's own [Finder] and collector.  Of the generated classes, the 17 that have fields
    that are messages (reading them pushes a limit on the stream); the program uses none
    of them.  Of message objects, arenas, the storage of repeated fields and pointers kept
    from [mutable_...] across other calls.  The generated
    sources come from a later version of protobuf than the library in the tree, so that
    the printer is that of the library in the tree.  The stack is unlimited in the model.
    The asserts of the debug build are modelled as faults. *)

From stdpp Require Export prelude list numbers gmap.
From Stdlib Require Export ZArith Lia.

#[global] Open Scope Z_scope.

(** * Faults, results and the state monad *)

(** What the C++ code can do wrong at run time: an access outside the object a
    pointer refers to, an index outside a table, a shift by a count that is not
    below the width, a failing [assert], a null dereference, a library
    invalid-parameter abort, and a loop bound of the model that was too small. *)
Inductive fault :=
  | OutOfBounds (a : Z)
  | TableIndex (i : Z)
  | BadShift (n : Z)
  | AssertFailed
  | NullDeref
  | InvalidParameter
  | OutOfFuel.

#[export] Instance fault_eq_dec : EqDecision fault.
Proof. solve_decision. Defined.

Inductive result (A : Type) : Type :=
  | Ok (a : A)
  | Fault (f : fault).
Arguments Ok {_} _.
Arguments Fault {_} _.

#[export] Instance result_ret : MRet result := fun A a => Ok a.
#[export] Instance result_bind : MBind result := fun A B f m =>
  match m with Ok a => f a | Fault e => Fault e end.
#[export] Instance result_fmap : FMap result := fun A B f m =>
  match m with Ok a => Ok (f a) | Fault e => Fault e end.

Definition is_ok {A} (r : result A) : bool :=
  match r with Ok _ => true | Fault _ => false end.

(** A stateful computation that may fault. *)
Definition ST (S A : Type) : Type := S -> result (A * S).

#[export] Instance ST_ret {S} : MRet (ST S) := fun A a s => Ok (a, s).
#[export] Instance ST_bind {S} : MBind (ST S) := fun A B f m s =>
  match m s with Ok (a, s') => f a s' | Fault e => Fault e end.

Definition st_get {S} : ST S S := fun s => Ok (s, s).
Definition st_put {S} (s' : S) : ST S unit := fun _ => Ok (tt, s').
Definition st_modify {S} (f : S -> S) : ST S unit := fun s => Ok (tt, f s).
Definition st_fault {S A} (e : fault) : ST S A := fun _ => Fault e.
Definition st_lift {S A} (r : result A) : ST S A := fun s =>
  match r with Ok a => Ok (a, s) | Fault e => Fault e end.

(** A loop: [inl] goes round again with new locals, [inr] leaves it. *)
Fixpoint st_loop {S L A} (fuel : nat) (body : L -> ST S (L + A)) (l : L) : ST S A :=
  match fuel with
  | O => st_fault OutOfFuel
  | Datatypes.S n =>
      r ← body l;
      match r with inl l' => st_loop n body l' | inr a => mret a end
  end.

(** The stateless version. *)
Fixpoint res_loop {L A} (fuel : nat) (body : L -> result (L + A)) (l : L) : result A :=
  match fuel with
  | O => Fault OutOfFuel
  | Datatypes.S n =>
      r ← body l;
      match r with inl l' => res_loop n body l' | inr a => mret a end
  end.

Lemma res_bind_ok {A B} (m : result A) (k : A -> result B) a :
  m = Ok a -> (m ≫= k) = k a.
Proof. by intros ->. Qed.

Lemma st_bind_ok {S A B} (m : ST S A) (k : A -> ST S B) s a s' :
  m s = Ok (a, s') -> (m ≫= k) s = k a s'.
Proof. unfold mbind, ST_bind. by intros ->. Qed.

Lemma st_bind_fault {S A B} (m : ST S A) (k : A -> ST S B) s e :
  m s = Fault e -> (m ≫= k) s = Fault e.
Proof. unfold mbind, ST_bind. by intros ->. Qed.

Lemma st_lift_ok {S A B} (r : result A) (k : A -> ST S B) a s :
  r = Ok a -> (st_lift r ≫= k) s = k a s.
Proof. intros ->. done. Qed.

Lemma st_bind_inv {S A B} (m : ST S A) (k : A -> ST S B) s r :
  (m ≫= k) s = Ok r -> exists a s', m s = Ok (a, s') /\ k a s' = Ok r.
Proof. unfold mbind, ST_bind. destruct (m s) as [[a s']|]; naive_solver. Qed.

Lemma st_loop_next {S L A} n (body : L -> ST S (L + A)) l s l' s' :
  body l s = Ok (inl l', s') -> st_loop (Datatypes.S n) body l s = st_loop n body l' s'.
Proof. intros E. simpl. by rewrite (st_bind_ok _ _ _ _ _ E). Qed.

Lemma st_loop_exit {S L A} n (body : L -> ST S (L + A)) l s a s' :
  body l s = Ok (inr a, s') -> st_loop (Datatypes.S n) body l s = Ok (a, s').
Proof. intros E. simpl. by rewrite (st_bind_ok _ _ _ _ _ E). Qed.

Lemma st_loop_fault {S L A} n (body : L -> ST S (L + A)) l s f :
  body l s = Fault f -> st_loop (Datatypes.S n) body l s = Fault f.
Proof. intros E. simpl. by rewrite (st_bind_fault _ _ _ _ E). Qed.

(** A round that changes nothing is repeated for ever. *)
Lemma st_loop_spin {S L A} n (body : L -> ST S (L + A)) l s :
  body l s = Ok (inl l, s) -> st_loop n body l s = Fault OutOfFuel.
Proof. intros E. induction n as [|n IH]; [done|]. by rewrite (st_loop_next _ _ _ _ _ _ E). Qed.

(** More rounds do not change the outcome of a loop that has one. *)
Lemma st_loop_more {S L A} (body : L -> ST S (L + A)) n k l s r :
  (n <= k)%nat -> st_loop n body l s = Ok r -> st_loop k body l s = Ok r.
Proof.
  revert k l s. induction n as [|n IH]; intros k l s Hk E; [done|].
  destruct k as [|k]; [lia|]. destruct (body l s) as [[[l'|a] s']|f] eqn:Eb.
  - erewrite st_loop_next in E |- *; [|done..]. apply IH; [lia|done].
  - by erewrite st_loop_exit in E |- *.
  - by erewrite st_loop_fault in E.
Qed.

(** ** Runs that something may end *)

(** [x] comes to what [y] comes to, or ends in a fault that may [happen]. *)
Definition unless {A} (happen : fault -> Prop) (x y : result A) : Prop :=
  x = y \/ exists f, happen f /\ x = Fault f.

(** [x] returns a result with a property, or ends in such a fault. *)
Definition returns_unless {A} (happen : fault -> Prop) (x : result A) (P : A -> Prop) : Prop :=
  (exists a, x = Ok a /\ P a) \/ exists f, happen f /\ x = Fault f.

Lemma unless_same {A} happen (x : result A) : unless happen x x.
Proof. by left. Qed.

Lemma unless_bind {S A B} happen (m m' : ST S A) (k k' : A -> ST S B) s :
  unless happen (m s) (m' s) ->
  (forall a s', m' s = Ok (a, s') -> unless happen (k a s') (k' a s')) ->
  unless happen ((m ≫= k) s) ((m' ≫= k') s).
Proof.
  unfold mbind, ST_bind. intros [->|(f & Hf & ->)] Hk; [|right; by exists f].
  destruct (m' s) as [[a s']|f]; [by apply Hk|by left].
Qed.

Lemma unless_trans {A} happen (x y z : result A) :
  unless happen x y -> unless happen y z -> unless happen x z.
Proof. intros [->|H] Hy; [done|by right]. Qed.

Lemma unless_returns {A} happen (x : result A) a P :
  unless happen x (Ok a) -> P a -> returns_unless happen x P.
Proof. intros [->|H] HP; [left; by exists a|by right]. Qed.

Lemma unless_weaken {A} (happen happen' : fault -> Prop) (x y : result A) :
  (forall f, happen f -> happen' f) -> unless happen x y -> unless happen' x y.
Proof. intros Hi [->|(f & Hf & ->)]; [by left|right; exists f; auto]. Qed.

(** Runs the monad's plumbing. *)
Ltac st_run :=
  cbv [mbind ST_bind result_bind mret ST_ret result_ret st_get st_put st_modify
       st_fault st_lift];
  cbn beta iota.

(** * Machine integers *)

(** Unsigned and two's complement signed reading of an integer at width [w]. *)
Definition uwrap (w z : Z) : Z := z mod 2 ^ w.
Definition swrap (w z : Z) : Z :=
  let r := z mod 2 ^ w in if r <? 2 ^ (w - 1) then r else r - 2 ^ w.

Abbreviation u8 := (uwrap 8).
Abbreviation u16 := (uwrap 16).
Abbreviation u32 := (uwrap 32).
Abbreviation u64 := (uwrap 64).
Abbreviation s8 := (swrap 8).
Abbreviation s16 := (swrap 16).
Abbreviation s32 := (swrap 32).
Abbreviation s64 := (swrap 64).

(** C++ [b ? 1 : 0]. *)
Definition b2z (b : bool) : Z := if b then 1 else 0.

(** The bits [p, p+n) of [B]. *)
Definition bits (B p n : Z) : Z := Z.land (Z.shiftr B p) (Z.ones n).

(** Little-endian value of a byte list. *)
Fixpoint le_join (l : list Z) : Z :=
  match l with
  | [] => 0
  | b :: l' => Z.lor b (Z.shiftl (le_join l') 8)
  end.

Definition is_byte (b : Z) : Prop := 0 <= b < 256.

(** Element [i] of an array of integers, with the source's undefined behaviour
    outside its bounds as a fault. *)
Definition tbl {A} (t : list A) (i : Z) : result A :=
  if (0 <=? i) then
    match t !! Z.to_nat i with Some v => Ok v | None => Fault (TableIndex i) end
  else Fault (TableIndex i).

(** An assignment to an array element. *)
Definition tbl_set {A} (t : list A) (i : Z) (v : A) : result (list A) :=
  if (0 <=? i) && (i <? Z.of_nat (length t)) then Ok (<[Z.to_nat i := v]> t)
  else Fault (TableIndex i).

(** [for (i = i0; n rounds; i++)] over a state that a round may fault on. *)
Fixpoint res_for {A} (i : nat) (n : nat) (body : nat -> A -> result A) (a : A) : result A :=
  match n with
  | O => Ok a
  | Datatypes.S n' => a' ← body i a; res_for (Datatypes.S i) n' body a'
  end.

(** Shifts of 32-bit operands: a count outside [0, 32) is undefined behaviour. *)
Definition shl32 (x n : Z) : result Z :=
  if (0 <=? n) && (n <? 32) then Ok (u32 (Z.shiftl x n)) else Fault (BadShift n).
Definition shl32s (x n : Z) : result Z :=
  if (0 <=? n) && (n <? 32) then Ok (s32 (Z.shiftl x n)) else Fault (BadShift n).
Definition shr32 (x n : Z) : result Z :=
  if (0 <=? n) && (n <? 32) then Ok (Z.shiftr x n) else Fault (BadShift n).

(** * Bit-level automation *)

Lemma zb_shiftr a n i :
  Z.testbit (Z.shiftr a n) i = (0 <=? i) && Z.testbit a (i + n).
Proof.
  destruct (Z.leb_spec 0 i); simpl; [by apply Z.shiftr_spec|].
  by apply Z.testbit_neg_r.
Qed.

Lemma zb_shiftl a n i :
  Z.testbit (Z.shiftl a n) i = (0 <=? i) && Z.testbit a (i - n).
Proof.
  destruct (Z.leb_spec 0 i); simpl; [by apply Z.shiftl_spec|].
  by apply Z.testbit_neg_r.
Qed.

Lemma zb_ones n i : 0 <= n ->
  Z.testbit (Z.ones n) i = (0 <=? i) && (i <? n).
Proof.
  intros. destruct (Z.leb_spec 0 i); simpl.
  - destruct (Z.ltb_spec i n); [apply Z.ones_spec_low | apply Z.ones_spec_high]; lia.
  - by apply Z.testbit_neg_r.
Qed.

Lemma zb_mod a n i : 0 <= n ->
  Z.testbit (a mod 2 ^ n) i = (i <? n) && Z.testbit a i.
Proof.
  intros. destruct (Z.ltb_spec i n); simpl.
  - apply Z.mod_pow2_bits_low; lia.
  - apply Z.mod_pow2_bits_high; lia.
Qed.

Lemma zb_uwrap w a i : 0 <= w ->
  Z.testbit (uwrap w a) i = (i <? w) && Z.testbit a i.
Proof. apply zb_mod. Qed.

Lemma zb_bits B p n i : 0 <= n ->
  Z.testbit (bits B p n) i = (0 <=? i) && (i <? n) && Z.testbit B (i + p).
Proof.
  intros. unfold bits. rewrite Z.land_spec, zb_shiftr, zb_ones by done.
  by destruct (0 <=? i), (i <? n), (Z.testbit B (i + p)).
Qed.

Lemma zb_high a n i : 0 <= a < 2 ^ n -> n <= i -> Z.testbit a i = false.
Proof.
  intros Ha Hi.
  assert (0 <= n) by (destruct (Z.le_gt_cases 0 n); [done|];
    rewrite Z.pow_neg_r in Ha; lia).
  rewrite <- (Z.mod_small a (2 ^ n)) by done.
  apply Z.mod_pow2_bits_high. lia.
Qed.

Create Rewrite HintDb zbits.
#[export] Hint Rewrite Z.lor_spec Z.land_spec Z.lxor_spec Z.bits_0 zb_shiftr
  zb_shiftl : zbits.
#[export] Hint Rewrite zb_ones zb_mod zb_uwrap zb_bits using lia : zbits.

(** Proves an equation between bit expressions: index by index, one case per
    comparison of the index with a constant. *)
Ltac zbits_cases :=
  repeat match goal with
  | |- context [?a <? ?b] => destruct (Z.ltb_spec a b)
  | |- context [?a <=? ?b] => destruct (Z.leb_spec a b)
  end.

Ltac zbits_finish :=
  simpl; rewrite ?andb_true_r, ?andb_false_r, ?orb_false_r, ?orb_true_r; simpl;
  repeat match goal with
  | |- context [Z.testbit ?a ?i] => rewrite (Z.testbit_neg_r a i) by lia
  end;
  try lia; try reflexivity; try done;
  try match goal with
  | |- Z.testbit ?a ?i = Z.testbit ?a ?j => apply (f_equal (Z.testbit a)); lia
  end.

Ltac zbits :=
  apply Z.bits_inj'; intros ?i ?Hi; autorewrite with zbits;
  zbits_cases; zbits_finish.

(** * Generic lemmas *)

Lemma uwrap_range w z : 0 <= w -> 0 <= uwrap w z < 2 ^ w.
Proof. intros. apply Z.mod_pos_bound. lia. Qed.

Lemma uwrap_small w z : 0 <= z < 2 ^ w -> uwrap w z = z.
Proof. apply Z.mod_small. Qed.

Lemma swrap_range w z : 0 < w -> - 2 ^ (w - 1) <= swrap w z < 2 ^ (w - 1).
Proof.
  intros. unfold swrap.
  pose proof (Z.mod_pos_bound z (2 ^ w)) as Hm.
  assert (2 ^ w = 2 * 2 ^ (w - 1)) as Hw
    by (rewrite <- Z.pow_succ_r by lia; f_equal; lia).
  destruct (Z.ltb_spec (z mod 2 ^ w) (2 ^ (w - 1))); lia.
Qed.

Lemma swrap_small w z : 0 < w ->
  - 2 ^ (w - 1) <= z < 2 ^ (w - 1) -> swrap w z = z.
Proof.
  intros Hw Hz. unfold swrap.
  assert (2 ^ w = 2 * 2 ^ (w - 1)) as Hp
    by (rewrite <- Z.pow_succ_r by lia; f_equal; lia).
  destruct (Z.le_gt_cases 0 z).
  - rewrite Z.mod_small by lia. destruct (Z.ltb_spec z (2 ^ (w - 1))); lia.
  - replace (z mod 2 ^ w) with (z + 2 ^ w).
    + destruct (Z.ltb_spec (z + 2 ^ w) (2 ^ (w - 1))); lia.
    + rewrite <- (Z.mod_add z 1) by lia. rewrite Z.mod_small; lia.
Qed.

Lemma swrap_uwrap w z : 0 < w -> swrap w (uwrap w z) = swrap w z.
Proof. intros. unfold swrap, uwrap. by rewrite Z.mod_mod by lia. Qed.

Lemma uwrap_swrap w z : 0 < w -> uwrap w (swrap w z) = uwrap w z.
Proof.
  intros. unfold swrap, uwrap.
  destruct (z mod 2 ^ w <? 2 ^ (w - 1)); [by rewrite Z.mod_mod by lia|].
  rewrite Zminus_mod, Z.mod_same, Z.sub_0_r, !Z.mod_mod by lia. done.
Qed.

Lemma swrap_eq w a b : 0 < w -> a mod 2 ^ w = b mod 2 ^ w -> swrap w a = swrap w b.
Proof. intros ? E. unfold swrap. by rewrite E. Qed.

Lemma swrap_add_l w a b : 0 < w -> swrap w (swrap w a + b) = swrap w (a + b).
Proof.
  intros. apply swrap_eq; [done|]. pose proof (uwrap_swrap w a H) as E. unfold uwrap in E.
  by rewrite <- Zplus_mod_idemp_l, E, Zplus_mod_idemp_l.
Qed.
Lemma swrap_add_r w a b : 0 < w -> swrap w (a + swrap w b) = swrap w (a + b).
Proof. intros. rewrite !(Z.add_comm a). by apply swrap_add_l. Qed.

(** A sum that wraps around at every step. *)
Lemma s32_add_l a b : s32 (s32 a + b) = s32 (a + b).
Proof. by apply swrap_add_l. Qed.
Lemma s32_add_r a b : s32 (a + s32 b) = s32 (a + b).
Proof. by apply swrap_add_r. Qed.
Lemma s32_s32 a : s32 (s32 a) = s32 a.
Proof. pose proof (s32_add_l a 0) as E. by rewrite !Z.add_0_r in E. Qed.

Lemma s32_small z : -2147483648 <= z < 2147483648 -> s32 z = z.
Proof. intros. apply swrap_small; simpl; lia. Qed.

Lemma s32_wrap z : 2147483648 <= z < 4294967296 -> s32 z = z - 4294967296.
Proof.
  intros. unfold swrap. change (2 ^ 32) with 4294967296.
  change (2 ^ (32 - 1)) with 2147483648. rewrite Z.mod_small by lia.
  by destruct (Z.ltb_spec z 2147483648); [lia|].
Qed.

Lemma u32_small z : 0 <= z < 4294967296 -> u32 z = z.
Proof. intros. apply uwrap_small; simpl; lia. Qed.

Lemma u32_range z : 0 <= u32 z < 4294967296.
Proof. apply (uwrap_range 32). lia. Qed.

(** Removes the wrap-around of values that fit, innermost first. *)
Ltac wrap_simpl := repeat match goal with
  | |- context [s32 ?x] =>
      lazymatch x with
      | context [s32 _] => fail
      | context [u32 _] => fail
      | _ => rewrite (s32_small x) by lia
      end
  | |- context [u32 ?x] =>
      lazymatch x with
      | context [s32 _] => fail
      | context [u32 _] => fail
      | _ => rewrite (u32_small x) by lia
      end
  end.

Lemma bits_range B p n : 0 <= n -> 0 <= bits B p n < 2 ^ n.
Proof.
  intros. unfold bits. rewrite Z.land_ones by done.
  apply Z.mod_pos_bound. lia.
Qed.

Lemma bits_0 B p : bits B p 0 = 0.
Proof. unfold bits. rewrite Z.land_ones by lia. by rewrite Z.mod_1_r. Qed.

Lemma bits_app B p n k : 0 <= p -> 0 <= n -> 0 <= k ->
  bits B p (n + k) = Z.lor (bits B p n) (Z.shiftl (bits B (p + n) k) n).
Proof. intros. zbits. Qed.

Lemma bits_shiftr B p n k : 0 <= p -> 0 <= k <= n ->
  Z.shiftr (bits B p n) k = bits B (p + k) (n - k).
Proof. intros. zbits. Qed.

Lemma bits_land B p n k : 0 <= k <= n ->
  Z.land (bits B p n) (Z.ones k) = bits B p k.
Proof. intros. zbits. Qed.

Lemma bits_bits B p n q k : 0 <= p -> 0 <= q -> 0 <= k -> q + k <= n ->
  bits (bits B p n) q k = bits B (p + q) k.
Proof. intros. zbits. Qed.

(** Bits that do not overlap are added. *)
Lemma lor_shiftl_add a b n : 0 <= a < 2 ^ n -> 0 <= n ->
  Z.lor a (Z.shiftl b n) = a + b * 2 ^ n.
Proof.
  intros Ha Hn. rewrite Z.shiftl_mul_pow2 by done.
  rewrite <- Z.lxor_lor; [symmetry; apply Z.add_nocarry_lxor|];
  apply Z.bits_inj'; intros i Hi; rewrite Z.land_spec, <- Z.shiftl_mul_pow2, zb_shiftl, Z.bits_0 by done;
  (destruct (Z.le_gt_cases n i);
    [by rewrite (zb_high a n) by lia
    | rewrite (Z.testbit_neg_r b) by lia; by rewrite !andb_false_r]).
Qed.

Lemma lor_shiftl_range a b n k : 0 <= a < 2 ^ n -> 0 <= b < 2 ^ k -> 0 <= n -> 0 <= k ->
  0 <= Z.lor a (Z.shiftl b n) < 2 ^ (n + k).
Proof.
  intros Ha Hb Hn Hk. rewrite lor_shiftl_add by done. rewrite Z.pow_add_r by done. nia.
Qed.

Lemma bits_bounded a n : 0 <= n -> (forall i, n <= i -> Z.testbit a i = false) ->
  0 <= a < 2 ^ n.
Proof.
  intros Hn H. assert (a = a mod 2 ^ n) as ->; [|apply Z.mod_pos_bound; lia].
  apply Z.bits_inj'; intros i Hi. rewrite zb_mod by done.
  destruct (Z.ltb_spec i n); [done|]. rewrite H by done. done.
Qed.

Lemma lor_range a b n : 0 <= n -> 0 <= a < 2 ^ n -> 0 <= b < 2 ^ n ->
  0 <= Z.lor a b < 2 ^ n.
Proof.
  intros Hn Ha Hb. apply bits_bounded; [done|]. intros i Hi.
  rewrite Z.lor_spec, (zb_high a n), (zb_high b n) by done. done.
Qed.

Lemma land_range a b n : 0 <= n -> 0 <= a < 2 ^ n ->
  0 <= Z.land a b < 2 ^ n.
Proof.
  intros Hn Ha. apply bits_bounded; [done|]. intros i Hi.
  by rewrite Z.land_spec, (zb_high a n) by done.
Qed.

Lemma lxor_range a b n : 0 <= n -> 0 <= a < 2 ^ n -> 0 <= b < 2 ^ n ->
  0 <= Z.lxor a b < 2 ^ n.
Proof.
  intros Hn Ha Hb. apply bits_bounded; [done|]. intros i Hi.
  by rewrite Z.lxor_spec, (zb_high a n), (zb_high b n) by done.
Qed.

Lemma shiftr_range a k n : 0 <= k -> 0 <= n -> 0 <= a < 2 ^ n ->
  0 <= Z.shiftr a k < 2 ^ n.
Proof.
  intros Hk Hn Ha. rewrite Z.shiftr_div_pow2 by done.
  pose proof (Z.pow_pos_nonneg 2 k).
  split; [apply Z.div_pos; lia|].
  apply Z.le_lt_trans with a; [|lia]. apply Z.div_le_upper_bound; nia.
Qed.

Lemma le_join_range l : Forall is_byte l -> 0 <= le_join l < 2 ^ (8 * Z.of_nat (length l)).
Proof.
  induction 1 as [|b l Hb Hl IH]; simpl; [lia|].
  replace (8 * Z.of_nat (S (length l))) with (8 + 8 * Z.of_nat (length l)) by lia.
  apply lor_shiftl_range; unfold is_byte in *; try lia.
Qed.

(** The first byte is the low eight bits, the rest is what lies above them. *)
Lemma le_join_cons_low b l : is_byte b -> bits (le_join (b :: l)) 0 8 = b.
Proof.
  intros Hb. simpl le_join. apply Z.bits_inj'; intros j Hj.
  autorewrite with zbits. zbits_cases; simpl; try lia.
  - rewrite (Z.testbit_neg_r _ (j + 0 - 8)) by lia.
    rewrite orb_false_r. by rewrite Z.add_0_r.
  - symmetry. by apply (zb_high b 8).
Qed.

Lemma le_join_cons_high b l p n : is_byte b -> 0 <= p -> 0 <= n ->
  bits (le_join (b :: l)) (8 + p) n = bits (le_join l) p n.
Proof.
  intros Hb Hp Hn. simpl le_join. apply Z.bits_inj'; intros j Hj.
  autorewrite with zbits. zbits_cases; simpl; try lia; try done.
  rewrite (zb_high b 8) by (done || lia). simpl. f_equal. lia.
Qed.

Lemma le_join_bits l i b : Forall is_byte l -> l !! i = Some b ->
  bits (le_join l) (8 * Z.of_nat i) 8 = b.
Proof.
  intros Hl. revert i. induction Hl as [|c l Hc Hl IH]; intros i Hi; [done|].
  destruct i as [|i]; simpl in Hi.
  - injection Hi as ->. by apply le_join_cons_low.
  - replace (8 * Z.of_nat (S i)) with (8 + 8 * Z.of_nat i) by lia.
    rewrite le_join_cons_high by (done || lia). by apply IH.
Qed.

Lemma tbl_ok {A} (t : list A) i v :
  0 <= i -> t !! Z.to_nat i = Some v -> tbl t i = Ok v.
Proof. intros Hi E. unfold tbl. rewrite (proj2 (Z.leb_le 0 i) Hi). by rewrite E. Qed.

Lemma tbl_set_ok {A} (t : list A) i v :
  0 <= i < Z.of_nat (length t) -> tbl_set t i v = Ok (<[Z.to_nat i := v]> t).
Proof.
  intros Hi. unfold tbl_set. destruct (Z.leb_spec 0 i); [|lia].
  by destruct (Z.ltb_spec i (Z.of_nat (length t))); [|lia].
Qed.

Lemma tbl_in_range {A} (t : list A) i :
  0 <= i < Z.of_nat (length t) -> exists v, tbl t i = Ok v /\ t !! Z.to_nat i = Some v.
Proof.
  intros Hi. destruct (lookup_lt_is_Some_2 t (Z.to_nat i)) as [v Hv]; [lia|].
  exists v. split; [|done]. apply tbl_ok; [lia|done].
Qed.

(** An assignment as a function on the elements. *)
Lemma tbl_set_spec {A} (t : list A) i v : 0 <= i < Z.of_nat (length t) ->
  exists t', tbl_set t i v = Ok t' /\ length t' = length t /\ tbl t' i = Ok v /\
    forall j, j <> i -> tbl t' j = tbl t j.
Proof.
  intros Hi. exists (<[Z.to_nat i := v]> t). split; [by apply tbl_set_ok|].
  split; [apply length_insert|]. unfold tbl. split.
  - destruct (Z.leb_spec 0 i); [|lia]. by rewrite list_lookup_insert_eq by lia.
  - intros j Hj. destruct (Z.leb_spec 0 j); [|done].
    by rewrite list_lookup_insert_ne by lia.
Qed.

Lemma tbl_replicate {A} n (a : A) i v : tbl (replicate n a) i = Ok v -> v = a.
Proof.
  unfold tbl. destruct (0 <=? i); [|done]. destruct (replicate n a !! _) eqn:E; [|done].
  intros [= <-]. by apply lookup_replicate in E as [-> _].
Qed.

Lemma tbl_bound {A} (t : list A) i v : tbl t i = Ok v -> 0 <= i < Z.of_nat (length t).
Proof.
  unfold tbl. destruct (Z.leb_spec 0 i); [|done].
  destruct (t !! Z.to_nat i) eqn:E; [|done]. intros _. apply lookup_lt_Some in E. lia.
Qed.

(** Loop rule: an invariant indexed by the counter is kept and no round faults. *)
Lemma res_for_inv {A} (P : nat -> A -> Prop) body n i a :
  P i a ->
  (forall j a, (i <= j < i + n)%nat -> P j a ->
     exists a', body j a = Ok a' /\ P (Datatypes.S j) a') ->
  exists a', res_for i n body a = Ok a' /\ P (i + n)%nat a'.
Proof.
  revert i a. induction n as [|n IH]; intros i a H0 Hstep; simpl.
  - exists a. by rewrite Nat.add_0_r.
  - destruct (Hstep i a) as (a' & E & H1); [lia|done|].
    destruct (IH (Datatypes.S i) a' H1) as (a'' & E' & H2).
    { intros j b Hj. apply Hstep. lia. }
    exists a''. rewrite (res_bind_ok _ _ _ E). split; [done|].
    by replace (i + Datatypes.S n)%nat with (Datatypes.S i + n)%nat by lia.
Qed.

Lemma res_for_ext {A} (f g : nat -> A -> result A) n i a :
  (forall j a, (i <= j < i + n)%nat -> f j a = g j a) ->
  res_for i n f a = res_for i n g a.
Proof.
  revert i a. induction n as [|n IH]; intros i a H; simpl; [done|].
  rewrite (H i a) by lia. destruct (g i a) as [a'|e]; simpl; [|done].
  apply IH. intros j b Hj. apply H. lia.
Qed.

Lemma res_for_snoc {A} body n i (a : A) :
  res_for i (Datatypes.S n) body a = (a' ← res_for i n body a; body (i + n)%nat a').
Proof.
  revert i a. induction n as [|n IH]; intros i a.
  - simpl. rewrite Nat.add_0_r. by destruct (body i a).
  - change (res_for i (Datatypes.S (Datatypes.S n)) body a)
      with (a' ← body i a; res_for (Datatypes.S i) (Datatypes.S n) body a').
    simpl res_for at 2. destruct (body i a) as [a'|e]; [|done].
    change (Ok a' ≫= ?k) with (k a'). cbv beta.
    rewrite IH. by replace (Datatypes.S i + n)%nat with (i + Datatypes.S n)%nat by lia.
Qed.

(** The same for two runs in lock step. *)
Lemma res_for_inv2 {A B} (R : nat -> A -> B -> Prop) f g n i a b :
  R i a b ->
  (forall j a b, (i <= j < i + n)%nat -> R j a b ->
     exists a' b', f j a = Ok a' /\ g j b = Ok b' /\ R (Datatypes.S j) a' b') ->
  exists a' b', res_for i n f a = Ok a' /\ res_for i n g b = Ok b' /\ R (i + n)%nat a' b'.
Proof.
  revert i a b. induction n as [|n IH]; intros i a b H0 Hstep; simpl.
  - exists a, b. by rewrite Nat.add_0_r.
  - destruct (Hstep i a b) as (a1 & b1 & Ea & Eb & H1); [lia|done|].
    destruct (IH (Datatypes.S i) a1 b1 H1) as (a2 & b2 & Ea' & Eb' & H2).
    { intros j x y Hj. apply Hstep. lia. }
    exists a2, b2. rewrite (res_bind_ok _ _ _ Ea), (res_bind_ok _ _ _ Eb).
    split; [done|]. split; [done|].
    by replace (i + Datatypes.S n)%nat with (Datatypes.S i + n)%nat by lia.
Qed.

Lemma land_range_r a b n : 0 <= n -> 0 <= b < 2 ^ n -> 0 <= Z.land a b < 2 ^ n.
Proof. intros. rewrite Z.land_comm. by apply land_range. Qed.

Lemma shiftr_lt a k n : 0 <= k -> 0 <= n -> 0 <= a < 2 ^ (n + k) ->
  0 <= Z.shiftr a k < 2 ^ n.
Proof.
  intros Hk Hn Ha. rewrite Z.shiftr_div_pow2 by done. rewrite Z.pow_add_r in Ha by done.
  pose proof (Z.pow_pos_nonneg 2 k).
  split; [apply Z.div_pos; lia|]. apply Z.div_lt_upper_bound; nia.
Qed.

Lemma shiftl_range a k n : 0 <= k -> 0 <= n -> 0 <= a < 2 ^ n ->
  0 <= Z.shiftl a k < 2 ^ (n + k).
Proof.
  intros Hk Hn Ha. rewrite Z.shiftl_mul_pow2, Z.pow_add_r by done.
  pose proof (Z.pow_pos_nonneg 2 k). nia.
Qed.

(** More fuel does not change the result of a loop. *)
Lemma res_loop_more {L A} (body : L -> result (L + A)) n k l a :
  (n <= k)%nat -> res_loop n body l = Ok a -> res_loop k body l = Ok a.
Proof.
  revert k l. induction n as [|n IH]; intros k l Hk E; [done|].
  destruct k as [|k]; [lia|]. simpl in *.
  destruct (body l) as [[l'|a']|e]; simpl in *; try done.
  apply IH; [lia|done].
Qed.

(** Invariants of computations in [ST]: [keeps_at] and [keeps], their rules, and the
    tactic [keeps_auto] that runs through a computation. *)

(** Run in [s], [c] ends in a state with [I], if it ends. *)
Definition keeps_at {S A} (I : S -> Prop) (s : S) (c : ST S A) : Prop :=
  forall a s', c s = Ok (a, s') -> I s'.
Definition keeps {S A} (I : S -> Prop) (c : ST S A) : Prop := forall s, I s -> keeps_at I s c.

Section Rules.
Context {S A B : Type} (I : S -> Prop).

Lemma keeps_ret (a : A) : keeps I (mret a).
Proof. intros s H a' s' E. by injection E as _ <-. Qed.

Lemma keeps_bind (c : ST S A) (k : A -> ST S B) :
  keeps I c -> (forall a, keeps I (k a)) -> keeps I (c ≫= k).
Proof.
  intros Hc Hk s H b s' E. apply st_bind_inv in E as (a & s1 & E1 & E2).
  by apply (Hk a s1 (Hc s H a s1 E1) b s').
Qed.

(** Behind [st_get], the state is at hand. *)
Lemma keeps_get (k : S -> ST S B) : (forall s, I s -> keeps_at I s (k s)) -> keeps I (st_get ≫= k).
Proof. intros Hk s H b s' E. by apply (Hk s H b s'). Qed.

Lemma keeps_lift_at s (r : result A) (k : A -> ST S B) :
  (forall a, r = Ok a -> keeps_at I s (k a)) -> keeps_at I s (st_lift r ≫= k).
Proof.
  intros Hk b s' E. apply st_bind_inv in E as (a & s1 & E1 & E2).
  unfold st_lift in E1. destruct r as [a'|]; [|done]. injection E1 as <- <-.
  by apply (Hk a' eq_refl b s').
Qed.

Lemma keeps_lift (r : result A) : keeps I (st_lift r).
Proof. intros s H a s' E. unfold st_lift in E. destruct r; [|done]. by injection E as _ <-. Qed.

Lemma keeps_fault e : keeps (A := A) I (st_fault e).
Proof. by intros s H a s' E. Qed.

Lemma keeps_modify f : (forall s, I s -> I (f s)) -> keeps I (st_modify f).
Proof. intros Hf s H a s' E. injection E as _ <-. by apply Hf. Qed.
End Rules.

Lemma keeps_loop {S A L} (I : S -> Prop) (body : L -> ST S (L + A)) n l :
  (forall l, keeps I (body l)) -> keeps I (st_loop n body l).
Proof.
  intros Hb. revert l. induction n as [|n IH]; intros l; [by apply keeps_fault|].
  apply keeps_bind; [apply Hb|]. intros [l'|a]; [apply IH|apply keeps_ret].
Qed.

Create HintDb keeps discriminated.
#[export] Hint Resolve keeps_ret keeps_fault keeps_lift : keeps.

(** The binds, the case distinctions and what is known of the calls. *)
Ltac keeps_step :=
  match goal with
  | H : ?I ?s |- keeps_at ?I ?s ?c => cut (keeps I c); [by intros Hc; apply Hc|]
  | |- keeps _ (st_get ≫= _) => apply keeps_get; intros
  | |- keeps _ (_ ≫= _) => apply keeps_bind; [|intros]
  | |- keeps _ (let _ := _ in _) => cbv zeta
  | |- keeps _ (if ?b then _ else _) => destruct b
  | |- keeps _ (match ?x with _ => _ end) => destruct x
  | |- keeps _ _ => solve [auto with keeps]
  end.
Ltac keeps_auto := repeat keeps_step.
