(* ===== verification/CMem.v ===== *)
(** The byte-addressed memory of the 32-bit process: what a pointer can be
    dereferenced to, little-endian loads, and the state of a buffer. *)

From S2P Require Import Prelude.

(** The addressable bytes; [None] is an address outside every object. *)
Definition mem := Z -> option Z.

Definition load8 (m : mem) (a : Z) : result Z :=
  match m a with Some b => Ok b | None => Fault (OutOfBounds a) end.

Definition load32 (m : mem) (a : Z) : result Z :=
  b0 ← load8 m a;
  b1 ← load8 m (a + 1);
  b2 ← load8 m (a + 2);
  b3 ← load8 m (a + 3);
  mret (le_join [b0; b1; b2; b3]).

(** [blit m base l] is [m] after [l] was copied to [base]. *)
Definition blit (m : mem) (base : Z) (l : list Z) : mem := fun a =>
  if (base <=? a) && (a <? base + Z.of_nat (length l))
  then l !! Z.to_nat (a - base) else m a.

(** An otherwise empty memory with one object. *)
Definition block (base : Z) (l : list Z) : mem := blit (fun _ => None) base l.

(** The bytes at [base] are [l]. *)
Definition holds (m : mem) (base : Z) (l : list Z) : Prop :=
  forall i, (i < length l)%nat -> m (base + Z.of_nat i) = l !! i.

(** [n] bytes from address [a] on, as [memcpy] reads them. *)
Fixpoint load_bytes (m : mem) (a : Z) (n : nat) : result (list Z) :=
  match n with
  | O => Ok []
  | S n' => b ← load8 m a; l ← load_bytes m (a + 1) n'; mret (b :: l)
  end.

(** Overwrites the bytes of a block from [off] on. *)
Definition store_at (l : list Z) (off : Z) (src : list Z) : result (list Z) :=
  if off + Z.of_nat (length src) <=? Z.of_nat (length l)
  then Ok (take (Z.to_nat off) l ++ src ++ drop (Z.to_nat off + length src) l)
  else Fault (OutOfBounds (off + Z.of_nat (length src))).

(** The bytes [off, off + n) of an array, as [memcpy] reads them. *)
Definition fetch_at (l : list Z) (off n : Z) : result (list Z) :=
  if off + n <=? Z.of_nat (length l)
  then Ok (take (Z.to_nat n) (drop (Z.to_nat off) l))
  else Fault (OutOfBounds (off + n)).

Lemma holds_blit m base l : holds (blit m base l) base l.
Proof.
  intros i Hi. unfold blit.
  destruct (Z.leb_spec base (base + Z.of_nat i)); [|lia].
  destruct (Z.ltb_spec (base + Z.of_nat i) (base + Z.of_nat (length l))); [|lia].
  simpl. f_equal. lia.
Qed.

Lemma holds_app_l m base l1 l2 : holds m base (l1 ++ l2) -> holds m base l1.
Proof.
  intros H i Hi. rewrite H by (rewrite length_app; lia).
  by rewrite lookup_app_l.
Qed.

Lemma holds_app_r m base l1 l2 :
  holds m base (l1 ++ l2) -> holds m (base + Z.of_nat (length l1)) l2.
Proof.
  intros H i Hi. specialize (H (length l1 + i)%nat).
  rewrite length_app in H.
  replace (base + Z.of_nat (length l1) + Z.of_nat i)
    with (base + Z.of_nat (length l1 + i)) by lia.
  rewrite H by lia. rewrite lookup_app_r by lia. f_equal. lia.
Qed.

(** Copying over the head of a buffer leaves its tail. *)
Lemma holds_blit_head m base l1 l2 old :
  length old = length (l1 ++ l2) ->
  holds m base old -> drop (length l1) old = l2 ->
  holds (blit m base l1) base (l1 ++ l2).
Proof.
  intros Hlen Hold <- i Hi. unfold blit.
  destruct (Z.leb_spec base (base + Z.of_nat i)); [|lia].
  destruct (Z.ltb_spec (base + Z.of_nat i) (base + Z.of_nat (length l1))); simpl.
  - rewrite lookup_app_l by lia. f_equal. lia.
  - rewrite lookup_app_r by lia. rewrite Hold by lia.
    rewrite lookup_drop. f_equal. lia.
Qed.

Lemma load8_holds m base l i b :
  holds m base l -> l !! i = Some b -> load8 m (base + Z.of_nat i) = Ok b.
Proof.
  intros H E. unfold load8. rewrite H; [by rewrite E|].
  by apply lookup_lt_Some in E.
Qed.

Lemma load_bytes_holds m base l :
  holds m base l -> load_bytes m base (length l) = Ok l.
Proof.
  revert base. induction l as [|b l IH]; intros base H; [done|].
  cbn [length load_bytes].
  pose proof (load8_holds m base (b :: l) 0 b H eq_refl) as E.
  rewrite Z.add_0_r in E. rewrite E. cbn.
  rewrite IH; [done|].
  change (holds m (base + Z.of_nat (length [b])) l).
  apply holds_app_r. exact H.
Qed.

(** Four bytes of a buffer are 32 bits of its little-endian value. *)
Lemma bits_32_bytes l o b0 b1 b2 b3 : Forall is_byte l ->
  l !! o = Some b0 -> l !! (o + 1)%nat = Some b1 ->
  l !! (o + 2)%nat = Some b2 -> l !! (o + 3)%nat = Some b3 ->
  le_join [b0; b1; b2; b3] = bits (le_join l) (8 * Z.of_nat o) 32.
Proof.
  intros Hl H0 H1 H2 H3.
  replace 32 with (8 + (8 + (8 + 8))) by lia.
  rewrite !bits_app by lia.
  rewrite (le_join_bits l o b0) by done.
  replace (8 * Z.of_nat o + 8) with (8 * Z.of_nat (o + 1)) by lia.
  rewrite (le_join_bits l _ b1) by done.
  replace (8 * Z.of_nat (o + 1) + 8) with (8 * Z.of_nat (o + 2)) by lia.
  rewrite (le_join_bits l _ b2) by done.
  replace (8 * Z.of_nat (o + 2) + 8) with (8 * Z.of_nat (o + 3)) by lia.
  rewrite (le_join_bits l _ b3) by done.
  simpl. by rewrite Z.lor_0_r.
Qed.

Lemma load32_holds m base l o : Forall is_byte l -> holds m base l ->
  0 <= o -> o + 4 <= Z.of_nat (length l) ->
  load32 m (base + o) = Ok (bits (le_join l) (8 * o) 32).
Proof.
  intros Hl H Ho Hlen. set (i := Z.to_nat o).
  assert (Hi : o = Z.of_nat i) by lia. rewrite Hi in *. clearbody i. clear Hi o.
  destruct (lookup_lt_is_Some_2 l i) as [b0 H0]; [lia|].
  destruct (lookup_lt_is_Some_2 l (i + 1)) as [b1 H1]; [lia|].
  destruct (lookup_lt_is_Some_2 l (i + 2)) as [b2 H2]; [lia|].
  destruct (lookup_lt_is_Some_2 l (i + 3)) as [b3 H3]; [lia|].
  unfold load32.
  rewrite (res_bind_ok _ _ b0) by by apply (load8_holds m base l).
  replace (base + Z.of_nat i + 1) with (base + Z.of_nat (i + 1)) by lia.
  rewrite (res_bind_ok _ _ b1) by by apply (load8_holds m base l).
  replace (base + Z.of_nat i + 2) with (base + Z.of_nat (i + 2)) by lia.
  rewrite (res_bind_ok _ _ b2) by by apply (load8_holds m base l).
  replace (base + Z.of_nat i + 3) with (base + Z.of_nat (i + 3)) by lia.
  rewrite (res_bind_ok _ _ b3) by by apply (load8_holds m base l).
  unfold mret, result_ret. f_equal. by apply bits_32_bytes.
Qed.
