(* ===== verification/BitRead.v ===== *)
(** The bit reader: class [CBitRead] of src/Sniffles/packetbitbuf.h and
    packetbitbuf.cpp, and the zig-zag transform of namespace [bitbuf].  The
    fields are the class's fields; pointers are 32-bit addresses; a method that
    changes the object is a computation in [ST CBitRead], with the memory it
    reads from as the section's variable. *)

From S2P Require Import Prelude CMem.

(** * namespace bitbuf *)

(** [(n << 1) ^ (n >> 31)] with an arithmetic right shift. *)
Definition ZigZagEncode32 (n : Z) : Z :=
  u32 (Z.lxor (s32 (Z.shiftl n 1)) (Z.shiftr n 31)).

Definition ZigZagDecode32 (n : Z) : Z :=
  s32 (Z.lxor (Z.shiftr n 1) (u32 (- (Z.land n 1)))).

Definition ZigZagEncode64 (n : Z) : Z :=
  u64 (Z.lxor (s64 (Z.shiftl n 1)) (Z.shiftr n 63)).

Definition ZigZagDecode64 (n : Z) : Z :=
  s64 (Z.lxor (Z.shiftr n 1) (u64 (- (Z.land n 1)))).

Definition kMaxVarintBytes : Z := 10.
Definition kMaxVarint32Bytes : Z := 5.

(** * The object *)

Record CBitRead := mkBitRead {
  m_nInBufWord : Z;
  m_nBitsAvail : Z;
  m_pDataIn : Z;
  m_pBufferEnd : Z;
  m_pData : Z;
  m_bOverflow : bool;
  m_nDataBits : Z;
  m_nDataBytes : Z
}.

#[export] Instance CBitRead_eq_dec : EqDecision CBitRead.
Proof. solve_decision. Defined.

(** Assignments to one field. *)
Definition set_word (w : Z) (s : CBitRead) : CBitRead :=
  mkBitRead w (m_nBitsAvail s) (m_pDataIn s) (m_pBufferEnd s) (m_pData s)
    (m_bOverflow s) (m_nDataBits s) (m_nDataBytes s).
Definition set_avail (n : Z) (s : CBitRead) : CBitRead :=
  mkBitRead (m_nInBufWord s) n (m_pDataIn s) (m_pBufferEnd s) (m_pData s)
    (m_bOverflow s) (m_nDataBits s) (m_nDataBytes s).
Definition set_dataIn (p : Z) (s : CBitRead) : CBitRead :=
  mkBitRead (m_nInBufWord s) (m_nBitsAvail s) p (m_pBufferEnd s) (m_pData s)
    (m_bOverflow s) (m_nDataBits s) (m_nDataBytes s).
Definition set_overflow (b : bool) (s : CBitRead) : CBitRead :=
  mkBitRead (m_nInBufWord s) (m_nBitsAvail s) (m_pDataIn s) (m_pBufferEnd s)
    (m_pData s) b (m_nDataBits s) (m_nDataBytes s).

(** [s_nMaskTable]: entry [i] is [(1 << i) - 1] up to 30, the last two are
    written as literals. *)
Definition s_nMaskTable : list Z :=
  [0] ++ ((fun i : nat => Z.shiftl 1 (Z.of_nat i) - 1) <$> seq 1 30)
      ++ [2147483647; 4294967295].

(** * Status *)

Definition SetOverflowFlag : ST CBitRead unit := st_modify (set_overflow true).

Definition IsOverflowed (s : CBitRead) : bool := m_bOverflow s.

Definition TotalBytesAvailable (s : CBitRead) : Z := m_nDataBytes s.

Definition MIN (a b : Z) : Z := if a <? b then a else b.

Definition GetNumBitsRead (s : CBitRead) : Z :=
  if m_pData s =? 0 then 0
  else
    let nCurOfs := s32 (Z.quot (s32 (s32 (m_pDataIn s) - s32 (m_pData s))) 4 - 1) in
    let nCurOfs := s32 (nCurOfs * 32) in
    let nCurOfs := s32 (nCurOfs + s32 (32 - m_nBitsAvail s)) in
    let nAdjust := s32 (8 * Z.land (m_nDataBytes s) 3) in
    MIN (s32 (nCurOfs + nAdjust)) (m_nDataBits s).

Definition GetNumBytesRead (s : CBitRead) : Z :=
  Z.shiftr (s32 (GetNumBitsRead s + 7)) 3.

Definition Tell (s : CBitRead) : Z := GetNumBitsRead s.

Definition GetNumBitsLeft (s : CBitRead) : Z := s32 (m_nDataBits s - Tell s).

Definition GetNumBytesLeft (s : CBitRead) : Z := Z.shiftr (GetNumBitsLeft s) 3.

Definition GetBasePointer (s : CBitRead) : Z := m_pData s.

Section Reader.
Variable m : mem.

(** * Words *)

Definition GrabNextDWord (bOverFlowImmediately : bool) : ST CBitRead unit :=
  s ← st_get;
  if m_pDataIn s =? m_pBufferEnd s then
    st_modify (fun s => set_dataIn (m_pDataIn s + 4) (set_word 0 (set_avail 1 s)));;
    if bOverFlowImmediately then SetOverflowFlag else mret tt
  else if m_pBufferEnd s <? m_pDataIn s then
    SetOverflowFlag;; st_modify (set_word 0)
  else
    w ← st_lift (load32 m (m_pDataIn s));
    st_modify (fun s => set_word w (set_dataIn (m_pDataIn s + 4) s)).

Definition FetchNext : ST CBitRead unit :=
  st_modify (set_avail 32);; GrabNextDWord false.

(** * Bits *)

Definition ReadOneBit : ST CBitRead Z :=
  s ← st_get;
  let nRet := Z.land (m_nInBufWord s) 1 in
  st_modify (set_avail (s32 (m_nBitsAvail s - 1)));;
  (if s32 (m_nBitsAvail s - 1) =? 0 then FetchNext
   else st_modify (set_word (Z.shiftr (m_nInBufWord s) 1)));;
  mret nRet.

(** The second copy of the one-bit read, with [FetchNext] inlined. *)
Definition ReadBit : ST CBitRead Z :=
  s ← st_get;
  let nRet := Z.land (m_nInBufWord s) 1 in
  let v10 := m_nBitsAvail s =? 1 in
  st_modify (set_avail (s32 (m_nBitsAvail s - 1)));;
  (if v10 then
     st_modify (set_avail 32);;
     s1 ← st_get;
     (if m_pDataIn s1 =? m_pBufferEnd s1 then
        st_modify (fun s => set_dataIn (m_pDataIn s + 4) (set_word 0 (set_avail 1 s)))
      else mret tt);;
     s2 ← st_get;
     (if m_pBufferEnd s2 <? m_pDataIn s2 then
        st_modify (fun s => set_word 0 (set_overflow true s))
      else mret tt);;
     s3 ← st_get;
     w ← st_lift (load32 m (m_pDataIn s3));
     st_modify (fun s => set_word w (set_dataIn (m_pDataIn s + 4) s))
   else st_modify (set_word (Z.shiftr (m_nInBufWord s) 1)));;
  mret nRet.

Definition ReadUBitLong (numbits : Z) : ST CBitRead Z :=
  s ← st_get;
  if numbits <=? m_nBitsAvail s then
    mask ← st_lift (tbl s_nMaskTable numbits);
    let nRet := Z.land (m_nInBufWord s) mask in
    st_modify (set_avail (m_nBitsAvail s - numbits));;
    (if negb (m_nBitsAvail s - numbits =? 0) then
       w ← st_lift (shr32 (m_nInBufWord s) numbits);
       st_modify (set_word w)
     else FetchNext);;
    mret nRet
  else
    (* need to merge words *)
    let nRet := m_nInBufWord s in
    let numbits := numbits - m_nBitsAvail s in
    GrabNextDWord true;;
    s1 ← st_get;
    if m_bOverflow s1 then mret 0
    else
      mask ← st_lift (tbl s_nMaskTable numbits);
      hi ← st_lift (shl32 (Z.land (m_nInBufWord s1) mask) (m_nBitsAvail s1));
      w ← st_lift (shr32 (m_nInBufWord s1) numbits);
      st_modify (fun s => set_word w (set_avail (32 - numbits) s));;
      mret (Z.lor nRet hi).

Definition ReadSBitLong (numbits : Z) : ST CBitRead Z :=
  r ← ReadUBitLong numbits;
  let nRet := s32 r in
  (* sign extend *)
  x ← st_lift (shl32s nRet (32 - numbits));
  st_lift (shr32 x (32 - numbits)).

(** * Variable-width integers *)

Definition ReadVarUBit : ST CBitRead Z :=
  ret ← ReadUBitLong 7;
  let k := Z.land ret 96 in
  if k =? 32 then
    r ← ReadUBitLong 2; mret (Z.lor (u32 (32 * r)) (Z.land ret 4294967199))
  else if k =? 64 then
    r ← ReadUBitLong 4; mret (Z.lor (u32 (32 * r)) (Z.land ret 4294967199))
  else if k =? 96 then
    r ← ReadUBitLong 7; mret (Z.lor (u32 (32 * r)) (Z.land ret 4294967199))
  else mret ret.

Definition assert_ (b : bool) : ST CBitRead unit :=
  if b then mret tt else st_fault AssertFailed.

Definition ReadUBitVar : ST CBitRead Z :=
  ret ← ReadUBitLong 6;
  let k := Z.land ret (Z.lor 16 32) in
  if k =? 16 then
    r ← ReadUBitLong 4;
    let ret := Z.lor (Z.land ret 15) (u32 (Z.shiftl r 4)) in
    assert_ (16 <=? ret);; mret ret
  else if k =? 32 then
    r ← ReadUBitLong 8;
    let ret := Z.lor (Z.land ret 15) (u32 (Z.shiftl r 4)) in
    assert_ (256 <=? ret);; mret ret
  else if k =? 48 then
    r ← ReadUBitLong (32 - 4);
    let ret := Z.lor (Z.land ret 15) (u32 (Z.shiftl r 4)) in
    assert_ (4096 <=? ret);; mret ret
  else mret ret.

(** Body of the [do]-[while] of [ReadVarInt32]; the locals are [count] and
    [result]. *)
Definition ReadVarInt32_body (l : Z * Z) : ST CBitRead (Z * Z + Z) :=
  let '(count, result) := l in
  if count =? kMaxVarint32Bytes then mret (inr result)
  else
    b ← ReadUBitLong 8;
    let result := Z.lor result (u32 (Z.shiftl (Z.land b 127) (7 * count))) in
    mret (if Z.land b 128 =? 0 then inr result else inl (count + 1, result)).

(** At most five bytes are read, so six rounds are enough. *)
Definition ReadVarInt32 : ST CBitRead Z := st_loop 6 ReadVarInt32_body (0, 0).

Definition ReadVarInt64_body (l : Z * Z) : ST CBitRead (Z * Z + Z) :=
  let '(count, result) := l in
  if count =? kMaxVarintBytes then mret (inr result)
  else
    b ← ReadUBitLong 8;
    let result := Z.lor result (u64 (Z.shiftl (Z.land b 127) (7 * count))) in
    mret (if Z.land b 128 =? 0 then inr result else inl (count + 1, result)).

Definition ReadVarInt64 : ST CBitRead Z := st_loop 11 ReadVarInt64_body (0, 0).

Definition ReadSignedVarInt32 : ST CBitRead Z :=
  n ← ReadVarInt32; mret (ZigZagDecode32 n).

Definition ReadSignedVarInt64 : ST CBitRead Z :=
  n ← ReadVarInt64; mret (ZigZagDecode64 n).

(** * Fixed-width integers *)

Definition ReadChar : ST CBitRead Z := ReadSBitLong 8.
Definition ReadByte : ST CBitRead Z := ReadUBitLong 8.
Definition ReadShort : ST CBitRead Z := ReadSBitLong 16.
Definition ReadWord : ST CBitRead Z := ReadUBitLong 16.

(** * Positioning *)

(** The one to three bytes at the head of the buffer, which [Seek] puts into
    the word one by one: the pointer behind them and the word. *)
Definition Seek_partial (nHead : Z) (s : CBitRead) : result (Z * Z) :=
  let pPartial := m_pData s in
  if m_pData s =? 0 then Ok (pPartial, m_nInBufWord s)
  else
    b0 ← load8 m pPartial;
    r1 ← (if 1 <? nHead then
            b1 ← load8 m (pPartial + 1);
            Ok (pPartial + 2, Z.lor b0 (u32 (Z.shiftl b1 8)))
          else Ok (pPartial + 1, b0));
    let '(pPartial, word) := r1 : Z * Z in
    if 2 <? nHead then
      b2 ← load8 m pPartial;
      Ok (pPartial + 1, Z.lor word (u32 (Z.shiftl b2 16)))
    else Ok (pPartial, word).

Definition Seek (nPosition : Z) : ST CBitRead bool :=
  s0 ← st_get;
  let bSucc := negb ((nPosition <? 0) || (m_nDataBits s0 <? nPosition)) in
  (if bSucc then mret tt else SetOverflowFlag);;
  let nPosition := if bSucc then nPosition else m_nDataBits s0 in
  let nHead := Z.land (m_nDataBytes s0) 3 in
  let nByteOfs := Z.quot nPosition 8 in
  (if (m_nDataBytes s0 <? 4) || (negb (nHead =? 0) && (nByteOfs <? nHead)) then
     (* partial first dword *)
     r ← st_lift (Seek_partial nHead s0);
     let '(p, w) := r : Z * Z in
     st_modify (fun s =>
       set_avail (Z.shiftl nHead 3 - Z.land nPosition 31)
         (set_word (Z.shiftr w (Z.land nPosition 31)) (set_dataIn p s)))
   else
     let nAdjPosition := s32 (nPosition - Z.shiftl nHead 3) in
     st_modify (set_dataIn
       (m_pData s0 + Z.shiftl (Z.quot nAdjPosition 32) 2 + nHead));;
     (if negb (m_pData s0 =? 0) then
        st_modify (set_avail 32);; GrabNextDWord false
      else st_modify (fun s => set_avail 1 (set_word 0 s)));;
     st_modify (fun s =>
       set_avail (MIN (m_nBitsAvail s) (32 - Z.land nAdjPosition 31))
         (set_word (Z.shiftr (m_nInBufWord s) (Z.land nAdjPosition 31)) s)));;
  mret bSucc.

Definition SeekRelative (nOffset : Z) : ST CBitRead bool :=
  s ← st_get; Seek (s32 (GetNumBitsRead s + nOffset)).

Definition StartReading (pData nBytes iStartBit nBits : Z) : ST CBitRead unit :=
  (* Make sure it's dword aligned and padded. *)
  assert_ (Z.land pData 3 =? 0);;
  s ← st_get;
  (if nBits =? -1 then mret tt else assert_ (nBits <=? nBytes * 8));;
  st_put (mkBitRead (m_nInBufWord s) (m_nBitsAvail s) pData (pData + nBytes) pData
    false (if nBits =? -1 then s32 (Z.shiftl nBytes 3) else nBits) (u32 nBytes));;
  if negb (pData =? 0) then Seek iStartBit;; mret tt else mret tt.

(** The constructors. The three members a constructor leaves uninitialised
    take the values found in the object's storage [raw]. *)
Definition CBitRead_default (raw : CBitRead) : CBitRead :=
  mkBitRead (m_nInBufWord raw) (m_nBitsAvail raw) (m_pDataIn raw)
    (m_pBufferEnd raw) (m_pData raw) false (-1) 0.

Definition CBitRead_new (raw : CBitRead) (pData nBytes nBits : Z) : result CBitRead :=
  r ← StartReading pData nBytes 0 nBits (CBitRead_default raw);
  mret (snd r).

(** * Byte strings *)

(** The locals are the characters stored so far and [bTooSmall]. *)
Definition ReadString_body (maxLen : Z) (bLine : bool) (l : list Z * bool)
    : ST CBitRead (list Z * bool + list Z * bool) :=
  let '(str, bTooSmall) := l in
  val ← ReadChar;
  if val =? 0 then mret (inr (str, bTooSmall))
  else if bLine && (val =? 10) then mret (inr (str, bTooSmall))
  else if Z.of_nat (length str) <? maxLen - 1
       then mret (inl (str ++ [val], bTooSmall))
       else mret (inl (str, true)).

(** The number of characters is at most the number of bytes left; a read
    beyond the end yields the character 0, which ends the loop. *)
Definition ReadString (fuel : nat) (maxLen : Z) (bLine : bool)
    : ST CBitRead (list Z * bool) :=
  assert_ (negb (maxLen =? 0));;
  r ← st_loop fuel (ReadString_body maxLen bLine) ([], false);
  let '(str, bTooSmall) := r : list Z * bool in
  assert_ (Z.of_nat (length str) <? maxLen);;
  s ← st_get;
  mret (str, negb (IsOverflowed s) && negb bTooSmall).

(** [ReadBits]: [pOut] is the output address, [out] the bytes written so far.
    The four loops of the function. *)
Definition ReadBits_align (l : Z * Z * list Z)
    : ST CBitRead (Z * Z * list Z + Z * Z * list Z) :=
  let '(pOut, nBitsLeft, out) := l in
  if negb (Z.land pOut 3 =? 0) && (8 <=? nBitsLeft) then
    b ← ReadUBitLong 8; mret (inl (pOut + 1, nBitsLeft - 8, out ++ [b]))
  else mret (inr l).

Definition ReadBits_dwords (l : Z * Z * list Z)
    : ST CBitRead (Z * Z * list Z + Z * Z * list Z) :=
  let '(pOut, nBitsLeft, out) := l in
  if 32 <=? nBitsLeft then
    w ← ReadUBitLong 32;
    mret (inl (pOut + 4, nBitsLeft - 32,
      out ++ [bits w 0 8; bits w 8 8; bits w 16 8; bits w 24 8]))
  else mret (inr l).

Definition ReadBits_bytes (l : Z * Z * list Z)
    : ST CBitRead (Z * Z * list Z + Z * Z * list Z) :=
  let '(pOut, nBitsLeft, out) := l in
  if 8 <=? nBitsLeft then
    b ← ReadUBitLong 8; mret (inl (pOut + 1, nBitsLeft - 8, out ++ [b]))
  else mret (inr l).

(** Every round consumes at least eight of the [nBits]. *)
Definition ReadBits (pOut nBits : Z) : ST CBitRead (list Z) :=
  let fuel := Datatypes.S (Z.to_nat nBits) in
  l1 ← st_loop fuel ReadBits_align (pOut, nBits, []);
  l2 ← st_loop fuel ReadBits_dwords l1;
  l3 ← st_loop fuel ReadBits_bytes l2;
  let '(_, nBitsLeft, out) := l3 : Z * Z * list Z in
  if negb (nBitsLeft =? 0) then
    b ← ReadUBitLong nBitsLeft; mret (out ++ [bits b 0 8])
  else mret out.

Definition ReadBytes (pOut nBytes : Z) : ST CBitRead (list Z * bool) :=
  out ← ReadBits pOut (s32 (Z.shiftl nBytes 3));
  s ← st_get;
  mret (out, negb (IsOverflowed s)).
End Reader.
