(* ===== verification/Float32.v ===== *)
(** Single precision arithmetic, as the compiler's [float]: the operations of the
    standard library's IEEE 754 specification at 24 bits, when they are exact, and the bits of a number. *)

From S2P Require Import Prelude CMem BitRead.
From Stdlib Require Export SpecFloat.

Definition float32 : Type := spec_float.

Definition f32_of_Z (z : Z) : float32 := binary_normalize 24 128 z 0 false.
Definition f32_add : float32 -> float32 -> float32 := SFadd 24 128.
Definition f32_sub : float32 -> float32 -> float32 := SFsub 24 128.
Definition f32_mul : float32 -> float32 -> float32 := SFmul 24 128.
Definition f32_div : float32 -> float32 -> float32 := SFdiv 24 128.
Definition f32_sqrt : float32 -> float32 := SFsqrt 24 128.
Definition f32_opp : float32 -> float32 := SFopp.
Definition f32_lt : float32 -> float32 -> bool := SFltb.
Definition f32_zero : float32 := S754_zero false.
Definition f32_one : float32 := f32_of_Z 1.

(** A float whose bits are the 32-bit integer [w]. *)
Definition f32_of_bits (w : Z) : float32 :=
  let s := Z.testbit w 31 in
  let e := bits w 23 8 in
  let m := bits w 0 23 in
  if e =? 255 then (if m =? 0 then S754_infinity s else S754_nan)
  else
    match (if e =? 0 then m else m + 2 ^ 23) with
    | Zpos p => S754_finite s p (Z.max e 1 - 150)
    | _ => S754_zero s
    end.

(** The bits of a float; a NaN's are not determined. *)
Definition bits_of_f32 (nan : Z) (f : float32) : Z :=
  match f with
  | S754_zero s => b2z s * 2 ^ 31
  | S754_infinity s => b2z s * 2 ^ 31 + 255 * 2 ^ 23
  | S754_nan => nan
  | S754_finite s m e =>
      b2z s * 2 ^ 31 + (if Zpos m <? 2 ^ 23 then Zpos m else (e + 150) * 2 ^ 23 + (Zpos m - 2 ^ 23))
  end.

(** The value of a finite float, in units of [2^-149]. *)
Definition f32_val (f : float32) : option Z :=
  match f with
  | S754_zero _ => Some 0
  | S754_finite s m e => if e <? -149 then None else Some (cond_Zopp s (Zpos m * 2 ^ (e + 149)))
  | _ => None
  end.

(** The integers that are values of normal floats. *)
Definition normal (z : Z) : Prop :=
  exists M t, 2 ^ 23 <= Zpos M < 2 ^ 24 /\ 0 <= t <= 253 /\ Z.abs z = Zpos M * 2 ^ t.

(** * Exact rounding *)

Lemma digits_log2 p : Zpos (digits2_pos p) = Z.log2 (Zpos p) + 1.
Proof.
  induction p as [p IH|p IH|]; cbn [digits2_pos]; [| |done].
  - rewrite Pos2Z.inj_succ, IH. change (Zpos p~1) with (2 * Zpos p + 1).
    rewrite Z.log2_succ_double by lia. lia.
  - rewrite Pos2Z.inj_succ, IH. change (Zpos p~0) with (2 * Zpos p).
    rewrite Z.log2_double by lia. lia.
Qed.

Lemma digits_normal M k : 2 ^ 23 <= Zpos M < 2 ^ 24 -> 0 <= k -> forall p,
  Zpos p = Zpos M * 2 ^ k -> Zpos (digits2_pos p) = 24 + k.
Proof.
  intros HM Hk p E. rewrite digits_log2, E, Z.log2_mul_pow2 by lia.
  assert (Z.log2 (Zpos M) = 23) as -> by (apply Z.log2_unique; lia). lia.
Qed.

Lemma shr_1_double z : shr_1 (Build_shr_record (2 * z) false false) = Build_shr_record z false false.
Proof. by destruct z. Qed.

Lemma shr_exact p M : iter_pos shr_1 p (Build_shr_record (M * 2 ^ Zpos p) false false) =
  Build_shr_record M false false.
Proof.
  revert M. induction p as [p IH|p IH|]; intros M; cbn [iter_pos].
  - change (Zpos p~1) with (2 * Zpos p + 1). rewrite Z.pow_add_r, Z.pow_1_r by lia.
    replace (M * (2 ^ (2 * Zpos p) * 2)) with (2 * (M * 2 ^ (2 * Zpos p))) by lia.
    rewrite shr_1_double. replace (2 * Zpos p) with (Zpos p + Zpos p) by lia.
    rewrite Z.pow_add_r, Z.mul_assoc by lia. by rewrite !IH.
  - change (Zpos p~0) with (2 * Zpos p). replace (2 * Zpos p) with (Zpos p + Zpos p) by lia.
    rewrite Z.pow_add_r, Z.mul_assoc by lia. by rewrite !IH.
  - change (2 ^ 1) with 2. rewrite Z.mul_comm. apply shr_1_double.
Qed.

Lemma shr_fexp_exact M k E p : 2 ^ 23 <= Zpos M < 2 ^ 24 -> 0 <= k -> -149 <= E + k ->
  Zpos p = Zpos M * 2 ^ k ->
  shr_fexp 24 128 (Zpos p) E loc_Exact = (Build_shr_record (Zpos M) false false, E + k).
Proof.
  intros HM Hk HE Ep. unfold shr_fexp, fexp, emin. cbn [Zdigits2 shr_record_of_loc].
  rewrite (digits_normal M k) by done.
  replace (Z.max (24 + k + E - 24) (3 - 128 - 24) - E) with k by lia.
  destruct k as [|k|k]; [| |lia]; cbn [shr].
  - rewrite Z.mul_1_r in Ep. rewrite Ep. f_equal. lia.
  - rewrite Ep. by rewrite shr_exact.
Qed.

Lemma round_aux_exact s M k E p : 2 ^ 23 <= Zpos M < 2 ^ 24 -> 0 <= k -> -149 <= E + k <= 104 ->
  Zpos p = Zpos M * 2 ^ k ->
  binary_round_aux 24 128 s (Zpos p) E loc_Exact = S754_finite s M (E + k).
Proof.
  intros HM Hk HE Ep. unfold binary_round_aux. rewrite (shr_fexp_exact M k E p) by (done || lia).
  cbn [shr_m loc_of_shr_record round_nearest_even].
  rewrite (shr_fexp_exact M 0 (E + k) M) by lia. cbn [shr_m]. rewrite Z.add_0_r.
  by rewrite (proj2 (Z.leb_le _ _)) by lia.
Qed.

Lemma iter_xO p d : Zpos (Pos.iter xO p d) = Zpos p * 2 ^ Zpos d.
Proof.
  induction d using Pos.peano_ind.
  - simpl. lia.
  - rewrite Pos.iter_succ, Pos2Z.inj_succ, Z.pow_succ_r by lia.
    change (Zpos (Pos.iter xO p d)~0) with (2 * Zpos (Pos.iter xO p d)). rewrite IHd. lia.
Qed.

(** An aligned integer whose value is normal is represented exactly. *)
Lemma binary_round_exact s m E z : -149 <= E -> Zpos m * 2 ^ (E + 149) = z -> normal z ->
  exists M t, binary_round 24 128 s m E = S754_finite s M (t - 149) /\
    2 ^ 23 <= Zpos M < 2 ^ 24 /\ 0 <= t <= 253 /\ z = Zpos M * 2 ^ t.
Proof.
  intros HE Ez (M & t & HM & Ht & Hz). assert (0 < 2 ^ (E + 149)) by (apply Z.pow_pos_nonneg; lia).
  rewrite Z.abs_eq in Hz by lia. exists M, t. split; [|done].
  unfold binary_round. set (d := Zpos (digits2_pos m)).
  assert (d + E + 125 = t) as Hd.
  { assert (Z.log2 z = 23 + t) as H1.
    { rewrite Hz, Z.log2_mul_pow2 by lia. rewrite (Z.log2_unique (Zpos M) 23) by lia. lia. }
    rewrite <- Ez, Z.log2_mul_pow2 in H1 by lia. unfold d. rewrite digits_log2. lia. }
  unfold fexp, emin, shl_align. replace (Z.max (d + E - 24) (3 - 128 - 24) - E) with (d - 24) by lia.
  assert (0 <= d - 24 -> Zpos m = Zpos M * 2 ^ (d - 24)) as Hm.
  { intros Hd24. apply (Z.mul_reg_r _ _ (2 ^ (E + 149))); [lia|].
    rewrite Ez, Hz, <- Z.mul_assoc, <- Z.pow_add_r by lia. do 2 f_equal. lia. }
  destruct (d - 24) as [|k|k] eqn:Ek.
  - rewrite (round_aux_exact s M 0 E) by (try apply Hm; lia). f_equal. lia.
  - rewrite (round_aux_exact s M (Zpos k) E) by (try apply Hm; lia). f_equal. lia.
  - assert (Zpos (Pos.iter xO m k) = Zpos M) as Em.
    { rewrite iter_xO. apply (Z.mul_reg_r _ _ (2 ^ t)); [pose proof (Z.pow_pos_nonneg 2 t); lia|].
      rewrite <- Hz, <- Ez, <- Z.mul_assoc, <- Z.pow_add_r by lia. do 2 f_equal. lia. }
    rewrite Em, (round_aux_exact s M 0) by (rewrite ?Z.mul_1_r; lia). f_equal. lia.
Qed.

Lemma f32_val_finite s M t : 0 <= t -> f32_val (S754_finite s M (t - 149)) =
  Some (cond_Zopp s (Zpos M * 2 ^ t)).
Proof.
  intros Ht. unfold f32_val. destruct (Z.ltb_spec (t - 149) (-149)); [lia|].
  do 4 f_equal. lia.
Qed.

Lemma normalize_exact m E sz z : -149 <= E -> m * 2 ^ (E + 149) = z -> z = 0 \/ normal z ->
  f32_val (binary_normalize 24 128 m E sz) = Some z.
Proof.
  intros HE Ez Hn. assert (0 < 2 ^ (E + 149)) by (apply Z.pow_pos_nonneg; lia).
  destruct m as [|m|m]; simpl binary_normalize.
  - simpl. f_equal. lia.
  - destruct Hn as [->|Hn]; [lia|].
    destruct (binary_round_exact false m E z HE Ez Hn) as (M & t & -> & _ & Ht & Hz).
    rewrite f32_val_finite by lia. simpl. by rewrite <- Hz.
  - destruct Hn as [->|Hn]; [lia|].
    destruct (binary_round_exact true m E (- z)) as (M & t & -> & _ & Ht & Hz); [done|lia| |].
    { destruct Hn as (M & t & ?). exists M, t. by rewrite Z.abs_opp. }
    rewrite f32_val_finite by lia. simpl cond_Zopp. f_equal. lia.
Qed.

Lemma align_val m E Ez : Ez <= E -> -149 <= Ez ->
  Zpos (fst (shl_align m E Ez)) * 2 ^ (Ez + 149) = Zpos m * 2 ^ (E + 149).
Proof.
  intros H1 H2. unfold shl_align. destruct (Ez - E) as [|k|k] eqn:Ek; cbn [fst]; [|lia|].
  - by replace Ez with E by lia.
  - rewrite iter_xO, <- Z.mul_assoc, <- Z.pow_add_r by lia. do 2 f_equal. lia.
Qed.

Lemma cond_Zopp_mul b x y : cond_Zopp b x * y = cond_Zopp b (x * y).
Proof. destruct b; simpl; lia. Qed.

(** A sum is exact when it is a normal number. *)
Lemma f32_add_exact x y a b : f32_val x = Some a -> f32_val y = Some b ->
  a + b = 0 \/ normal (a + b) -> f32_val (f32_add x y) = Some (a + b).
Proof.
  intros Hx Hy Hn. unfold f32_add.
  destruct x as [sx| | |sx mx ex]; try done; destruct y as [sy| | |sy my ey]; try done.
  - injection Hx as <-. injection Hy as <-. simpl. by destruct sx, sy.
  - injection Hx as <-. by rewrite Z.add_0_l.
  - injection Hy as <-. by rewrite Z.add_0_r.
  - unfold f32_val in Hx, Hy. destruct (Z.ltb_spec ex (-149)); [done|].
    destruct (Z.ltb_spec ey (-149)); [done|]. injection Hx as <-. injection Hy as <-.
    cbn [SFadd]. apply normalize_exact; [lia| |done].
    rewrite Z.mul_add_distr_r, !cond_Zopp_mul, !align_val by lia. done.
Qed.

(** Integers of up to 24 bits are floats. *)
Lemma normal_shift n t : 0 < Z.abs n < 2 ^ 24 -> 23 <= t <= 230 -> normal (n * 2 ^ t).
Proof.
  intros Hn Ht. set (l := Z.log2 (Z.abs n)). pose proof (Z.log2_spec (Z.abs n) ltac:(lia)) as Hl.
  pose proof (Z.log2_nonneg (Z.abs n)). fold l in Hl, H.
  assert (l < 24) by (apply Z.log2_lt_pow2; lia).
  exists (Z.to_pos (Z.abs n * 2 ^ (23 - l))), (t - (23 - l)).
  assert (0 < 2 ^ (23 - l)) by (apply Z.pow_pos_nonneg; lia).
  rewrite Z2Pos.id by nia. split; [|split; [lia|]].
  - rewrite <- Z.add_1_r in Hl.
    replace (2 ^ 23) with (2 ^ l * 2 ^ (23 - l)) by (rewrite <- Z.pow_add_r by lia; f_equal; lia).
    replace (2 ^ 24) with (2 ^ (l + 1) * 2 ^ (23 - l)) by (rewrite <- Z.pow_add_r by lia; f_equal; lia).
    nia.
  - rewrite <- Z.mul_assoc, <- Z.pow_add_r by lia. rewrite Z.abs_mul.
    rewrite (Z.abs_eq (2 ^ t)) by (apply Z.pow_nonneg; lia). do 2 f_equal. lia.
Qed.

Lemma f32_of_Z_val n : Z.abs n < 2 ^ 24 -> f32_val (f32_of_Z n) = Some (n * 2 ^ 149).
Proof.
  intros Hn. apply normalize_exact; [lia|done|]. destruct (decide (n = 0)) as [->|]; [by left|].
  right. apply normal_shift; lia.
Qed.

(** Integers as floats have 24 digits, or are zero. *)
Lemma f32_of_Z_finite n : 0 < n < 2 ^ 24 -> exists M E, f32_of_Z n = S754_finite false M E /\
  2 ^ 23 <= Zpos M < 2 ^ 24 /\ -23 <= E <= 0 /\ Zpos M = n * 2 ^ (- E).
Proof.
  intros Hn. destruct n as [|p|p]; [lia| |lia]. unfold f32_of_Z. simpl binary_normalize.
  assert (normal (Zpos p * 2 ^ 149)) as Hnn by (apply normal_shift; lia).
  destruct (binary_round_exact false p 0 _ ltac:(lia) eq_refl Hnn) as (M & t & -> & HM & Ht & Hz).
  exists M, (t - 149). split; [done|]. split; [done|]. change (0 + 149) with 149 in Hz.
  assert (t <= 149) as Ht2.
  { destruct (Z.le_gt_cases t 149); [done|]. assert (2 ^ t = 2 ^ (t - 149) * 2 ^ 149) as Hp
      by (rewrite <- Z.pow_add_r by lia; f_equal; lia). rewrite Hp in Hz.
    assert (2 ^ 1 <= 2 ^ (t - 149)) by (apply Z.pow_le_mono_r; lia).
    assert (0 < 2 ^ 149) by lia. nia. }
  assert (Zpos M = Zpos p * 2 ^ (149 - t)) as HMp.
  { apply (Z.mul_reg_r _ _ (2 ^ t)); [pose proof (Z.pow_pos_nonneg 2 t); lia|].
    rewrite <- Hz, <- Z.mul_assoc, <- Z.pow_add_r by lia. do 2 f_equal. lia. }
  replace (- (t - 149)) with (149 - t) by lia. split; [|done].
  split; [|lia]. destruct (Z.le_gt_cases 126 t); [lia|].
  assert (2 ^ 24 <= 2 ^ (149 - t)) by (apply Z.pow_le_mono_r; lia). nia.
Qed.

(** Scaling by a power of two, [2^k] as a float. *)
Lemma f32_mul_pow2 n k : 0 <= n < 2 ^ 24 -> -100 <= k <= 0 ->
  f32_val (f32_mul (f32_of_Z n) (S754_finite false (2 ^ 23) (k - 23))) = Some (n * 2 ^ (149 + k)).
Proof.
  intros Hn Hk. destruct (decide (n = 0)) as [->|]; [done|].
  destruct (f32_of_Z_finite n) as (M & E & -> & HM & HE & En); [lia|].
  unfold f32_mul. cbn [SFmul xorb].
  rewrite (round_aux_exact false M 23) by (try lia; by rewrite Pos2Z.inj_mul).
  replace (E + (k - 23) + 23) with ((E + k + 149) - 149) by lia.
  rewrite f32_val_finite by lia. simpl cond_Zopp. f_equal.
  rewrite En, <- Z.mul_assoc, <- Z.pow_add_r by lia. do 2 f_equal. lia.
Qed.

Lemma f32_opp_val x a : f32_val x = Some a -> f32_val (f32_opp x) = Some (- a).
Proof.
  destruct x as [s| | |s m e]; try done; simpl.
  - by intros [= <-].
  - destruct (e <? -149); [done|]. intros [= <-]. f_equal. destruct s; simpl; lia.
Qed.

(** The floating point reads of [CBitRead] (packetbitbuf.cpp, with the field sizes
    of coordsize.h): angles, coordinates, normals and raw floats. *)

Definition COORD_INTEGER_BITS : Z := 14.
Definition COORD_FRACTIONAL_BITS : Z := 5.
Definition COORD_DENOMINATOR : Z := Z.shiftl 1 COORD_FRACTIONAL_BITS.
Definition COORD_RESOLUTION : float32 := f32_div f32_one (f32_of_Z COORD_DENOMINATOR).
Definition COORD_INTEGER_BITS_MP : Z := 11.
Definition COORD_FRACTIONAL_BITS_MP_LOWPRECISION : Z := 3.
Definition COORD_DENOMINATOR_LOWPRECISION : Z :=
  Z.shiftl 1 COORD_FRACTIONAL_BITS_MP_LOWPRECISION.
Definition COORD_RESOLUTION_LOWPRECISION : float32 :=
  f32_div f32_one (f32_of_Z COORD_DENOMINATOR_LOWPRECISION).
Definition NORMAL_FRACTIONAL_BITS : Z := 11.
Definition NORMAL_DENOMINATOR : Z := Z.shiftl 1 NORMAL_FRACTIONAL_BITS - 1.
Definition NORMAL_RESOLUTION : float32 := f32_div f32_one (f32_of_Z NORMAL_DENOMINATOR).

Inductive EBitCoordType :=
  | kCW_None
  | kCW_LowPrecision
  | kCW_Integral.

#[export] Instance EBitCoordType_eq_dec : EqDecision EBitCoordType.
Proof. solve_decision. Defined.

Record Vector := mkVector {
  vec_x : float32;
  vec_y : float32;
  vec_z : float32
}.

Record QAngle := mkQAngle {
  ang_x : float32;
  ang_y : float32;
  ang_z : float32
}.

Definition bitsForBitnum : list Z :=
  [0x1; 0x2; 0x4; 0x8; 0x10; 0x20; 0x40; 0x80;
   0x100; 0x200; 0x400; 0x800; 0x1000; 0x2000; 0x4000; 0x8000;
   0x10000; 0x20000; 0x40000; 0x80000; 0x100000; 0x200000; 0x400000; 0x800000;
   0x1000000; 0x2000000; 0x4000000; 0x8000000; 0x10000000; 0x20000000; 0x40000000;
   - 0x80000000].

Definition GetBitForBitnum (bitNum : Z) : result Z :=
  tbl bitsForBitnum (Z.land bitNum 31).

Section Floats.
Context (m : mem).

Definition ReadBitAngle (numbits : Z) : ST CBitRead float32 :=
  b ← st_lift (GetBitForBitnum numbits);
  let shift := f32_of_Z b in
  i ← ReadUBitLong m numbits;
  mret (f32_mul (f32_of_Z (s32 i)) (f32_div (f32_of_Z 360) shift)).

(** [value = intval + ((float)fractval * resolution)]. *)
Definition coord_value (intval fractval : Z) (resolution : float32) : float32 :=
  f32_add (f32_of_Z intval) (f32_mul (f32_of_Z fractval) resolution).

Definition fix_sign (signbit : Z) (value : float32) : float32 :=
  if signbit =? 0 then value else f32_opp value.

Definition ReadBitCoord : ST CBitRead float32 :=
  intval ← ReadOneBit m;
  fractval ← ReadOneBit m;
  if negb (intval =? 0) || negb (fractval =? 0) then
    signbit ← ReadOneBit m;
    intval ← (if negb (intval =? 0) then
                v ← ReadUBitLong m COORD_INTEGER_BITS; mret (s32 (u32 (v + 1)))
              else mret intval);
    fractval ← (if negb (fractval =? 0) then
                  v ← ReadUBitLong m COORD_FRACTIONAL_BITS; mret (s32 v)
                else mret fractval);
    mret (fix_sign signbit (coord_value intval fractval COORD_RESOLUTION))
  else mret f32_zero.

(** The integer part, whose width the [bInBounds] flag selects. *)
Definition read_mp_integer (bInBounds : bool) : ST CBitRead Z :=
  v ← ReadUBitLong m (if bInBounds then COORD_INTEGER_BITS_MP else COORD_INTEGER_BITS);
  mret (u32 (v + 1)).

Definition ReadBitCoordMP (coordType : EBitCoordType) : ST CBitRead float32 :=
  let bIntegral := bool_decide (coordType = kCW_Integral) in
  let bLowPrecision := bool_decide (coordType = kCW_LowPrecision) in
  b ← ReadOneBit m;
  let bInBounds := negb (b =? 0) in
  if bIntegral then
    intval ← ReadOneBit m;
    if negb (intval =? 0) then
      signbit ← ReadOneBit m;
      v ← read_mp_integer bInBounds;
      mret (fix_sign signbit (f32_of_Z v))
    else mret f32_zero
  else
    intval ← ReadOneBit m;
    signbit ← ReadOneBit m;
    intval ← (if negb (intval =? 0) then v ← read_mp_integer bInBounds; mret (s32 v)
              else mret intval);
    fractval ← ReadUBitLong m (if bLowPrecision then COORD_FRACTIONAL_BITS_MP_LOWPRECISION
                               else COORD_FRACTIONAL_BITS);
    mret (fix_sign signbit (coord_value intval (s32 fractval)
      (if bLowPrecision then COORD_RESOLUTION_LOWPRECISION else COORD_RESOLUTION))).

Definition ReadBitCellCoord (bits_ : Z) (coordType : EBitCoordType) : ST CBitRead float32 :=
  let bIntegral := bool_decide (coordType = kCW_Integral) in
  let bLowPrecision := bool_decide (coordType = kCW_LowPrecision) in
  if bIntegral then
    v ← ReadUBitLong m bits_; mret (f32_of_Z v)
  else
    intval ← ReadUBitLong m bits_;
    fractval ← ReadUBitLong m (if bLowPrecision then COORD_FRACTIONAL_BITS_MP_LOWPRECISION
                               else COORD_FRACTIONAL_BITS);
    mret (coord_value (s32 intval) (s32 fractval)
      (if bLowPrecision then COORD_RESOLUTION_LOWPRECISION else COORD_RESOLUTION)).

Definition ReadBitVec3Coord : ST CBitRead Vector :=
  xflag ← ReadOneBit m;
  yflag ← ReadOneBit m;
  zflag ← ReadOneBit m;
  x ← (if negb (xflag =? 0) then ReadBitCoord else mret f32_zero);
  y ← (if negb (yflag =? 0) then ReadBitCoord else mret f32_zero);
  z ← (if negb (zflag =? 0) then ReadBitCoord else mret f32_zero);
  mret (mkVector x y z).

Definition ReadBitNormal : ST CBitRead float32 :=
  signbit ← ReadOneBit m;
  fractval ← ReadUBitLong m NORMAL_FRACTIONAL_BITS;
  mret (fix_sign signbit (f32_mul (f32_of_Z fractval) NORMAL_RESOLUTION)).

Definition ReadBitVec3Normal : ST CBitRead Vector :=
  xflag ← ReadOneBit m;
  yflag ← ReadOneBit m;
  x ← (if negb (xflag =? 0) then ReadBitNormal else mret f32_zero);
  y ← (if negb (yflag =? 0) then ReadBitNormal else mret f32_zero);
  znegative ← ReadOneBit m;
  let fafafbfb := f32_add (f32_mul x x) (f32_mul y y) in
  let z := if f32_lt fafafbfb f32_one then f32_sqrt (f32_sub f32_one fafafbfb)
           else f32_zero in
  mret (mkVector x y (fix_sign znegative z)).

Definition ReadBitAngles : ST CBitRead QAngle :=
  tmp ← ReadBitVec3Coord;
  mret (mkQAngle (vec_x tmp) (vec_y tmp) (vec_z tmp)).

Definition ReadBitFloat : ST CBitRead float32 :=
  nvalue ← ReadUBitLong m 32;
  mret (f32_of_bits nvalue).
End Floats.
