(* ===== verification/BitStream.v ===== *)
(** What the bit reader promises: a cursor over the bits of a buffer.  The
    abstract reader is a position in the buffer's little-endian value, or the
    overflowed state; the theorems of this file show that [CBitRead] implements
    it, and that no operation leaves the buffer whatever the reader's state. *)

From S2P Require Import Prelude CMem BitRead.

(** Projections of updated objects. *)
Ltac br_simpl := cbn [m_nInBufWord m_nBitsAvail m_pDataIn m_pBufferEnd m_pData
  m_bOverflow m_nDataBits m_nDataBytes set_word set_avail set_dataIn set_overflow
  fst snd] in *.

(** * The abstract reader *)

(** At bit [p], or past the end. *)
Inductive cursor :=
  | At (p : Z)
  | Over.

#[export] Instance cursor_eq_dec : EqDecision cursor.
Proof. solve_decision. Defined.

(** [n] bits at the cursor of the stream of [total] bits whose value is [B]. *)
Definition abs_read (B total n : Z) (c : cursor) : Z * cursor :=
  match c with
  | At p => if p + n <=? total then (bits B p n, At (p + n)) else (0, Over)
  | Over => (0, Over)
  end.

Definition abs_tell (total : Z) (c : cursor) : Z :=
  match c with At p => p | Over => total end.

Section Buffer.
Context (m : mem) (base : Z) (l : list Z).

Let len : Z := Z.of_nat (length l).
Let B : Z := le_join l.

(** A buffer of at least one dword that does not wrap around the address
    space, whose bits can be counted by an [int]. *)
Record buffer_ok : Prop := {
  bo_holds : holds m base l;
  bo_bytes : Forall is_byte l;
  bo_base : 0 < base;
  bo_min : 4 <= Z.of_nat (length l);
  bo_max : Z.of_nat (length l) < 2 ^ 28 - 8;
  bo_addr : base + Z.of_nat (length l) + 4 < 2 ^ 32
}.

(** The fields that [StartReading] sets. *)
Definition framed (s : CBitRead) : Prop :=
  m_pData s = base /\ m_pBufferEnd s = base + len /\
  m_nDataBits s = 8 * len /\ m_nDataBytes s = len.

(** The unread bits of the current word start at bit [p]. *)
Definition at_bit (p : Z) (s : CBitRead) : Prop :=
  exists o, m_pDataIn s = base + o /\ 0 <= o <= len /\ (len - o) mod 4 = 0 /\
    m_nBitsAvail s = 8 * o - p /\ 0 < m_nBitsAvail s <= 32 /\ 0 <= p /\
    m_nInBufWord s = bits B p (m_nBitsAvail s).

(** All words are consumed. *)
Definition at_end (s : CBitRead) : Prop :=
  m_pDataIn s = base + len + 4 /\ m_nInBufWord s = 0.

(** The object implements the cursor. *)
Definition Rep (c : cursor) (s : CBitRead) : Prop :=
  framed s /\
  match c with
  | At p => m_bOverflow s = false /\
      (at_bit p s \/ p = 8 * len /\ at_end s /\ m_nBitsAvail s = 1)
  | Over => m_bOverflow s = true /\ at_end s /\ 0 < m_nBitsAvail s <= 32
  end.

(** What holds of the object in any state, overflowed or repositioned. *)
Definition Safe (s : CBitRead) : Prop :=
  framed s /\ 0 <= m_nInBufWord s < 2 ^ 32 /\ 0 < m_nBitsAvail s <= 32 /\
  ((exists o, m_pDataIn s = base + o /\ 0 <= o <= len /\ (len - o) mod 4 = 0)
   \/ m_pDataIn s = base + len + 4).

(** [op] computes what [spec] says, on the same cursor. *)
Definition sim {A} (op : ST CBitRead A) (spec : cursor -> A * cursor) : Prop :=
  forall c s, Rep c s ->
  exists s', op s = Ok (fst (spec c), s') /\ Rep (snd (spec c)) s'.

(** [op] does not fault in any state, and its result satisfies [P]. *)
Definition safe_op {A} (op : ST CBitRead A) (P : A -> Prop) : Prop :=
  forall s, Safe s -> exists a s', op s = Ok (a, s') /\ P a /\ Safe s'.

Lemma Rep_Safe c s : Rep c s -> Safe s.
Proof.
  intros [Hf Hc]. split; [done|]. destruct c as [p|].
  - destruct Hc as [_ [(o & Hp & Ho & Hm & Ha & Hb & _ & Hw)|(_ & [Hp Hw] & Ha)]].
    + rewrite Hw. pose proof (bits_range B p (m_nBitsAvail s)) as Hr.
      assert (2 ^ m_nBitsAvail s <= 2 ^ 32) by (apply Z.pow_le_mono_r; lia).
      split; [lia|]. split; [done|]. left. eauto.
    + rewrite Hw, Ha. split; [lia|]. split; [lia|]. by right.
  - destruct Hc as (_ & [Hp Hw] & Ha). rewrite Hw.
    split; [lia|]. split; [done|]. by right.
Qed.

Lemma mask_ok n : 0 <= n <= 32 -> tbl s_nMaskTable n = Ok (Z.ones n).
Proof.
  intros Hn. apply tbl_ok; [lia|].
  assert (Hall : forallb (fun i => bool_decide
    (s_nMaskTable !! i = Some (Z.ones (Z.of_nat i)))) (seq 0 33) = true)
    by (vm_compute; reflexivity).
  rewrite forallb_forall in Hall. specialize (Hall (Z.to_nat n)).
  rewrite bool_decide_eq_true in Hall. rewrite Hall; [by rewrite Z2Nat.id by lia|].
  apply in_seq. lia.
Qed.

Section Valid.
Hypothesis Hbuf : buffer_ok.

Lemma len_bounds : 4 <= len < 2 ^ 28 - 8.
Proof. destruct Hbuf. unfold len. lia. Qed.

Lemma grab_word o : 0 <= o -> o < len -> (len - o) mod 4 = 0 ->
  load32 m (base + o) = Ok (bits B (8 * o) 32).
Proof.
  intros Ho Hl Hm. destruct Hbuf. apply load32_holds; try done.
  unfold len in *. pose proof (Z.div_mod (len - o) 4). unfold len in *. lia.
Qed.

(** ** GrabNextDWord *)

Lemma grab_mid b s o : framed s -> m_pDataIn s = base + o -> 0 <= o < len ->
  (len - o) mod 4 = 0 ->
  GrabNextDWord m b s =
    Ok (tt, set_word (bits B (8 * o) 32) (set_dataIn (base + o + 4) s)).
Proof.
  intros (Hd & He & _) Hp Ho Hm. unfold GrabNextDWord. st_run.
  rewrite He, Hp.
  destruct (Z.eqb_spec (base + o) (base + len)); [lia|].
  destruct (Z.ltb_spec (base + len) (base + o)); [lia|].
  rewrite grab_word by lia. by rewrite Hp.
Qed.

Lemma grab_last b s : framed s -> m_pDataIn s = base + len ->
  GrabNextDWord m b s =
    Ok (tt, set_overflow (b || m_bOverflow s)
              (set_dataIn (base + len + 4) (set_word 0 (set_avail 1 s)))).
Proof.
  intros (Hd & He & _) Hp. unfold GrabNextDWord, SetOverflowFlag. st_run.
  rewrite He, Hp, Z.eqb_refl. rewrite Hp. by destruct b.
Qed.

Lemma grab_past b s : framed s -> m_pDataIn s = base + len + 4 ->
  GrabNextDWord m b s = Ok (tt, set_word 0 (set_overflow true s)).
Proof.
  intros (Hd & He & _) Hp. unfold GrabNextDWord, SetOverflowFlag. st_run.
  rewrite He, Hp.
  destruct (Z.eqb_spec (base + len + 4) (base + len)); [lia|].
  by destruct (Z.ltb_spec (base + len) (base + len + 4)); [|lia].
Qed.
(** ** ReadUBitLong, by the number of bits left in the word *)

Lemma read_within n s : 0 <= n < m_nBitsAvail s -> m_nBitsAvail s <= 32 ->
  ReadUBitLong m n s =
    Ok (Z.land (m_nInBufWord s) (Z.ones n),
        set_word (Z.shiftr (m_nInBufWord s) n)
          (set_avail (m_nBitsAvail s - n) s)).
Proof.
  intros Hn Ha. unfold ReadUBitLong. st_run.
  destruct (Z.leb_spec n (m_nBitsAvail s)); [|lia].
  rewrite mask_ok by lia.
  destruct (Z.eqb_spec (m_nBitsAvail s - n) 0); [lia|]. cbn [negb].
  unfold shr32. destruct (Z.leb_spec 0 n); [|lia].
  by destruct (Z.ltb_spec n 32); [|lia].
Qed.

Lemma read_exact n s s' : n = m_nBitsAvail s -> 0 < n <= 32 ->
  GrabNextDWord m false (set_avail 32 (set_avail 0 s)) = Ok (tt, s') ->
  ReadUBitLong m n s = Ok (Z.land (m_nInBufWord s) (Z.ones n), s').
Proof.
  intros -> Ha Hg. unfold ReadUBitLong, FetchNext. st_run.
  rewrite Z.leb_refl, mask_ok by lia. rewrite Z.sub_diag. cbn [Z.eqb negb].
  by rewrite Hg.
Qed.

Lemma read_overflow n s s' : m_nBitsAvail s < n ->
  GrabNextDWord m true s = Ok (tt, s') -> m_bOverflow s' = true ->
  ReadUBitLong m n s = Ok (0, s').
Proof.
  intros Hn Hg Ho. unfold ReadUBitLong. st_run.
  destruct (Z.leb_spec n (m_nBitsAvail s)); [lia|]. by rewrite Hg, Ho.
Qed.

Lemma read_merge n s s' : 0 < m_nBitsAvail s < n -> n <= 32 ->
  GrabNextDWord m true s = Ok (tt, s') -> m_bOverflow s' = false ->
  m_nBitsAvail s' = m_nBitsAvail s ->
  let k := n - m_nBitsAvail s in
  ReadUBitLong m n s =
    Ok (Z.lor (m_nInBufWord s)
          (u32 (Z.shiftl (Z.land (m_nInBufWord s') (Z.ones k)) (m_nBitsAvail s))),
        set_word (Z.shiftr (m_nInBufWord s') k) (set_avail (32 - k) s')).
Proof.
  intros Hn Ha Hg Ho Hs k. unfold ReadUBitLong. st_run.
  destruct (Z.leb_spec n (m_nBitsAvail s)); [lia|]. fold k.
  rewrite Hg, Ho, Hs, mask_ok by lia. unfold shl32, shr32.
  destruct (Z.leb_spec 0 (m_nBitsAvail s)); [|lia].
  destruct (Z.ltb_spec (m_nBitsAvail s) 32); [|lia].
  destruct (Z.leb_spec 0 k); [|lia].
  by destruct (Z.ltb_spec k 32); [|lia].
Qed.

Lemma u32_shiftl_bits q k a : 0 <= q -> 0 <= k -> 0 <= a -> a + k <= 32 ->
  u32 (Z.shiftl (bits B q k) a) = Z.shiftl (bits B q k) a.
Proof. intros. zbits. Qed.

Lemma framed_upd s w a d o : framed s ->
  framed (set_word w s) /\ framed (set_avail a s) /\
  framed (set_dataIn d s) /\ framed (set_overflow o s).
Proof. intros (?&?&?&?). by repeat split. Qed.

Lemma at_bit_advance n p s : at_bit p s -> 0 <= n < m_nBitsAvail s ->
  at_bit (p + n) (set_word (Z.shiftr (m_nInBufWord s) n)
                    (set_avail (m_nBitsAvail s - n) s)).
Proof.
  intros (o & Hp & Ho & Hm & Ha & Hb & Hp0 & Hw) Hn. exists o. br_simpl.
  rewrite Hw, bits_shiftr by lia. repeat split; first [done | lia].
Qed.

Lemma dword_room o : o < len -> (len - o) mod 4 = 0 ->
  o + 4 <= len /\ (len - (o + 4)) mod 4 = 0.
Proof. intros. split; Z.to_euclidean_division_equations; lia. Qed.

Lemma word_low n p s : at_bit p s -> 0 <= n <= m_nBitsAvail s ->
  Z.land (m_nInBufWord s) (Z.ones n) = bits B p n.
Proof.
  intros (o & _ & _ & _ & _ & _ & _ & Hw) Hn. by rewrite Hw, bits_land by lia.
Qed.

Lemma ReadUBitLong_at n p s : 0 <= n <= 32 -> framed s ->
  m_bOverflow s = false -> at_bit p s ->
  exists s', ReadUBitLong m n s = Ok (fst (abs_read B (8 * len) n (At p)), s')
    /\ Rep (snd (abs_read B (8 * len) n (At p))) s'.
Proof.
  intros Hn Hf Hov Hat. pose proof len_bounds as Hlen.
  pose proof Hat as (o & Hp & Ho & Hm & Ha & Hb & Hp0 & Hw).
  assert (Hf' := Hf). destruct Hf' as (Hd & He & Hbi & Hby). cbn [abs_read].
  destruct (Z.lt_trichotomy n (m_nBitsAvail s)) as [Hlt|[Heq|Hgt]].
  - rewrite read_within by lia. destruct (Z.leb_spec (p + n) (8 * len)); [|lia].
    rewrite (word_low n p) by (done || lia). eexists. split; [reflexivity|].
    split; [done|]. split; [done|]. left. apply at_bit_advance; [done|lia].
  - destruct (Z.leb_spec (p + n) (8 * len)); [|lia].
    destruct (Z.eq_dec o len) as [->|Hne].
    + erewrite read_exact by (done || lia || by apply grab_last).
      rewrite (word_low n p) by (done || lia). eexists. split; [reflexivity|].
      split; [done|]. br_simpl. split; [done|]. right.
      split; [lia|]. by repeat split.
    + erewrite read_exact by (done || lia || (apply (grab_mid _ _ o); done || lia)).
      rewrite (word_low n p) by (done || lia). eexists. split; [reflexivity|].
      destruct (dword_room o) as [??]; [lia|done|].
      split; [done|]. split; [done|]. left. exists (o + 4). br_simpl.
      replace (p + n) with (8 * o) by lia.
      repeat split; first [done | lia].
  - destruct (Z.eq_dec o len) as [->|Hne].
    + erewrite read_overflow by (done || lia || by apply grab_last).
      destruct (Z.leb_spec (p + n) (8 * len)); [lia|].
      eexists. split; [reflexivity|]. split; [done|]. br_simpl. by repeat split.
    + destruct (dword_room o) as [??]; [lia|done|].
      pose proof (grab_mid true s o Hf Hp ltac:(lia) Hm) as Hg.
      rewrite (read_merge n s _ ltac:(lia) ltac:(lia) Hg Hov eq_refl).
      destruct (Z.leb_spec (p + n) (8 * len)); [|lia]. br_simpl.
      set (k := n - m_nBitsAvail s). set (a := m_nBitsAvail s) in *.
      eexists. split.
      { rewrite bits_land, u32_shiftl_bits, Hw by lia.
        replace (8 * o) with (p + a) by lia. rewrite <- bits_app by lia.
        replace (a + k) with n by lia. reflexivity. }
      split; [done|]. split; [done|]. left. exists (o + 4). br_simpl.
      rewrite bits_shiftr by lia. replace (p + a + k) with (p + n) by lia.
      repeat split; first [done | lia].
Qed.

Lemma ReadUBitLong_end n s : 0 <= n <= 32 -> framed s -> at_end s ->
  0 < m_nBitsAvail s <= 32 ->
  exists s', ReadUBitLong m n s = Ok (0, s') /\ framed s' /\ at_end s' /\
    0 < m_nBitsAvail s' <= 32 /\
    (if n <? m_nBitsAvail s
     then m_bOverflow s' = m_bOverflow s /\ m_nBitsAvail s' = m_nBitsAvail s - n
     else m_bOverflow s' = true).
Proof.
  intros Hn Hf [Hp Hw] Ha. destruct (Z.ltb_spec n (m_nBitsAvail s)).
  - rewrite read_within, Hw by lia. rewrite Z.shiftr_0_l, Z.land_0_l.
    eexists. split; [reflexivity|]. br_simpl.
    split; [exact Hf|]. repeat split; first [done | lia].
  - destruct (Z.eq_dec n (m_nBitsAvail s)).
    + erewrite read_exact by (done || lia || by apply grab_past).
      rewrite Hw, Z.land_0_l. eexists. split; [reflexivity|].
      br_simpl. split; [exact Hf|]. by repeat split.
    + erewrite read_overflow by (done || lia || by apply grab_past).
      eexists. split; [reflexivity|]. br_simpl.
    split; [exact Hf|]. repeat split; first [done | lia].
Qed.

Lemma ReadUBitLong_sim n : 0 <= n <= 32 ->
  sim (ReadUBitLong m n) (abs_read B (8 * len) n).
Proof.
  intros Hn c s [Hf Hc]. destruct c as [p|].
  - destruct Hc as [Hov [Hat|(-> & He & Ha)]]; [by apply ReadUBitLong_at|].
    destruct (ReadUBitLong_end n s) as (s' & E & Hf' & He' & Ha' & Hb');
      [done..|lia|].
    cbn [abs_read]. exists s'. rewrite E.
    destruct (Z.ltb_spec n (m_nBitsAvail s)).
    + assert (n = 0) as -> by lia.
      destruct (Z.leb_spec (8 * len + 0) (8 * len)); [|lia].
      rewrite bits_0, Z.add_0_r. split; [done|]. split; [done|].
      destruct Hb' as [Hb1 Hb2]. rewrite Hb1. split; [done|]. right.
      split; [done|]. split; [done|]. lia.
    + destruct (Z.leb_spec (8 * len + n) (8 * len)); [lia|]. by split.
  - destruct Hc as (Hov & He & Ha).
    destruct (ReadUBitLong_end n s) as (s' & E & Hf' & He' & Ha' & Hb'); [done..|].
    exists s'. rewrite E. split; [done|]. split; [done|].
    split; [|done]. destruct (n <? m_nBitsAvail s); [|done].
    destruct Hb' as [-> _]. done.
Qed.
(** ** ReadOneBit is the one-bit case of ReadUBitLong *)

Lemma ReadOneBit_eq s : 0 < m_nBitsAvail s <= 32 ->
  ReadOneBit m s = ReadUBitLong m 1 s.
Proof.
  intros Ha. unfold ReadOneBit, ReadUBitLong. st_run.
  destruct (Z.leb_spec 1 (m_nBitsAvail s)); [|lia].
  rewrite mask_ok by lia. rewrite s32_small by lia.
  by destruct (m_nBitsAvail s - 1 =? 0).
Qed.

Lemma Rep_avail c s : Rep c s -> 0 < m_nBitsAvail s <= 32.
Proof. intros H. apply Rep_Safe in H. by destruct H as (_ & _ & ? & _). Qed.

Lemma ReadOneBit_sim : sim (ReadOneBit m) (abs_read B (8 * len) 1).
Proof.
  intros c s H. rewrite ReadOneBit_eq by by eapply Rep_avail.
  apply ReadUBitLong_sim; [lia|done].
Qed.

(** ** Seek *)

(** The cursor part of [Rep], whatever the overflow flag. *)
Definition located (q : Z) (s : CBitRead) : Prop :=
  at_bit q s \/ q = 8 * len /\ at_end s /\ m_nBitsAvail s = 1.

Lemma land_3 x : Z.land x 3 = x mod 4.
Proof. change 3 with (Z.ones 2). by rewrite Z.land_ones by lia. Qed.

Lemma land_31 x : Z.land x 31 = x mod 32.
Proof. change 31 with (Z.ones 5). by rewrite Z.land_ones by lia. Qed.

Lemma load8_at i : 0 <= i < len -> load8 m (base + i) = Ok (bits B (8 * i) 8).
Proof.
  intros Hi. destruct Hbuf. unfold len in Hi.
  destruct (lookup_lt_is_Some_2 l (Z.to_nat i)) as [b Hb]; [lia|].
  replace i with (Z.of_nat (Z.to_nat i)) by lia.
  rewrite (load8_holds m base l _ b) by done.
  f_equal. symmetry. by apply le_join_bits.
Qed.

(** The word [Seek] assembles from the one to three bytes at the head. *)
Lemma Seek_partial_ok h s : 0 < h <= 3 -> m_pData s = base ->
  Seek_partial m h s = Ok (base + h, bits B 0 (8 * h)).
Proof.
  intros Hh Hd. pose proof len_bounds as Hlen. destruct Hbuf as [_ _ Hb0 _ _ _].
  unfold Seek_partial. rewrite Hd.
  destruct (Z.eqb_spec base 0); [lia|].
  rewrite (res_bind_ok _ _ (bits B (8 * 0) 8))
    by (rewrite <- (Z.add_0_r base); apply load8_at; lia).
  assert (h = 1 \/ h = 2 \/ h = 3) as [-> | [-> | ->]] by lia; cbn [Z.ltb Z.compare Pos.compare Pos.compare_cont].
  - done.
  - change (8 * 2) with (8 + 8). rewrite bits_app, load8_at by lia.
    st_run. by rewrite u32_shiftl_bits by lia.
  - change (8 * 3) with (8 + 8 + 8). rewrite !bits_app, load8_at by lia.
    st_run. rewrite load8_at, !u32_shiftl_bits by lia.
    by rewrite <- Z.add_assoc.
Qed.

Lemma Seek_head q s : framed s -> 0 <= q <= 8 * len -> q / 8 < len mod 4 ->
  exists s', Seek m q s = Ok (true, s') /\ framed s' /\
    m_bOverflow s' = m_bOverflow s /\ at_bit q s'.
Proof.
  intros Hf Hq Hh. pose proof len_bounds as Hlen. destruct Hbuf as [_ _ Hb0 _ _ _].
  assert (Hf' := Hf). destruct Hf' as (Hd & He & Hbi & Hby).
  pose proof (Z.mod_pos_bound len 4 ltac:(lia)) as Hm.
  assert (0 <= q < 24) as Hq24 by (Z.to_euclidean_division_equations; lia).
  set (h := len mod 4) in *.
  assert (q < 8 * h) by (clearbody h; Z.to_euclidean_division_equations; lia).
  assert (0 < h) by (Z.to_euclidean_division_equations; lia).
  unfold Seek. st_run. rewrite Hbi, Hby, land_3. fold h.
  destruct (Z.ltb_spec q 0); [lia|]. destruct (Z.ltb_spec (8 * len) q); [lia|].
  cbn [negb orb]. rewrite Z.quot_div_nonneg by lia.
  destruct (Z.ltb_spec len 4); [lia|]. destruct (Z.eqb_spec h 0); [lia|].
  destruct (Z.ltb_spec (q / 8) h); [|lia]. cbn [negb orb andb].
  rewrite Seek_partial_ok by (done || lia). cbn beta iota.
  rewrite land_31, (Z.mod_small q 32), bits_shiftr by lia.
  eexists. split; [reflexivity|].
  split; [exact Hf|]. split; [done|]. exists h. br_simpl.
  rewrite Z.shiftl_mul_pow2 by lia. change (2 ^ 3) with 8.
  replace (h * 8) with (8 * h) by lia.
  repeat split; try first [done | lia].
  unfold h. Z.to_euclidean_division_equations; lia.
Qed.
(** The word-aligned branch of [Seek], from the object [s] on. *)
Lemma grab_located q o r s :
  framed s -> m_pDataIn s = base + o -> 0 <= o <= len -> (len - o) mod 4 = 0 ->
  0 <= r < 32 -> q = 8 * o + r -> q <= 8 * len -> m_nBitsAvail s = 32 ->
  exists s', GrabNextDWord m false s = Ok (tt, s') /\
    let s'' := set_avail (MIN (m_nBitsAvail s') (32 - r))
                 (set_word (Z.shiftr (m_nInBufWord s') r) s') in
    framed s'' /\ m_bOverflow s'' = m_bOverflow s /\ located q s''.
Proof.
  intros Hf Hp Ho Hm Hr Hq Hle Ha. destruct (Z.eq_dec o len) as [->|Hne].
  - assert (r = 0) as -> by lia. rewrite grab_last by done.
    eexists. split; [reflexivity|]. cbv zeta. br_simpl. rewrite Z.shiftr_0_l.
    split; [exact Hf|]. split; [done|]. right. split; [lia|]. by repeat split.
  - destruct (dword_room o) as [??]; [lia|done|].
    rewrite (grab_mid _ _ o) by (done || lia).
    eexists. split; [reflexivity|]. cbv zeta. br_simpl. rewrite Ha, bits_shiftr by lia.
    split; [exact Hf|]. split; [done|]. left. exists (o + 4). br_simpl. unfold MIN.
    replace (if 32 <? 32 - r then 32 else 32 - r) with (32 - r)
      by (destruct (Z.ltb_spec 32 (32 - r)); lia).
    rewrite <- Hq. repeat split; first [done | lia].
Qed.

Definition in_range (n : Z) : bool := (0 <=? n) && (n <=? 8 * len).

Lemma in_range_neg n :
  negb ((n <? 0) || (8 * len <? n)) = in_range n.
Proof.
  unfold in_range.
  destruct (Z.ltb_spec n 0), (Z.ltb_spec (8 * len) n), (Z.leb_spec 0 n),
    (Z.leb_spec n (8 * len)); done || lia.
Qed.

Lemma Seek_aligned n s q : framed s ->
  q = (if in_range n then n else 8 * len) -> len mod 4 <= q / 8 ->
  exists s', Seek m n s = Ok (in_range n, s') /\ framed s' /\
    m_bOverflow s' = m_bOverflow s || negb (in_range n) /\ located q s'.
Proof.
  intros Hf Hq Hh. pose proof len_bounds as Hlen. destruct Hbuf as [_ _ Hb0 _ _ _].
  assert (0 <= q <= 8 * len) as Hqr.
  { rewrite Hq. unfold in_range.
    destruct (Z.leb_spec 0 n), (Z.leb_spec n (8 * len)); simpl; lia. }
  pose proof (Z.mod_pos_bound len 4 ltac:(lia)) as Hm.
  assert (Hf' := Hf). destruct Hf' as (Hd & He & Hbi & Hby).
  unfold Seek, SetOverflowFlag. st_run. rewrite Hbi, Hby, land_3, in_range_neg, <- Hq.
  set (h := len mod 4) in *. set (a := q - 8 * h).
  assert (0 <= a) by (unfold a; clearbody h; Z.to_euclidean_division_equations; lia).
  rewrite (Z.quot_div_nonneg q 8) by lia.
  replace (Z.shiftl h 3) with (8 * h) by (rewrite Z.shiftl_mul_pow2; lia).
  destruct (Z.ltb_spec len 4); [lia|]. destruct (Z.ltb_spec (q / 8) h); [lia|].
  rewrite andb_false_r. cbn [orb]. rewrite s32_small by lia. fold a.
  rewrite (Z.quot_div_nonneg a 32), land_31 by lia.
  replace (Z.shiftl (a / 32) 2) with (4 * (a / 32)) by (rewrite Z.shiftl_mul_pow2; lia).
  destruct (Z.eqb_spec (m_pData s) 0); [lia|]. cbn [negb].
  set (s1 := set_avail 32 (set_dataIn (m_pData s + 4 * (a / 32) + h)
               (if in_range n then s else set_overflow true s))).
  destruct (grab_located q (4 * (a / 32) + h) (a mod 32) s1)
    as (s' & Hg & Hf2 & Ho2 & Hl2).
  - unfold s1. by destruct (in_range n).
  - unfold s1. br_simpl. lia.
  - unfold a, h in *. Z.to_euclidean_division_equations; lia.
  - unfold a, h in *. Z.to_euclidean_division_equations; lia.
  - apply Z.mod_pos_bound. lia.
  - unfold a in *. clearbody h. Z.to_euclidean_division_equations; lia.
  - lia.
  - done.
  - eexists. split.
    + unfold s1 in Hg. destruct (in_range n); br_simpl; rewrite Hg; reflexivity.
    + split; [exact Hf2|]. split; [|exact Hl2].
      rewrite Ho2. unfold s1. destruct (in_range n); br_simpl.
      * by rewrite orb_false_r.
      * by rewrite orb_true_r.
Qed.
(** Where [Seek] ends up: in range, at the requested bit; out of range, at
    the end with the overflow flag raised. *)
Definition seek_target (n : Z) : Z := if in_range n then n else 8 * len.

Lemma Seek_ok n s : framed s ->
  exists s', Seek m n s = Ok (in_range n, s') /\ framed s' /\
    m_bOverflow s' = m_bOverflow s || negb (in_range n) /\
    located (seek_target n) s'.
Proof.
  intros Hf. pose proof len_bounds as Hlen.
  destruct (Z.lt_ge_cases (seek_target n / 8) (len mod 4)) as [Hlt|Hge];
    [|by apply Seek_aligned].
  unfold seek_target in *. destruct (in_range n) eqn:Hr.
  - destruct (Seek_head n s) as (s' & E & Hf' & Ho & Hat); [done| |done|].
    + unfold in_range in Hr. lia.
    + exists s'. rewrite Ho, orb_false_r. repeat split; try done; try apply Hf'.
      by left.
  - exfalso. rewrite (Z.mul_comm 8), Z.div_mul in Hlt by lia.
    pose proof (Z.mod_pos_bound len 4). lia.
Qed.

Lemma located_end s : located (8 * len) s -> at_end s /\ m_nBitsAvail s = 1.
Proof.
  intros [(o & Hp & Ho & _ & Ha & Hb & _)|(_ & He & Ha)]; [lia|done].
Qed.

Lemma Seek_sim n p s : Rep (At p) s ->
  exists s', Seek m n s = Ok (in_range n, s') /\
    Rep (if in_range n then At n else Over) s'.
Proof.
  intros [Hf [Hov _]]. destruct (Seek_ok n s Hf) as (s' & E & Hf' & Ho & Hl).
  exists s'. split; [done|]. split; [done|]. rewrite Hov in Ho.
  unfold seek_target in Hl. destruct (in_range n); simpl in Ho; [by split|].
  split; [done|]. apply located_end in Hl as [He ->]. by split; [|lia].
Qed.

(** ** GetNumBitsRead *)

Lemma bits_read_at k s : framed s -> 0 <= k <= len + 4 ->
  m_pDataIn s = base + k -> (len - k) mod 4 = 0 -> 0 < m_nBitsAvail s <= 32 ->
  GetNumBitsRead s = MIN (8 * k - m_nBitsAvail s) (8 * len).
Proof.
  intros Hf Hk Hp Hm Ha. pose proof len_bounds as Hlen.
  destruct Hbuf as [_ _ Hb0 _ _ Haddr]. fold len in Haddr.
  destruct Hf as (Hd & He & Hbi & Hby).
  unfold GetNumBitsRead. rewrite Hd, Hp, Hbi, Hby.
  destruct (Z.eqb_spec base 0); [lia|].
  assert (s32 (s32 (base + k) - s32 base) = k) as ->.
  { transitivity (s32 k); [|apply s32_small; lia]. apply swrap_eq; [lia|].
    rewrite (Zminus_mod (s32 (base + k))).
    change (s32 (base + k) mod 2 ^ 32) with (u32 (s32 (base + k))).
    change (s32 base mod 2 ^ 32) with (u32 (s32 base)).
    rewrite !uwrap_swrap by lia. unfold uwrap. rewrite <- Zminus_mod.
    f_equal. lia. }
  rewrite land_3. rewrite Z.quot_div_nonneg by lia.
  assert (len mod 4 = k mod 4) as ->
    by (Z.to_euclidean_division_equations; lia).
  pose proof (Z.div_mod k 4 ltac:(lia)). pose proof (Z.mod_pos_bound k 4 ltac:(lia)).
  wrap_simpl. f_equal. lia.
Qed.

Lemma GetNumBitsRead_located q s : framed s -> located q s ->
  GetNumBitsRead s = q.
Proof.
  intros Hf Hl. pose proof len_bounds as Hlen.
  destruct Hl as [(o & Hp & Ho & Hm & Ha & Hb & Hp0 & Hw)|(-> & [Hp Hw] & Ha)].
  - rewrite (bits_read_at o) by (done || lia). rewrite Ha. unfold MIN.
    destruct (Z.ltb_spec (8 * o - (8 * o - q)) (8 * len)); lia.
  - rewrite (bits_read_at (len + 4)); [| done | lia | lia | | lia].
    + unfold MIN. destruct (Z.ltb_spec (8 * (len + 4) - m_nBitsAvail s) (8 * len)); lia.
    + replace (len - (len + 4)) with (-(1) * 4) by lia. by rewrite Z.mod_mul by lia.
Qed.

Lemma GetNumBitsRead_end s : framed s -> at_end s -> 0 < m_nBitsAvail s <= 32 ->
  GetNumBitsRead s = 8 * len.
Proof.
  intros Hf [Hp Hw] Ha. pose proof len_bounds as Hlen.
  rewrite (bits_read_at (len + 4)); [| done | lia | lia | | lia].
  - unfold MIN. destruct (Z.ltb_spec (8 * (len + 4) - m_nBitsAvail s) (8 * len)); lia.
  - replace (len - (len + 4)) with (-(1) * 4) by lia. by rewrite Z.mod_mul by lia.
Qed.

Lemma GetNumBitsRead_sim c s : Rep c s ->
  GetNumBitsRead s = abs_tell (8 * len) c.
Proof.
  intros [Hf Hc]. destruct c as [p|].
  - destruct Hc as [_ Hl]. by apply GetNumBitsRead_located.
  - destruct Hc as (_ & He & Ha). by apply GetNumBitsRead_end.
Qed.

Lemma GetNumBitsRead_safe s : Safe s -> 0 <= GetNumBitsRead s + 32 /\
  GetNumBitsRead s <= 8 * len.
Proof.
  intros (Hf & _ & Ha & [(o & Hp & Ho & Hm)|Hp]); pose proof len_bounds as Hlen.
  - rewrite (bits_read_at o) by (done || lia). unfold MIN.
    destruct (Z.ltb_spec (8 * o - m_nBitsAvail s) (8 * len)); lia.
  - rewrite (bits_read_at (len + 4)); [| done | lia | lia | | lia].
    + unfold MIN. destruct (Z.ltb_spec (8 * (len + 4) - m_nBitsAvail s) (8 * len)); lia.
    + replace (len - (len + 4)) with (-(1) * 4) by lia. by rewrite Z.mod_mul by lia.
Qed.

Lemma GetNumBytesRead_sim c s : Rep c s ->
  GetNumBytesRead s = (abs_tell (8 * len) c + 7) / 8.
Proof.
  intros H. pose proof len_bounds as Hlen. unfold GetNumBytesRead.
  rewrite (GetNumBitsRead_sim c) by done.
  assert (0 <= abs_tell (8 * len) c <= 8 * len) as Hc.
  { apply GetNumBitsRead_sim in H as Hg. destruct c as [p|]; simpl; [|lia].
    destruct H as [_ [_ [(o & Hp & Ho & Hm & Ha & Hb & Hp0 & _)|(-> & _)]]]; lia. }
  rewrite s32_small by lia. by rewrite Z.shiftr_div_pow2 by lia.
Qed.
(** ** No operation leaves the buffer *)

Definition ptr_ok (s : CBitRead) : Prop :=
  (exists o, m_pDataIn s = base + o /\ 0 <= o <= len /\ (len - o) mod 4 = 0)
  \/ m_pDataIn s = base + len + 4.

Lemma grab_any b s : framed s -> ptr_ok s ->
  exists s', GrabNextDWord m b s = Ok (tt, s') /\ framed s' /\ ptr_ok s' /\
    0 <= m_nInBufWord s' < 2 ^ 32 /\
    (m_nBitsAvail s' = m_nBitsAvail s \/ m_nBitsAvail s' = 1) /\
    (b = true -> m_bOverflow s' = false ->
     m_bOverflow s = false /\ m_nBitsAvail s' = m_nBitsAvail s).
Proof.
  intros Hf [(o & Hp & Ho & Hm)|Hp].
  - destruct (Z.eq_dec o len) as [->|Hne].
    + rewrite grab_last by done. eexists. split; [reflexivity|]. br_simpl.
      split; [exact Hf|]. split; [by right|]. split; [lia|]. split; [by right|].
      by intros ->.
    + destruct (dword_room o) as [??]; [lia|done|].
      rewrite (grab_mid _ _ o) by (done || lia).
      eexists. split; [reflexivity|]. br_simpl. split; [exact Hf|].
      split; [left; exists (o + 4); br_simpl; repeat split; first [done | lia]|].
      split; [apply bits_range; lia|]. split; [by left|]. done.
  - rewrite grab_past by done. eexists. split; [reflexivity|]. br_simpl.
    split; [exact Hf|]. split; [by right|]. split; [lia|]. split; [by left|]. done.
Qed.

Lemma Safe_intro s : framed s -> ptr_ok s -> 0 <= m_nInBufWord s < 2 ^ 32 ->
  0 < m_nBitsAvail s <= 32 -> Safe s.
Proof. intros. unfold Safe, ptr_ok in *. auto 6. Qed.

Lemma ReadUBitLong_safe n : 0 <= n <= 32 ->
  safe_op (ReadUBitLong m n) (fun v => 0 <= v < 2 ^ 32).
Proof.
  intros Hn s (Hf & Hw & Ha & Hp).
  destruct (Z.lt_trichotomy n (m_nBitsAvail s)) as [Hlt|[Heq|Hgt]].
  - rewrite read_within by lia. do 2 eexists. split; [reflexivity|].
    split; [by apply land_range|]. apply Safe_intro; br_simpl; try done; try lia.
    apply shiftr_range; lia.
  - destruct (grab_any false (set_avail 32 (set_avail 0 s)))
      as (s' & Hg & Hf' & Hp' & Hw' & Ha' & _); [done..|].
    rewrite (read_exact n s s') by (done || lia).
    do 2 eexists. split; [reflexivity|]. split; [by apply land_range|].
    apply Safe_intro; try done. br_simpl. lia.
  - destruct (grab_any true s) as (s' & Hg & Hf' & Hp' & Hw' & Ha' & Hov); [done..|].
    destruct (m_bOverflow s') eqn:Ho.
    + rewrite (read_overflow n s s') by (done || lia).
      do 2 eexists. split; [reflexivity|]. split; [lia|].
      apply Safe_intro; done || lia.
    + destruct (Hov eq_refl eq_refl) as [_ Ha2].
      rewrite (read_merge n s s') by (done || lia).
      do 2 eexists. split; [reflexivity|].
      split; [apply lor_range; [lia|done|apply u32_range]|].
      apply Safe_intro; br_simpl; try done; try lia. apply shiftr_range; lia.
Qed.

Lemma located_Safe q s : framed s -> located q s -> Safe s.
Proof.
  intros Hf Hl. set (s0 := set_overflow false s).
  assert (Rep (At q) s0) as H by (by split).
  apply Rep_Safe in H. exact H.
Qed.

Lemma Seek_safe n : safe_op (Seek m n) (fun b => b = in_range n).
Proof.
  intros s (Hf & _). destruct (Seek_ok n s Hf) as (s' & E & Hf' & _ & Hl).
  exists (in_range n), s'. split; [done|]. split; [done|].
  by eapply located_Safe.
Qed.

Lemma SeekRelative_safe n : safe_op (SeekRelative m n) (fun _ => True).
Proof.
  intros s Hs. unfold SeekRelative. st_run.
  destruct (Seek_safe (s32 (GetNumBitsRead s + n)) s Hs) as (b & s' & E & _ & Hs').
  rewrite E. eauto.
Qed.

(** ** The constructor *)

Lemma StartReading_ok raw : base mod 4 = 0 ->
  exists s', CBitRead_new m raw base len (-1) = Ok s' /\ Rep (At 0) s'.
Proof.
  intros Hal. pose proof len_bounds as Hlen. destruct Hbuf as [_ _ Hb0 _ _ _].
  unfold CBitRead_new, StartReading, assert_.
  rewrite land_3, Hal. cbn [Z.eqb]. st_run.
  rewrite Z.shiftl_mul_pow2, s32_small, u32_small by lia.
  destruct (Z.eqb_spec base 0); [lia|]. cbn [negb].
  set (s0 := mkBitRead _ _ _ _ _ _ _ _).
  destruct (Seek_ok 0 s0) as (s' & E & Hf' & Ho & Hl).
  { unfold s0. repeat split; br_simpl; try done.
    cbn [Pos.eqb]. lia. }
  exists s'. rewrite E. split; [done|]. split; [done|].
  unfold seek_target, in_range in *.
  destruct (Z.leb_spec 0 0); [|lia]. destruct (Z.leb_spec 0 (8 * len)); [|lia].
  by split.
Qed.
End Valid.
End Buffer.
