(* ===== verification/BitOps.v ===== *)
(** The composite operations of the bit reader against the cursor of
    [BitStream]: sign extension, variable-width integers, bytes, bits, seeks. *)

From S2P Require Import Prelude CMem BitRead BitStream.

(** * Specifications *)

(** The base-128 encoding: seven bits per byte, least significant group first,
    bit 7 set on every byte but the last. *)
Fixpoint varint_enc (fuel : nat) (v : Z) : list Z :=
  match fuel with
  | O => []
  | Datatypes.S n =>
      if v <? 128 then [v]
      else Z.lor (Z.land v 127) 128 :: varint_enc n (Z.shiftr v 7)
  end.

Definition varint32_enc (v : Z) : list Z := varint_enc 5 v.
Definition varint64_enc (v : Z) : list Z := varint_enc 10 v.

(** Decoding on the cursor: at most [n] more bytes, the next group at [shift]. *)
Fixpoint abs_varint (w B total : Z) (n : nat) (shift acc : Z) (c : cursor) : Z * cursor :=
  match n with
  | O => (acc, c)
  | Datatypes.S n' =>
      let '(b, c') := abs_read B total 8 c in
      let acc' := Z.lor acc (uwrap w (Z.shiftl (Z.land b 127) shift)) in
      if Z.land b 128 =? 0 then (acc', c') else abs_varint w B total n' (shift + 7) acc' c'
  end.

(** Two's complement reading of an [n]-bit field. *)
Definition sign_extend (n v : Z) : Z := swrap n v.

(** The bytes of the stream of value [B] at bit [p] are [bs]. *)
Definition stream_bytes (B p : Z) (bs : list Z) : Prop :=
  forall i b, bs !! i = Some b -> bits B (p + 8 * Z.of_nat i) 8 = b.

(** [n] whole bytes read one after the other. *)
Fixpoint abs_bytes (B total : Z) (n : nat) (c : cursor) : list Z * cursor :=
  match n with
  | O => ([], c)
  | Datatypes.S n' =>
      let '(b, c1) := abs_read B total 8 c in
      let '(bs, c2) := abs_bytes B total n' c1 in (b :: bs, c2)
  end.

(** * Facts about the encodings *)

Lemma varint_enc_nonempty n v : varint_enc (Datatypes.S n) v <> [].
Proof. simpl. by destruct (v <? 128). Qed.

Lemma land_127 x : Z.land x 127 = x mod 2 ^ 7.
Proof. change 127 with (Z.ones 7). by rewrite Z.land_ones by lia. Qed.

Lemma land_128_bit b : (Z.land b 128 =? 0) = negb (Z.testbit b 7).
Proof.
  destruct (Z.testbit b 7) eqn:E; simpl.
  - apply Z.eqb_neq. intros H. apply (f_equal (fun x => Z.testbit x 7)) in H.
    rewrite Z.land_spec, E in H. done.
  - apply Z.eqb_eq. change 128 with (Z.shiftl 1 7). apply Z.bits_inj'; intros i Hi.
    rewrite Z.land_spec, zb_shiftl, Z.bits_0.
    destruct (Z.eq_dec i 7) as [->|]; [by rewrite E|].
    destruct (Z.leb_spec 0 i); simpl; [|by rewrite andb_false_r].
    destruct (Z.lt_ge_cases (i - 7) 0); [by rewrite (Z.testbit_neg_r 1), andb_false_r|].
    rewrite (zb_high 1 1 (i - 7)) by lia. by rewrite andb_false_r.
Qed.

Lemma varint_enc_byte n v : 0 <= v < 2 ^ (7 * Z.of_nat n) ->
  Forall is_byte (varint_enc n v).
Proof.
  revert v. induction n as [|n IH]; intros v Hv; simpl; [constructor|].
  destruct (Z.ltb_spec v 128).
  - repeat constructor; unfold is_byte; lia.
  - constructor.
    + unfold is_byte. change 256 with (2 ^ 8). apply lor_range; [lia| |lia].
      rewrite land_127. pose proof (Z.mod_pos_bound v (2 ^ 7)). lia.
    + apply IH. rewrite Z.shiftr_div_pow2 by lia. split; [apply Z.div_pos; lia|].
      apply Z.div_lt_upper_bound; [lia|].
      rewrite <- Z.pow_add_r by lia. replace (7 + 7 * Z.of_nat n)
        with (7 * Z.of_nat (Datatypes.S n)) by lia. lia.
Qed.

Lemma stream_bytes_cons B p b bs :
  stream_bytes B p (b :: bs) -> bits B p 8 = b /\ stream_bytes B (p + 8) bs.
Proof.
  intros H. split.
  - rewrite <- (H 0%nat b) by done. f_equal. lia.
  - intros i c Hc. rewrite <- (H (Datatypes.S i) c) by done. f_equal. lia.
Qed.

Lemma stream_bytes_app l1 l2 l3 : Forall is_byte (l1 ++ l2 ++ l3) ->
  stream_bytes (le_join (l1 ++ l2 ++ l3)) (8 * Z.of_nat (length l1)) l2.
Proof.
  intros Hb i b Hi.
  replace (8 * Z.of_nat (length l1) + 8 * Z.of_nat i)
    with (8 * Z.of_nat (length l1 + i)) by lia.
  apply le_join_bits; [done|].
  rewrite lookup_app_r by lia. rewrite lookup_app_l.
  - by replace (length l1 + i - length l1)%nat with i by lia.
  - apply lookup_lt_Some in Hi. lia.
Qed.

(** One round of the decoder undoes one round of the encoder. *)
Lemma varint_step w acc v s : 0 <= w -> 0 <= s -> 0 <= v ->
  Z.lor (Z.lor acc (uwrap w (Z.shiftl (Z.land v 127) s)))
    (uwrap w (Z.shiftl (Z.shiftr v 7) (s + 7)))
  = Z.lor acc (uwrap w (Z.shiftl v s)).
Proof.
  intros Hw Hs Hv. rewrite <- Z.lor_assoc. f_equal. change 127 with (Z.ones 7).
  zbits.
Qed.

(** The decoder reads back what the encoder wrote and stops behind it. *)
Lemma abs_varint_enc w B total n s acc v p :
  0 <= w -> 0 <= s -> 0 <= v < 2 ^ (7 * Z.of_nat n) -> (0 < n)%nat -> 0 <= p ->
  stream_bytes B p (varint_enc n v) ->
  p + 8 * Z.of_nat (length (varint_enc n v)) <= total ->
  abs_varint w B total n s acc (At p) =
    (Z.lor acc (uwrap w (Z.shiftl v s)),
     At (p + 8 * Z.of_nat (length (varint_enc n v)))).
Proof.
  intros Hw. revert s acc v p. induction n as [|n IH]; intros s acc v p Hs Hv Hn Hp Hb Ht;
    [lia|].
  simpl varint_enc in *. destruct (Z.ltb_spec v 128) as [Hlt|Hge].
  - apply stream_bytes_cons in Hb as [Hb _]. simpl length in *. simpl.
    destruct (Z.leb_spec (p + 8) total); [|lia]. rewrite Hb, land_128_bit.
    rewrite (zb_high v 7) by lia. simpl.
    rewrite land_127, Z.mod_small by lia. done.
  - apply stream_bytes_cons in Hb as [Hb Hb']. simpl length in Ht.
    set (v' := Z.shiftr v 7) in *.
    assert (0 <= v' < 2 ^ (7 * Z.of_nat n)) as Hv'.
    { unfold v'. rewrite Z.shiftr_div_pow2 by lia. split; [apply Z.div_pos; lia|].
      apply Z.div_lt_upper_bound; [lia|]. rewrite <- Z.pow_add_r by lia.
      replace (7 + 7 * Z.of_nat n) with (7 * Z.of_nat (Datatypes.S n)) by lia. lia. }
    assert (0 < n)%nat as Hn'.
    { destruct n; [|lia]. change (2 ^ (7 * Z.of_nat 0)) with 1 in Hv'.
      unfold v' in Hv'. rewrite Z.shiftr_div_pow2 in Hv' by lia.
      assert (1 <= v / 2 ^ 7) by (apply Z.div_le_lower_bound; lia). lia. }
    cbn [abs_varint abs_read].
    destruct (Z.leb_spec (p + 8) total); [|lia]. rewrite Hb, land_128_bit.
    rewrite Z.lor_spec. change (Z.testbit 128 7) with true. rewrite orb_true_r.
    cbn [negb]. rewrite (IH (s + 7) _ v' (p + 8)) by (done || lia).
    replace (Z.land (Z.lor (Z.land v 127) 128) 127) with (Z.land v 127).
    + unfold v'. rewrite varint_step by lia. simpl length. do 2 f_equal. lia.
    + rewrite Z.land_lor_distr_l, <- Z.land_assoc. change (Z.land 128 127) with 0.
      by rewrite Z.lor_0_r.
Qed.

(** * The composite operations *)

Section Ops.
Context (m : mem) (base : Z) (l : list Z) (Hbuf : buffer_ok m base l).

Let len : Z := Z.of_nat (length l).
Let B : Z := le_join l.
Let sim {A} := @sim base l A.
Let safe_op {A} := @safe_op base l A.

(** ** Composition *)

Lemma sim_ret {A} (a : A) : sim (mret a) (fun c => (a, c)).
Proof. intros c s H. by exists s. Qed.

Lemma sim_bind {A C} (op : ST CBitRead A) spec (k : A -> ST CBitRead C) speck :
  sim op spec -> (forall a, sim (k a) (speck a)) ->
  sim (op ≫= k) (fun c => speck (fst (spec c)) (snd (spec c))).
Proof.
  intros H1 H2 c s Hr. destruct (H1 c s Hr) as (s' & E & Hr').
  destruct (H2 (fst (spec c)) _ s' Hr') as (s'' & E' & Hr'').
  exists s''. by rewrite (st_bind_ok _ _ _ _ _ E).
Qed.

Lemma sim_ext {A} (op : ST CBitRead A) s1 s2 :
  (forall c, s1 c = s2 c) -> sim op s1 -> sim op s2.
Proof. intros E H c s Hr. rewrite <- E. by apply H. Qed.

Lemma safe_ret {A} (a : A) (P : A -> Prop) : P a -> safe_op (mret a) P.
Proof. intros HP s H. by exists a, s. Qed.

Lemma safe_bind {A C} (op : ST CBitRead A) (P : A -> Prop) (k : A -> ST CBitRead C) Q :
  safe_op op P -> (forall a, P a -> safe_op (k a) Q) -> safe_op (op ≫= k) Q.
Proof.
  intros H1 H2 s Hs. destruct (H1 s Hs) as (a & s' & E & HP & Hs').
  rewrite (st_bind_ok _ _ _ _ _ E). by apply H2.
Qed.

Lemma safe_weaken {A} (op : ST CBitRead A) (P Q : A -> Prop) :
  (forall a, P a -> Q a) -> safe_op op P -> safe_op op Q.
Proof.
  intros HPQ H s Hs. destruct (H s Hs) as (a & s' & E & HP & Hs').
  exists a, s'. auto.
Qed.

Lemma ubit_sim n : 0 <= n <= 32 -> sim (ReadUBitLong m n) (abs_read B (8 * len) n).
Proof. by apply ReadUBitLong_sim. Qed.

Lemma ubit_safe n : 0 <= n <= 32 ->
  safe_op (ReadUBitLong m n) (fun v => 0 <= v < 2 ^ 32).
Proof. by apply ReadUBitLong_safe. Qed.

Lemma bit_safe : safe_op (ReadOneBit m) (fun _ => True).
Proof.
  intros s Hs. rewrite ReadOneBit_eq by (by destruct Hs as (_ & _ & ? & _)).
  destruct (ubit_safe 1 ltac:(lia) s Hs) as (a & s' & E & _ & Hs'). eauto.
Qed.

(** ** Sign extension *)

Lemma sign_shift n u : 1 <= n <= 32 -> 0 <= u < 2 ^ 32 ->
  shl32s (s32 u) (32 - n) = Ok (s32 (Z.shiftl u (32 - n))) /\
  shr32 (s32 (Z.shiftl u (32 - n))) (32 - n) = Ok (sign_extend n u).
Proof.
  intros Hn Hu. unfold shl32s, shr32.
  destruct (Z.leb_spec 0 (32 - n)); [|lia]. destruct (Z.ltb_spec (32 - n) 32); [|lia].
  cbn [andb]. split.
  - f_equal. rewrite !Z.shiftl_mul_pow2 by lia. apply swrap_eq; [lia|].
    change (uwrap 32 (s32 u * 2 ^ (32 - n)) = uwrap 32 (u * 2 ^ (32 - n))).
    unfold uwrap. rewrite <- Zmult_mod_idemp_l.
    change (s32 u mod 2 ^ 32) with (u32 (s32 u)). rewrite uwrap_swrap by lia.
    unfold uwrap. by rewrite Zmult_mod_idemp_l.
  - f_equal. set (k := 32 - n). unfold sign_extend.
    assert (2 ^ 32 = 2 ^ k * 2 ^ n) as E32
      by (rewrite <- Z.pow_add_r by lia; f_equal; lia).
    assert (2 ^ 31 = 2 ^ k * 2 ^ (n - 1)) as E31
      by (rewrite <- Z.pow_add_r by lia; f_equal; lia).
    pose proof (Z.pow_pos_nonneg 2 k) as Hk.
    pose proof (Z.pow_pos_nonneg 2 n) as Hn2.
    unfold swrap. change (32 - 1) with 31. rewrite Z.shiftl_mul_pow2, E31, E32 by lia.
    rewrite (Z.mul_comm u), Zmult_mod_distr_l.
    set (r := u mod 2 ^ n). rewrite Z.shiftr_div_pow2 by lia.
    destruct (Z.ltb_spec (2 ^ k * r) (2 ^ k * 2 ^ (n - 1))),
             (Z.ltb_spec r (2 ^ (n - 1))); try nia.
    + rewrite Z.mul_comm, Z.div_mul by lia. done.
    + rewrite <- Z.mul_sub_distr_l, Z.mul_comm, Z.div_mul by lia. done.
Qed.

Lemma ReadSBitLong_eq n s u s' : 1 <= n <= 32 -> 0 <= u < 2 ^ 32 ->
  ReadUBitLong m n s = Ok (u, s') ->
  ReadSBitLong m n s = Ok (sign_extend n u, s').
Proof.
  intros Hn Hu E. unfold ReadSBitLong. rewrite (st_bind_ok _ _ _ _ _ E).
  destruct (sign_shift n u Hn Hu) as [E1 E2]. st_run. by rewrite E1, E2.
Qed.

Lemma abs_read_range n c : 0 <= n <= 32 ->
  0 <= fst (abs_read B (8 * len) n c) < 2 ^ 32.
Proof.
  intros Hn. destruct c as [p|]; simpl; [|lia].
  destruct (p + n <=? 8 * len); simpl; [|lia].
  pose proof (bits_range B p n). assert (2 ^ n <= 2 ^ 32) by (apply Z.pow_le_mono_r; lia).
  lia.
Qed.

Lemma sbit_sim n : 1 <= n <= 32 ->
  sim (ReadSBitLong m n)
    (fun c => let '(u, c') := abs_read B (8 * len) n c in (sign_extend n u, c')).
Proof.
  intros Hn c s Hr. destruct (ubit_sim n ltac:(lia) c s Hr) as (s' & E & Hr').
  exists s'. pose proof (abs_read_range n c ltac:(lia)).
  rewrite (ReadSBitLong_eq n s _ s') by (done || lia).
  by destruct (abs_read B (8 * len) n c).
Qed.

Lemma sbit_safe n : 1 <= n <= 32 -> safe_op (ReadSBitLong m n) (fun _ => True).
Proof.
  intros Hn s Hs. destruct (ubit_safe n ltac:(lia) s Hs) as (a & s' & E & Ha & Hs').
  rewrite (ReadSBitLong_eq n s a s') by (done || lia). eauto.
Qed.

(** ** Variable-width integers *)

(** Both readers are instances of one loop body. *)
Definition varint_body (w kmax : Z) (l : Z * Z) : ST CBitRead (Z * Z + Z) :=
  let '(count, result) := l in
  if count =? kmax then mret (inr result)
  else
    b ← ReadUBitLong m 8;
    let result := Z.lor result (uwrap w (Z.shiftl (Z.land b 127) (7 * count))) in
    mret (if Z.land b 128 =? 0 then inr result else inl (count + 1, result)).

Lemma varint_loop_sim w kmax n count acc : count = kmax - Z.of_nat n ->
  sim (st_loop (Datatypes.S n) (varint_body w kmax) (count, acc))
    (abs_varint w B (8 * len) n (7 * count) acc).
Proof.
  revert count acc. induction n as [|n IH]; intros count acc -> c s Hr.
  - exists s. cbn [st_loop]. unfold varint_body at 1. st_run.
    by rewrite Z.sub_0_r, Z.eqb_refl.
  - destruct (ubit_sim 8 ltac:(lia) c s Hr) as (s' & E & Hr').
    cbn [st_loop abs_varint]. set (count := kmax - Z.of_nat (Datatypes.S n)).
    assert (varint_body w kmax (count, acc) s =
      let b := fst (abs_read B (8 * len) 8 c) in
      let acc' := Z.lor acc (uwrap w (Z.shiftl (Z.land b 127) (7 * count))) in
      Ok (if Z.land b 128 =? 0 then inr acc'
          else inl (kmax - Z.of_nat n, acc'), s')) as Eb.
    { unfold varint_body. destruct (Z.eqb_spec count kmax); [lia|].
      rewrite (st_bind_ok _ _ _ _ _ E). unfold mret, ST_ret.
      destruct (Z.land _ 128 =? 0); [done|]. do 4 f_equal. lia. }
    rewrite (st_bind_ok _ _ _ _ _ Eb).
    destruct (abs_read B (8 * len) 8 c) as [b c'] eqn:Ea. cbn [fst snd] in *.
    destruct (Z.land b 128 =? 0); [by exists s'|].
    replace (7 * count + 7) with (7 * (kmax - Z.of_nat n)) by lia.
    by apply IH.
Qed.

Lemma varint_loop_safe w kmax n count acc : 0 <= w -> count = kmax - Z.of_nat n ->
  0 <= acc < 2 ^ w ->
  safe_op (st_loop (Datatypes.S n) (varint_body w kmax) (count, acc))
    (fun v => 0 <= v < 2 ^ w).
Proof.
  intros Hw. revert count acc. induction n as [|n IH]; intros count acc -> Ha s Hs.
  - exists acc, s. cbn [st_loop]. unfold varint_body at 1. st_run.
    by rewrite Z.sub_0_r, Z.eqb_refl.
  - destruct (ubit_safe 8 ltac:(lia) s Hs) as (b & s' & E & _ & Hs').
    cbn [st_loop]. set (count := kmax - Z.of_nat (Datatypes.S n)).
    set (acc' := Z.lor acc (uwrap w (Z.shiftl (Z.land b 127) (7 * count)))).
    assert (0 <= acc' < 2 ^ w) as Ha'
      by (apply lor_range; [done|done|by apply uwrap_range]).
    assert (varint_body w kmax (count, acc) s =
      Ok (if Z.land b 128 =? 0 then inr acc'
          else inl (kmax - Z.of_nat n, acc'), s')) as Eb.
    { unfold varint_body. destruct (Z.eqb_spec count kmax); [lia|].
      rewrite (st_bind_ok _ _ _ _ _ E). unfold mret, ST_ret. fold acc'.
      destruct (Z.land b 128 =? 0); [done|]. do 4 f_equal. lia. }
    rewrite (st_bind_ok _ _ _ _ _ Eb).
    destruct (Z.land b 128 =? 0); [by exists acc', s'|]. by apply IH.
Qed.

Lemma varint32_sim : sim (ReadVarInt32 m) (abs_varint 32 B (8 * len) 5 0 0).
Proof. by apply (varint_loop_sim 32 5 5). Qed.

Lemma varint64_sim : sim (ReadVarInt64 m) (abs_varint 64 B (8 * len) 10 0 0).
Proof. by apply (varint_loop_sim 64 10 10). Qed.

Lemma varint32_safe : safe_op (ReadVarInt32 m) (fun v => 0 <= v < 2 ^ 32).
Proof. by apply (varint_loop_safe 32 5 5). Qed.

Lemma varint64_safe : safe_op (ReadVarInt64 m) (fun v => 0 <= v < 2 ^ 64).
Proof. by apply (varint_loop_safe 64 10 10). Qed.

(** A value written in base 128 is read back. *)
Lemma varint32_read v p s : 0 <= v < 2 ^ 32 -> 0 <= p ->
  stream_bytes B p (varint32_enc v) ->
  p + 8 * Z.of_nat (length (varint32_enc v)) <= 8 * len ->
  Rep base l (At p) s ->
  exists s', ReadVarInt32 m s = Ok (v, s') /\
    Rep base l (At (p + 8 * Z.of_nat (length (varint32_enc v)))) s'.
Proof.
  intros Hv Hp Hb Ht Hr. destruct (varint32_sim _ _ Hr) as (s' & E & Hr').
  rewrite (abs_varint_enc 32 _ _ 5 0 0 v) in E, Hr' by (done || lia).
  exists s'. cbn [fst snd] in *. rewrite Z.shiftl_0_r, Z.lor_0_l, uwrap_small in E by done.
  done.
Qed.

Lemma varint64_read v p s : 0 <= v < 2 ^ 64 -> 0 <= p ->
  stream_bytes B p (varint64_enc v) ->
  p + 8 * Z.of_nat (length (varint64_enc v)) <= 8 * len ->
  Rep base l (At p) s ->
  exists s', ReadVarInt64 m s = Ok (v, s') /\
    Rep base l (At (p + 8 * Z.of_nat (length (varint64_enc v)))) s'.
Proof.
  intros Hv Hp Hb Ht Hr. destruct (varint64_sim _ _ Hr) as (s' & E & Hr').
  rewrite (abs_varint_enc 64 _ _ 10 0 0 v) in E, Hr' by (done || lia).
  exists s'. cbn [fst snd] in *. rewrite Z.shiftl_0_r, Z.lor_0_l, uwrap_small in E by done.
  done.
Qed.

(** ** ReadVarUBit *)

Lemma varubit_safe : safe_op (ReadVarUBit m) (fun v => 0 <= v < 2 ^ 32).
Proof.
  unfold ReadVarUBit. eapply safe_bind; [apply ubit_safe; lia|].
  intros r Hr. cbv beta zeta.
  assert (Hk : forall n, 0 <= n <= 32 ->
    safe_op (r0 ← ReadUBitLong m n; mret (Z.lor (u32 (32 * r0)) (Z.land r 4294967199)))
      (fun v => 0 <= v < 2 ^ 32)).
  { intros n Hn. eapply safe_bind; [by apply ubit_safe|]. intros a Ha.
    apply safe_ret. apply lor_range; [lia|apply u32_range|by apply land_range]. }
  destruct (Z.land r 96 =? 32); [apply Hk; lia|].
  destruct (Z.land r 96 =? 64); [apply Hk; lia|].
  destruct (Z.land r 96 =? 96); [apply Hk; lia|].
  by apply safe_ret.
Qed.

End Ops.

(** The zig-zag transform of namespace [bitbuf] (src/Sniffles/packetbitbuf.h):
    both widths are instances of one arithmetic characterisation. *)

(** The signed integers in the order 0, -1, 1, -2, ... *)
Definition zigzag (n : Z) : Z := if n <? 0 then - 2 * n - 1 else 2 * n.

Definition signed_range (w n : Z) : Prop := - 2 ^ (w - 1) <= n < 2 ^ (w - 1).

Lemma pow2_half w : 0 < w -> 2 ^ w = 2 * 2 ^ (w - 1).
Proof. intros. rewrite <- Z.pow_succ_r by lia. f_equal. lia. Qed.

Lemma lxor_ones a w : 0 <= w -> 0 <= a < 2 ^ w -> Z.lxor a (Z.ones w) = 2 ^ w - 1 - a.
Proof.
  intros Hw Ha. assert (a + Z.lxor a (Z.ones w) = Z.ones w) as H.
  - rewrite Z.add_nocarry_lxor.
    + by rewrite <- Z.lxor_assoc, Z.lxor_nilpotent, Z.lxor_0_l.
    + apply Z.bits_inj'; intros i Hi. autorewrite with zbits.
      zbits_cases; simpl; try lia.
      * by destruct (Z.testbit a i).
      * by rewrite (zb_high a w) by done.
  - pose proof (Z.ones_equiv w). unfold Z.pred in *. lia.
Qed.

Lemma shiftr_sign w n : 0 < w -> signed_range w n ->
  Z.shiftr n (w - 1) = if n <? 0 then -1 else 0.
Proof.
  intros Hw [Hl Hh]. rewrite Z.shiftr_div_pow2 by lia.
  pose proof (Z.pow_pos_nonneg 2 (w - 1)).
  destruct (Z.ltb_spec n 0).
  - symmetry. apply (Z.div_unique _ _ _ (n + 2 ^ (w - 1))); lia.
  - apply Z.div_small. lia.
Qed.

Lemma zigzag_range w n : 0 < w -> signed_range w n -> 0 <= zigzag n < 2 ^ w.
Proof.
  intros Hw [Hl Hh]. rewrite pow2_half by done. unfold zigzag.
  destruct (Z.ltb_spec n 0); lia.
Qed.

Lemma zigzag_encode w n : 0 < w -> signed_range w n ->
  uwrap w (Z.lxor (swrap w (Z.shiftl n 1)) (Z.shiftr n (w - 1))) = zigzag n.
Proof.
  intros Hw Hn. rewrite (shiftr_sign w n Hw Hn). pose proof (zigzag_range w n Hw Hn) as Hr.
  rewrite Z.shiftl_mul_pow2 by lia. unfold zigzag in *. destruct (Z.ltb_spec n 0).
  - rewrite Z.lxor_m1_r. unfold Z.lnot.
    replace (Z.pred (- swrap w (n * 2 ^ 1))) with (- swrap w (n * 2 ^ 1) - 1) by lia.
    unfold uwrap. rewrite Zminus_mod, <- (Z.sub_0_l (swrap w _)), (Zminus_mod 0).
    change (swrap w (n * 2 ^ 1) mod 2 ^ w) with (uwrap w (swrap w (n * 2 ^ 1))).
    rewrite uwrap_swrap by done. unfold uwrap. rewrite <- (Zminus_mod 0), <- Zminus_mod.
    rewrite Z.mod_small; lia.
  - rewrite Z.lxor_0_r, uwrap_swrap by done. rewrite uwrap_small; lia.
Qed.

Lemma zigzag_decode w u : 0 < w -> 0 <= u < 2 ^ w ->
  let n := swrap w (Z.lxor (Z.shiftr u 1) (uwrap w (- (Z.land u 1)))) in
  signed_range w n /\ zigzag n = u.
Proof.
  intros Hw Hu. cbv zeta. rewrite Z.shiftr_div_pow2 by lia.
  change (Z.land u 1) with (Z.land u (Z.ones 1)). rewrite Z.land_ones by lia.
  change (2 ^ 1) with 2. pose proof (Z.div_mod u 2 ltac:(lia)) as Hd.
  pose proof (Z.mod_pos_bound u 2 ltac:(lia)) as Hm.
  pose proof (Z.div_pos u 2 ltac:(lia) ltac:(lia)) as Hq.
  pose proof (pow2_half w Hw) as Hp. rewrite Hp in Hu. unfold signed_range.
  destruct (Z.eq_dec (u mod 2) 0) as [E|E].
  - rewrite E, Z.opp_0, (uwrap_small w 0), Z.lxor_0_r by lia.
    rewrite swrap_small by lia. split; [lia|]. unfold zigzag.
    destruct (Z.ltb_spec (u / 2) 0); lia.
  - replace (u mod 2) with 1 by lia.
    assert (uwrap w (- (1)) = Z.ones w) as ->.
    { unfold uwrap. rewrite Z.ones_equiv. unfold Z.pred.
      rewrite <- (Z.mod_add _ 1) by lia.
      rewrite Z.mod_small; lia. }
    rewrite lxor_ones by lia.
    assert (swrap w (2 ^ w - 1 - u / 2) = - 1 - u / 2) as ->.
    { transitivity (swrap w (- 1 - u / 2)); [|apply swrap_small; lia].
      apply swrap_eq; [done|]. rewrite <- (Z.mod_add (- 1 - u / 2) 1) by lia.
      f_equal. lia. }
    split; [lia|]. unfold zigzag. destruct (Z.ltb_spec (-1 - u / 2) 0); lia.
Qed.

Lemma zigzag_inj n n' : zigzag n = zigzag n' -> n = n'.
Proof. unfold zigzag. destruct (Z.ltb_spec n 0), (Z.ltb_spec n' 0); lia. Qed.

Lemma encode32 n : signed_range 32 n -> ZigZagEncode32 n = zigzag n.
Proof. intros Hn. by apply (zigzag_encode 32). Qed.

Lemma encode64 n : signed_range 64 n -> ZigZagEncode64 n = zigzag n.
Proof. intros Hn. by apply (zigzag_encode 64). Qed.

Lemma decode32 u : 0 <= u < 2 ^ 32 ->
  signed_range 32 (ZigZagDecode32 u) /\ zigzag (ZigZagDecode32 u) = u.
Proof. intros Hu. by apply (zigzag_decode 32). Qed.

Lemma decode64 u : 0 <= u < 2 ^ 64 ->
  signed_range 64 (ZigZagDecode64 u) /\ zigzag (ZigZagDecode64 u) = u.
Proof. intros Hu. by apply (zigzag_decode 64). Qed.

Lemma decode_encode32 n : signed_range 32 n -> ZigZagDecode32 (ZigZagEncode32 n) = n.
Proof.
  intros Hn. rewrite encode32 by done. pose proof (zigzag_range 32 n ltac:(lia) Hn) as Hr.
  apply zigzag_inj. by apply decode32.
Qed.

Lemma decode_encode64 n : signed_range 64 n -> ZigZagDecode64 (ZigZagEncode64 n) = n.
Proof.
  intros Hn. rewrite encode64 by done. pose proof (zigzag_range 64 n ltac:(lia) Hn) as Hr.
  apply zigzag_inj. by apply decode64.
Qed.
