(* ===== verification/BitCopy.v ===== *)
(** Byte copies and strings of the bit reader: [ReadBits], [ReadBytes] and
    [ReadString] on a stream that holds the data they ask for; and sequences of
    reads in any state of the object. *)

From S2P Require Import Prelude CMem BitRead Float32 BitStream BitOps.

(** The [k] bytes of the stream from bit [p] on. *)
Definition bytes_at (B p : Z) (k : nat) : list Z :=
  (fun i : nat => bits B (p + 8 * Z.of_nat i) 8) <$> seq 0 k.

(** What a copy of [nBits] bits stores: whole bytes, then the bits left over. *)
Definition copied (B p nBits : Z) : list Z :=
  bytes_at B p (Z.to_nat (nBits / 8)) ++
  (if nBits mod 8 =? 0 then [] else [bits B (p + 8 * (nBits / 8)) (nBits mod 8)]).

(** A character ends a string, or a line. *)
Definition ends_string (bLine : bool) (c : Z) : bool :=
  (c =? 0) || (bLine && (c =? 10)).

Lemma bytes_at_S B p k :
  bytes_at B p (k + 1) = bytes_at B p k ++ [bits B (p + 8 * Z.of_nat k) 8].
Proof. unfold bytes_at. by rewrite seq_app, fmap_app. Qed.

Lemma bytes_at_dword B p k : 0 <= p + 8 * Z.of_nat k ->
  bytes_at B p (k + 4) = bytes_at B p k ++
    (let w := bits B (p + 8 * Z.of_nat k) 32 in
     [bits w 0 8; bits w 8 8; bits w 16 8; bits w 24 8]).
Proof.
  intros Hp. cbv zeta. rewrite !bits_bits by lia.
  unfold bytes_at. rewrite seq_app, fmap_app. f_equal. cbn [seq fmap list_fmap].
  repeat first [reflexivity | apply (f_equal2 cons); [f_equal; lia|]].
Qed.

Lemma bytes_at_stream B p bs :
  stream_bytes B p bs -> bytes_at B p (length bs) = bs.
Proof.
  intros H. apply list_eq. intros i. unfold bytes_at. rewrite list_lookup_fmap.
  destruct (bs !! i) as [b|] eqn:E.
  - rewrite lookup_seq_lt by (by eapply lookup_lt_Some). simpl. f_equal. by apply H.
  - rewrite lookup_seq_ge by (by apply lookup_ge_None). done.
Qed.

Section Copy.
Context (m : mem) (base : Z) (l : list Z) (Hbuf : buffer_ok m base l).

Let len : Z := Z.of_nat (length l).
Let B : Z := le_join l.

(** A read that fits. *)
Lemma read_fits n p s : 0 <= n <= 32 -> Rep base l (At p) s -> p + n <= 8 * len ->
  exists s', ReadUBitLong m n s = Ok (bits B p n, s') /\ Rep base l (At (p + n)) s'.
Proof.
  intros Hn Hr Hp. destruct (ReadUBitLong_sim m base l Hbuf n Hn _ _ Hr) as (s' & E & Hr').
  cbn [abs_read] in *. fold len B in E, Hr'.
  destruct (Z.leb_spec (p + n) (8 * len)); [|lia]. eauto.
Qed.

Lemma Rep_pos p s : Rep base l (At p) s -> 0 <= p.
Proof.
  intros [_ [_ [(o & _ & _ & _ & _ & _ & Hp & _)|(-> & _)]]]; lia.
Qed.

(** ** ReadBits *)

Section Loops.
Variables (p nBits : Z).
Hypothesis Hfit : p + nBits <= 8 * len.

(** One of the copy loops preserves: [k] bytes are stored, the cursor is
    behind them. *)
Definition copy_post (r : Z * Z * list Z) (s : CBitRead) : Prop :=
  exists k pOut, r = (pOut, nBits - 8 * Z.of_nat k, bytes_at B p k) /\
    8 * Z.of_nat k <= nBits /\ Rep base l (At (p + 8 * Z.of_nat k)) s.

Definition copy_loop (body : Z * Z * list Z -> ST CBitRead _) : Prop :=
  forall fuel r s, copy_post r s -> snd (fst r) < Z.of_nat fuel ->
  exists r' s', st_loop fuel body r s = Ok (r', s') /\ copy_post r' s' /\
    exists s0, body r' s0 = Ok (inr r', s0).

(** A body that either stops or stores at least one more byte. *)
Lemma copy_loop_intro body :
  (forall r s, copy_post r s ->
    (exists r' s', body r s = Ok (inl r', s') /\ copy_post r' s' /\
       snd (fst r') < snd (fst r)) \/
    (forall s0, body r s0 = Ok (inr r, s0))) ->
  copy_loop body.
Proof.
  intros Hbody fuel. induction fuel as [|n IH]; intros r s Hr Hf.
  - destruct Hr as (k & pOut & -> & Hk & _). simpl in Hf. lia.
  - cbn [st_loop]. destruct (Hbody r s Hr) as [(r' & s' & E & Hr' & Hlt)|E].
    + rewrite (st_bind_ok _ _ _ _ _ E). apply IH; [done|lia].
    + rewrite (st_bind_ok _ _ _ _ _ (E s)). exists r, s.
      split; [done|]. split; [done|]. by exists s.
Qed.

Lemma copy_byte k s : Rep base l (At (p + 8 * Z.of_nat k)) s ->
  8 * Z.of_nat k + 8 <= nBits ->
  exists s', ReadUBitLong m 8 s = Ok (bits B (p + 8 * Z.of_nat k) 8, s') /\
    Rep base l (At (p + 8 * Z.of_nat (k + 1))) s'.
Proof.
  intros Hr Hk. destruct (read_fits 8 _ s ltac:(lia) Hr) as (s' & E & Hr'); [lia|].
  exists s'. split; [done|].
  by replace (p + 8 * Z.of_nat (k + 1)) with (p + 8 * Z.of_nat k + 8) by lia.
Qed.

Lemma align_loop : copy_loop (ReadBits_align m).
Proof.
  apply copy_loop_intro. intros r s (k & pOut & -> & Hk & Hr).
  unfold ReadBits_align.
  destruct (negb (Z.land pOut 3 =? 0) && (8 <=? nBits - 8 * Z.of_nat k)) eqn:C;
    [left|by right].
  apply andb_prop in C as [_ C%Z.leb_le].
  destruct (copy_byte k s Hr) as (s' & E & Hr'); [lia|].
  rewrite (st_bind_ok _ _ _ _ _ E). do 2 eexists. split; [reflexivity|].
  split; [|simpl; lia]. exists (k + 1)%nat, (pOut + 1).
  rewrite bytes_at_S. split; [do 2 f_equal; lia|]. split; [lia|done].
Qed.

Lemma bytes_loop : copy_loop (ReadBits_bytes m).
Proof.
  apply copy_loop_intro. intros r s (k & pOut & -> & Hk & Hr).
  unfold ReadBits_bytes.
  destruct (Z.leb_spec 8 (nBits - 8 * Z.of_nat k)); [left|by right].
  destruct (copy_byte k s Hr) as (s' & E & Hr'); [lia|].
  rewrite (st_bind_ok _ _ _ _ _ E). do 2 eexists. split; [reflexivity|].
  split; [|simpl; lia]. exists (k + 1)%nat, (pOut + 1).
  rewrite bytes_at_S. split; [do 2 f_equal; lia|]. split; [lia|done].
Qed.

Lemma dwords_loop : copy_loop (ReadBits_dwords m).
Proof.
  apply copy_loop_intro. intros r s (k & pOut & -> & Hk & Hr).
  unfold ReadBits_dwords.
  destruct (Z.leb_spec 32 (nBits - 8 * Z.of_nat k)); [left|by right].
  destruct (read_fits 32 _ s ltac:(lia) Hr) as (s' & E & Hr'); [lia|].
  rewrite (st_bind_ok _ _ _ _ _ E). do 2 eexists. split; [reflexivity|].
  split; [|simpl; lia]. exists (k + 4)%nat, (pOut + 4).
  assert (0 <= p + 8 * Z.of_nat k) as Hp by by eapply Rep_pos.
  rewrite bytes_at_dword by done.
  split; [do 2 f_equal; lia|]. split; [lia|].
  by replace (p + 8 * Z.of_nat (k + 4)) with (p + 8 * Z.of_nat k + 32) by lia.
Qed.
End Loops.

Lemma ReadBits_copies p nBits pOut s : 0 <= nBits -> p + nBits <= 8 * len ->
  Rep base l (At p) s ->
  exists s', ReadBits m pOut nBits s = Ok (copied B p nBits, s') /\
    Rep base l (At (p + nBits)) s'.
Proof.
  intros Hn Hfit Hr. unfold ReadBits.
  set (fuel := Datatypes.S (Z.to_nat nBits)).
  assert (copy_post p nBits (pOut, nBits, []) s) as H0.
  { exists 0%nat, pOut. rewrite Z.mul_0_r, Z.sub_0_r, Z.add_0_r. done. }
  destruct (align_loop p nBits Hfit fuel _ _ H0) as (r1 & s1 & E1 & H1 & _); [simpl; lia|].
  rewrite (st_bind_ok _ _ _ _ _ E1).
  assert (Hle : forall r s, copy_post p nBits r s -> snd (fst r) < Z.of_nat fuel).
  { intros r s' (k & q & -> & ? & _). simpl. lia. }
  destruct (dwords_loop p nBits Hfit fuel _ _ H1 (Hle _ _ H1)) as (r2 & s2 & E2 & H2 & _).
  rewrite (st_bind_ok _ _ _ _ _ E2).
  destruct (bytes_loop p nBits Hfit fuel _ _ H2 (Hle _ _ H2)) as (r3 & s3 & E3 & H3 & Hst).
  rewrite (st_bind_ok _ _ _ _ _ E3).
  destruct H3 as (k & q & -> & Hk & Hr3).
  assert (nBits - 8 * Z.of_nat k < 8) as Hlt.
  { destruct Hst as [s0 Hst]. unfold ReadBits_bytes in Hst.
    destruct (Z.leb_spec 8 (nBits - 8 * Z.of_nat k)); [|done].
    apply st_bind_inv in Hst as (a & s' & _ & Hst). done. }
  assert (Z.of_nat k = nBits / 8) as Hkd by (Z.to_euclidean_division_equations; lia).
  assert (nBits - 8 * Z.of_nat k = nBits mod 8) as Hkm
    by (Z.to_euclidean_division_equations; lia).
  assert (Z.to_nat (nBits / 8) = k) as Hkn by lia.
  unfold copied. rewrite Hkn, <- Hkd, <- Hkm.
  destruct (Z.eqb_spec (nBits - 8 * Z.of_nat k) 0) as [Ez|Ez]; cbn [negb].
  - exists s3. rewrite app_nil_r. split; [done|].
    by replace (p + nBits) with (p + 8 * Z.of_nat k) by lia.
  - destruct (read_fits (nBits - 8 * Z.of_nat k) _ s3 ltac:(lia) Hr3) as (s' & E & Hr');
      [lia|].
    rewrite (st_bind_ok _ _ _ _ _ E). exists s'. split.
    + unfold mret, ST_ret. do 4 f_equal.
      apply Rep_pos in Hr3. apply Z.bits_inj'; intros i Hi. rewrite !zb_bits by lia.
      rewrite Z.add_0_r. zbits_cases; zbits_finish.
    + by replace (p + nBits) with (p + 8 * Z.of_nat k + (nBits - 8 * Z.of_nat k)) by lia.
Qed.

(** ** ReadString *)

Lemma ReadChar_fits p s : Rep base l (At p) s -> p + 8 <= 8 * len ->
  exists s', ReadChar m s = Ok (s8 (bits B p 8), s') /\ Rep base l (At (p + 8)) s'.
Proof.
  intros Hr Hp. destruct (sbit_sim m base l Hbuf 8 ltac:(lia) _ _ Hr) as (s' & E & Hr').
  unfold ReadChar. rewrite E. cbn [abs_read] in Hr' |- *. fold len B in Hr' |- *.
  destruct (Z.leb_spec (p + 8) (8 * len)); [|lia]. by exists s'.
Qed.

Lemma string_body_eq maxLen bLine str small s v s' : ReadChar m s = Ok (v, s') ->
  ReadString_body m maxLen bLine (str, small) s =
    Ok (if ends_string bLine v then inr (str, small)
        else if Z.of_nat (length str) <? maxLen - 1
             then inl (str ++ [v], small) else inl (str, true), s').
Proof.
  intros E. unfold ReadString_body, ends_string.
  rewrite (st_bind_ok _ _ _ _ _ E).
  destruct (v =? 0); [done|]. cbn [orb]. destruct (bLine && (v =? 10)); [done|].
  by destruct (Z.of_nat (length str) <? maxLen - 1).
Qed.

(** The characters before the terminator, as far as they fit. *)
Lemma string_loop maxLen bLine cs : 1 <= maxLen ->
  Forall (fun c => ends_string bLine (s8 c) = false) cs ->
  forall t fuel p s str small,
    ends_string bLine (s8 t) = true -> (length cs < fuel)%nat ->
    stream_bytes B p (cs ++ [t]) -> p + 8 * Z.of_nat (length cs + 1) <= 8 * len ->
    Rep base l (At p) s ->
    (small = false \/ maxLen - 1 <= Z.of_nat (length str)) ->
    Z.of_nat (length str) <= maxLen - 1 ->
    exists s', st_loop fuel (ReadString_body m maxLen bLine) (str, small) s =
      Ok ((take (Z.to_nat (maxLen - 1)) (str ++ (s8 <$> cs)),
           small || negb (Z.of_nat (length str + length cs) <=? maxLen - 1)), s') /\
      Rep base l (At (p + 8 * Z.of_nat (length cs + 1))) s'.
Proof.
  intros Hmax Hcs t. induction Hcs as [|c cs Hc Hcs IH];
    intros fuel p s str small Ht Hf Hb Hp Hr Hsm Hlen;
    (destruct fuel as [|fuel]; [simpl in Hf; lia|]);
    cbn [app length] in *; apply stream_bytes_cons in Hb as [Hb Hb'];
    (destruct (ReadChar_fits p s Hr) as (s' & E & Hr'); [lia|]);
    rewrite Hb in E; cbn [st_loop];
    rewrite (st_bind_ok _ _ _ _ _ (string_body_eq maxLen bLine str small _ _ _ E)).
  - exists s'. split; [|exact Hr'].
    assert (take (Z.to_nat (maxLen - 1)) (str ++ (s8 <$> [])) = str) as ->
      by (rewrite app_nil_r; apply take_ge; lia).
    rewrite Nat.add_0_r.
    destruct (Z.leb_spec (Z.of_nat (length str)) (maxLen - 1)); [|lia].
    by rewrite orb_false_r, Ht.
  - rewrite Hc.
    assert (Hgo : forall str' small',
      (small' = false \/ maxLen - 1 <= Z.of_nat (length str')) ->
      Z.of_nat (length str') <= maxLen - 1 ->
      take (Z.to_nat (maxLen - 1)) (str' ++ (s8 <$> cs)) =
        take (Z.to_nat (maxLen - 1)) (str ++ (s8 <$> c :: cs)) ->
      small' || negb (Z.of_nat (length str' + length cs) <=? maxLen - 1) =
        small || negb (Z.of_nat (length str + Datatypes.S (length cs)) <=? maxLen - 1) ->
      exists s'', st_loop fuel (ReadString_body m maxLen bLine) (str', small') s' =
        Ok ((take (Z.to_nat (maxLen - 1)) (str ++ (s8 <$> c :: cs)),
          small || negb (Z.of_nat (length str + Datatypes.S (length cs)) <=? maxLen - 1)), s'') /\
        Rep base l (At (p + 8 * Z.of_nat (Datatypes.S (length cs) + 1))) s'').
    { intros str' small' Hs' Hl' Et Es.
      destruct (IH fuel (p + 8) s' str' small') as (s'' & E2 & Hr2);
        [done|lia|done|lia|done|done|done|].
      exists s''. rewrite E2, Et, Es. split; [done|].
      by replace (p + 8 * Z.of_nat (Datatypes.S (length cs) + 1))
        with (p + 8 + 8 * Z.of_nat (length cs + 1)) by lia. }
    destruct (Z.ltb_spec (Z.of_nat (length str)) (maxLen - 1)) as [Hlt|Hge]; apply Hgo.
    + left. destruct Hsm; [done|lia].
    + rewrite length_app. simpl. lia.
    + rewrite fmap_cons, <- app_assoc. done.
    + rewrite length_app. simpl.
      replace (length str + 1 + length cs)%nat with (length str + Datatypes.S (length cs))%nat by lia.
      done.
    + right. lia.
    + lia.
    + rewrite !take_app_le by lia. done.
    + destruct (Z.leb_spec (Z.of_nat (length str + Datatypes.S (length cs))) (maxLen - 1)); [lia|].
      simpl. by rewrite orb_true_r.
Qed.

Lemma ReadString_reads maxLen bLine cs t fuel p s : 1 <= maxLen ->
  Forall (fun c => ends_string bLine (s8 c) = false) cs ->
  ends_string bLine (s8 t) = true -> (length cs < fuel)%nat ->
  stream_bytes B p (cs ++ [t]) -> p + 8 * Z.of_nat (length cs + 1) <= 8 * len ->
  Rep base l (At p) s ->
  exists s', ReadString m fuel maxLen bLine s =
    Ok ((take (Z.to_nat (maxLen - 1)) (s8 <$> cs),
         Z.of_nat (length cs) <=? maxLen - 1), s') /\
    Rep base l (At (p + 8 * Z.of_nat (length cs + 1))) s'.
Proof.
  intros Hmax Hcs Ht Hf Hb Hp Hr. unfold ReadString, assert_.
  destruct (Z.eqb_spec maxLen 0); [lia|]. cbn [negb].
  destruct (string_loop maxLen bLine cs Hmax Hcs t fuel p s [] false) as (s' & E & Hr');
    try done; [by left|simpl; lia|].
  exists s'. split; [|done]. st_run. rewrite E. cbn [app length Nat.add orb].
  destruct (Z.ltb_spec (Z.of_nat (length (take (Z.to_nat (maxLen - 1)) (s8 <$> cs)))) maxLen)
    as [_|Hge]; [|rewrite length_take in Hge; lia].
  destruct Hr' as (_ & Hov & _). unfold IsOverflowed. rewrite Hov, negb_involutive. done.
Qed.

(** Past the end every character is 0, so the loop stops wherever it starts. *)
Lemma ReadChar_over s : Rep base l Over s ->
  exists s', ReadChar m s = Ok (0, s') /\ Rep base l Over s'.
Proof.
  intros Hr. destruct (sbit_sim m base l Hbuf 8 ltac:(lia) _ _ Hr) as (s' & E & Hr').
  by exists s'.
Qed.

Lemma string_loop_total maxLen bLine fuel : forall c s str small,
  (match c with At p => 8 * len - p < 8 * (Z.of_nat fuel - 1) | Over => 1 <= Z.of_nat fuel end) ->
  1 <= Z.of_nat fuel ->
  Z.of_nat (length str) <= maxLen - 1 -> Rep base l c s ->
  exists r s' c', st_loop fuel (ReadString_body m maxLen bLine) (str, small) s = Ok (r, s') /\
    Z.of_nat (length (fst r)) <= maxLen - 1 /\ Rep base l c' s'.
Proof.
  induction fuel as [|fuel IH]; intros c s str small Hf H1 Hlen Hr; [lia|].
  assert (Hover : forall s1, Rep base l Over s1 -> ReadChar m s = Ok (0, s1) ->
    exists r s' c', st_loop (Datatypes.S fuel) (ReadString_body m maxLen bLine) (str, small) s
      = Ok (r, s') /\ Z.of_nat (length (fst r)) <= maxLen - 1 /\ Rep base l c' s').
  { intros s1 Hr1 E. cbn [st_loop].
    rewrite (st_bind_ok _ _ _ _ _ (string_body_eq maxLen bLine str small _ _ _ E)).
    by exists (str, small), s1, Over. }
  destruct c as [p|]; [|destruct (ReadChar_over s Hr) as (s1 & E & Hr1); by eapply Hover].
  destruct (Z.le_gt_cases (p + 8) (8 * len)) as [Hp|Hp].
  - destruct (ReadChar_fits p s Hr Hp) as (s1 & E & Hr1).
    cbn [st_loop].
    rewrite (st_bind_ok _ _ _ _ _ (string_body_eq maxLen bLine str small _ _ _ E)).
    destruct (ends_string bLine (s8 (bits B p 8)));
      [by exists (str, small), s1, (At (p + 8))|].
    destruct (Z.ltb_spec (Z.of_nat (length str)) (maxLen - 1));
      apply (IH (At (p + 8)));
      try done; rewrite ?length_app; simpl; lia.
  - destruct (sbit_sim m base l Hbuf 8 ltac:(lia) _ _ Hr) as (s' & E & Hr').
    cbn [abs_read] in *. fold len B in E, Hr'.
    destruct (Z.leb_spec (p + 8) (8 * len)); [lia|]. cbn [fst snd] in *.
    by eapply Hover.
Qed.

Lemma ReadString_total maxLen bLine fuel c s : 1 <= maxLen ->
  (length l + 2 <= fuel)%nat -> Rep base l c s ->
  exists r s', ReadString m fuel maxLen bLine s = Ok (r, s') /\
    Z.of_nat (length (fst r)) < maxLen.
Proof.
  intros Hmax Hf Hr. unfold ReadString, assert_.
  destruct (Z.eqb_spec maxLen 0); [lia|]. cbn [negb].
  destruct (string_loop_total maxLen bLine fuel c s [] false)
    as ([str small] & s' & c' & E & Hl & _); [|lia|simpl; lia|done|].
  { destruct c as [p|]; [|lia]. pose proof (Rep_pos p s Hr). unfold len in *. lia. }
  st_run. rewrite E. cbn [fst] in Hl.
  destruct (Z.ltb_spec (Z.of_nat (length str)) maxLen); [|lia].
  do 2 eexists. split; [reflexivity|]. simpl. lia.
Qed.
End Copy.

(** * Sequences of calls *)

(** The reads and seeks of the class's interface, with their arguments. *)
Inductive reader_call :=
  | CUBitLong (n : Z)
  | CSBitLong (n : Z)
  | COneBit
  | CVarInt32
  | CVarInt64
  | CSignedVarInt32
  | CSignedVarInt64
  | CUBit
  | CChar
  | CByte
  | CShort
  | CWord
  | CBits (pOut nBits : Z)
  | CBytes (pOut nBytes : Z)
  | CString (maxLen : Z) (bLine : bool)
  | CBitAngle (n : Z)
  | CBitCoord
  | CBitCoordMP (coordType : EBitCoordType)
  | CBitCellCoord (n : Z) (coordType : EBitCoordType)
  | CBitVec3Coord
  | CBitNormal
  | CBitVec3Normal
  | CBitAngles
  | CBitFloat
  | CSeek (n : Z)
  | CSeekRelative (n : Z).

(** [rounds] is the fuel of [ReadString]. *)
Definition run_call (m : mem) (rounds : nat) (c : reader_call) : ST CBitRead unit :=
  match c with
  | CUBitLong n => ReadUBitLong m n;; mret tt
  | CSBitLong n => ReadSBitLong m n;; mret tt
  | COneBit => ReadOneBit m;; mret tt
  | CVarInt32 => ReadVarInt32 m;; mret tt
  | CVarInt64 => ReadVarInt64 m;; mret tt
  | CSignedVarInt32 => ReadSignedVarInt32 m;; mret tt
  | CSignedVarInt64 => ReadSignedVarInt64 m;; mret tt
  | CUBit => ReadVarUBit m;; mret tt
  | CChar => ReadChar m;; mret tt
  | CByte => ReadByte m;; mret tt
  | CShort => ReadShort m;; mret tt
  | CWord => ReadWord m;; mret tt
  | CBits pOut nBits => ReadBits m pOut nBits;; mret tt
  | CBytes pOut nBytes => ReadBytes m pOut nBytes;; mret tt
  | CString maxLen bLine => ReadString m rounds maxLen bLine;; mret tt
  | CBitAngle n => ReadBitAngle m n;; mret tt
  | CBitCoord => ReadBitCoord m;; mret tt
  | CBitCoordMP coordType => ReadBitCoordMP m coordType;; mret tt
  | CBitCellCoord n coordType => ReadBitCellCoord m n coordType;; mret tt
  | CBitVec3Coord => ReadBitVec3Coord m;; mret tt
  | CBitNormal => ReadBitNormal m;; mret tt
  | CBitVec3Normal => ReadBitVec3Normal m;; mret tt
  | CBitAngles => ReadBitAngles m;; mret tt
  | CBitFloat => ReadBitFloat m;; mret tt
  | CSeek n => Seek m n;; mret tt
  | CSeekRelative n => SeekRelative m n;; mret tt
  end.

(** The widths that the mask table has, and sizes that are not negative; an empty output buffer
    fails an assertion of [ReadString]. *)
Definition call_ok (c : reader_call) : Prop :=
  match c with
  | CUBitLong n | CBitAngle n | CBitCellCoord n _ => 0 <= n <= 32
  | CSBitLong n => 1 <= n <= 32
  | CBits _ nBits => 0 <= nBits
  | CBytes _ nBytes => 0 <= nBytes < 2 ^ 28
  | CString maxLen _ => 1 <= maxLen
  | _ => True
  end.

Fixpoint run_calls (m : mem) (rounds : nat) (cs : list reader_call) : ST CBitRead unit :=
  match cs with [] => mret tt | c :: cs' => run_call m rounds c;; run_calls m rounds cs' end.

Section Calls.
Context (m : mem) (base : Z) (l : list Z) (Hbuf : buffer_ok m base l).

Let len : Z := Z.of_nat (length l).

Abbreviation safe_op := (safe_op base l).
Abbreviation anything := (fun _ => True).

(** ** [ReadBits] *)

Definition copy_safe (body : Z * Z * list Z -> ST CBitRead (Z * Z * list Z + Z * Z * list Z)) : Prop :=
  forall r, 0 <= snd (fst r) -> safe_op (body r) (fun x =>
    match x with
    | inl r' => 0 <= snd (fst r') < snd (fst r)
    | inr r' => r' = r
    end).

Lemma copy_loop_safe body : copy_safe body -> forall fuel r, 0 <= snd (fst r) < Z.of_nat fuel ->
  safe_op (st_loop fuel body r) (fun r' => 0 <= snd (fst r') <= snd (fst r)).
Proof.
  intros Hb fuel. induction fuel as [|fuel IH]; intros r Hr; [lia|]. cbn [st_loop].
  eapply safe_bind; [apply Hb; lia|]. intros [r'|r'] Hr'.
  - eapply safe_weaken; [|apply IH; lia]. cbn. lia.
  - subst r'. apply safe_ret. lia.
Qed.

Lemma align_safe : copy_safe (ReadBits_align m).
Proof.
  intros [[pOut n] out] Hn. unfold ReadBits_align. cbn [fst snd] in *.
  destruct (negb (Z.land pOut 3 =? 0) && (8 <=? n)) eqn:C; [|by apply safe_ret].
  apply andb_prop in C as [_ C]. eapply safe_bind; [by apply (ubit_safe m base l Hbuf 8)|].
  intros b _. apply safe_ret. cbn. lia.
Qed.

Lemma dwords_safe : copy_safe (ReadBits_dwords m).
Proof.
  intros [[pOut n] out] Hn. unfold ReadBits_dwords. cbn [fst snd] in *.
  destruct (Z.leb_spec 32 n); [|by apply safe_ret].
  eapply safe_bind; [by apply (ubit_safe m base l Hbuf 32)|]. intros b _. apply safe_ret. cbn. lia.
Qed.

Lemma bytes_safe : copy_safe (ReadBits_bytes m).
Proof.
  intros [[pOut n] out] Hn. unfold ReadBits_bytes. cbn [fst snd] in *.
  destruct (Z.leb_spec 8 n); [|by apply safe_ret].
  eapply safe_bind; [by apply (ubit_safe m base l Hbuf 8)|]. intros b _. apply safe_ret. cbn. lia.
Qed.

(** Fewer than eight bits are left when the last loop ends. *)
Lemma bytes_left fuel : forall r s r' s', st_loop fuel (ReadBits_bytes m) r s = Ok (r', s') -> snd (fst r') < 8.
Proof.
  induction fuel as [|fuel IH]; intros [[pOut n] out] s r' s' E; [done|]. cbn [st_loop] in E.
  destruct (ReadBits_bytes m (pOut, n, out) s) as [[[x|x] s1]|e] eqn:Eb;
    [| |by rewrite (st_bind_fault _ _ _ _ Eb) in E]; rewrite (st_bind_ok _ _ _ _ _ Eb) in E; [by eapply IH|].
  injection E as <- _. unfold ReadBits_bytes in Eb. destruct (Z.leb_spec 8 n).
  - unfold mbind, ST_bind in Eb. by destruct (ReadUBitLong m 8 s) as [[b s2]|].
  - injection Eb as <- _. cbn. lia.
Qed.

Lemma ReadBits_safe pOut nBits : 0 <= nBits -> safe_op (ReadBits m pOut nBits) anything.
Proof.
  intros Hn. unfold ReadBits. set (fuel := Datatypes.S (Z.to_nat nBits)).
  eapply safe_bind; [apply (copy_loop_safe _ align_safe); cbn [fst snd]; unfold fuel; lia|]. intros r1 H1. cbn [fst snd] in H1.
  eapply safe_bind; [apply (copy_loop_safe _ dwords_safe); unfold fuel; lia|]. intros r2 H2. cbv beta in H2.
  intros s Hs. destruct (copy_loop_safe _ bytes_safe fuel r2 ltac:(unfold fuel; lia) s Hs) as (r3 & s3 & E & H3 & Hs3).
  rewrite (st_bind_ok _ _ _ _ _ E). pose proof (bytes_left _ _ _ _ _ E) as H8.
  destruct r3 as [[pOut3 n3] out]. cbn [fst snd] in *. revert s3 Hs3 E. intros s3 Hs3 _. revert s3 Hs3.
  change (safe_op (if negb (n3 =? 0) then b ← ReadUBitLong m n3; mret (out ++ [bits b 0 8]) else mret out) anything).
  destruct (negb (n3 =? 0)); [|by apply safe_ret].
  eapply safe_bind; [apply (ubit_safe m base l Hbuf n3); lia|]. intros b _. by apply safe_ret.
Qed.

(** ** [ReadString] *)

(** The bits that are left, generously, and the state behind all of them. *)
Definition room (s : CBitRead) : Z := 8 * (base + len + 4 - m_pDataIn s) + m_nBitsAvail s.
Definition drained (s : CBitRead) : Prop := m_pDataIn s = base + len + 4 /\ m_nInBufWord s = 0.

Lemma drained_byte s : Safe base l s -> drained s -> exists s', ReadUBitLong m 8 s = Ok (0, s').
Proof.
  intros (Hf & Hw & Ha & _) [Hp E].
  destruct (Z.lt_trichotomy 8 (m_nBitsAvail s)) as [Hlt|[Heq|Hgt]].
  - rewrite (read_within m l) by lia. rewrite E. eauto.
  - rewrite (read_exact m l 8 s _ Heq ltac:(lia) (grab_past m base l false (set_avail 32 (set_avail 0 s)) Hf Hp)). rewrite E. eauto.
  - rewrite (read_overflow m l 8 s _ ltac:(lia) (grab_past m base l true _ Hf Hp)) by done. eauto.
Qed.

Lemma byte_progress s : Safe base l s -> exists v s', ReadUBitLong m 8 s = Ok (v, s') /\ 0 <= v < 2 ^ 32 /\
  Safe base l s' /\ (v = 0 \/ room s' <= room s - 8 \/ drained s').
Proof.
  intros Hs. destruct (ubit_safe m base l Hbuf 8 ltac:(lia) s Hs) as (v & s' & E & Hv & Hs').
  exists v, s'. split; [done|]. split; [done|]. split; [done|]. destruct Hs as (Hf & Hw & Ha & Hp).
  destruct (Z.lt_trichotomy 8 (m_nBitsAvail s)) as [Hlt|[Heq|Hgt]].
  - rewrite (read_within m l) in E by lia. injection E as _ <-. right. left. unfold room. br_simpl. lia.
  - right. destruct Hp as [(o & Hp & Ho & Hm)|Hp].
    + left. destruct (Z.eq_dec o len) as [->|].
      * rewrite (read_exact m l 8 s _ Heq ltac:(lia) (grab_last m base l false (set_avail 32 (set_avail 0 s)) Hf Hp)) in E.
        injection E as _ <-. unfold room, len in *. br_simpl. lia.
      * destruct (dword_room l o) as [??]; [unfold len in *; lia|done|].
        rewrite (read_exact m l 8 s _ Heq ltac:(lia) (grab_mid m base l Hbuf false (set_avail 32 (set_avail 0 s)) o Hf Hp ltac:(unfold len in *; lia) Hm)) in E.
        injection E as _ <-. unfold room, len in *. br_simpl. lia.
    + right. rewrite (read_exact m l 8 s _ Heq ltac:(lia) (grab_past m base l false (set_avail 32 (set_avail 0 s)) Hf Hp)) in E.
      injection E as _ <-. by split.
  - destruct Hp as [(o & Hp & Ho & Hm)|Hp].
    + destruct (Z.eq_dec o len) as [->|].
      * left. rewrite (read_overflow m l 8 s _ ltac:(lia) (grab_last m base l true _ Hf Hp)) in E by done. by injection E as <- _.
      * pose proof (grab_mid m base l Hbuf true _ o Hf Hp ltac:(unfold len in *; lia) Hm) as Hg.
        destruct (m_bOverflow s) eqn:Eo.
        -- left. rewrite (read_overflow m l 8 s _ ltac:(lia) Hg) in E by done. by injection E as <- _.
        -- right. left. rewrite (read_merge m l 8 s _ ltac:(lia) ltac:(lia) Hg) in E by done.
           injection E as _ <-. unfold room, len in *. br_simpl. lia.
    + left. rewrite (read_overflow m l 8 s _ ltac:(lia) (grab_past m base l true _ Hf Hp)) in E by done. by injection E as <- _.
Qed.

Lemma char_progress s : Safe base l s -> exists c s', ReadChar m s = Ok (c, s') /\ Safe base l s' /\
  (c = 0 \/ ~ drained s /\ (room s' <= room s - 8 \/ drained s')).
Proof.
  intros Hs. destruct (byte_progress s Hs) as (v & s' & E & Hv & Hs' & Hp).
  exists (swrap 8 v), s'. unfold ReadChar. rewrite (ReadSBitLong_eq m l 8 s v s') by (done || lia).
  split; [done|]. split; [done|]. destruct (decide (v = 0)) as [->|Hne]; [by left|]. right.
  split; [|tauto]. intros Hd. destruct (drained_byte s Hs Hd) as (s2 & E2). rewrite E in E2. by injection E2 as -> _.
Qed.

Lemma room_bound s : Safe base l s -> 0 < room s <= 8 * (len + 8).
Proof.
  intros (_ & _ & Ha & Hp). unfold room, len in *. destruct Hp as [(o & -> & Ho & _)| ->]; lia.
Qed.

(** Every round but the last two uses up eight bits. *)
Lemma string_loop_safe maxLen bLine fuel : forall s str small, Safe base l s ->
  (room s < 8 * (Z.of_nat fuel - 2) \/ drained s /\ 1 <= Z.of_nat fuel) -> Z.of_nat (length str) <= maxLen - 1 ->
  exists r s', st_loop fuel (ReadString_body m maxLen bLine) (str, small) s = Ok (r, s') /\
    Z.of_nat (length (fst r)) <= maxLen - 1 /\ Safe base l s'.
Proof.
  induction fuel as [|fuel IH]; intros s str small Hs Hf Hl.
  - pose proof (room_bound s Hs). destruct Hf as [Hf|[_ Hf]]; lia.
  - destruct (char_progress s Hs) as (c & s1 & E & Hs1 & Hp). cbn [st_loop].
    rewrite (st_bind_ok _ _ _ _ _ (string_body_eq m maxLen bLine str small _ _ _ E)).
    destruct (ends_string bLine c) eqn:Ee; [by exists (str, small), s1|].
    destruct Hp as [->|[Hnd Hp]]; [by unfold ends_string in Ee|].
    assert (room s1 < 8 * (Z.of_nat fuel - 2) \/ drained s1 /\ 1 <= Z.of_nat fuel) as Hf1.
    { destruct Hf as [Hf|[Hd _]]; [|done]. destruct Hp as [Hp|Hp]; [left; lia|right]. split; [done|].
      pose proof (room_bound s Hs). lia. }
    destruct (Z.ltb_spec (Z.of_nat (length str)) (maxLen - 1)); apply IH; try done.
    rewrite length_app. cbn. lia.
Qed.

Lemma ReadString_safe maxLen bLine fuel : 1 <= maxLen -> (length l + 12 <= fuel)%nat ->
  safe_op (ReadString m fuel maxLen bLine) anything.
Proof.
  intros Hmax Hf s Hs. unfold ReadString, assert_.
  destruct (Z.eqb_spec maxLen 0); [lia|]. cbn [negb].
  destruct (string_loop_safe maxLen bLine fuel s [] false Hs) as ([str small] & s' & E & Hl & Hs').
  { left. pose proof (room_bound s Hs). unfold len in *. lia. }
  { cbn. lia. }
  st_run. rewrite E. cbn [fst] in Hl.
  destruct (Z.ltb_spec (Z.of_nat (length str)) maxLen); [|lia].
  do 2 eexists. split; [reflexivity|]. done.
Qed.

(** ** Floating point numbers *)

Lemma tbl_land_31 n : exists b, GetBitForBitnum n = Ok b.
Proof.
  unfold GetBitForBitnum, tbl. change 31 with (Z.ones 5). rewrite Z.land_ones by lia.
  pose proof (Z.mod_pos_bound n (2 ^ 5) ltac:(lia)).
  destruct (lookup_lt_is_Some_2 bitsForBitnum (Z.to_nat (n mod 2 ^ 5))) as [b Eb]; [cbn; lia|].
  exists b. rewrite Eb. by destruct (Z.leb_spec 0 (n mod 2 ^ 5)); [|lia].
Qed.

Lemma one_bit_safe : safe_op (ReadOneBit m) anything.
Proof. by apply (bit_safe m base l). Qed.

Lemma field_safe n : 0 <= n <= 32 -> safe_op (ReadUBitLong m n) anything.
Proof. intros Hn. eapply safe_weaken; [|by apply ubit_safe]. done. Qed.

Lemma safe_seq {A C} (op : ST CBitRead A) (k : A -> ST CBitRead C) :
  safe_op op anything -> (forall a, safe_op (k a) anything) -> safe_op (op ≫= k) anything.
Proof. intros H1 H2. eapply safe_bind; [exact H1|]. intros a _. apply H2. Qed.

Lemma safe_if {A} (b : bool) (op op' : ST CBitRead A) :
  safe_op op anything -> safe_op op' anything -> safe_op (if b then op else op') anything.
Proof. by destruct b. Qed.

(** One read after the other, whatever the tests between them. *)
Ltac reads := repeat first
  [ apply safe_ret; exact I | apply one_bit_safe | assumption
  | apply safe_if | apply field_safe; first [lia | repeat case_match; vm_compute; split; discriminate]
  | apply safe_seq; [|intros ?] ].

Lemma ReadBitAngle_safe n : 0 <= n <= 32 -> safe_op (ReadBitAngle m n) anything.
Proof.
  intros Hn. unfold ReadBitAngle.
  destruct (tbl_land_31 n) as [b Eb]. intros s Hs. rewrite (st_lift_ok _ _ _ _ Eb).
  revert s Hs. change (safe_op (i ← ReadUBitLong m n;
    mret (f32_mul (f32_of_Z (s32 i)) (f32_div (f32_of_Z 360) (f32_of_Z b)))) anything). reads.
Qed.

Lemma ReadBitCoord_safe : safe_op (ReadBitCoord m) anything.
Proof. unfold ReadBitCoord. reads. Qed.

Lemma ReadBitCoordMP_safe coordType : safe_op (ReadBitCoordMP m coordType) anything.
Proof. unfold ReadBitCoordMP, read_mp_integer. cbv zeta. reads. Qed.

Lemma ReadBitCellCoord_safe n coordType : 0 <= n <= 32 -> safe_op (ReadBitCellCoord m n coordType) anything.
Proof. intros Hn. unfold ReadBitCellCoord. cbv zeta. reads. Qed.

Lemma ReadBitVec3Coord_safe : safe_op (ReadBitVec3Coord m) anything.
Proof. pose proof ReadBitCoord_safe. unfold ReadBitVec3Coord. reads. Qed.

Lemma ReadBitNormal_safe : safe_op (ReadBitNormal m) anything.
Proof. unfold ReadBitNormal. reads. Qed.

Lemma ReadBitVec3Normal_safe : safe_op (ReadBitVec3Normal m) anything.
Proof. pose proof ReadBitNormal_safe. unfold ReadBitVec3Normal. reads. Qed.

(** ** Any sequence *)

Lemma call_safe rounds c : (length l + 12 <= rounds)%nat -> call_ok c -> safe_op (run_call m rounds c) anything.
Proof.
  intros Hr Hc. pose proof one_bit_safe. pose proof ReadBitCoord_safe. pose proof ReadBitVec3Coord_safe.
  pose proof ReadBitNormal_safe. pose proof ReadBitVec3Normal_safe. pose proof (sbit_safe m base l Hbuf).
  assert (safe_op (ReadVarInt32 m) anything) by (eapply safe_weaken; [|by apply varint32_safe]; done).
  assert (safe_op (ReadVarInt64 m) anything) by (eapply safe_weaken; [|by apply varint64_safe]; done).
  destruct c; cbn [run_call call_ok] in *; (apply safe_seq; [|intros _; by apply safe_ret]).
  all: try by reads.
  - by apply (sbit_safe m base l).
  - by apply ReadBits_safe.
  - unfold ReadBytes. apply safe_seq; [|intros out s Hs; by eexists _, s].
    apply ReadBits_safe. rewrite Z.shiftl_mul_pow2, s32_small by lia. lia.
  - by apply ReadString_safe.
  - by apply ReadBitAngle_safe.
  - eapply safe_weaken; [|by apply Seek_safe]. done.
  - by apply SeekRelative_safe.
Qed.

Lemma calls_safe rounds cs : (length l + 12 <= rounds)%nat -> Forall call_ok cs ->
  safe_op (run_calls m rounds cs) anything.
Proof.
  intros Hr. induction 1 as [|c cs Hc _ IH]; [by apply safe_ret|].
  apply safe_seq; [by apply call_safe|]. by intros [].
Qed.
End Calls.
