(* ===== verification/ReaderProps.v ===== *)
(** The properties of the bit reader and of the zig-zag transform. *)

From S2P Require Import Prelude CMem BitRead Float32 BitStream BitOps BitCopy.

(** * A buffer for the witnesses *)

(** Ten bytes at address 4096: the reader starts with a partial word. *)
Definition ten : list Z := [0x7B; 0xC8; 0x01; 0xE5; 0x8E; 0x26; 0x41; 0x42; 0x00; 0x80].
Definition ten_mem : mem := block 4096 ten.
Definition raw_object : CBitRead := mkBitRead 1 2 3 4 5 true 6 7.

Lemma ten_ok : buffer_ok ten_mem 4096 ten.
Proof.
  split; try (cbn; lia).
  - apply holds_blit.
  - repeat constructor; unfold is_byte; lia.
Qed.

Lemma ten_reader : exists s, CBitRead_new ten_mem raw_object 4096 10 (-1) = Ok s /\
  Rep 4096 ten (At 0) s.
Proof. apply (StartReading_ok ten_mem 4096 ten ten_ok). reflexivity. Qed.

Lemma ten_stream l1 l2 l3 p : l1 ++ l2 ++ l3 = ten -> p = 8 * Z.of_nat (length l1) ->
  stream_bytes (le_join ten) p l2.
Proof.
  intros E ->. rewrite <- E. apply stream_bytes_app. rewrite E. exact (bo_bytes _ _ _ ten_ok).
Qed.

(** A cursor anywhere in the buffer. *)
Lemma ten_at p : 0 <= p <= 80 -> exists s, Rep 4096 ten (At p) s.
Proof.
  intros Hp. destruct ten_reader as (s & _ & Hr).
  destruct (Seek_sim ten_mem 4096 ten ten_ok p 0 s Hr) as (s' & _ & Hr').
  exists s'. assert (in_range ten p = true) as E.
  { unfold in_range. rewrite andb_true_iff, !Z.leb_le. cbn. lia. }
  by rewrite E in Hr'.
Qed.

Section Reader.
Context (m : mem) (base : Z) (l : list Z) (Hbuf : buffer_ok m base l).

Let len : Z := Z.of_nat (length l).
Let B : Z := le_join l.

(** C33: refinement.  In every state of the object that stands for a bit
    cursor, [ReadUBitLong] returns the next [n] bits of the buffer's
    little-endian value and advances the cursor; where fewer are left, it
    returns zero, raises the overflow flag and stays past the end.  The cached
    word, the merge of two words and the partial word at the head of a buffer
    whose size is no multiple of four are invisible. *)
Theorem ReadUBitLong_refines n c s : 0 <= n <= 32 -> Rep base l c s ->
  exists s', ReadUBitLong m n s = Ok (fst (abs_read B (8 * len) n c), s') /\
    Rep base l (snd (abs_read B (8 * len) n c)) s' /\
    IsOverflowed s' = bool_decide (snd (abs_read B (8 * len) n c) = Over).
Proof.
  intros Hn Hr. destruct (ReadUBitLong_sim m base l Hbuf n Hn c s Hr) as (s' & E & Hr').
  exists s'. split; [done|]. split; [done|]. unfold IsOverflowed.
  destruct Hr' as [_ Hc]. fold B len in Hc. destruct (snd (abs_read B (8 * len) n c)) as [p|].
  - destruct Hc as [-> _]. by rewrite bool_decide_eq_false_2.
  - destruct Hc as [-> _]. by rewrite bool_decide_eq_true_2.
Qed.

(** C34: safety.  A reader made over a buffer of at least four bytes survives
    every sequence of the reads and seeks listed in [reader_call], at the end and past it, after
    overflows and after seeks to anywhere: integers of every width up to 32 bits, the variable
    width integers, bytes, blocks, strings, angles, coordinates, normals, floats.  There is no read
    outside the buffer, no table index out of range, no shift by a count that
    is not below the width, no failing assertion, and every loop ends.  Two reads are not in the
    list, because they do fail: [ReadBit], which loads behind the buffer
    ([ReadBit_reads_past_end]), and [ReadUBitVar], which asserts that what it reads is encoded
    with as few bits as possible ([ReadUBitVar_asserts]). *)
Theorem reader_never_faults raw rounds cs : base mod 4 = 0 -> (length l + 12 <= rounds)%nat -> Forall call_ok cs ->
  exists s s', CBitRead_new m raw base len (-1) = Ok s /\ run_calls m rounds cs s = Ok (tt, s').
Proof.
  intros Hal Hr Hcs. destruct (StartReading_ok m base l Hbuf raw Hal) as (s & E & Hrep).
  destruct (calls_safe m base l Hbuf rounds cs Hr Hcs s) as ([] & s' & E' & _); [by eapply Rep_Safe|].
  by exists s, s'.
Qed.

(** Positioning.  [Seek] to a bit of the buffer, its end included, puts
    the cursor there and [Tell] reads it back; elsewhere it returns false and
    leaves the reader overflowed at the end. *)
Theorem Seek_Tell n p s : Rep base l (At p) s ->
  exists s', Seek m n s = Ok ((0 <=? n) && (n <=? 8 * len), s') /\
    Tell s' = (if (0 <=? n) && (n <=? 8 * len) then n else 8 * len) /\
    IsOverflowed s' = negb ((0 <=? n) && (n <=? 8 * len)) /\
    Rep base l (if (0 <=? n) && (n <=? 8 * len) then At n else Over) s'.
Proof.
  intros Hr. destruct (Seek_sim m base l Hbuf n p s Hr) as (s' & E & Hr').
  unfold in_range in *. fold len in E, Hr'. exists s'. split; [done|].
  unfold Tell. rewrite (GetNumBitsRead_sim m base l Hbuf _ s' Hr'). fold len.
  unfold IsOverflowed. destruct (_ && _); (split; [done|]); (split; [|done]);
    by destruct Hr' as [_ [? _]].
Qed.

(** [op] reads back [v] from its encoding, at any bit position, and stops right
    behind it. *)
Definition reads_back (enc : list Z) (op : ST CBitRead Z) (v : Z) : Prop :=
  forall p s, stream_bytes B p enc -> p + 8 * Z.of_nat (length enc) <= 8 * len ->
  Rep base l (At p) s ->
  exists s', op s = Ok (v, s') /\ Rep base l (At (p + 8 * Z.of_nat (length enc))) s'.

Lemma ReadVarInt32_roundtrip v : 0 <= v < 2 ^ 32 -> reads_back (varint32_enc v) (ReadVarInt32 m) v.
Proof.
  intros Hv p s Hb Hfit Hr. pose proof (Rep_pos base l p s Hr).
  by apply (varint32_read m base l Hbuf).
Qed.

Lemma ReadVarInt64_roundtrip v : 0 <= v < 2 ^ 64 -> reads_back (varint64_enc v) (ReadVarInt64 m) v.
Proof.
  intros Hv p s Hb Hfit Hr. pose proof (Rep_pos base l p s Hr).
  by apply (varint64_read m base l Hbuf).
Qed.

(** What is read back is read back through a decoder. *)
Lemma reads_back_map enc op v (f : Z -> Z) : reads_back enc op v ->
  reads_back enc (x ← op; mret (f x)) (f v).
Proof.
  intros H p s Hb Hfit Hr. destruct (H p s Hb Hfit Hr) as (s' & E & Hr').
  exists s'. split; [|done]. by rewrite (st_bind_ok _ _ _ _ _ E).
Qed.

(** C35: round trip.  A value in base 128 at any bit position, of 32 or 64 bits,
    unsigned or signed in zig-zag form, is read back by the reader for its type, which
    stops right behind it. *)
Theorem ReadVarInt_roundtrip v32 v64 n32 n64 : 0 <= v32 < 2 ^ 32 -> 0 <= v64 < 2 ^ 64 ->
  signed_range 32 n32 -> signed_range 64 n64 ->
  reads_back (varint32_enc v32) (ReadVarInt32 m) v32 /\
  reads_back (varint64_enc v64) (ReadVarInt64 m) v64 /\
  reads_back (varint32_enc (ZigZagEncode32 n32)) (ReadSignedVarInt32 m) n32 /\
  reads_back (varint64_enc (ZigZagEncode64 n64)) (ReadSignedVarInt64 m) n64.
Proof.
  intros H32 H64 Hn32 Hn64. split; [by apply ReadVarInt32_roundtrip|].
  split; [by apply ReadVarInt64_roundtrip|]. split.
  - rewrite <- (decode_encode32 n32) at 2 by done. apply reads_back_map, ReadVarInt32_roundtrip.
    rewrite encode32 by done. by apply (zigzag_range 32).
  - rewrite <- (decode_encode64 n64) at 2 by done. apply reads_back_map, ReadVarInt64_roundtrip.
    rewrite encode64 by done. by apply (zigzag_range 64).
Qed.

(** [ReadSBitLong] is the two's complement reading of the field, for every
    width from 1 to 32. *)
Theorem ReadSBitLong_sign n p s : 1 <= n <= 32 -> p + n <= 8 * len ->
  Rep base l (At p) s ->
  exists s', ReadSBitLong m n s = Ok (swrap n (bits B p n), s') /\
    Rep base l (At (p + n)) s'.
Proof.
  intros Hn Hp Hr. destruct (sbit_sim m base l Hbuf n Hn _ _ Hr) as (s' & E & Hr').
  cbn [abs_read] in *. fold len B in E, Hr'.
  destruct (Z.leb_spec (p + n) (8 * len)); [|lia]. by exists s'.
Qed.

(** [ReadBits] stores the next [nBits] bits byte by byte, with the odd
    bits in the last byte, whatever the alignment of the destination and of
    the cursor: the split into a byte, a dword, a byte and a bit phase does not
    show in the result. *)
Theorem ReadBits_copy nBits pOut p s : 0 <= nBits -> p + nBits <= 8 * len ->
  Rep base l (At p) s ->
  exists s', ReadBits m pOut nBits s = Ok (copied B p nBits, s') /\
    Rep base l (At (p + nBits)) s'.
Proof. intros Hn Hp Hr. by apply (ReadBits_copies m base l Hbuf). Qed.

(** [ReadString] on a terminated string returns its first [maxLen - 1]
    characters and says whether that was all of it; the cursor ends behind the
    terminator in both cases. *)
Theorem ReadString_copy maxLen bLine cs t fuel p s : 1 <= maxLen ->
  Forall (fun c => ends_string bLine (s8 c) = false) cs ->
  ends_string bLine (s8 t) = true -> (length cs < fuel)%nat ->
  stream_bytes B p (cs ++ [t]) -> p + 8 * Z.of_nat (length cs + 1) <= 8 * len ->
  Rep base l (At p) s ->
  exists s', ReadString m fuel maxLen bLine s =
    Ok ((take (Z.to_nat (maxLen - 1)) (s8 <$> cs),
         Z.of_nat (length cs) <=? maxLen - 1), s') /\
    Rep base l (At (p + 8 * Z.of_nat (length cs + 1))) s'.
Proof. apply (ReadString_reads m base l Hbuf). Qed.

(** Termination.  On any stream, terminated or not, [ReadString] returns
    within two more rounds than the buffer has bytes, and never stores more
    than [maxLen - 1] characters. *)
Theorem ReadString_terminates maxLen bLine fuel c s : 1 <= maxLen ->
  (length l + 2 <= fuel)%nat -> Rep base l c s ->
  exists r s', ReadString m fuel maxLen bLine s = Ok (r, s') /\
    Z.of_nat (length (fst r)) < maxLen.
Proof. apply (ReadString_total m base l Hbuf). Qed.

(** A code bug.  [ReadOneBit] and [ReadBit] are two copies of one
    function, but the second falls through its end-of-buffer branches: on the
    last bit of a buffer [ReadOneBit] succeeds, and [ReadBit] loads a dword
    four bytes behind the end. *)
Theorem ReadBit_reads_past_end s : Rep base l (At (8 * len - 1)) s ->
  m (base + len + 4) = None ->
  (exists s', ReadOneBit m s = Ok (bits B (8 * len - 1) 1, s') /\ IsOverflowed s' = false) /\
  ReadBit m s = Fault (OutOfBounds (base + len + 4)).
Proof.
  intros Hr Hnone. split.
  - destruct (ReadOneBit_sim m base l Hbuf _ s Hr) as (s' & E & Hr').
    cbn [abs_read] in *. fold len B in E, Hr'.
    destruct (Z.leb_spec (8 * len - 1 + 1) (8 * len)); [|lia].
    exists s'. split; [done|]. by destruct Hr' as [_ [? _]].
  - destruct Hr as [(Hd & He & Hbi & Hby) [_ [(o & Hp & Ho & _ & Ha & Hb & _ & _)|(Hc & _)]]];
      [|unfold len in Hc; lia].
    fold len in He, Ho, Hbi, Hby. assert (o = len) as -> by lia.
    assert (m_nBitsAvail s = 1) as Ha1 by lia.
    unfold ReadBit. st_run. rewrite Ha1. change (s32 (1 - 1)) with 0.
    cbn [Z.eqb Pos.eqb]. br_simpl.
    rewrite He, Hp, Z.eqb_refl. br_simpl.
    rewrite Hp, He. destruct (Z.ltb_spec (base + len) (base + len + 4)); [|lia]. br_simpl.
    unfold load32, load8. by rewrite Hnone.
Qed.
End Reader.

Lemma ZigZag32_bijective n u : signed_range 32 n -> 0 <= u < 2 ^ 32 ->
  ZigZagDecode32 (ZigZagEncode32 n) = n /\ 0 <= ZigZagEncode32 n < 2 ^ 32 /\
  ZigZagEncode32 (ZigZagDecode32 u) = u /\ signed_range 32 (ZigZagDecode32 u).
Proof.
  intros Hn Hu. destruct (decode32 u Hu) as [Hr E].
  rewrite decode_encode32, (encode32 n), (encode32 (ZigZagDecode32 u)) by done.
  split; [done|]. split; [by apply (zigzag_range 32)|]. by split.
Qed.

Lemma ZigZag64_bijective n u : signed_range 64 n -> 0 <= u < 2 ^ 64 ->
  ZigZagDecode64 (ZigZagEncode64 n) = n /\ 0 <= ZigZagEncode64 n < 2 ^ 64 /\
  ZigZagEncode64 (ZigZagDecode64 u) = u /\ signed_range 64 (ZigZagDecode64 u).
Proof.
  intros Hn Hu. destruct (decode64 u Hu) as [Hr E].
  rewrite decode_encode64, (encode64 n), (encode64 (ZigZagDecode64 u)) by done.
  split; [done|]. split; [by apply (zigzag_range 64)|]. by split.
Qed.

(** Round trip.  The zig-zag transforms of 32 and 64 bits are bijections between
    the signed and the unsigned integers of their width. *)
Theorem ZigZag_bijective n u n' u' : signed_range 32 n -> 0 <= u < 2 ^ 32 ->
  signed_range 64 n' -> 0 <= u' < 2 ^ 64 ->
  (ZigZagDecode32 (ZigZagEncode32 n) = n /\ 0 <= ZigZagEncode32 n < 2 ^ 32 /\
   ZigZagEncode32 (ZigZagDecode32 u) = u /\ signed_range 32 (ZigZagDecode32 u)) /\
  (ZigZagDecode64 (ZigZagEncode64 n') = n' /\ 0 <= ZigZagEncode64 n' < 2 ^ 64 /\
   ZigZagEncode64 (ZigZagDecode64 u') = u' /\ signed_range 64 (ZigZagDecode64 u')).
Proof. intros. split; [by apply ZigZag32_bijective|by apply ZigZag64_bijective]. Qed.

(** * Witnesses *)

(** Thirty-two bits that straddle two words. *)
Lemma ReadUBitLong_refines_witness : exists s s', Rep 4096 ten (At 5) s /\
  ReadUBitLong ten_mem 32 s = Ok (1999113795, s') /\ IsOverflowed s' = false.
Proof.
  destruct (ten_at 5) as [s Hr]; [lia|].
  destruct (ReadUBitLong_refines ten_mem 4096 ten ten_ok 32 (At 5) s) as (s' & E & _ & Ho);
    [lia|done|].
  exists s, s'. split; [exact Hr|]. split; [exact E|exact Ho].
Defined.

(** Reads across the end, then seeks before the beginning and back. *)
Lemma reader_never_faults_witness : exists s s',
  CBitRead_new ten_mem raw_object 4096 10 (-1) = Ok s /\
  run_calls ten_mem 30 [CVarInt32; CSBitLong 32; CUBitLong 31; CSeek (-5); CVarInt64;
    CSeekRelative 1000; COneBit; CSeek 3; CUBit; CString 4 true; CBits 8193 77; CSeek 9;
    CBitVec3Coord; CBytes 8192 5; CBitFloat; CString 100 false] s = Ok (tt, s').
Proof.
  apply (reader_never_faults ten_mem 4096 ten ten_ok).
  - reflexivity.
  - cbn. lia.
  - repeat constructor; cbn; lia.
Defined.

Lemma Seek_Tell_witness : exists s s' s2, Rep 4096 ten (At 0) s /\
  Seek ten_mem 77 s = Ok (true, s') /\ Tell s' = 77 /\
  Seek ten_mem 81 s = Ok (false, s2) /\ Tell s2 = 80.
Proof.
  destruct (ten_at 0) as [s Hr]; [lia|].
  destruct (Seek_Tell ten_mem 4096 ten ten_ok 77 0 s Hr) as (s' & E & Ht & _).
  destruct (Seek_Tell ten_mem 4096 ten ten_ok 81 0 s Hr) as (s2 & E2 & Ht2 & _).
  exists s, s', s2. split; [exact Hr|]. split; [exact E|]. split; [exact Ht|].
  split; [exact E2|exact Ht2].
Defined.

(** Three bytes from bit 24 on, two from bit 8 on, one at the beginning. *)
Lemma ReadVarInt_roundtrip_witness : exists s s1 t t1 u u1,
  Rep 4096 ten (At 24) s /\ ReadVarInt32 ten_mem s = Ok (624485, s1) /\ Rep 4096 ten (At 48) s1 /\
  Rep 4096 ten (At 8) t /\ ReadVarInt64 ten_mem t = Ok (200, t1) /\ Rep 4096 ten (At 24) t1 /\
  Rep 4096 ten (At 0) u /\ ReadSignedVarInt32 ten_mem u = Ok (-62, u1) /\ Rep 4096 ten (At 8) u1.
Proof.
  destruct (ten_at 24) as [s Hs]; [lia|]. destruct (ten_at 8) as [t Ht]; [lia|].
  destruct (ten_at 0) as [u Hu]; [lia|].
  destruct (ReadVarInt_roundtrip ten_mem 4096 ten ten_ok 624485 200 (-62) (-62))
    as (H1 & H2 & H3 & _); [lia|lia|split; cbn; lia|split; cbn; lia|].
  destruct (H1 24 s) as (s1 & E1 & R1); [|apply Z.leb_le; reflexivity|exact Hs|].
  { apply (ten_stream [0x7B; 0xC8; 0x01] (varint32_enc 624485) [0x41; 0x42; 0x00; 0x80]); reflexivity. }
  destruct (H2 8 t) as (t1 & E2 & R2); [|apply Z.leb_le; reflexivity|exact Ht|].
  { apply (ten_stream [0x7B] (varint64_enc 200) [0xE5; 0x8E; 0x26; 0x41; 0x42; 0x00; 0x80]); reflexivity. }
  destruct (H3 0 u) as (u1 & E3 & R3); [|apply Z.leb_le; reflexivity|exact Hu|].
  { apply (ten_stream [] (varint32_enc (ZigZagEncode32 (-62)))
      [0xC8; 0x01; 0xE5; 0x8E; 0x26; 0x41; 0x42; 0x00; 0x80]); reflexivity. }
  exists s, s1, t, t1, u, u1. split; [exact Hs|]. split; [exact E1|]. split; [exact R1|].
  split; [exact Ht|]. split; [exact E2|]. split; [exact R2|].
  split; [exact Hu|]. split; [exact E3|exact R3].
Defined.

Lemma ReadSBitLong_sign_witness : exists s s', Rep 4096 ten (At 3) s /\
  ReadSBitLong ten_mem 4 s = Ok (-1, s') /\ Rep 4096 ten (At 7) s'.
Proof.
  destruct (ten_at 3) as [s Hr]; [lia|].
  destruct (ReadSBitLong_sign ten_mem 4096 ten ten_ok 4 3 s) as (s' & E & Hr');
    [lia|cbn; lia|done|].
  by exists s, s'.
Defined.

Lemma ReadBits_copy_witness : exists s s', Rep 4096 ten (At 3) s /\
  ReadBits ten_mem 4099 13 s = Ok ([15; 25], s') /\ Rep 4096 ten (At 16) s'.
Proof.
  destruct (ten_at 3) as [s Hr]; [lia|].
  destruct (ReadBits_copy ten_mem 4096 ten ten_ok 13 4099 3 s) as (s' & E & Hr');
    [lia|cbn; lia|done|].
  by exists s, s'.
Defined.

(** The two characters at byte 6, into an array of two and of three. *)
Lemma ReadString_copy_witness : exists s s', Rep 4096 ten (At 48) s /\
  ReadString ten_mem 3 2 false s = Ok (([0x41], false), s') /\ Rep 4096 ten (At 72) s'.
Proof.
  destruct (ten_at 48) as [s Hr]; [lia|].
  destruct (ReadString_copy ten_mem 4096 ten ten_ok 2 false [0x41; 0x42] 0 3 48 s)
    as (s' & E & Hr').
  - lia.
  - repeat constructor.
  - reflexivity.
  - cbn. lia.
  - apply (ten_stream [0x7B; 0xC8; 0x01; 0xE5; 0x8E; 0x26] [0x41; 0x42; 0x00] [0x80]); reflexivity.
  - apply Z.leb_le. reflexivity.
  - exact Hr.
  - by exists s, s'.
Defined.

(** From the last byte on there is no terminator. *)
Lemma ReadString_terminates_witness : exists s r s', Rep 4096 ten (At 72) s /\
  ReadString ten_mem 12 5 false s = Ok (r, s') /\ Z.of_nat (length (fst r)) < 5.
Proof.
  destruct (ten_at 72) as [s Hr]; [lia|].
  destruct (ReadString_terminates ten_mem 4096 ten ten_ok 5 false 12 (At 72) s)
    as (r & s' & E & Hl); [lia|cbn; lia|done|].
  by exists s, r, s'.
Defined.

Lemma ReadBit_reads_past_end_witness : exists s, Rep 4096 ten (At 79) s /\
  ReadBit ten_mem s = Fault (OutOfBounds 4110).
Proof.
  destruct (ten_at 79) as [s Hr]; [lia|].
  destruct (ReadBit_reads_past_end ten_mem 4096 ten ten_ok s) as [_ E]; [done|reflexivity|].
  by exists s.
Defined.

(** The prefix of ten bits, and four bits that six would have held. *)
Lemma ReadUBitVar_asserts : exists s,
  CBitRead_new (block 4096 [16; 0; 0; 0]) raw_object 4096 4 (-1) = Ok s /\
  ReadUBitVar (block 4096 [16; 0; 0; 0]) s = Fault AssertFailed.
Proof. eexists. split; [vm_compute; reflexivity|vm_compute; reflexivity]. Qed.

Lemma ZigZag_bijective_witness :
  (ZigZagDecode32 (ZigZagEncode32 (-2147483648)) = -2147483648 /\
   0 <= ZigZagEncode32 (-2147483648) < 2 ^ 32 /\
   ZigZagEncode32 (ZigZagDecode32 4294967295) = 4294967295 /\
   signed_range 32 (ZigZagDecode32 4294967295)) /\
  (ZigZagDecode64 (ZigZagEncode64 (-200)) = -200 /\ 0 <= ZigZagEncode64 (-200) < 2 ^ 64 /\
   ZigZagEncode64 (ZigZagDecode64 399) = 399 /\ signed_range 64 (ZigZagDecode64 399)).
Proof. apply ZigZag_bijective; [split; cbn; lia|lia|split; cbn; lia|lia]. Defined.
