(* ===== verification/Ice.v ===== *)
(** The ICE block cipher: src/Sniffles/ice.cpp and ice.h. [unsigned long] is 32
    bits wide on the target; table and key-schedule accesses are checked, so that
    the absence of a fault is the absence of an access outside a table. *)

From S2P Require Import Prelude.

(** * Tables *)

(** Modulo values for the S-boxes. *)
Definition ice_smod : list (list Z) :=
  [[333; 313; 505; 369];
   [379; 375; 319; 391];
   [361; 445; 451; 397];
   [397; 425; 395; 505]].

(** XOR values for the S-boxes. *)
Definition ice_sxor : list (list Z) :=
  [[0x83; 0x85; 0x9b; 0xcd];
   [0xcc; 0xa7; 0xad; 0x41];
   [0x4b; 0x2e; 0xd4; 0x33];
   [0xea; 0xcb; 0x2e; 0x04]].

(** Permutation values for the P-box. *)
Definition ice_pbox : list Z :=
  [0x00000001; 0x00000080; 0x00000400; 0x00002000;
   0x00080000; 0x00200000; 0x01000000; 0x40000000;
   0x00000008; 0x00000020; 0x00000100; 0x00004000;
   0x00010000; 0x00800000; 0x04000000; 0x20000000;
   0x00000004; 0x00000010; 0x00000200; 0x00008000;
   0x00020000; 0x00400000; 0x08000000; 0x10000000;
   0x00000002; 0x00000040; 0x00000800; 0x00001000;
   0x00040000; 0x00100000; 0x02000000; 0x80000000].

(** The key rotation schedule. *)
Definition ice_keyrot : list Z :=
  [0; 1; 2; 3; 2; 1; 3; 0; 1; 3; 2; 0; 3; 1; 0; 2].

(** * S-box construction *)

(** The locals are [a], [b] and [res]. *)
Definition gf_mult_body (m : Z) (s : Z * Z * Z) : result (Z * Z * Z + Z) :=
  let '(a, b, res) := s in
  if b =? 0 then Ok (inr res)
  else
    let res := if negb (Z.land b 1 =? 0) then Z.lxor res a else res in
    let a := u32 (Z.shiftl a 1) in
    let b := Z.shiftr b 1 in
    let a := if 256 <=? a then Z.lxor a m else a in
    Ok (inl (a, b, res)).

(** [b] is a 32-bit number: 32 shifts make it zero. *)
Definition gf_mult (a b m : Z) : result Z := res_loop 33 (gf_mult_body m) (a, b, 0).

Definition gf_exp7 (b m : Z) : result Z :=
  if b =? 0 then Ok 0
  else
    x ← gf_mult b b m;
    x ← gf_mult b x m;
    x ← gf_mult x x m;
    gf_mult b x m.

(** The locals are [x], [res] and the index of [pbox]. *)
Definition ice_perm32_body (s : Z * Z * Z) : result (Z * Z * Z + Z) :=
  let '(x, res, pbox) := s in
  if x =? 0 then Ok (inr res)
  else
    res ← (if negb (Z.land x 1 =? 0) then p ← tbl ice_pbox pbox; Ok (Z.lor res p)
           else Ok res);
    Ok (inl (Z.shiftr x 1, res, pbox + 1)).

Definition ice_perm32 (x : Z) : result Z := res_loop 33 ice_perm32_body (x, 0, 0).

(** [t[i][j]] *)
Definition tbl2 (t : list (list Z)) (i j : Z) : result Z := r ← tbl t i; tbl r j.

(** Entry [i] of S-box [k]. *)
Definition ice_sbox_entry (k : nat) (i : Z) : result Z :=
  let col := Z.land (Z.shiftr i 1) 0xff in
  let row := Z.lor (Z.land i 1) (Z.shiftr (Z.land i 0x200) 8) in
  sx ← tbl2 ice_sxor (Z.of_nat k) row;
  sm ← tbl2 ice_smod (Z.of_nat k) row;
  g ← gf_exp7 (Z.lxor col sx) sm;
  ice_perm32 (u32 (Z.shiftl g (24 - 8 * Z.of_nat k))).

(** One row of the table: entries [i], [i+1], ... of S-box [k]. *)
Fixpoint ice_sbox_row (k : nat) (i : nat) (n : nat) : result (list Z) :=
  match n with
  | O => Ok []
  | Datatypes.S n' =>
      e ← ice_sbox_entry k (Z.of_nat i);
      es ← ice_sbox_row k (Datatypes.S i) n';
      Ok (e :: es)
  end.

(** The static data of the file: the S-boxes and whether they are set up. *)
Record IceStatics := mkIceStatics {
  ice_sbox : list (list Z);
  ice_sboxes_initialised : bool
}.

(** [ice_sboxes_init]: the four tables are filled entry by entry; they do not
    depend on one another. *)
Definition ice_sboxes_init (g : IceStatics) : result IceStatics :=
  s0 ← ice_sbox_row 0 0 1024;
  s1 ← ice_sbox_row 1 0 1024;
  s2 ← ice_sbox_row 2 0 1024;
  s3 ← ice_sbox_row 3 0 1024;
  Ok (mkIceStatics [s0; s1; s2; s3] (ice_sboxes_initialised g)).

(** Before the first key is made: zeroed static storage. *)
Definition ice_statics0 : IceStatics :=
  mkIceStatics (replicate 4 (replicate 1024 0)) false.

(** * Keys *)

(** Structure of a single round subkey: [val[3]]. *)
Record IceSubkey := mkIceSubkey { val : list Z }.

Record IceKey := mkIceKey {
  _size : Z;
  _rounds : Z;
  _keysched : list IceSubkey
}.

(** The constructor; [new IceSubkey[_rounds]] leaves the subkeys uninitialised,
    [raw] is what the allocation holds. *)
Definition IceKey_new (g : IceStatics) (raw : list IceSubkey) (n : Z)
    : result (IceStatics * IceKey) :=
  g ← (if negb (ice_sboxes_initialised g) then
         g' ← ice_sboxes_init g; Ok (mkIceStatics (ice_sbox g') true)
       else Ok g);
  let '(size, rounds) := if n <? 1 then (1, 8) else (n, s32 (n * 16)) in
  Ok (g, mkIceKey size rounds (take (Z.to_nat rounds) raw)).

(** The destructor zeroes the subkeys before it frees them. *)
Definition IceKey_destroy (k : IceKey) : IceKey :=
  mkIceKey 0 0 ((fun _ => mkIceSubkey [0; 0; 0]) <$> _keysched k).

(** The single round ICE f function. *)
Definition ice_f (sbox : list (list Z)) (p : Z) (sk : IceSubkey) : result Z :=
  (* Left half expansion *)
  let tl := Z.lor (Z.land (Z.shiftr p 16) 0x3ff)
    (Z.land (Z.lor (Z.shiftr p 14) (u32 (Z.shiftl p 18))) 0xffc00) in
  (* Right half expansion *)
  let tr := Z.lor (Z.land p 0x3ff) (Z.land (u32 (Z.shiftl p 2)) 0xffc00) in
  (* The salt permutation *)
  v2 ← tbl (val sk) 2;
  let al := Z.land v2 (Z.lxor tl tr) in
  let ar := Z.lxor al tr in
  let al := Z.lxor al tl in
  (* XOR with the subkey *)
  v0 ← tbl (val sk) 0;
  let al := Z.lxor al v0 in
  v1 ← tbl (val sk) 1;
  let ar := Z.lxor ar v1 in
  (* S-box lookup and permutation *)
  x0 ← tbl2 sbox 0 (Z.shiftr al 10);
  x1 ← tbl2 sbox 1 (Z.land al 0x3ff);
  x2 ← tbl2 sbox 2 (Z.shiftr ar 10);
  x3 ← tbl2 sbox 3 (Z.land ar 0x3ff);
  Ok (Z.lor (Z.lor (Z.lor x0 x1) x2) x3).

(** Big-endian load of four bytes. *)
Definition load_be (p : list Z) (i : Z) : result Z :=
  b0 ← tbl p i;
  b1 ← tbl p (i + 1);
  b2 ← tbl p (i + 2);
  b3 ← tbl p (i + 3);
  Ok (Z.lor (Z.lor (Z.lor (u32 (Z.shiftl b0 24)) (u32 (Z.shiftl b1 16)))
       (u32 (Z.shiftl b2 8))) b3).

(** The store loop both directions share: four rounds of
    [out[3-i] = r & 0xff; out[7-i] = l & 0xff; r >>= 8; l >>= 8]. *)
Definition store_block (l r : Z) : result (list Z) :=
  s ← res_for 0 4 (fun i '(out, l, r) =>
        out ← tbl_set out (3 - Z.of_nat i) (Z.land r 0xff);
        out ← tbl_set out (7 - Z.of_nat i) (Z.land l 0xff);
        Ok (out, Z.shiftr l 8, Z.shiftr r 8)) (replicate 8 0, l, r);
  let '(out, _, _) := s : list Z * Z * Z in Ok out.

(** One half round: the first word is combined with f of the second. *)
Definition half_round (sbox : list (list Z)) (k : IceKey) (i : Z) (x y : Z) : result Z :=
  sk ← tbl (_keysched k) i;
  f ← ice_f sbox y sk;
  Ok (Z.lxor x f).

(** Encrypt a block of 8 bytes: rounds [i], [i+1] for [i = 0, 2, ...]. *)
Definition encrypt_body (sbox : list (list Z)) (k : IceKey) (j : nat) (s : Z * Z)
    : result (Z * Z) :=
  let i := 2 * Z.of_nat j in
  let '(l, r) := s in
  l ← half_round sbox k i l r;
  r ← half_round sbox k (i + 1) r l;
  Ok (l, r).

Definition encrypt (sbox : list (list Z)) (k : IceKey) (ptext : list Z) : result (list Z) :=
  l ← load_be ptext 0;
  r ← load_be ptext 4;
  s ← res_for 0 (Z.to_nat ((_rounds k + 1) / 2)) (encrypt_body sbox k) (l, r);
  let '(l, r) := s : Z * Z in
  store_block l r.

(** Decrypt: rounds [i], [i-1] for [i = _rounds - 1, _rounds - 3, ...]. *)
Definition decrypt_body (sbox : list (list Z)) (k : IceKey) (j : nat) (s : Z * Z)
    : result (Z * Z) :=
  let i := _rounds k - 1 - 2 * Z.of_nat j in
  let '(l, r) := s in
  l ← half_round sbox k i l r;
  r ← half_round sbox k (i - 1) r l;
  Ok (l, r).

Definition decrypt (sbox : list (list Z)) (k : IceKey) (ctext : list Z) : result (list Z) :=
  l ← load_be ctext 0;
  r ← load_be ctext 4;
  s ← res_for 0 (Z.to_nat (_rounds k / 2)) (decrypt_body sbox k) (l, r);
  let '(l, r) := s : Z * Z in
  store_block l r.

(** * Key schedule *)

(** The innermost statement block of [scheduleBuild]: one bit from [kb] to the
    subkey word [j % 3]. *)
Definition schedule_bit (kr : Z) (j : nat) (k : nat) (s : list Z * list Z)
    : result (list Z * list Z) :=
  let '(kb, v) := s in
  let ik := Z.land (kr + Z.of_nat k) 3 in
  let iv := Z.of_nat j mod 3 in
  curr_kb ← tbl kb ik;
  curr_sk ← tbl v iv;
  let bit := Z.land curr_kb 1 in
  v ← tbl_set v iv (Z.lor (u32 (Z.shiftl curr_sk 1)) bit);
  kb ← tbl_set kb ik
    (u16 (Z.lor (Z.shiftr curr_kb 1) (Z.shiftl (Z.lxor bit 1) 15)));
  Ok (kb, v).

(** The subkey of round [n + i]. *)
Definition schedule_subkey (keyrot : list Z) (i : nat) (kb : list Z)
    : result (list Z * list Z) :=
  kr ← tbl keyrot (Z.of_nat i);
  res_for 0 15 (fun j => res_for 0 4 (schedule_bit kr j)) (kb, [0; 0; 0]).

(** Set 8 rounds [n, n+7] of the key schedule of an ICE key. *)
Definition scheduleBuild (kb : list Z) (n : Z) (keyrot : list Z) (k : IceKey)
    : result (list Z * IceKey) :=
  res_for 0 8 (fun i '(kb, k) =>
    s ← schedule_subkey keyrot i kb;
    let '(kb, v) := s : list Z * list Z in
    ks ← tbl_set (_keysched k) (n + Z.of_nat i) (mkIceSubkey v);
    Ok (kb, mkIceKey (_size k) (_rounds k) ks)) (kb, k).

(** [kb[3 - j] = (key[base + j*2] << 8) | key[base + j*2 + 1]] for the four [j]. *)
Definition key_block (key : list Z) (base : Z) : result (list Z) :=
  res_for 0 4 (fun j kb =>
    h ← tbl key (base + Z.of_nat j * 2);
    l ← tbl key (base + Z.of_nat j * 2 + 1);
    tbl_set kb (3 - Z.of_nat j) (u16 (Z.lor (Z.shiftl h 8) l))) (replicate 4 0).

(** Set the key schedule of an ICE key. *)
Definition set_key (k : IceKey) (key : list Z) : result IceKey :=
  if _rounds k =? 8 then
    kb ← key_block key 0;
    r ← scheduleBuild kb 0 ice_keyrot k;
    Ok (snd r)
  else
    res_for 0 (Z.to_nat (_size k)) (fun i k =>
      kb ← key_block key (Z.of_nat i * 8);
      r ← scheduleBuild kb (Z.of_nat i * 8) ice_keyrot k;
      let '(kb, k) := r : list Z * IceKey in
      r ← scheduleBuild kb (_rounds k - 8 - Z.of_nat i * 8) (drop 8 ice_keyrot) k;
      Ok (snd r)) k.

(** Return the key size, in bytes. *)
Definition keySize (k : IceKey) : Z := s32 (_size k * 8).

(** Return the block size, in bytes. *)
Definition blockSize (k : IceKey) : Z := 8.
