(* ===== verification/IceProofs.v ===== *)
(** Lemmas on the ICE cipher: the S-box construction is total and in range, the
    key schedule fills every subkey, no round leaves its tables, and the rounds
    of decryption undo those of encryption. *)

From Stdlib Require Import Btauto.
From S2P Require Import Prelude Ice.

(** * Carry-less arithmetic *)

(** Product of polynomials over GF(2), the second one of degree below [n]. *)
Fixpoint clmul (n : nat) (a b : Z) : Z :=
  match n with
  | O => 0
  | Datatypes.S n' =>
      Z.lxor (clmul n' a b)
        (if Z.testbit b (Z.of_nat n') then Z.shiftl a (Z.of_nat n') else 0)
  end.

(** Congruence modulo the polynomial [m]. *)
Definition gf_eq (m x y : Z) : Prop := exists q, Z.lxor x y = clmul 32 m q.

(** Equations between exclusive-ors, bit by bit. *)
Ltac xor_solve :=
  apply Z.bits_inj'; intros ?i _; rewrite ?Z.lxor_spec, ?Z.bits_0; btauto.

Lemma clmul_lxor_l n a a' b :
  clmul n (Z.lxor a a') b = Z.lxor (clmul n a b) (clmul n a' b).
Proof.
  induction n as [|n IH]; cbn [clmul]; [done|]. rewrite IH, Z.shiftl_lxor.
  destruct (Z.testbit b (Z.of_nat n)); xor_solve.
Qed.

Lemma clmul_lxor_r n a b b' :
  clmul n a (Z.lxor b b') = Z.lxor (clmul n a b) (clmul n a b').
Proof.
  induction n as [|n IH]; cbn [clmul]; [done|]. rewrite IH, Z.lxor_spec.
  destruct (Z.testbit b (Z.of_nat n)), (Z.testbit b' (Z.of_nat n)); simpl xorb; cbv iota; xor_solve.
Qed.

(** Multiplication digit by digit from the low end. *)
Lemma clmul_step n a b :
  clmul (Datatypes.S n) a b =
    Z.lxor (if Z.testbit b 0 then a else 0) (clmul n (Z.shiftl a 1) (Z.shiftr b 1)).
Proof.
  induction n as [|n IH].
  - cbn [clmul Z.of_nat]. rewrite Z.shiftl_0_r. by rewrite Z.lxor_0_l, Z.lxor_0_r.
  - rewrite (eq_refl : clmul (Datatypes.S (Datatypes.S n)) a b = Z.lxor (clmul (Datatypes.S n) a b)
      (if Z.testbit b (Z.of_nat (Datatypes.S n)) then Z.shiftl a (Z.of_nat (Datatypes.S n)) else 0)).
    rewrite IH. cbn [clmul]. rewrite Z.shiftr_spec, Z.shiftl_shiftl by lia.
    replace (Z.of_nat n + 1) with (Z.of_nat (Datatypes.S n)) by lia.
    replace (1 + Z.of_nat n) with (Z.of_nat (Datatypes.S n)) by lia.
    by rewrite Z.lxor_assoc.
Qed.

Lemma clmul_top n a b : Z.testbit b (Z.of_nat n) = false ->
  clmul (Datatypes.S n) a b = clmul n a b.
Proof. intros H. cbn [clmul]. by rewrite H, Z.lxor_0_r. Qed.

Lemma gf_eq_refl m x : gf_eq m x x.
Proof. exists 0. rewrite Z.lxor_nilpotent. reflexivity. Qed.

Lemma gf_eq_trans m x y z : gf_eq m x y -> gf_eq m y z -> gf_eq m x z.
Proof.
  intros [q1 H1] [q2 H2]. exists (Z.lxor q1 q2).
  rewrite clmul_lxor_r, <- H1, <- H2. xor_solve.
Qed.

Lemma gf_eq_sym m x y : gf_eq m x y -> gf_eq m y x.
Proof. intros [q H]. exists q. by rewrite Z.lxor_comm. Qed.

#[export] Instance gf_eq_equivalence m : Equivalence (gf_eq m).
Proof.
  split; [exact (gf_eq_refl m)|exact (gf_eq_sym m)|exact (gf_eq_trans m)].
Qed.

(** ** gf_mult *)

Lemma testbit_0_land x : negb (Z.land x 1 =? 0) = Z.testbit x 0.
Proof.
  change 1 with (Z.ones 1). rewrite Z.land_ones, Z.bit0_odd by lia.
  change (2 ^ 1) with 2. rewrite Zmod_odd. by destruct (Z.odd x).
Qed.

(** One reduction: doubling keeps the value below 256 and its class. *)
Lemma gf_double a m : 0 <= a < 256 -> 256 <= m < 512 ->
  let a' := u32 (Z.shiftl a 1) in
  let a'' := if 256 <=? a' then Z.lxor a' m else a' in
  0 <= a'' < 256 /\
  (a'' = Z.shiftl a 1 \/ a'' = Z.lxor (Z.shiftl a 1) m).
Proof.
  intros Ha Hm. cbv zeta. rewrite Z.shiftl_mul_pow2, u32_small by lia.
  destruct (Z.leb_spec 256 (a * 2 ^ 1)) as [H|H]; [|split; [lia|by left]].
  split; [|by right]. change 256 with (2 ^ 8).
  apply bits_bounded; [lia|]. intros i Hi.
  rewrite Z.lxor_spec. destruct (Z.eq_dec i 8) as [->|Hne].
  - assert (forall x, 256 <= x < 512 -> Z.testbit x 8 = true) as H8.
    { intros x Hx. apply Z.testbit_true; [lia|].
      replace (x / 2 ^ 8) with 1; [done|]. apply Z.div_unique with (x - 256); lia. }
    rewrite !H8 by lia. done.
  - rewrite (zb_high _ 9), (zb_high m 9) by lia. done.
Qed.

Lemma gf_mult_loop n m a b res : (n <= 31)%nat ->
  0 <= a < 256 -> 0 <= b < 2 ^ Z.of_nat n -> 0 <= res < 256 -> 256 <= m < 512 ->
  exists r, res_loop (Datatypes.S n) (gf_mult_body m) (a, b, res) = Ok r /\
    0 <= r < 256 /\ gf_eq m r (Z.lxor res (clmul 32 a b)).
Proof.
  intros Hn Ha. revert a b res Ha. induction n as [|n IH]; intros a b res Ha Hb Hr Hm.
  - assert (b = 0) as -> by (simpl in Hb; lia). exists res.
    split; [done|]. split; [done|]. rewrite Z.lxor_comm. exists 0. 
    replace (clmul 32 a 0) with 0 by reflexivity. rewrite Z.lxor_0_l, Z.lxor_nilpotent.
    reflexivity.
  - cbn [res_loop]. destruct (Z.eq_dec b 0) as [->|Hb0].
    { exists res. split; [done|]. split; [done|]. replace (clmul 32 a 0) with 0 by reflexivity.
      rewrite Z.lxor_0_r. reflexivity. }
    set (res' := if Z.testbit b 0 then Z.lxor res a else res).
    set (a' := let a1 := u32 (Z.shiftl a 1) in if 256 <=? a1 then Z.lxor a1 m else a1).
    set (b' := Z.shiftr b 1).
    assert (Eb : gf_mult_body m (a, b, res) = Ok (inl (a', b', res'))).
    { unfold gf_mult_body. destruct (Z.eqb_spec b 0); [lia|]. by rewrite testbit_0_land. }
    pose proof (gf_double a m Ha Hm) as Hd. cbv zeta in Hd. fold a' in Hd.
    destruct Hd as [Ha' Hcase].
    assert (0 <= b' < 2 ^ Z.of_nat n) as Hb'.
    { unfold b'. apply shiftr_lt; [lia|lia|].
      replace (Z.of_nat n + 1) with (Z.of_nat (Datatypes.S n)) by lia. done. }
    assert (0 <= res' < 256) as Hr'.
    { unfold res'. destruct (Z.testbit b 0); [|done].
      change 256 with (2 ^ 8). by apply lxor_range. }
    rewrite (res_bind_ok _ _ _ Eb).
    destruct (IH ltac:(lia) a' b' res' Ha' Hb' Hr' Hm) as (r & E & Hrr & Hq).
    exists r. split; [exact E|]. split; [done|].
    etransitivity; [exact Hq|].
    assert (Htop : clmul 32 a b = Z.lxor (if Z.testbit b 0 then a else 0)
                                    (clmul 32 (Z.shiftl a 1) b')).
    { rewrite (clmul_step 31). fold b'. f_equal. symmetry. apply clmul_top.
      apply (zb_high b' (Z.of_nat n)); [done|lia]. }
    rewrite Htop. unfold res'.
    destruct Hcase as [-> | ->]; [|rewrite clmul_lxor_l].
    + exists 0. replace (clmul 32 m 0) with 0 by reflexivity.
      destruct (Z.testbit b 0); xor_solve.
    + exists b'. destruct (Z.testbit b 0); xor_solve.
Qed.

Lemma gf_mult_ok a b m : 0 <= a < 256 -> 0 <= b < 256 -> 256 <= m < 512 ->
  exists r, gf_mult a b m = Ok r /\ 0 <= r < 256 /\ gf_eq m r (clmul 32 a b).
Proof.
  intros Ha Hb Hm.
  assert (H : exists r, res_loop 32 (gf_mult_body m) (a, b, 0) = Ok r /\
    0 <= r < 256 /\ gf_eq m r (Z.lxor 0 (clmul 32 a b)))
    by (apply (gf_mult_loop 31); simpl; lia).
  destruct H as (r & E & Hr & Hq). exists r. rewrite Z.lxor_0_l in Hq.
  split; [|by split]. unfold gf_mult. by apply (res_loop_more _ 32 33); [lia|].
Qed.

Lemma gf_exp7_ok b m : 0 <= b < 256 -> 256 <= m < 512 ->
  exists r, gf_exp7 b m = Ok r /\ 0 <= r < 256.
Proof.
  intros Hb Hm. unfold gf_exp7. destruct (Z.eqb_spec b 0); [by exists 0|].
  destruct (gf_mult_ok b b m) as (x1 & E1 & H1 & _); [done..|].
  rewrite (res_bind_ok _ _ _ E1).
  destruct (gf_mult_ok b x1 m) as (x2 & E2 & H2 & _); [done..|].
  rewrite (res_bind_ok _ _ _ E2).
  destruct (gf_mult_ok x2 x2 m) as (x3 & E3 & H3 & _); [done..|].
  rewrite (res_bind_ok _ _ _ E3).
  destruct (gf_mult_ok b x3 m) as (x4 & E4 & H4 & _); [done..|]. eauto.
Qed.

(** * The P-box *)

(** Bit [i] of the argument becomes bit [pbox_pos i] of the result. *)
Definition pbox_pos (i : Z) : Z := Z.log2 (default 0 (ice_pbox !! Z.to_nat i)).

Definition word32 (x : Z) : Prop := 0 <= x < 2 ^ 32.

Lemma pbox_table : forallb (fun i => forallb (fun j =>
    match ice_pbox !! i with
    | Some p => Bool.eqb (Z.testbit p (pbox_pos (Z.of_nat j))) (Nat.eqb i j) && (0 <=? p) &&
        (p <? 2 ^ 32)
    | None => false end) (seq 0 32)) (seq 0 32) = true.
Proof. vm_compute. reflexivity. Qed.

Lemma pbox_entry i j : 0 <= i < 32 -> 0 <= j < 32 -> exists p,
  tbl ice_pbox i = Ok p /\ Z.testbit p (pbox_pos j) = (i =? j) /\ word32 p.
Proof.
  intros Hi Hj. pose proof pbox_table as H. rewrite forallb_forall in H.
  specialize (H (Z.to_nat i)). rewrite in_seq in H. specialize (H ltac:(lia)).
  rewrite forallb_forall in H.
  specialize (H (Z.to_nat j)). rewrite in_seq in H. specialize (H ltac:(lia)).
  destruct (ice_pbox !! Z.to_nat i) as [p|] eqn:E; [|done].
  apply andb_prop in H as [[H1 H2]%andb_prop H3]. exists p.
  split; [apply tbl_ok; [lia|done]|].
  apply Bool.eqb_prop in H1. rewrite Z2Nat.id in H1 by lia.
  split; [|unfold word32; lia]. rewrite H1.
  destruct (Nat.eqb_spec (Z.to_nat i) (Z.to_nat j)), (Z.eqb_spec i j); (done || lia).
Qed.

Lemma perm32_loop n x k res : 0 <= x < 2 ^ Z.of_nat n -> k = 32 - Z.of_nat n -> (n <= 32)%nat ->
  word32 res ->
  exists r, res_loop (Datatypes.S n) ice_perm32_body (x, res, k) = Ok r /\ word32 r /\
    forall j, 0 <= j < 32 -> Z.testbit r (pbox_pos j) =
      Z.testbit res (pbox_pos j) || ((k <=? j) && Z.testbit x (j - k)).
Proof.
  revert x k res. induction n as [|n IH]; intros x k res Hx -> Hn Hres.
  - assert (x = 0) as -> by (simpl in Hx; lia). exists res.
    split; [done|]. split; [done|]. intros j Hj.
    by rewrite Z.bits_0, andb_false_r, orb_false_r.
  - cbn [res_loop]. set (k := 32 - Z.of_nat (Datatypes.S n)).
    destruct (Z.eq_dec x 0) as [->|Hx0].
    { exists res. split; [done|]. split; [done|]. intros j Hj.
      by rewrite Z.bits_0, andb_false_r, orb_false_r. }
    destruct (pbox_entry k k) as (p & Ep & _ & Hp); [lia..|].
    set (res' := if Z.testbit x 0 then Z.lor res p else res).
    assert (Eb : ice_perm32_body (x, res, k) = Ok (inl (Z.shiftr x 1, res', k + 1))).
    { unfold ice_perm32_body. destruct (Z.eqb_spec x 0); [lia|].
      rewrite testbit_0_land. unfold res'. destruct (Z.testbit x 0); [|done].
      by rewrite Ep. }
    assert (word32 res') as Hres'.
    { unfold res'. destruct (Z.testbit x 0); [|done]. by apply lor_range. }
    assert (0 <= Z.shiftr x 1 < 2 ^ Z.of_nat n) as Hx'.
    { apply shiftr_lt; [lia|lia|].
      replace (Z.of_nat n + 1) with (Z.of_nat (Datatypes.S n)) by lia. done. }
    rewrite (res_bind_ok _ _ _ Eb).
    destruct (IH _ (k + 1) res' Hx' ltac:(lia) ltac:(lia) Hres') as (r & E & Hr & Hbits).
    exists r. split; [exact E|]. split; [done|]. intros j Hj. rewrite (Hbits j Hj).
    destruct (pbox_entry k j) as (p' & Ep' & Hpj & _); [lia..|].
    rewrite Ep in Ep'. injection Ep' as <-.
    rewrite zb_shiftr. unfold res'.
    destruct (Z.eq_dec j k) as [->|Hjk].
    + rewrite Z.leb_refl, Z.sub_diag.
      destruct (Z.leb_spec (k + 1) k); [lia|]. cbn [andb].
      destruct (Z.testbit x 0); rewrite ?Z.lor_spec, ?Hpj, ?Z.eqb_refl; by rewrite ?orb_false_r.
    + assert (Z.testbit (if Z.testbit x 0 then Z.lor res p else res) (pbox_pos j)
              = Z.testbit res (pbox_pos j)) as ->.
      { destruct (Z.testbit x 0); [|done]. rewrite Z.lor_spec, Hpj.
        destruct (Z.eqb_spec k j); [lia|]. by rewrite orb_false_r. }
      f_equal. destruct (Z.leb_spec (k + 1) j), (Z.leb_spec k j),
        (Z.leb_spec 0 (j - (k + 1))); try lia; cbn [andb]; try done.
      f_equal. lia.
Qed.

Lemma ice_perm32_ok x : word32 x -> exists r, ice_perm32 x = Ok r /\ word32 r /\
  forall j, 0 <= j < 32 -> Z.testbit r (pbox_pos j) = Z.testbit x j.
Proof.
  intros Hx. destruct (perm32_loop 32 x 0 0) as (r & E & Hr & Hb);
    [done|done|lia|unfold word32; lia|].
  exists r. split; [exact E|]. split; [done|]. intros j Hj. rewrite Hb by done.
  rewrite Z.bits_0, Z.sub_0_r. by destruct (Z.leb_spec 0 j); [|lia].
Qed.

(** * S-boxes *)

(** Four boxes of 1024 words. *)
Definition sbox_ok (sbox : list (list Z)) : Prop :=
  length sbox = 4%nat /\
  Forall (fun row => length row = 1024%nat /\ Forall word32 row) sbox.

Lemma smod_sxor_table : forallb (fun k => forallb (fun r =>
    match tbl2 ice_sxor (Z.of_nat k) (Z.of_nat r), tbl2 ice_smod (Z.of_nat k) (Z.of_nat r) with
    | Ok x, Ok m => (0 <=? x) && (x <? 256) && (256 <=? m) && (m <? 512)
    | _, _ => false end) (seq 0 4)) (seq 0 4) = true.
Proof. vm_compute. reflexivity. Qed.

Lemma smod_sxor_ok k r : (k < 4)%nat -> 0 <= r < 4 -> exists x m,
  tbl2 ice_sxor (Z.of_nat k) r = Ok x /\ tbl2 ice_smod (Z.of_nat k) r = Ok m /\
  0 <= x < 256 /\ 256 <= m < 512.
Proof.
  intros Hk Hr. pose proof smod_sxor_table as H. rewrite forallb_forall in H.
  specialize (H k). rewrite in_seq in H. specialize (H ltac:(lia)).
  rewrite forallb_forall in H.
  specialize (H (Z.to_nat r)). rewrite in_seq in H. specialize (H ltac:(lia)).
  rewrite Z2Nat.id in H by lia.
  destruct (tbl2 ice_sxor _ r) as [x|], (tbl2 ice_smod _ r) as [m|]; try done.
  exists x, m. do 2 (split; [done|]). lia.
Qed.

Lemma ice_sbox_entry_ok k i : (k < 4)%nat -> 0 <= i < 1024 ->
  exists e, ice_sbox_entry k i = Ok e /\ word32 e.
Proof.
  intros Hk Hi. unfold ice_sbox_entry.
  set (row := Z.lor _ _). set (col := Z.land _ 0xff).
  assert (0 <= row < 4) as Hrow.
  { unfold row. change 4 with (2 ^ 2). apply lor_range; [lia| |].
    - apply land_range_r; lia.
    - apply shiftr_lt; [lia|lia|]. apply land_range; simpl; lia. }
  assert (0 <= col < 256) as Hcol.
  { unfold col. change 256 with (2 ^ 8). apply land_range_r; lia. }
  destruct (smod_sxor_ok k row) as (x & m & Ex & Em & Hx & Hm); [done..|].
  rewrite (res_bind_ok _ _ _ Ex), (res_bind_ok _ _ _ Em).
  destruct (gf_exp7_ok (Z.lxor col x) m) as (g & Eg & Hg); [|done|].
  { change 256 with (2 ^ 8). by apply lxor_range. }
  rewrite (res_bind_ok _ _ _ Eg).
  destruct (ice_perm32_ok (u32 (Z.shiftl g (24 - 8 * Z.of_nat k)))) as (r & E & Hr & _);
    [apply u32_range|]. eauto.
Qed.

Lemma ice_sbox_row_ok k n i : (k < 4)%nat -> (i + n <= 1024)%nat ->
  exists es, ice_sbox_row k i n = Ok es /\ length es = n /\ Forall word32 es.
Proof.
  intros Hk. revert i. induction n as [|n IH]; intros i Hi; simpl.
  - exists []. by repeat split.
  - destruct (ice_sbox_entry_ok k (Z.of_nat i)) as (e & Ee & He); [done|lia|].
    rewrite (res_bind_ok _ _ _ Ee).
    destruct (IH (Datatypes.S i)) as (es & Es & Hl & Hes); [lia|].
    rewrite (res_bind_ok _ _ _ Es). exists (e :: es). simpl.
    split; [done|]. split; [by f_equal|by constructor].
Qed.

Lemma ice_sboxes_init_ok g : exists g', ice_sboxes_init g = Ok g' /\ sbox_ok (ice_sbox g').
Proof.
  unfold ice_sboxes_init.
  destruct (ice_sbox_row_ok 0 1024 0) as (s0 & E0 & H0); [lia..|].
  destruct (ice_sbox_row_ok 1 1024 0) as (s1 & E1 & H1); [lia..|].
  destruct (ice_sbox_row_ok 2 1024 0) as (s2 & E2 & H2); [lia..|].
  destruct (ice_sbox_row_ok 3 1024 0) as (s3 & E3 & H3); [lia..|].
  rewrite (res_bind_ok _ _ _ E0), (res_bind_ok _ _ _ E1), (res_bind_ok _ _ _ E2),
    (res_bind_ok _ _ _ E3).
  eexists. split; [reflexivity|]. split; [done|]. repeat (apply Forall_cons_2; [assumption|]); apply Forall_nil_2.
Qed.

Lemma tbl2_sbox sbox i j : sbox_ok sbox -> 0 <= i < 4 -> 0 <= j < 1024 ->
  exists x, tbl2 sbox i j = Ok x /\ word32 x.
Proof.
  intros [Hl Hf] Hi Hj. unfold tbl2.
  destruct (tbl_in_range sbox i) as (row & E & Hrow); [lia|].
  rewrite (res_bind_ok _ _ _ E).
  rewrite Forall_lookup in Hf. destruct (Hf _ _ Hrow) as [Hlr Hwr].
  destruct (tbl_in_range row j) as (x & Ex & Hx); [lia|].
  exists x. split; [done|]. rewrite Forall_lookup in Hwr. by eapply Hwr.
Qed.

(** * Rounds *)

(** Three subkey words of 20 bits. *)
Definition subkey_ok (sk : IceSubkey) : Prop :=
  length (val sk) = 3%nat /\ Forall (fun v => 0 <= v < 2 ^ 20) (val sk).

Definition key_ok (k : IceKey) : Prop :=
  0 <= _rounds k /\ _rounds k mod 2 = 0 /\
  length (_keysched k) = Z.to_nat (_rounds k) /\ Forall subkey_ok (_keysched k).

Lemma subkey_val sk i : subkey_ok sk -> 0 <= i < 3 ->
  exists v, tbl (val sk) i = Ok v /\ 0 <= v < 2 ^ 20.
Proof.
  intros [Hl Hf] Hi. destruct (tbl_in_range (val sk) i) as (v & E & Hv); [lia|].
  exists v. split; [done|]. rewrite Forall_lookup in Hf. by eapply Hf.
Qed.

Lemma expand_range a b : 0 <= Z.lor (Z.land a 0x3ff) (Z.land b 0xffc00) < 2 ^ 20.
Proof.
  apply lor_range; [lia| |]; [|apply land_range_r; lia].
  assert (0 <= Z.land a 0x3ff < 2 ^ 10) by (apply land_range_r; lia).
  assert (2 ^ 10 <= 2 ^ 20) by (apply Z.pow_le_mono_r; lia). lia.
Qed.

Lemma ice_f_ok sbox sk p : sbox_ok sbox -> subkey_ok sk ->
  exists f, ice_f sbox p sk = Ok f /\ word32 f.
Proof.
  intros Hs Hk. unfold ice_f.
  set (tl := Z.lor _ (Z.land (Z.lor _ _) _)). set (tr := Z.lor (Z.land p _) _).
  assert (0 <= tl < 2 ^ 20) as Htl by apply expand_range.
  assert (0 <= tr < 2 ^ 20) as Htr by apply expand_range.
  destruct (subkey_val sk 2 Hk) as (v2 & E2 & H2); [lia|].
  rewrite (res_bind_ok _ _ _ E2).
  destruct (subkey_val sk 0 Hk) as (v0 & E0 & H0); [lia|].
  rewrite (res_bind_ok _ _ _ E0).
  destruct (subkey_val sk 1 Hk) as (v1 & E1 & H1); [lia|].
  rewrite (res_bind_ok _ _ _ E1).
  set (al0 := Z.land v2 (Z.lxor tl tr)).
  set (al := Z.lxor (Z.lxor al0 tl) v0). set (ar := Z.lxor (Z.lxor al0 tr) v1).
  assert (0 <= al0 < 2 ^ 20) by (by apply land_range).
  assert (0 <= al < 2 ^ 20) by (repeat apply lxor_range; done).
  assert (0 <= ar < 2 ^ 20) by (repeat apply lxor_range; done).
  assert (Hhi : forall x, 0 <= x < 2 ^ 20 -> 0 <= Z.shiftr x 10 < 1024)
    by (intros; by apply (shiftr_lt _ 10 10)).
  assert (Hlo : forall x, 0 <= Z.land x 0x3ff < 1024)
    by (intros; change 1024 with (2 ^ 10); apply land_range_r; lia).
  destruct (tbl2_sbox sbox 0 (Z.shiftr al 10) Hs) as (x0 & X0 & W0); [lia|auto|].
  destruct (tbl2_sbox sbox 1 (Z.land al 0x3ff) Hs) as (x1 & X1 & W1); [lia|auto|].
  destruct (tbl2_sbox sbox 2 (Z.shiftr ar 10) Hs) as (x2 & X2 & W2); [lia|auto|].
  destruct (tbl2_sbox sbox 3 (Z.land ar 0x3ff) Hs) as (x3 & X3 & W3); [lia|auto|].
  rewrite (res_bind_ok _ _ _ X0), (res_bind_ok _ _ _ X1), (res_bind_ok _ _ _ X2),
    (res_bind_ok _ _ _ X3).
  eexists. split; [reflexivity|]. repeat apply lor_range; done.
Qed.

Lemma half_round_ok sbox k i x y : sbox_ok sbox -> key_ok k -> 0 <= i < _rounds k ->
  word32 x -> exists z, half_round sbox k i x y = Ok z /\ word32 z /\
    half_round sbox k i z y = Ok x.
Proof.
  intros Hs (H0 & _ & Hl & Hf) Hi Hx. unfold half_round.
  destruct (tbl_in_range (_keysched k) i) as (sk & E & Hsk); [lia|].
  rewrite Forall_lookup in Hf.
  destruct (ice_f_ok sbox sk y Hs (Hf _ _ Hsk)) as (f & Ef & Hw).
  exists (Z.lxor x f).
  rewrite !(res_bind_ok _ _ _ E), !(res_bind_ok _ _ _ Ef).
  split; [done|]. split; [by apply lxor_range|].
  by rewrite Z.lxor_assoc, Z.lxor_nilpotent, Z.lxor_0_r.
Qed.

(** A double round of encryption, and the decryption round that undoes it. *)
Lemma double_round sbox k j l r : sbox_ok sbox -> key_ok k ->
  2 * Z.of_nat j + 1 < _rounds k -> word32 l -> word32 r ->
  exists l' r', encrypt_body sbox k j (l, r) = Ok (l', r') /\ word32 l' /\ word32 r' /\
    forall j', Z.of_nat j' = _rounds k / 2 - 1 - Z.of_nat j ->
      decrypt_body sbox k j' (r', l') = Ok (r, l).
Proof.
  intros Hs Hk Hj Hl Hr. unfold encrypt_body, decrypt_body.
  destruct (half_round_ok sbox k (2 * Z.of_nat j) l r) as (l' & E1 & Hl' & D1);
    [done|done|lia|done|].
  rewrite (res_bind_ok _ _ _ E1).
  destruct (half_round_ok sbox k (2 * Z.of_nat j + 1) r l') as (r' & E2 & Hr' & D2);
    [done|done|lia|done|].
  rewrite (res_bind_ok _ _ _ E2). exists l', r'.
  split; [done|]. split; [done|]. split; [done|]. intros j' Hj'.
  destruct Hk as (H0 & Hev & _).
  pose proof (Z.div_mod (_rounds k) 2).
  replace (_rounds k - 1 - 2 * Z.of_nat j') with (2 * Z.of_nat j + 1) by lia.
  rewrite (res_bind_ok _ _ _ D2).
  replace (2 * Z.of_nat j + 1 - 1) with (2 * Z.of_nat j) by lia.
  by rewrite (res_bind_ok _ _ _ D1).
Qed.

(** All rounds: decryption runs the same half rounds backwards. *)
Lemma rounds_inverse sbox k n l r : sbox_ok sbox -> key_ok k ->
  2 * Z.of_nat n <= _rounds k -> word32 l -> word32 r ->
  exists l' r', res_for 0 n (encrypt_body sbox k) (l, r) = Ok (l', r') /\
    word32 l' /\ word32 r' /\
    res_for (Z.to_nat (_rounds k / 2) - n) n (decrypt_body sbox k) (r', l') = Ok (r, l).
Proof.
  intros Hs Hk. induction n as [|n IH]; intros Hn Hl Hr.
  - by exists l, r.
  - destruct IH as (l1 & r1 & E1 & Hl1 & Hr1 & D1); [lia|done|done|].
    destruct (double_round sbox k n l1 r1) as (l2 & r2 & E2 & Hl2 & Hr2 & D2);
      [done|done|lia|done|done|].
    exists l2, r2. rewrite res_for_snoc, (res_bind_ok _ _ _ E1). simpl.
    split; [done|]. split; [done|]. split; [done|].
    assert (Z.of_nat n + 1 <= _rounds k / 2) by (apply Z.div_le_lower_bound; lia).
    rewrite (res_bind_ok _ _ _ (D2 (Z.to_nat (_rounds k / 2) - Datatypes.S n)%nat ltac:(lia))).
    replace (Datatypes.S (Z.to_nat (_rounds k / 2) - Datatypes.S n))
      with (Z.to_nat (_rounds k / 2) - n)%nat by lia.
    done.
Qed.

(** * Blocks *)

Definition be_bytes (w : Z) : list Z := [bits w 24 8; bits w 16 8; bits w 8 8; bits w 0 8].

Lemma land_ff x : Z.land x 0xff = bits x 0 8.
Proof. unfold bits. by rewrite Z.shiftr_0_r. Qed.

Lemma bits_shiftr_low x k n : 0 <= k -> 0 <= n -> bits (Z.shiftr x k) 0 n = bits x k n.
Proof. intros. zbits. Qed.

Lemma store_block_eq l r : store_block l r = Ok (be_bytes r ++ be_bytes l).
Proof.
  unfold store_block.
  transitivity (Ok [Z.land (Z.shiftr (Z.shiftr (Z.shiftr r 8) 8) 8) 0xff;
    Z.land (Z.shiftr (Z.shiftr r 8) 8) 0xff; Z.land (Z.shiftr r 8) 0xff; Z.land r 0xff;
    Z.land (Z.shiftr (Z.shiftr (Z.shiftr l 8) 8) 8) 0xff;
    Z.land (Z.shiftr (Z.shiftr l 8) 8) 0xff; Z.land (Z.shiftr l 8) 0xff; Z.land l 0xff]);
    [reflexivity|].
  rewrite !land_ff, !Z.shiftr_shiftr, !bits_shiftr_low by lia. reflexivity.
Qed.

Lemma be_join_word b0 b1 b2 b3 : is_byte b0 -> is_byte b1 -> is_byte b2 -> is_byte b3 ->
  let w := Z.lor (Z.lor (Z.lor (u32 (Z.shiftl b0 24)) (u32 (Z.shiftl b1 16)))
       (u32 (Z.shiftl b2 8))) b3 in
  word32 w /\ be_bytes w = [b0; b1; b2; b3].
Proof.
  intros H0 H1 H2 H3 w. unfold is_byte in *. split.
  - unfold w. repeat apply lor_range; try apply u32_range; try lia.
  - unfold be_bytes. assert (Hb : forall b i, 0 <= b < 256 -> 8 <= i -> Z.testbit b i = false)
      by (intros; by apply (zb_high b 8)).
    apply (f_equal2 cons); [|apply (f_equal2 cons); [|apply (f_equal2 cons); [|apply (f_equal2 cons)]]];
      try done; apply Z.bits_inj'; intros i Hi; unfold w; autorewrite with zbits;
      zbits_cases; simpl; try lia;
      try (symmetry; apply Hb; lia);
      repeat match goal with
      | |- context [Z.testbit ?a ?i] => rewrite (Z.testbit_neg_r a i) by lia
      | |- context [Z.testbit ?a ?i] => rewrite (Hb a i) by lia
      end; simpl; rewrite ?orb_false_r; try f_equal; try lia; try done.
Qed.

Lemma be_bytes_byte w : Forall is_byte (be_bytes w).
Proof. repeat constructor; apply bits_range; lia. Qed.

Lemma be_bytes_inj w w' : word32 w -> word32 w' -> be_bytes w = be_bytes w' -> w = w'.
Proof.
  intros Hw Hw' E. unfold be_bytes in E. injection E as E3 E2 E1 E0. apply Z.bits_inj'; intros i Hi.
  assert (Hbit : forall x k, 0 <= k -> Z.testbit (bits x k 8) (i - k) =
    (k <=? i) && (i <? k + 8) && Z.testbit x i).
  { intros x k Hk. rewrite zb_bits by lia. zbits_cases; simpl; try lia; try done.
    f_equal. lia. }
  destruct (Z.lt_ge_cases i 32) as [Hlt|Hge]; [|by rewrite !(zb_high _ 32)].
  assert (Hc : 0 <= i < 8 \/ 8 <= i < 16 \/ 16 <= i < 24 \/ 24 <= i < 32) by lia.
  destruct Hc as [Hc|[Hc|[Hc|Hc]]];
    [apply (f_equal (fun x => Z.testbit x (i - 0))) in E0 as E
    |apply (f_equal (fun x => Z.testbit x (i - 8))) in E1 as E
    |apply (f_equal (fun x => Z.testbit x (i - 16))) in E2 as E
    |apply (f_equal (fun x => Z.testbit x (i - 24))) in E3 as E];
    rewrite !Hbit in E by lia; revert E; zbits_cases; simpl; try lia; done.
Qed.

(** A block of eight bytes is two words, and storing the words gives it back. *)
Lemma load_block p : length p = 8%nat -> Forall is_byte p ->
  exists l r, load_be p 0 = Ok l /\ load_be p 4 = Ok r /\ word32 l /\ word32 r /\
    be_bytes l ++ be_bytes r = p.
Proof.
  intros Hl Hb. destruct p as [|b0 [|b1 [|b2 [|b3 [|b4 [|b5 [|b6 [|b7 [|]]]]]]]]]; try done.
  repeat match goal with H : Forall _ (_ :: _) |- _ => apply Forall_cons in H as [? H] end.
  destruct (be_join_word b0 b1 b2 b3) as [W0 E0]; [done..|].
  destruct (be_join_word b4 b5 b6 b7) as [W1 E1]; [done..|].
  do 2 eexists. split; [reflexivity|]. split; [reflexivity|].
  split; [exact W0|]. split; [exact W1|]. by rewrite E0, E1.
Qed.

Lemma load_stored l r : word32 l -> word32 r ->
  load_be (be_bytes l ++ be_bytes r) 0 = Ok l /\ load_be (be_bytes l ++ be_bytes r) 4 = Ok r.
Proof.
  intros Hl Hr.
  destruct (load_block (be_bytes l ++ be_bytes r)) as (l' & r' & E1 & E2 & W1 & W2 & E).
  { done. } { apply Forall_app. split; apply be_bytes_byte. }
  apply app_inj_1 in E as [El Er]; [|done].
  apply be_bytes_inj in El; [|done|done]. apply be_bytes_inj in Er; [|done|done].
  by subst.
Qed.

Lemma rounds_half k : key_ok k -> (_rounds k + 1) / 2 = _rounds k / 2.
Proof. intros (H0 & He & _). Z.to_euclidean_division_equations; lia. Qed.

Lemma encrypt_decrypt sbox k p : sbox_ok sbox -> key_ok k ->
  length p = 8%nat -> Forall is_byte p ->
  exists c, encrypt sbox k p = Ok c /\ length c = 8%nat /\ Forall is_byte c /\
    decrypt sbox k c = Ok p.
Proof.
  intros Hs Hk Hl Hb. destruct (load_block p Hl Hb) as (l & r & E1 & E2 & Wl & Wr & Ep).
  unfold encrypt, decrypt.
  rewrite (res_bind_ok _ _ _ E1), (res_bind_ok _ _ _ E2), rounds_half by done.
  destruct (rounds_inverse sbox k (Z.to_nat (_rounds k / 2)) l r)
    as (l' & r' & E & Wl' & Wr' & D); [done|done| |done|done|].
  { destruct Hk as (H0 & _). pose proof (Z.mul_div_le (_rounds k) 2).
    pose proof (Z.div_pos (_rounds k) 2). lia. }
  rewrite (res_bind_ok _ _ _ E), store_block_eq.
  eexists. split; [reflexivity|]. split; [done|].
  split; [apply Forall_app; split; apply be_bytes_byte|].
  destruct (load_stored r' l' Wr' Wl') as [L1 L2].
  rewrite (res_bind_ok _ _ _ L1), (res_bind_ok _ _ _ L2).
  rewrite Nat.sub_diag in D. rewrite (res_bind_ok _ _ _ D), store_block_eq.
  by rewrite Ep.
Qed.

(** * Key schedule *)

Definition words20 (v : list Z) (bound : nat -> Z) : Prop :=
  length v = 3%nat /\
  forall t x, (t < 3)%nat -> v !! t = Some x -> 0 <= x < 2 ^ bound t.

(** Bits in word [t] before bit [k] of step [j] of a subkey: every step feeds
    four bits to the word [j mod 3]. *)
Definition fed (j k : nat) (t : nat) : Z :=
  4 * ((Z.of_nat j + 2 - Z.of_nat t) / 3) +
  (if Z.of_nat t =? Z.of_nat j mod 3 then Z.of_nat k else 0).

Lemma schedule_bit_ok kr j k kb v : (j < 15)%nat -> (k < 4)%nat ->
  length kb = 4%nat -> words20 v (fed j k) ->
  exists kb' v', schedule_bit kr j k (kb, v) = Ok (kb', v') /\
    length kb' = 4%nat /\ words20 v' (fed j (Datatypes.S k)).
Proof.
  intros Hj Hk Hkb [Hlv Hv]. unfold schedule_bit.
  set (ik := Z.land _ 3). set (iv := Z.of_nat j mod 3).
  assert (0 <= ik < 4) by (unfold ik; change 4 with (2 ^ 2); apply land_range_r; lia).
  assert (0 <= iv < 3) as Hiv by (apply Z.mod_pos_bound; lia).
  destruct (tbl_in_range kb ik) as (w & Ew & _); [lia|]. rewrite (res_bind_ok _ _ _ Ew).
  destruct (tbl_in_range v iv) as (x & Ex & Hx); [lia|]. rewrite (res_bind_ok _ _ _ Ex).
  rewrite (res_bind_ok _ _ _ (tbl_set_ok v iv _ ltac:(lia))).
  rewrite (res_bind_ok _ _ _ (tbl_set_ok kb ik _ ltac:(lia))).
  do 2 eexists. split; [reflexivity|]. split; [by rewrite length_insert|].
  split; [by rewrite length_insert|]. intros t y Ht Hy.
  destruct (decide (t = Z.to_nat iv)) as [->|Hne].
  - rewrite list_lookup_insert_eq in Hy by lia. injection Hy as <-.
    specialize (Hv _ x Ht Hx). unfold fed in *. rewrite Z2Nat.id in * by lia.
    fold iv. fold iv in Hv. rewrite Z.eqb_refl in *.
    set (q := (Z.of_nat j + 2 - iv) / 3) in *.
    assert (0 <= q <= 4) as Hq.
    { unfold q, iv in *. Z.to_euclidean_division_equations; lia. }
    set (e := 4 * q + Z.of_nat k) in *.
    replace (4 * q + Z.of_nat (Datatypes.S k)) with (e + 1) by lia.
    assert (0 <= Z.shiftl x 1 < 2 ^ (e + 1)) as Hs by (apply shiftl_range; lia).
    assert (2 ^ (e + 1) <= 2 ^ 32) by (apply Z.pow_le_mono_r; lia).
    rewrite uwrap_small by lia. apply lor_range; [lia|done|].
    assert (0 <= Z.land w 1 < 2 ^ 1) by (apply land_range_r; lia).
    assert (2 ^ 1 <= 2 ^ (e + 1)) by (apply Z.pow_le_mono_r; lia). lia.
  - rewrite list_lookup_insert_ne in Hy by done. specialize (Hv t y Ht Hy).
    unfold fed in *. fold iv in Hv |- *.
    destruct (Z.eqb_spec (Z.of_nat t) iv); [lia|done].
Qed.

Lemma fed_step j : (j < 15)%nat -> forall t, (t < 3)%nat -> fed j 4 t = fed (Datatypes.S j) 0 t.
Proof.
  intros Hj t Ht. unfold fed.
  destruct (Z.eqb_spec (Z.of_nat t) (Z.of_nat j mod 3)) as [E|E];
    destruct (Z.of_nat t =? Z.of_nat (Datatypes.S j) mod 3);
    Z.to_euclidean_division_equations; lia.
Qed.

Lemma schedule_subkey_ok keyrot i kb : (i < length keyrot)%nat -> length kb = 4%nat ->
  exists kb' v, schedule_subkey keyrot i kb = Ok (kb', v) /\ length kb' = 4%nat /\
    subkey_ok (mkIceSubkey v).
Proof.
  intros Hi Hkb. unfold schedule_subkey.
  destruct (tbl_in_range keyrot (Z.of_nat i)) as (kr & Ek & _); [lia|].
  rewrite (res_bind_ok _ _ _ Ek).
  destruct (res_for_inv (fun j s => length (fst s) = 4%nat /\ words20 (snd s) (fed j 0))
    (fun j => res_for 0 4 (schedule_bit kr j)) 15 0 (kb, [0; 0; 0]))
    as ([kb' v] & E & Hkb' & Hlv & Hv).
  - split; [done|]. split; [done|]. intros t x Ht Hx.
    assert (x = 0) as -> by (destruct t as [|[|[|]]]; simpl in Hx; congruence || lia).
    apply lookup_lt_Some in Hx. split; [lia|]. apply Z.pow_pos_nonneg; [lia|].
    unfold fed. destruct (_ =? _); Z.to_euclidean_division_equations; lia.
  - intros j [kb1 v1] Hj [Hl1 H1].
    destruct (res_for_inv (fun k s => length (fst s) = 4%nat /\ words20 (snd s) (fed j k))
      (schedule_bit kr j) 4 0 (kb1, v1)) as ([kb2 v2] & E2 & Hl2 & Hw2 & Hv2).
    + by split.
    + intros k [kb3 v3] Hk [Hl3 H3].
      destruct (schedule_bit_ok kr j k kb3 v3) as (kb4 & v4 & E4 & Hl4 & H4);
        [lia|lia|done|done|]. by exists (kb4, v4).
    + exists (kb2, v2). split; [done|]. split; [done|]. split; [done|].
      intros t x Ht Hx. rewrite <- fed_step by lia. by apply Hv2.
  - exists kb', v. split; [done|]. split; [done|]. split; [done|].
    apply Forall_lookup. intros t x Hx. simpl in Hv.
    assert (t < 3)%nat as Ht by (apply lookup_lt_Some in Hx; simpl in *; lia).
    specialize (Hv t x Ht Hx).
    assert (fed 15 0 t = 20) as Hf by (destruct t as [|[|[|]]]; (reflexivity || lia)).
    by rewrite Hf in Hv.
Qed.

(** Two keys that agree on the subkeys in [W], which are well formed. *)
Definition agree (W : Z -> Prop) (k k' : IceKey) : Prop :=
  _size k = _size k' /\ _rounds k = _rounds k' /\
  length (_keysched k) = length (_keysched k') /\
  forall i, 0 <= i < Z.of_nat (length (_keysched k)) -> W i ->
    exists sk, _keysched k !! Z.to_nat i = Some sk /\
      _keysched k' !! Z.to_nat i = Some sk /\ subkey_ok sk.

(** The dimensions of a key, which the schedule does not change. *)
Definition dims (k : IceKey) : Z * Z * nat := (_size k, _rounds k, length (_keysched k)).

Lemma scheduleBuild_agree W k k' kb n keyrot :
  agree W k k' -> 0 <= n -> n + 8 <= Z.of_nat (length (_keysched k)) ->
  length kb = 4%nat -> (8 <= length keyrot)%nat ->
  exists kb' k1 k1', scheduleBuild kb n keyrot k = Ok (kb', k1) /\
    scheduleBuild kb n keyrot k' = Ok (kb', k1') /\ length kb' = 4%nat /\
    dims k1 = dims k /\ agree (fun i => W i \/ n <= i < n + 8) k1 k1'.
Proof.
  intros Hag Hn Hlen Hkb Hrot. unfold scheduleBuild.
  destruct (res_for_inv2 (fun j s s' => fst s = fst s' /\ length (fst s) = 4%nat /\
      dims (snd s) = dims k /\
      agree (fun i => W i \/ n <= i < n + Z.of_nat j) (snd s) (snd s'))
    (fun i '(kb, k) =>
       s ← schedule_subkey keyrot i kb;
       let '(kb, v) := s : list Z * list Z in
       ks ← tbl_set (_keysched k) (n + Z.of_nat i) (mkIceSubkey v);
       Ok (kb, mkIceKey (_size k) (_rounds k) ks))
    (fun i '(kb, k) =>
       s ← schedule_subkey keyrot i kb;
       let '(kb, v) := s : list Z * list Z in
       ks ← tbl_set (_keysched k) (n + Z.of_nat i) (mkIceSubkey v);
       Ok (kb, mkIceKey (_size k) (_rounds k) ks)) 8 0 (kb, k) (kb, k'))
    as ([kb1 k1] & [kb1' k1'] & E1 & E2 & Hk1 & Hl1 & Hd1 & Ha1).
  - simpl. split; [done|]. split; [done|]. split; [done|].
    destruct Hag as (? & ? & ? & Hw). split; [done|]. split; [done|]. split; [done|].
    intros i Hi [HW|?]; [by apply Hw|lia].
  - intros j [kb2 k2] [kb2' k2'] Hj (Hk & Hl2 & Hd & Hag2). simpl in *. subst kb2'.
    destruct (schedule_subkey_ok keyrot j kb2) as (kb3 & v & E & Hl3 & Hsk); [lia|done|].
    rewrite !(res_bind_ok _ _ _ E).
    destruct Hag2 as (Hs & Hr & Hll & Hw). injection Hd as Hd1 Hd2 Hd3.
    rewrite !tbl_set_ok by lia.
    do 2 eexists. split; [reflexivity|]. split; [reflexivity|]. simpl.
    split; [done|]. split; [done|].
    split; [unfold dims; simpl; rewrite length_insert; congruence|].
    split; [done|]. split; [done|]. simpl. rewrite !length_insert. split; [done|].
    intros i Hi HW. destruct (Z.eq_dec i (n + Z.of_nat j)) as [->|Hne].
    + rewrite !list_lookup_insert_eq by lia. by eexists.
    + rewrite !list_lookup_insert_ne by lia. apply Hw; [done|].
      destruct HW as [?|?]; [by left|right; lia].
  - exists kb1, k1, k1'. simpl in *. subst kb1'. split; [exact E1|]. split; [exact E2|]. split; [done|]. by split.
Qed.

Lemma key_block_ok key base : 0 <= base -> base + 8 <= Z.of_nat (length key) ->
  exists kb, key_block key base = Ok kb /\ length kb = 4%nat.
Proof.
  intros Hb Hl. unfold key_block.
  destruct (res_for_inv (fun _ kb => length kb = 4%nat)
    (fun j kb =>
      h ← tbl key (base + Z.of_nat j * 2);
      l ← tbl key (base + Z.of_nat j * 2 + 1);
      tbl_set kb (3 - Z.of_nat j) (u16 (Z.lor (Z.shiftl h 8) l))) 4 0 (replicate 4 0))
    as (kb & E & H); [done| |by exists kb].
  intros j kb Hj Hkb.
  destruct (tbl_in_range key (base + Z.of_nat j * 2)) as (h & Eh & _); [lia|].
  destruct (tbl_in_range key (base + Z.of_nat j * 2 + 1)) as (w & Ew & _); [lia|].
  rewrite (res_bind_ok _ _ _ Eh), (res_bind_ok _ _ _ Ew).
  rewrite tbl_set_ok by lia. eexists. split; [reflexivity|]. by rewrite length_insert.
Qed.

(** A key as the constructor makes it. *)
Definition fresh_key (k : IceKey) : Prop :=
  (_size k = 1 /\ _rounds k = 8 \/ 1 <= _size k < 2 ^ 27 /\ _rounds k = 16 * _size k) /\
  length (_keysched k) = Z.to_nat (_rounds k).

(** Keys that agree on every subkey are equal. *)
Lemma agree_complete k W k1 k1' : fresh_key k -> agree W k1 k1' -> dims k1 = dims k ->
  (forall i, 0 <= i < _rounds k -> W i) -> k1 = k1' /\ key_ok k1.
Proof.
  intros [Hf Hl] (H1 & H2 & H3 & HW) Hd HWall. injection Hd as D1 D2 D3. rewrite Hl in D3.
  assert (Hall : forall i, (i < length (_keysched k1))%nat -> exists sk,
    _keysched k1 !! i = Some sk /\ _keysched k1' !! i = Some sk /\ subkey_ok sk).
  { intros i Hi. destruct (HW (Z.of_nat i)) as (sk & A & B & C); [lia|apply HWall; lia|].
    rewrite Nat2Z.id in A, B. by exists sk. }
  split.
  - destruct k1 as [sz rd ks], k1' as [sz' rd' ks']. simpl in *. subst. f_equal.
    apply list_eq. intros i. destruct (decide (i < length ks)%nat) as [Hi|Hi].
    + destruct (Hall i Hi) as (sk & A & B & _). congruence.
    + by rewrite !lookup_ge_None_2 by lia.
  - split; [lia|]. split.
    + destruct Hf as [[_ Hf]|[_ Hf]]; rewrite D2, Hf; [done|].
      rewrite Z.mul_comm. change 16 with (8 * 2). rewrite Z.mul_assoc. by apply Z.mod_mul.
    + rewrite D2. split; [done|]. apply Forall_lookup. intros i sk Hi.
      destruct (Hall i) as (sk' & A & _ & C); [by eapply lookup_lt_Some|]. congruence.
Qed.

(** One block of the key: eight subkeys from the front and eight from the back. *)
Definition key_round (key : list Z) (i : nat) (k : IceKey) : result IceKey :=
  kb ← key_block key (Z.of_nat i * 8);
  r ← scheduleBuild kb (Z.of_nat i * 8) ice_keyrot k;
  let '(kb, k) := r : list Z * IceKey in
  r ← scheduleBuild kb (_rounds k - 8 - Z.of_nat i * 8) (drop 8 ice_keyrot) k;
  Ok (snd r).

(** The subkeys that are written after [j] rounds. *)
Definition written (rounds : Z) (j : nat) (x : Z) : Prop :=
  0 <= x < 8 * Z.of_nat j \/ rounds - 8 * Z.of_nat j <= x < rounds.

Lemma key_round_agree k key j a b : fresh_key k -> _rounds k = 16 * _size k ->
  8 * _size k <= Z.of_nat (length key) -> Z.of_nat j < _size k ->
  dims a = dims k -> agree (written (_rounds k) j) a b ->
  exists a' b', key_round key j a = Ok a' /\ key_round key j b = Ok b' /\
    dims a' = dims k /\ agree (written (_rounds k) (S j)) a' b'.
Proof.
  intros [_ Hl] Hf Hkey Hj Hda Hab. injection Hda as D1 D2 D3. unfold key_round.
  destruct (key_block_ok key (Z.of_nat j * 8)) as (kb & Ek & Hkb); [lia|lia|].
  rewrite !(res_bind_ok _ _ _ Ek).
  destruct (scheduleBuild_agree _ a b kb (Z.of_nat j * 8) ice_keyrot Hab)
    as (kb2 & a2 & b2 & Ea & Eb & Hkb2 & Hd2 & Ha2); [lia|lia|done|simpl; lia|].
  rewrite (res_bind_ok _ _ _ Ea), (res_bind_ok _ _ _ Eb).
  injection Hd2 as D1' D2' D3'. assert (_rounds b2 = _rounds a2) as -> by apply eq_sym, Ha2.
  rewrite D2', D2.
  destruct (scheduleBuild_agree _ a2 b2 kb2 (_rounds k - 8 - Z.of_nat j * 8)
    (drop 8 ice_keyrot) Ha2) as (kb3 & a3 & b3 & Ea3 & Eb3 & _ & Hd3 & Ha3);
    [lia|lia|done|simpl; lia|].
  rewrite (res_bind_ok _ _ _ Ea3), (res_bind_ok _ _ _ Eb3).
  exists a3, b3. split; [done|]. split; [done|].
  split; [rewrite Hd3; unfold dims; congruence|].
  destruct Ha3 as (A & B & C & D). split; [done|]. split; [done|]. split; [done|].
  intros x Hx HW. apply D; [done|]. unfold written in *.
  destruct (decide (0 <= x < 8 * Z.of_nat j)); [left; left; by left|].
  destruct (decide (_rounds k - 8 * Z.of_nat j <= x < _rounds k)); [left; left; by right|].
  destruct (decide (Z.of_nat j * 8 <= x < Z.of_nat j * 8 + 8)); [left; by right|].
  right. lia.
Qed.

(** Setting the key writes every subkey: two keys of the same size become equal. *)
Lemma set_key_agree k k' key : fresh_key k -> fresh_key k' -> _size k = _size k' ->
  _rounds k = _rounds k' -> 8 * _size k <= Z.of_nat (length key) ->
  exists k1, set_key k key = Ok k1 /\ set_key k' key = Ok k1 /\
    dims k1 = dims k /\ key_ok k1.
Proof.
  intros Hfr [_ Hl'] Hs Hr Hkey. pose proof Hfr as [Hf Hl].
  assert (Hag0 : agree (fun _ => False) k k').
  { split; [done|]. split; [done|]. split; [congruence|]. intros i _ []. }
  unfold set_key. rewrite <- Hr.
  destruct (Z.eqb_spec (_rounds k) 8) as [E8|N8].
  - destruct (key_block_ok key 0) as (kb & Ek & Hkb); [lia|destruct Hf; lia|].
    rewrite !(res_bind_ok _ _ _ Ek).
    destruct (scheduleBuild_agree _ k k' kb 0 ice_keyrot Hag0)
      as (kb' & k1 & k1' & E1 & E2 & _ & Hd & Ha); [lia|lia|done|simpl; lia|].
    destruct (agree_complete k _ _ _ Hfr Ha Hd) as [<- Hok]; [intros i Hi; right; lia|].
    rewrite (res_bind_ok _ _ _ E1), (res_bind_ok _ _ _ E2). by exists k1.
  - destruct Hf as [[_ Hf]|[Hsz Hf]]; [lia|]. rewrite <- Hs.
    destruct (res_for_inv2 (fun i a b => dims a = dims k /\ agree (written (_rounds k) i) a b)
      (key_round key) (key_round key) (Z.to_nat (_size k)) 0 k k')
      as (k1 & k1' & E1 & E2 & Hd & Ha).
    + split; [done|]. destruct Hag0 as (A & B & C & _).
      split; [done|]. split; [done|]. split; [done|]. unfold written. intros x Hx Hw. lia.
    + intros j a b Hj [Hda Hab]. apply key_round_agree; done || lia.
    + destruct (agree_complete k _ _ _ Hfr Ha Hd) as [<- Hok]; [unfold written; intros i Hi; lia|].
      by exists k1.
Qed.

(** The constructor's key can be set. *)
Lemma IceKey_new_ok g raw n : n < 2 ^ 27 ->
  ice_sboxes_initialised g = false \/ sbox_ok (ice_sbox g) ->
  (n < 1 -> length raw = 8%nat) -> (1 <= n -> length raw = Z.to_nat (16 * n)) ->
  exists g' k, IceKey_new g raw n = Ok (g', k) /\ sbox_ok (ice_sbox g') /\
    (ice_sboxes_initialised g = true -> g' = g) /\ ice_sboxes_initialised g' = true /\
    fresh_key k /\ _size k = Z.max n 1 /\ _rounds k = (if n <? 1 then 8 else 16 * n).
Proof.
  intros Hn Hg Hr1 Hr2. unfold IceKey_new.
  assert (exists g', (if negb (ice_sboxes_initialised g) then
      g' ← ice_sboxes_init g; Ok (mkIceStatics (ice_sbox g') true) else Ok g) = Ok g' /\
      sbox_ok (ice_sbox g') /\ (ice_sboxes_initialised g = true -> g' = g) /\
      ice_sboxes_initialised g' = true) as (g' & Eg & Hs & Hsame & Hi).
  { destruct (ice_sboxes_initialised g) eqn:Ei; cbn [negb].
    - destruct Hg as [|Hg]; [congruence|]. exists g. by split.
    - destruct (ice_sboxes_init_ok g) as (g' & E & H). rewrite (res_bind_ok _ _ _ E).
      eexists. split; [reflexivity|]. split; [exact H|]. by split. }
  rewrite (res_bind_ok _ _ _ Eg).
  destruct (Z.ltb_spec n 1) as [H|H].
  - do 2 eexists. split; [reflexivity|]. split; [done|]. split; [done|]. split; [done|].
    split; [|split; [simpl; lia|done]]. split; [left; by split|]. simpl.
    rewrite length_take, Hr1 by done. reflexivity.
  - rewrite s32_small by lia. do 2 eexists. split; [reflexivity|].
    split; [done|]. split; [done|]. split; [done|].
    split; [|split; simpl; lia]. split; [right; simpl; lia|]. simpl.
    rewrite length_take, Hr2 by lia. lia.
Qed.

(** ICE on byte streams: decryption as encryption under the reversed schedule,
    the cipher as a permutation of blocks, and the block-by-block treatment of a
    payload whose last incomplete block is left in the clear. *)

(** * Decryption is encryption with the subkeys reversed *)

Definition rev_key (k : IceKey) : IceKey :=
  mkIceKey (_size k) (_rounds k) (reverse (_keysched k)).

(** A stream: whole blocks go through the cipher, the rest is left as it is. *)
Fixpoint blocks (f : list Z -> result (list Z)) (n : nat) (l : list Z) : result (list Z) :=
  match n with
  | O => Ok l
  | S n' => b ← f (take 8 l); r ← blocks f n' (drop 8 l); Ok (b ++ r)
  end.

Definition encrypt_stream (sbox : list (list Z)) (k : IceKey) (l : list Z) : result (list Z) :=
  blocks (encrypt sbox k) (length l / 8) l.

Definition decrypt_stream (sbox : list (list Z)) (k : IceKey) (l : list Z) : result (list Z) :=
  blocks (decrypt sbox k) (length l / 8) l.

Lemma tbl_reverse {A} (t : list A) i : 0 <= i < Z.of_nat (length t) ->
  tbl (reverse t) i = tbl t (Z.of_nat (length t) - 1 - i).
Proof.
  intros Hi. destruct (tbl_in_range t (Z.of_nat (length t) - 1 - i)) as (v & E & Hv); [lia|].
  rewrite E. apply tbl_ok; [lia|]. rewrite reverse_lookup by lia.
  rewrite <- Hv. f_equal. lia.
Qed.

Lemma rev_key_ok k : key_ok k -> key_ok (rev_key k).
Proof.
  intros (H0 & He & Hl & Hf). split; [done|]. split; [done|]. cbn [rev_key _rounds _keysched].
  rewrite length_reverse. split; [done|]. by apply Forall_reverse.
Qed.

Lemma rev_key_invol k : rev_key (rev_key k) = k.
Proof. destruct k as [sz rd ks]. unfold rev_key. simpl. by rewrite reverse_involutive. Qed.

Lemma half_round_rev sbox k i x y : key_ok k -> 0 <= i < _rounds k ->
  half_round sbox (rev_key k) i x y = half_round sbox k (_rounds k - 1 - i) x y.
Proof.
  intros (H0 & _ & Hl & _) Hi. unfold half_round. cbn [rev_key _keysched].
  rewrite tbl_reverse by lia. do 2 f_equal. lia.
Qed.

Lemma decrypt_rev sbox k c : key_ok k -> decrypt sbox k c = encrypt sbox (rev_key k) c.
Proof.
  intros Hk. unfold decrypt, encrypt.
  destruct (load_be c 0) as [l|e]; [|done]. destruct (load_be c 4) as [r|e]; [|done].
  change (Ok l ≫= ?f) with (f l). change (Ok r ≫= ?f) with (f r). cbv beta.
  rewrite (rounds_half _ (rev_key_ok k Hk)). cbn [rev_key _rounds].
  erewrite res_for_ext; [reflexivity|]. intros j [a b] Hj.
  assert (2 * Z.of_nat j + 1 < _rounds k) as Hjr.
  { destruct Hk as (H0 & He & _). pose proof (Z.mul_div_le (_rounds k) 2). lia. }
  unfold decrypt_body, encrypt_body. rewrite half_round_rev by (done || lia).
  destruct (half_round sbox k (_rounds k - 1 - 2 * Z.of_nat j) a b) as [a'|e]; [|done].
  change (Ok a' ≫= ?f) with (f a'). cbv beta. rewrite half_round_rev by (done || lia).
  by replace (_rounds k - 1 - (2 * Z.of_nat j + 1)) with (_rounds k - 1 - 2 * Z.of_nat j - 1) by lia.
Qed.

Lemma encrypt_rev sbox k p : key_ok k -> encrypt sbox k p = decrypt sbox (rev_key k) p.
Proof. intros Hk. rewrite decrypt_rev by (by apply rev_key_ok).
  by rewrite rev_key_invol. Qed.

(** Every block is the encryption of its decryption. *)
Lemma decrypt_encrypt sbox k c : sbox_ok sbox -> key_ok k ->
  length c = 8%nat -> Forall is_byte c ->
  exists p, decrypt sbox k c = Ok p /\ length p = 8%nat /\ Forall is_byte p /\
    encrypt sbox k p = Ok c.
Proof.
  intros Hs Hk Hl Hb.
  destruct (encrypt_decrypt sbox (rev_key k) c Hs (rev_key_ok k Hk) Hl Hb) as (p & E & Hpl & Hpb & D).
  exists p. by rewrite decrypt_rev, (encrypt_rev sbox k p) by done.
Qed.

(** * Streams *)

Section Streams.
Context (f g : list Z -> result (list Z)).

(** [g] undoes [f] on blocks. *)
Definition block_inverse : Prop := forall p, length p = 8%nat -> Forall is_byte p ->
  exists c, f p = Ok c /\ length c = 8%nat /\ Forall is_byte c /\ g c = Ok p.

Lemma blocks_inverse n l : block_inverse -> (8 * n <= length l)%nat -> Forall is_byte l ->
  exists c, blocks f n l = Ok c /\ length c = length l /\ Forall is_byte c /\
    blocks g n c = Ok l.
Proof.
  intros Hinv. revert l. induction n as [|n IH]; intros l Hn Hb; [by exists l|].
  destruct (Hinv (take 8 l)) as (c & E & Hc & Hcb & D);
    [rewrite length_take; lia|by apply Forall_take|].
  destruct (IH (drop 8 l)) as (r & Er & Hr & Hrb & Dr);
    [rewrite length_drop; lia|by apply Forall_drop|].
  exists (c ++ r). cbn [blocks]. rewrite (res_bind_ok _ _ _ E), (res_bind_ok _ _ _ Er).
  split; [done|]. rewrite length_app, Hc, Hr, length_drop. split; [lia|].
  split; [by apply Forall_app|].
  rewrite take_app_length', drop_app_length' by done.
  rewrite (res_bind_ok _ _ _ D), (res_bind_ok _ _ _ Dr). by rewrite take_drop.
Qed.
End Streams.

Lemma encrypt_stream_inverse sbox k l : sbox_ok sbox -> key_ok k -> Forall is_byte l ->
  exists c, encrypt_stream sbox k l = Ok c /\ length c = length l /\ Forall is_byte c /\
    decrypt_stream sbox k c = Ok l.
Proof.
  intros Hs Hk Hb. unfold encrypt_stream, decrypt_stream.
  destruct (blocks_inverse (encrypt sbox k) (decrypt sbox k) (length l / 8) l)
    as (c & E & Hl & Hc & D).
  - intros p Hp Hpb. by apply encrypt_decrypt.
  - apply Nat.Div0.mul_div_le.
  - done.
  - exists c. by rewrite Hl.
Qed.

Lemma decrypt_stream_inverse sbox k l : sbox_ok sbox -> key_ok k -> Forall is_byte l ->
  exists p, decrypt_stream sbox k l = Ok p /\ length p = length l /\ Forall is_byte p /\
    encrypt_stream sbox k p = Ok l.
Proof.
  intros Hs Hk Hb. unfold encrypt_stream, decrypt_stream.
  destruct (blocks_inverse (decrypt sbox k) (encrypt sbox k) (length l / 8) l)
    as (c & E & Hl & Hc & D).
  - intros p Hp Hpb. by apply decrypt_encrypt.
  - apply Nat.Div0.mul_div_le.
  - done.
  - exists c. by rewrite Hl.
Qed.

(** The properties of the ICE cipher. *)

(** Storage for the subkeys of a key of level [n]. *)
Definition storage_ok (n : Z) (raw : list IceSubkey) : Prop :=
  length raw = Z.to_nat (if n <? 1 then 8 else 16 * n).

Lemma IceKey_new_any g raw n : n < 2 ^ 27 -> storage_ok n raw ->
  ice_sboxes_initialised g = false \/ sbox_ok (ice_sbox g) ->
  exists g' k, IceKey_new g raw n = Ok (g', k) /\ sbox_ok (ice_sbox g') /\
    (ice_sboxes_initialised g = true -> g' = g) /\ ice_sboxes_initialised g' = true /\
    fresh_key k /\ _size k = Z.max n 1 /\ _rounds k = (if n <? 1 then 8 else 16 * n).
Proof.
  intros Hn Hraw Hg. unfold storage_ok in Hraw. apply IceKey_new_ok; [done|done| |].
  - intros H. destruct (Z.ltb_spec n 1); [done|lia].
  - intros H. destruct (Z.ltb_spec n 1); [lia|done].
Qed.

(** C36: round trip.  For every level, every key and whatever the static data and
    the subkey storage hold, the constructor and [set] give a key under which
    [decrypt] undoes [encrypt] and [encrypt] undoes [decrypt] on every block: the
    cipher is a permutation of the blocks of eight bytes. *)
Theorem cipher_roundtrip g raw n key : n < 2 ^ 27 -> storage_ok n raw ->
  ice_sboxes_initialised g = false \/ sbox_ok (ice_sbox g) ->
  8 * Z.max n 1 <= Z.of_nat (length key) ->
  exists g' k0 k, IceKey_new g raw n = Ok (g', k0) /\ set_key k0 key = Ok k /\
    forall b, length b = 8%nat -> Forall is_byte b ->
      (exists c, encrypt (ice_sbox g') k b = Ok c /\ decrypt (ice_sbox g') k c = Ok b) /\
      (exists p, decrypt (ice_sbox g') k b = Ok p /\ encrypt (ice_sbox g') k p = Ok b).
Proof.
  intros Hn Hraw Hg Hkey.
  destruct (IceKey_new_any g raw n Hn Hraw Hg) as (g' & k0 & E & Hs & _ & _ & Hf & Hsz & _).
  destruct (set_key_agree k0 k0 key Hf Hf) as (k & Ek & _ & _ & Hk); [done|done|lia|].
  exists g', k0, k. split; [exact E|]. split; [exact Ek|]. intros b Hl Hb. split.
  - destruct (encrypt_decrypt (ice_sbox g') k b Hs Hk Hl Hb) as (c & Ec & _ & _ & D). eauto.
  - destruct (decrypt_encrypt (ice_sbox g') k b Hs Hk Hl Hb) as (p & Ep & _ & _ & D). eauto.
Qed.

(** The schedule writes every subkey: the key depends on the key bytes and
    the level only, not on what [new IceSubkey\[_rounds\]] found in its storage. *)
Theorem schedule_independent_of_storage g raw raw' n key : n < 2 ^ 27 ->
  storage_ok n raw -> storage_ok n raw' ->
  ice_sboxes_initialised g = false \/ sbox_ok (ice_sbox g) ->
  8 * Z.max n 1 <= Z.of_nat (length key) ->
  exists g1 k1 g2 k2 k, IceKey_new g raw n = Ok (g1, k1) /\ IceKey_new g raw' n = Ok (g2, k2) /\
    set_key k1 key = Ok k /\ set_key k2 key = Ok k /\ key_ok k.
Proof.
  intros Hn Hraw Hraw' Hg Hkey.
  destruct (IceKey_new_any g raw n Hn Hraw Hg) as (g1 & k1 & E1 & _ & _ & _ & Hf1 & Hz1 & Hr1).
  destruct (IceKey_new_any g raw' n Hn Hraw' Hg) as (g2 & k2 & E2 & _ & _ & _ & Hf2 & Hz2 & Hr2).
  destruct (set_key_agree k1 k2 key Hf1 Hf2) as (k & A & B & _ & Hk);
    [by rewrite Hz1, Hz2|by rewrite Hr1, Hr2|lia|].
  exists g1, k1, g2, k2, k. split; [exact E1|]. split; [exact E2|]. split; [exact A|].
  split; [exact B|exact Hk].
Qed.

(** equivalence.  [gf_mult] is multiplication in the field of polynomials
    over GF(2) modulo an irreducible of degree eight: a byte congruent to the
    carry-less product, within 32 rounds of its loop. *)
Theorem gf_mult_is_product a b m : 0 <= a < 256 -> 0 <= b < 256 -> 256 <= m < 512 ->
  exists r, gf_mult a b m = Ok r /\ 0 <= r < 256 /\ gf_eq m r (clmul 32 a b).
Proof. apply gf_mult_ok. Qed.

(** [ice_perm32] moves bit [j] of its argument to the position of the only
    bit of entry [j] of the P-box, for every [j]; no two bits meet. *)
Theorem ice_perm32_permutes x : 0 <= x < 2 ^ 32 ->
  exists r, ice_perm32 x = Ok r /\ 0 <= r < 2 ^ 32 /\
    (forall j, 0 <= j < 32 -> Z.testbit r (pbox_pos j) = Z.testbit x j) /\
    (forall i j, 0 <= i < 32 -> 0 <= j < 32 -> pbox_pos i = pbox_pos j -> i = j).
Proof.
  intros Hx. destruct (ice_perm32_ok x Hx) as (r & E & Hr & Hb). exists r.
  split; [exact E|]. split; [exact Hr|]. split; [exact Hb|]. intros i j Hi Hj Hp.
  assert (forall t, 0 <= t < 32 -> (fun u => u) t = default 0
    (list_find (fun v => v = pbox_pos t) (pbox_pos <$> (Z.of_nat <$> seq 0 32))
       ≫= fun q => Some (Z.of_nat (fst q)))) as Hinv.
  { intros t Ht. assert (Hall : forallb (fun t => bool_decide (Z.of_nat t = default 0
      (list_find (fun v => v = pbox_pos (Z.of_nat t)) (pbox_pos <$> (Z.of_nat <$> seq 0 32))
         ≫= fun q => Some (Z.of_nat (fst q))))) (seq 0 32) = true) by (vm_compute; reflexivity).
    rewrite forallb_forall in Hall. specialize (Hall (Z.to_nat t)).
    rewrite bool_decide_eq_true, Z2Nat.id in Hall by lia. apply Hall, in_seq. lia. }
  rewrite (Hinv i Hi : i = _), (Hinv j Hj : j = _). by rewrite Hp.
Qed.

(** Round trip on payloads of any length, incomplete last block included. *)
Theorem stream_roundtrip sbox k l : sbox_ok sbox -> key_ok k -> Forall is_byte l ->
  exists c, encrypt_stream sbox k l = Ok c /\ length c = length l /\ Forall is_byte c /\
    decrypt_stream sbox k c = Ok l.
Proof. apply encrypt_stream_inverse. Qed.

(** * Witnesses *)

Definition raw_subkeys : list IceSubkey := replicate 16 (mkIceSubkey [4; 5; 6]).
Definition dead_key : list Z := [0xde; 0xad; 0xbe; 0xef; 0x01; 0x23; 0x45; 0x67].

Lemma cipher_roundtrip_witness : exists g' k0 k,
  IceKey_new ice_statics0 raw_subkeys 1 = Ok (g', k0) /\ set_key k0 dead_key = Ok k /\
  exists c, encrypt (ice_sbox g') k [1; 2; 3; 4; 5; 6; 7; 255] = Ok c /\
    decrypt (ice_sbox g') k c = Ok [1; 2; 3; 4; 5; 6; 7; 255].
Proof.
  destruct (cipher_roundtrip ice_statics0 raw_subkeys 1 dead_key) as (g' & k0 & k & E & Ek & H).
  - lia.
  - reflexivity.
  - left. reflexivity.
  - apply Z.leb_le. reflexivity.
  - exists g', k0, k. split; [exact E|]. split; [exact Ek|].
    apply (H [1; 2; 3; 4; 5; 6; 7; 255]); [reflexivity|].
    repeat constructor; unfold is_byte; lia.
Defined.

Lemma schedule_independent_of_storage_witness : exists g1 k1 g2 k2 k,
  IceKey_new ice_statics0 raw_subkeys 1 = Ok (g1, k1) /\
  IceKey_new ice_statics0 (replicate 16 (mkIceSubkey [])) 1 = Ok (g2, k2) /\
  set_key k1 dead_key = Ok k /\ set_key k2 dead_key = Ok k /\ key_ok k.
Proof.
  apply schedule_independent_of_storage.
  - lia.
  - reflexivity.
  - reflexivity.
  - left. reflexivity.
  - apply Z.leb_le. reflexivity.
Defined.

Lemma gf_mult_is_product_witness : exists r, gf_mult 0x57 0x83 333 = Ok r /\ 0 <= r < 256 /\
  gf_eq 333 r (clmul 32 0x57 0x83).
Proof. apply gf_mult_is_product; lia. Defined.

Lemma ice_perm32_permutes_witness : exists r, ice_perm32 0xdeadbeef = Ok r /\
  0 <= r < 2 ^ 32 /\ (forall j, 0 <= j < 32 -> Z.testbit r (pbox_pos j) = Z.testbit 0xdeadbeef j) /\
  (forall i j, 0 <= i < 32 -> 0 <= j < 32 -> pbox_pos i = pbox_pos j -> i = j).
Proof. apply ice_perm32_permutes. lia. Defined.

(** Eleven bytes: one block and three bytes in the clear. *)
Lemma stream_roundtrip_witness : exists g' k0 k c,
  IceKey_new ice_statics0 raw_subkeys 1 = Ok (g', k0) /\ set_key k0 dead_key = Ok k /\
  encrypt_stream (ice_sbox g') k [1; 2; 3; 4; 5; 6; 7; 8; 9; 10; 11] = Ok c /\
  decrypt_stream (ice_sbox g') k c = Ok [1; 2; 3; 4; 5; 6; 7; 8; 9; 10; 11].
Proof.
  destruct (IceKey_new_any ice_statics0 raw_subkeys 1) as (g' & k0 & E & Hs & _ & _ & Hf & Hsz & _);
    [lia|reflexivity|left; reflexivity|].
  destruct (set_key_agree k0 k0 dead_key Hf Hf) as (k & Ek & _ & _ & Hk);
    [reflexivity|reflexivity|rewrite Hsz; apply Z.leb_le; reflexivity|].
  destruct (stream_roundtrip (ice_sbox g') k [1; 2; 3; 4; 5; 6; 7; 8; 9; 10; 11])
    as (c & Ec & _ & _ & D).
  - exact Hs.
  - exact Hk.
  - repeat constructor; unfold is_byte; lia.
  - exists g', k0, k, c. split; [exact E|]. split; [exact Ek|]. split; [exact Ec|exact D].
Defined.
