(* ===== verification/Tins.v ===== *)
(** The protocol headers the handler looks at: the inline accessors of
    src/tins/pdu.h, ip.h, udp.h, rawpdu.h and endianness.h.  A captured packet
    is the chain of its protocol data units, outermost first; the dissection
    that builds the chain is in the compiled libtins, not in the repository. *)

From S2P Require Import Prelude.

(** The fields of the packed header structs, as they are stored. *)
Record iphdr := mkiphdr {
  ip_version : Z;
  ip_id : Z;
  ip_saddr : Z;
  ip_daddr : Z
}.

Record udphdr := mkudphdr {
  udp_sport : Z;
  udp_dport : Z;
  udp_len : Z;
  udp_check : Z
}.

Inductive PDUType :=
  | RAW
  | IP
  | UDP
  | OTHER_PDU (n : Z).

#[export] Instance PDUType_eq_dec : EqDecision PDUType.
Proof. solve_decision. Defined.

Inductive PDU :=
  | PDU_IP (h : iphdr)
  | PDU_UDP (h : udphdr)
  | PDU_Raw (payload : list Z)
  | PDU_other (n : Z).

Definition pdu_type (p : PDU) : PDUType :=
  match p with
  | PDU_IP _ => IP
  | PDU_UDP _ => UDP
  | PDU_Raw _ => RAW
  | PDU_other n => OTHER_PDU n
  end.

(** [PDU::matches_flag], the version no class of the chain overrides. *)
Definition matches_flag (p : PDU) (flag : PDUType) : bool :=
  bool_decide (flag = pdu_type p).

(** [PDU::find_pdu]: the first unit of the chain whose type matches. *)
Fixpoint find_pdu (type : PDUType) (pdu : list PDU) : option PDU :=
  match pdu with
  | [] => None
  | p :: inner_pdu => if matches_flag p type then Some p else find_pdu type inner_pdu
  end.

(** The [static_cast] of the three instances the handler uses. *)
Definition find_IP (eth : list PDU) : option iphdr :=
  match find_pdu IP eth with Some (PDU_IP h) => Some h | _ => None end.
Definition find_UDP (eth : list PDU) : option udphdr :=
  match find_pdu UDP eth with Some (PDU_UDP h) => Some h | _ => None end.
Definition find_Raw (eth : list PDU) : option (list Z) :=
  match find_pdu RAW eth with Some (PDU_Raw l) => Some l | _ => None end.

(** [Endian::do_change_endian]; on this platform [be_to_host] is this swap. *)
Definition do_change_endian16 (data : Z) : Z :=
  Z.lor (Z.shiftr (Z.land data 0xff00) 8) (u16 (Z.shiftl (Z.land data 0x00ff) 8)).
Definition do_change_endian32 (data : Z) : Z :=
  Z.lor
    (Z.lor (Z.shiftr (Z.land data 0xff000000) 24) (Z.shiftr (Z.land data 0x00ff0000) 8))
    (Z.lor (u32 (Z.shiftl (Z.land data 0x0000ff00) 8))
       (u32 (Z.shiftl (Z.land data 0x000000ff) 24))).
Definition do_change_endian64 (data : Z) : Z :=
  Z.lor (u64 (Z.shiftl (do_change_endian32 (Z.land data 0xffffffff)) 32))
    (do_change_endian32 (u32 (Z.shiftr data 32))).

(** Accessors. *)
Definition sport (h : udphdr) : Z := do_change_endian16 (udp_sport h).
Definition dport (h : udphdr) : Z := do_change_endian16 (udp_dport h).
Definition length_ (h : udphdr) : Z := do_change_endian16 (udp_len h).
Definition checksum (h : udphdr) : Z := do_change_endian16 (udp_check h).
Definition id (h : iphdr) : Z := do_change_endian16 (ip_id h).
Definition version (h : iphdr) : Z := ip_version h.
Definition src_addr (h : iphdr) : Z := ip_saddr h.
Definition dst_addr (h : iphdr) : Z := ip_daddr h.
Definition payload_size (payload : list Z) : Z := u32 (Z.of_nat (length payload)).

(** * Facts *)

Lemma change_endian16_bits x :
  do_change_endian16 x = Z.lor (bits x 8 8) (Z.shiftl (bits x 0 8) 8).
Proof.
  unfold do_change_endian16.
  change 0xff00 with (Z.shiftl (Z.ones 8) 8). change 0x00ff with (Z.ones 8). zbits.
Qed.

Lemma change_endian16_invol x : 0 <= x < 2 ^ 16 ->
  do_change_endian16 (do_change_endian16 x) = x.
Proof.
  intros Hx. rewrite !change_endian16_bits.
  assert (bits (Z.lor (bits x 8 8) (Z.shiftl (bits x 0 8) 8)) 8 8 = bits x 0 8) as -> by zbits.
  assert (bits (Z.lor (bits x 8 8) (Z.shiftl (bits x 0 8) 8)) 0 8 = bits x 8 8) as -> by zbits.
  transitivity (bits x 0 (8 + 8)); [symmetry; by apply bits_app|].
  unfold bits. rewrite Z.shiftr_0_r, Z.land_ones by lia. by apply Z.mod_small.
Qed.

Lemma find_pdu_type t l p : find_pdu t l = Some p -> pdu_type p = t /\ p ∈ l.
Proof.
  induction l as [|q l IH]; simpl; [done|]. unfold matches_flag.
  case_bool_decide as E; intros H.
  - injection H as <-. split; [done|]. left.
  - destruct (IH H). split; [done|]. by right.
Qed.

Lemma find_pdu_first t l1 p l2 : pdu_type p = t ->
  Forall (fun q => pdu_type q <> t) l1 -> find_pdu t (l1 ++ p :: l2) = Some p.
Proof.
  intros Hp. induction 1 as [|q l1 Hq _ IH]; simpl; unfold matches_flag.
  - by rewrite bool_decide_eq_true_2.
  - by rewrite bool_decide_eq_false_2.
Qed.
