(* ===== verification/Sniffles.v ===== *)
(** The program itself: src/Sniffles/sniffles.cpp.  [ReadPacket] walks the
    messages of one decrypted packet; [packet_loop_handler] filters, decrypts
    and unwraps one captured packet.  The parser of the message bodies enters
    through the [MessageParser] interface. *)

From S2P Require Import Prelude CMem BitRead Ice Tins.

(** * Messages *)

(** Message identifiers: enums NET_Messages and SVC_Messages of
    src/generated_proto/netmessages_public.pb.h. *)
Definition net_Tick : Z := 4.
Definition net_SignonState : Z := 7.
Definition svc_ServerInfo : Z := 8.
Definition svc_PacketEntities : Z := 26.

(** What the message classes promise.  [ParseFromArray k m p n] is
    [msg.ParseFromArray(p, n)] of the class of identifier [k] in memory [m];
    [decode] is its meaning on the bytes of the array. *)
Class MessageParser (Msg : Type) := {
  ParseFromArray : Z -> mem -> Z -> Z -> result (option Msg);
  decode : Z -> list Z -> option Msg
}.

(** A parse of an array that lies in memory depends on its bytes only. *)
Class ParserLaws (Msg : Type) `{MessageParser Msg} : Prop :=
  parse_bytes : forall k m p bs, Forall is_byte bs -> holds m p bs ->
    0 < p -> p + Z.of_nat (length bs) < 2 ^ 32 -> Z.of_nat (length bs) < 2 ^ 26 ->
    ParseFromArray k m p (Z.of_nat (length bs)) = Ok (decode k bs).

(** * Output *)

(** What is printed, with the arguments of the format. *)
Inductive event (Msg : Type) :=
  | OPacket (id : Z)
  | OVersion (v : Z)
  | OSrcAddr (addr port : Z)
  | ODstAddr (addr port : Z)
  | OPayloadSize (n : Z)
  | ODeltaOffset (n : Z)
  | ODataFinalSize (n : Z)
  | OMsg (k : Z) (size : Z) (msg : Msg).
Arguments OPacket {_} _.
Arguments OVersion {_} _.
Arguments OSrcAddr {_} _ _.
Arguments ODstAddr {_} _ _.
Arguments OPayloadSize {_} _.
Arguments ODeltaOffset {_} _.
Arguments ODataFinalSize {_} _.
Arguments OMsg {_} _ _ _.

Definition NET_MAX_PAYLOAD : Z := 262144 - 4.

(** [memcpy(dst, src, n)] into an object of [cap] bytes, from the array [src]. *)
Definition memcpy_to (m : mem) (dst cap : Z) (src : list Z) (n : Z) : result mem :=
  if cap <? n then Fault (OutOfBounds (dst + cap))
  else if Z.of_nat (length src) <? n then Fault (OutOfBounds n)
  else Ok (blit m dst (take (Z.to_nat n) src)).

(** The stack frame of [ReadPacket]: the memory below it, the address of the
    array [data], and the storage of [buf] before its constructor. *)
Record frame := mkframe {
  fr_mem : mem;
  fr_data : Z;
  fr_buf : CBitRead
}.

Section Packet.
Context {Msg : Type} `{MessageParser Msg}.

(** [if (msg.ParseFromArray(parseBuffer, bufferSize)) MsgPrintf(...)]. *)
Definition parse_and_print (k : Z) (m : mem) (parseBuffer bufferSize : Z)
    : result (list (event Msg)) :=
  r ← ParseFromArray k m parseBuffer (s32 bufferSize);
  Ok (match r with Some msg => [OMsg k (s32 bufferSize) msg] | None => [] end).

(** The [switch]. *)
Definition dispatch (m : mem) (Cmd parseBuffer bufferSize : Z) : result (list (event Msg)) :=
  if Cmd =? net_Tick then parse_and_print net_Tick m parseBuffer bufferSize
  else if Cmd =? net_SignonState then
    parse_and_print net_SignonState m parseBuffer bufferSize
  else if Cmd =? svc_ServerInfo then
    parse_and_print svc_ServerInfo m parseBuffer bufferSize
  else if Cmd =? svc_PacketEntities then
    parse_and_print svc_PacketEntities m parseBuffer bufferSize
  else Ok [].

(** One round of the [while]; the local is what was printed so far. *)
Definition ReadPacket_body (m : mem) (size : Z) (out : list (event Msg))
    : ST CBitRead (list (event Msg) + list (event Msg)) :=
  buf ← st_get;
  if GetNumBytesRead buf <? size then
    Cmd ← ReadVarInt32 m;
    Size ← ReadVarInt32 m;
    let Cmd := s32 Cmd in
    let Size := s32 Size in
    buf ← st_get;
    let parseBuffer := u32 (s32 (GetBasePointer buf) + GetNumBytesRead buf) in
    let bufferSize := u32 Size in
    e ← st_lift (dispatch m Cmd parseBuffer bufferSize);
    SeekRelative m (s32 (Size * 8));;
    mret (inl (out ++ e))
  else mret (inr out).

(** [!nFlags || ((unsigned char)nFlags) >= 0xE1u]. *)
Definition flags_pass (nFlags : Z) : bool :=
  (nFlags =? 0) || (0xE1 <=? u8 nFlags).

(** The part of [ReadPacket] behind the copy: the header, then the messages. *)
Definition ReadPacket_data (fuel : nat) (m : mem) (size : Z)
    : ST CBitRead (list (event Msg)) :=
  Seek m 0;;
  nSeqNrIn ← ReadSBitLong m 32;
  nSeqNrOut ← ReadSBitLong m 32;
  nFlags ← ReadVarInt32 m;
  unk0 ← ReadSBitLong m 16;
  unk1 ← ReadSignedVarInt32 m;
  if flags_pass (s32 nFlags) then st_loop fuel (ReadPacket_body m size) []
  else mret [].

(** [fuel] bounds the rounds of the [while]. *)
Definition ReadPacket (fuel : nat) (fr : frame) (packetData : list Z) (size : Z)
    : result (Z * list (event Msg)) :=
  if size <? 8 then Ok (size, [])
  else
    buf ← CBitRead_new (fr_mem fr) (fr_buf fr) (fr_data fr) NET_MAX_PAYLOAD (-1);
    m ← memcpy_to (fr_mem fr) (GetBasePointer buf) NET_MAX_PAYLOAD packetData size;
    r ← ReadPacket_data fuel m size buf;
    Ok (size, fst r).
End Packet.

(** * The handler *)

Definition g_iceKey : list Z :=
  [0x43; 0x53; 0x47; 0x4F; 0xCC; 0x34; 0x00; 0x00;
   0x33; 0x0D; 0x00; 0x00; 0x4C; 0x03; 0x00; 0x00].

(** The process: live heap blocks, the number of the next allocation, the static
    data of ice.cpp, and the output. *)
Record world (Msg : Type) := mkworld {
  w_heap : gmap nat (list Z);
  w_next : nat;
  w_ice : IceStatics;
  w_out : list (event Msg)
}.
Arguments mkworld {_} _ _ _ _.
Arguments w_heap {_} _.
Arguments w_next {_} _.
Arguments w_ice {_} _.
Arguments w_out {_} _.

(** [_byteswap_ulong] of the C run-time library. *)
Definition _byteswap_ulong (x : Z) : Z :=
  le_join [bits x 24 8; bits x 16 8; bits x 8 8; bits x 0 8].

Section Handler.
Context {Msg : Type} `{MessageParser Msg}.

(** What [malloc] does on its [i]-th call: it fails, or finds a block with
    arbitrary contents. *)
Variable heap_oracle : nat -> option (nat -> Z).

Definition malloc (size : Z) : ST (world Msg) (option nat) := fun w =>
  match heap_oracle (w_next w) with
  | None => Ok (None, mkworld (w_heap w) (S (w_next w)) (w_ice w) (w_out w))
  | Some junk =>
      Ok (Some (w_next w),
          mkworld (<[w_next w := junk <$> seq 0 (Z.to_nat size)]> (w_heap w))
            (S (w_next w)) (w_ice w) (w_out w))
  end.

Definition free (p : nat) : ST (world Msg) unit :=
  st_modify (fun w => mkworld (delete p (w_heap w)) (w_next w) (w_ice w) (w_out w)).

Definition print (l : list (event Msg)) : ST (world Msg) unit :=
  st_modify (fun w => mkworld (w_heap w) (w_next w) (w_ice w) (w_out w ++ l)).

(** The contents of the block a pointer refers to. *)
Definition deref (p : option nat) : ST (world Msg) (list Z) := fun w =>
  match p with
  | None => Fault NullDeref
  | Some b => match w_heap w !! b with
              | Some l => Ok (l, w)
              | None => Fault (OutOfBounds (Z.of_nat b))
              end
  end.

Definition update (p : option nat) (l : list Z) : ST (world Msg) unit := fun w =>
  match p with
  | None => Fault NullDeref
  | Some b => Ok (tt, mkworld (<[b := l]> (w_heap w)) (w_next w) (w_ice w) (w_out w))
  end.

(** One round of the block loop; the locals are [bytesLeft] and the common
    offset of [p1] and [p2]. *)
Definition decrypt_loop_body (sbox : list (list Z)) (ice : IceKey) (payload : list Z)
    (pDataOut : option nat) (l : Z * Z) : ST (world Msg) (Z * Z + Z * Z) :=
  let '(bytesLeft, off) := l in
  if blockSize ice <=? bytesLeft then
    blk ← st_lift (decrypt sbox ice (drop (Z.to_nat off) payload));
    o ← deref pDataOut;
    o ← st_lift (store_at o off blk);
    update pDataOut o;;
    mret (inl (s32 (bytesLeft - blockSize ice), off + blockSize ice))
  else mret (inr (bytesLeft, off)).

(** The block loop and the copy of what is behind the last whole block; every
    round takes eight bytes. *)
Definition decrypt_payload (sbox : list (list Z)) (ice : IceKey) (payload : list Z)
    (pDataOut : option nat) (size : Z) : ST (world Msg) unit :=
  l ← st_loop (S (Z.to_nat size)) (decrypt_loop_body sbox ice payload pDataOut)
        (s32 size, 0);
  let '(bytesLeft, off) := l : Z * Z in
  (* the end chunk doesn't get an encryption *)
  tl ← st_lift (fetch_at payload off bytesLeft);
  if bytesLeft =? 0 then mret tt
  else
    o ← deref pDataOut;
    o ← st_lift (store_at o off tl);
    update pDataOut o.

(** From [if (deltaOffset > 0 ...)] on: the inner packet. *)
Definition unwrap (fuel : nat) (fr : frame) (size : Z) (pDataOut : option nat)
    (o : list Z) (deltaOffset : Z) : ST (world Msg) unit :=
  if (0 <? deltaOffset) && (u32 (deltaOffset + 5) <? size) then
    d ← st_lift (fetch_at o (deltaOffset + 1) 4);
    let dataFinalSize := _byteswap_ulong (le_join d) in
    print [ODataFinalSize (s32 dataFinalSize)];;
    if u32 (u32 (dataFinalSize + deltaOffset) + 5) =? size then
      packetData ← malloc dataFinalSize;
      src ← st_lift (fetch_at o (deltaOffset + 5) dataFinalSize);
      (if dataFinalSize =? 0 then mret tt else update packetData src);;
      (match pDataOut with Some p => free p | None => mret tt end);;
      match packetData with
      | Some p =>
          l ← deref packetData;
          r ← st_lift (ReadPacket fuel fr l (s32 dataFinalSize));
          print (snd r);;
          free p
      | None => mret tt
      end
    else mret tt
  else mret tt.

(** The decryption of a payload and the inner packet. [subkeys] is what
    [new IceSubkey[32]] finds in its storage. *)
Definition handle_payload (fuel : nat) (fr : frame) (subkeys : list IceSubkey)
    (payload : list Z) : ST (world Msg) unit :=
  let size := payload_size payload in
  print [OPayloadSize (s32 size)];;
  w ← st_get;
  r ← st_lift (IceKey_new (w_ice w) subkeys 2);
  let '(g, ice) := r : IceStatics * IceKey in
  st_modify (fun w => mkworld (w_heap w) (w_next w) g (w_out w));;
  ice ← st_lift (set_key ice g_iceKey);
  pDataOut ← malloc size;
  decrypt_payload (ice_sbox g) ice payload pDataOut size;;
  o ← deref pDataOut;
  deltaOffset ← st_lift (tbl o 0);
  print [ODeltaOffset deltaOffset];;
  unwrap fuel fr size pDataOut o deltaOffset.

(** [packet_loop_handler]; its result 1 asks the sniffer for the next packet. *)
Definition packet_loop_handler (fuel : nat) (fr : frame) (subkeys : list IceSubkey)
    (eth : list PDU) : ST (world Msg) bool :=
  match find_IP eth with
  | None => mret true
  | Some ip =>
      match find_UDP eth with
      | None => mret true
      | Some udp =>
          if sport udp =? 27015 then
            print [OPacket (id ip); OVersion (version ip);
                   OSrcAddr (src_addr ip) (dport udp);
                   ODstAddr (dst_addr ip) (dport udp)];;
            match find_Raw eth with
            | None => st_fault NullDeref
            | Some payload => handle_payload fuel fr subkeys payload;; mret true
            end
          else mret true
      end
  end.
End Handler.
