(* ===== verification/Walk.v ===== *)
(** The walk over the messages of a packet, as [ReadPacket] makes it, on the
    cursor of [BitStream]: one round, the header, and the refinement of the
    code's loop by the abstract one, faults included. *)

From S2P Require Import Prelude CMem BitRead BitStream BitOps Sniffles.

(** Two runs give the same value, in related states, or the same fault. *)
Definition same_run {A} (R : cursor -> CBitRead -> Prop)
    (r : result (A * CBitRead)) (r' : result (A * cursor)) : Prop :=
  match r, r' with
  | Ok (a, s), Ok (a', c) => a = a' /\ R c s
  | Fault f, Fault f' => f = f'
  | _, _ => False
  end.

(** The cursor is between two bytes, or past the end. *)
Definition aligned (c : cursor) : Prop :=
  match c with At p => p mod 8 = 0 | Over => True end.

(** Where the cursor of a stream of [total] bits goes when it is asked for bit [n]. *)
Definition abs_seek (total n : Z) : cursor :=
  if (0 <=? n) && (n <=? total) then At n else Over.

Section AbsWalk.
Context {Msg : Type} `{MessageParser Msg}.
Context (m : mem) (base B total size : Z).

Definition abs_varint32 : cursor -> Z * cursor := abs_varint 32 B total 5 0 0.

Definition abs_bytes_read (c : cursor) : Z := (abs_tell total c + 7) / 8.

(** The identifier and the length of the message at a cursor, and the cursor
    of its body. *)
Definition abs_header (c : cursor) : Z * Z * cursor :=
  let '(Cmd, c1) := abs_varint32 c in
  let '(Size, c2) := abs_varint32 c1 in
  (s32 Cmd, s32 Size, c2).

(** The cursor of the message behind. *)
Definition abs_next (c : cursor) : cursor :=
  let '(_, Size, c2) := abs_header c in
  abs_seek total (s32 (abs_tell total c2 + s32 (Size * 8))).

Definition abs_message (out : list (event Msg))
    : ST cursor (list (event Msg) + list (event Msg)) := fun c =>
  if abs_bytes_read c <? size then
    let '(Cmd, Size, c2) := abs_header c in
    match dispatch m Cmd (u32 (base + abs_bytes_read c2)) (u32 Size) with
    | Ok e => Ok (inl (out ++ e), abs_next c)
    | Fault f => Fault f
    end
  else Ok (inr out, c).

(** The cursor of the first message and the flags. *)
Definition abs_packet_header : Z * cursor :=
  let '(_, c1) := abs_read B total 32 (At 0) in
  let '(_, c2) := abs_read B total 32 c1 in
  let '(nFlags, c3) := abs_varint32 c2 in
  let '(_, c4) := abs_read B total 16 c3 in
  let '(_, c5) := abs_varint32 c4 in
  (s32 nFlags, c5).

Definition abs_packet (fuel : nat) : result (list (event Msg)) :=
  let '(nFlags, c) := abs_packet_header in
  if flags_pass nFlags then fst <$> st_loop fuel abs_message [] c else Ok [].
End AbsWalk.

Lemma st_loop_same {L A} R (body : L -> ST CBitRead (L + A)) (abs : L -> ST cursor (L + A)) P :
  (forall l c s, P c -> R c s -> same_run R (body l s) (abs l c) /\
     (forall r c', abs l c = Ok (r, c') -> P c')) ->
  forall n l c s, P c -> R c s -> same_run R (st_loop n body l s) (st_loop n abs l c).
Proof.
  intros Hb. induction n as [|n IH]; intros l c s HP HR; [done|].
  destruct (Hb l c s HP HR) as [Hs Hc]. cbn [st_loop]. unfold mbind, ST_bind.
  destruct (body l s) as [[r s']|f], (abs l c) as [[r' c']|f']; simpl in Hs; try done.
  destruct Hs as [<- HR']. specialize (Hc r c' eq_refl).
  destruct r as [l'|a]; [by apply IH|]. by split.
Qed.

Lemma same_run_fst {A} R (r : result (A * CBitRead)) (r' : result (A * cursor)) :
  same_run R r r' -> fst <$> r = fst <$> r'.
Proof.
  destruct r as [[a s]|f], r' as [[a' c]|f']; simpl; try done; [by intros [-> _]|by intros ->].
Qed.

Lemma swrap_mod8 z : swrap 32 z mod 8 = z mod 8.
Proof.
  unfold swrap. change (2 ^ 32) with 4294967296. change (2 ^ (32 - 1)) with 2147483648.
  destruct (_ <? _); Z.to_euclidean_division_equations; lia.
Qed.

(** A variable-length integer that has room moves the cursor by whole bytes. *)
Lemma abs_varint_fits w B total n s acc p : (0 < n)%nat ->
  p + 8 * Z.of_nat n <= total ->
  exists v k, abs_varint w B total n s acc (At p) = (v, At (p + 8 * k)) /\
    1 <= k <= Z.of_nat n.
Proof.
  revert s acc p. induction n as [|n IH]; intros s acc p Hn Hp; [lia|].
  cbn [abs_varint abs_read]. destruct (Z.leb_spec (p + 8) total); [|lia].
  set (acc' := Z.lor acc _). destruct (Z.land _ 128 =? 0).
  - exists acc', 1. split; [do 2 f_equal; lia|lia].
  - destruct n as [|n].
    + exists acc', 1. split; [simpl; do 2 f_equal; lia|lia].
    + destruct (IH (s + 7) acc' (p + 8)) as (v & k & E & Hk); [lia|lia|].
      exists v, (k + 1). rewrite E. split; [do 2 f_equal; lia|lia].
Qed.

Section Refine.
Context {Msg : Type} `{MessageParser Msg}.
Context (m : mem) (base : Z) (l : list Z) (Hbuf : buffer_ok m base l).

Let len : Z := Z.of_nat (length l).
Let B : Z := le_join l.
Let total : Z := 8 * len.

Lemma SeekRelative_sim n p s : Rep base l (At p) s ->
  exists b s', SeekRelative m n s = Ok (b, s') /\
    Rep base l (abs_seek total (s32 (p + n))) s'.
Proof.
  intros Hr. unfold SeekRelative. st_run.
  rewrite (GetNumBitsRead_sim m base l Hbuf (At p) s Hr). cbn [abs_tell].
  destruct (Seek_sim m base l Hbuf (s32 (p + n)) p s Hr) as (s' & E & Hr').
  rewrite E. do 2 eexists. split; [reflexivity|].
  unfold abs_seek, in_range in *. unfold total, len. by destruct (_ && _).
Qed.

(** The identifier and length fields lie in the array when the packet leaves
    ten bytes of it free. *)
Lemma abs_header_fits p size : p mod 8 = 0 -> 0 <= p -> (p + 7) / 8 < size ->
  size + 10 <= len ->
  exists Cmd Size k, abs_header B total (At p) = (Cmd, Size, At (p + 8 * k)) /\
    2 <= k <= 10.
Proof.
  intros Hm Hp Hs Hl. unfold abs_header, abs_varint32.
  assert (p + 80 <= total) by (unfold total; Z.to_euclidean_division_equations; lia).
  destruct (abs_varint_fits 32 B total 5 0 0 p) as (v1 & k1 & E1 & H1); [lia|lia|].
  rewrite E1.
  destruct (abs_varint_fits 32 B total 5 0 0 (p + 8 * k1)) as (v2 & k2 & E2 & H2); [lia|lia|].
  rewrite E2. exists (s32 v1), (s32 v2), (k1 + k2). split; [do 2 f_equal; lia|lia].
Qed.

Lemma ReadPacket_body_same size out c s : size + 10 <= len -> aligned c ->
  Rep base l c s ->
  same_run (Rep base l) (ReadPacket_body m size out s)
    (abs_message m base B total size out c) /\
  (forall r c', abs_message m base B total size out c = Ok (r, c') -> aligned c').
Proof.
  intros Hsz Ha Hr. unfold ReadPacket_body, abs_message, abs_bytes_read.
  rewrite (st_bind_ok _ _ _ s s) by done.
  rewrite (GetNumBytesRead_sim m base l Hbuf c s Hr). fold len total.
  destruct (Z.ltb_spec ((abs_tell total c + 7) / 8) size) as [Hlt|Hge].
  2: { split; [by split|]. intros r c' [= <- <-]. done. }
  destruct c as [p|]; cbn [abs_tell] in *.
  2: { exfalso. unfold total in Hlt. Z.to_euclidean_division_equations; lia. }
  assert (0 <= p) as Hp.
  { destruct Hr as [_ [_ [(o & _ & _ & _ & _ & _ & Hp & _)|(-> & _)]]]; lia. }
  destruct (abs_header_fits p size Ha Hp Hlt Hsz) as (Cmd & Size & k & Eh & Hk).
  destruct (varint32_sim m base l Hbuf (At p) s Hr) as (s1 & E1 & Hr1).
  destruct (varint32_sim m base l Hbuf _ s1 Hr1) as (s2 & E2 & Hr2).
  unfold abs_next. rewrite Eh. unfold abs_header, abs_varint32 in Eh.
  fold B len total in E1, E2, Hr1, Hr2.
  destruct (abs_varint 32 B total 5 0 0 (At p)) as [v1 c1]. cbn [fst snd] in *.
  destruct (abs_varint 32 B total 5 0 0 c1) as [v2 c2]. cbn [fst snd] in *.
  injection Eh as <- <- ->.
  rewrite (st_bind_ok _ _ _ _ _ E1), (st_bind_ok _ _ _ _ _ E2). cbv zeta.
  rewrite (st_bind_ok _ _ _ s2 s2) by done.
  rewrite (GetNumBytesRead_sim m base l Hbuf _ s2 Hr2). fold len total. cbn [abs_tell].
  assert (u32 (s32 (GetBasePointer s2) + (p + 8 * k + 7) / 8)
          = u32 (base + (p + 8 * k + 7) / 8)) as ->.
  { unfold GetBasePointer. destruct Hr2 as [(-> & _) _]. unfold uwrap. rewrite <- Zplus_mod_idemp_l.
    change (s32 base mod 2 ^ 32) with (u32 (s32 base)). rewrite uwrap_swrap by lia.
    unfold uwrap. by rewrite Zplus_mod_idemp_l. }
  unfold st_lift at 1.
  destruct (dispatch m (s32 v1) _ _) as [e|f] eqn:Ed.
  - rewrite (st_bind_ok _ _ _ e s2) by done.
    destruct (SeekRelative_sim (s32 (s32 v2 * 8)) (p + 8 * k) s2 Hr2)
      as (b & s3 & E3 & Hr3).
    rewrite (st_bind_ok _ _ _ _ _ E3). split; [by split|].
    intros r c' [= <- <-]. unfold abs_seek. destruct (_ && _); [|done].
    cbn [aligned]. rewrite swrap_mod8, <- Zplus_mod_idemp_r, swrap_mod8.
    cbn [aligned] in Ha. Z.to_euclidean_division_equations; lia.
  - split; [|done]. by rewrite (st_bind_fault _ _ _ f).
Qed.

(** The loop of the code is the abstract loop, round by round. *)
Lemma ReadPacket_loop_same size fuel out c s : size + 10 <= len -> aligned c ->
  Rep base l c s ->
  same_run (Rep base l) (st_loop fuel (ReadPacket_body m size) out s)
    (st_loop fuel (abs_message m base B total size) out c).
Proof.
  intros Hsz. apply (st_loop_same (Rep base l) _ _ aligned).
  intros o c' s' Ha Hr. by apply ReadPacket_body_same.
Qed.

Lemma packet_header_fits : 22 <= len ->
  exists nFlags k, abs_packet_header B total = (nFlags, At (8 * k)) /\ 12 <= k <= 20.
Proof.
  intros Hl. unfold abs_packet_header, abs_varint32. cbn [abs_read].
  destruct (Z.leb_spec (0 + 32) total); [|unfold total in *; lia]. cbn [abs_read].
  destruct (Z.leb_spec (0 + 32 + 32) total); [|unfold total in *; lia].
  destruct (abs_varint_fits 32 B total 5 0 0 (0 + 32 + 32)) as (v1 & k1 & E1 & Hk1);
    [lia|unfold total; lia|]. rewrite E1. cbn [abs_read].
  destruct (Z.leb_spec (0 + 32 + 32 + 8 * k1 + 16) total); [|unfold total in *; lia].
  destruct (abs_varint_fits 32 B total 5 0 0 (0 + 32 + 32 + 8 * k1 + 16))
    as (v2 & k2 & E2 & Hk2); [lia|unfold total; lia|]. rewrite E2.
  exists (s32 v1), (10 + k1 + k2). split; [do 2 f_equal; lia|lia].
Qed.

Lemma ReadPacket_data_same size fuel s : 22 <= len -> size + 10 <= len ->
  framed base l s -> m_bOverflow s = false ->
  fst <$> ReadPacket_data fuel m size s = abs_packet m base B total size fuel.
Proof.
  intros Hl Hsz Hf Ho. unfold ReadPacket_data.
  destruct (Seek_ok m base l Hbuf 0 s Hf) as (s0 & E0 & Hf0 & Ho0 & Hl0).
  assert (in_range l 0 = true) as Hin.
  { unfold in_range. rewrite andb_true_iff, !Z.leb_le. fold len. lia. }
  unfold seek_target in Hl0. rewrite Hin in Hl0, Ho0. rewrite Ho in Ho0.
  assert (Rep base l (At 0) s0) as Hr0 by (by split).
  rewrite (st_bind_ok _ _ _ _ _ E0).
  destruct (sbit_sim m base l Hbuf 32 ltac:(lia) _ s0 Hr0) as (s1 & E1 & Hr1).
  rewrite (st_bind_ok _ _ _ _ _ E1).
  destruct (sbit_sim m base l Hbuf 32 ltac:(lia) _ s1 Hr1) as (s2 & E2 & Hr2).
  rewrite (st_bind_ok _ _ _ _ _ E2).
  destruct (varint32_sim m base l Hbuf _ s2 Hr2) as (s3 & E3 & Hr3).
  rewrite (st_bind_ok _ _ _ _ _ E3).
  destruct (sbit_sim m base l Hbuf 16 ltac:(lia) _ s3 Hr3) as (s4 & E4 & Hr4).
  rewrite (st_bind_ok _ _ _ _ _ E4).
  destruct (varint32_sim m base l Hbuf _ s4 Hr4) as (s5 & E5 & Hr5).
  unfold ReadSignedVarInt32.
  rewrite (st_bind_ok _ _ _ _ _ (st_bind_ok _ _ _ _ _ E5)).
  destruct packet_header_fits as (nf & k & Eh & Hk); [done|].
  unfold abs_packet. rewrite Eh. unfold abs_packet_header, abs_varint32 in Eh.
  fold B len total. fold B len total in Hr5. clear E1 E2 E3 E4 E5 Hr1 Hr2 Hr3 Hr4 Hr0.
  destruct (abs_read B total 32 (At 0)) as [a1 c1].
  cbn [fst snd] in *.
  destruct (abs_read B total 32 c1) as [a2 c2]. cbn [fst snd] in *.
  destruct (abs_varint 32 B total 5 0 0 c2) as [a3 c3]. cbn [fst snd] in *.
  destruct (abs_read B total 16 c3) as [a4 c4]. cbn [fst snd] in *.
  destruct (abs_varint 32 B total 5 0 0 c4) as [a5 c5]. cbn [fst snd] in *.
  injection Eh as <- ->.
  destruct (flags_pass (s32 a3)); [|done].
  apply (same_run_fst (Rep base l)), ReadPacket_loop_same; [done| |done].
  cbn [aligned]. rewrite Z.mul_comm. by apply Z.mod_mul.
Qed.
End Refine.
