(* ===== verification/Packets.v ===== *)
(** What a game server sends, and what [ReadPacket] makes of it: the wire format
    of a packet, the messages it stands for, and the runs of the walk on well
    formed and on hostile packets. *)

From S2P Require Import Prelude CMem BitRead BitStream BitOps Sniffles Walk.

(** * The wire format *)

Definition le_bytes (n : nat) (v : Z) : list Z :=
  (fun i : nat => bits v (8 * Z.of_nat i) 8) <$> seq 0 n.

(** The head of a packet. *)
Record packet_header := mkheader {
  h_seq_in : Z;
  h_seq_out : Z;
  h_flags : Z;
  h_unk0 : Z;
  h_unk1 : Z
}.

Definition enc_header (h : packet_header) : list Z :=
  le_bytes 4 (h_seq_in h) ++ le_bytes 4 (h_seq_out h) ++ varint32_enc (h_flags h) ++
  le_bytes 2 (h_unk0 h) ++ varint32_enc (h_unk1 h).

(** A message: identifier, length, body. *)
Definition enc_message (x : Z * list Z) : list Z :=
  varint32_enc (fst x) ++ varint32_enc (Z.of_nat (length (snd x))) ++ snd x.

Definition enc_messages (l : list (Z * list Z)) : list Z := concat (enc_message <$> l).

Definition enc_packet (h : packet_header) (l : list (Z * list Z)) : list Z :=
  enc_header h ++ enc_messages l.

Definition header_ok (h : packet_header) : Prop :=
  0 <= h_flags h < 2 ^ 32 /\ 0 <= h_unk1 h < 2 ^ 32.

Definition message_ok (x : Z * list Z) : Prop :=
  0 <= fst x < 2 ^ 31 /\ Forall is_byte (snd x).

(** The identifiers the [switch] has a case for. *)
Definition known (k : Z) : bool :=
  (k =? net_Tick) || (k =? net_SignonState) || (k =? svc_ServerInfo) ||
  (k =? svc_PacketEntities).

(** What is printed for a message. *)
Definition message_events {Msg} `{MessageParser Msg} (x : Z * list Z) : list (event Msg) :=
  if known (fst x) then
    match decode (fst x) (snd x) with
    | Some msg => [OMsg (fst x) (Z.of_nat (length (snd x))) msg]
    | None => []
    end
  else [].

(** The frame of a call: the array [data] is somewhere in memory, with any
    contents. *)
Definition frame_ok (fr : frame) (old : list Z) : Prop :=
  holds (fr_mem fr) (fr_data fr) old /\ Forall is_byte old /\
  Z.of_nat (length old) = NET_MAX_PAYLOAD /\ fr_data fr mod 4 = 0 /\
  0 < fr_data fr /\ fr_data fr + NET_MAX_PAYLOAD + 4 < 2 ^ 32.

(** The array after the copy. *)
Definition packet_array (pkt old : list Z) : list Z := pkt ++ drop (length pkt) old.

(** * The copy and the constructor *)

Section Frame.
Context (fr : frame) (old : list Z) (Hfr : frame_ok fr old).

Lemma frame_buffer : buffer_ok (fr_mem fr) (fr_data fr) old.
Proof.
  destruct Hfr as (H1 & H2 & H3 & H4 & H5 & H6). unfold NET_MAX_PAYLOAD in *.
  split; first [done | lia].
Qed.

Lemma packet_array_length pkt : Z.of_nat (length pkt) <= NET_MAX_PAYLOAD ->
  length (packet_array pkt old) = length old.
Proof.
  intros Hl. destruct Hfr as (_ & _ & H3 & _). unfold packet_array.
  rewrite length_app, length_drop. lia.
Qed.

Lemma packet_array_bytes pkt : Forall is_byte pkt -> Forall is_byte (packet_array pkt old).
Proof.
  intros Hb. apply Forall_app. split; [done|]. apply Forall_drop. by destruct Hfr as (_ & ? & _).
Qed.

Lemma packet_buffer pkt : Forall is_byte pkt -> Z.of_nat (length pkt) <= NET_MAX_PAYLOAD ->
  buffer_ok (blit (fr_mem fr) (fr_data fr) pkt) (fr_data fr) (packet_array pkt old).
Proof.
  intros Hb Hl. pose proof (packet_array_length pkt Hl) as Ha.
  destruct Hfr as (H1 & H2 & H3 & H4 & H5 & H6). unfold NET_MAX_PAYLOAD in *.
  split; rewrite ?Ha; try lia.
  - apply (holds_blit_head _ _ _ _ old); [|done|done].
    unfold packet_array in Ha. by rewrite Ha.
  - by apply packet_array_bytes.
Qed.

(** A reader set up over the memory before the copy is a reader of the copy:
    both are at the start of the same range. *)
Lemma framed_copy pkt s : Z.of_nat (length pkt) <= NET_MAX_PAYLOAD ->
  framed (fr_data fr) old s -> framed (fr_data fr) (packet_array pkt old) s.
Proof. intros Hl. unfold framed. by rewrite packet_array_length. Qed.
End Frame.

Section Refinement.
Context {Msg : Type} `{MessageParser Msg}.
Context (fr : frame) (old : list Z) (Hfr : frame_ok fr old).

Let base : Z := fr_data fr.
Let mem_of (pkt : list Z) : mem := blit (fr_mem fr) base pkt.

(** [ReadPacket] is the abstract walk over the array. *)
Lemma ReadPacket_walk fuel pkt : Forall is_byte pkt -> 8 <= Z.of_nat (length pkt) ->
  Z.of_nat (length pkt) + 10 <= NET_MAX_PAYLOAD ->
  ReadPacket fuel fr pkt (Z.of_nat (length pkt)) =
    (out ← abs_packet (mem_of pkt) base (le_join (packet_array pkt old))
             (8 * NET_MAX_PAYLOAD) (Z.of_nat (length pkt)) fuel;
     Ok (Z.of_nat (length pkt), out)).
Proof.
  intros Hb H8 Hmax. unfold ReadPacket.
  destruct (Z.ltb_spec (Z.of_nat (length pkt)) 8); [lia|].
  assert (Z.of_nat (length old) = NET_MAX_PAYLOAD /\ fr_data fr mod 4 = 0) as [Hlen Hal]
    by (by destruct Hfr as (_ & _ & ? & ? & _)).
  destruct (StartReading_ok (fr_mem fr) (fr_data fr) old (frame_buffer fr old Hfr) (fr_buf fr) Hal)
    as (s & E & Hr). rewrite Hlen in E.
  rewrite (res_bind_ok _ _ _ E).
  assert (GetBasePointer s = base) as -> by (by destruct Hr as [(? & _) _]).
  unfold memcpy_to at 1.
  destruct (Z.ltb_spec NET_MAX_PAYLOAD (Z.of_nat (length pkt))); [lia|].
  destruct (Z.ltb_spec (Z.of_nat (length pkt)) (Z.of_nat (length pkt))); [lia|].
  rewrite Nat2Z.id, firstn_all. fold (mem_of pkt).
  rewrite (res_bind_ok _ _ (mem_of pkt)) by done.
  assert (framed base (packet_array pkt old) s) as Hf.
  { apply (framed_copy fr old); [done|lia|]. by destruct Hr. }
  assert (m_bOverflow s = false) as Ho by (by destruct Hr as [_ [? _]]).
  pose proof (packet_array_length fr old Hfr pkt ltac:(lia)) as Hal'.
  pose proof (ReadPacket_data_same (mem_of pkt) base (packet_array pkt old)
    (packet_buffer fr old Hfr pkt Hb ltac:(lia)) (Z.of_nat (length pkt)) fuel s) as Hs.
  rewrite Hal', Hlen in Hs. unfold NET_MAX_PAYLOAD in Hs at 1.
  specialize (Hs ltac:(lia) ltac:(lia) Hf Ho). rewrite <- Hs.
  by destruct (ReadPacket_data fuel (mem_of pkt) (Z.of_nat (length pkt)) s) as [[a s']|].
Qed.
End Refinement.

(** * The walk over a well formed packet *)

Lemma length_le_bytes n v : length (le_bytes n v) = n.
Proof. unfold le_bytes. by rewrite length_fmap, length_seq. Qed.

Lemma le_bytes_byte n v : Forall is_byte (le_bytes n v).
Proof.
  unfold le_bytes. apply Forall_fmap, Forall_true. intros i.
  apply (bits_range v (8 * Z.of_nat i) 8). lia.
Qed.

Lemma varint_length n v : (length (varint_enc n v) <= n)%nat.
Proof.
  revert v. induction n as [|n IH]; intros v; simpl; [lia|].
  destruct (v <? 128); simpl; [lia|]. specialize (IH (Z.shiftr v 7)). lia.
Qed.

Lemma varint_length_pos n v : (0 < n)%nat -> (1 <= length (varint_enc n v))%nat.
Proof. intros Hn. destruct n; [lia|]. simpl. destruct (v <? 128); simpl; lia. Qed.

Lemma varint32_enc_byte v : 0 <= v < 2 ^ 32 -> Forall is_byte (varint32_enc v).
Proof. intros Hv. apply varint_enc_byte. simpl. lia. Qed.

Lemma enc_message_byte x : message_ok x -> Z.of_nat (length (snd x)) < 2 ^ 32 ->
  Forall is_byte (enc_message x).
Proof.
  intros [Hk Hb] Hl. unfold enc_message.
  apply Forall_app. split; [apply varint32_enc_byte; lia|].
  apply Forall_app. split; [apply varint32_enc_byte; lia|done].
Qed.

Lemma enc_header_byte h : header_ok h -> Forall is_byte (enc_header h).
Proof.
  intros [H1 H2]. unfold enc_header.
  repeat (apply Forall_app; split); auto using le_bytes_byte, varint32_enc_byte.
Qed.

Lemma enc_header_length h : (12 <= length (enc_header h) <= 20)%nat.
Proof.
  unfold enc_header. rewrite !length_app, !length_le_bytes.
  pose proof (varint_length 5 (h_flags h)). pose proof (varint_length 5 (h_unk1 h)).
  pose proof (varint_length_pos 5 (h_flags h)). pose proof (varint_length_pos 5 (h_unk1 h)).
  unfold varint32_enc. lia.
Qed.

Lemma enc_message_length x : (2 + length (snd x) <= length (enc_message x))%nat.
Proof.
  unfold enc_message. rewrite !length_app. unfold varint32_enc.
  pose proof (varint_length_pos 5 (fst x)).
  pose proof (varint_length_pos 5 (Z.of_nat (length (snd x)))). lia.
Qed.

Section Streams.
Context (l : list Z) (Hl : Forall is_byte l).

Let B : Z := le_join l.
Let total : Z := 8 * Z.of_nat (length l).

Lemma abs_read_at n p : p + n <= total -> abs_read B total n (At p) = (bits B p n, At (p + n)).
Proof. intros Hp. simpl. by destruct (Z.leb_spec (p + n) total); [|lia]. Qed.

Lemma abs_varint32_at pre v post : l = pre ++ varint32_enc v ++ post -> 0 <= v < 2 ^ 32 ->
  abs_varint32 B total (At (8 * Z.of_nat (length pre)))
    = (v, At (8 * Z.of_nat (length (pre ++ varint32_enc v)))).
Proof.
  intros E Hv. unfold abs_varint32, varint32_enc in *.
  rewrite (abs_varint_enc 32 B total 5 0 0 v).
  - rewrite Z.shiftl_0_r, Z.lor_0_l, uwrap_small by done. rewrite length_app.
    do 2 f_equal. lia.
  - lia.
  - lia.
  - simpl; lia.
  - lia.
  - lia.
  - unfold B. rewrite E. apply stream_bytes_app. by rewrite <- E.
  - unfold total. rewrite E, !length_app. lia.
Qed.

Lemma abs_packet_header_at h post : l = enc_header h ++ post -> header_ok h ->
  abs_packet_header B total = (s32 (h_flags h), At (8 * Z.of_nat (length (enc_header h)))).
Proof.
  intros E [H1 H2]. unfold abs_packet_header.
  assert (8 * Z.of_nat (length (enc_header h)) <= total) as Hle
    by (unfold total; rewrite E, length_app; lia).
  unfold enc_header in *. rewrite !length_app, !length_le_bytes in *.
  rewrite abs_read_at by lia. rewrite abs_read_at by lia.
  set (i4 := le_bytes 4 (h_seq_in h)) in *. set (o4 := le_bytes 4 (h_seq_out h)) in *.
  replace (0 + 32 + 32) with (8 * Z.of_nat (length (i4 ++ o4)))
    by (unfold i4, o4; rewrite length_app, !length_le_bytes; lia).
  rewrite (abs_varint32_at (i4 ++ o4) (h_flags h)
    (le_bytes 2 (h_unk0 h) ++ varint32_enc (h_unk1 h) ++ post)); [|by rewrite E, <- !app_assoc|done].
  set (q := i4 ++ o4) in *.
  assert (Z.of_nat (length q) = 8) as Hq
    by (unfold q, i4, o4; rewrite length_app, !length_le_bytes; lia).
  rewrite abs_read_at by (rewrite length_app; lia).
  replace (8 * Z.of_nat (length (q ++ varint32_enc (h_flags h))) + 16)
    with (8 * Z.of_nat (length (q ++ varint32_enc (h_flags h) ++ le_bytes 2 (h_unk0 h))))
    by (rewrite !length_app, length_le_bytes; lia).
  rewrite (abs_varint32_at _ (h_unk1 h) post); [|by rewrite E; unfold q; rewrite <- !app_assoc|done].
  do 2 f_equal. rewrite !length_app, length_le_bytes. lia.
Qed.
End Streams.

Section WellFormed.
Context {Msg : Type} `{HL : ParserLaws Msg}.
Context (m : mem) (base : Z) (l : list Z) (Hbuf : buffer_ok m base l).

Let B : Z := le_join l.
Let total : Z := 8 * Z.of_nat (length l).

Lemma buffer_small : 0 < base /\ Z.of_nat (length l) < 2 ^ 28 - 8 /\
  base + Z.of_nat (length l) + 4 < 2 ^ 32.
Proof. by destruct Hbuf. Qed.

Lemma dispatch_message k body ptr : 0 <= k < 2 ^ 31 -> Forall is_byte body ->
  holds m ptr body -> 0 < ptr -> ptr + Z.of_nat (length body) < 2 ^ 32 ->
  Z.of_nat (length body) < 2 ^ 26 ->
  dispatch m k ptr (Z.of_nat (length body)) = Ok (message_events (k, body)).
Proof.
  intros Hk Hb Hh Hp Hw Hn.
  assert (forall j, parse_and_print j m ptr (Z.of_nat (length body)) =
    Ok (match decode j body with
        | Some msg => [OMsg j (Z.of_nat (length body)) msg] | None => [] end)) as Hpp.
  { intros j. unfold parse_and_print. rewrite s32_small by lia.
    by rewrite (res_bind_ok _ _ _ (HL j m ptr body Hb Hh Hp Hw Hn)). }
  unfold dispatch, message_events, known. cbn [fst snd]. rewrite !Hpp.
  repeat match goal with
  | |- context [k =? ?c] => destruct (Z.eqb_spec k c) as [->|]; [reflexivity|]
  end. reflexivity.
Qed.

Lemma abs_header_message pre x post : l = pre ++ enc_message x ++ post ->
  message_ok x -> Z.of_nat (length l) < 2 ^ 26 ->
  abs_header B total (At (8 * Z.of_nat (length pre))) =
    (fst x, Z.of_nat (length (snd x)),
     At (8 * (Z.of_nat (length pre) + Z.of_nat (length (enc_message x))
              - Z.of_nat (length (snd x))))).
Proof.
  intros E [Hk Hb] Hlen. destruct Hbuf as [_ Hby _ _ _ _].
  assert (Z.of_nat (length (snd x)) <= Z.of_nat (length l)) as Hx.
  { rewrite E, !length_app. pose proof (enc_message_length x). lia. }
  unfold abs_header, B, total. unfold enc_message in E. rewrite <- !app_assoc in E.
  rewrite (abs_varint32_at l Hby pre (fst x) _ E) by lia.
  rewrite (abs_varint32_at l Hby (pre ++ varint32_enc (fst x))
    (Z.of_nat (length (snd x))) (snd x ++ post)); [|by rewrite <- app_assoc|lia].
  rewrite !s32_small by lia. do 2 f_equal. unfold enc_message. rewrite !length_app. lia.
Qed.

Lemma abs_message_step pre x post size out : l = pre ++ enc_message x ++ post ->
  message_ok x -> Z.of_nat (length l) < 2 ^ 26 -> Z.of_nat (length pre) < size ->
  abs_message m base B total size out (At (8 * Z.of_nat (length pre))) =
    Ok (inl (out ++ message_events x), At (8 * Z.of_nat (length (pre ++ enc_message x)))).
Proof.
  intros E Hx Hlen Hs. unfold abs_message, abs_next, abs_bytes_read.
  pose proof buffer_small as (Hb0 & _ & Hb1).
  assert ((abs_tell total (At (8 * Z.of_nat (length pre))) + 7) / 8 = Z.of_nat (length pre))
    as -> by (cbn [abs_tell]; Z.to_euclidean_division_equations; lia).
  destruct (Z.ltb_spec (Z.of_nat (length pre)) size); [|lia].
  rewrite (abs_header_message pre x post E Hx Hlen). destruct x as [k body].
  cbn [fst snd abs_tell] in *.
  pose proof (enc_message_length (k, body)) as Hel. cbn [snd] in Hel.
  assert (Z.of_nat (length pre) + Z.of_nat (length (enc_message (k, body)))
          <= Z.of_nat (length l)) as Hfit by (rewrite E, !length_app; lia).
  set (q := Z.of_nat (length pre) + Z.of_nat (length (enc_message (k, body)))
            - Z.of_nat (length body)) in *.
  assert ((8 * q + 7) / 8 = q) as -> by (Z.to_euclidean_division_equations; lia).
  rewrite !u32_small by lia.
  rewrite dispatch_message; try lia; try (by apply Hx).
  - unfold abs_seek. wrap_simpl. rewrite length_app.
    destruct (Z.leb_spec 0 (8 * q + Z.of_nat (length body) * 8)); [|lia].
    destruct (Z.leb_spec (8 * q + Z.of_nat (length body) * 8) total); [|unfold total in *; lia].
    cbn [andb]. do 3 f_equal. lia.
  - replace q with (Z.of_nat (length (pre ++ varint32_enc k
      ++ varint32_enc (Z.of_nat (length body)))))
      by (unfold q, enc_message; cbn [fst snd]; rewrite !length_app; lia).
    apply holds_app_r. apply (holds_app_l _ _ _ post). destruct Hbuf as [Hh _ _ _ _ _].
    unfold enc_message in E. cbn [fst snd] in E.
    rewrite E in Hh. by rewrite <- !app_assoc in *.
Qed.

Lemma abs_messages_run msgs : forall pre post size out,
  l = pre ++ enc_messages msgs ++ post -> Forall message_ok msgs ->
  Z.of_nat (length l) < 2 ^ 26 ->
  size = Z.of_nat (length (pre ++ enc_messages msgs)) ->
  st_loop (S (length msgs)) (abs_message m base B total size) out
      (At (8 * Z.of_nat (length pre)))
    = Ok (out ++ concat (message_events <$> msgs), At (8 * size)).
Proof.
  induction msgs as [|x msgs IH]; intros pre post size out E Hok Hlen ->.
  - unfold enc_messages in *. simpl in *. rewrite !app_nil_r.
    unfold mbind, ST_bind, abs_message, abs_bytes_read.
    assert ((abs_tell total (At (8 * Z.of_nat (length pre))) + 7) / 8 = Z.of_nat (length pre))
      as -> by (cbn [abs_tell]; Z.to_euclidean_division_equations; lia).
    by rewrite Z.ltb_irrefl.
  - apply Forall_cons in Hok as [Hx Hok].
    change (enc_messages (x :: msgs)) with (enc_message x ++ enc_messages msgs) in *.
    change (length (x :: msgs)) with (S (length msgs)).
    rewrite <- !app_assoc in E.
    pose proof (abs_message_step pre x (enc_messages msgs ++ post)
      (Z.of_nat (length (pre ++ enc_message x ++ enc_messages msgs))) out E Hx Hlen) as Hstep.
    rewrite (st_loop_next _ _ _ _ _ _ (Hstep ltac:(rewrite !length_app;
      pose proof (enc_message_length x); lia))).
    rewrite (IH (pre ++ enc_message x) post); rewrite <- ?app_assoc; try done.
Qed.
End WellFormed.

(** * Termination *)

Section Termination.
Context {Msg : Type} `{MessageParser Msg}.
Context (m : mem) (base : Z) (l : list Z) (size : Z).

Let len : Z := Z.of_nat (length l).
Let B : Z := le_join l.
Let total : Z := 8 * len.

(** The length field of the message at a cursor. *)
Definition size_field (c : cursor) : Z := snd (fst (abs_header B total c)).

(** The cursors the walk passes through from [c0] on. *)
Inductive visits (c0 : cursor) : cursor -> Prop :=
  | visits_start : visits c0 c0
  | visits_next c : visits c0 c -> abs_bytes_read total c < size ->
      visits c0 (abs_next B total c).

(** The first byte of its body. *)
Definition body_at (c : cursor) : Z := abs_bytes_read total (snd (abs_header B total c)).

Lemma visits_first c0 c : abs_bytes_read total c0 < size -> visits (abs_next B total c0) c -> visits c0 c.
Proof.
  intros Hlt. induction 1 as [|c Hv IH]; [by apply visits_next; [apply visits_start|]|by apply visits_next].
Qed.

Lemma dispatch_parses k p n f : dispatch (Msg := Msg) m k p n = Fault f ->
  exists j, ParseFromArray (Msg := Msg) j m p (s32 n) = Fault f.
Proof.
  assert (forall j, parse_and_print (Msg := Msg) j m p n = Fault f ->
    exists j, ParseFromArray (Msg := Msg) j m p (s32 n) = Fault f) as Hp.
  { intros j. unfold parse_and_print.
    destruct (ParseFromArray j m p (s32 n)) as [o|e] eqn:E; simpl; [done|].
    intros [= ->]. eauto. }
  unfold dispatch. repeat case_match; eauto; done.
Qed.

Lemma dispatch_fault k p n f : dispatch (Msg := Msg) m k p n = Fault f ->
  exists j q i, ParseFromArray (Msg := Msg) j m q i = Fault f.
Proof. intros (j & E)%dispatch_parses. eauto. Qed.

(** Parsing inside the array does not fault. *)
Lemma parse_inside `{!ParserLaws Msg} j a n : buffer_ok m base l -> len < 2 ^ 26 -> 0 <= a -> 0 <= n -> a + n <= len ->
  exists o : option Msg, ParseFromArray j m (base + a) n = Ok o.
Proof.
  intros [Hh Hb H0 _ _ Haddr] Hlen Ha Hn Hi. unfold len in *. set (bs := take (Z.to_nat n) (drop (Z.to_nat a) l)).
  assert (Z.of_nat (length bs) = n) as Hl by (unfold bs; rewrite length_take, length_drop; lia).
  exists (decode j bs). rewrite <- Hl at 1. apply parse_bytes; try lia.
  - by apply Forall_take, Forall_drop.
  - intros i Hi'. rewrite <- Z.add_assoc, <- (Z2Nat.id a), <- Nat2Z.inj_add by lia.
    rewrite Hh by lia. unfold bs. by rewrite lookup_take_lt, lookup_drop by lia.
Qed.

(** What the walk does that meets no negative length: it ends, or the parser faults on a
    message that claims to go on behind the array. *)
Definition ends_at_parser {A} (c0 : cursor) (run : result A) : Prop :=
  exists c j f, visits c0 c /\ abs_bytes_read total c < size /\ len < body_at c + size_field c /\
    ParseFromArray (Msg := Msg) j m (base + body_at c) (size_field c) = Fault f /\ run = Fault f.

Lemma walk_terminates `{!ParserLaws Msg} n p out : buffer_ok m base l -> len < 2 ^ 26 -> size + 10 <= len ->
  p mod 8 = 0 -> 0 <= p ->
  (forall c, visits (At p) c -> abs_bytes_read total c < size -> 0 <= size_field c < 2 ^ 28) ->
  8 * size <= p + 8 * Z.of_nat n ->
  let run := st_loop (S n) (abs_message (Msg := Msg) m base B total size) out (At p) in
  (exists r, run = Ok r) \/ ends_at_parser (At p) run.
Proof.
  intros Hbuf Hmax Hsz. cbv zeta. revert p out.
  assert (forall n c out, total <= abs_tell total c ->
    st_loop (S n) (abs_message (Msg := Msg) m base B total size) out c = Ok (out, c)) as Hexit.
  { intros k c o Hc. apply st_loop_exit. unfold abs_message, abs_bytes_read.
    destruct (Z.ltb_spec ((abs_tell total c + 7) / 8) size) as [Hlt|]; [|done].
    exfalso. unfold total in *. Z.to_euclidean_division_equations; lia. }
  induction n as [|n IH]; intros p out Hm Hp Hok Hf.
  - left. exists (out, At p). apply st_loop_exit. unfold abs_message, abs_bytes_read. cbn [abs_tell].
    destruct (Z.ltb_spec ((p + 7) / 8) size) as [Hlt|]; [|done].
    exfalso. Z.to_euclidean_division_equations; lia.
  - destruct (Z.ltb_spec (abs_bytes_read total (At p)) size) as [Hlt|Hge].
    2: { left. exists (out, At p). apply st_loop_exit. unfold abs_message.
         by destruct (Z.ltb_spec (abs_bytes_read total (At p)) size); [lia|]. }
    destruct (abs_header_fits l p size Hm Hp Hlt Hsz) as (Cmd & Size & k & Eh & Hk).
    fold len B total in Eh.
    assert (size_field (At p) = Size) as Es0 by (unfold size_field; by rewrite Eh).
    assert (body_at (At p) = abs_bytes_read total (At (p + 8 * k))) as Ea by (unfold body_at; by rewrite Eh).
    assert (0 <= Size < 2 ^ 28) as HSize by (rewrite <- Es0; by apply Hok; [apply visits_start|]).
    assert (p < 8 * size) by (unfold abs_bytes_read in Hlt; cbn [abs_tell] in Hlt;
      Z.to_euclidean_division_equations; lia).
    destruct (dispatch m Cmd (u32 (base + abs_bytes_read total (At (p + 8 * k)))) (u32 Size)) as [e|f] eqn:Ed.
    2: { right. destruct (dispatch_parses _ _ _ _ Ed) as (j & Ej). rewrite <- Ea in Ej.
         assert (0 <= body_at (At p) <= len) as Hb.
         { rewrite Ea. unfold abs_bytes_read. cbn [abs_tell]. Z.to_euclidean_division_equations; lia. }
         pose proof (bo_addr _ _ _ Hbuf). pose proof (bo_base _ _ _ Hbuf). unfold len in Hb.
         rewrite (u32_small (base + _)), (u32_small Size), s32_small in Ej by lia.
         exists (At p), j, f. split; [apply visits_start|]. split; [done|]. rewrite Es0. split; [|split; [done|]].
         - apply Z.nle_gt. intros Hi. destruct (parse_inside j (body_at (At p)) Size Hbuf Hmax) as [o Eo]; [unfold len; lia..|].
           by rewrite Eo in Ej.
         - cbn [st_loop]. apply st_bind_fault. unfold abs_message.
           destruct (Z.ltb_spec (abs_bytes_read total (At p)) size); [|lia]. by rewrite Eh, Ed. }
    assert (abs_message m base B total size out (At p)
            = Ok (inl (out ++ e), abs_next B total (At p))) as Es.
    { unfold abs_message. destruct (Z.ltb_spec (abs_bytes_read total (At p)) size); [|lia].
      by rewrite Eh, Ed. }
    rewrite (st_loop_next _ _ _ _ _ _ Es).
    assert (abs_next B total (At p) = Over \/ abs_next B total (At p)
            = At (p + 8 * (k + Size))) as [En|En].
    { unfold abs_next. rewrite Eh. cbn [abs_tell]. rewrite (s32_small (Size * 8)) by lia.
      unfold abs_seek. destruct (Z.leb_spec 0 (s32 (p + 8 * k + Size * 8))); [|by left].
      destruct (Z.leb_spec (s32 (p + 8 * k + Size * 8)) total) as [Hle|]; [|by left].
      right. cbn [andb]. f_equal. transitivity (p + 8 * k + Size * 8); [|lia].
      apply s32_small. split; [lia|].
      destruct (Z.lt_ge_cases (p + 8 * k + Size * 8) 2147483648); [done|exfalso].
      rewrite s32_wrap in * by lia. lia. }
    + left. exists (out ++ e, Over). rewrite En. apply Hexit. cbn. lia.
    + rewrite En. assert (forall c, visits (At (p + 8 * (k + Size))) c -> visits (At p) c) as Hv
        by (intros c Hv; apply visits_first; [done|by rewrite En]).
      destruct (IH (p + 8 * (k + Size)) (out ++ e)) as [Hr|(c & j & f & H1 & H2)]; try lia.
      * Z.to_euclidean_division_equations; lia.
      * intros c Hc. by apply Hok, Hv.
      * by left.
      * right. exists c, j, f. split; [by apply Hv|done].
Qed.
End Termination.

(** * Runs of [ReadPacket] *)

Lemma enc_messages_byte msgs : Forall message_ok msgs ->
  Forall (fun x : Z * list Z => Z.of_nat (length (snd x)) < 2 ^ 32) msgs ->
  Forall is_byte (enc_messages msgs).
Proof.
  unfold enc_messages. induction 1 as [|x msgs Hx _ IH]; intros Hl; [constructor|].
  apply Forall_cons in Hl as [Hlx Hl].
  rewrite fmap_cons, concat_cons. apply Forall_app. split; [by apply enc_message_byte|auto].
Qed.

Lemma enc_messages_lengths msgs n : (length (enc_messages msgs) <= n)%nat ->
  Forall (fun x : Z * list Z => Z.of_nat (length (snd x)) <= Z.of_nat n) msgs.
Proof.
  unfold enc_messages. induction msgs as [|x msgs IH]; intros Hl; [constructor|].
  rewrite fmap_cons, concat_cons, length_app in Hl. pose proof (enc_message_length x).
  constructor; [lia|]. apply IH. lia.
Qed.

Section Runs.
Context {Msg : Type} `{HL : ParserLaws Msg}.
Context (fr : frame) (old : list Z) (Hfr : frame_ok fr old).

Let base : Z := fr_data fr.
Let mem_of (pkt : list Z) : mem := blit (fr_mem fr) base pkt.
Let total : Z := 8 * NET_MAX_PAYLOAD.

Lemma array_total pkt : Z.of_nat (length pkt) <= NET_MAX_PAYLOAD ->
  8 * Z.of_nat (length (packet_array pkt old)) = total.
Proof.
  intros Hl. rewrite (packet_array_length fr old Hfr pkt Hl).
  destruct Hfr as (_ & _ & -> & _). done.
Qed.

Lemma array_len pkt : Z.of_nat (length pkt) <= NET_MAX_PAYLOAD ->
  Z.of_nat (length (packet_array pkt old)) = NET_MAX_PAYLOAD.
Proof. intros Hl. pose proof (array_total pkt Hl) as H0. unfold total in H0. lia. Qed.

(** The walk over the array behind a header whose flags pass. *)
Lemma abs_packet_run fuel h body : header_ok h -> Forall is_byte body ->
  Z.of_nat (length (enc_header h ++ body)) <= NET_MAX_PAYLOAD ->
  let pkt := enc_header h ++ body in
  let B := le_join (packet_array pkt old) in
  abs_packet (Msg := Msg) (mem_of pkt) base B total (Z.of_nat (length pkt)) fuel =
    if flags_pass (s32 (h_flags h)) then
      fst <$> st_loop fuel (abs_message (mem_of pkt) base B total (Z.of_nat (length pkt))) []
                (At (8 * Z.of_nat (length (enc_header h))))
    else Ok [].
Proof.
  intros Hh Hb Hmax pkt B. unfold abs_packet.
  assert (Forall is_byte pkt) as Hp by (apply Forall_app; split; [by apply enc_header_byte|done]).
  pose proof (abs_packet_header_at (packet_array pkt old) (packet_array_bytes fr old Hfr pkt Hp) h
    (body ++ drop (length pkt) old)) as E.
  rewrite (array_total pkt Hmax) in E. fold B in E. rewrite E; [done| |done].
  unfold packet_array, pkt. by rewrite <- app_assoc.
Qed.

Lemma ReadPacket_flags_stop fuel h body : header_ok h -> Forall is_byte body ->
  Z.of_nat (length (enc_header h ++ body)) + 10 <= NET_MAX_PAYLOAD ->
  flags_pass (s32 (h_flags h)) = false ->
  ReadPacket (Msg := Msg) fuel fr (enc_header h ++ body)
      (Z.of_nat (length (enc_header h ++ body)))
    = Ok (Z.of_nat (length (enc_header h ++ body)), []).
Proof.
  intros Hh Hb Hmax Hf. pose proof (enc_header_length h).
  assert (Forall is_byte (enc_header h ++ body))
    by (apply Forall_app; split; [by apply enc_header_byte|done]).
  rewrite (ReadPacket_walk fr old Hfr fuel) by (done || (rewrite length_app in *; lia)).
  rewrite abs_packet_run by (done || lia). by rewrite Hf.
Qed.

(** A packet as the server sends it. *)
Lemma ReadPacket_messages h msgs fuel : header_ok h -> Forall message_ok msgs ->
  Z.of_nat (length (enc_packet h msgs)) + 10 <= NET_MAX_PAYLOAD ->
  flags_pass (s32 (h_flags h)) = true -> (S (length msgs) <= fuel)%nat ->
  ReadPacket fuel fr (enc_packet h msgs) (Z.of_nat (length (enc_packet h msgs))) =
    Ok (Z.of_nat (length (enc_packet h msgs)), concat (message_events <$> msgs)).
Proof.
  intros Hh Hok Hmax Hf Hfuel. pose proof (enc_header_length h) as Hhl.
  assert (Forall is_byte (enc_messages msgs)) as Hb.
  { apply enc_messages_byte; [done|]. eapply Forall_impl; [by apply enc_messages_lengths|].
    intros x Hx. simpl in Hx. unfold enc_packet, NET_MAX_PAYLOAD in Hmax.
    rewrite length_app in Hmax. lia. }
  unfold enc_packet in *. set (pkt := enc_header h ++ enc_messages msgs) in *.
  assert (Forall is_byte pkt) by (apply Forall_app; split; [by apply enc_header_byte|done]).
  assert (12 <= length pkt)%nat by (unfold pkt; rewrite length_app; lia).
  rewrite (ReadPacket_walk fr old Hfr fuel) by (done || lia).
  unfold pkt at 1 2 3. rewrite abs_packet_run by (done || (fold pkt; lia)). rewrite Hf. fold pkt.
  pose proof (abs_messages_run (mem_of pkt) base (packet_array pkt old)
    (packet_buffer fr old Hfr pkt ltac:(done) ltac:(lia)) msgs (enc_header h)
    (drop (length pkt) old) (Z.of_nat (length pkt)) []) as Hrun.
  rewrite (array_total pkt ltac:(lia)) in Hrun.
  specialize (Hrun ltac:(unfold packet_array, pkt; by rewrite <- app_assoc) Hok
    ltac:(rewrite array_len by lia; done) eq_refl).
  apply (st_loop_more _ _ fuel) in Hrun; [|done].
  fold total base (mem_of pkt). by rewrite Hrun.
Qed.

(** A message of an unhandled kind whose length field is minus the size of its
    own two fields sends the walk back to its own beginning. *)
Definition spin_message (k : Z) : list Z :=
  varint32_enc k ++ varint32_enc (2 ^ 32 - (Z.of_nat (length (varint32_enc k)) + 5)).

Lemma spin_length k : length (varint32_enc
  (2 ^ 32 - (Z.of_nat (length (varint32_enc k)) + 5))) = 5%nat.
Proof.
  pose proof (varint_length 5 k) as H1. pose proof (varint_length_pos 5 k ltac:(lia)) as H2.
  unfold varint32_enc in *.
  destruct (length (varint_enc 5 k)) as [|[|[|[|[|[|]]]]]]; try lia; vm_compute; reflexivity.
Qed.

Lemma ReadPacket_spins h k rest fuel : header_ok h -> flags_pass (s32 (h_flags h)) = true ->
  0 <= k < 2 ^ 31 -> known k = false -> Forall is_byte rest ->
  Z.of_nat (length (enc_header h ++ spin_message k ++ rest)) + 10 <= NET_MAX_PAYLOAD ->
  ReadPacket (Msg := Msg) fuel fr (enc_header h ++ spin_message k ++ rest)
    (Z.of_nat (length (enc_header h ++ spin_message k ++ rest))) = Fault OutOfFuel.
Proof.
  intros Hh Hf Hk Hun Hb Hmax. pose proof (enc_header_length h) as Hhl.
  pose proof (varint_length_pos 5 k ltac:(lia)) as Hk1.
  pose proof (varint_length 5 k) as Hk5. fold (varint32_enc k) in Hk1, Hk5.
  set (n := Z.of_nat (length (varint32_enc k)) + 5).
  assert (Forall is_byte (spin_message k ++ rest)) as Hsb.
  { apply Forall_app; split; [|done]. apply Forall_app; split; apply varint32_enc_byte; lia. }
  set (pkt := enc_header h ++ spin_message k ++ rest) in *.
  assert (Forall is_byte pkt) as Hpb
    by (apply Forall_app; split; [by apply enc_header_byte|done]).
  assert (Z.of_nat (length (enc_header h)) + n <= Z.of_nat (length pkt)) as Hle.
  { unfold pkt, spin_message. rewrite !length_app, spin_length. unfold n. lia. }
  rewrite (ReadPacket_walk fr old Hfr fuel) by (done || lia).
  unfold pkt at 1 2 3. rewrite abs_packet_run by (done || (fold pkt; lia)). rewrite Hf. fold pkt.
  set (p := Z.of_nat (length (enc_header h))) in *.
  pose proof (packet_array_bytes fr old Hfr pkt Hpb) as Hab.
  assert (packet_array pkt old = enc_header h ++ varint32_enc k ++ varint32_enc (2 ^ 32 - n)
    ++ rest ++ drop (length pkt) old) as Earr.
  { unfold packet_array, pkt, spin_message. by rewrite <- !app_assoc. }
  assert (abs_header (le_join (packet_array pkt old)) total (At (8 * p))
          = (k, - n, At (8 * (p + n)))) as Eh.
  { unfold abs_header. rewrite <- (array_total pkt ltac:(lia)).
    unfold p. rewrite (abs_varint32_at _ Hab _ k _ Earr) by lia.
    rewrite (abs_varint32_at _ Hab (enc_header h ++ varint32_enc k) (2 ^ 32 - n)
      (rest ++ drop (length pkt) old)); [|by rewrite Earr, <- !app_assoc|lia].
    rewrite s32_small, (s32_wrap (2 ^ 32 - n)) by lia. fold p. f_equal; [f_equal; lia|].
    pose proof (spin_length k) as Hsl. fold n in Hsl.
    f_equal. rewrite !length_app, Hsl. unfold p, n. lia. }
  rewrite st_loop_spin; [done|].
  unfold abs_message, abs_next, abs_bytes_read. cbn [abs_tell].
  assert ((8 * p + 7) / 8 = p) as -> by (Z.to_euclidean_division_equations; lia).
  destruct (Z.ltb_spec p (Z.of_nat (length pkt))); [|lia]. rewrite Eh. cbn [abs_tell].
  assert (dispatch (Msg := Msg) (mem_of pkt) k (u32 (base + (8 * (p + n) + 7) / 8)) (u32 (- n))
    = Ok []) as Ed.
  { unfold dispatch. unfold known in Hun. rewrite !orb_false_iff in Hun.
    destruct Hun as [[[-> ->] ->] ->]. done. }
  fold base (mem_of pkt). rewrite Ed. unfold abs_seek. unfold total, NET_MAX_PAYLOAD in *. wrap_simpl.
  replace (8 * (p + n) + - n * 8) with (8 * p) by lia.
  destruct (Z.leb_spec 0 (8 * p)); [|lia].
  destruct (Z.leb_spec (8 * p) (8 * (262144 - 4))); [|lia]. done.
Qed.
End Runs.

Section MoreRuns.
Context {Msg : Type} `{HL : ParserLaws Msg}.
Context (fr : frame) (old : list Z) (Hfr : frame_ok fr old).

Let base : Z := fr_data fr.
Let mem_of (pkt : list Z) : mem := blit (fr_mem fr) base pkt.
Let total : Z := 8 * NET_MAX_PAYLOAD.

(** The length field of a message is not compared with what is left of the
    packet: the body is completed with what the array held before. *)
Lemma ReadPacket_overlong h k body n fuel : header_ok h ->
  flags_pass (s32 (h_flags h)) = true -> 0 <= k < 2 ^ 31 -> Forall is_byte body ->
  (0 < length body <= n)%nat ->
  let pkt := enc_header h ++ varint32_enc k ++ varint32_enc (Z.of_nat n) ++ body in
  Z.of_nat (length pkt + n) + 10 <= NET_MAX_PAYLOAD -> (2 <= fuel)%nat ->
  ReadPacket fuel fr pkt (Z.of_nat (length pkt)) =
    Ok (Z.of_nat (length pkt),
        message_events (k, body ++ take (n - length body) (drop (length pkt) old))).
Proof.
  intros Hh Hf Hk Hb Hn pkt Hmax Hfuel. pose proof (enc_header_length h) as Hhl.
  assert (Z.of_nat (length old) = NET_MAX_PAYLOAD) as Hold by (by destruct Hfr as (_ & _ & ? & _)).
  assert (Forall is_byte old) as Hob by (by destruct Hfr as (_ & ? & _)).
  unfold NET_MAX_PAYLOAD in Hmax, Hold.
  set (fill := take (n - length body) (drop (length pkt) old)).
  assert (length (body ++ fill) = n) as Hbl.
  { unfold fill. rewrite length_app, length_take, length_drop. lia. }
  assert (Forall is_byte (varint32_enc k ++ varint32_enc (Z.of_nat n) ++ body)) as Htb.
  { repeat (apply Forall_app; split); try done; apply varint32_enc_byte; lia. }
  assert (Forall is_byte pkt) as Hpb
    by (apply Forall_app; split; [by apply enc_header_byte|done]).
  assert (message_ok (k, body ++ fill)) as Hmo.
  { split; [done|]. apply Forall_app. split; [done|]. by apply Forall_take, Forall_drop. }
  assert (packet_array pkt old = enc_header h ++ enc_message (k, body ++ fill)
    ++ drop (n - length body) (drop (length pkt) old)) as Earr.
  { unfold packet_array, enc_message. cbn [fst snd]. rewrite Hbl. unfold pkt at 1, fill.
    rewrite <- !app_assoc. do 4 f_equal. by rewrite take_drop. }
  assert (12 <= length pkt)%nat by (unfold pkt; rewrite length_app; lia).
  assert (Z.of_nat (length pkt) <= NET_MAX_PAYLOAD) as Hpm by (unfold NET_MAX_PAYLOAD; lia).
  rewrite (ReadPacket_walk fr old Hfr fuel) by (done || unfold NET_MAX_PAYLOAD; lia).
  unfold pkt at 1 2 3. rewrite abs_packet_run by done. rewrite Hf. fold pkt.
  pose proof (abs_message_step (mem_of pkt) base (packet_array pkt old)
    (packet_buffer fr old Hfr pkt Hpb Hpm) (enc_header h) (k, body ++ fill) _
    (Z.of_nat (length pkt)) [] Earr Hmo) as Hstep.
  pose proof (array_total fr old Hfr pkt Hpm) as Htot.
  pose proof (array_len fr old Hfr pkt Hpm) as Hlen.
  rewrite Htot, Hlen in Hstep.
  assert (length (enc_header h) < length pkt)%nat as Hlt
    by (unfold pkt; rewrite !length_app; lia).
  specialize (Hstep ltac:(done) ltac:(lia)).
  set (c2 := At (8 * Z.of_nat (length (enc_header h ++ enc_message (k, body ++ fill))))) in *.
  assert (abs_message (mem_of pkt) base (le_join (packet_array pkt old)) (8 * NET_MAX_PAYLOAD)
    (Z.of_nat (length pkt)) ([] ++ message_events (k, body ++ fill)) c2
    = Ok (inr ([] ++ message_events (k, body ++ fill)), c2)) as Hex.
  { unfold abs_message, abs_bytes_read, c2. cbn [abs_tell].
    assert (length pkt <= length (enc_header h ++ enc_message (k, body ++ fill)))%nat.
    { unfold enc_message, pkt. cbn [fst snd]. rewrite Hbl, !length_app. lia. }
    destruct (Z.ltb_spec ((8 * Z.of_nat (length (enc_header h ++ enc_message (k, body ++ fill)))
      + 7) / 8) (Z.of_nat (length pkt))) as [Hlt'|]; [|done].
    exfalso. Z.to_euclidean_division_equations; lia. }
  destruct fuel as [|[|fuel]]; [lia|lia|].
  fold base (mem_of pkt).
  rewrite (st_loop_next _ _ _ _ _ _ Hstep), (st_loop_exit _ _ _ _ _ _ Hex). done.
Qed.

(** The walk ends when no length field it meets is negative or overflows. *)
Lemma ReadPacket_returns h body fuel : header_ok h -> Forall is_byte body ->
  let pkt := enc_header h ++ body in
  let size := Z.of_nat (length pkt) in
  let first := At (8 * Z.of_nat (length (enc_header h))) in
  size + 10 <= NET_MAX_PAYLOAD ->
  (forall c, visits (packet_array pkt old) size first c -> abs_bytes_read total c < size ->
     0 <= size_field (packet_array pkt old) c < 2 ^ 28) ->
  (length pkt <= fuel)%nat ->
  (exists out : list (event Msg), ReadPacket fuel fr pkt size = Ok (size, out)) \/
  ends_at_parser (Msg := Msg) (mem_of pkt) base (packet_array pkt old) size first
    (ReadPacket (Msg := Msg) fuel fr pkt size).
Proof.
  intros Hh Hb pkt size first Hmax Hsizes Hfuel. pose proof (enc_header_length h) as Hhl.
  assert (Forall is_byte pkt) as Hpb
    by (apply Forall_app; split; [by apply enc_header_byte|done]).
  assert (12 <= length pkt)%nat by (unfold pkt; rewrite length_app; lia).
  assert (Z.of_nat (length pkt) <= NET_MAX_PAYLOAD) as Hpm by (unfold size in *; lia).
  assert (forall r, st_loop fuel (abs_message (Msg := Msg) (mem_of pkt) base (le_join (packet_array pkt old)) total size) [] first = r ->
    ReadPacket (Msg := Msg) fuel fr pkt size =
      if flags_pass (s32 (h_flags h)) then x ← r; Ok (size, fst x) else Ok (size, [])) as Erun.
  { intros r <-. unfold size in *. rewrite (ReadPacket_walk fr old Hfr fuel) by (done || lia).
    unfold pkt at 1 2 3. rewrite abs_packet_run by done. fold pkt base (mem_of pkt). fold total. fold first.
    destruct (flags_pass (s32 (h_flags h))); [|done]. by destruct (st_loop _ _ _ _) as [[? ?]|]. }
  destruct (flags_pass (s32 (h_flags h))); [|left; exists []; by rewrite (Erun _ eq_refl)]. unfold size in *.
  pose proof (array_total fr old Hfr pkt Hpm) as Htot.
  pose proof (array_len fr old Hfr pkt Hpm) as Hlen.
  destruct (walk_terminates (mem_of pkt) base (packet_array pkt old) (Z.of_nat (length pkt))
    (fuel - 1) (8 * Z.of_nat (length (enc_header h))) [] (packet_buffer fr old Hfr pkt Hpb Hpm))
    as [[[out c] E]|(c & j & f & H1 & H2 & H3 & H4 & E)].
  - rewrite Hlen. done.
  - lia.
  - rewrite Z.mul_comm. by apply Z.mod_mul.
  - lia.
  - rewrite Htot. exact Hsizes.
  - lia.
  - left. rewrite Htot in E. replace (S (fuel - 1)) with fuel in E by lia. exists out. by rewrite (Erun _ E).
  - right. exists c, j, f. split; [done|]. split; [done|]. split; [done|]. split; [done|].
    rewrite Htot in E. replace (S (fuel - 1)) with fuel in E by lia. by rewrite (Erun _ E).
Qed.

(** The walk itself never faults: a fault is the parser's, or the walk does
    not end within the rounds allowed. *)
Lemma ReadPacket_faults pkt fuel f : Forall is_byte pkt ->
  Z.of_nat (length pkt) + 10 <= NET_MAX_PAYLOAD ->
  ReadPacket (Msg := Msg) fuel fr pkt (Z.of_nat (length pkt)) = Fault f ->
  f = OutOfFuel \/
  exists k p n, ParseFromArray (Msg := Msg) k (mem_of pkt) p n = Fault f.
Proof.
  intros Hb Hmax. destruct (Z.ltb_spec (Z.of_nat (length pkt)) 8) as [Hlt|Hge].
  { unfold ReadPacket. destruct (Z.ltb_spec (Z.of_nat (length pkt)) 8); [done|lia]. }
  rewrite (ReadPacket_walk fr old Hfr fuel) by (done || lia). fold base (mem_of pkt).
  unfold abs_packet. destruct (abs_packet_header _ _) as [nFlags c].
  destruct (flags_pass nFlags); [|done]. generalize ([] : list (event Msg)).
  revert c. induction fuel as [|fuel IH]; intros c out; simpl.
  { intros [= <-]. by left. }
  unfold mbind, ST_bind.
  destruct (abs_message _ _ _ _ _ out c) as [[[out'|a] c']|e] eqn:Eb; simpl.
  - apply IH.
  - done.
  - intros [= ->]. right. revert Eb. unfold abs_message.
    destruct (_ <? _); [|done]. destruct (abs_header _ _ c) as [[Cmd Size] c2].
    destruct (dispatch _ _ _ _) as [|e] eqn:Ed; [done|]. intros [= ->].
    by eapply dispatch_fault.
Qed.
End MoreRuns.
