(* ===== verification/Handler.v ===== *)
(** The packet handler against its specification: which payloads are opened,
    what is printed, and what is left on the heap; and what it does when memory runs out. *)

From S2P Require Import Prelude CMem Ice IceProofs Tins Sniffles.

(** * The cipher of the session *)

(** The S-boxes and the key that [IceKey ice(2); ice.set(g_iceKey)] sets up in a
    fresh process. *)
Definition game_cipher : result (list (list Z) * IceKey) :=
  r ← IceKey_new ice_statics0 (replicate 32 (mkIceSubkey [0; 0; 0])) 2;
  let '(g, k) := r : IceStatics * IceKey in
  k ← set_key k g_iceKey;
  Ok (ice_sbox g, k).

(** [sbox] are the S-boxes of the file, [k] is the session's key under them. *)
Record game_sboxes (sbox : list (list Z)) : Prop := {
  game_sboxes_eq : ice_sbox <$> ice_sboxes_init ice_statics0 = Ok sbox
}.
Record session (sbox : list (list Z)) (k : IceKey) : Prop := {
  session_eq : game_cipher = Ok (sbox, k)
}.

(** The static data of ice.cpp between two packets. *)
Definition statics_ok (g : IceStatics) : Prop :=
  ice_sboxes_initialised g = true -> game_sboxes (ice_sbox g).

Lemma ice_sboxes_init_same g g' :
  ice_sbox <$> ice_sboxes_init g = ice_sbox <$> ice_sboxes_init g'.
Proof.
  unfold ice_sboxes_init.
  generalize (ice_sbox_row 0 0 1024), (ice_sbox_row 1 0 1024), (ice_sbox_row 2 0 1024),
    (ice_sbox_row 3 0 1024).
  by intros [r0|] [r1|] [r2|] [r3|].
Qed.

Lemma game_sboxes_init g g' : ice_sboxes_init g = Ok g' -> game_sboxes (ice_sbox g').
Proof. intros E. constructor. rewrite (ice_sboxes_init_same _ g), E. reflexivity. Qed.

Lemma result_unique {A} (r : result A) a b : r = Ok a -> r = Ok b -> a = b.
Proof. congruence. Qed.

Lemma game_sboxes_unique s s' : game_sboxes s -> game_sboxes s' -> s = s'.
Proof. intros [E] [E']. exact (result_unique _ _ _ E E'). Qed.

Lemma game_sboxes_ok s : game_sboxes s -> sbox_ok s.
Proof.
  intros Hs. destruct (ice_sboxes_init_ok ice_statics0) as (g0 & E0 & Hs0).
  by rewrite (game_sboxes_unique s (ice_sbox g0) Hs (game_sboxes_init _ _ E0)).
Qed.

Lemma statics0_ok : statics_ok ice_statics0.
Proof. done. Qed.

Lemma IceKey_new_first g raw g' : ice_sboxes_initialised g = false ->
  ice_sboxes_init g = Ok g' ->
  IceKey_new g raw 2 = Ok (mkIceStatics (ice_sbox g') true, mkIceKey 2 32 (take 32 raw)).
Proof.
  intros Ei. unfold IceKey_new. rewrite Ei. cbn [negb].
  generalize (ice_sboxes_init g). by intros r ->.
Qed.

(** The constructor in any state between packets: always the same S-boxes. *)
Lemma IceKey_new_statics g raw : statics_ok g -> length raw = 32%nat ->
  exists g' k, IceKey_new g raw 2 = Ok (g', k) /\ ice_sboxes_initialised g' = true /\
    game_sboxes (ice_sbox g') /\ fresh_key k /\ _size k = 2 /\ _rounds k = 32.
Proof.
  intros Hg Hraw.
  destruct (IceKey_new_ok g raw 2) as (g' & k & E & Hs & Hsame & Hi & Hf & Hsz & Hr);
    [lia| |lia|intros; by rewrite Hraw|].
  { destruct (ice_sboxes_initialised g) eqn:Ei; [right|by left].
    by apply game_sboxes_ok, Hg. }
  exists g', k. split; [exact E|]. split; [exact Hi|].
  assert (game_sboxes (ice_sbox g')) as Hgs; [|by split].
  destruct (ice_sboxes_initialised g) eqn:Ei.
  - rewrite Hsame by done. by apply Hg.
  - destruct (ice_sboxes_init_ok g) as (g1 & E1 & _).
    rewrite (IceKey_new_first g raw g1 Ei E1) in E. injection E as <- _.
    exact (game_sboxes_init _ _ E1).
Qed.

Lemma game_cipher_from g k k1 :
  IceKey_new ice_statics0 (replicate 32 (mkIceSubkey [0; 0; 0])) 2 = Ok (g, k) ->
  set_key k g_iceKey = Ok k1 -> session (ice_sbox g) k1.
Proof.
  intros E. intros E1. constructor. unfold game_cipher. revert E.
  generalize (IceKey_new ice_statics0 (replicate 32 (mkIceSubkey [0; 0; 0])) 2).
  intros r ->. revert E1. cbn. generalize (set_key k g_iceKey). by intros ? ->.
Qed.

Lemma session_unique s k s' k' : session s k -> session s' k' -> s = s' /\ k = k'.
Proof.
  intros [E] [E']. pose proof (result_unique _ _ _ E E') as H. clear E E'. by injection H.
Qed.

Lemma fresh_game_key k : fresh_key k -> _size k = 2 ->
  forall k', fresh_key k' -> _size k' = 2 -> _rounds k' = _rounds k ->
  exists k1, set_key k g_iceKey = Ok k1 /\ set_key k' g_iceKey = Ok k1 /\ key_ok k1.
Proof.
  intros Hf Hsz k' Hf' Hsz' Hr.
  destruct (set_key_agree k k' g_iceKey Hf Hf') as (k1 & E1 & E2 & _ & Hk);
    [by rewrite Hsz, Hsz'|by rewrite Hr|rewrite Hsz; reflexivity|]. eauto.
Qed.

Lemma game_cipher_ok : exists sbox k, session sbox k /\ sbox_ok sbox /\ key_ok k.
Proof.
  destruct (IceKey_new_statics ice_statics0 (replicate 32 (mkIceSubkey [0; 0; 0])))
    as (g' & k & E & _ & Hs & Hf & Hsz & Hr); [done|done|].
  destruct (fresh_game_key k Hf Hsz k Hf Hsz eq_refl) as (k1 & E1 & _ & Hk).
  exists (ice_sbox g'), k1. split; [by apply (game_cipher_from _ k)|].
  split; [by apply game_sboxes_ok|exact Hk].
Qed.

(** Whatever the storage holds, the handler sets up the session's cipher. *)
Lemma handler_key g raw sbox k : statics_ok g -> length raw = 32%nat -> session sbox k ->
  exists g' k0, IceKey_new g raw 2 = Ok (g', k0) /\ ice_sbox g' = sbox /\ statics_ok g' /\
    set_key k0 g_iceKey = Ok k.
Proof.
  intros Hg Hraw Hc.
  destruct (IceKey_new_statics g raw Hg Hraw) as (g' & k0 & E & Hi & Hs & Hf & Hsz & Hr).
  destruct (IceKey_new_statics ice_statics0 (replicate 32 (mkIceSubkey [0; 0; 0])))
    as (g1 & k1 & E1 & _ & Hs1 & Hf1 & Hsz1 & Hr1); [intros [=]|reflexivity|].
  destruct (fresh_game_key k0 Hf Hsz k1 Hf1 Hsz1) as (k2 & Ea & Eb & _); [congruence|].
  destruct (session_unique _ _ _ _ Hc (game_cipher_from _ _ _ E1 Eb)) as [-> ->].
  exists g', k0. split; [exact E|]. split; [by apply game_sboxes_unique|].
  split; [intros _; exact Hs|exact Ea].
Qed.

(** * What a payload holds *)

(** The big-endian length in front of the data. *)
Definition inner_length (plain : list Z) (d : Z) : Z :=
  le_join (reverse (take 4 (drop (Z.to_nat d + 1) plain))).

(** The offset byte leaves room for the length and at least one byte. *)
Definition offset_ok (plain : list Z) : bool :=
  match plain with
  | [] => false
  | d :: _ => (0 <? d) && (d + 5 <? Z.of_nat (length plain))
  end.

(** The packet inside a decrypted payload. *)
Definition open_payload (plain : list Z) : option (list Z) :=
  match plain with
  | [] => None
  | d :: _ =>
      if offset_ok plain && (inner_length plain d =? Z.of_nat (length plain) - d - 5)
      then Some (drop (Z.to_nat d + 5) plain) else None
  end.

(** What is printed about it. *)
Definition payload_events {Msg} (plain : list Z) : list (event Msg) :=
  match plain with
  | [] => []
  | d :: _ =>
      [OPayloadSize (Z.of_nat (length plain)); ODeltaOffset d] ++
      (if offset_ok plain then [ODataFinalSize (s32 (inner_length plain d))] else [])
  end.

(** The sender's side. *)
Definition wrap_payload (filler data : list Z) : list Z :=
  Z.of_nat (length filler) :: filler ++ be_bytes (Z.of_nat (length data)) ++ data.

Lemma byteswap_bytes b0 b1 b2 b3 : Forall is_byte [b0; b1; b2; b3] ->
  _byteswap_ulong (le_join [b0; b1; b2; b3]) = le_join [b3; b2; b1; b0].
Proof.
  intros Hb. unfold _byteswap_ulong.
  rewrite (le_join_bits _ 3 b3 Hb eq_refl : bits _ 24 8 = _).
  rewrite (le_join_bits _ 2 b2 Hb eq_refl : bits _ 16 8 = _).
  rewrite (le_join_bits _ 1 b1 Hb eq_refl : bits _ 8 8 = _).
  by rewrite (le_join_bits _ 0 b0 Hb eq_refl : bits _ 0 8 = _).
Qed.

Lemma byteswap_reverse d : length d = 4%nat -> Forall is_byte d ->
  _byteswap_ulong (le_join d) = le_join (reverse d).
Proof.
  intros Hl Hb. destruct d as [|b0 [|b1 [|b2 [|b3 [|]]]]]; try done.
  by apply byteswap_bytes.
Qed.

Lemma le_join_be_bytes n : 0 <= n < 2 ^ 32 -> le_join (reverse (be_bytes n)) = n.
Proof.
  intros Hn. change (reverse (be_bytes n)) with [bits n 0 8; bits n 8 8; bits n 16 8; bits n 24 8].
  transitivity (bits n 0 (8 + (8 + (8 + 8)))).
  - rewrite !bits_app by lia. simpl. by rewrite Z.lor_0_r.
  - unfold bits. rewrite Z.shiftr_0_r, Z.land_ones by lia. by apply Z.mod_small.
Qed.

Lemma open_wrapped filler data : (0 < length filler < 256)%nat -> (0 < length data)%nat ->
  Z.of_nat (length data) < 2 ^ 32 -> open_payload (wrap_payload filler data) = Some data.
Proof.
  intros Hf Hd Hn. unfold open_payload, wrap_payload, offset_ok.
  set (rest := filler ++ be_bytes (Z.of_nat (length data)) ++ data).
  assert (length rest = length filler + 4 + length data)%nat as Hr
    by (unfold rest; rewrite !length_app; simpl; lia).
  cbn [length]. rewrite Hr, Nat2Z.id.
  assert (inner_length (Z.of_nat (length filler) :: rest) (Z.of_nat (length filler))
          = Z.of_nat (length data)) as ->.
  { unfold inner_length. rewrite Nat2Z.id, Nat.add_1_r. cbn [drop]. unfold rest.
    rewrite drop_app_length, take_app_length' by done. apply le_join_be_bytes. lia. }
  destruct (Z.ltb_spec 0 (Z.of_nat (length filler))); [|lia].
  destruct (Z.ltb_spec (Z.of_nat (length filler) + 5)
    (Z.of_nat (S (length filler + 4 + length data)))); [|lia].
  destruct (Z.eqb_spec (Z.of_nat (length data))
    (Z.of_nat (S (length filler + 4 + length data)) - Z.of_nat (length filler) - 5)); [|lia].
  cbn [andb]. f_equal.
  replace (length filler + 5)%nat with (S (length filler + 4)) by lia. cbn [drop]. unfold rest.
  rewrite app_assoc, drop_app_length'; [done|]. rewrite length_app. simpl. lia.
Qed.

(** * The block loop *)

Lemma tbl_take {A} (t : list A) n i : 0 <= i < Z.of_nat n -> (n <= length t)%nat ->
  tbl (take n t) i = tbl t i.
Proof.
  intros Hi Hn. destruct (tbl_in_range t i) as (v & E & Hv); [lia|]. rewrite E.
  apply tbl_ok; [lia|]. rewrite lookup_take_lt; [done|lia].
Qed.

Lemma decrypt_take sbox k l : (8 <= length l)%nat ->
  decrypt sbox k l = decrypt sbox k (take 8 l).
Proof.
  intros Hl. unfold decrypt, load_be. by rewrite !(tbl_take l 8) by (simpl; lia).
Qed.

Section Loop.
Context {Msg : Type} (sbox : list (list Z)) (ice : IceKey) (payload : list Z).

(** [w] with the contents of block [b] replaced. *)
Definition with_block (b : nat) (l : list Z) (w : world Msg) : world Msg :=
  mkworld (<[b := l]> (w_heap w)) (w_next w) (w_ice w) (w_out w).

Lemma with_block_twice b l l' w : with_block b l (with_block b l' w) = with_block b l w.
Proof. unfold with_block. simpl. by rewrite insert_insert_eq. Qed.

Lemma store_at_mid (l1 l2 src : list Z) : (length src <= length l2)%nat ->
  store_at (l1 ++ l2) (Z.of_nat (length l1)) src = Ok (l1 ++ src ++ drop (length src) l2).
Proof.
  intros Hs. unfold store_at. rewrite length_app, Nat2Z.id.
  destruct (Z.leb_spec (Z.of_nat (length l1) + Z.of_nat (length src))
    (Z.of_nat (length l1 + length l2))); [|lia].
  by rewrite take_app_length, drop_app_add.
Qed.

Lemma decrypt_loop b n : forall fuel dn jk r w,
  w_heap w !! b = Some (dn ++ jk) ->
  (length dn + length jk = length payload)%nat -> (n = length jk / 8)%nat ->
  blocks (decrypt sbox ice) n (drop (length dn) payload) = Ok r ->
  (forall p c, decrypt sbox ice p = Ok c -> length c = 8%nat) ->
  Z.of_nat (length payload) < 2 ^ 31 -> (n < fuel)%nat ->
  st_loop fuel (decrypt_loop_body sbox ice payload (Some b))
      (Z.of_nat (length jk), Z.of_nat (length dn)) w =
    Ok ((Z.of_nat (length jk) - 8 * Z.of_nat n, Z.of_nat (length dn) + 8 * Z.of_nat n),
        with_block b (dn ++ take (8 * n) r ++ drop (8 * n) jk) w).
Proof.
  induction n as [|n IH]; intros fuel dn jk r w Hb Hlen Hn Hr H8 Hmax Hf;
    (destruct fuel as [|fuel]; [lia|]).
  - apply st_loop_exit. unfold decrypt_loop_body, blockSize.
    assert (length jk < 8)%nat by (symmetry in Hn; apply Nat.div_small_iff in Hn; lia).
    destruct (Z.leb_spec 8 (Z.of_nat (length jk))); [lia|].
    change (8 * Z.of_nat 0) with 0. rewrite Z.sub_0_r, Z.add_0_r.
    rewrite drop_0, take_0, app_nil_l. unfold mret, ST_ret. f_equal. f_equal.
    unfold with_block. rewrite insert_id by done. by destruct w.
  - assert (8 <= length jk)%nat as H8j.
    { destruct (Nat.lt_ge_cases (length jk) 8) as [Hs|]; [|done].
      rewrite Nat.div_small in Hn by done. lia. }
    cbn [blocks] in Hr.
    destruct (decrypt sbox ice (take 8 (drop (length dn) payload))) as [c|e] eqn:Ec; [|done].
    destruct (blocks (decrypt sbox ice) n (drop 8 (drop (length dn) payload))) as [r'|e] eqn:Er;
      [|done].
    injection Hr as <-. pose proof (H8 _ _ Ec) as Hc.
    assert (decrypt_loop_body sbox ice payload (Some b)
      (Z.of_nat (length jk), Z.of_nat (length dn)) w =
      Ok (inl (Z.of_nat (length (drop 8 jk)), Z.of_nat (length (dn ++ c))),
          with_block b (dn ++ c ++ drop 8 jk) w)) as Es.
    { unfold decrypt_loop_body, blockSize.
      destruct (Z.leb_spec 8 (Z.of_nat (length jk))); [|lia]. rewrite Nat2Z.id.
      rewrite decrypt_take by (rewrite length_drop; lia). rewrite Ec. st_run.
      unfold deref. rewrite Hb. st_run. rewrite store_at_mid by lia. rewrite Hc.
      unfold update, with_block. rewrite s32_small by lia.
      rewrite length_drop, length_app, Hc. do 3 f_equal. f_equal; lia. }
    rewrite (st_loop_next _ _ _ _ _ _ Es).
    rewrite (IH fuel (dn ++ c) (drop 8 jk) r').
    + rewrite with_block_twice, !length_app, !length_drop, Hc.
      f_equal. f_equal; [f_equal; lia|]. f_equal. rewrite drop_drop, <- !app_assoc. f_equal.
      replace (8 * S n)%nat with (length c + 8 * n)%nat by lia.
      rewrite take_app_add, <- app_assoc. by rewrite Hc.
    + simpl. rewrite lookup_insert_eq. by rewrite app_assoc.
    + rewrite length_app, length_drop. lia.
    + rewrite length_drop. replace (length jk) with (length jk - 8 + 1 * 8)%nat in Hn by lia.
      rewrite Nat.div_add in Hn by done. lia.
    + rewrite length_app, Hc, <- drop_drop. exact Er.
    + done.
    + done.
    + lia.
Qed.
End Loop.

Lemma decrypt_length sbox k p c : decrypt sbox k p = Ok c -> length c = 8%nat.
Proof.
  unfold decrypt, mbind, result_bind. destruct (load_be p 0) as [l|]; [|done].
  destruct (load_be p 4) as [r|]; [|done]. destruct (res_for _ _ _ _) as [[l' r']|]; [|done].
  rewrite store_block_eq. by intros [= <-].
Qed.

Lemma blocks_tail f n l r : (forall p c, f p = Ok c -> length c = 8%nat) ->
  (8 * n <= length l)%nat -> blocks f n l = Ok r ->
  length r = length l /\ drop (8 * n) r = drop (8 * n) l.
Proof.
  intros H8. revert l r. induction n as [|n IH]; intros l r Hn Hr; cbn [blocks] in Hr.
  - by injection Hr as <-.
  - destruct (f (take 8 l)) as [c|] eqn:Ec; [|done]. apply H8 in Ec as Hc.
    destruct (blocks f n (drop 8 l)) as [r'|] eqn:Er; [|done]. injection Hr as <-.
    destruct (IH (drop 8 l) r') as [Hl Hd]; [rewrite length_drop; lia|done|].
    rewrite length_app, Hl, Hc, length_drop. split; [lia|].
    replace (8 * S n)%nat with (length c + 8 * n)%nat by lia.
    by rewrite drop_app_add, Hd, drop_drop, Hc.
Qed.

(** * The decryption of a payload *)

Section Decrypt.
Context {Msg : Type} (sbox : list (list Z)) (k : IceKey).

Lemma decrypt_run payload plain junk b (w : world Msg) :
  decrypt_stream sbox k payload = Ok plain -> Z.of_nat (length payload) < 2 ^ 31 ->
  length junk = length payload ->
  w_heap w !! b = Some junk ->
  decrypt_payload sbox k payload (Some b) (Z.of_nat (length payload)) w =
    Ok (tt, with_block b plain w).
Proof.
  intros Hp Hmax Hj Hw. unfold decrypt_payload. rewrite s32_small by lia. set (n := (length payload / 8)%nat).
  assert (8 * n <= length payload)%nat as Hn by apply Nat.Div0.mul_div_le.
  pose proof (blocks_tail (decrypt sbox k) n payload plain (decrypt_length sbox k) Hn Hp)
    as [Hl Ht].
  pose proof (decrypt_loop sbox k payload b n
    (S (Z.to_nat (Z.of_nat (length payload)))) [] junk plain w) as Hloop.
  cbn [app length drop] in Hloop. rewrite Hj in Hloop.
  rewrite (st_bind_ok _ _ _ _ _ (Hloop Hw ltac:(lia) ltac:(done) Hp (decrypt_length sbox k)
    Hmax ltac:(lia))).
  set (left_ := (length payload - 8 * n)%nat).
  replace (Z.of_nat (length payload) - 8 * Z.of_nat n) with (Z.of_nat left_) by lia.
  replace (Z.of_nat 0 + 8 * Z.of_nat n) with (Z.of_nat (8 * n)) by lia.
  assert (fetch_at payload (Z.of_nat (8 * n)) (Z.of_nat left_) = Ok (drop (8 * n) payload)) as Ef.
  { unfold fetch_at. rewrite !Nat2Z.id.
    destruct (Z.leb_spec (Z.of_nat (8 * n) + Z.of_nat left_) (Z.of_nat (length payload))); [|lia].
    rewrite firstn_all2; [done|]. rewrite length_drop. lia. }
  rewrite Ef. st_run.
  destruct (Z.eqb_spec (Z.of_nat left_) 0) as [E0|E0].
  - do 3 f_equal. rewrite (firstn_all2 plain) by lia. rewrite (skipn_all2 junk) by lia.
    by rewrite app_nil_r.
  - unfold deref, with_block at 1. cbn [w_heap]. rewrite lookup_insert_eq. st_run.
    assert (store_at (take (8 * n) plain ++ drop (8 * n) junk) (Z.of_nat (8 * n))
      (drop (8 * n) payload) = Ok (take (8 * n) plain ++ drop (8 * n) payload
        ++ drop (length (drop (8 * n) payload)) (drop (8 * n) junk))) as ->.
    { rewrite <- store_at_mid by (rewrite !length_drop; lia).
      do 2 f_equal. rewrite length_take. lia. }
    rewrite (skipn_all2 (drop (8 * n) junk)) by (rewrite !length_drop; lia).
    rewrite app_nil_r, <- Ht, take_drop.
    change (Ok (tt, with_block b plain
      (with_block b (take (8 * n) plain ++ drop (8 * n) junk) w))
      = Ok (tt, with_block b plain w)).
    by rewrite with_block_twice.
Qed.
End Decrypt.

Section Handle.
Context {Msg : Type} `{MessageParser Msg}.
Context (heap_oracle : nat -> option (nat -> Z)) (fuel : nat) (fr : frame).
Context (sbox : list (list Z)) (k : IceKey) (Hses : session sbox k).

(** The state after the first allocation was filled with the plain text. *)
Definition decrypted (plain : list Z) (g : IceStatics) (w : world Msg) : world Msg :=
  mkworld (<[w_next w := plain]> (w_heap w)) (S (w_next w)) g
    (w_out w ++ [OPayloadSize (Z.of_nat (length plain));
                 ODeltaOffset (default 0 (head plain))]).

Lemma handle_payload_run subkeys payload plain junk w : statics_ok (w_ice w) ->
  length subkeys = 32%nat -> heap_oracle (w_next w) = Some junk ->
  decrypt_stream sbox k payload = Ok plain -> (0 < length payload)%nat ->
  Z.of_nat (length payload) < 2 ^ 31 ->
  exists g, statics_ok g /\
    handle_payload heap_oracle fuel fr subkeys payload w =
      unwrap heap_oracle fuel fr (Z.of_nat (length payload)) (Some (w_next w)) plain
        (default 0 (head plain)) (decrypted plain g w).
Proof.
  intros Hg Hsub Hj Hp H0 Hmax.
  destruct (handler_key (w_ice w) subkeys sbox k Hg Hsub Hses) as (g & k0 & E1 & Es & Hg' & E2).
  exists g. split; [done|].
  assert (length plain = length payload) as Hpl.
  { apply (blocks_tail (decrypt sbox k) (length payload / 8) payload plain);
      [apply decrypt_length|apply Nat.Div0.mul_div_le|done]. }
  unfold handle_payload, payload_size. rewrite u32_small, s32_small by lia.
  set (w1 := mkworld (w_heap w) (w_next w) (w_ice w)
    (w_out w ++ [OPayloadSize (Z.of_nat (length payload))])).
  rewrite (st_bind_ok _ _ w tt w1) by done. rewrite (st_bind_ok _ _ w1 w1 w1) by done.
  rewrite (st_bind_ok _ _ w1 (g, k0) w1) by (unfold st_lift; change (w_ice w1) with (w_ice w); by rewrite E1).
  set (w2 := mkworld (w_heap w) (w_next w) g (w_out w1)).
  rewrite (st_bind_ok _ _ w1 tt w2) by done.
  rewrite (st_bind_ok _ _ w2 k w2) by (unfold st_lift; by rewrite E2).
  set (jl := junk <$> seq 0 (Z.to_nat (Z.of_nat (length payload)))).
  set (w3 := mkworld (<[w_next w := jl]> (w_heap w)) (S (w_next w)) g (w_out w1)).
  rewrite (st_bind_ok _ _ w2 (Some (w_next w)) w3)
    by (unfold malloc; simpl w_next; by rewrite Hj).
  assert (decrypt_payload (ice_sbox g) k payload (Some (w_next w)) (Z.of_nat (length payload)) w3
    = Ok (tt, with_block (w_next w) plain w3)) as Ed.
  { rewrite Es. apply (decrypt_run sbox k payload plain jl); [done|done| |].
    - unfold jl. by rewrite length_fmap, length_seq, Nat2Z.id.
    - simpl. by rewrite lookup_insert_eq. }
  rewrite (st_bind_ok _ _ _ _ _ Ed).
  set (w4 := with_block (w_next w) plain w3).
  rewrite (st_bind_ok _ _ w4 plain w4)
    by (unfold deref, w4, with_block; simpl; by rewrite lookup_insert_eq).
  destruct plain as [|d tl]; [simpl in *; lia|].
  rewrite (st_bind_ok _ _ w4 d w4) by done.
  rewrite (st_bind_ok _ _ w4 tt (decrypted (d :: tl) g w)); [done|].
  unfold print, st_modify, decrypted, w4, with_block, w3, w1.
  cbn [w_heap w_next w_ice w_out].
  rewrite insert_insert_eq, <- app_assoc, Hpl. done.
Qed.

(** ** The inner packet *)

(** The fetch of the length dword, and the two comparisons on it. *)
Lemma fetch_ok (l : list Z) off n : 0 <= off -> 0 <= n -> off + n <= Z.of_nat (length l) ->
  fetch_at l off n = Ok (take (Z.to_nat n) (drop (Z.to_nat off) l)).
Proof. intros. unfold fetch_at. by destruct (Z.leb_spec (off + n) (Z.of_nat (length l))); [|lia]. Qed.

Lemma length_dword plain d : 0 <= d < 256 -> d + 5 < Z.of_nat (length plain) ->
  Forall is_byte plain ->
  exists q, fetch_at plain (d + 1) 4 = Ok q /\
    _byteswap_ulong (le_join q) = inner_length plain d /\ 0 <= inner_length plain d < 2 ^ 32.
Proof.
  intros Hd Hl Hb. exists (take 4 (drop (Z.to_nat (d + 1)) plain)).
  split; [apply fetch_ok; lia|]. unfold inner_length.
  replace (Z.to_nat (d + 1)) with (Z.to_nat d + 1)%nat by lia.
  set (q := take 4 (drop (Z.to_nat d + 1) plain)).
  assert (length q = 4%nat) as Hq by (unfold q; rewrite length_take, length_drop; lia).
  assert (Forall is_byte q) as Hqb by (by apply Forall_take, Forall_drop).
  split; [by apply byteswap_reverse|].
  pose proof (le_join_range (reverse q) ltac:(by apply Forall_reverse)) as Hr.
  rewrite length_reverse, Hq in Hr. exact Hr.
Qed.

Lemma size_check n d size : 0 <= n < 2 ^ 32 -> 0 <= d -> d + 5 < size < 2 ^ 31 ->
  (u32 (u32 (n + d) + 5) =? size) = (n =? size - d - 5).
Proof.
  intros Hn Hd Hs. unfold uwrap. rewrite Zplus_mod_idemp_l.
  change (2 ^ 32) with 4294967296 in *.
  destruct (Z.eqb_spec n (size - d - 5)) as [->|Hne].
  - apply Z.eqb_eq. rewrite Z.mod_small; lia.
  - apply Z.eqb_neq. intros E. apply Hne. Z.to_euclidean_division_equations; lia.
Qed.

Lemma offset_ok_spec d tl : offset_ok (d :: tl) = true <->
  0 < d /\ d + 5 < Z.of_nat (length (d :: tl)).
Proof. unfold offset_ok. by rewrite andb_true_iff, !Z.ltb_lt. Qed.

Lemma unwrap_guard d tl : 0 <= d < 256 ->
  (0 <? d) && (u32 (d + 5) <? Z.of_nat (length (d :: tl))) = offset_ok (d :: tl).
Proof. intros Hd. unfold offset_ok. by rewrite u32_small by lia. Qed.

Definition printed (l : list (event Msg)) (w : world Msg) : world Msg :=
  mkworld (w_heap w) (w_next w) (w_ice w) (w_out w ++ l).

(** A payload that is not opened: nothing but the length is printed, and the
    first block stays allocated. *)
Lemma unwrap_closed d tl b w : Forall is_byte (d :: tl) ->
  Z.of_nat (length (d :: tl)) < 2 ^ 31 -> open_payload (d :: tl) = None ->
  unwrap heap_oracle fuel fr (Z.of_nat (length (d :: tl))) (Some b) (d :: tl) d w =
    Ok (tt, printed (if offset_ok (d :: tl)
                     then [ODataFinalSize (s32 (inner_length (d :: tl) d))] else []) w).
Proof.
  intros Hb Hmax Ho. assert (0 <= d < 256) as Hd by (by apply Forall_cons in Hb as [? _]).
  unfold unwrap. rewrite unwrap_guard by done. unfold open_payload in Ho.
  destruct (offset_ok (d :: tl)) eqn:Eo.
  2: { unfold printed. rewrite app_nil_r. by destruct w. }
  apply offset_ok_spec in Eo as [Hd0 Hd5].
  destruct (length_dword (d :: tl) d Hd Hd5 Hb) as (q & Ef & Eq & Hr).
  rewrite (st_bind_ok _ _ w q w) by (unfold st_lift; by rewrite Ef). rewrite Eq. cbv zeta.
  rewrite size_check by lia. cbn [andb] in Ho.
  destruct (inner_length (d :: tl) d =? _); [done|]. reflexivity.
Qed.

Lemma unwrap_open d tl b w data : Forall is_byte (d :: tl) ->
  Z.of_nat (length (d :: tl)) < 2 ^ 31 -> open_payload (d :: tl) = Some data ->
  (exists junk, heap_oracle (w_next w) = Some junk) -> b <> w_next w ->
  let w' := printed [ODataFinalSize (s32 (inner_length (d :: tl) d))] w in
  unwrap heap_oracle fuel fr (Z.of_nat (length (d :: tl))) (Some b) (d :: tl) d w =
    match ReadPacket fuel fr data (Z.of_nat (length data)) with
    | Ok (_, evs) =>
        Ok (tt, mkworld (delete (w_next w) (delete b (<[w_next w := data]> (w_heap w))))
                  (S (w_next w)) (w_ice w) (w_out w' ++ evs))
    | Fault f => Fault f
    end.
Proof.
  intros Hb Hmax Ho [junk Hj] Hne w'.
  assert (0 <= d < 256) as Hd by (by apply Forall_cons in Hb as [? _]).
  unfold unwrap. rewrite unwrap_guard by done. unfold open_payload in Ho.
  destruct (offset_ok (d :: tl)) eqn:Eo; [|done]. apply offset_ok_spec in Eo as [Hd0 Hd5].
  destruct (length_dword (d :: tl) d Hd Hd5 Hb) as (q & Ef & Eq & Hr).
  rewrite (st_bind_ok _ _ w q w) by (unfold st_lift; by rewrite Ef). rewrite Eq. cbv zeta.
  rewrite size_check by lia. cbn [andb] in Ho. set (n := inner_length (d :: tl) d) in *.
  destruct (Z.eqb_spec n (Z.of_nat (length (d :: tl)) - d - 5)) as [En|]; [|done].
  rewrite (st_bind_ok _ _ w tt w') by done.
  set (size := Z.of_nat (length (d :: tl))) in *. assert (0 < n < 2 ^ 31) as Hn by lia.
  assert (length data = Z.to_nat n) as Hdl.
  { injection Ho as <-. rewrite length_drop. lia. }
  set (jl := junk <$> seq 0 (Z.to_nat n)).
  set (w2 := mkworld (<[w_next w := jl]> (w_heap w)) (S (w_next w)) (w_ice w) (w_out w')).
  rewrite (st_bind_ok _ _ w' (Some (w_next w)) w2)
    by (unfold malloc; change (w_next w') with (w_next w); by rewrite Hj).
  rewrite (st_bind_ok _ _ w2 data w2).
  2: { unfold st_lift. rewrite fetch_ok by lia. rewrite firstn_all2.
       - replace (Z.to_nat (d + 5)) with (Z.to_nat d + 5)%nat by lia. by injection Ho as ->.
       - rewrite length_drop. lia. }
  destruct (Z.eqb_spec n 0); [lia|].
  set (w3 := mkworld (<[w_next w := data]> (w_heap w)) (S (w_next w)) (w_ice w) (w_out w')).
  rewrite (st_bind_ok _ _ w2 tt w3).
  2: { unfold update, w2, w3. cbn [w_heap w_next w_ice w_out]. by rewrite insert_insert_eq. }
  set (w4 := mkworld (delete b (w_heap w3)) (S (w_next w)) (w_ice w) (w_out w')).
  rewrite (st_bind_ok _ _ w3 tt w4) by done.
  rewrite (st_bind_ok _ _ w4 data w4).
  2: { unfold deref, w4, w3. cbn [w_heap].
       rewrite lookup_delete_ne, lookup_insert_eq by done. done. }
  rewrite s32_small by lia. replace (Z.of_nat (length data)) with n by lia.
  destruct (ReadPacket fuel fr data n) as [[z evs]|f]; reflexivity.
Qed.
End Handle.

(** * The handler *)

(** No block has a number that is still to be given out. *)
Definition heap_fresh {Msg} (w : world Msg) : Prop :=
  forall i, (w_next w <= i)%nat -> w_heap w !! i = None.

(** A captured datagram of the game server: the chain has an IP header, a UDP
    header with the server's port, and a payload. *)
Definition datagram (eth : list PDU) (ip : iphdr) (udp : udphdr) (payload : list Z) : Prop :=
  find_IP eth = Some ip /\ find_UDP eth = Some udp /\ sport udp = 27015 /\
  find_Raw eth = Some payload.

Definition header_events {Msg} (ip : iphdr) (udp : udphdr) : list (event Msg) :=
  [OPacket (id ip); OVersion (version ip); OSrcAddr (src_addr ip) (dport udp);
   ODstAddr (dst_addr ip) (dport udp)].

Section Capture.
Context {Msg : Type} `{MessageParser Msg}.
Context (heap_oracle : nat -> option (nat -> Z)) (fuel : nat) (fr : frame).
Context (sbox : list (list Z)) (k : IceKey) (Hses : session sbox k).
Context (subkeys : list IceSubkey) (Hsub : length subkeys = 32%nat).
Context (Halloc : forall i, exists junk, heap_oracle i = Some junk).

Lemma handler_payload eth ip udp payload (w w' : world Msg) : datagram eth ip udp payload ->
  handle_payload heap_oracle fuel fr subkeys payload (printed (header_events ip udp) w)
    = Ok (tt, w') ->
  packet_loop_handler heap_oracle fuel fr subkeys eth w = Ok (true, w').
Proof.
  intros (Hi & Hu & Hs & Hr) E. unfold packet_loop_handler. rewrite Hi, Hu, Hs.
  cbn [Z.eqb Pos.eqb].
  rewrite (st_bind_ok _ _ w tt (printed (header_events ip udp) w)) by done.
  rewrite Hr. by rewrite (st_bind_ok _ _ _ _ _ E).
Qed.

Lemma handler_fault eth ip udp payload (w : world Msg) f : datagram eth ip udp payload ->
  handle_payload heap_oracle fuel fr subkeys payload (printed (header_events ip udp) w)
    = Fault f ->
  packet_loop_handler heap_oracle fuel fr subkeys eth w = Fault f.
Proof.
  intros (Hi & Hu & Hs & Hr) E. unfold packet_loop_handler. rewrite Hi, Hu, Hs.
  cbn [Z.eqb Pos.eqb].
  rewrite (st_bind_ok _ _ w tt (printed (header_events ip udp) w)) by done.
  rewrite Hr. by rewrite (st_bind_fault _ _ _ _ E).
Qed.

(** A payload that is opened. *)
Lemma handle_payload_open payload plain data (w : world Msg) :
  statics_ok (w_ice w) -> heap_fresh w -> Forall is_byte plain ->
  decrypt_stream sbox k payload = Ok plain -> length plain = length payload ->
  Z.of_nat (length payload) < 2 ^ 31 -> open_payload plain = Some data ->
  exists g, statics_ok g /\
    handle_payload heap_oracle fuel fr subkeys payload w =
      match ReadPacket fuel fr data (Z.of_nat (length data)) with
      | Ok (_, evs) => Ok (tt, mkworld (w_heap w) (2 + w_next w) g
                                 (w_out w ++ payload_events plain ++ evs))
      | Fault f => Fault f
      end.
Proof.
  intros Hg Hfr Hb Hp Hl Hmax Ho. destruct plain as [|d tl]; [done|].
  destruct (Halloc (w_next w)) as [junk Hj].
  destruct (handle_payload_run heap_oracle fuel fr sbox k Hses subkeys payload (d :: tl) junk w)
    as (g & Hg' & E); [done|done|done|done|rewrite <- Hl; simpl; lia|done|].
  exists g. split; [done|]. rewrite E, <- Hl.
  change (default 0 (head (d :: tl))) with d.
  rewrite (unwrap_open heap_oracle fuel fr d tl (w_next w) _ data);
    [|done|rewrite Hl; done|done|apply Halloc|cbn; lia].
  destruct (ReadPacket fuel fr data (Z.of_nat (length data))) as [[z evs]|f]; [|done].
  do 2 f_equal. unfold decrypted, printed. cbn [w_heap w_next w_ice w_out]. f_equal.
  - apply map_eq. intros i.
    destruct (decide (i = S (w_next w))) as [->|].
    { rewrite lookup_delete_eq. symmetry. apply Hfr. lia. }
    rewrite lookup_delete_ne by done. destruct (decide (i = w_next w)) as [->|].
    { rewrite lookup_delete_eq. symmetry. by apply Hfr. }
    by rewrite lookup_delete_ne, !lookup_insert_ne by done.
  - unfold payload_events. unfold open_payload in Ho.
    destruct (offset_ok (d :: tl)); [|done]. by rewrite <- !app_assoc.
Qed.

(** A payload that is not. *)
Lemma handle_payload_closed payload plain (w : world Msg) :
  statics_ok (w_ice w) -> Forall is_byte plain ->
  decrypt_stream sbox k payload = Ok plain -> length plain = length payload ->
  (0 < length payload)%nat -> Z.of_nat (length payload) < 2 ^ 31 ->
  open_payload plain = None ->
  exists g, statics_ok g /\
    handle_payload heap_oracle fuel fr subkeys payload w =
      Ok (tt, mkworld (<[w_next w := plain]> (w_heap w)) (S (w_next w)) g
                (w_out w ++ payload_events plain)).
Proof.
  intros Hg Hb Hp Hl H0 Hmax Ho. destruct (Halloc (w_next w)) as [junk Hj].
  destruct (handle_payload_run heap_oracle fuel fr sbox k Hses subkeys payload plain junk w)
    as (g & Hg' & E); [done..|].
  destruct plain as [|d tl]; [simpl in *; lia|].
  exists g. split; [done|]. rewrite E, <- Hl.
  change (default 0 (head (d :: tl))) with d.
  rewrite unwrap_closed by (done || by rewrite Hl).
  unfold decrypted, printed, payload_events. cbn [w_heap w_next w_ice w_out default head].
  by rewrite <- app_assoc.
Qed.
End Capture.

(** * Memory that runs out *)

Section Memory.
Context {Msg : Type} `{MessageParser Msg}.
Context (heap_oracle : nat -> option (nat -> Z)).

(** The same memory without an end. *)
Definition endless (i : nat) : option (nat -> Z) := Some (default (fun _ => 0) (heap_oracle i)).

(** What follows when [malloc] fails. *)
Definition no_memory (f : fault) : Prop := f = NullDeref /\ exists i, heap_oracle i = None.

Lemma malloc_cases n (w : world Msg) :
  malloc heap_oracle n w = malloc endless n w \/
  ((exists i, heap_oracle i = None) /\ exists w', malloc heap_oracle n w = Ok (None, w')).
Proof.
  unfold malloc, endless. destruct (heap_oracle (w_next w)) eqn:E; [by left|].
  right. split; [by exists (w_next w)|by eexists].
Qed.

Lemma unwrap_memory fuel fr size p o d (w : world Msg) :
  unless no_memory (unwrap heap_oracle fuel fr size p o d w) (unwrap endless fuel fr size p o d w).
Proof.
  unfold unwrap. destruct (0 <? d) eqn:E0; [|by left]. cbn [andb].
  destruct (u32 (d + 5) <? size) eqn:E5; [|by left].
  apply unless_bind; [by left|]. intros q w1 _. apply unless_bind; [by left|]. intros _ w2 _.
  set (n := _byteswap_ulong (le_join q)).
  destruct (Z.eqb_spec (u32 (u32 (n + d) + 5)) size) as [Es|]; [|by left].
  destruct (Z.eqb_spec n 0) as [Ez|].
  { rewrite Ez, Z.add_0_l in Es. unfold uwrap in *. rewrite Zplus_mod_idemp_l in Es. lia. }
  destruct (malloc_cases n w2) as [E|(Hi & w3 & E)].
  { apply unless_bind; [by left|]. intros r w3 _. by left. }
  rewrite (st_bind_ok _ _ _ _ _ E). unfold st_lift at 1.
  destruct (fetch_at o (d + 5) n) as [src|f] eqn:Ef.
  - right. exists NullDeref. split; [by split|]. rewrite (st_bind_ok _ _ w3 src w3) by done.
    by rewrite (st_bind_fault _ _ _ NullDeref) by done.
  - left. rewrite (st_bind_fault _ _ _ f) by done. unfold malloc, endless.
    rewrite (st_bind_ok _ _ _ _ _ eq_refl). by rewrite (st_bind_fault _ _ _ f).
Qed.

(** The decryption into a null pointer ends there, or as it would anywhere. *)
Lemma decrypt_null sbox ice payload size (w : world Msg) :
  decrypt_payload sbox ice payload None size w = Fault NullDeref \/
  (exists w', decrypt_payload sbox ice payload None size w = Ok (tt, w')) \/
  (exists f, forall p (w' : world Msg), decrypt_payload sbox ice payload p size w' = Fault f).
Proof.
  unfold decrypt_payload. destruct (blockSize ice <=? s32 size) eqn:Es.
  - destruct (decrypt sbox ice (drop (Z.to_nat 0) payload)) as [blk|f] eqn:Ed; [left|right; right].
    + apply st_bind_fault, st_loop_fault. unfold decrypt_loop_body. rewrite Es. st_run. by rewrite Ed.
    + exists f. intros p w'. apply st_bind_fault, st_loop_fault. unfold decrypt_loop_body. rewrite Es.
      st_run. by rewrite Ed.
  - assert (forall p (w' : world Msg), st_loop (S (Z.to_nat size)) (decrypt_loop_body sbox ice payload p)
      (s32 size, 0) w' = Ok ((s32 size, 0), w')) as El.
    { intros p w'. apply st_loop_exit. unfold decrypt_loop_body. by rewrite Es. }
    destruct (fetch_at payload 0 (s32 size)) as [tl|f] eqn:Ef.
    + rewrite (st_bind_ok _ _ _ _ _ (El None w)). st_run. rewrite Ef.
      destruct (s32 size =? 0); [right; left; by exists w|by left].
    + right. right. exists f. intros p w'. rewrite (st_bind_ok _ _ _ _ _ (El p w')). st_run. by rewrite Ef.
Qed.

Lemma handle_payload_memory fuel fr subkeys payload (w : world Msg) :
  unless no_memory (handle_payload heap_oracle fuel fr subkeys payload w)
    (handle_payload endless fuel fr subkeys payload w).
Proof.
  unfold handle_payload. apply unless_bind; [by left|]. intros _ w1 _.
  apply unless_bind; [by left|]. intros w2 w2' _. apply unless_bind; [by left|]. intros [g ice] w3 _.
  apply unless_bind; [by left|]. intros _ w4 _. apply unless_bind; [by left|]. intros ice' w5 _.
  set (size := payload_size payload). destruct (malloc_cases size w5) as [E|(Hi & w6 & E)].
  - apply unless_bind; [by left|]. intros p w6 _. do 4 (apply unless_bind; [by left|]; intros ? ? _).
    apply unwrap_memory.
  - rewrite (st_bind_ok _ _ _ _ _ E).
    destruct (decrypt_null (ice_sbox g) ice' payload size w6) as [Ed|[(w7 & Ed)|(f & Ed)]].
    + right. exists NullDeref. split; [by split|]. by apply st_bind_fault.
    + right. exists NullDeref. split; [by split|]. rewrite (st_bind_ok _ _ _ _ _ Ed). done.
    + left. rewrite (st_bind_fault _ _ _ f) by done. unfold malloc, endless.
      rewrite (st_bind_ok _ _ _ _ _ eq_refl). by rewrite (st_bind_fault _ _ _ f).
Qed.

(** A call of the handler comes to what it does with endless memory, or uses a null pointer. *)
Lemma handler_memory fuel fr subkeys eth (w : world Msg) :
  unless no_memory (packet_loop_handler heap_oracle fuel fr subkeys eth w)
    (packet_loop_handler endless fuel fr subkeys eth w).
Proof.
  unfold packet_loop_handler. destruct (find_IP eth) as [ip|]; [|by left].
  destruct (find_UDP eth) as [udp|]; [|by left]. destruct (sport udp =? 27015); [|by left].
  apply unless_bind; [by left|]. intros _ w1 _. destruct (find_Raw eth); [|by left].
  apply unless_bind; [apply handle_payload_memory|]. intros; by left.
Qed.
End Memory.
