(* ===== verification/SniffProps.v ===== *)
(** What the program does with captured packets: the properties of
    [packet_loop_handler] and [ReadPacket], for every message parser that keeps
    the laws of its interface. *)

From S2P Require Import Prelude CMem BitRead BitStream BitOps Ice IceProofs.
From S2P Require Import Tins Sniffles Walk Packets Handler.

(** * Instances for the witnesses *)

(** The simplest parser: a message is the bytes of its array. *)
Definition raw_parse (k : Z) (m : mem) (p n : Z) : result (option (list Z)) :=
  if 0 <=? n then bs ← load_bytes m p (Z.to_nat n); Ok (Some bs) else Ok None.

Definition raw_parser : MessageParser (list Z) := {|
  ParseFromArray := raw_parse;
  decode := fun _ bs => Some bs
|}.

Lemma raw_parser_laws : @ParserLaws (list Z) raw_parser.
Proof.
  intros k m p bs Hb Hh Hp Hw Hn. cbn. unfold raw_parse.
  destruct (Z.leb_spec 0 (Z.of_nat (length bs))); [|lia].
  by rewrite Nat2Z.id, (res_bind_ok _ _ _ (load_bytes_holds m p bs Hh)).
Qed.

(** An array of zeroes at address 4096, and nothing else in memory. *)
Definition zero_array : list Z := replicate (Z.to_nat NET_MAX_PAYLOAD) 0.
Definition zero_frame : frame :=
  mkframe (block 4096 zero_array) 4096 (mkBitRead 0 0 0 0 0 true 0 0).

Lemma zero_frame_ok : frame_ok zero_frame zero_array.
Proof.
  assert (Z.of_nat (length zero_array) = NET_MAX_PAYLOAD) as Hl
    by (unfold zero_array; rewrite length_replicate; apply Z2Nat.id; done).
  split; [apply holds_blit|]. split; [|split; [exact Hl|repeat split; reflexivity]].
  unfold zero_array. apply Forall_replicate. unfold is_byte. lia.
Qed.

(** A header with clear flags, and three messages, the second of a kind that is
    not handled. *)
Definition sample_header : packet_header := mkheader 7 8 0 0 0.
Definition sample_messages : list (Z * list Z) :=
  [(net_Tick, [8; 1]); (31, [1; 2; 3]); (svc_PacketEntities, [16; 255])].

Lemma sample_header_ok : header_ok sample_header.
Proof. split; cbn; lia. Qed.

Lemma sample_messages_ok : Forall message_ok sample_messages.
Proof.
  unfold sample_messages, message_ok, is_byte, net_Tick, svc_PacketEntities.
  repeat constructor; cbn; lia.
Qed.

Definition sample_ip : iphdr := mkiphdr 4 1 2 3.
Definition server_udp : udphdr := mkudphdr 34665 34921 0 0.
Definition world0 : world (list Z) := mkworld ∅ 0 ice_statics0 [].

Lemma world0_fresh : heap_fresh world0.
Proof. done. Qed.

Definition junk_heap : nat -> option (nat -> Z) := fun _ => Some (fun _ => 205).
Definition junk_subkeys : list IceSubkey := replicate 32 (mkIceSubkey [1; 2; 3]).

(** The plain text of a captured packet is bytes. *)
Lemma wrap_payload_byte filler data : Forall is_byte filler -> Forall is_byte data ->
  (length filler < 256)%nat -> Forall is_byte (wrap_payload filler data).
Proof.
  intros Hf Hd Hl. unfold wrap_payload. constructor; [unfold is_byte; lia|].
  apply Forall_app. split; [done|]. apply Forall_app. split; [apply be_bytes_byte|done].
Qed.

Lemma enc_packet_byte h msgs : header_ok h -> Forall message_ok msgs ->
  Z.of_nat (length (enc_packet h msgs)) < 2 ^ 32 -> Forall is_byte (enc_packet h msgs).
Proof.
  intros Hh Hm Hl. unfold enc_packet in *. apply Forall_app. split; [by apply enc_header_byte|].
  apply enc_messages_byte; [done|]. eapply Forall_impl; [by apply enc_messages_lengths|].
  intros x Hx. simpl in Hx. rewrite length_app in Hl. lia.
Qed.

Section Sniffer.
Context {Msg : Type} `{HL : ParserLaws Msg}.

(** What is printed of a packet: nothing, if its flags stop the walk. *)
Definition packet_events (h : packet_header) (msgs : list (Z * list Z)) : list (event Msg) :=
  if flags_pass (s32 (h_flags h)) then concat (message_events <$> msgs) else [].

Lemma ReadPacket_events fr old h msgs fuel : frame_ok fr old -> header_ok h -> Forall message_ok msgs ->
  Z.of_nat (length (enc_packet h msgs)) + 10 <= NET_MAX_PAYLOAD -> (length msgs < fuel)%nat ->
  ReadPacket fuel fr (enc_packet h msgs) (Z.of_nat (length (enc_packet h msgs))) =
    Ok (Z.of_nat (length (enc_packet h msgs)), packet_events h msgs).
Proof.
  intros Hfr Hh Hm Hmax Hfuel. unfold packet_events. destruct (flags_pass _) eqn:Ef.
  - by apply (ReadPacket_messages fr old Hfr).
  - apply (ReadPacket_flags_stop fr old Hfr); try done. apply enc_messages_byte; [done|].
    eapply Forall_impl; [by apply enc_messages_lengths|]. intros x Hx. simpl in Hx.
    unfold enc_packet, NET_MAX_PAYLOAD in Hmax. rewrite length_app in Hmax. lia.
Qed.

(** A datagram of the server, for the clients of the interface. *)
Lemma capture_packet fr old heap_oracle subkeys sbox k ip udp eth h msgs filler
    payload fuel (w : world Msg) :
  frame_ok fr old -> (forall i, exists junk, heap_oracle i = Some junk) ->
  length subkeys = 32%nat -> session sbox k -> statics_ok (w_ice w) -> heap_fresh w ->
  header_ok h -> Forall message_ok msgs ->
  Forall is_byte filler -> (0 < length filler < 256)%nat ->
  Z.of_nat (length (enc_packet h msgs)) + 10 <= NET_MAX_PAYLOAD ->
  encrypt_stream sbox k (wrap_payload filler (enc_packet h msgs)) = Ok payload ->
  datagram eth ip udp payload -> (length msgs < fuel)%nat ->
  exists g, statics_ok g /\
    packet_loop_handler heap_oracle fuel fr subkeys eth w =
      Ok (true, mkworld (w_heap w) (2 + w_next w) g
        (w_out w ++ header_events ip udp ++
         payload_events (wrap_payload filler (enc_packet h msgs)) ++
         packet_events h msgs)).
Proof.
  intros Hfr Ha Hsub Hses Hg Hw Hh Hm Hfb Hfl Hmax Henc Hd Hfuel.
  unfold NET_MAX_PAYLOAD in Hmax.
  destruct game_cipher_ok as (sbox' & k' & Hses' & Hs & Hk).
  destruct (session_unique _ _ _ _ Hses Hses') as [<- <-]. clear Hses'.
  pose proof (enc_header_length h) as Hhl.
  assert (0 < length (enc_packet h msgs))%nat
    by (unfold enc_packet; rewrite length_app; lia).
  assert (Forall is_byte (wrap_payload filler (enc_packet h msgs))) as Hpb
    by (apply wrap_payload_byte; [done|apply enc_packet_byte; done || lia|lia]).
  destruct (encrypt_stream_inverse sbox k _ Hs Hk Hpb) as (c & Ec & Hl & Hcb & D).
  rewrite Henc in Ec. injection Ec as <-.
  assert (length (wrap_payload filler (enc_packet h msgs))
          = 5 + length filler + length (enc_packet h msgs))%nat as Hwl.
  { unfold wrap_payload. cbn [length]. rewrite !length_app. cbn [be_bytes length]. lia. }
  destruct (handle_payload_open heap_oracle fuel fr sbox k Hses subkeys Hsub Ha payload
    (wrap_payload filler (enc_packet h msgs)) (enc_packet h msgs)
    (printed (header_events ip udp) w)) as (g & Hg' & E); try done; try lia.
  { apply open_wrapped; lia. }
  exists g. split; [done|]. apply (handler_payload heap_oracle fuel fr subkeys eth ip udp payload);
    [done|]. rewrite E.
  rewrite (ReadPacket_events fr old h msgs fuel) by (done || unfold NET_MAX_PAYLOAD; lia).
  cbn [printed w_heap w_next w_out]. by rewrite <- app_assoc.
Qed.
(** What [capture_prints_messages] states. *)
Lemma capture_messages fr old heap_oracle subkeys sbox k ip udp eth h msgs filler
    payload fuel (w : world Msg) :
  frame_ok fr old -> (forall i, exists junk, heap_oracle i = Some junk) ->
  length subkeys = 32%nat -> session sbox k -> statics_ok (w_ice w) -> heap_fresh w ->
  header_ok h -> flags_pass (s32 (h_flags h)) = true -> Forall message_ok msgs ->
  Forall is_byte filler -> (0 < length filler < 256)%nat ->
  Z.of_nat (length (enc_packet h msgs)) + 10 <= NET_MAX_PAYLOAD ->
  encrypt_stream sbox k (wrap_payload filler (enc_packet h msgs)) = Ok payload ->
  datagram eth ip udp payload -> (length msgs < fuel)%nat ->
  exists g, statics_ok g /\
    packet_loop_handler heap_oracle fuel fr subkeys eth w =
      Ok (true, mkworld (w_heap w) (2 + w_next w) g
        (w_out w ++ header_events ip udp ++
         payload_events (wrap_payload filler (enc_packet h msgs)) ++
         concat (message_events <$> msgs))).
Proof.
  intros Hfr Ha Hsub Hses Hg Hw Hh Hf Hm. pose proof (capture_packet fr old heap_oracle subkeys sbox k ip udp
    eth h msgs filler payload fuel w Hfr Ha Hsub Hses Hg Hw Hh Hm) as E.
  unfold packet_events in E. by rewrite Hf in E.
Qed.

(** End to end.  A datagram from the game server's port whose payload is
    the ICE encryption, under the game's key, of an offset byte, filler, the
    big-endian length and a packet of messages makes the handler print the
    packet's data and then exactly the messages of the four kinds it knows, in
    order; both heap blocks are released, and the next packet is asked for. *)
Theorem capture_prints_messages fr old heap_oracle subkeys sbox k ip udp eth h msgs filler
    payload fuel (w : world Msg) :
  frame_ok fr old -> (forall i, exists junk, heap_oracle i = Some junk) ->
  length subkeys = 32%nat -> session sbox k -> statics_ok (w_ice w) -> heap_fresh w ->
  header_ok h -> flags_pass (s32 (h_flags h)) = true -> Forall message_ok msgs ->
  Forall is_byte filler -> (0 < length filler < 256)%nat ->
  Z.of_nat (length (enc_packet h msgs)) + 10 <= NET_MAX_PAYLOAD ->
  encrypt_stream sbox k (wrap_payload filler (enc_packet h msgs)) = Ok payload ->
  datagram eth ip udp payload -> (length msgs < fuel)%nat ->
  exists g, statics_ok g /\
    packet_loop_handler heap_oracle fuel fr subkeys eth w =
      Ok (true, mkworld (w_heap w) (2 + w_next w) g
        (w_out w ++ header_events ip udp ++
         payload_events (wrap_payload filler (enc_packet h msgs)) ++
         concat (message_events <$> msgs))).
Proof. apply capture_messages. Qed.
End Sniffer.

(** A datagram with the three sample messages: the tick and the entities are
    printed, the unknown message in between is skipped. *)
Lemma capture_prints_messages_witness : exists sbox k payload g,
  session sbox k /\
  encrypt_stream sbox k (wrap_payload [9; 9] (enc_packet sample_header sample_messages))
    = Ok payload /\
  @packet_loop_handler (list Z) raw_parser junk_heap 4 zero_frame junk_subkeys
    [PDU_other 2; PDU_IP sample_ip; PDU_UDP server_udp; PDU_Raw payload] world0 =
  Ok (true, mkworld ∅ 2 g
    [OPacket 256; OVersion 4; OSrcAddr 2 27016; ODstAddr 3 27016; OPayloadSize 32;
     ODeltaOffset 2; ODataFinalSize 25; OMsg net_Tick 2 [8; 1];
     OMsg svc_PacketEntities 2 [16; 255]]).
Proof.
  destruct game_cipher_ok as (sbox & k & Hses & Hs & Hk).
  destruct (encrypt_stream_inverse sbox k
    (wrap_payload [9; 9] (enc_packet sample_header sample_messages)) Hs Hk) as (c & Ec & _).
  { apply wrap_payload_byte; [|apply enc_packet_byte|].
    - repeat constructor; unfold is_byte; lia.
    - exact sample_header_ok.
    - exact sample_messages_ok.
    - cbv; done.
    - cbn; lia. }
  destruct (@capture_prints_messages (list Z) raw_parser raw_parser_laws zero_frame zero_array
    junk_heap junk_subkeys sbox k sample_ip server_udp
    [PDU_other 2; PDU_IP sample_ip; PDU_UDP server_udp; PDU_Raw c]
    sample_header sample_messages [9; 9] c 4 world0 zero_frame_ok) as (g & _ & E).
  - intros i. by exists (fun _ => 205).
  - reflexivity.
  - exact Hses.
  - exact statics0_ok.
  - exact world0_fresh.
  - exact sample_header_ok.
  - reflexivity.
  - exact sample_messages_ok.
  - repeat constructor; unfold is_byte; lia.
  - cbn; lia.
  - cbv; done.
  - exact Ec.
  - split; [reflexivity|]. split; [reflexivity|]. split; [reflexivity|]. reflexivity.
  - cbn; lia.
  - exists sbox, k, c, g. split; [exact Hses|]. split; [exact Ec|]. rewrite E. reflexivity.
Defined.

Section Walks.
Context {Msg : Type} `{HL : ParserLaws Msg}.
Context (fr : frame) (old : list Z) (Hfr : frame_ok fr old).

Let mem_of (pkt : list Z) : mem := blit (fr_mem fr) (fr_data fr) pkt.

(** C2: refinement.  On every packet of at least eight bytes that leaves ten
    bytes of the array free, [ReadPacket] does round for round what the
    abstract walk over a bit cursor does, parser faults and unbounded runs
    included: the reader's word cache, its masks and its pointer arithmetic
    never show. *)
Theorem ReadPacket_refines_walk fuel pkt : Forall is_byte pkt ->
  8 <= Z.of_nat (length pkt) -> Z.of_nat (length pkt) + 10 <= NET_MAX_PAYLOAD ->
  ReadPacket (Msg := Msg) fuel fr pkt (Z.of_nat (length pkt)) =
    (out ← abs_packet (mem_of pkt) (fr_data fr) (le_join (packet_array pkt old))
             (8 * NET_MAX_PAYLOAD) (Z.of_nat (length pkt)) fuel;
     Ok (Z.of_nat (length pkt), out)).
Proof. apply (ReadPacket_walk fr old Hfr). Qed.

(** C13: a code bug.  A message whose length field is minus the size of its own
    identifier and length fields makes [SeekRelative(Size * 8)] return to the
    beginning of the message: whatever the bound on the rounds, [ReadPacket]
    does not come to an end, whatever follows in the packet. *)
Theorem negative_length_never_ends h k rest fuel : header_ok h ->
  flags_pass (s32 (h_flags h)) = true -> 0 <= k < 2 ^ 31 -> known k = false ->
  Forall is_byte rest ->
  Z.of_nat (length (enc_header h ++ spin_message k ++ rest)) + 10 <= NET_MAX_PAYLOAD ->
  ReadPacket (Msg := Msg) fuel fr (enc_header h ++ spin_message k ++ rest)
    (Z.of_nat (length (enc_header h ++ spin_message k ++ rest))) = Fault OutOfFuel.
Proof. apply (ReadPacket_spins fr old Hfr). Qed.

(** C14: termination.  When no length field that the walk meets is negative or so large that
    eight times it overflows, [ReadPacket] comes to an end within as many rounds as the packet has
    bytes, for every message parser that keeps its law: it returns, or the parser faults on one of
    the messages, and then that message claims to go on behind the end of the whole array. *)
Theorem ReadPacket_terminates h body fuel : header_ok h -> Forall is_byte body ->
  let pkt := enc_header h ++ body in
  let size := Z.of_nat (length pkt) in
  let first := At (8 * Z.of_nat (length (enc_header h))) in
  size + 10 <= NET_MAX_PAYLOAD ->
  (forall c, visits (packet_array pkt old) size first c ->
     abs_bytes_read (8 * NET_MAX_PAYLOAD) c < size ->
     0 <= size_field (packet_array pkt old) c < 2 ^ 28) ->
  (length pkt <= fuel)%nat ->
  (exists out : list (event Msg), ReadPacket fuel fr pkt size = Ok (size, out)) \/
  ends_at_parser (Msg := Msg) (mem_of pkt) (fr_data fr) (packet_array pkt old) size first
    (ReadPacket (Msg := Msg) fuel fr pkt size).
Proof. apply (ReadPacket_returns fr old Hfr). Qed.

(** C15: safety.  Whatever the bytes of the packet, the walk itself never reads
    outside the array, indexes a table out of range, shifts by a bad count or
    fails an assertion: a fault is one of the message parser, or the walk goes
    on for more rounds than allowed. *)
Theorem ReadPacket_safe pkt fuel f : Forall is_byte pkt ->
  Z.of_nat (length pkt) + 10 <= NET_MAX_PAYLOAD ->
  ReadPacket (Msg := Msg) fuel fr pkt (Z.of_nat (length pkt)) = Fault f ->
  f = OutOfFuel \/
  exists k p n, ParseFromArray (Msg := Msg) k (mem_of pkt) p n = Fault f.
Proof. apply (ReadPacket_faults fr old Hfr). Qed.

(** C16: a code bug.  The length field is never compared with what is left of
    the packet: a message that claims [n] bytes where fewer follow is completed
    with what the stack array held before, and printed. *)
Theorem overlong_message_reads_stale_bytes h k body n fuel : header_ok h ->
  flags_pass (s32 (h_flags h)) = true -> 0 <= k < 2 ^ 31 -> Forall is_byte body ->
  (0 < length body <= n)%nat ->
  let pkt := enc_header h ++ varint32_enc k ++ varint32_enc (Z.of_nat n) ++ body in
  Z.of_nat (length pkt + n) + 10 <= NET_MAX_PAYLOAD -> (2 <= fuel)%nat ->
  ReadPacket fuel fr pkt (Z.of_nat (length pkt)) =
    Ok (Z.of_nat (length pkt),
        message_events (k, body ++ take (n - length body) (drop (length pkt) old))).
Proof. apply (ReadPacket_overlong fr old Hfr). Qed.

(** The flags gate.  A packet whose flags are neither zero nor end in a
    byte of at least 0xE1 is passed over: nothing of its body is looked at. *)
Theorem flagged_packet_skipped fuel h body : header_ok h -> Forall is_byte body ->
  Z.of_nat (length (enc_header h ++ body)) + 10 <= NET_MAX_PAYLOAD ->
  h_flags h <> 0 -> h_flags h mod 256 < 0xE1 ->
  ReadPacket (Msg := Msg) fuel fr (enc_header h ++ body)
      (Z.of_nat (length (enc_header h ++ body)))
    = Ok (Z.of_nat (length (enc_header h ++ body)), []).
Proof.
  intros Hh Hb Hmax H0 Hlow. apply (ReadPacket_flags_stop fr old Hfr); try done.
  destruct Hh as [Hf _]. unfold flags_pass.
  assert (s32 (h_flags h) <> 0) as Hne.
  { destruct (Z.lt_ge_cases (h_flags h) 2147483648); [rewrite s32_small by lia; done|].
    rewrite s32_wrap by lia. lia. }
  assert (u8 (s32 (h_flags h)) = h_flags h mod 256) as ->.
  { destruct (Z.lt_ge_cases (h_flags h) 2147483648); [by rewrite s32_small by lia|].
    rewrite s32_wrap by lia. unfold uwrap. change (2 ^ 8) with 256.
    replace (h_flags h - 4294967296) with (h_flags h + (-16777216) * 256) by lia.
    by rewrite Z.mod_add by lia. }
  destruct (Z.eqb_spec (s32 (h_flags h)) 0); [done|].
  by destruct (Z.leb_spec 0xE1 (h_flags h mod 256)); [lia|].
Qed.
End Walks.

(** * Witnesses *)

Lemma ReadPacket_refines_walk_witness :
  @ReadPacket (list Z) raw_parser 4 zero_frame (enc_packet sample_header sample_messages) 25 =
    (out ← abs_packet (H := raw_parser)
             (blit (fr_mem zero_frame) (fr_data zero_frame) (enc_packet sample_header sample_messages))
             (fr_data zero_frame)
             (le_join (packet_array (enc_packet sample_header sample_messages) zero_array))
             (8 * NET_MAX_PAYLOAD) 25 4;
     Ok (25, out)).
Proof.
  apply (@ReadPacket_refines_walk (list Z) raw_parser zero_frame zero_array zero_frame_ok 4
    (enc_packet sample_header sample_messages)).
  - apply enc_packet_byte; [exact sample_header_ok|exact sample_messages_ok|cbv; done].
  - apply Z.leb_le. reflexivity.
  - apply Z.leb_le. reflexivity.
Defined.

Lemma negative_length_never_ends_witness :
  @ReadPacket (list Z) raw_parser 1000 zero_frame
    [7; 0; 0; 0; 8; 0; 0; 0; 0; 0; 0; 0; 31; 0xFA; 0xFF; 0xFF; 0xFF; 0x0F] 18 = Fault OutOfFuel.
Proof.
  apply (@negative_length_never_ends (list Z) raw_parser zero_frame zero_array zero_frame_ok
    sample_header 31 [] 1000).
  - exact sample_header_ok.
  - reflexivity.
  - lia.
  - reflexivity.
  - constructor.
  - apply Z.leb_le. reflexivity.
Defined.

(** The walk over a packet with one message visits its beginning and its end. *)
Section OneMessage.
Context (fr : frame) (old : list Z) (Hfr : frame_ok fr old).

Let pkt : list Z := enc_header sample_header ++ enc_message (31, [1; 2; 3]).
Let arr : list Z := packet_array pkt old.

Lemma one_message_bytes : Forall is_byte (enc_message (31, [1; 2; 3])).
Proof.
  apply enc_message_byte; [|done]. split; [cbn; lia|].
  repeat constructor; unfold is_byte; lia.
Qed.

Lemma one_message_header :
  abs_header (le_join arr) (8 * Z.of_nat (length arr)) (At 96) = (31, 3, At 112) /\
  Z.of_nat (length arr) = NET_MAX_PAYLOAD.
Proof.
  assert (Forall is_byte pkt) as Hb.
  { apply Forall_app. split; [apply enc_header_byte, sample_header_ok|exact one_message_bytes]. }
  assert (Z.of_nat (length pkt) <= NET_MAX_PAYLOAD) as Hmax by (cbv; done).
  pose proof (array_len fr old Hfr pkt Hmax) as Hlen. fold arr in Hlen. split; [|exact Hlen].
  apply (abs_header_message _ _ arr (packet_buffer fr old Hfr pkt Hb Hmax)
    (enc_header sample_header) (31, [1; 2; 3]) (drop (length pkt) old)).
  - unfold arr, packet_array, pkt. by rewrite <- app_assoc.
  - split; [cbn; lia|]. repeat constructor; unfold is_byte; lia.
  - rewrite Hlen. reflexivity.
Qed.

Lemma one_message_visits c : visits arr 17 (At 96) c -> abs_bytes_read (8 * NET_MAX_PAYLOAD) c < 17 -> c = At 96.
Proof.
  destruct one_message_header as [Eh Hlen]. intros Hv Hc. assert (c = At 96 \/ c = At 136) as [-> | ->]; [|done|].
  - clear Hc. induction Hv as [|c Hv [-> | ->] Hc]; [by left| |].
    + right. unfold abs_next. rewrite Eh, Hlen. reflexivity.
    + exfalso. revert Hc. rewrite Hlen. unfold abs_bytes_read. cbn [abs_tell].
      change ((136 + 7) / 8) with 17. lia.
  - exfalso. revert Hc. unfold abs_bytes_read. cbn [abs_tell]. change ((136 + 7) / 8) with 17. lia.
Qed.

Lemma one_message_field : size_field arr (At 96) = 3 /\ body_at arr (At 96) = 14 /\ Z.of_nat (length arr) = NET_MAX_PAYLOAD.
Proof.
  destruct one_message_header as [Eh Hlen]. split; [|split; [|done]].
  - unfold size_field. by rewrite Eh.
  - unfold body_at. rewrite Eh. reflexivity.
Qed.
End OneMessage.

Lemma ReadPacket_terminates_witness : exists out,
  @ReadPacket (list Z) raw_parser 17 zero_frame
    (enc_header sample_header ++ enc_message (31, [1; 2; 3])) 17 = Ok (17, out).
Proof.
  destruct (one_message_field zero_frame zero_array zero_frame_ok) as (Es & Eb & El).
  destruct (@ReadPacket_terminates (list Z) raw_parser raw_parser_laws zero_frame zero_array zero_frame_ok
    sample_header (enc_message (31, [1; 2; 3])) 17) as [H|(c & j & f & Hv & Hc & Hi & _)].
  - exact sample_header_ok.
  - exact one_message_bytes.
  - apply Z.leb_le. reflexivity.
  - intros c Hv Hc. rewrite (one_message_visits zero_frame zero_array zero_frame_ok c Hv Hc), Es. lia.
  - apply Nat.leb_le. reflexivity.
  - exact H.
  - rewrite El in Hc. rewrite (one_message_visits zero_frame zero_array zero_frame_ok c Hv Hc), Es, Eb, El in Hi.
    unfold NET_MAX_PAYLOAD in Hi. lia.
Defined.

Lemma ReadPacket_safe_witness :
  let pkt := [7; 0; 0; 0; 8; 0; 0; 0; 0; 0; 0; 0; 31; 0xFA; 0xFF; 0xFF; 0xFF; 0x0F] in
  @ReadPacket (list Z) raw_parser 3 zero_frame pkt 18 = Fault OutOfFuel /\
  (OutOfFuel = OutOfFuel \/
   exists k p n, @ParseFromArray (list Z) raw_parser k
     (blit (fr_mem zero_frame) (fr_data zero_frame) pkt) p n = Fault OutOfFuel).
Proof.
  assert (@ReadPacket (list Z) raw_parser 3 zero_frame
    [7; 0; 0; 0; 8; 0; 0; 0; 0; 0; 0; 0; 31; 0xFA; 0xFF; 0xFF; 0xFF; 0x0F] 18
    = Fault OutOfFuel) as E.
  { apply (@ReadPacket_spins (list Z) raw_parser zero_frame zero_array zero_frame_ok
      sample_header 31 [] 3).
    - exact sample_header_ok.
    - reflexivity.
    - lia.
    - reflexivity.
    - constructor.
    - apply Z.leb_le. reflexivity. }
  split; [exact E|].
  apply (@ReadPacket_safe (list Z) raw_parser zero_frame zero_array zero_frame_ok
    [7; 0; 0; 0; 8; 0; 0; 0; 0; 0; 0; 0; 31; 0xFA; 0xFF; 0xFF; 0xFF; 0x0F] 3 OutOfFuel).
  - repeat constructor; unfold is_byte; lia.
  - apply Z.leb_le. reflexivity.
  - exact E.
Defined.

(** Two bytes that follow no packet are zeroes of the array. *)
Lemma overlong_message_reads_stale_bytes_witness :
  @ReadPacket (list Z) raw_parser 2 zero_frame
    [7; 0; 0; 0; 8; 0; 0; 0; 0; 0; 0; 0; 4; 3; 8] 15 = Ok (15, [OMsg net_Tick 3 [8; 0; 0]]).
Proof.
  assert (take 2 (drop 15 zero_array) = [0; 0]) as Hstale.
  { unfold zero_array. rewrite drop_replicate, take_replicate.
    replace (2 `min` (Z.to_nat NET_MAX_PAYLOAD - 15))%nat with 2%nat; [done|].
    unfold NET_MAX_PAYLOAD. lia. }
  pose proof (@overlong_message_reads_stale_bytes (list Z) raw_parser raw_parser_laws zero_frame
    zero_array zero_frame_ok sample_header net_Tick [8] 3 2 sample_header_ok) as E.
  cbv zeta in E.
  change (length (enc_header sample_header ++ varint32_enc net_Tick ++ varint32_enc (Z.of_nat 3)
    ++ [8])) with 15%nat in E.
  change (3 - length [8%Z])%nat with 2%nat in E. rewrite Hstale in E.
  apply E.
  - reflexivity.
  - unfold net_Tick. lia.
  - repeat constructor; unfold is_byte; lia.
  - cbn. lia.
  - unfold NET_MAX_PAYLOAD. lia.
  - lia.
Defined.

Lemma flagged_packet_skipped_witness :
  @ReadPacket (list Z) raw_parser 2 zero_frame
    [7; 0; 0; 0; 8; 0; 0; 0; 1; 0; 0; 0; 4; 1; 8] 15 = Ok (15, []).
Proof.
  apply (@flagged_packet_skipped (list Z) raw_parser zero_frame zero_array zero_frame_ok 2
    (mkheader 7 8 1 0 0) [4; 1; 8]).
  - split; cbn; lia.
  - repeat constructor; unfold is_byte; lia.
  - apply Z.leb_le. reflexivity.
  - cbn. lia.
  - reflexivity.
Defined.

(** * Traffic that carries no packet *)

Section Others.
Context {Msg : Type} `{MessageParser Msg}.
Context (heap_oracle : nat -> option (nat -> Z)) (fuel : nat) (fr : frame).
Context (subkeys : list IceSubkey).

(** The filter of the handler.  A packet without an IP or a UDP header, or
    from any port but 27015, changes nothing: no output, no allocation, not
    even the S-boxes are set up. *)
Theorem other_traffic_ignored eth (w : world Msg) :
  find_IP eth = None \/ find_UDP eth = None \/
    (exists udp, find_UDP eth = Some udp /\ sport udp <> 27015) ->
  packet_loop_handler heap_oracle fuel fr subkeys eth w = Ok (true, w).
Proof.
  intros Hc. unfold packet_loop_handler.
  destruct (find_IP eth) as [ip|]; [|done]. destruct (find_UDP eth) as [udp|]; [|done].
  destruct Hc as [|[|(u & [= <-] & Hs)]]; try done.
  by destruct (Z.eqb_spec (sport udp) 27015).
Qed.

(** What [rejected_payload_leaks] states, for its clients. *)
Lemma rejected_payload sbox k eth ip udp payload plain (w : world Msg) :
  session sbox k -> length subkeys = 32%nat ->
  (forall i, exists junk, heap_oracle i = Some junk) -> statics_ok (w_ice w) ->
  datagram eth ip udp payload -> (0 < length payload)%nat ->
  Z.of_nat (length payload) < 2 ^ 31 -> Forall is_byte payload ->
  decrypt_stream sbox k payload = Ok plain -> open_payload plain = None ->
  exists g, statics_ok g /\
    packet_loop_handler heap_oracle fuel fr subkeys eth w =
      Ok (true, mkworld (<[w_next w := plain]> (w_heap w)) (S (w_next w)) g
                  (w_out w ++ header_events ip udp ++ payload_events plain)) /\
    length plain = length payload.
Proof.
  intros Hses Hsub Ha Hg Hd H0 Hmax Hb Hp Ho.
  destruct game_cipher_ok as (sbox' & k' & Hses' & Hs & Hk).
  destruct (session_unique _ _ _ _ Hses Hses') as [<- <-]. clear Hses'.
  destruct (decrypt_stream_inverse sbox k payload Hs Hk Hb) as (p & E & Hl & Hpb & _).
  rewrite Hp in E. injection E as <-.
  destruct (handle_payload_closed heap_oracle fuel fr sbox k Hses subkeys Hsub Ha payload plain
    (printed (header_events ip udp) w)) as (g & Hg' & E); try done.
  exists g. split; [done|]. split; [|done].
  apply (handler_payload heap_oracle fuel fr subkeys eth ip udp payload); [done|].
  rewrite E. cbn [printed w_heap w_next w_out]. by rewrite <- app_assoc.
Qed.

(** C18: a code bug.  A payload whose decryption is not an offset, a length
    and exactly that many bytes is dropped without freeing the block it was
    decrypted into: the heap grows by the whole payload. *)
Theorem rejected_payload_leaks sbox k eth ip udp payload plain (w : world Msg) :
  session sbox k -> length subkeys = 32%nat ->
  (forall i, exists junk, heap_oracle i = Some junk) -> statics_ok (w_ice w) ->
  datagram eth ip udp payload -> (0 < length payload)%nat ->
  Z.of_nat (length payload) < 2 ^ 31 -> Forall is_byte payload ->
  decrypt_stream sbox k payload = Ok plain -> open_payload plain = None ->
  exists g, statics_ok g /\
    packet_loop_handler heap_oracle fuel fr subkeys eth w =
      Ok (true, mkworld (<[w_next w := plain]> (w_heap w)) (S (w_next w)) g
                  (w_out w ++ header_events ip udp ++ payload_events plain)) /\
    length plain = length payload.
Proof. apply rejected_payload. Qed.

(** C19: a code bug.  The copy into the array does not look at the size: a
    packet longer than the array is written past its end. *)
Theorem oversized_packet_overruns old pkt : frame_ok fr old ->
  NET_MAX_PAYLOAD < Z.of_nat (length pkt) ->
  ReadPacket (Msg := Msg) fuel fr pkt (Z.of_nat (length pkt))
    = Fault (OutOfBounds (fr_data fr + NET_MAX_PAYLOAD)).
Proof.
  intros Hfr Hbig. unfold ReadPacket, NET_MAX_PAYLOAD in *.
  destruct (Z.ltb_spec (Z.of_nat (length pkt)) 8); [lia|].
  pose proof (frame_buffer fr old Hfr) as Hbuf.
  destruct Hfr as (_ & _ & Hlen & Hal & _). unfold NET_MAX_PAYLOAD in Hlen.
  destruct (StartReading_ok (fr_mem fr) (fr_data fr) old Hbuf (fr_buf fr) Hal) as (s & E & Hr).
  rewrite Hlen in E. rewrite (res_bind_ok _ _ _ E).
  assert (GetBasePointer s = fr_data fr) as -> by (by destruct Hr as [(? & _) _]).
  unfold memcpy_to, NET_MAX_PAYLOAD.
  by destruct (Z.ltb_spec (262144 - 4) (Z.of_nat (length pkt))); [|lia].
Qed.
End Others.

Lemma other_traffic_ignored_witness :
  @packet_loop_handler (list Z) raw_parser junk_heap 4 zero_frame junk_subkeys
    [PDU_IP sample_ip; PDU_UDP (mkudphdr 13568 34665 0 0); PDU_Raw [1; 2; 3]] world0
  = Ok (true, world0).
Proof.
  apply (@other_traffic_ignored (list Z) raw_parser). right. right.
  exists (mkudphdr 13568 34665 0 0). split; [reflexivity|]. vm_compute. done.
Defined.

(** Seven bytes are not decrypted at all; a zero offset byte is refused. *)
Lemma rejected_payload_leaks_witness : exists g,
  @packet_loop_handler (list Z) raw_parser junk_heap 4 zero_frame junk_subkeys
    [PDU_IP sample_ip; PDU_UDP server_udp; PDU_Raw [0; 1; 2; 3; 4; 5; 6]] world0
  = Ok (true, mkworld {[0%nat := [0; 1; 2; 3; 4; 5; 6]]} 1 g
      [OPacket 256; OVersion 4; OSrcAddr 2 27016; ODstAddr 3 27016; OPayloadSize 7;
       ODeltaOffset 0]).
Proof.
  destruct game_cipher_ok as (sbox & k & Hses & _).
  destruct (@rejected_payload_leaks (list Z) raw_parser junk_heap 4 zero_frame junk_subkeys
    sbox k [PDU_IP sample_ip; PDU_UDP server_udp; PDU_Raw [0; 1; 2; 3; 4; 5; 6]] sample_ip
    server_udp [0; 1; 2; 3; 4; 5; 6] [0; 1; 2; 3; 4; 5; 6] world0 Hses) as (g & _ & E & _).
  - reflexivity.
  - intros i. by exists (fun _ => 205).
  - exact statics0_ok.
  - repeat split; reflexivity.
  - cbn; lia.
  - cbn; lia.
  - repeat constructor; unfold is_byte; lia.
  - reflexivity.
  - reflexivity.
  - exists g. rewrite E. reflexivity.
Defined.

Lemma oversized_packet_overruns_witness :
  @ReadPacket (list Z) raw_parser 1 zero_frame (0 :: zero_array) (1 + NET_MAX_PAYLOAD)
    = Fault (OutOfBounds (4096 + NET_MAX_PAYLOAD)).
Proof.
  assert (Z.of_nat (length (0 :: zero_array)) = 1 + NET_MAX_PAYLOAD) as Hl.
  { destruct zero_frame_ok as (_ & _ & Hl & _). cbn [length]. lia. }
  rewrite <- Hl at 1.
  apply (@oversized_packet_overruns (list Z) raw_parser 1 zero_frame zero_array _ zero_frame_ok).
  rewrite Hl. unfold NET_MAX_PAYLOAD. lia.
Defined.
