(* ===== verification/Lzss.v ===== *)
(** The LZSS codec: class [CLZSS] of src/Sniffles/lzss.h and lzss.cpp.  Pointers
    into the input are offsets from its beginning (whose address enters the hash),
    pointers to hash nodes are indices of [m_pHashTarget], and the output buffer
    is the list of the bytes written so far, with the capacity it was given.
    Blocks of the heap are only counted: their contents are in the states of the loops. *)

From S2P Require Import Prelude.

Definition LZSS_ID : Z :=
  Z.lor (Z.lor (Z.lor (Z.shiftl 83 24) (Z.shiftl 83 16)) (Z.shiftl 90 8)) 76.
Definition LZSS_LOOKSHIFT : Z := 4.
Definition LZSS_LOOKAHEAD : Z := Z.shiftl 1 LZSS_LOOKSHIFT.
Definition DEFAULT_LZSS_WINDOW_SIZE : Z := 4096.
Definition sizeof_header : Z := 8.

(** The two dwords in front of the compressed data; [LittleLong] is the identity
    on this platform. *)
Record lzss_header_t := mkheader_t {
  hdr_id : Z;
  actualSize : Z
}.

Definition read_header (pInput : list Z) : result lzss_header_t :=
  i0 ← tbl pInput 0; i1 ← tbl pInput 1; i2 ← tbl pInput 2; i3 ← tbl pInput 3;
  s0 ← tbl pInput 4; s1 ← tbl pInput 5; s2 ← tbl pInput 6; s3 ← tbl pInput 7;
  Ok (mkheader_t (le_join [i0; i1; i2; i3]) (le_join [s0; s1; s2; s3])).

Definition IsCompressed (pInput : option (list Z)) : result bool :=
  match pInput with
  | None => Ok false
  | Some l => h ← read_header l; Ok (hdr_id h =? LZSS_ID)
  end.

Definition GetActualSize (pInput : option (list Z)) : result Z :=
  match pInput with
  | None => Ok 0
  | Some l => h ← read_header l; Ok (if hdr_id h =? LZSS_ID then actualSize h else 0)
  end.

(** * The hash *)

Record lzss_node_t := mknode {
  pData : option Z;
  pPrev : option Z;
  pNext : option Z
}.

Record lzss_list_t := mklist {
  pStart : option Z;
  pEnd : option Z
}.

Record hash := mkhash {
  m_pHashTable : list lzss_list_t;
  m_pHashTarget : list lzss_node_t
}.

(** Both tables after [memset]. *)
Definition empty_hash (m_nWindowSize : Z) : hash :=
  mkhash (replicate 256 (mklist None None))
    (replicate (Z.to_nat m_nWindowSize) (mknode None None None)).

(** The node that is to be reused leaves the list of its old byte. *)
Definition unlink (pInput : list Z) (pTarget : lzss_node_t) (h : hash) : result hash :=
  match pData pTarget with
  | None => Ok h
  | Some d =>
      c ← tbl pInput d;
      pList ← tbl (m_pHashTable h) c;
      match pPrev pTarget with
      | Some q =>
          t ← tbl_set (m_pHashTable h) c (mklist (pStart pList) (Some q));
          n ← tbl (m_pHashTarget h) q;
          g ← tbl_set (m_pHashTarget h) q (mknode (pData n) (pPrev n) None);
          Ok (mkhash t g)
      | None =>
          t ← tbl_set (m_pHashTable h) c (mklist None None);
          Ok (mkhash t (m_pHashTarget h))
      end
  end.

(** [addr] is the address of the input, [p] the offset of the byte to add. *)
Definition BuildHash (m_nWindowSize addr : Z) (pInput : list Z) (p : Z) (h : hash)
    : result hash :=
  let targetindex := Z.land (u32 (addr + p)) (m_nWindowSize - 1) in
  pTarget ← tbl (m_pHashTarget h) targetindex;
  h ← unlink pInput pTarget h;
  c ← tbl pInput p;
  pList ← tbl (m_pHashTable h) c;
  g ← tbl_set (m_pHashTarget h) targetindex (mknode (Some p) None (pStart pList));
  match pStart pList with
  | Some s =>
      n ← tbl g s;
      g ← tbl_set g s (mknode (pData n) (Some targetindex) (pNext n));
      t ← tbl_set (m_pHashTable h) c (mklist (Some targetindex) (pEnd pList));
      Ok (mkhash t g)
  | None =>
      t ← tbl_set (m_pHashTable h) c (mklist (Some targetindex) (Some targetindex));
      Ok (mkhash t g)
  end.

(** * Compression *)

(** [while (length-- && pHash->pData\[matchLength\] == pLookAhead\[matchLength\])]. *)
Fixpoint match_length (pInput : list Z) (d p : Z) (length_ : nat) : result Z :=
  match length_ with
  | O => Ok 0
  | S n =>
      a ← tbl pInput d;
      b ← tbl pInput p;
      if a =? b then r ← match_length pInput (d + 1) (p + 1) n; Ok (1 + r) else Ok 0
  end.

(** One node of the chain; the locals are [pHash], [encodedLength] and
    [pEncodedPosition]. *)
Definition find_match_body (pInput : list Z) (h : hash) (p lookAheadLength : Z)
    (l : option Z * Z * Z) : result (option Z * Z * Z + Z * Z) :=
  let '(pHash, encodedLength, pEncodedPosition) := l in
  match pHash with
  | None => Ok (inr (encodedLength, pEncodedPosition))
  | Some i =>
      n ← tbl (m_pHashTarget h) i;
      match pData n with
      | None => Fault NullDeref
      | Some d =>
          matchLength ← match_length pInput d p (Z.to_nat lookAheadLength);
          let '(len, pos) := if encodedLength <? matchLength then (matchLength, d)
                             else (encodedLength, pEncodedPosition) in
          if matchLength =? lookAheadLength then Ok (inr (len, pos))
          else Ok (inl (pNext n, len, pos))
      end
  end.

(** A chain has no more nodes than the window. *)
Definition find_match (m_nWindowSize : Z) (pInput : list Z) (h : hash)
    (p lookAheadLength pEncodedPosition : Z) : result (Z * Z) :=
  c ← tbl pInput p;
  pList ← tbl (m_pHashTable h) c;
  res_loop (S (Z.to_nat m_nWindowSize)) (find_match_body pInput h p lookAheadLength)
    (pStart pList, 0, pEncodedPosition).

(** [*pOutput++ = b] into a buffer of [cap] bytes. *)
Definition put (cap : Z) (out : list Z) (b : Z) : result (list Z) :=
  if Z.of_nat (length out) <? cap then Ok (out ++ [b])
  else Fault (OutOfBounds (Z.of_nat (length out))).

Record cstate := mkcstate {
  c_inputLength : Z;
  c_look : Z;
  c_encodedPosition : Z;
  c_out : list Z;
  c_cmdByte : Z;
  c_putCmdByte : Z;
  c_hash : hash
}.

(** [for (int i = 0; i < encodedLength; i++) BuildHash(pLookAhead++)]. *)
Fixpoint build_hashes (m_nWindowSize addr : Z) (pInput : list Z) (p : Z) (n : nat) (h : hash)
    : result hash :=
  match n with
  | O => Ok h
  | S n' => h ← BuildHash m_nWindowSize addr pInput p h;
            build_hashes m_nWindowSize addr pInput (p + 1) n' h
  end.

(** The bytes of one match or literal. *)
Definition encode_item (cap : Z) (pInput : list Z) (p encodedLength pEncodedPosition pCmdByte : Z)
    (out : list Z) : result (Z * list Z) :=
  cmd ← tbl out pCmdByte;
  if 3 <=? encodedLength then
    out ← tbl_set out pCmdByte (Z.lor (Z.shiftr cmd 1) 0x80);
    out ← put cap out (u8 (Z.shiftr (p - pEncodedPosition - 1) LZSS_LOOKSHIFT));
    out ← put cap out (u8 (Z.lor (Z.shiftl (p - pEncodedPosition - 1) LZSS_LOOKSHIFT)
                             (encodedLength - 1)));
    Ok (encodedLength, out)
  else
    out ← tbl_set out pCmdByte (Z.shiftr cmd 1);
    b ← tbl pInput p;
    out ← put cap out b;
    Ok (1, out).

(** One round of the main loop; [inr false] abandons the compression. *)
Definition compress_body (m_nWindowSize addr cap : Z) (pInput : list Z) (pEnd : Z) (s : cstate)
    : result (cstate + cstate * bool) :=
  if 0 <? c_inputLength s then
    r ← (if c_putCmdByte s =? 0 then
           out ← put cap (c_out s) 0; Ok (Z.of_nat (length (c_out s)), out)
         else Ok (c_cmdByte s, c_out s));
    let '(pCmdByte, out) := r : Z * list Z in
    let putCmdByte := Z.land (c_putCmdByte s + 1) 0x07 in
    let lookAheadLength :=
      if c_inputLength s <? LZSS_LOOKAHEAD then c_inputLength s else LZSS_LOOKAHEAD in
    r ← find_match m_nWindowSize pInput (c_hash s) (c_look s) lookAheadLength
          (c_encodedPosition s);
    let '(encodedLength, pEncodedPosition) := r : Z * Z in
    r ← encode_item cap pInput (c_look s) encodedLength pEncodedPosition pCmdByte out;
    let '(encodedLength, out) := r : Z * list Z in
    h ← build_hashes m_nWindowSize addr pInput (c_look s) (Z.to_nat encodedLength) (c_hash s);
    let s' := mkcstate (c_inputLength s - encodedLength) (c_look s + encodedLength)
                pEncodedPosition out pCmdByte putCmdByte h in
    if pEnd <=? Z.of_nat (length out) then Ok (inr (s', false)) else Ok (inl s')
  else Ok (inr (s, true)).

(** The end marker: a match of length one. *)
Definition finish (cap : Z) (s : cstate) : result (list Z) :=
  out ← (if c_putCmdByte s =? 0 then put cap (c_out s) 0x01
         else
           cmd ← tbl (c_out s) (c_cmdByte s);
           tbl_set (c_out s) (c_cmdByte s)
             (Z.shiftr (Z.lor (Z.shiftr cmd 1) 0x80) (7 - c_putCmdByte s)));
  out ← put cap out 0;
  put cap out 0.

Definition put_dword (cap : Z) (out : list Z) (w : Z) : result (list Z) :=
  out ← put cap out (bits w 0 8);
  out ← put cap out (bits w 8 8);
  out ← put cap out (bits w 16 8);
  put cap out (bits w 24 8).

(** [CompressNoAlloc] behind its allocations: [None] is the null result; every round takes a
    byte. *)
Definition compress_bytes (m_nWindowSize addr cap : Z) (pInput : list Z)
    : result (option (list Z)) :=
  let inputLength := Z.of_nat (length pInput) in
  let pEnd := inputLength - sizeof_header - 8 in
  out ← put_dword cap [] LZSS_ID;
  out ← put_dword cap out inputLength;
  r ← res_loop (S (length pInput)) (compress_body m_nWindowSize addr cap pInput pEnd)
        (mkcstate inputLength 0 0 out 0 0 (empty_hash m_nWindowSize));
  let '(s, done_) := r : cstate * bool in
  if negb done_ then Ok None
  else if negb (c_inputLength s =? 0) then Ok None
  else out ← finish cap s; Ok (Some out).

(** The heap: the sizes of the blocks in the order of their allocation, without the size once
    a block is freed. *)
Definition lzss_heap : Type := list (option Z).

Definition lzss_malloc (n : Z) : ST lzss_heap nat := fun h => Ok (length h, h ++ [Some n]).
Definition lzss_free (b : nat) : ST lzss_heap unit := st_modify (fun h => <[b := None]> h).

(** The work buffers are 256 lists of eight bytes and a node of sixteen bytes for every byte of
    the window. *)
Definition CompressNoAlloc (m_nWindowSize addr cap : Z) (pInput : list Z)
    : ST lzss_heap (option (list Z)) :=
  if u32 (Z.of_nat (length pInput)) <=? sizeof_header + 8 then mret None
  else
    m_pHashTable ← lzss_malloc (256 * 8);
    m_pHashTarget ← lzss_malloc (m_nWindowSize * 16);
    st_lift (compress_bytes m_nWindowSize addr cap pInput).

Definition Compress (m_nWindowSize addr : Z) (pInput : list Z)
    : ST lzss_heap (option (list Z)) :=
  pStart ← lzss_malloc (Z.of_nat (length pInput));
  pFinal ← CompressNoAlloc m_nWindowSize addr (Z.of_nat (length pInput)) pInput;
  match (pFinal : option (list Z)) with
  | None => lzss_free pStart;; mret None
  | Some c => mret (Some c)
  end.

(** * Decompression *)

(** [*pOutput++ = *pSource++], [count] times; [src] is the offset of [pSource]. *)
Fixpoint copy_back (cap : Z) (out : list Z) (src : Z) (count : nat) : result (list Z) :=
  match count with
  | O => Ok out
  | S n =>
      b ← (if src <? 0 then Fault (OutOfBounds src) else tbl out src);
      out ← put cap out b;
      copy_back cap out (src + 1) n
  end.

Record dstate := mkdstate {
  d_in : Z;
  d_out : list Z;
  d_cmdByte : Z;
  d_getCmdByte : Z;
  d_totalBytes : Z
}.

(** A match or a literal at the offset [p] of the input, with the flag in the low
    bit of [cmdByte]; the match of length one leaves the loop. *)
Definition uncompress_item (cap : Z) (pInput : list Z) (cmdByte p getCmdByte : Z) (s : dstate)
    : result (dstate + dstate) :=
  if negb (Z.land cmdByte 0x01 =? 0) then
    b0 ← tbl pInput p;
    b1 ← tbl pInput (p + 1);
    let position := Z.lor (Z.shiftl b0 LZSS_LOOKSHIFT) (Z.shiftr b1 LZSS_LOOKSHIFT) in
    let count := Z.land b1 0x0F + 1 in
    if count =? 1 then
      Ok (inr (mkdstate (p + 2) (d_out s) cmdByte getCmdByte (d_totalBytes s)))
    else
      out ← copy_back cap (d_out s) (Z.of_nat (length (d_out s)) - position - 1)
              (Z.to_nat count);
      Ok (inl (mkdstate (p + 2) out (Z.shiftr cmdByte 1) getCmdByte
                 (u32 (d_totalBytes s + count))))
  else
    b ← tbl pInput p;
    out ← put cap (d_out s) b;
    Ok (inl (mkdstate (p + 1) out (Z.shiftr cmdByte 1) getCmdByte
               (u32 (d_totalBytes s + 1)))).

Definition uncompress_body (cap : Z) (pInput : list Z) (s : dstate)
    : result (dstate + dstate) :=
  r ← (if d_getCmdByte s =? 0 then c ← tbl pInput (d_in s); Ok (c, d_in s + 1)
       else Ok (d_cmdByte s, d_in s));
  let '(cmdByte, p) := r : Z * Z in
  uncompress_item cap pInput cmdByte p (Z.land (d_getCmdByte s + 1) 0x07) s.

(** [Uncompress] into a buffer of [cap] bytes: the returned size and what was
    written.  Every round takes a byte of the input. *)
Definition Uncompress (cap : Z) (pInput : list Z) : result (Z * list Z) :=
  size ← GetActualSize (Some pInput);
  if size =? 0 then Ok (0, [])
  else
    s ← res_loop (S (length pInput)) (uncompress_body cap pInput)
          (mkdstate sizeof_header [] 0 0 0);
    if negb (d_totalBytes s =? size) then Ok (0, d_out s)
    else Ok (d_totalBytes s, d_out s).
