(* ===== verification/LzssHash.v ===== *)
(** The hash of the LZSS compressor: the doubly linked lists stay consistent while
    the window slides over the input, and following one finds only true matches
    inside the window. *)

From S2P Require Import Prelude Lzss.

Section Hash.
Context (W addr : Z) (inp : list Z).

(** The node a position goes to. *)
Definition idx (p : Z) : Z := (addr + p) mod W.

(** The lists restricted to the nodes in [D], when the compressor is at [cur]:
    nodes hold positions of the window, successors are older and point back,
    heads have the byte of their list. *)
Record wf (cur : Z) (D : Z -> Prop) (h : hash) : Prop := {
  wf_table : length (m_pHashTable h) = 256%nat;
  wf_target : length (m_pHashTarget h) = Z.to_nat W;
  wf_node : forall i n d, D i -> tbl (m_pHashTarget h) i = Ok n -> pData n = Some d ->
    0 <= d < cur /\ cur - W <= d /\ idx d = i;
  wf_next : forall i n d j, D i -> tbl (m_pHashTarget h) i = Ok n -> pData n = Some d ->
    pNext n = Some j ->
    D j /\ exists n' d', tbl (m_pHashTarget h) j = Ok n' /\ pData n' = Some d' /\ d' < d /\
      pPrev n' = Some i;
  wf_prev : forall i n d q, D i -> tbl (m_pHashTarget h) i = Ok n -> pData n = Some d ->
    pPrev n = Some q ->
    D q /\ exists n' d', tbl (m_pHashTarget h) q = Ok n' /\ pData n' = Some d' /\
      pNext n' = Some i;
  wf_start : forall c l j, tbl (m_pHashTable h) c = Ok l -> pStart l = Some j ->
    D j /\ exists n d, tbl (m_pHashTarget h) j = Ok n /\ pData n = Some d /\
      tbl inp d = Ok c /\ pPrev n = None
}.

Context (HW : exists k, 0 <= k <= 12 /\ W = 2 ^ k).
Context (Hb : Forall is_byte inp) (Ha : 0 <= addr) (Hend : addr + Z.of_nat (length inp) < 2 ^ 32).

Lemma W_range : 0 < W <= 4096.
Proof.
  destruct HW as (k & Hk & ->). split; [apply Z.pow_pos_nonneg; lia|].
  change 4096 with (2 ^ 12). apply Z.pow_le_mono_r; lia.
Qed.

Lemma target_index p : 0 <= p < Z.of_nat (length inp) ->
  Z.land (u32 (addr + p)) (W - 1) = idx p.
Proof.
  intros Hp. rewrite u32_small by lia. destruct HW as (k & Hk & E). unfold idx. rewrite E.
  replace (2 ^ k - 1) with (Z.ones k) by (rewrite Z.ones_equiv; unfold Z.pred; lia).
  apply Z.land_ones. lia.
Qed.

Lemma idx_range p : 0 <= idx p < W.
Proof. apply Z.mod_pos_bound. pose proof W_range. lia. Qed.

(** A position of the window that shares the node of [cur] is the one that
    leaves the window. *)
Lemma same_slot cur d : idx d = idx cur -> cur - W <= d < cur -> d = cur - W.
Proof.
  unfold idx. pose proof W_range. intros E Hd.
  assert ((cur - d) mod W = 0) as Hm.
  { replace (cur - d) with ((addr + cur) - (addr + d)) by lia.
    rewrite Zminus_mod, E, Z.sub_diag. apply Z.mod_0_l. lia. }
  apply Z.mod_divide in Hm as [q Hq]; [|lia]. assert (0 < q) by nia. assert (q < 2) by nia.
  assert (q = 1) as -> by lia. lia.
Qed.

Lemma inp_byte d c : tbl inp d = Ok c -> 0 <= c < 256.
Proof.
  intros E. unfold tbl in E. destruct (0 <=? d); [|done].
  destruct (inp !! Z.to_nat d) as [v|] eqn:El; [|done]. injection E as <-.
  rewrite Forall_lookup in Hb. by apply (Hb _ _ El).
Qed.

Lemma inp_at d : 0 <= d < Z.of_nat (length inp) -> exists c, tbl inp d = Ok c /\ 0 <= c < 256.
Proof.
  intros Hd. destruct (tbl_in_range inp d Hd) as (c & E & _). exists c. split; [done|].
  by eapply inp_byte.
Qed.

Lemma empty_wf : wf 0 (fun _ => True) (empty_hash W).
Proof.
  assert (Hn : forall i n, tbl (m_pHashTarget (empty_hash W)) i = Ok n -> pData n = None).
  { intros i n E. by rewrite (tbl_replicate _ _ _ _ E). }
  split.
  - apply length_replicate.
  - apply length_replicate.
  - intros i n d _ E H. apply Hn in E. congruence.
  - intros i n d j _ E H. apply Hn in E. congruence.
  - intros i n d q _ E H. apply Hn in E. congruence.
  - intros c l j E. by rewrite (tbl_replicate _ _ _ _ E).
Qed.

(** The node that is reused holds the oldest position, which is the last of its list. *)
Lemma oldest cur h n d : wf cur (fun _ => True) h -> 0 <= cur < Z.of_nat (length inp) ->
  tbl (m_pHashTarget h) (idx cur) = Ok n -> pData n = Some d ->
  d = cur - W /\ 0 <= d < cur /\ idx d = idx cur /\ pNext n = None.
Proof.
  intros [Ht Hg HN HX HP HS] Hcur En Ed. destruct (HN (idx cur) n d I En Ed) as (Hd & Hw & Hi).
  assert (d = cur - W) as Hdw by (apply same_slot; [done|lia]).
  split; [done|]. split; [lia|]. split; [done|].
  destruct (pNext n) as [j|] eqn:Ej; [|done].
  destruct (HX (idx cur) n d j I En Ed Ej) as (_ & n' & d' & A & B & C & _).
  destruct (HN j n' d' I A B) as (_ & ? & _). lia.
Qed.

(** A node that holds no position is in no list. *)
Lemma unused_wf cur h n : wf cur (fun _ => True) h -> tbl (m_pHashTarget h) (idx cur) = Ok n ->
  pData n = None -> wf cur (fun i => i <> idx cur) h.
Proof.
  intros [Ht Hg HN HX HP HS] En Ed. split; try done.
  - intros i m e _. apply HN; done.
  - intros i m e j _ E1 E2 E3. destruct (HX i m e j I E1 E2 E3) as (_ & n' & d' & A & B & C).
    split; [|eauto]. intros ->. congruence.
  - intros i m e q _ E1 E2 E3. destruct (HP i m e q I E1 E2 E3) as (_ & n' & d' & A & B & C).
    split; [|eauto]. intros ->. congruence.
  - intros c l j E1 E2. destruct (HS c l j E1 E2) as (_ & n' & d' & A & B & C).
    split; [|eauto]. intros ->. congruence.
Qed.

(** The last node of a list that has others: the one in front of it becomes the last. *)
Record shortened (q : Z) (nq : lzss_node_t) (h : hash) (gg : list lzss_node_t) : Prop := {
  sh_length : length gg = length (m_pHashTarget h);
  sh_last : tbl gg q = Ok (mknode (pData nq) (pPrev nq) None);
  sh_other : forall i, i <> q -> tbl gg i = tbl (m_pHashTarget h) i
}.

Lemma shortened_keep q nq h gg i m : shortened q nq h gg -> tbl (m_pHashTarget h) q = Ok nq ->
  tbl (m_pHashTarget h) i = Ok m -> exists m', tbl gg i = Ok m' /\
    pData m' = pData m /\ pPrev m' = pPrev m.
Proof.
  intros [Hlg Hgq Hgo] Aq E. destruct (decide (i = q)) as [->|Hn].
  - rewrite Aq in E. injection E as <-. eexists. split; [exact Hgq|]. done.
  - exists m. by rewrite Hgo.
Qed.

Lemma shortened_back q nq h gg i m : shortened q nq h gg -> tbl (m_pHashTarget h) q = Ok nq ->
  tbl gg i = Ok m -> exists m', tbl (m_pHashTarget h) i = Ok m' /\
    pData m' = pData m /\ pPrev m' = pPrev m /\ (i <> q -> pNext m' = pNext m) /\
    (i = q -> pNext m = None).
Proof.
  intros [Hlg Hgq Hgo] Aq E. destruct (decide (i = q)) as [->|Hn].
  - rewrite Hgq in E. injection E as <-. exists nq. by repeat split.
  - exists m. rewrite <- Hgo by done. by repeat split.
Qed.

Lemma shortened_wf cur h n d q nq dq tt' gg c l : wf cur (fun _ => True) h ->
  tbl (m_pHashTarget h) (idx cur) = Ok n -> pData n = Some d -> pPrev n = Some q ->
  pNext n = None -> tbl (m_pHashTarget h) q = Ok nq -> pData nq = Some dq ->
  pNext nq = Some (idx cur) -> shortened q nq h gg ->
  length tt' = length (m_pHashTable h) -> tbl (m_pHashTable h) c = Ok l ->
  tbl tt' c = Ok (mklist (pStart l) (Some q)) ->
  (forall c', c' <> c -> tbl tt' c' = tbl (m_pHashTable h) c') ->
  wf cur (fun i => i <> idx cur) (mkhash tt' gg).
Proof.
  intros [Ht Hg HN HX HP HS] En Ed Eq Hnext Aq Bq Cq Hsh Hlt El Htc Hto. set (t := idx cur) in *.
  pose proof (sh_length _ _ _ _ Hsh) as Hlg. split; cbn [m_pHashTable m_pHashTarget].
  - congruence.
  - congruence.
  - intros i m e Hi' E1 E2. destruct (shortened_back q nq h gg i m Hsh Aq E1) as (m' & A & B & _).
    apply (HN i m' e I A). congruence.
  - intros i m e j Hi' E1 E2 E3.
    destruct (shortened_back q nq h gg i m Hsh Aq E1) as (m' & A & B & C & D1 & D2).
    destruct (decide (i = q)) as [->|Hne]; [rewrite D2 in E3; done|].
    destruct (HX i m' e j I A ltac:(congruence) ltac:(rewrite D1; done))
      as (_ & n' & d' & A' & B' & C' & D').
    split; [intros ->; congruence|].
    destruct (shortened_keep q nq h gg j n' Hsh Aq A') as (m2 & F1 & F2 & F3). exists m2, d'.
    by rewrite F2, F3.
  - intros i m e q' Hi' E1 E2 E3. destruct (shortened_back q nq h gg i m Hsh Aq E1) as (m' & A & B & C & _).
    destruct (HP i m' e q' I A ltac:(congruence) ltac:(congruence))
      as (_ & n' & d' & A' & B' & C').
    assert (q' <> t) by (intros ->; congruence).
    assert (q' <> q) as Hqq by (intros ->; rewrite Aq in A'; injection A' as <-; congruence).
    split; [done|]. exists n', d'. by rewrite (sh_other _ _ _ _ Hsh).
  - intros c' l' j E1 E2.
    assert (exists l2, tbl (m_pHashTable h) c' = Ok l2 /\ pStart l2 = Some j) as (l2 & F1 & F2).
    { destruct (decide (c' = c)) as [->|Hne].
      - rewrite Htc in E1. injection E1 as <-. by exists l.
      - rewrite Hto in E1 by done. by exists l'. }
    destruct (HS c' l2 j F1 F2) as (_ & n' & d' & A' & B' & C' & D').
    split; [intros ->; congruence|].
    destruct (shortened_keep q nq h gg j n' Hsh Aq A') as (m2 & G1 & G2 & G3). exists m2, d'.
    by rewrite G2, G3.
Qed.

(** The only node of a list: the list becomes empty. *)
Lemma emptied_wf cur h n d tt' c : wf cur (fun _ => True) h ->
  tbl (m_pHashTarget h) (idx cur) = Ok n -> pData n = Some d -> pPrev n = None ->
  pNext n = None -> tbl inp d = Ok c -> length tt' = length (m_pHashTable h) ->
  tbl tt' c = Ok (mklist None None) ->
  (forall c', c' <> c -> tbl tt' c' = tbl (m_pHashTable h) c') ->
  wf cur (fun i => i <> idx cur) (mkhash tt' (m_pHashTarget h)).
Proof.
  intros [Ht Hg HN HX HP HS] En Ed Eq Hnext Ec Hlt Htc Hto.
  split; cbn [m_pHashTable m_pHashTarget]; try congruence.
  - intros i m e _. by apply HN.
  - intros i m e j Hi' E1 E2 E3. destruct (HX i m e j I E1 E2 E3) as (_ & n' & d' & A & B & C & D).
    split; [intros ->; congruence|]. by exists n', d'.
  - intros i m e q Hi' E1 E2 E3. destruct (HP i m e q I E1 E2 E3) as (_ & n' & d' & A & B & C).
    split; [intros ->; congruence|]. by exists n', d'.
  - intros c' l' j E1 E2. destruct (decide (c' = c)) as [->|Hne].
    { rewrite Htc in E1. injection E1 as <-. done. }
    rewrite Hto in E1 by done.
    destruct (HS c' l' j E1 E2) as (_ & n' & d' & A' & B' & C' & D').
    split; [intros ->; congruence|]. by exists n', d'.
Qed.

(** Taking the reused node out of its list. *)
Lemma unlink_wf cur h n : wf cur (fun _ => True) h -> 0 <= cur < Z.of_nat (length inp) ->
  tbl (m_pHashTarget h) (idx cur) = Ok n ->
  exists h', unlink inp n h = Ok h' /\ wf cur (fun i => i <> idx cur) h'.
Proof.
  intros Hwf Hcur En. pose proof Hwf as [Ht Hg HN HX HP HS]. unfold unlink.
  destruct (pData n) as [d|] eqn:Ed; [|exists h; split; [done|by eapply unused_wf]].
  destruct (oldest cur h n d Hwf Hcur En Ed) as (_ & Hd & _ & Hnext).
  destruct (inp_at d) as (c & Ec & Hc); [lia|]. rewrite (res_bind_ok _ _ _ Ec).
  destruct (tbl_in_range (m_pHashTable h) c) as (l & El & _); [lia|].
  rewrite (res_bind_ok _ _ _ El).
  destruct (pPrev n) as [q|] eqn:Eq.
  - destruct (HP (idx cur) n d q I En Ed Eq) as (_ & nq & dq & Aq & Bq & Cq).
    destruct (tbl_set_spec (m_pHashTable h) c (mklist (pStart l) (Some q)))
      as (tt' & Et & Hlt & Htc & Hto); [lia|].
    rewrite (res_bind_ok _ _ _ Et), (res_bind_ok _ _ _ Aq).
    destruct (tbl_set_spec (m_pHashTarget h) q (mknode (pData nq) (pPrev nq) None))
      as (gg & Eg & Hlg & Hgq & Hgo); [by apply tbl_bound in Aq|].
    rewrite (res_bind_ok _ _ _ Eg). eexists. split; [reflexivity|].
    eapply shortened_wf; try done.
  - destruct (tbl_set_spec (m_pHashTable h) c (mklist None None))
      as (tt' & Et & Hlt & Htc & Hto); [lia|].
    rewrite (res_bind_ok _ _ _ Et). eexists. split; [reflexivity|]. by eapply emptied_wf.
Qed.

(** The rest of [BuildHash]: the node of [cur] becomes the head of its list. *)
Definition relinked (cur : Z) (l : lzss_list_t) (m0 m : lzss_node_t) (i : Z) : Prop :=
  pData m = pData m0 /\ pNext m = pNext m0 /\ (pStart l <> Some i -> m = m0) /\
  (pStart l = Some i -> pPrev m = Some (idx cur)).

Record inserted (cur c : Z) (l : lzss_list_t) (h h' : hash) : Prop := {
  ins_table : length (m_pHashTable h') = length (m_pHashTable h);
  ins_target : length (m_pHashTarget h') = length (m_pHashTarget h);
  ins_node : tbl (m_pHashTarget h') (idx cur) = Ok (mknode (Some cur) None (pStart l));
  ins_old : forall i m, i <> idx cur -> tbl (m_pHashTarget h') i = Ok m ->
    exists m0, tbl (m_pHashTarget h) i = Ok m0 /\ relinked cur l m0 m i;
  ins_new : forall i m0, i <> idx cur -> tbl (m_pHashTarget h) i = Ok m0 ->
    exists m, tbl (m_pHashTarget h') i = Ok m /\ relinked cur l m0 m i;
  ins_head : exists e, tbl (m_pHashTable h') c = Ok (mklist (Some (idx cur)) e);
  ins_heads : forall c', c' <> c -> tbl (m_pHashTable h') c' = tbl (m_pHashTable h) c'
}.

Lemma inserted_wf cur c l h h' : wf cur (fun i => i <> idx cur) h ->
  0 <= cur < Z.of_nat (length inp) -> tbl inp cur = Ok c -> tbl (m_pHashTable h) c = Ok l ->
  inserted cur c l h h' -> wf (cur + 1) (fun _ => True) h'.
Proof.
  intros [Ht Hg HN HX HP HS] Hcur Ec El [It Ig Inode Iold Inew Ihead Iheads].
  pose proof W_range as HWr. split.
  - congruence.
  - congruence.
  - intros i m d _ E1 E2. destruct (decide (i = idx cur)) as [->|Hi].
    { rewrite Inode in E1. injection E1 as <-. injection E2 as <-. split; [lia|]. split; [lia|done]. }
    destruct (Iold i m Hi E1) as (m0 & A & B & _). rewrite B in E2.
    destruct (HN i m0 d Hi A E2) as (F1 & F2 & F3). split; [lia|]. split; [|done].
    assert (d <> cur - W); [|lia]. intros ->. apply Hi. rewrite <- F3. unfold idx.
    replace (addr + (cur - W)) with (addr + cur + -1 * W) by lia. by rewrite Z.mod_add by lia.
  - intros i m d j _ E1 E2 E3. split; [done|]. destruct (decide (i = idx cur)) as [->|Hi].
    { rewrite Inode in E1. injection E1 as <-. injection E2 as <-. simpl in E3.
      destruct (HS c l j El E3) as (Hj & n' & d' & A & B & _).
      destruct (Inew j n' Hj A) as (m & F1 & F2 & F3 & _ & F5). exists m, d'.
      split; [done|]. split; [congruence|]. split; [|auto].
      destruct (HN j n' d' Hj A B) as (? & _). lia. }
    destruct (Iold i m Hi E1) as (m0 & A & B & C & _).
    destruct (HX i m0 d j Hi A ltac:(congruence) ltac:(congruence))
      as (Hj & n' & d' & A' & B' & Hlt & C').
    destruct (Inew j n' Hj A') as (m' & F1 & F2 & F3 & F4 & _). exists m', d'.
    split; [done|]. split; [congruence|]. split; [done|]. rewrite F4; [done|].
    intros Es. destruct (HS c l j El Es) as (_ & n2 & d2 & G1 & _ & _ & G2). congruence.
  - intros i m d q _ E1 E2 E3. split; [done|]. destruct (decide (i = idx cur)) as [->|Hi].
    { rewrite Inode in E1. by injection E1 as <-. }
    destruct (Iold i m Hi E1) as (m0 & A & B & C & D1 & D2).
    destruct (decide (pStart l = Some i)) as [Es|Es].
    + rewrite D2 in E3 by done. injection E3 as <-. rewrite <- Es.
      exists (mknode (Some cur) None (pStart l)), cur. by rewrite Inode.
    + rewrite D1 in E2, E3 by done.
      destruct (HP i m0 d q Hi A E2 E3) as (Hq & n' & d' & A' & B' & C').
      destruct (Inew q n' Hq A') as (m' & F1 & F2 & F3 & _). exists m', d'.
      split; [done|]. split; congruence.
  - intros c' l' j E1 E2. split; [done|]. destruct (decide (c' = c)) as [->|Hc].
    { destruct Ihead as [e Ee]. rewrite Ee in E1. injection E1 as <-. injection E2 as <-.
      exists (mknode (Some cur) None (pStart l)), cur. by rewrite Inode. }
    rewrite Iheads in E1 by done.
    destruct (HS c' l' j E1 E2) as (Hj & n' & d' & A & B & C & D).
    destruct (Inew j n' Hj A) as (m' & F1 & F2 & F3 & F4 & _). exists m', d'.
    split; [done|]. split; [congruence|]. split; [done|]. rewrite F4; [done|].
    intros Es. destruct (HS c l j El Es) as (_ & n2 & d2 & G1 & G2 & G3 & _). congruence.
Qed.

Lemma BuildHash_wf cur h : wf cur (fun _ => True) h -> 0 <= cur < Z.of_nat (length inp) ->
  exists h', BuildHash W addr inp cur h = Ok h' /\ wf (cur + 1) (fun _ => True) h'.
Proof.
  intros Hwf Hcur. unfold BuildHash. rewrite target_index by done.
  pose proof (idx_range cur) as Hr.
  destruct (tbl_in_range (m_pHashTarget h) (idx cur)) as (n & En & _).
  { rewrite (wf_target _ _ _ Hwf). lia. }
  rewrite (res_bind_ok _ _ _ En).
  destruct (unlink_wf cur h n Hwf Hcur En) as (h1 & E1 & H1). rewrite (res_bind_ok _ _ _ E1).
  destruct (inp_at cur Hcur) as (c & Ec & Hc). rewrite (res_bind_ok _ _ _ Ec).
  destruct (tbl_in_range (m_pHashTable h1) c) as (l & El & _).
  { rewrite (wf_table _ _ _ H1). lia. }
  rewrite (res_bind_ok _ _ _ El).
  destruct (tbl_set_spec (m_pHashTarget h1) (idx cur) (mknode (Some cur) None (pStart l)))
    as (g & Eg & Lg & Gt & Go). { rewrite (wf_target _ _ _ H1). lia. }
  rewrite (res_bind_ok _ _ _ Eg).
  assert (Hset : forall v, exists t, tbl_set (m_pHashTable h1) c v = Ok t /\
    length t = length (m_pHashTable h1) /\ tbl t c = Ok v /\
    forall c', c' <> c -> tbl t c' = tbl (m_pHashTable h1) c').
  { intros v. apply tbl_set_spec. rewrite (wf_table _ _ _ H1). lia. }
  destruct (pStart l) as [s|] eqn:Es.
  - destruct (wf_start _ _ _ H1 c l s El Es) as (Hs & ns & ds & As & Bs & _ & _).
    rewrite (res_bind_ok _ _ ns) by (by rewrite Go).
    destruct (tbl_set_spec g s (mknode (pData ns) (Some (idx cur)) (pNext ns)))
      as (g2 & Eg2 & Lg2 & Gs & Go2). { rewrite Lg. by apply tbl_bound in As. }
    rewrite (res_bind_ok _ _ _ Eg2).
    destruct (Hset (mklist (Some (idx cur)) (pEnd l))) as (t & Et & Lt & Tc & To).
    rewrite (res_bind_ok _ _ _ Et). eexists. split; [reflexivity|].
    apply (inserted_wf cur c l h1); try done.
    split; cbn [m_pHashTable m_pHashTarget]; [congruence|congruence| | | |by eexists|done].
    + rewrite Go2, Gt, Es by done. done.
    + intros i m Hi Em. destruct (decide (i = s)) as [->|His].
      * exists ns. split; [done|]. rewrite Gs in Em. injection Em as <-. by repeat split.
      * exists m. rewrite Go2, Go in Em by done. split; [done|]. repeat split. congruence.
    + intros i m Hi Em. destruct (decide (i = s)) as [->|His].
      * rewrite As in Em. injection Em as <-. eexists. split; [exact Gs|]. by repeat split.
      * exists m. rewrite Go2, Go by done. split; [done|]. repeat split. congruence.
  - destruct (Hset (mklist (Some (idx cur)) (Some (idx cur)))) as (t & Et & Lt & Tc & To).
    rewrite (res_bind_ok _ _ _ Et). eexists. split; [reflexivity|].
    apply (inserted_wf cur c l h1); try done.
    split; cbn [m_pHashTable m_pHashTarget]; [congruence|congruence| | | |by eexists|done].
    + by rewrite Gt, Es.
    + intros i m Hi Em. exists m. rewrite Go in Em by done. split; [done|]. repeat split. congruence.
    + intros i m Hi Em. exists m. rewrite Go by done. split; [done|]. repeat split. congruence.
Qed.

Lemma build_hashes_wf n cur h : wf cur (fun _ => True) h -> 0 <= cur ->
  cur + Z.of_nat n <= Z.of_nat (length inp) ->
  exists h', build_hashes W addr inp cur n h = Ok h' /\
    wf (cur + Z.of_nat n) (fun _ => True) h'.
Proof.
  revert cur h. induction n as [|n IH]; intros cur h Hwf H0 Hn.
  { exists h. rewrite Z.add_0_r. done. }
  cbn [build_hashes]. destruct (BuildHash_wf cur h Hwf) as (h1 & E1 & H1); [lia|].
  rewrite (res_bind_ok _ _ _ E1).
  destruct (IH (cur + 1) h1 H1) as (h2 & E2 & H2); [lia|lia|]. exists h2. split; [done|].
  by replace (cur + Z.of_nat (S n)) with (cur + 1 + Z.of_nat n) by lia.
Qed.

(** * Matches *)

(** The bytes at [d] and at [p] agree for [len] bytes. *)
Definition same_run (d p : Z) (len : Z) : Prop :=
  forall i, 0 <= i < len -> tbl inp (d + i) = tbl inp (p + i).

Lemma match_length_spec n d p : 0 <= d -> d <= p -> p + Z.of_nat n <= Z.of_nat (length inp) ->
  exists r, match_length inp d p n = Ok r /\ 0 <= r <= Z.of_nat n /\ same_run d p r.
Proof.
  revert d p. induction n as [|n IH]; intros d p Hd Hdp Hp.
  { exists 0. split; [done|]. split; [lia|]. intros i Hi. lia. }
  cbn [match_length]. destruct (inp_at d) as (a & Ea & _); [lia|].
  destruct (inp_at p) as (b & Eb & _); [lia|].
  rewrite (res_bind_ok _ _ _ Ea), (res_bind_ok _ _ _ Eb).
  destruct (Z.eqb_spec a b) as [->|Hne].
  2: { exists 0. split; [done|]. split; [lia|]. intros i Hi. lia. }
  destruct (IH (d + 1) (p + 1)) as (r & Er & Hr & Hs); [lia..|].
  rewrite (res_bind_ok _ _ _ Er). exists (1 + r). split; [done|]. split; [lia|].
  intros i Hi. destruct (decide (i = 0)) as [->|Hi0]; [rewrite !Z.add_0_r; congruence|].
  replace (d + i) with (d + 1 + (i - 1)) by lia. replace (p + i) with (p + 1 + (i - 1)) by lia.
  apply Hs. lia.
Qed.

(** What is known of the best match so far. *)
Definition good_match (p look : Z) (m : Z * Z) : Prop :=
  fst m = 0 \/ (0 < fst m <= look /\ 0 <= snd m < p /\ p - W <= snd m /\
                same_run (snd m) p (fst m)).

Lemma find_match_loop fuel h p look j m : wf p (fun _ => True) h -> 0 <= p ->
  1 <= look -> p + look <= Z.of_nat (length inp) ->
  (forall i, j = Some i -> exists n d, tbl (m_pHashTarget h) i = Ok n /\ pData n = Some d /\
     d - (p - W) < Z.of_nat fuel - 1) ->
  (0 < fuel)%nat -> good_match p look m ->
  exists r, res_loop fuel (find_match_body inp h p look) (j, fst m, snd m) = Ok r /\
    good_match p look r.
Proof.
  intros Hwf Hp Hl1 Hl2. revert j m. induction fuel as [|fuel IH]; intros j m Hj Hf Hm; [lia|].
  cbn [res_loop find_match_body]. destruct j as [i|].
  2: { exists m. simpl. by destruct m. }
  destruct (Hj i eq_refl) as (n & d & En & Ed & Hd).
  rewrite (res_bind_ok _ _ _ En), Ed.
  destruct (wf_node _ _ _ Hwf i n d I En Ed) as (Hd0 & Hdw & _).
  destruct (match_length_spec (Z.to_nat look) d p) as (r & Er & Hr & Hs); [lia..|].
  rewrite (res_bind_ok _ _ _ Er).
  set (m' := if fst m <? r then (r, d) else (fst m, snd m)).
  assert (good_match p look m') as Hm'.
  { unfold m'. destruct (Z.ltb_spec (fst m) r); [|by destruct m].
    destruct Hm as [Hm|(Hm & _)]; right; simpl; (split; [lia|]; split; [lia|]; by split). }
  change (if fst m <? r then (r, d) else (fst m, snd m)) with m'.
  clearbody m'. destruct m' as [len pos]. destruct (r =? look); [by exists (len, pos)|].
  apply (IH (pNext n) (len, pos)); [|lia|done].
  (* the positions of a chain decrease, and the last one is in the window *)
  intros i' Ei'. destruct (wf_next _ _ _ Hwf i n d i' I En Ed Ei') as (_ & n' & d' & A & B & Hlt & _).
  exists n', d'. split; [done|]. split; [done|]. lia.
Qed.

Lemma find_match_spec h p look pos : wf p (fun _ => True) h -> 0 <= p ->
  1 <= look -> p + look <= Z.of_nat (length inp) ->
  exists len pos', find_match W inp h p look pos = Ok (len, pos') /\
    good_match p look (len, pos').
Proof.
  intros Hwf Hp Hl1 Hl2. unfold find_match. pose proof W_range as HWr.
  destruct (inp_at p) as (c & Ec & Hc); [lia|]. rewrite (res_bind_ok _ _ _ Ec).
  destruct (tbl_in_range (m_pHashTable h) c) as (l & El & _).
  { rewrite (wf_table _ _ _ Hwf). lia. }
  rewrite (res_bind_ok _ _ _ El).
  destruct (find_match_loop (S (Z.to_nat W)) h p look (pStart l) (0, pos)) as ([len pos'] & Er & Hg);
    try done.
  - intros i Ei. destruct (wf_start _ _ _ Hwf c l i El Ei) as (_ & n & d & A & B & _).
    exists n, d. split; [done|]. split; [done|].
    destruct (wf_node _ _ _ Hwf i n d I A B). lia.
  - lia.
  - by left.
  - by exists len, pos'.
Qed.
End Hash.
