(* ===== verification/LzssCode.v ===== *)
(** The stream the LZSS codec writes and reads: groups of up to eight items behind a
    byte of flags, and what the decoder does with each part of it. *)

From S2P Require Import Prelude Lzss LzssHash.

(** A literal, or a copy of [len] bytes from [dist + 1] bytes back. *)
Inductive item :=
  | Lit (b : Z)
  | Ref (dist len : Z).

Definition item_len (i : item) : Z := match i with Lit _ => 1 | Ref _ len => len end.

Definition item_bytes (i : item) : list Z :=
  match i with
  | Lit b => [b]
  | Ref dist len => [u8 (Z.shiftr dist 4); u8 (Z.lor (Z.shiftl dist 4) (len - 1))]
  end.

Definition item_flag (i : item) : Z := match i with Lit _ => 0 | Ref _ _ => 1 end.

(** The flags of a group, the first item in the lowest bit. *)
Fixpoint cmd_of (g : list item) : Z :=
  match g with [] => 0 | i :: g' => item_flag i + 2 * cmd_of g' end.

Definition group_bytes (g : list item) : list Z := cmd_of g :: flat_map item_bytes g.

(** The marker behind the last item. *)
Definition end_item : item := Ref 0 1.

(** [item] reproduces the bytes of [inp] at [p]. *)
Definition codes (inp : list Z) (p : Z) (i : item) : Prop :=
  match i with
  | Lit b => tbl inp p = Ok b
  | Ref dist len => 0 <= dist < 4096 /\ dist + 1 <= p /\ 2 <= len <= 16 /\
      p + len <= Z.of_nat (length inp) /\ same_run inp (p - dist - 1) p len
  end.

Fixpoint codes_all (inp : list Z) (p : Z) (l : list item) (q : Z) : Prop :=
  match l with
  | [] => p = q
  | i :: l' => codes inp p i /\ codes_all inp (p + item_len i) l' q
  end.

Lemma codes_len inp p i : codes inp p i -> 0 <= p -> 1 <= item_len i /\ p + item_len i <= Z.of_nat (length inp).
Proof.
  destruct i as [b|dist len]; simpl; intros H Hp; [|lia]. apply tbl_bound in H. lia.
Qed.

Lemma codes_all_app inp p l1 l2 q : codes_all inp p (l1 ++ l2) q <->
  exists m, codes_all inp p l1 m /\ codes_all inp m l2 q.
Proof.
  revert p. induction l1 as [|i l1 IH]; intros p; simpl.
  - split; [by exists p|]. by intros (m & -> & H).
  - rewrite IH. split.
    + intros (Hi & m & H1 & H2). by exists m.
    + intros (m & (Hi & H1) & H2). split; [done|]. by exists m.
Qed.

Lemma codes_all_len inp p l q : codes_all inp p l q -> 0 <= p <= Z.of_nat (length inp) ->
  p + Z.of_nat (length l) <= q <= Z.of_nat (length inp).
Proof.
  revert p. induction l as [|i l IH]; intros p; simpl; [lia|].
  intros [Hi Hl] Hp. destruct (codes_len inp p i Hi); [lia|]. apply IH in Hl; lia.
Qed.

Lemma cmd_of_app g i : cmd_of (g ++ [i]) = cmd_of g + item_flag i * 2 ^ Z.of_nat (length g).
Proof.
  induction g as [|j g IH]; cbn [cmd_of app length].
  - change (2 ^ Z.of_nat 0) with 1. lia.
  - rewrite IH, Nat2Z.inj_succ, Z.pow_succ_r by lia. lia.
Qed.

Lemma cmd_of_range g : 0 <= cmd_of g < 2 ^ Z.of_nat (length g).
Proof.
  induction g as [|i g IH]; cbn [cmd_of length].
  - change (2 ^ Z.of_nat 0) with 1. lia.
  - rewrite Nat2Z.inj_succ, Z.pow_succ_r by lia. destruct i; simpl; lia.
Qed.

Lemma cmd_of_low i g : Z.land (cmd_of (i :: g)) 1 = item_flag i.
Proof.
  change 1 with (Z.ones 1). rewrite Z.land_ones by lia. change (2 ^ 1) with 2.
  cbn [cmd_of]. rewrite (Z.mul_comm 2), Z.mod_add by lia. by destruct i.
Qed.

Lemma cmd_of_shift i g : Z.shiftr (cmd_of (i :: g)) 1 = cmd_of g.
Proof.
  rewrite Z.shiftr_div_pow2 by lia. change (2 ^ 1) with 2. cbn [cmd_of].
  rewrite (Z.mul_comm 2), Z.div_add by lia. by destruct i.
Qed.

(** The two bytes of a match hold its distance and length. *)
Lemma ref_bytes dist len : 0 <= dist < 4096 -> 1 <= len <= 16 ->
  exists b0 b1, item_bytes (Ref dist len) = [b0; b1] /\
    Z.lor (Z.shiftl b0 LZSS_LOOKSHIFT) (Z.shiftr b1 LZSS_LOOKSHIFT) = dist /\
    Z.land b1 0x0F + 1 = len.
Proof.
  intros Hd Hl. do 2 eexists. split; [reflexivity|]. unfold LZSS_LOOKSHIFT, u8. split.
  - apply Z.bits_inj'; intros j Hj. change 256 with (2 ^ 8).
    autorewrite with zbits. zbits_cases; try lia.
    all: rewrite ?(zb_high (len - 1) 4) by lia; simpl; rewrite ?orb_false_r.
    all: try (f_equal; lia). symmetry. apply (zb_high dist 12); lia.
  - enough (Z.land (Z.lor (Z.shiftl dist 4) (len - 1) mod 2 ^ 8) 15 = len - 1) as -> by lia.
    change 15 with (Z.ones 4).
    apply Z.bits_inj'; intros j Hj. autorewrite with zbits. zbits_cases; try lia.
    all: rewrite ?(zb_high (len - 1) 4) by lia; simpl; rewrite ?andb_true_r, ?andb_false_r; try done.
    by rewrite (Z.testbit_neg_r dist) by lia.
Qed.

(** Twelve bits of distance: a match further back is written as a nearer one, so the
    window must not exceed 4096 bytes. *)
Lemma far_ref_wraps dist len : 0 <= dist -> 1 <= len <= 16 ->
  item_bytes (Ref (dist + 4096) len) = item_bytes (Ref dist len).
Proof.
  intros Hd Hl. simpl item_bytes. f_equal; [|f_equal].
  - unfold uwrap. rewrite !Z.shiftr_div_pow2 by lia.
    replace (dist + 4096) with (dist + 256 * 2 ^ 4) by lia. rewrite Z.div_add by lia.
    replace (dist / 2 ^ 4 + 256) with (dist / 2 ^ 4 + 1 * 2 ^ 8) by lia. by rewrite Z.mod_add by lia.
  - unfold uwrap. rewrite !(Z.lor_comm (Z.shiftl _ _)), !(lor_shiftl_add (len - 1) _ 4) by lia.
    replace (len - 1 + (dist + 4096) * 2 ^ 4) with (len - 1 + dist * 2 ^ 4 + 256 * 2 ^ 8) by lia.
    by rewrite Z.mod_add by lia.
Qed.

(** * Positions of a buffer *)

Definition rest_at (c : list Z) (a : Z) (l : list Z) : Prop :=
  0 <= a /\ drop (Z.to_nat a) c = l.

Lemma rest_at_cons c a b l : rest_at c a (b :: l) -> tbl c a = Ok b /\ rest_at c (a + 1) l.
Proof.
  intros [Ha E]. split.
  - apply tbl_ok; [done|]. rewrite <- (Nat.add_0_r (Z.to_nat a)), <- lookup_drop, E. done.
  - split; [lia|]. replace (Z.to_nat (a + 1)) with (Z.to_nat a + 1)%nat by lia.
    by rewrite <- drop_drop, E.
Qed.

Lemma take_snoc (inp : list Z) p b : tbl inp p = Ok b ->
  take (Z.to_nat p) inp ++ [b] = take (Z.to_nat (p + 1)) inp.
Proof.
  intros E. pose proof (tbl_bound _ _ _ E). unfold tbl in E.
  destruct (0 <=? p); [|done]. destruct (inp !! Z.to_nat p) eqn:El; [|done]. injection E as ->.
  replace (Z.to_nat (p + 1)) with (S (Z.to_nat p)) by lia. by rewrite (take_S_r _ _ _ El).
Qed.

Lemma take_len {A} (inp : list A) p : 0 <= p <= Z.of_nat (length inp) ->
  Z.of_nat (length (take (Z.to_nat p) inp)) = p.
Proof. intros. rewrite length_take. lia. Qed.

Lemma put_ok cap out b : Z.of_nat (length out) < cap -> put cap out b = Ok (out ++ [b]).
Proof. intros H. unfold put. by rewrite (proj2 (Z.ltb_lt _ _) H). Qed.

(** * The decoder *)

Lemma next_count k : 0 <= k < 8 -> Z.land (k + 1) 7 = if k =? 7 then 0 else k + 1.
Proof.
  intros Hk. change 7 with (Z.ones 3) at 1. rewrite Z.land_ones by lia. change (2 ^ 3) with 8.
  destruct (Z.eqb_spec k 7) as [->|]; [done|]. apply Z.mod_small. lia.
Qed.

Section Decode.
Context (cap : Z) (inp c : list Z).
Context (Hcap : Z.of_nat (length inp) <= cap) (Hlen : Z.of_nat (length inp) < 2 ^ 31).

(** The decoder has restored the first [p] bytes and is at [a] of [c]. *)
Definition dec_at (a p cmd k : Z) : dstate :=
  mkdstate a (take (Z.to_nat p) inp) cmd k p.

Lemma copy_back_run n p src : 0 <= src < p -> p + Z.of_nat n <= Z.of_nat (length inp) ->
  same_run inp src p (Z.of_nat n) ->
  copy_back cap (take (Z.to_nat p) inp) src n = Ok (take (Z.to_nat (p + Z.of_nat n)) inp).
Proof.
  revert p src. induction n as [|n IH]; intros p src Hs Hp Hrun.
  { simpl. by rewrite Z.add_0_r. }
  cbn [copy_back]. destruct (Z.ltb_spec src 0); [lia|].
  destruct (tbl_in_range inp p) as (b & Eb & _); [lia|].
  pose proof (Hrun 0 ltac:(lia)) as E0. rewrite !Z.add_0_r in E0.
  rewrite (res_bind_ok _ _ b).
  2: { rewrite <- Eb, <- E0. unfold tbl. destruct (0 <=? src); [|done].
       by rewrite lookup_take_lt by lia. }
  rewrite (res_bind_ok _ _ _ (put_ok cap (take (Z.to_nat p) inp) b
    ltac:(rewrite take_len; lia))).
  rewrite (take_snoc _ _ _ Eb). rewrite IH; [f_equal; f_equal; lia|lia|lia|].
  intros i Hi. replace (src + 1 + i) with (src + (i + 1)) by lia.
  replace (p + 1 + i) with (p + (i + 1)) by lia. apply Hrun. lia.
Qed.

Lemma dec_item i g a p q l k s : codes inp p i -> rest_at c a (item_bytes i ++ l) ->
  0 <= p -> d_out s = take (Z.to_nat p) inp -> d_totalBytes s = p -> q = p + item_len i ->
  exists a', rest_at c a' l /\
    uncompress_item cap c (cmd_of (i :: g)) a k s = Ok (inl (dec_at a' q (cmd_of g) k)).
Proof.
  intros Hi Ha Hp Eo Et ->. pose proof (codes_len inp p i Hi Hp) as Hlp.
  unfold uncompress_item. rewrite cmd_of_low, cmd_of_shift, Eo, Et. destruct i as [b|dist len].
  - cbn [item_flag item_len item_bytes app] in *. apply rest_at_cons in Ha as [Eb Ha].
    exists (a + 1). split; [done|]. cbn [negb Z.eqb]. rewrite (res_bind_ok _ _ _ Eb).
    rewrite (res_bind_ok _ _ _ (put_ok cap (take (Z.to_nat p) inp) b ltac:(rewrite take_len; lia))).
    simpl in Hi. rewrite (take_snoc _ _ _ Hi), u32_small by lia. done.
  - destruct Hi as (Hd & Hdp & Hl & Hpl & Hrun).
    destruct (ref_bytes dist len) as (b0 & b1 & Eb & Ed & El); [lia|lia|]. rewrite Eb in Ha.
    cbn [item_flag item_len app] in *.
    apply rest_at_cons in Ha as [E0 Ha]. apply rest_at_cons in Ha as [E1 Ha].
    exists (a + 2). split; [by replace (a + 2) with (a + 1 + 1) by lia|].
    change (negb (1 =? 0)) with true. cbv iota.
    rewrite (res_bind_ok _ _ _ E0), (res_bind_ok _ _ _ E1). cbv zeta. rewrite Ed, El.
    destruct (Z.eqb_spec len 1); [lia|]. rewrite take_len by lia.
    rewrite (res_bind_ok _ _ _ (copy_back_run (Z.to_nat len) p (p - dist - 1)
      ltac:(lia) ltac:(lia) ltac:(rewrite Z2Nat.id by lia; done))).
    rewrite u32_small by lia. unfold dec_at. by replace (p + Z.of_nat (Z.to_nat len)) with (p + len) by lia.
Qed.

Lemma dec_end a k s l : rest_at c a (item_bytes end_item ++ l) ->
  uncompress_item cap c (cmd_of [end_item]) a k s =
    Ok (inr (mkdstate (a + 2) (d_out s) 1 k (d_totalBytes s))).
Proof.
  intros Ha. apply rest_at_cons in Ha as [E0 Ha]. apply rest_at_cons in Ha as [E1 _].
  unfold uncompress_item. by rewrite (res_bind_ok _ _ _ E0), (res_bind_ok _ _ _ E1).
Qed.

(** A round inside a group, and one that first takes the flags. *)
Lemma body_inside s : d_getCmdByte s <> 0 -> uncompress_body cap c s =
  uncompress_item cap c (d_cmdByte s) (d_in s) (Z.land (d_getCmdByte s + 1) 7) s.
Proof. intros H. unfold uncompress_body. by rewrite (proj2 (Z.eqb_neq _ _) H). Qed.

Lemma body_first s b : d_getCmdByte s = 0 -> tbl c (d_in s) = Ok b -> uncompress_body cap c s =
  uncompress_item cap c b (d_in s + 1) 1 s.
Proof.
  intros H E. unfold uncompress_body. rewrite H. change (0 =? 0) with true. cbv iota.
  by rewrite E.
Qed.

(** The items of a group behind its first. *)
Lemma dec_items g tail a p q l k : codes_all inp p g q -> 0 <= p <= Z.of_nat (length inp) ->
  rest_at c a (flat_map item_bytes g ++ l) -> 1 <= k -> k + Z.of_nat (length g) <= 8 ->
  exists a', rest_at c a' l /\ forall n,
    res_loop (length g + n) (uncompress_body cap c) (dec_at a p (cmd_of (g ++ tail)) (Z.land k 7)) =
    res_loop n (uncompress_body cap c)
      (dec_at a' q (cmd_of tail) (Z.land (k + Z.of_nat (length g)) 7)).
Proof.
  revert a p k. induction g as [|i g IH]; intros a p k Hg Hp Ha Hk Hk8.
  { simpl in Hg. subst q. exists a. split; [done|]. intros n. simpl. by rewrite Z.add_0_r. }
  cbn [length] in Hk8. destruct Hg as [Hi Hg]. cbn [flat_map] in Ha. rewrite <- app_assoc in Ha.
  assert (Z.land k 7 = k) as Ek.
  { replace k with (k - 1 + 1) by lia. rewrite next_count by lia.
    destruct (Z.eqb_spec (k - 1) 7); lia. }
  destruct (dec_item i (g ++ tail) a p (p + item_len i) (flat_map item_bytes g ++ l)
    (Z.land (k + 1) 7) (dec_at a p (cmd_of ((i :: g) ++ tail)) (Z.land k 7)))
    as (a1 & Ha1 & E1); try done; [lia|].
  destruct (codes_len inp p i Hi); [lia|].
  destruct (IH a1 (p + item_len i) (k + 1) Hg) as (a2 & Ha2 & E2); [lia|done|lia|lia|].
  exists a2. split; [done|]. intros n. cbn [length Nat.add res_loop].
  rewrite (body_inside (dec_at a p _ _)) by (simpl; lia).
  cbn [d_cmdByte d_in d_getCmdByte dec_at]. rewrite Ek.
  rewrite Ek in E1. rewrite (res_bind_ok _ _ _ E1). rewrite E2.
  do 2 f_equal. f_equal. lia.
Qed.

(** A whole group, with the flags of [tail] left. *)
Lemma dec_group g i tail a p q l cmd : codes_all inp p (i :: g) q ->
  0 <= p <= Z.of_nat (length inp) ->
  rest_at c a (cmd_of ((i :: g) ++ tail) :: flat_map item_bytes (i :: g) ++ l) ->
  (length (i :: g) <= 8)%nat ->
  exists a', rest_at c a' l /\ forall n,
    res_loop (length (i :: g) + n) (uncompress_body cap c) (dec_at a p cmd 0) =
    res_loop n (uncompress_body cap c)
      (dec_at a' q (cmd_of tail) (Z.land (Z.of_nat (length (i :: g))) 7)).
Proof.
  intros [Hi Hg] Hp Ha Hlg. apply rest_at_cons in Ha as [Ec Ha].
  cbn [flat_map] in Ha. rewrite <- app_assoc in Ha. cbn [length] in Hlg.
  destruct (dec_item i (g ++ tail) (a + 1) p (p + item_len i) (flat_map item_bytes g ++ l) 1
    (dec_at a p cmd 0)) as (a1 & Ha1 & E1); try done; [lia|].
  destruct (codes_len inp p i Hi); [lia|].
  destruct (dec_items g tail a1 (p + item_len i) q l 1 Hg) as (a2 & Ha2 & E2); [lia|done|lia|lia|].
  exists a2. split; [done|]. intros n. cbn [length Nat.add res_loop].
  rewrite (body_first (dec_at a p cmd 0) _ eq_refl Ec).
  cbn [d_in dec_at]. rewrite (res_bind_ok _ _ _ E1).
  change (dec_at a1 (p + item_len i) (cmd_of (g ++ tail)) 1)
    with (dec_at a1 (p + item_len i) (cmd_of (g ++ tail)) (Z.land 1 7)). rewrite E2.
  do 2 f_equal. f_equal. lia.
Qed.

(** The groups in front of the last. *)
Lemma dec_groups gs a p q l cmd : codes_all inp p (concat gs) q ->
  0 <= p <= Z.of_nat (length inp) ->
  rest_at c a (flat_map group_bytes gs ++ l) ->
  Forall (fun g => length g = 8%nat) gs ->
  exists a' cmd', rest_at c a' l /\ forall n,
    res_loop (length (concat gs) + n) (uncompress_body cap c) (dec_at a p cmd 0) =
    res_loop n (uncompress_body cap c) (dec_at a' q cmd' 0).
Proof.
  intros Hc Hp Ha H8. revert a p cmd Hc Hp Ha. induction H8 as [|g gs Hg H8 IH]; intros a p cmd Hc Hp Ha.
  { simpl in Hc. subst q. by exists a, cmd. }
  cbn [concat flat_map] in *. apply codes_all_app in Hc as (m & Hc1 & Hc2).
  rewrite <- app_assoc in Ha. destruct g as [|i g]; [done|].
  destruct (dec_group g i [] a p m (flat_map group_bytes gs ++ l) cmd Hc1 Hp) as (a1 & Ha1 & E1).
  { rewrite app_nil_r. exact Ha. }
  { lia. }
  pose proof (codes_all_len inp p (i :: g) m Hc1 Hp).
  destruct (IH a1 m 0 Hc2) as (a2 & cmd' & Ha2 & E2); [lia|done|].
  exists a2, cmd'. split; [done|]. intros n. rewrite length_app, <- Nat.add_assoc, E1.
  rewrite Hg. change (Z.land (Z.of_nat 8) 7) with 0. apply E2.
Qed.

Lemma dec_last g a p q l cmd : codes_all inp p g q -> 0 <= p <= Z.of_nat (length inp) ->
  rest_at c a (group_bytes (g ++ [end_item]) ++ l) -> (length g < 8)%nat ->
  exists s, res_loop (length g + 1) (uncompress_body cap c) (dec_at a p cmd 0) = Ok s /\
    d_out s = take (Z.to_nat q) inp /\ d_totalBytes s = q.
Proof.
  intros Hg Hp Ha H8. unfold group_bytes in Ha. rewrite flat_map_app in Ha.
  cbn [app] in Ha. destruct g as [|i g].
  - apply rest_at_cons in Ha as [Ec Ha]. simpl in Hg. subst q.
    cbn [length Nat.add res_loop]. rewrite (body_first (dec_at a p cmd 0) _ eq_refl Ec).
    cbn [d_in dec_at]. change (flat_map item_bytes [] ++ ?x) with x in Ha.
    cbn [app] in Ha. unfold cmd_of at 1. change (item_flag end_item + 2 * 0) with (cmd_of [end_item]).
    change (flat_map item_bytes [end_item]) with (item_bytes end_item) in Ha.
    rewrite (res_bind_ok _ _ _ (dec_end (a + 1) 1 _ l Ha)). by eexists.
  - rewrite <- !app_assoc in Ha.
    destruct (dec_group g i [end_item] a p q (flat_map item_bytes [end_item] ++ l) cmd Hg Hp Ha)
      as (a1 & Ha1 & E1); [lia|].
    rewrite E1. cbn [res_loop]. rewrite body_inside.
    2: { cbn [d_getCmdByte dec_at]. replace (Z.of_nat _) with (Z.of_nat (length g) + 1) by (simpl; lia).
         rewrite next_count by (simpl in H8; lia). simpl in H8.
         destruct (Z.eqb_spec (Z.of_nat (length g)) 7); lia. }
    cbn [d_in d_cmdByte dec_at].
    change (flat_map item_bytes [end_item]) with (item_bytes end_item) in Ha1.
    rewrite (res_bind_ok _ _ _ (dec_end a1 _ _ l Ha1)). by eexists.
Qed.
End Decode.
