(* ===== verification/LzssProps.v ===== *)
(** What the LZSS codec promises: a round trip, bounds on what is written and kept
    allocated, and what a stream it did not write can make the decoder do. *)

From S2P Require Import Prelude Lzss LzssHash LzssCode.

(** The LZSS compressor: what it writes is a well-formed stream for the input, it
    stays inside the buffer it was given, and the decoder restores the input. *)

(** Performs the next [put] of the goal. *)
Ltac do_put := match goal with
  | |- context [put ?c ?o ?b ≫= ?k] =>
      rewrite (res_bind_ok (put c o b) k (o ++ [b]))
        by (apply put_ok; rewrite ?length_app; cbn [length]; lia)
  end.

(** * The header *)

Definition header_bytes (w : Z) : list Z :=
  [bits w 0 8; bits w 8 8; bits w 16 8; bits w 24 8].

Lemma header_join w : 0 <= w < 2 ^ 32 -> le_join (header_bytes w) = w.
Proof.
  intros Hw. transitivity (bits w 0 32).
  - replace 32 with (8 + (8 + (8 + 8))) by lia. rewrite !bits_app by lia.
    simpl. by rewrite Z.lor_0_r.
  - unfold bits. rewrite Z.shiftr_0_r, Z.land_ones by lia. by apply Z.mod_small.
Qed.

Definition stream_header (size : Z) : list Z := header_bytes LZSS_ID ++ header_bytes size.

Lemma put_dword_ok cap out w : Z.of_nat (length out) + 4 <= cap ->
  put_dword cap out w = Ok (out ++ header_bytes w).
Proof.
  intros Hc. unfold put_dword.
  do 3 do_put. rewrite put_ok by (rewrite ?length_app; simpl; lia). by rewrite <- !app_assoc.
Qed.

Lemma read_stream_header size rest : 0 <= size < 2 ^ 32 ->
  read_header (stream_header size ++ rest) = Ok (mkheader_t LZSS_ID size).
Proof.
  intros Hs. unfold read_header, stream_header.
  change (Ok (mkheader_t (le_join (header_bytes LZSS_ID)) (le_join (header_bytes size))) =
          Ok (mkheader_t LZSS_ID size)).
  by rewrite (header_join size).
Qed.

(** * Flags of an open group *)

Lemma lor_128 a : 0 <= a < 128 -> Z.lor a 0x80 = a + 128.
Proof. intros Ha. apply (lor_shiftl_add a 1 7); lia. Qed.

(** The flags collected so far sit in the high bits. *)
Definition open_cmd (g : list item) : Z := Z.shiftl (cmd_of g) (8 - Z.of_nat (length g)).

Lemma open_cmd_shift g : (length g < 8)%nat ->
  Z.shiftr (open_cmd g) 1 = cmd_of g * 2 ^ (7 - Z.of_nat (length g)) /\
  0 <= Z.shiftr (open_cmd g) 1 < 128.
Proof.
  intros Hg. unfold open_cmd. rewrite Z.shiftl_mul_pow2, Z.shiftr_div_pow2 by lia.
  pose proof (cmd_of_range g) as Hr. set (n := Z.of_nat (length g)) in *.
  replace (8 - n) with (7 - n + 1) by lia. rewrite Z.pow_add_r by lia.
  rewrite Z.mul_assoc, Z.div_mul by done. split; [done|].
  assert (2 ^ n * 2 ^ (7 - n) = 128) as <-
    by (rewrite <- Z.pow_add_r by lia; by replace (n + (7 - n)) with 7 by lia).
  assert (0 < 2 ^ (7 - n)) by (apply Z.pow_pos_nonneg; lia). nia.
Qed.

Lemma open_cmd_app g i : (length g < 8)%nat ->
  open_cmd (g ++ [i]) =
    if item_flag i =? 0 then Z.shiftr (open_cmd g) 1 else Z.lor (Z.shiftr (open_cmd g) 1) 0x80.
Proof.
  intros Hg. destruct (open_cmd_shift g Hg) as [E Hr].
  transitivity (Z.shiftr (open_cmd g) 1 + item_flag i * 128).
  - rewrite E. unfold open_cmd. rewrite cmd_of_app, length_app. simpl length.
    rewrite Z.shiftl_mul_pow2 by lia. set (n := Z.of_nat (length g)).
    replace (8 - Z.of_nat (length g + 1)) with (7 - n) by lia.
    replace 128 with (2 ^ n * 2 ^ (7 - n))
      by (rewrite <- Z.pow_add_r by lia; by replace (n + (7 - n)) with 7 by lia). nia.
  - destruct i; simpl item_flag; [simpl; lia|]. rewrite lor_128 by done. simpl. lia.
Qed.

Lemma open_cmd_close g : (length g <= 8)%nat ->
  Z.shiftr (open_cmd g) (8 - Z.of_nat (length g)) = cmd_of g.
Proof.
  intros Hg. unfold open_cmd. rewrite Z.shiftr_shiftl_l by lia.
  by rewrite Z.sub_diag, Z.shiftl_0_r.
Qed.

Lemma tbl_middle {A} (l : list A) x r : tbl (l ++ x :: r) (Z.of_nat (length l)) = Ok x.
Proof. apply tbl_ok; [lia|]. rewrite Nat2Z.id. by apply list_lookup_middle. Qed.

Lemma tbl_set_middle {A} (l : list A) x r v :
  tbl_set (l ++ x :: r) (Z.of_nat (length l)) v = Ok (l ++ v :: r).
Proof.
  rewrite tbl_set_ok by (rewrite length_app; simpl; lia).
  by rewrite Nat2Z.id, insert_app_r_alt, Nat.sub_diag by lia.
Qed.

(** * One round *)

Section Encode.
Context (W addr cap : Z) (inp : list Z).
Context (HW : exists k, 0 <= k <= 12 /\ W = 2 ^ k).
Context (Hb : Forall is_byte inp) (Ha : 0 <= addr) (Hend : addr + Z.of_nat (length inp) < 2 ^ 32).

Let len := Z.of_nat (length inp).

Definition open_group (g : list item) : list Z := open_cmd g :: flat_map item_bytes g.

Lemma encode_item_spec A g p n pos :
  0 <= p < len -> (length g < 8)%nat -> good_match W inp p (Z.min 16 (len - p)) (n, pos) ->
  Z.of_nat (length (A ++ open_group g)) + 2 <= cap ->
  exists i, codes inp p i /\ item_len i <= len - p /\
    encode_item cap inp p n pos (Z.of_nat (length A)) (A ++ open_group g) =
      Ok (item_len i, A ++ open_group (g ++ [i])).
Proof.
  intros Hp Hg Hm Hcap. pose proof (W_range W inp HW) as HWr. unfold encode_item, open_group in *.
  rewrite (res_bind_ok _ _ _ (tbl_middle A _ _)).
  rewrite length_app in Hcap. simpl length in Hcap. destruct (Z.leb_spec 3 n).
  - destruct Hm as [Hm|((_ & Hn) & Hpos & Hpw & Hrun)]; simpl in *; [lia|].
    exists (Ref (p - pos - 1) n). split.
    { split; [lia|]. split; [lia|]. split; [lia|]. split; [fold len; lia|].
      by replace (p - (p - pos - 1) - 1) with pos by lia. }
    split; [simpl; lia|].
    rewrite (res_bind_ok _ _ _ (tbl_set_middle A _ _ _)).
    do_put.
    do_put.
    rewrite open_cmd_app, flat_map_app by done. simpl. by rewrite <- !app_assoc.
  - destruct (inp_at inp Hb p) as (b & Eb & _); [fold len; lia|]. exists (Lit b).
    split; [done|]. split; [simpl; lia|].
    rewrite (res_bind_ok _ _ _ (tbl_set_middle A _ _ _)), (res_bind_ok _ _ _ Eb).
    do_put.
    rewrite open_cmd_app, flat_map_app by done. simpl. by rewrite <- !app_assoc.
Qed.

(** The groups that are complete, and the bytes written for them. *)
Definition full_bytes (gs : list (list item)) : list Z :=
  stream_header len ++ flat_map group_bytes gs.

Record enc_inv (pEnd : Z) (gs : list (list item)) (g : list item) (s : cstate) : Prop := {
  e_full : Forall (fun g => length g = 8%nat) gs;
  e_part : (length g < 8)%nat;
  e_put : c_putCmdByte s = Z.of_nat (length g);
  e_out : c_out s = full_bytes gs ++ (if decide (g = []) then [] else open_group g);
  e_cmd : g <> [] -> c_cmdByte s = Z.of_nat (length (full_bytes gs));
  e_codes : codes_all inp 0 (concat gs ++ g) (c_look s);
  e_look : 0 <= c_look s <= len;
  e_len : c_inputLength s = len - c_look s;
  e_room : (c_look s = 0 /\ length (c_out s) = 8%nat) \/ Z.of_nat (length (c_out s)) < pEnd;
  e_hash : wf W addr inp (c_look s) (fun _ => True) (c_hash s)
}.

(** The group is open for the next item. *)
Lemma open_step pEnd gs g s : enc_inv pEnd gs g s -> pEnd = len - 16 -> 17 <= len <= cap ->
  (if c_putCmdByte s =? 0 then
     out ← put cap (c_out s) 0; Ok (Z.of_nat (length (c_out s)), out)
   else Ok (c_cmdByte s, c_out s)) =
  Ok (Z.of_nat (length (full_bytes gs)), full_bytes gs ++ open_group g).
Proof.
  intros [_ Hg Hput Eo Ecmd _ _ _ Hroom _] Hpe Hc. rewrite Hput.
  destruct g as [|i g].
  - change (Z.of_nat (length []) =? 0) with true. cbv iota.
    rewrite decide_True in Eo by done. rewrite app_nil_r in Eo. rewrite Eo in *.
    do_put. done.
  - destruct (Z.eqb_spec (Z.of_nat (length (i :: g))) 0) as [E|_]; [simpl in E; lia|].
    rewrite Ecmd, Eo by done. by rewrite decide_False.
Qed.

(** The eighth item completes a group. *)
Lemma full_group gs g i : Z.of_nat (length g) = 7 ->
  full_bytes gs ++ open_group (g ++ [i]) = full_bytes (gs ++ [g ++ [i]]).
Proof.
  intros H7. unfold full_bytes. rewrite flat_map_app. cbn [flat_map].
  rewrite app_nil_r, <- app_assoc. do 2 f_equal. unfold open_group, group_bytes. f_equal.
  rewrite <- (open_cmd_close (g ++ [i])) by (rewrite length_app; simpl; lia).
  rewrite length_app. cbn [length].
  replace (8 - Z.of_nat (length g + 1)) with 0 by lia. by rewrite Z.shiftr_0_r.
Qed.

Lemma step_spec pEnd gs g s : enc_inv pEnd gs g s -> pEnd = len - 16 -> 17 <= len <= cap ->
  0 < c_inputLength s ->
  (exists s', compress_body W addr cap inp pEnd s = Ok (inr (s', false))) \/
  (exists s' gs' g', compress_body W addr cap inp pEnd s = Ok (inl s') /\
     enc_inv pEnd gs' g' s' /\ c_inputLength s' < c_inputLength s /\
     Z.of_nat (length (c_out s')) < pEnd).
Proof.
  intros Hinv Hpe Hc Hpos. pose proof Hinv as [Hfull Hg Hput Eo Ecmd Hcodes Hlook Elen Hroom Hhash].
  unfold compress_body. rewrite (proj2 (Z.ltb_lt _ _) Hpos).
  rewrite (res_bind_ok _ _ _ (open_step pEnd gs g s Hinv Hpe Hc)). cbv zeta beta iota.
  set (p := c_look s) in *.
  assert (Hmin : (if c_inputLength s <? LZSS_LOOKAHEAD then c_inputLength s else LZSS_LOOKAHEAD) =
    Z.min 16 (len - p)).
  { rewrite Elen. change LZSS_LOOKAHEAD with 16. destruct (Z.ltb_spec (len - p) 16); lia. }
  rewrite Hmin.
  destruct (find_match_spec W addr inp HW Hb (c_hash s) p (Z.min 16 (len - p))
    (c_encodedPosition s)) as (n & pos & Ef & Hm); [done|lia|lia|fold len; lia|].
  rewrite (res_bind_ok _ _ _ Ef). cbv beta iota.
  destruct (encode_item_spec (full_bytes gs) g p n pos) as (i & Hi & Hil & Ei); [lia|done|done| |].
  { assert (length (full_bytes gs ++ open_group g) <= length (c_out s) + 1)%nat as Hle.
    { rewrite Eo, !length_app. destruct (decide (g = [])) as [->|]; simpl; lia. }
    lia. }
  rewrite (res_bind_ok _ _ _ Ei). cbv beta iota.
  destruct (codes_len inp p i Hi) as [Hi1 _]; [lia|].
  destruct (build_hashes_wf W addr inp HW Hb Ha Hend (Z.to_nat (item_len i)) p (c_hash s))
    as (h' & Eh & Hh); [done|lia|fold len; lia|].
  rewrite (res_bind_ok _ _ _ Eh). rewrite Z2Nat.id in Hh by lia.
  set (out' := full_bytes gs ++ open_group (g ++ [i])).
  destruct (Z.leb_spec pEnd (Z.of_nat (length out'))) as [Hle|Hlt]; [left; by eexists|].
  right. rewrite Hput, (next_count (Z.of_nat (length g))) by lia.
  assert (codes_all inp 0 ((concat gs ++ g) ++ [i]) (p + item_len i)) as Hcodes'.
  { apply codes_all_app. exists p. split; [done|]. by split. }
  destruct (Z.eqb_spec (Z.of_nat (length g)) 7) as [H7|H7].
  - eexists _, (gs ++ [g ++ [i]]), []. split; [reflexivity|].
    pose proof (full_group gs g i H7) as Eo'. fold out' in Eo'.
    split; [|cbn [c_inputLength c_out]; lia].
    split; cbn [c_inputLength c_look c_out c_cmdByte c_putCmdByte c_hash]; try lia; try done.
    + apply Forall_app. split; [done|]. apply Forall_singleton. rewrite length_app. simpl. lia.
    + simpl. lia.
    + rewrite Eo'. by rewrite decide_True, app_nil_r.
    + rewrite concat_app. simpl. by rewrite !app_nil_r, app_assoc.
  - eexists _, gs, (g ++ [i]). split; [reflexivity|].
    split; [|cbn [c_inputLength c_out]; lia].
    split; cbn [c_inputLength c_look c_out c_cmdByte c_putCmdByte c_hash]; try lia; try done.
    + rewrite length_app. simpl. lia.
    + rewrite length_app. simpl. lia.
    + rewrite decide_False; [done|]. by destruct g.
    + by rewrite app_assoc.
Qed.

Lemma loop_spec pEnd fuel gs g s : enc_inv pEnd gs g s -> pEnd = len - 16 -> 17 <= len <= cap ->
  c_inputLength s < Z.of_nat fuel ->
  exists s' ok, res_loop fuel (compress_body W addr cap inp pEnd) s = Ok (s', ok) /\
    (ok = true -> exists gs' g', enc_inv pEnd gs' g' s' /\ c_inputLength s' = 0).
Proof.
  revert gs g s. induction fuel as [|fuel IH]; intros gs g s Hinv Hpe Hc Hf.
  { destruct Hinv. lia. }
  cbn [res_loop]. destruct (Z.ltb_spec 0 (c_inputLength s)) as [Hpos|Hz].
  - destruct (step_spec pEnd gs g s Hinv Hpe Hc Hpos) as [(s' & E)|(s' & gs' & g' & E & Hinv' & Hlt & _)];
      rewrite (res_bind_ok _ _ _ E).
    + by exists s', false.
    + apply (IH gs' g'); [done..|lia].
  - unfold compress_body. rewrite (proj2 (Z.ltb_ge _ _) Hz). exists s, true.
    split; [done|]. intros _. exists gs, g. split; [done|]. destruct Hinv. lia.
Qed.

(** The end marker completes the last group. *)
Lemma finish_spec pEnd gs g s : enc_inv pEnd gs g s -> pEnd = len - 16 -> 17 <= len <= cap ->
  c_inputLength s = 0 ->
  exists out, finish cap s = Ok out /\
    out = full_bytes gs ++ group_bytes (g ++ [end_item]) /\
    Z.of_nat (length out) <= len - 14.
Proof.
  intros [Hfull Hg Hput Eo Ecmd Hcodes Hlook Elen Hroom Hhash] Hpe Hc Hz.
  destruct Hroom as [?|Hroom]; [lia|]. unfold finish. rewrite Hput.
  exists (full_bytes gs ++ group_bytes (g ++ [end_item])).
  destruct g as [|i g].
  - change (Z.of_nat (length []) =? 0) with true. cbv iota.
    rewrite decide_True in Eo by done. rewrite app_nil_r in Eo. rewrite Eo in *.
    do_put.
    do_put.
    rewrite put_ok by (rewrite !length_app; cbn [length]; lia). rewrite <- !app_assoc.
    change (group_bytes ([] ++ [end_item])) with [1; 0; 0].
    split; [done|]. split; [done|]. rewrite length_app. cbn [length]. lia.
  - destruct (Z.eqb_spec (Z.of_nat (length (i :: g))) 0) as [E|_]; [simpl in E; lia|].
    rewrite decide_False in Eo by done. set (gg := i :: g) in *.
    assert (length (group_bytes (gg ++ [end_item])) = length (open_group gg) + 2)%nat as Hlen2.
    { unfold group_bytes, open_group. cbn [length]. rewrite flat_map_app, length_app.
      change (flat_map item_bytes [end_item]) with [0; 0]. cbn [length]. lia. }
    rewrite Ecmd, Eo in * by done. unfold open_group at 1 2.
    rewrite (res_bind_ok _ _ _ (tbl_middle _ _ _)).
    pose proof (open_cmd_app gg end_item Hg) as Ec. change (item_flag end_item =? 0) with false in Ec.
    cbv iota in Ec. rewrite <- Ec.
    pose proof (open_cmd_close (gg ++ [end_item])) as Ecl. rewrite length_app in Ecl. cbn [length] in Ecl.
    replace (8 - Z.of_nat (length gg + 1)) with (7 - Z.of_nat (length gg)) in Ecl by lia.
    rewrite Ecl by lia. rewrite (res_bind_ok _ _ _ (tbl_set_middle _ _ _ _)).
    rewrite length_app in Hroom. unfold open_group in Hroom, Hlen2. cbn [length] in Hroom, Hlen2.
    do_put.
    rewrite put_ok by (rewrite !length_app; cbn [length]; lia).
    split; [|split; [done|]].
    + f_equal. unfold group_bytes. rewrite flat_map_app, <- !app_assoc. done.
    + rewrite length_app. lia.
Qed.

Lemma start_inv pEnd : pEnd = len - 16 -> 17 <= len ->
  enc_inv pEnd [] [] (mkcstate len 0 0 (stream_header len) 0 0 (empty_hash W)).
Proof.
  intros Hpe Hl. split; cbn [c_inputLength c_look c_out c_cmdByte c_putCmdByte c_hash]; try done; try lia.
  - simpl. lia.
  - left. split; [done|reflexivity].
  - apply empty_wf.
Qed.

(** The stream for [inp]: complete groups, and the group of the marker. *)
Definition stream_of (c : list Z) : Prop :=
  exists gs g, c = full_bytes gs ++ group_bytes (g ++ [end_item]) /\
    Forall (fun g => length g = 8%nat) gs /\ (length g < 8)%nat /\
    codes_all inp 0 (concat gs ++ g) len.

Lemma compress_bytes_spec : len <= cap -> 16 < len < 2 ^ 31 ->
  exists r, compress_bytes W addr cap inp = Ok r /\
    match r with
    | None => True
    | Some c => stream_of c /\ Z.of_nat (length c) <= len - 14
    end.
Proof.
  intros Hc Hl. unfold compress_bytes. fold len.
  rewrite (res_bind_ok _ _ ([] ++ header_bytes LZSS_ID)) by (apply put_dword_ok; simpl; lia).
  rewrite (res_bind_ok _ _ (([] ++ header_bytes LZSS_ID) ++ header_bytes len))
    by (apply put_dword_ok; simpl; lia).
  change ([] ++ header_bytes LZSS_ID) with (header_bytes LZSS_ID).
  change (header_bytes LZSS_ID ++ header_bytes len) with (stream_header len).
  replace (len - sizeof_header - 8) with (len - 16) by (unfold sizeof_header; lia).
  destruct (loop_spec (len - 16) (S (length inp)) [] []
    (mkcstate len 0 0 (stream_header len) 0 0 (empty_hash W))) as (s & ok & E & Hok);
    [by apply start_inv; lia|done|lia|simpl; unfold len; lia|].
  rewrite (res_bind_ok _ _ _ E). cbv beta iota.
  destruct ok; [|by exists None]. destruct (Hok eq_refl) as (gs & g & Hinv & Hz).
  rewrite Hz. change (negb true) with false. change (negb (0 =? 0)) with false. cbv iota.
  destruct (finish_spec (len - 16) gs g s Hinv) as (out & Ef & Eout & Hlen); [done|lia|done|].
  rewrite (res_bind_ok _ _ _ Ef). exists (Some out). split; [done|]. split; [|done].
  exists gs, g. destruct Hinv as [? ? _ _ _ Hcodes _ Elen _ _].
  replace (c_look s) with len in Hcodes by lia. done.
Qed.

(** The decoder on such a stream. *)
Lemma Uncompress_stream ucap c : stream_of c -> 0 < len < 2 ^ 31 -> len <= ucap ->
  Uncompress ucap c = Ok (len, inp).
Proof.
  intros (gs & g & -> & H8 & Hg & Hcodes) Hl Hcap. unfold Uncompress, GetActualSize.
  unfold full_bytes. rewrite <- !app_assoc.
  rewrite read_stream_header by lia. change (Ok ?x ≫= ?k) with (k x). cbv beta.
  cbn [hdr_id actualSize]. rewrite Z.eqb_refl. change (Ok ?x ≫= ?k) with (k x). cbv beta.
  destruct (Z.eqb_spec len 0); [lia|].
  set (c := stream_header len ++ _).
  apply codes_all_app in Hcodes as (m & Hc1 & Hc2).
  assert (rest_at c 8 (flat_map group_bytes gs ++ group_bytes (g ++ [end_item]) ++ [])) as Hrest.
  { split; [lia|]. unfold c. rewrite app_nil_r. done. }
  pose proof (codes_all_len inp 0 (concat gs) m Hc1 ltac:(unfold len in *; lia)).
  destruct (dec_groups ucap inp c Hcap ltac:(unfold len in *; lia) gs 8 0 m (group_bytes (g ++ [end_item]) ++ []) 0 Hc1) as
    (a1 & cmd & Ha1 & E1); [unfold len in *; lia|exact Hrest|done|].
  destruct (dec_last ucap inp c Hcap ltac:(unfold len in *; lia) g a1 m len [] cmd Hc2) as
    (s & E2 & Eo & Et); [unfold len in *; lia|done|done|].
  rewrite <- (E1 (length g + 1)%nat) in E2.
  assert (res_loop (S (length c)) (uncompress_body ucap c) (mkdstate sizeof_header [] 0 0 0) = Ok s)
    as ->.
  { eapply res_loop_more; [|exact E2].
    pose proof (codes_all_len inp m g len Hc2 ltac:(unfold len in *; lia)).
    assert (forall l, length l <= length (flat_map item_bytes l))%nat as Hil.
    { induction l as [|i l IH]; simpl; [lia|]. rewrite length_app. destruct i; simpl; lia. }
    assert (forall gs, length (concat gs) <= length (flat_map group_bytes gs))%nat as Hgl.
    { induction gs0 as [|g0 gs0 IH]; simpl; [lia|]. rewrite !length_app. pose proof (Hil g0). lia. }
    unfold c. rewrite !length_app. pose proof (Hgl gs). pose proof (Hil (g ++ [end_item])).
    rewrite length_app in *. simpl length in *. lia. }
  change (Ok ?x ≫= ?k) with (k x). cbv beta. rewrite Eo, Et, Z.eqb_refl.
  simpl negb. cbv iota. do 2 f_equal. apply take_ge. unfold len. lia.
Qed.
End Encode.

(** Inputs the theorems evaluate: forty zero bytes, and a stream of four bytes that
    begins with a copy from before the output. *)
Definition zeros40 : list Z := replicate 40 0.

Lemma zeros40_bytes : Forall is_byte zeros40.
Proof. apply Forall_replicate. unfold is_byte. lia. Qed.

Lemma list_insert_middle {A} (l1 l2 : list A) x y : <[length l1 := y]> (l1 ++ x :: l2) = l1 ++ y :: l2.
Proof. rewrite insert_app_r_alt by done. by rewrite Nat.sub_diag. Qed.

(** A call of [Compress]: inputs of at most sixteen bytes are given up before the work buffers
    are allocated; those are never freed, and the buffer of the stream is, if there is none. *)
Lemma Compress_run k addr inp h : 0 <= k <= 12 -> Forall is_byte inp -> 0 <= addr ->
  addr + Z.of_nat (length inp) < 2 ^ 32 -> Z.of_nat (length inp) < 2 ^ 31 ->
  exists r : option (list Z), Compress (2 ^ k) addr inp h =
    Ok (r, h ++ ((fun _ => Z.of_nat (length inp)) <$> r) ::
             (if Z.of_nat (length inp) <=? 16 then [] else [Some 2048; Some (2 ^ k * 16)])) /\
    match r with
    | None => True
    | Some c => stream_of inp c /\ 16 < Z.of_nat (length inp) /\ Z.of_nat (length c) <= Z.of_nat (length inp) - 14
    end.
Proof.
  intros Hk Hb Ha He Hl. unfold Compress, CompressNoAlloc, lzss_malloc, lzss_free. st_run.
  rewrite u32_small by lia. change (sizeof_header + 8) with 16. change (256 * 8) with 2048.
  destruct (Z.leb_spec (Z.of_nat (length inp)) 16) as [Hs|Hs].
  - exists None. split; [|done]. do 2 f_equal. apply (list_insert_middle h []).
  - destruct (compress_bytes_spec (2 ^ k) addr (Z.of_nat (length inp)) inp) as (r & E & Hr);
      [by exists k|done..|]. exists r. rewrite E. destruct r as [c|].
    + split; [by rewrite <- !app_assoc|]. by destruct Hr.
    + split; [|done]. do 2 f_equal. rewrite <- !app_assoc. apply (list_insert_middle h).
Qed.

(** C37: [Compress] followed by [Uncompress] is the identity. For every window of a
    power of two up to 4096, every address the input can have and every input below
    2 GB, compression ends without a fault, and whenever it returns a stream, the
    decoder restores exactly the input into any buffer that has its size. *)
Theorem Compress_Uncompress k addr inp ucap h : 0 <= k <= 12 -> Forall is_byte inp -> 0 <= addr ->
  addr + Z.of_nat (length inp) < 2 ^ 32 -> Z.of_nat (length inp) < 2 ^ 31 ->
  Z.of_nat (length inp) <= ucap ->
  exists r h', Compress (2 ^ k) addr inp h = Ok (r, h') /\
    forall c, r = Some c -> Uncompress ucap c = Ok (Z.of_nat (length inp), inp).
Proof.
  intros Hk Hb Ha He Hl Hu. destruct (Compress_run k addr inp h) as (r & E & Hr); try done.
  do 2 eexists. split; [exact E|]. intros c ->. destruct Hr as (Hs & H16 & _).
  apply Uncompress_stream; [done|lia|done].
Qed.

Lemma Compress_Uncompress_witness :
  exists c, Compress (2 ^ 4) 4096 zeros40 [] = Ok (Some c, [Some 40; Some 2048; Some 256]) /\
    Uncompress 40 c = Ok (40, zeros40).
Proof.
  destruct (Compress_Uncompress 4 4096 zeros40 40 [] ltac:(lia) zeros40_bytes ltac:(lia)
    ltac:(apply Z.ltb_lt; reflexivity) ltac:(apply Z.ltb_lt; reflexivity)
    ltac:(apply Z.leb_le; reflexivity)) as (r & h & E & H).
  destruct r as [c|].
  - exists c. split; [|exact (H c eq_refl)]. rewrite E. vm_compute in E. by injection E as _ <-.
  - vm_compute in E. congruence.
Defined.

(** C38: bounds of [Compress]. It never writes outside the buffer it allocates (as
    many bytes as the input has), gives up on inputs of at most sixteen bytes, and a
    stream it returns is at least fourteen bytes shorter than the input, is recognised
    by [IsCompressed] and announces the size of the input. Whatever is on the heap before,
    the buffer is freed where no stream is returned, and each call on a longer input
    leaves its two work buffers allocated. *)
Theorem Compress_bounds k addr inp h : 0 <= k <= 12 -> Forall is_byte inp -> 0 <= addr ->
  addr + Z.of_nat (length inp) < 2 ^ 32 -> Z.of_nat (length inp) < 2 ^ 31 ->
  exists (r : option (list Z)) leaked, Compress (2 ^ k) addr inp h =
      Ok (r, h ++ ((fun _ => Z.of_nat (length inp)) <$> r) :: leaked) /\
    (Z.of_nat (length inp) <= 16 -> r = None /\ leaked = []) /\
    (16 < Z.of_nat (length inp) -> leaked = [Some 2048; Some (2 ^ k * 16)]) /\
    forall c, r = Some c ->
      Z.of_nat (length c) <= Z.of_nat (length inp) - 14 /\
      IsCompressed (Some c) = Ok true /\ GetActualSize (Some c) = Ok (Z.of_nat (length inp)).
Proof.
  intros Hk Hb Ha He Hl. destruct (Compress_run k addr inp h) as (r & E & Hr); try done.
  do 2 eexists. split; [exact E|]. split; [|split].
  - intros Hs. rewrite (proj2 (Z.leb_le _ _) Hs). split; [|done].
    destruct r as [c|]; [destruct Hr as (_ & ? & _); lia|done].
  - intros Hs. by rewrite (proj2 (Z.leb_gt _ _) Hs).
  - intros c ->. destruct Hr as [(gs & g & -> & _) [_ Hlen]]. split; [done|].
    unfold IsCompressed, GetActualSize, full_bytes. rewrite <- !app_assoc.
    rewrite read_stream_header by lia. done.
Qed.

Lemma Compress_bounds_witness :
  exists c, Compress (2 ^ 4) 4096 zeros40 [] = Ok (Some c, [Some 40; Some 2048; Some 256]) /\
    Z.of_nat (length c) <= 26 /\ GetActualSize (Some c) = Ok 40.
Proof.
  destruct (Compress_bounds 4 4096 zeros40 [] ltac:(lia) zeros40_bytes ltac:(lia)
    ltac:(apply Z.ltb_lt; reflexivity) ltac:(apply Z.ltb_lt; reflexivity))
    as (r & leaked & E & _ & H2 & H).
  destruct r as [c|].
  - exists c. destruct (H c eq_refl) as (H3 & _ & H4).
    rewrite E, (H2 ltac:(apply Z.ltb_lt; reflexivity)). split; [reflexivity|].
    split; [exact H3|exact H4].
  - vm_compute in E. congruence.
Defined.

(** The hash after the first [n] bytes of the input went through [BuildHash]. *)
Definition hash_of (W addr : Z) (inp : list Z) (n : nat) : result hash :=
  build_hashes W addr inp 0 n (empty_hash W).

(** The window of the compressor. After any number of bytes the hash is built
    without a fault, and the search on it ends within one round per byte of the window;
    what it finds is nothing, or a position of the window whose bytes are equal to the
    ones ahead, for at most the length looked for. *)
Theorem find_match_sound k addr inp n look pos : 0 <= k <= 12 -> Forall is_byte inp -> 0 <= addr ->
  addr + Z.of_nat (length inp) < 2 ^ 32 -> 1 <= look ->
  Z.of_nat n + look <= Z.of_nat (length inp) ->
  exists h len p, hash_of (2 ^ k) addr inp n = Ok h /\
    find_match (2 ^ k) inp h (Z.of_nat n) look pos = Ok (len, p) /\
    (len = 0 \/
     (0 < len <= look /\ Z.max 0 (Z.of_nat n - 2 ^ k) <= p < Z.of_nat n /\
      forall i, 0 <= i < len -> tbl inp (p + i) = tbl inp (Z.of_nat n + i))).
Proof.
  intros Hk Hb Ha He Hl Hn. assert (exists j, 0 <= j <= 12 /\ 2 ^ k = 2 ^ j) as HW by by exists k.
  destruct (build_hashes_wf (2 ^ k) addr inp HW Hb Ha He n 0 (empty_hash (2 ^ k)))
    as (h & Eh & Hh); [apply empty_wf|lia|lia|].
  destruct (find_match_spec (2 ^ k) addr inp HW Hb h (Z.of_nat n) look pos) as (len & p & Ef & Hm);
    [done|lia|lia|lia|].
  exists h, len, p. split; [done|]. split; [done|].
  destruct Hm as [Hm|(Hm & Hp & Hw & Hr)]; [by left|right]. simpl in *.
  split; [done|]. split; [lia|done].
Qed.

Lemma find_match_sound_witness :
  exists h, hash_of (2 ^ 4) 0 [1; 2; 3; 1; 2; 4] 3 = Ok h /\
    find_match (2 ^ 4) [1; 2; 3; 1; 2; 4] h 3 3 0 = Ok (2, 0).
Proof.
  destruct (find_match_sound 4 0 [1; 2; 3; 1; 2; 4] 3 3 0) as (h & len & p & Eh & Ef & _);
    [lia|repeat constructor; unfold is_byte; lia|lia|simpl; lia|lia|simpl; lia|].
  exists h. split; [exact Eh|]. vm_compute in Eh. injection Eh as <-. reflexivity.
Defined.

(** C39: the decoder trusts its input. Whatever size the header announces, a stream that
    begins with a copy makes [Uncompress] read in front of the output buffer, however
    large that buffer is; and a stream whose items are longer than the announced size is
    written past it. *)
Theorem Uncompress_trusts_stream size dist len ucap rest b : 0 < size < 2 ^ 32 ->
  0 <= dist < 4096 -> 2 <= len <= 16 ->
  Uncompress ucap (stream_header size ++ 1 :: item_bytes (Ref dist len) ++ rest) =
    Fault (OutOfBounds (- dist - 1)) /\
  Uncompress 1 (stream_header 1 ++ [0; b; b] ++ rest) = Fault (OutOfBounds 1).
Proof.
  intros Hs Hd Hl. split.
  - unfold Uncompress, GetActualSize. rewrite read_stream_header by lia.
    change (Ok ?x ≫= ?k) with (k x). cbn [hdr_id actualSize]. rewrite Z.eqb_refl.
    change (Ok ?x ≫= ?k) with (k x). cbv beta. destruct (Z.eqb_spec size 0); [lia|].
    set (c := stream_header size ++ _).
    assert (rest_at c 8 (1 :: item_bytes (Ref dist len) ++ rest)) as Hr by done.
    apply rest_at_cons in Hr as [Ec Hr].
    destruct (ref_bytes dist len) as (b0 & b1 & Eb & Ed & El); [lia|lia|]. rewrite Eb in Hr.
    apply rest_at_cons in Hr as [E0 Hr]. apply rest_at_cons in Hr as [E1 _].
    cbn [res_loop]. rewrite (body_first ucap c (mkdstate sizeof_header [] 0 0 0) _ eq_refl Ec).
    unfold uncompress_item. change (negb (Z.land 1 1 =? 0)) with true. cbv iota.
    cbn [d_in d_out sizeof_header]. rewrite (res_bind_ok _ _ _ E0), (res_bind_ok _ _ _ E1).
    cbv zeta. rewrite Ed, El. destruct (Z.eqb_spec len 1); [lia|].
    change (Z.of_nat (length [])) with 0. replace (0 - dist - 1) with (- dist - 1) by lia.
    destruct (Z.to_nat len) as [|m] eqn:Em; [lia|]. cbn [copy_back].
    by destruct (Z.ltb_spec (- dist - 1) 0); [|lia].
  - reflexivity.
Qed.

Lemma Uncompress_trusts_stream_witness :
  Uncompress 4096 (stream_header 5 ++ [1; 0; 4]) = Fault (OutOfBounds (-1)).
Proof.
  exact (proj1 (Uncompress_trusts_stream 5 0 5 4096 [] 0 ltac:(lia) ltac:(lia) ltac:(lia))).
Defined.
