(* ===== verification/FloatProps.v ===== *)
(** The floating point reads: the values they return are the fixed point numbers of
    the stream, and none of them leaves the buffer. *)

From S2P Require Import Prelude CMem BitRead Float32 BitStream BitOps BitCopy ReaderProps.

(** Constants of the header files. *)
Lemma COORD_RESOLUTION_eq : COORD_RESOLUTION = S754_finite false (2 ^ 23) (-5 - 23).
Proof. reflexivity. Qed.
Lemma COORD_RESOLUTION_LOWPRECISION_eq :
  COORD_RESOLUTION_LOWPRECISION = S754_finite false (2 ^ 23) (-3 - 23).
Proof. reflexivity. Qed.

(** A fixed point number with [k] fractional bits, in the units of [f32_val]. *)
Definition fixed_point (i f k : Z) : Z := (i * 2 ^ k + f) * 2 ^ (149 - k).

Lemma coord_value_exact i f k : 0 <= i <= 2 ^ 14 -> 0 <= k <= 8 -> 0 <= f < 2 ^ k ->
  f32_val (coord_value i f (S754_finite false (2 ^ 23) (- k - 23))) = Some (fixed_point i f k).
Proof.
  intros Hi Hk Hf. unfold coord_value, fixed_point.
  assert (2 ^ k <= 2 ^ 8) by (apply Z.pow_le_mono_r; lia).
  assert (0 < 2 ^ k) by (apply Z.pow_pos_nonneg; lia).
  replace ((i * 2 ^ k + f) * 2 ^ (149 - k)) with (i * 2 ^ 149 + f * 2 ^ (149 - k)).
  2: { replace 149 with (k + (149 - k)) at 1 by lia. rewrite Z.pow_add_r by lia. ring. }
  replace (149 - k) with (149 + - k) by lia.
  apply f32_add_exact; [apply f32_of_Z_val; lia|apply f32_mul_pow2; lia|].
  replace (i * 2 ^ 149 + f * 2 ^ (149 + - k)) with ((i * 2 ^ k + f) * 2 ^ (149 - k)).
  2: { replace 149 with (k + (149 - k)) at 2 by lia. rewrite Z.pow_add_r by lia.
       replace (149 + - k) with (149 - k) by lia. ring. }
  destruct (decide (i * 2 ^ k + f = 0)) as [->|]; [by left|right].
  apply normal_shift; [nia|lia].
Qed.

Lemma fix_sign_val sg x a : f32_val x = Some a ->
  f32_val (fix_sign sg x) = Some (if sg =? 0 then a else - a).
Proof.
  intros H. unfold fix_sign. destruct (sg =? 0); [done|]. by apply f32_opp_val.
Qed.

Section Reader.
Context (m : mem) (base : Z) (l : list Z) (Hbuf : buffer_ok m base l).

Let len : Z := Z.of_nat (length l).
Let B : Z := le_join l.

(** Reads inside the buffer. *)
Lemma read_at n p s : 0 <= n <= 32 -> p + n <= 8 * len -> Rep base l (At p) s ->
  exists s', ReadUBitLong m n s = Ok (bits B p n, s') /\ Rep base l (At (p + n)) s'.
Proof.
  intros Hn Hp Hr. destruct (ubit_sim m base l Hbuf n Hn (At p) s Hr) as (s' & E & Hr').
  unfold abs_read in *. fold len B in E, Hr'. rewrite (proj2 (Z.leb_le _ _) Hp) in E, Hr'.
  by exists s'.
Qed.

Lemma one_at p s : p + 1 <= 8 * len -> Rep base l (At p) s ->
  exists s', ReadOneBit m s = Ok (bits B p 1, s') /\ Rep base l (At (p + 1)) s'.
Proof.
  intros Hp Hr. destruct (ReadOneBit_sim m base l Hbuf (At p) s Hr) as (s' & E & Hr').
  unfold abs_read in *. fold len B in E, Hr'. rewrite (proj2 (Z.leb_le _ _) Hp) in E, Hr'.
  by exists s'.
Qed.

Lemma bit_cases p : bits B p 1 = 0 \/ bits B p 1 = 1.
Proof. pose proof (bits_range B p 1). lia. Qed.

Ltac step E Hr := match goal with
  | H : Rep base l (At ?p) ?s |- context [(ReadOneBit m ≫= ?k) ?s] =>
      destruct (one_at p s) as (? & E & Hr); [lia|exact H|];
      rewrite (st_bind_ok _ _ _ _ _ E); clear E
  | H : Rep base l (At ?p) ?s |- context [(ReadUBitLong m ?n ≫= ?k) ?s] =>
      destruct (read_at n p s) as (? & E & Hr); [lia|lia|exact H|];
      rewrite (st_bind_ok _ _ _ _ _ E); clear E
  end.

(** The width of a coordinate whose flags are [i] and [f]. *)
Definition coord_width (i f : Z) : Z :=
  if (i =? 0) && (f =? 0) then 2 else 3 + 14 * i + 5 * f.

(** An optional field behind its flag. *)
Lemma optional_field (flag n p : Z) (g : Z -> Z) s : flag = 0 \/ flag = 1 -> 0 <= n <= 32 ->
  p + n * flag <= 8 * len -> Rep base l (At p) s ->
  exists s', (if negb (flag =? 0) then v ← ReadUBitLong m n; mret (g v) else mret flag) s =
      Ok (if flag =? 0 then 0 else g (bits B p n), s') /\
    Rep base l (At (p + n * flag)) s'.
Proof.
  intros [->| ->] Hn Hp Hr.
  - exists s. change (negb (0 =? 0)) with false. cbv iota. rewrite Z.mul_0_r, Z.add_0_r. done.
  - change (negb (1 =? 0)) with true. change (1 =? 0) with false. cbv iota.
    rewrite Z.mul_1_r in *. destruct (read_at n p s Hn Hp Hr) as (s' & E & Hr').
    exists s'. by rewrite (st_bind_ok _ _ _ _ _ E).
Qed.

(** Coordinates are exact.  At a coordinate with the flags [i] and [f],
    [ReadBitCoord] returns the single precision number whose value is exactly the
    sign, integer and fraction of the stream (the integer shifted by one), and the
    cursor is behind its last bit; a coordinate without both parts is zero. *)
Theorem ReadBitCoord_exact p s :
  let i := bits B p 1 in
  let f := bits B (p + 1) 1 in
  let int := if i =? 0 then 0 else bits B (p + 3) 14 + 1 in
  let frac := if f =? 0 then 0 else bits B (p + 3 + 14 * i) 5 in
  p + coord_width i f <= 8 * len -> Rep base l (At p) s ->
  exists v s', ReadBitCoord m s = Ok (v, s') /\
    f32_val v = Some ((if bits B (p + 2) 1 =? 0 then 1 else -1) * fixed_point int frac 5) /\
    Rep base l (At (p + coord_width i f)) s'.
Proof.
  intros i f int frac Hp Hr. unfold ReadBitCoord.
  assert (2 <= coord_width i f) as Hw.
  { unfold coord_width, i, f. destruct (bit_cases p) as [-> | ->], (bit_cases (p + 1)) as [-> | ->];
      simpl; lia. }
  step E1 Hr1. step E2 Hr2. fold i f.
  replace (p + 1 + 1) with (p + 2) in * by lia.
  destruct (decide (i = 0 /\ f = 0)) as [[Hi Hf]|Hif].
  - unfold coord_width, int, frac in *. rewrite Hi, Hf in *. do 2 eexists.
    split; [reflexivity|]. split; [|done].
    change (fixed_point (if 0 =? 0 then 0 else bits B (p + 3) 14 + 1)
      (if 0 =? 0 then 0 else bits B (p + 3 + 14 * 0) 5) 5) with 0. by rewrite Z.mul_0_r.
  - assert (negb (i =? 0) || negb (f =? 0) = true) as ->.
    { destruct (Z.eqb_spec i 0), (Z.eqb_spec f 0); simpl; try done. tauto. }
    assert (coord_width i f = 3 + 14 * i + 5 * f) as Ew.
    { unfold coord_width. destruct (Z.eqb_spec i 0), (Z.eqb_spec f 0); simpl; try done. tauto. }
    rewrite Ew in *. pose proof (bit_cases p) as Ci. pose proof (bit_cases (p + 1)) as Cf.
    fold i f in Ci, Cf. step E3 Hr3. replace (p + 2 + 1) with (p + 3) in * by lia.
    match goal with H : Rep base l (At (p + 3)) ?s |- _ =>
      destruct (optional_field i 14 (p + 3) (fun v => s32 (u32 (v + 1))) s) as (s4 & E4 & Hr4);
        [done|lia|lia|done|] end.
    unfold COORD_INTEGER_BITS. rewrite (st_bind_ok _ _ _ _ _ E4).
    destruct (optional_field f 5 (p + 3 + 14 * i) s32 s4) as (s5 & E5 & Hr5); [done|lia|lia|done|].
    unfold COORD_FRACTIONAL_BITS. rewrite (st_bind_ok _ _ _ _ _ E5).
    do 2 eexists. split; [reflexivity|].
    split; [|by replace (p + (3 + 14 * i + 5 * f)) with (p + 3 + 14 * i + 5 * f) by lia].
    pose proof (bits_range B (p + 3) 14 ltac:(lia)) as R1.
    pose proof (bits_range B (p + 3 + 14 * i) 5 ltac:(lia)) as R2.
    rewrite (u32_small (bits B (p + 3) 14 + 1)), !s32_small by lia. fold int frac.
    assert (0 <= int <= 2 ^ 14) by (unfold int; destruct (i =? 0); lia).
    assert (0 <= frac < 2 ^ 5) by (unfold frac; destruct (f =? 0); lia).
    rewrite COORD_RESOLUTION_eq.
    rewrite (fix_sign_val _ _ _ (coord_value_exact int frac 5 ltac:(lia) ltac:(lia) ltac:(lia))).
    destruct (bits B (p + 2) 1 =? 0); f_equal; lia.
Qed.

(** A normal is at most one in absolute value. *)
Lemma normal_table n : (n < 2048)%nat -> exists z,
  f32_val (f32_mul (f32_of_Z (Z.of_nat n)) NORMAL_RESOLUTION) = Some z /\ 0 <= z <= 2 ^ 149 /\
  (z = 2 ^ 149 <-> n = 2047%nat).
Proof.
  intros Hn.
  assert (forallb (fun n => match f32_val (f32_mul (f32_of_Z (Z.of_nat n)) NORMAL_RESOLUTION) with
    | Some z => (0 <=? z) && (z <=? 2 ^ 149) && Bool.eqb (z =? 2 ^ 149) (Nat.eqb n 2047)
    | None => false end) (seq 0 2048) = true) as H by (vm_compute; reflexivity).
  rewrite forallb_forall in H. specialize (H n ltac:(apply in_seq; lia)).
  destruct (f32_val _) as [z|]; [|done]. exists z. split; [done|].
  rewrite !andb_true_iff, !Z.leb_le, eqb_true_iff in H. destruct H as [H1 H2]. split; [done|].
  destruct (Z.eqb_spec z (2 ^ 149)), (Nat.eqb_spec n 2047); done.
Qed.

(** Normals are bounded.  [ReadBitNormal] returns a finite number between
    minus one and one, which is one of the two exactly when the eleven bits of its
    fraction are all set, and takes twelve bits. *)
Theorem ReadBitNormal_bounds p s : p + 12 <= 8 * len -> Rep base l (At p) s ->
  exists v s' z, ReadBitNormal m s = Ok (v, s') /\ f32_val v = Some z /\
    - 2 ^ 149 <= z <= 2 ^ 149 /\
    (Z.abs z = 2 ^ 149 <-> bits B (p + 1) 11 = 2047) /\
    Rep base l (At (p + 12)) s'.
Proof.
  intros Hp Hr. unfold ReadBitNormal, NORMAL_FRACTIONAL_BITS. step E1 Hr1. step E2 Hr2.
  pose proof (bits_range B (p + 1) 11 ltac:(lia)) as R.
  destruct (normal_table (Z.to_nat (bits B (p + 1) 11))) as (z & Ez & Hz & Hone); [lia|].
  rewrite Z2Nat.id in Ez by lia.
  do 2 eexists. exists (if bits B p 1 =? 0 then z else - z). split; [reflexivity|].
  split; [by apply fix_sign_val|]. replace (p + 1 + 11) with (p + 12) in * by lia.
  assert (z = 2 ^ 149 <-> bits B (p + 1) 11 = 2047) as Hone' by (rewrite Hone; lia).
  assert (Z.abs (if bits B p 1 =? 0 then z else - z) = z) as Ha
    by (destruct (bits B p 1 =? 0); lia).
  split; [destruct (bits B p 1 =? 0); lia|]. by rewrite Ha.
Qed.
End Reader.

(** The floating point reads never fault.  In every state a reader over a
    buffer can get into, past its end included, each of them returns and leaves such a
    state. *)
Theorem float_reads_safe m base l n t s : buffer_ok m base l -> Safe base l s -> 0 <= n <= 32 ->
  (exists v s', ReadBitAngle m n s = Ok (v, s') /\ Safe base l s') /\
  (exists v s', ReadBitCoordMP m t s = Ok (v, s') /\ Safe base l s') /\
  (exists v s', ReadBitCellCoord m n t s = Ok (v, s') /\ Safe base l s') /\
  (exists v s', ReadBitVec3Normal m s = Ok (v, s') /\ Safe base l s') /\
  (exists v s', ReadBitAngles m s = Ok (v, s') /\ Safe base l s').
Proof.
  intros Hb Hs Hn.
  destruct (ReadBitAngle_safe m base l Hb n Hn s Hs) as (? & ? & ? & _ & ?).
  destruct (ReadBitCoordMP_safe m base l Hb t s Hs) as (? & ? & ? & _ & ?).
  destruct (ReadBitCellCoord_safe m base l Hb n t Hn s Hs) as (? & ? & ? & _ & ?).
  destruct (ReadBitVec3Normal_safe m base l Hb s Hs) as (? & ? & ? & _ & ?).
  assert (safe_op base l (ReadBitAngles m) (fun _ => True)) as Ha.
  { unfold ReadBitAngles. apply safe_seq; [by apply ReadBitVec3Coord_safe|]. intros v. by apply safe_ret. }
  destruct (Ha s Hs) as (? & ? & ? & _ & ?).
  repeat split; eauto.
Qed.

(** * Witnesses *)

Lemma ReadBitCoord_exact_witness : exists s v s',
  Rep 4096 ten (At 0) s /\ ReadBitCoord ten_mem s = Ok (v, s') /\
  f32_val v = Some (fixed_point 14608 0 5).
Proof.
  destruct (ten_at 0) as (s & Hr); [lia|].
  destruct (ReadBitCoord_exact ten_mem 4096 ten ten_ok 0 s) as (v & s' & E & Ev & _);
    [apply Z.leb_le; reflexivity|exact Hr|].
  exists s, v, s'. split; [exact Hr|]. split; [exact E|]. rewrite Ev. vm_compute. reflexivity.
Defined.

Lemma ReadBitNormal_bounds_witness : exists s v s' z,
  ReadBitNormal ten_mem s = Ok (v, s') /\ f32_val v = Some z /\ Rep 4096 ten (At 12) s'.
Proof.
  destruct (ten_at 0) as (s & Hr); [lia|].
  destruct (ReadBitNormal_bounds ten_mem 4096 ten ten_ok 0 s) as (v & s' & z & E & Ev & _ & _ & Hr');
    [apply Z.leb_le; reflexivity|exact Hr|].
  exists s, v, s', z. split; [exact E|]. split; [exact Ev|exact Hr'].
Defined.

Lemma float_reads_safe_witness : exists s v s',
  ReadBitAngles ten_mem s = Ok (v, s') /\ Safe 4096 ten s'.
Proof.
  destruct (ten_at 75) as (s & Hr); [lia|]. exists s.
  destruct (float_reads_safe ten_mem 4096 ten 16 kCW_LowPrecision s ten_ok
    (Rep_Safe 4096 ten (At 75) s Hr) ltac:(lia)) as (_ & _ & _ & _ & H).
  exact H.
Defined.
