(* ===== verification/Coded.v ===== *)
(** [CodedInputStream] over a flat array or an [ArrayInputStream], and the array writers
    of [CodedOutputStream] (google/protobuf/io/coded_stream.h, coded_stream.cc,
    coded_stream_inl.h, zero_copy_stream_impl_lite.cc).  The stream's pointers are
    addresses of the process's memory; [input_] is null for a flat array. *)

From S2P Require Import Prelude CMem.

Definition kMaxVarintBytes : Z := 10.
Definition kMaxVarint32Bytes : Z := 5.
Definition kDefaultTotalBytesLimit : Z := Z.shiftl 64 20.
Definition default_recursion_limit_ : Z := 100.

(** [INT_MAX], [kint32max]. *)
Definition INT_MAX : Z := 2147483647.

(** * [ArrayInputStream] *)

Record ArrayInputStream := mkarray {
  data_ : Z;
  size_ : Z;
  block_size_ : Z;
  position_ : Z;
  last_returned_size_ : Z
}.

Definition ArrayInputStream_new (data size block_size : Z) : ArrayInputStream :=
  mkarray data size (if 0 <? block_size then block_size else size) 0 0.

(** The buffer that [Next] hands out, or nothing. *)
Definition ArrayInputStream_Next (a : ArrayInputStream) : option (Z * Z) * ArrayInputStream :=
  if position_ a <? size_ a then
    let last_returned_size := Z.min (block_size_ a) (size_ a - position_ a) in
    (Some (data_ a + position_ a, last_returned_size),
     mkarray (data_ a) (size_ a) (block_size_ a) (position_ a + last_returned_size)
       last_returned_size)
  else (None, mkarray (data_ a) (size_ a) (block_size_ a) (position_ a) 0).

(** The [GOOGLE_CHECK]s end the process. *)
Definition ArrayInputStream_BackUp (count : Z) (a : ArrayInputStream) : result ArrayInputStream :=
  if (0 <? last_returned_size_ a) && (count <=? last_returned_size_ a) && (0 <=? count)
  then Ok (mkarray (data_ a) (size_ a) (block_size_ a) (position_ a - count) 0)
  else Fault AssertFailed.

Definition ArrayInputStream_Skip (count : Z) (a : ArrayInputStream)
    : result (bool * ArrayInputStream) :=
  if count <? 0 then Fault AssertFailed
  else if size_ a - position_ a <? count
  then Ok (false, mkarray (data_ a) (size_ a) (block_size_ a) (size_ a) 0)
  else Ok (true, mkarray (data_ a) (size_ a) (block_size_ a) (position_ a + count) 0).

Definition ArrayInputStream_ByteCount (a : ArrayInputStream) : Z := position_ a.

(** [NextNonEmpty]: an array stream with blocks of a positive size never hands out an empty
    one, so that one round is enough. *)
Fixpoint NextNonEmpty (fuel : nat) (a : ArrayInputStream)
    : result (option (Z * Z) * ArrayInputStream) :=
  match fuel with
  | O => Fault OutOfFuel
  | S n =>
      match ArrayInputStream_Next a with
      | (Some (data, size), a) => if size =? 0 then NextNonEmpty n a else Ok (Some (data, size), a)
      | (None, a) => Ok (None, a)
      end
  end.

(** * [CodedInputStream] *)

Record CodedInputStream := mkinput {
  buffer_ : Z;
  buffer_end_ : Z;
  total_bytes_read_ : Z;
  overflow_bytes_ : Z;
  last_tag_ : Z;
  legitimate_message_end_ : bool;
  current_limit_ : Z;
  buffer_size_after_limit_ : Z;
  total_bytes_limit_ : Z;
  recursion_depth_ : Z;
  recursion_limit_ : Z;
  input_ : option ArrayInputStream
}.

Definition CodedInputStream_new (buffer size : Z) : CodedInputStream :=
  mkinput buffer (buffer + size) size 0 0 false size 0 kDefaultTotalBytesLimit
    0 default_recursion_limit_ None.

Definition set_buffer (p : Z) (s : CodedInputStream) : CodedInputStream :=
  mkinput p (buffer_end_ s) (total_bytes_read_ s) (overflow_bytes_ s) (last_tag_ s)
    (legitimate_message_end_ s) (current_limit_ s) (buffer_size_after_limit_ s)
    (total_bytes_limit_ s) (recursion_depth_ s) (recursion_limit_ s) (input_ s).
Definition set_last_tag (t : Z) (s : CodedInputStream) : CodedInputStream :=
  mkinput (buffer_ s) (buffer_end_ s) (total_bytes_read_ s) (overflow_bytes_ s) t
    (legitimate_message_end_ s) (current_limit_ s) (buffer_size_after_limit_ s)
    (total_bytes_limit_ s) (recursion_depth_ s) (recursion_limit_ s) (input_ s).
Definition set_legitimate (b : bool) (s : CodedInputStream) : CodedInputStream :=
  mkinput (buffer_ s) (buffer_end_ s) (total_bytes_read_ s) (overflow_bytes_ s) (last_tag_ s)
    b (current_limit_ s) (buffer_size_after_limit_ s)
    (total_bytes_limit_ s) (recursion_depth_ s) (recursion_limit_ s) (input_ s).
Definition set_depth (d : Z) (s : CodedInputStream) : CodedInputStream :=
  mkinput (buffer_ s) (buffer_end_ s) (total_bytes_read_ s) (overflow_bytes_ s) (last_tag_ s)
    (legitimate_message_end_ s) (current_limit_ s) (buffer_size_after_limit_ s)
    (total_bytes_limit_ s) d (recursion_limit_ s) (input_ s).

Definition BufferSize (s : CodedInputStream) : Z := buffer_end_ s - buffer_ s.

Definition LastTagWas (expected : Z) (s : CodedInputStream) : bool := last_tag_ s =? expected.
Definition ConsumedEntireMessage (s : CodedInputStream) : bool := legitimate_message_end_ s.

Abbreviation Input := (ST CodedInputStream).

Definition Advance (amount : Z) : Input unit :=
  st_modify (fun s => set_buffer (buffer_ s + amount) s).

Definition IncrementRecursionDepth : Input bool :=
  s ← st_get;
  st_put (set_depth (recursion_depth_ s + 1) s);;
  mret (recursion_depth_ s + 1 <=? recursion_limit_ s).

Definition DecrementRecursionDepth : Input unit :=
  st_modify (fun s => if 0 <? recursion_depth_ s then set_depth (recursion_depth_ s - 1) s else s).

(** The stream on another buffer. *)
Definition set_limits (buffer buffer_end total overflow limit after : Z) (input : option ArrayInputStream)
    (s : CodedInputStream) : CodedInputStream :=
  mkinput buffer buffer_end total overflow (last_tag_ s) (legitimate_message_end_ s) limit after
    (total_bytes_limit_ s) (recursion_depth_ s) (recursion_limit_ s) input.

Definition CurrentPosition (s : CodedInputStream) : Z :=
  total_bytes_read_ s - (BufferSize s + buffer_size_after_limit_ s).

Definition RecomputeBufferLimits : Input unit :=
  st_modify (fun s =>
    let buffer_end := buffer_end_ s + buffer_size_after_limit_ s in
    let closest_limit := Z.min (current_limit_ s) (total_bytes_limit_ s) in
    let after := if closest_limit <? total_bytes_read_ s then total_bytes_read_ s - closest_limit else 0 in
    set_limits (buffer_ s) (buffer_end - after) (total_bytes_read_ s) (overflow_bytes_ s)
      (current_limit_ s) after (input_ s) s).

(** Behind the limits a flat stream would call a method of the null [input_].  What is
    logged about the limits has no counterpart. *)
Definition Refresh : Input bool :=
  s ← st_get;
  if (0 <? buffer_size_after_limit_ s) || (0 <? overflow_bytes_ s)
     || (total_bytes_read_ s =? current_limit_ s)
  then mret false
  else
    match input_ s with
    | None => st_fault NullDeref
    | Some a =>
        r ← st_lift (NextNonEmpty 1 a);
        match (r : option (Z * Z) * ArrayInputStream) with
        | (Some (buffer, buffer_size), a) =>
            let overflow := total_bytes_read_ s - (INT_MAX - buffer_size) in
            let '(total, overflow, size) :=
              if total_bytes_read_ s <=? INT_MAX - buffer_size
              then (total_bytes_read_ s + buffer_size, overflow_bytes_ s, buffer_size)
              else (INT_MAX, overflow, buffer_size - overflow) in
            st_put (set_limits buffer (buffer + size) total overflow (current_limit_ s)
              (buffer_size_after_limit_ s) (Some a) s);;
            RecomputeBufferLimits;;
            mret true
        | (None, a) =>
            st_put (set_limits 0 0 (total_bytes_read_ s) (overflow_bytes_ s) (current_limit_ s)
              (buffer_size_after_limit_ s) (Some a) s);;
            mret false
        end
    end.

(** The constructor for a [ZeroCopyInputStream]. *)
Definition CodedInputStream_from (input : ArrayInputStream) : result CodedInputStream :=
  match Refresh (mkinput 0 0 0 0 0 false INT_MAX 0 kDefaultTotalBytesLimit 0
    default_recursion_limit_ (Some input)) with
  | Ok (_, s) => Ok s
  | Fault f => Fault f
  end.

Definition BackUpInputToCurrentPosition : Input unit :=
  s ← st_get;
  let backup_bytes := BufferSize s + buffer_size_after_limit_ s + overflow_bytes_ s in
  if 0 <? backup_bytes then
    match input_ s with
    | None => st_fault NullDeref
    | Some a =>
        a ← st_lift (ArrayInputStream_BackUp backup_bytes a);
        st_put (set_limits (buffer_ s) (buffer_ s)
          (total_bytes_read_ s - (BufferSize s + buffer_size_after_limit_ s)) 0 (current_limit_ s) 0
          (Some a) s)
    end
  else mret tt.

(** The destructor: what it leaves of the stream's input. *)
Definition CodedInputStream_destroy (s : CodedInputStream) : result (option ArrayInputStream) :=
  match input_ s with
  | None => Ok None
  | Some _ =>
      match BackUpInputToCurrentPosition s with
      | Ok (_, s) => Ok (input_ s)
      | Fault f => Fault f
      end
  end.

(** * Limits *)

(** The new limit is set, the old one returned. *)
Definition PushLimit (byte_limit : Z) : Input Z :=
  s ← st_get;
  let current_position := CurrentPosition s in
  let old_limit := current_limit_ s in
  let limit :=
    if (0 <=? byte_limit) && (byte_limit <=? INT_MAX - current_position)
    then current_position + byte_limit else INT_MAX in
  st_put (set_limits (buffer_ s) (buffer_end_ s) (total_bytes_read_ s) (overflow_bytes_ s)
    (Z.min limit old_limit) (buffer_size_after_limit_ s) (input_ s) s);;
  RecomputeBufferLimits;;
  mret old_limit.

Definition PopLimit (limit : Z) : Input unit :=
  st_modify (fun s => set_limits (buffer_ s) (buffer_end_ s) (total_bytes_read_ s) (overflow_bytes_ s)
    limit (buffer_size_after_limit_ s) (input_ s) s);;
  RecomputeBufferLimits;;
  st_modify (set_legitimate false).

(** The threshold of the warning is not kept. *)
Definition SetTotalBytesLimit (total_bytes_limit : Z) : Input unit :=
  st_modify (fun s => mkinput (buffer_ s) (buffer_end_ s) (total_bytes_read_ s) (overflow_bytes_ s)
    (last_tag_ s) (legitimate_message_end_ s) (current_limit_ s) (buffer_size_after_limit_ s)
    (Z.max (CurrentPosition s) total_bytes_limit) (recursion_depth_ s) (recursion_limit_ s) (input_ s));;
  RecomputeBufferLimits.

Definition BytesUntilLimit (s : CodedInputStream) : Z :=
  if current_limit_ s =? INT_MAX then -1 else current_limit_ s - CurrentPosition s.

Definition GetDirectBufferPointer : Input (option (Z * Z)) :=
  s ← st_get;
  ok ← (if BufferSize s =? 0 then Refresh else mret true) : Input bool;
  s ← st_get;
  mret (if (ok : bool) then Some (buffer_ s, BufferSize s) else None).

(** Rounds that are enough to use up what is left of the input. *)
Definition input_rounds (s : CodedInputStream) : nat :=
  match input_ s with Some a => Z.to_nat (size_ a - position_ a) | None => O end.

Section Memory.
Context (m : mem).

(** [n] bytes from [p] on, as [memcpy] and [string::append] take them: a negative
    number is a huge [size_t]. *)
Definition bytes_from (p n : Z) : result (list Z) :=
  if n <? 0 then Fault (OutOfBounds p) else load_bytes m p (Z.to_nat n).

(** * Base-128 integers *)

(** The last five bytes of a long integer are discarded. *)
Fixpoint discard_high (n : nat) (ptr : Z) : result (option Z) :=
  match n with
  | O => Ok None
  | S n' =>
      b ← load8 m ptr;
      if Z.land b 0x80 =? 0 then Ok (Some (ptr + 1)) else discard_high n' (ptr + 1)
  end.

(** The five statements of [ReadVarint32FromArray], by the shift of each; [None] is
    the null result. *)
Fixpoint varint32_steps (shifts : list Z) (result_ ptr : Z) : result (option (Z * Z)) :=
  match shifts with
  | [] =>
      r ← discard_high (Z.to_nat (kMaxVarintBytes - kMaxVarint32Bytes)) ptr;
      Ok (match r with Some ptr => Some (result_, ptr) | None => None end)
  | k :: ks =>
      b ← load8 m ptr;
      let result_ := Z.lor result_ (u32 (Z.shiftl (if k =? 28 then b else Z.land b 0x7F) k)) in
      if Z.land b 0x80 =? 0 then Ok (Some (result_, ptr + 1))
      else varint32_steps ks result_ (ptr + 1)
  end.

Definition ReadVarint32FromArray (buffer : Z) : result (option (Z * Z)) :=
  varint32_steps [0; 7; 14; 21; 28] 0 buffer.

(** The ten statements of [ReadVarint64Fallback]: the byte goes to one of three
    32-bit parts, at a shift. *)
Fixpoint varint64_steps (steps : list (Z * Z)) (parts : Z * Z * Z) (ptr : Z)
    : result (option (Z * Z)) :=
  match steps with
  | [] => Ok None
  | (i, k) :: rest =>
      b ← load8 m ptr;
      let v := u32 (Z.shiftl (Z.land b 0x7F) k) in
      let '(part0, part1, part2) := parts in
      let parts := if i =? 0 then (Z.lor part0 v, part1, part2)
                   else if i =? 1 then (part0, Z.lor part1 v, part2)
                   else (part0, part1, Z.lor part2 v) in
      if Z.land b 0x80 =? 0 then
        let '(part0, part1, part2) := parts in
        Ok (Some (Z.lor (Z.lor part0 (u64 (Z.shiftl part1 28))) (u64 (Z.shiftl part2 56)),
                  ptr + 1))
      else varint64_steps rest parts (ptr + 1)
  end.

Definition varint64_plan : list (Z * Z) :=
  [(0, 0); (0, 7); (0, 14); (0, 21); (1, 0); (1, 7); (1, 14); (1, 21); (2, 0); (2, 7)].

(** [while (buffer_ == buffer_end_) if (!Refresh()) return false;]  Behind a limit a refresh
    may succeed with nothing; the next one fails. *)
Definition refresh_while_empty : Input bool :=
  st_loop 3 (fun _ =>
    s ← st_get;
    if buffer_ s =? buffer_end_ s then
      ok ← Refresh; mret (if (ok : bool) then inl tt else inr false)
    else mret (inr true)) tt.

(** One round of the [do ... while] of [ReadVarint64Slow]. *)
Definition varint64_slow_body (l : Z * Z) : Input (Z * Z + option Z) :=
  let '(result_, count) := l in
  if count =? kMaxVarintBytes then mret (inr None)
  else
    ok ← refresh_while_empty;
    if negb (ok : bool) then mret (inr None)
    else
      s ← st_get;
      b ← st_lift (load8 m (buffer_ s));
      let result_ := Z.lor result_ (u64 (Z.shiftl (Z.land b 0x7F) (7 * count))) in
      Advance 1;;
      if Z.land b 0x80 =? 0 then mret (inr (Some result_))
      else mret (inl (result_, count + 1)).

Definition ReadVarint64Slow : Input (option Z) :=
  st_loop (S (Z.to_nat kMaxVarintBytes)) varint64_slow_body (0, 0).

(** The condition of the fast paths: ten bytes are left, or the last byte of the
    buffer ends an integer. *)
Definition ends_in_buffer (s : CodedInputStream) : result bool :=
  if kMaxVarintBytes <=? BufferSize s then Ok true
  else if buffer_ s <? buffer_end_ s then
    b ← load8 m (buffer_end_ s - 1); Ok (Z.land b 0x80 =? 0)
  else Ok false.

Definition ReadVarint64Fallback : Input (option Z) :=
  s ← st_get;
  fast ← st_lift (ends_in_buffer s);
  if (fast : bool) then
    r ← st_lift (varint64_steps varint64_plan (0, 0, 0) (buffer_ s));
    match r with
    | None => mret None
    | Some (v, ptr) => st_modify (set_buffer ptr);; mret (Some v)
    end
  else ReadVarint64Slow.

Definition ReadVarint64 : Input (option Z) :=
  s ← st_get;
  if buffer_ s <? buffer_end_ s then
    b ← st_lift (load8 m (buffer_ s));
    if b <? 0x80 then Advance 1;; mret (Some b) else ReadVarint64Fallback
  else ReadVarint64Fallback.

Definition ReadVarint32Slow : Input (option Z) :=
  r ← ReadVarint64Fallback; mret (match r with Some v => Some (u32 v) | None => None end).

Definition ReadVarint32Fallback : Input (option Z) :=
  s ← st_get;
  fast ← st_lift (ends_in_buffer s);
  if (fast : bool) then
    r ← st_lift (ReadVarint32FromArray (buffer_ s));
    match r with
    | None => mret None
    | Some (v, ptr) => st_modify (set_buffer ptr);; mret (Some v)
    end
  else ReadVarint32Slow.

Definition ReadVarint32 : Input (option Z) :=
  s ← st_get;
  if buffer_ s <? buffer_end_ s then
    b ← st_lift (load8 m (buffer_ s));
    if b <? 0x80 then Advance 1;; mret (Some b) else ReadVarint32Fallback
  else ReadVarint32Fallback.

(** * Tags *)

Definition ReadTagSlow : Input Z :=
  s ← st_get;
  ok ← (if buffer_ s =? buffer_end_ s then Refresh else mret true) : Input bool;
  if negb (ok : bool) then
    s ← st_get;
    let current_position := total_bytes_read_ s - buffer_size_after_limit_ s in
    st_modify (set_legitimate
      (if total_bytes_limit_ s <=? current_position
       then current_limit_ s =? total_bytes_limit_ s else true));;
    mret 0
  else
    r ← ReadVarint64;
    mret (match r with Some v => u32 v | None => 0 end).

Definition ReadTagFallback : Input Z :=
  s ← st_get;
  let buf_size := BufferSize s in
  fast ← st_lift (ends_in_buffer s);
  if (fast : bool) then
    r ← st_lift (ReadVarint32FromArray (buffer_ s));
    match r with
    | None => mret 0
    | Some (tag, ptr) => st_modify (set_buffer ptr);; mret tag
    end
  else if (buf_size =? 0)
          && ((0 <? buffer_size_after_limit_ s) || (total_bytes_read_ s =? current_limit_ s))
          && (total_bytes_read_ s - buffer_size_after_limit_ s <? total_bytes_limit_ s)
  then st_modify (set_legitimate true);; mret 0
  else ReadTagSlow.

Definition ReadTag : Input Z :=
  s ← st_get;
  let fallback := (t ← ReadTagFallback; st_modify (set_last_tag t);; mret t) in
  if buffer_ s <? buffer_end_ s then
    b ← st_lift (load8 m (buffer_ s));
    if b <? 0x80 then st_modify (set_last_tag b);; Advance 1;; mret b
    else fallback
  else fallback.

Definition ExpectTag (expected : Z) : Input bool :=
  s ← st_get;
  if expected <? Z.shiftl 1 7 then
    if buffer_ s <? buffer_end_ s then
      b ← st_lift (load8 m (buffer_ s));
      if b =? expected then Advance 1;; mret true else mret false
    else mret false
  else if expected <? Z.shiftl 1 14 then
    if 2 <=? BufferSize s then
      b0 ← st_lift (load8 m (buffer_ s));
      if b0 =? u8 (Z.lor expected 0x80) then
        b1 ← st_lift (load8 m (buffer_ s + 1));
        if b1 =? u8 (Z.shiftr expected 7) then Advance 2;; mret true else mret false
      else mret false
    else mret false
  else mret false.

Definition ExpectAtEnd : Input bool :=
  s ← st_get;
  if (buffer_ s =? buffer_end_ s)
     && (negb (buffer_size_after_limit_ s =? 0) || (total_bytes_read_ s =? current_limit_ s))
  then st_modify (fun s => set_legitimate true (set_last_tag 0 s));; mret true
  else mret false.

(** * Fixed-size data *)

(** One round of the [while] of [ReadRaw] and [ReadStringFallback]: the locals are
    the bytes so far and the number still wanted. *)
Definition raw_body (l : list Z * Z) : Input (list Z * Z + bool * list Z) :=
  let '(buffer, size) := l in
  s ← st_get;
  let current_buffer_size := BufferSize s in
  if current_buffer_size <? size then
    bs ← st_lift (bytes_from (buffer_ s) current_buffer_size);
    Advance current_buffer_size;;
    ok ← Refresh;
    if negb (ok : bool) then mret (inr (false, buffer ++ bs))
    else mret (inl (buffer ++ bs, size - current_buffer_size))
  else
    bs ← st_lift (bytes_from (buffer_ s) size);
    Advance size;;
    mret (inr (true, buffer ++ bs)).

(** [Refresh] of a flat stream never succeeds, that of an array stream takes bytes: two
    rounds more than there are bytes are enough. *)
Definition ReadRaw (size : Z) : Input (bool * list Z) :=
  s ← st_get; st_loop (S (S (input_rounds s))) raw_body ([], size).

(** [value], from the fast or the slow path; the comparison is one of [size_t]. *)
Definition ReadLittleEndianFallback (n : Z) : Input (option (list Z)) :=
  s ← st_get;
  if n <=? u32 (BufferSize s) then
    bs ← st_lift (bytes_from (buffer_ s) n); Advance n;; mret (Some bs)
  else
    r ← ReadRaw n;
    mret (if fst (r : bool * list Z) then Some (snd r) else None).

Definition ReadLittleEndian (n : Z) : Input (option Z) :=
  s ← st_get;
  r ← ((if n <=? BufferSize s then
          bs ← st_lift (bytes_from (buffer_ s) n); Advance n;; mret (Some bs)
        else ReadLittleEndianFallback n) : Input (option (list Z)));
  mret (match (r : option (list Z)) with Some bs => Some (le_join bs) | None => None end).

Definition ReadLittleEndian32 : Input (option Z) := ReadLittleEndian 4.
Definition ReadLittleEndian64 : Input (option Z) := ReadLittleEndian 8.

(** The results of the string reads are the return value and the new contents. *)
Definition ReadStringFallback (size : Z) : Input (bool * list Z) :=
  s ← st_get; st_loop (S (S (input_rounds s))) raw_body ([], size).

(** [old] is what the string holds on entry. *)
Definition InternalReadStringInline (old : list Z) (size : Z) : Input (bool * list Z) :=
  if size <? 0 then mret (false, old)
  else
    s ← st_get;
    if size <=? BufferSize s then
      if 0 <? size then
        bs ← st_lift (bytes_from (buffer_ s) size); Advance size;; mret (true, bs)
      else mret (true, [])
    else ReadStringFallback size.

Definition ReadString (old : list Z) (size : Z) : Input (bool * list Z) :=
  if size <? 0 then mret (false, old) else InternalReadStringInline old size.

Definition Skip (count : Z) : Input bool :=
  if count <? 0 then mret false
  else
    s ← st_get;
    let original_buffer_size := BufferSize s in
    if count <=? original_buffer_size then Advance count;; mret true
    else if 0 <? buffer_size_after_limit_ s then Advance original_buffer_size;; mret false
    else
      let count := count - original_buffer_size in
      let closest_limit := Z.min (current_limit_ s) (total_bytes_limit_ s) in
      let bytes_until_limit := closest_limit - total_bytes_read_ s in
      let skip n total :=
        match input_ s with
        | None => st_fault NullDeref
        | Some a =>
            r ← st_lift (ArrayInputStream_Skip n a);
            st_put (set_limits 0 0 total (overflow_bytes_ s) (current_limit_ s)
              (buffer_size_after_limit_ s) (Some (snd (r : bool * ArrayInputStream))) s);;
            mret (fst r)
        end in
      if bytes_until_limit <? count then
        if 0 <? bytes_until_limit then skip bytes_until_limit closest_limit;; mret false
        else
          st_put (set_limits 0 0 (total_bytes_read_ s) (overflow_bytes_ s) (current_limit_ s)
            (buffer_size_after_limit_ s) (input_ s) s);;
          mret false
      else skip count (total_bytes_read_ s + count).
End Memory.

(** * Writing to an array: the bytes that go to [target] *)

(** [target\[i\]] of each stage is [value >> shift | 0x80]; the last one is masked. *)
Definition WriteVarint32FallbackToArray (value : Z) : list Z :=
  if value <? Z.shiftl 1 7 then [Z.land (u8 (Z.lor value 0x80)) 0x7F]
  else
    let b0 := u8 (Z.lor value 0x80) in
    let b1 := u8 (Z.lor (Z.shiftr value 7) 0x80) in
    if value <? Z.shiftl 1 14 then [b0; Z.land b1 0x7F]
    else
      let b2 := u8 (Z.lor (Z.shiftr value 14) 0x80) in
      if value <? Z.shiftl 1 21 then [b0; b1; Z.land b2 0x7F]
      else
        let b3 := u8 (Z.lor (Z.shiftr value 21) 0x80) in
        if value <? Z.shiftl 1 28 then [b0; b1; b2; Z.land b3 0x7F]
        else [b0; b1; b2; b3; u8 (Z.shiftr value 28)].

Definition WriteVarint32ToArray (value : Z) : list Z :=
  if value <? 0x80 then [value] else WriteVarint32FallbackToArray value.

Definition varint64_size (part0 part1 part2 : Z) : nat :=
  if part2 =? 0 then
    if part1 =? 0 then
      if part0 <? Z.shiftl 1 14 then (if part0 <? Z.shiftl 1 7 then 1 else 2)
      else (if part0 <? Z.shiftl 1 21 then 3 else 4)
    else
      if part1 <? Z.shiftl 1 14 then (if part1 <? Z.shiftl 1 7 then 5 else 6)
      else (if part1 <? Z.shiftl 1 21 then 7 else 8)
  else if part2 <? Z.shiftl 1 7 then 9 else 10.

Definition WriteVarint64ToArray (value : Z) : list Z :=
  let part0 := u32 value in
  let part1 := u32 (Z.shiftr value 28) in
  let part2 := u32 (Z.shiftr value 56) in
  let byte p k := u8 (Z.lor (Z.shiftr p k) 0x80) in
  let size := varint64_size part0 part1 part2 in
  let target := take size
    [byte part0 0; byte part0 7; byte part0 14; byte part0 21;
     byte part1 0; byte part1 7; byte part1 14; byte part1 21;
     byte part2 0; byte part2 7] in
  alter (fun b => Z.land b 0x7F) (size - 1)%nat target.

Definition WriteVarint32SignExtendedToArray (value : Z) : list Z :=
  if value <? 0 then WriteVarint64ToArray (u64 value) else WriteVarint32ToArray (u32 value).

Definition WriteLittleEndian32ToArray (value : Z) : list Z :=
  [bits value 0 8; bits value 8 8; bits value 16 8; bits value 24 8].

Definition WriteLittleEndian64ToArray (value : Z) : list Z :=
  WriteLittleEndian32ToArray (u32 value) ++ WriteLittleEndian32ToArray (u32 (Z.shiftr value 32)).

Definition CodedWriteTagToArray (value : Z) : list Z :=
  if value <? Z.shiftl 1 7 then [u8 value]
  else if value <? Z.shiftl 1 14 then [u8 (Z.lor value 0x80); u8 (Z.shiftr value 7)]
  else WriteVarint32FallbackToArray value.

Definition VarintSize32Fallback (value : Z) : Z :=
  if value <? Z.shiftl 1 7 then 1
  else if value <? Z.shiftl 1 14 then 2
  else if value <? Z.shiftl 1 21 then 3
  else if value <? Z.shiftl 1 28 then 4
  else 5.

Definition VarintSize32 (value : Z) : Z :=
  if value <? Z.shiftl 1 7 then 1 else VarintSize32Fallback value.

Definition VarintSize64 (value : Z) : Z :=
  if value <? Z.shiftl 1 35 then
    if value <? Z.shiftl 1 7 then 1
    else if value <? Z.shiftl 1 14 then 2
    else if value <? Z.shiftl 1 21 then 3
    else if value <? Z.shiftl 1 28 then 4
    else 5
  else
    if value <? Z.shiftl 1 42 then 6
    else if value <? Z.shiftl 1 49 then 7
    else if value <? Z.shiftl 1 56 then 8
    else if value <? Z.shiftl 1 63 then 9
    else 10.

Definition VarintSize32SignExtended (value : Z) : Z :=
  if value <? 0 then 10 else VarintSize32 (u32 value).
