(* ===== verification/Wire.v ===== *)
(** The wire format (google/protobuf/wire_format_lite.h, wire_format_lite_inl.h,
    wire_format_lite.cc, wire_format.cc, unknown_field_set.h): tags, the reads and
    writes of the field types the messages use, and the unknown fields. *)

From S2P Require Import Prelude CMem Coded.

Definition WIRETYPE_VARINT : Z := 0.
Definition WIRETYPE_FIXED64 : Z := 1.
Definition WIRETYPE_LENGTH_DELIMITED : Z := 2.
Definition WIRETYPE_START_GROUP : Z := 3.
Definition WIRETYPE_END_GROUP : Z := 4.
Definition WIRETYPE_FIXED32 : Z := 5.

(** The types of the fields of the messages that are not messages themselves. *)
Inductive FieldType :=
  | TYPE_FLOAT
  | TYPE_INT64
  | TYPE_UINT64
  | TYPE_INT32
  | TYPE_FIXED64
  | TYPE_FIXED32
  | TYPE_BOOL
  | TYPE_STRING
  | TYPE_BYTES
  | TYPE_UINT32
  | TYPE_SINT32.

#[export] Instance FieldType_eq_dec : EqDecision FieldType.
Proof. solve_decision. Defined.

Definition MakeTag (field_number type : Z) : Z := Z.lor (u32 (Z.shiftl field_number 3)) type.
Definition GetTagWireType (tag : Z) : Z := Z.land tag 7.
Definition GetTagFieldNumber (tag : Z) : Z := s32 (Z.shiftr tag 3).

(** [ZigZagEncode32] and [ZigZagDecode32] of the wire format. *)
Definition WireZigZagEncode32 (n : Z) : Z := u32 (Z.lxor (s32 (Z.shiftl n 1)) (Z.shiftr n 31)).
Definition WireZigZagDecode32 (n : Z) : Z :=
  s32 (Z.lxor (Z.shiftr n 1) (u32 (- (Z.land n 1)))).

(** * Reading *)

Section Read.
Context (m : mem).

(** The new value, or nothing; a [float] is its 32 bits, as [DecodeFloat] takes
    them. *)
Definition ReadPrimitive_INT32 : Input (option Z) :=
  r ← ReadVarint32 m; mret (match r with Some temp => Some (s32 temp) | None => None end).
Definition ReadPrimitive_UINT32 : Input (option Z) := ReadVarint32 m.
Definition ReadPrimitive_SINT32 : Input (option Z) :=
  r ← ReadVarint32 m;
  mret (match r with Some temp => Some (WireZigZagDecode32 temp) | None => None end).
Definition ReadPrimitive_INT64 : Input (option Z) :=
  r ← ReadVarint64 m; mret (match r with Some temp => Some (s64 temp) | None => None end).
Definition ReadPrimitive_UINT64 : Input (option Z) := ReadVarint64 m.
Definition ReadPrimitive_FIXED64 : Input (option Z) := ReadLittleEndian64 m.
Definition ReadPrimitive_FIXED32 : Input (option Z) := ReadLittleEndian32 m.
Definition ReadPrimitive_FLOAT : Input (option Z) := ReadLittleEndian32 m.
Definition ReadPrimitive_BOOL : Input (option Z) :=
  r ← ReadVarint32 m;
  mret (match r with Some temp => Some (b2z (negb (temp =? 0))) | None => None end).

Definition WireReadString (value : list Z) : Input (bool * list Z) :=
  r ← ReadVarint32 m;
  match r with
  | None => mret (false, value)
  | Some length => InternalReadStringInline m value (s32 length)
  end.

Definition WireReadBytes (value : list Z) : Input (bool * list Z) :=
  r ← ReadVarint32 m;
  match r with
  | None => mret (false, value)
  | Some length => InternalReadStringInline m value (s32 length)
  end.
End Read.

(** * Unknown fields *)

(** [UnknownField] and its [type_]. *)
Inductive UnknownField :=
  | UVarint (number varint : Z)
  | UFixed32 (number fixed32 : Z)
  | UFixed64 (number fixed64 : Z)
  | ULengthDelimited (number : Z) (length_delimited : list Z)
  | UGroup (number : Z) (group : list UnknownField).

Section Skip.
Context (m : mem).

(** [SkipField] and [SkipMessage] call each other; the results are the return value
    and the new [unknown_fields].  A field or group that could not be read to its
    end stays in the set. *)
Fixpoint SkipField (fuel : nat) (tag : Z) (unknown_fields : list UnknownField)
    : Input (bool * list UnknownField) :=
  match fuel with
  | O => st_fault OutOfFuel
  | S n =>
      let number := GetTagFieldNumber tag in
      let type := GetTagWireType tag in
      if type =? WIRETYPE_VARINT then
        r ← ReadVarint64 m;
        mret (match r with
              | None => (false, unknown_fields)
              | Some value => (true, unknown_fields ++ [UVarint number value])
              end)
      else if type =? WIRETYPE_FIXED64 then
        r ← ReadLittleEndian64 m;
        mret (match r with
              | None => (false, unknown_fields)
              | Some value => (true, unknown_fields ++ [UFixed64 number value])
              end)
      else if type =? WIRETYPE_LENGTH_DELIMITED then
        r ← ReadVarint32 m;
        match r with
        | None => mret (false, unknown_fields)
        | Some length =>
            x ← ReadString m [] (s32 length);
            mret (fst (x : bool * list Z), unknown_fields ++ [ULengthDelimited number (snd x)])
        end
      else if type =? WIRETYPE_START_GROUP then
        ok ← IncrementRecursionDepth;
        if negb (ok : bool) then mret (false, unknown_fields)
        else
          r ← SkipMessage n [];
          let unknown_fields := unknown_fields ++ [UGroup number (snd (r : bool * _))] in
          if negb (fst r) then mret (false, unknown_fields)
          else
            DecrementRecursionDepth;;
            s ← st_get;
            mret (LastTagWas (MakeTag (GetTagFieldNumber tag) WIRETYPE_END_GROUP) s,
                  unknown_fields)
      else if type =? WIRETYPE_END_GROUP then mret (false, unknown_fields)
      else if type =? WIRETYPE_FIXED32 then
        r ← ReadLittleEndian32 m;
        mret (match r with
              | None => (false, unknown_fields)
              | Some value => (true, unknown_fields ++ [UFixed32 number value])
              end)
      else mret (false, unknown_fields)
  end
with SkipMessage (fuel : nat) (unknown_fields : list UnknownField)
    : Input (bool * list UnknownField) :=
  match fuel with
  | O => st_fault OutOfFuel
  | S n =>
      tag ← ReadTag m;
      if tag =? 0 then mret (true, unknown_fields)
      else if GetTagWireType tag =? WIRETYPE_END_GROUP then mret (true, unknown_fields)
      else
        r ← SkipField n tag unknown_fields;
        if negb (fst (r : bool * list UnknownField)) then mret (false, snd r)
        else SkipMessage n (snd r)
  end.
End Skip.

(** * Writing *)

Definition WriteTagToArray (field_number type : Z) : list Z :=
  CodedWriteTagToArray (MakeTag field_number type).

Definition WriteInt32NoTagToArray (value : Z) : list Z := WriteVarint32SignExtendedToArray value.
Definition WriteUInt32NoTagToArray (value : Z) : list Z := WriteVarint32ToArray value.
Definition WriteSInt32NoTagToArray (value : Z) : list Z :=
  WriteVarint32ToArray (WireZigZagEncode32 value).
Definition WriteInt64NoTagToArray (value : Z) : list Z := WriteVarint64ToArray (u64 value).
Definition WriteUInt64NoTagToArray (value : Z) : list Z := WriteVarint64ToArray value.
Definition WriteFixed32NoTagToArray (value : Z) : list Z := WriteLittleEndian32ToArray value.
Definition WriteFixed64NoTagToArray (value : Z) : list Z := WriteLittleEndian64ToArray value.
Definition WriteFloatNoTagToArray (value : Z) : list Z := WriteLittleEndian32ToArray value.
Definition WriteBoolNoTagToArray (value : Z) : list Z :=
  WriteVarint32ToArray (if value =? 0 then 0 else 1).

Definition WriteInt32ToArray (field_number value : Z) : list Z :=
  WriteTagToArray field_number WIRETYPE_VARINT ++ WriteInt32NoTagToArray value.
(** For an unknown field the [int64] is given by its 64 bits, as the caller has a [uint64]. *)
Definition WriteInt64ToArray (field_number value : Z) : list Z :=
  WriteTagToArray field_number WIRETYPE_VARINT ++ WriteInt64NoTagToArray value.
Definition WriteSInt32ToArray (field_number value : Z) : list Z :=
  WriteTagToArray field_number WIRETYPE_VARINT ++ WriteSInt32NoTagToArray value.
Definition WriteUInt32ToArray (field_number value : Z) : list Z :=
  WriteTagToArray field_number WIRETYPE_VARINT ++ WriteUInt32NoTagToArray value.
Definition WriteUInt64ToArray (field_number value : Z) : list Z :=
  WriteTagToArray field_number WIRETYPE_VARINT ++ WriteUInt64NoTagToArray value.
Definition WriteFixed32ToArray (field_number value : Z) : list Z :=
  WriteTagToArray field_number WIRETYPE_FIXED32 ++ WriteFixed32NoTagToArray value.
Definition WriteFixed64ToArray (field_number value : Z) : list Z :=
  WriteTagToArray field_number WIRETYPE_FIXED64 ++ WriteFixed64NoTagToArray value.
Definition WriteFloatToArray (field_number value : Z) : list Z :=
  WriteTagToArray field_number WIRETYPE_FIXED32 ++ WriteFloatNoTagToArray value.
Definition WriteBoolToArray (field_number value : Z) : list Z :=
  WriteTagToArray field_number WIRETYPE_VARINT ++ WriteBoolNoTagToArray value.
Definition WriteStringToArray (field_number : Z) (value : list Z) : list Z :=
  WriteTagToArray field_number WIRETYPE_LENGTH_DELIMITED ++
  WriteVarint32ToArray (u32 (Z.of_nat (length value))) ++ value.
Definition WriteBytesToArray (field_number : Z) (value : list Z) : list Z :=
  WriteTagToArray field_number WIRETYPE_LENGTH_DELIMITED ++
  WriteVarint32ToArray (u32 (Z.of_nat (length value))) ++ value.

(** One round of the loop over the set, and the loop. *)
Fixpoint SerializeUnknownFieldToArray (field : UnknownField) : list Z :=
  match field with
  | UVarint number varint => WriteInt64ToArray number varint
  | UFixed32 number fixed32 => WriteFixed32ToArray number fixed32
  | UFixed64 number fixed64 => WriteFixed64ToArray number fixed64
  | ULengthDelimited number data => WriteBytesToArray number data
  | UGroup number group =>
      WriteTagToArray number WIRETYPE_START_GROUP ++
      mjoin (SerializeUnknownFieldToArray <$> group) ++
      WriteTagToArray number WIRETYPE_END_GROUP
  end.

Definition SerializeUnknownFieldsToArray (unknown_fields : list UnknownField) : list Z :=
  mjoin (SerializeUnknownFieldToArray <$> unknown_fields).

(** * Sizes *)

Definition Int32Size (value : Z) : Z := VarintSize32SignExtended value.
Definition UInt32Size (value : Z) : Z := VarintSize32 value.
Definition Int64Size (value : Z) : Z := VarintSize64 (u64 value).
Definition SInt32Size (value : Z) : Z := VarintSize32 (WireZigZagEncode32 value).
Definition UInt64Size (value : Z) : Z := VarintSize64 value.
Definition StringSize (value : list Z) : Z :=
  s32 (VarintSize32 (u32 (Z.of_nat (length value))) + Z.of_nat (length value)).
Definition BytesSize (value : list Z) : Z :=
  s32 (VarintSize32 (u32 (Z.of_nat (length value))) + Z.of_nat (length value)).

(** One round of the loop over the set: what [size], an [int], is behind a field. *)
Fixpoint ComputeUnknownFieldSize (size : Z) (field : UnknownField) : Z :=
  match field with
  | UVarint number varint =>
      let size := s32 (size + VarintSize32 (MakeTag number WIRETYPE_VARINT)) in
      s32 (size + VarintSize64 varint)
  | UFixed32 number _ =>
      let size := s32 (size + VarintSize32 (MakeTag number WIRETYPE_FIXED32)) in
      s32 (size + 4)
  | UFixed64 number _ =>
      let size := s32 (size + VarintSize32 (MakeTag number WIRETYPE_FIXED64)) in
      s32 (size + 8)
  | ULengthDelimited number data =>
      let size := s32 (size + VarintSize32 (MakeTag number WIRETYPE_LENGTH_DELIMITED)) in
      let size := s32 (size + VarintSize32 (u32 (Z.of_nat (length data)))) in
      s32 (size + Z.of_nat (length data))
  | UGroup number group =>
      let size := s32 (size + VarintSize32 (MakeTag number WIRETYPE_START_GROUP)) in
      let size := s32 (size + foldl (fun n f => ComputeUnknownFieldSize n f) 0 group) in
      s32 (size + VarintSize32 (MakeTag number WIRETYPE_END_GROUP))
  end.

Definition ComputeUnknownFieldsSize (unknown_fields : list UnknownField) : Z :=
  foldl ComputeUnknownFieldSize 0 unknown_fields.

(** [UnknownFieldSet] (google/protobuf/unknown_field_set.h/.cc): how a set is read from a
    coded stream, from an array and from a string.  The [Add...] functions are the [++] of
    [Wire.SkipField]. *)

(** The copies that [MergeFrom] makes of strings and groups have the same contents. *)
Definition UnknownFieldSet_MergeFrom (other self : list UnknownField) : list UnknownField :=
  self ++ other.

Section Parse.
Context (m : mem).

(** The results are the return value and the new set. *)
Definition UnknownFieldSet_MergeFromCodedStream (fuel : nat) (self : list UnknownField)
    : Input (bool * list UnknownField) :=
  r ← SkipMessage m fuel [];
  s ← st_get;
  mret (if fst (r : bool * list UnknownField) && ConsumedEntireMessage s
        then (true, UnknownFieldSet_MergeFrom (snd r) self) else (false, self)).

(** Behind [Clear]. *)
Definition UnknownFieldSet_ParseFromCodedStream (fuel : nat) : Input (bool * list UnknownField) :=
  UnknownFieldSet_MergeFromCodedStream fuel [].

Definition UnknownFieldSet_ParseFromZeroCopyStream (fuel : nat) (input : ArrayInputStream)
    : result (bool * list UnknownField) :=
  coded_input ← CodedInputStream_from input;
  r ← UnknownFieldSet_ParseFromCodedStream fuel coded_input;
  let '(ok, fields, coded_input) := r in
  CodedInputStream_destroy coded_input;;
  Ok (ok && ConsumedEntireMessage coded_input, fields).

Definition UnknownFieldSet_ParseFromArray (fuel : nat) (data size : Z)
    : result (bool * list UnknownField) :=
  UnknownFieldSet_ParseFromZeroCopyStream fuel (ArrayInputStream_new data size (-1)).
End Parse.

(** Two calls for every field, and one for the end. *)
Definition unknown_fuel (n : nat) : nat := 2 * n + 2.

(** The characters of the string are at [data]. *)
Definition UnknownFieldSet_ParseFromString (data : Z) (s : list Z) : result (bool * list UnknownField) :=
  UnknownFieldSet_ParseFromArray (block data s) (unknown_fuel (length s)) data
    (s32 (Z.of_nat (length s))).
