(* ===== verification/Messages.v ===== *)
(** Generated message classes, as tables: what one class differs in from another is
    data ([message_class]), and the shapes that the generated methods share are the
    functions below, which read the tables.  [NetMessages] has the tables of the four
    classes the packet loop parses.  Also [ParseFromArray] of message_lite.cc. *)

From S2P Require Import Prelude CMem Coded Wire.

(** * Objects *)

(** A member: a number ([float] as its bits, [bool] as 0 or 1), the bytes of a
    string, or the strings of a repeated field. *)
Inductive value :=
  | VInt (v : Z)
  | VStr (v : list Z)
  | VRep (v : list (list Z)).

(** [_has_bits_], the members by the number of their has-bit, the unknown fields and
    [_cached_size_]. *)
Record message := mkmsg {
  has_bits_ : Z;
  members : list value;
  unknown_fields_ : list UnknownField;
  cached_size_ : Z
}.

Definition get_int (i : nat) (msg : message) : Z :=
  match members msg !! i with Some (VInt v) => v | _ => 0 end.
Definition get_str (i : nat) (msg : message) : list Z :=
  match members msg !! i with Some (VStr v) => v | _ => [] end.
Definition get_rep (i : nat) (msg : message) : list (list Z) :=
  match members msg !! i with Some (VRep v) => v | _ => [] end.

Definition has (i : nat) (msg : message) : bool := Z.testbit (has_bits_ msg) (Z.of_nat i).
Definition set_has (i : nat) (msg : message) : message :=
  mkmsg (Z.lor (has_bits_ msg) (Z.shiftl 1 (Z.of_nat i))) (members msg) (unknown_fields_ msg)
    (cached_size_ msg).
Definition assign (i : nat) (v : value) (msg : message) : message :=
  mkmsg (has_bits_ msg) (<[i := v]> (members msg)) (unknown_fields_ msg) (cached_size_ msg).
Definition set_unknown (u : list UnknownField) (msg : message) : message :=
  mkmsg (has_bits_ msg) (members msg) u (cached_size_ msg).

(** * Tables *)

(** One [case] of [MergePartialFromCodedStream]: the field number, the tag the case
    compares with, the member, how it is read, whether the field is repeated, the
    [ExpectTag]s at its end with the field number of the case each jumps into, and
    whether [ExpectAtEnd] follows. *)
Record parse_case := mkcase {
  c_number : Z;
  c_tag : Z;
  c_member : nat;
  c_type : FieldType;
  c_repeated : bool;
  c_expect : list (Z * Z);
  c_at_end : bool
}.

(** A statement of [Clear]: [ZR_(first, last)], a member set to zero, a string
    cleared when its has-bit is set, a repeated field cleared. *)
Inductive clear_step :=
  | CZero (first last : nat)
  | CReset (i : nat)
  | CString (i : nat)
  | CRepeated (i : nat).

(** A field in [SerializeWithCachedSizesToArray]. *)
Record field_write := mkwrite {
  w_number : Z;
  w_member : nat;
  w_type : FieldType;
  w_repeated : bool
}.

(** The second summand of a field in [ByteSize]. *)
Inductive value_size :=
  | SFixed (n : Z)
  | SInt32
  | SUInt32
  | SSInt32
  | SInt64
  | SUInt64
  | SString
  | SBytes.

(** A field in [ByteSize]: the member, the size of the tag, the other summand. *)
Record field_size := mksize {
  s_member : nat;
  s_tag : Z;
  s_value : value_size
}.

(** The fields behind one test of [_has_bits_], or a repeated field. *)
Inductive size_step :=
  | SGroup (mask : Z) (items : list field_size)
  | SRepeated (i : nat) (tag_size : Z).

(** An optional field outside the groups: its own has-bit is all that is tested. *)
Definition SAlone (i : nat) (tag : Z) (v : value_size) : size_step :=
  SGroup (Z.shiftl 1 (Z.of_nat i)) [mksize i tag v].

(** The same for [MergeFrom]. *)
Inductive merge_step :=
  | MGroup (mask : Z) (items : list nat)
  | MRepeated (i : nat).

Record message_class := mkclass {
  k_new : message;
  k_layout : list nat;
  k_clear : list (option Z * list clear_step);
  k_cutoff : Z;
  k_cases : list parse_case;
  k_writes : list field_write;
  k_sizes : list size_step;
  k_merge : list merge_step
}.

(** * [Clear] *)

Definition zero_value (v : value) : value :=
  match v with VInt _ => VInt 0 | VStr _ => VStr [] | VRep _ => VRep [] end.

(** The members from [first] to [last] in the order of the object's memory. *)
Fixpoint span_from (layout : list nat) (last : nat) : list nat :=
  match layout with
  | [] => []
  | i :: l => if decide (i = last) then [i] else i :: span_from l last
  end.
Fixpoint span (layout : list nat) (first last : nat) : list nat :=
  match layout with
  | [] => []
  | i :: l => if decide (i = first) then span_from (i :: l) last else span l first last
  end.

Definition zero_member (i : nat) (msg : message) : message :=
  match members msg !! i with Some v => assign i (zero_value v) msg | None => msg end.

Definition run_clear_step (layout : list nat) (st : clear_step) (msg : message) : message :=
  match st with
  | CZero first last => foldl (fun msg i => zero_member i msg) msg (span layout first last)
  | CReset i => zero_member i msg
  | CString i => if has i msg then assign i (VStr []) msg else msg
  | CRepeated i => assign i (VRep []) msg
  end.

Definition run_clear_group (layout : list nat) (g : option Z * list clear_step) (msg : message)
    : message :=
  let run := foldl (fun msg st => run_clear_step layout st msg) msg (snd g) in
  match fst g with
  | Some mask => if Z.land (has_bits_ msg) mask =? 0 then msg else run
  | None => run
  end.

Definition Clear (K : message_class) (msg : message) : message :=
  let msg := foldl (fun msg g => run_clear_group (k_layout K) g msg) msg (k_clear K) in
  mkmsg 0 (members msg) [] (cached_size_ msg).

(** * [MergePartialFromCodedStream] *)

(** [ReadTagWithCutoff] is not in the repository's copy of coded_stream.h. *)
Class TagReader := ReadTagWithCutoff : mem -> Z -> Input (Z * bool).

Section Parse.
Context (m : mem) `{TagReader}.

Definition ReadPrimitive (t : FieldType) : Input (option Z) :=
  match t with
  | TYPE_INT32 => ReadPrimitive_INT32 m
  | TYPE_UINT32 => ReadPrimitive_UINT32 m
  | TYPE_SINT32 => ReadPrimitive_SINT32 m
  | TYPE_INT64 => ReadPrimitive_INT64 m
  | TYPE_UINT64 => ReadPrimitive_UINT64 m
  | TYPE_FIXED64 => ReadPrimitive_FIXED64 m
  | TYPE_FIXED32 => ReadPrimitive_FIXED32 m
  | TYPE_FLOAT => ReadPrimitive_FLOAT m
  | TYPE_BOOL => ReadPrimitive_BOOL m
  | TYPE_STRING | TYPE_BYTES => st_fault AssertFailed
  end.

(** Reads a string through the pointer that [mutable_...] or [add_...] returned. *)
Definition read_string_type (t : FieldType) (old : list Z) : Input (bool * list Z) :=
  match t with
  | TYPE_STRING => WireReadString m old
  | TYPE_BYTES => WireReadBytes m old
  | _ => st_fault AssertFailed
  end.

Definition is_string (t : FieldType) : bool :=
  match t with TYPE_STRING | TYPE_BYTES => true | _ => false end.

(** The [DO_] of a case and the [set_has_...]. *)
Definition read_field (c : parse_case) (msg : message) : Input (bool * message) :=
  if is_string (c_type c) then
    if c_repeated c then
      r ← read_string_type (c_type c) [];
      mret (fst (r : bool * list Z),
            assign (c_member c) (VRep (get_rep (c_member c) msg ++ [snd r])) msg)
    else
      r ← read_string_type (c_type c) (get_str (c_member c) msg);
      mret (fst (r : bool * list Z),
            assign (c_member c) (VStr (snd r)) (set_has (c_member c) msg))
  else
    r ← ReadPrimitive (c_type c);
    mret (match r with
          | None => (false, msg)
          | Some v => (true, set_has (c_member c) (assign (c_member c) (VInt v) msg))
          end).

(** The first [ExpectTag] that succeeds. *)
Fixpoint run_expect (l : list (Z * Z)) : Input (option Z) :=
  match l with
  | [] => mret None
  | (tag, target) :: l' =>
      ok ← ExpectTag m tag;
      if (ok : bool) then mret (Some target) else run_expect l'
  end.

(** A case from its label on; [inl (Some n)] goes to the label in case [n], [inl None]
    is the [break], [inr] leaves the function. *)
Definition run_case (c : parse_case) (msg : message)
    : Input (option Z * message + bool * message) :=
  r ← read_field c msg;
  if negb (fst (r : bool * message)) then mret (inr (false, snd r))
  else
    j ← run_expect (c_expect c);
    match (j : option Z) with
    | Some target => mret (inl (Some target, snd r))
    | None =>
        fin ← (if c_at_end c then ExpectAtEnd else mret false) : Input bool;
        if (fin : bool) then mret (inr (true, snd r)) else mret (inl (None, snd r))
    end.

Definition handle_unusual (fuel : nat) (tag : Z) (msg : message)
    : Input (option Z * message + bool * message) :=
  if (tag =? 0) || (GetTagWireType tag =? WIRETYPE_END_GROUP) then mret (inr (true, msg))
  else
    r ← SkipField m fuel tag (unknown_fields_ msg);
    let msg := set_unknown (snd (r : bool * list UnknownField)) msg in
    if fst r then mret (inl (None, msg)) else mret (inr (false, msg)).

Definition case_of (number : Z) (cases : list parse_case) : option parse_case :=
  list_find (fun c => c_number c = number) cases ≫= fun p => Some (snd p).

(** One round of the [for (;;)], or the code from a label on. *)
Definition merge_body (fuel : nat) (K : message_class) (l : option Z * message)
    : Input (option Z * message + bool * message) :=
  let '(target, msg) := l in
  match target with
  | Some number =>
      match case_of number (k_cases K) with
      | Some c => run_case c msg
      | None => st_fault AssertFailed
      end
  | None =>
      p ← ReadTagWithCutoff m (k_cutoff K);
      let tag := fst (p : Z * bool) in
      if negb (snd p) then handle_unusual fuel tag msg
      else
        match case_of (GetTagFieldNumber tag) (k_cases K) with
        | Some c => if tag =? c_tag c then run_case c msg else handle_unusual fuel tag msg
        | None => handle_unusual fuel tag msg
        end
  end.

Definition MergePartialFromCodedStream (fuel : nat) (K : message_class) (msg : message)
    : Input (bool * message) :=
  st_loop fuel (merge_body fuel K) (None, msg).

(** [InlineParseFromArray]; [IsInitialized] is [true] for messages without required
    fields. *)
Definition MsgParseFromArray (fuel : nat) (K : message_class) (data size : Z) (msg : message)
    : result (bool * message) :=
  match MergePartialFromCodedStream fuel K (Clear K msg) (CodedInputStream_new data size) with
  | Ok ((ok, msg'), input) => Ok (ok && ConsumedEntireMessage input, msg')
  | Fault e => Fault e
  end.
End Parse.

(** * [SerializeWithCachedSizesToArray] *)

Definition write_int (t : FieldType) (number v : Z) : list Z :=
  match t with
  | TYPE_INT32 => WriteInt32ToArray number v
  | TYPE_UINT32 => WriteUInt32ToArray number v
  | TYPE_SINT32 => WriteSInt32ToArray number v
  | TYPE_INT64 => WriteInt64ToArray number v
  | TYPE_UINT64 => WriteUInt64ToArray number v
  | TYPE_FIXED64 => WriteFixed64ToArray number v
  | TYPE_FIXED32 => WriteFixed32ToArray number v
  | TYPE_FLOAT => WriteFloatToArray number v
  | TYPE_BOOL => WriteBoolToArray number v
  | TYPE_STRING | TYPE_BYTES => []
  end.

Definition write_str (t : FieldType) (number : Z) (v : list Z) : list Z :=
  match t with
  | TYPE_STRING => WriteStringToArray number v
  | TYPE_BYTES => WriteBytesToArray number v
  | _ => []
  end.

Definition write_field (msg : message) (w : field_write) : list Z :=
  if w_repeated w then
    mjoin ((fun v => write_str (w_type w) (w_number w) v) <$> get_rep (w_member w) msg)
  else if has (w_member w) msg then
    if is_string (w_type w) then write_str (w_type w) (w_number w) (get_str (w_member w) msg)
    else write_int (w_type w) (w_number w) (get_int (w_member w) msg)
  else [].

Definition SerializeWithCachedSizesToArray (K : message_class) (msg : message) : list Z :=
  mjoin (write_field msg <$> k_writes K) ++
  SerializeUnknownFieldsToArray (unknown_fields_ msg).

(** * [ByteSize] *)

Definition size_of_value (k : value_size) (i : nat) (msg : message) : Z :=
  match k with
  | SFixed n => n
  | SInt32 => Int32Size (get_int i msg)
  | SUInt32 => UInt32Size (get_int i msg)
  | SSInt32 => SInt32Size (get_int i msg)
  | SInt64 => Int64Size (get_int i msg)
  | SUInt64 => UInt64Size (get_int i msg)
  | SString => StringSize (get_str i msg)
  | SBytes => BytesSize (get_str i msg)
  end.

(** [total_size] is an [int]. *)
Definition run_size_step (msg : message) (total_size : Z) (st : size_step) : Z :=
  match st with
  | SGroup mask items =>
      if Z.land (has_bits_ msg) mask =? 0 then total_size
      else foldl (fun total_size f =>
             if has (s_member f) msg
             then s32 (total_size + s32 (s_tag f + size_of_value (s_value f) (s_member f) msg))
             else total_size) total_size items
  | SRepeated i tag_size =>
      foldl (fun total_size v => s32 (total_size + StringSize v))
        (s32 (total_size + s32 (tag_size * Z.of_nat (length (get_rep i msg))))) (get_rep i msg)
  end.

(** The size and the object with the size cached. *)
Definition ByteSize (K : message_class) (msg : message) : Z * message :=
  let total_size := foldl (run_size_step msg) 0 (k_sizes K) in
  let total_size := s32 (total_size + ComputeUnknownFieldsSize (unknown_fields_ msg)) in
  (total_size, mkmsg (has_bits_ msg) (members msg) (unknown_fields_ msg) total_size).

(** [SerializePartialToArray]: the bytes that go to the array of [size] bytes.  [end - start] is
    an [int]; more bytes than the array has are written behind it. *)
Definition SerializeToArray (K : message_class) (size : Z) (msg : message)
    : result (option (list Z) * message) :=
  let '(byte_size, msg) := ByteSize K msg in
  if size <? byte_size then Ok (None, msg)
  else
    let bs := SerializeWithCachedSizesToArray K msg in
    if size <? Z.of_nat (length bs) then Fault (OutOfBounds size)
    else if s32 (Z.of_nat (length bs)) =? byte_size then Ok (Some bs, msg) else Fault AssertFailed.

(** * [MergeFrom] *)

Definition merge_member (from : message) (i : nat) (msg : message) : message :=
  if has i from then
    match members from !! i with
    | Some v => set_has i (assign i v msg)
    | None => msg
    end
  else msg.

Definition run_merge_step (from : message) (msg : message) (st : merge_step) : message :=
  match st with
  | MGroup mask items =>
      if Z.land (has_bits_ from) mask =? 0 then msg
      else foldl (fun msg i => merge_member from i msg) msg items
  | MRepeated i => assign i (VRep (get_rep i msg ++ get_rep i from)) msg
  end.

Definition MergeFrom (K : message_class) (from msg : message) : message :=
  let msg := foldl (run_merge_step from) msg (k_merge K) in
  set_unknown (unknown_fields_ msg ++ unknown_fields_ from) msg.

(** [CopyFrom], between different objects. *)
Definition CopyFrom (K : message_class) (from msg : message) : message :=
  MergeFrom K from (Clear K msg).
