(* ===== verification/NetMessages.v ===== *)
(** The tables of the message classes the packet loop parses: [CNETMsg_Tick],
    [CNETMsg_SignonState], [CSVCMsg_ServerInfo] and [CSVCMsg_PacketEntities] of
    src/generated_proto/netmessages_public.pb.cc, one definition per method, in the
    order in which the method names the fields; a field is given by the index of its
    has-bit. *)

From S2P Require Import Prelude CMem Coded Wire Messages.

(** * [CNETMsg_Tick] *)

(** Members by has-bit: [tick_] 0, [host_computationtime_] 1,
    [host_computationtime_std_deviation_] 2, [host_framestarttime_std_deviation_] 3. *)
Definition CNETMsg_Tick_SharedCtor : message :=
  mkmsg 0 [VInt 0; VInt 0; VInt 0; VInt 0] [] 0.

(** The members in the order of their declarations. *)
Definition CNETMsg_Tick_layout : list nat := [0; 1; 2; 3]%nat.

Definition CNETMsg_Tick_Clear : list (option Z * list clear_step) :=
  [(None, [CZero 0 3])].

Definition CNETMsg_Tick_cases : list parse_case :=
  [ (* tick *) mkcase 1 8 0 TYPE_UINT32 false [(32, 4)] false;
   (* host_computationtime *) mkcase 4 32 1 TYPE_UINT32 false [(40, 5)] false;
   (* host_computationtime_std_deviation *) mkcase 5 40 2 TYPE_UINT32 false [(48, 6)] false;
   (* host_framestarttime_std_deviation *) mkcase 6 48 3 TYPE_UINT32 false [] true].

Definition CNETMsg_Tick_writes : list field_write :=
  [ (* tick *) mkwrite 1 0 TYPE_UINT32 false;
   (* host_computationtime *) mkwrite 4 1 TYPE_UINT32 false;
   (* host_computationtime_std_deviation *) mkwrite 5 2 TYPE_UINT32 false;
   (* host_framestarttime_std_deviation *) mkwrite 6 3 TYPE_UINT32 false].

Definition CNETMsg_Tick_sizes : list size_step :=
  [SGroup 15
     [mksize 0 1 SUInt32; mksize 1 1 SUInt32; mksize 2 1 SUInt32; mksize 3 1 SUInt32]].

Definition CNETMsg_Tick_MergeFrom : list merge_step :=
  [MGroup (Z.shiftl 0xff 0) [0; 1; 2; 3]%nat].

Definition CNETMsg_Tick : message_class :=
  mkclass CNETMsg_Tick_SharedCtor CNETMsg_Tick_layout CNETMsg_Tick_Clear 127
    CNETMsg_Tick_cases
    CNETMsg_Tick_writes CNETMsg_Tick_sizes CNETMsg_Tick_MergeFrom.

(** * [CNETMsg_SignonState] *)

(** Members by has-bit: [signon_state_] 0, [spawn_count_] 1, [num_server_players_] 2,
    [players_networkids_] 3, [map_name_] 4. *)
Definition CNETMsg_SignonState_SharedCtor : message :=
  mkmsg 0 [VInt 0; VInt 0; VInt 0; VRep []; VStr []] [] 0.

(** The members in the order of their declarations. *)
Definition CNETMsg_SignonState_layout : list nat := [0; 1; 3; 4; 2]%nat.

Definition CNETMsg_SignonState_Clear : list (option Z * list clear_step) :=
  [(Some 23, [CZero 0 1; CReset 2; CString 4]);
   (None, [CRepeated 3])].

Definition CNETMsg_SignonState_cases : list parse_case :=
  [ (* signon_state *) mkcase 1 8 0 TYPE_UINT32 false [(16, 2)] false;
   (* spawn_count *) mkcase 2 16 1 TYPE_UINT32 false [(24, 3)] false;
   (* num_server_players *) mkcase 3 24 2 TYPE_UINT32 false [(34, 4)] false;
   (* players_networkids *) mkcase 4 34 3 TYPE_STRING true [(34, 4); (42, 5)] false;
   (* map_name *) mkcase 5 42 4 TYPE_STRING false [] true].

Definition CNETMsg_SignonState_writes : list field_write :=
  [ (* signon_state *) mkwrite 1 0 TYPE_UINT32 false;
   (* spawn_count *) mkwrite 2 1 TYPE_UINT32 false;
   (* num_server_players *) mkwrite 3 2 TYPE_UINT32 false;
   (* players_networkids *) mkwrite 4 3 TYPE_STRING true;
   (* map_name *) mkwrite 5 4 TYPE_STRING false].

Definition CNETMsg_SignonState_sizes : list size_step :=
  [SGroup 23
     [mksize 0 1 SUInt32; mksize 1 1 SUInt32; mksize 2 1 SUInt32; mksize 4 1 SString];
   SRepeated 3 1].

Definition CNETMsg_SignonState_MergeFrom : list merge_step :=
  [MRepeated 3;
   MGroup (Z.shiftl 0xff 0) [0; 1; 2; 4]%nat].

Definition CNETMsg_SignonState : message_class :=
  mkclass CNETMsg_SignonState_SharedCtor CNETMsg_SignonState_layout CNETMsg_SignonState_Clear
    127 CNETMsg_SignonState_cases
    CNETMsg_SignonState_writes CNETMsg_SignonState_sizes CNETMsg_SignonState_MergeFrom.

(** * [CSVCMsg_ServerInfo] *)

(** Members by has-bit: [protocol_] 0, [server_count_] 1, [is_dedicated_] 2,
    [is_official_valve_server_] 3, [is_hltv_] 4, [is_replay_] 5,
    [is_redirecting_to_proxy_relay_] 6, [c_os_] 7, [map_crc_] 8, [client_crc_] 9,
    [string_table_crc_] 10, [max_clients_] 11, [max_classes_] 12, [player_slot_] 13,
    [tick_interval_] 14, [game_dir_] 15, [map_name_] 16, [map_group_name_] 17, [sky_name_] 18,
    [host_name_] 19, [ugc_map_id_] 20. *)
Definition CSVCMsg_ServerInfo_SharedCtor : message :=
  mkmsg 0 [VInt 0; VInt 0; VInt 0; VInt 0; VInt 0; VInt 0; VInt 0; VInt 0; VInt 0; VInt 0;
    VInt 0; VInt 0; VInt 0; VInt 0; VInt 0; VStr []; VStr []; VStr []; VStr []; VStr []; VInt
    0] [] 0.

(** The members in the order of their declarations. *)
Definition CSVCMsg_ServerInfo_layout : list nat := [0; 1; 2; 3; 4; 5; 6; 7; 8; 9; 10; 11; 12;
  13; 14; 15; 16; 17; 18; 19; 20]%nat.

Definition CSVCMsg_ServerInfo_Clear : list (option Z * list clear_step) :=
  [(Some 255, [CZero 0 7]);
   (Some 65280, [CZero 8 14; CString 15]);
   (Some 2031616, [CString 16; CString 17; CString 18; CString 19; CReset 20])].

(** The cases, in three parts. *)
Definition CSVCMsg_ServerInfo_cases_1 : list parse_case :=
  [ (* protocol *) mkcase 1 8 0 TYPE_INT32 false [(16, 2)] false;
   (* server_count *) mkcase 2 16 1 TYPE_INT32 false [(24, 3)] false;
   (* is_dedicated *) mkcase 3 24 2 TYPE_BOOL false [(32, 4)] false;
   (* is_official_valve_server *) mkcase 4 32 3 TYPE_BOOL false [(40, 5)] false;
   (* is_hltv *) mkcase 5 40 4 TYPE_BOOL false [(48, 6)] false;
   (* is_replay *) mkcase 6 48 5 TYPE_BOOL false [(56, 7)] false;
   (* c_os *) mkcase 7 56 7 TYPE_INT32 false [(69, 8)] false].

Definition CSVCMsg_ServerInfo_cases_2 : list parse_case :=
  [ (* map_crc *) mkcase 8 69 8 TYPE_FIXED32 false [(77, 9)] false;
   (* client_crc *) mkcase 9 77 9 TYPE_FIXED32 false [(85, 10)] false;
   (* string_table_crc *) mkcase 10 85 10 TYPE_FIXED32 false [(88, 11)] false;
   (* max_clients *) mkcase 11 88 11 TYPE_INT32 false [(96, 12)] false;
   (* max_classes *) mkcase 12 96 12 TYPE_INT32 false [(104, 13)] false;
   (* player_slot *) mkcase 13 104 13 TYPE_INT32 false [(117, 14)] false;
   (* tick_interval *) mkcase 14 117 14 TYPE_FLOAT false [(122, 15)] false;
   (* game_dir *) mkcase 15 122 15 TYPE_STRING false [(130, 16)] false].

Definition CSVCMsg_ServerInfo_cases_3 : list parse_case :=
  [ (* map_name *) mkcase 16 130 16 TYPE_STRING false [(138, 17)] false;
   (* map_group_name *) mkcase 17 138 17 TYPE_STRING false [(146, 18)] false;
   (* sky_name *) mkcase 18 146 18 TYPE_STRING false [(154, 19)] false;
   (* host_name *) mkcase 19 154 19 TYPE_STRING false [(168, 21)] false;
   (* is_redirecting_to_proxy_relay *) mkcase 21 168 6 TYPE_BOOL false [(176, 22)] false;
   (* ugc_map_id *) mkcase 22 176 20 TYPE_UINT64 false [] true].

Definition CSVCMsg_ServerInfo_cases : list parse_case :=
  CSVCMsg_ServerInfo_cases_1 ++ CSVCMsg_ServerInfo_cases_2 ++ CSVCMsg_ServerInfo_cases_3.

Definition CSVCMsg_ServerInfo_writes : list field_write :=
  [ (* protocol *) mkwrite 1 0 TYPE_INT32 false;
   (* server_count *) mkwrite 2 1 TYPE_INT32 false;
   (* is_dedicated *) mkwrite 3 2 TYPE_BOOL false;
   (* is_official_valve_server *) mkwrite 4 3 TYPE_BOOL false;
   (* is_hltv *) mkwrite 5 4 TYPE_BOOL false;
   (* is_replay *) mkwrite 6 5 TYPE_BOOL false;
   (* c_os *) mkwrite 7 7 TYPE_INT32 false;
   (* map_crc *) mkwrite 8 8 TYPE_FIXED32 false;
   (* client_crc *) mkwrite 9 9 TYPE_FIXED32 false;
   (* string_table_crc *) mkwrite 10 10 TYPE_FIXED32 false;
   (* max_clients *) mkwrite 11 11 TYPE_INT32 false;
   (* max_classes *) mkwrite 12 12 TYPE_INT32 false;
   (* player_slot *) mkwrite 13 13 TYPE_INT32 false;
   (* tick_interval *) mkwrite 14 14 TYPE_FLOAT false;
   (* game_dir *) mkwrite 15 15 TYPE_STRING false;
   (* map_name *) mkwrite 16 16 TYPE_STRING false;
   (* map_group_name *) mkwrite 17 17 TYPE_STRING false;
   (* sky_name *) mkwrite 18 18 TYPE_STRING false;
   (* host_name *) mkwrite 19 19 TYPE_STRING false;
   (* is_redirecting_to_proxy_relay *) mkwrite 21 6 TYPE_BOOL false;
   (* ugc_map_id *) mkwrite 22 20 TYPE_UINT64 false].

Definition CSVCMsg_ServerInfo_sizes : list size_step :=
  [SGroup 255
     [mksize 0 1 SInt32; mksize 1 1 SInt32; mksize 2 1 (SFixed 1); mksize 3 1 (SFixed 1);
      mksize 4 1 (SFixed 1); mksize 5 1 (SFixed 1); mksize 6 2 (SFixed 1); mksize 7 1 SInt32];
   SGroup 65280
     [mksize 8 1 (SFixed 4); mksize 9 1 (SFixed 4); mksize 10 1 (SFixed 4); mksize 11 1
      SInt32; mksize 12 1 SInt32; mksize 13 1 SInt32; mksize 14 1 (SFixed 4); mksize 15 1
      SString];
   SGroup 2031616
     [mksize 16 2 SString; mksize 17 2 SString; mksize 18 2 SString; mksize 19 2 SString;
      mksize 20 2 SUInt64]].

Definition CSVCMsg_ServerInfo_MergeFrom : list merge_step :=
  [MGroup (Z.shiftl 0xff 0) [0; 1; 2; 3; 4; 5; 6; 7]%nat;
   MGroup (Z.shiftl 0xff 8) [8; 9; 10; 11; 12; 13; 14; 15]%nat;
   MGroup (Z.shiftl 0xff 16) [16; 17; 18; 19; 20]%nat].

Definition CSVCMsg_ServerInfo : message_class :=
  mkclass CSVCMsg_ServerInfo_SharedCtor CSVCMsg_ServerInfo_layout CSVCMsg_ServerInfo_Clear
    16383 CSVCMsg_ServerInfo_cases
    CSVCMsg_ServerInfo_writes CSVCMsg_ServerInfo_sizes CSVCMsg_ServerInfo_MergeFrom.

(** * [CSVCMsg_PacketEntities] *)

(** Members by has-bit: [max_entries_] 0, [updated_entries_] 1, [is_delta_] 2,
    [update_baseline_] 3, [baseline_] 4, [delta_from_] 5, [entity_data_] 6. *)
Definition CSVCMsg_PacketEntities_SharedCtor : message :=
  mkmsg 0 [VInt 0; VInt 0; VInt 0; VInt 0; VInt 0; VInt 0; VStr []] [] 0.

(** The members in the order of their declarations. *)
Definition CSVCMsg_PacketEntities_layout : list nat := [0; 1; 2; 3; 4; 6; 5]%nat.

Definition CSVCMsg_PacketEntities_Clear : list (option Z * list clear_step) :=
  [(Some 127, [CZero 0 4; CReset 5; CString 6])].

Definition CSVCMsg_PacketEntities_cases : list parse_case :=
  [ (* max_entries *) mkcase 1 8 0 TYPE_INT32 false [(16, 2)] false;
   (* updated_entries *) mkcase 2 16 1 TYPE_INT32 false [(24, 3)] false;
   (* is_delta *) mkcase 3 24 2 TYPE_BOOL false [(32, 4)] false;
   (* update_baseline *) mkcase 4 32 3 TYPE_BOOL false [(40, 5)] false;
   (* baseline *) mkcase 5 40 4 TYPE_INT32 false [(48, 6)] false;
   (* delta_from *) mkcase 6 48 5 TYPE_INT32 false [(58, 7)] false;
   (* entity_data *) mkcase 7 58 6 TYPE_BYTES false [] true].

Definition CSVCMsg_PacketEntities_writes : list field_write :=
  [ (* max_entries *) mkwrite 1 0 TYPE_INT32 false;
   (* updated_entries *) mkwrite 2 1 TYPE_INT32 false;
   (* is_delta *) mkwrite 3 2 TYPE_BOOL false;
   (* update_baseline *) mkwrite 4 3 TYPE_BOOL false;
   (* baseline *) mkwrite 5 4 TYPE_INT32 false;
   (* delta_from *) mkwrite 6 5 TYPE_INT32 false;
   (* entity_data *) mkwrite 7 6 TYPE_BYTES false].

Definition CSVCMsg_PacketEntities_sizes : list size_step :=
  [SGroup 127
     [mksize 0 1 SInt32; mksize 1 1 SInt32; mksize 2 1 (SFixed 1); mksize 3 1 (SFixed 1);
      mksize 4 1 SInt32; mksize 5 1 SInt32; mksize 6 1 SBytes]].

Definition CSVCMsg_PacketEntities_MergeFrom : list merge_step :=
  [MGroup (Z.shiftl 0xff 0) [0; 1; 2; 3; 4; 5; 6]%nat].

Definition CSVCMsg_PacketEntities : message_class :=
  mkclass CSVCMsg_PacketEntities_SharedCtor CSVCMsg_PacketEntities_layout
    CSVCMsg_PacketEntities_Clear 127 CSVCMsg_PacketEntities_cases
    CSVCMsg_PacketEntities_writes CSVCMsg_PacketEntities_sizes
      CSVCMsg_PacketEntities_MergeFrom.

