(* ===== verification/NetClasses.v ===== *)
(** The tables of the other message classes of src/generated_proto/netmessages_public.pb.cc
    whose fields are numbers and strings; [NetMessages] says how they are to be read.  A field
    outside the groups of [ByteSize] has [SAlone]. *)

From S2P Require Import Prelude CMem Coded Wire Messages.

(** * [CMsgVector] *)

(** Members by has-bit: [x_] 0, [y_] 1, [z_] 2. *)
Definition CMsgVector_SharedCtor : message := mkmsg 0 [VInt 0; VInt 0; VInt 0] [] 0.

Definition CMsgVector_layout : list nat := [0; 1; 2]%nat.

Definition CMsgVector_Clear : list (option Z * list clear_step) :=
  [(None, [CZero 0 2])].

Definition CMsgVector_cases : list parse_case :=
  [ (* x *) mkcase 1 13 0 TYPE_FLOAT false [(21, 2)] false;
   (* y *) mkcase 2 21 1 TYPE_FLOAT false [(29, 3)] false;
   (* z *) mkcase 3 29 2 TYPE_FLOAT false [] true].

Definition CMsgVector_writes : list field_write :=
  [ (* x *) mkwrite 1 0 TYPE_FLOAT false;
   (* y *) mkwrite 2 1 TYPE_FLOAT false;
   (* z *) mkwrite 3 2 TYPE_FLOAT false].

Definition CMsgVector_sizes : list size_step :=
  [SGroup 7
     [mksize 0 1 (SFixed 4);
      mksize 1 1 (SFixed 4);
      mksize 2 1 (SFixed 4)]].

Definition CMsgVector_MergeFrom : list merge_step :=
  [MGroup (Z.shiftl 0xff 0) [0; 1; 2]%nat].

Definition CMsgVector : message_class :=
  mkclass CMsgVector_SharedCtor CMsgVector_layout CMsgVector_Clear 127 CMsgVector_cases
    CMsgVector_writes CMsgVector_sizes CMsgVector_MergeFrom.

(** * [CMsgVector2D] *)

(** Members by has-bit: [x_] 0, [y_] 1. *)
Definition CMsgVector2D_SharedCtor : message := mkmsg 0 [VInt 0; VInt 0] [] 0.

Definition CMsgVector2D_layout : list nat := [0; 1]%nat.

Definition CMsgVector2D_Clear : list (option Z * list clear_step) :=
  [(None, [CZero 0 1])].

Definition CMsgVector2D_cases : list parse_case :=
  [ (* x *) mkcase 1 13 0 TYPE_FLOAT false [(21, 2)] false;
   (* y *) mkcase 2 21 1 TYPE_FLOAT false [] true].

Definition CMsgVector2D_writes : list field_write :=
  [ (* x *) mkwrite 1 0 TYPE_FLOAT false;
   (* y *) mkwrite 2 1 TYPE_FLOAT false].

Definition CMsgVector2D_sizes : list size_step :=
  [SGroup 3
     [mksize 0 1 (SFixed 4);
      mksize 1 1 (SFixed 4)]].

Definition CMsgVector2D_MergeFrom : list merge_step :=
  [MGroup (Z.shiftl 0xff 0) [0; 1]%nat].

Definition CMsgVector2D : message_class :=
  mkclass CMsgVector2D_SharedCtor CMsgVector2D_layout CMsgVector2D_Clear 127
    CMsgVector2D_cases CMsgVector2D_writes CMsgVector2D_sizes CMsgVector2D_MergeFrom.

(** * [CMsgQAngle] *)

(** Members by has-bit: [x_] 0, [y_] 1, [z_] 2. *)
Definition CMsgQAngle_SharedCtor : message := mkmsg 0 [VInt 0; VInt 0; VInt 0] [] 0.

Definition CMsgQAngle_layout : list nat := [0; 1; 2]%nat.

Definition CMsgQAngle_Clear : list (option Z * list clear_step) :=
  [(None, [CZero 0 2])].

Definition CMsgQAngle_cases : list parse_case :=
  [ (* x *) mkcase 1 13 0 TYPE_FLOAT false [(21, 2)] false;
   (* y *) mkcase 2 21 1 TYPE_FLOAT false [(29, 3)] false;
   (* z *) mkcase 3 29 2 TYPE_FLOAT false [] true].

Definition CMsgQAngle_writes : list field_write :=
  [ (* x *) mkwrite 1 0 TYPE_FLOAT false;
   (* y *) mkwrite 2 1 TYPE_FLOAT false;
   (* z *) mkwrite 3 2 TYPE_FLOAT false].

Definition CMsgQAngle_sizes : list size_step :=
  [SGroup 7
     [mksize 0 1 (SFixed 4);
      mksize 1 1 (SFixed 4);
      mksize 2 1 (SFixed 4)]].

Definition CMsgQAngle_MergeFrom : list merge_step :=
  [MGroup (Z.shiftl 0xff 0) [0; 1; 2]%nat].

Definition CMsgQAngle : message_class :=
  mkclass CMsgQAngle_SharedCtor CMsgQAngle_layout CMsgQAngle_Clear 127 CMsgQAngle_cases
    CMsgQAngle_writes CMsgQAngle_sizes CMsgQAngle_MergeFrom.

(** * [CMsgRGBA] *)

(** Members by has-bit: [r_] 0, [g_] 1, [b_] 2, [a_] 3. *)
Definition CMsgRGBA_SharedCtor : message := mkmsg 0 [VInt 0; VInt 0; VInt 0; VInt 0] [] 0.

Definition CMsgRGBA_layout : list nat := [0; 1; 2; 3]%nat.

Definition CMsgRGBA_Clear : list (option Z * list clear_step) :=
  [(None, [CZero 0 3])].

Definition CMsgRGBA_cases : list parse_case :=
  [ (* r *) mkcase 1 8 0 TYPE_INT32 false [(16, 2)] false;
   (* g *) mkcase 2 16 1 TYPE_INT32 false [(24, 3)] false;
   (* b *) mkcase 3 24 2 TYPE_INT32 false [(32, 4)] false;
   (* a *) mkcase 4 32 3 TYPE_INT32 false [] true].

Definition CMsgRGBA_writes : list field_write :=
  [ (* r *) mkwrite 1 0 TYPE_INT32 false;
   (* g *) mkwrite 2 1 TYPE_INT32 false;
   (* b *) mkwrite 3 2 TYPE_INT32 false;
   (* a *) mkwrite 4 3 TYPE_INT32 false].

Definition CMsgRGBA_sizes : list size_step :=
  [SGroup 15
     [mksize 0 1 SInt32;
      mksize 1 1 SInt32;
      mksize 2 1 SInt32;
      mksize 3 1 SInt32]].

Definition CMsgRGBA_MergeFrom : list merge_step :=
  [MGroup (Z.shiftl 0xff 0) [0; 1; 2; 3]%nat].

Definition CMsgRGBA : message_class :=
  mkclass CMsgRGBA_SharedCtor CMsgRGBA_layout CMsgRGBA_Clear 127 CMsgRGBA_cases
    CMsgRGBA_writes CMsgRGBA_sizes CMsgRGBA_MergeFrom.

(** * [CNETMsg_StringCmd] *)

(** Members by has-bit: [command_] 0. *)
Definition CNETMsg_StringCmd_SharedCtor : message := mkmsg 0 [VStr []] [] 0.

Definition CNETMsg_StringCmd_layout : list nat := [0]%nat.

Definition CNETMsg_StringCmd_Clear : list (option Z * list clear_step) :=
  [(None, [CString 0])].

Definition CNETMsg_StringCmd_cases : list parse_case :=
  [ (* command *) mkcase 1 10 0 TYPE_STRING false [] true].

Definition CNETMsg_StringCmd_writes : list field_write :=
  [ (* command *) mkwrite 1 0 TYPE_STRING false].

Definition CNETMsg_StringCmd_sizes : list size_step :=
  [SAlone 0 1 SString].

Definition CNETMsg_StringCmd_MergeFrom : list merge_step :=
  [MGroup (Z.shiftl 0xff 0) [0]%nat].

Definition CNETMsg_StringCmd : message_class :=
  mkclass CNETMsg_StringCmd_SharedCtor CNETMsg_StringCmd_layout CNETMsg_StringCmd_Clear 127
    CNETMsg_StringCmd_cases CNETMsg_StringCmd_writes CNETMsg_StringCmd_sizes
    CNETMsg_StringCmd_MergeFrom.

(** * [CMsg_CVars_CVar] *)

(** Members by has-bit: [name_] 0, [value_] 1. *)
Definition CMsg_CVars_CVar_SharedCtor : message := mkmsg 0 [VStr []; VStr []] [] 0.

Definition CMsg_CVars_CVar_layout : list nat := [0; 1]%nat.

Definition CMsg_CVars_CVar_Clear : list (option Z * list clear_step) :=
  [(Some 3, [CString 0; CString 1])].

Definition CMsg_CVars_CVar_cases : list parse_case :=
  [ (* name *) mkcase 1 10 0 TYPE_STRING false [(18, 2)] false;
   (* value *) mkcase 2 18 1 TYPE_STRING false [] true].

Definition CMsg_CVars_CVar_writes : list field_write :=
  [ (* name *) mkwrite 1 0 TYPE_STRING false;
   (* value *) mkwrite 2 1 TYPE_STRING false].

Definition CMsg_CVars_CVar_sizes : list size_step :=
  [SGroup 3
     [mksize 0 1 SString;
      mksize 1 1 SString]].

Definition CMsg_CVars_CVar_MergeFrom : list merge_step :=
  [MGroup (Z.shiftl 0xff 0) [0; 1]%nat].

Definition CMsg_CVars_CVar : message_class :=
  mkclass CMsg_CVars_CVar_SharedCtor CMsg_CVars_CVar_layout CMsg_CVars_CVar_Clear 127
    CMsg_CVars_CVar_cases CMsg_CVars_CVar_writes CMsg_CVars_CVar_sizes
    CMsg_CVars_CVar_MergeFrom.

(** * [CNETMsg_NOP] *)

(** No members. *)
Definition CNETMsg_NOP_SharedCtor : message := mkmsg 0 [] [] 0.

Definition CNETMsg_NOP_layout : list nat := []%nat.

Definition CNETMsg_NOP_Clear : list (option Z * list clear_step) :=
  [].

Definition CNETMsg_NOP_cases : list parse_case :=
  [].

Definition CNETMsg_NOP_writes : list field_write :=
  [].

Definition CNETMsg_NOP_sizes : list size_step :=
  [].

Definition CNETMsg_NOP_MergeFrom : list merge_step :=
  [].

Definition CNETMsg_NOP : message_class :=
  mkclass CNETMsg_NOP_SharedCtor CNETMsg_NOP_layout CNETMsg_NOP_Clear 127 CNETMsg_NOP_cases
    CNETMsg_NOP_writes CNETMsg_NOP_sizes CNETMsg_NOP_MergeFrom.

(** * [CNETMsg_Disconnect] *)

(** Members by has-bit: [text_] 0. *)
Definition CNETMsg_Disconnect_SharedCtor : message := mkmsg 0 [VStr []] [] 0.

Definition CNETMsg_Disconnect_layout : list nat := [0]%nat.

Definition CNETMsg_Disconnect_Clear : list (option Z * list clear_step) :=
  [(None, [CString 0])].

Definition CNETMsg_Disconnect_cases : list parse_case :=
  [ (* text *) mkcase 1 10 0 TYPE_STRING false [] true].

Definition CNETMsg_Disconnect_writes : list field_write :=
  [ (* text *) mkwrite 1 0 TYPE_STRING false].

Definition CNETMsg_Disconnect_sizes : list size_step :=
  [SAlone 0 1 SString].

Definition CNETMsg_Disconnect_MergeFrom : list merge_step :=
  [MGroup (Z.shiftl 0xff 0) [0]%nat].

Definition CNETMsg_Disconnect : message_class :=
  mkclass CNETMsg_Disconnect_SharedCtor CNETMsg_Disconnect_layout CNETMsg_Disconnect_Clear
    127 CNETMsg_Disconnect_cases CNETMsg_Disconnect_writes CNETMsg_Disconnect_sizes
    CNETMsg_Disconnect_MergeFrom.

(** * [CNETMsg_File] *)

(** Members by has-bit: [transfer_id_] 0, [file_name_] 1, [is_replay_demo_file_] 2,
    [deny_] 3. *)
Definition CNETMsg_File_SharedCtor : message := mkmsg 0 [VInt 0; VStr []; VInt 0; VInt 0] []
  0.

Definition CNETMsg_File_layout : list nat := [1; 0; 2; 3]%nat.

Definition CNETMsg_File_Clear : list (option Z * list clear_step) :=
  [(Some 15, [CZero 0 3; CString 1])].

Definition CNETMsg_File_cases : list parse_case :=
  [ (* transfer_id *) mkcase 1 8 0 TYPE_INT32 false [(18, 2)] false;
   (* file_name *) mkcase 2 18 1 TYPE_STRING false [(24, 3)] false;
   (* is_replay_demo_file *) mkcase 3 24 2 TYPE_BOOL false [(32, 4)] false;
   (* deny *) mkcase 4 32 3 TYPE_BOOL false [] true].

Definition CNETMsg_File_writes : list field_write :=
  [ (* transfer_id *) mkwrite 1 0 TYPE_INT32 false;
   (* file_name *) mkwrite 2 1 TYPE_STRING false;
   (* is_replay_demo_file *) mkwrite 3 2 TYPE_BOOL false;
   (* deny *) mkwrite 4 3 TYPE_BOOL false].

Definition CNETMsg_File_sizes : list size_step :=
  [SGroup 15
     [mksize 0 1 SInt32;
      mksize 1 1 SString;
      mksize 2 1 (SFixed 1);
      mksize 3 1 (SFixed 1)]].

Definition CNETMsg_File_MergeFrom : list merge_step :=
  [MGroup (Z.shiftl 0xff 0) [0; 1; 2; 3]%nat].

Definition CNETMsg_File : message_class :=
  mkclass CNETMsg_File_SharedCtor CNETMsg_File_layout CNETMsg_File_Clear 127
    CNETMsg_File_cases CNETMsg_File_writes CNETMsg_File_sizes CNETMsg_File_MergeFrom.

(** * [CSVCMsg_ClassInfo_class_t] *)

(** Members by has-bit: [class_id_] 0, [data_table_name_] 1, [class_name_] 2. *)
Definition CSVCMsg_ClassInfo_class_t_SharedCtor : message := mkmsg 0 [VInt 0; VStr []; VStr
  []] [] 0.

Definition CSVCMsg_ClassInfo_class_t_layout : list nat := [1; 2; 0]%nat.

Definition CSVCMsg_ClassInfo_class_t_Clear : list (option Z * list clear_step) :=
  [(Some 7, [CReset 0; CString 1; CString 2])].

Definition CSVCMsg_ClassInfo_class_t_cases : list parse_case :=
  [ (* class_id *) mkcase 1 8 0 TYPE_INT32 false [(18, 2)] false;
   (* data_table_name *) mkcase 2 18 1 TYPE_STRING false [(26, 3)] false;
   (* class_name *) mkcase 3 26 2 TYPE_STRING false [] true].

Definition CSVCMsg_ClassInfo_class_t_writes : list field_write :=
  [ (* class_id *) mkwrite 1 0 TYPE_INT32 false;
   (* data_table_name *) mkwrite 2 1 TYPE_STRING false;
   (* class_name *) mkwrite 3 2 TYPE_STRING false].

Definition CSVCMsg_ClassInfo_class_t_sizes : list size_step :=
  [SGroup 7
     [mksize 0 1 SInt32;
      mksize 1 1 SString;
      mksize 2 1 SString]].

Definition CSVCMsg_ClassInfo_class_t_MergeFrom : list merge_step :=
  [MGroup (Z.shiftl 0xff 0) [0; 1; 2]%nat].

Definition CSVCMsg_ClassInfo_class_t : message_class :=
  mkclass CSVCMsg_ClassInfo_class_t_SharedCtor CSVCMsg_ClassInfo_class_t_layout
    CSVCMsg_ClassInfo_class_t_Clear 127 CSVCMsg_ClassInfo_class_t_cases
    CSVCMsg_ClassInfo_class_t_writes CSVCMsg_ClassInfo_class_t_sizes
    CSVCMsg_ClassInfo_class_t_MergeFrom.

(** * [CSVCMsg_SendTable_sendprop_t] *)

(** Members by has-bit: [type_] 0, [var_name_] 1, [flags_] 2, [priority_] 3, [dt_name_] 4,
    [num_elements_] 5, [low_value_] 6, [high_value_] 7, [num_bits_] 8. *)
Definition CSVCMsg_SendTable_sendprop_t_SharedCtor : message := mkmsg 0 [VInt 0; VStr [];
  VInt 0; VInt 0; VStr []; VInt 0; VInt 0; VInt 0; VInt 0] [] 0.

Definition CSVCMsg_SendTable_sendprop_t_layout : list nat := [1; 0; 2; 4; 3; 5; 6; 7;
  8]%nat.

Definition CSVCMsg_SendTable_sendprop_t_Clear : list (option Z * list clear_step) :=
  [(Some 255, [CZero 0 2; CZero 3 7; CString 1; CString 4]);
   (None, [CReset 8])].

Definition CSVCMsg_SendTable_sendprop_t_cases : list parse_case :=
  [ (* type *) mkcase 1 8 0 TYPE_INT32 false [(18, 2)] false;
   (* var_name *) mkcase 2 18 1 TYPE_STRING false [(24, 3)] false;
   (* flags *) mkcase 3 24 2 TYPE_INT32 false [(32, 4)] false;
   (* priority *) mkcase 4 32 3 TYPE_INT32 false [(42, 5)] false;
   (* dt_name *) mkcase 5 42 4 TYPE_STRING false [(48, 6)] false;
   (* num_elements *) mkcase 6 48 5 TYPE_INT32 false [(61, 7)] false;
   (* low_value *) mkcase 7 61 6 TYPE_FLOAT false [(69, 8)] false;
   (* high_value *) mkcase 8 69 7 TYPE_FLOAT false [(72, 9)] false;
   (* num_bits *) mkcase 9 72 8 TYPE_INT32 false [] true].

Definition CSVCMsg_SendTable_sendprop_t_writes : list field_write :=
  [ (* type *) mkwrite 1 0 TYPE_INT32 false;
   (* var_name *) mkwrite 2 1 TYPE_STRING false;
   (* flags *) mkwrite 3 2 TYPE_INT32 false;
   (* priority *) mkwrite 4 3 TYPE_INT32 false;
   (* dt_name *) mkwrite 5 4 TYPE_STRING false;
   (* num_elements *) mkwrite 6 5 TYPE_INT32 false;
   (* low_value *) mkwrite 7 6 TYPE_FLOAT false;
   (* high_value *) mkwrite 8 7 TYPE_FLOAT false;
   (* num_bits *) mkwrite 9 8 TYPE_INT32 false].

Definition CSVCMsg_SendTable_sendprop_t_sizes : list size_step :=
  [SGroup 255
     [mksize 0 1 SInt32;
      mksize 1 1 SString;
      mksize 2 1 SInt32;
      mksize 3 1 SInt32;
      mksize 4 1 SString;
      mksize 5 1 SInt32;
      mksize 6 1 (SFixed 4);
      mksize 7 1 (SFixed 4)];
   SAlone 8 1 SInt32].

Definition CSVCMsg_SendTable_sendprop_t_MergeFrom : list merge_step :=
  [MGroup (Z.shiftl 0xff 0) [0; 1; 2; 3; 4; 5; 6; 7]%nat;
   MGroup (Z.shiftl 0xff 8) [8]%nat].

Definition CSVCMsg_SendTable_sendprop_t : message_class :=
  mkclass CSVCMsg_SendTable_sendprop_t_SharedCtor CSVCMsg_SendTable_sendprop_t_layout
    CSVCMsg_SendTable_sendprop_t_Clear 127 CSVCMsg_SendTable_sendprop_t_cases
    CSVCMsg_SendTable_sendprop_t_writes CSVCMsg_SendTable_sendprop_t_sizes
    CSVCMsg_SendTable_sendprop_t_MergeFrom.

(** * [CSVCMsg_Print] *)

(** Members by has-bit: [text_] 0. *)
Definition CSVCMsg_Print_SharedCtor : message := mkmsg 0 [VStr []] [] 0.

Definition CSVCMsg_Print_layout : list nat := [0]%nat.

Definition CSVCMsg_Print_Clear : list (option Z * list clear_step) :=
  [(None, [CString 0])].

Definition CSVCMsg_Print_cases : list parse_case :=
  [ (* text *) mkcase 1 10 0 TYPE_STRING false [] true].

Definition CSVCMsg_Print_writes : list field_write :=
  [ (* text *) mkwrite 1 0 TYPE_STRING false].

Definition CSVCMsg_Print_sizes : list size_step :=
  [SAlone 0 1 SString].

Definition CSVCMsg_Print_MergeFrom : list merge_step :=
  [MGroup (Z.shiftl 0xff 0) [0]%nat].

Definition CSVCMsg_Print : message_class :=
  mkclass CSVCMsg_Print_SharedCtor CSVCMsg_Print_layout CSVCMsg_Print_Clear 127
    CSVCMsg_Print_cases CSVCMsg_Print_writes CSVCMsg_Print_sizes CSVCMsg_Print_MergeFrom.

(** * [CSVCMsg_SetPause] *)

(** Members by has-bit: [paused_] 0. *)
Definition CSVCMsg_SetPause_SharedCtor : message := mkmsg 0 [VInt 0] [] 0.

Definition CSVCMsg_SetPause_layout : list nat := [0]%nat.

Definition CSVCMsg_SetPause_Clear : list (option Z * list clear_step) :=
  [(None, [CReset 0])].

Definition CSVCMsg_SetPause_cases : list parse_case :=
  [ (* paused *) mkcase 1 8 0 TYPE_BOOL false [] true].

Definition CSVCMsg_SetPause_writes : list field_write :=
  [ (* paused *) mkwrite 1 0 TYPE_BOOL false].

Definition CSVCMsg_SetPause_sizes : list size_step :=
  [SAlone 0 1 (SFixed 1)].

Definition CSVCMsg_SetPause_MergeFrom : list merge_step :=
  [MGroup (Z.shiftl 0xff 0) [0]%nat].

Definition CSVCMsg_SetPause : message_class :=
  mkclass CSVCMsg_SetPause_SharedCtor CSVCMsg_SetPause_layout CSVCMsg_SetPause_Clear 127
    CSVCMsg_SetPause_cases CSVCMsg_SetPause_writes CSVCMsg_SetPause_sizes
    CSVCMsg_SetPause_MergeFrom.

(** * [CSVCMsg_SetView] *)

(** Members by has-bit: [entity_index_] 0. *)
Definition CSVCMsg_SetView_SharedCtor : message := mkmsg 0 [VInt 0] [] 0.

Definition CSVCMsg_SetView_layout : list nat := [0]%nat.

Definition CSVCMsg_SetView_Clear : list (option Z * list clear_step) :=
  [(None, [CReset 0])].

Definition CSVCMsg_SetView_cases : list parse_case :=
  [ (* entity_index *) mkcase 1 8 0 TYPE_INT32 false [] true].

Definition CSVCMsg_SetView_writes : list field_write :=
  [ (* entity_index *) mkwrite 1 0 TYPE_INT32 false].

Definition CSVCMsg_SetView_sizes : list size_step :=
  [SAlone 0 1 SInt32].

Definition CSVCMsg_SetView_MergeFrom : list merge_step :=
  [MGroup (Z.shiftl 0xff 0) [0]%nat].

Definition CSVCMsg_SetView : message_class :=
  mkclass CSVCMsg_SetView_SharedCtor CSVCMsg_SetView_layout CSVCMsg_SetView_Clear 127
    CSVCMsg_SetView_cases CSVCMsg_SetView_writes CSVCMsg_SetView_sizes
    CSVCMsg_SetView_MergeFrom.

(** * [CSVCMsg_CreateStringTable] *)

(** Members by has-bit: [name_] 0, [max_entries_] 1, [num_entries_] 2,
    [user_data_fixed_size_] 3, [user_data_size_] 4, [user_data_size_bits_] 5, [flags_] 6,
    [string_data_] 7. *)
Definition CSVCMsg_CreateStringTable_SharedCtor : message := mkmsg 0 [VStr []; VInt 0; VInt
  0; VInt 0; VInt 0; VInt 0; VInt 0; VStr []] [] 0.

Definition CSVCMsg_CreateStringTable_layout : list nat := [0; 1; 2; 3; 4; 5; 6; 7]%nat.

Definition CSVCMsg_CreateStringTable_Clear : list (option Z * list clear_step) :=
  [(Some 255, [CZero 1 6; CString 0; CString 7])].

Definition CSVCMsg_CreateStringTable_cases : list parse_case :=
  [ (* name *) mkcase 1 10 0 TYPE_STRING false [(16, 2)] false;
   (* max_entries *) mkcase 2 16 1 TYPE_INT32 false [(24, 3)] false;
   (* num_entries *) mkcase 3 24 2 TYPE_INT32 false [(32, 4)] false;
   (* user_data_fixed_size *) mkcase 4 32 3 TYPE_BOOL false [(40, 5)] false;
   (* user_data_size *) mkcase 5 40 4 TYPE_INT32 false [(48, 6)] false;
   (* user_data_size_bits *) mkcase 6 48 5 TYPE_INT32 false [(56, 7)] false;
   (* flags *) mkcase 7 56 6 TYPE_INT32 false [(66, 8)] false;
   (* string_data *) mkcase 8 66 7 TYPE_BYTES false [] true].

Definition CSVCMsg_CreateStringTable_writes : list field_write :=
  [ (* name *) mkwrite 1 0 TYPE_STRING false;
   (* max_entries *) mkwrite 2 1 TYPE_INT32 false;
   (* num_entries *) mkwrite 3 2 TYPE_INT32 false;
   (* user_data_fixed_size *) mkwrite 4 3 TYPE_BOOL false;
   (* user_data_size *) mkwrite 5 4 TYPE_INT32 false;
   (* user_data_size_bits *) mkwrite 6 5 TYPE_INT32 false;
   (* flags *) mkwrite 7 6 TYPE_INT32 false;
   (* string_data *) mkwrite 8 7 TYPE_BYTES false].

Definition CSVCMsg_CreateStringTable_sizes : list size_step :=
  [SGroup 255
     [mksize 0 1 SString;
      mksize 1 1 SInt32;
      mksize 2 1 SInt32;
      mksize 3 1 (SFixed 1);
      mksize 4 1 SInt32;
      mksize 5 1 SInt32;
      mksize 6 1 SInt32;
      mksize 7 1 SBytes]].

Definition CSVCMsg_CreateStringTable_MergeFrom : list merge_step :=
  [MGroup (Z.shiftl 0xff 0) [0; 1; 2; 3; 4; 5; 6; 7]%nat].

Definition CSVCMsg_CreateStringTable : message_class :=
  mkclass CSVCMsg_CreateStringTable_SharedCtor CSVCMsg_CreateStringTable_layout
    CSVCMsg_CreateStringTable_Clear 127 CSVCMsg_CreateStringTable_cases
    CSVCMsg_CreateStringTable_writes CSVCMsg_CreateStringTable_sizes
    CSVCMsg_CreateStringTable_MergeFrom.

(** * [CSVCMsg_UpdateStringTable] *)

(** Members by has-bit: [table_id_] 0, [num_changed_entries_] 1, [string_data_] 2. *)
Definition CSVCMsg_UpdateStringTable_SharedCtor : message := mkmsg 0 [VInt 0; VInt 0; VStr
  []] [] 0.

Definition CSVCMsg_UpdateStringTable_layout : list nat := [0; 1; 2]%nat.

Definition CSVCMsg_UpdateStringTable_Clear : list (option Z * list clear_step) :=
  [(Some 7, [CZero 0 1; CString 2])].

Definition CSVCMsg_UpdateStringTable_cases : list parse_case :=
  [ (* table_id *) mkcase 1 8 0 TYPE_INT32 false [(16, 2)] false;
   (* num_changed_entries *) mkcase 2 16 1 TYPE_INT32 false [(26, 3)] false;
   (* string_data *) mkcase 3 26 2 TYPE_BYTES false [] true].

Definition CSVCMsg_UpdateStringTable_writes : list field_write :=
  [ (* table_id *) mkwrite 1 0 TYPE_INT32 false;
   (* num_changed_entries *) mkwrite 2 1 TYPE_INT32 false;
   (* string_data *) mkwrite 3 2 TYPE_BYTES false].

Definition CSVCMsg_UpdateStringTable_sizes : list size_step :=
  [SGroup 7
     [mksize 0 1 SInt32;
      mksize 1 1 SInt32;
      mksize 2 1 SBytes]].

Definition CSVCMsg_UpdateStringTable_MergeFrom : list merge_step :=
  [MGroup (Z.shiftl 0xff 0) [0; 1; 2]%nat].

Definition CSVCMsg_UpdateStringTable : message_class :=
  mkclass CSVCMsg_UpdateStringTable_SharedCtor CSVCMsg_UpdateStringTable_layout
    CSVCMsg_UpdateStringTable_Clear 127 CSVCMsg_UpdateStringTable_cases
    CSVCMsg_UpdateStringTable_writes CSVCMsg_UpdateStringTable_sizes
    CSVCMsg_UpdateStringTable_MergeFrom.

(** * [CSVCMsg_VoiceInit] *)

(** Members by has-bit: [quality_] 0, [codec_] 1. *)
Definition CSVCMsg_VoiceInit_SharedCtor : message := mkmsg 0 [VInt 0; VStr []] [] 0.

Definition CSVCMsg_VoiceInit_layout : list nat := [1; 0]%nat.

Definition CSVCMsg_VoiceInit_Clear : list (option Z * list clear_step) :=
  [(Some 3, [CReset 0; CString 1])].

Definition CSVCMsg_VoiceInit_cases : list parse_case :=
  [ (* quality *) mkcase 1 8 0 TYPE_INT32 false [(18, 2)] false;
   (* codec *) mkcase 2 18 1 TYPE_STRING false [] true].

Definition CSVCMsg_VoiceInit_writes : list field_write :=
  [ (* quality *) mkwrite 1 0 TYPE_INT32 false;
   (* codec *) mkwrite 2 1 TYPE_STRING false].

Definition CSVCMsg_VoiceInit_sizes : list size_step :=
  [SGroup 3
     [mksize 0 1 SInt32;
      mksize 1 1 SString]].

Definition CSVCMsg_VoiceInit_MergeFrom : list merge_step :=
  [MGroup (Z.shiftl 0xff 0) [0; 1]%nat].

Definition CSVCMsg_VoiceInit : message_class :=
  mkclass CSVCMsg_VoiceInit_SharedCtor CSVCMsg_VoiceInit_layout CSVCMsg_VoiceInit_Clear 127
    CSVCMsg_VoiceInit_cases CSVCMsg_VoiceInit_writes CSVCMsg_VoiceInit_sizes
    CSVCMsg_VoiceInit_MergeFrom.

(** * [CSVCMsg_VoiceData] *)

(** Members by has-bit: [client_] 0, [proximity_] 1, [xuid_] 2, [audible_mask_] 3,
    [voice_data_] 4. *)
Definition CSVCMsg_VoiceData_SharedCtor : message := mkmsg 0 [VInt 0; VInt 0; VInt 0; VInt
  0; VStr []] [] 0.

Definition CSVCMsg_VoiceData_layout : list nat := [0; 1; 2; 4; 3]%nat.

Definition CSVCMsg_VoiceData_Clear : list (option Z * list clear_step) :=
  [(Some 31, [CZero 0 2; CReset 3; CString 4])].

Definition CSVCMsg_VoiceData_cases : list parse_case :=
  [ (* client *) mkcase 1 8 0 TYPE_INT32 false [(16, 2)] false;
   (* proximity *) mkcase 2 16 1 TYPE_BOOL false [(25, 3)] false;
   (* xuid *) mkcase 3 25 2 TYPE_FIXED64 false [(32, 4)] false;
   (* audible_mask *) mkcase 4 32 3 TYPE_INT32 false [(42, 5)] false;
   (* voice_data *) mkcase 5 42 4 TYPE_BYTES false [] true].

Definition CSVCMsg_VoiceData_writes : list field_write :=
  [ (* client *) mkwrite 1 0 TYPE_INT32 false;
   (* proximity *) mkwrite 2 1 TYPE_BOOL false;
   (* xuid *) mkwrite 3 2 TYPE_FIXED64 false;
   (* audible_mask *) mkwrite 4 3 TYPE_INT32 false;
   (* voice_data *) mkwrite 5 4 TYPE_BYTES false].

Definition CSVCMsg_VoiceData_sizes : list size_step :=
  [SGroup 31
     [mksize 0 1 SInt32;
      mksize 1 1 (SFixed 1);
      mksize 2 1 (SFixed 8);
      mksize 3 1 SInt32;
      mksize 4 1 SBytes]].

Definition CSVCMsg_VoiceData_MergeFrom : list merge_step :=
  [MGroup (Z.shiftl 0xff 0) [0; 1; 2; 3; 4]%nat].

Definition CSVCMsg_VoiceData : message_class :=
  mkclass CSVCMsg_VoiceData_SharedCtor CSVCMsg_VoiceData_layout CSVCMsg_VoiceData_Clear 127
    CSVCMsg_VoiceData_cases CSVCMsg_VoiceData_writes CSVCMsg_VoiceData_sizes
    CSVCMsg_VoiceData_MergeFrom.

(** * [CSVCMsg_Prefetch] *)

(** Members by has-bit: [sound_index_] 0. *)
Definition CSVCMsg_Prefetch_SharedCtor : message := mkmsg 0 [VInt 0] [] 0.

Definition CSVCMsg_Prefetch_layout : list nat := [0]%nat.

Definition CSVCMsg_Prefetch_Clear : list (option Z * list clear_step) :=
  [(None, [CReset 0])].

Definition CSVCMsg_Prefetch_cases : list parse_case :=
  [ (* sound_index *) mkcase 1 8 0 TYPE_INT32 false [] true].

Definition CSVCMsg_Prefetch_writes : list field_write :=
  [ (* sound_index *) mkwrite 1 0 TYPE_INT32 false].

Definition CSVCMsg_Prefetch_sizes : list size_step :=
  [SAlone 0 1 SInt32].

Definition CSVCMsg_Prefetch_MergeFrom : list merge_step :=
  [MGroup (Z.shiftl 0xff 0) [0]%nat].

Definition CSVCMsg_Prefetch : message_class :=
  mkclass CSVCMsg_Prefetch_SharedCtor CSVCMsg_Prefetch_layout CSVCMsg_Prefetch_Clear 127
    CSVCMsg_Prefetch_cases CSVCMsg_Prefetch_writes CSVCMsg_Prefetch_sizes
    CSVCMsg_Prefetch_MergeFrom.

(** * [CSVCMsg_GetCvarValue] *)

(** Members by has-bit: [cookie_] 0, [cvar_name_] 1. *)
Definition CSVCMsg_GetCvarValue_SharedCtor : message := mkmsg 0 [VInt 0; VStr []] [] 0.

Definition CSVCMsg_GetCvarValue_layout : list nat := [1; 0]%nat.

Definition CSVCMsg_GetCvarValue_Clear : list (option Z * list clear_step) :=
  [(Some 3, [CReset 0; CString 1])].

Definition CSVCMsg_GetCvarValue_cases : list parse_case :=
  [ (* cookie *) mkcase 1 8 0 TYPE_INT32 false [(18, 2)] false;
   (* cvar_name *) mkcase 2 18 1 TYPE_STRING false [] true].

Definition CSVCMsg_GetCvarValue_writes : list field_write :=
  [ (* cookie *) mkwrite 1 0 TYPE_INT32 false;
   (* cvar_name *) mkwrite 2 1 TYPE_STRING false].

Definition CSVCMsg_GetCvarValue_sizes : list size_step :=
  [SGroup 3
     [mksize 0 1 SInt32;
      mksize 1 1 SString]].

Definition CSVCMsg_GetCvarValue_MergeFrom : list merge_step :=
  [MGroup (Z.shiftl 0xff 0) [0; 1]%nat].

Definition CSVCMsg_GetCvarValue : message_class :=
  mkclass CSVCMsg_GetCvarValue_SharedCtor CSVCMsg_GetCvarValue_layout
    CSVCMsg_GetCvarValue_Clear 127 CSVCMsg_GetCvarValue_cases CSVCMsg_GetCvarValue_writes
    CSVCMsg_GetCvarValue_sizes CSVCMsg_GetCvarValue_MergeFrom.

(** * [CSVCMsg_Menu] *)

(** Members by has-bit: [dialog_type_] 0, [menu_key_values_] 1. *)
Definition CSVCMsg_Menu_SharedCtor : message := mkmsg 0 [VInt 0; VStr []] [] 0.

Definition CSVCMsg_Menu_layout : list nat := [1; 0]%nat.

Definition CSVCMsg_Menu_Clear : list (option Z * list clear_step) :=
  [(Some 3, [CReset 0; CString 1])].

Definition CSVCMsg_Menu_cases : list parse_case :=
  [ (* dialog_type *) mkcase 1 8 0 TYPE_INT32 false [(18, 2)] false;
   (* menu_key_values *) mkcase 2 18 1 TYPE_BYTES false [] true].

Definition CSVCMsg_Menu_writes : list field_write :=
  [ (* dialog_type *) mkwrite 1 0 TYPE_INT32 false;
   (* menu_key_values *) mkwrite 2 1 TYPE_BYTES false].

Definition CSVCMsg_Menu_sizes : list size_step :=
  [SGroup 3
     [mksize 0 1 SInt32;
      mksize 1 1 SBytes]].

Definition CSVCMsg_Menu_MergeFrom : list merge_step :=
  [MGroup (Z.shiftl 0xff 0) [0; 1]%nat].

Definition CSVCMsg_Menu : message_class :=
  mkclass CSVCMsg_Menu_SharedCtor CSVCMsg_Menu_layout CSVCMsg_Menu_Clear 127
    CSVCMsg_Menu_cases CSVCMsg_Menu_writes CSVCMsg_Menu_sizes CSVCMsg_Menu_MergeFrom.

(** * [CSVCMsg_UserMessage] *)

(** Members by has-bit: [msg_type_] 0, [msg_data_] 1. *)
Definition CSVCMsg_UserMessage_SharedCtor : message := mkmsg 0 [VInt 0; VStr []] [] 0.

Definition CSVCMsg_UserMessage_layout : list nat := [1; 0]%nat.

Definition CSVCMsg_UserMessage_Clear : list (option Z * list clear_step) :=
  [(Some 3, [CReset 0; CString 1])].

Definition CSVCMsg_UserMessage_cases : list parse_case :=
  [ (* msg_type *) mkcase 1 8 0 TYPE_INT32 false [(18, 2)] false;
   (* msg_data *) mkcase 2 18 1 TYPE_BYTES false [] true].

Definition CSVCMsg_UserMessage_writes : list field_write :=
  [ (* msg_type *) mkwrite 1 0 TYPE_INT32 false;
   (* msg_data *) mkwrite 2 1 TYPE_BYTES false].

Definition CSVCMsg_UserMessage_sizes : list size_step :=
  [SGroup 3
     [mksize 0 1 SInt32;
      mksize 1 1 SBytes]].

Definition CSVCMsg_UserMessage_MergeFrom : list merge_step :=
  [MGroup (Z.shiftl 0xff 0) [0; 1]%nat].

Definition CSVCMsg_UserMessage : message_class :=
  mkclass CSVCMsg_UserMessage_SharedCtor CSVCMsg_UserMessage_layout
    CSVCMsg_UserMessage_Clear 127 CSVCMsg_UserMessage_cases CSVCMsg_UserMessage_writes
    CSVCMsg_UserMessage_sizes CSVCMsg_UserMessage_MergeFrom.

(** * [CSVCMsg_GameEvent_key_t] *)

(** Members by has-bit: [type_] 0, [val_string_] 1, [val_float_] 2, [val_long_] 3,
    [val_short_] 4, [val_byte_] 5, [val_bool_] 6, [val_uint64_] 7, [val_wstring_] 8. *)
Definition CSVCMsg_GameEvent_key_t_SharedCtor : message := mkmsg 0 [VInt 0; VStr []; VInt 0;
  VInt 0; VInt 0; VInt 0; VInt 0; VInt 0; VStr []] [] 0.

Definition CSVCMsg_GameEvent_key_t_layout : list nat := [1; 0; 2; 3; 4; 5; 6; 7; 8]%nat.

Definition CSVCMsg_GameEvent_key_t_Clear : list (option Z * list clear_step) :=
  [(Some 255, [CZero 0 7; CString 1]);
   (None, [CString 8])].

Definition CSVCMsg_GameEvent_key_t_cases : list parse_case :=
  [ (* type *) mkcase 1 8 0 TYPE_INT32 false [(18, 2)] false;
   (* val_string *) mkcase 2 18 1 TYPE_STRING false [(29, 3)] false;
   (* val_float *) mkcase 3 29 2 TYPE_FLOAT false [(32, 4)] false;
   (* val_long *) mkcase 4 32 3 TYPE_INT32 false [(40, 5)] false;
   (* val_short *) mkcase 5 40 4 TYPE_INT32 false [(48, 6)] false;
   (* val_byte *) mkcase 6 48 5 TYPE_INT32 false [(56, 7)] false;
   (* val_bool *) mkcase 7 56 6 TYPE_BOOL false [(64, 8)] false;
   (* val_uint64 *) mkcase 8 64 7 TYPE_UINT64 false [(74, 9)] false;
   (* val_wstring *) mkcase 9 74 8 TYPE_BYTES false [] true].

Definition CSVCMsg_GameEvent_key_t_writes : list field_write :=
  [ (* type *) mkwrite 1 0 TYPE_INT32 false;
   (* val_string *) mkwrite 2 1 TYPE_STRING false;
   (* val_float *) mkwrite 3 2 TYPE_FLOAT false;
   (* val_long *) mkwrite 4 3 TYPE_INT32 false;
   (* val_short *) mkwrite 5 4 TYPE_INT32 false;
   (* val_byte *) mkwrite 6 5 TYPE_INT32 false;
   (* val_bool *) mkwrite 7 6 TYPE_BOOL false;
   (* val_uint64 *) mkwrite 8 7 TYPE_UINT64 false;
   (* val_wstring *) mkwrite 9 8 TYPE_BYTES false].

Definition CSVCMsg_GameEvent_key_t_sizes : list size_step :=
  [SGroup 255
     [mksize 0 1 SInt32;
      mksize 1 1 SString;
      mksize 2 1 (SFixed 4);
      mksize 3 1 SInt32;
      mksize 4 1 SInt32;
      mksize 5 1 SInt32;
      mksize 6 1 (SFixed 1);
      mksize 7 1 SUInt64];
   SAlone 8 1 SBytes].

Definition CSVCMsg_GameEvent_key_t_MergeFrom : list merge_step :=
  [MGroup (Z.shiftl 0xff 0) [0; 1; 2; 3; 4; 5; 6; 7]%nat;
   MGroup (Z.shiftl 0xff 8) [8]%nat].

Definition CSVCMsg_GameEvent_key_t : message_class :=
  mkclass CSVCMsg_GameEvent_key_t_SharedCtor CSVCMsg_GameEvent_key_t_layout
    CSVCMsg_GameEvent_key_t_Clear 127 CSVCMsg_GameEvent_key_t_cases
    CSVCMsg_GameEvent_key_t_writes CSVCMsg_GameEvent_key_t_sizes
    CSVCMsg_GameEvent_key_t_MergeFrom.

(** * [CSVCMsg_GameEventList_key_t] *)

(** Members by has-bit: [type_] 0, [name_] 1. *)
Definition CSVCMsg_GameEventList_key_t_SharedCtor : message := mkmsg 0 [VInt 0; VStr []] []
  0.

Definition CSVCMsg_GameEventList_key_t_layout : list nat := [1; 0]%nat.

Definition CSVCMsg_GameEventList_key_t_Clear : list (option Z * list clear_step) :=
  [(Some 3, [CReset 0; CString 1])].

Definition CSVCMsg_GameEventList_key_t_cases : list parse_case :=
  [ (* type *) mkcase 1 8 0 TYPE_INT32 false [(18, 2)] false;
   (* name *) mkcase 2 18 1 TYPE_STRING false [] true].

Definition CSVCMsg_GameEventList_key_t_writes : list field_write :=
  [ (* type *) mkwrite 1 0 TYPE_INT32 false;
   (* name *) mkwrite 2 1 TYPE_STRING false].

Definition CSVCMsg_GameEventList_key_t_sizes : list size_step :=
  [SGroup 3
     [mksize 0 1 SInt32;
      mksize 1 1 SString]].

Definition CSVCMsg_GameEventList_key_t_MergeFrom : list merge_step :=
  [MGroup (Z.shiftl 0xff 0) [0; 1]%nat].

Definition CSVCMsg_GameEventList_key_t : message_class :=
  mkclass CSVCMsg_GameEventList_key_t_SharedCtor CSVCMsg_GameEventList_key_t_layout
    CSVCMsg_GameEventList_key_t_Clear 127 CSVCMsg_GameEventList_key_t_cases
    CSVCMsg_GameEventList_key_t_writes CSVCMsg_GameEventList_key_t_sizes
    CSVCMsg_GameEventList_key_t_MergeFrom.

(** * [CSVCMsg_TempEntities] *)

(** Members by has-bit: [reliable_] 0, [num_entries_] 1, [entity_data_] 2. *)
Definition CSVCMsg_TempEntities_SharedCtor : message := mkmsg 0 [VInt 0; VInt 0; VStr []] []
  0.

Definition CSVCMsg_TempEntities_layout : list nat := [0; 1; 2]%nat.

Definition CSVCMsg_TempEntities_Clear : list (option Z * list clear_step) :=
  [(Some 7, [CZero 0 1; CString 2])].

Definition CSVCMsg_TempEntities_cases : list parse_case :=
  [ (* reliable *) mkcase 1 8 0 TYPE_BOOL false [(16, 2)] false;
   (* num_entries *) mkcase 2 16 1 TYPE_INT32 false [(26, 3)] false;
   (* entity_data *) mkcase 3 26 2 TYPE_BYTES false [] true].

Definition CSVCMsg_TempEntities_writes : list field_write :=
  [ (* reliable *) mkwrite 1 0 TYPE_BOOL false;
   (* num_entries *) mkwrite 2 1 TYPE_INT32 false;
   (* entity_data *) mkwrite 3 2 TYPE_BYTES false].

Definition CSVCMsg_TempEntities_sizes : list size_step :=
  [SGroup 7
     [mksize 0 1 (SFixed 1);
      mksize 1 1 SInt32;
      mksize 2 1 SBytes]].

Definition CSVCMsg_TempEntities_MergeFrom : list merge_step :=
  [MGroup (Z.shiftl 0xff 0) [0; 1; 2]%nat].

Definition CSVCMsg_TempEntities : message_class :=
  mkclass CSVCMsg_TempEntities_SharedCtor CSVCMsg_TempEntities_layout
    CSVCMsg_TempEntities_Clear 127 CSVCMsg_TempEntities_cases CSVCMsg_TempEntities_writes
    CSVCMsg_TempEntities_sizes CSVCMsg_TempEntities_MergeFrom.

(** * [CSVCMsg_Sounds_sounddata_t] *)

(** Members by has-bit: [origin_x_] 0, [origin_y_] 1, [origin_z_] 2, [volume_] 3,
    [delay_value_] 4, [sequence_number_] 5, [entity_index_] 6, [channel_] 7, [pitch_] 8,
    [flags_] 9, [sound_num_] 10, [sound_num_handle_] 11, [speaker_entity_] 12,
    [random_seed_] 13, [sound_level_] 14, [is_sentence_] 15, [is_ambient_] 16. *)
Definition CSVCMsg_Sounds_sounddata_t_SharedCtor : message := mkmsg 0 [VInt 0; VInt 0; VInt
  0; VInt 0; VInt 0; VInt 0; VInt 0; VInt 0; VInt 0; VInt 0; VInt 0; VInt 0; VInt 0; VInt 0;
  VInt 0; VInt 0; VInt 0] [] 0.

Definition CSVCMsg_Sounds_sounddata_t_layout : list nat := [0; 1; 2; 3; 4; 5; 6; 7; 8; 9;
  10; 11; 12; 13; 14; 15; 16]%nat.

Definition CSVCMsg_Sounds_sounddata_t_Clear : list (option Z * list clear_step) :=
  [(Some 255, [CZero 0 7]);
   (Some 65280, [CZero 8 15]);
   (None, [CReset 16])].

Definition CSVCMsg_Sounds_sounddata_t_cases : list parse_case :=
  [ (* origin_x *) mkcase 1 8 0 TYPE_SINT32 false [(16, 2)] false;
   (* origin_y *) mkcase 2 16 1 TYPE_SINT32 false [(24, 3)] false;
   (* origin_z *) mkcase 3 24 2 TYPE_SINT32 false [(32, 4)] false;
   (* volume *) mkcase 4 32 3 TYPE_UINT32 false [(45, 5)] false;
   (* delay_value *) mkcase 5 45 4 TYPE_FLOAT false [(48, 6)] false;
   (* sequence_number *) mkcase 6 48 5 TYPE_INT32 false [(56, 7)] false;
   (* entity_index *) mkcase 7 56 6 TYPE_INT32 false [(64, 8)] false;
   (* channel *) mkcase 8 64 7 TYPE_INT32 false [(72, 9)] false;
   (* pitch *) mkcase 9 72 8 TYPE_INT32 false [(80, 10)] false;
   (* flags *) mkcase 10 80 9 TYPE_INT32 false [(88, 11)] false;
   (* sound_num *) mkcase 11 88 10 TYPE_UINT32 false [(101, 12)] false;
   (* sound_num_handle *) mkcase 12 101 11 TYPE_FIXED32 false [(104, 13)] false;
   (* speaker_entity *) mkcase 13 104 12 TYPE_INT32 false [(112, 14)] false;
   (* random_seed *) mkcase 14 112 13 TYPE_INT32 false [(120, 15)] false;
   (* sound_level *) mkcase 15 120 14 TYPE_INT32 false [(128, 16)] false;
   (* is_sentence *) mkcase 16 128 15 TYPE_BOOL false [(136, 17)] false;
   (* is_ambient *) mkcase 17 136 16 TYPE_BOOL false [] true].

Definition CSVCMsg_Sounds_sounddata_t_writes : list field_write :=
  [ (* origin_x *) mkwrite 1 0 TYPE_SINT32 false;
   (* origin_y *) mkwrite 2 1 TYPE_SINT32 false;
   (* origin_z *) mkwrite 3 2 TYPE_SINT32 false;
   (* volume *) mkwrite 4 3 TYPE_UINT32 false;
   (* delay_value *) mkwrite 5 4 TYPE_FLOAT false;
   (* sequence_number *) mkwrite 6 5 TYPE_INT32 false;
   (* entity_index *) mkwrite 7 6 TYPE_INT32 false;
   (* channel *) mkwrite 8 7 TYPE_INT32 false;
   (* pitch *) mkwrite 9 8 TYPE_INT32 false;
   (* flags *) mkwrite 10 9 TYPE_INT32 false;
   (* sound_num *) mkwrite 11 10 TYPE_UINT32 false;
   (* sound_num_handle *) mkwrite 12 11 TYPE_FIXED32 false;
   (* speaker_entity *) mkwrite 13 12 TYPE_INT32 false;
   (* random_seed *) mkwrite 14 13 TYPE_INT32 false;
   (* sound_level *) mkwrite 15 14 TYPE_INT32 false;
   (* is_sentence *) mkwrite 16 15 TYPE_BOOL false;
   (* is_ambient *) mkwrite 17 16 TYPE_BOOL false].

Definition CSVCMsg_Sounds_sounddata_t_sizes : list size_step :=
  [SGroup 255
     [mksize 0 1 SSInt32;
      mksize 1 1 SSInt32;
      mksize 2 1 SSInt32;
      mksize 3 1 SUInt32;
      mksize 4 1 (SFixed 4);
      mksize 5 1 SInt32;
      mksize 6 1 SInt32;
      mksize 7 1 SInt32];
   SGroup 65280
     [mksize 8 1 SInt32;
      mksize 9 1 SInt32;
      mksize 10 1 SUInt32;
      mksize 11 1 (SFixed 4);
      mksize 12 1 SInt32;
      mksize 13 1 SInt32;
      mksize 14 1 SInt32;
      mksize 15 2 (SFixed 1)];
   SAlone 16 2 (SFixed 1)].

Definition CSVCMsg_Sounds_sounddata_t_MergeFrom : list merge_step :=
  [MGroup (Z.shiftl 0xff 0) [0; 1; 2; 3; 4; 5; 6; 7]%nat;
   MGroup (Z.shiftl 0xff 8) [8; 9; 10; 11; 12; 13; 14; 15]%nat;
   MGroup (Z.shiftl 0xff 16) [16]%nat].

Definition CSVCMsg_Sounds_sounddata_t : message_class :=
  mkclass CSVCMsg_Sounds_sounddata_t_SharedCtor CSVCMsg_Sounds_sounddata_t_layout
    CSVCMsg_Sounds_sounddata_t_Clear 16383 CSVCMsg_Sounds_sounddata_t_cases
    CSVCMsg_Sounds_sounddata_t_writes CSVCMsg_Sounds_sounddata_t_sizes
    CSVCMsg_Sounds_sounddata_t_MergeFrom.

(** * All of them *)

Definition net_classes : list message_class :=
  [CMsgVector; CMsgVector2D; CMsgQAngle; CMsgRGBA; CNETMsg_StringCmd; CMsg_CVars_CVar;
   CNETMsg_NOP; CNETMsg_Disconnect; CNETMsg_File; CSVCMsg_ClassInfo_class_t;
   CSVCMsg_SendTable_sendprop_t; CSVCMsg_Print; CSVCMsg_SetPause; CSVCMsg_SetView;
   CSVCMsg_CreateStringTable; CSVCMsg_UpdateStringTable; CSVCMsg_VoiceInit;
   CSVCMsg_VoiceData; CSVCMsg_Prefetch; CSVCMsg_GetCvarValue; CSVCMsg_Menu;
   CSVCMsg_UserMessage; CSVCMsg_GameEvent_key_t; CSVCMsg_GameEventList_key_t;
   CSVCMsg_TempEntities; CSVCMsg_Sounds_sounddata_t].
