(* ===== verification/UserClasses.v ===== *)
(** The tables of the message classes of src/generated_proto/cstrike15_usermessages_public.pb.cc
    whose fields are numbers and strings, as in [NetMessages]. *)

From S2P Require Import Prelude CMem Coded Wire Messages.

(** * [CCSUsrMsg_VGUIMenu_Subkey] *)

(** Members by has-bit: [name_] 0, [str_] 1. *)
Definition CCSUsrMsg_VGUIMenu_Subkey_SharedCtor : message := mkmsg 0 [VStr []; VStr []] []
  0.

Definition CCSUsrMsg_VGUIMenu_Subkey_layout : list nat := [0; 1]%nat.

Definition CCSUsrMsg_VGUIMenu_Subkey_Clear : list (option Z * list clear_step) :=
  [(Some 3, [CString 0; CString 1])].

Definition CCSUsrMsg_VGUIMenu_Subkey_cases : list parse_case :=
  [ (* name *) mkcase 1 10 0 TYPE_STRING false [(18, 2)] false;
   (* str *) mkcase 2 18 1 TYPE_STRING false [] true].

Definition CCSUsrMsg_VGUIMenu_Subkey_writes : list field_write :=
  [ (* name *) mkwrite 1 0 TYPE_STRING false;
   (* str *) mkwrite 2 1 TYPE_STRING false].

Definition CCSUsrMsg_VGUIMenu_Subkey_sizes : list size_step :=
  [SGroup 3
     [mksize 0 1 SString;
      mksize 1 1 SString]].

Definition CCSUsrMsg_VGUIMenu_Subkey_MergeFrom : list merge_step :=
  [MGroup (Z.shiftl 0xff 0) [0; 1]%nat].

Definition CCSUsrMsg_VGUIMenu_Subkey : message_class :=
  mkclass CCSUsrMsg_VGUIMenu_Subkey_SharedCtor CCSUsrMsg_VGUIMenu_Subkey_layout
    CCSUsrMsg_VGUIMenu_Subkey_Clear 127 CCSUsrMsg_VGUIMenu_Subkey_cases
    CCSUsrMsg_VGUIMenu_Subkey_writes CCSUsrMsg_VGUIMenu_Subkey_sizes
    CCSUsrMsg_VGUIMenu_Subkey_MergeFrom.

(** * [CCSUsrMsg_Geiger] *)

(** Members by has-bit: [range_] 0. *)
Definition CCSUsrMsg_Geiger_SharedCtor : message := mkmsg 0 [VInt 0] [] 0.

Definition CCSUsrMsg_Geiger_layout : list nat := [0]%nat.

Definition CCSUsrMsg_Geiger_Clear : list (option Z * list clear_step) :=
  [(None, [CReset 0])].

Definition CCSUsrMsg_Geiger_cases : list parse_case :=
  [ (* range *) mkcase 1 8 0 TYPE_INT32 false [] true].

Definition CCSUsrMsg_Geiger_writes : list field_write :=
  [ (* range *) mkwrite 1 0 TYPE_INT32 false].

Definition CCSUsrMsg_Geiger_sizes : list size_step :=
  [SAlone 0 1 SInt32].

Definition CCSUsrMsg_Geiger_MergeFrom : list merge_step :=
  [MGroup (Z.shiftl 0xff 0) [0]%nat].

Definition CCSUsrMsg_Geiger : message_class :=
  mkclass CCSUsrMsg_Geiger_SharedCtor CCSUsrMsg_Geiger_layout CCSUsrMsg_Geiger_Clear 127
    CCSUsrMsg_Geiger_cases CCSUsrMsg_Geiger_writes CCSUsrMsg_Geiger_sizes
    CCSUsrMsg_Geiger_MergeFrom.

(** * [CCSUsrMsg_Train] *)

(** Members by has-bit: [train_] 0. *)
Definition CCSUsrMsg_Train_SharedCtor : message := mkmsg 0 [VInt 0] [] 0.

Definition CCSUsrMsg_Train_layout : list nat := [0]%nat.

Definition CCSUsrMsg_Train_Clear : list (option Z * list clear_step) :=
  [(None, [CReset 0])].

Definition CCSUsrMsg_Train_cases : list parse_case :=
  [ (* train *) mkcase 1 8 0 TYPE_INT32 false [] true].

Definition CCSUsrMsg_Train_writes : list field_write :=
  [ (* train *) mkwrite 1 0 TYPE_INT32 false].

Definition CCSUsrMsg_Train_sizes : list size_step :=
  [SAlone 0 1 SInt32].

Definition CCSUsrMsg_Train_MergeFrom : list merge_step :=
  [MGroup (Z.shiftl 0xff 0) [0]%nat].

Definition CCSUsrMsg_Train : message_class :=
  mkclass CCSUsrMsg_Train_SharedCtor CCSUsrMsg_Train_layout CCSUsrMsg_Train_Clear 127
    CCSUsrMsg_Train_cases CCSUsrMsg_Train_writes CCSUsrMsg_Train_sizes
    CCSUsrMsg_Train_MergeFrom.

(** * [CCSUsrMsg_HudText] *)

(** Members by has-bit: [text_] 0. *)
Definition CCSUsrMsg_HudText_SharedCtor : message := mkmsg 0 [VStr []] [] 0.

Definition CCSUsrMsg_HudText_layout : list nat := [0]%nat.

Definition CCSUsrMsg_HudText_Clear : list (option Z * list clear_step) :=
  [(None, [CString 0])].

Definition CCSUsrMsg_HudText_cases : list parse_case :=
  [ (* text *) mkcase 1 10 0 TYPE_STRING false [] true].

Definition CCSUsrMsg_HudText_writes : list field_write :=
  [ (* text *) mkwrite 1 0 TYPE_STRING false].

Definition CCSUsrMsg_HudText_sizes : list size_step :=
  [SAlone 0 1 SString].

Definition CCSUsrMsg_HudText_MergeFrom : list merge_step :=
  [MGroup (Z.shiftl 0xff 0) [0]%nat].

Definition CCSUsrMsg_HudText : message_class :=
  mkclass CCSUsrMsg_HudText_SharedCtor CCSUsrMsg_HudText_layout CCSUsrMsg_HudText_Clear 127
    CCSUsrMsg_HudText_cases CCSUsrMsg_HudText_writes CCSUsrMsg_HudText_sizes
    CCSUsrMsg_HudText_MergeFrom.

(** * [CCSUsrMsg_SayText] *)

(** Members by has-bit: [ent_idx_] 0, [text_] 1, [chat_] 2, [textallchat_] 3. *)
Definition CCSUsrMsg_SayText_SharedCtor : message := mkmsg 0 [VInt 0; VStr []; VInt 0; VInt
  0] [] 0.

Definition CCSUsrMsg_SayText_layout : list nat := [1; 0; 2; 3]%nat.

Definition CCSUsrMsg_SayText_Clear : list (option Z * list clear_step) :=
  [(Some 15, [CZero 0 3; CString 1])].

Definition CCSUsrMsg_SayText_cases : list parse_case :=
  [ (* ent_idx *) mkcase 1 8 0 TYPE_INT32 false [(18, 2)] false;
   (* text *) mkcase 2 18 1 TYPE_STRING false [(24, 3)] false;
   (* chat *) mkcase 3 24 2 TYPE_BOOL false [(32, 4)] false;
   (* textallchat *) mkcase 4 32 3 TYPE_BOOL false [] true].

Definition CCSUsrMsg_SayText_writes : list field_write :=
  [ (* ent_idx *) mkwrite 1 0 TYPE_INT32 false;
   (* text *) mkwrite 2 1 TYPE_STRING false;
   (* chat *) mkwrite 3 2 TYPE_BOOL false;
   (* textallchat *) mkwrite 4 3 TYPE_BOOL false].

Definition CCSUsrMsg_SayText_sizes : list size_step :=
  [SGroup 15
     [mksize 0 1 SInt32;
      mksize 1 1 SString;
      mksize 2 1 (SFixed 1);
      mksize 3 1 (SFixed 1)]].

Definition CCSUsrMsg_SayText_MergeFrom : list merge_step :=
  [MGroup (Z.shiftl 0xff 0) [0; 1; 2; 3]%nat].

Definition CCSUsrMsg_SayText : message_class :=
  mkclass CCSUsrMsg_SayText_SharedCtor CCSUsrMsg_SayText_layout CCSUsrMsg_SayText_Clear 127
    CCSUsrMsg_SayText_cases CCSUsrMsg_SayText_writes CCSUsrMsg_SayText_sizes
    CCSUsrMsg_SayText_MergeFrom.

(** * [CCSUsrMsg_SayText2] *)

(** Members by has-bit: [ent_idx_] 0, [chat_] 1, [msg_name_] 2, [params_] 3,
    [textallchat_] 4. *)
Definition CCSUsrMsg_SayText2_SharedCtor : message := mkmsg 0 [VInt 0; VInt 0; VStr []; VRep
  []; VInt 0] [] 0.

Definition CCSUsrMsg_SayText2_layout : list nat := [0; 1; 4; 2; 3]%nat.

Definition CCSUsrMsg_SayText2_Clear : list (option Z * list clear_step) :=
  [(Some 23, [CZero 0 4; CString 2]);
   (None, [CRepeated 3])].

Definition CCSUsrMsg_SayText2_cases : list parse_case :=
  [ (* ent_idx *) mkcase 1 8 0 TYPE_INT32 false [(16, 2)] false;
   (* chat *) mkcase 2 16 1 TYPE_BOOL false [(26, 3)] false;
   (* msg_name *) mkcase 3 26 2 TYPE_STRING false [(34, 4)] false;
   (* params *) mkcase 4 34 3 TYPE_STRING true [(34, 4); (40, 5)] false;
   (* textallchat *) mkcase 5 40 4 TYPE_BOOL false [] true].

Definition CCSUsrMsg_SayText2_writes : list field_write :=
  [ (* ent_idx *) mkwrite 1 0 TYPE_INT32 false;
   (* chat *) mkwrite 2 1 TYPE_BOOL false;
   (* msg_name *) mkwrite 3 2 TYPE_STRING false;
   (* params *) mkwrite 4 3 TYPE_STRING true;
   (* textallchat *) mkwrite 5 4 TYPE_BOOL false].

Definition CCSUsrMsg_SayText2_sizes : list size_step :=
  [SGroup 23
     [mksize 0 1 SInt32;
      mksize 1 1 (SFixed 1);
      mksize 2 1 SString;
      mksize 4 1 (SFixed 1)];
   SRepeated 3 1].

Definition CCSUsrMsg_SayText2_MergeFrom : list merge_step :=
  [MRepeated 3;
   MGroup (Z.shiftl 0xff 0) [0; 1; 2; 4]%nat].

Definition CCSUsrMsg_SayText2 : message_class :=
  mkclass CCSUsrMsg_SayText2_SharedCtor CCSUsrMsg_SayText2_layout CCSUsrMsg_SayText2_Clear
    127 CCSUsrMsg_SayText2_cases CCSUsrMsg_SayText2_writes CCSUsrMsg_SayText2_sizes
    CCSUsrMsg_SayText2_MergeFrom.

(** * [CCSUsrMsg_TextMsg] *)

(** Members by has-bit: [msg_dst_] 0, [params_] 1. *)
Definition CCSUsrMsg_TextMsg_SharedCtor : message := mkmsg 0 [VInt 0; VRep []] [] 0.

Definition CCSUsrMsg_TextMsg_layout : list nat := [1; 0]%nat.

Definition CCSUsrMsg_TextMsg_Clear : list (option Z * list clear_step) :=
  [(None, [CReset 0; CRepeated 1])].

Definition CCSUsrMsg_TextMsg_cases : list parse_case :=
  [ (* msg_dst *) mkcase 1 8 0 TYPE_INT32 false [(26, 3)] false;
   (* params *) mkcase 3 26 1 TYPE_STRING true [(26, 3)] true].

Definition CCSUsrMsg_TextMsg_writes : list field_write :=
  [ (* msg_dst *) mkwrite 1 0 TYPE_INT32 false;
   (* params *) mkwrite 3 1 TYPE_STRING true].

Definition CCSUsrMsg_TextMsg_sizes : list size_step :=
  [SAlone 0 1 SInt32;
   SRepeated 1 1].

Definition CCSUsrMsg_TextMsg_MergeFrom : list merge_step :=
  [MRepeated 1;
   MGroup (Z.shiftl 0xff 0) [0]%nat].

Definition CCSUsrMsg_TextMsg : message_class :=
  mkclass CCSUsrMsg_TextMsg_SharedCtor CCSUsrMsg_TextMsg_layout CCSUsrMsg_TextMsg_Clear 127
    CCSUsrMsg_TextMsg_cases CCSUsrMsg_TextMsg_writes CCSUsrMsg_TextMsg_sizes
    CCSUsrMsg_TextMsg_MergeFrom.

(** * [CCSUsrMsg_Shake] *)

(** Members by has-bit: [command_] 0, [local_amplitude_] 1, [frequency_] 2, [duration_] 3.
    *)
Definition CCSUsrMsg_Shake_SharedCtor : message := mkmsg 0 [VInt 0; VInt 0; VInt 0; VInt 0]
  [] 0.

Definition CCSUsrMsg_Shake_layout : list nat := [0; 1; 2; 3]%nat.

Definition CCSUsrMsg_Shake_Clear : list (option Z * list clear_step) :=
  [(None, [CZero 0 3])].

Definition CCSUsrMsg_Shake_cases : list parse_case :=
  [ (* command *) mkcase 1 8 0 TYPE_INT32 false [(21, 2)] false;
   (* local_amplitude *) mkcase 2 21 1 TYPE_FLOAT false [(29, 3)] false;
   (* frequency *) mkcase 3 29 2 TYPE_FLOAT false [(37, 4)] false;
   (* duration *) mkcase 4 37 3 TYPE_FLOAT false [] true].

Definition CCSUsrMsg_Shake_writes : list field_write :=
  [ (* command *) mkwrite 1 0 TYPE_INT32 false;
   (* local_amplitude *) mkwrite 2 1 TYPE_FLOAT false;
   (* frequency *) mkwrite 3 2 TYPE_FLOAT false;
   (* duration *) mkwrite 4 3 TYPE_FLOAT false].

Definition CCSUsrMsg_Shake_sizes : list size_step :=
  [SGroup 15
     [mksize 0 1 SInt32;
      mksize 1 1 (SFixed 4);
      mksize 2 1 (SFixed 4);
      mksize 3 1 (SFixed 4)]].

Definition CCSUsrMsg_Shake_MergeFrom : list merge_step :=
  [MGroup (Z.shiftl 0xff 0) [0; 1; 2; 3]%nat].

Definition CCSUsrMsg_Shake : message_class :=
  mkclass CCSUsrMsg_Shake_SharedCtor CCSUsrMsg_Shake_layout CCSUsrMsg_Shake_Clear 127
    CCSUsrMsg_Shake_cases CCSUsrMsg_Shake_writes CCSUsrMsg_Shake_sizes
    CCSUsrMsg_Shake_MergeFrom.

(** * [CCSUsrMsg_Rumble] *)

(** Members by has-bit: [index_] 0, [data_] 1, [flags_] 2. *)
Definition CCSUsrMsg_Rumble_SharedCtor : message := mkmsg 0 [VInt 0; VInt 0; VInt 0] [] 0.

Definition CCSUsrMsg_Rumble_layout : list nat := [0; 1; 2]%nat.

Definition CCSUsrMsg_Rumble_Clear : list (option Z * list clear_step) :=
  [(None, [CZero 0 2])].

Definition CCSUsrMsg_Rumble_cases : list parse_case :=
  [ (* index *) mkcase 1 8 0 TYPE_INT32 false [(16, 2)] false;
   (* data *) mkcase 2 16 1 TYPE_INT32 false [(24, 3)] false;
   (* flags *) mkcase 3 24 2 TYPE_INT32 false [] true].

Definition CCSUsrMsg_Rumble_writes : list field_write :=
  [ (* index *) mkwrite 1 0 TYPE_INT32 false;
   (* data *) mkwrite 2 1 TYPE_INT32 false;
   (* flags *) mkwrite 3 2 TYPE_INT32 false].

Definition CCSUsrMsg_Rumble_sizes : list size_step :=
  [SGroup 7
     [mksize 0 1 SInt32;
      mksize 1 1 SInt32;
      mksize 2 1 SInt32]].

Definition CCSUsrMsg_Rumble_MergeFrom : list merge_step :=
  [MGroup (Z.shiftl 0xff 0) [0; 1; 2]%nat].

Definition CCSUsrMsg_Rumble : message_class :=
  mkclass CCSUsrMsg_Rumble_SharedCtor CCSUsrMsg_Rumble_layout CCSUsrMsg_Rumble_Clear 127
    CCSUsrMsg_Rumble_cases CCSUsrMsg_Rumble_writes CCSUsrMsg_Rumble_sizes
    CCSUsrMsg_Rumble_MergeFrom.

(** * [CCSUsrMsg_CloseCaption] *)

(** Members by has-bit: [hash_] 0, [duration_] 1, [from_player_] 2. *)
Definition CCSUsrMsg_CloseCaption_SharedCtor : message := mkmsg 0 [VInt 0; VInt 0; VInt 0]
  [] 0.

Definition CCSUsrMsg_CloseCaption_layout : list nat := [0; 1; 2]%nat.

Definition CCSUsrMsg_CloseCaption_Clear : list (option Z * list clear_step) :=
  [(None, [CZero 0 2])].

Definition CCSUsrMsg_CloseCaption_cases : list parse_case :=
  [ (* hash *) mkcase 1 8 0 TYPE_UINT32 false [(16, 2)] false;
   (* duration *) mkcase 2 16 1 TYPE_INT32 false [(24, 3)] false;
   (* from_player *) mkcase 3 24 2 TYPE_BOOL false [] true].

Definition CCSUsrMsg_CloseCaption_writes : list field_write :=
  [ (* hash *) mkwrite 1 0 TYPE_UINT32 false;
   (* duration *) mkwrite 2 1 TYPE_INT32 false;
   (* from_player *) mkwrite 3 2 TYPE_BOOL false].

Definition CCSUsrMsg_CloseCaption_sizes : list size_step :=
  [SGroup 7
     [mksize 0 1 SUInt32;
      mksize 1 1 SInt32;
      mksize 2 1 (SFixed 1)]].

Definition CCSUsrMsg_CloseCaption_MergeFrom : list merge_step :=
  [MGroup (Z.shiftl 0xff 0) [0; 1; 2]%nat].

Definition CCSUsrMsg_CloseCaption : message_class :=
  mkclass CCSUsrMsg_CloseCaption_SharedCtor CCSUsrMsg_CloseCaption_layout
    CCSUsrMsg_CloseCaption_Clear 127 CCSUsrMsg_CloseCaption_cases
    CCSUsrMsg_CloseCaption_writes CCSUsrMsg_CloseCaption_sizes
    CCSUsrMsg_CloseCaption_MergeFrom.

(** * [CCSUsrMsg_CloseCaptionDirect] *)

(** Members by has-bit: [hash_] 0, [duration_] 1, [from_player_] 2. *)
Definition CCSUsrMsg_CloseCaptionDirect_SharedCtor : message := mkmsg 0 [VInt 0; VInt 0;
  VInt 0] [] 0.

Definition CCSUsrMsg_CloseCaptionDirect_layout : list nat := [0; 1; 2]%nat.

Definition CCSUsrMsg_CloseCaptionDirect_Clear : list (option Z * list clear_step) :=
  [(None, [CZero 0 2])].

Definition CCSUsrMsg_CloseCaptionDirect_cases : list parse_case :=
  [ (* hash *) mkcase 1 8 0 TYPE_UINT32 false [(16, 2)] false;
   (* duration *) mkcase 2 16 1 TYPE_INT32 false [(24, 3)] false;
   (* from_player *) mkcase 3 24 2 TYPE_BOOL false [] true].

Definition CCSUsrMsg_CloseCaptionDirect_writes : list field_write :=
  [ (* hash *) mkwrite 1 0 TYPE_UINT32 false;
   (* duration *) mkwrite 2 1 TYPE_INT32 false;
   (* from_player *) mkwrite 3 2 TYPE_BOOL false].

Definition CCSUsrMsg_CloseCaptionDirect_sizes : list size_step :=
  [SGroup 7
     [mksize 0 1 SUInt32;
      mksize 1 1 SInt32;
      mksize 2 1 (SFixed 1)]].

Definition CCSUsrMsg_CloseCaptionDirect_MergeFrom : list merge_step :=
  [MGroup (Z.shiftl 0xff 0) [0; 1; 2]%nat].

Definition CCSUsrMsg_CloseCaptionDirect : message_class :=
  mkclass CCSUsrMsg_CloseCaptionDirect_SharedCtor CCSUsrMsg_CloseCaptionDirect_layout
    CCSUsrMsg_CloseCaptionDirect_Clear 127 CCSUsrMsg_CloseCaptionDirect_cases
    CCSUsrMsg_CloseCaptionDirect_writes CCSUsrMsg_CloseCaptionDirect_sizes
    CCSUsrMsg_CloseCaptionDirect_MergeFrom.

(** * [CCSUsrMsg_SendAudio] *)

(** Members by has-bit: [radio_sound_] 0. *)
Definition CCSUsrMsg_SendAudio_SharedCtor : message := mkmsg 0 [VStr []] [] 0.

Definition CCSUsrMsg_SendAudio_layout : list nat := [0]%nat.

Definition CCSUsrMsg_SendAudio_Clear : list (option Z * list clear_step) :=
  [(None, [CString 0])].

Definition CCSUsrMsg_SendAudio_cases : list parse_case :=
  [ (* radio_sound *) mkcase 1 10 0 TYPE_STRING false [] true].

Definition CCSUsrMsg_SendAudio_writes : list field_write :=
  [ (* radio_sound *) mkwrite 1 0 TYPE_STRING false].

Definition CCSUsrMsg_SendAudio_sizes : list size_step :=
  [SAlone 0 1 SString].

Definition CCSUsrMsg_SendAudio_MergeFrom : list merge_step :=
  [MGroup (Z.shiftl 0xff 0) [0]%nat].

Definition CCSUsrMsg_SendAudio : message_class :=
  mkclass CCSUsrMsg_SendAudio_SharedCtor CCSUsrMsg_SendAudio_layout
    CCSUsrMsg_SendAudio_Clear 127 CCSUsrMsg_SendAudio_cases CCSUsrMsg_SendAudio_writes
    CCSUsrMsg_SendAudio_sizes CCSUsrMsg_SendAudio_MergeFrom.

(** * [CCSUsrMsg_RawAudio] *)

(** Members by has-bit: [pitch_] 0, [entidx_] 1, [duration_] 2, [voice_filename_] 3. *)
Definition CCSUsrMsg_RawAudio_SharedCtor : message := mkmsg 0 [VInt 0; VInt 0; VInt 0; VStr
  []] [] 0.

Definition CCSUsrMsg_RawAudio_layout : list nat := [0; 1; 3; 2]%nat.

Definition CCSUsrMsg_RawAudio_Clear : list (option Z * list clear_step) :=
  [(Some 15, [CZero 0 1; CReset 2; CString 3])].

Definition CCSUsrMsg_RawAudio_cases : list parse_case :=
  [ (* pitch *) mkcase 1 8 0 TYPE_INT32 false [(16, 2)] false;
   (* entidx *) mkcase 2 16 1 TYPE_INT32 false [(29, 3)] false;
   (* duration *) mkcase 3 29 2 TYPE_FLOAT false [(34, 4)] false;
   (* voice_filename *) mkcase 4 34 3 TYPE_STRING false [] true].

Definition CCSUsrMsg_RawAudio_writes : list field_write :=
  [ (* pitch *) mkwrite 1 0 TYPE_INT32 false;
   (* entidx *) mkwrite 2 1 TYPE_INT32 false;
   (* duration *) mkwrite 3 2 TYPE_FLOAT false;
   (* voice_filename *) mkwrite 4 3 TYPE_STRING false].

Definition CCSUsrMsg_RawAudio_sizes : list size_step :=
  [SGroup 15
     [mksize 0 1 SInt32;
      mksize 1 1 SInt32;
      mksize 2 1 (SFixed 4);
      mksize 3 1 SString]].

Definition CCSUsrMsg_RawAudio_MergeFrom : list merge_step :=
  [MGroup (Z.shiftl 0xff 0) [0; 1; 2; 3]%nat].

Definition CCSUsrMsg_RawAudio : message_class :=
  mkclass CCSUsrMsg_RawAudio_SharedCtor CCSUsrMsg_RawAudio_layout CCSUsrMsg_RawAudio_Clear
    127 CCSUsrMsg_RawAudio_cases CCSUsrMsg_RawAudio_writes CCSUsrMsg_RawAudio_sizes
    CCSUsrMsg_RawAudio_MergeFrom.

(** * [CCSUsrMsg_VoiceMask_PlayerMask] *)

(** Members by has-bit: [game_rules_mask_] 0, [ban_masks_] 1. *)
Definition CCSUsrMsg_VoiceMask_PlayerMask_SharedCtor : message := mkmsg 0 [VInt 0; VInt 0]
  [] 0.

Definition CCSUsrMsg_VoiceMask_PlayerMask_layout : list nat := [0; 1]%nat.

Definition CCSUsrMsg_VoiceMask_PlayerMask_Clear : list (option Z * list clear_step) :=
  [(None, [CZero 0 1])].

Definition CCSUsrMsg_VoiceMask_PlayerMask_cases : list parse_case :=
  [ (* game_rules_mask *) mkcase 1 8 0 TYPE_INT32 false [(16, 2)] false;
   (* ban_masks *) mkcase 2 16 1 TYPE_INT32 false [] true].

Definition CCSUsrMsg_VoiceMask_PlayerMask_writes : list field_write :=
  [ (* game_rules_mask *) mkwrite 1 0 TYPE_INT32 false;
   (* ban_masks *) mkwrite 2 1 TYPE_INT32 false].

Definition CCSUsrMsg_VoiceMask_PlayerMask_sizes : list size_step :=
  [SGroup 3
     [mksize 0 1 SInt32;
      mksize 1 1 SInt32]].

Definition CCSUsrMsg_VoiceMask_PlayerMask_MergeFrom : list merge_step :=
  [MGroup (Z.shiftl 0xff 0) [0; 1]%nat].

Definition CCSUsrMsg_VoiceMask_PlayerMask : message_class :=
  mkclass CCSUsrMsg_VoiceMask_PlayerMask_SharedCtor CCSUsrMsg_VoiceMask_PlayerMask_layout
    CCSUsrMsg_VoiceMask_PlayerMask_Clear 127 CCSUsrMsg_VoiceMask_PlayerMask_cases
    CCSUsrMsg_VoiceMask_PlayerMask_writes CCSUsrMsg_VoiceMask_PlayerMask_sizes
    CCSUsrMsg_VoiceMask_PlayerMask_MergeFrom.

(** * [CCSUsrMsg_RadioText] *)

(** Members by has-bit: [msg_dst_] 0, [client_] 1, [msg_name_] 2, [params_] 3. *)
Definition CCSUsrMsg_RadioText_SharedCtor : message := mkmsg 0 [VInt 0; VInt 0; VStr [];
  VRep []] [] 0.

Definition CCSUsrMsg_RadioText_layout : list nat := [0; 1; 2; 3]%nat.

Definition CCSUsrMsg_RadioText_Clear : list (option Z * list clear_step) :=
  [(Some 7, [CZero 0 1; CString 2]);
   (None, [CRepeated 3])].

Definition CCSUsrMsg_RadioText_cases : list parse_case :=
  [ (* msg_dst *) mkcase 1 8 0 TYPE_INT32 false [(16, 2)] false;
   (* client *) mkcase 2 16 1 TYPE_INT32 false [(26, 3)] false;
   (* msg_name *) mkcase 3 26 2 TYPE_STRING false [(34, 4)] false;
   (* params *) mkcase 4 34 3 TYPE_STRING true [(34, 4)] true].

Definition CCSUsrMsg_RadioText_writes : list field_write :=
  [ (* msg_dst *) mkwrite 1 0 TYPE_INT32 false;
   (* client *) mkwrite 2 1 TYPE_INT32 false;
   (* msg_name *) mkwrite 3 2 TYPE_STRING false;
   (* params *) mkwrite 4 3 TYPE_STRING true].

Definition CCSUsrMsg_RadioText_sizes : list size_step :=
  [SGroup 7
     [mksize 0 1 SInt32;
      mksize 1 1 SInt32;
      mksize 2 1 SString];
   SRepeated 3 1].

Definition CCSUsrMsg_RadioText_MergeFrom : list merge_step :=
  [MRepeated 3;
   MGroup (Z.shiftl 0xff 0) [0; 1; 2]%nat].

Definition CCSUsrMsg_RadioText : message_class :=
  mkclass CCSUsrMsg_RadioText_SharedCtor CCSUsrMsg_RadioText_layout
    CCSUsrMsg_RadioText_Clear 127 CCSUsrMsg_RadioText_cases CCSUsrMsg_RadioText_writes
    CCSUsrMsg_RadioText_sizes CCSUsrMsg_RadioText_MergeFrom.

(** * [CCSUsrMsg_HintText] *)

(** Members by has-bit: [text_] 0. *)
Definition CCSUsrMsg_HintText_SharedCtor : message := mkmsg 0 [VStr []] [] 0.

Definition CCSUsrMsg_HintText_layout : list nat := [0]%nat.

Definition CCSUsrMsg_HintText_Clear : list (option Z * list clear_step) :=
  [(None, [CString 0])].

Definition CCSUsrMsg_HintText_cases : list parse_case :=
  [ (* text *) mkcase 1 10 0 TYPE_STRING false [] true].

Definition CCSUsrMsg_HintText_writes : list field_write :=
  [ (* text *) mkwrite 1 0 TYPE_STRING false].

Definition CCSUsrMsg_HintText_sizes : list size_step :=
  [SAlone 0 1 SString].

Definition CCSUsrMsg_HintText_MergeFrom : list merge_step :=
  [MGroup (Z.shiftl 0xff 0) [0]%nat].

Definition CCSUsrMsg_HintText : message_class :=
  mkclass CCSUsrMsg_HintText_SharedCtor CCSUsrMsg_HintText_layout CCSUsrMsg_HintText_Clear
    127 CCSUsrMsg_HintText_cases CCSUsrMsg_HintText_writes CCSUsrMsg_HintText_sizes
    CCSUsrMsg_HintText_MergeFrom.

(** * [CCSUsrMsg_KeyHintText] *)

(** Members by has-bit: [hints_] 0. *)
Definition CCSUsrMsg_KeyHintText_SharedCtor : message := mkmsg 0 [VRep []] [] 0.

Definition CCSUsrMsg_KeyHintText_layout : list nat := [0]%nat.

Definition CCSUsrMsg_KeyHintText_Clear : list (option Z * list clear_step) :=
  [(None, [CRepeated 0])].

Definition CCSUsrMsg_KeyHintText_cases : list parse_case :=
  [ (* hints *) mkcase 1 10 0 TYPE_STRING true [(10, 1)] true].

Definition CCSUsrMsg_KeyHintText_writes : list field_write :=
  [ (* hints *) mkwrite 1 0 TYPE_STRING true].

Definition CCSUsrMsg_KeyHintText_sizes : list size_step :=
  [SRepeated 0 1].

Definition CCSUsrMsg_KeyHintText_MergeFrom : list merge_step :=
  [MRepeated 0].

Definition CCSUsrMsg_KeyHintText : message_class :=
  mkclass CCSUsrMsg_KeyHintText_SharedCtor CCSUsrMsg_KeyHintText_layout
    CCSUsrMsg_KeyHintText_Clear 127 CCSUsrMsg_KeyHintText_cases CCSUsrMsg_KeyHintText_writes
    CCSUsrMsg_KeyHintText_sizes CCSUsrMsg_KeyHintText_MergeFrom.

(** * [CCSUsrMsg_ProcessSpottedEntityUpdate_SpottedEntityUpdate] *)

(** Members by has-bit: [entity_idx_] 0, [class_id_] 1, [origin_x_] 2, [origin_y_] 3,
    [origin_z_] 4, [angle_y_] 5, [defuser_] 6, [player_has_defuser_] 7, [player_has_c4_]
    8. *)
Definition CCSUsrMsg_ProcessSpottedEntityUpdate_SpottedEntityUpdate_SharedCtor : message :=
  mkmsg 0 [VInt 0; VInt 0; VInt 0; VInt 0; VInt 0; VInt 0; VInt 0; VInt 0; VInt 0] [] 0.

Definition CCSUsrMsg_ProcessSpottedEntityUpdate_SpottedEntityUpdate_layout : list nat := [0;
  1; 2; 3; 4; 5; 6; 7; 8]%nat.

Definition CCSUsrMsg_ProcessSpottedEntityUpdate_SpottedEntityUpdate_Clear
    : list (option Z * list clear_step) :=
  [(Some 255, [CZero 0 7]);
   (None, [CReset 8])].

Definition CCSUsrMsg_ProcessSpottedEntityUpdate_SpottedEntityUpdate_cases : list parse_case :=
  [ (* entity_idx *) mkcase 1 8 0 TYPE_INT32 false [(16, 2)] false;
   (* class_id *) mkcase 2 16 1 TYPE_INT32 false [(24, 3)] false;
   (* origin_x *) mkcase 3 24 2 TYPE_INT32 false [(32, 4)] false;
   (* origin_y *) mkcase 4 32 3 TYPE_INT32 false [(40, 5)] false;
   (* origin_z *) mkcase 5 40 4 TYPE_INT32 false [(48, 6)] false;
   (* angle_y *) mkcase 6 48 5 TYPE_INT32 false [(56, 7)] false;
   (* defuser *) mkcase 7 56 6 TYPE_BOOL false [(64, 8)] false;
   (* player_has_defuser *) mkcase 8 64 7 TYPE_BOOL false [(72, 9)] false;
   (* player_has_c4 *) mkcase 9 72 8 TYPE_BOOL false [] true].

Definition CCSUsrMsg_ProcessSpottedEntityUpdate_SpottedEntityUpdate_writes : list field_write :=
  [ (* entity_idx *) mkwrite 1 0 TYPE_INT32 false;
   (* class_id *) mkwrite 2 1 TYPE_INT32 false;
   (* origin_x *) mkwrite 3 2 TYPE_INT32 false;
   (* origin_y *) mkwrite 4 3 TYPE_INT32 false;
   (* origin_z *) mkwrite 5 4 TYPE_INT32 false;
   (* angle_y *) mkwrite 6 5 TYPE_INT32 false;
   (* defuser *) mkwrite 7 6 TYPE_BOOL false;
   (* player_has_defuser *) mkwrite 8 7 TYPE_BOOL false;
   (* player_has_c4 *) mkwrite 9 8 TYPE_BOOL false].

Definition CCSUsrMsg_ProcessSpottedEntityUpdate_SpottedEntityUpdate_sizes : list size_step :=
  [SGroup 255
     [mksize 0 1 SInt32;
      mksize 1 1 SInt32;
      mksize 2 1 SInt32;
      mksize 3 1 SInt32;
      mksize 4 1 SInt32;
      mksize 5 1 SInt32;
      mksize 6 1 (SFixed 1);
      mksize 7 1 (SFixed 1)];
   SAlone 8 1 (SFixed 1)].

Definition CCSUsrMsg_ProcessSpottedEntityUpdate_SpottedEntityUpdate_MergeFrom : list merge_step :=
  [MGroup (Z.shiftl 0xff 0) [0; 1; 2; 3; 4; 5; 6; 7]%nat;
   MGroup (Z.shiftl 0xff 8) [8]%nat].

Definition CCSUsrMsg_ProcessSpottedEntityUpdate_SpottedEntityUpdate : message_class :=
  mkclass CCSUsrMsg_ProcessSpottedEntityUpdate_SpottedEntityUpdate_SharedCtor
    CCSUsrMsg_ProcessSpottedEntityUpdate_SpottedEntityUpdate_layout
    CCSUsrMsg_ProcessSpottedEntityUpdate_SpottedEntityUpdate_Clear 127
    CCSUsrMsg_ProcessSpottedEntityUpdate_SpottedEntityUpdate_cases
    CCSUsrMsg_ProcessSpottedEntityUpdate_SpottedEntityUpdate_writes
    CCSUsrMsg_ProcessSpottedEntityUpdate_SpottedEntityUpdate_sizes
    CCSUsrMsg_ProcessSpottedEntityUpdate_SpottedEntityUpdate_MergeFrom.

(** * [CCSUsrMsg_ReloadEffect] *)

(** Members by has-bit: [entidx_] 0, [actanim_] 1. *)
Definition CCSUsrMsg_ReloadEffect_SharedCtor : message := mkmsg 0 [VInt 0; VInt 0] [] 0.

Definition CCSUsrMsg_ReloadEffect_layout : list nat := [0; 1]%nat.

Definition CCSUsrMsg_ReloadEffect_Clear : list (option Z * list clear_step) :=
  [(None, [CZero 0 1])].

Definition CCSUsrMsg_ReloadEffect_cases : list parse_case :=
  [ (* entidx *) mkcase 1 8 0 TYPE_INT32 false [(16, 2)] false;
   (* actanim *) mkcase 2 16 1 TYPE_INT32 false [] true].

Definition CCSUsrMsg_ReloadEffect_writes : list field_write :=
  [ (* entidx *) mkwrite 1 0 TYPE_INT32 false;
   (* actanim *) mkwrite 2 1 TYPE_INT32 false].

Definition CCSUsrMsg_ReloadEffect_sizes : list size_step :=
  [SGroup 3
     [mksize 0 1 SInt32;
      mksize 1 1 SInt32]].

Definition CCSUsrMsg_ReloadEffect_MergeFrom : list merge_step :=
  [MGroup (Z.shiftl 0xff 0) [0; 1]%nat].

Definition CCSUsrMsg_ReloadEffect : message_class :=
  mkclass CCSUsrMsg_ReloadEffect_SharedCtor CCSUsrMsg_ReloadEffect_layout
    CCSUsrMsg_ReloadEffect_Clear 127 CCSUsrMsg_ReloadEffect_cases
    CCSUsrMsg_ReloadEffect_writes CCSUsrMsg_ReloadEffect_sizes
    CCSUsrMsg_ReloadEffect_MergeFrom.

(** * [CCSUsrMsg_AdjustMoney] *)

(** Members by has-bit: [amount_] 0. *)
Definition CCSUsrMsg_AdjustMoney_SharedCtor : message := mkmsg 0 [VInt 0] [] 0.

Definition CCSUsrMsg_AdjustMoney_layout : list nat := [0]%nat.

Definition CCSUsrMsg_AdjustMoney_Clear : list (option Z * list clear_step) :=
  [(None, [CReset 0])].

Definition CCSUsrMsg_AdjustMoney_cases : list parse_case :=
  [ (* amount *) mkcase 1 8 0 TYPE_INT32 false [] true].

Definition CCSUsrMsg_AdjustMoney_writes : list field_write :=
  [ (* amount *) mkwrite 1 0 TYPE_INT32 false].

Definition CCSUsrMsg_AdjustMoney_sizes : list size_step :=
  [SAlone 0 1 SInt32].

Definition CCSUsrMsg_AdjustMoney_MergeFrom : list merge_step :=
  [MGroup (Z.shiftl 0xff 0) [0]%nat].

Definition CCSUsrMsg_AdjustMoney : message_class :=
  mkclass CCSUsrMsg_AdjustMoney_SharedCtor CCSUsrMsg_AdjustMoney_layout
    CCSUsrMsg_AdjustMoney_Clear 127 CCSUsrMsg_AdjustMoney_cases CCSUsrMsg_AdjustMoney_writes
    CCSUsrMsg_AdjustMoney_sizes CCSUsrMsg_AdjustMoney_MergeFrom.

(** * [CCSUsrMsg_KillCam] *)

(** Members by has-bit: [obs_mode_] 0, [first_target_] 1, [second_target_] 2. *)
Definition CCSUsrMsg_KillCam_SharedCtor : message := mkmsg 0 [VInt 0; VInt 0; VInt 0] [] 0.

Definition CCSUsrMsg_KillCam_layout : list nat := [0; 1; 2]%nat.

Definition CCSUsrMsg_KillCam_Clear : list (option Z * list clear_step) :=
  [(None, [CZero 0 2])].

Definition CCSUsrMsg_KillCam_cases : list parse_case :=
  [ (* obs_mode *) mkcase 1 8 0 TYPE_INT32 false [(16, 2)] false;
   (* first_target *) mkcase 2 16 1 TYPE_INT32 false [(24, 3)] false;
   (* second_target *) mkcase 3 24 2 TYPE_INT32 false [] true].

Definition CCSUsrMsg_KillCam_writes : list field_write :=
  [ (* obs_mode *) mkwrite 1 0 TYPE_INT32 false;
   (* first_target *) mkwrite 2 1 TYPE_INT32 false;
   (* second_target *) mkwrite 3 2 TYPE_INT32 false].

Definition CCSUsrMsg_KillCam_sizes : list size_step :=
  [SGroup 7
     [mksize 0 1 SInt32;
      mksize 1 1 SInt32;
      mksize 2 1 SInt32]].

Definition CCSUsrMsg_KillCam_MergeFrom : list merge_step :=
  [MGroup (Z.shiftl 0xff 0) [0; 1; 2]%nat].

Definition CCSUsrMsg_KillCam : message_class :=
  mkclass CCSUsrMsg_KillCam_SharedCtor CCSUsrMsg_KillCam_layout CCSUsrMsg_KillCam_Clear 127
    CCSUsrMsg_KillCam_cases CCSUsrMsg_KillCam_writes CCSUsrMsg_KillCam_sizes
    CCSUsrMsg_KillCam_MergeFrom.

(** * [CCSUsrMsg_DesiredTimescale] *)

(** Members by has-bit: [desired_timescale_] 0, [duration_realtime_sec_] 1,
    [interpolator_type_] 2, [start_blend_time_] 3. *)
Definition CCSUsrMsg_DesiredTimescale_SharedCtor : message := mkmsg 0 [VInt 0; VInt 0; VInt
  0; VInt 0] [] 0.

Definition CCSUsrMsg_DesiredTimescale_layout : list nat := [0; 1; 2; 3]%nat.

Definition CCSUsrMsg_DesiredTimescale_Clear : list (option Z * list clear_step) :=
  [(None, [CZero 0 3])].

Definition CCSUsrMsg_DesiredTimescale_cases : list parse_case :=
  [ (* desired_timescale *) mkcase 1 13 0 TYPE_FLOAT false [(21, 2)] false;
   (* duration_realtime_sec *) mkcase 2 21 1 TYPE_FLOAT false [(24, 3)] false;
   (* interpolator_type *) mkcase 3 24 2 TYPE_INT32 false [(37, 4)] false;
   (* start_blend_time *) mkcase 4 37 3 TYPE_FLOAT false [] true].

Definition CCSUsrMsg_DesiredTimescale_writes : list field_write :=
  [ (* desired_timescale *) mkwrite 1 0 TYPE_FLOAT false;
   (* duration_realtime_sec *) mkwrite 2 1 TYPE_FLOAT false;
   (* interpolator_type *) mkwrite 3 2 TYPE_INT32 false;
   (* start_blend_time *) mkwrite 4 3 TYPE_FLOAT false].

Definition CCSUsrMsg_DesiredTimescale_sizes : list size_step :=
  [SGroup 15
     [mksize 0 1 (SFixed 4);
      mksize 1 1 (SFixed 4);
      mksize 2 1 SInt32;
      mksize 3 1 (SFixed 4)]].

Definition CCSUsrMsg_DesiredTimescale_MergeFrom : list merge_step :=
  [MGroup (Z.shiftl 0xff 0) [0; 1; 2; 3]%nat].

Definition CCSUsrMsg_DesiredTimescale : message_class :=
  mkclass CCSUsrMsg_DesiredTimescale_SharedCtor CCSUsrMsg_DesiredTimescale_layout
    CCSUsrMsg_DesiredTimescale_Clear 127 CCSUsrMsg_DesiredTimescale_cases
    CCSUsrMsg_DesiredTimescale_writes CCSUsrMsg_DesiredTimescale_sizes
    CCSUsrMsg_DesiredTimescale_MergeFrom.

(** * [CCSUsrMsg_CurrentTimescale] *)

(** Members by has-bit: [cur_timescale_] 0. *)
Definition CCSUsrMsg_CurrentTimescale_SharedCtor : message := mkmsg 0 [VInt 0] [] 0.

Definition CCSUsrMsg_CurrentTimescale_layout : list nat := [0]%nat.

Definition CCSUsrMsg_CurrentTimescale_Clear : list (option Z * list clear_step) :=
  [(None, [CReset 0])].

Definition CCSUsrMsg_CurrentTimescale_cases : list parse_case :=
  [ (* cur_timescale *) mkcase 1 13 0 TYPE_FLOAT false [] true].

Definition CCSUsrMsg_CurrentTimescale_writes : list field_write :=
  [ (* cur_timescale *) mkwrite 1 0 TYPE_FLOAT false].

Definition CCSUsrMsg_CurrentTimescale_sizes : list size_step :=
  [SAlone 0 1 (SFixed 4)].

Definition CCSUsrMsg_CurrentTimescale_MergeFrom : list merge_step :=
  [MGroup (Z.shiftl 0xff 0) [0]%nat].

Definition CCSUsrMsg_CurrentTimescale : message_class :=
  mkclass CCSUsrMsg_CurrentTimescale_SharedCtor CCSUsrMsg_CurrentTimescale_layout
    CCSUsrMsg_CurrentTimescale_Clear 127 CCSUsrMsg_CurrentTimescale_cases
    CCSUsrMsg_CurrentTimescale_writes CCSUsrMsg_CurrentTimescale_sizes
    CCSUsrMsg_CurrentTimescale_MergeFrom.

(** * [CCSUsrMsg_AchievementEvent] *)

(** Members by has-bit: [achievement_] 0, [count_] 1, [user_id_] 2. *)
Definition CCSUsrMsg_AchievementEvent_SharedCtor : message := mkmsg 0 [VInt 0; VInt 0; VInt
  0] [] 0.

Definition CCSUsrMsg_AchievementEvent_layout : list nat := [0; 1; 2]%nat.

Definition CCSUsrMsg_AchievementEvent_Clear : list (option Z * list clear_step) :=
  [(None, [CZero 0 2])].

Definition CCSUsrMsg_AchievementEvent_cases : list parse_case :=
  [ (* achievement *) mkcase 1 8 0 TYPE_INT32 false [(16, 2)] false;
   (* count *) mkcase 2 16 1 TYPE_INT32 false [(24, 3)] false;
   (* user_id *) mkcase 3 24 2 TYPE_INT32 false [] true].

Definition CCSUsrMsg_AchievementEvent_writes : list field_write :=
  [ (* achievement *) mkwrite 1 0 TYPE_INT32 false;
   (* count *) mkwrite 2 1 TYPE_INT32 false;
   (* user_id *) mkwrite 3 2 TYPE_INT32 false].

Definition CCSUsrMsg_AchievementEvent_sizes : list size_step :=
  [SGroup 7
     [mksize 0 1 SInt32;
      mksize 1 1 SInt32;
      mksize 2 1 SInt32]].

Definition CCSUsrMsg_AchievementEvent_MergeFrom : list merge_step :=
  [MGroup (Z.shiftl 0xff 0) [0; 1; 2]%nat].

Definition CCSUsrMsg_AchievementEvent : message_class :=
  mkclass CCSUsrMsg_AchievementEvent_SharedCtor CCSUsrMsg_AchievementEvent_layout
    CCSUsrMsg_AchievementEvent_Clear 127 CCSUsrMsg_AchievementEvent_cases
    CCSUsrMsg_AchievementEvent_writes CCSUsrMsg_AchievementEvent_sizes
    CCSUsrMsg_AchievementEvent_MergeFrom.

(** * [CCSUsrMsg_MatchEndConditions] *)

(** Members by has-bit: [fraglimit_] 0, [mp_maxrounds_] 1, [mp_winlimit_] 2,
    [mp_timelimit_] 3. *)
Definition CCSUsrMsg_MatchEndConditions_SharedCtor : message := mkmsg 0 [VInt 0; VInt 0;
  VInt 0; VInt 0] [] 0.

Definition CCSUsrMsg_MatchEndConditions_layout : list nat := [0; 1; 2; 3]%nat.

Definition CCSUsrMsg_MatchEndConditions_Clear : list (option Z * list clear_step) :=
  [(None, [CZero 0 3])].

Definition CCSUsrMsg_MatchEndConditions_cases : list parse_case :=
  [ (* fraglimit *) mkcase 1 8 0 TYPE_INT32 false [(16, 2)] false;
   (* mp_maxrounds *) mkcase 2 16 1 TYPE_INT32 false [(24, 3)] false;
   (* mp_winlimit *) mkcase 3 24 2 TYPE_INT32 false [(32, 4)] false;
   (* mp_timelimit *) mkcase 4 32 3 TYPE_INT32 false [] true].

Definition CCSUsrMsg_MatchEndConditions_writes : list field_write :=
  [ (* fraglimit *) mkwrite 1 0 TYPE_INT32 false;
   (* mp_maxrounds *) mkwrite 2 1 TYPE_INT32 false;
   (* mp_winlimit *) mkwrite 3 2 TYPE_INT32 false;
   (* mp_timelimit *) mkwrite 4 3 TYPE_INT32 false].

Definition CCSUsrMsg_MatchEndConditions_sizes : list size_step :=
  [SGroup 15
     [mksize 0 1 SInt32;
      mksize 1 1 SInt32;
      mksize 2 1 SInt32;
      mksize 3 1 SInt32]].

Definition CCSUsrMsg_MatchEndConditions_MergeFrom : list merge_step :=
  [MGroup (Z.shiftl 0xff 0) [0; 1; 2; 3]%nat].

Definition CCSUsrMsg_MatchEndConditions : message_class :=
  mkclass CCSUsrMsg_MatchEndConditions_SharedCtor CCSUsrMsg_MatchEndConditions_layout
    CCSUsrMsg_MatchEndConditions_Clear 127 CCSUsrMsg_MatchEndConditions_cases
    CCSUsrMsg_MatchEndConditions_writes CCSUsrMsg_MatchEndConditions_sizes
    CCSUsrMsg_MatchEndConditions_MergeFrom.

(** * [CCSUsrMsg_DisplayInventory] *)

(** Members by has-bit: [display_] 0, [user_id_] 1. *)
Definition CCSUsrMsg_DisplayInventory_SharedCtor : message := mkmsg 0 [VInt 0; VInt 0] [] 0.

Definition CCSUsrMsg_DisplayInventory_layout : list nat := [0; 1]%nat.

Definition CCSUsrMsg_DisplayInventory_Clear : list (option Z * list clear_step) :=
  [(None, [CZero 0 1])].

Definition CCSUsrMsg_DisplayInventory_cases : list parse_case :=
  [ (* display *) mkcase 1 8 0 TYPE_BOOL false [(16, 2)] false;
   (* user_id *) mkcase 2 16 1 TYPE_INT32 false [] true].

Definition CCSUsrMsg_DisplayInventory_writes : list field_write :=
  [ (* display *) mkwrite 1 0 TYPE_BOOL false;
   (* user_id *) mkwrite 2 1 TYPE_INT32 false].

Definition CCSUsrMsg_DisplayInventory_sizes : list size_step :=
  [SGroup 3
     [mksize 0 1 (SFixed 1);
      mksize 1 1 SInt32]].

Definition CCSUsrMsg_DisplayInventory_MergeFrom : list merge_step :=
  [MGroup (Z.shiftl 0xff 0) [0; 1]%nat].

Definition CCSUsrMsg_DisplayInventory : message_class :=
  mkclass CCSUsrMsg_DisplayInventory_SharedCtor CCSUsrMsg_DisplayInventory_layout
    CCSUsrMsg_DisplayInventory_Clear 127 CCSUsrMsg_DisplayInventory_cases
    CCSUsrMsg_DisplayInventory_writes CCSUsrMsg_DisplayInventory_sizes
    CCSUsrMsg_DisplayInventory_MergeFrom.

(** * [CCSUsrMsg_CallVoteFailed] *)

(** Members by has-bit: [reason_] 0, [time_] 1. *)
Definition CCSUsrMsg_CallVoteFailed_SharedCtor : message := mkmsg 0 [VInt 0; VInt 0] [] 0.

Definition CCSUsrMsg_CallVoteFailed_layout : list nat := [0; 1]%nat.

Definition CCSUsrMsg_CallVoteFailed_Clear : list (option Z * list clear_step) :=
  [(None, [CZero 0 1])].

Definition CCSUsrMsg_CallVoteFailed_cases : list parse_case :=
  [ (* reason *) mkcase 1 8 0 TYPE_INT32 false [(16, 2)] false;
   (* time *) mkcase 2 16 1 TYPE_INT32 false [] true].

Definition CCSUsrMsg_CallVoteFailed_writes : list field_write :=
  [ (* reason *) mkwrite 1 0 TYPE_INT32 false;
   (* time *) mkwrite 2 1 TYPE_INT32 false].

Definition CCSUsrMsg_CallVoteFailed_sizes : list size_step :=
  [SGroup 3
     [mksize 0 1 SInt32;
      mksize 1 1 SInt32]].

Definition CCSUsrMsg_CallVoteFailed_MergeFrom : list merge_step :=
  [MGroup (Z.shiftl 0xff 0) [0; 1]%nat].

Definition CCSUsrMsg_CallVoteFailed : message_class :=
  mkclass CCSUsrMsg_CallVoteFailed_SharedCtor CCSUsrMsg_CallVoteFailed_layout
    CCSUsrMsg_CallVoteFailed_Clear 127 CCSUsrMsg_CallVoteFailed_cases
    CCSUsrMsg_CallVoteFailed_writes CCSUsrMsg_CallVoteFailed_sizes
    CCSUsrMsg_CallVoteFailed_MergeFrom.

(** * [CCSUsrMsg_VoteStart] *)

(** Members by has-bit: [team_] 0, [ent_idx_] 1, [vote_type_] 2, [disp_str_] 3,
    [details_str_] 4, [other_team_str_] 5, [is_yes_no_vote_] 6. *)
Definition CCSUsrMsg_VoteStart_SharedCtor : message := mkmsg 0 [VInt 0; VInt 0; VInt 0; VStr
  []; VStr []; VStr []; VInt 0] [] 0.

Definition CCSUsrMsg_VoteStart_layout : list nat := [0; 1; 3; 4; 2; 6; 5]%nat.

Definition CCSUsrMsg_VoteStart_Clear : list (option Z * list clear_step) :=
  [(Some 127, [CZero 0 1; CZero 2 6; CString 3; CString 4; CString 5])].

Definition CCSUsrMsg_VoteStart_cases : list parse_case :=
  [ (* team *) mkcase 1 8 0 TYPE_INT32 false [(16, 2)] false;
   (* ent_idx *) mkcase 2 16 1 TYPE_INT32 false [(24, 3)] false;
   (* vote_type *) mkcase 3 24 2 TYPE_INT32 false [(34, 4)] false;
   (* disp_str *) mkcase 4 34 3 TYPE_STRING false [(42, 5)] false;
   (* details_str *) mkcase 5 42 4 TYPE_STRING false [(50, 6)] false;
   (* other_team_str *) mkcase 6 50 5 TYPE_STRING false [(56, 7)] false;
   (* is_yes_no_vote *) mkcase 7 56 6 TYPE_BOOL false [] true].

Definition CCSUsrMsg_VoteStart_writes : list field_write :=
  [ (* team *) mkwrite 1 0 TYPE_INT32 false;
   (* ent_idx *) mkwrite 2 1 TYPE_INT32 false;
   (* vote_type *) mkwrite 3 2 TYPE_INT32 false;
   (* disp_str *) mkwrite 4 3 TYPE_STRING false;
   (* details_str *) mkwrite 5 4 TYPE_STRING false;
   (* other_team_str *) mkwrite 6 5 TYPE_STRING false;
   (* is_yes_no_vote *) mkwrite 7 6 TYPE_BOOL false].

Definition CCSUsrMsg_VoteStart_sizes : list size_step :=
  [SGroup 127
     [mksize 0 1 SInt32;
      mksize 1 1 SInt32;
      mksize 2 1 SInt32;
      mksize 3 1 SString;
      mksize 4 1 SString;
      mksize 5 1 SString;
      mksize 6 1 (SFixed 1)]].

Definition CCSUsrMsg_VoteStart_MergeFrom : list merge_step :=
  [MGroup (Z.shiftl 0xff 0) [0; 1; 2; 3; 4; 5; 6]%nat].

Definition CCSUsrMsg_VoteStart : message_class :=
  mkclass CCSUsrMsg_VoteStart_SharedCtor CCSUsrMsg_VoteStart_layout
    CCSUsrMsg_VoteStart_Clear 127 CCSUsrMsg_VoteStart_cases CCSUsrMsg_VoteStart_writes
    CCSUsrMsg_VoteStart_sizes CCSUsrMsg_VoteStart_MergeFrom.

(** * [CCSUsrMsg_VotePass] *)

(** Members by has-bit: [team_] 0, [vote_type_] 1, [disp_str_] 2, [details_str_] 3. *)
Definition CCSUsrMsg_VotePass_SharedCtor : message := mkmsg 0 [VInt 0; VInt 0; VStr []; VStr
  []] [] 0.

Definition CCSUsrMsg_VotePass_layout : list nat := [0; 1; 2; 3]%nat.

Definition CCSUsrMsg_VotePass_Clear : list (option Z * list clear_step) :=
  [(Some 15, [CZero 0 1; CString 2; CString 3])].

Definition CCSUsrMsg_VotePass_cases : list parse_case :=
  [ (* team *) mkcase 1 8 0 TYPE_INT32 false [(16, 2)] false;
   (* vote_type *) mkcase 2 16 1 TYPE_INT32 false [(26, 3)] false;
   (* disp_str *) mkcase 3 26 2 TYPE_STRING false [(34, 4)] false;
   (* details_str *) mkcase 4 34 3 TYPE_STRING false [] true].

Definition CCSUsrMsg_VotePass_writes : list field_write :=
  [ (* team *) mkwrite 1 0 TYPE_INT32 false;
   (* vote_type *) mkwrite 2 1 TYPE_INT32 false;
   (* disp_str *) mkwrite 3 2 TYPE_STRING false;
   (* details_str *) mkwrite 4 3 TYPE_STRING false].

Definition CCSUsrMsg_VotePass_sizes : list size_step :=
  [SGroup 15
     [mksize 0 1 SInt32;
      mksize 1 1 SInt32;
      mksize 2 1 SString;
      mksize 3 1 SString]].

Definition CCSUsrMsg_VotePass_MergeFrom : list merge_step :=
  [MGroup (Z.shiftl 0xff 0) [0; 1; 2; 3]%nat].

Definition CCSUsrMsg_VotePass : message_class :=
  mkclass CCSUsrMsg_VotePass_SharedCtor CCSUsrMsg_VotePass_layout CCSUsrMsg_VotePass_Clear
    127 CCSUsrMsg_VotePass_cases CCSUsrMsg_VotePass_writes CCSUsrMsg_VotePass_sizes
    CCSUsrMsg_VotePass_MergeFrom.

(** * [CCSUsrMsg_VoteFailed] *)

(** Members by has-bit: [team_] 0, [reason_] 1. *)
Definition CCSUsrMsg_VoteFailed_SharedCtor : message := mkmsg 0 [VInt 0; VInt 0] [] 0.

Definition CCSUsrMsg_VoteFailed_layout : list nat := [0; 1]%nat.

Definition CCSUsrMsg_VoteFailed_Clear : list (option Z * list clear_step) :=
  [(None, [CZero 0 1])].

Definition CCSUsrMsg_VoteFailed_cases : list parse_case :=
  [ (* team *) mkcase 1 8 0 TYPE_INT32 false [(16, 2)] false;
   (* reason *) mkcase 2 16 1 TYPE_INT32 false [] true].

Definition CCSUsrMsg_VoteFailed_writes : list field_write :=
  [ (* team *) mkwrite 1 0 TYPE_INT32 false;
   (* reason *) mkwrite 2 1 TYPE_INT32 false].

Definition CCSUsrMsg_VoteFailed_sizes : list size_step :=
  [SGroup 3
     [mksize 0 1 SInt32;
      mksize 1 1 SInt32]].

Definition CCSUsrMsg_VoteFailed_MergeFrom : list merge_step :=
  [MGroup (Z.shiftl 0xff 0) [0; 1]%nat].

Definition CCSUsrMsg_VoteFailed : message_class :=
  mkclass CCSUsrMsg_VoteFailed_SharedCtor CCSUsrMsg_VoteFailed_layout
    CCSUsrMsg_VoteFailed_Clear 127 CCSUsrMsg_VoteFailed_cases CCSUsrMsg_VoteFailed_writes
    CCSUsrMsg_VoteFailed_sizes CCSUsrMsg_VoteFailed_MergeFrom.

(** * [CCSUsrMsg_VoteSetup] *)

(** Members by has-bit: [potential_issues_] 0. *)
Definition CCSUsrMsg_VoteSetup_SharedCtor : message := mkmsg 0 [VRep []] [] 0.

Definition CCSUsrMsg_VoteSetup_layout : list nat := [0]%nat.

Definition CCSUsrMsg_VoteSetup_Clear : list (option Z * list clear_step) :=
  [(None, [CRepeated 0])].

Definition CCSUsrMsg_VoteSetup_cases : list parse_case :=
  [ (* potential_issues *) mkcase 1 10 0 TYPE_STRING true [(10, 1)] true].

Definition CCSUsrMsg_VoteSetup_writes : list field_write :=
  [ (* potential_issues *) mkwrite 1 0 TYPE_STRING true].

Definition CCSUsrMsg_VoteSetup_sizes : list size_step :=
  [SRepeated 0 1].

Definition CCSUsrMsg_VoteSetup_MergeFrom : list merge_step :=
  [MRepeated 0].

Definition CCSUsrMsg_VoteSetup : message_class :=
  mkclass CCSUsrMsg_VoteSetup_SharedCtor CCSUsrMsg_VoteSetup_layout
    CCSUsrMsg_VoteSetup_Clear 127 CCSUsrMsg_VoteSetup_cases CCSUsrMsg_VoteSetup_writes
    CCSUsrMsg_VoteSetup_sizes CCSUsrMsg_VoteSetup_MergeFrom.

(** * [CCSUsrMsg_SendLastKillerDamageToClient] *)

(** Members by has-bit: [num_hits_given_] 0, [damage_given_] 1, [num_hits_taken_] 2,
    [damage_taken_] 3. *)
Definition CCSUsrMsg_SendLastKillerDamageToClient_SharedCtor : message := mkmsg 0 [VInt 0;
  VInt 0; VInt 0; VInt 0] [] 0.

Definition CCSUsrMsg_SendLastKillerDamageToClient_layout : list nat := [0; 1; 2; 3]%nat.

Definition CCSUsrMsg_SendLastKillerDamageToClient_Clear : list (option Z * list clear_step) :=
  [(None, [CZero 0 3])].

Definition CCSUsrMsg_SendLastKillerDamageToClient_cases : list parse_case :=
  [ (* num_hits_given *) mkcase 1 8 0 TYPE_INT32 false [(16, 2)] false;
   (* damage_given *) mkcase 2 16 1 TYPE_INT32 false [(24, 3)] false;
   (* num_hits_taken *) mkcase 3 24 2 TYPE_INT32 false [(32, 4)] false;
   (* damage_taken *) mkcase 4 32 3 TYPE_INT32 false [] true].

Definition CCSUsrMsg_SendLastKillerDamageToClient_writes : list field_write :=
  [ (* num_hits_given *) mkwrite 1 0 TYPE_INT32 false;
   (* damage_given *) mkwrite 2 1 TYPE_INT32 false;
   (* num_hits_taken *) mkwrite 3 2 TYPE_INT32 false;
   (* damage_taken *) mkwrite 4 3 TYPE_INT32 false].

Definition CCSUsrMsg_SendLastKillerDamageToClient_sizes : list size_step :=
  [SGroup 15
     [mksize 0 1 SInt32;
      mksize 1 1 SInt32;
      mksize 2 1 SInt32;
      mksize 3 1 SInt32]].

Definition CCSUsrMsg_SendLastKillerDamageToClient_MergeFrom : list merge_step :=
  [MGroup (Z.shiftl 0xff 0) [0; 1; 2; 3]%nat].

Definition CCSUsrMsg_SendLastKillerDamageToClient : message_class :=
  mkclass CCSUsrMsg_SendLastKillerDamageToClient_SharedCtor
    CCSUsrMsg_SendLastKillerDamageToClient_layout
    CCSUsrMsg_SendLastKillerDamageToClient_Clear 127
    CCSUsrMsg_SendLastKillerDamageToClient_cases
    CCSUsrMsg_SendLastKillerDamageToClient_writes
    CCSUsrMsg_SendLastKillerDamageToClient_sizes
    CCSUsrMsg_SendLastKillerDamageToClient_MergeFrom.

(** * [CCSUsrMsg_ItemPickup] *)

(** Members by has-bit: [item_] 0. *)
Definition CCSUsrMsg_ItemPickup_SharedCtor : message := mkmsg 0 [VStr []] [] 0.

Definition CCSUsrMsg_ItemPickup_layout : list nat := [0]%nat.

Definition CCSUsrMsg_ItemPickup_Clear : list (option Z * list clear_step) :=
  [(None, [CString 0])].

Definition CCSUsrMsg_ItemPickup_cases : list parse_case :=
  [ (* item *) mkcase 1 10 0 TYPE_STRING false [] true].

Definition CCSUsrMsg_ItemPickup_writes : list field_write :=
  [ (* item *) mkwrite 1 0 TYPE_STRING false].

Definition CCSUsrMsg_ItemPickup_sizes : list size_step :=
  [SAlone 0 1 SString].

Definition CCSUsrMsg_ItemPickup_MergeFrom : list merge_step :=
  [MGroup (Z.shiftl 0xff 0) [0]%nat].

Definition CCSUsrMsg_ItemPickup : message_class :=
  mkclass CCSUsrMsg_ItemPickup_SharedCtor CCSUsrMsg_ItemPickup_layout
    CCSUsrMsg_ItemPickup_Clear 127 CCSUsrMsg_ItemPickup_cases CCSUsrMsg_ItemPickup_writes
    CCSUsrMsg_ItemPickup_sizes CCSUsrMsg_ItemPickup_MergeFrom.

(** * [CCSUsrMsg_ShowMenu] *)

(** Members by has-bit: [bits_valid_slots_] 0, [display_time_] 1, [menu_string_] 2. *)
Definition CCSUsrMsg_ShowMenu_SharedCtor : message := mkmsg 0 [VInt 0; VInt 0; VStr []] []
  0.

Definition CCSUsrMsg_ShowMenu_layout : list nat := [0; 1; 2]%nat.

Definition CCSUsrMsg_ShowMenu_Clear : list (option Z * list clear_step) :=
  [(Some 7, [CZero 0 1; CString 2])].

Definition CCSUsrMsg_ShowMenu_cases : list parse_case :=
  [ (* bits_valid_slots *) mkcase 1 8 0 TYPE_INT32 false [(16, 2)] false;
   (* display_time *) mkcase 2 16 1 TYPE_INT32 false [(26, 3)] false;
   (* menu_string *) mkcase 3 26 2 TYPE_STRING false [] true].

Definition CCSUsrMsg_ShowMenu_writes : list field_write :=
  [ (* bits_valid_slots *) mkwrite 1 0 TYPE_INT32 false;
   (* display_time *) mkwrite 2 1 TYPE_INT32 false;
   (* menu_string *) mkwrite 3 2 TYPE_STRING false].

Definition CCSUsrMsg_ShowMenu_sizes : list size_step :=
  [SGroup 7
     [mksize 0 1 SInt32;
      mksize 1 1 SInt32;
      mksize 2 1 SString]].

Definition CCSUsrMsg_ShowMenu_MergeFrom : list merge_step :=
  [MGroup (Z.shiftl 0xff 0) [0; 1; 2]%nat].

Definition CCSUsrMsg_ShowMenu : message_class :=
  mkclass CCSUsrMsg_ShowMenu_SharedCtor CCSUsrMsg_ShowMenu_layout CCSUsrMsg_ShowMenu_Clear
    127 CCSUsrMsg_ShowMenu_cases CCSUsrMsg_ShowMenu_writes CCSUsrMsg_ShowMenu_sizes
    CCSUsrMsg_ShowMenu_MergeFrom.

(** * [CCSUsrMsg_BarTime] *)

(** Members by has-bit: [time_] 0. *)
Definition CCSUsrMsg_BarTime_SharedCtor : message := mkmsg 0 [VStr []] [] 0.

Definition CCSUsrMsg_BarTime_layout : list nat := [0]%nat.

Definition CCSUsrMsg_BarTime_Clear : list (option Z * list clear_step) :=
  [(None, [CString 0])].

Definition CCSUsrMsg_BarTime_cases : list parse_case :=
  [ (* time *) mkcase 1 10 0 TYPE_STRING false [] true].

Definition CCSUsrMsg_BarTime_writes : list field_write :=
  [ (* time *) mkwrite 1 0 TYPE_STRING false].

Definition CCSUsrMsg_BarTime_sizes : list size_step :=
  [SAlone 0 1 SString].

Definition CCSUsrMsg_BarTime_MergeFrom : list merge_step :=
  [MGroup (Z.shiftl 0xff 0) [0]%nat].

Definition CCSUsrMsg_BarTime : message_class :=
  mkclass CCSUsrMsg_BarTime_SharedCtor CCSUsrMsg_BarTime_layout CCSUsrMsg_BarTime_Clear 127
    CCSUsrMsg_BarTime_cases CCSUsrMsg_BarTime_writes CCSUsrMsg_BarTime_sizes
    CCSUsrMsg_BarTime_MergeFrom.

(** * [CCSUsrMsg_AmmoDenied] *)

(** Members by has-bit: [ammoidx_] 0. *)
Definition CCSUsrMsg_AmmoDenied_SharedCtor : message := mkmsg 0 [VInt 0] [] 0.

Definition CCSUsrMsg_AmmoDenied_layout : list nat := [0]%nat.

Definition CCSUsrMsg_AmmoDenied_Clear : list (option Z * list clear_step) :=
  [(None, [CReset 0])].

Definition CCSUsrMsg_AmmoDenied_cases : list parse_case :=
  [ (* ammoidx *) mkcase 1 8 0 TYPE_INT32 false [] true].

Definition CCSUsrMsg_AmmoDenied_writes : list field_write :=
  [ (* ammoidx *) mkwrite 1 0 TYPE_INT32 false].

Definition CCSUsrMsg_AmmoDenied_sizes : list size_step :=
  [SAlone 0 1 SInt32].

Definition CCSUsrMsg_AmmoDenied_MergeFrom : list merge_step :=
  [MGroup (Z.shiftl 0xff 0) [0]%nat].

Definition CCSUsrMsg_AmmoDenied : message_class :=
  mkclass CCSUsrMsg_AmmoDenied_SharedCtor CCSUsrMsg_AmmoDenied_layout
    CCSUsrMsg_AmmoDenied_Clear 127 CCSUsrMsg_AmmoDenied_cases CCSUsrMsg_AmmoDenied_writes
    CCSUsrMsg_AmmoDenied_sizes CCSUsrMsg_AmmoDenied_MergeFrom.

(** * [CCSUsrMsg_MarkAchievement] *)

(** Members by has-bit: [achievement_] 0. *)
Definition CCSUsrMsg_MarkAchievement_SharedCtor : message := mkmsg 0 [VStr []] [] 0.

Definition CCSUsrMsg_MarkAchievement_layout : list nat := [0]%nat.

Definition CCSUsrMsg_MarkAchievement_Clear : list (option Z * list clear_step) :=
  [(None, [CString 0])].

Definition CCSUsrMsg_MarkAchievement_cases : list parse_case :=
  [ (* achievement *) mkcase 1 10 0 TYPE_STRING false [] true].

Definition CCSUsrMsg_MarkAchievement_writes : list field_write :=
  [ (* achievement *) mkwrite 1 0 TYPE_STRING false].

Definition CCSUsrMsg_MarkAchievement_sizes : list size_step :=
  [SAlone 0 1 SString].

Definition CCSUsrMsg_MarkAchievement_MergeFrom : list merge_step :=
  [MGroup (Z.shiftl 0xff 0) [0]%nat].

Definition CCSUsrMsg_MarkAchievement : message_class :=
  mkclass CCSUsrMsg_MarkAchievement_SharedCtor CCSUsrMsg_MarkAchievement_layout
    CCSUsrMsg_MarkAchievement_Clear 127 CCSUsrMsg_MarkAchievement_cases
    CCSUsrMsg_MarkAchievement_writes CCSUsrMsg_MarkAchievement_sizes
    CCSUsrMsg_MarkAchievement_MergeFrom.

(** * [CCSUsrMsg_ItemDrop] *)

(** Members by has-bit: [itemid_] 0, [death_] 1. *)
Definition CCSUsrMsg_ItemDrop_SharedCtor : message := mkmsg 0 [VInt 0; VInt 0] [] 0.

Definition CCSUsrMsg_ItemDrop_layout : list nat := [0; 1]%nat.

Definition CCSUsrMsg_ItemDrop_Clear : list (option Z * list clear_step) :=
  [(None, [CZero 0 1])].

Definition CCSUsrMsg_ItemDrop_cases : list parse_case :=
  [ (* itemid *) mkcase 1 8 0 TYPE_INT64 false [(16, 2)] false;
   (* death *) mkcase 2 16 1 TYPE_BOOL false [] true].

Definition CCSUsrMsg_ItemDrop_writes : list field_write :=
  [ (* itemid *) mkwrite 1 0 TYPE_INT64 false;
   (* death *) mkwrite 2 1 TYPE_BOOL false].

Definition CCSUsrMsg_ItemDrop_sizes : list size_step :=
  [SGroup 3
     [mksize 0 1 SInt64;
      mksize 1 1 (SFixed 1)]].

Definition CCSUsrMsg_ItemDrop_MergeFrom : list merge_step :=
  [MGroup (Z.shiftl 0xff 0) [0; 1]%nat].

Definition CCSUsrMsg_ItemDrop : message_class :=
  mkclass CCSUsrMsg_ItemDrop_SharedCtor CCSUsrMsg_ItemDrop_layout CCSUsrMsg_ItemDrop_Clear
    127 CCSUsrMsg_ItemDrop_cases CCSUsrMsg_ItemDrop_writes CCSUsrMsg_ItemDrop_sizes
    CCSUsrMsg_ItemDrop_MergeFrom.

(** * [CCSUsrMsg_GlowPropTurnOff] *)

(** Members by has-bit: [entidx_] 0. *)
Definition CCSUsrMsg_GlowPropTurnOff_SharedCtor : message := mkmsg 0 [VInt 0] [] 0.

Definition CCSUsrMsg_GlowPropTurnOff_layout : list nat := [0]%nat.

Definition CCSUsrMsg_GlowPropTurnOff_Clear : list (option Z * list clear_step) :=
  [(None, [CReset 0])].

Definition CCSUsrMsg_GlowPropTurnOff_cases : list parse_case :=
  [ (* entidx *) mkcase 1 8 0 TYPE_INT32 false [] true].

Definition CCSUsrMsg_GlowPropTurnOff_writes : list field_write :=
  [ (* entidx *) mkwrite 1 0 TYPE_INT32 false].

Definition CCSUsrMsg_GlowPropTurnOff_sizes : list size_step :=
  [SAlone 0 1 SInt32].

Definition CCSUsrMsg_GlowPropTurnOff_MergeFrom : list merge_step :=
  [MGroup (Z.shiftl 0xff 0) [0]%nat].

Definition CCSUsrMsg_GlowPropTurnOff : message_class :=
  mkclass CCSUsrMsg_GlowPropTurnOff_SharedCtor CCSUsrMsg_GlowPropTurnOff_layout
    CCSUsrMsg_GlowPropTurnOff_Clear 127 CCSUsrMsg_GlowPropTurnOff_cases
    CCSUsrMsg_GlowPropTurnOff_writes CCSUsrMsg_GlowPropTurnOff_sizes
    CCSUsrMsg_GlowPropTurnOff_MergeFrom.

(** * [CCSUsrMsg_RoundBackupFilenames] *)

(** Members by has-bit: [count_] 0, [index_] 1, [filename_] 2, [nicename_] 3. *)
Definition CCSUsrMsg_RoundBackupFilenames_SharedCtor : message := mkmsg 0 [VInt 0; VInt 0;
  VStr []; VStr []] [] 0.

Definition CCSUsrMsg_RoundBackupFilenames_layout : list nat := [0; 1; 2; 3]%nat.

Definition CCSUsrMsg_RoundBackupFilenames_Clear : list (option Z * list clear_step) :=
  [(Some 15, [CZero 0 1; CString 2; CString 3])].

Definition CCSUsrMsg_RoundBackupFilenames_cases : list parse_case :=
  [ (* count *) mkcase 1 8 0 TYPE_INT32 false [(16, 2)] false;
   (* index *) mkcase 2 16 1 TYPE_INT32 false [(26, 3)] false;
   (* filename *) mkcase 3 26 2 TYPE_STRING false [(34, 4)] false;
   (* nicename *) mkcase 4 34 3 TYPE_STRING false [] true].

Definition CCSUsrMsg_RoundBackupFilenames_writes : list field_write :=
  [ (* count *) mkwrite 1 0 TYPE_INT32 false;
   (* index *) mkwrite 2 1 TYPE_INT32 false;
   (* filename *) mkwrite 3 2 TYPE_STRING false;
   (* nicename *) mkwrite 4 3 TYPE_STRING false].

Definition CCSUsrMsg_RoundBackupFilenames_sizes : list size_step :=
  [SGroup 15
     [mksize 0 1 SInt32;
      mksize 1 1 SInt32;
      mksize 2 1 SString;
      mksize 3 1 SString]].

Definition CCSUsrMsg_RoundBackupFilenames_MergeFrom : list merge_step :=
  [MGroup (Z.shiftl 0xff 0) [0; 1; 2; 3]%nat].

Definition CCSUsrMsg_RoundBackupFilenames : message_class :=
  mkclass CCSUsrMsg_RoundBackupFilenames_SharedCtor CCSUsrMsg_RoundBackupFilenames_layout
    CCSUsrMsg_RoundBackupFilenames_Clear 127 CCSUsrMsg_RoundBackupFilenames_cases
    CCSUsrMsg_RoundBackupFilenames_writes CCSUsrMsg_RoundBackupFilenames_sizes
    CCSUsrMsg_RoundBackupFilenames_MergeFrom.

(** * [CCSUsrMsg_ResetHud] *)

(** Members by has-bit: [reset_] 0. *)
Definition CCSUsrMsg_ResetHud_SharedCtor : message := mkmsg 0 [VInt 0] [] 0.

Definition CCSUsrMsg_ResetHud_layout : list nat := [0]%nat.

Definition CCSUsrMsg_ResetHud_Clear : list (option Z * list clear_step) :=
  [(None, [CReset 0])].

Definition CCSUsrMsg_ResetHud_cases : list parse_case :=
  [ (* reset *) mkcase 1 8 0 TYPE_BOOL false [] true].

Definition CCSUsrMsg_ResetHud_writes : list field_write :=
  [ (* reset *) mkwrite 1 0 TYPE_BOOL false].

Definition CCSUsrMsg_ResetHud_sizes : list size_step :=
  [SAlone 0 1 (SFixed 1)].

Definition CCSUsrMsg_ResetHud_MergeFrom : list merge_step :=
  [MGroup (Z.shiftl 0xff 0) [0]%nat].

Definition CCSUsrMsg_ResetHud : message_class :=
  mkclass CCSUsrMsg_ResetHud_SharedCtor CCSUsrMsg_ResetHud_layout CCSUsrMsg_ResetHud_Clear
    127 CCSUsrMsg_ResetHud_cases CCSUsrMsg_ResetHud_writes CCSUsrMsg_ResetHud_sizes
    CCSUsrMsg_ResetHud_MergeFrom.

(** * [CCSUsrMsg_GameTitle] *)

(** Members by has-bit: [dummy_] 0. *)
Definition CCSUsrMsg_GameTitle_SharedCtor : message := mkmsg 0 [VInt 0] [] 0.

Definition CCSUsrMsg_GameTitle_layout : list nat := [0]%nat.

Definition CCSUsrMsg_GameTitle_Clear : list (option Z * list clear_step) :=
  [(None, [CReset 0])].

Definition CCSUsrMsg_GameTitle_cases : list parse_case :=
  [ (* dummy *) mkcase 1 8 0 TYPE_INT32 false [] true].

Definition CCSUsrMsg_GameTitle_writes : list field_write :=
  [ (* dummy *) mkwrite 1 0 TYPE_INT32 false].

Definition CCSUsrMsg_GameTitle_sizes : list size_step :=
  [SAlone 0 1 SInt32].

Definition CCSUsrMsg_GameTitle_MergeFrom : list merge_step :=
  [MGroup (Z.shiftl 0xff 0) [0]%nat].

Definition CCSUsrMsg_GameTitle : message_class :=
  mkclass CCSUsrMsg_GameTitle_SharedCtor CCSUsrMsg_GameTitle_layout
    CCSUsrMsg_GameTitle_Clear 127 CCSUsrMsg_GameTitle_cases CCSUsrMsg_GameTitle_writes
    CCSUsrMsg_GameTitle_sizes CCSUsrMsg_GameTitle_MergeFrom.

(** * [CCSUsrMsg_RequestState] *)

(** Members by has-bit: [dummy_] 0. *)
Definition CCSUsrMsg_RequestState_SharedCtor : message := mkmsg 0 [VInt 0] [] 0.

Definition CCSUsrMsg_RequestState_layout : list nat := [0]%nat.

Definition CCSUsrMsg_RequestState_Clear : list (option Z * list clear_step) :=
  [(None, [CReset 0])].

Definition CCSUsrMsg_RequestState_cases : list parse_case :=
  [ (* dummy *) mkcase 1 8 0 TYPE_INT32 false [] true].

Definition CCSUsrMsg_RequestState_writes : list field_write :=
  [ (* dummy *) mkwrite 1 0 TYPE_INT32 false].

Definition CCSUsrMsg_RequestState_sizes : list size_step :=
  [SAlone 0 1 SInt32].

Definition CCSUsrMsg_RequestState_MergeFrom : list merge_step :=
  [MGroup (Z.shiftl 0xff 0) [0]%nat].

Definition CCSUsrMsg_RequestState : message_class :=
  mkclass CCSUsrMsg_RequestState_SharedCtor CCSUsrMsg_RequestState_layout
    CCSUsrMsg_RequestState_Clear 127 CCSUsrMsg_RequestState_cases
    CCSUsrMsg_RequestState_writes CCSUsrMsg_RequestState_sizes
    CCSUsrMsg_RequestState_MergeFrom.

(** * [CCSUsrMsg_StopSpectatorMode] *)

(** Members by has-bit: [dummy_] 0. *)
Definition CCSUsrMsg_StopSpectatorMode_SharedCtor : message := mkmsg 0 [VInt 0] [] 0.

Definition CCSUsrMsg_StopSpectatorMode_layout : list nat := [0]%nat.

Definition CCSUsrMsg_StopSpectatorMode_Clear : list (option Z * list clear_step) :=
  [(None, [CReset 0])].

Definition CCSUsrMsg_StopSpectatorMode_cases : list parse_case :=
  [ (* dummy *) mkcase 1 8 0 TYPE_INT32 false [] true].

Definition CCSUsrMsg_StopSpectatorMode_writes : list field_write :=
  [ (* dummy *) mkwrite 1 0 TYPE_INT32 false].

Definition CCSUsrMsg_StopSpectatorMode_sizes : list size_step :=
  [SAlone 0 1 SInt32].

Definition CCSUsrMsg_StopSpectatorMode_MergeFrom : list merge_step :=
  [MGroup (Z.shiftl 0xff 0) [0]%nat].

Definition CCSUsrMsg_StopSpectatorMode : message_class :=
  mkclass CCSUsrMsg_StopSpectatorMode_SharedCtor CCSUsrMsg_StopSpectatorMode_layout
    CCSUsrMsg_StopSpectatorMode_Clear 127 CCSUsrMsg_StopSpectatorMode_cases
    CCSUsrMsg_StopSpectatorMode_writes CCSUsrMsg_StopSpectatorMode_sizes
    CCSUsrMsg_StopSpectatorMode_MergeFrom.

(** * [CCSUsrMsg_DisconnectToLobby] *)

(** Members by has-bit: [dummy_] 0. *)
Definition CCSUsrMsg_DisconnectToLobby_SharedCtor : message := mkmsg 0 [VInt 0] [] 0.

Definition CCSUsrMsg_DisconnectToLobby_layout : list nat := [0]%nat.

Definition CCSUsrMsg_DisconnectToLobby_Clear : list (option Z * list clear_step) :=
  [(None, [CReset 0])].

Definition CCSUsrMsg_DisconnectToLobby_cases : list parse_case :=
  [ (* dummy *) mkcase 1 8 0 TYPE_INT32 false [] true].

Definition CCSUsrMsg_DisconnectToLobby_writes : list field_write :=
  [ (* dummy *) mkwrite 1 0 TYPE_INT32 false].

Definition CCSUsrMsg_DisconnectToLobby_sizes : list size_step :=
  [SAlone 0 1 SInt32].

Definition CCSUsrMsg_DisconnectToLobby_MergeFrom : list merge_step :=
  [MGroup (Z.shiftl 0xff 0) [0]%nat].

Definition CCSUsrMsg_DisconnectToLobby : message_class :=
  mkclass CCSUsrMsg_DisconnectToLobby_SharedCtor CCSUsrMsg_DisconnectToLobby_layout
    CCSUsrMsg_DisconnectToLobby_Clear 127 CCSUsrMsg_DisconnectToLobby_cases
    CCSUsrMsg_DisconnectToLobby_writes CCSUsrMsg_DisconnectToLobby_sizes
    CCSUsrMsg_DisconnectToLobby_MergeFrom.

(** * [CCSUsrMsg_WarmupHasEnded] *)

(** Members by has-bit: [dummy_] 0. *)
Definition CCSUsrMsg_WarmupHasEnded_SharedCtor : message := mkmsg 0 [VInt 0] [] 0.

Definition CCSUsrMsg_WarmupHasEnded_layout : list nat := [0]%nat.

Definition CCSUsrMsg_WarmupHasEnded_Clear : list (option Z * list clear_step) :=
  [(None, [CReset 0])].

Definition CCSUsrMsg_WarmupHasEnded_cases : list parse_case :=
  [ (* dummy *) mkcase 1 8 0 TYPE_INT32 false [] true].

Definition CCSUsrMsg_WarmupHasEnded_writes : list field_write :=
  [ (* dummy *) mkwrite 1 0 TYPE_INT32 false].

Definition CCSUsrMsg_WarmupHasEnded_sizes : list size_step :=
  [SAlone 0 1 SInt32].

Definition CCSUsrMsg_WarmupHasEnded_MergeFrom : list merge_step :=
  [MGroup (Z.shiftl 0xff 0) [0]%nat].

Definition CCSUsrMsg_WarmupHasEnded : message_class :=
  mkclass CCSUsrMsg_WarmupHasEnded_SharedCtor CCSUsrMsg_WarmupHasEnded_layout
    CCSUsrMsg_WarmupHasEnded_Clear 127 CCSUsrMsg_WarmupHasEnded_cases
    CCSUsrMsg_WarmupHasEnded_writes CCSUsrMsg_WarmupHasEnded_sizes
    CCSUsrMsg_WarmupHasEnded_MergeFrom.

(** * [CCSUsrMsg_ClientInfo] *)

(** Members by has-bit: [dummy_] 0. *)
Definition CCSUsrMsg_ClientInfo_SharedCtor : message := mkmsg 0 [VInt 0] [] 0.

Definition CCSUsrMsg_ClientInfo_layout : list nat := [0]%nat.

Definition CCSUsrMsg_ClientInfo_Clear : list (option Z * list clear_step) :=
  [(None, [CReset 0])].

Definition CCSUsrMsg_ClientInfo_cases : list parse_case :=
  [ (* dummy *) mkcase 1 8 0 TYPE_INT32 false [] true].

Definition CCSUsrMsg_ClientInfo_writes : list field_write :=
  [ (* dummy *) mkwrite 1 0 TYPE_INT32 false].

Definition CCSUsrMsg_ClientInfo_sizes : list size_step :=
  [SAlone 0 1 SInt32].

Definition CCSUsrMsg_ClientInfo_MergeFrom : list merge_step :=
  [MGroup (Z.shiftl 0xff 0) [0]%nat].

Definition CCSUsrMsg_ClientInfo : message_class :=
  mkclass CCSUsrMsg_ClientInfo_SharedCtor CCSUsrMsg_ClientInfo_layout
    CCSUsrMsg_ClientInfo_Clear 127 CCSUsrMsg_ClientInfo_cases CCSUsrMsg_ClientInfo_writes
    CCSUsrMsg_ClientInfo_sizes CCSUsrMsg_ClientInfo_MergeFrom.

(** * All of them *)

Definition user_classes : list message_class :=
  [CCSUsrMsg_VGUIMenu_Subkey; CCSUsrMsg_Geiger; CCSUsrMsg_Train; CCSUsrMsg_HudText;
   CCSUsrMsg_SayText; CCSUsrMsg_SayText2; CCSUsrMsg_TextMsg; CCSUsrMsg_Shake;
   CCSUsrMsg_Rumble; CCSUsrMsg_CloseCaption; CCSUsrMsg_CloseCaptionDirect;
   CCSUsrMsg_SendAudio; CCSUsrMsg_RawAudio; CCSUsrMsg_VoiceMask_PlayerMask;
   CCSUsrMsg_RadioText; CCSUsrMsg_HintText; CCSUsrMsg_KeyHintText;
   CCSUsrMsg_ProcessSpottedEntityUpdate_SpottedEntityUpdate; CCSUsrMsg_ReloadEffect;
   CCSUsrMsg_AdjustMoney; CCSUsrMsg_KillCam; CCSUsrMsg_DesiredTimescale;
   CCSUsrMsg_CurrentTimescale; CCSUsrMsg_AchievementEvent; CCSUsrMsg_MatchEndConditions;
   CCSUsrMsg_DisplayInventory; CCSUsrMsg_CallVoteFailed; CCSUsrMsg_VoteStart;
   CCSUsrMsg_VotePass; CCSUsrMsg_VoteFailed; CCSUsrMsg_VoteSetup;
   CCSUsrMsg_SendLastKillerDamageToClient; CCSUsrMsg_ItemPickup; CCSUsrMsg_ShowMenu;
   CCSUsrMsg_BarTime; CCSUsrMsg_AmmoDenied; CCSUsrMsg_MarkAchievement; CCSUsrMsg_ItemDrop;
   CCSUsrMsg_GlowPropTurnOff; CCSUsrMsg_RoundBackupFilenames; CCSUsrMsg_ResetHud;
   CCSUsrMsg_GameTitle; CCSUsrMsg_RequestState; CCSUsrMsg_StopSpectatorMode;
   CCSUsrMsg_DisconnectToLobby; CCSUsrMsg_WarmupHasEnded; CCSUsrMsg_ClientInfo].
