(* ===== verification/StreamClasses.v ===== *)
(** The stream writers of the generated classes (src/generated_proto/netmessages_public.pb.cc and
    cstrike15_usermessages_public.pb.cc): the statements of [SerializeWithCachedSizes], which the
    generator wrote next to those of [SerializeWithCachedSizesToArray].  Each is a field with the
    writer it calls; [true] is a writer that may alias its string. *)

From S2P Require Import Prelude CMem Coded Wire Messages NetMessages NetClasses UserClasses.

Definition CNETMsg_Tick_stream : list (field_write * bool) :=
  [ (* tick *) (mkwrite 1 0 TYPE_UINT32 false, false);
    (* host_computationtime *) (mkwrite 4 1 TYPE_UINT32 false, false);
    (* host_computationtime_std_deviation *) (mkwrite 5 2 TYPE_UINT32 false, false);
    (* host_framestarttime_std_deviation *) (mkwrite 6 3 TYPE_UINT32 false, false)].

Definition CNETMsg_SignonState_stream : list (field_write * bool) :=
  [ (* signon_state *) (mkwrite 1 0 TYPE_UINT32 false, false);
    (* spawn_count *) (mkwrite 2 1 TYPE_UINT32 false, false);
    (* num_server_players *) (mkwrite 3 2 TYPE_UINT32 false, false);
    (* players_networkids *) (mkwrite 4 3 TYPE_STRING true, false);
    (* map_name *) (mkwrite 5 4 TYPE_STRING false, true)].

Definition CSVCMsg_ServerInfo_stream : list (field_write * bool) :=
  [ (* protocol *) (mkwrite 1 0 TYPE_INT32 false, false);
    (* server_count *) (mkwrite 2 1 TYPE_INT32 false, false);
    (* is_dedicated *) (mkwrite 3 2 TYPE_BOOL false, false);
    (* is_official_valve_server *) (mkwrite 4 3 TYPE_BOOL false, false);
    (* is_hltv *) (mkwrite 5 4 TYPE_BOOL false, false);
    (* is_replay *) (mkwrite 6 5 TYPE_BOOL false, false);
    (* c_os *) (mkwrite 7 7 TYPE_INT32 false, false);
    (* map_crc *) (mkwrite 8 8 TYPE_FIXED32 false, false);
    (* client_crc *) (mkwrite 9 9 TYPE_FIXED32 false, false);
    (* string_table_crc *) (mkwrite 10 10 TYPE_FIXED32 false, false);
    (* max_clients *) (mkwrite 11 11 TYPE_INT32 false, false);
    (* max_classes *) (mkwrite 12 12 TYPE_INT32 false, false);
    (* player_slot *) (mkwrite 13 13 TYPE_INT32 false, false);
    (* tick_interval *) (mkwrite 14 14 TYPE_FLOAT false, false);
    (* game_dir *) (mkwrite 15 15 TYPE_STRING false, true);
    (* map_name *) (mkwrite 16 16 TYPE_STRING false, true);
    (* map_group_name *) (mkwrite 17 17 TYPE_STRING false, true);
    (* sky_name *) (mkwrite 18 18 TYPE_STRING false, true);
    (* host_name *) (mkwrite 19 19 TYPE_STRING false, true);
    (* is_redirecting_to_proxy_relay *) (mkwrite 21 6 TYPE_BOOL false, false);
    (* ugc_map_id *) (mkwrite 22 20 TYPE_UINT64 false, false)].

Definition CSVCMsg_PacketEntities_stream : list (field_write * bool) :=
  [ (* max_entries *) (mkwrite 1 0 TYPE_INT32 false, false);
    (* updated_entries *) (mkwrite 2 1 TYPE_INT32 false, false);
    (* is_delta *) (mkwrite 3 2 TYPE_BOOL false, false);
    (* update_baseline *) (mkwrite 4 3 TYPE_BOOL false, false);
    (* baseline *) (mkwrite 5 4 TYPE_INT32 false, false);
    (* delta_from *) (mkwrite 6 5 TYPE_INT32 false, false);
    (* entity_data *) (mkwrite 7 6 TYPE_BYTES false, true)].

Definition CMsgVector_stream : list (field_write * bool) :=
  [ (* x *) (mkwrite 1 0 TYPE_FLOAT false, false);
    (* y *) (mkwrite 2 1 TYPE_FLOAT false, false);
    (* z *) (mkwrite 3 2 TYPE_FLOAT false, false)].

Definition CMsgVector2D_stream : list (field_write * bool) :=
  [ (* x *) (mkwrite 1 0 TYPE_FLOAT false, false);
    (* y *) (mkwrite 2 1 TYPE_FLOAT false, false)].

Definition CMsgQAngle_stream : list (field_write * bool) :=
  [ (* x *) (mkwrite 1 0 TYPE_FLOAT false, false);
    (* y *) (mkwrite 2 1 TYPE_FLOAT false, false);
    (* z *) (mkwrite 3 2 TYPE_FLOAT false, false)].

Definition CMsgRGBA_stream : list (field_write * bool) :=
  [ (* r *) (mkwrite 1 0 TYPE_INT32 false, false);
    (* g *) (mkwrite 2 1 TYPE_INT32 false, false);
    (* b *) (mkwrite 3 2 TYPE_INT32 false, false);
    (* a *) (mkwrite 4 3 TYPE_INT32 false, false)].

Definition CNETMsg_StringCmd_stream : list (field_write * bool) :=
  [ (* command *) (mkwrite 1 0 TYPE_STRING false, true)].

Definition CMsg_CVars_CVar_stream : list (field_write * bool) :=
  [ (* name *) (mkwrite 1 0 TYPE_STRING false, true);
    (* value *) (mkwrite 2 1 TYPE_STRING false, true)].

Definition CNETMsg_NOP_stream : list (field_write * bool) :=
  [].

Definition CNETMsg_Disconnect_stream : list (field_write * bool) :=
  [ (* text *) (mkwrite 1 0 TYPE_STRING false, true)].

Definition CNETMsg_File_stream : list (field_write * bool) :=
  [ (* transfer_id *) (mkwrite 1 0 TYPE_INT32 false, false);
    (* file_name *) (mkwrite 2 1 TYPE_STRING false, true);
    (* is_replay_demo_file *) (mkwrite 3 2 TYPE_BOOL false, false);
    (* deny *) (mkwrite 4 3 TYPE_BOOL false, false)].

Definition CSVCMsg_ClassInfo_class_t_stream : list (field_write * bool) :=
  [ (* class_id *) (mkwrite 1 0 TYPE_INT32 false, false);
    (* data_table_name *) (mkwrite 2 1 TYPE_STRING false, true);
    (* class_name *) (mkwrite 3 2 TYPE_STRING false, true)].

Definition CSVCMsg_SendTable_sendprop_t_stream : list (field_write * bool) :=
  [ (* type *) (mkwrite 1 0 TYPE_INT32 false, false);
    (* var_name *) (mkwrite 2 1 TYPE_STRING false, true);
    (* flags *) (mkwrite 3 2 TYPE_INT32 false, false);
    (* priority *) (mkwrite 4 3 TYPE_INT32 false, false);
    (* dt_name *) (mkwrite 5 4 TYPE_STRING false, true);
    (* num_elements *) (mkwrite 6 5 TYPE_INT32 false, false);
    (* low_value *) (mkwrite 7 6 TYPE_FLOAT false, false);
    (* high_value *) (mkwrite 8 7 TYPE_FLOAT false, false);
    (* num_bits *) (mkwrite 9 8 TYPE_INT32 false, false)].

Definition CSVCMsg_Print_stream : list (field_write * bool) :=
  [ (* text *) (mkwrite 1 0 TYPE_STRING false, true)].

Definition CSVCMsg_SetPause_stream : list (field_write * bool) :=
  [ (* paused *) (mkwrite 1 0 TYPE_BOOL false, false)].

Definition CSVCMsg_SetView_stream : list (field_write * bool) :=
  [ (* entity_index *) (mkwrite 1 0 TYPE_INT32 false, false)].

Definition CSVCMsg_CreateStringTable_stream : list (field_write * bool) :=
  [ (* name *) (mkwrite 1 0 TYPE_STRING false, true);
    (* max_entries *) (mkwrite 2 1 TYPE_INT32 false, false);
    (* num_entries *) (mkwrite 3 2 TYPE_INT32 false, false);
    (* user_data_fixed_size *) (mkwrite 4 3 TYPE_BOOL false, false);
    (* user_data_size *) (mkwrite 5 4 TYPE_INT32 false, false);
    (* user_data_size_bits *) (mkwrite 6 5 TYPE_INT32 false, false);
    (* flags *) (mkwrite 7 6 TYPE_INT32 false, false);
    (* string_data *) (mkwrite 8 7 TYPE_BYTES false, true)].

Definition CSVCMsg_UpdateStringTable_stream : list (field_write * bool) :=
  [ (* table_id *) (mkwrite 1 0 TYPE_INT32 false, false);
    (* num_changed_entries *) (mkwrite 2 1 TYPE_INT32 false, false);
    (* string_data *) (mkwrite 3 2 TYPE_BYTES false, true)].

Definition CSVCMsg_VoiceInit_stream : list (field_write * bool) :=
  [ (* quality *) (mkwrite 1 0 TYPE_INT32 false, false);
    (* codec *) (mkwrite 2 1 TYPE_STRING false, true)].

Definition CSVCMsg_VoiceData_stream : list (field_write * bool) :=
  [ (* client *) (mkwrite 1 0 TYPE_INT32 false, false);
    (* proximity *) (mkwrite 2 1 TYPE_BOOL false, false);
    (* xuid *) (mkwrite 3 2 TYPE_FIXED64 false, false);
    (* audible_mask *) (mkwrite 4 3 TYPE_INT32 false, false);
    (* voice_data *) (mkwrite 5 4 TYPE_BYTES false, true)].

Definition CSVCMsg_Prefetch_stream : list (field_write * bool) :=
  [ (* sound_index *) (mkwrite 1 0 TYPE_INT32 false, false)].

Definition CSVCMsg_GetCvarValue_stream : list (field_write * bool) :=
  [ (* cookie *) (mkwrite 1 0 TYPE_INT32 false, false);
    (* cvar_name *) (mkwrite 2 1 TYPE_STRING false, true)].

Definition CSVCMsg_Menu_stream : list (field_write * bool) :=
  [ (* dialog_type *) (mkwrite 1 0 TYPE_INT32 false, false);
    (* menu_key_values *) (mkwrite 2 1 TYPE_BYTES false, true)].

Definition CSVCMsg_UserMessage_stream : list (field_write * bool) :=
  [ (* msg_type *) (mkwrite 1 0 TYPE_INT32 false, false);
    (* msg_data *) (mkwrite 2 1 TYPE_BYTES false, true)].

Definition CSVCMsg_GameEvent_key_t_stream : list (field_write * bool) :=
  [ (* type *) (mkwrite 1 0 TYPE_INT32 false, false);
    (* val_string *) (mkwrite 2 1 TYPE_STRING false, true);
    (* val_float *) (mkwrite 3 2 TYPE_FLOAT false, false);
    (* val_long *) (mkwrite 4 3 TYPE_INT32 false, false);
    (* val_short *) (mkwrite 5 4 TYPE_INT32 false, false);
    (* val_byte *) (mkwrite 6 5 TYPE_INT32 false, false);
    (* val_bool *) (mkwrite 7 6 TYPE_BOOL false, false);
    (* val_uint64 *) (mkwrite 8 7 TYPE_UINT64 false, false);
    (* val_wstring *) (mkwrite 9 8 TYPE_BYTES false, true)].

Definition CSVCMsg_GameEventList_key_t_stream : list (field_write * bool) :=
  [ (* type *) (mkwrite 1 0 TYPE_INT32 false, false);
    (* name *) (mkwrite 2 1 TYPE_STRING false, true)].

Definition CSVCMsg_TempEntities_stream : list (field_write * bool) :=
  [ (* reliable *) (mkwrite 1 0 TYPE_BOOL false, false);
    (* num_entries *) (mkwrite 2 1 TYPE_INT32 false, false);
    (* entity_data *) (mkwrite 3 2 TYPE_BYTES false, true)].

Definition CSVCMsg_Sounds_sounddata_t_stream : list (field_write * bool) :=
  [ (* origin_x *) (mkwrite 1 0 TYPE_SINT32 false, false);
    (* origin_y *) (mkwrite 2 1 TYPE_SINT32 false, false);
    (* origin_z *) (mkwrite 3 2 TYPE_SINT32 false, false);
    (* volume *) (mkwrite 4 3 TYPE_UINT32 false, false);
    (* delay_value *) (mkwrite 5 4 TYPE_FLOAT false, false);
    (* sequence_number *) (mkwrite 6 5 TYPE_INT32 false, false);
    (* entity_index *) (mkwrite 7 6 TYPE_INT32 false, false);
    (* channel *) (mkwrite 8 7 TYPE_INT32 false, false);
    (* pitch *) (mkwrite 9 8 TYPE_INT32 false, false);
    (* flags *) (mkwrite 10 9 TYPE_INT32 false, false);
    (* sound_num *) (mkwrite 11 10 TYPE_UINT32 false, false);
    (* sound_num_handle *) (mkwrite 12 11 TYPE_FIXED32 false, false);
    (* speaker_entity *) (mkwrite 13 12 TYPE_INT32 false, false);
    (* random_seed *) (mkwrite 14 13 TYPE_INT32 false, false);
    (* sound_level *) (mkwrite 15 14 TYPE_INT32 false, false);
    (* is_sentence *) (mkwrite 16 15 TYPE_BOOL false, false);
    (* is_ambient *) (mkwrite 17 16 TYPE_BOOL false, false)].

Definition CCSUsrMsg_VGUIMenu_Subkey_stream : list (field_write * bool) :=
  [ (* name *) (mkwrite 1 0 TYPE_STRING false, true);
    (* str *) (mkwrite 2 1 TYPE_STRING false, true)].

Definition CCSUsrMsg_Geiger_stream : list (field_write * bool) :=
  [ (* range *) (mkwrite 1 0 TYPE_INT32 false, false)].

Definition CCSUsrMsg_Train_stream : list (field_write * bool) :=
  [ (* train *) (mkwrite 1 0 TYPE_INT32 false, false)].

Definition CCSUsrMsg_HudText_stream : list (field_write * bool) :=
  [ (* text *) (mkwrite 1 0 TYPE_STRING false, true)].

Definition CCSUsrMsg_SayText_stream : list (field_write * bool) :=
  [ (* ent_idx *) (mkwrite 1 0 TYPE_INT32 false, false);
    (* text *) (mkwrite 2 1 TYPE_STRING false, true);
    (* chat *) (mkwrite 3 2 TYPE_BOOL false, false);
    (* textallchat *) (mkwrite 4 3 TYPE_BOOL false, false)].

Definition CCSUsrMsg_SayText2_stream : list (field_write * bool) :=
  [ (* ent_idx *) (mkwrite 1 0 TYPE_INT32 false, false);
    (* chat *) (mkwrite 2 1 TYPE_BOOL false, false);
    (* msg_name *) (mkwrite 3 2 TYPE_STRING false, true);
    (* params *) (mkwrite 4 3 TYPE_STRING true, false);
    (* textallchat *) (mkwrite 5 4 TYPE_BOOL false, false)].

Definition CCSUsrMsg_TextMsg_stream : list (field_write * bool) :=
  [ (* msg_dst *) (mkwrite 1 0 TYPE_INT32 false, false);
    (* params *) (mkwrite 3 1 TYPE_STRING true, false)].

Definition CCSUsrMsg_Shake_stream : list (field_write * bool) :=
  [ (* command *) (mkwrite 1 0 TYPE_INT32 false, false);
    (* local_amplitude *) (mkwrite 2 1 TYPE_FLOAT false, false);
    (* frequency *) (mkwrite 3 2 TYPE_FLOAT false, false);
    (* duration *) (mkwrite 4 3 TYPE_FLOAT false, false)].

Definition CCSUsrMsg_Rumble_stream : list (field_write * bool) :=
  [ (* index *) (mkwrite 1 0 TYPE_INT32 false, false);
    (* data *) (mkwrite 2 1 TYPE_INT32 false, false);
    (* flags *) (mkwrite 3 2 TYPE_INT32 false, false)].

Definition CCSUsrMsg_CloseCaption_stream : list (field_write * bool) :=
  [ (* hash *) (mkwrite 1 0 TYPE_UINT32 false, false);
    (* duration *) (mkwrite 2 1 TYPE_INT32 false, false);
    (* from_player *) (mkwrite 3 2 TYPE_BOOL false, false)].

Definition CCSUsrMsg_CloseCaptionDirect_stream : list (field_write * bool) :=
  [ (* hash *) (mkwrite 1 0 TYPE_UINT32 false, false);
    (* duration *) (mkwrite 2 1 TYPE_INT32 false, false);
    (* from_player *) (mkwrite 3 2 TYPE_BOOL false, false)].

Definition CCSUsrMsg_SendAudio_stream : list (field_write * bool) :=
  [ (* radio_sound *) (mkwrite 1 0 TYPE_STRING false, true)].

Definition CCSUsrMsg_RawAudio_stream : list (field_write * bool) :=
  [ (* pitch *) (mkwrite 1 0 TYPE_INT32 false, false);
    (* entidx *) (mkwrite 2 1 TYPE_INT32 false, false);
    (* duration *) (mkwrite 3 2 TYPE_FLOAT false, false);
    (* voice_filename *) (mkwrite 4 3 TYPE_STRING false, true)].

Definition CCSUsrMsg_VoiceMask_PlayerMask_stream : list (field_write * bool) :=
  [ (* game_rules_mask *) (mkwrite 1 0 TYPE_INT32 false, false);
    (* ban_masks *) (mkwrite 2 1 TYPE_INT32 false, false)].

Definition CCSUsrMsg_RadioText_stream : list (field_write * bool) :=
  [ (* msg_dst *) (mkwrite 1 0 TYPE_INT32 false, false);
    (* client *) (mkwrite 2 1 TYPE_INT32 false, false);
    (* msg_name *) (mkwrite 3 2 TYPE_STRING false, true);
    (* params *) (mkwrite 4 3 TYPE_STRING true, false)].

Definition CCSUsrMsg_HintText_stream : list (field_write * bool) :=
  [ (* text *) (mkwrite 1 0 TYPE_STRING false, true)].

Definition CCSUsrMsg_KeyHintText_stream : list (field_write * bool) :=
  [ (* hints *) (mkwrite 1 0 TYPE_STRING true, false)].

Definition CCSUsrMsg_ProcessSpottedEntityUpdate_SpottedEntityUpdate_stream : list (field_write * bool) :=
  [ (* entity_idx *) (mkwrite 1 0 TYPE_INT32 false, false);
    (* class_id *) (mkwrite 2 1 TYPE_INT32 false, false);
    (* origin_x *) (mkwrite 3 2 TYPE_INT32 false, false);
    (* origin_y *) (mkwrite 4 3 TYPE_INT32 false, false);
    (* origin_z *) (mkwrite 5 4 TYPE_INT32 false, false);
    (* angle_y *) (mkwrite 6 5 TYPE_INT32 false, false);
    (* defuser *) (mkwrite 7 6 TYPE_BOOL false, false);
    (* player_has_defuser *) (mkwrite 8 7 TYPE_BOOL false, false);
    (* player_has_c4 *) (mkwrite 9 8 TYPE_BOOL false, false)].

Definition CCSUsrMsg_ReloadEffect_stream : list (field_write * bool) :=
  [ (* entidx *) (mkwrite 1 0 TYPE_INT32 false, false);
    (* actanim *) (mkwrite 2 1 TYPE_INT32 false, false)].

Definition CCSUsrMsg_AdjustMoney_stream : list (field_write * bool) :=
  [ (* amount *) (mkwrite 1 0 TYPE_INT32 false, false)].

Definition CCSUsrMsg_KillCam_stream : list (field_write * bool) :=
  [ (* obs_mode *) (mkwrite 1 0 TYPE_INT32 false, false);
    (* first_target *) (mkwrite 2 1 TYPE_INT32 false, false);
    (* second_target *) (mkwrite 3 2 TYPE_INT32 false, false)].

Definition CCSUsrMsg_DesiredTimescale_stream : list (field_write * bool) :=
  [ (* desired_timescale *) (mkwrite 1 0 TYPE_FLOAT false, false);
    (* duration_realtime_sec *) (mkwrite 2 1 TYPE_FLOAT false, false);
    (* interpolator_type *) (mkwrite 3 2 TYPE_INT32 false, false);
    (* start_blend_time *) (mkwrite 4 3 TYPE_FLOAT false, false)].

Definition CCSUsrMsg_CurrentTimescale_stream : list (field_write * bool) :=
  [ (* cur_timescale *) (mkwrite 1 0 TYPE_FLOAT false, false)].

Definition CCSUsrMsg_AchievementEvent_stream : list (field_write * bool) :=
  [ (* achievement *) (mkwrite 1 0 TYPE_INT32 false, false);
    (* count *) (mkwrite 2 1 TYPE_INT32 false, false);
    (* user_id *) (mkwrite 3 2 TYPE_INT32 false, false)].

Definition CCSUsrMsg_MatchEndConditions_stream : list (field_write * bool) :=
  [ (* fraglimit *) (mkwrite 1 0 TYPE_INT32 false, false);
    (* mp_maxrounds *) (mkwrite 2 1 TYPE_INT32 false, false);
    (* mp_winlimit *) (mkwrite 3 2 TYPE_INT32 false, false);
    (* mp_timelimit *) (mkwrite 4 3 TYPE_INT32 false, false)].

Definition CCSUsrMsg_DisplayInventory_stream : list (field_write * bool) :=
  [ (* display *) (mkwrite 1 0 TYPE_BOOL false, false);
    (* user_id *) (mkwrite 2 1 TYPE_INT32 false, false)].

Definition CCSUsrMsg_CallVoteFailed_stream : list (field_write * bool) :=
  [ (* reason *) (mkwrite 1 0 TYPE_INT32 false, false);
    (* time *) (mkwrite 2 1 TYPE_INT32 false, false)].

Definition CCSUsrMsg_VoteStart_stream : list (field_write * bool) :=
  [ (* team *) (mkwrite 1 0 TYPE_INT32 false, false);
    (* ent_idx *) (mkwrite 2 1 TYPE_INT32 false, false);
    (* vote_type *) (mkwrite 3 2 TYPE_INT32 false, false);
    (* disp_str *) (mkwrite 4 3 TYPE_STRING false, true);
    (* details_str *) (mkwrite 5 4 TYPE_STRING false, true);
    (* other_team_str *) (mkwrite 6 5 TYPE_STRING false, true);
    (* is_yes_no_vote *) (mkwrite 7 6 TYPE_BOOL false, false)].

Definition CCSUsrMsg_VotePass_stream : list (field_write * bool) :=
  [ (* team *) (mkwrite 1 0 TYPE_INT32 false, false);
    (* vote_type *) (mkwrite 2 1 TYPE_INT32 false, false);
    (* disp_str *) (mkwrite 3 2 TYPE_STRING false, true);
    (* details_str *) (mkwrite 4 3 TYPE_STRING false, true)].

Definition CCSUsrMsg_VoteFailed_stream : list (field_write * bool) :=
  [ (* team *) (mkwrite 1 0 TYPE_INT32 false, false);
    (* reason *) (mkwrite 2 1 TYPE_INT32 false, false)].

Definition CCSUsrMsg_VoteSetup_stream : list (field_write * bool) :=
  [ (* potential_issues *) (mkwrite 1 0 TYPE_STRING true, false)].

Definition CCSUsrMsg_SendLastKillerDamageToClient_stream : list (field_write * bool) :=
  [ (* num_hits_given *) (mkwrite 1 0 TYPE_INT32 false, false);
    (* damage_given *) (mkwrite 2 1 TYPE_INT32 false, false);
    (* num_hits_taken *) (mkwrite 3 2 TYPE_INT32 false, false);
    (* damage_taken *) (mkwrite 4 3 TYPE_INT32 false, false)].

Definition CCSUsrMsg_ItemPickup_stream : list (field_write * bool) :=
  [ (* item *) (mkwrite 1 0 TYPE_STRING false, true)].

Definition CCSUsrMsg_ShowMenu_stream : list (field_write * bool) :=
  [ (* bits_valid_slots *) (mkwrite 1 0 TYPE_INT32 false, false);
    (* display_time *) (mkwrite 2 1 TYPE_INT32 false, false);
    (* menu_string *) (mkwrite 3 2 TYPE_STRING false, true)].

Definition CCSUsrMsg_BarTime_stream : list (field_write * bool) :=
  [ (* time *) (mkwrite 1 0 TYPE_STRING false, true)].

Definition CCSUsrMsg_AmmoDenied_stream : list (field_write * bool) :=
  [ (* ammoidx *) (mkwrite 1 0 TYPE_INT32 false, false)].

Definition CCSUsrMsg_MarkAchievement_stream : list (field_write * bool) :=
  [ (* achievement *) (mkwrite 1 0 TYPE_STRING false, true)].

Definition CCSUsrMsg_ItemDrop_stream : list (field_write * bool) :=
  [ (* itemid *) (mkwrite 1 0 TYPE_INT64 false, false);
    (* death *) (mkwrite 2 1 TYPE_BOOL false, false)].

Definition CCSUsrMsg_GlowPropTurnOff_stream : list (field_write * bool) :=
  [ (* entidx *) (mkwrite 1 0 TYPE_INT32 false, false)].

Definition CCSUsrMsg_RoundBackupFilenames_stream : list (field_write * bool) :=
  [ (* count *) (mkwrite 1 0 TYPE_INT32 false, false);
    (* index *) (mkwrite 2 1 TYPE_INT32 false, false);
    (* filename *) (mkwrite 3 2 TYPE_STRING false, true);
    (* nicename *) (mkwrite 4 3 TYPE_STRING false, true)].

Definition CCSUsrMsg_ResetHud_stream : list (field_write * bool) :=
  [ (* reset *) (mkwrite 1 0 TYPE_BOOL false, false)].

Definition CCSUsrMsg_GameTitle_stream : list (field_write * bool) :=
  [ (* dummy *) (mkwrite 1 0 TYPE_INT32 false, false)].

Definition CCSUsrMsg_RequestState_stream : list (field_write * bool) :=
  [ (* dummy *) (mkwrite 1 0 TYPE_INT32 false, false)].

Definition CCSUsrMsg_StopSpectatorMode_stream : list (field_write * bool) :=
  [ (* dummy *) (mkwrite 1 0 TYPE_INT32 false, false)].

Definition CCSUsrMsg_DisconnectToLobby_stream : list (field_write * bool) :=
  [ (* dummy *) (mkwrite 1 0 TYPE_INT32 false, false)].

Definition CCSUsrMsg_WarmupHasEnded_stream : list (field_write * bool) :=
  [ (* dummy *) (mkwrite 1 0 TYPE_INT32 false, false)].

Definition CCSUsrMsg_ClientInfo_stream : list (field_write * bool) :=
  [ (* dummy *) (mkwrite 1 0 TYPE_INT32 false, false)].

(** The classes with their statements. *)
Definition stream_classes : list (message_class * list (field_write * bool)) :=
  [(CNETMsg_Tick, CNETMsg_Tick_stream);
   (CNETMsg_SignonState, CNETMsg_SignonState_stream);
   (CSVCMsg_ServerInfo, CSVCMsg_ServerInfo_stream);
   (CSVCMsg_PacketEntities, CSVCMsg_PacketEntities_stream);
   (CMsgVector, CMsgVector_stream);
   (CMsgVector2D, CMsgVector2D_stream);
   (CMsgQAngle, CMsgQAngle_stream);
   (CMsgRGBA, CMsgRGBA_stream);
   (CNETMsg_StringCmd, CNETMsg_StringCmd_stream);
   (CMsg_CVars_CVar, CMsg_CVars_CVar_stream);
   (CNETMsg_NOP, CNETMsg_NOP_stream);
   (CNETMsg_Disconnect, CNETMsg_Disconnect_stream);
   (CNETMsg_File, CNETMsg_File_stream);
   (CSVCMsg_ClassInfo_class_t, CSVCMsg_ClassInfo_class_t_stream);
   (CSVCMsg_SendTable_sendprop_t, CSVCMsg_SendTable_sendprop_t_stream);
   (CSVCMsg_Print, CSVCMsg_Print_stream);
   (CSVCMsg_SetPause, CSVCMsg_SetPause_stream);
   (CSVCMsg_SetView, CSVCMsg_SetView_stream);
   (CSVCMsg_CreateStringTable, CSVCMsg_CreateStringTable_stream);
   (CSVCMsg_UpdateStringTable, CSVCMsg_UpdateStringTable_stream);
   (CSVCMsg_VoiceInit, CSVCMsg_VoiceInit_stream);
   (CSVCMsg_VoiceData, CSVCMsg_VoiceData_stream);
   (CSVCMsg_Prefetch, CSVCMsg_Prefetch_stream);
   (CSVCMsg_GetCvarValue, CSVCMsg_GetCvarValue_stream);
   (CSVCMsg_Menu, CSVCMsg_Menu_stream);
   (CSVCMsg_UserMessage, CSVCMsg_UserMessage_stream);
   (CSVCMsg_GameEvent_key_t, CSVCMsg_GameEvent_key_t_stream);
   (CSVCMsg_GameEventList_key_t, CSVCMsg_GameEventList_key_t_stream);
   (CSVCMsg_TempEntities, CSVCMsg_TempEntities_stream);
   (CSVCMsg_Sounds_sounddata_t, CSVCMsg_Sounds_sounddata_t_stream);
   (CCSUsrMsg_VGUIMenu_Subkey, CCSUsrMsg_VGUIMenu_Subkey_stream);
   (CCSUsrMsg_Geiger, CCSUsrMsg_Geiger_stream);
   (CCSUsrMsg_Train, CCSUsrMsg_Train_stream);
   (CCSUsrMsg_HudText, CCSUsrMsg_HudText_stream);
   (CCSUsrMsg_SayText, CCSUsrMsg_SayText_stream);
   (CCSUsrMsg_SayText2, CCSUsrMsg_SayText2_stream);
   (CCSUsrMsg_TextMsg, CCSUsrMsg_TextMsg_stream);
   (CCSUsrMsg_Shake, CCSUsrMsg_Shake_stream);
   (CCSUsrMsg_Rumble, CCSUsrMsg_Rumble_stream);
   (CCSUsrMsg_CloseCaption, CCSUsrMsg_CloseCaption_stream);
   (CCSUsrMsg_CloseCaptionDirect, CCSUsrMsg_CloseCaptionDirect_stream);
   (CCSUsrMsg_SendAudio, CCSUsrMsg_SendAudio_stream);
   (CCSUsrMsg_RawAudio, CCSUsrMsg_RawAudio_stream);
   (CCSUsrMsg_VoiceMask_PlayerMask, CCSUsrMsg_VoiceMask_PlayerMask_stream);
   (CCSUsrMsg_RadioText, CCSUsrMsg_RadioText_stream);
   (CCSUsrMsg_HintText, CCSUsrMsg_HintText_stream);
   (CCSUsrMsg_KeyHintText, CCSUsrMsg_KeyHintText_stream);
   (CCSUsrMsg_ProcessSpottedEntityUpdate_SpottedEntityUpdate, CCSUsrMsg_ProcessSpottedEntityUpdate_SpottedEntityUpdate_stream);
   (CCSUsrMsg_ReloadEffect, CCSUsrMsg_ReloadEffect_stream);
   (CCSUsrMsg_AdjustMoney, CCSUsrMsg_AdjustMoney_stream);
   (CCSUsrMsg_KillCam, CCSUsrMsg_KillCam_stream);
   (CCSUsrMsg_DesiredTimescale, CCSUsrMsg_DesiredTimescale_stream);
   (CCSUsrMsg_CurrentTimescale, CCSUsrMsg_CurrentTimescale_stream);
   (CCSUsrMsg_AchievementEvent, CCSUsrMsg_AchievementEvent_stream);
   (CCSUsrMsg_MatchEndConditions, CCSUsrMsg_MatchEndConditions_stream);
   (CCSUsrMsg_DisplayInventory, CCSUsrMsg_DisplayInventory_stream);
   (CCSUsrMsg_CallVoteFailed, CCSUsrMsg_CallVoteFailed_stream);
   (CCSUsrMsg_VoteStart, CCSUsrMsg_VoteStart_stream);
   (CCSUsrMsg_VotePass, CCSUsrMsg_VotePass_stream);
   (CCSUsrMsg_VoteFailed, CCSUsrMsg_VoteFailed_stream);
   (CCSUsrMsg_VoteSetup, CCSUsrMsg_VoteSetup_stream);
   (CCSUsrMsg_SendLastKillerDamageToClient, CCSUsrMsg_SendLastKillerDamageToClient_stream);
   (CCSUsrMsg_ItemPickup, CCSUsrMsg_ItemPickup_stream);
   (CCSUsrMsg_ShowMenu, CCSUsrMsg_ShowMenu_stream);
   (CCSUsrMsg_BarTime, CCSUsrMsg_BarTime_stream);
   (CCSUsrMsg_AmmoDenied, CCSUsrMsg_AmmoDenied_stream);
   (CCSUsrMsg_MarkAchievement, CCSUsrMsg_MarkAchievement_stream);
   (CCSUsrMsg_ItemDrop, CCSUsrMsg_ItemDrop_stream);
   (CCSUsrMsg_GlowPropTurnOff, CCSUsrMsg_GlowPropTurnOff_stream);
   (CCSUsrMsg_RoundBackupFilenames, CCSUsrMsg_RoundBackupFilenames_stream);
   (CCSUsrMsg_ResetHud, CCSUsrMsg_ResetHud_stream);
   (CCSUsrMsg_GameTitle, CCSUsrMsg_GameTitle_stream);
   (CCSUsrMsg_RequestState, CCSUsrMsg_RequestState_stream);
   (CCSUsrMsg_StopSpectatorMode, CCSUsrMsg_StopSpectatorMode_stream);
   (CCSUsrMsg_DisconnectToLobby, CCSUsrMsg_DisconnectToLobby_stream);
   (CCSUsrMsg_WarmupHasEnded, CCSUsrMsg_WarmupHasEnded_stream);
   (CCSUsrMsg_ClientInfo, CCSUsrMsg_ClientInfo_stream)].
