(* ===== verification/TextGen.v ===== *)
(** [StringOutputStream] (google/protobuf/io/zero_copy_stream_impl_lite.cc) and
    [TextFormat::Printer::TextGenerator] (text_format.cc): text that goes, indented, through
    the buffers of a growing string. *)

From S2P Require Import Prelude CMem.

(** * [StringOutputStream] *)

(** The string that is written to: its characters and its capacity. *)
Record target := mktarget { t_chars : list Z; t_capacity : Z }.

(** The capacity of a string of capacity [capacity] that must hold [n] characters: how far it
    grows is the library's choice. *)
Class StringGrowth := grow : Z -> Z -> Z.
Class StringGrowthLaws (G : StringGrowth) := {
  grow_enough capacity n : n <= grow capacity n;
  grow_bounded capacity n : 0 <= capacity <= n -> 16 <= n -> grow capacity n <= 2 * n
}.

(** What the library of the compiler does: one and a half times, at least what is asked for up
    to the next 16k + 15. *)
Definition usual_growth : StringGrowth := fun capacity n =>
  Z.max (n / 16 * 16 + 15) (capacity + capacity / 2).

#[export] Instance usual_growth_laws : StringGrowthLaws usual_growth.
Proof.
  split; intros c n; unfold grow, usual_growth.
  - pose proof (Z.div_mod n 16 ltac:(lia)). pose proof (Z.mod_pos_bound n 16 ltac:(lia)). lia.
  - intros Hc Hn. pose proof (Z.mul_div_le n 16 ltac:(lia)). pose proof (Z.mul_div_le c 2 ltac:(lia)). lia.
Qed.

Section Generator.
Context `{StringGrowth}.

(** [string::resize], [STLStringResizeUninitialized]; a negative size is a huge one. *)
Definition string_resize (n : Z) (t : target) : result target :=
  if n <? 0 then Fault InvalidParameter
  else
    let chars := resize (Z.to_nat n) 0 (t_chars t) in
    Ok (mktarget chars (if n <=? t_capacity t then t_capacity t else grow (t_capacity t) n)).

Definition kMinimumSize : Z := 16.

(** The new buffer, as an offset in the string, and its size. *)
Definition StringOutputStream_Next (t : target) : result (Z * Z * target) :=
  let old_size := s32 (Z.of_nat (length (t_chars t))) in
  t ← string_resize (if old_size <? t_capacity t then t_capacity t
                     else Z.max (s32 (old_size * 2)) (kMinimumSize + 0)) t;
  Ok (old_size, s32 (Z.of_nat (length (t_chars t))) - old_size, t).

(** The [GOOGLE_CHECK]s end the process. *)
Definition StringOutputStream_BackUp (count : Z) (t : target) : result target :=
  if (0 <=? count) && (count <=? Z.of_nat (length (t_chars t)))
  then string_resize (Z.of_nat (length (t_chars t)) - count) t
  else Fault AssertFailed.

(** * [TextGenerator] *)

(** [g_buffer] is an offset in the string of [g_output]; while [g_buffer_size] is zero, it is
    not used. *)
Record TextGenerator := mkgen {
  g_output : target;
  g_buffer : Z;
  g_buffer_size : Z;
  g_at_start_of_line : bool;
  g_failed : bool;
  g_indent : list Z;
  g_initial_indent_level : Z
}.

Definition TextGenerator_new (output : target) (initial_indent_level : Z) : TextGenerator :=
  mkgen output 0 0 true false (replicate (Z.to_nat (initial_indent_level * 2)) 32) initial_indent_level.

Definition set_output (t : target) (buffer size : Z) (g : TextGenerator) : TextGenerator :=
  mkgen t buffer size (g_at_start_of_line g) (g_failed g) (g_indent g) (g_initial_indent_level g).
Definition set_at_start (b : bool) (g : TextGenerator) : TextGenerator :=
  mkgen (g_output g) (g_buffer g) (g_buffer_size g) b (g_failed g) (g_indent g) (g_initial_indent_level g).
Definition set_indent (i : list Z) (g : TextGenerator) : TextGenerator :=
  mkgen (g_output g) (g_buffer g) (g_buffer_size g) (g_at_start_of_line g) (g_failed g) i
    (g_initial_indent_level g).

Abbreviation Gen := (ST TextGenerator).

Definition Indent : Gen unit := st_modify (fun g => set_indent (g_indent g ++ [32; 32]) g).

(** A fatal error of the debug build. *)
Definition Outdent : Gen unit :=
  g ← st_get;
  let size := Z.of_nat (length (g_indent g)) in
  if (size =? 0) || (size <? g_initial_indent_level g * 2) then st_fault AssertFailed
  else st_put (set_indent (take (Z.to_nat (size - 2)) (g_indent g)) g).

(** [memcpy(buffer_, data, n)]. *)
Definition copy_to_buffer (data : list Z) : Gen unit :=
  g ← st_get;
  match data with
  | [] => mret tt
  | _ =>
      chars ← st_lift (store_at (t_chars (g_output g)) (g_buffer g) data);
      st_put (set_output (mktarget chars (t_capacity (g_output g))) (g_buffer g) (g_buffer_size g) g)
  end.

(** One round of the [while] of [Write]; [Next] never fails, but a negative size of the buffer
    is a huge one for [memcpy]. *)
Definition write_body (data : list Z) : Gen (list Z + unit) :=
  g ← st_get;
  if g_buffer_size g <? Z.of_nat (length data) then
    if g_buffer_size g <? 0 then st_fault (OutOfBounds (g_buffer g))
    else
      copy_to_buffer (take (Z.to_nat (g_buffer_size g)) data);;
      g ← st_get;
      r ← st_lift (StringOutputStream_Next (g_output g));
      let '(buffer, size, t) := (r : Z * Z * target) in
      st_put (set_output t buffer size g);;
      mret (inl (drop (Z.to_nat (g_buffer_size g)) data))
  else
    copy_to_buffer data;;
    g ← st_get;
    st_put (set_output (g_output g) (g_buffer g + Z.of_nat (length data))
      (g_buffer_size g - Z.of_nat (length data)) g);;
    mret (inr tt).

(** Every buffer takes a character: two rounds more than there are characters are enough. *)
Definition write_data (data : list Z) : Gen unit :=
  st_loop (S (S (length data))) write_body data.

(** [Write]; the indent is written by the same function at the start of a line. *)
Definition Write (data : list Z) : Gen unit :=
  g ← st_get;
  if g_failed g then mret tt
  else
    match data with
    | [] => mret tt
    | _ =>
        (if g_at_start_of_line g then
           st_put (set_at_start false g);;
           match g_indent g with [] => mret tt | indent => write_data indent end
         else mret tt);;
        write_data data
    end.

(** [Print]: [line] is the text from [pos] on to [i]. *)
Fixpoint print_from (line text : list Z) : Gen unit :=
  match text with
  | [] => Write line
  | c :: text =>
      if c =? 10 then
        Write (line ++ [c]);;
        st_modify (set_at_start true);;
        print_from [] text
      else print_from (line ++ [c]) text
  end.

Definition Print (text : list Z) : Gen unit := print_from [] text.

(** The destructor. *)
Definition TextGenerator_destroy (g : TextGenerator) : result target :=
  if negb (g_failed g) && (0 <? g_buffer_size g)
  then StringOutputStream_BackUp (g_buffer_size g) (g_output g)
  else Ok (g_output g).
End Generator.
