(* ===== verification/CodedOut.v ===== *)
(** [CodedOutputStream] over the buffers of an output stream (google/protobuf/io/coded_stream.h,
    coded_stream.cc), [ArrayOutputStream] (io/zero_copy_stream_impl_lite.cc), the stream writers
    of wire_format_lite and wire_format.cc, and the functions of message_lite.cc that serialise
    through them. *)

From S2P Require Import Prelude CMem Coded Wire Messages TextGen.

(** * Output streams *)

(** [Next] hands out a buffer: where it begins, counted in bytes of the stream, and its size.
    [lend] is what the holder of the buffer does: it stores bytes there. *)
Class ZeroCopyOutputStream (T : Type) := {
  Next : T -> result (option (Z * Z) * T);
  BackUp : Z -> T -> result T;
  ByteCount : T -> Z;
  lend : Z -> list Z -> T -> result T
}.

Record ArrayOutputStream := mkarrayout {
  ao_data : list Z;
  ao_size : Z;
  ao_block_size : Z;
  ao_position : Z;
  ao_last_returned_size : Z
}.

Definition ArrayOutputStream_new (data : list Z) (size block_size : Z) : ArrayOutputStream :=
  mkarrayout data size (if 0 <? block_size then block_size else size) 0 0.

Definition ArrayOutputStream_Next (a : ArrayOutputStream)
    : result (option (Z * Z) * ArrayOutputStream) :=
  if ao_position a <? ao_size a then
    let n := Z.min (ao_block_size a) (ao_size a - ao_position a) in
    Ok (Some (ao_position a, n),
        mkarrayout (ao_data a) (ao_size a) (ao_block_size a) (ao_position a + n) n)
  else Ok (None, mkarrayout (ao_data a) (ao_size a) (ao_block_size a) (ao_position a) 0).

(** The [GOOGLE_CHECK]s end the process. *)
Definition ArrayOutputStream_BackUp (count : Z) (a : ArrayOutputStream) : result ArrayOutputStream :=
  if (0 <? ao_last_returned_size a) && (count <=? ao_last_returned_size a) && (0 <=? count)
  then Ok (mkarrayout (ao_data a) (ao_size a) (ao_block_size a) (ao_position a - count) 0)
  else Fault AssertFailed.

Definition ArrayOutputStream_ByteCount (a : ArrayOutputStream) : Z := ao_position a.

#[export] Instance array_output : ZeroCopyOutputStream ArrayOutputStream := {|
  Next := ArrayOutputStream_Next;
  BackUp := ArrayOutputStream_BackUp;
  ByteCount := ArrayOutputStream_ByteCount;
  lend p bs a :=
    data ← store_at (ao_data a) p bs;
    Ok (mkarrayout data (ao_size a) (ao_block_size a) (ao_position a) (ao_last_returned_size a))
|}.

Definition StringOutputStream_ByteCount (t : target) : Z := Z.of_nat (length (t_chars t)).

#[export] Instance string_output `{StringGrowth} : ZeroCopyOutputStream target := {|
  Next t := r ← StringOutputStream_Next t;
            let '(buffer, size, t) := (r : Z * Z * target) in Ok (Some (buffer, size), t);
  BackUp := StringOutputStream_BackUp;
  ByteCount := StringOutputStream_ByteCount;
  lend p bs t := chars ← store_at (t_chars t) p bs; Ok (mktarget chars (t_capacity t))
|}.

(** * [CodedOutputStream] *)

Section CodedOutputStream.
Context {T : Type} `{ZeroCopyOutputStream T}.

(** A null [buffer_] is [None]. *)
Record CodedOutputStream := mkoutput {
  output_ : T;
  out_buffer_ : option Z;
  buffer_size_ : Z;
  total_bytes_ : Z;
  had_error_ : bool
}.

Abbreviation Output := (ST CodedOutputStream).

Definition OutByteCount (o : CodedOutputStream) : Z := total_bytes_ o - buffer_size_ o.

Definition OutAdvance (amount : Z) : Output unit :=
  st_modify (fun o => mkoutput (output_ o) ((fun p => p + amount) <$> out_buffer_ o)
    (buffer_size_ o - amount) (total_bytes_ o) (had_error_ o)).

Definition OutRefresh : Output bool :=
  o ← st_get;
  r ← st_lift (Next (output_ o));
  match r with
  | (Some (void_buffer, size), t) =>
      st_put (mkoutput t (Some void_buffer) size (s32 (total_bytes_ o + size)) (had_error_ o));;
      mret true
  | (None, t) => st_put (mkoutput t None 0 (total_bytes_ o) true);; mret false
  end.

(** The refresh of the constructor may fail: that is no error yet. *)
Definition CodedOutputStream_new (output : T) : result CodedOutputStream :=
  r ← OutRefresh (mkoutput output None 0 0 false);
  let o := snd (r : bool * CodedOutputStream) in
  Ok (mkoutput (output_ o) (out_buffer_ o) (buffer_size_ o) (total_bytes_ o) false).

Definition CodedOutputStream_destroy (o : CodedOutputStream) : result T :=
  if 0 <? buffer_size_ o then BackUp (buffer_size_ o) (output_ o) else Ok (output_ o).

(** [memcpy(buffer_, data, n)]. *)
Definition copy_out (data : list Z) : Output unit :=
  o ← st_get;
  match data, out_buffer_ o with
  | [], _ => mret tt
  | _, None => st_fault NullDeref
  | _, Some p =>
      t ← st_lift (lend p data (output_ o));
      st_put (mkoutput t (out_buffer_ o) (buffer_size_ o) (total_bytes_ o) (had_error_ o))
  end.

(** Rounds of a loop that uses up [n] bytes: every new buffer holds some. *)
Definition out_rounds (n : nat) : nat := S (S n).

Definition skip_body (count : Z) : Output (Z + bool) :=
  o ← st_get;
  if buffer_size_ o <? count then
    ok ← OutRefresh;
    mret (if (ok : bool) then inl (count - buffer_size_ o) else inr false)
  else OutAdvance count;; mret (inr true).

Definition OutSkip (count : Z) : Output bool :=
  if count <? 0 then mret false else st_loop (out_rounds (Z.to_nat count)) skip_body count.

(** The buffer and its size. *)
Definition OutGetDirectBufferPointer : Output (option (option Z * Z)) :=
  o ← st_get;
  ok ← (if buffer_size_ o =? 0 then OutRefresh else mret true) : Output bool;
  o ← st_get;
  mret (if (ok : bool) then Some (out_buffer_ o, buffer_size_ o) else None).

(** The result is a pointer that may be null. *)
Definition GetDirectBufferForNBytesAndAdvance (size : Z) : Output (option Z) :=
  o ← st_get;
  if buffer_size_ o <? size then mret None
  else OutAdvance size;; mret (out_buffer_ o).

(** One round of the [while] of [WriteRaw]; a negative number is a huge one for [memcpy]. *)
Definition write_raw_body (data : list Z) : Output (list Z + unit) :=
  o ← st_get;
  if buffer_size_ o <? Z.of_nat (length data) then
    if buffer_size_ o <? 0 then st_fault (OutOfBounds (buffer_size_ o))
    else
      copy_out (take (Z.to_nat (buffer_size_ o)) data);;
      ok ← OutRefresh;
      mret (if (ok : bool) then inl (drop (Z.to_nat (buffer_size_ o)) data) else inr tt)
  else copy_out data;; OutAdvance (Z.of_nat (length data));; mret (inr tt).

Definition WriteRaw (data : list Z) : Output unit :=
  st_loop (out_rounds (length data)) write_raw_body data.

(** The size becomes an [int]: one that does not fit is negative. *)
Definition CodedWriteString (str : list Z) : Output unit :=
  if s32 (Z.of_nat (length str)) <? 0 then st_fault (OutOfBounds (s32 (Z.of_nat (length str))))
  else WriteRaw (take (Z.to_nat (s32 (Z.of_nat (length str)))) str).

(** The fast path writes to the buffer, the slow one to an array that [WriteRaw] copies. *)
Definition write_fixed (bs : list Z) : Output unit :=
  o ← st_get;
  if Z.of_nat (length bs) <=? u32 (buffer_size_ o) then
    copy_out bs;; OutAdvance (Z.of_nat (length bs))
  else WriteRaw bs.

Definition WriteLittleEndian32 (value : Z) : Output unit := write_fixed (WriteLittleEndian32ToArray value).
Definition WriteLittleEndian64 (value : Z) : Output unit := write_fixed (WriteLittleEndian64ToArray value).

(** [while (value > 0x7F) { bytes\[size++\] = ...; value >>= 7; }] and the last byte. *)
Fixpoint varint_bytes (fuel : nat) (value : Z) : list Z :=
  match fuel with
  | O => []
  | S fuel =>
      if 0x7F <? value
      then Z.lor (Z.land (u8 value) 0x7F) 0x80 :: varint_bytes fuel (Z.shiftr value 7)
      else [Z.land (u8 value) 0x7F]
  end.

Definition WriteVarint32 (value : Z) : Output unit :=
  o ← st_get;
  if kMaxVarint32Bytes <=? buffer_size_ o then
    let bs := WriteVarint32FallbackToArray value in
    copy_out bs;; OutAdvance (Z.of_nat (length bs))
  else WriteRaw (varint_bytes (Z.to_nat kMaxVarint32Bytes) value).

Definition WriteVarint64 (value : Z) : Output unit :=
  o ← st_get;
  if kMaxVarintBytes <=? buffer_size_ o then
    let bs := WriteVarint64ToArray value in
    copy_out bs;; OutAdvance (Z.of_nat (length bs))
  else WriteRaw (varint_bytes (Z.to_nat kMaxVarintBytes) value).

Definition WriteVarint32SignExtended (value : Z) : Output unit :=
  if value <? 0 then WriteVarint64 (u64 value) else WriteVarint32 (u32 value).

Definition CodedWriteTag (value : Z) : Output unit := WriteVarint32 value.

(** * [WireFormatLite] *)

Definition WriteTag (field_number type : Z) : Output unit := CodedWriteTag (MakeTag field_number type).

Definition WriteInt32NoTag (value : Z) : Output unit := WriteVarint32SignExtended value.
Definition WriteInt64NoTag (value : Z) : Output unit := WriteVarint64 (u64 value).
Definition WriteUInt32NoTag (value : Z) : Output unit := WriteVarint32 value.
Definition WriteUInt64NoTag (value : Z) : Output unit := WriteVarint64 value.
Definition WriteSInt32NoTag (value : Z) : Output unit := WriteVarint32 (WireZigZagEncode32 value).
Definition WriteFixed32NoTag (value : Z) : Output unit := WriteLittleEndian32 value.
Definition WriteFixed64NoTag (value : Z) : Output unit := WriteLittleEndian64 value.
Definition WriteFloatNoTag (value : Z) : Output unit := WriteLittleEndian32 value.
Definition WriteBoolNoTag (value : Z) : Output unit := WriteVarint32 (if value =? 0 then 0 else 1).

Definition WriteInt32 (n value : Z) : Output unit := WriteTag n WIRETYPE_VARINT;; WriteInt32NoTag value.
Definition WriteInt64 (n value : Z) : Output unit := WriteTag n WIRETYPE_VARINT;; WriteInt64NoTag value.
Definition WriteUInt32 (n value : Z) : Output unit := WriteTag n WIRETYPE_VARINT;; WriteUInt32NoTag value.
Definition WriteUInt64 (n value : Z) : Output unit := WriteTag n WIRETYPE_VARINT;; WriteUInt64NoTag value.
Definition WriteSInt32 (n value : Z) : Output unit := WriteTag n WIRETYPE_VARINT;; WriteSInt32NoTag value.
Definition WriteFixed32 (n value : Z) : Output unit := WriteTag n WIRETYPE_FIXED32;; WriteFixed32NoTag value.
Definition WriteFixed64 (n value : Z) : Output unit := WriteTag n WIRETYPE_FIXED64;; WriteFixed64NoTag value.
Definition WriteFloat (n value : Z) : Output unit := WriteTag n WIRETYPE_FIXED32;; WriteFloatNoTag value.
Definition WriteBool (n value : Z) : Output unit := WriteTag n WIRETYPE_VARINT;; WriteBoolNoTag value.

(** The [GOOGLE_CHECK] ends the process. *)
Definition WriteString (n : Z) (value : list Z) : Output unit :=
  WriteTag n WIRETYPE_LENGTH_DELIMITED;;
  if INT_MAX <? u32 (Z.of_nat (length value)) then st_fault AssertFailed
  else
    WriteVarint32 (u32 (Z.of_nat (length value)));;
    CodedWriteString value.
Definition WriteBytes (n : Z) (value : list Z) : Output unit :=
  WriteTag n WIRETYPE_LENGTH_DELIMITED;;
  if INT_MAX <? u32 (Z.of_nat (length value)) then st_fault AssertFailed
  else
    WriteVarint32 (u32 (Z.of_nat (length value)));;
    CodedWriteString value.

(** * [WireFormat::SerializeUnknownFields] *)

(** One round of the loop over the set; for a group, the loop over its fields. *)
Fixpoint SerializeUnknownField (field : UnknownField) : Output unit :=
  match field with
  | UVarint n varint => WriteVarint32 (MakeTag n WIRETYPE_VARINT);; WriteVarint64 varint
  | UFixed32 n fixed32 => WriteVarint32 (MakeTag n WIRETYPE_FIXED32);; WriteLittleEndian32 fixed32
  | UFixed64 n fixed64 => WriteVarint32 (MakeTag n WIRETYPE_FIXED64);; WriteLittleEndian64 fixed64
  | ULengthDelimited n data =>
      WriteVarint32 (MakeTag n WIRETYPE_LENGTH_DELIMITED);;
      WriteVarint32 (u32 (Z.of_nat (length data)));;
      CodedWriteString data
  | UGroup n group =>
      WriteVarint32 (MakeTag n WIRETYPE_START_GROUP);;
      foldr (fun f (rest : Output unit) => SerializeUnknownField f;; rest) (mret tt) group;;
      WriteVarint32 (MakeTag n WIRETYPE_END_GROUP)
  end.

Definition SerializeUnknownFields (unknown_fields : list UnknownField) : Output unit :=
  foldr (fun f (rest : Output unit) => SerializeUnknownField f;; rest) (mret tt) unknown_fields.
End CodedOutputStream.
Arguments CodedOutputStream : clear implicits.

Abbreviation Output T := (ST (CodedOutputStream T)).

(** * [SerializeWithCachedSizes] of the generated classes *)

(** The writers of strings that the generated code calls for a field that is not repeated are
    not in the tree's copy of wire_format_lite.h: a stream may keep a pointer to the string
    instead of copying it, if it was told to. *)
Class AliasedWriter (T : Type) := {
  WriteStringMaybeAliased : Z -> list Z -> Output T unit;
  WriteBytesMaybeAliased : Z -> list Z -> Output T unit
}.

(** No stream here is told to. *)
Class AliasedWriterLaws (T : Type) `{ZeroCopyOutputStream T, AliasedWriter T} := {
  aliased_string n v : WriteStringMaybeAliased n v = WriteString n v;
  aliased_bytes n v : WriteBytesMaybeAliased n v = WriteBytes n v
}.

Definition copying_writer {T} `{ZeroCopyOutputStream T} : AliasedWriter T := {|
  WriteStringMaybeAliased := WriteString;
  WriteBytesMaybeAliased := WriteBytes
|}.

#[export] Instance copying_writer_laws {T} `{ZeroCopyOutputStream T} :
  AliasedWriterLaws T (H0 := copying_writer).
Proof. by split. Qed.

Section Serialize.
Context {T : Type} `{ZeroCopyOutputStream T, AliasedWriter T}.

Definition stream_int (t : FieldType) (n v : Z) : Output T unit :=
  match t with
  | TYPE_INT32 => WriteInt32 n v
  | TYPE_UINT32 => WriteUInt32 n v
  | TYPE_SINT32 => WriteSInt32 n v
  | TYPE_INT64 => WriteInt64 n v
  | TYPE_UINT64 => WriteUInt64 n v
  | TYPE_FIXED64 => WriteFixed64 n v
  | TYPE_FIXED32 => WriteFixed32 n v
  | TYPE_FLOAT => WriteFloat n v
  | TYPE_BOOL => WriteBool n v
  | TYPE_STRING | TYPE_BYTES => mret tt
  end.

Definition stream_str (t : FieldType) (n : Z) (v : list Z) : Output T unit :=
  match t with TYPE_STRING => WriteString n v | TYPE_BYTES => WriteBytes n v | _ => mret tt end.
Definition stream_aliased (t : FieldType) (n : Z) (v : list Z) : Output T unit :=
  match t with
  | TYPE_STRING => WriteStringMaybeAliased n v
  | TYPE_BYTES => WriteBytesMaybeAliased n v
  | _ => mret tt
  end.

(** The statement of a field, and whether it calls an aliased writer. *)
Definition stream_field (msg : message) (w : field_write * bool) : Output T unit :=
  let '(w, aliased) := w in
  if w_repeated w then
    foldr (fun v (rest : Output T unit) => stream_str (w_type w) (w_number w) v;; rest) (mret tt)
      (get_rep (w_member w) msg)
  else if has (w_member w) msg then
    if is_string (w_type w) then
      (if aliased then stream_aliased else stream_str) (w_type w) (w_number w) (get_str (w_member w) msg)
    else stream_int (w_type w) (w_number w) (get_int (w_member w) msg)
  else mret tt.

(** The statements of a class, in their order. *)
Definition SerializeWithCachedSizes (ws : list (field_write * bool)) (msg : message) : Output T unit :=
  foldr (fun w (rest : Output T unit) => stream_field msg w;; rest)
    (SerializeUnknownFields (unknown_fields_ msg)) ws.

(** * [MessageLite] *)

(** A class with its statements; the results come with the object, whose size is cached.  A
    [ByteSizeConsistencyError] ends the process. *)
Definition SerializeToCodedStream (K : message_class) (ws : list (field_write * bool)) (msg : message)
    : Output T (bool * message) :=
  let '(size, msg) := ByteSize K msg in
  buffer ← GetDirectBufferForNBytesAndAdvance size;
  match buffer with
  | Some p =>
      let bs := SerializeWithCachedSizesToArray K msg in
      o ← st_get;
      t ← st_lift (lend p bs (output_ o));
      st_put (mkoutput t (out_buffer_ o) (buffer_size_ o) (total_bytes_ o) (had_error_ o));;
      if s32 (Z.of_nat (length bs)) =? size then mret (true, msg) else st_fault AssertFailed
  | None =>
      o ← st_get;
      let original_byte_count := OutByteCount o in
      SerializeWithCachedSizes ws msg;;
      o ← st_get;
      if had_error_ o then mret (false, msg)
      else if OutByteCount o - original_byte_count =? size then mret (true, msg)
      else st_fault AssertFailed
  end.

Definition SerializeToZeroCopyStream (K : message_class) (ws : list (field_write * bool))
    (msg : message) (output : T) : result (bool * message * T) :=
  encoder ← CodedOutputStream_new output;
  r ← SerializeToCodedStream K ws msg encoder;
  output ← CodedOutputStream_destroy (snd r);
  Ok (fst r, output).
End Serialize.

(** [AppendPartialToString]: the string is resized and written to as an array. *)
Definition AppendToString (K : message_class) (msg : message) (output : list Z)
    : result (bool * message * list Z) :=
  let old_size := s32 (Z.of_nat (length output)) in
  let '(byte_size, msg) := ByteSize K msg in
  let n := s32 (old_size + byte_size) in
  if n <? 0 then Fault InvalidParameter
  else
    let chars := resize (Z.to_nat n) 0 output in
    let bs := SerializeWithCachedSizesToArray K msg in
    chars ← store_at chars old_size bs;
    if s32 (Z.of_nat (length bs)) =? byte_size then Ok (true, msg, chars) else Fault AssertFailed.

Definition SerializeToString (K : message_class) (msg : message) : result (bool * message * list Z) :=
  AppendToString K msg [].

Definition SerializeAsString (K : message_class) (msg : message) : result (list Z) :=
  r ← AppendToString K msg [];
  let '(ok, _, output) := (r : bool * message * list Z) in
  Ok (if ok then output else []).
