(* ===== verification/CodedSpec.v ===== *)
(** What [CodedInputStream] promises over a flat array: each read takes its value from
    the front of the bytes that are left.  [varint] is the reference decoder of base-128
    integers, [strm] the stream that has given bytes left, [reads] the contract of a
    read; the fast paths, the slow paths and [ExpectTag] all meet it. *)

From S2P Require Import Prelude CMem Coded.

(** * Base-128 integers *)

(** At most [n] bytes, the low seven bits of each, least significant first. *)
Fixpoint varint (n : nat) (bs : list Z) : option (Z * list Z) :=
  match n, bs with
  | S n', b :: r =>
      if b <? 128 then Some (b, r)
      else match varint n' r with
           | Some (v, r') => Some (b - 128 + 128 * v, r')
           | None => None
           end
  | _, _ => None
  end.

Lemma varint_cons n b r : varint (S n) (b :: r) =
  if b <? 128 then Some (b, r)
  else match varint n r with Some (v, r') => Some (b - 128 + 128 * v, r') | None => None end.
Proof. done. Qed.

Definition varint64 (bs : list Z) : option (Z * list Z) :=
  match varint 10 bs with Some (v, r) => Some (u64 v, r) | None => None end.
Definition varint32 (bs : list Z) : option (Z * list Z) :=
  match varint 10 bs with Some (v, r) => Some (u32 v, r) | None => None end.

Lemma byte_check (P : Z -> bool) :
  forallb P (seqZ 0 256) = true -> forall b, is_byte b -> P b = true.
Proof.
  intros H b Hb. rewrite forallb_forall in H. apply H, list_elem_of_In, elem_of_seqZ. exact Hb.
Qed.

Lemma byte_continues b : is_byte b -> (Z.land b 0x80 =? 0) = (b <? 128).
Proof.
  intros Hb. apply eqb_prop.
  by apply (byte_check (fun b => eqb (Z.land b 0x80 =? 0) (b <? 128))).
Qed.

Lemma byte_low7 b : Z.land b 0x7F = b mod 128.
Proof. apply (Z.land_ones b 7). lia. Qed.

Lemma byte_low7_small b : is_byte b -> b < 128 -> Z.land b 0x7F = b.
Proof. unfold is_byte. intros. rewrite byte_low7. apply Z.mod_small. lia. Qed.

Lemma byte_low7_big b : is_byte b -> 128 <= b -> Z.land b 0x7F = b - 128.
Proof.
  unfold is_byte. intros. rewrite byte_low7.
  replace b with (b - 128 + 1 * 128) at 1 by lia. rewrite Z.mod_add by lia.
  apply Z.mod_small. lia.
Qed.

Lemma varint_suffix n bs v r : varint n bs = Some (v, r) ->
  exists a, bs = a ++ r /\ (0 < length a <= n)%nat.
Proof.
  revert bs v r. induction n as [|n IH]; intros [|b bs] v r E; try done. simpl in E.
  destruct (b <? 128); [injection E as <- <-; exists [b]; simpl; split; [done|lia]|].
  destruct (varint n bs) as [[v' r']|] eqn:E'; [|done]. injection E as <- <-.
  destruct (IH _ _ _ E') as (a & -> & Ha). exists (b :: a). simpl. split; [done|lia].
Qed.

Lemma varint_nonneg n bs v r : Forall is_byte bs -> varint n bs = Some (v, r) -> 0 <= v.
Proof.
  revert bs v r. induction n as [|n IH]; intros [|b bs] v r Hb E; try done. simpl in E.
  apply Forall_cons in Hb as [Hb Hbs]. unfold is_byte in Hb.
  destruct (b <? 128) eqn:Eb; [injection E as <- <-; lia|].
  destruct (varint n bs) as [[v' r']|] eqn:E'; [|done]. injection E as <- <-.
  specialize (IH _ _ _ Hbs E'). lia.
Qed.

(** The condition of the fast paths. *)
Definition fits (n : nat) (bs : list Z) : Prop :=
  (n <= length bs)%nat \/ exists b, last bs = Some b /\ b < 128.

Lemma fits_nil n : ~ fits (S n) [].
Proof. intros [H|(b & H & _)]; [simpl in H; lia|done]. Qed.

Lemma fits_tail n b bs : 128 <= b -> fits (S n) (b :: bs) -> fits n bs.
Proof.
  intros Hb [H|(c & H & Hc)]; [left; simpl in H; lia|].
  destruct bs as [|b' bs]; simpl in H; [injection H as ->; lia|].
  right. by exists c.
Qed.

Section Arrays.
Context (m : mem).

Lemma holds_head p b bs : holds m p (b :: bs) -> load8 m p = Ok b /\ holds m (p + 1) bs.
Proof.
  intros H. split.
  - pose proof (load8_holds m p (b :: bs) 0 b H eq_refl) as E. by rewrite Z.add_0_r in E.
  - exact (holds_app_r m p [b] bs H).
Qed.

Lemma discard_high_spec n bs p : holds m p bs -> Forall is_byte bs -> fits n bs ->
  discard_high m n p =
  Ok (match varint n bs with
      | Some (_, r) => Some (p + (Z.of_nat (length bs) - Z.of_nat (length r)))
      | None => None
      end).
Proof.
  revert bs p. induction n as [|n IH]; intros bs p Hh Hb Hf; [done|].
  destruct bs as [|b bs]; [by apply fits_nil in Hf|].
  apply holds_head in Hh as [E Hh]. apply Forall_cons in Hb as [Hb Hbs].
  cbn [discard_high varint]. rewrite (res_bind_ok _ _ _ E), byte_continues by done.
  destruct (Z.ltb_spec b 128).
  - f_equal. f_equal. cbn [length]. lia.
  - rewrite (IH bs) by (done || by eapply fits_tail).
    destruct (varint n bs) as [[v r]|]; [|done]. f_equal. f_equal. cbn [length]. lia.
Qed.

Definition varint32_plan : list Z := [0; 7; 14; 21; 28].

Lemma u32_cong a b k : a = b + k * 2 ^ 32 -> u32 a = u32 b.
Proof. intros ->. unfold uwrap. by rewrite Z.mod_add. Qed.

Lemma varint32_last bs p acc : holds m p bs -> Forall is_byte bs -> fits 6 bs ->
  0 <= acc < 2 ^ 28 ->
  varint32_steps m [28] acc p =
  Ok (match varint 6 bs with
      | Some (v, r) => Some (u32 (acc + v * 2 ^ 28),
                             p + (Z.of_nat (length bs) - Z.of_nat (length r)))
      | None => None
      end).
Proof.
  intros Hh Hb Hf Ha. destruct bs as [|b bs]; [by apply fits_nil in Hf|].
  apply holds_head in Hh as [E Hh]. apply Forall_cons in Hb as [Hb Hbs].
  cbn [varint32_steps]. rewrite varint_cons, (res_bind_ok _ _ _ E), byte_continues by done.
  cbn beta zeta. change (28 =? 28) with true. cbn iota.
  assert (Z.lor acc (u32 (Z.shiftl b 28)) = u32 (acc + b * 2 ^ 28)) as ->.
  { replace (u32 (Z.shiftl b 28)) with (Z.shiftl (b mod 16) 28)
      by (change 16 with (2 ^ 4); zbits).
    rewrite lor_shiftl_add by (done || lia).
    assert (0 <= b mod 16 < 16) by (apply Z.mod_pos_bound; lia).
    rewrite (u32_cong (acc + b * 2 ^ 28) (acc + (b mod 16) * 2 ^ 28) (b / 16)).
    - rewrite u32_small by lia. done.
    - rewrite (Z.div_mod b 16) at 1 by lia. lia. }
  destruct (Z.ltb_spec b 128).
  - f_equal. f_equal. f_equal. cbn [length]. lia.
  - change (Z.to_nat (kMaxVarintBytes - kMaxVarint32Bytes)) with 5%nat.
    rewrite (res_bind_ok _ _ _ (discard_high_spec 5 bs _ Hh Hbs (fits_tail _ _ _ H Hf))).
    destruct (varint 5 bs) as [[v r]|]; [|done].
    f_equal. f_equal. f_equal; [|cbn [length]; lia].
    symmetry. apply (u32_cong _ _ (8 * v - 8)). lia.
Qed.

Lemma varint32_steps_spec j i bs p acc : (i + j = 4)%nat ->
  holds m p bs -> Forall is_byte bs -> fits (j + 6) bs -> 0 <= acc < 2 ^ (7 * Z.of_nat i) ->
  varint32_steps m (drop i varint32_plan) acc p =
  Ok (match varint (j + 6) bs with
      | Some (v, r) => Some (u32 (acc + v * 2 ^ (7 * Z.of_nat i)),
                             p + (Z.of_nat (length bs) - Z.of_nat (length r)))
      | None => None
      end).
Proof.
  revert i bs p acc. induction j as [|j IH]; intros i bs p acc Hi Hh Hb Hf Ha.
  { replace i with 4%nat in * by lia. by apply varint32_last. }
  destruct bs as [|b bs]; [by apply fits_nil in Hf|].
  apply holds_head in Hh as [E Hh]. apply Forall_cons in Hb as [Hb Hbs].
  assert (drop i varint32_plan = 7 * Z.of_nat i :: drop (S i) varint32_plan) as ->
    by (do 4 (destruct i as [|i]; [done|]); lia).
  cbn [varint32_steps varint plus]. rewrite (res_bind_ok _ _ _ E), byte_continues by done.
  cbn beta zeta.
  assert ((7 * Z.of_nat i =? 28) = false) as -> by lia. cbn iota.
  pose proof (Z.pow_le_mono_r 2 (7 * Z.of_nat (S i)) 28 ltac:(lia) ltac:(lia)).
  assert (2 ^ (7 * Z.of_nat (S i)) = 2 ^ (7 * Z.of_nat i) * 128) as Ep
    by (rewrite Nat2Z.inj_succ; replace (7 * Z.succ (Z.of_nat i)) with (7 * Z.of_nat i + 7) by lia;
        by rewrite Z.pow_add_r by lia).
  assert (forall x, 0 <= x < 128 ->
    Z.lor acc (u32 (Z.shiftl x (7 * Z.of_nat i))) = acc + x * 2 ^ (7 * Z.of_nat i)) as Hor.
  { intros x Hx. rewrite u32_small by (rewrite Z.shiftl_mul_pow2 by lia; nia).
    by rewrite lor_shiftl_add by (done || lia). }
  unfold is_byte in Hb. destruct (Z.ltb_spec b 128).
  - rewrite byte_low7_small, Hor by (done || lia). f_equal. f_equal. f_equal.
    + rewrite u32_small; [done|nia].
    + cbn [length]. lia.
  - rewrite byte_low7_big, Hor by (done || lia).
    rewrite (IH (S i) bs (p + 1)); [|lia|done|done|by eapply fits_tail|nia].
    destruct (varint (j + 6) bs) as [[v r]|]; [|done]. f_equal. f_equal. f_equal.
    + f_equal. rewrite Ep. lia.
    + cbn [length]. lia.
Qed.

Lemma ReadVarint32FromArray_spec bs p : holds m p bs -> Forall is_byte bs -> fits 10 bs ->
  ReadVarint32FromArray m p =
  Ok (match varint32 bs with
      | Some (v, r) => Some (v, p + (Z.of_nat (length bs) - Z.of_nat (length r)))
      | None => None
      end).
Proof.
  intros Hh Hb Hf. unfold ReadVarint32FromArray.
  change [0; 7; 14; 21; 28] with (drop 0 varint32_plan).
  rewrite (varint32_steps_spec 4 0 bs p 0) by (done || lia).
  unfold varint32. change (4 + 6)%nat with 10%nat.
  destruct (varint 10 bs) as [[v r]|]; [|done]. f_equal. f_equal. f_equal. f_equal. lia.
Qed.
(** The value gathered in the three parts, and what they hold after [i] bytes. *)
Definition parts_val (parts : Z * Z * Z) : Z :=
  let '(part0, part1, part2) := parts in part0 + part1 * 2 ^ 28 + part2 * 2 ^ 56.

Definition parts_ok (i : nat) (parts : Z * Z * Z) : Prop :=
  let '(part0, part1, part2) := parts in
  0 <= part0 < 2 ^ (7 * Z.min (Z.of_nat i) 4) /\
  0 <= part1 < 2 ^ (7 * Z.min (Z.max (Z.of_nat i - 4) 0) 4) /\
  0 <= part2 < 2 ^ (7 * Z.max (Z.of_nat i - 8) 0).

Definition add_part (i k x : Z) (parts : Z * Z * Z) : Z * Z * Z :=
  let '(part0, part1, part2) := parts in
  let v := u32 (Z.shiftl x k) in
  if i =? 0 then (Z.lor part0 v, part1, part2)
  else if i =? 1 then (part0, Z.lor part1 v, part2)
  else (part0, part1, Z.lor part2 v).

Lemma lor_u32_shiftl a x k : 0 <= k <= 24 -> 0 <= a < 2 ^ k -> 0 <= x < 128 ->
  Z.lor a (u32 (Z.shiftl x k)) = a + x * 2 ^ k.
Proof.
  intros Hk Ha Hx. rewrite u32_small.
  - by rewrite lor_shiftl_add by (done || lia).
  - rewrite Z.shiftl_mul_pow2 by lia.
    pose proof (Z.pow_le_mono_r 2 k 24 ltac:(lia) ltac:(lia)). nia.
Qed.

(** Evaluates the powers of two with closed exponents. *)
Ltac pow_eval := repeat match goal with
  | |- context [Z.pow 2 ?e] =>
      let v := eval vm_compute in (Z.pow 2 e) in
      lazymatch v with Zpos _ => change (Z.pow 2 e) with v end
  end.

Lemma add_part_spec n i a k x parts : varint64_plan !! n = Some (a, k) -> i = n ->
  parts_ok i parts -> 0 <= x < 128 ->
  parts_ok (S i) (add_part a k x parts) /\
  parts_val (add_part a k x parts) = parts_val parts + x * 2 ^ (7 * Z.of_nat i).
Proof.
  intros Hn -> Hp Hx. destruct parts as [[p0 p1] p2].
  do 10 (destruct n as [|n];
    [injection Hn as <- <-; revert Hp; unfold parts_ok, add_part, parts_val;
     cbn [Z.eqb Pos.eqb];
     cbn beta zeta iota; intros Hp; rewrite lor_u32_shiftl;
     revert Hp; pow_eval; clear -Hx; lia|]).
  done.
Qed.

Lemma parts_join parts : parts_ok 10 parts ->
  (let '(part0, part1, part2) := parts in
   Z.lor (Z.lor part0 (u64 (Z.shiftl part1 28))) (u64 (Z.shiftl part2 56))) =
  u64 (parts_val parts).
Proof.
  destruct parts as [[p0 p1] p2]. unfold parts_ok, parts_val.
  intros (H0 & H1 & H2).
  change (7 * Z.min (Z.of_nat 10) 4) with 28 in H0.
  change (7 * Z.min (Z.max (Z.of_nat 10 - 4) 0) 4) with 28 in H1.
  change (7 * Z.max (Z.of_nat 10 - 8) 0) with 14 in H2.
  replace (u64 (Z.shiftl p1 28)) with (Z.shiftl p1 28)
    by (symmetry; apply uwrap_small; rewrite Z.shiftl_mul_pow2 by lia; lia).
  rewrite lor_shiftl_add by (done || lia).
  replace (u64 (Z.shiftl p2 56)) with (Z.shiftl (p2 mod 2 ^ 8) 56) by zbits.
  rewrite lor_shiftl_add by lia. unfold uwrap.
  rewrite (Z.div_mod p2 (2 ^ 8)) at 2 by lia.
  pose proof (Z.mod_pos_bound p2 (2 ^ 8) ltac:(lia)).
  replace (p0 + p1 * 2 ^ 28 + (2 ^ 8 * (p2 / 2 ^ 8) + p2 mod 2 ^ 8) * 2 ^ 56)
    with (p0 + p1 * 2 ^ 28 + p2 mod 2 ^ 8 * 2 ^ 56 + p2 / 2 ^ 8 * 2 ^ 64) by lia.
  rewrite Z.mod_add by lia. symmetry. apply Z.mod_small. lia.
Qed.

Lemma parts_ok_mono i parts : (i <= 10)%nat -> parts_ok i parts -> parts_ok 10 parts.
Proof.
  destruct parts as [[p0 p1] p2]. intros Hi (H0 & H1 & H2).
  repeat split; try lia; (eapply Z.lt_le_trans; [apply H0 || apply H1 || apply H2|];
    apply Z.pow_le_mono_r; lia).
Qed.

Lemma varint64_steps_spec j i bs p parts : (i + j = 10)%nat ->
  holds m p bs -> Forall is_byte bs -> fits j bs -> parts_ok i parts ->
  varint64_steps m (drop i varint64_plan) parts p =
  Ok (match varint j bs with
      | Some (v, r) => Some (u64 (parts_val parts + v * 2 ^ (7 * Z.of_nat i)),
                             p + (Z.of_nat (length bs) - Z.of_nat (length r)))
      | None => None
      end).
Proof.
  revert i bs p parts. induction j as [|j IH]; intros i bs p parts Hi Hh Hb Hf Hp.
  { replace i with 10%nat by lia. done. }
  destruct bs as [|b bs]; [by apply fits_nil in Hf|].
  apply holds_head in Hh as [E Hh]. apply Forall_cons in Hb as [Hb Hbs].
  destruct (lookup_lt_is_Some_2 varint64_plan i) as [[a k] Ha]; [cbn; lia|].
  rewrite (drop_S _ _ _ Ha). cbn [varint64_steps]. rewrite varint_cons, (res_bind_ok _ _ _ E).
  destruct (Z.ltb_spec b 128) as [Hlt|Hge]; rewrite byte_continues by done.
  - rewrite byte_low7_small by done.
    destruct (add_part_spec i i a k b parts Ha eq_refl Hp) as [Hp' Hv];
      [unfold is_byte in Hb; lia|].
    assert ((b <? 128) = true) as -> by lia.
    pose proof (parts_join _ (parts_ok_mono (S i) _ ltac:(lia) Hp')) as Hj.
    rewrite Hv in Hj. revert Hj. unfold add_part. destruct parts as [[p0 p1] p2]. cbn zeta.
    intros Hj. destruct (a =? 0); [|destruct (a =? 1)]; rewrite Hj; repeat f_equal; cbn [length]; lia.
  - rewrite byte_low7_big by done.
    destruct (add_part_spec i i a k (b - 128) parts Ha eq_refl Hp) as [Hp' Hv];
      [unfold is_byte in Hb; lia|].
    assert ((b <? 128) = false) as -> by lia.
    transitivity (varint64_steps m (drop (S i) varint64_plan) (add_part a k (b - 128) parts) (p + 1));
      [by destruct parts as [[p0 p1] p2]|].
    rewrite (IH (S i) bs); [|lia|done|done|by eapply fits_tail|done].
    destruct (varint j bs) as [[v r]|]; [|done]. rewrite Hv.
    f_equal. f_equal. f_equal; [f_equal|cbn [length]; lia].
    replace (7 * Z.of_nat (S i)) with (7 * Z.of_nat i + 7) by lia.
    rewrite Z.pow_add_r by lia. lia.
Qed.
End Arrays.
