(* ===== verification/CodedStream.v ===== *)
(** The stream of a flat array as a list of bytes still to read: every read of
    [CodedInputStream] against its reference decoder. *)

From S2P Require Import Prelude CMem Coded CodedSpec.

Section Stream.
Context (m : mem) (e n : Z).

(** The stream over an array of [n] bytes that ends at [e], with [bs] left. *)
Definition strm (bs : list Z) (lst : Z) (legit : bool) (depth : Z) : CodedInputStream :=
  mkinput (e - Z.of_nat (length bs)) e n 0 lst legit n 0 kDefaultTotalBytesLimit depth
    default_recursion_limit_ None.

(** The bytes left are in memory, up to the end of the array. *)
Record okm (bs : list Z) : Prop := {
  okm_holds : holds m (e - Z.of_nat (length bs)) bs;
  okm_bytes : Forall is_byte bs
}.

Lemma okm_app a r : okm (a ++ r) -> okm r.
Proof.
  intros [H Hb]. apply Forall_app in Hb as [_ Hb]. split; [|done].
  apply holds_app_r in H. rewrite length_app in H.
  replace (e - Z.of_nat (length r))
    with (e - Z.of_nat (length a + length r) + Z.of_nat (length a)) by lia. done.
Qed.

Lemma okm_cons b r : okm (b :: r) -> okm r.
Proof. apply (okm_app [b]). Qed.

Lemma okm_head b r : okm (b :: r) ->
  load8 m (e - Z.of_nat (length (b :: r))) = Ok b /\ is_byte b /\ okm r.
Proof.
  intros H. pose proof (okm_cons _ _ H) as Hr. destruct H as [H Hb].
  apply Forall_cons in Hb as [Hb _]. by apply holds_head in H as [E _].
Qed.

Lemma okm_load a r : okm (a ++ r) ->
  load_bytes m (e - Z.of_nat (length (a ++ r))) (length a) = Ok a.
Proof. intros [H _]. apply load_bytes_holds. by eapply holds_app_l. Qed.

(** Taking [k] bytes off the front. *)
Lemma strm_advance k a r lst legit depth : k = Z.of_nat (length a) ->
  set_buffer (e - Z.of_nat (length (a ++ r)) + k) (strm (a ++ r) lst legit depth) =
  strm r lst legit depth.
Proof. intros ->. unfold strm, set_buffer. simpl. f_equal. rewrite length_app. lia. Qed.

Lemma Advance_strm k a r lst legit depth : k = Z.of_nat (length a) ->
  Advance k (strm (a ++ r) lst legit depth) = Ok (tt, strm r lst legit depth).
Proof. intros E. unfold Advance, st_modify. f_equal. f_equal. by apply strm_advance. Qed.

Lemma Advance_strm1 b r lst legit depth :
  Advance 1 (strm (b :: r) lst legit depth) = Ok (tt, strm r lst legit depth).
Proof. by apply (Advance_strm 1 [b]). Qed.

Lemma buffer_at_end (bs : list Z) : (e - Z.of_nat (length bs) =? e) = bool_decide (bs = []).
Proof. destruct bs; cbn [length]; case_bool_decide; try done; apply Z.eqb_eq || apply Z.eqb_neq; lia. Qed.

Lemma buffer_before_end (bs : list Z) : (e - Z.of_nat (length bs) <? e) = bool_decide (bs <> []).
Proof. destruct bs; cbn [length]; case_bool_decide; try done; apply Z.ltb_lt || apply Z.ltb_ge; lia. Qed.

Lemma BufferSize_strm bs lst legit depth :
  BufferSize (strm bs lst legit depth) = Z.of_nat (length bs).
Proof. unfold BufferSize, strm. simpl. lia. Qed.

Lemma buffer_strm bs lst legit depth :
  buffer_ (strm bs lst legit depth) = e - Z.of_nat (length bs).
Proof. done. Qed.

Lemma buffer_end_strm bs lst legit depth : buffer_end_ (strm bs lst legit depth) = e.
Proof. done. Qed.

Lemma Refresh_strm bs lst legit depth :
  Refresh (strm bs lst legit depth) = Ok (false, strm bs lst legit depth).
Proof.
  unfold Refresh. st_run. unfold strm at 1 2 3. simpl. by rewrite Z.eqb_refl.
Qed.

Lemma refresh_while_strm bs lst legit depth :
  refresh_while_empty (strm bs lst legit depth) = Ok (bool_decide (bs <> []), strm bs lst legit depth).
Proof.
  apply st_loop_exit. rewrite (st_bind_ok _ _ _ _ _ eq_refl).
  rewrite buffer_strm, buffer_end_strm, buffer_at_end. destruct bs; [|done].
  rewrite bool_decide_eq_true_2 by done. by rewrite (st_bind_ok _ _ _ _ _ (Refresh_strm _ _ _ _)).
Qed.

(** A read takes what its decoder [dec] takes; when the decoder fails, it fails and
    leaves some of the bytes. *)
Definition reads {A} (op : Input (option A)) (dec : list Z -> option (A * list Z)) : Prop :=
  forall bs lst legit depth, okm bs ->
    exists bs', okm bs' /\ (length bs' <= length bs)%nat /\
      op (strm bs lst legit depth) = Ok (fst <$> dec bs, strm bs' lst legit depth) /\
      (forall v r, dec bs = Some (v, r) -> bs' = r).

Lemma reads_ext {A} (op op' : Input (option A)) dec :
  (forall s, op s = op' s) -> reads op dec -> reads op' dec.
Proof. intros E H bs lst legit depth Hb. rewrite <- E. by apply H. Qed.

(** * Base-128 integers *)

Lemma ends_in_buffer_spec bs lst legit depth : okm bs ->
  exists b, ends_in_buffer m (strm bs lst legit depth) = Ok b /\ (b = true -> fits 10 bs).
Proof.
  intros [Hh Hb]. unfold ends_in_buffer. rewrite BufferSize_strm.
  unfold kMaxVarintBytes. destruct (Z.leb_spec 10 (Z.of_nat (length bs))).
  { exists true. split; [done|]. intros _. left. lia. }
  unfold strm; simpl. rewrite buffer_before_end. case_bool_decide as Hne.
  2:{ by exists false. }
  destruct (exists_last Hne) as (a & b & ->).
  assert (load8 m (e - 1) = Ok b) as E.
  { replace (e - 1) with (e - Z.of_nat (length (a ++ [b])) + Z.of_nat (length a))
      by (rewrite length_app; cbn [length]; lia).
    eapply load8_holds; [exact Hh|]. by apply list_lookup_middle. }
  rewrite (res_bind_ok _ _ _ E). apply Forall_app in Hb as [_ Hb].
  apply Forall_cons in Hb as [Hb _].
  eexists. split; [done|]. rewrite byte_continues by done. intros Hlt.
  right. exists b. rewrite last_snoc. split; [done|lia].
Qed.

Lemma varint_app k bs v r : okm bs -> varint k bs = Some (v, r) ->
  okm r /\ (length r < length bs)%nat /\
  forall lst legit depth,
    set_buffer (e - Z.of_nat (length bs) + (Z.of_nat (length bs) - Z.of_nat (length r)))
      (strm bs lst legit depth) = strm r lst legit depth.
Proof.
  intros Hb E. apply varint_suffix in E as (a & -> & Ha).
  split; [by eapply okm_app|]. rewrite length_app. split; [lia|]. intros lst legit depth.
  rewrite <- (strm_advance (Z.of_nat (length a)) a r) by done. rewrite length_app.
  unfold set_buffer. f_equal. lia.
Qed.

Lemma slow_or acc c x : 0 <= c < 10 -> 0 <= acc < 2 ^ (7 * c) -> 0 <= x < 128 ->
  Z.lor acc (u64 (Z.shiftl x (7 * c))) = u64 (acc + x * 2 ^ (7 * c)).
Proof.
  intros Hc Ha Hx.
  replace (u64 (Z.shiftl x (7 * c))) with (Z.shiftl (x mod 2 ^ (64 - 7 * c)) (7 * c))
    by zbits.
  rewrite lor_shiftl_add by (done || lia).
  assert (2 ^ 64 = 2 ^ (7 * c) * 2 ^ (64 - 7 * c)) as Ep
    by (rewrite <- Z.pow_add_r by lia; f_equal; lia).
  pose proof (Z.pow_pos_nonneg 2 (64 - 7 * c) ltac:(lia) ltac:(lia)) as Hp.
  pose proof (Z.mod_pos_bound x _ Hp) as Hm.
  pose proof (Z.div_mod x (2 ^ (64 - 7 * c)) ltac:(lia)) as Hd.
  unfold uwrap. symmetry.
  transitivity ((acc + x mod 2 ^ (64 - 7 * c) * 2 ^ (7 * c) +
                 x / 2 ^ (64 - 7 * c) * 2 ^ 64) mod 2 ^ 64).
  - f_equal. rewrite Ep. rewrite Hd at 1. ring.
  - rewrite Z.mod_add by lia. apply Z.mod_small. rewrite Ep. nia.
Qed.
Lemma varint64_slow_spec j c bs acc lst legit depth : (c + j = 10)%nat -> okm bs ->
  0 <= acc < 2 ^ (7 * Z.of_nat c) \/ c = 10%nat ->
  exists bs', okm bs' /\ (length bs' <= length bs)%nat /\
    st_loop (S j) (varint64_slow_body m) (acc, Z.of_nat c) (strm bs lst legit depth) =
    Ok (match varint j bs with
        | Some (v, _) => Some (u64 (acc + v * 2 ^ (7 * Z.of_nat c)))
        | None => None
        end, strm bs' lst legit depth) /\
    (forall v r, varint j bs = Some (v, r) -> bs' = r).
Proof.
  revert c bs acc. induction j as [|j IH]; intros c bs acc Hc Hb Ha.
  { exists bs. do 2 (split; [done|]). split; [|done]. replace c with 10%nat by lia.
    by apply st_loop_exit. }
  assert ((Z.of_nat c =? kMaxVarintBytes) = false) as Hk by (unfold kMaxVarintBytes; lia).
  destruct bs as [|b bs].
  { exists []. do 2 (split; [done|]). split; [|done]. apply st_loop_exit.
    unfold varint64_slow_body. rewrite Hk.
    by rewrite (st_bind_ok _ _ _ _ _ (refresh_while_strm _ _ _ _)). }
  apply okm_head in Hb as (E & Hb & Hbs).
  destruct Ha as [Ha| ->]; [|lia].
  set (x := if b <? 128 then b else b - 128).
  assert (varint64_slow_body m (acc, Z.of_nat c) (strm (b :: bs) lst legit depth) =
    Ok (if b <? 128 then inr (Some (u64 (acc + x * 2 ^ (7 * Z.of_nat c))))
        else inl (u64 (acc + x * 2 ^ (7 * Z.of_nat c)), Z.of_nat (S c)),
        strm bs lst legit depth)) as Eb.
  { unfold varint64_slow_body. rewrite Hk.
    rewrite (st_bind_ok _ _ _ _ _ (refresh_while_strm _ _ _ _)).
    rewrite bool_decide_eq_true_2 by done. cbn [negb]. st_run.
    rewrite ?buffer_strm, ?buffer_end_strm. rewrite E.
    change (Advance 1 ?s) with (Advance 1 (strm (b :: bs) lst legit depth)).
    rewrite Advance_strm1, byte_continues by done. unfold x, is_byte in *.
    destruct (Z.ltb_spec b 128).
    - rewrite byte_low7_small, slow_or by (done || lia). done.
    - rewrite byte_low7_big, slow_or by (done || lia). repeat f_equal. lia. }
  unfold x, is_byte in *. rewrite varint_cons. destruct (Z.ltb_spec b 128).
  - exists bs. split; [done|]. split; [cbn [length]; lia|].
    split; [by apply st_loop_exit|]. by intros v r [= _ ->].
  - assert (2 ^ (7 * Z.of_nat (S c)) = 2 ^ (7 * Z.of_nat c) * 128) as Ep
      by (rewrite <- (Z.pow_add_r 2 _ 7) by lia; f_equal; lia).
    assert (0 <= acc + (b - 128) * 2 ^ (7 * Z.of_nat c) < 2 ^ (7 * Z.of_nat (S c))) as Hr by nia.
    destruct (IH (S c) bs (u64 (acc + (b - 128) * 2 ^ (7 * Z.of_nat c)))) as (bs' & H1 & H2 & H3 & H4);
      [lia|done| |].
    { destruct (decide (c = 9%nat)) as [->|]; [by right|left].
      unfold uwrap. rewrite Z.mod_small; [done|]. split; [lia|].
      eapply Z.lt_le_trans; [apply Hr|]. apply Z.pow_le_mono_r; lia. }
    exists bs'. split; [done|]. split; [cbn [length]; lia|].
    erewrite st_loop_next by exact Eb. rewrite H3. split.
    + f_equal. f_equal. destruct (varint j bs) as [[v r]|]; [|done]. f_equal.
      unfold uwrap. rewrite Z.add_mod_idemp_l by lia. f_equal. rewrite Ep. ring.
    + intros v r. destruct (varint j bs) as [[v' r']|] eqn:Ev; [|done]. intros [= _ <-].
      by eapply H4.
Qed.

Lemma ReadVarint64Slow_reads : reads (ReadVarint64Slow m) varint64.
Proof.
  intros bs lst legit depth Hb.
  destruct (varint64_slow_spec 10 0 bs 0 lst legit depth) as (bs' & H1 & H2 & H3 & H4);
    [done|done|left; simpl; lia|].
  exists bs'. do 2 (split; [done|]). unfold varint64. split.
  - etransitivity; [exact H3|]. f_equal. f_equal.
    destruct (varint 10 bs) as [[v r]|]; [|done]. simpl. f_equal. f_equal. lia.
  - intros v r. destruct (varint 10 bs) as [[v' r']|]; [|done]. intros [= _ <-]. by eapply H4.
Qed.

Lemma ReadVarint64Fallback_reads : reads (ReadVarint64Fallback m) varint64.
Proof.
  intros bs lst legit depth Hb. unfold ReadVarint64Fallback.
  rewrite (st_bind_ok _ _ _ _ _ eq_refl).
  destruct (ends_in_buffer_spec bs lst legit depth Hb) as (fast & Ef & Hf).
  rewrite Ef. rewrite (st_bind_ok _ _ _ _ _ eq_refl).
  destruct fast; [|by apply ReadVarint64Slow_reads].
  pose proof (varint64_steps_spec m 10 0 bs _ (0, 0, 0) eq_refl (okm_holds _ Hb) (okm_bytes _ Hb)
    (Hf eq_refl)) as E.
  rewrite ?buffer_strm, ?buffer_end_strm. change (drop 0 varint64_plan) with varint64_plan in E.
  rewrite E by (simpl; lia). clear E. rewrite (st_bind_ok _ _ _ _ _ eq_refl).
  unfold varint64. destruct (varint 10 bs) as [[v r]|] eqn:Ev.
  - destruct (varint_app _ _ _ _ Hb Ev) as (Hr & Hlt & Hs).
    exists r. split; [done|]. split; [lia|]. split; [|by intros ? ? [= _ <-]].
    st_run. rewrite Hs. simpl. repeat f_equal. lia.
  - exists bs. split; [done|]. split; [lia|]. by split.
Qed.
Lemma reads_map {A B} (op : Input (option A)) dec (f : A -> B) (g : option A -> option B) :
  (forall r, g r = match r with Some v => Some (f v) | None => None end) ->
  reads op dec ->
  reads (r ← op; mret (g r))
    (fun bs => match dec bs with Some (v, r) => Some (f v, r) | None => None end).
Proof.
  intros Hg H bs lst legit depth Hb.
  destruct (H bs lst legit depth Hb) as (bs' & H1 & H2 & H3 & H4).
  exists bs'. do 2 (split; [done|]). rewrite (st_bind_ok _ _ _ _ _ H3). split.
  - unfold mret, ST_ret. rewrite Hg. by destruct (dec bs) as [[v r]|].
  - intros v r. destruct (dec bs) as [[v' r']|]; [|done]. intros [= _ <-]. by eapply H4.
Qed.

Lemma reads_dec {A} (op : Input (option A)) dec dec' :
  (forall bs, dec bs = dec' bs) -> reads op dec -> reads op dec'.
Proof.
  intros E H bs lst legit depth Hb.
  destruct (H bs lst legit depth Hb) as (bs' & H1 & H2 & H3 & H4).
  exists bs'. do 2 (split; [done|]). by rewrite <- E.
Qed.

(** The one-byte case that precedes each fallback. *)
Lemma one_byte_reads (fallback : Input (option Z)) dec :
  (forall b r, b < 128 -> is_byte b -> dec (b :: r) = Some (b, r)) ->
  reads fallback dec ->
  reads (s ← st_get;
         if buffer_ s <? buffer_end_ s then
           b ← st_lift (load8 m (buffer_ s));
           if b <? 0x80 then Advance 1;; mret (Some b) else fallback
         else fallback) dec.
Proof.
  intros Hd H bs lst legit depth Hb. rewrite (st_bind_ok _ _ _ _ _ eq_refl).
  rewrite ?buffer_strm, ?buffer_end_strm. rewrite buffer_before_end.
  case_bool_decide as Hne; [|by apply H]. destruct bs as [|b bs]; [done|].
  destruct (okm_head _ _ Hb) as (E & Hbb & Hbs).
  rewrite ?buffer_strm, ?buffer_end_strm. rewrite E.
  rewrite (st_bind_ok _ _ _ _ _ eq_refl).
  destruct (Z.ltb_spec b 0x80); [|by apply H].
  exists bs. split; [done|]. split; [cbn [length]; lia|].
  rewrite (st_bind_ok _ _ _ _ _ (Advance_strm1 _ _ _ _ _)), Hd by done.
  split; [done|]. by intros v r [= _ <-].
Qed.

Lemma varint32_one b r : b < 128 -> is_byte b -> varint32 (b :: r) = Some (b, r).
Proof.
  unfold is_byte. intros Hb Hr. unfold varint32. rewrite varint_cons.
  destruct (Z.ltb_spec b 128); [|lia]. by rewrite u32_small by lia.
Qed.

Lemma varint64_one b r : b < 128 -> is_byte b -> varint64 (b :: r) = Some (b, r).
Proof.
  unfold is_byte. intros Hb Hr. unfold varint64. rewrite varint_cons.
  destruct (Z.ltb_spec b 128); [|lia]. unfold uwrap. rewrite Z.mod_small; [done|lia].
Qed.

Lemma ReadVarint64_reads : reads (ReadVarint64 m) varint64.
Proof. apply one_byte_reads; [by apply varint64_one|apply ReadVarint64Fallback_reads]. Qed.

Lemma u32_u64 v : u32 (u64 v) = u32 v.
Proof. zbits. Qed.

Lemma ReadVarint32Slow_reads : reads (ReadVarint32Slow m) varint32.
Proof.
  eapply reads_dec; [|apply (reads_map _ varint64 u32); [done|apply ReadVarint64Fallback_reads]].
  intros bs. unfold varint64, varint32. destruct (varint 10 bs) as [[v r]|]; [|done].
  by rewrite u32_u64.
Qed.

(** Moving the buffer to where a read of the array ended. *)
Lemma move_to bs v r lst legit depth : okm bs -> varint32 bs = Some (v, r) ->
  okm r /\ (length r < length bs)%nat /\
  set_buffer (e - Z.of_nat (length bs) + (Z.of_nat (length bs) - Z.of_nat (length r)))
    (strm bs lst legit depth) = strm r lst legit depth.
Proof.
  intros Hb E. unfold varint32 in E. destruct (varint 10 bs) as [[v' r']|] eqn:Ev; [|done].
  injection E as _ <-. destruct (varint_app _ _ _ _ Hb Ev) as (Hr & Hl & Hs).
  split; [done|]. split; [done|apply Hs].
Qed.

Lemma ReadVarint32Fallback_reads : reads (ReadVarint32Fallback m) varint32.
Proof.
  intros bs lst legit depth Hb. unfold ReadVarint32Fallback.
  rewrite (st_bind_ok _ _ _ _ _ eq_refl).
  destruct (ends_in_buffer_spec bs lst legit depth Hb) as (fast & Ef & Hf).
  rewrite Ef. rewrite (st_bind_ok _ _ _ _ _ eq_refl).
  destruct fast; [|by apply ReadVarint32Slow_reads].
  rewrite ?buffer_strm, ?buffer_end_strm.
  rewrite (ReadVarint32FromArray_spec m bs) by (apply Hb || auto).
  rewrite (st_bind_ok _ _ _ _ _ eq_refl).
  destruct (varint32 bs) as [[v r]|] eqn:Ev.
  - destruct (move_to _ _ _ lst legit depth Hb Ev) as (Hr & Hlt & Hs).
    exists r. split; [done|]. split; [lia|]. split; [|by intros ? ? [= _ <-]].
    st_run. by rewrite Hs.
  - exists bs. split; [done|]. split; [lia|]. by split.
Qed.

Lemma ReadVarint32_reads : reads (ReadVarint32 m) varint32.
Proof. apply one_byte_reads; [by apply varint32_one|apply ReadVarint32Fallback_reads]. Qed.

(** * Tags *)

Hypothesis Hn : 0 <= n < 2 ^ 26.

(** The tag at the front: none at the end of the array, which is a place for a message
    to end; zero for a malformed one, which is not. *)
Definition tag_of (bs : list Z) : Z := match varint32 bs with Some (t, _) => t | None => 0 end.

Definition at_end (bs : list Z) : bool := match bs with [] => true | _ => false end.

Definition reads_tag (op : Input Z) (final : Z -> Z -> Z) : Prop :=
  forall bs lst legit depth, okm bs ->
    exists bs', okm bs' /\ (length bs' <= length bs)%nat /\
      op (strm bs lst legit depth) =
        Ok (tag_of bs, strm bs' (final lst (tag_of bs)) (legit || at_end bs) depth) /\
      (forall v r, varint32 bs = Some (v, r) -> bs' = r).

Lemma ReadTagSlow_tag bs lst legit depth : okm bs -> bs <> [] ->
  exists bs', okm bs' /\ (length bs' <= length bs)%nat /\
    ReadTagSlow m (strm bs lst legit depth) = Ok (tag_of bs, strm bs' lst legit depth) /\
    (forall v r, varint32 bs = Some (v, r) -> bs' = r).
Proof.
  intros Hb Hne.
  destruct (ReadVarint64_reads bs lst legit depth Hb) as (bs' & H1 & H2 & H3 & H4).
  exists bs'. do 2 (split; [done|]). split.
  - unfold ReadTagSlow. rewrite (st_bind_ok _ _ _ _ _ eq_refl).
    rewrite ?buffer_strm, ?buffer_end_strm.
    rewrite buffer_at_end, bool_decide_eq_false_2 by done.
    rewrite (st_bind_ok _ _ _ _ _ eq_refl). cbn [negb].
    rewrite (st_bind_ok _ _ _ _ _ H3). unfold mret, ST_ret, tag_of, varint64, varint32.
    destruct (varint 10 bs) as [[v r]|]; [|done]. simpl. by rewrite u32_u64.
  - intros v r. unfold varint32, varint64 in *. destruct (varint 10 bs) as [[v' r']|]; [|done].
    intros [= _ <-]. by eapply H4.
Qed.

Lemma ReadTagFallback_tag : reads_tag (ReadTagFallback m) (fun lst _ => lst).
Proof.
  intros bs lst legit depth Hb. unfold ReadTagFallback.
  rewrite (st_bind_ok _ _ _ _ _ eq_refl). rewrite BufferSize_strm.
  destruct (ends_in_buffer_spec bs lst legit depth Hb) as (fast & Ef & Hf).
  rewrite Ef. rewrite (st_bind_ok _ _ _ _ _ eq_refl). destruct fast.
  - rewrite ?buffer_strm, ?buffer_end_strm.
    rewrite (ReadVarint32FromArray_spec m bs) by (apply Hb || auto).
    rewrite (st_bind_ok _ _ _ _ _ eq_refl).
    assert (at_end bs = false) as ->.
    { destruct bs; [|done]. by destruct (fits_nil _ (Hf eq_refl)). }
    rewrite orb_false_r. unfold tag_of. destruct (varint32 bs) as [[v r]|] eqn:Ev.
    + destruct (move_to _ _ _ lst legit depth Hb Ev) as (Hr & Hlt & Hs).
      exists r. split; [done|]. split; [lia|]. split; [|by intros ? ? [= _ <-]].
      st_run. by rewrite Hs.
    + exists bs. split; [done|]. split; [lia|]. by split.
  - destruct bs as [|b bs].
    + exists []. do 2 (split; [done|]). split; [|done]. unfold strm. simpl.
      rewrite Z.eqb_refl, Z.sub_0_r. change kDefaultTotalBytesLimit with 67108864.
      destruct (Z.ltb_spec n 67108864); [|lia]. by rewrite orb_true_r.
    + rewrite orb_false_r.
      assert ((Z.of_nat (length (b :: bs)) =? 0) = false) as -> by (apply Z.eqb_neq; cbn [length]; lia).
      by apply ReadTagSlow_tag.
Qed.

Lemma set_last_strm t bs lst legit depth :
  set_last_tag t (strm bs lst legit depth) = strm bs t legit depth.
Proof. done. Qed.

Lemma ReadTag_tag : reads_tag (ReadTag m) (fun _ t => t).
Proof.
  intros bs lst legit depth Hb. unfold ReadTag.
  rewrite (st_bind_ok _ _ _ _ _ eq_refl). cbv zeta.
  set (fb := t ← ReadTagFallback m; st_modify (set_last_tag t);; mret t).
  assert (exists bs', okm bs' /\ (length bs' <= length bs)%nat /\
      fb (strm bs lst legit depth) =
        Ok (tag_of bs, strm bs' (tag_of bs) (legit || at_end bs) depth) /\
      (forall v r, varint32 bs = Some (v, r) -> bs' = r)) as Hfb.
  { destruct (ReadTagFallback_tag bs lst legit depth Hb) as (bs' & H1 & H2 & H3 & H4).
    exists bs'. do 2 (split; [done|]). unfold fb. by rewrite (st_bind_ok _ _ _ _ _ H3). }
  rewrite ?buffer_strm, ?buffer_end_strm. rewrite buffer_before_end.
  case_bool_decide as Hne; [|done]. destruct bs as [|b bs]; [done|].
  destruct (okm_head _ _ Hb) as (E & Hbb & Hbs).
  rewrite ?buffer_strm, ?buffer_end_strm. rewrite E. rewrite (st_bind_ok _ _ _ _ _ eq_refl).
  destruct (Z.ltb_spec b 0x80); [|done]. clear Hfb.
  exists bs. split; [done|]. split; [cbn [length]; lia|].
  unfold tag_of. rewrite varint32_one by done. split; [|by intros v r [= _ <-]].
  rewrite (st_bind_ok _ _ _ _ _ eq_refl), set_last_strm.
  rewrite (st_bind_ok _ _ _ _ _ (Advance_strm1 _ _ _ _ _)). by rewrite orb_false_r.
Qed.

(** A tag that was expected is the tag that would be read. *)
Lemma ExpectTag_strm t bs lst legit depth : okm bs -> 0 <= t ->
  ExpectTag m t (strm bs lst legit depth) = Ok (false, strm bs lst legit depth) \/
  exists r, ExpectTag m t (strm bs lst legit depth) = Ok (true, strm r lst legit depth) /\
    varint32 bs = Some (t, r).
Proof.
  intros Hb Ht. unfold ExpectTag. rewrite (st_bind_ok _ _ _ _ _ eq_refl).
  change (Z.shiftl 1 7) with 128. change (Z.shiftl 1 14) with 16384.
  destruct (Z.ltb_spec t 128) as [Hlt|Hge].
  - rewrite ?buffer_strm, ?buffer_end_strm. rewrite buffer_before_end.
    case_bool_decide as Hne; [|by left]. destruct bs as [|b bs]; [done|].
    destruct (okm_head _ _ Hb) as (E & Hbb & Hbs).
    rewrite ?buffer_strm, ?buffer_end_strm. rewrite E. rewrite !(st_bind_ok _ _ _ _ _ eq_refl).
    destruct (Z.eqb_spec b t) as [->|]; [|by left]. right. exists bs.
    rewrite !(st_bind_ok _ _ _ _ _ (Advance_strm1 _ _ _ _ _)).
    split; [done|]. by apply varint32_one.
  - destruct (Z.ltb_spec t 16384); [|by left].
    rewrite BufferSize_strm. destruct (Z.leb_spec 2 (Z.of_nat (length bs))); [|by left].
    destruct bs as [|b0 [|b1 bs]]; [cbn [length] in *; lia..|].
    destruct (okm_head _ _ Hb) as (E & Hbb & Hbs).
    destruct (okm_head _ _ Hbs) as (E1 & Hbb1 & Hbs1).
    assert (e - Z.of_nat (length (b0 :: b1 :: bs)) + 1 = e - Z.of_nat (length (b1 :: bs))) as Ea
      by (cbn [length]; lia).
    rewrite ?buffer_strm, ?buffer_end_strm. rewrite E, Ea, E1.
    rewrite !(st_bind_ok _ _ _ _ _ eq_refl).
    destruct (Z.eqb_spec b0 (u8 (Z.lor t 0x80))) as [E0|]; [|by left].
    rewrite !(st_bind_ok _ _ _ _ _ eq_refl).
    destruct (Z.eqb_spec b1 (u8 (Z.shiftr t 7))) as [E1'|]; [|by left]. right. exists bs.
    rewrite !(st_bind_ok _ _ _ _ _ (Advance_strm 2 [b0; b1] bs lst legit depth eq_refl)).
    split; [done|]. unfold varint32. rewrite !varint_cons.
    assert (b0 = t mod 128 + 128) as ->.
    { rewrite E0. pose proof (Z.mod_pos_bound t (2 ^ 7) ltac:(lia)).
      change 0x80 with (Z.shiftl (Z.ones 1) 7).
      replace (u8 (Z.lor t (Z.shiftl (Z.ones 1) 7)))
        with (Z.lor (t mod 2 ^ 7) (Z.shiftl (Z.ones 1) 7)) by zbits.
      by rewrite lor_shiftl_add by lia. }
    assert (b1 = t / 128) as ->.
    { rewrite E1'. rewrite Z.shiftr_div_pow2 by lia. apply uwrap_small.
      split; [apply Z.div_pos; lia|]. change (2 ^ 8) with 256. apply Z.div_lt_upper_bound; lia. }
    pose proof (Z.div_mod t 128 ltac:(lia)). pose proof (Z.mod_pos_bound t 128 ltac:(lia)).
    assert (t / 128 < 128) by (apply Z.div_lt_upper_bound; lia).
    destruct (Z.ltb_spec (t mod 128 + 128) 128); [lia|].
    destruct (Z.ltb_spec (t / 128) 128); [|lia].
    rewrite u32_small by lia. f_equal. f_equal. lia.
Qed.

Lemma ExpectAtEnd_strm bs lst legit depth :
  ExpectAtEnd (strm bs lst legit depth) =
  Ok (at_end bs, if at_end bs then strm [] 0 true depth else strm bs lst legit depth).
Proof.
  unfold ExpectAtEnd. rewrite (st_bind_ok _ _ _ _ _ eq_refl).
  rewrite buffer_strm, buffer_end_strm, buffer_at_end.
  destruct bs; [|done]. unfold strm. simpl. by rewrite Z.eqb_refl.
Qed.
(** * Fixed-size data *)

(** The next [k] bytes, when there are as many. *)
Definition take_bytes (k : Z) (bs : list Z) : option (list Z * list Z) :=
  if (0 <=? k) && (k <=? Z.of_nat (length bs))
  then Some (take (Z.to_nat k) bs, drop (Z.to_nat k) bs) else None.

Definition little_endian (k : Z) (bs : list Z) : option (Z * list Z) :=
  match take_bytes k bs with Some (a, r) => Some (le_join a, r) | None => None end.

Lemma take_bytes_some k bs a r : take_bytes k bs = Some (a, r) ->
  bs = a ++ r /\ k = Z.of_nat (length a).
Proof.
  unfold take_bytes. destruct (Z.leb_spec 0 k); [|done].
  destruct (Z.leb_spec k (Z.of_nat (length bs))); [|done]. intros [= <- <-].
  split; [by rewrite take_drop|]. rewrite length_take. lia.
Qed.

Lemma take_bytes_none k bs : 0 <= k -> take_bytes k bs = None -> Z.of_nat (length bs) < k.
Proof.
  unfold take_bytes. intros Hk. destruct (Z.leb_spec 0 k); [|lia].
  by destruct (Z.leb_spec k (Z.of_nat (length bs))).
Qed.

Lemma bytes_from_strm a r : okm (a ++ r) ->
  bytes_from m (e - Z.of_nat (length (a ++ r))) (Z.of_nat (length a)) = Ok a.
Proof.
  intros Hb. unfold bytes_from. destruct (Z.ltb_spec (Z.of_nat (length a)) 0); [lia|].
  rewrite Nat2Z.id. by apply okm_load.
Qed.

Definition present {A} (o : option A) : bool := match o with Some _ => true | None => false end.

(** A read of bytes into a string: its result, and the string when it succeeds. *)
Definition reads_bytes (op : Input (bool * list Z)) (dec : list Z -> option (list Z * list Z))
    : Prop :=
  forall bs lst legit depth, okm bs ->
    exists c bs', okm bs' /\ (length bs' <= length bs)%nat /\
      op (strm bs lst legit depth) =
        Ok (present (dec bs), c, strm bs' lst legit depth) /\
      (forall v r, dec bs = Some (v, r) -> c = v /\ bs' = r).

(** Taking bytes off the stream: the read and the [Advance]. *)
Lemma take_step {B} a r (k : list Z -> Input B) lst legit depth : okm (a ++ r) ->
  (bs ← st_lift (bytes_from m (e - Z.of_nat (length (a ++ r))) (Z.of_nat (length a)));
   Advance (Z.of_nat (length a));; k bs) (strm (a ++ r) lst legit depth) =
  k a (strm r lst legit depth).
Proof.
  intros Hb. rewrite bytes_from_strm by done. rewrite (st_bind_ok _ _ _ _ _ eq_refl).
  by rewrite (st_bind_ok _ _ _ _ _ (Advance_strm _ _ _ _ _ _ eq_refl)).
Qed.

Lemma raw_body_reads size : 0 <= size ->
  reads_bytes (ReadRaw m size) (take_bytes size).
Proof.
  intros Hs bs lst legit depth Hb. unfold ReadRaw. rewrite (st_bind_ok _ _ _ _ _ eq_refl).
  destruct (take_bytes size bs) as [[a r]|] eqn:Et.
  - apply take_bytes_some in Et as (-> & ->).
    exists a, r. split; [by eapply okm_app|]. split; [rewrite length_app; lia|].
    split; [|by intros v r' [= <- <-]]. apply st_loop_exit. unfold raw_body.
    rewrite (st_bind_ok _ _ _ _ _ eq_refl), BufferSize_strm. cbv zeta.
    destruct (Z.ltb_spec (Z.of_nat (length (a ++ r))) (Z.of_nat (length a)));
      [rewrite length_app in *; lia|].
    by rewrite buffer_strm, take_step.
  - apply take_bytes_none in Et; [|done].
    exists bs, []. split; [split; [by intros i Hi; simpl in Hi; lia|constructor]|].
    split; [simpl; lia|]. split; [|done]. apply st_loop_exit. unfold raw_body.
    rewrite (st_bind_ok _ _ _ _ _ eq_refl), BufferSize_strm. cbv zeta.
    destruct (Z.ltb_spec (Z.of_nat (length bs)) size); [|lia].
    rewrite buffer_strm. pose proof (fun B => @take_step B bs []) as T. rewrite app_nil_r in T.
    rewrite T by done. by rewrite (st_bind_ok _ _ _ _ _ (Refresh_strm _ _ _ _)).
Qed.

Lemma ReadLittleEndian_reads k : 0 <= k < 2 ^ 26 -> reads (ReadLittleEndian m k) (little_endian k).
Proof.
  intros Hk bs lst legit depth Hb. unfold ReadLittleEndian, little_endian.
  rewrite (st_bind_ok _ _ _ _ _ eq_refl), BufferSize_strm.
  destruct (take_bytes k bs) as [[a r]|] eqn:Et.
  - apply take_bytes_some in Et as (-> & ->).
    exists r. split; [by eapply okm_app|]. split; [rewrite length_app; lia|].
    split; [|by intros v r' [= _ <-]].
    destruct (Z.leb_spec (Z.of_nat (length a)) (Z.of_nat (length (a ++ r))));
      [|rewrite length_app in *; lia].
    erewrite (st_bind_ok _ _ _ (Some a)); [reflexivity|]. by rewrite buffer_strm, take_step.
  - pose proof (take_bytes_none _ _ (proj1 Hk) Et).
    destruct (raw_body_reads k (proj1 Hk) bs lst legit depth Hb) as (c & bs' & H1 & H2 & H3 & H4).
    rewrite Et in H3. exists bs'. do 2 (split; [done|]). split; [|done].
    destruct (Z.leb_spec k (Z.of_nat (length bs))); [lia|].
    erewrite (st_bind_ok _ _ _ None); [reflexivity|]. unfold ReadLittleEndianFallback.
    rewrite (st_bind_ok _ _ _ _ _ eq_refl), BufferSize_strm.
    rewrite u32_small by lia. destruct (Z.leb_spec k (Z.of_nat (length bs))); [lia|].
    by rewrite (st_bind_ok _ _ _ _ _ H3).
Qed.

(** [size] is an [int] that may be negative. *)
Lemma InternalReadStringInline_reads old size :
  reads_bytes (InternalReadStringInline m old size) (take_bytes size).
Proof.
  intros bs lst legit depth Hb. unfold InternalReadStringInline.
  destruct (Z.ltb_spec size 0) as [Hn0|Hs].
  { exists old, bs. split; [done|]. split; [lia|]. unfold take_bytes.
    destruct (Z.leb_spec 0 size); [lia|]. by split. }
  rewrite (st_bind_ok _ _ _ _ _ eq_refl), BufferSize_strm.
  destruct (Z.leb_spec size (Z.of_nat (length bs))); [|by apply raw_body_reads].
  destruct (take_bytes size bs) as [[a r]|] eqn:Et.
  2:{ apply take_bytes_none in Et; lia. }
  apply take_bytes_some in Et as (-> & ->).
  exists a, r. split; [by eapply okm_app|]. split; [rewrite length_app; lia|].
  split; [|by intros v r' [= <- <-]].
  destruct (Z.ltb_spec 0 (Z.of_nat (length a))); [by rewrite buffer_strm, take_step|].
  by destruct a.
Qed.

Lemma CodedReadString_reads old size : reads_bytes (ReadString m old size) (take_bytes size).
Proof.
  intros bs lst legit depth Hb. unfold ReadString. destruct (Z.ltb_spec size 0).
  - destruct (InternalReadStringInline_reads old size bs lst legit depth Hb)
      as (c & bs' & H1). exists c, bs'. unfold InternalReadStringInline in H1.
    by destruct (Z.ltb_spec size 0); [|lia].
  - by apply InternalReadStringInline_reads.
Qed.
End Stream.
