(* ===== verification/WireSpec.v ===== *)
(** Reference decoders of the values of fields and of unknown fields, and the proof
    that [Wire] reads what they say. *)

From S2P Require Import Prelude CMem Coded CodedSpec CodedStream Wire Messages.

(** * Reference decoders *)

Definition map_fst {A B C} (f : A -> B) (o : option (A * C)) : option (B * C) :=
  match o with Some (a, r) => Some (f a, r) | None => None end.

(** The value of a field of a type that is not a string. *)
Definition primitive_of (t : FieldType) (bs : list Z) : option (Z * list Z) :=
  match t with
  | TYPE_INT32 => map_fst s32 (varint32 bs)
  | TYPE_UINT32 => varint32 bs
  | TYPE_SINT32 => map_fst WireZigZagDecode32 (varint32 bs)
  | TYPE_INT64 => map_fst s64 (varint64 bs)
  | TYPE_UINT64 => varint64 bs
  | TYPE_FIXED64 => little_endian 8 bs
  | TYPE_FIXED32 | TYPE_FLOAT => little_endian 4 bs
  | TYPE_BOOL => map_fst (fun v => b2z (negb (v =? 0))) (varint32 bs)
  | TYPE_STRING | TYPE_BYTES => None
  end.

(** The wire type of a field type. *)
Definition wire_type_of (t : FieldType) : Z :=
  match t with
  | TYPE_INT32 | TYPE_UINT32 | TYPE_SINT32 | TYPE_INT64 | TYPE_UINT64 | TYPE_BOOL => WIRETYPE_VARINT
  | TYPE_FIXED64 => WIRETYPE_FIXED64
  | TYPE_FIXED32 | TYPE_FLOAT => WIRETYPE_FIXED32
  | TYPE_STRING | TYPE_BYTES => WIRETYPE_LENGTH_DELIMITED
  end.

(** A length and as many bytes. *)
Definition string_of (bs : list Z) : option (list Z * list Z) :=
  match varint32 bs with Some (len, r) => take_bytes (s32 len) r | None => None end.

(** The field behind a tag, and the fields of a group up to its end tag. *)
Fixpoint unknown_field (n : nat) (depth tag : Z) (bs : list Z) : option (UnknownField * list Z) :=
  match n with
  | O => None
  | S n =>
      let number := GetTagFieldNumber tag in
      match GetTagWireType tag with
      | 0 => map_fst (UVarint number) (varint64 bs)
      | 1 => map_fst (UFixed64 number) (little_endian 8 bs)
      | 2 => map_fst (ULengthDelimited number) (string_of bs)
      | 3 =>
          if depth + 1 <=? default_recursion_limit_ then
            match unknown_group n (depth + 1) bs with
            | Some (us, t, r) =>
                if t =? MakeTag number WIRETYPE_END_GROUP then Some (UGroup number us, r) else None
            | None => None
            end
          else None
      | 5 => map_fst (UFixed32 number) (little_endian 4 bs)
      | _ => None
      end
  end
with unknown_group (n : nat) (depth : Z) (bs : list Z)
    : option (list UnknownField * Z * list Z) :=
  match n with
  | O => None
  | S n =>
      match varint32 bs with
      | None => None
      | Some (t, r) =>
          if t =? 0 then None
          else if GetTagWireType t =? WIRETYPE_END_GROUP then Some ([], t, r)
          else
            match unknown_field n depth t r with
            | None => None
            | Some (u, r') =>
                match unknown_group n depth r' with
                | None => None
                | Some (us, t', r'') => Some (u :: us, t', r'')
                end
            end
      end
  end.

Lemma wire_type_range tag : 0 <= GetTagWireType tag < 8.
Proof. apply (land_range_r tag 7 3); lia. Qed.

Lemma MakeTag_nonzero number type : 0 <= number -> 0 < type < 8 -> MakeTag number type <> 0.
Proof.
  intros Hn Ht E. unfold MakeTag in E. apply Z.lor_eq_0_iff in E as [_ E]. lia.
Qed.

(** * The values *)

Section Wire.
Context (m : mem) (e n : Z).
Hypothesis Hn : 0 <= n < 2 ^ 26.

Abbreviation strm := (strm e n).
Abbreviation okm := (okm m e).
Abbreviation reads := (reads m e n).
Abbreviation reads_bytes := (reads_bytes m e n).

Lemma ReadPrimitive_reads t : is_string t = false ->
  reads (ReadPrimitive m t) (primitive_of t).
Proof.
  pose proof (ReadVarint32_reads m e n) as H32. pose proof (ReadVarint64_reads m e n) as H64.
  destruct t; intros Hs; try done; cbn [ReadPrimitive].
  - by apply (ReadLittleEndian_reads m e n).
  - eapply reads_dec; [|eapply (reads_map m e n _ _ s64); [done|exact H64]]. done.
  - eapply reads_dec; [|eapply (reads_map m e n _ _ s32); [done|exact H32]]. done.
  - by apply (ReadLittleEndian_reads m e n).
  - by apply (ReadLittleEndian_reads m e n).
  - eapply reads_dec; [|eapply (reads_map m e n _ _ (fun v => b2z (negb (v =? 0))));
      [done|exact H32]]. done.
  - eapply reads_dec; [|eapply (reads_map m e n _ _ WireZigZagDecode32); [done|exact H32]]. done.
Qed.

Lemma length_prefixed (op : Z -> Input (bool * list Z)) old :
  (forall size, reads_bytes (op size) (take_bytes size)) ->
  reads_bytes (r ← ReadVarint32 m;
               match (r : option Z) with None => mret (false, old) | Some len => op (s32 len) end)
    string_of.
Proof.
  intros H bs lst legit depth Hb.
  destruct (ReadVarint32_reads m e n bs lst legit depth Hb) as (bs1 & H1 & H2 & H3 & H4).
  rewrite (st_bind_ok _ _ _ _ _ H3). unfold string_of.
  destruct (varint32 bs) as [[len r]|] eqn:Ev; simpl.
  - rewrite (H4 _ _ eq_refl) in *.
    destruct (H (s32 len) r lst legit depth H1) as (c & bs' & H5 & H6 & H7 & H8).
    exists c, bs'. split; [done|]. split; [lia|]. by split.
  - exists old, bs1. do 2 (split; [done|]). by split.
Qed.

Lemma WireReadString_reads old : reads_bytes (WireReadString m old) string_of.
Proof. apply length_prefixed. intros size. by apply InternalReadStringInline_reads. Qed.

Lemma WireReadBytes_reads old : reads_bytes (WireReadBytes m old) string_of.
Proof. apply length_prefixed. intros size. by apply InternalReadStringInline_reads. Qed.

(** * Unknown fields *)

(** Each reader is compared with its reference at a fuel of its own. *)
Definition field_fuel (bs : list Z) : nat := 2 * length bs + 2.
Definition group_fuel (bs : list Z) : nat := 2 * length bs + 1.

Definition SkipField_ok (k1 k2 : nat) : Prop :=
  forall tag us bs lst legit depth, okm bs -> 0 <= depth -> (0 <= tag) ->
  (field_fuel bs <= k1)%nat -> (field_fuel bs <= k2)%nat ->
  match unknown_field k2 depth tag bs with
  | Some (u, r) => okm r /\ (length r <= length bs)%nat /\ exists lst',
      SkipField m k1 tag us (strm bs lst legit depth) =
      Ok ((true, us ++ [u]), strm r lst' legit depth)
  | None => exists us' s',
      SkipField m k1 tag us (strm bs lst legit depth) = Ok ((false, us'), s')
  end.

Definition SkipMessage_ok (k1 k2 : nat) : Prop :=
  forall us bs lst legit depth, okm bs -> 0 <= depth ->
  (group_fuel bs <= k1)%nat -> (group_fuel bs <= k2)%nat ->
  match unknown_group k2 depth bs with
  | Some (us', t, r) => okm r /\ (length r < length bs)%nat /\
      SkipMessage m k1 us (strm bs lst legit depth) =
      Ok ((true, us ++ us'), strm r t legit depth)
  | None => exists b us' s',
      SkipMessage m k1 us (strm bs lst legit depth) = Ok ((b, us'), s') /\
      (b = true -> last_tag_ s' = 0)
  end.

(** The unknown fields that are one read. *)
Lemma skip_value {A} (op : Input (option A)) dec (f : A -> UnknownField) us bs lst legit depth :
  reads op dec -> okm bs ->
  match map_fst f (dec bs) with
  | Some (u, r) => okm r /\ (length r <= length bs)%nat /\ exists lst',
      (r ← op;
       mret (match r with None => (false, us) | Some v => (true, us ++ [f v]) end))
        (strm bs lst legit depth) = Ok ((true, us ++ [u]), strm r lst' legit depth)
  | None => exists us' s',
      (r ← op;
       mret (match r with None => (false, us) | Some v => (true, us ++ [f v]) end))
        (strm bs lst legit depth) = Ok ((false, us'), s')
  end.
Proof.
  intros H Hb. destruct (H bs lst legit depth Hb) as (bs' & H1 & H2 & H3 & H4).
  rewrite (st_bind_ok _ _ _ _ _ H3). destruct (dec bs) as [[v r]|]; simpl.
  - rewrite (H4 _ _ eq_refl) in *. do 2 (split; [done|]). by exists lst.
  - by do 2 eexists.
Qed.

Lemma varint32_nonneg bs t r : varint32 bs = Some (t, r) -> 0 <= t.
Proof.
  unfold varint32. destruct (varint 10 bs) as [[v r']|]; [|done]. intros [= <- _].
  apply u32_range.
Qed.

Lemma varint32_shorter bs t r : varint32 bs = Some (t, r) -> (length r < length bs)%nat.
Proof.
  unfold varint32. destruct (varint 10 bs) as [[v r']|] eqn:E; [|done]. intros [= _ <-].
  apply varint_suffix in E as (a & -> & Ha). rewrite length_app. lia.
Qed.

Lemma at_end_varint bs t r : varint32 bs = Some (t, r) -> at_end bs = false.
Proof. by destruct bs. Qed.

Lemma SkipMessage_step k1 k2 : SkipField_ok k1 k2 -> SkipMessage_ok k1 k2 ->
  SkipMessage_ok (S k1) (S k2).
Proof.
  intros IHf IHm us bs lst legit depth Hb Hd Hk1 Hk2. cbn [SkipMessage unknown_group].
  destruct (ReadTag_tag m e n Hn bs lst legit depth Hb) as (bs' & H1 & H2 & H3 & H4).
  rewrite (st_bind_ok _ _ _ _ _ H3). unfold tag_of.
  destruct (varint32 bs) as [[t r]|] eqn:Ev.
  2:{ exists true. by do 2 eexists. }
  rewrite (H4 _ _ eq_refl) in *. rewrite (at_end_varint _ _ _ Ev), orb_false_r.
  pose proof (varint32_nonneg _ _ _ Ev). pose proof (varint32_shorter _ _ _ Ev).
  destruct (Z.eqb_spec t 0) as [->|]; [exists true; by do 2 eexists|].
  destruct (GetTagWireType t =? WIRETYPE_END_GROUP).
  { split; [done|]. split; [lia|]. by rewrite app_nil_r. }
  unfold group_fuel, field_fuel in *.
  specialize (IHf t us r t legit depth H1 Hd ltac:(done) ltac:(unfold field_fuel; lia)
    ltac:(unfold field_fuel; lia)).
  destruct (unknown_field k2 depth t r) as [[u r']|].
  - destruct IHf as (Hr' & Hl & lst' & E). rewrite (st_bind_ok _ _ _ _ _ E). simpl.
    specialize (IHm (us ++ [u]) r' lst' legit depth Hr' Hd ltac:(unfold group_fuel; lia)
      ltac:(unfold group_fuel; lia)).
    destruct (unknown_group k2 depth r') as [[[us' t'] r'']|]; [|done].
    destruct IHm as (Hr'' & Hl' & E'). split; [done|]. split; [lia|].
    rewrite E'. by rewrite <- app_assoc.
  - destruct IHf as (us' & s' & E). rewrite (st_bind_ok _ _ _ _ _ E). simpl.
    by exists false, us', s'.
Qed.

Lemma skip_string tag us bs lst legit depth : okm bs ->
  let f := ULengthDelimited (GetTagFieldNumber tag) in
  match map_fst f (string_of bs) with
  | Some (u, r) => okm r /\ (length r <= length bs)%nat /\ exists lst',
      (r ← ReadVarint32 m;
       match (r : option Z) with
       | None => mret (false, us)
       | Some len => x ← ReadString m [] (s32 len);
                     mret (fst (x : bool * list Z), us ++ [f (snd x)])
       end) (strm bs lst legit depth) = Ok ((true, us ++ [u]), strm r lst' legit depth)
  | None => exists us' s',
      (r ← ReadVarint32 m;
       match (r : option Z) with
       | None => mret (false, us)
       | Some len => x ← ReadString m [] (s32 len);
                     mret (fst (x : bool * list Z), us ++ [f (snd x)])
       end) (strm bs lst legit depth) = Ok ((false, us'), s')
  end.
Proof.
  intros Hb f. destruct (ReadVarint32_reads m e n bs lst legit depth Hb) as (bs1 & H1 & H2 & H3 & H4).
  rewrite (st_bind_ok _ _ _ _ _ H3). unfold string_of.
  destruct (varint32 bs) as [[len r]|] eqn:Ev; simpl; [|by do 2 eexists].
  rewrite (H4 _ _ eq_refl) in *.
  destruct (CodedReadString_reads m e n [] (s32 len) r lst legit depth H1) as (c & bs' & H5 & H6 & H7 & H8).
  rewrite (st_bind_ok _ _ _ _ _ H7).
  destruct (take_bytes (s32 len) r) as [[a r']|]; simpl; [|by do 2 eexists].
  destruct (H8 _ _ eq_refl) as [-> ->]. split; [done|]. split; [lia|]. by exists lst.
Qed.

Lemma skip_group k1 k2 tag us bs lst legit depth :
  SkipMessage_ok k1 k2 -> okm bs -> 0 <= depth -> 0 <= tag ->
  (field_fuel bs <= S k1)%nat -> (field_fuel bs <= S k2)%nat ->
  GetTagWireType tag = 3 ->
  match unknown_field (S k2) depth tag bs with
  | Some (u, r) => okm r /\ (length r <= length bs)%nat /\ exists lst',
      SkipField m (S k1) tag us (strm bs lst legit depth) =
      Ok ((true, us ++ [u]), strm r lst' legit depth)
  | None => exists us' s',
      SkipField m (S k1) tag us (strm bs lst legit depth) = Ok ((false, us'), s')
  end.
Proof.
  intros IH Hb Hd Ht Hk1 Hk2 Ety. cbn [SkipField unknown_field]. rewrite Ety.
  change (3 =? WIRETYPE_VARINT) with false. change (3 =? WIRETYPE_FIXED64) with false.
  change (3 =? WIRETYPE_LENGTH_DELIMITED) with false.
  change (3 =? WIRETYPE_START_GROUP) with true. cbv zeta. cbn iota.
  rewrite (st_bind_ok _ _ _ (depth + 1 <=? default_recursion_limit_) (strm bs lst legit (depth + 1)))
    by done.
  destruct (depth + 1 <=? default_recursion_limit_); simpl; [|by do 2 eexists].
  unfold field_fuel in *.
  specialize (IH [] bs lst legit (depth + 1) Hb ltac:(lia) ltac:(unfold group_fuel; lia)
    ltac:(unfold group_fuel; lia)).
  set (number := GetTagFieldNumber tag) in *.
  assert (MakeTag number WIRETYPE_END_GROUP <> 0) as Hnz.
  { intros E. apply Z.lor_eq_0_iff in E as [_ E]. done. }
  destruct (unknown_group k2 (depth + 1) bs) as [[[us' t] r]|].
  - destruct IH as (Hr & Hl & E). rewrite (st_bind_ok _ _ _ _ _ E). simpl.
    assert (DecrementRecursionDepth (strm r t legit (depth + 1)) = Ok (tt, strm r t legit depth)) as Ed.
    { unfold DecrementRecursionDepth, st_modify. simpl.
      destruct (Z.ltb_spec 0 (depth + 1)); [|lia]. unfold set_depth. simpl.
      by replace (depth + 1 - 1) with depth by lia. }
    rewrite (st_bind_ok _ _ _ _ _ Ed). st_run. unfold LastTagWas. simpl.
    destruct (t =? MakeTag number WIRETYPE_END_GROUP); [|by do 2 eexists].
    split; [done|]. split; [lia|]. by exists t.
  - destruct IH as (b & us' & s' & E & Hl). rewrite (st_bind_ok _ _ _ _ _ E). simpl.
    destruct b; simpl; [|by do 2 eexists]. specialize (Hl eq_refl).
    destruct (DecrementRecursionDepth s') as [[[] s'']|] eqn:Ed; [|done].
    rewrite (st_bind_ok _ _ _ _ _ Ed). st_run. unfold LastTagWas.
    assert (last_tag_ s'' = 0) as ->.
    { unfold DecrementRecursionDepth, st_modify in Ed. injection Ed as <-.
      by destruct (0 <? recursion_depth_ s'). }
    destruct (Z.eqb_spec 0 (MakeTag number WIRETYPE_END_GROUP)) as [E0|]; [|by do 2 eexists].
    by destruct Hnz.
Qed.

Lemma SkipField_step k1 k2 : SkipMessage_ok k1 k2 -> SkipField_ok (S k1) (S k2).
Proof.
  intros IH tag us bs lst legit depth Hb Hd Ht Hk1 Hk2.
  destruct (decide (GetTagWireType tag = 3)) as [E3|N3]; [by apply (skip_group k1 k2)|].
  cbn [SkipField unknown_field].
  pose proof (wire_type_range tag) as Hw. cbv zeta.
  remember (GetTagWireType tag) as ty eqn:Ety.
  assert (ty = 0 \/ ty = 1 \/ ty = 2 \/ ty = 3 \/ ty = 4 \/ ty = 5 \/ ty = 6 \/ ty = 7)
    as Hty by lia.
  destruct Hty as [->|[->|[->|[->|[->|[->|[->| ->]]]]]]]; cbn [Z.eqb Pos.eqb].
  - apply (skip_value _ varint64); [by apply ReadVarint64_reads|done].
  - apply (skip_value _ (little_endian 8)); [by apply (ReadLittleEndian_reads m e n)|done].
  - apply (skip_string tag us bs); done.
  - done.
  - by do 2 eexists.
  - apply (skip_value _ (little_endian 4)); [by apply (ReadLittleEndian_reads m e n)|done].
  - by do 2 eexists.
  - by do 2 eexists.
Qed.
Lemma Skip_ok k1 k2 : SkipField_ok k1 k2 /\ SkipMessage_ok k1 k2.
Proof.
  revert k2. induction k1 as [|k1 IH]; intros k2.
  { split; [intros tag us bs lst legit depth Hb Hd Ht Hk|intros us bs lst legit depth Hb Hd Hk];
    unfold field_fuel, group_fuel in Hk; lia. }
  destruct k2 as [|k2].
  { split; [intros tag us bs lst legit depth Hb Hd Ht _ Hk|intros us bs lst legit depth Hb Hd _ Hk];
    unfold field_fuel, group_fuel in Hk; lia. }
  destruct (IH k2) as [IHf IHm]. split; [by apply SkipField_step|by apply SkipMessage_step].
Qed.

(** [SkipField] reads one unknown field or fails. *)
Lemma SkipField_spec k1 k2 : SkipField_ok k1 k2.
Proof. apply Skip_ok. Qed.
End Wire.
