(* ===== verification/MsgSpec.v ===== *)
(** What a generated class's parser computes: [decode_fields], a decoder over the list
    of bytes that takes field after field, without buffers, fast paths, jumps between
    cases or fuel of its own.  [ParseFromArray_spec] is the refinement. *)

From S2P Require Import Prelude CMem Coded Wire Messages CodedSpec CodedStream WireSpec.

(** * The tag reader *)

(** What the documentation of [ReadTagWithCutoff] says: it reads what [ReadTag] reads;
    with [true] the tag is in [0, cutoff], with [false] it is above the cutoff or
    zero. *)
Class TagReaderLaws `{TagReader} : Prop :=
  tag_with_cutoff : forall m cutoff s,
    match ReadTag m s with
    | Ok (t, s') => exists known, ReadTagWithCutoff m cutoff s = Ok ((t, known), s') /\
        (known = true -> u32 t <= cutoff) /\ (known = false -> u32 t = 0 \/ cutoff < u32 t)
    | Fault f => ReadTagWithCutoff m cutoff s = Fault f
    end.

(** * The reference decoder *)

Definition update_field (c : parse_case) (bs : list Z) (msg : message)
    : option (message * list Z) :=
  if is_string (c_type c) then
    match string_of bs with
    | None => None
    | Some (v, r) =>
        Some (if c_repeated c
              then assign (c_member c) (VRep (get_rep (c_member c) msg ++ [v])) msg
              else assign (c_member c) (VStr v) (set_has (c_member c) msg), r)
    end
  else
    match primitive_of (c_type c) bs with
    | None => None
    | Some (v, r) => Some (set_has (c_member c) (assign (c_member c) (VInt v) msg), r)
    end.

Definition case_of_tag (t : Z) (cases : list parse_case) : option parse_case :=
  list_find (fun c => c_tag c = t) cases ≫= fun p => Some (snd p).

Definition add_unknown (u : UnknownField) (msg : message) : message :=
  set_unknown (unknown_fields_ msg ++ [u]) msg.

(** One field behind its tag. *)
Definition decode_field (K : message_class) (t : Z) (bs : list Z) (msg : message)
    : option (message * list Z) :=
  match case_of_tag t (k_cases K) with
  | Some c => update_field c bs msg
  | None => map_fst (fun u => add_unknown u msg) (unknown_field (field_fuel bs) 0 t bs)
  end.

(** A tag that ends the fields. *)
Definition stops (t : Z) : bool := (t =? 0) || (GetTagWireType t =? WIRETYPE_END_GROUP).

Fixpoint decode_fields (n : nat) (K : message_class) (bs : list Z) (msg : message)
    : option message :=
  match n with
  | O => None
  | S n =>
      match bs with
      | [] => Some msg
      | _ =>
          match varint32 bs with
          | None => None
          | Some (t, r) =>
              if stops t then None
              else match decode_field K t r msg with
                   | None => None
                   | Some (msg', r') => decode_fields n K r' msg'
                   end
          end
      end
  end.

Definition decode_message (K : message_class) (bs : list Z) (msg : message) : option message :=
  decode_fields (S (length bs)) K bs msg.

(** * Well formed tables *)

(** The tag of a case is that of its field, a case is expected under its own tag, and
    the numbers differ. *)
Definition wf_case (K : message_class) (c : parse_case) : bool :=
  (c_tag c =? MakeTag (c_number c) (wire_type_of (c_type c))) &&
  (GetTagFieldNumber (c_tag c) =? c_number c) &&
  (1 <=? c_number c) && (c_tag c <=? k_cutoff K) && negb (stops (c_tag c)) &&
  forallb (fun p => match case_of (snd p) (k_cases K) with
                    | Some c' => c_tag c' =? fst p
                    | None => false
                    end) (c_expect c).

Definition wf_cases (K : message_class) : bool :=
  forallb (wf_case K) (k_cases K) && bool_decide (NoDup (c_number <$> k_cases K)).

Section Cases.
Context (K : message_class).
Hypothesis HK : wf_cases K = true.

Lemma wf_case_in c : c ∈ k_cases K -> wf_case K c = true.
Proof.
  intros Hc. apply andb_true_iff in HK as [H _]. rewrite forallb_forall in H.
  apply H. by apply list_elem_of_In.
Qed.

Lemma find_in {P : parse_case -> Prop} `{forall c, Decision (P c)} cases c :
  (list_find P cases ≫= fun p => Some (snd p)) = Some c -> c ∈ cases /\ P c.
Proof.
  intros E. apply bind_Some in E as ([i c'] & E & [= <-]).
  apply list_find_Some in E as (E & Hp & _). split; [|done]. by eapply list_elem_of_lookup_2.
Qed.

Lemma case_of_number c : c ∈ k_cases K -> case_of (c_number c) (k_cases K) = Some c.
Proof.
  intros Hc. unfold case_of.
  destruct (list_find (fun c' => c_number c' = c_number c) (k_cases K)) as [[i c']|] eqn:E.
  - apply list_find_Some in E as (E & Hp & _). simpl. f_equal.
    apply andb_true_iff in HK as [_ Hd]. apply bool_decide_eq_true in Hd.
    apply list_elem_of_lookup_1 in Hc as [j Hj].
    assert (i = j) as ->; [|congruence].
    eapply (NoDup_lookup _ _ _ (c_number c)); [exact Hd| |]; rewrite list_lookup_fmap.
    + by rewrite E; simpl; rewrite Hp.
    + by rewrite Hj.
  - apply list_find_None in E. rewrite Forall_forall in E. by destruct (E c Hc).
Qed.

(** The case for a tag, found by the field number or by the tag. *)
Lemma case_by_number t c : case_of_tag t (k_cases K) = Some c ->
  case_of (GetTagFieldNumber t) (k_cases K) = Some c /\ c_tag c = t /\ c ∈ k_cases K.
Proof.
  intros E. apply find_in in E as [Hc <-]. pose proof (wf_case_in c Hc) as H.
  unfold wf_case in H. repeat (apply andb_true_iff in H as [H ?]).
  match goal with H : (GetTagFieldNumber _ =? _) = true |- _ => apply Z.eqb_eq in H; rewrite H end.
  split; [by apply case_of_number|done].
Qed.

Lemma no_case_by_number t c : case_of_tag t (k_cases K) = None ->
  case_of (GetTagFieldNumber t) (k_cases K) = Some c -> c_tag c <> t.
Proof.
  unfold case_of_tag. intros E Hc <-. apply find_in in Hc as [Hc _].
  destruct (list_find _ _) as [[i c']|] eqn:El; [done|].
  apply list_find_None in El. rewrite Forall_forall in El. by destruct (El c Hc).
Qed.

Lemma case_tag_bounds c : c ∈ k_cases K -> c_tag c <= k_cutoff K /\ stops (c_tag c) = false.
Proof.
  intros Hc. pose proof (wf_case_in c Hc) as H. unfold wf_case in H.
  repeat (apply andb_true_iff in H as [H ?]).
  split; [lia|]. by apply negb_true_iff.
Qed.

Lemma expect_target c t l : c ∈ k_cases K -> (t, l) ∈ c_expect c ->
  exists c', case_of l (k_cases K) = Some c' /\ c_tag c' = t /\ c' ∈ k_cases K.
Proof.
  intros Hc Hl. pose proof (wf_case_in c Hc) as H. unfold wf_case in H.
  repeat (apply andb_true_iff in H as [H ?]).
  match goal with H : forallb _ (c_expect _) = true |- _ => rewrite forallb_forall in H;
    specialize (H (t, l) (proj1 (list_elem_of_In _ _) Hl)) end.
  simpl in *. destruct (case_of l (k_cases K)) as [c'|] eqn:E; [|done].
  exists c'. split; [done|]. split; [by apply Z.eqb_eq|]. by apply find_in in E as [? _].
Qed.

Lemma case_tag_of c : c ∈ k_cases K -> case_of_tag (c_tag c) (k_cases K) = Some c.
Proof.
  intros Hc. unfold case_of_tag.
  destruct (list_find _ _) as [[i c']|] eqn:E.
  - simpl. f_equal. apply list_find_Some in E as (E & Hp & _).
    apply list_elem_of_lookup_2 in E. pose proof (case_of_number c Hc) as E1.
    pose proof (case_of_number c' E) as E2.
    pose proof (wf_case_in c Hc) as H1. pose proof (wf_case_in c' E) as H2.
    unfold wf_case in H1, H2. rewrite Hp in H2.
    repeat (apply andb_true_iff in H1 as [H1 ?]). repeat (apply andb_true_iff in H2 as [H2 ?]).
    assert (c_number c = c_number c') as En by lia. congruence.
  - apply list_find_None in E. rewrite Forall_forall in E. by destruct (E c Hc).
Qed.
End Cases.

(** * The parser *)

Section Parser.
Context (m : mem) (e n : Z) (K : message_class) `{HT : TagReaderLaws}.
Hypothesis Hn : 0 <= n < 2 ^ 26.
Hypothesis HK : wf_cases K = true.

Abbreviation strm := (strm e n).
Abbreviation okm := (okm m e).

Lemma take_bytes_length k bs a r : take_bytes k bs = Some (a, r) ->
  (length r <= length bs)%nat.
Proof. intros Ht. apply take_bytes_some in Ht as [-> _]. rewrite length_app. lia. Qed.

Lemma map_fst_some {A B C} (f : A -> B) (o : option (A * C)) b r :
  map_fst f o = Some (b, r) -> exists a, o = Some (a, r) /\ b = f a.
Proof. destruct o as [[a r']|]; [|done]. intros [= <- <-]. by exists a. Qed.

Lemma varint64_shorter bs v r : varint64 bs = Some (v, r) -> (length r < length bs)%nat.
Proof.
  unfold varint64. destruct (varint 10 bs) as [[v' r']|] eqn:E; [|done]. intros [= _ <-].
  apply varint_suffix in E as (a & -> & Ha). rewrite length_app. lia.
Qed.

Lemma little_endian_shorter k bs v r : 0 < k -> little_endian k bs = Some (v, r) ->
  (length r < length bs)%nat.
Proof.
  intros Hk. unfold little_endian. destruct (take_bytes k bs) as [[a r']|] eqn:E; [|done].
  intros [= _ <-]. apply take_bytes_some in E as [-> ->]. rewrite length_app. lia.
Qed.

Lemma primitive_shorter t bs v r : primitive_of t bs = Some (v, r) -> (length r < length bs)%nat.
Proof.
  destruct t; intros E; try done; cbn [primitive_of] in E.
  all: try match type of E with
           | map_fst _ _ = _ => apply map_fst_some in E as (v' & E & ->)
           end.
  all: first [by eapply varint32_shorter | by eapply varint64_shorter
             |eapply little_endian_shorter; [|exact E]; lia].
Qed.

Lemma string_shorter bs v r : string_of bs = Some (v, r) -> (length r < length bs)%nat.
Proof.
  unfold string_of. destruct (varint32 bs) as [[len r']|] eqn:E; [|done]. intros E'.
  apply varint32_shorter in E. apply take_bytes_length in E'. lia.
Qed.

Lemma update_field_shorter c bs msg msg' r : update_field c bs msg = Some (msg', r) ->
  (length r < length bs)%nat.
Proof.
  unfold update_field. destruct (is_string (c_type c)).
  - destruct (string_of bs) as [[v r']|] eqn:E; [|done]. intros [= _ <-].
    by eapply string_shorter.
  - destruct (primitive_of (c_type c) bs) as [[v r']|] eqn:E; [|done]. intros [= _ <-].
    by eapply primitive_shorter.
Qed.

Lemma read_string_reads t old : is_string t = true ->
  reads_bytes m e n (read_string_type m t old) string_of.
Proof.
  destruct t; try done; intros _; [apply WireReadString_reads|apply WireReadBytes_reads].
Qed.

Lemma read_field_spec c msg bs lst legit depth : okm bs ->
  match update_field c bs msg with
  | Some (msg', r) => okm r /\
      read_field m c msg (strm bs lst legit depth) = Ok ((true, msg'), strm r lst legit depth)
  | None => exists msg' s',
      read_field m c msg (strm bs lst legit depth) = Ok ((false, msg'), s')
  end.
Proof.
  intros Hb. unfold update_field, read_field. destruct (is_string (c_type c)) eqn:Es.
  - destruct (c_repeated c).
    + destruct (read_string_reads (c_type c) [] Es bs lst legit depth Hb)
        as (v & bs' & H1 & H2 & H3 & H4).
      rewrite (st_bind_ok _ _ _ _ _ H3).
      destruct (string_of bs) as [[v' r]|]; simpl; [|by do 2 eexists].
      by destruct (H4 _ _ eq_refl) as [-> ->].
    + destruct (read_string_reads (c_type c) (get_str (c_member c) msg) Es bs lst legit depth Hb)
        as (v & bs' & H1 & H2 & H3 & H4).
      rewrite (st_bind_ok _ _ _ _ _ H3).
      destruct (string_of bs) as [[v' r]|]; simpl; [|by do 2 eexists].
      by destruct (H4 _ _ eq_refl) as [-> ->].
  - destruct (ReadPrimitive_reads m e n (c_type c) Es bs lst legit depth Hb)
      as (bs' & H1 & H2 & H3 & H4).
    rewrite (st_bind_ok _ _ _ _ _ H3).
    destruct (primitive_of (c_type c) bs) as [[v r]|]; simpl; [|by do 2 eexists].
    by rewrite (H4 _ _ eq_refl) in *.
Qed.

Lemma run_expect_spec l bs lst legit depth : okm bs -> (forall t i, (t, i) ∈ l -> 0 <= t) ->
  run_expect m l (strm bs lst legit depth) = Ok (None, strm bs lst legit depth) \/
  exists t i r, run_expect m l (strm bs lst legit depth) = Ok (Some i, strm r lst legit depth) /\
    (t, i) ∈ l /\ varint32 bs = Some (t, r) /\ okm r.
Proof.
  intros Hb Hl. induction l as [|[t i] l IH]; [by left|]. cbn [run_expect].
  destruct (ReadVarint32_reads m e n bs lst legit depth Hb) as (r' & Hr & _ & _ & Hv).
  destruct (ExpectTag_strm m e n t bs lst legit depth Hb) as [E|(r & E & Ev)];
    [apply (Hl t i); by left| |]; rewrite (st_bind_ok _ _ _ _ _ E).
  - destruct IH as [IH|(t' & i' & r & IH & Hi & Ev)].
    + intros t' i' Hi. apply (Hl t' i'). by right.
    + by left.
    + right. exists t', i', r. split; [done|]. split; [by right|done].
  - right. exists t, i, r. split; [done|]. split; [by left|]. split; [done|].
    by rewrite (Hv _ _ Ev) in Hr.
Qed.

Lemma expect_nonneg c t i : c ∈ k_cases K -> (t, i) ∈ c_expect c -> 0 <= t.
Proof.
  intros Hc Hi. destruct (expect_target K HK c t i Hc Hi) as (c' & _ & <- & Hc').
  pose proof (wf_case_in K HK c' Hc') as Hw. unfold wf_case in Hw.
  repeat (apply andb_true_iff in Hw as [Hw ?]). apply Z.eqb_eq in Hw. rewrite Hw.
  apply Z.lor_nonneg. split; [apply u32_range|]. by destruct (c_type c').
Qed.

(** A case: its field fails to parse; or the field is taken and the parser goes back
    to the loop, to another case whose tag it has taken, or out at the end. *)
Lemma run_case_spec c msg bs lst : c ∈ k_cases K -> okm bs ->
  match update_field c bs msg with
  | None => exists msg' s',
      run_case m c msg (strm bs lst false 0) = Ok (inr (false, msg'), s')
  | Some (msg', r) => okm r /\
      (run_case m c msg (strm bs lst false 0) = Ok (inl (None, msg'), strm r lst false 0) \/
       (exists t i r', run_case m c msg (strm bs lst false 0) =
          Ok (inl (Some i, msg'), strm r' lst false 0) /\
          (t, i) ∈ c_expect c /\ varint32 r = Some (t, r') /\ okm r') \/
       (r = [] /\ run_case m c msg (strm bs lst false 0) =
          Ok (inr (true, msg'), strm [] 0 true 0)))
  end.
Proof.
  intros Hc Hb. pose proof (read_field_spec c msg bs lst false 0 Hb) as Hr. unfold run_case.
  destruct (update_field c bs msg) as [[msg' r]|].
  - destruct Hr as [Hokr E]. split; [done|]. rewrite (st_bind_ok _ _ _ _ _ E). cbn [fst negb snd].
    destruct (run_expect_spec (c_expect c) r lst false 0 Hokr) as [E'|(t & i & r' & E' & Hi)];
      [intros t i; by apply expect_nonneg| |]; rewrite (st_bind_ok _ _ _ _ _ E').
    + destruct (c_at_end c).
      * rewrite (st_bind_ok _ _ _ _ _ (ExpectAtEnd_strm e n _ _ _ _)).
        destruct r; [by right; right|by left].
      * by left.
    + right. left. by exists t, i, r'.
  - destruct Hr as (msg' & s' & E). rewrite (st_bind_ok _ _ _ _ _ E). by do 2 eexists.
Qed.
(** The outcome of the rest of the loop: a message and a legitimate end, or neither. *)
Definition outcome (ref : option message) (r : result ((bool * message) * CodedInputStream))
    : Prop :=
  match ref with
  | Some msg => exists s', r = Ok ((true, msg), s') /\ legitimate_message_end_ s' = true
  | None => exists b msg s', r = Ok ((b, msg), s') /\
      b && legitimate_message_end_ s' = false
  end.

(** What is left to compute in a state of the loop. *)
Definition rest_of (k : nat) (target : option Z) (bs : list Z) (msg : message) : option message :=
  match target with
  | None => decode_fields k K bs msg
  | Some i =>
      match case_of i (k_cases K) with
      | None => None
      | Some c => match update_field c bs msg with
                  | Some (msg', r) => decode_fields k K r msg'
                  | None => None
                  end
      end
  end.

Definition loop_ok (fuel k1 k2 : nat) (bs : list Z) : Prop :=
  forall target msg lst, okm bs ->
  (forall i, target = Some i -> exists c, case_of i (k_cases K) = Some c /\ c ∈ k_cases K) ->
  outcome (rest_of k2 target bs msg)
    (st_loop k1 (merge_body m fuel K) (target, msg) (strm bs lst false 0)).

Lemma outcome_exit fuel k l s a s' ref :
  merge_body m fuel K l s = Ok (inr a, s') -> outcome ref (Ok (a, s')) ->
  outcome ref (st_loop (S k) (merge_body m fuel K) l s).
Proof. intros E Ho. by erewrite st_loop_exit by exact E. Qed.

Lemma outcome_next fuel k l s l' s' ref :
  merge_body m fuel K l s = Ok (inl l', s') ->
  outcome ref (st_loop k (merge_body m fuel K) l' s') ->
  outcome ref (st_loop (S k) (merge_body m fuel K) l s).
Proof. intros E Ho. by erewrite st_loop_next by exact E. Qed.

Lemma decode_fields_cons k bs msg t r : varint32 bs = Some (t, r) -> stops t = false ->
  decode_fields (S k) K bs msg =
  match decode_field K t r msg with
  | Some (msg', r') => decode_fields k K r' msg'
  | None => None
  end.
Proof. intros E Hs. simpl. destruct bs; [done|]. by rewrite E, Hs. Qed.

Lemma after_case fuel k1 k2 c msg bs lst l s :
  c ∈ k_cases K -> okm bs -> (length bs <= k1)%nat -> (length bs <= k2)%nat ->
  (forall r k1 k2, (length r < length bs)%nat -> (length r < k1)%nat -> (length r < k2)%nat ->
     loop_ok fuel k1 k2 r) ->
  merge_body m fuel K l s = run_case m c msg (strm bs lst false 0) ->
  outcome
    (match update_field c bs msg with
     | Some (msg', r) => decode_fields k2 K r msg'
     | None => None
     end)
    (st_loop (S k1) (merge_body m fuel K) l s).
Proof.
  intros Hc Hb Hk1 Hk2 IH El. pose proof (run_case_spec c msg bs lst Hc Hb) as Hr.
  rewrite <- El in Hr. destruct (update_field c bs msg) as [[msg' r]|] eqn:Eu.
  - pose proof (update_field_shorter _ _ _ _ _ Eu) as Hlen.
    destruct Hr as [Hokr [E|[(t & i & r' & E & Hi & Ev & Hr')|[-> E]]]].
    + eapply outcome_next; [exact E|]. by apply (IH r k1 k2 Hlen ltac:(lia) ltac:(lia) None msg' lst Hokr).
    + eapply outcome_next; [exact E|].
      pose proof (varint32_shorter _ _ _ Ev) as Hlen'.
      destruct k2 as [|k2]; [lia|].
      destruct (expect_target K HK c t i Hc Hi) as (c' & Ec & <- & Hc').
      rewrite (decode_fields_cons k2 r msg' _ _ Ev) by apply (case_tag_bounds K HK c' Hc').
      unfold decode_field. rewrite (case_tag_of K HK c' Hc').
      specialize (IH r' k1 k2 ltac:(lia) ltac:(lia) ltac:(lia) (Some i) msg' lst Hr').
      unfold rest_of in IH. rewrite Ec in IH. apply IH. intros ? [= <-]. by exists c'.
    + eapply outcome_exit; [exact E|]. destruct k2; [simpl in *; lia|]. by eexists.
  - destruct Hr as (msg' & s' & E). eapply outcome_exit; [exact E|]. by do 3 eexists.
Qed.

Lemma handle_unusual_stop fuel t msg s : stops t = true ->
  handle_unusual m fuel t msg s = Ok (inr (true, msg), s).
Proof. intros E. unfold handle_unusual. unfold stops in E. by rewrite E. Qed.

Lemma u32_tag_of bs : u32 (tag_of bs) = tag_of bs.
Proof.
  unfold tag_of, varint32. destruct (varint 10 bs) as [[v r]|]; [|done].
  pose proof (u32_range v). by rewrite u32_small.
Qed.

(** A round at the head of the loop is that of the case of the tag, if it has one. *)
Lemma merge_body_tag fuel msg bs lst :
  okm bs ->
  let t := tag_of bs in
  exists bs', okm bs' /\ (forall v r, varint32 bs = Some (v, r) -> bs' = r) /\
  merge_body m fuel K (None, msg) (strm bs lst false 0) =
  (match case_of_tag t (k_cases K) with
   | Some c => run_case m c msg
   | None => handle_unusual m fuel t msg
   end) (strm bs' t (at_end bs) 0).
Proof.
  intros Hb t. destruct (ReadTag_tag m e n Hn bs lst false 0 Hb) as (bs' & H1 & H2 & H3 & H4).
  pose proof (tag_with_cutoff m (k_cutoff K) (strm bs lst false 0)) as Hl.
  rewrite H3 in Hl. destruct Hl as (known & E & Hk1 & Hk2).
  exists bs'. do 2 (split; [done|]). unfold merge_body. rewrite (st_bind_ok _ _ _ _ _ E).
  cbn [fst snd]. fold t. change (false || at_end bs) with (at_end bs). fold t in Hk1, Hk2.
  destruct (case_of_tag t (k_cases K)) as [c|] eqn:Ec.
  - destruct (case_by_number K HK t c Ec) as (En & Et & Hc).
    destruct (case_tag_bounds K HK c Hc) as [Hcut Hst]. rewrite Et in Hcut, Hst.
    destruct known; cbn [negb].
    + rewrite En, Et, Z.eqb_refl. done.
    + unfold stops in Hst. apply orb_false_iff in Hst as [Hz _].
      apply Z.eqb_neq in Hz. unfold t in Hz, Hcut, Hk2. rewrite u32_tag_of in Hk2. destruct (Hk2 eq_refl); lia.
  - destruct known; cbn [negb]; [|done].
    destruct (case_of (GetTagFieldNumber t) (k_cases K)) as [c|] eqn:En; [|done].
    pose proof (no_case_by_number K t c Ec En).
    by destruct (Z.eqb_spec t (c_tag c)) as [->|].
Qed.

(** A tag that ends a message is the tag of no case. *)
Lemma stop_tag_no_case t : stops t = true -> case_of_tag t (k_cases K) = None.
Proof.
  intros Est. destruct (case_of_tag t (k_cases K)) as [c|] eqn:Ec; [|done].
  destruct (case_by_number K HK t c Ec) as (_ & Et & Hc).
  destruct (case_tag_bounds K HK c Hc) as [_ Hst]. rewrite Et in Hst. congruence.
Qed.

Lemma parse_loop_spec fuel bs k1 k2 : (field_fuel bs <= fuel)%nat ->
  (length bs < k1)%nat -> (length bs < k2)%nat -> loop_ok fuel k1 k2 bs.
Proof.
  remember (length bs) as L eqn:EL. revert bs k1 k2 EL.
  induction L as [L IH] using lt_wf_ind. intros bs k1 k2 -> Hf Hk1 Hk2 target msg lst Hb Ht.
  assert (forall r k1 k2, (length r < length bs)%nat -> (length r < k1)%nat ->
     (length r < k2)%nat -> loop_ok fuel k1 k2 r) as IH'.
  { intros r k1' k2' Hr Hk1' Hk2'. apply (IH (length r)); [done|done| |done|done].
    unfold field_fuel in *. lia. }
  clear IH. destruct k1 as [|k1]; [lia|]. destruct k2 as [|k2]; [lia|].
  destruct target as [i|].
  { destruct (Ht i eq_refl) as (c & Ec & Hc). unfold rest_of. rewrite Ec.
    apply (after_case fuel k1 (S k2) c msg bs lst); [done|done|lia|lia|done|].
    unfold merge_body. by rewrite Ec. }
  destruct (merge_body_tag fuel msg bs lst Hb) as (bs' & Hb' & Hbs' & E).
  unfold rest_of, tag_of in *. destruct (varint32 bs) as [[t r]|] eqn:Ev.
  - rewrite (Hbs' _ _ eq_refl) in *. clear Hbs' bs'.
    pose proof (varint32_shorter _ _ _ Ev) as Hlen.
    pose proof (varint32_nonneg _ _ _ Ev) as Hnn.
    rewrite (at_end_varint _ _ _ Ev) in E.
    destruct (stops t) eqn:Est.
    + rewrite (stop_tag_no_case t Est), (handle_unusual_stop _ _ _ _ Est) in E.
      eapply outcome_exit; [exact E|]. simpl. destruct bs; [done|]. rewrite Ev, Est.
      by do 3 eexists.
    + rewrite (decode_fields_cons k2 bs msg _ _ Ev Est). unfold decode_field.
      destruct (case_of_tag t (k_cases K)) as [c|] eqn:Ec.
      * destruct (case_by_number K HK t c Ec) as (_ & _ & Hc).
        apply (after_case fuel k1 k2 c msg r t); [done|done|lia|lia| |done].
        intros r' k1' k2' Hr'. apply IH'. lia.
      * unfold handle_unusual in E. unfold stops in Est. rewrite Est in E.
        pose proof (SkipField_spec m e n Hn fuel (field_fuel r) t (unknown_fields_ msg) r t false 0
          Hb' ltac:(lia) Hnn ltac:(unfold field_fuel in *; lia) ltac:(lia)) as Hs.
        destruct (unknown_field (field_fuel r) 0 t r) as [[u r']|].
        -- destruct Hs as (Hr' & Hl & lst' & Es). rewrite (st_bind_ok _ _ _ _ _ Es) in E.
           eapply outcome_next; [exact E|]. simpl.
           by apply (IH' r' k1 k2 ltac:(lia) ltac:(lia) ltac:(lia) None _ lst' Hr').
        -- destruct Hs as (us' & s' & Es). rewrite (st_bind_ok _ _ _ _ _ Es) in E.
           eapply outcome_exit; [exact E|]. by do 3 eexists.
  - rewrite (stop_tag_no_case 0 eq_refl), (handle_unusual_stop _ 0 _ _ eq_refl) in E.
    eapply outcome_exit; [exact E|]. simpl. destruct bs as [|b bs].
    + by eexists.
    + rewrite Ev. by do 3 eexists.
Qed.
End Parser.

(** * [ParseFromArray] *)

Section ParseFromArray.
Context (m : mem) (K : message_class) `{HT : TagReaderLaws}.
Hypothesis HK : wf_cases K = true.

Lemma new_strm p bs :
  CodedInputStream_new p (Z.of_nat (length bs)) =
  strm (p + Z.of_nat (length bs)) (Z.of_nat (length bs)) bs 0 false 0.
Proof. unfold CodedInputStream_new, strm. f_equal. lia. Qed.

Lemma ParseFromArray_spec fuel p bs msg :
  Forall is_byte bs -> holds m p bs -> Z.of_nat (length bs) < 2 ^ 26 ->
  (field_fuel bs <= fuel)%nat ->
  exists b msg', MsgParseFromArray m fuel K p (Z.of_nat (length bs)) msg = Ok (b, msg') /\
    match decode_message K bs (Clear K msg) with
    | Some r => b = true /\ msg' = r
    | None => b = false
    end.
Proof.
  intros Hb Hh Hlen Hf. unfold MsgParseFromArray, MergePartialFromCodedStream.
  rewrite new_strm.
  pose proof (parse_loop_spec m (p + Z.of_nat (length bs)) (Z.of_nat (length bs)) K ltac:(lia) HK fuel bs
    fuel (S (length bs)) Hf ltac:(unfold field_fuel in *; lia) ltac:(lia) None (Clear K msg) 0)
    as Ho.
  assert (okm m (p + Z.of_nat (length bs)) bs) as Hok.
  { split; [|done]. by replace (p + Z.of_nat (length bs) - Z.of_nat (length bs)) with p by lia. }
  specialize (Ho Hok ltac:(done)). unfold rest_of in Ho. unfold decode_message.
  destruct (decode_fields (S (length bs)) K bs (Clear K msg)) as [r|].
  - destruct Ho as (s' & E & Hl). rewrite E. exists true, r. unfold ConsumedEntireMessage.
    by rewrite Hl.
  - destruct Ho as (b & msg' & s' & E & Hl). rewrite E. exists false, msg'.
    unfold ConsumedEntireMessage. by rewrite Hl.
Qed.
End ParseFromArray.

(** A stream whose end lies in front of its position, as the constructor makes it of a
    negative size: every read leaves it so, and none reports the end of a message. *)

Definition overrun (s : CodedInputStream) : Prop :=
  buffer_end_ s < buffer_ s /\ legitimate_message_end_ s = false /\ input_ s = None.

(** * The stream *)

Lemma keeps_advance n : 0 <= n -> keeps overrun (Advance n).
Proof. intros Hn. apply keeps_modify. intros s [H1 H2]. split; [simpl; lia|done]. Qed.

Lemma keeps_refresh : keeps overrun Refresh.
Proof.
  apply keeps_get. intros s (H1 & H2 & H3). rewrite H3.
  destruct (_ || _); [|by intros a s' E]. by intros a s' [= _ <-].
Qed.

Lemma keeps_refresh_while : keeps overrun refresh_while_empty.
Proof.
  apply keeps_loop. intros _. pose proof keeps_refresh. apply keeps_get. intros s H0.
  destruct (_ =? _); keeps_auto.
Qed.

Lemma keeps_last_tag t : keeps overrun (st_modify (set_last_tag t)).
Proof. by apply keeps_modify. Qed.

#[export] Hint Resolve keeps_refresh keeps_refresh_while keeps_last_tag : keeps.
#[export] Hint Extern 1 (keeps overrun (Advance _)) => apply keeps_advance; lia : keeps.

Section Memory.
Context (m : mem).

(** None of the fast paths is taken. *)
Lemma overrun_not_fast s : overrun s -> ends_in_buffer m s = Ok false.
Proof.
  intros [H _]. unfold ends_in_buffer, BufferSize, kMaxVarintBytes.
  destruct (Z.leb_spec 10 (buffer_end_ s - buffer_ s)); [lia|].
  by destruct (Z.ltb_spec (buffer_ s) (buffer_end_ s)); [lia|].
Qed.

Lemma overrun_not_below s : overrun s -> (buffer_ s <? buffer_end_ s) = false.
Proof. intros [H _]. lia. Qed.

Lemma keeps_varint64_slow : keeps overrun (ReadVarint64Slow m).
Proof.
  apply keeps_loop. intros [r c]. unfold varint64_slow_body. destruct (_ =? _); [keeps_auto|].
  apply keeps_bind; [auto with keeps|]. intros ok. destruct ok; cbn [negb]; [|keeps_auto].
  apply keeps_get. intros s H. keeps_auto.
Qed.
Hint Resolve keeps_varint64_slow : keeps.

Lemma keeps_varint64_fallback : keeps overrun (ReadVarint64Fallback m).
Proof.
  apply keeps_get. intros s H. apply keeps_lift_at. intros f. rewrite overrun_not_fast by done.
  intros [= <-]. keeps_auto.
Qed.
Hint Resolve keeps_varint64_fallback : keeps.

Lemma keeps_varint64 : keeps overrun (ReadVarint64 m).
Proof. apply keeps_get. intros s H. rewrite overrun_not_below by done. keeps_auto. Qed.

Lemma keeps_varint32_slow : keeps overrun (ReadVarint32Slow m).
Proof. unfold ReadVarint32Slow. keeps_auto. Qed.
Hint Resolve keeps_varint64 keeps_varint32_slow : keeps.

Lemma keeps_varint32_fallback : keeps overrun (ReadVarint32Fallback m).
Proof.
  apply keeps_get. intros s H. apply keeps_lift_at. intros f. rewrite overrun_not_fast by done.
  intros [= <-]. keeps_auto.
Qed.
Hint Resolve keeps_varint32_fallback : keeps.

Lemma keeps_varint32 : keeps overrun (ReadVarint32 m).
Proof. apply keeps_get. intros s H. rewrite overrun_not_below by done. keeps_auto. Qed.

Lemma keeps_tag : keeps overrun (ReadTag m).
Proof.
  apply keeps_get. intros s H. rewrite overrun_not_below by done.
  cut (keeps overrun (ReadTagFallback m)); [intros Hf; keeps_auto|].
  clear s H. apply keeps_get. intros s H. apply keeps_lift_at. intros f.
  rewrite overrun_not_fast by done. intros [= <-]. cbv beta iota.
  assert ((BufferSize s =? 0) = false) as -> by (destruct H; unfold BufferSize; lia).
  cbn [andb]. cut (keeps overrun (ReadTagSlow m)); [intros Hs; by apply Hs|]. clear s H.
  apply keeps_get. intros s H.
  assert ((buffer_ s =? buffer_end_ s) = false) as -> by (destruct H; lia).
  cut (keeps overrun (r ← ReadVarint64 m; mret (match r with Some v => u32 v | None => 0 end)));
    [intros Hs; by apply Hs|]. keeps_auto.
Qed.

Lemma keeps_expect_tag t : keeps overrun (ExpectTag m t).
Proof.
  apply keeps_get. intros s H. rewrite overrun_not_below by done.
  assert ((2 <=? BufferSize s) = false) as -> by (destruct H; unfold BufferSize; lia).
  keeps_auto.
Qed.

Lemma keeps_expect_at_end : keeps overrun ExpectAtEnd.
Proof.
  apply keeps_get. intros s H.
  assert ((buffer_ s =? buffer_end_ s) = false) as -> by (destruct H; lia). cbn [andb]. keeps_auto.
Qed.

(** A block of bytes is a fault: its size or that of the buffer is negative. *)
Lemma overrun_raw n buffer size s : overrun s ->
  st_loop (S n) (raw_body m) (buffer, size) s = Fault (OutOfBounds (buffer_ s)).
Proof.
  intros [H _]. apply st_loop_fault. unfold raw_body, BufferSize, bytes_from.
  rewrite (st_bind_ok _ _ s s s) by done.
  destruct (Z.ltb_spec (buffer_end_ s - buffer_ s) size).
  - by destruct (Z.ltb_spec (buffer_end_ s - buffer_ s) 0); [|lia].
  - by destruct (Z.ltb_spec size 0); [|lia].
Qed.

Lemma keeps_little_endian n : 0 <= n -> keeps overrun (ReadLittleEndian m n).
Proof.
  intros Hn. apply keeps_get. intros s H.
  assert ((n <=? BufferSize s) = false) as -> by (destruct H; unfold BufferSize; lia).
  cut (keeps overrun (ReadLittleEndianFallback m n)); [intros Hf; keeps_auto|]. clear s H.
  assert (keeps overrun (ReadRaw m n)) as Hraw by (intros s H a s' E; unfold ReadRaw in E;
    rewrite (st_bind_ok _ _ _ _ _ eq_refl) in E; by rewrite overrun_raw in E).
  apply keeps_get. intros s H. destruct (n <=? u32 (BufferSize s)); keeps_auto.
Qed.

Lemma keeps_string old size : keeps overrun (InternalReadStringInline m old size).
Proof.
  unfold InternalReadStringInline. destruct (Z.ltb_spec size 0); [keeps_auto|].
  apply keeps_get. intros s H'.
  assert ((size <=? BufferSize s) = false) as -> by (destruct H'; unfold BufferSize; lia).
  intros a s' E. unfold ReadStringFallback in E.
  rewrite (st_bind_ok _ _ _ _ _ eq_refl) in E. by rewrite overrun_raw in E.
Qed.

Lemma keeps_read_string old size : keeps overrun (ReadString m old size).
Proof. unfold ReadString. destruct (size <? 0); [keeps_auto|apply keeps_string]. Qed.

Lemma keeps_increment : keeps overrun IncrementRecursionDepth.
Proof. apply keeps_get. intros s H a s' E. injection E as _ <-. exact H. Qed.

Lemma keeps_decrement : keeps overrun DecrementRecursionDepth.
Proof. apply keeps_modify. intros s H. by destruct (0 <? recursion_depth_ s). Qed.

Hint Resolve keeps_varint32 keeps_tag keeps_expect_tag keeps_expect_at_end keeps_string
  keeps_read_string keeps_increment keeps_decrement : keeps.
Hint Extern 1 (keeps overrun (ReadLittleEndian m _)) => apply keeps_little_endian; lia : keeps.
Hint Unfold ReadLittleEndian32 ReadLittleEndian64 : keeps.

(** * The parser *)

Lemma keeps_skip n : (forall tag us, keeps overrun (SkipField m n tag us)) /\
  (forall us, keeps overrun (SkipMessage m n us)).
Proof.
  induction n as [|n [IHf IHm]]; [split; intros; apply keeps_fault|]. split; intros.
  - cbn [SkipField]. unfold ReadLittleEndian32, ReadLittleEndian64. keeps_auto.
  - cbn [SkipMessage]. keeps_auto.
Qed.

Context {TR : TagReader} {HT : TagReaderLaws}.

Lemma keeps_tag_with_cutoff cutoff : keeps overrun (ReadTagWithCutoff m cutoff).
Proof.
  intros s H [t k] s' E. pose proof (tag_with_cutoff m cutoff s) as Ht.
  destruct (ReadTag m s) as [[t' s1]|] eqn:Er; [|congruence].
  destruct Ht as (k' & Ek & _). assert (s' = s1) as -> by congruence.
  by apply (keeps_tag s H t').
Qed.

Lemma keeps_read_field c msg : keeps overrun (read_field m c msg).
Proof.
  unfold read_field, read_string_type, WireReadString, WireReadBytes, ReadPrimitive.
  unfold ReadPrimitive_INT32, ReadPrimitive_UINT32, ReadPrimitive_UINT64, ReadPrimitive_FIXED32,
    ReadPrimitive_FLOAT, ReadPrimitive_BOOL, ReadPrimitive_SINT32, ReadPrimitive_INT64,
    ReadPrimitive_FIXED64, ReadLittleEndian32, ReadLittleEndian64. keeps_auto.
Qed.

Lemma keeps_run_expect l : keeps overrun (run_expect m l).
Proof. induction l as [|[t i] l IH]; cbn [run_expect]; keeps_auto. Qed.

Hint Resolve keeps_tag_with_cutoff keeps_read_field keeps_run_expect : keeps.
Hint Extern 1 (keeps overrun (SkipField _ _ _ _)) => apply keeps_skip : keeps.

Lemma keeps_merge_body fuel K l : keeps overrun (merge_body m fuel K l).
Proof. unfold merge_body, run_case, handle_unusual. keeps_auto. Qed.

Lemma keeps_merge fuel K msg : keeps overrun (MergePartialFromCodedStream m fuel K msg).
Proof. apply keeps_loop. intros l. apply keeps_merge_body. Qed.

(** A negative size never yields a message. *)
Lemma negative_size_parse fuel K data size msg ok msg' : size < 0 ->
  MsgParseFromArray m fuel K data size msg = Ok (ok, msg') -> ok = false.
Proof.
  intros Hs. unfold MsgParseFromArray.
  destruct (MergePartialFromCodedStream m fuel K (Clear K msg) (CodedInputStream_new data size))
    as [[[ok' msg1] s']|] eqn:E; [|done].
  intros [= <- _].
  assert (overrun (CodedInputStream_new data size)) as H by (split; [simpl; lia|done]).
  destruct (keeps_merge fuel K (Clear K msg) _ H _ _ E) as (_ & Hl & _).
  unfold ConsumedEntireMessage. rewrite Hl. apply andb_false_r.
Qed.
End Memory.
