(* ===== verification/CodedWrite.v ===== *)
(** What the array writers of [CodedOutputStream] write: [base128] is the reference
    encoder of integers; every writer is equal to it, the sizes computed in advance are
    its lengths, and [varint] reads back what it writes. *)

From S2P Require Import Prelude CMem Coded CodedSpec.

(** Seven bits a byte, least significant first, at most [n] bytes. *)
Fixpoint base128 (n : nat) (v : Z) : list Z :=
  match n with
  | O => []
  | S n' => if v <? 128 then [v] else v mod 128 + 128 :: base128 n' (v / 128)
  end.

Lemma base128_bytes n v : 0 <= v -> Forall is_byte (base128 n v).
Proof.
  revert v. induction n as [|n IH]; intros v Hv; [constructor|]. simpl.
  destruct (Z.ltb_spec v 128).
  - repeat constructor; lia.
  - pose proof (Z.mod_pos_bound v 128 ltac:(lia)). constructor; [split; lia|].
    apply IH. apply Z.div_pos; lia.
Qed.

Lemma varint_base128 n k v r : (0 < n <= k)%nat -> 0 <= v < 2 ^ (7 * Z.of_nat n) ->
  varint k (base128 n v ++ r) = Some (v, r).
Proof.
  revert k v. induction n as [|n IH]; intros k v Hk Hv; [lia|].
  destruct k as [|k]; [lia|]. cbn [base128]. destruct (Z.ltb_spec v 128) as [Hlt|Hge].
  - cbn [app]. rewrite varint_cons. by destruct (Z.ltb_spec v 128); [|lia].
  - cbn [app]. rewrite varint_cons.
    pose proof (Z.mod_pos_bound v 128 ltac:(lia)). pose proof (Z.div_mod v 128 ltac:(lia)).
    destruct (Z.ltb_spec (v mod 128 + 128) 128); [lia|].
    rewrite IH; [f_equal; f_equal; lia| |].
    { destruct n; [|lia]. change (2 ^ (7 * Z.of_nat 1)) with 128 in Hv. lia. }
    split; [apply Z.div_pos; lia|]. apply Z.div_lt_upper_bound; [lia|].
    replace (7 * Z.of_nat (S n)) with (7 + 7 * Z.of_nat n) in Hv by lia.
    rewrite Z.pow_add_r in Hv by lia. change (2 ^ 7) with 128 in Hv. lia.
Qed.

(** A number of known size, byte by byte. *)
Lemma base128_sized s n v : (s < n)%nat -> 0 <= v < 2 ^ (7 * Z.of_nat (S s)) ->
  (s = 0%nat \/ 2 ^ (7 * Z.of_nat s) <= v) ->
  base128 n v = ((fun i => (v / 2 ^ (7 * Z.of_nat i)) mod 128 + 128) <$> seq 0 s) ++
                [v / 2 ^ (7 * Z.of_nat s)].
Proof.
  revert n v. induction s as [|s IH]; intros n v Hs Hv Hlo.
  - destruct n as [|n]; [lia|]. cbn [base128]. change (2 ^ (7 * Z.of_nat 1)) with 128 in Hv.
    destruct (Z.ltb_spec v 128); [|lia]. simpl. by rewrite Z.div_1_r.
  - destruct n as [|n]; [lia|]. cbn [base128].
    assert (forall k, 2 ^ (7 * Z.of_nat (S k)) = 128 * 2 ^ (7 * Z.of_nat k)) as Hp.
    { intros k. replace (7 * Z.of_nat (S k)) with (7 + 7 * Z.of_nat k) by lia.
      by rewrite Z.pow_add_r by lia. }
    assert (0 < 2 ^ (7 * Z.of_nat s)) as Hps by (apply Z.pow_pos_nonneg; lia).
    rewrite (Hp s) in Hlo. destruct (Z.ltb_spec v 128); [destruct Hlo; [done|nia]|].
    rewrite (IH n (v / 128)).
    + cbn [seq fmap list_fmap app]. rewrite Z.div_1_r. f_equal.
      rewrite Hp, Z.div_div by lia. f_equal. rewrite <- fmap_S_seq, <- list_fmap_compose.
      apply list_fmap_ext. intros i k _. simpl. rewrite Hp, Z.div_div by lia. done.
    + lia.
    + split; [apply Z.div_pos; lia|]. rewrite Hp in Hv. apply Z.div_lt_upper_bound; lia.
    + right. apply Z.div_le_lower_bound; [lia|]. by destruct Hlo.
Qed.

(** * The bytes the writers store *)

Lemma byte_more p k : 0 <= k -> 0 <= p ->
  u8 (Z.lor (Z.shiftr p k) 0x80) = (p / 2 ^ k) mod 128 + 128.
Proof.
  intros Hk Hp. rewrite <- Z.shiftr_div_pow2 by done.
  change 0x80 with (Z.shiftl (Z.ones 1) 7).
  replace (u8 (Z.lor (Z.shiftr p k) (Z.shiftl (Z.ones 1) 7)))
    with (Z.lor (Z.shiftr p k mod 2 ^ 7) (Z.shiftl (Z.ones 1) 7)) by zbits.
  pose proof (Z.mod_pos_bound (Z.shiftr p k) (2 ^ 7) ltac:(lia)).
  by rewrite lor_shiftl_add by lia.
Qed.

Lemma byte_last p k : 0 <= k -> 0 <= p / 2 ^ k < 128 ->
  Z.land (u8 (Z.lor (Z.shiftr p k) 0x80)) 0x7F = p / 2 ^ k.
Proof.
  intros Hk Hp. rewrite <- Z.shiftr_div_pow2 in * by done.
  transitivity (Z.shiftr p k mod 2 ^ 7); [|apply Z.mod_small; lia].
  change 0x7F with (Z.ones 7). rewrite Z.land_ones by lia.
  change 0x80 with (Z.shiftl (Z.ones 1) 7). zbits.
Qed.

(** Finds the size of a number from the comparisons made with it. *)
Ltac sized s := rewrite (base128_sized s) by (simpl; lia).

Lemma WriteVarint32FallbackToArray_spec v : 0 <= v < 2 ^ 32 ->
  WriteVarint32FallbackToArray v = base128 5 v.
Proof.
  intros Hv. unfold WriteVarint32FallbackToArray.
  change (Z.shiftl 1 7) with 128. change (Z.shiftl 1 14) with 16384.
  change (Z.shiftl 1 21) with 2097152. change (Z.shiftl 1 28) with 268435456.
  assert (forall k, 0 <= k -> 0 <= v / 2 ^ k) as Hnn by (intros; apply Z.div_pos; lia).
  replace (Z.lor v 0x80) with (Z.lor (Z.shiftr v 0) 0x80) by (by rewrite Z.shiftr_0_r).
  cbv zeta. destruct (Z.ltb_spec v 128); [|destruct (Z.ltb_spec v 16384);
    [|destruct (Z.ltb_spec v 2097152); [|destruct (Z.ltb_spec v 268435456)]]].
  - sized 0%nat. cbn -[Z.div Z.modulo Z.pow Z.lor Z.shiftr uwrap Z.land].
    rewrite byte_last; [done|lia|]. change (2 ^ 0) with 1. rewrite Z.div_1_r. lia.
  - sized 1%nat. cbn -[Z.div Z.modulo Z.pow Z.lor Z.shiftr uwrap Z.land].
    rewrite byte_last; [by rewrite byte_more by lia|lia|].
    split; [apply Hnn; lia|apply Z.div_lt_upper_bound; lia].
  - sized 2%nat. cbn -[Z.div Z.modulo Z.pow Z.lor Z.shiftr uwrap Z.land].
    rewrite byte_last; [by rewrite !byte_more by lia|lia|].
    split; [apply Hnn; lia|apply Z.div_lt_upper_bound; lia].
  - sized 3%nat. cbn -[Z.div Z.modulo Z.pow Z.lor Z.shiftr uwrap Z.land].
    rewrite byte_last; [by rewrite !byte_more by lia|lia|].
    split; [apply Hnn; lia|apply Z.div_lt_upper_bound; lia].
  - sized 4%nat. cbn -[Z.div Z.modulo Z.pow Z.lor Z.shiftr uwrap Z.land].
    rewrite !byte_more by lia. repeat f_equal.
    rewrite Z.shiftr_div_pow2 by lia. apply uwrap_small.
    split; [apply Hnn; lia|apply Z.div_lt_upper_bound; lia].
Qed.

Lemma WriteVarint32ToArray_spec v : 0 <= v < 2 ^ 32 -> WriteVarint32ToArray v = base128 5 v.
Proof.
  intros Hv. unfold WriteVarint32ToArray. destruct (Z.ltb_spec v 0x80) as [H|H].
  - cbn [base128]. by destruct (Z.ltb_spec v 128); [|lia].
  - by apply WriteVarint32FallbackToArray_spec.
Qed.

Lemma CodedWriteTagToArray_spec v : 0 <= v < 2 ^ 32 -> CodedWriteTagToArray v = base128 5 v.
Proof.
  intros Hv. unfold CodedWriteTagToArray.
  change (Z.shiftl 1 7) with 128. change (Z.shiftl 1 14) with 16384.
  destruct (Z.ltb_spec v 128); [|destruct (Z.ltb_spec v 16384)].
  - cbn [base128]. destruct (Z.ltb_spec v 128); [|lia]. f_equal. apply uwrap_small. simpl; lia.
  - sized 1%nat. cbn -[Z.div Z.modulo Z.pow Z.lor Z.shiftr uwrap Z.land].
    replace (Z.lor v 0x80) with (Z.lor (Z.shiftr v 0) 0x80) by (by rewrite Z.shiftr_0_r).
    rewrite byte_more by lia. repeat f_equal. rewrite Z.shiftr_div_pow2 by lia.
    apply uwrap_small. split; [apply Z.div_pos; lia|apply Z.div_lt_upper_bound; lia].
  - by apply WriteVarint32FallbackToArray_spec.
Qed.

(** The byte at shift [k] of a part that starts at bit [o] of the number. *)
Lemma part_byte v o k : 0 <= v -> 0 <= o -> 0 <= k <= 25 ->
  u8 (Z.lor (Z.shiftr (u32 (Z.shiftr v o)) k) 0x80) = (v / 2 ^ (o + k)) mod 128 + 128.
Proof.
  intros Hv Ho Hk. rewrite byte_more by (lia || apply u32_range). f_equal.
  change 128 with (2 ^ 7). rewrite <- !Z.shiftr_div_pow2 by lia.
  apply Z.bits_inj'. intros i Hi. autorewrite with zbits. zbits_cases; zbits_finish.
Qed.

Lemma part_last v o k : 0 <= v -> 0 <= o -> 0 <= k <= 25 -> v / 2 ^ (o + k) < 128 ->
  Z.land (u8 (Z.lor (Z.shiftr (u32 (Z.shiftr v o)) k) 0x80)) 0x7F = v / 2 ^ (o + k).
Proof.
  intros Hv Ho Hk Hlt. rewrite part_byte by done. change 0x7F with (Z.ones 7).
  rewrite Z.land_ones by lia. change (2 ^ 7) with 128.
  assert (0 <= v / 2 ^ (o + k)) by (apply Z.div_pos; [lia|apply Z.pow_pos_nonneg; lia]).
  rewrite (Z.mod_small (v / 2 ^ (o + k)) 128) by lia.
  replace (v / 2 ^ (o + k) + 128) with (v / 2 ^ (o + k) + 1 * 128) by lia.
  rewrite Z.mod_add by lia. apply Z.mod_small. lia.
Qed.

Definition byte64 (v : Z) (i : nat) : Z :=
  let k := Z.of_nat i in
  u8 (Z.lor (Z.shiftr (u32 (Z.shiftr v (28 * (k / 4)))) (7 * (k mod 4))) 0x80).

Lemma byte64_more v i : 0 <= v -> byte64 v i = (v / 2 ^ (7 * Z.of_nat i)) mod 128 + 128.
Proof.
  intros Hv. unfold byte64. cbv zeta. pose proof (Z.mod_pos_bound (Z.of_nat i) 4 ltac:(lia)).
  pose proof (Z.div_pos (Z.of_nat i) 4 ltac:(lia) ltac:(lia)).
  pose proof (Z.div_mod (Z.of_nat i) 4 ltac:(lia)).
  assert (28 * (Z.of_nat i / 4) + 7 * (Z.of_nat i mod 4) = 7 * Z.of_nat i) as E by lia.
  rewrite part_byte by lia. by rewrite E.
Qed.

Lemma byte64_last v i : 0 <= v -> v / 2 ^ (7 * Z.of_nat i) < 128 ->
  Z.land (byte64 v i) 0x7F = v / 2 ^ (7 * Z.of_nat i).
Proof.
  intros Hv Hlt. unfold byte64. cbv zeta.
  pose proof (Z.mod_pos_bound (Z.of_nat i) 4 ltac:(lia)).
  pose proof (Z.div_pos (Z.of_nat i) 4 ltac:(lia) ltac:(lia)).
  assert (28 * (Z.of_nat i / 4) + 7 * (Z.of_nat i mod 4) = 7 * Z.of_nat i) as E
    by (pose proof (Z.div_mod (Z.of_nat i) 4 ltac:(lia)); lia).
  rewrite part_last; rewrite ?E; [done|lia..].
Qed.

(** A number written with [S s] bytes. *)
Lemma byte64_list v s : (s < 10)%nat -> 0 <= v < 2 ^ (7 * Z.of_nat (S s)) ->
  (s = 0%nat \/ 2 ^ (7 * Z.of_nat s) <= v) ->
  alter (fun b => Z.land b 0x7F) s (take (S s) (byte64 v <$> seq 0 10)) = base128 10 v.
Proof.
  intros Hs Hv Hlo. rewrite (base128_sized s) by done.
  rewrite <- fmap_take, take_seq, Nat.min_l by lia.
  rewrite seq_S, fmap_app. cbn [fmap list_fmap plus].
  rewrite alter_app_r_alt by (rewrite length_fmap, length_seq; lia).
  rewrite length_fmap, length_seq, Nat.sub_diag. cbn [alter list_alter].
  rewrite byte64_last; [|lia|].
  - f_equal. apply list_fmap_ext. intros i k _. apply byte64_more. lia.
  - replace (7 * Z.of_nat (S s)) with (7 * Z.of_nat s + 7) in Hv by lia.
    rewrite Z.pow_add_r in Hv by lia. apply Z.div_lt_upper_bound; [apply Z.pow_pos_nonneg|]; lia.
Qed.

Lemma WriteVarint64ToArray_spec v : 0 <= v < 2 ^ 64 -> WriteVarint64ToArray v = base128 10 v.
Proof.
  intros Hv. unfold WriteVarint64ToArray. cbv zeta.
  match goal with |- alter _ _ (take _ ?l) = _ =>
    replace l with (byte64 v <$> seq 0 10) by (unfold byte64; cbn -[Z.shiftr uwrap Z.lor];
      by rewrite Z.shiftr_0_r) end.
  set (s := varint64_size _ _ _).
  cut (exists s', s = S s' /\ (s' < 10)%nat /\ v < 2 ^ (7 * Z.of_nat (S s')) /\
    (s' = 0%nat \/ 2 ^ (7 * Z.of_nat s') <= v)).
  { intros (s' & -> & Hs & Hhi & Hlo). cbn [Nat.sub]. rewrite Nat.sub_0_r.
    apply byte64_list; [done| |done]. split; [apply Hv|done]. }
  unfold s, varint64_size. change (Z.shiftl 1 7) with 128. change (Z.shiftl 1 14) with 16384.
  change (Z.shiftl 1 21) with 2097152.
  rewrite !Z.shiftr_div_pow2 by lia.
  assert (u32 (v / 2 ^ 56) = v / 2 ^ 56) as ->.
  { apply u32_small. split; [apply Z.div_pos; lia|apply Z.div_lt_upper_bound; lia]. }
  pose proof (Z.div_mod v (2 ^ 56) ltac:(lia)). pose proof (Z.mod_pos_bound v (2 ^ 56) ltac:(lia)).
  destruct (Z.eqb_spec (v / 2 ^ 56) 0) as [E2|E2].
  2:{ assert (0 < v / 2 ^ 56) by (pose proof (Z.div_pos v (2 ^ 56)); lia).
      destruct (Z.ltb_spec (v / 2 ^ 56) 128); [exists 8%nat|exists 9%nat]; simpl; lia. }
  assert (u32 (v / 2 ^ 28) = v / 2 ^ 28) as ->.
  { apply u32_small. split; [apply Z.div_pos; lia|apply Z.div_lt_upper_bound; lia]. }
  pose proof (Z.div_mod v (2 ^ 28) ltac:(lia)). pose proof (Z.mod_pos_bound v (2 ^ 28) ltac:(lia)).
  destruct (Z.eqb_spec (v / 2 ^ 28) 0) as [E1|E1].
  - rewrite (u32_small v) by lia.
    destruct (Z.ltb_spec v 16384); [destruct (Z.ltb_spec v 128)|destruct (Z.ltb_spec v 2097152)];
      [exists 0%nat|exists 1%nat|exists 2%nat|exists 3%nat]; simpl; lia.
  - assert (0 < v / 2 ^ 28) by (pose proof (Z.div_pos v (2 ^ 28)); lia).
    destruct (Z.ltb_spec (v / 2 ^ 28) 16384); [destruct (Z.ltb_spec (v / 2 ^ 28) 128)
      |destruct (Z.ltb_spec (v / 2 ^ 28) 2097152)];
      [exists 4%nat|exists 5%nat|exists 6%nat|exists 7%nat]; simpl; lia.
Qed.

(** * Sizes *)

Lemma base128_length s n v : (s < n)%nat -> 0 <= v < 2 ^ (7 * Z.of_nat (S s)) ->
  (s = 0%nat \/ 2 ^ (7 * Z.of_nat s) <= v) -> length (base128 n v) = S s.
Proof.
  intros. rewrite (base128_sized s) by done. rewrite length_app, length_fmap, length_seq.
  simpl. lia.
Qed.

Lemma VarintSize32_spec v : 0 <= v < 2 ^ 32 ->
  VarintSize32 v = Z.of_nat (length (base128 5 v)).
Proof.
  intros Hv. unfold VarintSize32, VarintSize32Fallback.
  change (Z.shiftl 1 7) with 128. change (Z.shiftl 1 14) with 16384.
  change (Z.shiftl 1 21) with 2097152. change (Z.shiftl 1 28) with 268435456.
  destruct (Z.ltb_spec v 128); [|destruct (Z.ltb_spec v 16384);
    [|destruct (Z.ltb_spec v 2097152); [|destruct (Z.ltb_spec v 268435456)]]];
  [rewrite (base128_length 0)|rewrite (base128_length 1)|rewrite (base128_length 2)
  |rewrite (base128_length 3)|rewrite (base128_length 4)]; simpl; lia.
Qed.

Lemma VarintSize64_spec v : 0 <= v < 2 ^ 64 ->
  VarintSize64 v = Z.of_nat (length (base128 10 v)).
Proof.
  intros Hv. unfold VarintSize64.
  change (Z.shiftl 1 7) with (2 ^ 7). change (Z.shiftl 1 14) with (2 ^ 14).
  change (Z.shiftl 1 21) with (2 ^ 21). change (Z.shiftl 1 28) with (2 ^ 28).
  change (Z.shiftl 1 35) with (2 ^ 35). change (Z.shiftl 1 42) with (2 ^ 42).
  change (Z.shiftl 1 49) with (2 ^ 49). change (Z.shiftl 1 56) with (2 ^ 56).
  change (Z.shiftl 1 63) with (2 ^ 63).
  repeat match goal with |- context [v <? ?b] => destruct (Z.ltb_spec v b) end; try lia;
  [rewrite (base128_length 0)|rewrite (base128_length 1)|rewrite (base128_length 2)
  |rewrite (base128_length 3)|rewrite (base128_length 4)|rewrite (base128_length 5)
  |rewrite (base128_length 6)|rewrite (base128_length 7)|rewrite (base128_length 8)
  |rewrite (base128_length 9)]; simpl; lia.
Qed.

(** * Fixed-size data *)

Lemma WriteLittleEndian32_join v : 0 <= v < 2 ^ 32 ->
  le_join (WriteLittleEndian32ToArray v) = v.
Proof.
  intros Hv. rewrite <- (Z.mod_small v (2 ^ 32)) at 2 by done.
  unfold WriteLittleEndian32ToArray. cbn [le_join]. rewrite Z.shiftl_0_l, Z.lor_0_r. zbits.
Qed.

Lemma WriteLittleEndian32_bytes v : Forall is_byte (WriteLittleEndian32ToArray v).
Proof. repeat constructor; apply (bits_range v _ 8); lia. Qed.

Lemma WriteLittleEndian64_bytes v : Forall is_byte (WriteLittleEndian64ToArray v).
Proof. apply Forall_app. split; apply WriteLittleEndian32_bytes. Qed.

Lemma le_join_app a b : Forall is_byte a ->
  le_join (a ++ b) = Z.lor (le_join a) (Z.shiftl (le_join b) (8 * Z.of_nat (length a))).
Proof.
  induction a as [|x a IH]; intros Ha; [by rewrite Z.shiftl_0_r|].
  apply Forall_cons in Ha as [Hx Ha]. cbn [app le_join length]. rewrite IH by done.
  rewrite Z.shiftl_lor, Z.lor_assoc, Z.shiftl_shiftl by lia. repeat f_equal. lia.
Qed.

Lemma WriteLittleEndian64_join v : 0 <= v < 2 ^ 64 ->
  le_join (WriteLittleEndian64ToArray v) = v.
Proof.
  intros Hv. unfold WriteLittleEndian64ToArray.
  rewrite le_join_app by apply WriteLittleEndian32_bytes.
  rewrite !WriteLittleEndian32_join by apply u32_range.
  change (8 * Z.of_nat _) with 32. rewrite <- (Z.mod_small v (2 ^ 64)) at 3 by done. zbits.
Qed.
