(* ===== verification/UnknownSpec.v ===== *)
(** What [UnknownFieldSet::ParseFromArray] computes: the reference decoder [unknown_set] of a
    list of bytes as fields up to its end, and the refinement to it. *)

From S2P Require Import Prelude CMem Coded Wire CodedSpec CodedStream WireSpec.

(** A stream that took all of an [ArrayInputStream] against one over the flat array: every
    read gives the same result on both, so that what is proved of flat streams holds for
    the other ones.  [agree] is the relation between the two runs of a computation. *)

Section Array.
Context (m : mem).

(** The flat stream [s] and the stream [z] with an exhausted input, at the same place.  At
    the end the pointers may differ: a refresh that fails resets those of [z]. *)
Record paired (s z : CodedInputStream) : Prop := mkpaired {
  pr_size : BufferSize s = BufferSize z;
  pr_bytes : exists bs, okm m (buffer_end_ s) bs /\ BufferSize s = Z.of_nat (length bs);
  pr_buffer : 0 < BufferSize s -> buffer_ s = buffer_ z;
  pr_last : last_tag_ s = last_tag_ z;
  pr_legit : legitimate_message_end_ s = legitimate_message_end_ z;
  pr_depth : recursion_depth_ s = recursion_depth_ z;
  pr_limit : recursion_limit_ s = recursion_limit_ z;
  pr_flat : input_ s = None /\ overflow_bytes_ s = 0 /\ buffer_size_after_limit_ s = 0 /\
    total_bytes_read_ s = current_limit_ s;
  pr_total : total_bytes_read_ s = total_bytes_read_ z /\ total_bytes_limit_ s = total_bytes_limit_ z /\
    total_bytes_read_ s < total_bytes_limit_ s < INT_MAX;
  pr_array : overflow_bytes_ z = 0 /\ buffer_size_after_limit_ z = 0 /\ current_limit_ z = INT_MAX /\
    exists a, input_ z = Some a /\ size_ a <= position_ a /\
      (0 < BufferSize z -> BufferSize z <= last_returned_size_ a)
}.

(** Faults are not told apart. *)
Definition agree_at {A} (s z : CodedInputStream) (c d : Input A) : Prop :=
  match c s, d z with
  | Ok (a, s'), Ok (b, z') => a = b /\ paired s' z'
  | Fault _, Fault _ => True
  | _, _ => False
  end.
Definition agree {A} (c : Input A) : Prop := forall s z, paired s z -> agree_at s z c c.

Section Rules.
Context {A B : Type}.

Lemma agree_ret (a : A) : agree (mret a).
Proof. by intros s z H. Qed.

Lemma agree_at_ret s z (a : A) : paired s z -> agree_at s z (mret a) (mret a).
Proof. done. Qed.

Lemma agree_at_bind s z (c d : Input A) (k l : A -> Input B) :
  agree_at s z c d -> (forall a s' z', paired s' z' -> agree_at s' z' (k a) (l a)) ->
  agree_at s z (c ≫= k) (d ≫= l).
Proof.
  unfold agree_at, mbind, ST_bind. intros H Hk.
  destruct (c s) as [[a s']|], (d z) as [[b z']|]; try done.
  destruct H as [<- H]. by apply Hk.
Qed.

Lemma agree_bind (c : Input A) (k : A -> Input B) :
  agree c -> (forall a, agree (k a)) -> agree (c ≫= k).
Proof. intros Hc Hk s z H. apply agree_at_bind; [by apply Hc|]. intros a s' z'. apply Hk. Qed.

Lemma agree_at_get s z (k l : CodedInputStream -> Input B) :
  agree_at s z (k s) (l z) -> agree_at s z (st_get ≫= k) (st_get ≫= l).
Proof. done. Qed.

Lemma agree_at_lift s z (r : result A) (k l : A -> Input B) :
  (forall a, r = Ok a -> agree_at s z (k a) (l a)) ->
  agree_at s z (st_lift r ≫= k) (st_lift r ≫= l).
Proof. intros H. unfold agree_at, mbind, ST_bind, st_lift. destruct r as [a|]; [by apply H|done]. Qed.

Lemma agree_lift (r : result A) : agree (st_lift r).
Proof. intros s z H. unfold agree_at, st_lift. by destruct r. Qed.

Lemma agree_fault e : agree (st_fault (A := A) e).
Proof. by intros s z H. Qed.

Lemma agree_at_modify s z f g : paired (f s) (g z) -> agree_at s z (st_modify f) (st_modify g).
Proof. done. Qed.
End Rules.

Lemma agree_at_loop {L A} n (body1 body2 : L -> Input (L + A)) l s z :
  (forall l s z, paired s z -> agree_at s z (body1 l) (body2 l)) -> paired s z ->
  agree_at s z (st_loop n body1 l) (st_loop n body2 l).
Proof.
  intros Hb. revert l s z. induction n as [|n IH]; intros l s z H; [done|].
  apply agree_at_bind; [by apply Hb|]. intros [l'|a] s' z' H'; [by apply IH|by apply agree_at_ret].
Qed.

(** * The pieces *)

Lemma pr_pos s z : paired s z -> 0 <= BufferSize s.
Proof. intros H. destruct (pr_bytes _ _ H) as (bs & _ & ->). lia. Qed.

Lemma paired_empty s z : paired s z ->
  (buffer_ s =? buffer_end_ s) = (BufferSize s =? 0) /\ (buffer_ z =? buffer_end_ z) = (BufferSize s =? 0).
Proof. intros H. pose proof (pr_size _ _ H). unfold BufferSize in *. split; lia. Qed.

Lemma paired_before s z : paired s z ->
  (buffer_ s <? buffer_end_ s) = (0 <? BufferSize s) /\ (buffer_ z <? buffer_end_ z) = (0 <? BufferSize s).
Proof. intros H. pose proof (pr_size _ _ H). unfold BufferSize in *. split; lia. Qed.

Lemma paired_last s z t : paired s z -> paired (set_last_tag t s) (set_last_tag t z).
Proof. intros []. by constructor. Qed.

Lemma paired_legitimate s z b : paired s z -> paired (set_legitimate b s) (set_legitimate b z).
Proof. intros []. by constructor. Qed.

Lemma paired_depth s z d : paired s z -> paired (set_depth d s) (set_depth d z).
Proof. intros []. by constructor. Qed.

(** The buffer pointer moves inside the buffer. *)
Lemma paired_move s z p q : paired s z -> p - buffer_ s = q - buffer_ z ->
  0 <= p - buffer_ s <= BufferSize s -> paired (set_buffer p s) (set_buffer q z).
Proof.
  intros [H1 (bs & H2 & H2') H3 H4 H5 H6 H7 H8 H9 H10] E Hp. unfold BufferSize in *.
  constructor; unfold BufferSize, set_buffer in *; cbn [buffer_ buffer_end_] in *; try done.
  - lia.
  - exists (drop (Z.to_nat (p - buffer_ s)) bs). rewrite length_drop. split; [|lia].
    apply (okm_app _ _ (take (Z.to_nat (p - buffer_ s)) bs)). by rewrite take_drop.
  - intros Hs. assert (0 < buffer_end_ s - buffer_ s) as Hs' by lia. specialize (H3 Hs'). lia.
  - destruct H10 as (? & ? & ? & a & ? & ? & Hl). do 3 (split; [done|]).
    exists a. do 2 (split; [done|]). cbn. lia.
Qed.

Lemma agree_at_advance s z n : paired s z -> 0 <= n <= BufferSize s ->
  agree_at s z (Advance n) (Advance n).
Proof. intros H Hn. apply agree_at_modify, paired_move; [done|lia|lia]. Qed.

(** At the end a refresh fails on both sides. *)
Lemma refresh_paired s z : paired s z -> BufferSize s = 0 ->
  Refresh s = Ok (false, s) /\ exists z', Refresh z = Ok (false, z') /\ paired s z'.
Proof.
  intros H Hs. pose proof H as []. unfold Refresh. st_run.
  destruct pr_flat0 as (H1 & H2 & H3 & H4), pr_total0 as (H5 & H6 & H7),
    pr_array0 as (H8 & H9 & H10 & a & H11 & H12 & _).
  rewrite H2, H3, H4, Z.eqb_refl. change (0 <? 0) with false. split; [done|].
  rewrite H8, H9, H10. change (0 <? 0) with false. cbn [orb].
  destruct (Z.eqb_spec (total_bytes_read_ z) INT_MAX); [lia|]. rewrite H11.
  unfold NextNonEmpty, ArrayInputStream_Next. destruct (Z.ltb_spec (position_ a) (size_ a)); [lia|].
  eexists. split; [reflexivity|].
  constructor; unfold BufferSize in *; cbn; rewrite ?H8, ?H9, ?H10; try done; [lia..|].
  do 3 (split; [done|]). eexists. split; [done|]. split; [exact H12|]. lia.
Qed.

Lemma agree_at_refresh {B} s z (k l : bool -> Input B) : paired s z -> BufferSize s = 0 ->
  (forall z', paired s z' -> agree_at s z' (k false) (l false)) ->
  agree_at s z (Refresh ≫= k) (Refresh ≫= l).
Proof.
  intros H Hs Hk. destruct (refresh_paired _ _ H Hs) as (E1 & z' & E2 & H').
  unfold agree_at. rewrite (st_bind_ok _ _ _ _ _ E1), (st_bind_ok _ _ _ _ _ E2). by apply Hk.
Qed.

Lemma agree_at_while {B} s z (k l : bool -> Input B) : paired s z ->
  (forall z', paired s z' -> agree_at s z' (k false) (l false)) ->
  (0 < BufferSize s -> agree_at s z (k true) (l true)) ->
  agree_at s z (refresh_while_empty ≫= k) (refresh_while_empty ≫= l).
Proof.
  intros H Hf Ht. destruct (paired_empty _ _ H) as [Es Ez]. pose proof (pr_pos _ _ H).
  destruct (Z.eqb_spec (BufferSize s) 0) as [E0|].
  - destruct (refresh_paired _ _ H E0) as (E1 & z' & E2 & H').
    assert (refresh_while_empty s = Ok (false, s) /\ refresh_while_empty z = Ok (false, z')) as [E3 E4].
    { split; apply st_loop_exit; rewrite (st_bind_ok _ _ _ _ _ eq_refl), ?Es, ?Ez.
      - by rewrite (st_bind_ok _ _ _ _ _ E1).
      - by rewrite (st_bind_ok _ _ _ _ _ E2). }
    unfold agree_at. rewrite (st_bind_ok _ _ _ _ _ E3), (st_bind_ok _ _ _ _ _ E4). by apply Hf.
  - assert (refresh_while_empty s = Ok (true, s) /\ refresh_while_empty z = Ok (true, z)) as [E3 E4].
    { split; apply st_loop_exit; by rewrite (st_bind_ok _ _ _ _ _ eq_refl), ?Es, ?Ez. }
    unfold agree_at. rewrite (st_bind_ok _ _ _ _ _ E3), (st_bind_ok _ _ _ _ _ E4). apply Ht. lia.
Qed.

(** The same bytes are behind the two pointers. *)
Lemma agree_at_load {B} s z (k l : Z -> Input B) : paired s z -> 0 < BufferSize s ->
  (forall b, agree_at s z (k b) (l b)) ->
  agree_at s z (st_lift (load8 m (buffer_ s)) ≫= k) (st_lift (load8 m (buffer_ z)) ≫= l).
Proof. intros H Hs Hk. rewrite <- (pr_buffer _ _ H Hs). apply agree_at_lift; auto. Qed.

Lemma agree_at_bytes {B} s z n (k l : list Z -> Input B) : paired s z ->
  0 <= n <= BufferSize s -> (forall b, agree_at s z (k b) (l b)) ->
  agree_at s z (st_lift (bytes_from m (buffer_ s) n) ≫= k) (st_lift (bytes_from m (buffer_ z) n) ≫= l).
Proof.
  intros H Hn Hk. destruct (decide (0 < BufferSize s)) as [Hs|Hs].
  - rewrite <- (pr_buffer _ _ H Hs). apply agree_at_lift; auto.
  - assert (n = 0) as -> by lia. apply agree_at_lift; auto.
Qed.

Lemma paired_ends s z : paired s z -> ends_in_buffer m s = ends_in_buffer m z.
Proof.
  intros H. unfold ends_in_buffer. rewrite (pr_size _ _ H).
  destruct (paired_before _ _ H) as [-> ->]. destruct (kMaxVarintBytes <=? BufferSize z); [done|].
  destruct (Z.ltb_spec 0 (BufferSize s)) as [Hs|]; [|done].
  assert (buffer_end_ s = buffer_end_ z) as ->; [|done].
  pose proof (pr_size _ _ H). pose proof (pr_buffer _ _ H Hs). unfold BufferSize in *. lia.
Qed.

(** * Integers *)

(** A fast path of [s] ends inside the buffer. *)
Lemma fast_reads s z : paired s z -> ends_in_buffer m s = Ok true ->
  exists bs, okm m (buffer_end_ s) bs /\ BufferSize s = Z.of_nat (length bs) /\ fits 10 bs /\
    buffer_ s = buffer_end_ s - Z.of_nat (length bs).
Proof.
  intros H E. destruct (pr_bytes _ _ H) as (bs & Hb & Hl). exists bs. do 2 (split; [done|]).
  assert (buffer_ s = buffer_end_ s - Z.of_nat (length bs)) as Eb by (unfold BufferSize in *; lia).
  split; [|done].
  destruct (ends_in_buffer_spec m (buffer_end_ s) 0 bs 0 false 0 Hb) as (b & E' & Hf).
  apply Hf. assert (Ok b = Ok true) as [= ->]; [|done].
  rewrite <- E', <- E. unfold ends_in_buffer, BufferSize, strm. cbn. by rewrite Eb.
Qed.

(** What is read from the array is the same, and the pointer moves inside the buffer. *)
Lemma agree_at_array {A B} (read : Z -> result (option (A * Z))) (dec : list Z -> option (A * list Z))
    s z (none : B) (some : A -> B) :
  (forall bs, holds m (buffer_end_ s - Z.of_nat (length bs)) bs -> Forall is_byte bs -> fits 10 bs ->
     read (buffer_end_ s - Z.of_nat (length bs)) =
     Ok (match dec bs with
         | Some (v, r) => Some (v, buffer_end_ s - Z.of_nat (length bs) +
                                   (Z.of_nat (length bs) - Z.of_nat (length r)))
         | None => None
         end)) ->
  (forall bs v r, dec bs = Some (v, r) -> (length r < length bs)%nat) ->
  paired s z -> ends_in_buffer m s = Ok true ->
  let k r := match (r : option (A * Z)) with
             | None => mret none
             | Some (v, ptr) => st_modify (set_buffer ptr);; mret (some v)
             end : Input B in
  agree_at s z (st_lift (read (buffer_ s)) ≫= k) (st_lift (read (buffer_ z)) ≫= k).
Proof.
  intros Hr Hd H E k. destruct (fast_reads _ _ H E) as (bs & Hb & Hl & Hf & Eb).
  assert (0 < BufferSize s) as Hs by (destruct bs; [by apply fits_nil in Hf|cbn [length] in *; lia]).
  rewrite <- (pr_buffer _ _ H Hs), Eb, Hr by (done || apply Hb).
  apply agree_at_lift. intros a [= <-]. unfold k.
  destruct (dec bs) as [[v r]|] eqn:Ed; [|done]. specialize (Hd _ _ _ Ed).
  apply agree_at_bind; [|by intros]. apply agree_at_modify, paired_move; [done| |].
  - rewrite <- Eb, (pr_buffer _ _ H Hs). lia.
  - lia.
Qed.

(** The two paths of a fallback. *)
Lemma agree_fallback {A} (fast : CodedInputStream -> Input A) (slow : CodedInputStream -> Input A) :
  (forall s z, paired s z -> ends_in_buffer m s = Ok true -> agree_at s z (fast s) (fast z)) ->
  (forall s z, paired s z -> agree_at s z (slow s) (slow z)) ->
  agree (s ← st_get;
         f ← st_lift (ends_in_buffer m s);
         if (f : bool) then fast s else slow s).
Proof.
  intros Hf Hs s z H. apply agree_at_get. rewrite <- (paired_ends _ _ H).
  apply agree_at_lift. intros [|] E; [by apply Hf|by apply Hs].
Qed.

Lemma agree_varint64_slow : agree (ReadVarint64Slow m).
Proof.
  intros s z H. apply agree_at_loop; [|done]. clear s z H. intros [r count] s z H.
  unfold varint64_slow_body. destruct (count =? kMaxVarintBytes); [done|].
  apply agree_at_while; [done|by intros|]. intros Hs. cbn [negb]. apply agree_at_get.
  apply agree_at_load; [done|done|]. intros b. apply agree_at_bind; [apply agree_at_advance; [done|lia]|].
  intros _ s' z' H'. by destruct (_ =? 0).
Qed.

Lemma varint_shorter bs v r : varint 10 bs = Some (v, r) -> (length r < length bs)%nat.
Proof. intros E. apply varint_suffix in E as (a & -> & Ha). rewrite length_app. lia. Qed.

Lemma agree_varint64_fallback : agree (ReadVarint64Fallback m).
Proof.
  apply agree_fallback; [|intros s z H; by apply agree_varint64_slow].
  intros s z H E. refine (agree_at_array (varint64_steps m varint64_plan (0, 0, 0)) varint64 s z None Some _ _ H E).
  - intros bs Hh Hb Hf.
    pose proof (varint64_steps_spec m 10 0 bs _ (0, 0, 0) eq_refl Hh Hb Hf ltac:(simpl; lia)) as E'.
    change (drop 0 varint64_plan) with varint64_plan in E'. rewrite E'. clear E'.
    unfold varint64. destruct (varint 10 bs) as [[v r]|]; [|done]. repeat f_equal. simpl. lia.
  - intros bs v r. unfold varint64. destruct (varint 10 bs) as [[v' r']|] eqn:Ev; [|done].
    intros [= _ <-]. by eapply varint_shorter.
Qed.

Lemma varint32_less bs v r : varint32 bs = Some (v, r) -> (length r < length bs)%nat.
Proof.
  unfold varint32. destruct (varint 10 bs) as [[v' r']|] eqn:Ev; [|done].
  intros [= _ <-]. by eapply varint_shorter.
Qed.

(** The one-byte case that precedes each fallback. *)
Lemma agree_one_byte {A} (one : Z -> Input A) (fallback : Input A) :
  (forall s z b, paired s z -> 0 < BufferSize s -> agree_at s z (one b) (one b)) -> agree fallback ->
  agree (s ← st_get;
         if buffer_ s <? buffer_end_ s then
           b ← st_lift (load8 m (buffer_ s));
           if b <? 0x80 then one b else fallback
         else fallback).
Proof.
  intros Ho Hf s z H. apply agree_at_get. destruct (paired_before _ _ H) as [-> ->].
  destruct (Z.ltb_spec 0 (BufferSize s)); [|by apply Hf].
  apply agree_at_load; [done|done|]. intros b. destruct (b <? 0x80); [by apply Ho|by apply Hf].
Qed.

Lemma agree_advance_ret {A} s z (a : A) : paired s z -> 0 < BufferSize s ->
  agree_at s z (Advance 1;; mret a) (Advance 1;; mret a).
Proof. intros H Hs. apply agree_at_bind; [apply agree_at_advance; [done|lia]|by intros]. Qed.

Lemma agree_varint64 : agree (ReadVarint64 m).
Proof.
  apply agree_one_byte; [|apply agree_varint64_fallback]. intros s z b. apply agree_advance_ret.
Qed.

Lemma agree_varint32_fallback : agree (ReadVarint32Fallback m).
Proof.
  apply agree_fallback.
  - intros s z H E. refine (agree_at_array (ReadVarint32FromArray m) varint32 s z None Some _ _ H E).
    + intros bs Hh Hb Hf. by apply ReadVarint32FromArray_spec.
    + intros bs v r. apply varint32_less.
  - intros s z H. apply agree_at_bind; [by apply agree_varint64_fallback|by intros].
Qed.

Lemma agree_varint32 : agree (ReadVarint32 m).
Proof.
  apply agree_one_byte; [|apply agree_varint32_fallback]. intros s z b. apply agree_advance_ret.
Qed.

(** * Tags *)

(** At the end, the flat stream is at its limit and the other one at the end of its input. *)
Lemma agree_tag_end s z : paired s z -> BufferSize s = 0 ->
  agree_at s z (st_modify (set_legitimate true);; mret 0) (ReadTagSlow m).
Proof.
  intros H Hs. destruct (refresh_paired _ _ H Hs) as (_ & z' & E & H').
  unfold agree_at, ReadTagSlow. rewrite !(st_bind_ok _ _ _ _ _ eq_refl).
  destruct (paired_empty _ _ H) as [_ ->]. rewrite Hs. change (0 =? 0) with true. cbn iota.
  rewrite (st_bind_ok _ _ _ _ _ E). cbn [negb]. rewrite (st_bind_ok _ _ z' z' z') by done.
  destruct (pr_total _ _ H') as (H1 & H2 & H3), (pr_array _ _ H') as (H4 & H5 & _).
  rewrite H5. destruct (Z.leb_spec (total_bytes_limit_ z') (total_bytes_read_ z' - 0)); [lia|].
  rewrite !(st_bind_ok _ _ _ _ _ eq_refl). split; [done|]. by apply paired_legitimate.
Qed.

Lemma agree_tag_slow s z : paired s z -> 0 < BufferSize s ->
  agree_at s z (ReadTagSlow m) (ReadTagSlow m).
Proof.
  intros H Hs. apply agree_at_get. destruct (paired_empty _ _ H) as [-> ->].
  destruct (Z.eqb_spec (BufferSize s) 0); [lia|]. unfold agree_at.
  rewrite !(st_bind_ok _ _ _ _ _ eq_refl). cbn [negb].
  apply agree_at_bind; [by apply agree_varint64|by intros].
Qed.

Lemma agree_tag_fallback : agree (ReadTagFallback m).
Proof.
  intros s z H. apply agree_at_get. rewrite <- (paired_ends _ _ H).
  apply agree_at_lift. intros [|] E.
  - refine (agree_at_array (ReadVarint32FromArray m) varint32 s z 0 id _ _ H E).
    + intros bs Hh Hb Hf. by apply ReadVarint32FromArray_spec.
    + intros bs v r. apply varint32_less.
  - cbv zeta. rewrite <- (pr_size _ _ H).
    destruct (pr_flat _ _ H) as (H1 & H2 & H3 & H4), (pr_total _ _ H) as (H5 & H6 & H7),
      (pr_array _ _ H) as (H8 & H9 & H10 & _).
    assert ((0 <? buffer_size_after_limit_ z) || (total_bytes_read_ z =? current_limit_ z) = false) as ->.
    { rewrite H9, H10. apply orb_false_iff. split; [done|]. apply Z.eqb_neq. lia. }
    rewrite H3, H4, Z.eqb_refl, andb_false_r. cbn [orb andb].
    destruct (Z.ltb_spec (current_limit_ s - 0) (total_bytes_limit_ s)); [|lia].
    rewrite !andb_true_r. destruct (Z.eqb_spec (BufferSize s) 0).
    + by apply agree_tag_end.
    + apply agree_tag_slow; [done|]. pose proof (pr_pos _ _ H). lia.
Qed.

Lemma agree_tag : agree (ReadTag m).
Proof.
  assert (agree (t ← ReadTagFallback m; st_modify (set_last_tag t);; mret t)) as Hf.
  { intros s z H. apply agree_at_bind; [by apply agree_tag_fallback|]. intros t s' z' H'.
    apply agree_at_bind; [by apply agree_at_modify, paired_last|by intros]. }
  apply agree_one_byte; [|exact Hf]. intros s z b H Hs.
  unfold agree_at. rewrite !(st_bind_ok _ _ _ _ _ eq_refl).
  by apply agree_advance_ret; [apply paired_last|].
Qed.

(** * Bytes *)

Lemma agree_at_move {B} s z n (k l : unit -> Input B) : paired s z -> 0 <= n <= BufferSize s ->
  (forall s' z', paired s' z' -> BufferSize s' = BufferSize s - n -> agree_at s' z' (k tt) (l tt)) ->
  agree_at s z (Advance n ≫= k) (Advance n ≫= l).
Proof.
  intros H Hn Hk. unfold agree_at, Advance. rewrite !(st_bind_ok _ _ _ _ _ eq_refl).
  apply Hk; [apply paired_move; [done|lia|lia]|]. unfold BufferSize. simpl. lia.
Qed.

(** Bytes that are taken off both buffers; a negative number faults on both sides. *)
Lemma agree_take {B} s z n (k : list Z -> Input B) : paired s z -> n <= BufferSize s ->
  (forall a s' z', paired s' z' -> BufferSize s' = BufferSize s - n -> agree_at s' z' (k a) (k a)) ->
  agree_at s z (bs ← st_lift (bytes_from m (buffer_ s) n); Advance n;; k bs)
    (bs ← st_lift (bytes_from m (buffer_ z) n); Advance n;; k bs).
Proof.
  intros H Hn Hk. destruct (Z.ltb_spec n 0) as [Hneg|].
  { unfold bytes_from. destruct (Z.ltb_spec n 0); [done|lia]. }
  apply agree_at_bytes; [done|lia|]. intros a. apply agree_at_move; [done|lia|]. auto.
Qed.

Lemma agree_raw_body l : agree (raw_body m l).
Proof.
  destruct l as [buffer size]. intros s z H. apply agree_at_get. cbv zeta.
  rewrite <- (pr_size _ _ H). destruct (Z.ltb_spec (BufferSize s) size).
  - apply agree_take; [done|lia|]. intros a s' z' H' E.
    apply agree_at_refresh; [done|lia|]. by intros.
  - apply agree_take; [done|lia|]. by intros.
Qed.

Lemma agree_raw size : agree (ReadRaw m size).
Proof.
  intros s z H. apply agree_at_get.
  assert (input_rounds z = input_rounds s) as ->.
  { unfold input_rounds. destruct (pr_flat _ _ H) as [-> _].
    destruct (pr_array _ _ H) as (_ & _ & _ & a & -> & Ha & _). lia. }
  apply agree_at_loop; [|done]. intros l s' z'. apply agree_raw_body.
Qed.

Lemma agree_little_endian n : agree (ReadLittleEndian m n).
Proof.
  assert (agree (ReadLittleEndianFallback m n)) as Hf.
  { intros s z H. apply agree_at_get. rewrite <- (pr_size _ _ H). pose proof (pr_pos _ _ H).
    destruct (Z.leb_spec n (u32 (BufferSize s))) as [Hn|].
    - apply agree_take; [done| |by intros]. unfold uwrap in Hn.
      pose proof (Z.mod_le (BufferSize s) (2 ^ 32) ltac:(lia) ltac:(lia)). lia.
    - apply agree_at_bind; [by apply agree_raw|by intros]. }
  intros s z H. apply agree_at_get. rewrite <- (pr_size _ _ H).
  apply agree_at_bind; [|by intros].
  destruct (Z.leb_spec n (BufferSize s)); [|by apply Hf]. apply agree_take; [done|lia|by intros].
Qed.

Lemma agree_string old size : agree (ReadString m old size).
Proof.
  intros s z H. unfold ReadString, InternalReadStringInline.
  destruct (size <? 0); [by apply agree_at_ret|]. apply agree_at_get. rewrite <- (pr_size _ _ H).
  destruct (Z.leb_spec size (BufferSize s)); [|by apply agree_raw].
  destruct (0 <? size); [|done]. apply agree_take; [done|lia|by intros].
Qed.

(** * Unknown fields *)

Lemma agree_increment : agree IncrementRecursionDepth.
Proof.
  intros s z H. unfold agree_at, IncrementRecursionDepth. st_run.
  rewrite (pr_depth _ _ H), (pr_limit _ _ H). split; [done|]. by apply paired_depth.
Qed.

Lemma agree_decrement : agree DecrementRecursionDepth.
Proof.
  intros s z H. apply agree_at_modify. rewrite (pr_depth _ _ H).
  destruct (0 <? recursion_depth_ z); [by apply paired_depth|done].
Qed.

Lemma agree_value {A} (op : Input (option A)) (f : A -> UnknownField) us : agree op ->
  agree (r ← op; mret (match r with
                       | None => (false, us)
                       | Some value => (true, us ++ [f value])
                       end)).
Proof. intros H s z Hp. apply agree_at_bind; [by apply H|by intros]. Qed.

Lemma agree_skip k : (forall tag us, agree (SkipField m k tag us)) /\ (forall us, agree (SkipMessage m k us)).
Proof.
  induction k as [|k [IHf IHm]]; [by split|]. split; cbn [SkipField SkipMessage].
  - intros tag us. cbv zeta.
    repeat match goal with |- agree (if ?b then _ else _) => destruct b end.
    + apply agree_value, agree_varint64.
    + apply agree_value, agree_little_endian.
    + apply agree_bind; [apply agree_varint32|]. intros [len|]; [|by intros].
      apply agree_bind; [apply agree_string|by intros].
    + apply agree_bind; [apply agree_increment|]. intros [|]; [|by intros]. cbn [negb].
      apply agree_bind; [apply IHm|]. intros r. destruct (negb (fst r)); [by intros|].
      apply agree_bind; [apply agree_decrement|]. intros _ s z H. apply agree_at_get.
      unfold LastTagWas. by rewrite (pr_last _ _ H).
    + by intros.
    + apply agree_value, agree_little_endian.
    + by intros.
  - intros us. apply agree_bind; [apply agree_tag|]. intros t.
    repeat match goal with |- agree (if ?b then _ else _) => destruct b end; try by intros.
    apply agree_bind; [apply IHf|]. intros r. destruct (negb (fst r)); [by intros|]. apply IHm.
Qed.
End Array.

(** Fields up to the end; a tag that is malformed, zero or the end of a group is none. *)
Fixpoint unknown_set (n : nat) (bs : list Z) : option (list UnknownField) :=
  match n, bs with
  | O, _ => None
  | S _, [] => Some []
  | S n, _ =>
      match varint32 bs with
      | None => None
      | Some (t, r) =>
          if (t =? 0) || (GetTagWireType t =? WIRETYPE_END_GROUP) then None
          else
            match unknown_field n 0 t r with
            | None => None
            | Some (u, r') => cons u <$> unknown_set n r'
            end
      end
  end.

(** With enough fuel. *)
Definition unknown_fields_of (bs : list Z) : option (list UnknownField) :=
  unknown_set (unknown_fuel (length bs)) bs.

Section Flat.
Context (m : mem) (e n : Z).
Hypothesis Hn : 0 <= n < 2 ^ 26.

Lemma SkipMessage_set k1 : forall k2 us bs lst,
  okm m e bs -> (group_fuel bs <= k1)%nat -> (group_fuel bs <= k2)%nat ->
  match unknown_set k2 bs with
  | Some us' => exists s', SkipMessage m k1 us (strm e n bs lst false 0) = Ok ((true, us ++ us'), s') /\
      ConsumedEntireMessage s' = true
  | None => exists b us' s', SkipMessage m k1 us (strm e n bs lst false 0) = Ok ((b, us'), s') /\
      b && ConsumedEntireMessage s' = false
  end.
Proof.
  induction k1 as [|k1 IH]; intros k2 us bs lst Hb Hk1 Hk2; [unfold group_fuel in *; lia|].
  destruct k2 as [|k2]; [unfold group_fuel in *; lia|]. cbn [SkipMessage unknown_set].
  destruct (ReadTag_tag m e n Hn bs lst false 0 Hb) as (bs' & H1 & H2 & H3 & H4).
  rewrite (st_bind_ok _ _ _ _ _ H3). unfold tag_of in *. destruct bs as [|b bs].
  { cbn. eexists. by rewrite app_nil_r. }
  destruct (varint32 (b :: bs)) as [[t r]|] eqn:Ev; [|by do 3 eexists].
  rewrite (H4 _ _ eq_refl) in *. cbn [at_end orb].
  pose proof (varint32_nonneg _ _ _ Ev). pose proof (varint32_shorter _ _ _ Ev).
  destruct (Z.eqb_spec t 0) as [->|]; [by do 3 eexists|]. cbn [orb].
  destruct (GetTagWireType t =? WIRETYPE_END_GROUP); [by do 3 eexists|].
  unfold group_fuel in *.
  pose proof (SkipField_spec m e n Hn k1 k2 t us r t false 0 H1 ltac:(lia) ltac:(lia)
    ltac:(unfold field_fuel; lia) ltac:(unfold field_fuel; lia)) as Hf.
  destruct (unknown_field k2 0 t r) as [[u r']|].
  - destruct Hf as (Hr' & Hl & lst' & E). rewrite (st_bind_ok _ _ _ _ _ E). cbn [fst snd negb].
    specialize (IH k2 (us ++ [u]) r' lst' Hr' ltac:(lia) ltac:(lia)).
    destruct (unknown_set k2 r') as [us'|]; [|done]. cbn [fmap option_fmap option_map].
    by rewrite <- app_assoc in IH.
  - destruct Hf as (us' & s' & E). rewrite (st_bind_ok _ _ _ _ _ E). by do 3 eexists.
Qed.
End Flat.

(** * Arrays *)

Section Parse.
Context (m : mem) (p : Z) (bs : list Z).
Hypothesis Hm : holds m p bs.
Hypothesis Hb : Forall is_byte bs.
Hypothesis Hlen : Z.of_nat (length bs) < 2 ^ 26.

Abbreviation n := (Z.of_nat (length bs)).

Lemma bytes_at_end : okm m (p + n) bs.
Proof. split; [|done]. by replace (p + n - Z.of_nat (length bs)) with p by lia. Qed.

(** The stream the constructor makes has taken the whole array. *)
Lemma CodedInputStream_from_paired : exists z,
  CodedInputStream_from (ArrayInputStream_new p n (-1)) = Ok z /\
  paired m (strm (p + n) n bs 0 false 0) z.
Proof.
  unfold CodedInputStream_from, Refresh, ArrayInputStream_new. st_run. cbn [input_].
  unfold NextNonEmpty, ArrayInputStream_Next. cbn [position_ size_ block_size_ data_].
  assert (kDefaultTotalBytesLimit = 67108864) as HD by done.
  assert (BufferSize (strm (p + n) n bs 0 false 0) = n) as HB by apply BufferSize_strm.
  pose proof bytes_at_end.
  destruct (Z.ltb_spec 0 n) as [Hpos|]; cbn.
  - rewrite Z.sub_0_r, Z.min_id, Z.add_0_r. destruct (Z.eqb_spec (Z.of_nat (length bs)) 0) as [|Hne]; [lia|].
    destruct (Z.leb_spec 0 (INT_MAX - n)); [|unfold INT_MAX in *; lia].
    eexists. split; [reflexivity|]. cbn. rewrite HD. change (Z.min INT_MAX 67108864) with 67108864.
    rewrite ?Z.add_0_l. destruct (Z.ltb_spec 67108864 n); [lia|].
    constructor; rewrite ?HB; unfold BufferSize; cbn; rewrite ?HD; try done; try lia; eauto.
    do 3 (split; [done|]). eexists. split; [done|]. cbn. split; lia.
  - eexists. split; [reflexivity|].
    constructor; rewrite ?HB; unfold BufferSize; cbn; rewrite ?HD; try done; try lia; eauto; [unfold INT_MAX; lia|].
    do 3 (split; [done|]). eexists. split; [done|]. cbn. split; lia.
Qed.

(** The destructor can back up. *)
Lemma destroy_paired s z : paired m s z -> is_ok (CodedInputStream_destroy z) = true.
Proof.
  intros H. pose proof (pr_pos _ _ _ H) as Hp. rewrite (pr_size _ _ _ H) in Hp.
  destruct (pr_array _ _ _ H) as (H1 & H2 & H3 & a & Ha & H4 & H5).
  unfold CodedInputStream_destroy, BackUpInputToCurrentPosition. rewrite Ha. st_run.
  rewrite H1, H2, Ha. replace (BufferSize z + 0 + 0) with (BufferSize z) by lia.
  destruct (Z.ltb_spec 0 (BufferSize z)) as [Hl|]; [|done]. specialize (H5 Hl).
  unfold ArrayInputStream_BackUp. destruct (Z.ltb_spec 0 (last_returned_size_ a)); [|lia].
  destruct (Z.leb_spec (BufferSize z) (last_returned_size_ a)); [|lia].
  destruct (Z.leb_spec 0 (BufferSize z)); [done|lia].
Qed.

Lemma set_ParseFromArray_spec fuel : (group_fuel bs <= fuel)%nat ->
  UnknownFieldSet_ParseFromArray m fuel p n =
  Ok (match unknown_fields_of bs with Some us => (true, us) | None => (false, []) end).
Proof.
  intros Hf. unfold UnknownFieldSet_ParseFromArray, UnknownFieldSet_ParseFromZeroCopyStream.
  destruct CodedInputStream_from_paired as (z & Ez & Hz). rewrite (res_bind_ok _ _ _ Ez).
  pose proof (SkipMessage_set m (p + n) n ltac:(lia) fuel (unknown_fuel (length bs)) [] bs 0
    bytes_at_end Hf ltac:(unfold group_fuel, unknown_fuel; lia)) as Hs.
  fold (unknown_fields_of bs) in Hs.
  pose proof (proj2 (agree_skip m fuel) [] _ _ Hz) as Ha. unfold agree_at in Ha.
  unfold UnknownFieldSet_ParseFromCodedStream, UnknownFieldSet_MergeFromCodedStream.
  destruct (unknown_fields_of bs) as [us|].
  - destruct Hs as (s' & Es & Hc). rewrite Es in Ha.
    destruct (SkipMessage m fuel [] z) as [[r z']|] eqn:Er; [|done]. destruct Ha as [<- Hz'].
    rewrite (res_bind_ok _ _ (true, us, z')).
    2:{ rewrite (st_bind_ok _ _ _ _ _ Er), (st_bind_ok _ _ _ _ _ eq_refl).
        unfold ConsumedEntireMessage in *. rewrite <- (pr_legit _ _ _ Hz'), Hc. done. }
    pose proof (destroy_paired _ _ Hz') as Hd. destruct (CodedInputStream_destroy z'); [|done].
    cbn. unfold ConsumedEntireMessage in *. by rewrite <- (pr_legit _ _ _ Hz'), Hc.
  - destruct Hs as (b & us' & s' & Es & Hc). rewrite Es in Ha.
    destruct (SkipMessage m fuel [] z) as [[r z']|] eqn:Er; [|done]. destruct Ha as [<- Hz'].
    rewrite (res_bind_ok _ _ (false, [], z')).
    2:{ rewrite (st_bind_ok _ _ _ _ _ Er), (st_bind_ok _ _ _ _ _ eq_refl).
        unfold ConsumedEntireMessage in *. rewrite <- (pr_legit _ _ _ Hz'). cbn [fst snd].
        by rewrite Hc. }
    pose proof (destroy_paired _ _ Hz') as Hd. by destruct (CodedInputStream_destroy z').
Qed.
End Parse.

(** [ParseFromString] computes the reference decoder, wherever the characters are. *)
Lemma ParseFromString_spec data bs : Forall is_byte bs -> Z.of_nat (length bs) < 2 ^ 26 ->
  UnknownFieldSet_ParseFromString data bs =
  Ok (match unknown_fields_of bs with Some us => (true, us) | None => (false, []) end).
Proof.
  intros Hb Hl. unfold UnknownFieldSet_ParseFromString. rewrite s32_small by lia.
  apply set_ParseFromArray_spec; [apply holds_blit|done|done|unfold group_fuel, unknown_fuel; lia].
Qed.
