(* ===== verification/WireTrip.v ===== *)
(** Writing a field and reading it back: tags, the values of every field type, and
    unknown fields with their groups. *)

From S2P Require Import Prelude CMem BitRead BitOps Coded CodedSpec CodedStream CodedWrite Wire Messages WireSpec.

(** * Tags *)

Definition number_ok (n : Z) : bool := (0 <=? n) && (n <? 2 ^ 29).

Lemma MakeTag_val n ty : number_ok n = true -> 0 <= ty < 8 -> MakeTag n ty = n * 8 + ty.
Proof.
  unfold number_ok. intros Hn Ht. unfold MakeTag.
  rewrite u32_small by (rewrite Z.shiftl_mul_pow2 by lia; lia).
  rewrite Z.lor_comm, lor_shiftl_add by lia. change (2 ^ 3) with 8. lia.
Qed.

Lemma MakeTag_range n ty : number_ok n = true -> 0 <= ty < 8 -> 0 <= MakeTag n ty < 2 ^ 32.
Proof. intros Hn Ht. rewrite MakeTag_val by done. unfold number_ok in Hn. lia. Qed.

Lemma GetTagWireType_Make n ty : number_ok n = true -> 0 <= ty < 8 ->
  GetTagWireType (MakeTag n ty) = ty.
Proof.
  intros Hn Ht. unfold GetTagWireType. rewrite MakeTag_val by done.
  rewrite (Z.land_ones _ 3) by lia. change (2 ^ 3) with 8.
  rewrite Z.add_comm, Z.mod_add by lia. apply Z.mod_small. lia.
Qed.

Lemma GetTagFieldNumber_Make n ty : number_ok n = true -> 0 <= ty < 8 ->
  GetTagFieldNumber (MakeTag n ty) = n.
Proof.
  intros Hn Ht. unfold GetTagFieldNumber. rewrite MakeTag_val by done.
  rewrite Z.shiftr_div_pow2 by lia. change (2 ^ 3) with 8.
  rewrite Z.div_add_l, (Z.div_small ty) by lia. rewrite Z.add_0_r.
  unfold number_ok in Hn. apply s32_small. lia.
Qed.

Lemma varint32_base128 v r : 0 <= v < 2 ^ 32 -> varint32 (base128 5 v ++ r) = Some (v, r).
Proof.
  intros Hv. unfold varint32. rewrite varint_base128 by (simpl; lia).
  by rewrite u32_small by lia.
Qed.

Lemma varint64_base128 v r : 0 <= v < 2 ^ 64 -> varint64 (base128 10 v ++ r) = Some (v, r).
Proof.
  intros Hv. unfold varint64. rewrite varint_base128 by (simpl; lia).
  unfold uwrap. by rewrite Z.mod_small by lia.
Qed.

Lemma tag_trip n ty r : number_ok n = true -> 0 <= ty < 8 ->
  varint32 (WriteTagToArray n ty ++ r) = Some (MakeTag n ty, r).
Proof.
  intros Hn Ht. pose proof (MakeTag_range n ty Hn Ht). unfold WriteTagToArray.
  rewrite CodedWriteTagToArray_spec by done. by apply varint32_base128.
Qed.

Lemma tag_bytes n ty : number_ok n = true -> 0 <= ty < 8 -> Forall is_byte (WriteTagToArray n ty).
Proof.
  intros Hn Ht. pose proof (MakeTag_range n ty Hn Ht). unfold WriteTagToArray.
  rewrite CodedWriteTagToArray_spec by done. apply base128_bytes. lia.
Qed.

(** * Values *)

Definition int_payload (t : FieldType) (v : Z) : list Z :=
  match t with
  | TYPE_INT32 => WriteInt32NoTagToArray v
  | TYPE_UINT32 => WriteUInt32NoTagToArray v
  | TYPE_SINT32 => WriteSInt32NoTagToArray v
  | TYPE_INT64 => WriteInt64NoTagToArray v
  | TYPE_UINT64 => WriteUInt64NoTagToArray v
  | TYPE_FIXED64 => WriteFixed64NoTagToArray v
  | TYPE_FIXED32 => WriteFixed32NoTagToArray v
  | TYPE_FLOAT => WriteFloatNoTagToArray v
  | TYPE_BOOL => WriteBoolNoTagToArray v
  | TYPE_STRING | TYPE_BYTES => []
  end.

Definition str_payload (v : list Z) : list Z :=
  WriteVarint32ToArray (u32 (Z.of_nat (length v))) ++ v.

(** The values a member of a type can hold. *)
Definition in_range (t : FieldType) (v : Z) : bool :=
  match t with
  | TYPE_INT32 | TYPE_SINT32 => (- 2 ^ 31 <=? v) && (v <? 2 ^ 31)
  | TYPE_INT64 => (- 2 ^ 63 <=? v) && (v <? 2 ^ 63)
  | TYPE_UINT32 | TYPE_FIXED32 | TYPE_FLOAT => (0 <=? v) && (v <? 2 ^ 32)
  | TYPE_UINT64 | TYPE_FIXED64 => (0 <=? v) && (v <? 2 ^ 64)
  | TYPE_BOOL => (v =? 0) || (v =? 1)
  | TYPE_STRING | TYPE_BYTES => false
  end.

Definition byte_ok (b : Z) : bool := (0 <=? b) && (b <? 256).

Definition str_ok (v : list Z) : bool :=
  forallb byte_ok v && (Z.of_nat (length v) <? 2 ^ 31).

Lemma str_ok_bytes v : str_ok v = true -> Forall is_byte v.
Proof.
  intros H. apply andb_true_iff in H as [H _]. rewrite forallb_forall in H.
  apply Forall_forall. intros b Hb. apply list_elem_of_In in Hb. specialize (H b Hb).
  unfold byte_ok, is_byte in *. lia.
Qed.

Lemma str_ok_length v : str_ok v = true -> Z.of_nat (length v) < 2 ^ 31.
Proof. intros H. apply andb_true_iff in H as [_ H]. by apply Z.ltb_lt. Qed.

Lemma write_int_split t n v : is_string t = false ->
  write_int t n v = WriteTagToArray n (wire_type_of t) ++ int_payload t v.
Proof. by destruct t. Qed.

Lemma write_str_split t n v : is_string t = true ->
  write_str t n v = WriteTagToArray n (wire_type_of t) ++ str_payload v.
Proof. by destruct t. Qed.

Lemma little_endian_trip k a r : Forall is_byte a -> k = Z.of_nat (length a) ->
  little_endian k (a ++ r) = Some (le_join a, r).
Proof.
  intros Ha ->. unfold little_endian, take_bytes. rewrite length_app.
  destruct (Z.leb_spec 0 (Z.of_nat (length a))); [|lia].
  destruct (Z.leb_spec (Z.of_nat (length a)) (Z.of_nat (length a + length r))); [|lia].
  cbn [andb]. by rewrite Nat2Z.id, take_app_length, drop_app_length.
Qed.

(** The [int64] as the [uint64] that is written, and back. *)
Lemma u64_negative v : - 2 ^ 63 <= v < 0 -> u64 v = v + 2 ^ 64.
Proof.
  intros Hv. unfold uwrap. rewrite <- (Z.mod_add v 1) by lia. apply Z.mod_small. lia.
Qed.

Lemma s64_u64 v : - 2 ^ 63 <= v < 2 ^ 63 -> s64 (u64 v) = v.
Proof.
  intros Hv. rewrite swrap_uwrap by lia. apply swrap_small; simpl; lia.
Qed.

(** Both libraries have the same zig-zag code. *)
Lemma wire_zigzag n : WireZigZagEncode32 n = ZigZagEncode32 n /\
  WireZigZagDecode32 n = ZigZagDecode32 n.
Proof. done. Qed.

Lemma WireZigZag_range v : - 2 ^ 31 <= v < 2 ^ 31 -> 0 <= WireZigZagEncode32 v < 2 ^ 32.
Proof. intros _. apply u32_range. Qed.

Lemma WireZigZag_trip v : - 2 ^ 31 <= v < 2 ^ 31 -> WireZigZagDecode32 (WireZigZagEncode32 v) = v.
Proof. intros Hv. by apply decode_encode32. Qed.

Lemma primitive_trip t v r : in_range t v = true ->
  primitive_of t (int_payload t v ++ r) = Some (v, r).
Proof.
  assert (forall v r, 0 <= v < 2 ^ 32 ->
    little_endian 4 (WriteLittleEndian32ToArray v ++ r) = Some (v, r)) as Hle.
  { intros v' r' Hv. rewrite little_endian_trip by (done || apply WriteLittleEndian32_bytes).
    by rewrite WriteLittleEndian32_join. }
  destruct t; intros Hv; try done; cbn [in_range] in Hv; cbn [primitive_of int_payload].
  - apply Hle. lia.
  - pose proof (uwrap_range 64 v ltac:(lia)). unfold WriteInt64NoTagToArray.
    rewrite WriteVarint64ToArray_spec, varint64_base128 by done. cbn [map_fst].
    by rewrite s64_u64 by lia.
  - unfold WriteUInt64NoTagToArray. rewrite WriteVarint64ToArray_spec by lia.
    apply varint64_base128. lia.
  - unfold WriteInt32NoTagToArray, WriteVarint32SignExtendedToArray.
    destruct (Z.ltb_spec v 0).
    + rewrite u64_negative, WriteVarint64ToArray_spec by lia. unfold varint32.
      rewrite varint_base128 by (simpl; lia). cbn [map_fst]. f_equal. f_equal.
      rewrite (u32_cong (v + 2 ^ 64) (v + 2 ^ 32) (2 ^ 32 - 1)) by lia.
      rewrite u32_small by lia. rewrite s32_wrap by lia. lia.
    + rewrite (u32_small v) by lia. rewrite WriteVarint32ToArray_spec by lia.
      rewrite varint32_base128 by lia. cbn [map_fst]. by rewrite s32_small by lia.
  - unfold WriteFixed64NoTagToArray.
    rewrite little_endian_trip by (done || apply WriteLittleEndian64_bytes).
    by rewrite WriteLittleEndian64_join by lia.
  - apply Hle. lia.
  - apply orb_true_iff in Hv as [Hv|Hv]; apply Z.eqb_eq in Hv as ->; by vm_compute.
  - unfold WriteUInt32NoTagToArray. rewrite WriteVarint32ToArray_spec by lia.
    apply varint32_base128. lia.
  - pose proof (WireZigZag_range v ltac:(lia)). unfold WriteSInt32NoTagToArray.
    rewrite WriteVarint32ToArray_spec, varint32_base128 by lia. cbn [map_fst].
    by rewrite WireZigZag_trip by lia.
Qed.

Lemma string_trip v r : str_ok v = true -> string_of (str_payload v ++ r) = Some (v, r).
Proof.
  intros Hv. pose proof (str_ok_length v Hv). unfold string_of, str_payload.
  rewrite (u32_small (Z.of_nat (length v))) by lia.
  rewrite <- app_assoc, WriteVarint32ToArray_spec, varint32_base128 by lia.
  rewrite s32_small by lia. unfold take_bytes. rewrite length_app.
  destruct (Z.leb_spec 0 (Z.of_nat (length v))); [|lia].
  destruct (Z.leb_spec (Z.of_nat (length v)) (Z.of_nat (length v + length r))); [|lia].
  cbn [andb]. by rewrite Nat2Z.id, take_app_length, drop_app_length.
Qed.

Lemma int_payload_bytes t v : in_range t v = true -> Forall is_byte (int_payload t v).
Proof.
  destruct t; intros Hv; try done; cbn [in_range] in Hv; cbn [int_payload];
  try apply WriteLittleEndian32_bytes; try apply WriteLittleEndian64_bytes.
  - pose proof (uwrap_range 64 v ltac:(lia)). unfold WriteInt64NoTagToArray.
    rewrite WriteVarint64ToArray_spec by done. apply base128_bytes. lia.
  - unfold WriteUInt64NoTagToArray. rewrite WriteVarint64ToArray_spec by lia.
    apply base128_bytes. lia.
  - unfold WriteInt32NoTagToArray, WriteVarint32SignExtendedToArray.
    destruct (Z.ltb_spec v 0).
    + pose proof (uwrap_range 64 v ltac:(lia)).
      rewrite WriteVarint64ToArray_spec by done. apply base128_bytes. lia.
    + pose proof (u32_range v). rewrite WriteVarint32ToArray_spec by lia.
      apply base128_bytes. lia.
  - apply orb_true_iff in Hv as [Hv|Hv]; apply Z.eqb_eq in Hv as ->; vm_compute;
      repeat constructor; done.
  - unfold WriteUInt32NoTagToArray. rewrite WriteVarint32ToArray_spec by lia.
    apply base128_bytes. lia.
  - pose proof (WireZigZag_range v ltac:(lia)). unfold WriteSInt32NoTagToArray.
    rewrite WriteVarint32ToArray_spec by lia. apply base128_bytes. lia.
Qed.

Lemma str_payload_bytes v : str_ok v = true -> Forall is_byte (str_payload v).
Proof.
  intros Hv. pose proof (str_ok_length v Hv). apply Forall_app. split; [|by apply str_ok_bytes].
  rewrite (u32_small (Z.of_nat (length v))) by lia.
  rewrite WriteVarint32ToArray_spec by lia. apply base128_bytes. lia.
Qed.

(** * Unknown fields *)

Definition u_number (u : UnknownField) : Z :=
  match u with
  | UVarint n _ | UFixed32 n _ | UFixed64 n _ | ULengthDelimited n _ | UGroup n _ => n
  end.

Definition u_type (u : UnknownField) : Z :=
  match u with
  | UVarint _ _ => WIRETYPE_VARINT
  | UFixed32 _ _ => WIRETYPE_FIXED32
  | UFixed64 _ _ => WIRETYPE_FIXED64
  | ULengthDelimited _ _ => WIRETYPE_LENGTH_DELIMITED
  | UGroup _ _ => WIRETYPE_START_GROUP
  end.

Definition u_tag (u : UnknownField) : Z := MakeTag (u_number u) (u_type u).

(** The unknown fields a parser can have produced at a depth of nesting. *)
Fixpoint unknown_ok (depth : Z) (u : UnknownField) : bool :=
  number_ok (u_number u) && negb (u_tag u =? 0) &&
  match u with
  | UVarint _ v | UFixed64 _ v => (0 <=? v) && (v <? 2 ^ 64)
  | UFixed32 _ v => (0 <=? v) && (v <? 2 ^ 32)
  | ULengthDelimited _ v => str_ok v
  | UGroup _ us => (depth + 1 <=? default_recursion_limit_) && forallb (unknown_ok (depth + 1)) us
  end.

(** What follows the tag. *)
Definition u_payload (u : UnknownField) : list Z :=
  match u with
  | UVarint _ v => WriteVarint64ToArray (u64 v)
  | UFixed32 _ v => WriteLittleEndian32ToArray v
  | UFixed64 _ v => WriteLittleEndian64ToArray v
  | ULengthDelimited _ v => str_payload v
  | UGroup n us => SerializeUnknownFieldsToArray us ++ WriteTagToArray n WIRETYPE_END_GROUP
  end.

Lemma serialize_unknown_split u :
  SerializeUnknownFieldToArray u = WriteTagToArray (u_number u) (u_type u) ++ u_payload u.
Proof. by destruct u. Qed.

Lemma UnknownField_nested_ind (P : UnknownField -> Prop) :
  (forall n v, P (UVarint n v)) -> (forall n v, P (UFixed32 n v)) ->
  (forall n v, P (UFixed64 n v)) -> (forall n v, P (ULengthDelimited n v)) ->
  (forall n us, Forall P us -> P (UGroup n us)) -> forall u, P u.
Proof.
  intros H1 H2 H3 H4 H5.
  refine (fix F u := match u with
    | UVarint n v => H1 n v | UFixed32 n v => H2 n v | UFixed64 n v => H3 n v
    | ULengthDelimited n v => H4 n v
    | UGroup n us => H5 n us _
    end).
  induction us as [|u' us IH]; constructor; [apply F|exact IH].
Defined.

Lemma u_type_range u : 0 <= u_type u < 8.
Proof. by destruct u. Qed.

Lemma unknown_ok_number depth u : unknown_ok depth u = true ->
  number_ok (u_number u) = true /\ u_tag u <> 0.
Proof.
  intros H. destruct u; apply andb_true_iff in H as [H _]; apply andb_true_iff in H as [H1 H2];
    (split; [done|]; apply negb_true_iff in H2; by apply Z.eqb_neq).
Qed.

Lemma WriteTag_length n ty : number_ok n = true -> 0 <= ty < 8 ->
  (0 < length (WriteTagToArray n ty))%nat.
Proof.
  intros Hn Ht. pose proof (MakeTag_range n ty Hn Ht). unfold WriteTagToArray.
  rewrite CodedWriteTagToArray_spec by done. cbn [base128].
  destruct (MakeTag n ty <? 128); cbn [length]; lia.
Qed.

Definition trips (depth : Z) (u : UnknownField) : Prop :=
  forall k r, (field_fuel (u_payload u ++ r) <= k)%nat ->
    unknown_field k depth (u_tag u) (u_payload u ++ r) = Some (u, r).

(** A group: its fields, then its end tag. *)
Lemma group_trip depth us n k r : number_ok n = true ->
  Forall (fun u => number_ok (u_number u) = true /\ u_tag u <> 0 /\ trips depth u) us ->
  (group_fuel (SerializeUnknownFieldsToArray us ++ WriteTagToArray n WIRETYPE_END_GROUP ++ r)
     <= k)%nat ->
  unknown_group k depth
    (SerializeUnknownFieldsToArray us ++ WriteTagToArray n WIRETYPE_END_GROUP ++ r) =
  Some (us, MakeTag n WIRETYPE_END_GROUP, r).
Proof.
  intros Hn Hus. revert k. induction Hus as [|u us (Hu & Hz & Ht) Hus IH]; intros k Hk.
  - unfold group_fuel in Hk. destruct k as [|k]; [lia|].
    cbn [unknown_group SerializeUnknownFieldsToArray fmap list_fmap mjoin list_join app].
    rewrite tag_trip by done. rewrite GetTagWireType_Make by done.
    destruct (Z.eqb_spec (MakeTag n WIRETYPE_END_GROUP) 0) as [E|]; [|done].
    rewrite MakeTag_val in E by done. unfold number_ok, WIRETYPE_END_GROUP in *. lia.
  - pose proof (WriteTag_length (u_number u) (u_type u) Hu (u_type_range u)) as Hl.
    assert (SerializeUnknownFieldsToArray (u :: us) =
            SerializeUnknownFieldToArray u ++ SerializeUnknownFieldsToArray us) as Es by done.
    rewrite Es, serialize_unknown_split, <- !app_assoc in *.
    set (rest := SerializeUnknownFieldsToArray us ++ WriteTagToArray n WIRETYPE_END_GROUP ++ r) in *.
    unfold group_fuel in *. rewrite !length_app in Hk.
    destruct k as [|k]; [lia|]. cbn [unknown_group].
    rewrite tag_trip by (done || apply u_type_range). fold (u_tag u).
    destruct (Z.eqb_spec (u_tag u) 0); [done|].
    unfold u_tag at 1. rewrite GetTagWireType_Make by (done || apply u_type_range).
    assert ((u_type u =? WIRETYPE_END_GROUP) = false) as -> by (by destruct u).
    rewrite (Ht k rest) by (unfold field_fuel; rewrite length_app; lia).
    by rewrite IH by lia.
Qed.

Lemma unknown_trip u : forall depth, unknown_ok depth u = true -> trips depth u.
Proof.
  induction u as [n v|n v|n v|n v|n us IH] using UnknownField_nested_ind;
  intros depth Hok; pose proof (unknown_ok_number _ _ Hok) as [Hn Hz];
  (intros k r Hk; unfold field_fuel in Hk; destruct k as [|k]; [lia|]);
  cbn [unknown_field]; unfold u_tag; cbn [u_number u_type u_payload] in *;
  rewrite GetTagWireType_Make, GetTagFieldNumber_Make by done;
  apply andb_true_iff in Hok as [_ Hv].
  - change WIRETYPE_VARINT with 0. cbn iota.
    assert (u64 v = v) as -> by (apply uwrap_small; lia).
    rewrite WriteVarint64ToArray_spec, varint64_base128 by lia. done.
  - change WIRETYPE_FIXED32 with 5. cbn iota.
    rewrite little_endian_trip by (done || apply WriteLittleEndian32_bytes).
    by rewrite WriteLittleEndian32_join by lia.
  - change WIRETYPE_FIXED64 with 1. cbn iota. rewrite little_endian_trip.
    + by rewrite WriteLittleEndian64_join by lia.
    + apply Forall_app. split; apply WriteLittleEndian32_bytes.
    + done.
  - change WIRETYPE_LENGTH_DELIMITED with 2. cbn iota. by rewrite string_trip.
  - change WIRETYPE_START_GROUP with 3. cbn iota.
    apply andb_true_iff in Hv as [Hd Hus]. rewrite Hd. rewrite <- app_assoc.
    rewrite group_trip; [by rewrite Z.eqb_refl|done| |].
    + rewrite forallb_forall in Hus. apply Forall_forall. intros u Hu.
      rewrite Forall_forall in IH.
      pose proof (Hus u (proj1 (list_elem_of_In _ _) Hu)) as Hoku.
      destruct (unknown_ok_number _ _ Hoku). split; [done|]. split; [done|]. by apply IH.
    + unfold group_fuel. rewrite <- app_assoc in Hk. lia.
Qed.

Lemma unknown_payload_bytes u : forall depth, unknown_ok depth u = true ->
  Forall is_byte (SerializeUnknownFieldToArray u).
Proof.
  induction u as [n v|n v|n v|n v|n us IH] using UnknownField_nested_ind;
  intros depth Hok; pose proof (unknown_ok_number _ _ Hok) as [Hn Hz];
  rewrite serialize_unknown_split; (apply Forall_app; split;
    [apply tag_bytes; [done|apply u_type_range]|]); cbn [u_payload u_number] in *;
  apply andb_true_iff in Hok as [_ Hv].
  - assert (u64 v = v) as -> by (apply uwrap_small; lia).
    rewrite WriteVarint64ToArray_spec by lia. apply base128_bytes. lia.
  - apply WriteLittleEndian32_bytes.
  - apply Forall_app. split; apply WriteLittleEndian32_bytes.
  - by apply str_payload_bytes.
  - apply andb_true_iff in Hv as [_ Hus]. apply Forall_app. split; [|by apply tag_bytes].
    rewrite forallb_forall in Hus. unfold SerializeUnknownFieldsToArray.
    clear Hn Hz. induction IH as [|u us Hu IH IH']; [constructor|].
    apply Forall_app. split.
    + apply (Hu (depth + 1)). apply Hus. by left.
    + apply IH'. intros u' Hu'. apply Hus. by right.
Qed.

(** The size computed in advance is the number of bytes written. *)
Lemma tag_size n ty : number_ok n = true -> 0 <= ty < 8 ->
  VarintSize32 (MakeTag n ty) = Z.of_nat (length (WriteTagToArray n ty)).
Proof.
  intros Hn Ht. pose proof (MakeTag_range n ty Hn Ht). unfold WriteTagToArray.
  by rewrite CodedWriteTagToArray_spec, VarintSize32_spec by done.
Qed.

Lemma str_payload_size v : str_ok v = true ->
  VarintSize32 (u32 (Z.of_nat (length v))) + Z.of_nat (length v) =
  Z.of_nat (length (str_payload v)).
Proof.
  intros Hv. pose proof (str_ok_length v Hv). unfold str_payload. pose proof (u32_range (Z.of_nat (length v))).
  rewrite WriteVarint32ToArray_spec, VarintSize32_spec, length_app by lia. lia.
Qed.

Lemma unknown_size u : forall depth, unknown_ok depth u = true -> forall size,
  ComputeUnknownFieldSize size u = s32 (size + Z.of_nat (length (SerializeUnknownFieldToArray u))).
Proof.
  induction u as [n v|n v|n v|n v|n us IH] using UnknownField_nested_ind;
  intros depth Hok size; pose proof (unknown_ok_number _ _ Hok) as [Hn Hz];
  rewrite serialize_unknown_split, length_app; cbn [ComputeUnknownFieldSize u_number u_type u_payload] in *;
  rewrite !tag_size by done; apply andb_true_iff in Hok as [_ Hv]; cbv zeta; rewrite ?s32_add_l, <- ?Z.add_assoc, ?s32_add_l.
  - assert (u64 v = v) as -> by (apply uwrap_small; lia).
    rewrite WriteVarint64ToArray_spec, VarintSize64_spec by lia. f_equal. lia.
  - f_equal. cbn [WriteLittleEndian32ToArray length]. lia.
  - f_equal. cbn [WriteLittleEndian64ToArray WriteLittleEndian32ToArray app length]. lia.
  - f_equal. pose proof (str_payload_size v Hv). lia.
  - apply andb_true_iff in Hv as [_ Hus]. rewrite length_app.
    cut (forall a, s32 (foldl (fun n f => ComputeUnknownFieldSize n f) a us) =
         s32 (a + Z.of_nat (length (SerializeUnknownFieldsToArray us)))).
    { intros E. specialize (E 0). generalize dependent (foldl (fun n f => ComputeUnknownFieldSize n f) 0 us). intros x E.
      match goal with |- s32 (?s + ?a + (x + ?b)) = _ => replace (s + a + (x + b)) with (x + (s + a + b)) by lia end.
      rewrite <- s32_add_l, E, s32_add_l. f_equal. lia. }
    rewrite forallb_forall in Hus. unfold SerializeUnknownFieldsToArray.
    clear Hn Hz. induction IH as [|u us Hu IH IH']; intros a; [cbn; f_equal; lia|].
    cbn [foldl fmap list_fmap mjoin list_join]. rewrite length_app.
    rewrite (Hu (depth + 1)) by (apply Hus; by left).
    rewrite IH' by (intros u' Hu'; apply Hus; by right).
    rewrite s32_add_l. by rewrite Nat2Z.inj_add, Z.add_assoc.
Qed.
