(* ===== verification/MsgTables.v ===== *)
(** Well formed tables and well formed messages.  [wf_class] says that the tables of a
    class agree with each other: the same fields in the parser, the writer, the sizes,
    [MergeFrom] and [Clear]; it is decidable, and the generated classes meet it ([ClassProps]).
    [wf_msg] is the type invariant of the objects. *)

From S2P Require Import Prelude CMem Coded Wire Messages CodedStream WireSpec MsgSpec WireTrip.

#[export] Instance field_write_eq_dec : EqDecision field_write.
Proof. solve_decision. Defined.

#[export] Instance value_eq_dec : EqDecision value.
Proof. solve_decision. Defined.

(** * Messages *)

(** A member against its field: the kind, the range, and the default value where the
    has-bit is not set. *)
Definition wf_member (msg : message) (w : field_write) : bool :=
  match members msg !! w_member w with
  | Some (VRep l) =>
      w_repeated w && is_string (w_type w) && forallb str_ok l && negb (has (w_member w) msg)
  | Some (VStr v) =>
      negb (w_repeated w) && is_string (w_type w) && str_ok v &&
      (has (w_member w) msg || bool_decide (v = []))
  | Some (VInt v) =>
      negb (w_repeated w) && negb (is_string (w_type w)) && in_range (w_type w) v &&
      (has (w_member w) msg || (v =? 0))
  | None => false
  end.

(** An unknown field: one that the class's parser does not take for its own. *)
Definition unknown_to (K : message_class) (u : UnknownField) : bool :=
  unknown_ok 0 u && match case_of_tag (u_tag u) (k_cases K) with Some _ => false | None => true end.

Definition wf_msg (K : message_class) (msg : message) : bool :=
  (length (members msg) =? length (k_writes K))%nat &&
  forallb (wf_member msg) (k_writes K) &&
  (0 <=? has_bits_ msg) && (has_bits_ msg <? 2 ^ Z.of_nat (length (k_writes K))) &&
  forallb (unknown_to K) (unknown_fields_ msg).

(** * Tables *)

Definition case_write (c : parse_case) : field_write :=
  mkwrite (c_number c) (c_member c) (c_type c) (c_repeated c).

(** All the members, each once. *)
Definition covers (n : nat) (l : list nat) : bool :=
  bool_decide (NoDup l) && forallb (fun i => bool_decide (i ∈ l)) (seq 0 n) &&
  forallb (fun i => bool_decide (i < n)%nat) l.

Definition write_of (K : message_class) (i : nat) : option field_write :=
  list_find (fun w => w_member w = i) (k_writes K) ≫= fun p => Some (snd p).

(** The has-bit of an optional member is in the mask. *)
Definition in_mask (K : message_class) (mask : Z) (i : nat) : bool :=
  Z.testbit mask (Z.of_nat i) &&
  match write_of K i with Some w => negb (w_repeated w) | None => false end.

Definition is_repeated (K : message_class) (i : nat) : bool :=
  match write_of K i with Some w => w_repeated w | None => false end.

Definition merge_members (st : merge_step) : list nat :=
  match st with MGroup _ items => items | MRepeated i => [i] end.

Definition wf_merge_step (K : message_class) (st : merge_step) : bool :=
  match st with
  | MGroup mask items => forallb (in_mask K mask) items
  | MRepeated i => is_repeated K i
  end.

(** The sizes of a field are those of its type. *)
Definition wf_size (K : message_class) (f : field_size) : bool :=
  match write_of K (s_member f) with
  | None => false
  | Some w =>
      negb (w_repeated w) &&
      (s_tag f =? Z.of_nat (length (WriteTagToArray (w_number w) (wire_type_of (w_type w))))) &&
      match w_type w, s_value f with
      | TYPE_INT32, SInt32 | TYPE_UINT32, SUInt32 | TYPE_UINT64, SUInt64
      | TYPE_SINT32, SSInt32 | TYPE_INT64, SInt64
      | TYPE_STRING, SString | TYPE_BYTES, SBytes => true
      | TYPE_FIXED32, SFixed n | TYPE_FLOAT, SFixed n => n =? 4
      | TYPE_FIXED64, SFixed n => n =? 8
      | TYPE_BOOL, SFixed n => n =? 1
      | _, _ => false
      end
  end.

Definition size_members (st : size_step) : list nat :=
  match st with SGroup _ items => s_member <$> items | SRepeated i _ => [i] end.

Definition wf_size_step (K : message_class) (st : size_step) : bool :=
  match st with
  | SGroup mask items => forallb (fun f => in_mask K mask (s_member f) && wf_size K f) items
  | SRepeated i tag_size =>
      match write_of K i with
      | Some w => w_repeated w && is_string (w_type w) &&
          (tag_size =? Z.of_nat (length (WriteTagToArray (w_number w) (wire_type_of (w_type w)))))
      | None => false
      end
  end.

(** The members a step of [Clear] resets. *)
Definition clear_members (K : message_class) (st : clear_step) : list nat :=
  match st with
  | CZero first last => span (k_layout K) first last
  | CReset i | CString i | CRepeated i => [i]
  end.

Definition wf_clear_step (K : message_class) (mask : option Z) (st : clear_step) : bool :=
  match st, mask with
  | CRepeated i, None => is_repeated K i
  | CRepeated i, Some _ => false
  | CString i, mask =>
      match write_of K i with
      | Some w => is_string (w_type w) && negb (w_repeated w) &&
                  match mask with Some b => Z.testbit b (Z.of_nat i) | None => true end
      | None => false
      end
  | st, mask =>
      forallb (fun i => match write_of K i with
                        | Some w => negb (is_string (w_type w)) && negb (w_repeated w)
                        | None => false
                        end &&
                        match mask with Some b => Z.testbit b (Z.of_nat i) | None => true end)
        (clear_members K st)
  end.

Definition wf_class (K : message_class) : bool :=
  let n := length (k_writes K) in
  wf_cases K &&
  bool_decide (case_write <$> k_cases K = k_writes K) &&
  forallb (fun w => number_ok (w_number w) && (negb (w_repeated w) || is_string (w_type w)))
    (k_writes K) &&
  covers n (w_member <$> k_writes K) &&
  wf_msg K (k_new K) &&
  bool_decide (has_bits_ (k_new K) = 0 /\ unknown_fields_ (k_new K) = [] /\
    zero_value <$> members (k_new K) = members (k_new K)) &&
  forallb (wf_merge_step K) (k_merge K) && covers n (mjoin (merge_members <$> k_merge K)) &&
  forallb (wf_size_step K) (k_sizes K) && covers n (mjoin (size_members <$> k_sizes K)) &&
  forallb (fun g => forallb (wf_clear_step K (fst g)) (snd g)) (k_clear K) &&
  covers n (mjoin ((fun g => mjoin (clear_members K <$> snd g)) <$> k_clear K)).

(** [MergeFrom] member by member, and the main step of the round trip: reading the
    fields that [SerializeWithCachedSizesToArray] writes merges them, one after the
    other, into the message. *)

(** What [wf_class] says. *)
Record class_facts (K : message_class) : Prop := {
  f_cases : wf_cases K = true;
  f_link : case_write <$> k_cases K = k_writes K;
  f_writes : forall w, w ∈ k_writes K ->
    number_ok (w_number w) = true /\ (w_repeated w = true -> is_string (w_type w) = true);
  f_covers : covers (length (k_writes K)) (w_member <$> k_writes K) = true;
  f_new : wf_msg K (k_new K) = true;
  f_fresh : has_bits_ (k_new K) = 0 /\ unknown_fields_ (k_new K) = [] /\
    zero_value <$> members (k_new K) = members (k_new K);
  f_merge : forallb (wf_merge_step K) (k_merge K) = true;
  f_merge_covers : covers (length (k_writes K)) (mjoin (merge_members <$> k_merge K)) = true;
  f_sizes : forallb (wf_size_step K) (k_sizes K) = true;
  f_size_covers : covers (length (k_writes K)) (mjoin (size_members <$> k_sizes K)) = true;
  f_clear : forallb (fun g => forallb (wf_clear_step K (fst g)) (snd g)) (k_clear K) = true;
  f_clear_covers : covers (length (k_writes K))
    (mjoin ((fun g => mjoin (clear_members K <$> snd g)) <$> k_clear K)) = true
}.

Lemma forallb_elem {A} (f : A -> bool) l x : forallb f l = true -> x ∈ l -> f x = true.
Proof. intros H Hx. rewrite forallb_forall in H. by apply H, list_elem_of_In. Qed.

Lemma wf_class_facts K : wf_class K = true -> class_facts K.
Proof.
  unfold wf_class. intros H. repeat (apply andb_true_iff in H as [H ?]).
  constructor; try done; try by eapply bool_decide_eq_true_1.
  { unfold wf_cases. by apply andb_true_iff. }
  intros w Hw. match goal with H : forallb (fun w => number_ok _ && _) _ = true |- _ =>
    pose proof (forallb_elem _ _ _ H Hw) as Hn end.
  apply andb_true_iff in Hn as [Hn Hr]. split; [done|]. intros E. by rewrite E in Hr.
Qed.

Lemma covers_spec n l : covers n l = true ->
  NoDup l /\ (forall i, i ∈ l <-> (i < n)%nat).
Proof.
  unfold covers. intros H. apply andb_true_iff in H as [H H2].
  apply andb_true_iff in H as [H0 H1]. split; [by eapply bool_decide_eq_true_1|].
  intros i. split; intros Hi.
  - pose proof (forallb_elem _ _ _ H2 Hi) as Hlt. by eapply bool_decide_eq_true_1.
  - eapply bool_decide_eq_true_1. apply (forallb_elem _ _ i H1). apply elem_of_seq. lia.
Qed.

Section Class.
Context (K : message_class).
Hypothesis HK : class_facts K.

Lemma write_of_in i w : write_of K i = Some w -> w ∈ k_writes K /\ w_member w = i.
Proof.
  intros E. apply bind_Some in E as ([j w'] & E & [= <-]).
  apply list_find_Some in E as (E & Hp & _). split; [by eapply list_elem_of_lookup_2|done].
Qed.

Lemma member_inj w w' : w ∈ k_writes K -> w' ∈ k_writes K -> w_member w = w_member w' -> w = w'.
Proof.
  intros Hw Hw' E. destruct (covers_spec _ _ (f_covers _ HK)) as [Hd _].
  apply list_elem_of_lookup_1 in Hw as [i Hi]. apply list_elem_of_lookup_1 in Hw' as [j Hj].
  assert (i = j) as ->; [|congruence].
  eapply (NoDup_lookup _ _ _ (w_member w) Hd); rewrite list_lookup_fmap;
    [by rewrite Hi|rewrite Hj; simpl; by rewrite E].
Qed.

Lemma write_of_member w : w ∈ k_writes K -> write_of K (w_member w) = Some w.
Proof.
  intros Hw. unfold write_of. destruct (list_find _ _) as [[j w']|] eqn:E.
  - simpl. f_equal. apply list_find_Some in E as (E & Hp & _).
    apply member_inj; [by eapply list_elem_of_lookup_2|done|done].
  - apply list_find_None in E. rewrite Forall_forall in E. by destruct (E w Hw).
Qed.

Lemma member_bound w : w ∈ k_writes K -> (w_member w < length (k_writes K))%nat.
Proof.
  intros Hw. destruct (covers_spec _ _ (f_covers _ HK)) as [_ Hc]. apply Hc.
  by apply list_elem_of_fmap_2.
Qed.

Lemma write_at i : (i < length (k_writes K))%nat ->
  exists w, w ∈ k_writes K /\ w_member w = i /\ write_of K i = Some w.
Proof.
  intros Hi. destruct (covers_spec _ _ (f_covers _ HK)) as [_ Hc]. apply Hc in Hi.
  apply list_elem_of_fmap_1 in Hi as (w & -> & Hw). exists w. by rewrite write_of_member.
Qed.

(** * Well formed messages *)

Record msg_facts (msg : message) : Prop := {
  m_length : length (members msg) = length (k_writes K);
  m_member : forall w, w ∈ k_writes K -> wf_member msg w = true;
  m_bits : 0 <= has_bits_ msg < 2 ^ Z.of_nat (length (k_writes K));
  m_unknown : forall u, u ∈ unknown_fields_ msg -> unknown_to K u = true
}.

Lemma wf_msg_facts msg : wf_msg K msg = true <-> msg_facts msg.
Proof.
  unfold wf_msg. split.
  - intros H. repeat (apply andb_true_iff in H as [H ?]). constructor.
    + by apply Nat.eqb_eq.
    + intros w Hw. by eapply forallb_elem.
    + lia.
    + intros u Hu. by eapply forallb_elem.
  - intros [H1 H2 H3 H4]. rewrite !andb_true_iff. repeat split.
    + by apply Nat.eqb_eq.
    + apply forallb_forall. intros w Hw. by apply H2, list_elem_of_In.
    + lia.
    + lia.
    + apply forallb_forall. intros u Hu. by apply H4, list_elem_of_In.
Qed.

(** The kind of a member, whatever its value. *)
Definition kind_ok (msg : message) (w : field_write) : Prop :=
  match members msg !! w_member w with
  | Some (VRep _) => w_repeated w = true
  | Some (VStr _) => w_repeated w = false /\ is_string (w_type w) = true
  | Some (VInt _) => w_repeated w = false /\ is_string (w_type w) = false
  | None => False
  end.

Lemma wf_member_kind msg w : wf_member msg w = true -> kind_ok msg w.
Proof.
  unfold wf_member, kind_ok. destruct (members msg !! w_member w) as [[v|v|l]|]; try done;
  intros H; repeat (apply andb_true_iff in H as [H ?]); try done;
  (split; [by apply negb_true_iff|]); try done. by apply negb_true_iff.
Qed.

Definition kinds (msg : message) : Prop := forall w, w ∈ k_writes K -> kind_ok msg w.

Lemma wf_msg_kinds msg : msg_facts msg -> kinds msg.
Proof. intros H w Hw. by apply wf_member_kind, (m_member _ H). Qed.

(** * Merging one member *)

Definition merge_one (from msg : message) (i : nat) : message :=
  match members from !! i with
  | Some (VRep l) => assign i (VRep (get_rep i msg ++ l)) msg
  | Some v => if has i from then set_has i (assign i v msg) else msg
  | None => msg
  end.

Lemma members_assign_ne i j v msg : i <> j -> members (assign i v msg) !! j = members msg !! j.
Proof. intros. by apply list_lookup_insert_ne. Qed.

Lemma has_assign i j v msg : has j (assign i v msg) = has j msg.
Proof. done. Qed.

Lemma has_set_has i j msg : has j (set_has i msg) = has j msg || bool_decide (i = j).
Proof.
  unfold has, set_has. cbn [has_bits_]. rewrite Z.lor_spec. f_equal.
  change 1 with (Z.ones 1). rewrite zb_shiftl, zb_ones by lia.
  case_bool_decide; subst; zbits_cases; simpl; try done; lia.
Qed.

Lemma merge_one_ne from msg i j : i <> j ->
  members (merge_one from msg i) !! j = members msg !! j /\
  has j (merge_one from msg i) = has j msg.
Proof.
  intros Hij. unfold merge_one. destruct (members from !! i) as [[v|v|l]|]; [..|done];
  try (destruct (has i from); [|done]);
  rewrite ?has_set_has, ?bool_decide_eq_false_2, ?orb_false_r by done;
  (split; [by apply list_lookup_insert_ne|done]).
Qed.

(** Two messages that agree at [j] still do after the merge of [j]. *)
Lemma merge_one_local from a b j :
  members a !! j = members b !! j -> has j a = has j b ->
  members (merge_one from a j) !! j = members (merge_one from b j) !! j /\
  has j (merge_one from a j) = has j (merge_one from b j).
Proof.
  intros Em Eh. unfold merge_one, get_rep. rewrite Em.
  assert (forall v, <[j:=v]> (members a) !! j = <[j:=v]> (members b) !! j) as Ei.
  { intros v. destruct (members b !! j) eqn:Eb.
    - rewrite !list_lookup_insert_eq by (eapply lookup_lt_Some; done). done.
    - rewrite !list_insert_ge by (by apply lookup_ge_None). congruence. }
  destruct (members from !! j) as [[v|v|l]|]; try (destruct (has j from));
  rewrite ?has_set_has; (split; [|by rewrite ?has_assign, ?Eh]); try done; apply Ei.
Qed.

Lemma merge_one_frame from msg i :
  length (members (merge_one from msg i)) = length (members msg) /\
  unknown_fields_ (merge_one from msg i) = unknown_fields_ msg /\
  cached_size_ (merge_one from msg i) = cached_size_ msg.
Proof.
  unfold merge_one. destruct (members from !! i) as [[v|v|l]|]; try (destruct (has i from));
  cbn [assign set_has members unknown_fields_ cached_size_]; by rewrite ?length_insert.
Qed.

Lemma fold_merge_frame from l msg :
  length (members (foldl (merge_one from) msg l)) = length (members msg) /\
  unknown_fields_ (foldl (merge_one from) msg l) = unknown_fields_ msg /\
  cached_size_ (foldl (merge_one from) msg l) = cached_size_ msg.
Proof.
  revert msg. induction l as [|i l IH]; intros msg; [done|]. simpl.
  destruct (IH (merge_one from msg i)) as (-> & -> & ->). apply merge_one_frame.
Qed.

(** Merging several members: each one is merged by itself. *)
Lemma fold_merge_lookup from l msg j : NoDup l ->
  let r := if decide (j ∈ l) then merge_one from msg j else msg in
  members (foldl (merge_one from) msg l) !! j = members r !! j /\
  has j (foldl (merge_one from) msg l) = has j r.
Proof.
  intros Hd. revert msg. induction Hd as [|i l Hi Hd IH]; intros msg;
    [by rewrite decide_False by apply not_elem_of_nil|].
  cbn [foldl]. destruct (IH (merge_one from msg i)) as [Em Eh]. rewrite Em, Eh. clear Em Eh.
  destruct (decide (j ∈ l)) as [Hj|Hj].
  - assert (i <> j) as Hij by congruence.
    rewrite decide_True by (by right).
    apply merge_one_local; by apply merge_one_ne.
  - destruct (decide (j = i)) as [->|Hij].
    + rewrite decide_True by (by left). done.
    + rewrite decide_False by (intros [->|]%elem_of_cons; done). by apply merge_one_ne.
Qed.

Lemma has_bits_ext a b : 0 <= has_bits_ a -> 0 <= has_bits_ b ->
  (forall j, has j a = has j b) -> has_bits_ a = has_bits_ b.
Proof.
  intros Ha Hb H. apply Z.bits_inj'. intros i Hi. specialize (H (Z.to_nat i)).
  unfold has in H. by rewrite Z2Nat.id in H.
Qed.

Lemma message_ext a b : 0 <= has_bits_ a -> 0 <= has_bits_ b ->
  (forall j, members a !! j = members b !! j /\ has j a = has j b) ->
  unknown_fields_ a = unknown_fields_ b -> cached_size_ a = cached_size_ b -> a = b.
Proof.
  intros Ha Hb H Hu Hc.
  assert (has_bits_ a = has_bits_ b) by (apply has_bits_ext; [done..|apply H]).
  assert (members a = members b) by (apply list_eq; apply H).
  destruct a, b. simpl in *. congruence.
Qed.

Lemma merge_one_bits from msg i : 0 <= has_bits_ msg -> 0 <= has_bits_ (merge_one from msg i).
Proof.
  intros H. unfold merge_one.
  assert (0 <= Z.lor (has_bits_ msg) (Z.shiftl 1 (Z.of_nat i))).
  { apply Z.lor_nonneg. split; [done|]. by apply Z.shiftl_nonneg. }
  destruct (members from !! i) as [[v|v|l]|]; try (destruct (has i from)); done.
Qed.

Lemma fold_merge_bits from l msg : 0 <= has_bits_ msg ->
  0 <= has_bits_ (foldl (merge_one from) msg l).
Proof.
  revert msg. induction l as [|i l IH]; intros msg H; [done|]. apply IH. by apply merge_one_bits.
Qed.

(** The order of the members does not matter. *)
Lemma fold_merge_same from l l' msg : NoDup l -> NoDup l' -> (forall i, i ∈ l <-> i ∈ l') ->
  0 <= has_bits_ msg ->
  foldl (merge_one from) msg l = foldl (merge_one from) msg l'.
Proof.
  intros Hd Hd' H Hb.
  destruct (fold_merge_frame from l msg) as (_ & Hu & Hc).
  destruct (fold_merge_frame from l' msg) as (_ & Hu' & Hc').
  apply message_ext; [by apply fold_merge_bits..| |congruence|congruence].
  intros j. destruct (fold_merge_lookup from l msg j Hd) as [-> ->].
  destruct (fold_merge_lookup from l' msg j Hd') as [-> ->].
  destruct (decide (j ∈ l)) as [Hj|Hj].
  - by rewrite decide_True by by apply H.
  - by rewrite decide_False by by rewrite <- H.
Qed.
(** * [MergeFrom] *)

Lemma kind_of_write from i w : kinds from -> write_of K i = Some w ->
  match members from !! i with
  | Some (VRep _) => w_repeated w = true
  | Some (VStr _) => w_repeated w = false /\ is_string (w_type w) = true
  | Some (VInt _) => w_repeated w = false /\ is_string (w_type w) = false
  | None => False
  end.
Proof.
  intros Hk E. apply write_of_in in E as [Hw <-]. exact (Hk w Hw).
Qed.

Lemma optional_merge from msg i w : kinds from -> write_of K i = Some w ->
  w_repeated w = false -> merge_one from msg i = merge_member from i msg.
Proof.
  intros Hk E Hr. pose proof (kind_of_write _ _ _ Hk E) as Hm. unfold merge_one, merge_member.
  destruct (members from !! i) as [[v|v|l]|]; try done. congruence.
Qed.

Lemma mask_has from mask i : Z.land (has_bits_ from) mask = 0 ->
  Z.testbit mask (Z.of_nat i) = true -> has i from = false.
Proof.
  intros E Hm. unfold has. apply (f_equal (fun z => Z.testbit z (Z.of_nat i))) in E.
  rewrite Z.land_spec, Hm, Z.bits_0, andb_true_r in E. done.
Qed.

Lemma merge_step_fold from msg st : kinds from -> wf_merge_step K st = true ->
  run_merge_step from msg st = foldl (merge_one from) msg (merge_members st).
Proof.
  intros Hk Hw. destruct st as [mask items|i]; simpl in *.
  - assert (forall msg, foldl (fun msg i => merge_member from i msg) msg items =
                        foldl (merge_one from) msg items) as E.
    { clear msg. induction items as [|i items IH]; intros msg; [done|]. simpl in *.
      apply andb_true_iff in Hw as [Hi Hw]. unfold in_mask in Hi.
      apply andb_true_iff in Hi as [_ Hi]. destruct (write_of K i) as [w|] eqn:Ew; [|done].
      rewrite (optional_merge from msg i w Hk Ew) by by apply negb_true_iff.
      by apply IH. }
    destruct (Z.eqb_spec (Z.land (has_bits_ from) mask) 0) as [Ez|]; [|apply E].
    rewrite <- E. clear E. revert msg. induction items as [|i items IH]; intros msg; [done|].
    simpl in *. apply andb_true_iff in Hw as [Hi Hw]. apply andb_true_iff in Hi as [Hi _].
    unfold merge_member at 2. rewrite (mask_has _ _ _ Ez Hi). by apply IH.
  - unfold is_repeated in Hw. destruct (write_of K i) as [w|] eqn:Ew; [|done].
    pose proof (kind_of_write _ _ _ Hk Ew) as Hm. unfold merge_one, get_rep at 2.
    destruct (members from !! i) as [[v|v|l]|]; [destruct Hm; congruence..|done|done].
Qed.

Lemma MergeFrom_fold from msg : kinds from ->
  MergeFrom K from msg =
  set_unknown (unknown_fields_ msg ++ unknown_fields_ from)
    (foldl (merge_one from) msg (mjoin (merge_members <$> k_merge K))).
Proof.
  intros Hk. unfold MergeFrom. pose proof (f_merge _ HK) as Hw.
  assert (forall msg, foldl (run_merge_step from) msg (k_merge K) =
    foldl (merge_one from) msg (mjoin (merge_members <$> k_merge K))) as E.
  { induction (k_merge K) as [|st l IH]; intros msg'; [done|]. simpl in *.
    apply andb_true_iff in Hw as [Hst Hw]. rewrite foldl_app, merge_step_fold by done.
    by apply IH. }
  rewrite E.
  by destruct (fold_merge_frame from (mjoin (merge_members <$> k_merge K)) msg) as (_ & -> & _).
Qed.

(** The order of the fields on the wire gives the same message. *)
Lemma MergeFrom_writes from msg : kinds from -> 0 <= has_bits_ msg ->
  MergeFrom K from msg =
  set_unknown (unknown_fields_ msg ++ unknown_fields_ from)
    (foldl (merge_one from) msg (w_member <$> k_writes K)).
Proof.
  intros Hk Hb. rewrite MergeFrom_fold by done. f_equal.
  destruct (covers_spec _ _ (f_covers _ HK)) as [Hd1 Hc1].
  destruct (covers_spec _ _ (f_merge_covers _ HK)) as [Hd2 Hc2].
  apply fold_merge_same; [done..| |done]. intros i. by rewrite Hc1, Hc2.
Qed.
End Class.
