(* ===== verification/MsgTrip.v ===== *)
(** Serialise and parse: what [SerializeWithCachedSizesToArray] writes of one message
    and the parser reads into another one is what [MergeFrom] copies; and [ByteSize]
    is the number of bytes. *)

From S2P Require Import Prelude CMem Coded Wire Messages CodedSpec CodedStream WireSpec MsgSpec.
From S2P Require Import CodedWrite WireTrip MsgTables.

(** The type invariant: whatever bytes a message is parsed from, its members are in the
    range of their types and its unknown fields are ones that can be written again. *)

Lemma varint32_split bs t r : varint32 bs = Some (t, r) ->
  0 <= t < 2 ^ 32 /\ exists a, bs = a ++ r /\ (0 < length a)%nat.
Proof.
  unfold varint32. destruct (varint 10 bs) as [[v r']|] eqn:E; [|done]. intros [= <- <-].
  split; [apply u32_range|]. apply varint_suffix in E as (a & -> & Ha). exists a. by split; [|lia].
Qed.

Lemma varint64_split bs t r : varint64 bs = Some (t, r) ->
  0 <= t < 2 ^ 64 /\ exists a, bs = a ++ r.
Proof.
  unfold varint64. destruct (varint 10 bs) as [[v r']|] eqn:E; [|done]. intros [= <- <-].
  split; [by apply uwrap_range|]. apply varint_suffix in E as (a & -> & Ha). by exists a.
Qed.

Lemma little_endian_split k bs v r : Forall is_byte bs -> little_endian k bs = Some (v, r) ->
  0 <= v < 2 ^ (8 * k) /\ exists a, bs = a ++ r.
Proof.
  unfold little_endian. intros Hb. destruct (take_bytes k bs) as [[a r']|] eqn:E; [|done].
  intros [= <- <-]. apply take_bytes_some in E as [-> ->]. apply Forall_app in Hb as [Ha _].
  split; [by apply le_join_range|by exists a].
Qed.

Lemma string_split bs v r : Forall is_byte bs -> string_of bs = Some (v, r) ->
  str_ok v = true /\ exists a, bs = a ++ r /\ (0 < length a)%nat.
Proof.
  unfold string_of. intros Hb. destruct (varint32 bs) as [[len r1]|] eqn:E; [|done].
  intros Et. apply varint32_split in E as (Hl & a & -> & Ha).
  apply take_bytes_some in Et as [-> Ev].
  apply Forall_app in Hb as [_ Hb]. apply Forall_app in Hb as [Hv _]. split.
  - unfold str_ok. apply andb_true_iff. split.
    + apply forallb_forall. intros b Hin. apply list_elem_of_In in Hin.
      rewrite Forall_forall in Hv. specialize (Hv b Hin). unfold is_byte, byte_ok in *. lia.
    + pose proof (swrap_range 32 len ltac:(lia)). apply Z.ltb_lt. rewrite <- Ev. simpl in *. lia.
  - exists (a ++ v). rewrite app_assoc, length_app. split; [done|lia].
Qed.

Lemma primitive_split t bs v r : Forall is_byte bs -> primitive_of t bs = Some (v, r) ->
  in_range t v = true /\ exists a, bs = a ++ r.
Proof.
  intros Hb. destruct t; intros E; try done; cbn [primitive_of in_range] in *.
  - apply little_endian_split in E as [Hv He]; [|done]. split; [lia|done].
  - destruct (varint64 bs) as [[w r']|] eqn:E'; [|done]. injection E as <- <-.
    apply varint64_split in E' as [_ He].
    pose proof (swrap_range 64 w ltac:(lia)). split; [simpl in *; lia|done].
  - apply varint64_split in E as [Hv He]. split; [lia|done].
  - destruct (varint32 bs) as [[w r']|] eqn:E'; [|done]. injection E as <- <-.
    apply varint32_split in E' as (_ & a & -> & _).
    pose proof (swrap_range 32 w ltac:(lia)). split; [simpl in *; lia|by exists a].
  - apply little_endian_split in E as [Hv He]; [|done]. split; [lia|done].
  - apply little_endian_split in E as [Hv He]; [|done]. split; [lia|done].
  - destruct (varint32 bs) as [[w r']|] eqn:E'; [|done]. injection E as <- <-.
    apply varint32_split in E' as (_ & a & -> & _). split; [by destruct (w =? 0)|by exists a].
  - apply varint32_split in E as (Hv & a & -> & _). split; [lia|by exists a].
  - destruct (varint32 bs) as [[w r']|] eqn:E'; [|done]. injection E as <- <-.
    apply varint32_split in E' as (_ & a & -> & _). unfold WireZigZagDecode32.
    match goal with |- context [s32 ?x] => pose proof (swrap_range 32 x ltac:(lia)) end.
    split; [simpl in *; lia|by exists a].
Qed.

(** * Unknown fields *)

Lemma tag_split tag : 0 <= tag < 2 ^ 32 ->
  number_ok (GetTagFieldNumber tag) = true /\
  MakeTag (GetTagFieldNumber tag) (GetTagWireType tag) = tag.
Proof.
  intros Ht.
  assert (GetTagFieldNumber tag = tag / 8) as En.
  { unfold GetTagFieldNumber. rewrite Z.shiftr_div_pow2 by lia. change (2 ^ 3) with 8.
    apply s32_small. split; [pose proof (Z.div_pos tag 8); lia|apply Z.div_lt_upper_bound; lia]. }
  assert (number_ok (GetTagFieldNumber tag) = true) as Hn.
  { rewrite En. unfold number_ok. apply andb_true_iff. split.
    - apply Z.leb_le, Z.div_pos; lia.
    - apply Z.ltb_lt, Z.div_lt_upper_bound; lia. }
  split; [done|]. rewrite MakeTag_val by (done || apply wire_type_range). rewrite En.
  unfold GetTagWireType. rewrite (Z.land_ones _ 3) by lia. change (2 ^ 3) with 8.
  pose proof (Z.div_mod tag 8). lia.
Qed.

Definition unknown_field_typed (n : nat) : Prop :=
  forall depth tag bs u r, 0 <= tag < 2 ^ 32 -> tag <> 0 -> Forall is_byte bs ->
  unknown_field n depth tag bs = Some (u, r) ->
  unknown_ok depth u = true /\ u_tag u = tag /\ exists a, bs = a ++ r.

Definition unknown_group_typed (n : nat) : Prop :=
  forall depth bs us t r, Forall is_byte bs -> unknown_group n depth bs = Some (us, t, r) ->
  forallb (unknown_ok depth) us = true /\ exists a, bs = a ++ r.

Lemma unknown_ok_intro depth u tag : 0 <= tag < 2 ^ 32 -> tag <> 0 ->
  u_number u = GetTagFieldNumber tag -> u_type u = GetTagWireType tag ->
  match u with
  | UVarint _ v | UFixed64 _ v => (0 <=? v) && (v <? 2 ^ 64)
  | UFixed32 _ v => (0 <=? v) && (v <? 2 ^ 32)
  | ULengthDelimited _ v => str_ok v
  | UGroup _ us => (depth + 1 <=? default_recursion_limit_) && forallb (unknown_ok (depth + 1)) us
  end = true ->
  unknown_ok depth u = true /\ u_tag u = tag.
Proof.
  intros Ht Hz En Ey Hv. destruct (tag_split tag Ht) as [Hn Hm].
  assert (u_tag u = tag) as Eu by (unfold u_tag; by rewrite En, Ey).
  split; [|done].
  destruct u; cbn [unknown_ok]; rewrite Eu; apply andb_true_iff; (split; [|exact Hv]);
  rewrite En, Hn; by destruct (Z.eqb_spec tag 0).
Qed.

Lemma unknown_group_step n : unknown_field_typed n -> unknown_group_typed n ->
  unknown_group_typed (S n).
Proof.
  intros IHf IHg depth bs us t r Hb E. cbn [unknown_group] in E.
  destruct (varint32 bs) as [[tag r1]|] eqn:Ev; [|done].
  apply varint32_split in Ev as (Ht & a & -> & _). apply Forall_app in Hb as [_ Hb].
  destruct (Z.eqb_spec tag 0); [done|].
  destruct (GetTagWireType tag =? WIRETYPE_END_GROUP).
  { injection E as <- _ <-. split; [done|]. by exists a. }
  destruct (unknown_field n depth tag r1) as [[u r2]|] eqn:Eu; [|done].
  destruct (IHf _ _ _ _ _ Ht n0 Hb Eu) as (Hok & _ & a2 & ->).
  apply Forall_app in Hb as [_ Hb].
  destruct (unknown_group n depth r2) as [[[us2 t2] r3]|] eqn:Eg; [|done].
  destruct (IHg _ _ _ _ _ Hb Eg) as (Hoks & a3 & ->). injection E as <- _ <-.
  split; [simpl; by rewrite Hok|]. exists (a ++ a2 ++ a3). by rewrite !app_assoc.
Qed.

Lemma unknown_field_step n : unknown_group_typed n -> unknown_field_typed (S n).
Proof.
  intros IH depth tag bs u r Ht Hz Hb E. cbn [unknown_field] in E.
  pose proof (wire_type_range tag) as Hw.
  remember (GetTagWireType tag) as ty eqn:Ety.
  assert (ty = 0 \/ ty = 1 \/ ty = 2 \/ ty = 3 \/ ty = 4 \/ ty = 5 \/ ty = 6 \/ ty = 7)
    as Hty by lia.
  destruct Hty as [->|[->|[->|[->|[->|[->|[->| ->]]]]]]]; try done.
  - apply map_fst_some in E as (v & E & ->). apply varint64_split in E as [Hv He].
    destruct (unknown_ok_intro depth (UVarint (GetTagFieldNumber tag) v) tag Ht Hz eq_refl Ety);
      [lia|done].
  - apply map_fst_some in E as (v & E & ->). apply little_endian_split in E as [Hv He]; [|done].
    destruct (unknown_ok_intro depth (UFixed64 (GetTagFieldNumber tag) v) tag Ht Hz eq_refl Ety);
      [lia|done].
  - apply map_fst_some in E as (v & E & ->). apply string_split in E as (Hv & a & -> & _); [|done].
    destruct (unknown_ok_intro depth (ULengthDelimited (GetTagFieldNumber tag) v) tag Ht Hz
      eq_refl Ety Hv). split; [done|]. split; [done|by exists a].
  - destruct (depth + 1 <=? default_recursion_limit_) eqn:Ed; [|done].
    destruct (unknown_group n (depth + 1) bs) as [[[us t] r']|] eqn:Eg; [|done].
    destruct (IH _ _ _ _ _ Hb Eg) as [Hus He].
    destruct (t =? MakeTag (GetTagFieldNumber tag) WIRETYPE_END_GROUP); [|done].
    injection E as <- <-.
    destruct (unknown_ok_intro depth (UGroup (GetTagFieldNumber tag) us) tag Ht Hz eq_refl Ety);
      [by rewrite Ed, Hus|done].
  - apply map_fst_some in E as (v & E & ->). apply little_endian_split in E as [Hv He]; [|done].
    destruct (unknown_ok_intro depth (UFixed32 (GetTagFieldNumber tag) v) tag Ht Hz eq_refl Ety);
      [lia|done].
Qed.

Lemma unknown_typed n : unknown_field_typed n /\ unknown_group_typed n.
Proof.
  induction n as [|n [IHf IHg]]; [done|].
  split; [by apply unknown_field_step|by apply unknown_group_step].
Qed.

(** * Messages *)

Section Class.
Context (K : message_class).
Hypothesis HK : class_facts K.

Lemma case_write_in c : c ∈ k_cases K -> case_write c ∈ k_writes K.
Proof. intros Hc. rewrite <- (f_link _ HK). by apply list_elem_of_fmap_2. Qed.

Lemma members_assign_eq i v msg : (i < length (members msg))%nat ->
  members (assign i v msg) !! i = Some v.
Proof. intros. by apply list_lookup_insert_eq. Qed.

Lemma facts_change msg w v b : msg_facts K msg -> w ∈ k_writes K ->
  let i := w_member w in
  let msg' := (if b : bool then set_has i (assign i v msg) else assign i v msg) in
  wf_member msg' w = true -> msg_facts K msg'.
Proof.
  intros Hm Hw i msg' Hwf. pose proof (member_bound K HK w Hw) as Hi. fold i in Hi.
  constructor.
  - rewrite <- (m_length _ _ Hm). unfold msg'. destruct b; apply length_insert.
  - intros w' Hw'. destruct (decide (w_member w' = i)) as [E|E].
    + by rewrite (member_inj K HK w' w Hw' Hw E).
    + pose proof (m_member _ _ Hm w' Hw') as H. unfold wf_member in *.
      assert (members msg' !! w_member w' = members msg !! w_member w') as ->
        by (unfold msg'; destruct b; by apply list_lookup_insert_ne).
      assert (has (w_member w') msg' = has (w_member w') msg) as ->; [|done].
      unfold msg'. destruct b; [|done].
      by rewrite has_set_has, bool_decide_eq_false_2, orb_false_r by done.
  - pose proof (m_bits _ _ Hm) as Hb. unfold msg'. destruct b; [|done].
    cbn [set_has assign has_bits_]. apply lor_range; [lia|done|].
    rewrite Z.shiftl_mul_pow2 by lia. rewrite Z.mul_1_l. split; [lia|].
    apply Z.pow_lt_mono_r; lia.
  - intros u Hu. apply (m_unknown _ _ Hm). unfold msg' in Hu. by destruct b.
Qed.

Lemma get_rep_ok msg w : msg_facts K msg -> w ∈ k_writes K -> w_repeated w = true ->
  forallb str_ok (get_rep (w_member w) msg) = true /\ has (w_member w) msg = false.
Proof.
  intros Hm Hw Hr. pose proof (m_member _ _ Hm w Hw) as H. unfold wf_member, get_rep in *.
  destruct (members msg !! w_member w) as [[v|v|l]|]; [by rewrite Hr in H..| |done].
  repeat (apply andb_true_iff in H as [H ?]). split; [done|]. by apply negb_true_iff.
Qed.

Lemma has_set_same i msg : has i (set_has i msg) = true.
Proof. rewrite has_set_has, bool_decide_eq_true_2 by done. apply orb_true_r. Qed.

Lemma update_field_typed c bs msg msg' r : c ∈ k_cases K -> Forall is_byte bs ->
  msg_facts K msg -> update_field c bs msg = Some (msg', r) ->
  msg_facts K msg' /\ exists a, bs = a ++ r.
Proof.
  intros Hc Hb Hm E. pose proof (case_write_in c Hc) as Hw.
  pose proof (member_bound K HK _ Hw) as Hi. rewrite <- (m_length _ _ Hm) in Hi.
  cbn [case_write w_member] in Hi. unfold update_field in E.
  destruct (is_string (c_type c)) eqn:Es.
  - destruct (string_of bs) as [[v r']|] eqn:Ev; [|done]. injection E as <- <-.
    apply string_split in Ev as (Hv & a & -> & _); [|done]. split; [|by exists a].
    destruct (c_repeated c) eqn:Er.
    + apply (facts_change msg (case_write c) _ false Hm Hw).
      destruct (get_rep_ok msg (case_write c) Hm Hw Er) as [Hrep Hhas].
      unfold wf_member. cbn [case_write w_member w_repeated w_type] in *.
      rewrite members_assign_eq, has_assign by done.
      rewrite forallb_app, Hrep, Er, Es, Hhas. simpl. by rewrite Hv.
    + apply (facts_change msg (case_write c) (VStr v) true Hm Hw).
      unfold wf_member. cbn [case_write w_member w_repeated w_type].
      change (members (set_has ?i ?x)) with (members x).
      by rewrite members_assign_eq, has_set_same, Er, Es, Hv by done.
  - destruct (primitive_of (c_type c) bs) as [[v r']|] eqn:Ev; [|done]. injection E as <- <-.
    apply primitive_split in Ev as (Hv & He); [|done]. split; [|done].
    apply (facts_change msg (case_write c) (VInt v) true Hm Hw).
    assert (c_repeated c = false) as Er.
    { destruct (c_repeated c) eqn:Er; [|done].
      destruct (f_writes _ HK _ Hw) as [_ H]. specialize (H Er). simpl in H. congruence. }
    unfold wf_member. cbn [case_write w_member w_repeated w_type].
    change (members (set_has ?i ?x)) with (members x).
    by rewrite members_assign_eq, has_set_same, Er, Es, Hv by done.
Qed.

Lemma decode_field_typed t bs msg msg' r : 0 <= t < 2 ^ 32 -> stops t = false ->
  Forall is_byte bs -> msg_facts K msg -> decode_field K t bs msg = Some (msg', r) ->
  msg_facts K msg' /\ exists a, bs = a ++ r.
Proof.
  intros Ht Hs Hb Hm E. unfold decode_field in E.
  destruct (case_of_tag t (k_cases K)) as [c|] eqn:Ec.
  - apply (update_field_typed c bs msg); try done. by apply find_in in Ec as [? _].
  - apply map_fst_some in E as (u & E & ->).
    assert (t <> 0) as Hz by (by intros ->).
    destruct (proj1 (unknown_typed _) _ _ _ _ _ Ht Hz Hb E) as (Hok & Eu & He).
    split; [|done]. destruct Hm as [H1 H2 H3 H4]. constructor; try done.
    intros u' [Hu'|Hu']%elem_of_app; [by apply H4|]. apply list_elem_of_singleton in Hu' as ->.
    unfold unknown_to. by rewrite Hok, Eu, Ec.
Qed.

Lemma decode_fields_typed n bs msg msg' : Forall is_byte bs -> msg_facts K msg ->
  decode_fields n K bs msg = Some msg' -> msg_facts K msg'.
Proof.
  revert bs msg. induction n as [|n IH]; intros bs msg Hb Hm E; [done|]. simpl in E.
  destruct bs as [|b bs]; [by injection E as <-|].
  destruct (varint32 (b :: bs)) as [[t r]|] eqn:Ev; [|done].
  apply varint32_split in Ev as (Ht & a & Ea & _). rewrite Ea in Hb.
  apply Forall_app in Hb as [_ Hb]. destruct (stops t) eqn:Es; [done|].
  destruct (decode_field K t r msg) as [[msg1 r1]|] eqn:Ed; [|done].
  destruct (decode_field_typed _ _ _ _ _ Ht Es Hb Hm Ed) as (Hm1 & a1 & ->).
  apply Forall_app in Hb as [_ Hb]. by apply (IH r1 msg1).
Qed.

(** The fuel of the reference decoder does not matter when there is enough. *)
Lemma decode_field_shorter t bs msg msg' r : 0 <= t < 2 ^ 32 -> stops t = false ->
  Forall is_byte bs -> decode_field K t bs msg = Some (msg', r) ->
  (length r <= length bs)%nat /\ Forall is_byte r.
Proof.
  intros Ht Hs Hb E. unfold decode_field in E.
  cut (exists a, bs = a ++ r).
  { intros (a & ->). apply Forall_app in Hb as [_ Hb]. rewrite length_app. split; [lia|done]. }
  destruct (case_of_tag t (k_cases K)) as [c|].
  - unfold update_field in E. destruct (is_string (c_type c)).
    + destruct (string_of bs) as [[v r']|] eqn:Ev; [|done]. injection E as _ <-.
      apply string_split in Ev as (_ & a & -> & _); [by exists a|done].
    + destruct (primitive_of (c_type c) bs) as [[v r']|] eqn:Ev; [|done]. injection E as _ <-.
      by apply primitive_split in Ev as [_ He].
  - apply map_fst_some in E as (u & E & ->).
    assert (t <> 0) as Hz by (by intros ->).
    by destruct (proj1 (unknown_typed _) _ _ _ _ _ Ht Hz Hb E) as (_ & _ & He).
Qed.

Lemma decode_fields_fuel k1 k2 bs msg : Forall is_byte bs ->
  (length bs < k1)%nat -> (length bs < k2)%nat ->
  decode_fields k1 K bs msg = decode_fields k2 K bs msg.
Proof.
  revert k2 bs msg. induction k1 as [|k1 IH]; intros k2 bs msg Hb H1 H2; [lia|].
  destruct k2 as [|k2]; [lia|]. simpl. destruct bs as [|b bs]; [done|].
  destruct (varint32 (b :: bs)) as [[t r]|] eqn:Ev; [|done].
  apply varint32_split in Ev as (Ht & a & Ea & Ha). rewrite Ea in Hb, H1, H2.
  rewrite length_app in H1, H2. apply Forall_app in Hb as [_ Hb].
  destruct (stops t) eqn:Es; [done|].
  destruct (decode_field K t r msg) as [[msg1 r1]|] eqn:Ed; [|done].
  destruct (decode_field_shorter _ _ _ _ _ Ht Es Hb Ed) as [Hl Hb1].
  apply IH; [done|lia|lia].
Qed.

(** One field is decoded, then the rest. *)
Lemma decode_message_step bs msg t r msg' r' : Forall is_byte bs ->
  varint32 bs = Some (t, r) -> stops t = false -> decode_field K t r msg = Some (msg', r') ->
  decode_message K bs msg = decode_message K r' msg'.
Proof.
  intros Hb Ev Es Ed. unfold decode_message. rewrite (decode_fields_cons K _ bs msg t r Ev Es), Ed.
  apply varint32_split in Ev as (Ht & a & -> & Ha). apply Forall_app in Hb as [_ Hb].
  destruct (decode_field_shorter _ _ _ _ _ Ht Es Hb Ed) as [Hl Hb1].
  apply decode_fields_fuel; [done| |lia]. rewrite length_app. lia.
Qed.
End Class.

Section Class.
Context (K : message_class).
Hypothesis HK : class_facts K.

(** * The bytes of a field *)

Lemma wire_type_of_range t : 0 <= wire_type_of t < 8 /\ wire_type_of t <> WIRETYPE_END_GROUP.
Proof. by destruct t. Qed.

Lemma write_case w : w ∈ k_writes K -> exists c, c ∈ k_cases K /\ w = case_write c /\
  c_tag c = MakeTag (w_number w) (wire_type_of (w_type w)).
Proof.
  intros Hw. rewrite <- (f_link _ HK) in Hw. apply list_elem_of_fmap_1 in Hw as (c & -> & Hc).
  exists c. split; [done|]. split; [done|].
  pose proof (wf_case_in K (f_cases _ HK) c Hc) as H. unfold wf_case in H.
  repeat (apply andb_true_iff in H as [H ?]). by apply Z.eqb_eq.
Qed.

(** A tag and a value, in front of anything, are decoded as the field. *)
Lemma decode_written w payload rest msg msg' : w ∈ k_writes K ->
  Forall is_byte (payload ++ rest) ->
  (forall c, c ∈ k_cases K -> w = case_write c -> update_field c (payload ++ rest) msg = Some (msg', rest)) ->
  decode_message K ((WriteTagToArray (w_number w) (wire_type_of (w_type w)) ++ payload) ++ rest) msg =
  decode_message K rest msg'.
Proof.
  intros Hw Hb Hu. destruct (write_case w Hw) as (c & Hc & Ew & Et).
  destruct (f_writes _ HK w Hw) as [Hn _]. pose proof (wire_type_of_range (w_type w)) as [Hy Hne].
  rewrite <- app_assoc. eapply (decode_message_step K).
  - apply Forall_app. split; [by apply tag_bytes|done].
  - by apply tag_trip.
  - rewrite <- Et. by apply (case_tag_bounds K (f_cases _ HK)).
  - unfold decode_field. rewrite <- Et, (case_tag_of K (f_cases _ HK) c Hc). by apply Hu.
Qed.

Lemma write_field_bytes from w : wf_member from w = true -> w ∈ k_writes K ->
  Forall is_byte (write_field from w).
Proof.
  intros Hm Hw. destruct (f_writes _ HK w Hw) as [Hn _].
  pose proof (wire_type_of_range (w_type w)) as [Hy _].
  unfold write_field, wf_member, get_rep, get_str, get_int in *.
  destruct (members from !! w_member w) as [[v|v|l]|]; [..|done];
  repeat (apply andb_true_iff in Hm as [Hm ?]).
  - apply negb_true_iff in Hm as ->. match goal with H : negb (is_string _) = true |- _ =>
      apply negb_true_iff in H; rewrite H, write_int_split by done end.
    destruct (has (w_member w) from); [|constructor].
    apply Forall_app. split; [by apply tag_bytes|by apply int_payload_bytes].
  - apply negb_true_iff in Hm as ->. match goal with H : is_string _ = true |- _ =>
      rewrite H, write_str_split by done end.
    destruct (has (w_member w) from); [|constructor].
    apply Forall_app. split; [by apply tag_bytes|by apply str_payload_bytes].
  - rewrite Hm. match goal with H : forallb str_ok _ = true |- _ => rename H into Hl end.
    induction l as [|v l IH]; [constructor|]. cbn [fmap list_fmap mjoin list_join].
    simpl in Hl. apply andb_true_iff in Hl as [Hv Hl].
    apply Forall_app. split; [|by apply IH].
    rewrite write_str_split by done. apply Forall_app.
    split; [by apply tag_bytes|by apply str_payload_bytes].
Qed.

(** A repeated field: one element after the other. *)
Lemma decode_repeated w l rest msg : w ∈ k_writes K -> w_repeated w = true ->
  is_string (w_type w) = true -> forallb str_ok l = true -> Forall is_byte rest ->
  kind_ok msg w ->
  decode_message K (mjoin ((fun v => write_str (w_type w) (w_number w) v) <$> l) ++ rest) msg =
  decode_message K rest (assign (w_member w) (VRep (get_rep (w_member w) msg ++ l)) msg).
Proof.
  intros Hw Hr Hs Hl Hb. revert msg. induction l as [|v l IH]; intros msg Hk.
  - unfold kind_ok in Hk. cbn [fmap list_fmap mjoin list_join app].
    rewrite app_nil_r. f_equal. unfold assign, get_rep.
    destruct (members msg !! w_member w) as [[v|v|l]|] eqn:E; [destruct Hk; congruence..| |done].
    rewrite list_insert_id by done. by destruct msg.
  - cbn [fmap list_fmap mjoin list_join]. simpl in Hl. apply andb_true_iff in Hl as [Hv Hl].
    rewrite write_str_split by done. rewrite <- (app_assoc _ _ rest).
    set (more := mjoin _ ++ rest).
    assert (Forall is_byte more) as Hmore.
    { apply Forall_app. split; [|done]. destruct (f_writes _ HK w Hw) as [Hn _].
      pose proof (wire_type_of_range (w_type w)) as [Hy _]. clear -Hl Hn Hy Hs.
      induction l as [|v l IH]; [constructor|]. simpl in Hl. apply andb_true_iff in Hl as [Hv Hl].
      cbn [fmap list_fmap mjoin list_join]. rewrite write_str_split by done.
      rewrite !Forall_app. repeat split; [by apply tag_bytes|by apply str_payload_bytes|by apply IH]. }
    set (i := w_member w) in *.
    rewrite (decode_written w (str_payload v) more msg (assign i (VRep (get_rep i msg ++ [v])) msg)).
    + unfold more. assert (i < length (members msg))%nat as Hi.
      { unfold kind_ok in Hk. fold i in Hk. destruct (members msg !! i) eqn:E; [|done].
        by eapply lookup_lt_Some. }
      rewrite IH.
      * f_equal. unfold assign, get_rep. cbn [members has_bits_ unknown_fields_ cached_size_].
        rewrite list_lookup_insert_eq by done. rewrite list_insert_insert_eq, <- app_assoc. done.
      * done.
      * unfold kind_ok. fold i. by rewrite members_assign_eq.
    + done.
    + apply Forall_app. split; [by apply str_payload_bytes|done].
    + intros c Hc ->. unfold update_field. cbn [case_write w_type w_repeated w_member] in *.
      by rewrite Hs, string_trip, Hr.
Qed.

(** A field of [from], whatever it is. *)
Lemma decode_write_field from w rest msg : w ∈ k_writes K -> wf_member from w = true ->
  Forall is_byte rest -> kind_ok msg w ->
  decode_message K (write_field from w ++ rest) msg =
  decode_message K rest (merge_one from msg (w_member w)).
Proof.
  intros Hw Hm Hb Hk. pose proof Hm as Hm'.
  unfold write_field, wf_member, merge_one, get_rep, get_str, get_int in *.
  destruct (members from !! w_member w) as [[v|v|l]|]; [..|done];
  repeat (apply andb_true_iff in Hm as [Hm ?]).
  - apply negb_true_iff in Hm as Er. rewrite Er.
    match goal with H : negb (is_string _) = true |- _ => apply negb_true_iff in H as Es end.
    rewrite Es, write_int_split by done. destruct (has (w_member w) from); [|done].
    apply decode_written; [done|apply Forall_app; split; [by apply int_payload_bytes|done]|].
    intros c Hc ->. unfold update_field. cbn [case_write w_type w_repeated w_member] in *.
    by rewrite Es, primitive_trip by done.
  - apply negb_true_iff in Hm as Er. rewrite Er.
    match goal with H : is_string _ = true |- _ => rename H into Es end.
    rewrite Es, write_str_split by done. destruct (has (w_member w) from); [|done].
    apply decode_written; [done|apply Forall_app; split; [by apply str_payload_bytes|done]|].
    intros c Hc ->. unfold update_field. cbn [case_write w_type w_repeated w_member] in *.
    by rewrite Es, Er, string_trip by done.
  - rewrite Hm. by apply decode_repeated.
Qed.

Lemma merge_one_kind from msg w w' : kind_ok from w -> w ∈ k_writes K -> w' ∈ k_writes K ->
  kind_ok msg w' -> kind_ok (merge_one from msg (w_member w)) w'.
Proof.
  intros Hf Hw Hw' Hk. destruct (decide (w_member w = w_member w')) as [E|Hne].
  - rewrite <- (member_inj K HK w w' Hw Hw' E) in *. clear w' Hw' E.
    unfold kind_ok, merge_one in *.
    assert (w_member w < length (members msg))%nat as Hi.
    { destruct (members msg !! w_member w) eqn:E; [|done]. by eapply lookup_lt_Some. }
    destruct (members from !! w_member w) as [[v|v|l]|]; try done;
    try (destruct (has (w_member w) from); [|done]);
    cbn [set_has assign members]; by rewrite list_lookup_insert_eq.
  - unfold kind_ok. by rewrite (proj1 (merge_one_ne from msg _ _ Hne)).
Qed.

Lemma mjoin_bytes from ws : (forall w, w ∈ ws -> wf_member from w = true /\ w ∈ k_writes K) ->
  Forall is_byte (mjoin (write_field from <$> ws)).
Proof.
  induction ws as [|w ws IH]; intros H; [constructor|]. cbn [fmap list_fmap mjoin list_join].
  apply Forall_app. split.
  - destruct (H w) as [Hm Hw]; [by left|]. by apply write_field_bytes.
  - apply IH. intros w' Hw'. apply H. by right.
Qed.

Lemma decode_writes from ws rest msg : msg_facts K from ->
  (forall w, w ∈ ws -> w ∈ k_writes K) -> Forall is_byte rest -> kinds K msg ->
  decode_message K (mjoin (write_field from <$> ws) ++ rest) msg =
  decode_message K rest (foldl (merge_one from) msg (w_member <$> ws)).
Proof.
  intros Hf. revert msg. induction ws as [|w ws IH]; intros msg Hws Hb Hk; [done|].
  cbn [fmap list_fmap mjoin list_join foldl]. rewrite <- app_assoc.
  assert (w ∈ k_writes K) as Hw by (apply Hws; by left).
  assert (forall w', w' ∈ ws -> w' ∈ k_writes K) as Hws' by (intros w' Hw'; apply Hws; by right).
  rewrite decode_write_field; [|done|by apply (m_member _ _ Hf)| |by apply Hk].
  - apply IH; [done|done|]. intros w' Hw'. apply merge_one_kind; [|done|done|by apply Hk].
    by apply wf_member_kind, (m_member _ _ Hf).
  - apply Forall_app. split; [|done]. apply mjoin_bytes. intros w' Hw'.
    split; [|by apply Hws']. apply (m_member _ _ Hf). by apply Hws'.
Qed.

(** * Unknown fields *)

Lemma unknown_to_parts u : unknown_to K u = true ->
  unknown_ok 0 u = true /\ case_of_tag (u_tag u) (k_cases K) = None.
Proof.
  unfold unknown_to. intros H. apply andb_true_iff in H as [H1 H2]. split; [done|].
  by destruct (case_of_tag _ _).
Qed.

Lemma unknown_fields_bytes us : (forall u, u ∈ us -> unknown_to K u = true) ->
  Forall is_byte (SerializeUnknownFieldsToArray us).
Proof.
  intros H. unfold SerializeUnknownFieldsToArray. induction us as [|u us IH]; [constructor|].
  cbn [fmap list_fmap mjoin list_join]. apply Forall_app. split.
  - eapply unknown_payload_bytes. apply unknown_to_parts, H. by left.
  - apply IH. intros u' Hu'. apply H. by right.
Qed.

Lemma decode_unknown us rest msg : (forall u, u ∈ us -> unknown_to K u = true) ->
  Forall is_byte rest ->
  decode_message K (SerializeUnknownFieldsToArray us ++ rest) msg =
  decode_message K rest (set_unknown (unknown_fields_ msg ++ us) msg).
Proof.
  intros H Hr. revert msg. induction us as [|u us IH]; intros msg.
  - rewrite app_nil_r. by destruct msg.
  - assert (SerializeUnknownFieldsToArray (u :: us) =
            SerializeUnknownFieldToArray u ++ SerializeUnknownFieldsToArray us) as -> by done.
    destruct (unknown_to_parts u) as [Hok Hc]; [apply H; by left|].
    assert (forall u', u' ∈ us -> unknown_to K u' = true) as H' by (intros u' Hu'; apply H; by right).
    destruct (unknown_ok_number _ _ Hok) as [Hn Hz].
    rewrite <- app_assoc. set (more := SerializeUnknownFieldsToArray us ++ rest).
    assert (Forall is_byte (SerializeUnknownFieldToArray u ++ more)) as Hb.
    { apply Forall_app. split; [by eapply unknown_payload_bytes|].
      apply Forall_app. split; [by apply unknown_fields_bytes|done]. }
    rewrite serialize_unknown_split, <- app_assoc in *.
    rewrite (decode_message_step K _ msg (u_tag u) (u_payload u ++ more) (add_unknown u msg) more).
    + unfold more. rewrite IH by done. f_equal. unfold add_unknown, set_unknown. simpl.
      by rewrite <- app_assoc.
    + done.
    + unfold u_tag. by apply tag_trip, u_type_range.
    + unfold stops. destruct (Z.eqb_spec (u_tag u) 0); [done|]. unfold u_tag.
      rewrite GetTagWireType_Make by (done || apply u_type_range). by destruct u.
    + unfold decode_field. rewrite Hc. by rewrite (unknown_trip u 0 Hok) by done.
Qed.

(** * The round trip *)

Lemma serialize_bytes from : msg_facts K from ->
  Forall is_byte (SerializeWithCachedSizesToArray K from).
Proof.
  intros Hf. apply Forall_app. split.
  - apply mjoin_bytes. intros w Hw. split; [by apply (m_member _ _ Hf)|done].
  - apply unknown_fields_bytes, (m_unknown _ _ Hf).
Qed.

(** Reading what was written merges it, whatever follows. *)
Lemma decode_serialize from rest msg : msg_facts K from -> kinds K msg -> 0 <= has_bits_ msg ->
  Forall is_byte rest ->
  decode_message K (SerializeWithCachedSizesToArray K from ++ rest) msg =
  decode_message K rest (MergeFrom K from msg).
Proof.
  intros Hf Hk Hb Hr. unfold SerializeWithCachedSizesToArray. rewrite <- app_assoc.
  rewrite decode_writes; [|done|done| |done].
  - rewrite decode_unknown by (done || apply (m_unknown _ _ Hf)). f_equal.
    rewrite MergeFrom_writes; [|done|by apply wf_msg_kinds|done].
    by destruct (fold_merge_frame from (w_member <$> k_writes K) msg) as (_ & -> & _).
  - apply Forall_app. split; [|done]. apply unknown_fields_bytes, (m_unknown _ _ Hf).
Qed.

(** Merging keeps the kinds of the members. *)
Lemma MergeFrom_kinds from msg : kinds K from -> kinds K msg -> 0 <= has_bits_ msg ->
  kinds K (MergeFrom K from msg) /\ 0 <= has_bits_ (MergeFrom K from msg).
Proof.
  intros Hf Hk Hb. rewrite MergeFrom_writes by done. split; [|by apply fold_merge_bits].
  assert (forall ws, (forall w, w ∈ ws -> w ∈ k_writes K) ->
    kinds K (foldl (merge_one from) msg (w_member <$> ws))) as H; [|exact (H _ ltac:(done))].
  intros ws. revert msg Hk Hb. induction ws as [|w ws IH]; intros msg Hk Hb Hws; [done|].
  simpl. apply IH.
  - intros w' Hw'. apply merge_one_kind; [apply Hf| |done|by apply Hk]; apply Hws; by left.
  - by apply merge_one_bits.
  - intros w' Hw'. apply Hws. by right.
Qed.

(** One member, into a new object. *)
Lemma merge_one_fresh from c w : msg_facts K from -> w ∈ k_writes K ->
  let new := mkmsg 0 (members (k_new K)) [] c in
  let i := w_member w in
  members (merge_one from new i) !! i = members from !! i /\
  has i (merge_one from new i) = has i from.
Proof.
  intros Hf Hw new i. pose proof (proj1 (wf_msg_facts K _) (f_new _ HK)) as Hn.
  destruct (f_fresh _ HK) as (_ & _ & Hz).
  pose proof (m_member _ _ Hf w Hw) as Hm. pose proof (wf_msg_kinds _ _ Hf w Hw) as Hkw.
  pose proof (wf_msg_kinds _ _ Hn w Hw) as Hkn.
  assert (i < length (members new))%nat as Hi.
  { destruct (covers_spec _ _ (f_covers _ HK)) as [_ Hcov].
    assert (i ∈ w_member <$> k_writes K) as Hin by (by apply list_elem_of_fmap_2).
    apply Hcov in Hin. unfold new. cbn [members]. by rewrite (m_length _ _ Hn). }
  unfold merge_one, wf_member, kind_ok in *. fold i in Hm, Hkw, Hkn.
  destruct (members from !! i) as [[v|v|l]|] eqn:Em; [..|done].
  - destruct (has i from) eqn:Eh.
    + rewrite has_set_has, bool_decide_eq_true_2, orb_true_r by done.
      split; [|done]. by apply list_lookup_insert_eq.
    + split; [|by apply Z.bits_0]. repeat (apply andb_true_iff in Hm as [Hm ?]).
      match goal with H : false || (v =? 0) = true |- _ => apply Z.eqb_eq in H as -> end.
      unfold new. cbn [members]. rewrite <- Hz, list_lookup_fmap.
      destruct (members (k_new K) !! i) as [[v|v|l]|]; try done;
      repeat match goal with H : _ /\ _ |- _ => destruct H end; congruence.
  - destruct (has i from) eqn:Eh.
    + rewrite has_set_has, bool_decide_eq_true_2, orb_true_r by done.
      split; [|done]. by apply list_lookup_insert_eq.
    + split; [|by apply Z.bits_0]. repeat (apply andb_true_iff in Hm as [Hm ?]).
      match goal with H : false || bool_decide (v = []) = true |- _ =>
        apply bool_decide_eq_true_1 in H as -> end.
      unfold new. cbn [members]. rewrite <- Hz, list_lookup_fmap.
      destruct (members (k_new K) !! i) as [[v|v|l]|]; try done;
      repeat match goal with H : _ /\ _ |- _ => destruct H end; congruence.
  - rewrite has_assign. apply andb_true_iff in Hm as [_ Hh]. apply negb_true_iff in Hh.
    rewrite Hh. split; [|by apply Z.bits_0].
    transitivity (Some (VRep (get_rep i new ++ l)));
      [by apply list_lookup_insert_eq|]. do 2 f_equal.
    unfold get_rep, new. cbn [members]. rewrite <- Hz, list_lookup_fmap.
    by destruct (members (k_new K) !! i) as [[v'|v'|l']|].
Qed.

(** Into a new object, merging copies. *)
Lemma MergeFrom_fresh from c : msg_facts K from ->
  MergeFrom K from (mkmsg 0 (members (k_new K)) [] c) =
  mkmsg (has_bits_ from) (members from) (unknown_fields_ from) c.
Proof.
  intros Hf. set (new := mkmsg _ _ _ _). pose proof (wf_msg_kinds _ _ Hf) as Hk.
  destruct (fold_merge_frame from (w_member <$> k_writes K) new) as (_ & Hu & Hc).
  rewrite MergeFrom_writes by done. unfold set_unknown.
  destruct (covers_spec _ _ (f_covers _ HK)) as [Hd Hcov].
  pose proof (proj1 (wf_msg_facts K _) (f_new _ HK)) as Hn.
  apply message_ext; cbn [has_bits_ members unknown_fields_ cached_size_];
    [by apply fold_merge_bits|apply (m_bits _ _ Hf)| |done|by rewrite Hc].
  intros j. change (has j (mkmsg ?b _ _ _)) with (Z.testbit b (Z.of_nat j)).
  fold (has j (foldl (merge_one from) new (w_member <$> k_writes K))). fold (has j from).
  destruct (fold_merge_lookup from _ new j Hd) as [-> ->].
  destruct (decide (j ∈ w_member <$> k_writes K)) as [Hj|Hj].
  - apply Hcov in Hj. destruct (write_at K HK j Hj) as (w & Hw & <- & _). by apply merge_one_fresh.
  - rewrite Hcov in Hj. split.
    + unfold new. cbn [members].
      rewrite !(proj2 (lookup_ge_None _ _)); [done|rewrite (m_length _ _ Hf); lia|
        rewrite (m_length _ _ Hn); lia].
    + unfold has, new. cbn [has_bits_]. rewrite Z.bits_0.
      symmetry. apply (zb_high _ (Z.of_nat (length (k_writes K)))); [apply (m_bits _ _ Hf)|lia].
Qed.
End Class.
