(* ===== verification/MsgSize.v ===== *)
(** [Clear] gives back the state of a new object, and [ByteSize] is the number of bytes
    that [SerializeWithCachedSizesToArray] writes. *)

From S2P Require Import Prelude CMem Coded CodedSpec CodedStream CodedWrite Wire Messages WireSpec.
From S2P Require Import MsgSpec WireTrip MsgTables MsgTrip.

Section Class.
Context (K : message_class).
Hypothesis HK : class_facts K.

Lemma elem_of_rev {A} (x : A) l : x ∈ rev l <-> x ∈ l.
Proof. by rewrite !list_elem_of_In, <- in_rev. Qed.

(** * [Clear] *)

Lemma zero_value_twice v : zero_value (zero_value v) = zero_value v.
Proof. by destruct v. Qed.

(** A member whose has-bit is not set holds its default. *)
Lemma default_member msg i w : msg_facts K msg -> write_of K i = Some w -> w_repeated w = false ->
  has i msg = false -> members msg !! i = zero_value <$> (members msg !! i).
Proof.
  intros Hm E Hr Hh. apply write_of_in in E as [Hw <-]. pose proof (m_member _ _ Hm w Hw) as H.
  unfold wf_member in H. rewrite Hh, Hr in H.
  destruct (members msg !! w_member w) as [[v|v|l]|]; [..|done]; cbn [negb andb orb] in H;
  repeat (apply andb_true_iff in H as [H ?]); cbn [fmap option_fmap option_map zero_value].
  - by match goal with H : (v =? 0) = true |- _ => apply Z.eqb_eq in H as -> end.
  - by match goal with H : bool_decide (v = []) = true |- _ =>
      apply bool_decide_eq_true_1 in H as -> end.
  - done.
Qed.

Section Run.
Context (msg : message).
Hypothesis Hm : msg_facts K msg.

(** The state of a clear: the members in [S] are reset, the others are reset or not. *)
Record cleared (S : list nat) (m' : message) : Prop := {
  c_bits : has_bits_ m' = has_bits_ msg;
  c_cached : cached_size_ m' = cached_size_ msg;
  c_each : forall i, members m' !! i = members msg !! i \/
                     members m' !! i = zero_value <$> (members msg !! i);
  c_done : forall i, i ∈ S -> members m' !! i = zero_value <$> (members msg !! i)
}.

Lemma cleared_start : cleared [] msg.
Proof. constructor; try done; [by left|]. by intros i Hi%not_elem_of_nil. Qed.

(** Resetting one more member, or finding it in its default state. *)
Lemma cleared_add S m' m'' i : cleared S m' ->
  has_bits_ m'' = has_bits_ m' -> cached_size_ m'' = cached_size_ m' ->
  (forall j, j <> i -> members m'' !! j = members m' !! j) ->
  members m'' !! i = zero_value <$> (members msg !! i) ->
  cleared (i :: S) m''.
Proof.
  intros [H1 H2 H3 H4] Hb Hc Hne Hi. constructor; [congruence|congruence| |].
  - intros j. destruct (decide (j = i)) as [->|Hj]; [by right|]. rewrite Hne by done. apply H3.
  - intros j Hj. destruct (decide (j = i)) as [->|Hji]; [done|]. rewrite Hne by done.
    apply H4. by apply elem_of_cons in Hj as [|].
Qed.

Lemma cleared_weaken S S' m' : cleared S m' -> (forall i, i ∈ S' -> i ∈ S) -> cleared S' m'.
Proof. intros [H1 H2 H3 H4] H. constructor; try done. intros i Hi. by apply H4, H. Qed.

Lemma cleared_zero S m' i : cleared S m' -> cleared (i :: S) (zero_member i m').
Proof.
  intros H. unfold zero_member. destruct (members m' !! i) as [v|] eqn:E.
  - apply (cleared_add S m'); [done|done|done| |].
    + intros j Hj. by apply list_lookup_insert_ne.
    + rewrite members_assign_eq by (by eapply lookup_lt_Some).
      destruct (c_each _ _ H i) as [Ei|Ei]; rewrite E in Ei; rewrite <- ?Ei; [done|].
      destruct (members msg !! i) as [v0|]; [|done]. simpl in *. injection Ei as ->.
      by rewrite zero_value_twice.
  - apply (cleared_add S m'); [done|done|done|done|]. rewrite E.
    destruct (c_each _ _ H i) as [Ei|Ei]; rewrite E in Ei; [by rewrite <- Ei|done].
Qed.

Lemma cleared_default S m' i : cleared S m' ->
  members msg !! i = zero_value <$> (members msg !! i) -> cleared (i :: S) m'.
Proof.
  intros H Hd. apply (cleared_add S m'); [done|done|done|done|].
  destruct (c_each _ _ H i) as [Ei|Ei]; [congruence|done].
Qed.

Lemma cleared_span S m' l : cleared S m' ->
  cleared (rev l ++ S) (foldl (fun m i => zero_member i m) m' l).
Proof.
  revert S m'. induction l as [|i l IH]; intros S m' H; [done|].
  simpl. rewrite <- app_assoc. apply (IH (i :: S)). by apply cleared_zero.
Qed.

Lemma step_mask_default mask st i w : wf_clear_step K (Some mask) st = true ->
  Z.land (has_bits_ msg) mask = 0 -> i ∈ clear_members K st -> write_of K i = Some w ->
  members msg !! i = zero_value <$> (members msg !! i).
Proof.
  intros Hs Ez Hi Ew. apply (default_member msg i w Hm Ew).
  - destruct st as [first last|j|j|j]; cbn [wf_clear_step clear_members] in *; try done.
    + pose proof (forallb_elem _ _ _ Hs Hi) as H. cbv beta in H. rewrite Ew in H.
      repeat (apply andb_true_iff in H as [H ?]). by apply negb_true_iff.
    + pose proof (forallb_elem _ _ _ Hs Hi) as H. cbv beta in H. rewrite Ew in H.
      repeat (apply andb_true_iff in H as [H ?]). by apply negb_true_iff.
    + apply list_elem_of_singleton in Hi as ->. rewrite Ew in Hs.
      repeat (apply andb_true_iff in Hs as [Hs ?]). by apply negb_true_iff.
  - apply (mask_has msg mask i Ez).
    destruct st as [first last|j|j|j]; cbn [wf_clear_step clear_members] in *; try done.
    + pose proof (forallb_elem _ _ _ Hs Hi) as H. cbv beta in H. by apply andb_true_iff in H as [_ H].
    + pose proof (forallb_elem _ _ _ Hs Hi) as H. cbv beta in H. by apply andb_true_iff in H as [_ H].
    + apply list_elem_of_singleton in Hi as ->. rewrite Ew in Hs.
      by apply andb_true_iff in Hs as [_ Hs].
Qed.

Lemma step_member mask st i : wf_clear_step K mask st = true -> i ∈ clear_members K st ->
  exists w, write_of K i = Some w.
Proof.
  intros Hs Hi. destruct st as [first last|j|j|j]; cbn [wf_clear_step clear_members] in *.
  - pose proof (forallb_elem _ _ _ Hs Hi) as H. cbv beta in H. destruct (write_of K i); [by eexists|done].
  - pose proof (forallb_elem _ _ _ Hs Hi) as H. cbv beta in H. destruct (write_of K i); [by eexists|done].
  - apply list_elem_of_singleton in Hi as ->. destruct (write_of K j); [by eexists|done].
  - apply list_elem_of_singleton in Hi as ->. destruct mask; [done|].
    unfold is_repeated in Hs. destruct (write_of K j); [by eexists|done].
Qed.

Lemma cleared_step mask st S m' : wf_clear_step K mask st = true -> cleared S m' ->
  cleared (rev (clear_members K st) ++ S) (run_clear_step (k_layout K) st m').
Proof.
  intros Hs H. destruct st as [first last|i|i|i]; cbn [run_clear_step clear_members].
  - by apply cleared_span.
  - by apply cleared_zero.
  - assert (exists w, write_of K i = Some w /\ is_string (w_type w) = true /\
      w_repeated w = false) as (w & Ew & Es & Er).
    { cbn [wf_clear_step] in Hs. destruct (write_of K i) as [w|]; [|done].
      repeat (apply andb_true_iff in Hs as [Hs ?]). exists w. by rewrite <- negb_true_iff. }
    pose proof (kind_of_write K msg i w (wf_msg_kinds _ _ Hm) Ew) as Hk.
    destruct (has i m') eqn:Eh.
    + assert (i < length (members m'))%nat as Hi.
      { destruct (c_each _ _ H i) as [Ei|Ei]; destruct (members msg !! i); try done;
        by eapply lookup_lt_Some. }
      apply (cleared_add S m'); [done|done|done| |].
      * intros j Hj. by apply list_lookup_insert_ne.
      * rewrite members_assign_eq by done.
        destruct (members msg !! i) as [[v|v|l]|]; [destruct Hk; congruence|done|congruence|done].
    + apply cleared_default; [done|]. apply (default_member msg i w Hm Ew Er).
      unfold has in *. by rewrite <- (c_bits _ _ H).
  - destruct mask; [done|]. cbn [wf_clear_step is_repeated] in Hs.
    unfold is_repeated in Hs. destruct (write_of K i) as [w|] eqn:Ew; [|done].
    pose proof (kind_of_write K msg i w (wf_msg_kinds _ _ Hm) Ew) as Hk.
    assert (i < length (members m'))%nat as Hi.
    { destruct (c_each _ _ H i) as [Ei|Ei]; destruct (members msg !! i); try done;
      by eapply lookup_lt_Some. }
    apply (cleared_add S m'); [done|done|done| |].
    + intros j Hj. by apply list_lookup_insert_ne.
    + rewrite members_assign_eq by done.
      destruct (members msg !! i) as [[v|v|l]|]; [destruct Hk; congruence|destruct Hk; congruence|done|done].
Qed.

Lemma cleared_steps mask sts S m' : forallb (wf_clear_step K mask) sts = true -> cleared S m' ->
  cleared (rev (mjoin (clear_members K <$> sts)) ++ S)
    (foldl (fun m st => run_clear_step (k_layout K) st m) m' sts).
Proof.
  revert S m'. induction sts as [|st sts IH]; intros S m' Hs H; [done|].
  simpl in Hs. apply andb_true_iff in Hs as [Hst Hs].
  cbn [fmap list_fmap mjoin list_join foldl]. rewrite rev_app_distr, <- app_assoc.
  apply IH; [done|]. by apply (cleared_step mask).
Qed.

Lemma cleared_group g S m' : forallb (wf_clear_step K (fst g)) (snd g) = true -> cleared S m' ->
  cleared (rev (mjoin (clear_members K <$> snd g)) ++ S) (run_clear_group (k_layout K) g m').
Proof.
  intros Hs H. unfold run_clear_group. destruct g as [[mask|] sts]; cbn [fst snd] in *.
  2:{ by apply (cleared_steps None). }
  destruct (Z.eqb_spec (Z.land (has_bits_ m') mask) 0) as [Ez|]; [|by apply (cleared_steps (Some mask))].
  rewrite (c_bits _ _ H) in Ez. destruct H as [H1 H2 H3 H4]. constructor; try done.
  intros i Hi. apply elem_of_app in Hi as [Hi|Hi]; [|by apply H4].
  apply elem_of_rev, list_elem_of_join in Hi as (l & Hi & Hl).
  apply list_elem_of_fmap_1 in Hl as (st & -> & Hst).
  pose proof (forallb_elem _ _ _ Hs Hst) as Hw.
  destruct (step_member _ _ _ Hw Hi) as [w Ew].
  pose proof (step_mask_default mask st i w Hw Ez Hi Ew) as Hd.
  destruct (H3 i) as [Ei|Ei]; [congruence|done].
Qed.

Lemma cleared_groups gs S m' :
  forallb (fun g => forallb (wf_clear_step K (fst g)) (snd g)) gs = true -> cleared S m' ->
  cleared (rev (mjoin ((fun g => mjoin (clear_members K <$> snd g)) <$> gs)) ++ S)
    (foldl (fun m g => run_clear_group (k_layout K) g m) m' gs).
Proof.
  revert S m'. induction gs as [|g gs IH]; intros S m' Hs H; [done|].
  simpl in Hs. apply andb_true_iff in Hs as [Hg Hs].
  cbn [fmap list_fmap mjoin list_join foldl]. rewrite rev_app_distr, <- app_assoc.
  apply IH; [done|]. by apply cleared_group.
Qed.

(** Every member of the object is the one of a new object. *)
Lemma Clear_new_object :
  Clear K msg = mkmsg 0 (members (k_new K)) [] (cached_size_ msg).
Proof.
  unfold Clear.
  pose proof (cleared_groups (k_clear K) [] msg (f_clear _ HK) cleared_start) as H.
  set (m' := foldl _ msg (k_clear K)) in *. cbv zeta.
  rewrite (c_cached _ _ H). f_equal. apply list_eq. intros i.
  destruct (f_fresh _ HK) as (_ & _ & Hz).
  pose proof (wf_msg_facts K (k_new K)) as [Hn _]. specialize (Hn (f_new _ HK)).
  destruct (covers_spec _ _ (f_clear_covers _ HK)) as [_ Hc].
  destruct (decide (i < length (k_writes K))%nat) as [Hi|Hi].
  - rewrite (c_done _ _ H) by (rewrite app_nil_r; by apply elem_of_rev, Hc).
    destruct (write_at K HK i Hi) as (w & Hw & <- & Ew).
    pose proof (kind_of_write K msg _ w (wf_msg_kinds _ _ Hm) Ew) as Hk.
    pose proof (kind_of_write K (k_new K) _ w (wf_msg_kinds _ _ Hn) Ew) as Hk'.
    rewrite <- Hz. rewrite list_lookup_fmap.
    destruct (members msg !! w_member w) as [[v|v|l]|], (members (k_new K) !! w_member w) as [[v'|v'|l']|];
      try done; repeat match goal with H : _ /\ _ |- _ => destruct H end; congruence.
  - assert (members (k_new K) !! i = None) as ->
      by (apply lookup_ge_None; rewrite (m_length _ _ Hn); lia).
    assert (members msg !! i = None) as E
      by (apply lookup_ge_None; rewrite (m_length _ _ Hm); lia).
    destruct (c_each _ _ H i) as [->| ->]; by rewrite E.
Qed.
End Run.
(** * [ByteSize] *)

Definition sum_over (f : nat -> Z) (l : list nat) : Z := foldr (fun i total => f i + total) 0 l.

Lemma sum_over_app f l l' : sum_over f (l ++ l') = sum_over f l + sum_over f l'.
Proof. induction l as [|i l IH]; [done|]. simpl. rewrite IH. lia. Qed.

Lemma sum_over_perm f l l' : l ≡ₚ l' -> sum_over f l = sum_over f l'.
Proof. induction 1; simpl; lia. Qed.

Lemma sum_over_same f n l l' : covers n l = true -> covers n l' = true ->
  sum_over f l = sum_over f l'.
Proof.
  intros [Hd Hc]%covers_spec [Hd' Hc']%covers_spec. apply sum_over_perm.
  apply NoDup_Permutation; [done..|]. intros i. by rewrite Hc, Hc'.
Qed.

(** The number of bytes written for a member. *)
Definition field_length (msg : message) (i : nat) : Z :=
  match write_of K i with Some w => Z.of_nat (length (write_field msg w)) | None => 0 end.

Lemma writes_length msg ws : (forall w, w ∈ ws -> w ∈ k_writes K) ->
  Z.of_nat (length (mjoin (write_field msg <$> ws))) = sum_over (field_length msg) (w_member <$> ws).
Proof.
  induction ws as [|w ws IH]; intros H; [done|].
  change (mjoin (write_field msg <$> w :: ws))
    with (write_field msg w ++ mjoin (write_field msg <$> ws)).
  change (sum_over (field_length msg) (w_member <$> w :: ws))
    with (field_length msg (w_member w) + sum_over (field_length msg) (w_member <$> ws)).
  rewrite length_app, Nat2Z.inj_add, IH by (intros w' Hw'; apply H; by right).
  unfold field_length at 2. by rewrite (write_of_member K HK) by (apply H; by left).
Qed.

Lemma int_size t k v : in_range t v = true ->
  match t, k with
  | TYPE_INT32, SInt32 | TYPE_UINT32, SUInt32 | TYPE_UINT64, SUInt64
  | TYPE_SINT32, SSInt32 | TYPE_INT64, SInt64
  | TYPE_STRING, SString | TYPE_BYTES, SBytes => true
  | TYPE_FIXED32, SFixed n | TYPE_FLOAT, SFixed n => n =? 4
  | TYPE_FIXED64, SFixed n => n =? 8
  | TYPE_BOOL, SFixed n => n =? 1
  | _, _ => false
  end = true ->
  forall msg i, get_int i msg = v ->
  size_of_value k i msg = Z.of_nat (length (int_payload t v)).
Proof.
  intros Hr Hk msg i Hi.
  destruct t, k as [n| | | | | | |]; try done; cbn [size_of_value int_payload in_range] in *;
    rewrite ?Hi.
  - by apply Z.eqb_eq in Hk as ->.
  - pose proof (uwrap_range 64 v ltac:(lia)). unfold Int64Size, WriteInt64NoTagToArray.
    by rewrite WriteVarint64ToArray_spec, VarintSize64_spec by lia.
  - unfold UInt64Size, WriteUInt64NoTagToArray.
    by rewrite WriteVarint64ToArray_spec, VarintSize64_spec by lia.
  - unfold Int32Size, WriteInt32NoTagToArray, VarintSize32SignExtended,
      WriteVarint32SignExtendedToArray. destruct (Z.ltb_spec v 0).
    + rewrite u64_negative, WriteVarint64ToArray_spec by lia.
      by rewrite (base128_length 9) by (simpl; lia).
    + pose proof (u32_range v).
      by rewrite WriteVarint32ToArray_spec, VarintSize32_spec by lia.
  - by apply Z.eqb_eq in Hk as ->.
  - by apply Z.eqb_eq in Hk as ->.
  - apply Z.eqb_eq in Hk as ->. unfold WriteBoolNoTagToArray. by destruct (v =? 0).
  - unfold UInt32Size, WriteUInt32NoTagToArray.
    by rewrite WriteVarint32ToArray_spec, VarintSize32_spec by lia.
  - pose proof (WireZigZag_range v ltac:(lia)). unfold SInt32Size, WriteSInt32NoTagToArray.
    by rewrite WriteVarint32ToArray_spec, VarintSize32_spec by lia.
Qed.

Lemma wf_size_length msg f : msg_facts K msg -> wf_size K f = true ->
  has (s_member f) msg = true ->
  s32 (s_tag f + size_of_value (s_value f) (s_member f) msg) = s32 (field_length msg (s_member f)).
Proof.
  intros Hm Hs Hh. unfold wf_size, field_length in *.
  destruct (write_of K (s_member f)) as [w|] eqn:Ew; [|done].
  apply write_of_in in Ew as [Hw Ei].
  apply andb_true_iff in Hs as [Hs Hk]. apply andb_true_iff in Hs as [Hr Ht].
  apply negb_true_iff in Hr. apply Z.eqb_eq in Ht. rewrite Ht.
  pose proof (m_member _ _ Hm w Hw) as H. unfold wf_member in H.
  unfold write_field. rewrite Ei in *. rewrite Hr, Hh in *.
  destruct (members msg !! s_member f) as [[v|v|l]|] eqn:Em; [..|done]; cbn [negb andb orb] in H.
  - rewrite !andb_true_r in H. apply andb_true_iff in H as [Hns Hv]. apply negb_true_iff in Hns.
    rewrite Hns. assert (get_int (s_member f) msg = v) as Eg by (unfold get_int; by rewrite Em).
    rewrite Eg, write_int_split, length_app by done.
    rewrite (int_size (w_type w) (s_value f) v Hv Hk msg (s_member f) Eg). f_equal. lia.
  - rewrite !andb_true_r in H. apply andb_true_iff in H as [Hns Hv].
    rewrite Hns. assert (get_str (s_member f) msg = v) as Eg by (unfold get_str; by rewrite Em).
    rewrite Eg, write_str_split, length_app by done.
    pose proof (str_payload_size v Hv).
    destruct (w_type w), (s_value f); try done; cbn [size_of_value]; unfold StringSize, BytesSize;
    rewrite Eg, s32_add_r; f_equal; lia.
  - done.
Qed.

Lemma repeated_length msg w l : w_repeated w = true -> is_string (w_type w) = true ->
  forallb str_ok l = true -> members msg !! w_member w = Some (VRep l) ->
  forall total tag_size,
  tag_size = Z.of_nat (length (WriteTagToArray (w_number w) (wire_type_of (w_type w)))) ->
  foldl (fun total v => s32 (total + StringSize v)) (s32 (total + s32 (tag_size * Z.of_nat (length l)))) l =
  s32 (total + Z.of_nat (length (write_field msg w))).
Proof.
  intros Hr Hs Hl Em total tag_size ->. unfold write_field, get_rep. rewrite Hr, Em.
  clear Em. rewrite s32_add_r. revert total. induction l as [|v l IH]; intros total; [cbn; f_equal; lia|].
  simpl in Hl. apply andb_true_iff in Hl as [Hv Hl]. pose proof (str_payload_size v Hv).
  set (g := fun v => write_str (w_type w) (w_number w) v) in *.
  change (mjoin (g <$> v :: l)) with (g v ++ mjoin (g <$> l)). cbn [foldl].
  unfold g at 1. rewrite write_str_split, !length_app by done. unfold StringSize at 2.
  rewrite s32_add_r, s32_add_l. match goal with |- foldl ?f (s32 ?a) l = _ => replace a with
    (total + Z.of_nat (length (WriteTagToArray (w_number w) (wire_type_of (w_type w)))) +
     Z.of_nat (length (str_payload v)) +
     Z.of_nat (length (WriteTagToArray (w_number w) (wire_type_of (w_type w)))) *
     Z.of_nat (length l)) by (cbn [length]; lia) end.
  rewrite IH by done. f_equal. lia.
Qed.

Lemma size_step_length msg st total : msg_facts K msg -> wf_size_step K st = true ->
  s32 (run_size_step msg total st) = s32 (total + sum_over (field_length msg) (size_members st)).
Proof.
  intros Hm Hs. destruct st as [mask items|i tag_size]; cbn [run_size_step size_members wf_size_step] in *.
  - assert (forall f, f ∈ items -> has (s_member f) msg = false ->
      field_length msg (s_member f) = 0) as Hno.
    { intros f Hf Hh. pose proof (forallb_elem _ _ _ Hs Hf) as H. cbv beta in H.
      apply andb_true_iff in H as [H _]. unfold in_mask in H. apply andb_true_iff in H as [_ H].
      unfold field_length. destruct (write_of K (s_member f)) as [w|] eqn:Ew; [|done].
      apply write_of_in in Ew as [_ Ei]. apply negb_true_iff in H.
      unfold write_field. by rewrite H, Ei, Hh. }
    destruct (Z.eqb_spec (Z.land (has_bits_ msg) mask) 0) as [Ez|].
    + cut (sum_over (field_length msg) (s_member <$> items) = 0); [intros ->; f_equal; lia|].
      induction items as [|f items IH]; [done|]. simpl in Hs.
      apply andb_true_iff in Hs as [Hf Hs]. apply andb_true_iff in Hf as [Hf _].
      unfold in_mask in Hf. apply andb_true_iff in Hf as [Hf _].
      change (sum_over (field_length msg) (s_member <$> f :: items))
        with (field_length msg (s_member f) + sum_over (field_length msg) (s_member <$> items)).
      rewrite (Hno f) by (by left || by apply (mask_has msg mask)). apply IH; [done|].
      intros f' Hf'. apply Hno. by right.
    + revert total. induction items as [|f items IH]; intros total; [cbn; f_equal; lia|]. simpl in Hs.
      apply andb_true_iff in Hs as [Hf Hs]. apply andb_true_iff in Hf as [_ Hf].
      change (sum_over (field_length msg) (s_member <$> f :: items))
        with (field_length msg (s_member f) + sum_over (field_length msg) (s_member <$> items)).
      cbn [foldl]. rewrite IH by (done || (intros f' Hf'; apply Hno; by right)).
      destruct (has (s_member f) msg) eqn:Hh.
      * rewrite wf_size_length, s32_add_r, s32_add_l by done. f_equal. lia.
      * rewrite (Hno f) by (by left || done). f_equal; lia.
  - destruct (write_of K i) as [w|] eqn:Ew; [|done].
    apply andb_true_iff in Hs as [Hs Ht]. apply andb_true_iff in Hs as [Hr Hst].
    apply Z.eqb_eq in Ht. cbn [sum_over foldr]. unfold field_length. rewrite Ew.
    apply write_of_in in Ew as [Hw Ei]. pose proof (m_member _ _ Hm w Hw) as H.
    unfold wf_member in H. rewrite Ei, Hr in H. cbn [negb andb] in H.
    destruct (members msg !! i) as [[v|v|l]|] eqn:Em; try done.
    apply andb_true_iff in H as [H _]. apply andb_true_iff in H as [_ Hl].
    unfold get_rep. rewrite Em. rewrite (repeated_length msg w l); [|done..|by rewrite Ei|done].
    rewrite s32_s32. f_equal. lia.
Qed.

Lemma unknown_fields_size us : (forall u, u ∈ us -> unknown_to K u = true) ->
  s32 (ComputeUnknownFieldsSize us) = s32 (Z.of_nat (length (SerializeUnknownFieldsToArray us))).
Proof.
  unfold ComputeUnknownFieldsSize, SerializeUnknownFieldsToArray. intros H.
  transitivity (s32 (0 + Z.of_nat (length (mjoin (SerializeUnknownFieldToArray <$> us))))); [|done].
  generalize 0. revert H. induction us as [|u us IH]; intros H a; [cbn; f_equal; lia|].
  change (mjoin (SerializeUnknownFieldToArray <$> u :: us))
    with (SerializeUnknownFieldToArray u ++ mjoin (SerializeUnknownFieldToArray <$> us)).
  cbn [foldl]. rewrite length_app.
  assert (unknown_ok 0 u = true) as Hu.
  { pose proof (H u ltac:(by left)) as Hu. unfold unknown_to in Hu. by apply andb_true_iff in Hu as [? _]. }
  rewrite (unknown_size u 0 Hu), IH, s32_add_l by (intros u' Hu'; apply H; by right). f_equal. lia.
Qed.

(** The size is the length modulo 2^32, as an [int]. *)
Lemma ByteSize_length msg : msg_facts K msg ->
  fst (ByteSize K msg) = s32 (Z.of_nat (length (SerializeWithCachedSizesToArray K msg))).
Proof.
  intros Hm. unfold ByteSize, SerializeWithCachedSizesToArray. cbn [fst].
  rewrite length_app, Nat2Z.inj_add, <- s32_add_r, unknown_fields_size, s32_add_r by apply (m_unknown _ _ Hm).
  rewrite <- s32_add_l, <- (s32_add_l (Z.of_nat _)). do 2 f_equal.
  rewrite writes_length by done.
  rewrite (sum_over_same _ _ _ _ (f_covers _ HK) (f_size_covers _ HK)).
  pose proof (f_sizes _ HK) as Hs.
  transitivity (s32 (0 + sum_over (field_length msg) (mjoin (size_members <$> k_sizes K)))); [|done].
  generalize 0. induction (k_sizes K) as [|st l IH]; intros total; [cbn; f_equal; lia|].
  simpl in Hs. apply andb_true_iff in Hs as [Hst Hs].
  change (mjoin (size_members <$> st :: l)) with (size_members st ++ mjoin (size_members <$> l)).
  cbn [foldl]. rewrite IH, <- s32_add_l, size_step_length, s32_add_l, sum_over_app by done. f_equal. lia.
Qed.

Lemma ByteSize_exact msg : msg_facts K msg ->
  let n := Z.of_nat (length (SerializeWithCachedSizesToArray K msg)) in
  n < 2 ^ 31 -> fst (ByteSize K msg) = n.
Proof. intros Hm n Hn. rewrite ByteSize_length by done. apply s32_small. unfold n in *. lia. Qed.
End Class.
