(* ===== verification/MsgParser.v ===== *)
(** The message classes behind the [MessageParser] interface of the packet walk: the
    parse of a new object of the class of an identifier, and its law. *)

From S2P Require Import Prelude CMem Coded Wire Messages NetMessages Sniffles Packets.
From S2P Require Import CodedSpec CodedStream WireSpec MsgSpec MsgTables MsgTrip MsgSize.

(** The class of the local [msg] in each case of the [switch]. *)
Definition class_of (k : Z) : option message_class :=
  if k =? net_Tick then Some CNETMsg_Tick
  else if k =? net_SignonState then Some CNETMsg_SignonState
  else if k =? svc_ServerInfo then Some CSVCMsg_ServerInfo
  else if k =? svc_PacketEntities then Some CSVCMsg_PacketEntities
  else None.

(** The four tables are well formed. *)
Lemma classes_wf : wf_class CNETMsg_Tick && wf_class CNETMsg_SignonState &&
  wf_class CSVCMsg_ServerInfo && wf_class CSVCMsg_PacketEntities = true.
Proof. vm_compute. reflexivity. Qed.

Lemma class_of_facts k K : class_of k = Some K -> class_facts K.
Proof.
  pose proof classes_wf as H. repeat (apply andb_true_iff in H as [H ?]).
  unfold class_of. intros E. apply wf_class_facts.
  repeat (destruct (k =? _); [by injection E as <-|]). done.
Qed.

Lemma class_of_known k : known k = bool_decide (is_Some (class_of k)).
Proof.
  unfold known, class_of. repeat (destruct (k =? _); [done|]). done.
Qed.

(** What the constructor of each class makes. *)
Definition fresh (K : message_class) : message := mkmsg 0 (members (k_new K)) [] 0.

Lemma new_facts K c : class_facts K -> msg_facts K (mkmsg 0 (members (k_new K)) [] c).
Proof.
  intros HK. pose proof (proj1 (wf_msg_facts K _) (f_new _ HK)) as [H1 H2 H3 H4].
  destruct (f_fresh _ HK) as (Hb & Hu & _). constructor; [done| |simpl; lia|].
  - intros w Hw. specialize (H2 w Hw). unfold wf_member, has in *. cbn [members has_bits_] in *.
    by rewrite Hb in H2.
  - intros u Hu'. by apply elem_of_nil in Hu'.
Qed.

Lemma fresh_facts K : class_facts K -> msg_facts K (fresh K).
Proof. apply new_facts. Qed.

Lemma class_of_new k K : class_of k = Some K -> k_new K = fresh K.
Proof.
  unfold class_of. intros E. repeat (destruct (k =? _); [by injection E as <-|]). done.
Qed.

Lemma Clear_fresh K : class_facts K -> Clear K (fresh K) = fresh K.
Proof. intros HK. by rewrite (Clear_new_object K HK _ (fresh_facts K HK)). Qed.

(** * The instance *)

Section Instance.
Context `{HT : TagReaderLaws}.

(** The rounds for an array of [n] bytes; [slack] is for sizes that are negative, where
    the parser leaves the array. *)
Definition parse_fuel (slack : nat) (n : Z) : nat := (2 * Z.to_nat n + 2 + slack)%nat.

#[export] Instance message_parser (slack : nat) : MessageParser message := {|
  ParseFromArray := fun k m p n =>
    match class_of k with
    | None => Ok None
    | Some K =>
        r ← MsgParseFromArray m (parse_fuel slack n) K p n (k_new K);
        Ok (if fst (r : bool * message) then Some (snd r) else None)
    end;
  decode := fun k bs => K ← class_of k; decode_message K bs (k_new K)
|}.

#[export] Instance message_parser_laws slack : ParserLaws message (H := message_parser slack).
Proof.
  intros k m p bs Hb Hh Hp Hw Hn. cbn [ParseFromArray decode message_parser].
  destruct (class_of k) as [K|] eqn:Ek; [|done]. cbn [mbind option_bind].
  pose proof (class_of_facts k K Ek) as HK. rewrite (class_of_new k K Ek).
  destruct (ParseFromArray_spec m K (f_cases _ HK) (parse_fuel slack (Z.of_nat (length bs))) p bs
    (fresh K) Hb Hh Hn) as (b & msg' & E & Hd).
  { unfold parse_fuel, field_fuel. lia. }
  rewrite (res_bind_ok _ _ _ E). rewrite Clear_fresh in Hd by done.
  destruct (decode_message K bs (fresh K)) as [r|]; [by destruct Hd as [-> ->]|by rewrite Hd].
Qed.
End Instance.

(** * Serialised messages *)

(** An object that a program may hold: a class of the [switch], and the invariant. *)
Definition message_of (x : Z * message) : Prop :=
  exists K, class_of (fst x) = Some K /\ wf_msg K (snd x) = true.

Definition serialize (x : Z * message) : Z * list Z :=
  (fst x, match class_of (fst x) with
          | Some K => SerializeWithCachedSizesToArray K (snd x)
          | None => []
          end).

(** The line that is printed for it; the size is not cached in the copy. *)
Definition printed_message (x : Z * message) : event message :=
  OMsg (fst x) (Z.of_nat (length (snd (serialize x))))
    (mkmsg (has_bits_ (snd x)) (members (snd x)) (unknown_fields_ (snd x)) 0).

Lemma decode_serialized K from c : class_facts K -> msg_facts K from ->
  decode_message K (SerializeWithCachedSizesToArray K from) (mkmsg 0 (members (k_new K)) [] c) =
  Some (mkmsg (has_bits_ from) (members from) (unknown_fields_ from) c).
Proof.
  intros HK Hf. rewrite <- (app_nil_r (SerializeWithCachedSizesToArray K from)).
  rewrite (decode_serialize K HK); [|done| |done|done].
  - by rewrite (MergeFrom_fresh K HK).
  - pose proof (wf_msg_kinds _ _ (fresh_facts K HK)) as H. intros w Hw. exact (H w Hw).
Qed.

Lemma serialize_ok x : message_of x -> message_ok (serialize x).
Proof.
  intros (K & Ek & Hw). unfold message_ok, serialize. rewrite Ek. cbn [fst snd]. split.
  - unfold class_of in Ek. unfold net_Tick, net_SignonState, svc_ServerInfo, svc_PacketEntities in *.
    repeat (match type of Ek with context [?k =? ?n] => destruct (Z.eqb_spec k n); [lia|] end).
    done.
  - apply (serialize_bytes K (class_of_facts _ _ Ek)). by apply wf_msg_facts.
Qed.

Lemma serialized_events `{HT : TagReaderLaws} slack x : message_of x ->
  message_events (H := message_parser slack) (serialize x) = [printed_message x].
Proof.
  intros (K & Ek & Hw). unfold message_events, printed_message. cbn [decode message_parser].
  destruct x as [k msg]. cbn [fst snd serialize] in *. rewrite class_of_known, Ek.
  cbn [mbind option_bind]. rewrite (class_of_new _ _ Ek). unfold fresh.
  by rewrite decode_serialized by (by eapply class_of_facts || by apply wf_msg_facts).
Qed.

Lemma serialized_list_events `{HT : TagReaderLaws} slack msgs : Forall message_of msgs ->
  concat (message_events (H := message_parser slack) <$> (serialize <$> msgs)) = printed_message <$> msgs.
Proof.
  induction 1 as [|x msgs Hx Hm IH]; [done|].
  cbn [fmap list_fmap concat]. rewrite serialized_events by done. by rewrite IH.
Qed.

(** * Whole messages *)

Section Whole.
Context (K : message_class) (HK : wf_class K = true).

(** Parsing what was written restores it. *)
Lemma parse_restores {TR : TagReader} {HT : TagReaderLaws} m p from msg fuel :
  wf_msg K from = true -> wf_msg K msg = true ->
  let bs := SerializeWithCachedSizesToArray K from in
  holds m p bs -> Z.of_nat (length bs) < 2 ^ 26 -> (2 * length bs + 2 <= fuel)%nat ->
  MsgParseFromArray m fuel K p (Z.of_nat (length bs)) msg =
    Ok (true, mkmsg (has_bits_ from) (members from) (unknown_fields_ from) (cached_size_ msg)).
Proof.
  intros Hf%wf_msg_facts Hm%wf_msg_facts bs Hh Hl Hfuel.
  pose proof (wf_class_facts _ HK) as HF.
  destruct (ParseFromArray_spec m K (f_cases _ HF) fuel p bs msg) as (ok & msg' & E & Hd);
    [by apply serialize_bytes|done..|].
  unfold bs in *. rewrite (Clear_new_object K HF msg Hm), decode_serialized in Hd by done.
  by destruct Hd as [-> ->].
Qed.

(** [ByteSize] is the number of bytes that are written, as an [int]. *)
Definition sized (n : Z) (msg : message) : message :=
  mkmsg (has_bits_ msg) (members msg) (unknown_fields_ msg) n.

Lemma byte_size_exact msg : wf_msg K msg = true ->
  let n := s32 (Z.of_nat (length (SerializeWithCachedSizesToArray K msg))) in
  ByteSize K msg = (n, sized n msg).
Proof.
  intros Hm%wf_msg_facts n. pose proof (ByteSize_length K (wf_class_facts _ HK) msg Hm) as Es. fold n in Es.
  unfold ByteSize, sized in *. cbn [fst] in Es. by rewrite Es.
Qed.

Lemma serialize_to_array size msg : wf_msg K msg = true ->
  let bs := SerializeWithCachedSizesToArray K msg in
  let n := Z.of_nat (length bs) in
  SerializeToArray K size msg =
    if size <? s32 n then Ok (None, sized (s32 n) msg)
    else if size <? n then Fault (OutOfBounds size) else Ok (Some bs, sized (s32 n) msg).
Proof.
  intros Hm bs n. unfold SerializeToArray. rewrite (byte_size_exact msg Hm). fold bs. fold n.
  destruct (size <? s32 n); [done|].
  change (SerializeWithCachedSizesToArray K (sized (s32 n) msg)) with bs. fold n.
  destruct (size <? n); [done|]. by rewrite Z.eqb_refl.
Qed.

Lemma serialize_exact size msg : wf_msg K msg = true ->
  let bs := SerializeWithCachedSizesToArray K msg in
  let n := Z.of_nat (length bs) in
  n < 2 ^ 31 ->
  SerializeToArray K size msg = Ok (if size <? n then None else Some bs, sized n msg).
Proof.
  intros Hm bs n Hn. rewrite serialize_to_array by done. fold bs. fold n.
  rewrite s32_small by (unfold n in *; lia). by destruct (size <? n).
Qed.
End Whole.
