(* ===== verification/MsgProps.v ===== *)
(** The properties of the message classes: the parser against its reference decoder,
    round trips, the type invariant, exact sizes, merging, and whole datagrams built
    from messages. *)

From S2P Require Import Prelude CMem BitRead Ice IceProofs Tins Sniffles Walk Packets Handler.
From S2P Require Import Coded CodedSpec CodedStream Wire Messages NetMessages WireSpec MsgSpec MsgTables.
From S2P Require Import MsgTrip MsgSize MsgParser SniffProps.

(** * Instances for the witnesses *)

(** A tag reader as the documentation describes it. *)
Definition plain_tag_reader : TagReader := fun m cutoff =>
  t ← ReadTag m; mret (t, (1 <=? u32 t) && (u32 t <=? cutoff)).

Lemma plain_tag_laws : @TagReaderLaws plain_tag_reader.
Proof.
  intros m cutoff s. unfold ReadTagWithCutoff, plain_tag_reader.
  destruct (ReadTag m s) as [[t s']|f] eqn:E; [|by apply (st_bind_fault _ _ _ _ E)].
  rewrite (st_bind_ok _ _ _ _ _ E). eexists. split; [done|]. pose proof (u32_range t).
  split; intros H'; [apply andb_true_iff in H' as [_ H']; lia|].
  apply andb_false_iff in H' as [H'|H']; lia.
Qed.

(** A tick with two members and a field of a later protocol version. *)
Definition sample_tick : message :=
  mkmsg 3 [VInt 5; VInt 300; VInt 0; VInt 0] [UVarint 9 1] 0.
Definition sample_bytes : list Z := [8; 5; 32; 172; 2; 72; 1].
Definition other_tick : message := mkmsg 9 [VInt 6; VInt 0; VInt 0; VInt 7] [] 0.
Definition sample_signon : message :=
  mkmsg 0x13 [VInt 2; VInt 1; VInt 0; VRep [[97]; [98; 99]]; VStr [109]] [] 0.

Lemma tick_wf : wf_class CNETMsg_Tick = true.
Proof. vm_compute. reflexivity. Qed.

Lemma sample_bytes_ok : Forall is_byte sample_bytes.
Proof. repeat constructor; unfold is_byte; lia. Qed.

(** * The varint readers *)

(** Equivalence.  The three implementations of the 32-bit read - the inline one,
    the one over the array and the byte-wise one - agree: on every stream they return
    the value of the reference decoder, and where there is one they leave the stream
    at the same place, behind the integer. *)
Theorem varint32_paths_agree m e n bs lst legit depth : okm m e bs ->
  let s := strm e n bs lst legit depth in
  exists s1 s2 s3, ReadVarint32 m s = Ok (fst <$> varint32 bs, s1) /\
    ReadVarint32Fallback m s = Ok (fst <$> varint32 bs, s2) /\
    ReadVarint32Slow m s = Ok (fst <$> varint32 bs, s3) /\
    (forall v r, varint32 bs = Some (v, r) ->
      s1 = strm e n r lst legit depth /\ s2 = s1 /\ s3 = s1).
Proof.
  intros Hb s.
  destruct (ReadVarint32_reads m e n bs lst legit depth Hb) as (b1 & _ & _ & E1 & H1).
  destruct (ReadVarint32Fallback_reads m e n bs lst legit depth Hb) as (b2 & _ & _ & E2 & H2).
  destruct (ReadVarint32Slow_reads m e n bs lst legit depth Hb) as (b3 & _ & _ & E3 & H3).
  do 3 eexists. do 3 (split; [eassumption|]). intros v r Ev.
  by rewrite (H1 _ _ Ev), (H2 _ _ Ev), (H3 _ _ Ev).
Qed.

Lemma varint32_paths_agree_witness :
  exists s', ReadVarint32Slow (block 4096 [172; 2; 7]) (CodedInputStream_new 4096 3) =
    Ok (Some 300, s').
Proof.
  destruct (varint32_paths_agree (block 4096 [172; 2; 7]) 4099 3 [172; 2; 7] 0 false 0)
    as (s1 & s2 & s3 & _ & _ & E & _).
  - split; [apply (holds_blit _ 4096)|]. repeat constructor; unfold is_byte; lia.
  - exists s3. exact E.
Defined.

(** * Parsing *)

Section Messages.
Context {TR : TagReader} {HT : TagReaderLaws}.
Context (K : message_class) (HK : wf_class K = true).

(** C3: refinement.  [ParseFromArray] of any array computes the reference decoder:
    it comes to an end within twice as many rounds as there are bytes, never faults,
    succeeds exactly when the decoder does, and then with its message.  The fast
    paths of the stream, the [goto]s between the cases of the generated parser and
    the end checks never show. *)
Theorem ParseFromArray_refines m p bs msg fuel : Forall is_byte bs -> holds m p bs ->
  Z.of_nat (length bs) < 2 ^ 26 -> (2 * length bs + 2 <= fuel)%nat ->
  exists ok msg', MsgParseFromArray m fuel K p (Z.of_nat (length bs)) msg = Ok (ok, msg') /\
    match decode_message K bs (Clear K msg) with
    | Some r => ok = true /\ msg' = r
    | None => ok = false
    end.
Proof. apply (ParseFromArray_spec m K). apply (f_cases _ (wf_class_facts _ HK)). Qed.

(** C4: round trip.  Parsing what [SerializeWithCachedSizesToArray] wrote of a
    message gives back its members, its has-bits and its unknown fields, whatever
    the object that is parsed into held before. *)
Theorem parse_serialize m p from msg fuel : wf_msg K from = true -> wf_msg K msg = true ->
  let bs := SerializeWithCachedSizesToArray K from in
  holds m p bs -> Z.of_nat (length bs) < 2 ^ 26 -> (2 * length bs + 2 <= fuel)%nat ->
  MsgParseFromArray m fuel K p (Z.of_nat (length bs)) msg =
    Ok (true, mkmsg (has_bits_ from) (members from) (unknown_fields_ from) (cached_size_ msg)).
Proof. by apply parse_restores. Qed.

(** C5: type preservation.  A parse that succeeds, of any array into any well formed
    object, leaves a well formed object: every member in the range of its type, every
    member without its has-bit at its default, unknown fields that are not fields of
    the class. *)
Theorem parse_well_formed m p bs msg msg' fuel : Forall is_byte bs -> holds m p bs ->
  Z.of_nat (length bs) < 2 ^ 26 -> (2 * length bs + 2 <= fuel)%nat -> wf_msg K msg = true ->
  MsgParseFromArray m fuel K p (Z.of_nat (length bs)) msg = Ok (true, msg') ->
  wf_msg K msg' = true.
Proof.
  intros Hb Hh Hl Hfuel Hm%wf_msg_facts E. pose proof (wf_class_facts _ HK) as HF.
  destruct (ParseFromArray_spec m K (f_cases _ HF) fuel p bs msg) as (ok & r & E' & Hd); try done.
  rewrite E in E'. injection E' as <- <-.
  destruct (decode_message K bs (Clear K msg)) as [r|] eqn:Ed; [destruct Hd as [_ ->]|done].
  apply wf_msg_facts. eapply (decode_fields_typed K HF); [done| |exact Ed].
  rewrite (Clear_new_object K HF msg Hm). by apply new_facts.
Qed.

(** C20: exact sizes.  [ByteSize] adds up, in an [int] that wraps around, to the number of bytes
    that the message takes on the wire modulo 2^32.  Below two gigabytes that is the number itself:
    [SerializeToArray] writes exactly that many bytes or, into a smaller array, none, and its
    consistency check never fails.  From two gigabytes on the size is negative, every array is
    taken to be large enough, and the bytes go behind its end. *)
Theorem SerializeToArray_exact size msg : wf_msg K msg = true ->
  let bs := SerializeWithCachedSizesToArray K msg in
  let n := Z.of_nat (length bs) in
  ByteSize K msg = (s32 n, sized (s32 n) msg) /\
  (n < 2 ^ 31 ->
   SerializeToArray K size msg = Ok (if size <? n then None else Some bs, sized n msg)) /\
  (2 ^ 31 <= n < 2 ^ 32 -> 0 <= size < 2 ^ 31 ->
   SerializeToArray K size msg = Fault (OutOfBounds size)).
Proof.
  intros Hm bs n. split; [by apply byte_size_exact|]. split; [by apply serialize_exact|].
  intros Hn Hs. rewrite (serialize_to_array K HK) by done. fold bs. fold n.
  rewrite s32_wrap by (unfold n in *; lia).
  destruct (Z.ltb_spec size (n - 4294967296)); [lia|]. by destruct (Z.ltb_spec size n); [|lia].
Qed.

(** C21: equivalence.  The concatenation of the wire forms of two messages is parsed
    as the second one merged into the first: members that the second one has replace
    those of the first, repeated fields and unknown fields follow one another. *)
Theorem concatenation_merges a b : wf_msg K a = true -> wf_msg K b = true ->
  decode_message K (SerializeWithCachedSizesToArray K a ++ SerializeWithCachedSizesToArray K b)
    (k_new K) =
  Some (MergeFrom K b (MergeFrom K a (k_new K))).
Proof.
  intros Ha%wf_msg_facts Hb%wf_msg_facts. pose proof (wf_class_facts _ HK) as HF.
  pose proof (proj1 (wf_msg_facts K _) (f_new _ HF)) as Hn.
  pose proof (proj1 (m_bits _ _ Hn)) as H0. pose proof (wf_msg_kinds _ _ Hn) as Hkn.
  destruct (MergeFrom_kinds K HF a (k_new K) (wf_msg_kinds _ _ Ha) Hkn H0) as [Hk1 H1].
  rewrite (decode_serialize K HF a) by (done || by apply serialize_bytes).
  rewrite <- (app_nil_r (SerializeWithCachedSizesToArray K b)).
  by rewrite (decode_serialize K HF b).
Qed.

(** Errors.  With a negative size - the walk passes on the length field of a
    message as it is - no parse yields a message, whatever lies behind the pointer:
    the stream has its end in front of its position and never sees an end. *)
Theorem negative_size_rejected m fuel p size msg ok msg' : size < 0 ->
  MsgParseFromArray m fuel K p size msg = Ok (ok, msg') -> ok = false.
Proof. intros Hs E. by apply (negative_size_parse m fuel K p size msg ok msg' Hs E). Qed.
End Messages.

(** * Whole datagrams *)

Section Capture.
Context {TR : TagReader} {HT : TagReaderLaws}.

(** From message to line.  Every message object of the four classes that a
    server serialises, frames, encrypts and sends in one datagram is printed: with the
    generated parsers in the place of the [MessageParser] interface, the handler ends
    with one line for each message, in order, holding its members and its unknown
    fields. *)
Theorem serialized_messages_printed slack fr old heap_oracle subkeys sbox k ip udp eth h
    (msgs : list (Z * message)) filler payload fuel (w : world message) :
  let pkt := enc_packet h (serialize <$> msgs) in
  frame_ok fr old -> (forall i, exists junk, heap_oracle i = Some junk) ->
  length subkeys = 32%nat -> session sbox k -> statics_ok (w_ice w) -> heap_fresh w ->
  header_ok h -> flags_pass (s32 (h_flags h)) = true -> Forall message_of msgs ->
  Forall is_byte filler -> (0 < length filler < 256)%nat ->
  Z.of_nat (length pkt) + 10 <= NET_MAX_PAYLOAD ->
  encrypt_stream sbox k (wrap_payload filler pkt) = Ok payload ->
  datagram eth ip udp payload -> (length msgs < fuel)%nat ->
  exists g, statics_ok g /\
    packet_loop_handler (H := message_parser slack) heap_oracle fuel fr subkeys eth w =
      Ok (true, mkworld (w_heap w) (2 + w_next w) g
        (w_out w ++ header_events ip udp ++
         payload_events (wrap_payload filler pkt) ++ (printed_message <$> msgs))).
Proof.
  intros pkt Hfr Ha Hsub Hses Hg Hw Hh Hflags Hm Hfb Hfl Hmax Henc Hd Hfuel.
  rewrite <- (serialized_list_events slack msgs Hm).
  apply (capture_messages (HL := message_parser_laws slack) fr old heap_oracle subkeys sbox k
    ip udp eth h (serialize <$> msgs) filler payload fuel w); try done.
  - apply Forall_fmap. eapply Forall_impl; [exact Hm|]. intros x. apply serialize_ok.
  - by rewrite length_fmap.
Qed.
End Capture.

(** * Witnesses *)

Lemma sample_holds : holds (block 4096 sample_bytes) 4096 sample_bytes.
Proof. apply holds_blit. Qed.

Lemma ParseFromArray_refines_witness :
  exists r, MsgParseFromArray (H := plain_tag_reader) (block 4096 sample_bytes) 16 CNETMsg_Tick
    4096 7 other_tick = Ok (true, r) /\ get_int 1 r = 300.
Proof.
  destruct (@ParseFromArray_refines plain_tag_reader plain_tag_laws CNETMsg_Tick tick_wf
    (block 4096 sample_bytes) 4096 sample_bytes other_tick 16 sample_bytes_ok sample_holds)
    as (ok & r & E & Hd).
  - reflexivity.
  - apply Nat.leb_le. reflexivity.
  - exists r. destruct Hd as [-> Hr]. split; [exact E|]. rewrite Hr. reflexivity.
Defined.

Lemma parse_serialize_witness :
  MsgParseFromArray (H := plain_tag_reader) (block 4096 sample_bytes) 16 CNETMsg_Tick
    4096 7 other_tick = Ok (true, sample_tick).
Proof.
  apply (@parse_serialize plain_tag_reader plain_tag_laws CNETMsg_Tick tick_wf
    (block 4096 sample_bytes) 4096 sample_tick other_tick 16).
  - reflexivity.
  - reflexivity.
  - exact sample_holds.
  - reflexivity.
  - apply Nat.leb_le. reflexivity.
Defined.

Lemma parse_well_formed_witness :
  exists r, MsgParseFromArray (H := plain_tag_reader) (block 4096 sample_bytes) 16 CNETMsg_Tick
    4096 7 other_tick = Ok (true, r) /\ wf_msg CNETMsg_Tick r = true.
Proof.
  eexists. split; [vm_compute; reflexivity|].
  apply (@parse_well_formed plain_tag_reader plain_tag_laws CNETMsg_Tick tick_wf
    (block 4096 sample_bytes) 4096 sample_bytes other_tick _ 16 sample_bytes_ok sample_holds).
  - reflexivity.
  - apply Nat.leb_le. reflexivity.
  - reflexivity.
  - vm_compute. reflexivity.
Defined.

Lemma SerializeToArray_exact_witness :
  SerializeToArray CNETMsg_Tick 7 sample_tick =
    Ok (Some sample_bytes, mkmsg 3 [VInt 5; VInt 300; VInt 0; VInt 0] [UVarint 9 1] 7).
Proof.
  apply (SerializeToArray_exact CNETMsg_Tick tick_wf 7 sample_tick); [reflexivity|].
  vm_compute. reflexivity.
Defined.

Lemma concatenation_merges_witness :
  decode_message CNETMsg_Tick (sample_bytes ++ [8; 6; 48; 7]) CNETMsg_Tick_SharedCtor =
  Some (mkmsg 11 [VInt 6; VInt 300; VInt 0; VInt 7] [UVarint 9 1] 0).
Proof.
  apply (concatenation_merges CNETMsg_Tick tick_wf sample_tick other_tick); reflexivity.
Defined.

(** The parser reads all the fields behind the end, up to the zero. *)
Lemma negative_size_rejected_witness : exists r,
  MsgParseFromArray (H := plain_tag_reader) (block 4096 (sample_bytes ++ [0])) 16 CNETMsg_Tick
    4096 (-1) other_tick = Ok (false, r) /\ get_int 1 r = 300.
Proof.
  assert (exists ok r, MsgParseFromArray (H := plain_tag_reader) (block 4096 (sample_bytes ++ [0]))
    16 CNETMsg_Tick 4096 (-1) other_tick = Ok (ok, r) /\ get_int 1 r = 300) as (ok & r & E & Hr)
    by (do 2 eexists; split; vm_compute; reflexivity).
  exists r. split; [|exact Hr]. rewrite E. do 2 f_equal.
  exact (@negative_size_rejected plain_tag_reader plain_tag_laws CNETMsg_Tick _ _ _ (-1) _ ok r
    eq_refl E).
Defined.

Definition sample_objects : list (Z * message) :=
  [(net_Tick, sample_tick); (net_SignonState, sample_signon)].

Lemma sample_objects_ok : Forall message_of sample_objects.
Proof.
  constructor; [|constructor; [|constructor]]; eexists; (split; [reflexivity|reflexivity]).
Qed.

Lemma serialized_messages_printed_witness : exists sbox k payload g,
  session sbox k /\
  encrypt_stream sbox k
    (wrap_payload [9; 9] (enc_packet sample_header (serialize <$> sample_objects))) = Ok payload /\
  packet_loop_handler (H := message_parser (H := plain_tag_reader) 0)
    junk_heap 4 zero_frame junk_subkeys
    [PDU_other 2; PDU_IP sample_ip; PDU_UDP server_udp; PDU_Raw payload] (mkworld ∅ 0 ice_statics0 []) =
  Ok (true, mkworld ∅ 2 g
    [OPacket 256; OVersion 4; OSrcAddr 2 27016; ODstAddr 3 27016; OPayloadSize 44;
     ODeltaOffset 2; ODataFinalSize 37; OMsg net_Tick 7 sample_tick;
     OMsg net_SignonState 14 sample_signon]).
Proof.
  destruct game_cipher_ok as (sbox & k & Hses & Hs & Hk).
  set (pkt := enc_packet sample_header (serialize <$> sample_objects)).
  assert (Forall message_ok (serialize <$> sample_objects)) as Hm.
  { apply Forall_fmap. eapply Forall_impl; [exact sample_objects_ok|]. intros x. apply serialize_ok. }
  destruct (encrypt_stream_inverse sbox k (wrap_payload [9; 9] pkt) Hs Hk) as (c & Ec & _).
  { apply wrap_payload_byte; [|apply enc_packet_byte|].
    - repeat constructor; unfold is_byte; lia.
    - exact sample_header_ok.
    - exact Hm.
    - vm_compute; done.
    - cbn; lia. }
  destruct (@serialized_messages_printed plain_tag_reader plain_tag_laws 0 zero_frame zero_array
    junk_heap junk_subkeys sbox k sample_ip server_udp
    [PDU_other 2; PDU_IP sample_ip; PDU_UDP server_udp; PDU_Raw c]
    sample_header sample_objects [9; 9] c 4 (mkworld ∅ 0 ice_statics0 []) zero_frame_ok)
    as (g & _ & E).
  - intros i. by exists (fun _ => 205).
  - reflexivity.
  - exact Hses.
  - exact statics0_ok.
  - done.
  - exact sample_header_ok.
  - reflexivity.
  - exact sample_objects_ok.
  - repeat constructor; unfold is_byte; lia.
  - cbn; lia.
  - vm_compute; done.
  - exact Ec.
  - split; [reflexivity|]. split; [reflexivity|]. split; [reflexivity|]. reflexivity.
  - cbn; lia.
  - exists sbox, k, c, g. split; [exact Hses|]. split; [exact Ec|]. rewrite E. reflexivity.
Defined.
