(* ===== verification/Console.v ===== *)
(** The console program around the sniffer: the state its parts share - the C heap,
    the static configuration buffer, the file cfg, the console - and the operations of
    the C run time they use. *)

From S2P Require Import Prelude CMem.

(** * State *)

(** A [String] object: the block of its characters, or null. *)
Record String_ := mkString {
  _string : option nat;
  _size : Z;
  _length : Z
}.

(** What a live heap block holds. *)
Inductive cell :=
  | Bytes (l : list Z)
  | Object (s : String_).

(** What [g_config] points to. *)
Inductive config_base :=
  | ConfigNull
  | ConfigStatic
  | ConfigHeap (b : nat).

(** What is shown on the console, with the arguments that vary. *)
Inductive shown :=
  | ShowBanner
  | AskExisting
  | AskYesNo
  | ShowDevice (i : Z)
  | AskDevice
  | AskPort
  | NotValid
  | NotAChoice
  | InvalidOption
  | OutOfRange
  | ShowError (err : Z)
  | ReadingError
  | ListeningOn (i : Z)
  | ShowFilter (text : list Z).

(** The heap is the list of the blocks allocated so far, [None] for released ones;
    [default_config] is the static array [g_default_config], [file] the file cfg. *)
Record process := mkproc {
  heap : list (option cell);
  default_config : list Z;
  g_config : config_base;
  g_config_size : Z;
  file : option (list Z);
  input : list Z;
  output : list shown
}.

Definition set_heap (h : list (option cell)) (p : process) : process :=
  mkproc h (default_config p) (g_config p) (g_config_size p) (file p) (input p) (output p).
Definition set_default (l : list Z) (p : process) : process :=
  mkproc (heap p) l (g_config p) (g_config_size p) (file p) (input p) (output p).
Definition set_config (b : config_base) (n : Z) (p : process) : process :=
  mkproc (heap p) (default_config p) b n (file p) (input p) (output p).
Definition set_file (f : option (list Z)) (p : process) : process :=
  mkproc (heap p) (default_config p) (g_config p) (g_config_size p) f (input p) (output p).
Definition set_input (l : list Z) (p : process) : process :=
  mkproc (heap p) (default_config p) (g_config p) (g_config_size p) (file p) l (output p).
Definition show (l : list shown) (p : process) : process :=
  mkproc (heap p) (default_config p) (g_config p) (g_config_size p) (file p) (input p)
    (output p ++ l).

Abbreviation Console := (ST process).

Definition print (l : list shown) : Console unit := st_modify (show l).

(** * Heap *)

(** A new block; small allocations do not fail. *)
Definition new_block (c : cell) : Console nat := fun p =>
  Ok (length (heap p), set_heap (heap p ++ [Some c]) p).

Definition block_at (b : nat) : Console cell := fun p =>
  match heap p !! b with
  | Some (Some c) => Ok (c, p)
  | _ => Fault (OutOfBounds (Z.of_nat b))
  end.

Definition bytes_of (b : nat) : Console (list Z) :=
  c ← block_at b; match c with Bytes l => mret l | Object _ => st_fault InvalidParameter end.

Definition put_block (b : nat) (c : cell) : Console unit :=
  block_at b;; st_modify (fun p => set_heap (<[b := Some c]> (heap p)) p).

Definition free_block (b : nat) : Console unit :=
  block_at b;; st_modify (fun p => set_heap (<[b := None]> (heap p)) p).

(** * Strings of the C run time *)

(** The characters in front of the terminator. *)
Fixpoint cstr (l : list Z) : result (list Z) :=
  match l with
  | [] => Fault (OutOfBounds 0)
  | c :: l' => if c =? 0 then Ok [] else s ← cstr l'; Ok (c :: s)
  end.

(** [strcpy_s] and [strcat_s] to an array; [src] is the text without terminator. *)
Definition strcpy_s (dst : list Z) (size : Z) (src : list Z) : result (list Z) :=
  if size <=? Z.of_nat (length src) then Fault InvalidParameter
  else store_at dst 0 (src ++ [0]).

Definition strcat_s (dst : list Z) (size : Z) (src : list Z) : result (list Z) :=
  s ← cstr dst;
  if size <=? Z.of_nat (length s + length src) then Fault InvalidParameter
  else store_at dst (Z.of_nat (length s)) (src ++ [0]).

(** The decimal digits of a natural number; ten are enough for 32 bits. *)
Fixpoint digits (fuel : nat) (n : Z) (acc : list Z) : list Z :=
  match fuel with
  | O => acc
  | S k =>
      let acc := (48 + n mod 10) :: acc in
      if n / 10 =? 0 then acc else digits k (n / 10) acc
  end.

Definition _itoa_s (num : Z) : list Z :=
  if num <? 0 then 45 :: digits 10 (- num) [] else digits 10 num [].

(** * Console input *)

(** [getchar], [None] at the end of the input. *)
Definition getchar : Console (option Z) := fun p =>
  match input p with
  | [] => Ok (None, p)
  | c :: l => Ok (Some c, set_input l p)
  end.

Definition is_space (c : Z) : bool := (c =? 32) || ((9 <=? c) && (c <=? 13)).
Definition is_digit (c : Z) : bool := (48 <=? c) && (c <=? 57).

Fixpoint skip_spaces (l : list Z) : list Z :=
  match l with c :: l' => if is_space c then skip_spaces l' else l | [] => [] end.

Fixpoint scan_digits (l : list Z) (acc : Z) : Z * list Z :=
  match l with
  | c :: l' => if is_digit c then scan_digits l' (10 * acc + (c - 48)) else (acc, l)
  | [] => (acc, [])
  end.

(** [%d]: spaces, a sign, at least one digit; what does not match stays in the
    input. *)
Definition scan_number (l : list Z) : option (Z * list Z) :=
  let l := skip_spaces l in
  let '(neg, l') := match l with
                    | c :: l' => if c =? 45 then (true, l') else if c =? 43 then (false, l') else (false, l)
                    | [] => (false, [])
                    end in
  match l' with
  | c :: _ => if is_digit c
              then let '(v, r) := scan_digits l' 0 in Some (if neg then - v else v, r)
              else None
  | [] => None
  end.

(** [scanf_s] with the format [%d]: the number as 32 bits, if one was read. *)
Definition scanf_d : Console (option Z) := fun p =>
  match scan_number (input p) with
  | Some (v, r) => Ok (Some (u32 v), set_input r p)
  | None => Ok (None, set_input (skip_spaces (input p)) p)
  end.

(** [memory_t<int>] of mem.h: a value in a heap block of its own.  The class has no
    destructor. *)

Definition sizeof_int : Z := 4.

(** The bytes of an [int], and back. *)
Definition int_bytes (v : Z) : list Z := [bits v 0 8; bits v 8 8; bits v 16 8; bits v 24 8].
Definition int_of_bytes (l : list Z) : Z := s32 (le_join l).

Record memory_t := mkmemory {
  m_pValue : option nat;
  m_nSize : Z
}.

Section Memory.
(** What a new block of the heap contains. *)
Context (junk : nat -> nat -> Z).

Definition malloc (size : Z) : Console nat :=
  p ← st_get; new_block (Bytes (junk (length (heap p)) <$> seq 0 (Z.to_nat size))).

Definition memory_init (size : Z) : Console memory_t :=
  b ← malloc size; mret (mkmemory (Some b) size).

Definition memory_default : Console memory_t := memory_init sizeof_int.

(** [memcpy_s(m_pValue, m_nSize, src, m_nSize)]. *)
Definition memory_store (m : memory_t) (src : list Z) : Console unit :=
  match m_pValue m with
  | None => st_fault NullDeref
  | Some b => l ← bytes_of b; l ← st_lift (store_at l 0 src); put_block b (Bytes l)
  end.

(** From a pointer to [size] bytes, which are [src]. *)
Definition memory_of_ptr (src : list Z) (size : Z) : Console memory_t :=
  m ← memory_init size; memory_store m src;; mret m.

Definition memory_of_value (v : Z) : Console memory_t :=
  m ← memory_init sizeof_int; memory_store m (int_bytes v);; mret m.

(** The bytes behind [ptr()]; [memcpy_s] does not take a null source. *)
Definition memory_bytes (m : memory_t) : Console (list Z) :=
  match m_pValue m with
  | None => if m_nSize m =? 0 then mret [] else st_fault InvalidParameter
  | Some b => l ← bytes_of b; st_lift (fetch_at l 0 (m_nSize m))
  end.

Definition memory_copy (m : memory_t) : Console memory_t :=
  m' ← memory_init (m_nSize m);
  src ← memory_bytes m;
  memory_store m' src;;
  mret m'.

(** [delete\[\]] for what [malloc] allocated. *)
Definition memory_free (m : memory_t) : Console memory_t :=
  (match m_pValue m with None => mret tt | Some b => free_block b end : Console unit);;
  mret (mkmemory None 0).

Definition memory_value (m : memory_t) : Console Z :=
  match m_pValue m with
  | None => mret 0
  | Some b => l ← bytes_of b; l ← st_lift (fetch_at l 0 sizeof_int); mret (int_of_bytes l)
  end.

(** The comparisons are those of the pointers. *)
Definition memory_null (m : memory_t) : bool := bool_decide (m_pValue m = None).
Definition memory_eqb (m rhs : memory_t) : bool := bool_decide (m_pValue m = m_pValue rhs).
End Memory.
