(* ===== verification/Str.v ===== *)
(** Class [String] and the number conversions of str.h.  The operators that
    concatenate return a reference to a [String] they allocate; nobody releases it. *)

From S2P Require Import Prelude CMem Console.

Definition npos : Z := u32 (-1).

Section Str.
Context (junk : nat -> nat -> Z).

(** [new char\[size\]]. *)
Definition new_chars (size : Z) : Console nat := malloc junk size.

Definition String_default : String_ := mkString None 0 0.

(** The text of an argument [const char*]; the functions copy it into new blocks. *)
Definition String_new (str : list Z) : Console String_ :=
  let length := u32 (Z.of_nat (length str)) in
  let size := s32 (length + 1) in
  b ← new_chars size;
  l ← bytes_of b;
  l ← st_lift (strcpy_s l size str);
  put_block b (Bytes l);;
  mret (mkString (Some b) size length).

Definition String_destroy (s : String_) : Console String_ :=
  match _string s with
  | None => mret s
  | Some b => free_block b;; mret (mkString None (_size s) (_length s))
  end.

(** The text of [_string] itself, as [strlen] and the copies read it. *)
Definition own_text (s : String_) : Console (list Z) :=
  match _string s with
  | None => st_fault NullDeref
  | Some b => l ← bytes_of b; st_lift (cstr l)
  end.

Definition CStr (s : String_) : Console (list Z) :=
  match _string s with None => mret [] | Some _ => own_text s end.

Definition String_length (s : String_) : Z := _length s.

(** What the eight operators share: a new object with the text of [s] and [rhs]. *)
Definition concat_new (s : String_) (rhs : list Z) : Console String_ :=
  text ← own_text s;
  let len := u32 (Z.of_nat (length rhs) + Z.of_nat (length text)) in
  let size := s32 (len + 1) in
  b ← new_chars size;
  l ← bytes_of b;
  l ← st_lift (strcpy_s l size text);
  l ← st_lift (strcat_s l size rhs);
  put_block b (Bytes l);;
  mret (mkString (Some b) size len).

(** The result is the object behind the reference. *)
Definition String_plus (s : String_) (rhs : list Z) : Console nat :=
  o ← new_block (Object String_default);
  temp ← concat_new s rhs;
  put_block o (Object temp);;
  mret o.

Definition String_plus_string (s rhs : String_) : Console nat :=
  text ← CStr rhs; String_plus s text.

Definition String_plus_int (s : String_) (num : Z) : Console nat := String_plus s (_itoa_s num).

(** [operator+=]: the new value of [s] and the object behind the reference; they share
    the characters, and the old ones of [s] are dropped. *)
Definition String_append (s : String_) (rhs : list Z) : Console (String_ * nat) :=
  o ← new_block (Object String_default);
  temp ← concat_new s rhs;
  put_block o (Object temp);;
  mret (temp, o).

Definition String_append_string (s rhs : String_) : Console (String_ * nat) :=
  text ← CStr rhs; String_append s text.

Definition String_append_int (s : String_) (num : Z) : Console (String_ * nat) :=
  String_append s (_itoa_s num).

(** [String s = r] with a reference to the object [o]. *)
Definition String_of_ref (o : nat) : Console String_ :=
  c ← block_at o;
  match c with Object s => mret s | Bytes _ => st_fault InvalidParameter end.

(** The value of [s\[index\]]. *)
Definition String_at (s : String_) (index : Z) : Console Z :=
  match _string s with
  | None => if (0 <=? index) && (index <? _size s) then st_fault NullDeref
            else print [OutOfRange];; st_fault NullDeref
  | Some b =>
      l ← bytes_of b;
      if (0 <=? index) && (index <? _size s) then st_lift (tbl l index)
      else print [OutOfRange];; st_lift (tbl l 0)
  end.

(** The inner [while] of [find]: whether [P], from [j] on, matches at [i]. *)
Definition find_match (l : list Z) (m i : Z) (P : Z -> Console Z) (j : Z) : Console (Z + Z) :=
  if j <? m then
    c ← st_lift (tbl l (u32 (i + j)));
    d ← P j;
    if c =? d then mret (inl (j + 1)) else mret (inr j)
  else mret (inr j).

(** One round of the [for]; [n - m] is a difference of [size_t]. *)
Definition find_body (l : list Z) (n m : Z) (P : Z -> Console Z) (i : Z) : Console (Z + Z) :=
  if i <=? u32 (n - m) then
    j ← st_loop (S (Z.to_nat m)) (find_match l m i P) 0;
    if j =? m then mret (inr i) else mret (inl (u32 (i + 1)))
  else mret (inr npos).

(** A round for each character and two more are enough. *)
Definition find_with (s : String_) (m : Z) (P : Z -> Console Z) : Console Z :=
  l ← (match _string s with None => mret [] | Some b => bytes_of b end : Console (list Z));
  st_loop (Z.to_nat (_length s) + 3) (find_body l (_length s) m P) 0.

Definition String_find (s P : String_) : Console Z :=
  find_with s (String_length P) (fun j => String_at P (s32 j)).

Definition String_find_chars (s : String_) (P : list Z) : Console Z :=
  find_with s (Z.of_nat (length P)) (fun j => st_lift (tbl (P ++ [0]) j)).

(** * [string_t] *)

(** [pszValue]. *)
Definition string_t : Type := option nat.

Definition string_t_default : string_t := None.

Definition string_t_ToCStr (s : string_t) : Console (list Z) :=
  match s with None => mret [] | Some b => l ← bytes_of b; st_lift (cstr l) end.

(** The constructor from a text, and the copy constructor. *)
Definition string_t_of (str : list Z) : Console string_t :=
  let size := u32 (Z.of_nat (length str) + 1) in
  b ← malloc junk size;
  l ← bytes_of b;
  l ← st_lift (strcpy_s l size str);
  put_block b (Bytes l);;
  mret (Some b).
Definition string_t_copy (s : string_t) : Console string_t :=
  text ← string_t_ToCStr s; string_t_of text.

Definition string_t_destroy (s : string_t) : Console unit :=
  match s with None => mret tt | Some b => free_block b end.

(** The assignment that the compiler declares copies the pointer; the old block is lost. *)
Definition string_t_assign (s rhs : string_t) : string_t := rhs.

Definition string_t_not (s : string_t) : bool := bool_decide (s = None).
Definition string_t_eqb (s rhs : string_t) : bool := bool_decide (s = rhs).

(** * [StrUtils] *)

Definition NumToStr (num : Z) : Console String_ := String_new (_itoa_s num).

(** [StrToNum<int>]: [>>] fails on what is not a number or does not fit. *)
Definition StrToNum (s : String_) : Console Z :=
  text ← CStr s;
  mret (match scan_number text with
        | Some (v, _) => if (- 2 ^ 31 <=? v) && (v <? 2 ^ 31) then v else 0
        | None => 0
        end).
End Str.
