(* ===== verification/Cfg.v ===== *)
(** The configuration: cfg.h.  [g_config] points to the fields, one after the other,
    each ended by a bar; the file cfg holds the same bytes. *)

From S2P Require Import Prelude CMem Console.

(** [ConfigOptions]. *)
Definition DEVICE : Z := 0.
Definition PORT : Z := 1.
Definition GAY : Z := 2.
Definition OPTCOUNT : Z := 3.

Definition bar : Z := 124.

(** [g_default_config], with its terminator. *)
Definition g_default_config : list Z :=
  [2; 0; 0; 0; bar; 0x87; 0x69; 0; 0; bar; 103; 97; 121; 112; 117; 115; 115; bar; 0].

(** [memchr] over [n] bytes of an object, from its byte [l] on; the result is an index. *)
Fixpoint memchr (l : list Z) (c : Z) (n : nat) : result (option Z) :=
  match n with
  | O => Ok None
  | S n' =>
      match l with
      | [] => Fault (OutOfBounds 0)
      | b :: l' =>
          if b =? c then Ok (Some 0)
          else r ← memchr l' c n'; Ok (match r with Some i => Some (i + 1) | None => None end)
      end
  end.

Section Cfg.
Context (junk : nat -> nat -> Z).

(** Whether [realloc] of a block to a size finds another block. *)
Context (realloc_moves : nat -> Z -> bool).

(** The object that a [config_base] points to. *)
Definition config_bytes (c : config_base) : Console (list Z) :=
  match c with
  | ConfigNull => st_fault NullDeref
  | ConfigStatic => p ← st_get; mret (default_config p)
  | ConfigHeap b => bytes_of b
  end.

Definition config_put (c : config_base) (l : list Z) : Console unit :=
  match c with
  | ConfigNull => st_fault NullDeref
  | ConfigStatic => st_modify (set_default l)
  | ConfigHeap b => put_block b (Bytes l)
  end.

(** [v = memchr(v, '|', length) + 1] and the new [length]; offsets from [g_config].
    A null result makes the next [memchr] read at address one. *)
Definition next_field (buf : list Z) (size v length : Z) : result (Z * Z) :=
  r ← memchr (drop (Z.to_nat v) buf) bar (Z.to_nat length);
  match (r : option Z) with
  | None => Fault NullDeref
  | Some i => Ok (v + i + 1, size - (v + i + 1))
  end.

Fixpoint skip_fields (opt : nat) (buf : list Z) (size v length : Z) : result (Z * Z) :=
  match opt with
  | O => Ok (v, length)
  | S k => r ← next_field buf size v length; skip_fields k buf size (fst r) (snd r)
  end.

(** The result is the offset of the value. *)
Definition get_config_value (opt : Z) : Console Z :=
  p ← st_get;
  buf ← config_bytes (g_config p);
  r ← st_lift (skip_fields (Z.to_nat opt) buf (g_config_size p) 0 (g_config_size p));
  delimiter ← st_lift (memchr (drop (Z.to_nat (fst (r : Z * Z))) buf) bar (Z.to_nat (snd r)));
  mret (fst r).

(** Only what [malloc] returned may be given to [realloc]. *)
Definition realloc_config (c : config_base) (newSize : Z) : Console unit :=
  match c with
  | ConfigHeap b =>
      l ← bytes_of b;
      p ← st_get;
      let grown b' := take (Z.to_nat newSize)
        (l ++ (junk b' <$> seq (length l) (Z.to_nat newSize - length l))) in
      if realloc_moves b newSize then
        b' ← new_block (Bytes (grown (length (heap p))));
        free_block b;;
        st_modify (fun p => set_config (ConfigHeap b') (g_config_size p) p)
      else put_block b (Bytes (grown b))
  | _ => st_fault InvalidParameter
  end.

(** The copies go through [v] and [delimiter], which point into the old block. *)
Definition set_config_value (opt : Z) (value : list Z) (size : Z) : Console unit :=
  p ← st_get;
  let cfg := g_config p in
  let origLength := g_config_size p in
  buf ← config_bytes cfg;
  r ← st_lift (skip_fields (Z.to_nat opt) buf origLength 0 origLength);
  let '(v, length) := r : Z * Z in
  d ← st_lift (memchr (drop (Z.to_nat v) buf) bar (Z.to_nat length));
  match (d : option Z) with
  | None => st_fault NullDeref
  | Some d =>
      let delimiter := v + d in
      let length := origLength - delimiter in
      let oldValueSize := delimiter - v in
      let newSize := s32 (origLength - oldValueSize + size) in
      realloc_config cfg newSize;;
      (* set new value then copy other values to the end *)
      buf ← config_bytes cfg;
      buf ← st_lift (store_at buf v value);
      rest ← st_lift (fetch_at buf delimiter length);
      buf ← st_lift (store_at buf (v + size) rest);
      config_put cfg buf;;
      st_modify (fun p => set_config (g_config p) newSize p)
  end.

Definition set_config_option (opt : Z) (value : memory_t) : Console unit :=
  if OPTCOUNT <? opt then print [InvalidOption]
  else
    bytes ← memory_bytes value;
    set_config_value opt bytes (m_nSize value).

(** Four bytes are taken from the field, however long it is. *)
Definition get_config_option (opt : Z) : Console memory_t :=
  if OPTCOUNT <? opt then memory_default junk
  else
    p ← st_get;
    v ← get_config_value opt;
    buf ← config_bytes (g_config p);
    src ← st_lift (fetch_at buf v sizeof_int);
    memory_of_ptr junk src sizeof_int.

(** * The file *)

(** The error of [fopen_s], zero if it opens the file. *)
Context (fopen_error : Z).

(** [inl] is the code with which the process exits. *)
Definition check_config_file : Console (Z + bool) :=
  p ← st_get;
  if negb (fopen_error =? 0) then
    print [ShowError fopen_error];; mret (inl fopen_error)
  else
    match file p with
    | None =>
        (* Make new default config *)
        st_modify (set_config ConfigStatic (Z.of_nat (length (default_config p))));;
        st_modify (set_file (Some (default_config p)));;
        mret (inr false)
    | Some content =>
        let configSize := Z.of_nat (length content) in
        b ← malloc junk configSize;
        put_block b (Bytes content);;
        st_modify (set_config (ConfigHeap b) configSize);;
        mret (inr true)
    end.

(** [fwrite] at the head of the file opened for update: what is behind stays. *)
Definition save_config_file : Console unit :=
  p ← st_get;
  buf ← config_bytes (g_config p);
  l ← st_lift (fetch_at buf 0 (g_config_size p));
  st_modify (set_file (Some (l ++ drop (length l) (default [] (file p))))).

Definition save_config (cfg_device cfg_port : memory_t) : Console (Z + bool) :=
  if negb (fopen_error =? 0) then
    print [ShowError fopen_error];; mret (inl fopen_error)
  else
    port ← memory_copy junk cfg_port;
    set_config_option PORT port;;
    device ← memory_copy junk cfg_device;
    set_config_option DEVICE device;;
    save_config_file;;
    mret (inr true).
End Cfg.
