(* ===== verification/Main.v ===== *)
(** [_tmain] of sniffles.cpp up to the start of the sniffer: the choice of device and
    port on the console or from the configuration, the configuration file, the capture
    filter. *)

From S2P Require Import Prelude CMem BitRead Ice Tins Sniffles Console Str Cfg.

(** How the function ends: the process exits with a code, or it is in [sniff_loop] on a
    device with a filter.  The entries of the device list are never null, so the tests
    for that do not appear. *)
Inductive outcome :=
  | Exited (code : Z)
  | Sniffing (device : Z) (filter : list Z).

(** The process at its start, with a file cfg or without, and what will be typed. *)
Definition at_start (cfg : option (list Z)) (typed : list Z) : process :=
  mkproc [] g_default_config ConfigNull 0 cfg typed [].

(** ["port "]. *)
Definition port_text : list Z := [112; 111; 114; 116; 32].

Section Main.
Context (junk : nat -> nat -> Z) (realloc_moves : nat -> Z -> bool) (fopen_error : Z).

(** The number of devices pcap finds, if it can tell; the list is numbered from 1. *)
Context (devices : option nat).

(** What the uninitialised local [port] holds. *)
Context (port0 : Z).

(** What [list_all_devs] prints and [create_dev_list] does not; the length of the
    list. *)
Definition list_all_devs : Console Z :=
  match devices with
  | None => print [ShowError (-1)];; mret 0
  | Some n => print (ShowDevice <$> seqZ 1 (Z.of_nat n));; mret (Z.of_nat n)
  end.

Definition create_dev_list : Console Z :=
  match devices with
  | None => print [ShowError (-1)];; mret 0
  | Some n => mret (Z.of_nat n)
  end.

(** One round of the question for Y or N; the result is [bSetConfig]. *)
Definition ask_existing_body (_ : unit) : Console (unit + bool) :=
  character ← getchar;
  let key k := bool_decide (character = Some k) in
  if key 110 || key 78 then mret (inr true)
  else if key 121 || key 89 then mret (inr false)
  else if negb (key 10) then print [AskYesNo];; mret (inl tt)
  else mret (inl tt).

(** One round for the device and for the port; a failed conversion leaves the variable
    as it is. *)
Definition ask_device_body (size : Z) (devIndex : Z) : Console (Z + Z) :=
  r ← scanf_d;
  let devIndex := match (r : option Z) with Some v => v | None => devIndex end in
  if (devIndex <=? size) && (0 <? devIndex) then mret (inr devIndex)
  else print [NotValid];; mret (inl devIndex).

Definition ask_port_body (port : Z) : Console (Z + Z) :=
  r ← scanf_d;
  let port := match (r : option Z) with Some v => u16 v | None => port end in
  if 0 <? port then mret (inr port) else print [NotValid];; mret (inl port).

(** From the list of devices to the two values and the number of devices. *)
Definition choose (fuel : nat) : Console (memory_t * memory_t * Z) :=
  size ← list_all_devs;
  print [AskDevice];;
  devIndex ← st_loop fuel (ask_device_body size) 0;
  print [AskPort];;
  port ← st_loop fuel ask_port_body port0;
  cfg_device ← memory_of_value junk devIndex;
  cfg_port ← memory_of_value junk port;
  mret (cfg_device, cfg_port, size).

(** The values of the configuration file. *)
Definition restore : Console (memory_t * memory_t * Z) :=
  cfg_device ← get_config_option junk DEVICE;
  cfg_port ← get_config_option junk PORT;
  size ← create_dev_list;
  mret (cfg_device, cfg_port, size).

(** From the access to the chosen device on. *)
Definition start (cfg_device cfg_port : memory_t) (size : Z) : Console outcome :=
  dev ← memory_value cfg_device;
  let device := u32 (dev - 1) in
  if size <=? device then st_fault (OutOfBounds device)
  else
    cfg_port' ← memory_copy junk cfg_port;
    cfg_device' ← memory_copy junk cfg_device;
    r ← save_config junk realloc_moves fopen_error cfg_device' cfg_port';
    match (r : Z + bool) with
    | inl code => mret (Exited code)
    | inr _ =>
        print [ListeningOn (device + 1)];;
        port ← memory_value cfg_port;
        s ← String_new junk port_text;
        n ← NumToStr junk port;
        text ← CStr n;
        o ← String_plus junk s text;
        strFilter ← String_of_ref o;
        String_destroy n;;
        String_destroy s;;
        filter ← CStr strFilter;
        print [ShowFilter filter];;
        memory_free cfg_device;;
        memory_free cfg_port;;
        mret (Sniffing (device + 1) filter)
    end.

(** [fuel] bounds the rounds of the questions. *)
Definition _tmain (fuel : nat) : Console outcome :=
  print [ShowBanner];;
  cfg_device ← memory_default junk;
  cfg_port ← memory_default junk;
  r ← check_config_file junk fopen_error;
  match (r : Z + bool) with
  | inl code => mret (Exited code)
  | inr bFileExisted =>
      print [AskExisting];;
      bSetConfig ← st_loop fuel ask_existing_body tt;
      r ← (if (bFileExisted : bool) && negb (bSetConfig : bool) then restore else choose fuel);
      let '(cfg_device, cfg_port, size) := r : memory_t * memory_t * Z in
      start cfg_device cfg_port size
  end.
End Main.

(** The whole program: [_tmain], and the loop of the sniffer in which it ends. *)

(** [BaseSniffer::sniff_loop] over the packets that pcap delivers, which may never end; the
    list is as much of them as is looked at.  The clauses for the exceptions of the accessors
    have no counterpart: the handler calls none that throws. *)
Fixpoint sniff_loop {P S} (function : P -> ST S bool) (max_packets : Z) (packets : list P) : ST S unit :=
  match packets with
  | [] => mret tt
  | it :: packets =>
      (* If the functor returns false, we're done *)
      r ← function it;
      if negb r then mret tt
      else
        let left := if max_packets =? 0 then 0 else u32 (max_packets - 1) in
        if negb (max_packets =? 0) && (left =? 0) then mret tt
        else sniff_loop function left packets
  end.

(** A packet, with the stack frame and the uninitialised storage its call of the handler
    finds. *)
Record arrival := mkarrival {
  at_frame : frame;
  at_subkeys : list IceSubkey;
  at_packet : list PDU
}.

Section Program.
Context {Msg : Type} `{MessageParser Msg}.
Context (junk : nat -> nat -> Z) (realloc_moves : nat -> Z -> bool) (fopen_error : Z).
Context (devices : option nat) (port0 : Z).
Context (heap_oracle : nat -> option (nat -> Z)).

(** What arrives on a device under a filter. *)
Context (capture : Z -> list Z -> list arrival).

Definition handle (fuel : nat) (x : arrival) : ST (world Msg) bool :=
  packet_loop_handler heap_oracle fuel (at_frame x) (at_subkeys x) (at_packet x).

(** The exit code and the two parts of the final state; [rounds] bounds the questions,
    [fuel] the messages of a packet. *)
Definition program (rounds fuel : nat) (p : process) : result (Z * process * world Msg) :=
  let w := mkworld ∅ 0 ice_statics0 [] in
  r ← _tmain junk realloc_moves fopen_error devices port0 rounds p;
  match (r : outcome * process) with
  | (Exited code, p) => Ok (code, p, w)
  | (Sniffing device filter, p) =>
      r ← sniff_loop (handle fuel) 0 (capture device filter) w;
      Ok (0, p, snd (r : unit * world Msg))
  end.
End Program.
