(* ===== verification/ConsoleSpec.v ===== *)
(** What the operations on blocks do, up to the names of the new ones: specifications of
    the heap operations, of [memory_t] and of [String]. *)

From S2P Require Import Prelude CMem Console Str.

(** * Frames *)

(** A live block and its contents. *)
Definition live (p : process) (b : nat) (c : cell) : Prop := heap p !! b = Some (Some c).

(** [p'] has the blocks of [p] and perhaps more, and differs in nothing else. *)
Record ext (p p' : process) : Prop := {
  ext_old : forall b, (b < length (heap p))%nat -> heap p' !! b = heap p !! b;
  ext_more : (length (heap p) <= length (heap p'))%nat;
  ext_default : default_config p' = default_config p;
  ext_config : g_config p' = g_config p;
  ext_size : g_config_size p' = g_config_size p;
  ext_file : file p' = file p;
  ext_input : input p' = input p;
  ext_output : output p' = output p
}.

#[export] Instance ext_preorder : PreOrder ext.
Proof.
  split; [done|]. intros p p' p'' [] []. constructor; try congruence; [|lia].
  intros b Hb. rewrite <- ext_old0 by done. apply ext_old1. lia.
Qed.

Lemma live_lt p b c : live p b c -> (b < length (heap p))%nat.
Proof. apply lookup_lt_Some. Qed.

Lemma ext_live p p' b c : ext p p' -> live p b c -> live p' b c.
Proof. intros H Hb. unfold live in *. rewrite (ext_old _ _ H); [done|]. by eapply live_lt. Qed.

(** * Blocks *)

Lemma new_block_spec c p : exists b p', new_block c p = Ok (b, p') /\ ext p p' /\ live p' b c /\
  (length (heap p) <= b)%nat.
Proof.
  eexists _, _. split; [done|]. split; [|split].
  - constructor; try done; cbn [set_heap heap]; rewrite ?length_app; [|lia].
    intros b Hb. by apply lookup_app_l.
  - unfold live. cbn [set_heap heap]. by rewrite lookup_app_r, Nat.sub_diag by lia.
  - done.
Qed.

Lemma block_at_spec p b c : live p b c -> block_at b p = Ok (c, p).
Proof. intros H. unfold block_at. by rewrite H. Qed.

Lemma bytes_of_spec p b l : live p b (Bytes l) -> bytes_of b p = Ok (l, p).
Proof. intros H. unfold bytes_of. by rewrite (st_bind_ok _ _ _ _ _ (block_at_spec _ _ _ H)). Qed.

(** An assignment to a block changes that block. *)
Lemma put_block_spec p b c c' : live p b c ->
  put_block b c' p = Ok (tt, set_heap (<[b := Some c']> (heap p)) p) /\
  live (set_heap (<[b := Some c']> (heap p)) p) b c'.
Proof.
  intros H. unfold put_block. rewrite (st_bind_ok _ _ _ _ _ (block_at_spec _ _ _ H)).
  split; [done|]. unfold live. cbn [set_heap heap]. apply list_lookup_insert_eq. by eapply live_lt.
Qed.

(** To a block that is new since [p0], it keeps the frame. *)
Lemma put_new p0 p b c c' : ext p0 p -> live p b c -> (length (heap p0) <= b)%nat ->
  exists p', put_block b c' p = Ok (tt, p') /\ ext p0 p' /\ live p' b c' /\
    (forall b' d, b' <> b -> live p b' d -> live p' b' d).
Proof.
  intros He Hl Hb. destruct (put_block_spec p b c c' Hl) as [E Hl']. eexists. split; [exact E|].
  destruct He. split; [|split; [done|]].
  - constructor; try done; cbn [set_heap heap]; rewrite ?length_insert; [|done].
    intros b' Hb'. rewrite list_lookup_insert_ne by lia. by apply ext_old0.
  - intros b' d Hne Hd. unfold live. cbn [set_heap heap]. by rewrite list_lookup_insert_ne.
Qed.

Lemma free_new p0 p b c : ext p0 p -> live p b c -> (length (heap p0) <= b)%nat ->
  exists p', free_block b p = Ok (tt, p') /\ ext p0 p' /\
    (forall b' d, b' <> b -> live p b' d -> live p' b' d).
Proof.
  intros He Hl Hb. unfold free_block. rewrite (st_bind_ok _ _ _ _ _ (block_at_spec _ _ _ Hl)).
  eexists. split; [done|]. destruct He. split.
  - constructor; try done; cbn [set_heap heap]; rewrite ?length_insert; [|done].
    intros b' Hb'. rewrite list_lookup_insert_ne by lia. by apply ext_old0.
  - intros b' d Hne Hd. unfold live. cbn [set_heap heap]. by rewrite list_lookup_insert_ne.
Qed.

Lemma fetch_app a l r off n : off = Z.of_nat (length a) -> n = Z.of_nat (length l) ->
  fetch_at (a ++ l ++ r) off n = Ok l.
Proof.
  intros -> ->. unfold fetch_at. rewrite !length_app.
  destruct (Z.leb_spec (Z.of_nat (length a) + Z.of_nat (length l))
    (Z.of_nat (length a + (length l + length r)))); [|lia].
  by rewrite !Nat2Z.id, drop_app_length, take_app_length.
Qed.

Lemma fetch_all l n : n = Z.of_nat (length l) -> fetch_at l 0 n = Ok l.
Proof. intros Hn. rewrite <- (app_nil_r l) at 1. by apply (fetch_app [] l []). Qed.

Lemma store_app a l r src off : off = Z.of_nat (length a) -> length src = length l ->
  store_at (a ++ l ++ r) off src = Ok (a ++ src ++ r).
Proof.
  intros -> Hl. unfold store_at. rewrite !length_app.
  destruct (Z.leb_spec (Z.of_nat (length a) + Z.of_nat (length src))
    (Z.of_nat (length a + (length l + length r)))); [|lia].
  rewrite Nat2Z.id, take_app_length. do 3 f_equal.
  rewrite Hl, app_assoc, <- length_app. apply drop_app_length.
Qed.

Lemma store_all l src : length src = length l -> store_at l 0 src = Ok src.
Proof.
  intros Hl. pose proof (store_app [] l [] src 0 eq_refl Hl) as E. by rewrite !app_nil_r in E.
Qed.

(** * [memory_t] *)

Section Specs.
Context (junk : nat -> nat -> Z).

Lemma malloc_spec n p : exists b p' l, malloc junk n p = Ok (b, p') /\ ext p p' /\
  live p' b (Bytes l) /\ length l = Z.to_nat n /\ (length (heap p) <= b)%nat.
Proof.
  unfold malloc. rewrite (st_bind_ok _ _ _ _ _ eq_refl).
  destruct (new_block_spec (Bytes (junk (length (heap p)) <$> seq 0 (Z.to_nat n))) p)
    as (b & p' & E & He & Hl & Hb).
  exists b, p', (junk (length (heap p)) <$> seq 0 (Z.to_nat n)). split; [exact E|].
  split; [done|]. split; [done|]. split; [by rewrite length_fmap, length_seq|done].
Qed.

(** A [memory_t] with its bytes. *)
Definition holds_bytes (p : process) (m : memory_t) (l : list Z) : Prop :=
  exists b, m = mkmemory (Some b) (Z.of_nat (length l)) /\ live p b (Bytes l).

Lemma holds_bytes_ext p p' m l : ext p p' -> holds_bytes p m l -> holds_bytes p' m l.
Proof. intros He (b & -> & Hb). exists b. split; [done|]. by eapply ext_live. Qed.

Lemma memory_of_ptr_spec src n p : n = Z.of_nat (length src) ->
  exists m p', memory_of_ptr junk src n p = Ok (m, p') /\ ext p p' /\ holds_bytes p' m src /\
    (forall b, m_pValue m = Some b -> (length (heap p) <= b)%nat).
Proof.
  intros ->. unfold memory_of_ptr, memory_init.
  destruct (malloc_spec (Z.of_nat (length src)) p) as (b & p1 & l & E & He & Hl & Hlen & Hb).
  rewrite Nat2Z.id in Hlen.
  rewrite (st_bind_ok _ _ p (mkmemory (Some b) (Z.of_nat (length src))) p1)
    by (by rewrite (st_bind_ok _ _ _ _ _ E)).
  destruct (put_new p p1 b _ (Bytes src) He Hl Hb) as (p2 & E2 & He2 & Hl2 & _).
  assert (memory_store (mkmemory (Some b) (Z.of_nat (length src))) src p1 = Ok (tt, p2)) as E3.
  { unfold memory_store. cbn [m_pValue].
    rewrite (st_bind_ok _ _ _ _ _ (bytes_of_spec _ _ _ Hl)).
    rewrite (st_bind_ok _ _ p1 src p1) by (unfold st_lift; by rewrite store_all). exact E2. }
  rewrite (st_bind_ok _ _ _ _ _ E3). eexists _, p2. split; [done|]. split; [done|].
  split; [by exists b|]. by intros b' [= <-].
Qed.

Lemma memory_of_value_spec v p :
  exists m p', memory_of_value junk v p = Ok (m, p') /\ ext p p' /\ holds_bytes p' m (int_bytes v) /\
    (forall b, m_pValue m = Some b -> (length (heap p) <= b)%nat).
Proof. exact (memory_of_ptr_spec (int_bytes v) 4 p eq_refl).
Qed.

Lemma memory_bytes_spec p m l : holds_bytes p m l -> memory_bytes m p = Ok (l, p).
Proof.
  intros (b & -> & Hb). unfold memory_bytes. cbn [m_pValue m_nSize].
  rewrite (st_bind_ok _ _ _ _ _ (bytes_of_spec _ _ _ Hb)). unfold st_lift. by rewrite fetch_all.
Qed.

Lemma memory_copy_spec m l p : holds_bytes p m l ->
  exists m' p', memory_copy junk m p = Ok (m', p') /\ ext p p' /\ holds_bytes p' m' l /\
    (forall b, m_pValue m' = Some b -> (length (heap p) <= b)%nat).
Proof.
  intros Hm. destruct (memory_of_ptr_spec l (Z.of_nat (length l)) p eq_refl)
    as (m' & p' & E & He & Hm' & Hb').
  exists m', p'. split; [|done]. unfold memory_copy, memory_of_ptr in *.
  destruct Hm as (b & -> & Hb). cbn [m_nSize].
  destruct (memory_init junk (Z.of_nat (length l)) p) as [[m1 p1]|] eqn:E1;
    [|by rewrite (st_bind_fault _ _ _ _ E1) in E].
  rewrite (st_bind_ok _ _ _ _ _ E1) in E. rewrite (st_bind_ok _ _ _ _ _ E1).
  assert (ext p p1) as He1.
  { destruct (malloc_spec (Z.of_nat (length l)) p) as (b1 & p2 & l1 & E2 & He2 & _).
    unfold memory_init in E1. rewrite (st_bind_ok _ _ _ _ _ E2) in E1. by injection E1 as _ <-. }
  rewrite (st_bind_ok _ _ p1 l p1); [exact E|].
  apply memory_bytes_spec. exists b. split; [done|]. by eapply ext_live.
Qed.

(** An [int] survives its bytes. *)
Lemma le_join_int_bytes v : le_join (int_bytes v) = u32 v.
Proof.
  transitivity (bits v 0 (8 + (8 + (8 + 8))));
    [|unfold bits; rewrite Z.shiftr_0_r; by apply Z.land_ones].
  unfold int_bytes. rewrite !bits_app by lia. simpl. by rewrite Z.lor_0_r.
Qed.

Lemma int_of_int_bytes v : - 2 ^ 31 <= v < 2 ^ 31 -> int_of_bytes (int_bytes v) = v.
Proof.
  intros Hv. unfold int_of_bytes. rewrite le_join_int_bytes, swrap_uwrap by lia.
  apply swrap_small; [lia|]. simpl in *. lia.
Qed.

Lemma memory_value_spec p m v : holds_bytes p m (int_bytes v) -> - 2 ^ 31 <= v < 2 ^ 31 ->
  memory_value m p = Ok (v, p).
Proof.
  intros (b & -> & Hb) Hv. unfold memory_value. cbn [m_pValue].
  rewrite (st_bind_ok _ _ _ _ _ (bytes_of_spec _ _ _ Hb)). unfold st_lift.
  rewrite (st_bind_ok _ _ p (int_bytes v) p) by by rewrite fetch_all.
  by rewrite int_of_int_bytes.
Qed.

(** * [String] *)

(** A text that a C string can hold. *)
Definition text_ok (t : list Z) : Prop := (0 ∉ t) /\ Z.of_nat (length t) < 2 ^ 30.

Lemma cstr_text t r : 0 ∉ t -> cstr (t ++ 0 :: r) = Ok t.
Proof.
  induction t as [|c t IH]; intros H; [done|]. cbn [app cstr].
  destruct (Z.eqb_spec c 0) as [->|]; [by destruct H; left|].
  rewrite IH; [done|]. intros Hin. apply H. by right.
Qed.

(** A [String] with its text. *)
Definition holds_text (p : process) (s : String_) (t : list Z) : Prop :=
  exists b, s = mkString (Some b) (Z.of_nat (length t) + 1) (Z.of_nat (length t)) /\
    live p b (Bytes (t ++ [0])).

Lemma holds_text_ext p p' s t : ext p p' -> holds_text p s t -> holds_text p' s t.
Proof. intros He (b & -> & Hb). exists b. split; [done|]. by eapply ext_live. Qed.

Lemma own_text_spec p s t : 0 ∉ t -> holds_text p s t -> own_text s p = Ok (t, p).
Proof.
  intros Ht (b & -> & Hb). unfold own_text. cbn [_string].
  rewrite (st_bind_ok _ _ _ _ _ (bytes_of_spec _ _ _ Hb)). unfold st_lift.
  by rewrite (cstr_text t []).
Qed.

Lemma CStr_spec p s t : 0 ∉ t -> holds_text p s t -> CStr s p = Ok (t, p).
Proof.
  intros Ht Hs. unfold CStr. pose proof (own_text_spec p s t Ht Hs). by destruct Hs as (b & -> & _).
Qed.

(** The copy of a text into an array of its size, and of another one behind it. *)
Lemma strcpy_fits dst t r : length dst = length (t ++ 0 :: r) ->
  strcpy_s dst (Z.of_nat (length dst)) t = Ok (t ++ 0 :: drop (S (length t)) dst).
Proof.
  intros Hl. unfold strcpy_s. rewrite length_app in Hl. cbn [length] in Hl.
  destruct (Z.leb_spec (Z.of_nat (length dst)) (Z.of_nat (length t))); [lia|].
  assert (length (t ++ [0]) = length (take (S (length t)) dst)) as Hs
    by (rewrite length_app, length_take; cbn [length]; lia).
  pose proof (store_app [] _ (drop (S (length t)) dst) (t ++ [0]) 0 eq_refl Hs) as E.
  cbn [app] in E. by rewrite take_drop, <- app_assoc in E.
Qed.

Lemma strcat_fits t u r : 0 ∉ t -> (length u <= length r)%nat ->
  strcat_s (t ++ 0 :: r) (Z.of_nat (length (t ++ 0 :: r))) u =
  Ok (t ++ u ++ 0 :: drop (length u) r).
Proof.
  intros Ht Hl. unfold strcat_s. rewrite cstr_text by done. cbn [mbind result_bind].
  rewrite length_app. cbn [length].
  destruct (Z.leb_spec (Z.of_nat (length t + S (length r))) (Z.of_nat (length t + length u))); [lia|].
  replace (t ++ 0 :: r) with (t ++ (0 :: take (length u) r) ++ drop (length u) r)
    by (cbn [app]; by rewrite take_drop).
  rewrite store_app; [by rewrite <- app_assoc|done|].
  rewrite length_app. cbn [length]. rewrite length_take. lia.
Qed.

Lemma String_new_spec t p : text_ok t ->
  exists s p', String_new junk t p = Ok (s, p') /\ ext p p' /\ holds_text p' s t /\
    (forall b, _string s = Some b -> (length (heap p) <= b)%nat).
Proof.
  intros [Ht Hl]. unfold String_new.
  assert (u32 (Z.of_nat (length t)) = Z.of_nat (length t)) as -> by (apply u32_small; lia).
  assert (s32 (Z.of_nat (length t) + 1) = Z.of_nat (length t) + 1) as ->
    by (apply swrap_small; simpl in *; lia).
  destruct (malloc_spec (Z.of_nat (length t) + 1) p) as (b & p1 & l & E & He & Hlive & Hlen & Hb).
  unfold new_chars. rewrite (st_bind_ok _ _ _ _ _ E).
  rewrite (st_bind_ok _ _ _ _ _ (bytes_of_spec _ _ _ Hlive)).
  assert (length l = length (t ++ 0 :: [])) as Hl' by (rewrite length_app, Hlen; cbn [length]; lia).
  pose proof (strcpy_fits l t [] Hl') as Ec.
  replace (Z.of_nat (length l)) with (Z.of_nat (length t) + 1) in Ec
    by (rewrite Hl', length_app; cbn [length]; lia).
  rewrite drop_ge in Ec by (rewrite Hl', length_app; cbn [length]; lia).
  rewrite (st_bind_ok _ _ p1 (t ++ [0]) p1) by (unfold st_lift; by rewrite Ec).
  destruct (put_new p p1 b _ (Bytes (t ++ [0])) He Hlive Hb) as (p2 & E2 & He2 & Hl2 & _).
  rewrite (st_bind_ok _ _ _ _ _ E2). eexists _, p2. split; [done|]. split; [done|].
  split; [by exists b|]. by intros b' [= <-].
Qed.

(** The new characters of a concatenation. *)
Lemma concat_new_spec s t u p : text_ok (t ++ u) -> holds_text p s t ->
  exists temp p', concat_new junk s u p = Ok (temp, p') /\ ext p p' /\
    holds_text p' temp (t ++ u) /\ (forall b, _string temp = Some b -> (length (heap p) <= b)%nat).
Proof.
  intros [Ht Hl] Hs. unfold concat_new.
  assert (0 ∉ t) as H0 by (intros H; apply Ht, elem_of_app; by left).
  rewrite (st_bind_ok _ _ _ _ _ (own_text_spec p s t H0 Hs)). rewrite length_app in Hl.
  assert (u32 (Z.of_nat (length u) + Z.of_nat (length t)) = Z.of_nat (length (t ++ u))) as ->
    by (rewrite length_app, u32_small; lia).
  assert (s32 (Z.of_nat (length (t ++ u)) + 1) = Z.of_nat (length (t ++ u)) + 1) as ->
    by (rewrite length_app; apply swrap_small; simpl in *; lia).
  destruct (malloc_spec (Z.of_nat (length (t ++ u)) + 1) p)
    as (b & p1 & l & E & He & Hlive & Hlen & Hb).
  unfold new_chars. rewrite (st_bind_ok _ _ _ _ _ E).
  rewrite (st_bind_ok _ _ _ _ _ (bytes_of_spec _ _ _ Hlive)).
  rewrite length_app in Hlen.
  assert (Z.of_nat (length (t ++ u)) + 1 = Z.of_nat (length l)) as -> by (rewrite length_app; lia).
  assert (length l = length (t ++ 0 :: u)) as Hl' by (rewrite length_app; cbn [length]; lia).
  rewrite (st_bind_ok _ _ p1 (t ++ 0 :: drop (S (length t)) l) p1)
    by (unfold st_lift; by rewrite (strcpy_fits l t u Hl')).
  pose proof (strcat_fits t u (drop (S (length t)) l) H0) as Ec.
  rewrite length_app in Ec. cbn [length] in Ec. rewrite length_drop in Ec.
  replace (length t + S (length l - S (length t)))%nat with (length l) in Ec by lia.
  specialize (Ec ltac:(lia)).
  rewrite (drop_ge (drop (S (length t)) l)) in Ec by (rewrite length_drop; lia).
  rewrite (st_bind_ok _ _ p1 (t ++ u ++ [0]) p1) by (unfold st_lift; by rewrite Ec).
  destruct (put_new p p1 b _ (Bytes (t ++ u ++ [0])) He Hlive Hb) as (p2 & E2 & He2 & Hl2 & _).
  rewrite (st_bind_ok _ _ _ _ _ E2). eexists _, p2. split; [done|]. split; [done|].
  rewrite app_assoc in Hl2. split; [|by intros b' [= <-]]. exists b. split; [|done].
  f_equal; rewrite length_app; lia.
Qed.

(** What [operator+] returns refers to a new object, which nothing else refers to. *)
Lemma String_plus_spec s t u p : text_ok (t ++ u) -> holds_text p s t ->
  exists o temp p', String_plus junk s u p = Ok (o, p') /\ ext p p' /\
    live p' o (Object temp) /\ holds_text p' temp (t ++ u) /\ (length (heap p) <= o)%nat /\
    (forall b, _string temp = Some b -> (length (heap p) <= b)%nat).
Proof.
  intros Ht Hs. unfold String_plus.
  destruct (new_block_spec (Object String_default) p) as (o & p1 & E1 & He1 & Ho & Hob).
  rewrite (st_bind_ok _ _ _ _ _ E1).
  destruct (concat_new_spec s t u p1 Ht (holds_text_ext _ _ _ _ He1 Hs))
    as (temp & p2 & E2 & He2 & Htemp & Hb). rewrite (st_bind_ok _ _ _ _ _ E2).
  assert (ext p p2) as He by by transitivity p1.
  destruct (put_new p p2 o _ (Object temp) He (ext_live _ _ _ _ He2 Ho) Hob)
    as (p3 & E3 & He3 & Ho3 & Hother). rewrite (st_bind_ok _ _ _ _ _ E3).
  exists o, temp, p3. split; [done|]. split; [done|]. split; [done|].
  pose proof (live_lt _ _ _ Ho) as Hlt.
  split; [|split; [done|]].
  - destruct Htemp as (b & -> & Hlb). exists b. split; [done|]. apply Hother; [|done].
    specialize (Hb b eq_refl). lia.
  - intros b Hs'. specialize (Hb b Hs'). pose proof (ext_more _ _ He1). lia.
Qed.
End Specs.
