(* ===== verification/StrProofs.v ===== *)
(** [String::find] against the first position at which the pattern occurs. *)

From S2P Require Import Prelude CMem Console Str ConsoleSpec.

(** The length of the longest common prefix. *)
Fixpoint common (a b : list Z) : nat :=
  match a, b with
  | x :: a', y :: b' => if x =? y then S (common a' b') else O
  | _, _ => O
  end.

(** [u] is a prefix of [a]. *)
Definition starts (u a : list Z) : bool := (common a u =? length u)%nat.

(** The first occurrence of [u] among the first [k] positions of [a]. *)
Fixpoint first_match (u a : list Z) (k : nat) {struct k} : option nat :=
  match k with
  | O => None
  | S k' => if starts u a then Some O
            else match a with
                 | [] => None
                 | _ :: a' => option_map S (first_match u a' k')
                 end
  end.

Lemma starts_prefix u a : starts u a = true <-> exists r, a = u ++ r.
Proof.
  unfold starts. split.
  - intros H%Nat.eqb_eq. revert u H. induction a as [|x a IH]; intros [|y u] H; simpl in H; try done.
    + by exists [].
    + by exists (x :: a).
    + destruct (Z.eqb_spec x y) as [->|]; [|done]. injection H as H.
      destruct (IH u H) as [r ->]. by exists r.
  - intros [r ->]. apply Nat.eqb_eq. induction u as [|y u IH]; simpl; [by destruct r|].
    by rewrite Z.eqb_refl, IH.
Qed.

Lemma common_le a u : (common a u <= length u)%nat.
Proof. revert u. induction a as [|x a IH]; intros [|y u]; simpl; try lia. destruct (x =? y); [|lia].
  specialize (IH u). lia. Qed.

(** A terminated text has a character more than the prefix it shares with a text. *)
Lemma common_terminated (t u : list Z) : 0 ∉ u -> (common (t ++ [0%Z]) u <= length t)%nat.
Proof.
  revert u. induction t as [|x t IH]; intros [|y u] Hu; cbn [app common length]; try lia.
  - destruct (Z.eqb_spec 0 y) as [<-|]; [|lia]. destruct Hu. by left.
  - destruct (x =? y); [|lia]. specialize (IH u). rewrite not_elem_of_cons in Hu. intuition lia.
Qed.

Lemma tbl_lookup {A} (t : list A) i v : t !! i = Some v -> tbl t (Z.of_nat i) = Ok v.
Proof.
  intros H. unfold tbl. destruct (Z.leb_spec 0 (Z.of_nat i)); [|lia]. by rewrite Nat2Z.id, H.
Qed.

Section Find.
Context (p : process) (l u : list Z) (P : Z -> Console Z).
Let m : Z := Z.of_nat (length u).

(** The pattern is read without effect, in front of its end. *)
Hypothesis HP : forall j c, u !! j = Some c -> P (Z.of_nat j) p = Ok (c, p).
Hypothesis Hl : Z.of_nat (length l) < 2 ^ 31.
Hypothesis Hm : m < 2 ^ 31.

Lemma find_match_rounds i j k a b : drop (i + j) l = a -> drop j u = b -> (length b < k)%nat ->
  (common a b < length a \/ common a b = length b)%nat ->
  st_loop k (find_match l m (Z.of_nat i) P) (Z.of_nat j) p = Ok (Z.of_nat (j + common a b), p).
Proof.
  intros Ha Hb Hk Hc. revert i j a b Ha Hb Hk Hc. induction k as [|k IH]; intros i j a b Ha Hb Hk Hc;
    [lia|].
  assert (length b = length u - j)%nat as Hlb by (by rewrite <- Hb, length_drop).
  assert (length a = length l - (i + j))%nat as Hla by (by rewrite <- Ha, length_drop).
  destruct b as [|y b].
  - replace (j + common a [])%nat with j by (destruct a; simpl; lia).
    apply (st_loop_exit k). unfold find_match. cbn [length] in Hlb.
    destruct (Z.ltb_spec (Z.of_nat j) m); [unfold m in *; lia|done].
  - destruct a as [|x a]; [simpl in Hc; lia|]. cbn [length] in Hlb, Hla, Hk.
    assert (l !! (i + j)%nat = Some x) as Hx
      by (rewrite <- (Nat.add_0_r (i + j)), <- lookup_drop, Ha; done).
    assert (u !! j = Some y) as Hy
      by (rewrite <- (Nat.add_0_r j), <- lookup_drop, Hb; done).
    assert (find_match l m (Z.of_nat i) P (Z.of_nat j) p =
      Ok (if x =? y then inl (Z.of_nat j + 1) else inr (Z.of_nat j), p)) as E.
    { unfold find_match. destruct (Z.ltb_spec (Z.of_nat j) m); [|unfold m in *; lia].
      rewrite u32_small by lia.
      rewrite (st_bind_ok _ _ p x p)
        by (unfold st_lift; rewrite <- Nat2Z.inj_add; by rewrite (tbl_lookup _ _ _ Hx)).
      rewrite (st_bind_ok _ _ _ _ _ (HP j y Hy)). by destruct (x =? y). }
    cbn [common]. destruct (x =? y) eqn:Exy.
    + rewrite (st_loop_next _ _ _ _ _ _ E).
      replace (Z.of_nat j + 1) with (Z.of_nat (S j)) by lia.
      rewrite (IH i (S j) a b); [f_equal; f_equal; lia|..].
      * replace (i + S j)%nat with ((i + j) + 1)%nat by lia. by rewrite <- drop_drop, Ha.
      * replace (S j) with (j + 1)%nat by lia. by rewrite <- drop_drop, Hb.
      * lia.
      * simpl in Hc. rewrite Exy in Hc. lia.
    + rewrite Nat.add_0_r. by apply (st_loop_exit k).
Qed.

(** One position. *)
Lemma find_body_at n i : 0 <= n < 2 ^ 31 -> Z.of_nat i <= u32 (n - m) ->
  (common (drop i l) u < length (drop i l) \/ common (drop i l) u = length u)%nat ->
  find_body l n m P (Z.of_nat i) p =
    Ok (if starts u (drop i l) then inr (Z.of_nat i) else inl (u32 (Z.of_nat i + 1)), p).
Proof.
  intros Hn Hi Hc. unfold find_body. destruct (Z.leb_spec (Z.of_nat i) (u32 (n - m))); [|lia].
  rewrite (st_bind_ok _ _ p (Z.of_nat (0 + common (drop i l) u)) p);
    [|apply (find_match_rounds i 0); rewrite ?Nat.add_0_r, ?drop_0; unfold m; done || lia].
  unfold starts. rewrite Nat.add_0_l.
  destruct (Nat.eqb_spec (common (drop i l) u) (length u)) as [E|E]; unfold m;
  destruct (Z.eqb_spec (Z.of_nat (common (drop i l) u)) (Z.of_nat (length u))); done || lia.
Qed.
End Find.

Lemma starts_terminated (u a : list Z) : 0 ∉ u -> starts u (a ++ [0]) = starts u a.
Proof.
  intros Hu. unfold starts. f_equal. revert a.
  induction u as [|y u IH]; intros a; [by destruct a|].
  rewrite not_elem_of_cons in Hu. destruct Hu as [Hy Hu]. destruct a as [|x a]; cbn [app common].
  - by destruct (Z.eqb_spec 0 y).
  - destruct (x =? y); [|done]. by rewrite IH.
Qed.

Lemma starts_short u a : (length a < length u)%nat -> starts u a = false.
Proof.
  intros H. apply Nat.eqb_neq. enough (common a u <= length a)%nat by lia. clear H.
  revert u. induction a as [|x a IH]; intros [|y u]; simpl; try lia.
  destruct (x =? y); [|lia]. specialize (IH u). lia.
Qed.

Section Search.
Context (p : process) (t u : list Z) (P : Z -> Console Z).
Hypothesis HP : forall j c, u !! j = Some c -> P (Z.of_nat j) p = Ok (c, p).
Hypothesis Ht : text_ok t.
Hypothesis Hu : text_ok u.

Let n : Z := Z.of_nat (length t).
Let m : Z := Z.of_nat (length u).

(** One position in front of the terminator or at it. *)
Lemma find_round i : (i <= length t)%nat -> Z.of_nat i <= u32 (n - m) ->
  find_body (t ++ [0]) n m P (Z.of_nat i) p =
    Ok (if starts u (drop i t) then inr (Z.of_nat i) else inl (Z.of_nat (S i)), p).
Proof.
  intros Hi Hr. destruct Ht as [_ Hlt], Hu as [Hu0 Hlu].
  rewrite (find_body_at p (t ++ [0]) u P HP); [|unfold n, m in *..|].
  - rewrite drop_app_le, starts_terminated by done.
    rewrite u32_small by (unfold n, m in *; lia). by replace (Z.of_nat i + 1) with (Z.of_nat (S i)) by lia.
  - rewrite length_app. cbn [length]. lia.
  - lia.
  - lia.
  - rewrite drop_app_le by done. pose proof (common_terminated (drop i t) u Hu0).
    rewrite length_app. cbn [length]. lia.
Qed.

(** Pattern no longer than the text: the first occurrence. *)
Lemma find_fits k i : (length u <= length t)%nat -> (i <= length t - length u + 1)%nat ->
  (length t - length u + 1 - i < k)%nat ->
  st_loop k (find_body (t ++ [0]) n m P) (Z.of_nat i) p =
    Ok (match first_match u (drop i t) (length t - length u + 1 - i) with
        | Some d => Z.of_nat (i + d)
        | None => npos
        end, p).
Proof.
  intros Hle. destruct Ht as [_ Hlt], Hu as [_ Hlu].
  assert (u32 (n - m) = n - m) as Ew by (apply u32_small; unfold n, m; lia).
  revert i. induction k as [|k IH]; intros i Hi Hk; [lia|].
  destruct (decide (i = length t - length u + 1)%nat) as [->|Hne].
  - rewrite Nat.sub_diag. apply (st_loop_exit k). unfold find_body. rewrite Ew.
    destruct (Z.leb_spec (Z.of_nat (length t - length u + 1)) (n - m)); [unfold n, m in *; lia|done].
  - pose proof (find_round i ltac:(lia) ltac:(unfold n, m in *; lia)) as E.
    replace (length t - length u + 1 - i)%nat with (S (length t - length u + 1 - S i)) by lia.
    cbn [first_match]. destruct (starts u (drop i t)) eqn:Es.
    + rewrite Nat.add_0_r. by apply (st_loop_exit k).
    + rewrite (st_loop_next _ _ _ _ _ _ E), (IH (S i)) by lia.
      destruct (drop i t) as [|x r] eqn:Ed.
      * assert (length (drop i t) = 0)%nat as Hz by by rewrite Ed.
        rewrite length_drop in Hz. rewrite (drop_ge t (S i)) by lia.
        replace (length t - length u + 1 - S i)%nat with 0%nat by lia. done.
      * replace (drop (S i) t) with r.
        -- destruct (first_match u r _); [|done]. simpl. do 2 f_equal. lia.
        -- replace (S i) with (i + 1)%nat by lia. by rewrite <- drop_drop, Ed.
Qed.

(** A longer pattern: the difference of the lengths wraps around, and the search runs
    past the end of the text. *)
Lemma find_overruns k i : (length t < length u)%nat -> (i <= length t + 1)%nat ->
  (length t + 1 - i < k)%nat ->
  st_loop k (find_body (t ++ [0]) n m P) (Z.of_nat i) p = Fault (TableIndex (n + 1)).
Proof.
  intros Hlt. destruct Ht as [_ Htl], Hu as [_ Hul].
  assert (u32 (n - m) = n - m + 2 ^ 32) as Ew.
  { unfold uwrap. rewrite <- (Z_mod_plus_full (n - m) 1). apply Z.mod_small. unfold n, m. lia. }
  revert i. induction k as [|k IH]; intros i Hi Hk; [lia|].
  destruct (decide (i = length t + 1)%nat) as [->|Hne].
  - apply (st_loop_fault k). unfold find_body. rewrite Ew.
    destruct (Z.leb_spec (Z.of_nat (length t + 1)) (n - m + 2 ^ 32)); [|unfold n, m in *; lia].
    apply st_bind_fault. apply st_loop_fault. unfold find_match.
    destruct (Z.ltb_spec 0 m); [|unfold m in *; lia]. apply st_bind_fault.
    rewrite u32_small by lia. unfold st_lift, tbl.
    destruct (Z.leb_spec 0 (Z.of_nat (length t + 1) + 0)); [|lia].
    rewrite lookup_ge_None_2 by (rewrite length_app; cbn [length]; lia).
    do 2 f_equal. unfold n. lia.
  - pose proof (find_round i ltac:(lia) ltac:(unfold n, m in *; lia)) as E.
    rewrite starts_short in E by (rewrite length_drop; lia).
    rewrite (st_loop_next _ _ _ _ _ _ E). apply IH; lia.
Qed.

Lemma find_with_spec s : holds_text p s t ->
  find_with s m P p =
    if (length u <=? length t)%nat
    then Ok (match first_match u t (length t - length u + 1) with
             | Some d => Z.of_nat d
             | None => npos
             end, p)
    else Fault (TableIndex (n + 1)).
Proof.
  intros (b & -> & Hb). unfold find_with. cbn [_string _length].
  rewrite (st_bind_ok _ _ _ _ _ (bytes_of_spec _ _ _ Hb)). fold n.
  replace (Z.to_nat n) with (length t) by (unfold n; lia).
  destruct (Nat.leb_spec (length u) (length t)).
  - etrans; [apply (find_fits (length t + 3) 0); lia|]. rewrite drop_0.
    by replace (length t - length u + 1 - 0)%nat with (length t - length u + 1)%nat by lia.
  - apply (find_overruns (length t + 3) 0); lia.
Qed.
End Search.

(** The first occurrence, without its search. *)
Lemma first_match_spec u t k : match first_match u t k with
  | Some d => exists a b, t = a ++ u ++ b /\ d = length a /\
      (forall a' b', t = a' ++ u ++ b' -> (length a <= length a')%nat)
  | None => forall a b, t = a ++ u ++ b -> (k <= length a)%nat
  end.
Proof.
  revert t. induction k as [|k IH]; intros t; cbn [first_match]; [lia|].
  destruct (starts u t) eqn:Es.
  - apply starts_prefix in Es as [r ->]. exists [], r. split; [done|]. split; [done|]. cbn; lia.
  - assert (forall b, t <> u ++ b) as Hno.
    { intros b ->. enough (starts u (u ++ b) = true) by congruence. apply starts_prefix. by exists b. }
    destruct t as [|c t].
    { intros [|? a] b E; [|done]. by destruct (Hno b). }
    specialize (IH t). destruct (first_match u t k) as [d|]; cbn [option_map].
    + destruct IH as (a & b & -> & -> & Hmin). exists (c :: a), b. split; [done|]. split; [done|].
      intros [|c' a'] b' E; [by destruct (Hno b')|]. injection E as _ E. specialize (Hmin a' b' E).
      cbn [length]. lia.
    + intros [|c' a'] b' E; [by destruct (Hno b')|]. injection E as _ E. specialize (IH a' b' E).
      cbn [length]. lia.
Qed.

(** Both forms of the pattern are read without effect. *)
Lemma read_pattern p P u : text_ok u -> holds_text p P u -> forall j c, u !! j = Some c ->
  String_at P (s32 (Z.of_nat j)) p = Ok (c, p).
Proof.
  intros [_ Hu] (b & -> & Hb) j c Hj. unfold String_at. cbn [_string _size].
  pose proof (lookup_lt_Some _ _ _ Hj) as Hlt.
  rewrite (swrap_small 32 (Z.of_nat j)) by (simpl in *; lia).
  rewrite (st_bind_ok _ _ _ _ _ (bytes_of_spec _ _ _ Hb)).
  destruct (Z.leb_spec 0 (Z.of_nat j)); [|lia].
  destruct (Z.ltb_spec (Z.of_nat j) (Z.of_nat (length u) + 1)); [|lia]. cbn [andb].
  unfold st_lift. by rewrite (tbl_lookup _ j c) by (by apply lookup_app_l_Some).
Qed.

Lemma read_chars p (u : list Z) : forall j c, u !! j = Some c ->
  st_lift (S := process) (tbl (u ++ [0]) (Z.of_nat j)) p = Ok (c, p).
Proof.
  intros j c Hj. unfold st_lift. by rewrite (tbl_lookup _ j c) by (by apply lookup_app_l_Some).
Qed.

Lemma String_length_spec p P u : holds_text p P u -> String_length P = Z.of_nat (length u).
Proof. by intros (b & -> & _). Qed.

(** * [string_t] *)

(** Strings with the same text from different constructors are not equal: the operator compares
    pointers. *)
Lemma string_t_copy_differs junk s p s' p' : string_t_copy junk s p = Ok (s', p') ->
  (forall b, s = Some b -> (b < length (heap p))%nat) -> string_t_eqb s s' = false.
Proof.
  intros (t & p1 & E1 & E)%st_bind_inv Hb. apply bool_decide_eq_false_2. intros ->.
  assert (p1 = p) as ->.
  { destruct s' as [b|]; cbn [string_t_ToCStr] in E1.
    - apply st_bind_inv in E1 as (l & p2 & El & Ec).
      unfold bytes_of in El. apply st_bind_inv in El as (c & p3 & Ebl & El).
      unfold block_at in Ebl. destruct (heap p !! b) as [[c'|]|]; [|done..]. injection Ebl as <- <-.
      destruct c' as [l'|]; [|done]. injection El as <- <-.
      unfold st_lift in Ec. destruct (cstr l'); [|done]. by injection Ec as _ <-.
    - by injection E1 as _ <-. }
  unfold string_t_of in E. apply st_bind_inv in E as (b & p1 & Em & E).
  unfold malloc in Em. rewrite (st_bind_ok _ _ p p p eq_refl) in Em. injection Em as <- <-.
  repeat match goal with H : _ = Ok (s', p') |- _ => apply st_bind_inv in H as (? & ? & ? & H) end.
  injection E as E _. specialize (Hb _ (eq_sym E)). lia.
Qed.

(** After an assignment both objects have the block, and the second destructor fails. *)
Lemma string_t_assign_double_free b c p : heap p !! b = Some (Some c) ->
  let s := string_t_assign string_t_default (Some b) in
  (string_t_destroy (Some b);; string_t_destroy s) p = Fault (OutOfBounds (Z.of_nat b)).
Proof.
  intros Hb s. unfold s, string_t_assign, string_t_destroy, free_block, block_at.
  cbn. unfold mbind, ST_bind. rewrite Hb. cbn.
  by rewrite list_lookup_insert_eq by (by eapply lookup_lt_Some).
Qed.
