(* ===== verification/CfgProofs.v ===== *)
(** The configuration as a list of fields: what [get_config_value] and
    [set_config_value] do to the bytes. *)

From S2P Require Import Prelude CMem Console Cfg ConsoleSpec.

(** The bytes of a list of fields, with what follows the last bar. *)
Fixpoint config_text (fields : list (list Z)) (rest : list Z) : list Z :=
  match fields with
  | [] => rest
  | f :: fs => f ++ bar :: config_text fs rest
  end.

Lemma config_text_app a b rest : config_text (a ++ b) rest = config_text a [] ++ config_text b rest.
Proof. induction a as [|f a IH]; [done|]. cbn [app config_text]. by rewrite IH, <- app_assoc. Qed.

Lemma memchr_field f r n : bar ∉ f -> (length f < n)%nat ->
  memchr (f ++ bar :: r) bar n = Ok (Some (Z.of_nat (length f))).
Proof.
  revert n. induction f as [|c f IH]; intros [|n] Hf Hn; cbn [length] in Hn; try lia.
  - done.
  - rewrite not_elem_of_cons in Hf. destruct Hf as [Hc Hf]. cbn [app memchr].
    destruct (Z.eqb_spec c bar); [congruence|]. rewrite IH by (done || lia). simpl. do 2 f_equal. lia.
Qed.

(** * Reading *)

Section Fields.
Context (buf : list Z).
Let size : Z := Z.of_nat (length buf).

Lemma memchr_at a f r : buf = a ++ f ++ bar :: r -> bar ∉ f ->
  memchr (drop (Z.to_nat (Z.of_nat (length a))) buf) bar (Z.to_nat (size - Z.of_nat (length a))) =
  Ok (Some (Z.of_nat (length f))).
Proof.
  intros E Hf. rewrite Nat2Z.id. assert (drop (length a) buf = f ++ bar :: r) as ->
    by (rewrite E; apply drop_app_length).
  apply memchr_field; [done|]. unfold size. rewrite E, !length_app. cbn [length]. lia.
Qed.

Lemma next_field_at a f r : buf = a ++ f ++ bar :: r -> bar ∉ f ->
  next_field buf size (Z.of_nat (length a)) (size - Z.of_nat (length a)) =
  Ok (Z.of_nat (length (a ++ f ++ [bar])), size - Z.of_nat (length (a ++ f ++ [bar]))).
Proof.
  intros E Hf. unfold next_field. rewrite (res_bind_ok _ _ _ (memchr_at a f r E Hf)).
  assert (Z.of_nat (length a) + Z.of_nat (length f) + 1 = Z.of_nat (length (a ++ f ++ [bar]))) as ->
    by (rewrite !length_app; cbn [length]; lia).
  done.
Qed.

Lemma skip_fields_at fs : forall a r, buf = a ++ config_text fs r -> (forall f, f ∈ fs -> bar ∉ f) ->
  skip_fields (length fs) buf size (Z.of_nat (length a)) (size - Z.of_nat (length a)) =
  Ok (Z.of_nat (length (a ++ config_text fs [])), size - Z.of_nat (length (a ++ config_text fs []))).
Proof.
  induction fs as [|f fs IH]; intros a r E Hf; cbn [config_text length skip_fields] in *.
  - by rewrite app_nil_r.
  - rewrite (res_bind_ok _ _ _ (next_field_at a f (config_text fs r) E ltac:(apply Hf; by left))).
    cbn [fst snd]. rewrite (IH (a ++ f ++ [bar]) r).
    + by rewrite <- !app_assoc.
    + rewrite E. by rewrite <- !app_assoc.
    + intros f' Hf'. apply Hf. by right.
Qed.
End Fields.

(** The offset of a field. *)
Lemma skip_to fs rest : (forall f, f ∈ fs -> bar ∉ f) ->
  let buf := config_text fs rest in
  skip_fields (length fs) buf (Z.of_nat (length buf)) 0 (Z.of_nat (length buf)) =
  Ok (Z.of_nat (length (config_text fs [])),
      Z.of_nat (length buf) - Z.of_nat (length (config_text fs []))).
Proof.
  intros Hf buf. pose proof (skip_fields_at buf fs [] rest eq_refl Hf) as E.
  change (Z.of_nat (length (@nil Z))) with 0 in E. by rewrite Z.sub_0_r in E.
Qed.

(** * States *)

(** [g_config] is the block [b] with the bytes [buf]. *)
Record cfg_at (p : process) (b : nat) (buf : list Z) : Prop := {
  cfg_live : live p b (Bytes buf);
  cfg_base : g_config p = ConfigHeap b;
  cfg_size : g_config_size p = Z.of_nat (length buf);
  cfg_small : Z.of_nat (length buf) < 2 ^ 30
}.

(** Only the block [b], the configuration and new blocks change. *)
Record step (b : nat) (p p' : process) : Prop := {
  step_old : forall b', (b' < length (heap p))%nat -> b' <> b -> heap p' !! b' = heap p !! b';
  step_more : (length (heap p) <= length (heap p'))%nat;
  step_file : file p' = file p;
  step_input : input p' = input p;
  step_output : output p' = output p
}.

#[export] Instance step_preorder b : PreOrder (step b).
Proof.
  split; [done|]. intros p p' p'' [] []. constructor; try congruence; [|lia].
  intros b' Hb Hne. rewrite <- step_old0 by done. apply step_old1; [lia|done].
Qed.

Lemma ext_step b p p' : ext p p' -> step b p p'.
Proof. intros []. by constructor; auto. Qed.

Lemma step_live b p p' b' c : step b p p' -> b' <> b -> live p b' c -> live p' b' c.
Proof. intros H Hne Hb. unfold live in *. rewrite (step_old _ _ _ H); [done| |done]. by eapply live_lt. Qed.

Lemma cfg_ext p p' b buf : ext p p' -> cfg_at p b buf -> cfg_at p' b buf.
Proof.
  intros He [H1 H2 H3 H4]. constructor; [by eapply ext_live| | |done].
  - by rewrite (ext_config _ _ He).
  - by rewrite (ext_size _ _ He).
Qed.

Section Set_.
Context (junk : nat -> nat -> Z) (realloc_moves : nat -> Z -> bool).

(** Growing or keeping the size in place. *)
Lemma realloc_in_place p b buf newSize : cfg_at p b buf -> realloc_moves b newSize = false ->
  Z.of_nat (length buf) <= newSize ->
  exists p', realloc_config junk realloc_moves (ConfigHeap b) newSize p = Ok (tt, p') /\
    step b p p' /\ g_config p' = ConfigHeap b /\
    exists more, live p' b (Bytes (buf ++ more)) /\
      Z.of_nat (length more) = newSize - Z.of_nat (length buf).
Proof.
  intros [Hl Hc Hs Hsm] Hm Hn. unfold realloc_config.
  rewrite (st_bind_ok _ _ _ _ _ (bytes_of_spec _ _ _ Hl)).
  rewrite (st_bind_ok _ _ _ _ _ eq_refl). rewrite Hm.
  set (more := junk b <$> seq (length buf) (Z.to_nat newSize - length buf)).
  assert (length more = Z.to_nat newSize - length buf)%nat as Hlen
    by (unfold more; by rewrite length_fmap, length_seq).
  rewrite (take_ge (buf ++ more)) by (rewrite length_app; lia).
  destruct (put_block_spec p b _ (Bytes (buf ++ more)) Hl) as [E Hl']. rewrite E.
  eexists. split; [done|]. split; [|split; [done|]].
  - constructor; try done; cbn [set_heap heap]; rewrite ?length_insert; [|done].
    intros b' _ Hne. by rewrite list_lookup_insert_ne.
  - exists more. split; [done|]. lia.
Qed.

(** What [set_config_value] makes of the bytes, as long as [realloc] stays in place. *)
Definition sets (opt : Z) (value buf buf' : list Z) : Prop :=
  forall p b, cfg_at p b buf -> realloc_moves b (Z.of_nat (length buf')) = false ->
  exists p', set_config_value junk realloc_moves opt value (Z.of_nat (length value)) p = Ok (tt, p') /\
    cfg_at p' b buf' /\ step b p p'.

(** The common part: the field is found, and the two copies are made. *)
Lemma set_config_value_run fs f r value buf' p b :
  let buf := config_text fs (f ++ bar :: r) in
  let v := Z.of_nat (length (config_text fs [])) in
  let newSize := Z.of_nat (length buf) - Z.of_nat (length f) + Z.of_nat (length value) in
  (forall f', f' ∈ fs -> bar ∉ f') -> bar ∉ f -> (length f <= length value)%nat ->
  Z.of_nat (length buf') = newSize -> newSize < 2 ^ 30 ->
  (forall more, Z.of_nat (length more) = newSize - Z.of_nat (length buf) ->
    (b1 ← store_at (buf ++ more) v value;
     rest ← fetch_at b1 (v + Z.of_nat (length f)) (Z.of_nat (length buf) - (v + Z.of_nat (length f)));
     store_at b1 (v + Z.of_nat (length value)) rest) = Ok buf') ->
  cfg_at p b buf -> realloc_moves b newSize = false ->
  exists p', set_config_value junk realloc_moves (Z.of_nat (length fs)) value
      (Z.of_nat (length value)) p = Ok (tt, p') /\
    cfg_at p' b buf' /\ step b p p'.
Proof.
  intros buf v newSize Hfs Hf Hlen Hbuf' Hsmall Hcopy Hcfg Hmoves.
  pose proof Hcfg as [Hl Hc Hs Hsm]. unfold set_config_value.
  rewrite (st_bind_ok _ _ p p p) by done. rewrite Hc, Hs. cbn [config_bytes].
  rewrite (st_bind_ok _ _ _ _ _ (bytes_of_spec _ _ _ Hl)). rewrite Nat2Z.id.
  pose proof (skip_to fs (f ++ bar :: r) Hfs) as Esk. cbv zeta in Esk. fold buf v in Esk.
  rewrite (st_bind_ok _ _ p (v, Z.of_nat (length buf) - v) p) by (unfold st_lift; by rewrite Esk).
  assert (buf = config_text fs [] ++ f ++ bar :: r) as Ebuf.
  { unfold buf. rewrite <- (app_nil_r fs) at 1. by rewrite config_text_app. }
  rewrite (st_bind_ok _ _ p (Some (Z.of_nat (length f))) p)
    by (unfold st_lift, v; by rewrite (memchr_at buf _ f r Ebuf Hf)).
  assert (s32 (Z.of_nat (length buf) - (v + Z.of_nat (length f) - v) + Z.of_nat (length value)) = newSize) as ->.
  { unfold newSize. rewrite swrap_small; [lia|lia|]. simpl. unfold newSize in *. lia. }
  destruct (realloc_in_place p b buf newSize Hcfg Hmoves ltac:(unfold newSize; lia))
    as (p1 & E1 & Hst1 & Hc1 & more & Hl1 & Hmore).
  rewrite (st_bind_ok _ _ _ _ _ E1). rewrite (st_bind_ok _ _ _ _ _ (bytes_of_spec _ _ _ Hl1)).
  specialize (Hcopy more Hmore).
  destruct (store_at (buf ++ more) v value) as [b1|] eqn:Eb1; [|done]. cbn [mbind result_bind] in Hcopy.
  destruct (fetch_at b1 _ _) as [rest|] eqn:Er; [|done]. cbn [mbind result_bind] in Hcopy.
  rewrite (st_bind_ok _ _ p1 b1 p1) by done.
  rewrite (st_bind_ok _ _ p1 rest p1) by (unfold st_lift; by rewrite Er).
  rewrite (st_bind_ok _ _ p1 buf' p1) by (unfold st_lift; by rewrite Hcopy).
  destruct (put_block_spec p1 b _ (Bytes buf') Hl1) as [E2 Hl2]. cbn [config_put].
  rewrite (st_bind_ok _ _ _ _ _ E2). eexists. split; [done|].
  split.
  - constructor; [exact Hl2|exact Hc1|by rewrite Hbuf'|lia].
  - transitivity p1; [done|]. constructor; try done; cbn [set_heap set_config heap];
      rewrite ?length_insert; [|done]. intros b' _ Hne. by rewrite list_lookup_insert_ne.
Qed.

(** A value of the size of the field replaces it. *)
Lemma sets_field fs f r value : (forall f', f' ∈ fs -> bar ∉ f') -> bar ∉ f ->
  length value = length f ->
  sets (Z.of_nat (length fs)) value (config_text fs (f ++ bar :: r))
    (config_text fs (value ++ bar :: r)).
Proof.
  intros Hfs Hf Hlen p b Hcfg Hmoves. pose proof (cfg_small _ _ _ Hcfg) as Hsmall.
  assert (forall g, config_text fs (g ++ bar :: r) = config_text fs [] ++ g ++ bar :: r) as Et
    by (intros g; rewrite <- (app_nil_r fs) at 1; by rewrite config_text_app).
  assert (length (config_text fs (value ++ bar :: r)) = length (config_text fs (f ++ bar :: r))) as El
    by (by rewrite !Et, !length_app, Hlen).
  eapply set_config_value_run; try done; rewrite ?El; try lia.
  - intros more Hmore. destruct more; [|cbn [length] in Hmore; lia]. rewrite app_nil_r, !Et.
    rewrite store_app by done. cbn [mbind result_bind].
    rewrite (app_assoc _ value). rewrite <- (app_nil_r (bar :: r)).
    rewrite (fetch_app _ (bar :: r) []) by (rewrite !length_app; lia). cbn [mbind result_bind].
    rewrite (store_app _ (bar :: r) []); [by rewrite <- app_assoc|rewrite length_app; lia|done].
  - replace (Z.of_nat (length (config_text fs (f ++ bar :: r))) - Z.of_nat (length f) +
      Z.of_nat (length value)) with (Z.of_nat (length (config_text fs (value ++ bar :: r)))) by lia.
    done.
Qed.

(** A field that begins with a bar is taken for an empty one: the value is put in front
    of what is there, and copied over the beginning of the rest. *)
Lemma sets_barred fs old r value : (forall f', f' ∈ fs -> bar ∉ f') ->
  length value = S (length old) ->
  Z.of_nat (length (config_text fs (value ++ value ++ r))) < 2 ^ 30 ->
  sets (Z.of_nat (length fs)) value (config_text fs (bar :: old ++ r))
    (config_text fs (value ++ value ++ r)).
Proof.
  intros Hfs Hlen Hsmall p b Hcfg Hmoves.
  assert (exists A, forall g, config_text fs g = A ++ g) as (A & Et).
  { exists (config_text fs []). intros g. rewrite <- (app_nil_r fs) at 1.
    by rewrite config_text_app. }
  assert (Z.of_nat (length (config_text fs (value ++ value ++ r))) =
    Z.of_nat (length (config_text fs ([] ++ bar :: old ++ r))) - Z.of_nat (length (@nil Z)) +
    Z.of_nat (length value)) as El
    by (rewrite !Et, !length_app; cbn [length app]; rewrite length_app; lia).
  cbn [app] in El.
  apply (set_config_value_run fs [] (old ++ r) value); [done|by intros ?%elem_of_nil|simpl; lia|exact El| | |exact Hcfg|].
  { cbn [app]. rewrite <- El. exact Hsmall. }
  2:{ cbn [app]. rewrite <- El. exact Hmoves. }
  cbn [app length]. intros more Hmore. rewrite Z.add_0_r. rewrite !Et, !app_nil_r in *.
    assert (length more = length value) as Hml
      by (rewrite !length_app in Hmore; cbn [length] in Hmore; rewrite length_app in Hmore; lia).
    rewrite <- app_assoc. change ((bar :: old ++ r) ++ more) with ((bar :: old ++ r) ++ more).
    replace ((bar :: old ++ r) ++ more) with ((bar :: old) ++ (r ++ more))
      by (cbn [app]; by rewrite <- app_assoc).
    rewrite store_app by (cbn [length]; lia || done). cbn [mbind result_bind].
    replace (value ++ r ++ more) with ((value ++ r) ++ more) by by rewrite app_assoc.
    rewrite (fetch_app _ (value ++ r) more);
      [|done|rewrite !length_app; cbn [length]; rewrite length_app; lia]. cbn [mbind result_bind].
    replace ((value ++ r) ++ more) with (value ++ (r ++ more) ++ []) by by rewrite app_nil_r, app_assoc.
    rewrite app_assoc. rewrite (store_app _ (r ++ more) []);
      [by rewrite app_nil_r, <- app_assoc|rewrite length_app; lia|rewrite !length_app; lia].
Qed.
(** What is left of a value from its first bar on. *)
Fixpoint from_bar (l : list Z) : list Z :=
  match l with
  | [] => []
  | c :: l' => if c =? bar then l else from_bar l'
  end.

Lemma from_bar_split l : exists a, l = a ++ from_bar l /\ bar ∉ a /\
  (from_bar l = [] \/ exists old, from_bar l = bar :: old).
Proof.
  induction l as [|c l (a & E & Ha & Hl)].
  { exists []. split; [done|]. split; [apply not_elem_of_nil|by left]. }
  cbn [from_bar]. destruct (Z.eqb_spec c bar) as [->|Hc].
  - exists []. split; [done|]. split; [apply not_elem_of_nil|]. right. by exists l.
  - exists (c :: a). cbn [app]. rewrite <- E. split; [done|]. split; [|done].
    rewrite not_elem_of_cons. by split.
Qed.

Lemma from_bar_none l : bar ∉ l -> from_bar l = [].
Proof.
  induction l as [|c l IH]; [done|]. rewrite not_elem_of_cons. intros [Hc Hl]. cbn [from_bar].
  destruct (Z.eqb_spec c bar); [by subst|]. by apply IH.
Qed.

Ltac flat_lists := repeat (progress cbn [app] || rewrite <- app_assoc); done.

(** The two copies of the value that is set again. *)
Lemma again_copy (A a old r value more : list Z) : value = a ++ bar :: old ->
  Z.of_nat (length more) = Z.of_nat (length (A ++ a ++ bar :: old ++ bar :: r)) - Z.of_nat (length a) +
    Z.of_nat (length value) - Z.of_nat (length (A ++ a ++ bar :: old ++ bar :: r)) ->
  (b1 ← store_at ((A ++ a ++ bar :: old ++ bar :: r) ++ more) (Z.of_nat (length A)) value;
   rest ← fetch_at b1 (Z.of_nat (length A) + Z.of_nat (length a))
     (Z.of_nat (length (A ++ a ++ bar :: old ++ bar :: r)) -
      (Z.of_nat (length A) + Z.of_nat (length a)));
   store_at b1 (Z.of_nat (length A) + Z.of_nat (length value)) rest) =
  Ok (A ++ value ++ (bar :: old) ++ bar :: r).
Proof.
  intros Ev Hmore. pose proof (f_equal length Ev) as Hl. rewrite length_app in Hl. cbn [length] in Hl.
  assert (length more = S (length old)) as Hm by lia. clear Hmore.
  replace ((A ++ a ++ bar :: old ++ bar :: r) ++ more) with (A ++ value ++ (bar :: r ++ more))
    by (rewrite Ev; flat_lists).
  rewrite store_app by done. cbn [mbind result_bind].
  replace (A ++ value ++ bar :: r ++ more) with ((A ++ a) ++ ((bar :: old) ++ bar :: r) ++ more)
    by (rewrite Ev; flat_lists).
  rewrite (fetch_app (A ++ a) ((bar :: old) ++ bar :: r) more);
    [|rewrite length_app; lia|rewrite !length_app; cbn [length]; rewrite !length_app; cbn [length]; lia].
  cbn [mbind result_bind].
  replace ((A ++ a) ++ ((bar :: old) ++ bar :: r) ++ more) with ((A ++ value) ++ (bar :: r ++ more) ++ [])
    by (rewrite app_nil_r, Ev; flat_lists).
  rewrite store_app; [|rewrite length_app; lia|].
  - by rewrite app_nil_r, <- app_assoc.
  - cbn [app length]. rewrite !length_app. cbn [length]. lia.
Qed.

(** A value that is set again: what it has from its first bar on is not taken to be part of
    the field, and appears once more behind it. *)
Lemma sets_again fs value r : (forall f', f' ∈ fs -> bar ∉ f') ->
  Z.of_nat (length (config_text fs (value ++ from_bar value ++ bar :: r))) < 2 ^ 30 ->
  sets (Z.of_nat (length fs)) value (config_text fs (value ++ bar :: r))
    (config_text fs (value ++ from_bar value ++ bar :: r)).
Proof.
  intros Hfs Hsmall. destruct (from_bar_split value) as (a & Ev & Ha & [En|(old & Eo)]).
  { rewrite En, app_nil_r in Ev. rewrite En. cbn [app]. apply sets_field; [done| |done]. by rewrite Ev. }
  intros p b Hcfg Hmoves.
  assert (exists A, forall g, config_text fs g = A ++ g) as (A & Et).
  { exists (config_text fs []). intros g. rewrite <- (app_nil_r fs) at 1.
    by rewrite config_text_app. }
  pose proof (f_equal length Ev) as Hl. rewrite Eo, length_app in Hl. cbn [length] in Hl.
  assert (config_text fs (value ++ bar :: r) = config_text fs (a ++ bar :: (old ++ bar :: r))) as Eb.
  { f_equal. rewrite Ev, Eo at 1. by rewrite <- app_assoc. }
  rewrite Eb in Hcfg. rewrite Et in Hsmall, Hmoves. rewrite Eo in *.
  assert (Z.of_nat (length (A ++ value ++ (bar :: old) ++ bar :: r)) =
    Z.of_nat (length (config_text fs (a ++ bar :: (old ++ bar :: r)))) - Z.of_nat (length a) +
    Z.of_nat (length value)) as El.
  { rewrite Et, !length_app. cbn [length app]. rewrite !length_app. cbn [length]. lia. }
  apply (set_config_value_run fs a (old ++ bar :: r) value); try done; try lia.
  - by rewrite Et, El.
  - intros more Hmore. rewrite Et in Hmore. rewrite !Et, app_nil_r. by apply again_copy.
  - by rewrite <- El.
Qed.
End Set_.

(** * Reading a field *)

(** A search inside the object does not fault. *)
Lemma memchr_inside l c n : (n <= length l)%nat -> exists r, memchr l c n = Ok r.
Proof.
  revert n. induction l as [|b l IH]; intros [|n] Hn; cbn [length] in Hn; try lia; simpl; try by eexists.
  destruct (b =? c); [by eexists|]. destruct (IH n ltac:(lia)) as [r ->]. by eexists.
Qed.

(** Four bytes are taken, whatever the length of the field. *)
Lemma get_config_option_spec junk fs w r p b : (forall f, f ∈ fs -> bar ∉ f) -> length w = 4%nat ->
  (length fs <= 3)%nat -> cfg_at p b (config_text fs (w ++ r)) ->
  exists m p', get_config_option junk (Z.of_nat (length fs)) p = Ok (m, p') /\ ext p p' /\
    holds_bytes p' m w /\ (forall b', m_pValue m = Some b' -> (length (heap p) <= b')%nat).
Proof.
  intros Hfs Hw Hk [Hl Hc Hs Hsm]. unfold get_config_option.
  destruct (Z.ltb_spec OPTCOUNT (Z.of_nat (length fs))); [unfold OPTCOUNT in *; lia|].
  rewrite (st_bind_ok _ _ p p p) by done.
  assert (config_text fs (w ++ r) = config_text fs [] ++ w ++ r) as Et
    by (rewrite <- (app_nil_r fs) at 1; by rewrite config_text_app).
  assert (get_config_value (Z.of_nat (length fs)) p = Ok (Z.of_nat (length (config_text fs [])), p)) as Eg.
  { unfold get_config_value. rewrite (st_bind_ok _ _ p p p) by done. rewrite Hc, Hs. cbn [config_bytes].
    rewrite (st_bind_ok _ _ _ _ _ (bytes_of_spec _ _ _ Hl)). rewrite Nat2Z.id.
    pose proof (skip_to fs (w ++ r) Hfs) as E. cbv zeta in E.
    erewrite st_bind_ok; [|unfold st_lift; by rewrite E]. cbn [fst snd].
    destruct (memchr_inside (drop (Z.to_nat (Z.of_nat (length (config_text fs []))))
      (config_text fs (w ++ r))) bar
      (Z.to_nat (Z.of_nat (length (config_text fs (w ++ r))) - Z.of_nat (length (config_text fs [])))))
      as [d Ed]; [rewrite length_drop; lia|].
    erewrite st_bind_ok; [|unfold st_lift; by rewrite Ed]. done. }
  rewrite (st_bind_ok _ _ _ _ _ Eg). rewrite Hc. cbn [config_bytes].
  rewrite (st_bind_ok _ _ _ _ _ (bytes_of_spec _ _ _ Hl)).
  rewrite (st_bind_ok _ _ p w p)
    by (unfold st_lift; rewrite Et; by rewrite (fetch_app _ w r) by (by rewrite ?Hw)).
  by apply memory_of_ptr_spec; rewrite Hw.
Qed.

(** * The file *)

Lemma save_config_file_spec p b buf old : cfg_at p b buf -> file p = Some old ->
  (length old <= length buf)%nat ->
  save_config_file p = Ok (tt, set_file (Some buf) p).
Proof.
  intros [Hl Hc Hs Hsm] Hf Hlen. unfold save_config_file.
  rewrite (st_bind_ok _ _ p p p) by done. rewrite Hc. cbn [config_bytes].
  rewrite (st_bind_ok _ _ _ _ _ (bytes_of_spec _ _ _ Hl)).
  rewrite (st_bind_ok _ _ p buf p) by (unfold st_lift; by rewrite fetch_all).
  rewrite Hf. unfold st_modify. cbn [from_option id]. rewrite (drop_ge old) by lia. by rewrite app_nil_r.
Qed.

Lemma set_config_option_spec junk moves opt m value buf buf' p b : 0 <= opt <= OPTCOUNT ->
  holds_bytes p m value -> sets junk moves opt value buf buf' -> cfg_at p b buf ->
  moves b (Z.of_nat (length buf')) = false ->
  exists p', set_config_option junk moves opt m p = Ok (tt, p') /\ cfg_at p' b buf' /\ step b p p'.
Proof.
  intros Ho Hm Hsets Hcfg Hmv. unfold set_config_option.
  destruct (Z.ltb_spec OPTCOUNT opt); [lia|].
  rewrite (st_bind_ok _ _ _ _ _ (memory_bytes_spec _ _ _ Hm)).
  destruct Hm as (bm & -> & _). cbn [m_nSize]. by apply Hsets.
Qed.

(** Port and device are stored, and the bytes written back. *)
Lemma save_config_spec junk moves dev port device_bytes port_bytes buf buf1 buf2 old p b :
  holds_bytes p dev device_bytes -> holds_bytes p port port_bytes ->
  m_pValue dev <> Some b -> m_pValue port <> Some b ->
  sets junk moves PORT port_bytes buf buf1 -> sets junk moves DEVICE device_bytes buf1 buf2 ->
  (forall n, moves b n = false) -> cfg_at p b buf -> file p = Some old ->
  (length old <= length buf2)%nat ->
  exists p', save_config junk moves 0 dev port p = Ok (inr true, p') /\
    file p' = Some buf2 /\ output p' = output p /\
    (forall b' c, b' <> b -> live p b' c -> live p' b' c).
Proof.
  intros Hd Hp Hbd Hbp Hs1 Hs2 Hmv Hcfg Hf Hlen. unfold save_config.
  change (negb (0 =? 0)) with false. cbv iota.
  destruct (memory_copy_spec junk port port_bytes p Hp) as (mp & p1 & E1 & He1 & Hmp & _).
  rewrite (st_bind_ok _ _ _ _ _ E1).
  destruct (set_config_option_spec junk moves PORT mp port_bytes buf buf1 p1 b) as (p2 & E2 & Hc2 & Hst2);
    [unfold PORT, OPTCOUNT; lia|done|done|by eapply cfg_ext|done|].
  rewrite (st_bind_ok _ _ _ _ _ E2).
  assert (step b p p2) as Hs02 by (transitivity p1; [by apply ext_step|done]).
  assert (holds_bytes p2 dev device_bytes) as Hd2.
  { destruct Hd as (bd & -> & Hbd'). exists bd. split; [done|].
    eapply step_live; [exact Hs02|by intros ->|done]. }
  destruct (memory_copy_spec junk dev device_bytes p2 Hd2) as (md & p3 & E3 & He3 & Hmd & _).
  rewrite (st_bind_ok _ _ _ _ _ E3).
  destruct (set_config_option_spec junk moves DEVICE md device_bytes buf1 buf2 p3 b) as (p4 & E4 & Hc4 & Hst4);
    [unfold DEVICE, OPTCOUNT; lia|done|done|by eapply cfg_ext|done|].
  rewrite (st_bind_ok _ _ _ _ _ E4).
  assert (step b p p4) as Hs04
    by (transitivity p2; [done|]; transitivity p3; [by apply ext_step|done]).
  rewrite (st_bind_ok _ _ _ _ _ (save_config_file_spec p4 b buf2 old Hc4
    ltac:(by rewrite (step_file _ _ _ Hs04)) Hlen)).
  eexists. split; [done|]. split; [done|]. split; [apply (step_output _ _ _ Hs04)|].
  intros b' c Hne Hl. apply (step_live b p p4 b' c Hs04 Hne Hl).
Qed.
