(* ===== verification/MainProofs.v ===== *)
(** Runs of [_tmain]: the numbers on the console, the start with given values, the
    two ways to come by them, and what a [realloc] that moves blocks changes. *)

From S2P Require Import Prelude CMem Console Str Cfg Main ConsoleSpec CfgProofs.

(** * Numbers *)

Lemma digits_spec k : forall n acc, 0 <= n < 10 ^ Z.of_nat k -> (0 < k)%nat ->
  exists D, digits k n acc = D ++ acc /\ (0 < length D <= k)%nat /\
    Forall (fun c => is_digit c = true) D /\
    (forall l a, scan_digits (D ++ l) a = scan_digits l (a * 10 ^ Z.of_nat (length D) + n)).
Proof.
  induction k as [|k IH]; intros n acc Hn Hk; [lia|]. cbn [digits].
  assert (0 <= n mod 10 < 10) as Hm by (apply Z.mod_pos_bound; lia).
  pose proof (Z_div_mod_eq_full n 10) as Hdm.
  assert (is_digit (48 + n mod 10) = true) as Hd
    by (unfold is_digit; apply andb_true_iff; split; apply Z.leb_le; lia).
  assert (forall l a, scan_digits ((48 + n mod 10) :: l) a = scan_digits l (10 * a + n mod 10)) as Hs.
  { intros l a. cbn [scan_digits]. rewrite Hd. f_equal. lia. }
  destruct (Z.eqb_spec (n / 10) 0) as [Ez|Ez].
  - exists [48 + n mod 10]. split; [done|]. split; [cbn; lia|]. split; [by constructor|].
    intros l a. cbn [app]. rewrite Hs. cbn [length]. change (10 ^ Z.of_nat 1) with 10. f_equal. lia.
  - destruct k as [|k].
    { change (10 ^ Z.of_nat 1) with 10 in Hn. destruct Ez. apply Z.div_small. lia. }
    destruct (IH (n / 10) ((48 + n mod 10) :: acc)) as (D & E & Hlen & HD & Hscan); [|lia|].
    { rewrite Nat2Z.inj_succ, Z.pow_succ_r in Hn by lia.
      split; [apply Z.div_pos; lia|apply Z.div_lt_upper_bound; lia]. }
    exists (D ++ [48 + n mod 10]). rewrite E, <- app_assoc. split; [done|].
    rewrite length_app. cbn [length]. split; [lia|].
    split; [apply Forall_app; split; [done|by constructor]|].
    intros l a. rewrite <- app_assoc, Hscan. cbn [app]. rewrite Hs. f_equal.
    rewrite Nat.add_1_r, Nat2Z.inj_succ, Z.pow_succ_r by lia. lia.
Qed.

(** The decimal form of a number that is not negative. *)
Lemma itoa_digits n : 0 <= n < 10 ^ 10 ->
  exists D, _itoa_s n = D /\ (0 < length D <= 10)%nat /\ Forall (fun c => is_digit c = true) D /\
    (forall l, scan_digits (D ++ l) 0 = scan_digits l n).
Proof.
  intros Hn. unfold _itoa_s. destruct (Z.ltb_spec n 0); [lia|].
  destruct (digits_spec 10 n [] Hn ltac:(lia)) as (D & E & Hl & Hd & Hs).
  exists D. rewrite E, app_nil_r. split; [done|]. split; [done|]. split; [done|]. intros l. apply Hs.
Qed.

Lemma digit_range c : is_digit c = true -> 48 <= c <= 57.
Proof. unfold is_digit. lia. Qed.

Lemma itoa_text n : 0 <= n < 10 ^ 10 -> text_ok (_itoa_s n).
Proof.
  intros Hn. destruct (itoa_digits n Hn) as (D & -> & Hl & Hd & _). split; [|lia].
  intros H. rewrite Forall_forall in Hd. specialize (Hd 0 H). pose proof (digit_range 0 Hd). lia.
Qed.

(** What is not a digit ends a number. *)
Definition ends_number (r : list Z) : Prop :=
  match r with [] => True | c :: _ => is_digit c = false end.

Lemma scan_digits_end r a : ends_number r -> scan_digits r a = (a, r).
Proof. destruct r as [|c r]; [done|]. simpl. by intros ->. Qed.

Lemma skip_spaces_app ws l : Forall (fun c => is_space c = true) ws ->
  skip_spaces (ws ++ l) = skip_spaces l.
Proof. induction 1 as [|c ws Hc Hws IH]; [done|]. simpl. by rewrite Hc. Qed.

Lemma scan_number_itoa ws n r : Forall (fun c => is_space c = true) ws -> 0 <= n < 10 ^ 10 ->
  ends_number r -> scan_number (ws ++ _itoa_s n ++ r) = Some (n, r).
Proof.
  intros Hws Hn Hr. destruct (itoa_digits n Hn) as (D & -> & Hl & Hd & Hs).
  unfold scan_number. rewrite skip_spaces_app by done.
  destruct D as [|c D]; [simpl in Hl; lia|]. apply Forall_cons in Hd as [Hc Hd].
  pose proof (digit_range c Hc) as Hcr. cbn [app skip_spaces].
  assert (is_space c = false) as ->.
  { unfold is_space. destruct (Z.eqb_spec c 32); [lia|]. cbn [orb].
    destruct (Z.leb_spec c 13); [lia|]. by rewrite andb_false_r. }
  destruct (Z.eqb_spec c 45); [lia|]. destruct (Z.eqb_spec c 43); [lia|].
  rewrite Hc. specialize (Hs r). cbn [app] in Hs. by rewrite Hs, scan_digits_end.
Qed.

Lemma scanf_d_number p ws n r : Forall (fun c => is_space c = true) ws -> 0 <= n < 2 ^ 32 ->
  ends_number r -> input p = ws ++ _itoa_s n ++ r ->
  scanf_d p = Ok (Some n, set_input r p).
Proof.
  intros Hws Hn Hr Hi. unfold scanf_d. rewrite Hi, scan_number_itoa by (done || lia).
  by rewrite u32_small by lia.
Qed.

(** * From the values on *)

Section Main.
Context (junk : nat -> nat -> Z) (realloc_moves : nat -> Z -> bool) (devices : option nat) (port0 : Z).
Hypothesis Hmoves : forall b n, realloc_moves b n = false.

Abbreviation start := (start junk realloc_moves 0).

Lemma free_live p b c : live p b c -> exists p', free_block b p = Ok (tt, p') /\
  file p' = file p /\ output p' = output p /\
  (forall b' d, b' <> b -> live p b' d -> live p' b' d).
Proof.
  intros Hl. unfold free_block. rewrite (st_bind_ok _ _ _ _ _ (block_at_spec _ _ _ Hl)).
  eexists. split; [done|]. split; [done|]. split; [done|].
  intros b' d Hne Hd. unfold live. cbn [set_heap heap]. by rewrite list_lookup_insert_ne.
Qed.

Lemma port_text_ok : text_ok port_text.
Proof. split; [|cbn; lia]. eapply bool_decide_eq_true_1. reflexivity. Qed.

Lemma destroy_ok b size length p p' : free_block b p = Ok (tt, p') ->
  String_destroy (mkString (Some b) size length) p = Ok (mkString None size length, p').
Proof. intros E. unfold String_destroy. cbn [_string]. by rewrite (st_bind_ok _ _ _ _ _ E). Qed.

Lemma memory_free_ok b size p p' : free_block b p = Ok (tt, p') ->
  memory_free (mkmemory (Some b) size) p = Ok (mkmemory None 0, p').
Proof. intros E. unfold memory_free. cbn [m_pValue]. by rewrite (st_bind_ok _ _ _ _ _ E). Qed.

(** The filter is made, and the temporaries are released. *)
Lemma filter_spec n p (k : list Z -> Console outcome) : 0 <= n < 2 ^ 31 ->
  exists p', ext p p' /\
  (s ← String_new junk port_text;
   n ← NumToStr junk n;
   text ← CStr n;
   o ← String_plus junk s text;
   strFilter ← String_of_ref o;
   String_destroy n;;
   String_destroy s;;
   filter ← CStr strFilter;
   k filter) p = k (port_text ++ _itoa_s n) p'.
Proof.
  intros Hn. pose proof (itoa_text n ltac:(lia)) as Hnt.
  destruct (itoa_digits n ltac:(lia)) as (D & ED & HDl & _). rewrite <- ED in HDl.
  assert (text_ok (port_text ++ _itoa_s n)) as Hft.
  { destruct Hnt as [Hnt0 _]. split; [|rewrite length_app; cbn [port_text length]; lia].
    intros [H|H]%elem_of_app; [|done]. by apply port_text_ok. }
  destruct (String_new_spec junk port_text p port_text_ok) as (s & p1 & E1 & He1 & Hs & Hs').
  rewrite (st_bind_ok _ _ _ _ _ E1).
  destruct (String_new_spec junk (_itoa_s n) p1 Hnt) as (t & p2 & E2 & He2 & Ht & Ht').
  unfold NumToStr. rewrite (st_bind_ok _ _ _ _ _ E2).
  rewrite (st_bind_ok _ _ _ _ _ (CStr_spec p2 t _ (proj1 Hnt) Ht)).
  destruct (String_plus_spec junk s port_text (_itoa_s n) p2 Hft (holds_text_ext _ _ _ _ He2 Hs))
    as (o & f & p3 & E3 & He3 & Ho & Hf & Hob & Hfb). rewrite (st_bind_ok _ _ _ _ _ E3).
  assert (String_of_ref o p3 = Ok (f, p3)) as E4.
  { unfold String_of_ref. by rewrite (st_bind_ok _ _ _ _ _ (block_at_spec _ _ _ Ho)). }
  rewrite (st_bind_ok _ _ _ _ _ E4).
  destruct Hs as (bs & -> & Hbs), Ht as (bt & -> & Hbt), Hf as (bf & -> & Hbf).
  specialize (Hs' bs eq_refl). specialize (Ht' bt eq_refl). specialize (Hfb bf eq_refl).
  pose proof (live_lt _ _ _ Hbs) as Hbs1. pose proof (live_lt _ _ _ Hbt) as Hbt2.
  pose proof (ext_more _ _ He1) as Hm1.
  assert (ext p p2) as He02 by by transitivity p1.
  assert (ext p p3) as He03 by by transitivity p2.
  assert (live p3 bs (Bytes (port_text ++ [0]))) as Hbs3
    by exact (ext_live _ _ _ _ He3 (ext_live _ _ _ _ He2 Hbs)).
  assert (live p3 bt (Bytes (_itoa_s n ++ [0]))) as Hbt3
    by exact (ext_live _ _ _ _ He3 Hbt).
  destruct (free_new p p3 bt _ He03 Hbt3 ltac:(lia)) as (p4 & E5 & He4 & Hk4).
  rewrite (st_bind_ok _ _ _ _ _ (destroy_ok _ _ _ _ _ E5)).
  pose proof (ext_more _ _ He2) as Hm2.
  assert (live p4 bs (Bytes (port_text ++ [0]))) as Hbs4 by (apply Hk4; [lia|done]).
  destruct (free_new p p4 bs _ He4 Hbs4 ltac:(lia)) as (p5 & E6 & He5 & Hk5).
  rewrite (st_bind_ok _ _ _ _ _ (destroy_ok _ _ _ _ _ E6)).
  exists p5. split; [done|]. apply st_bind_ok. apply CStr_spec; [apply Hft|].
  exists bf. split; [done|]. apply Hk5; [lia|]. apply Hk4; [lia|done].
Qed.

(** With the two values at hand, the program stores them and listens. *)
Lemma start_spec d n size dev port buf buf1 buf2 old b p :
  holds_bytes p dev (int_bytes d) -> holds_bytes p port (int_bytes n) ->
  m_pValue dev <> Some b -> m_pValue port <> Some b -> m_pValue dev <> m_pValue port ->
  1 <= d <= size -> size < 2 ^ 31 -> 0 <= n < 2 ^ 31 ->
  sets junk realloc_moves PORT (int_bytes n) buf buf1 ->
  sets junk realloc_moves DEVICE (int_bytes d) buf1 buf2 ->
  cfg_at p b buf -> file p = Some old -> (length old <= length buf2)%nat ->
  exists p', start dev port size p = Ok (Sniffing d (port_text ++ _itoa_s n), p') /\
    file p' = Some buf2 /\
    output p' = output p ++ [ListeningOn d; ShowFilter (port_text ++ _itoa_s n)].
Proof.
  intros Hd Hn Hbd Hbn Hdn Hdr Hsize Hnr Hs1 Hs2 Hcfg Hf Hlen. unfold Main.start.
  rewrite (st_bind_ok _ _ _ _ _ (memory_value_spec p dev d Hd ltac:(lia))).
  assert (u32 (d - 1) = d - 1) as -> by (apply u32_small; lia).
  destruct (Z.leb_spec size (d - 1)); [lia|]. replace (d - 1 + 1) with d by lia.
  destruct (memory_copy_spec junk port (int_bytes n) p Hn) as (port' & p1 & E1 & He1 & Hn1 & Hp1).
  rewrite (st_bind_ok _ _ _ _ _ E1).
  destruct (memory_copy_spec junk dev (int_bytes d) p1 (holds_bytes_ext _ _ _ _ He1 Hd))
    as (dev' & p2 & E2 & He2 & Hd2 & Hp2). rewrite (st_bind_ok _ _ _ _ _ E2).
  assert (ext p p2) as He by by transitivity p1.
  pose proof (cfg_ext _ _ _ _ He Hcfg) as Hcfg2.
  pose proof (live_lt _ _ _ (cfg_live _ _ _ Hcfg)) as Hblt. pose proof (ext_more _ _ He1) as Hm1.
  destruct (save_config_spec junk realloc_moves dev' port' (int_bytes d) (int_bytes n) buf buf1 buf2
    old p2 b) as (p3 & E3 & Hf3 & Ho3 & Hl3); try done.
  { exact (holds_bytes_ext _ _ _ _ He2 Hn1). }
  { intros E. specialize (Hp2 b E). lia. }
  { intros E. specialize (Hp1 b E). lia. }
  { by rewrite (ext_file _ _ He). }
  rewrite (st_bind_ok _ _ _ _ _ E3). rewrite (st_bind_ok _ _ _ _ _ eq_refl).
  set (p4 := show [ListeningOn d] p3).
  destruct Hd as (bd & -> & Hbd'), Hn as (bn & -> & Hbn'). cbn [m_pValue] in *.
  assert (live p4 bd (Bytes (int_bytes d))) as Hd4
    by (apply Hl3; [congruence|by eapply ext_live]).
  assert (live p4 bn (Bytes (int_bytes n))) as Hn4
    by (apply Hl3; [congruence|by eapply ext_live]).
  assert (memory_value (mkmemory (Some bn) (Z.of_nat (length (int_bytes n)))) p4 = Ok (n, p4)) as E4
    by (apply memory_value_spec; [by exists bn|lia]).
  rewrite (st_bind_ok _ _ _ _ _ E4).
  destruct (filter_spec n p4 (fun filter => print [ShowFilter filter];;
      memory_free (mkmemory (Some bd) (Z.of_nat (length (int_bytes d))));;
      memory_free (mkmemory (Some bn) (Z.of_nat (length (int_bytes n))));;
      mret (Sniffing d filter)) Hnr) as (p5 & He5 & E5). rewrite E5. clear E5.
  rewrite (st_bind_ok _ _ _ _ _ eq_refl).
  set (p6 := show [ShowFilter (port_text ++ _itoa_s n)] p5).
  destruct (free_live p6 bd (Bytes (int_bytes d))) as (p7 & E7 & Hf7 & Ho7 & Hl7);
    [exact (ext_live _ _ _ _ He5 Hd4)|].
  rewrite (st_bind_ok _ _ _ _ _ (memory_free_ok _ _ _ _ E7)).
  destruct (free_live p7 bn (Bytes (int_bytes n))) as (p8 & E8 & Hf8 & Ho8 & _);
    [apply Hl7; [congruence|exact (ext_live _ _ _ _ He5 Hn4)]|].
  rewrite (st_bind_ok _ _ _ _ _ (memory_free_ok _ _ _ _ E8)).
  exists p8. split; [done|]. rewrite Hf8, Hf7, Ho8, Ho7. cbn [show file output p6].
  unfold p6. cbn [show file output]. rewrite (ext_file _ _ He5), (ext_output _ _ He5).
  unfold p4. cbn [show file output]. rewrite Hf3, Ho3, (ext_output _ _ He). split; [done|].
  by rewrite <- app_assoc.
Qed.

(** * What the dialogue leaves as it is *)

Record grows (p p' : process) : Prop := {
  grows_old : forall b, (b < length (heap p))%nat -> heap p' !! b = heap p !! b;
  grows_more : (length (heap p) <= length (heap p'))%nat;
  grows_default : default_config p' = default_config p;
  grows_config : g_config p' = g_config p;
  grows_size : g_config_size p' = g_config_size p;
  grows_file : file p' = file p
}.

#[export] Instance grows_preorder : PreOrder grows.
Proof.
  split; [done|]. intros p p' p'' [] []. constructor; try congruence; [|lia].
  intros b Hb. rewrite <- grows_old0 by done. apply grows_old1. lia.
Qed.

Lemma ext_grows p p' : ext p p' -> grows p p'.
Proof. by intros []. Qed.

Lemma cfg_grows p p' b buf : grows p p' -> cfg_at p b buf -> cfg_at p' b buf.
Proof.
  intros [] [H1 H2 H3 H4]. constructor; [|by rewrite grows_config0|by rewrite grows_size0|done].
  unfold live in *. rewrite grows_old0; [done|]. by eapply live_lt.
Qed.

(** * The file at the start *)

Lemma memory_default_spec p : exists m p', memory_default junk p = Ok (m, p') /\ ext p p'.
Proof.
  unfold memory_default, memory_init.
  destruct (malloc_spec junk sizeof_int p) as (b & p1 & l & E & He & _).
  rewrite (st_bind_ok _ _ _ _ _ E). by eexists _, p1.
Qed.

(** The bytes of the file are put into a new block. *)
Lemma check_config_file_spec p content : file p = Some content ->
  Z.of_nat (length content) < 2 ^ 30 ->
  exists b p', check_config_file junk 0 p = Ok (inr true, p') /\ cfg_at p' b content /\
    file p' = file p /\ input p' = input p /\ output p' = output p.
Proof.
  intros Hf Hsmall. unfold check_config_file. rewrite (st_bind_ok _ _ p p p) by done.
  change (negb (0 =? 0)) with false. cbv iota. rewrite Hf.
  destruct (malloc_spec junk (Z.of_nat (length content)) p) as (b & p1 & l & E & He & Hl & Hlen & Hb).
  rewrite (st_bind_ok _ _ _ _ _ E).
  destruct (put_new p p1 b _ (Bytes content) He Hl Hb) as (p2 & E2 & He2 & Hl2 & _).
  rewrite (st_bind_ok _ _ _ _ _ E2). eexists b, _. split; [done|]. destruct He2.
  split; [by constructor|]. split; [by rewrite <- Hf|]. by split.
Qed.

(** * Questions *)

(** The keys that end the question for Y or N. *)
Definition yes_no (c : Z) : option bool :=
  if (c =? 110) || (c =? 78) then Some true
  else if (c =? 121) || (c =? 89) then Some false else None.

Lemma ask_existing_round p c r : input p = c :: r ->
  ask_existing_body tt p =
  Ok (match yes_no c with
      | Some b => (inr b, set_input r p)
      | None => (inl tt, if c =? 10 then set_input r p else show [AskYesNo] (set_input r p))
      end).
Proof.
  intros Hi. unfold ask_existing_body.
  rewrite (st_bind_ok _ _ p (Some c) (set_input r p)) by (unfold getchar; by rewrite Hi).
  assert (forall k, bool_decide (Some c = Some k) = (c =? k)) as Ek.
  { intros k. destruct (Z.eqb_spec c k) as [->|Hne]; [by apply bool_decide_eq_true_2|].
    apply bool_decide_eq_false_2. congruence. }
  cbv zeta. rewrite !Ek. unfold yes_no.
  destruct ((c =? 110) || (c =? 78)); [done|]. destruct ((c =? 121) || (c =? 89)); [done|].
  by destruct (c =? 10).
Qed.

(** Other keys are read over. *)
Lemma ask_existing_spec noise c b r : forall n p, (length noise < n)%nat ->
  Forall (fun k => yes_no k = None) noise -> yes_no c = Some b -> input p = noise ++ c :: r ->
  exists p', st_loop n ask_existing_body tt p = Ok (b, p') /\
    grows p p' /\ input p' = r.
Proof.
  induction noise as [|k noise IH]; intros [|n] p Hn Hk Hc Hi; cbn [length app] in *; try lia.
  - pose proof (ask_existing_round p c r Hi) as E. rewrite Hc in E.
    rewrite (st_loop_exit _ _ _ _ _ _ E). by eexists.
  - apply Forall_cons in Hk as [Hk1 Hk]. pose proof (ask_existing_round p k _ Hi) as E.
    rewrite Hk1 in E. rewrite (st_loop_next _ _ _ _ _ _ E).
    edestruct (IH n) as (p' & E' & Hg & Hi'); [lia|done|done|
      |exists p'; rewrite E'; split; [done|]]; [by destruct (k =? 10)|].
    split; [|done]. etransitivity; [|exact Hg]. destruct (k =? 10); [done|].
    by transitivity (set_input (noise ++ c :: r) p).
Qed.

(** Spaces and a number that is accepted. *)
Lemma ask_device_spec ws size d r n i p : (0 < n)%nat -> Forall (fun c => is_space c = true) ws ->
  1 <= d <= size -> d < 2 ^ 32 -> ends_number r -> input p = ws ++ _itoa_s d ++ r ->
  st_loop n (ask_device_body size) i p = Ok (d, set_input r p).
Proof.
  intros Hn Hws Hd Hd32 Hr Hi. destruct n as [|n]; [lia|]. apply st_loop_exit.
  unfold ask_device_body.
  rewrite (st_bind_ok _ _ _ _ _ (scanf_d_number p ws d r Hws ltac:(lia) Hr Hi)).
  destruct (Z.leb_spec d size); [|lia]. by destruct (Z.ltb_spec 0 d); [|lia].
Qed.

Lemma ask_port_spec ws port r n i p : (0 < n)%nat -> Forall (fun c => is_space c = true) ws ->
  0 < port < 2 ^ 16 -> ends_number r -> input p = ws ++ _itoa_s port ++ r ->
  st_loop n ask_port_body i p = Ok (port, set_input r p).
Proof.
  intros Hn Hws Hp Hr Hi. destruct n as [|n]; [lia|]. apply st_loop_exit.
  unfold ask_port_body.
  rewrite (st_bind_ok _ _ _ _ _ (scanf_d_number p ws port r Hws ltac:(lia) Hr Hi)).
  assert (u16 port = port) as -> by (apply Z.mod_small; simpl; lia).
  by destruct (Z.ltb_spec 0 port); [|lia].
Qed.

(** * The values *)

(** Two values, in blocks that are different and new. *)
Record values (p p' : process) (dev port : memory_t) (db pb : list Z) : Prop := {
  values_dev : holds_bytes p' dev db;
  values_port : holds_bytes p' port pb;
  values_new : forall b, (b < length (heap p))%nat ->
    m_pValue dev <> Some b /\ m_pValue port <> Some b;
  values_two : m_pValue dev <> m_pValue port;
  values_grows : grows p p'
}.

Lemma values_intro p p1 p2 p3 dev port db pb : grows p p1 ->
  ext p1 p2 -> holds_bytes p2 dev db ->
  (forall b, m_pValue dev = Some b -> (length (heap p1) <= b)%nat) ->
  ext p2 p3 -> holds_bytes p3 port pb ->
  (forall b, m_pValue port = Some b -> (length (heap p2) <= b)%nat) ->
  values p p3 dev port db pb.
Proof.
  intros Hg He2 Hd Hd' He3 Hp Hp'. pose proof (grows_more _ _ Hg). pose proof (ext_more _ _ He2).
  constructor; [by eapply holds_bytes_ext|done| | |].
  - intros b Hb. split; intros E; [specialize (Hd' b E)|specialize (Hp' b E)]; lia.
  - destruct Hd as (bd & -> & Hbd). cbn [m_pValue] in *. intros E. symmetry in E.
    specialize (Hp' bd E). apply live_lt in Hbd. lia.
  - transitivity p1; [done|]. apply ext_grows. by transitivity p2.
Qed.

Lemma restore_spec n p b w1 w2 rest : devices = Some n -> bar ∉ w1 -> length w1 = 4%nat ->
  length w2 = 4%nat -> cfg_at p b (config_text [w1; w2] rest) ->
  exists dev port p', restore junk devices p = Ok (dev, port, Z.of_nat n, p') /\
    values p p' dev port w1 w2.
Proof.
  intros Hdev Hw1 H1 H2 Hcfg. unfold restore.
  destruct (get_config_option_spec junk [] w1 (bar :: config_text [w2] rest) p b)
    as (dev & p1 & E1 & He1 & Hd & Hd'); [by intros ? ?%elem_of_nil|done|cbn; lia|exact Hcfg|].
  rewrite (st_bind_ok _ _ _ _ _ E1).
  destruct (get_config_option_spec junk [w1] w2 (bar :: rest) p1 b)
    as (port & p2 & E2 & He2 & Hp & Hp');
    [by intros f ->%list_elem_of_singleton|done|cbn; lia|by eapply cfg_ext|].
  rewrite (st_bind_ok _ _ _ _ _ E2). unfold create_dev_list. rewrite Hdev.
  eexists dev, port, p2. split; [done|]. by apply (values_intro p p p1 p2).
Qed.

Lemma choose_spec k n d port ws ws' r p : (0 < k)%nat -> devices = Some n ->
  1 <= d <= Z.of_nat n -> d < 2 ^ 31 -> 0 < port < 2 ^ 16 ->
  Forall (fun c => is_space c = true) ws -> Forall (fun c => is_space c = true) ws' -> ws' <> [] ->
  ends_number r -> input p = ws ++ _itoa_s d ++ ws' ++ _itoa_s port ++ r ->
  exists dev m p', choose junk devices port0 k p = Ok (dev, m, Z.of_nat n, p') /\
    values p p' dev m (int_bytes d) (int_bytes port) /\ input p' = r.
Proof.
  intros Hk Hdev Hd Hd31 Hport Hws Hws' Hne Hr Hi. unfold choose, list_all_devs. rewrite Hdev.
  rewrite (st_bind_ok _ _ p (Z.of_nat n) (show (ShowDevice <$> seqZ 1 (Z.of_nat n)) p)) by done.
  rewrite (st_bind_ok _ _ _ _ _ eq_refl). set (p1 := show _ (show _ p)).
  assert (ends_number (ws' ++ _itoa_s port ++ r)) as Hend.
  { destruct ws' as [|c ws']; [done|]. apply Forall_cons in Hws' as [Hc _]. cbn.
    unfold is_space in Hc. unfold is_digit. lia. }
  rewrite (st_bind_ok _ _ _ _ _ (ask_device_spec ws (Z.of_nat n) d _ k 0 p1 Hk Hws Hd ltac:(lia) Hend Hi)).
  rewrite (st_bind_ok _ _ _ _ _ eq_refl). set (p2 := show _ (set_input _ p1)).
  rewrite (st_bind_ok _ _ _ _ _ (ask_port_spec ws' port r k port0 p2 Hk Hws' Hport Hr eq_refl)).
  set (p3 := set_input r p2).
  destruct (memory_of_value_spec junk d p3) as (dev & p4 & E4 & He4 & Hdv & Hdv').
  rewrite (st_bind_ok _ _ _ _ _ E4).
  destruct (memory_of_value_spec junk port p4) as (m & p5 & E5 & He5 & Hm & Hm').
  rewrite (st_bind_ok _ _ _ _ _ E5). exists dev, m, p5. split; [done|].
  split; [by apply (values_intro p p3 p4 p5)|].
  by rewrite (ext_input _ _ He5), (ext_input _ _ He4).
Qed.

(** * The whole run *)

(** A run with the file [content], once the values are known to be found. *)
Lemma tmain_spec k content typed noise key existing r d n size buf1 buf2 :
  Z.of_nat (length content) < 2 ^ 30 -> (length noise < k)%nat ->
  Forall (fun c => yes_no c = None) noise -> yes_no key = Some existing ->
  typed = noise ++ key :: r ->
  (forall p b, cfg_at p b content -> input p = r -> exists dev port p',
    (if negb existing then restore junk devices else choose junk devices port0 k) p =
      Ok (dev, port, size, p') /\
    values p p' dev port (int_bytes d) (int_bytes n)) ->
  1 <= d <= size -> size < 2 ^ 31 -> 0 <= n < 2 ^ 31 ->
  sets junk realloc_moves PORT (int_bytes n) content buf1 ->
  sets junk realloc_moves DEVICE (int_bytes d) buf1 buf2 ->
  (length content <= length buf2)%nat ->
  exists p', _tmain junk realloc_moves 0 devices port0 k (at_start (Some content) typed) =
      Ok (Sniffing d (port_text ++ _itoa_s n), p') /\
    file p' = Some buf2.
Proof.
  intros Hsmall Hk Hno Hkey -> Hv Hd Hsize Hn Hs1 Hs2 Hlen. unfold _tmain.
  rewrite (st_bind_ok _ _ _ _ _ eq_refl). set (p0 := show _ _).
  destruct (memory_default_spec p0) as (m1 & p1 & E1 & He1). rewrite (st_bind_ok _ _ _ _ _ E1).
  destruct (memory_default_spec p1) as (m2 & p2 & E2 & He2). rewrite (st_bind_ok _ _ _ _ _ E2).
  assert (ext p0 p2) as He by by transitivity p1.
  destruct (check_config_file_spec p2 content) as (b & p3 & E3 & Hc3 & Hf3 & Hi3 & _);
    [by rewrite (ext_file _ _ He)|done|]. rewrite (st_bind_ok _ _ _ _ _ E3).
  rewrite (st_bind_ok _ _ _ _ _ eq_refl). set (p4 := show _ p3).
  destruct (ask_existing_spec noise key existing r k p4 Hk Hno Hkey) as (p5 & E5 & Hg5 & Hi5).
  { unfold p4. cbn [show input]. by rewrite Hi3, (ext_input _ _ He). }
  rewrite (st_bind_ok _ _ _ _ _ E5). cbn [andb].
  assert (cfg_at p5 b content) as Hc5 by (apply (cfg_grows p4); [done|by destruct Hc3]).
  destruct (Hv p5 b Hc5 Hi5) as (dev & port & p6 & E6 & Hvs). rewrite (st_bind_ok _ _ _ _ _ E6).
  destruct Hvs as [Hdev Hport Hnew Htwo Hg6].
  destruct (Hnew b ltac:(eapply live_lt, cfg_live, Hc5)) as [Hnd Hnp].
  destruct (start_spec d n size dev port content buf1 buf2 content b p6) as (p7 & E7 & Hf7 & _);
    try done; [by eapply cfg_grows| |by exists p7].
  rewrite (grows_file _ _ Hg6), (grows_file _ _ Hg5). unfold p4. cbn [show file].
  by rewrite Hf3, (ext_file _ _ He).
Qed.
End Main.

(** * A block that moves *)

Section Moves.
Context (junk : nat -> nat -> Z) (realloc_moves : nat -> Z -> bool).

(** What follows when [realloc] moves the block: the old one, which is released, is used. *)
Definition moved (f : fault) : Prop :=
  exists b n, realloc_moves b n = true /\ f = OutOfBounds (Z.of_nat b).

Abbreviation stays := (fun (_ : nat) (_ : Z) => false).

Lemma realloc_stays {A} c n (k : list Z -> Console A) p :
  unless moved
    ((realloc_config junk realloc_moves c n;; buf ← config_bytes c; k buf) p)
    ((realloc_config junk stays c n;; buf ← config_bytes c; k buf) p).
Proof.
  destruct c as [| |b]; [by left..|]. unfold realloc_config.
  destruct (bytes_of b p) as [[l p']|f] eqn:E.
  2:{ left. by rewrite !(st_bind_fault _ _ _ f) by by apply st_bind_fault. }
  assert (p' = p /\ heap p !! b = Some (Some (Bytes l))) as [-> Hb].
  { unfold bytes_of, block_at in E. revert E. st_run.
    destruct (heap p !! b) as [[[]|]|]; try done. by intros [= -> ->]. }
  destruct (realloc_moves b n) eqn:Em.
  2:{ by left. }
  right. exists (OutOfBounds (Z.of_nat b)). split; [by exists b, n|].
  apply lookup_lt_Some in Hb as Hlt.
  unfold mbind, ST_bind. rewrite E. st_run. unfold new_block, free_block, block_at.
  st_run. cbn [heap set_heap]. rewrite lookup_app_l, Hb by done. st_run.
  cbn [config_bytes set_config set_heap heap]. unfold bytes_of, block_at. st_run.
  cbn [heap set_config set_heap]. rewrite list_lookup_insert_eq by (rewrite length_app; lia). done.
Qed.

(** Steps that do not call [realloc] are the same; [tac] is for those that do. *)
Ltac same_steps tac := repeat first
  [ tac
  | left; reflexivity
  | match goal with |- unless _ ((match ?x with _ => _ end) _) _ => destruct x end
  | apply unless_bind; [first [tac|left; reflexivity]|intros ? ? _] ].

Lemma set_config_value_stays opt value n p :
  unless moved (set_config_value junk realloc_moves opt value n p)
    (set_config_value junk stays opt value n p).
Proof. unfold set_config_value. same_steps ltac:(apply realloc_stays). Qed.

Lemma set_config_option_stays opt value p :
  unless moved (set_config_option junk realloc_moves opt value p) (set_config_option junk stays opt value p).
Proof. unfold set_config_option. same_steps ltac:(apply set_config_value_stays). Qed.

Lemma save_config_stays fopen_error device port p :
  unless moved (save_config junk realloc_moves fopen_error device port p)
    (save_config junk stays fopen_error device port p).
Proof. unfold save_config. same_steps ltac:(apply set_config_option_stays). Qed.

Lemma start_stays fopen_error device port n p :
  unless moved (start junk realloc_moves fopen_error device port n p)
    (start junk stays fopen_error device port n p).
Proof. unfold start. same_steps ltac:(apply save_config_stays). Qed.

(** A run with a [realloc] that moves blocks is the run with one that never does, or it uses
    a released block. *)
Lemma tmain_stays fopen_error devices port0 k p :
  unless moved (_tmain junk realloc_moves fopen_error devices port0 k p)
    (_tmain junk stays fopen_error devices port0 k p).
Proof. unfold _tmain. same_steps ltac:(apply start_stays). Qed.
End Moves.
