(* ===== verification/ConsoleFaults.v ===== *)
(** The first run, without a file cfg: [g_config] stays the static array, and every
    attempt to store a value ends in [realloc]. *)

From S2P Require Import Prelude CMem Console Str Cfg Main ConsoleSpec CfgProofs.
From S2P Require Import MainProofs.

(** * The configuration is not moved *)

Definition static_config (p : process) : Prop := g_config p = ConfigStatic.

Section Static.
Context (junk : nat -> nat -> Z) (realloc_moves : nat -> Z -> bool) (fopen_error : Z).
Context (devices : option nat) (port0 : Z).

Abbreviation kept := (keeps static_config).

Lemma print_kept l : kept (print l).
Proof. by apply keeps_modify. Qed.

Lemma new_block_kept c : kept (new_block c).
Proof. intros p Hp b p' E. by injection E as _ <-. Qed.

Lemma block_at_kept b : kept (block_at b).
Proof.
  intros p Hp c p' E. unfold block_at in E. destruct (heap p !! b) as [[c'|]|]; [|done..].
  by injection E as _ <-.
Qed.

Lemma modify_heap_kept (f : process -> list (option cell)) :
  kept (st_modify (fun p => set_heap (f p) p)).
Proof. by apply keeps_modify. Qed.

Lemma getchar_kept : kept getchar.
Proof. intros p Hp c p' E. unfold getchar in E. destruct (input p); by injection E as _ <-. Qed.

Lemma scanf_d_kept : kept scanf_d.
Proof.
  intros p Hp c p' E. unfold scanf_d in E.
  destruct (scan_number (input p)) as [[v r]|]; by injection E as _ <-.
Qed.

Hint Resolve print_kept new_block_kept block_at_kept modify_heap_kept getchar_kept scanf_d_kept : keeps.

Lemma bytes_of_kept b : kept (bytes_of b).
Proof. unfold bytes_of. keeps_auto. Qed.

Lemma put_block_kept b c : kept (put_block b c).
Proof. unfold put_block. keeps_auto. Qed.

Hint Resolve bytes_of_kept put_block_kept : keeps.

Lemma malloc_kept n : kept (malloc junk n).
Proof. unfold malloc. keeps_auto. Qed.

Hint Resolve malloc_kept : keeps.

Lemma memory_init_kept n : kept (memory_init junk n).
Proof. unfold memory_init. keeps_auto. Qed.

Lemma memory_store_kept m l : kept (memory_store m l).
Proof. unfold memory_store. keeps_auto. Qed.

Lemma memory_bytes_kept m : kept (memory_bytes m).
Proof. unfold memory_bytes. keeps_auto. Qed.

Lemma memory_value_kept m : kept (memory_value m).
Proof. unfold memory_value. keeps_auto. Qed.

Hint Resolve memory_init_kept memory_store_kept memory_bytes_kept memory_value_kept : keeps.

Lemma memory_copy_kept m : kept (memory_copy junk m).
Proof. unfold memory_copy. keeps_auto. Qed.

Lemma memory_of_value_kept v : kept (memory_of_value junk v).
Proof. unfold memory_of_value. keeps_auto. Qed.

Hint Resolve memory_copy_kept memory_of_value_kept : keeps.

Lemma ask_existing_kept n : kept (st_loop n ask_existing_body tt).
Proof. apply keeps_loop. intros u. unfold ask_existing_body. keeps_auto. Qed.

Lemma choose_kept n : kept (choose junk devices port0 n).
Proof.
  unfold choose, list_all_devs. keeps_auto.
  - apply keeps_loop. intros i. unfold ask_device_body. keeps_auto.
  - apply keeps_loop. intros i. unfold ask_port_body. keeps_auto.
Qed.

(** * No value can be stored *)

Lemma set_config_value_static opt value size p r : static_config p ->
  set_config_value junk realloc_moves opt value size p <> Ok r.
Proof.
  intros Hp E. destruct r as [u p']. unfold set_config_value in E.
  apply st_bind_inv in E as (p0 & p1 & [= <- <-] & E). rewrite Hp in E.
  apply st_bind_inv in E as (buf & p2 & _ & E). apply st_bind_inv in E as ([v length] & p3 & _ & E).
  apply st_bind_inv in E as ([d|] & p4 & _ & E); [|done].
  cbv zeta in E. by apply st_bind_inv in E as (u' & p5 & E & _).
Qed.

Lemma save_config_static dev port p r : static_config p ->
  save_config junk realloc_moves 0 dev port p <> Ok r.
Proof.
  intros Hp E. destruct r as [u p']. unfold save_config in E. change (negb (0 =? 0)) with false in E.
  apply st_bind_inv in E as (m & p1 & E1 & E). pose proof (memory_copy_kept port p Hp _ _ E1) as Hp1.
  apply st_bind_inv in E as (u' & p2 & E & _). unfold set_config_option in E.
  change (OPTCOUNT <? PORT) with false in E.
  apply st_bind_inv in E as (l & p3 & E2 & E). pose proof (memory_bytes_kept m p1 Hp1 _ _ E2) as Hp3.
  by eapply set_config_value_static.
Qed.

Lemma start_static dev port size p r : static_config p ->
  start junk realloc_moves 0 dev port size p <> Ok r.
Proof.
  intros Hp E. destruct r as [o p']. unfold start in E.
  apply st_bind_inv in E as (d & p1 & E1 & E). pose proof (memory_value_kept dev p Hp _ _ E1) as Hp1.
  destruct (size <=? u32 (d - 1)); [done|].
  apply st_bind_inv in E as (m & p2 & E2 & E). pose proof (memory_copy_kept port p1 Hp1 _ _ E2) as Hp2.
  apply st_bind_inv in E as (m' & p3 & E3 & E). pose proof (memory_copy_kept dev p2 Hp2 _ _ E3) as Hp3.
  apply st_bind_inv in E as (b & p4 & E & _). by eapply save_config_static.
Qed.

(** The default configuration is written to the file. *)
Lemma check_config_file_none p : file p = None -> default_config p = g_default_config ->
  exists p', check_config_file junk 0 p = Ok (inr false, p') /\ static_config p' /\
    g_config_size p' = 19 /\ default_config p' = g_default_config /\ input p' = input p /\
    file p' = Some g_default_config.
Proof.
  intros Hf Hd. unfold check_config_file. rewrite (st_bind_ok _ _ p p p) by done.
  change (negb (0 =? 0)) with false. cbv iota. rewrite Hf, Hd. by eexists.
Qed.

(** The way to the questions. *)
Lemma tmain_first typed k : exists p, static_config p /\ g_config_size p = 19 /\
  default_config p = g_default_config /\ input p = typed /\
  _tmain junk realloc_moves 0 devices port0 k (at_start None typed) =
  (st_loop k ask_existing_body tt;;
   r ← choose junk devices port0 k;
   let '(cfg_device, cfg_port, size) := r : memory_t * memory_t * Z in
   start junk realloc_moves 0 cfg_device cfg_port size) p.
Proof.
  unfold _tmain. rewrite (st_bind_ok _ _ _ _ _ eq_refl). set (p0 := show _ _).
  destruct (memory_default_spec junk p0) as (m1 & p1 & E1 & He1). rewrite (st_bind_ok _ _ _ _ _ E1).
  destruct (memory_default_spec junk p1) as (m2 & p2 & E2 & He2). rewrite (st_bind_ok _ _ _ _ _ E2).
  assert (ext p0 p2) as He by by transitivity p1.
  destruct (check_config_file_none p2) as (p3 & E3 & Hs & Hz & Hd & Hi & _);
    [by rewrite (ext_file _ _ He)|by rewrite (ext_default _ _ He)|].
  rewrite (st_bind_ok _ _ _ _ _ E3). rewrite (st_bind_ok _ _ _ _ _ eq_refl).
  exists (show [AskExisting] p3). split; [exact Hs|]. split; [exact Hz|]. split; [exact Hd|]. split; [|done].
  cbn [show input]. by rewrite Hi, (ext_input _ _ He).
Qed.

Lemma tmain_first_never typed k r :
  _tmain junk realloc_moves 0 devices port0 k (at_start None typed) <> Ok r.
Proof.
  intros E. destruct r as [o p']. destruct (tmain_first typed k) as (p & Hp & _ & _ & _ & Et).
  rewrite Et in E. apply st_bind_inv in E as (b & p1 & E1 & E).
  pose proof (ask_existing_kept k p Hp _ _ E1) as Hp1.
  apply st_bind_inv in E as ([[dev port] size] & p2 & E2 & E).
  pose proof (choose_kept k p1 Hp1 _ _ E2) as Hp2. by eapply start_static.
Qed.

(** With answers that are accepted, the failure is that of [realloc]. *)
Lemma set_config_value_default value size p : static_config p -> g_config_size p = 19 ->
  default_config p = g_default_config ->
  set_config_value junk realloc_moves PORT value size p = Fault InvalidParameter.
Proof.
  intros Hp Hz Hd. unfold set_config_value. rewrite (st_bind_ok _ _ p p p) by done.
  rewrite Hp, Hz. rewrite (st_bind_ok _ _ p g_default_config p); [done|].
  unfold config_bytes. rewrite (st_bind_ok _ _ p p p) by done. by rewrite Hd.
Qed.

Lemma start_default dev port size db n p : static_config p -> g_config_size p = 19 ->
  default_config p = g_default_config -> holds_bytes p dev (int_bytes db) ->
  holds_bytes p port n -> 1 <= db <= size -> size < 2 ^ 31 ->
  start junk realloc_moves 0 dev port size p = Fault InvalidParameter.
Proof.
  intros Hp Hz Hd Hdev Hport Hr Hs. unfold start.
  rewrite (st_bind_ok _ _ _ _ _ (memory_value_spec p dev db Hdev ltac:(lia))).
  rewrite u32_small by lia. destruct (Z.leb_spec size (db - 1)); [lia|].
  destruct (memory_copy_spec junk port _ p Hport) as (port' & p1 & E1 & He1 & Hp1 & _).
  rewrite (st_bind_ok _ _ _ _ _ E1).
  destruct (memory_copy_spec junk dev _ p1 (holds_bytes_ext _ _ _ _ He1 Hdev))
    as (dev' & p2 & E2 & He2 & _). rewrite (st_bind_ok _ _ _ _ _ E2).
  apply st_bind_fault. unfold save_config. change (negb (0 =? 0)) with false. cbv iota.
  destruct (memory_copy_spec junk port' _ p2 (holds_bytes_ext _ _ _ _ He2 Hp1))
    as (m & p3 & E3 & He3 & Hm & _). rewrite (st_bind_ok _ _ _ _ _ E3).
  apply st_bind_fault. unfold set_config_option. change (OPTCOUNT <? PORT) with false. cbv iota.
  rewrite (st_bind_ok _ _ _ _ _ (memory_bytes_spec _ _ _ Hm)).
  assert (ext p p3) as He by (transitivity p1; [done|by transitivity p2]).
  apply set_config_value_default; unfold static_config.
  - by rewrite (ext_config _ _ He).
  - by rewrite (ext_size _ _ He).
  - by rewrite (ext_default _ _ He).
Qed.

Lemma tmain_first_valid k noise key existing n d port ws ws' r :
  (length noise < k)%nat -> Forall (fun c => yes_no c = None) noise ->
  yes_no key = Some existing -> devices = Some n -> Z.of_nat n < 2 ^ 31 ->
  1 <= d <= Z.of_nat n -> 0 < port < 2 ^ 16 ->
  Forall (fun c => is_space c = true) ws -> Forall (fun c => is_space c = true) ws' -> ws' <> [] ->
  ends_number r ->
  _tmain junk realloc_moves 0 devices port0 k
    (at_start None (noise ++ key :: ws ++ _itoa_s d ++ ws' ++ _itoa_s port ++ r)) =
  Fault InvalidParameter.
Proof.
  intros Hk Hno Hkey Hdev Hn Hd Hport Hws Hws' Hne Hr.
  destruct (tmain_first (noise ++ key :: ws ++ _itoa_s d ++ ws' ++ _itoa_s port ++ r) k)
    as (p & Hp & Hz & Hdc & Hi & ->).
  destruct (ask_existing_spec noise key existing _ k p Hk Hno Hkey Hi) as (p1 & E1 & Hg1 & Hi1).
  rewrite (st_bind_ok _ _ _ _ _ E1).
  destruct (choose_spec junk devices port0 k n d port ws ws' r p1)
    as (dev & m & p2 & E2 & Hv & _); try done; [lia..|].
  rewrite (st_bind_ok _ _ _ _ _ E2). destruct Hv as [Hdv Hpv _ _ Hg2].
  assert (grows p p2) as Hg by by transitivity p1.
  apply (start_default dev m _ d (int_bytes port)); try done; unfold static_config.
  - by rewrite (grows_config _ _ Hg).
  - by rewrite (grows_size _ _ Hg).
  - by rewrite (grows_default _ _ Hg).
Qed.
End Static.

(** * Questions without an end *)

Lemma st_loop_never {S L A} (I : S -> Prop) (body : L -> ST S (L + A)) n : forall l s, I s ->
  (forall l s, I s -> exists l' s', body l s = Ok (inl l', s') /\ I s') ->
  st_loop n body l s = Fault OutOfFuel.
Proof.
  induction n as [|n IH]; intros l s Hs Hb; [done|]. destruct (Hb l s Hs) as (l' & s' & E & Hs').
  rewrite (st_loop_next _ _ _ _ _ _ E). by apply IH.
Qed.

(** At the end of the input, or with other keys only, the first question stays. *)
Lemma ask_existing_never n p : Forall (fun c => yes_no c = None) (input p) ->
  st_loop n ask_existing_body tt p = Fault OutOfFuel.
Proof.
  intros Hp. apply (st_loop_never (fun p => Forall (fun c => yes_no c = None) (input p))); [done|].
  clear p Hp. intros [] p Hp. destruct (input p) as [|c r] eqn:Hi.
  - exists tt, (show [AskYesNo] p). unfold ask_existing_body.
    rewrite (st_bind_ok _ _ p None p) by (unfold getchar; by rewrite Hi).
    split; [done|]. cbn [show input]. by rewrite Hi.
  - apply Forall_cons in Hp as [Hc Hr]. rewrite (ask_existing_round p c r Hi), Hc.
    eexists tt, _. split; [done|]. by destruct (c =? 10).
Qed.

(** Fewer rounds than keys are not enough. *)
Lemma ask_existing_short noise r : forall n p, (n <= length noise)%nat ->
  Forall (fun c => yes_no c = None) noise -> input p = noise ++ r ->
  st_loop n ask_existing_body tt p = Fault OutOfFuel.
Proof.
  induction noise as [|c noise IH]; intros [|n] p Hn Hno Hi; cbn [length app] in *; try done; [lia|].
  apply Forall_cons in Hno as [Hc Hno]. pose proof (ask_existing_round p c _ Hi) as E.
  rewrite Hc in E. rewrite (st_loop_next _ _ _ _ _ _ E). apply IH; [lia|done|]. by destruct (c =? 10).
Qed.

(** No number is a device of an empty list. *)
Lemma ask_device_never n size i p : size <= 0 ->
  st_loop n (ask_device_body size) i p = Fault OutOfFuel.
Proof.
  intros Hs. apply (st_loop_never (fun _ => True)); [done|]. clear i p. intros i p _.
  unfold ask_device_body.
  assert (exists o p', scanf_d p = Ok (o, p')) as (o & p' & E)
    by (unfold scanf_d; destruct (scan_number (input p)) as [[]|]; by eexists _, _).
  rewrite (st_bind_ok _ _ _ _ _ E). cbv zeta. set (v := match o with Some v => v | None => i end).
  replace ((v <=? size) && (0 <? v)) with false by lia. by eexists _, _.
Qed.

Section Never.
Context (junk : nat -> nat -> Z) (realloc_moves : nat -> Z -> bool) (port0 : Z).

Lemma choose_never devices k p : devices = None \/ devices = Some O ->
  choose junk devices port0 k p = Fault OutOfFuel.
Proof.
  intros Hd. unfold choose.
  assert (exists l, list_all_devs devices p = Ok (0, show l p)) as [l E]
    by (destruct Hd as [-> | ->]; by eexists).
  rewrite (st_bind_ok _ _ _ _ _ E). rewrite (st_bind_ok _ _ _ _ _ eq_refl).
  apply st_bind_fault. by apply ask_device_never.
Qed.

(** The way to the first question, with a file or without. *)
Lemma tmain_asks devices cfg typed k :
  (forall content, cfg = Some content -> Z.of_nat (length content) < 2 ^ 30) ->
  exists p, input p = typed /\
  _tmain junk realloc_moves 0 devices port0 k (at_start cfg typed) =
  (bSetConfig ← st_loop k ask_existing_body tt;
   r ← (if bool_decide (is_Some cfg) && negb bSetConfig then restore junk devices
        else choose junk devices port0 k);
   let '(cfg_device, cfg_port, size) := r : memory_t * memory_t * Z in
   start junk realloc_moves 0 cfg_device cfg_port size) p.
Proof.
  intros Hc. unfold _tmain. rewrite (st_bind_ok _ _ _ _ _ eq_refl). set (p0 := show _ _).
  destruct (memory_default_spec junk p0) as (m1 & p1 & E1 & He1). rewrite (st_bind_ok _ _ _ _ _ E1).
  destruct (memory_default_spec junk p1) as (m2 & p2 & E2 & He2). rewrite (st_bind_ok _ _ _ _ _ E2).
  assert (ext p0 p2) as He by by transitivity p1.
  assert (exists p3, check_config_file junk 0 p2 = Ok (inr (bool_decide (is_Some cfg)), p3) /\
    input p3 = input p2) as (p3 & E3 & Hi).
  { pose proof (ext_file _ _ He) as Hf. cbn [p0 show at_start file] in Hf. destruct cfg as [content|].
    - destruct (check_config_file_spec junk p2 content Hf (Hc _ eq_refl)) as (b & p3 & E3 & _ & _ & Hi & _).
      by exists p3.
    - destruct (check_config_file_none junk p2 Hf) as (p3 & E3 & _ & _ & _ & Hi & _);
        [by rewrite (ext_default _ _ He)|]. by exists p3. }
  rewrite (st_bind_ok _ _ _ _ _ E3). rewrite (st_bind_ok _ _ _ _ _ eq_refl).
  exists (show [AskExisting] p3). split; [|done]. cbn [show input].
  by rewrite Hi, (ext_input _ _ He).
Qed.

Lemma tmain_never_key devices cfg typed k :
  (forall content, cfg = Some content -> Z.of_nat (length content) < 2 ^ 30) ->
  Forall (fun c => yes_no c = None) typed ->
  _tmain junk realloc_moves 0 devices port0 k (at_start cfg typed) = Fault OutOfFuel.
Proof.
  intros Hc Ht. destruct (tmain_asks devices cfg typed k Hc) as (p & Hi & ->).
  apply st_bind_fault, ask_existing_never. by rewrite Hi.
Qed.

Lemma tmain_never_device devices cfg noise key existing r k :
  (forall content, cfg = Some content -> Z.of_nat (length content) < 2 ^ 30) ->
  Forall (fun c => yes_no c = None) noise -> yes_no key = Some existing ->
  cfg = None \/ existing = true -> devices = None \/ devices = Some O ->
  _tmain junk realloc_moves 0 devices port0 k (at_start cfg (noise ++ key :: r)) = Fault OutOfFuel.
Proof.
  intros Hc Hno Hkey Hch Hd. destruct (tmain_asks devices cfg (noise ++ key :: r) k Hc) as (p & Hi & ->).
  destruct (Nat.lt_ge_cases (length noise) k) as [Hk|Hk].
  - destruct (ask_existing_spec noise key existing r k p Hk Hno Hkey Hi) as (p1 & E1 & _).
    rewrite (st_bind_ok _ _ _ _ _ E1).
    replace (bool_decide (is_Some cfg) && negb existing) with false
      by (destruct Hch as [-> | ->]; [done|by rewrite andb_false_r]).
    by apply st_bind_fault, choose_never.
  - apply st_bind_fault. apply ask_existing_short with (noise := noise) (r := key :: r); done.
Qed.
End Never.
