(* ===== verification/ConsoleProps.v ===== *)
(** What the console program promises: settings that survive, questions, and the class
    [String]. *)

From S2P Require Import Prelude CMem Console Str Cfg Main ConsoleSpec StrProofs CfgProofs.
From S2P Require Import MainProofs ConsoleFaults.

(** * Settings *)

Section Settings.
Context (junk : nat -> nat -> Z) (realloc_moves : nat -> Z -> bool) (devices : option nat).
Hypothesis Hmoves : forall b n, realloc_moves b n = false.

Abbreviation run k port0 cfg typed :=
  (_tmain junk realloc_moves 0 devices port0 k (at_start (Some cfg) typed)).

Lemma config_text_length w1 w2 rest : length w1 = 4%nat -> length w2 = 4%nat ->
  length (config_text [w1; w2] rest) = (10 + length rest)%nat.
Proof. intros H1 H2. cbn [config_text]. rewrite !length_app. cbn [length]. rewrite length_app. cbn. lia. Qed.

Lemma sets_port w1 w2 v rest : bar ∉ w1 -> bar ∉ w2 -> length v = length w2 ->
  sets junk realloc_moves PORT v (config_text [w1; w2] rest) (config_text [w1; v] rest).
Proof.
  intros H1 H2 Hv. apply (sets_field junk realloc_moves [w1] w2 rest v); [|done..].
  by intros f ->%list_elem_of_singleton.
Qed.

Lemma sets_device w1 w2 v rest : bar ∉ w1 -> length v = length w1 ->
  sets junk realloc_moves DEVICE v (config_text [w1; w2] rest) (config_text [v; w2] rest).
Proof.
  intros H1 Hv. apply (sets_field junk realloc_moves [] w1 (config_text [w2] rest) v); [|done..].
  by intros f ?%elem_of_nil.
Qed.

(** A run that chooses a device and a port. *)
Lemma run_choosing k port0 n d port w1 w2 rest noise key ws ws' r :
  devices = Some n -> 1 <= d <= Z.of_nat n -> Z.of_nat n < 2 ^ 31 -> 0 < port < 2 ^ 16 ->
  bar ∉ w1 -> bar ∉ w2 -> length w1 = 4%nat -> length w2 = 4%nat ->
  Z.of_nat (length rest) < 2 ^ 29 ->
  (length noise < k)%nat -> Forall (fun c => yes_no c = None) noise -> yes_no key = Some true ->
  Forall (fun c => is_space c = true) ws -> Forall (fun c => is_space c = true) ws' -> ws' <> [] ->
  ends_number r ->
  exists p, run k port0 (config_text [w1; w2] rest)
      (noise ++ key :: ws ++ _itoa_s d ++ ws' ++ _itoa_s port ++ r) =
      Ok (Sniffing d (port_text ++ _itoa_s port), p) /\
    file p = Some (config_text [int_bytes d; int_bytes port] rest).
Proof.
  intros Hdev Hd Hn Hport H1 H2 L1 L2 Hrest Hk Hno Hkey Hws Hws' Hne Hr.
  apply (tmain_spec junk realloc_moves devices port0 Hmoves k _ _ noise key true
    (ws ++ _itoa_s d ++ ws' ++ _itoa_s port ++ r) d port (Z.of_nat n)
    (config_text [w1; int_bytes port] rest)); try done; try lia.
  - rewrite config_text_length by done. lia.
  - intros p b _ Hi. cbn [negb].
    destruct (choose_spec junk devices port0 k n d port ws ws' r p) as (dev & m & p' & E & Hv & _);
      try done; [lia..|]. by exists dev, m, p'.
  - by apply sets_port.
  - by apply sets_device.
  - by rewrite !config_text_length.
Qed.

(** A run that takes the values of the file, whatever becomes of the port's field. *)
Lemma run_existing k port0 n d port rest noise key r buf1 buf2 :
  devices = Some n -> 1 <= d <= Z.of_nat n -> Z.of_nat n < 2 ^ 31 -> 0 <= port < 2 ^ 16 ->
  bar ∉ int_bytes d -> Z.of_nat (length rest) < 2 ^ 29 ->
  (length noise < k)%nat -> Forall (fun c => yes_no c = None) noise -> yes_no key = Some false ->
  sets junk realloc_moves PORT (int_bytes port) (config_text [int_bytes d; int_bytes port] rest) buf1 ->
  sets junk realloc_moves DEVICE (int_bytes d) buf1 buf2 ->
  (10 + length rest <= length buf2)%nat ->
  exists p, run k port0 (config_text [int_bytes d; int_bytes port] rest) (noise ++ key :: r) =
      Ok (Sniffing d (port_text ++ _itoa_s port), p) /\
    file p = Some buf2.
Proof.
  intros Hdev Hd Hn Hport Hbd Hrest Hk Hno Hkey Hs1 Hs2 Hlen.
  apply (tmain_spec junk realloc_moves devices port0 Hmoves k _ _ noise key false r d port (Z.of_nat n)
    buf1); try done; try lia.
  - rewrite config_text_length by done. lia.
  - intros p b Hcfg Hi. cbn [negb].
    destruct (restore_spec junk devices n p b (int_bytes d) (int_bytes port) rest)
      as (dev & m & p' & E & Hv); try done. by exists dev, m, p'.
Qed.

(** The file once the field of the port has been set [j] times too often. *)
Definition grown (d port : Z) (rest : list Z) (j : nat) : list Z :=
  config_text [int_bytes d] (mjoin (replicate (S j) (int_bytes port)) ++ bar :: rest).

Lemma grown_text d port rest old j : int_bytes port = bar :: old ->
  exists rest', grown d port rest j = config_text [int_bytes d; int_bytes port] rest' /\
    length rest' = (4 * j + length rest)%nat.
Proof.
  intros Hp. pose proof (f_equal length Hp) as Hl. cbn [length int_bytes] in Hl.
  unfold grown. change (replicate (S j) (int_bytes port)) with (int_bytes port :: replicate j (int_bytes port)).
  change (mjoin (int_bytes port :: replicate j (int_bytes port)))
    with (int_bytes port ++ mjoin (replicate j (int_bytes port))).
  rewrite <- app_assoc. set (m := mjoin _).
  assert (length m = 4 * j)%nat as Hm.
  { unfold m. clear -j. induction j as [|j IH]; [done|].
    change (mjoin (replicate (S j) (int_bytes port)))
      with (int_bytes port ++ mjoin (replicate j (int_bytes port))).
    rewrite length_app, IH. cbn. lia. }
  destruct j as [|j]; [exists rest; unfold m; split; [done|cbn; lia]|].
  destruct m as [|c m'] eqn:Em; [cbn in Hm; lia|].
  assert (c = bar) as ->.
  { unfold m in Em. change (mjoin (replicate (S j) (int_bytes port)))
      with (int_bytes port ++ mjoin (replicate j (int_bytes port))) in Em.
    rewrite Hp in Em. by injection Em as <- _. }
  exists (m' ++ bar :: rest). split; [done|]. rewrite length_app. cbn [length] in *. lia.
Qed.

Lemma grown_sets d port rest old j : int_bytes port = bar :: old -> bar ∉ int_bytes d ->
  Z.of_nat (4 * j + length rest) < 2 ^ 29 ->
  sets junk realloc_moves PORT (int_bytes port) (grown d port rest j) (grown d port rest (S j)).
Proof.
  intros Hp Hd Hl. unfold grown.
  change (replicate (S (S j)) (int_bytes port))
    with (int_bytes port :: int_bytes port :: replicate j (int_bytes port)).
  change (replicate (S j) (int_bytes port)) with (int_bytes port :: replicate j (int_bytes port)).
  set (m := replicate j (int_bytes port)).
  change (mjoin (int_bytes port :: m)) with (int_bytes port ++ mjoin m).
  change (mjoin (int_bytes port :: int_bytes port :: m)) with (int_bytes port ++ int_bytes port ++ mjoin m).
  rewrite <- !app_assoc. replace (int_bytes port ++ mjoin m ++ bar :: rest)
    with (bar :: old ++ (mjoin m ++ bar :: rest)) at 1 by by rewrite Hp.
  apply (sets_barred junk realloc_moves [int_bytes d]).
  - by intros f ->%list_elem_of_singleton.
  - by rewrite Hp.
  - destruct (grown_text d port rest old (S j) Hp) as (rest' & E & Hl').
    unfold grown in E. change (replicate (S (S j)) (int_bytes port))
      with (int_bytes port :: int_bytes port :: m) in E.
    change (mjoin (int_bytes port :: int_bytes port :: m))
      with (int_bytes port ++ int_bytes port ++ mjoin m) in E.
    rewrite <- !app_assoc in E. rewrite E, config_text_length by done. lia.
Qed.
End Settings.

(** The file after a run that takes its values: the bytes of the port from their first bar on
    appear twice. *)
Definition resaved (d port : Z) (rest : list Z) : list Z :=
  config_text [int_bytes d] (int_bytes port ++ from_bar (int_bytes port) ++ bar :: rest).

Lemma resaved_same d port rest : bar ∉ int_bytes port ->
  resaved d port rest = config_text [int_bytes d; int_bytes port] rest.
Proof. intros Hp. unfold resaved. by rewrite from_bar_none. Qed.

(** A run that takes the values of the file, with a [realloc] that stays in place. *)
Lemma run_resaves junk k port0 n d port rest noise key r :
  1 <= d <= Z.of_nat n -> Z.of_nat n < 2 ^ 31 -> 0 <= port < 2 ^ 16 -> bar ∉ int_bytes d ->
  Z.of_nat (length rest) < 2 ^ 29 ->
  (length noise < k)%nat -> Forall (fun c => yes_no c = None) noise -> yes_no key = Some false ->
  exists p, _tmain junk (fun _ _ => false) 0 (Some n) port0 k
      (at_start (Some (config_text [int_bytes d; int_bytes port] rest)) (noise ++ key :: r)) =
      Ok (Sniffing d (port_text ++ _itoa_s port), p) /\
    file p = Some (resaved d port rest).
Proof.
  intros Hd Hn Hport Hbd Hrest Hk Hno Hkey.
  assert (length (from_bar (int_bytes port)) <= 4)%nat as Hl.
  { destruct (from_bar_split (int_bytes port)) as (a & E & _). apply (f_equal length) in E.
    rewrite length_app in E. cbn [length int_bytes] in E. lia. }
  assert (length (resaved d port rest) = 10 + length (from_bar (int_bytes port)) + length rest)%nat as Hr.
  { unfold resaved. cbn [config_text]. rewrite length_app. cbn [length]. rewrite !length_app. cbn. lia. }
  apply (run_existing junk (fun _ _ => false) (Some n) ltac:(done) k port0 n d port rest noise key r
    (resaved d port rest)); try done.
  - apply (sets_again junk _ [int_bytes d] (int_bytes port) rest).
    + by intros f ->%list_elem_of_singleton.
    + fold (resaved d port rest). lia.
  - apply (sets_field junk _ [] (int_bytes d)); [by intros f ?%elem_of_nil|done|done].
  - lia.
Qed.

(** C29: the settings persist.  A run that chooses a device and a port listens on them and puts
    them into the two fields of the file cfg, the rest of which is kept; a later run that is told
    to use the file, of the same program or of one with other contents of fresh memory, listens on
    the same device and port.  It leaves the file as it is, unless the port has a byte 124, the bar
    that ends the fields: then what the port has from there on appears once more behind it.  This
    is so wherever the file has two fields of four bytes without a bar in front and the number of
    the device is without one, as every number below 124 is.  Each run comes to this or ends in
    one fault only, and that only if [realloc] ever moves a block: the released one is used. *)
Theorem settings_persist junk junk' realloc_moves k k' port0 port0' n d port w1 w2 rest
    noise key ws ws' r noise' key' r' :
  1 <= d <= Z.of_nat n -> Z.of_nat n < 2 ^ 31 -> 0 < port < 2 ^ 16 ->
  bar ∉ w1 -> bar ∉ w2 -> length w1 = 4%nat -> length w2 = 4%nat ->
  Z.of_nat (length rest) < 2 ^ 29 -> bar ∉ int_bytes d ->
  (length noise < k)%nat -> Forall (fun c => yes_no c = None) noise -> yes_no key = Some true ->
  (length noise' < k')%nat -> Forall (fun c => yes_no c = None) noise' -> yes_no key' = Some false ->
  Forall (fun c => is_space c = true) ws -> Forall (fun c => is_space c = true) ws' -> ws' <> [] ->
  ends_number r ->
  let typed := noise ++ key :: ws ++ _itoa_s d ++ ws' ++ _itoa_s port ++ r in
  let cfg := config_text [int_bytes d; int_bytes port] rest in
  let listening := Sniffing d (port_text ++ _itoa_s port) in
  returns_unless (moved realloc_moves)
    (_tmain junk realloc_moves 0 (Some n) port0 k (at_start (Some (config_text [w1; w2] rest)) typed))
    (fun '(o, p) => o = listening /\ file p = Some cfg) /\
  returns_unless (moved realloc_moves)
    (_tmain junk' realloc_moves 0 (Some n) port0' k' (at_start (Some cfg) (noise' ++ key' :: r')))
    (fun '(o, p) => o = listening /\ file p = Some (resaved d port rest)) /\
  (bar ∉ int_bytes port -> resaved d port rest = cfg).
Proof.
  intros Hd Hn Hport H1 H2 L1 L2 Hrest Hbd Hk Hno Hkey Hk' Hno' Hkey' Hws Hws' Hne Hr
    typed cfg listening.
  split; [|split; [|apply resaved_same]].
  - destruct (run_choosing junk (fun _ _ => false) (Some n) ltac:(done) k port0 n d port w1 w2 rest
      noise key ws ws' r) as (p & E & Hp); try done.
    eapply unless_returns; [fold typed in E; rewrite <- E; apply tmain_stays|done].
  - destruct (run_resaves junk' k' port0' n d port rest noise' key' r') as (p & E & Hp); try done; [lia|].
    eapply unless_returns; [rewrite <- E; apply tmain_stays|done].
Qed.

Lemma no_bar v : existsb (Z.eqb bar) v = false -> bar ∉ v.
Proof.
  intros H Hin. apply list_elem_of_In in Hin. enough (existsb (Z.eqb bar) v = true) by congruence.
  apply existsb_exists. by exists bar.
Qed.

(** The port 27004 is 0x697C: its low byte is a bar. *)
Lemma settings_persist_witness :
  let typed := [103; 10] ++ 110 :: [10] ++ _itoa_s 3 ++ [10] ++ _itoa_s 27004 ++ [10] in
  let cfg := config_text [int_bytes 3; int_bytes 27004] [103; 97; 121; bar; 0] in
  let listening := Sniffing 3 (port_text ++ _itoa_s 27004) in
  (exists p, _tmain (fun _ _ => 205) (fun _ _ => false) 0 (Some 5%nat) 52428 3
      (at_start (Some (config_text [int_bytes 2; int_bytes 27015] [103; 97; 121; bar; 0])) typed) =
      Ok (listening, p) /\ file p = Some cfg) /\
  (exists p, _tmain (fun _ _ => 0) (fun _ _ => false) 0 (Some 5%nat) 0 1
      (at_start (Some cfg) ([] ++ 121 :: [10])) = Ok (listening, p) /\
    file p = Some (int_bytes 3 ++ bar :: int_bytes 27004 ++ int_bytes 27004 ++ [bar; 103; 97; 121; bar; 0])).
Proof.
  destruct (settings_persist (fun _ _ => 205) (fun _ _ => 0) (fun _ _ => false) 3 1 52428 0 5 3 27004
    (int_bytes 2) (int_bytes 27015) [103; 97; 121; bar; 0] [103; 10] 110 [10] [10] [10] [] 121 [10])
    as (H1 & H2 & _);
    try done; try (by apply no_bar); try (cbn; lia); try (by repeat constructor).
  destruct H1 as [([o p] & E1 & -> & F1)|(f & (b & m & Hb & _) & _)]; [|discriminate Hb].
  destruct H2 as [([o p'] & E2 & -> & F2)|(f & (b & m & Hb & _) & _)]; [|discriminate Hb].
  split; [exists p; exact (conj E1 F1)|exists p'; exact (conj E2 F2)].
Defined.

(** The bar that separates the fields is not escaped in the values.  If the low byte of
    the port is that of a bar, the field of the port looks empty: each run that uses the file
    listens on the port as before, but leaves the file four bytes longer than it was, with one
    more copy of the number. *)
Theorem barred_port_grows_file junk realloc_moves k port0 n d port rest noise key r j :
  (forall b m, realloc_moves b m = false) ->
  1 <= d <= Z.of_nat n -> Z.of_nat n < 2 ^ 31 -> 0 < port < 2 ^ 16 ->
  bar ∉ int_bytes d -> port mod 256 = bar -> Z.of_nat (4 * j + length rest) < 2 ^ 29 ->
  (length noise < k)%nat -> Forall (fun c => yes_no c = None) noise -> yes_no key = Some false ->
  (exists p, _tmain junk realloc_moves 0 (Some n) port0 k
      (at_start (Some (grown d port rest j)) (noise ++ key :: r)) =
      Ok (Sniffing d (port_text ++ _itoa_s port), p) /\
    file p = Some (grown d port rest (S j))) /\
  grown d port rest 0 = config_text [int_bytes d; int_bytes port] rest /\
  length (grown d port rest (S j)) = (length (grown d port rest j) + 4)%nat.
Proof.
  intros Hm Hd Hn Hport Hbd Hbar Hrest Hk Hno Hkey.
  assert (exists old, int_bytes port = bar :: old) as [old Hp].
  { eexists. unfold int_bytes. f_equal. unfold bits. rewrite Z.shiftr_0_r.
    by rewrite Z.land_ones. }
  destruct (grown_text d port rest old j Hp) as (rest1 & E1 & L1).
  destruct (grown_text d port rest old (S j) Hp) as (rest2 & E2 & L2).
  split; [|split; [done|]].
  - pose proof (grown_sets junk realloc_moves d port rest old j Hp Hbd Hrest) as Hs.
    rewrite E1, E2 in *.
    eapply (run_existing junk realloc_moves (Some n) Hm k port0 n d port rest1); try done; try lia.
    + by apply sets_device.
    + rewrite config_text_length by done. lia.
  - rewrite E1, E2, !config_text_length by done. lia.
Qed.

Lemma barred_port_grows_file_witness :
  (exists p, _tmain (fun _ _ => 205) (fun _ _ => false) 0 (Some 2%nat) 0 1
      (at_start (Some (grown 2 27004 [0] 1)) ([] ++ 121 :: [])) =
      Ok (Sniffing 2 (port_text ++ _itoa_s 27004), p) /\
    file p = Some (grown 2 27004 [0] 2)) /\
  grown 2 27004 [0] 0 = config_text [int_bytes 2; int_bytes 27004] [0] /\
  length (grown 2 27004 [0%Z] 2) = (length (grown 2 27004 [0%Z] 1) + 4)%nat.
Proof.
  apply (barred_port_grows_file (fun _ _ => 205) (fun _ _ => false) 1 0 2 2 27004 [0] [] 121 [] 1);
    try done; try (cbn; lia). by apply no_bar.
Defined.

(** * The first run *)

(** C30: a first run, without a file cfg, always fails.  Whatever is typed, it never gets to the
    sniffer or to an exit: [g_config] is the static array then, and [realloc] is given that
    array; with answers that are accepted this is how the run ends, after the default
    configuration has been written. *)
Theorem first_run_faults junk realloc_moves devices port0 k :
  (forall typed, exists f,
    _tmain junk realloc_moves 0 devices port0 k (at_start None typed) = Fault f) /\
  (forall noise key existing n d port ws ws' r,
    (length noise < k)%nat -> Forall (fun c => yes_no c = None) noise ->
    yes_no key = Some existing -> devices = Some n -> Z.of_nat n < 2 ^ 31 ->
    1 <= d <= Z.of_nat n -> 0 < port < 2 ^ 16 ->
    Forall (fun c => is_space c = true) ws -> Forall (fun c => is_space c = true) ws' -> ws' <> [] ->
    ends_number r ->
    _tmain junk realloc_moves 0 devices port0 k
      (at_start None (noise ++ key :: ws ++ _itoa_s d ++ ws' ++ _itoa_s port ++ r)) =
    Fault InvalidParameter).
Proof.
  split; [|intros; by eapply tmain_first_valid]. intros typed.
  destruct (_tmain _ _ _ _ _ _ _) as [a|f] eqn:E; [|by exists f].
  by destruct (tmain_first_never junk realloc_moves devices port0 typed k a).
Qed.

Lemma first_run_faults_witness :
  (forall typed, exists f, _tmain (fun _ _ => 205) (fun _ _ => false) 0 (Some 1%nat) 0 1
    (at_start None typed) = Fault f) /\
  _tmain (fun _ _ => 205) (fun _ _ => false) 0 (Some 1%nat) 0 1
    (at_start None ([] ++ 121 :: [] ++ _itoa_s 1 ++ [10] ++ _itoa_s 27015 ++ [])) =
  Fault InvalidParameter.
Proof.
  destruct (first_run_faults (fun _ _ => 205) (fun _ _ => false) (Some 1%nat) 0 1) as [H1 H2].
  split; [exact H1|]. apply (H2 [] 121 false 1%nat 1 27015 [] [10] []); try done; try (cbn; lia);
    by repeat constructor.
Defined.

(** Questions without an end.  If no key for yes or no is typed, or if the device has to
    be chosen and pcap lists none, no number of rounds is enough: the program asks for ever,
    at the end of the input as well. *)
Theorem questions_never_end junk realloc_moves devices port0 cfg :
  (forall content, cfg = Some content -> Z.of_nat (length content) < 2 ^ 30) ->
  (forall k typed, Forall (fun c => yes_no c = None) typed ->
    _tmain junk realloc_moves 0 devices port0 k (at_start cfg typed) = Fault OutOfFuel) /\
  (forall k noise key existing r,
    Forall (fun c => yes_no c = None) noise -> yes_no key = Some existing ->
    cfg = None \/ existing = true -> devices = None \/ devices = Some O ->
    _tmain junk realloc_moves 0 devices port0 k (at_start cfg (noise ++ key :: r)) =
    Fault OutOfFuel).
Proof.
  intros Hc. split; intros; [by apply tmain_never_key|by eapply tmain_never_device].
Qed.

Lemma questions_never_end_witness :
  (forall k, _tmain (fun _ _ => 205) (fun _ _ => false) 0 (Some 1%nat) 0 k
    (at_start (Some g_default_config) [111; 107; 10]) = Fault OutOfFuel) /\
  (forall k, _tmain (fun _ _ => 205) (fun _ _ => false) 0 None 0 k
    (at_start (Some g_default_config) ([] ++ 110 :: [10; 49; 10])) = Fault OutOfFuel).
Proof.
  split; intros k.
  - destruct (questions_never_end (fun _ _ => 205) (fun _ _ => false) (Some 1%nat) 0
      (Some g_default_config)) as [H _]; [by intros content [= <-]|].
    apply H. by repeat constructor.
  - destruct (questions_never_end (fun _ _ => 205) (fun _ _ => false) None 0
      (Some g_default_config)) as [_ H]; [by intros content [= <-]|].
    apply (H k [] 110 true [10; 49; 10]); [by constructor|done|by right|by left].
Defined.

(** * Strings *)

(** C31: [find], with a [String] or a text.  A pattern that is not longer than the text is found
    at its first occurrence, and [npos] says that there is none; a longer one is searched for
    behind the terminator, because the difference of the lengths wraps around. *)
Theorem String_find_first p s t u :
  text_ok t -> text_ok u -> holds_text p s t ->
  forall find, find = String_find_chars s u \/
    (exists P, holds_text p P u /\ find = String_find s P) ->
  ((length u <= length t)%nat ->
    (exists a b, t = a ++ u ++ b /\ find p = Ok (Z.of_nat (length a), p) /\
      (forall a' b', t = a' ++ u ++ b' -> (length a <= length a')%nat)) \/
    (find p = Ok (npos, p) /\ forall a b, t <> a ++ u ++ b)) /\
  ((length t < length u)%nat -> find p = Fault (TableIndex (Z.of_nat (length t) + 1))).
Proof.
  intros Ht Hu Hs find Hfind.
  assert (exists P, find = find_with s (Z.of_nat (length u)) P /\
    (forall j c, u !! j = Some c -> P (Z.of_nat j) p = Ok (c, p))) as (P & -> & HP).
  { destruct Hfind as [-> | (P & HP & ->)]; eexists.
    - split; [done|]. intros j c Hj. by apply read_chars.
    - split; [unfold String_find; by rewrite (String_length_spec p P u HP)|].
      intros j c Hj. by eapply read_pattern. }
  rewrite (find_with_spec p t u P HP Ht Hu s Hs). split; intros Hl.
  - destruct (Nat.leb_spec (length u) (length t)); [|lia].
    pose proof (first_match_spec u t (length t - length u + 1)) as Hf.
    destruct (first_match u t _) as [i|].
    + left. destruct Hf as (a & b & Et & -> & Hmin). by exists a, b.
    + right. split; [done|]. intros a b Et. specialize (Hf a b Et).
      rewrite Et, !length_app in Hf. lia.
  - by destruct (Nat.leb_spec (length u) (length t)); [lia|].
Qed.

(** A text in a process, for the witnesses. *)
Definition text_process (t u : list Z) : process :=
  mkproc [Some (Bytes (t ++ [0])); Some (Bytes (u ++ [0]))] g_default_config ConfigNull 0 None [] [].
Definition text_object (b : nat) (t : list Z) : String_ :=
  mkString (Some b) (Z.of_nat (length t) + 1) (Z.of_nat (length t)).

Lemma text_ok_bool t : forallb (fun c => negb (c =? 0)) t && (Z.of_nat (length t) <? 2 ^ 30) = true ->
  text_ok t.
Proof.
  intros [H Hl]%andb_true_iff. apply Z.ltb_lt in Hl. split; [|done]. intros Hin.
  apply list_elem_of_In in Hin. rewrite forallb_forall in H. specialize (H 0 Hin). discriminate.
Qed.

Lemma String_find_first_witness :
  let t := [112; 111; 114; 116; 32; 112; 111] in
  let p := text_process t [112; 111] in
  ((exists a b, t = a ++ [112; 111] ++ b /\
      String_find (text_object 0 t) (text_object 1 [112; 111]) p = Ok (Z.of_nat (length a), p) /\
      (forall a' b', t = a' ++ [112; 111] ++ b' -> (length a <= length a')%nat)) \/
    (String_find (text_object 0 t) (text_object 1 [112; 111]) p = Ok (npos, p) /\
     forall a b, t <> a ++ [112; 111] ++ b)) /\
  String_find_chars (text_object 1 [112; 111]) t p = Fault (TableIndex 3).
Proof.
  intros t p. split.
  - apply (String_find_first p (text_object 0 t) t [112; 111]); try (by apply text_ok_bool).
    + by exists O.
    + right. exists (text_object 1 [112; 111]). split; [by exists 1%nat|done].
    + cbn. lia.
  - apply (String_find_first p (text_object 1 [112; 111]) [112; 111] t); try (by apply text_ok_bool).
    + by exists 1%nat.
    + by left.
    + cbn. lia.
Defined.

(** The new value of [+=] is the object behind its reference. *)
Lemma String_append_spec junk s t u p : text_ok (t ++ u) -> holds_text p s t ->
  exists s' o p', String_append junk s u p = Ok ((s', o), p') /\ ext p p' /\
    live p' o (Object s') /\ holds_text p' s' (t ++ u) /\
    (forall b, _string s' = Some b -> (length (heap p) <= b)%nat /\ b <> o).
Proof.
  intros Ht Hs. unfold String_append.
  destruct (new_block_spec (Object String_default) p) as (o & p1 & E1 & He1 & Ho & Hob).
  rewrite (st_bind_ok _ _ _ _ _ E1).
  destruct (concat_new_spec junk s t u p1 Ht (holds_text_ext _ _ _ _ He1 Hs))
    as (temp & p2 & E2 & He2 & Htemp & Hb). rewrite (st_bind_ok _ _ _ _ _ E2).
  assert (ext p p2) as He by by transitivity p1.
  destruct (put_new p p2 o _ (Object temp) He (ext_live _ _ _ _ He2 Ho) Hob)
    as (p3 & E3 & He3 & Ho3 & Hother). rewrite (st_bind_ok _ _ _ _ _ E3).
  exists temp, o, p3. split; [done|]. split; [done|]. split; [done|].
  pose proof (live_lt _ _ _ Ho) as Hlt. pose proof (ext_more _ _ He1) as Hm.
  destruct Htemp as (b & -> & Hlb). specialize (Hb b eq_refl). split.
  - exists b. split; [done|]. apply Hother; [lia|done].
  - intros b' [= <-]. lia.
Qed.

Lemma append_forms junk s u p app : 0 ∉ u ->
  app = String_append junk s u \/
    (exists r, holds_text p r u /\ app = String_append_string junk s r) \/
    (exists num, u = _itoa_s num /\ app = String_append_int junk s num) ->
  app p = String_append junk s u p.
Proof.
  intros Hu [->|[(r & Hr & ->)|(num & -> & ->)]]; [done| |done].
  unfold String_append_string. by rewrite (st_bind_ok _ _ _ _ _ (CStr_spec p r u Hu Hr)).
Qed.

(** [+=], with a text, a [String] or a number.  The string gets the concatenation, and
    nothing that existed before changes: the old characters stay allocated though nothing
    refers to them.  The reference it returns is to another object with the same characters,
    so that object is left with released memory when the string is destroyed. *)
Theorem String_append_shares junk p s t u app :
  text_ok (t ++ u) -> holds_text p s t ->
  app = String_append junk s u \/
    (exists r, holds_text p r u /\ app = String_append_string junk s r) \/
    (exists num, u = _itoa_s num /\ app = String_append_int junk s num) ->
  exists s' o p', app p = Ok ((s', o), p') /\
    CStr s' p' = Ok (t ++ u, p') /\
    ext p p' /\ holds_text p' s t /\ _string s' <> _string s /\
    live p' o (Object s') /\
    exists s'' p'', String_destroy s' p' = Ok (s'', p'') /\
      exists f, (r ← String_of_ref o; CStr r) p'' = Fault f.
Proof.
  intros Ht Hs Happ.
  assert (0 ∉ u) as Hu by (destruct Ht as [Ht _]; intros H; apply Ht, elem_of_app; by right).
  destruct (String_append_spec junk s t u p Ht Hs) as (s' & o & p' & E & He & Ho & Hs' & Hb).
  exists s', o, p'. split; [by rewrite (append_forms junk s u p app Hu Happ)|].
  split; [apply CStr_spec; [apply Ht|done]|]. split; [done|].
  split; [by eapply holds_text_ext|]. destruct Hs' as (b & -> & Hlb). destruct (Hb b eq_refl) as [Hbp Hbo].
  split; [|split; [done|]].
  - destruct Hs as (b0 & -> & Hb0). cbn [_string]. intros [= <-]. apply live_lt in Hb0. lia.
  - unfold String_destroy. cbn [_string]. unfold free_block at 1.
    erewrite st_bind_ok; [|by erewrite st_bind_ok; [|by apply block_at_spec]].
    eexists _, _. split; [done|]. eexists. unfold String_of_ref, CStr, own_text.
    erewrite st_bind_ok; [|erewrite st_bind_ok; [|apply block_at_spec; unfold live; cbn [set_heap heap];
      by rewrite list_lookup_insert_ne]; done]. cbn [_string].
    apply st_bind_fault. unfold bytes_of. apply st_bind_fault. unfold block_at. cbn [set_heap heap].
    rewrite list_lookup_insert_eq; [done|]. by eapply live_lt.
Qed.

Lemma String_append_shares_witness :
  let t := [112; 111; 114; 116; 32] in
  let p := text_process t [] in
  exists s' o p', String_append_int (fun _ _ => 205) (text_object 0 t) 80 p = Ok ((s', o), p') /\
    CStr s' p' = Ok (t ++ [56; 48], p') /\
    ext p p' /\ holds_text p' (text_object 0 t) t /\ _string s' <> _string (text_object 0 t) /\
    live p' o (Object s') /\
    exists s'' p'', String_destroy s' p' = Ok (s'', p'') /\
      exists f, (r ← String_of_ref o; CStr r) p'' = Fault f.
Proof.
  intros t p. apply (String_append_shares (fun _ _ => 205) p (text_object 0 t) t [56; 48]).
  - by apply text_ok_bool.
  - by exists O.
  - right. right. by exists 80.
Defined.
