(* ===== verification/ProgramProps.v ===== *)
(** The program from the configuration file to the printed messages: what it makes of a
    capture, and the datagram that ends it. *)

From S2P Require Import Prelude CMem BitRead Ice IceProofs Tins Sniffles Walk Packets Handler.
From S2P Require Import Coded CodedSpec Wire Messages NetMessages WireSpec MsgSpec MsgTables MsgParser.
From S2P Require Import SniffProps MsgProps.
From S2P Require Import Console Str Cfg Main ConsoleSpec CfgProofs MainProofs ConsoleProps.

(** * The loop *)

(** A loop without a limit, whose functor adds to the state and asks for more, or ends the
    program in a way that may [happen]; [after] is what it has not come to. *)
Lemma sniff_loop_adds {P S V} happen (function : P -> ST S bool) (I : list V -> S -> Prop)
    (adds : P -> V -> Prop) packets views after :
  (forall x v before s, adds x v -> I before s ->
    exists s', unless happen (function x s) (Ok (true, s')) /\ I (before ++ [v]) s') ->
  Forall2 adds packets views -> forall before s, I before s ->
  exists s', unless happen (sniff_loop function 0 (packets ++ after) s) (sniff_loop function 0 after s') /\
    I (before ++ views) s'.
Proof.
  intros Hf. induction 1 as [|x v packets views Hx _ IH]; intros before s Hs; cbn [sniff_loop app].
  - exists s. rewrite app_nil_r. split; [apply unless_same|done].
  - destruct (Hf x v before s Hx Hs) as (s1 & H1 & Hs1). destruct (IH _ _ Hs1) as (s2 & H2 & Hs2).
    exists s2. rewrite <- app_assoc in Hs2. split; [|exact Hs2].
    destruct H1 as [E|(f & Hh & E)].
    + by rewrite (st_bind_ok _ _ _ _ _ E).
    + right. exists f. split; [done|]. by apply st_bind_fault.
Qed.

(** With a limit, no more than that many packets are handled. *)
Lemma sniff_loop_limit {P S} (function : P -> ST S bool) packets : forall m s, 0 < m < 2 ^ 32 ->
  sniff_loop function m packets s = sniff_loop function 0 (take (Z.to_nat m) packets) s.
Proof.
  induction packets as [|x packets IH]; intros m s Hm; [by rewrite take_nil|].
  replace (Z.to_nat m) with (Datatypes.S (Z.to_nat (m - 1))) by lia. cbn [take sniff_loop].
  destruct (Z.eqb_spec m 0); [lia|]. rewrite (u32_small (m - 1)) by lia. cbn [negb andb].
  destruct (function x s) as [[r s']|f] eqn:E; [|by rewrite !(st_bind_fault _ _ _ _ E)].
  rewrite !(st_bind_ok _ _ _ _ _ E). destruct r; [|done]. cbn [negb]. change (0 =? 0) with true. cbn.
  destruct (Z.eqb_spec (m - 1) 0) as [Ez|].
  - rewrite Ez. by destruct packets.
  - apply IH. lia.
Qed.

(** * The capture *)

(** What a server may put into a datagram: an object of the four classes, or a message of
    another kind or with a body that the class's decoder does not accept. *)
Inductive sent :=
  | Object (x : Z * message)
  | Other (x : Z * list Z).

Definition sent_ok (s : sent) : Prop :=
  match s with
  | Object x => message_of x
  | Other x => message_ok x /\ (K ← class_of (fst x); decode_message K (snd x) (k_new K)) = None
  end.

Definition on_wire (s : sent) : Z * list Z :=
  match s with Object x => serialize x | Other x => x end.

Definition prints (s : sent) : list (event message) :=
  match s with Object x => [printed_message x] | Other _ => [] end.

(** What the program shows of an arrival, and the blocks it leaves on the heap. *)
Record view := mkview { v_events : list (event message); v_blocks : nat }.

Section Capture.
Context {TR : TagReader} {HT : TagReaderLaws}.
Context (slack : nat) (heap_oracle : nat -> option (nat -> Z)).
Context (sbox : list (list Z)) (k : IceKey) (fuel : nat).

(** What the handler makes of an arrival.  Of other traffic, nothing; of a datagram from the
    server whose framing it rejects, its sizes, and the block it was decrypted into stays; of one
    whose framing is right, its data and, if the flags let it, its messages. *)
Inductive shows (x : arrival) : view -> Prop :=
  | shows_nothing :
      find_IP (at_packet x) = None \/ find_UDP (at_packet x) = None \/
        (exists udp, find_UDP (at_packet x) = Some udp /\ sport udp <> 27015) ->
      shows x (mkview [] 0)
  | shows_rejected ip udp payload plain :
      length (at_subkeys x) = 32%nat -> datagram (at_packet x) ip udp payload ->
      (0 < length payload)%nat -> Z.of_nat (length payload) < 2 ^ 31 -> Forall is_byte payload ->
      decrypt_stream sbox k payload = Ok plain -> open_payload plain = None ->
      shows x (mkview (header_events ip udp ++ payload_events plain) 1)
  | shows_messages old ip udp h (msgs : list sent) filler payload :
      let pkt := enc_packet h (on_wire <$> msgs) in
      frame_ok (at_frame x) old -> length (at_subkeys x) = 32%nat ->
      header_ok h -> Forall sent_ok msgs ->
      Forall is_byte filler -> (0 < length filler < 256)%nat ->
      Z.of_nat (length pkt) + 10 <= NET_MAX_PAYLOAD ->
      encrypt_stream sbox k (wrap_payload filler pkt) = Ok payload ->
      datagram (at_packet x) ip udp payload -> (length msgs < fuel)%nat ->
      shows x (mkview (header_events ip udp ++ payload_events (wrap_payload filler pkt) ++
        (if flags_pass (s32 (h_flags h)) then concat (prints <$> msgs) else [])) 0).

(** The process between two packets. *)
Record between (seen : list view) (w : world message) : Prop := {
  between_fresh : heap_fresh w;
  between_heap : size (w_heap w) = sum_list (v_blocks <$> seen);
  between_statics : statics_ok (w_ice w);
  between_out : w_out w = concat (v_events <$> seen)
}.

Lemma sent_message_ok s : sent_ok s -> message_ok (on_wire s).
Proof. destruct s as [x|x]; [apply serialize_ok|by intros []]. Qed.

Lemma sent_events s : sent_ok s -> message_events (H := message_parser slack) (on_wire s) = prints s.
Proof.
  destruct s as [x|x]; [apply serialized_events|]. intros [_ Hd]. unfold message_events. cbn [on_wire].
  destruct (known (fst x)); [|done]. cbn [decode message_parser]. by rewrite Hd.
Qed.

Lemma sent_list_events msgs : Forall sent_ok msgs ->
  concat (message_events (H := message_parser slack) <$> (on_wire <$> msgs)) = concat (prints <$> msgs).
Proof.
  induction 1 as [|s msgs Hs _ IH]; [done|]. cbn [fmap list_fmap concat]. by rewrite sent_events, IH.
Qed.

Lemma between_next before v w w' : between before w ->
  heap_fresh w' -> statics_ok (w_ice w') ->
  (size (w_heap w') = size (w_heap w) + v_blocks v)%nat -> w_out w' = w_out w ++ v_events v ->
  between (before ++ [v]) w'.
Proof.
  intros [Hf Hh Hg Ho] Hf' Hg' Hh' Ho'. constructor; [done| |done|].
  - rewrite Hh', Hh, fmap_app, sum_list_with_app. cbn. lia.
  - rewrite Ho', Ho, fmap_app, concat_app. cbn. by rewrite app_nil_r.
Qed.


(** With memory that lasts, every arrival is shown. *)
Lemma handle_shows x v before (w : world message) :
  (forall i, exists junk, heap_oracle i = Some junk) -> session sbox k ->
  shows x v -> between before w ->
  exists w', handle (H := message_parser slack) heap_oracle fuel x w = Ok (true, w') /\
    between (before ++ [v]) w'.
Proof.
  intros Ha Hses Hx Hw. pose proof Hw as [Hf Hh Hg Ho]. unfold handle.
  destruct Hx as [Hother|ip udp payload plain Hsub Hd H0 Hmax Hb Hp Hop
    |old ip udp h msgs filler payload pkt Hfr Hsub Hhd Hm Hfb Hfil Hmax Henc Hd Hfu].
  - exists w. split; [by apply other_traffic_ignored|].
    apply (between_next _ _ w); [done..| |]; cbn; [lia|by rewrite app_nil_r].
  - destruct (rejected_payload (H := message_parser slack) heap_oracle fuel (at_frame x) (at_subkeys x)
      sbox k (at_packet x) ip udp payload plain w) as (g & Hg' & E & _); try done.
    eexists. split; [exact E|]. apply (between_next _ _ w); cbn [w_heap w_ice w_out w_next v_blocks v_events]; try done.
    + intros i Hi. cbn [w_heap w_next] in *. rewrite lookup_insert_ne by lia. apply Hf. lia.
    + rewrite map_size_insert_None by (apply Hf; lia). lia.
  - destruct (capture_packet (HL := message_parser_laws slack) (at_frame x) old heap_oracle
      (at_subkeys x) sbox k ip udp (at_packet x) h (on_wire <$> msgs) filler payload fuel w)
      as (g & Hg' & E); try done.
    { apply Forall_fmap. eapply Forall_impl; [exact Hm|]. intros y. apply sent_message_ok. }
    { by rewrite length_fmap. }
    eexists. split; [exact E|]. apply (between_next _ _ w); cbn [w_heap w_ice w_out w_next v_blocks v_events]; try done.
    + intros i Hi. cbn [w_heap w_next] in *. apply Hf. lia.
    + unfold packet_events. by rewrite sent_list_events.
Qed.
End Capture.

(** * The program *)

(** How the program may end on its way: a [realloc] moves the block of the configuration, or
    there is no memory for a payload. *)
Definition mishap (realloc_moves : nat -> Z -> bool) (heap_oracle : nat -> option (nat -> Z)) (f : fault) : Prop :=
  moved realloc_moves f \/ no_memory heap_oracle f.

Section Runs.
Context {TR : TagReader} {HT : TagReaderLaws}.
Context (slack : nat) (junk : nat -> nat -> Z) (realloc_moves : nat -> Z -> bool) (port0 : Z).
Context (heap_oracle : nat -> option (nat -> Z)) (capture : Z -> list Z -> list arrival).
Context (sbox : list (list Z)) (k : IceKey) (Hses : session sbox k) (rounds fuel : nat).

(** The program up to any point of a capture. *)
Lemma program_so_far n d port rest noise key r packets views after :
  1 <= d <= Z.of_nat n -> Z.of_nat n < 2 ^ 31 -> 0 < port < 2 ^ 16 ->
  bar ∉ int_bytes d -> Z.of_nat (length rest) < 2 ^ 29 ->
  (length noise < rounds)%nat -> Forall (fun c => yes_no c = None) noise -> yes_no key = Some false ->
  capture d (port_text ++ _itoa_s port) = packets ++ after -> Forall2 (shows sbox k fuel) packets views ->
  exists p w, file p = Some (resaved d port rest) /\ between views w /\
    unless (mishap realloc_moves heap_oracle)
      (program (H := message_parser slack) junk realloc_moves 0 (Some n) port0 heap_oracle capture rounds fuel
        (at_start (Some (config_text [int_bytes d; int_bytes port] rest)) (noise ++ key :: r)))
      (x ← sniff_loop (handle (H := message_parser slack) heap_oracle fuel) 0 after w; Ok (0, p, snd x)).
Proof.
  intros Hd Hn Hport Hbd Hrest Hk Hno Hkey Hcap Hsh.
  destruct (run_resaves junk rounds port0 n d port rest noise key r) as (p & Ep & Hp); try done; [lia|].
  destruct (sniff_loop_adds (no_memory heap_oracle) (handle (H := message_parser slack) heap_oracle fuel)
    between (shows sbox k fuel) packets views after) with (before := @nil view)
    (s := mkworld (Msg := message) ∅ 0 ice_statics0 []) as (w & Ew & Hw).
  - intros x v before w Hx Hw.
    destruct (handle_shows slack (endless heap_oracle) sbox k fuel x v before w) as (w' & E & Hw');
      [intros i; by eexists|done..|].
    exists w'. split; [|done]. rewrite <- E. apply handler_memory.
  - done.
  - constructor; [done|done|exact statics0_ok|done].
  - exists p, w. split; [done|]. split; [exact Hw|]. unfold program.
    pose proof (tmain_stays junk realloc_moves 0 (Some n) port0 rounds
      (at_start (Some (config_text [int_bytes d; int_bytes port] rest)) (noise ++ key :: r))) as Hm.
    rewrite Ep in Hm. destruct Hm as [->|(f & Hf & ->)]; [|right; exists f; split; [by left|done]].
    cbn [mbind result_bind]. rewrite Hcap.
    destruct Ew as [->|(f & Hf & ->)]; [by left|right; exists f; split; [by right|done]].
Qed.
End Runs.


(** C17: a code bug.  One datagram from the port 27015 of a server without a payload, which
    anybody can send, ends the program, whatever was captured and shown before it and whatever
    would follow: the handler uses the null pointer that [find_pdu<RawPDU>] returns.  (The run may
    have ended earlier, if [realloc] moves a block.) *)
Theorem empty_datagram_ends_program {TR : TagReader} {HT : TagReaderLaws} slack junk realloc_moves
    port0 heap_oracle capture sbox k rounds fuel n d port rest noise key r before views x udp after :
  1 <= d <= Z.of_nat n -> Z.of_nat n < 2 ^ 31 -> 0 < port < 2 ^ 16 ->
  bar ∉ int_bytes d -> Z.of_nat (length rest) < 2 ^ 29 ->
  (length noise < rounds)%nat -> Forall (fun c => yes_no c = None) noise -> yes_no key = Some false ->
  session sbox k -> Forall2 (shows sbox k fuel) before views ->
  capture d (port_text ++ _itoa_s port) = before ++ x :: after ->
  find_IP (at_packet x) <> None -> find_UDP (at_packet x) = Some udp -> sport udp = 27015 ->
  find_Raw (at_packet x) = None ->
  let run := program (H := message_parser slack) junk realloc_moves 0 (Some n) port0 heap_oracle capture
    rounds fuel (at_start (Some (config_text [int_bytes d; int_bytes port] rest)) (noise ++ key :: r)) in
  run = Fault NullDeref \/ exists f, moved realloc_moves f /\ run = Fault f.
Proof.
  intros Hd Hn Hport Hbd Hrest Hk Hno Hkey Hses Hsh Hcap Hip Hu Hs Hr run.
  destruct (program_so_far slack junk realloc_moves port0 heap_oracle capture sbox k Hses rounds fuel
    n d port rest noise key r before views (x :: after)) as (p & w & _ & _ & E); try done.
  fold run in E. destruct E as [->|(f & [Hf|[-> _]] & ->)]; [left|right; by exists f|by left].
  destruct (find_IP (at_packet x)) as [ip|] eqn:Ei; [|done]. cbn [sniff_loop].
  rewrite (st_bind_fault _ _ _ NullDeref); [done|].
  unfold handle, packet_loop_handler. rewrite Ei, Hu, Hs, Hr. reflexivity.
Qed.

(** A DNS reply, seven bytes that the framing rejects, a datagram without a payload, and one
    with two objects and a message of an unknown kind. *)
Definition arrives (pdus : list PDU) : arrival :=
  mkarrival zero_frame junk_subkeys (PDU_other 2 :: PDU_IP sample_ip :: pdus).
Definition sample_reply : arrival := arrives [PDU_UDP (mkudphdr 0x3500 0x3930 0 0); PDU_Raw [1]].
Definition sample_reject : arrival := arrives [PDU_UDP server_udp; PDU_Raw [0; 1; 2; 3; 4; 5; 6]].
Definition sample_empty : arrival := arrives [PDU_UDP server_udp].
Definition sample_arrival (payload : list Z) : arrival := arrives [PDU_UDP server_udp; PDU_Raw payload].

Definition sample_sent : list sent :=
  [Object (net_Tick, sample_tick); Other (100, [1; 2; 3]); Object (net_SignonState, sample_signon)].

Definition header_lines : list (event message) :=
  [OPacket 256; OVersion 4; OSrcAddr 2 27016; ODstAddr 3 27016].
Definition sample_events : list (event message) := header_lines ++
  [OPayloadSize 49; ODeltaOffset 2; ODataFinalSize 42; OMsg net_Tick 7 sample_tick;
   OMsg net_SignonState 14 sample_signon].
Definition reject_events : list (event message) := header_lines ++ [OPayloadSize 7; ODeltaOffset 0].

Lemma sample_sent_ok : Forall sent_ok sample_sent.
Proof.
  pose proof sample_objects_ok as H. unfold sample_objects in H. unfold sample_sent.
  apply Forall_cons in H as [H1 H]. apply Forall_cons in H as [H2 _].
  constructor; [exact H1|]. constructor; [|constructor; [exact H2|constructor]].
  split; [|reflexivity]. split; [cbn; lia|]. repeat constructor; unfold is_byte; cbn; lia.
Qed.

Lemma reply_shows sbox k : shows sbox k 4 sample_reply (mkview [] 0).
Proof. apply shows_nothing. right. right. exists (mkudphdr 0x3500 0x3930 0 0). by split. Qed.

Lemma reject_shows sbox k : shows sbox k 4 sample_reject (mkview reject_events 1).
Proof.
  apply (shows_rejected sbox k 4 sample_reject sample_ip server_udp [0; 1; 2; 3; 4; 5; 6] [0; 1; 2; 3; 4; 5; 6]);
    try reflexivity; [by repeat split|cbn; lia|repeat constructor; unfold is_byte; lia].
Qed.

Lemma sample_shows sbox k : session sbox k -> exists payload,
  shows sbox k 4 (sample_arrival payload) (mkview sample_events 0).
Proof.
  intros Hses. destruct game_cipher_ok as (sbox' & k' & Hses' & Hs & Hk).
  destruct (session_unique _ _ _ _ Hses Hses') as [<- <-].
  set (pkt := enc_packet sample_header (on_wire <$> sample_sent)).
  assert (Forall message_ok (on_wire <$> sample_sent)) as Hm.
  { apply Forall_fmap. eapply Forall_impl; [exact sample_sent_ok|]. intros x. apply sent_message_ok. }
  destruct (encrypt_stream_inverse sbox k (wrap_payload [9; 9] pkt) Hs Hk) as (c & Ec & _).
  { apply wrap_payload_byte; [|apply enc_packet_byte|].
    - repeat constructor; unfold is_byte; lia.
    - exact sample_header_ok.
    - exact Hm.
    - vm_compute; done.
    - cbn; lia. }
  exists c. apply (shows_messages sbox k 4 (sample_arrival c) zero_array sample_ip server_udp sample_header
    sample_sent [9; 9] c).
  - exact zero_frame_ok.
  - reflexivity.
  - exact sample_header_ok.
  - exact sample_sent_ok.
  - repeat constructor; unfold is_byte; lia.
  - cbn; lia.
  - vm_compute; done.
  - exact Ec.
  - by repeat split.
  - cbn; lia.
Qed.

Definition sample_config : list Z := config_text [int_bytes 2; int_bytes 27015] [0].


Lemma empty_datagram_ends_program_witness : exists payload,
  program (H := message_parser (H := plain_tag_reader) 0) (fun _ _ => 205) (fun _ _ => false) 0
    (Some 3%nat) 0 junk_heap (fun _ _ => [sample_arrival payload; sample_empty; sample_reply]) 1 4
    (at_start (Some sample_config) ([] ++ 121 :: [10])) = Fault NullDeref.
Proof.
  destruct game_cipher_ok as (sbox & k & Hses & _).
  destruct (sample_shows sbox k Hses) as (payload & Hsh). exists payload.
  destruct (@empty_datagram_ends_program plain_tag_reader plain_tag_laws 0 (fun _ _ => 205) (fun _ _ => false) 0
    junk_heap (fun _ _ => [sample_arrival payload; sample_empty; sample_reply]) sbox k 1 4 3 2 27015 [0] []
    121 [10] [sample_arrival payload] [mkview sample_events 0] sample_empty server_udp [sample_reply]
    ltac:(lia) ltac:(lia) ltac:(lia) ltac:(by apply no_bar) ltac:(cbn; lia) ltac:(cbn; lia) ltac:(done)
    eq_refl Hses) as [E|(f & (b & m & Hb & _) & _)].
  - by repeat constructor.
  - reflexivity.
  - discriminate.
  - reflexivity.
  - reflexivity.
  - reflexivity.
  - exact E.
  - discriminate Hb.
Defined.
