(* ===== verification/Demo.v ===== *)
(** Packets of recorded demos: packet.h.  The class [CPacket] reads from a copy of the
    packet; floats are their 32 bits. *)

From S2P Require Import Prelude CMem Console.

(** * Data *)

(** Demo commands. *)
Definition dem_signon : Z := 1.
Definition dem_packet : Z := 2.
Definition dem_synctick : Z := 3.
Definition dem_consolecmd : Z := 4.
Definition dem_usercmd : Z := 5.
Definition dem_datatables : Z := 6.
Definition dem_stop : Z := 7.
Definition dem_customdata : Z := 8.
Definition dem_stringtables : Z := 9.
Definition dem_lastcmd : Z := dem_stringtables.

Record packetheader_t := mkpacketheader {
  sequence_in : Z;
  sequence_out : Z;
  unk : Z
}.

Definition FPACKET_NORMAL : Z := 0.
Definition FPACKET_USE_ORIGIN2 : Z := Z.shiftl 1 0.
Definition FPACKET_USE_ANGLES2 : Z := Z.shiftl 1 1.
Definition FPACKET_NOINTERP : Z := Z.shiftl 1 2.
Definition MAX_SPLITSCREEN_CLIENTS : nat := 2.

Record QAngle := mkQAngle { a_x : Z; a_y : Z; a_z : Z }.
Definition QAngle_Init : QAngle := mkQAngle 0 0 0.
Definition QAngle_Init_xyz (_x _y _z : Z) : QAngle := mkQAngle _x _y _z.

Record Vector := mkVector { v_x : Z; v_y : Z; v_z : Z }.
Definition Vector_Init : Vector := mkVector 0 0 0.
Definition Vector_Init_xyz (_x _y _z : Z) : Vector := mkVector _x _y _z.
Definition Vector_Set_xyz (_x _y _z : Z) : Vector := mkVector _x _y _z.
Definition Vector_Set (v : Vector) : Vector := mkVector (v_x v) (v_y v) (v_z v).

(** [packetcmdinfo_t::Split_t]. *)
Record Split_t := mkSplit {
  flags : Z;
  viewOrigin : Vector;
  viewAngles : QAngle;
  localViewAngles : QAngle;
  viewOrigin2 : Vector;
  viewAngles2 : QAngle;
  localViewAngles2 : QAngle
}.

Definition Split_default : Split_t :=
  mkSplit FPACKET_NORMAL Vector_Init QAngle_Init QAngle_Init Vector_Init QAngle_Init QAngle_Init.

(** [same] says whether the two are one object. *)
Definition Split_assign (same : bool) (this src : Split_t) : Split_t :=
  if same then this
  else mkSplit (flags src) (viewOrigin src) (viewAngles src) (localViewAngles src)
         (viewOrigin2 src) (viewAngles2 src) (localViewAngles2 src).

Definition GetViewOrigin (s : Split_t) : Vector :=
  if negb (Z.land (flags s) FPACKET_USE_ORIGIN2 =? 0) then viewOrigin2 s else viewOrigin s.

Definition GetViewAngles (s : Split_t) : QAngle :=
  if negb (Z.land (flags s) FPACKET_USE_ANGLES2 =? 0) then viewAngles2 s else viewAngles s.

Definition GetLocalViewAngles (s : Split_t) : QAngle :=
  if negb (Z.land (flags s) FPACKET_USE_ANGLES2 =? 0) then localViewAngles2 s
  else localViewAngles s.

Definition Split_Reset (s : Split_t) : Split_t :=
  mkSplit 0 (viewOrigin s) (viewAngles s) (localViewAngles s)
    (viewOrigin s) (viewAngles s) (localViewAngles s).

(** [packetcmdinfo_t]: the array [u]. *)
Abbreviation packetcmdinfo_t := (list Split_t).

Definition cmdinfo_Reset (u : packetcmdinfo_t) : packetcmdinfo_t := Split_Reset <$> u.

(** The memory of the structure: 19 words for a client. *)
Definition dword_at (l : list Z) (i : nat) : Z := le_join (take 4 (drop (4 * i) l)).
Definition vector_at (l : list Z) (i : nat) : Vector :=
  mkVector (dword_at l i) (dword_at l (i + 1)) (dword_at l (i + 2)).
Definition angle_at (l : list Z) (i : nat) : QAngle :=
  mkQAngle (dword_at l i) (dword_at l (i + 1)) (dword_at l (i + 2)).
Definition split_at (l : list Z) (i : nat) : Split_t :=
  mkSplit (s32 (dword_at l i)) (vector_at l (i + 1)) (angle_at l (i + 4)) (angle_at l (i + 7))
    (vector_at l (i + 10)) (angle_at l (i + 13)) (angle_at l (i + 16)).
Definition cmdinfo_of_bytes (l : list Z) : packetcmdinfo_t :=
  (fun c : nat => split_at l (19 * c)) <$> seq 0 MAX_SPLITSCREEN_CLIENTS.
Definition sizeof_cmdinfo : Z := 152.

(** * [CPacket] *)

(** What goes to [stderr]. *)
Inductive complaint :=
  | MissingEndTag
  | BufferOverflow (size : Z).

Record CPacket := mkCPacket {
  m_packetHeader : packetheader_t;
  m_packetBufferPos : Z;
  m_packetBuffer : list Z;
  complaints : list complaint
}.

Definition set_pos (n : Z) (p : CPacket) : CPacket :=
  mkCPacket (m_packetHeader p) n (m_packetBuffer p) (complaints p).
Definition complain (c : complaint) (p : CPacket) : CPacket :=
  mkCPacket (m_packetHeader p) (m_packetBufferPos p) (m_packetBuffer p) (complaints p ++ [c]).

Abbreviation Demo := (ST CPacket).

(** The constructor leaves header and position as they are. *)
Definition CPacket_new (header0 : packetheader_t) (pos0 : Z) : CPacket := mkCPacket header0 pos0 [] [].

(** [n] bytes at the position; behind the characters of the string is its terminator. *)
Definition peek (n : Z) : Demo (list Z) :=
  p ← st_get; st_lift (fetch_at (m_packetBuffer p ++ [0]) (m_packetBufferPos p) n).

Definition advance (n : Z) : Demo unit :=
  st_modify (fun p => set_pos (u32 (m_packetBufferPos p + n)) p).

Definition read_int32 : Demo Z := l ← peek 4; advance 4;; mret (s32 (le_join l)).
Definition read_byte : Demo Z := l ← peek 1; advance 1;; mret (le_join l).

Definition is_open : Demo bool := p ← st_get; mret (negb (Z.of_nat (length (m_packetBuffer p)) =? 0)).

Definition Open (data : option (list Z)) (dataSize : Z) : Demo bool :=
  match data with
  | Some data =>
      if 0 <? dataSize then
        l ← st_lift (fetch_at data 0 dataSize);
        st_modify (fun p => mkCPacket (m_packetHeader p) 0 l (complaints p));;
        mret true
      else mret false
  | None => mret false
  end.

(** The references that are not written keep what they refer to. *)
Definition ReadSequenceInfo (nSeqNrIn nSeqNrOut : Z) : Demo (Z * Z) :=
  b ← is_open;
  if negb b then mret (nSeqNrIn, nSeqNrOut)
  else
    nSeqNrIn ← read_int32;
    nSeqNrOut ← read_int32;
    mret (nSeqNrIn, nSeqNrOut).

Definition ReadCmdInfo (info : packetcmdinfo_t) : Demo packetcmdinfo_t :=
  b ← is_open;
  if negb b then mret info
  else
    l ← peek sizeof_cmdinfo;
    advance sizeof_cmdinfo;;
    mret (cmdinfo_of_bytes l).

Definition ReadCmdHeader (cmd tick playerSlot : Z) : Demo (Z * Z * Z) :=
  b ← is_open;
  if negb b then mret (cmd, tick, playerSlot)
  else
    (* Read the command *)
    cmd ← read_byte;
    if cmd <=? 0 then
      st_modify (complain MissingEndTag);;
      mret (dem_stop, tick, playerSlot)
    else if negb ((1 <=? cmd) && (cmd <=? dem_lastcmd)) then st_fault AssertFailed
    else
      (* Read the timestamp *)
      tick ← read_int32;
      (* read playerslot *)
      playerSlot ← read_byte;
      mret (cmd, tick, playerSlot).

(** The result and the caller's buffer. *)
Definition ReadRawData (buffer : option (list Z)) (length : Z) : Demo (Z * option (list Z)) :=
  b ← is_open;
  if negb b then mret (0, buffer)
  else
    (* read length of data block *)
    size ← read_int32;
    match buffer with
    | Some dst =>
        if length <? size then
          st_modify (complain (BufferOverflow size));;
          mret (-1, buffer)
        else
          (* read data into buffer *)
          l ← peek (u32 size);
          dst ← st_lift (store_at dst 0 l);
          advance size;;
          mret (size, Some dst)
    | None =>
        (* just skip it *)
        advance size;;
        mret (size, None)
    end.

(** The result, the new [size] and the caller's buffer. *)
Definition ReadUserCmd (buffer : option (list Z)) (size : Z) : Demo (Z * Z * option (list Z)) :=
  b ← is_open;
  if negb b then mret (0, size, buffer)
  else
    outgoing_sequence ← read_int32;
    r ← ReadRawData buffer size;
    let '(size, buffer) := r : Z * option (list Z) in
    mret (outgoing_sequence, size, buffer).
