(* ===== verification/DemoProps.v ===== *)
(** Demo packets: what is read back, and where the reads lack a check. *)

From S2P Require Import Prelude CMem Console ConsoleSpec Demo.

(** [op] reads [enc] as [v]. *)
Definition reads {A} (op : Demo A) (enc : list Z) (v : A) : Prop :=
  forall pre post p, m_packetBuffer p = pre ++ enc ++ post ->
    m_packetBufferPos p = Z.of_nat (length pre) ->
    Z.of_nat (length (m_packetBuffer p)) < 2 ^ 31 ->
    op p = Ok (v, set_pos (Z.of_nat (length (pre ++ enc))) p).

(** * Rules *)

Lemma peek_reads n (enc post pre : list Z) p : m_packetBuffer p = pre ++ enc ++ post ->
  m_packetBufferPos p = Z.of_nat (length pre) -> n = Z.of_nat (length enc) ->
  peek n p = Ok (enc, p).
Proof.
  intros Hb Hp ->. unfold peek. rewrite (st_bind_ok _ _ _ _ _ eq_refl). rewrite Hb, Hp.
  unfold st_lift. rewrite <- !app_assoc. by rewrite (fetch_app pre enc (post ++ [0])).
Qed.

Lemma advance_reads n (enc pre : list Z) p : m_packetBufferPos p = Z.of_nat (length pre) ->
  n = Z.of_nat (length enc) -> Z.of_nat (length (pre ++ enc)) < 2 ^ 31 ->
  advance n p = Ok (tt, set_pos (Z.of_nat (length (pre ++ enc))) p).
Proof.
  intros Hp -> Hl. unfold advance, st_modify. rewrite Hp, <- Nat2Z.inj_add, <- length_app.
  by rewrite u32_small by lia.
Qed.

(** A read behind another one. *)
Lemma reads_bind {A B} (op : Demo A) (k : A -> Demo B) e1 e2 v w :
  reads op e1 v -> reads (k v) e2 w -> reads (op ≫= k) (e1 ++ e2) w.
Proof.
  intros H1 H2 pre post p Hb Hp Hl. rewrite <- app_assoc in Hb.
  rewrite (st_bind_ok _ _ _ _ _ (H1 pre (e2 ++ post) p Hb Hp Hl)).
  rewrite (H2 (pre ++ e1) post); cbn [set_pos m_packetBuffer m_packetBufferPos].
  - by rewrite <- !app_assoc.
  - by rewrite <- app_assoc.
  - done.
  - done.
Qed.

Lemma reads_ret {A} (v : A) : reads (mret v) [] v.
Proof.
  intros pre post p Hb Hp Hl. rewrite app_nil_r, <- Hp. by destruct p.
Qed.

Lemma reads_ret_bind {A B} (op : Demo A) (f : A -> B) enc v :
  reads op enc v -> reads (a ← op; mret (f a)) enc (f v).
Proof. intros H. rewrite <- (app_nil_r enc). by eapply reads_bind, reads_ret. Qed.

(** Nothing is skipped if there is something to read. *)
Lemma reads_open {A} (k : bool -> Demo A) enc v : enc <> [] -> reads (k true) enc v ->
  reads (b ← is_open; k b) enc v.
Proof.
  intros Hne H pre post p Hb Hp Hl.
  assert (is_open p = Ok (true, p)) as E.
  { unfold is_open. rewrite (st_bind_ok _ _ _ _ _ eq_refl), Hb, !length_app.
    destruct enc; [done|]. cbn [length]. by destruct (Z.eqb_spec (Z.of_nat (length pre +
      (S (length enc) + length post))) 0); [lia|]. }
  rewrite (st_bind_ok _ _ _ _ _ E). by eapply H.
Qed.

Lemma read_bytes_reads {A} n (f : list Z -> A) enc : n = Z.of_nat (length enc) ->
  reads (l ← peek n; advance n;; mret (f l)) enc (f enc).
Proof.
  intros Hn pre post p Hb Hp Hl. rewrite (st_bind_ok _ _ _ _ _ (peek_reads n enc post pre p Hb Hp Hn)).
  rewrite (st_bind_ok _ _ _ _ _ (advance_reads n enc pre p Hp Hn
    ltac:(rewrite Hb, !length_app in Hl; rewrite length_app; lia))). done.
Qed.

Lemma read_int32_reads v : - 2 ^ 31 <= v < 2 ^ 31 -> reads read_int32 (int_bytes v) v.
Proof.
  intros Hv. pose proof (read_bytes_reads 4 (fun l => s32 (le_join l)) (int_bytes v) eq_refl) as H.
  cbv beta in H. change (s32 (le_join (int_bytes v))) with (int_of_bytes (int_bytes v)) in H.
  by rewrite int_of_int_bytes in H.
Qed.

Lemma read_byte_reads b : reads read_byte [b] b.
Proof.
  pose proof (read_bytes_reads 1 le_join [b] eq_refl) as H. simpl in H. by rewrite Z.lor_0_r in H.
Qed.

(** * The words of [packetcmdinfo_t] *)

Definition vector_words (v : Vector) : list Z := [v_x v; v_y v; v_z v].
Definition angle_words (a : QAngle) : list Z := [a_x a; a_y a; a_z a].
Definition split_words (s : Split_t) : list Z :=
  flags s :: vector_words (viewOrigin s) ++ angle_words (viewAngles s) ++
  angle_words (localViewAngles s) ++ vector_words (viewOrigin2 s) ++
  angle_words (viewAngles2 s) ++ angle_words (localViewAngles2 s).

(** Flags are an [int], floats are their bits. *)
Definition split_ok (s : Split_t) : Prop :=
  - 2 ^ 31 <= flags s < 2 ^ 31 /\ Forall (fun w => 0 <= w < 2 ^ 32) (tail (split_words s)).

Definition cmdinfo_bytes (u : packetcmdinfo_t) : list Z := flat_map int_bytes (flat_map split_words u).

Lemma dword_at_words ws i w : ws !! i = Some w -> dword_at (flat_map int_bytes ws) i = u32 w.
Proof.
  revert i. induction ws as [|v ws IH]; intros [|i] H; [done..| |].
  - injection H as ->. rewrite <- le_join_int_bytes. done.
  - rewrite <- (IH i H). unfold dword_at. by replace (4 * S i)%nat with (4 + 4 * i)%nat by lia.
Qed.

Lemma split_at_words l i s : split_ok s ->
  (forall j w, split_words s !! j = Some w -> dword_at l (i + j)%nat = u32 w) -> split_at l i = s.
Proof.
  intros [Hf Hw] H. destruct s as [fl [ox oy oz] [ax ay az] [lx ly lz] [ox2 oy2 oz2] [ax2 ay2 az2] [lx2 ly2 lz2]].
  cbn in Hw. repeat (apply Forall_cons in Hw as [? Hw]).
  unfold split_at, vector_at, angle_at. rewrite <- !Nat.add_assoc. cbn [Nat.add].
  rewrite <- (Nat.add_0_r i) at 1. rewrite (H 0%nat fl eq_refl), (H 1%nat ox eq_refl), (H 2%nat oy eq_refl), (H 3%nat oz eq_refl), (H 4%nat ax eq_refl),
    (H 5%nat ay eq_refl), (H 6%nat az eq_refl), (H 7%nat lx eq_refl), (H 8%nat ly eq_refl), (H 9%nat lz eq_refl),
    (H 10%nat ox2 eq_refl), (H 11%nat oy2 eq_refl), (H 12%nat oz2 eq_refl), (H 13%nat ax2 eq_refl), (H 14%nat ay2 eq_refl),
    (H 15%nat az2 eq_refl), (H 16%nat lx2 eq_refl), (H 17%nat ly2 eq_refl), (H 18%nat lz2 eq_refl).
  rewrite swrap_uwrap, swrap_small by (cbn in Hf; simpl; lia). by rewrite !u32_small by done.
Qed.

Lemma cmdinfo_of_cmdinfo_bytes u : length u = MAX_SPLITSCREEN_CLIENTS -> Forall split_ok u ->
  cmdinfo_of_bytes (cmdinfo_bytes u) = u.
Proof.
  intros Hl Hu. destruct u as [|s1 [|s2 [|]]]; try done.
  apply Forall_cons in Hu as [H1 Hu]. apply Forall_cons in Hu as [H2 _].
  unfold cmdinfo_of_bytes. cbn [MAX_SPLITSCREEN_CLIENTS seq fmap list_fmap Nat.mul Nat.add].
  unfold cmdinfo_bytes. cbn [flat_map]. rewrite app_nil_r. f_equal; [|f_equal].
  - apply split_at_words; [done|]. intros j w Hj. apply dword_at_words. cbn [Nat.add].
    by apply lookup_app_l_Some.
  - apply split_at_words; [done|]. intros j w Hj. apply dword_at_words.
    exact Hj.
Qed.

Lemma length_cmdinfo_bytes u : length u = MAX_SPLITSCREEN_CLIENTS ->
  Z.of_nat (length (cmdinfo_bytes u)) = sizeof_cmdinfo.
Proof. intros Hl. by destruct u as [|s1 [|s2 [|]]]. Qed.

Lemma int_bytes_nonempty v r : int_bytes v ++ r <> [].
Proof. done. Qed.

(** * The reads *)

Lemma ReadCmdHeader_reads c0 t0 s0 cmd tick slot : 1 <= cmd <= dem_lastcmd ->
  - 2 ^ 31 <= tick < 2 ^ 31 ->
  reads (ReadCmdHeader c0 t0 s0) ([cmd] ++ int_bytes tick ++ [slot]) (cmd, tick, slot).
Proof.
  intros Hc Ht. apply reads_open; [done|]. cbn [negb]. eapply reads_bind; [apply read_byte_reads|].
  destruct (Z.leb_spec cmd 0); [lia|].
  replace ((1 <=? cmd) && (cmd <=? dem_lastcmd)) with true by lia. cbn [negb].
  eapply reads_bind; [by apply read_int32_reads|].
  exact (reads_ret_bind read_byte (fun s => (cmd, tick, s)) [slot] slot (read_byte_reads slot)).
Qed.

Lemma ReadSequenceInfo_reads a0 b0 a b : - 2 ^ 31 <= a < 2 ^ 31 -> - 2 ^ 31 <= b < 2 ^ 31 ->
  reads (ReadSequenceInfo a0 b0) (int_bytes a ++ int_bytes b) (a, b).
Proof.
  intros Ha Hb. apply reads_open; [done|]. cbn [negb].
  eapply reads_bind; [by apply read_int32_reads|].
  exact (reads_ret_bind read_int32 (fun b => (a, b)) _ b (read_int32_reads b Hb)).
Qed.

Lemma ReadCmdInfo_reads u0 u : length u = MAX_SPLITSCREEN_CLIENTS -> Forall split_ok u ->
  reads (ReadCmdInfo u0) (cmdinfo_bytes u) u.
Proof.
  intros Hl Hu. pose proof (length_cmdinfo_bytes u Hl) as Hn.
  apply reads_open; [by intros E; rewrite E in Hn|]. cbn [negb].
  rewrite <- (cmdinfo_of_cmdinfo_bytes u Hl Hu) at 2. by apply read_bytes_reads.
Qed.

Lemma store_front dst l : (length l <= length dst)%nat ->
  store_at dst 0 l = Ok (l ++ drop (length l) dst).
Proof.
  intros Hl. assert (length l = length (take (length l) dst)) as Ht by (rewrite length_take; lia).
  pose proof (store_app [] _ (drop (length l) dst) l 0 eq_refl Ht) as E.
  cbn [app] in E. by rewrite take_drop in E.
Qed.

(** The data of a block, into a buffer or skipped. *)
Definition raw_bytes (data : list Z) : list Z := int_bytes (Z.of_nat (length data)) ++ data.

Lemma ReadRawData_reads dst n data : Z.of_nat (length data) < 2 ^ 31 ->
  Z.of_nat (length data) <= n -> (length data <= length dst)%nat ->
  reads (ReadRawData (Some dst) n) (raw_bytes data)
    (Z.of_nat (length data), Some (data ++ drop (length data) dst)).
Proof.
  intros Hd Hn Hl. apply reads_open; [done|]. cbn [negb].
  eapply reads_bind; [apply read_int32_reads; simpl in *; lia|].
  destruct (Z.ltb_spec n (Z.of_nat (length data))); [lia|]. rewrite u32_small by lia.
  intros pre post p Hb Hp Hs.
  rewrite (st_bind_ok _ _ _ _ _ (peek_reads _ data post pre p Hb Hp eq_refl)).
  rewrite (st_bind_ok _ _ p (data ++ drop (length data) dst) p)
    by (unfold st_lift; by rewrite store_front).
  rewrite (st_bind_ok _ _ _ _ _ (advance_reads _ data pre p Hp eq_refl
    ltac:(rewrite Hb, !length_app in Hs; rewrite length_app; lia))). done.
Qed.

Lemma ReadRawData_skips n data : Z.of_nat (length data) < 2 ^ 31 ->
  reads (ReadRawData None n) (raw_bytes data) (Z.of_nat (length data), None).
Proof.
  intros Hd. apply reads_open; [done|]. cbn [negb].
  eapply reads_bind; [apply read_int32_reads; simpl in *; lia|].
  intros pre post p Hb Hp Hs.
  rewrite (st_bind_ok _ _ _ _ _ (advance_reads _ data pre p Hp eq_refl
    ltac:(rewrite Hb, !length_app in Hs; rewrite length_app; lia))). done.
Qed.

Lemma ReadUserCmd_reads dst n seq data : - 2 ^ 31 <= seq < 2 ^ 31 ->
  Z.of_nat (length data) < 2 ^ 31 -> Z.of_nat (length data) <= n ->
  (length data <= length dst)%nat ->
  reads (ReadUserCmd (Some dst) n) (int_bytes seq ++ raw_bytes data)
    (seq, Z.of_nat (length data), Some (data ++ drop (length data) dst)).
Proof.
  intros Hq Hd Hn Hl. apply reads_open; [done|]. cbn [negb].
  eapply reads_bind; [by apply read_int32_reads|].
  rewrite <- (app_nil_r (raw_bytes data)). eapply reads_bind; [by apply ReadRawData_reads|].
  apply (reads_ret (seq, Z.of_nat (length data), Some (data ++ drop (length data) dst))).
Qed.

(** * Properties *)

(** C32: round trip.  Whatever is in front of it and behind it in the packet, a demo record
    in the layout of the structures - command header, sequence numbers, the view data of the
    two clients, a data block read or skipped, a user command - is read back as it was
    written, and the position is behind it. *)
Theorem demo_records_read_back c0 t0 s0 a0 b0 u0 dst n cmd tick slot a b u data :
  1 <= cmd <= dem_lastcmd -> - 2 ^ 31 <= tick < 2 ^ 31 ->
  - 2 ^ 31 <= a < 2 ^ 31 -> - 2 ^ 31 <= b < 2 ^ 31 ->
  length u = MAX_SPLITSCREEN_CLIENTS -> Forall split_ok u ->
  Z.of_nat (length data) <= n < 2 ^ 31 -> (length data <= length dst)%nat ->
  reads (ReadCmdHeader c0 t0 s0) ([cmd] ++ int_bytes tick ++ [slot]) (cmd, tick, slot) /\
  reads (ReadSequenceInfo a0 b0) (int_bytes a ++ int_bytes b) (a, b) /\
  reads (ReadCmdInfo u0) (cmdinfo_bytes u) u /\
  reads (ReadRawData (Some dst) n) (raw_bytes data)
    (Z.of_nat (length data), Some (data ++ drop (length data) dst)) /\
  reads (ReadRawData None n) (raw_bytes data) (Z.of_nat (length data), None) /\
  reads (ReadUserCmd (Some dst) n) (int_bytes a ++ raw_bytes data)
    (a, Z.of_nat (length data), Some (data ++ drop (length data) dst)).
Proof.
  intros Hc Ht Ha Hb Hl Hu Hd Hdst.
  split; [by apply ReadCmdHeader_reads|]. split; [by apply ReadSequenceInfo_reads|].
  split; [by apply ReadCmdInfo_reads|]. split; [apply ReadRawData_reads; done || lia|].
  split; [apply ReadRawData_skips; lia|]. apply ReadUserCmd_reads; done || lia.
Qed.

(** A client's view at its start, resampled. *)
Definition sample_view : Split_t :=
  mkSplit 3 Vector_Init QAngle_Init QAngle_Init (Vector_Init_xyz 0x3f800000 0 0) QAngle_Init QAngle_Init.

Lemma sample_views_ok : Forall split_ok [sample_view; Split_default].
Proof.
  assert (split_ok sample_view) as H1 by (split; [by vm_compute|repeat constructor; done]).
  assert (split_ok Split_default) as H2 by (split; [by vm_compute|repeat constructor; done]).
  by repeat constructor.
Qed.

Lemma demo_records_read_back_witness :
  let u := [sample_view; Split_default] in
  reads (ReadCmdHeader 0 0 0) ([dem_packet] ++ int_bytes (-1) ++ [1]) (dem_packet, -1, 1) /\
  reads (ReadSequenceInfo 0 0) (int_bytes 7 ++ int_bytes 8) (7, 8) /\
  reads (ReadCmdInfo []) (cmdinfo_bytes u) u /\
  reads (ReadRawData (Some [9; 9; 9]) 3) (raw_bytes [1; 2]) (2, Some [1; 2; 9]) /\
  reads (ReadRawData None 3) (raw_bytes [1; 2]) (2, None) /\
  reads (ReadUserCmd (Some [9; 9; 9]) 3) (int_bytes 7 ++ raw_bytes [1; 2]) (7, 2, Some [1; 2; 9]).
Proof.
  apply (demo_records_read_back 0 0 0 0 0 [] [9; 9; 9] 3 dem_packet (-1) 1 7 8
    [sample_view; Split_default] [1; 2]); try (cbn; lia); [done|done|exact sample_views_ok].
Defined.

(** A packet at a data block whose length field is [size]. *)
Definition at_block (pre : list Z) (size : Z) (post : list Z) (p : CPacket) : Prop :=
  m_packetBuffer p = pre ++ int_bytes size ++ post /\
  m_packetBufferPos p = Z.of_nat (length pre) /\ Z.of_nat (length (m_packetBuffer p)) < 2 ^ 31.

Lemma at_block_size {A} pre size post p (c : Demo A) (k : Z -> Demo A) : at_block pre size post p ->
  - 2 ^ 31 <= size < 2 ^ 31 ->
  (b ← is_open; if negb b then c else size ← read_int32; k size) p =
  k size (set_pos (Z.of_nat (length pre) + 4) p).
Proof.
  intros (Hb & Hp & Hl) Hs.
  assert (is_open p = Ok (true, p)) as E.
  { unfold is_open. rewrite (st_bind_ok _ _ _ _ _ eq_refl), Hb, !length_app. cbn [length int_bytes].
    by destruct (Z.eqb_spec (Z.of_nat (length pre + (4 + length post))) 0); [lia|]. }
  rewrite (st_bind_ok _ _ _ _ _ E). cbn [negb].
  rewrite (st_bind_ok _ _ _ _ _ (read_int32_reads size Hs pre post p Hb Hp Hl)).
  by rewrite length_app, Nat2Z.inj_add.
Qed.

(** The length field of a data block is compared with the caller's buffer only.  A block
    that is too long is refused, with the position left between length and data; a negative
    length passes the comparison and is copied as an unsigned one, out of the packet; and
    without a buffer a negative length moves the position back, so that a block of length
    minus four is skipped for ever. *)
Theorem raw_data_lengths_unchecked p pre size post dst n : at_block pre size post p ->
  - 2 ^ 31 <= size < 2 ^ 31 ->
  (n < size -> ReadRawData (Some dst) n p =
    Ok ((-1, Some dst), complain (BufferOverflow size) (set_pos (Z.of_nat (length pre) + 4) p))) /\
  (size < 0 -> size <= n -> exists f, ReadRawData (Some dst) n p = Fault f) /\
  (size < 0 -> 0 <= Z.of_nat (length pre) + 4 + size -> ReadRawData None n p =
    Ok ((size, None), set_pos (Z.of_nat (length pre) + 4 + size) p)) /\
  (size = -4 -> ReadRawData None n p = Ok ((-4, None), p)).
Proof.
  intros Hat Hs. pose proof Hat as (Hb & Hp & Hl). rewrite Hb, length_app in Hl.
  assert (size < 0 -> 0 <= Z.of_nat (length pre) + 4 + size -> ReadRawData None n p =
    Ok ((size, None), set_pos (Z.of_nat (length pre) + 4 + size) p)) as Hskip.
  { intros Hneg Hpos. unfold ReadRawData. rewrite (at_block_size pre size post p) by done.
    unfold advance, st_modify. rewrite (st_bind_ok _ _ _ _ _ eq_refl).
    cbn [set_pos m_packetBufferPos]. by rewrite u32_small by lia. }
  split; [|split; [|split; [done|]]].
  - intros Hn. unfold ReadRawData. rewrite (at_block_size pre size post p) by done.
    by destruct (Z.ltb_spec n size); [|lia].
  - intros Hneg Hn. eexists. unfold ReadRawData. rewrite (at_block_size pre size post p) by done.
    destruct (Z.ltb_spec n size); [lia|]. apply st_bind_fault. unfold peek.
    rewrite (st_bind_ok _ _ _ _ _ eq_refl). cbn [set_pos m_packetBuffer m_packetBufferPos].
    unfold st_lift, fetch_at. rewrite Hb, !length_app. cbn [length].
    assert (u32 size = size + 2 ^ 32) as ->.
    { unfold uwrap. rewrite <- (Z_mod_plus_full size 1). apply Z.mod_small. lia. }
    rewrite length_app in Hl. destruct (Z.leb_spec (Z.of_nat (length pre) + 4 + (size + 2 ^ 32))
      (Z.of_nat (length pre + (length (int_bytes size) + length post) + 1))); [lia|reflexivity].
  - intros ->. rewrite (Hskip ltac:(lia) ltac:(lia)). do 2 f_equal.
    replace (Z.of_nat (length pre) + 4 + -4) with (m_packetBufferPos p) by lia. by destruct p.
Qed.

Lemma raw_data_lengths_unchecked_witness :
  let header := mkpacketheader 0 0 0 in
  let long := mkCPacket header 0 [9; 0; 0; 0; 1] [] in
  let back := mkCPacket header 1 [7; 252; 255; 255; 255; 1] [] in
  ReadRawData (Some [0; 0]) 2 long =
    Ok ((-1, Some [0; 0]), mkCPacket header 4 [9; 0; 0; 0; 1] [BufferOverflow 9]) /\
  (exists f, ReadRawData (Some [0; 0]) 2 back = Fault f) /\
  ReadRawData None 2 back = Ok ((-4, None), back).
Proof.
  intros header long back.
  destruct (raw_data_lengths_unchecked long [] 9 [1] [0; 0] 2) as [H1 _]; [done|lia|].
  destruct (raw_data_lengths_unchecked back [7] (-4) [1] [0; 0] 2) as (_ & H2 & _ & H4); [done|lia|].
  split; [apply H1; lia|]. split; [apply H2; lia|]. by apply H4.
Defined.
