(* ===== verification/StrUtil.v ===== *)
(** String utilities of the run time (google/protobuf/stubs/strutil.cc): integers to text in
    buffers of fixed size, C escapes and their inverse.  A buffer is the list of its characters;
    accesses outside it are faults.  A [char] is given by its byte, [schar] is its value. *)

From Stdlib Require Import String Ascii.
From S2P Require Import Prelude.

(** A literal of the source. *)
Definition text (s : string) : list Z :=
  (fun c => Z.of_N (N_of_ascii c)) <$> list_ascii_of_string s.

(** * Character buffers *)

(** [buffer\[p\] = c]. *)
Definition poke (p c : Z) : ST (list Z) unit := fun b =>
  if (0 <=? p) && (p <? Z.of_nat (length b)) then Ok (tt, <[Z.to_nat p := c]> b)
  else Fault (OutOfBounds p).

Definition peek (b : list Z) (p : Z) : result Z :=
  if 0 <=? p then
    match b !! Z.to_nat p with Some c => Ok c | None => Fault (OutOfBounds p) end
  else Fault (OutOfBounds p).

(** The text that ends at the next zero, as the constructor of [string] and [strlen] take it. *)
Fixpoint until_zero (b : list Z) : option (list Z) :=
  match b with
  | [] => None
  | c :: b' => if c =? 0 then Some [] else cons c <$> until_zero b'
  end.

Definition c_string (b : list Z) (p : Z) : result (list Z) :=
  if (0 <=? p) && (p <=? Z.of_nat (length b)) then
    match until_zero (drop (Z.to_nat p) b) with
    | Some s => Ok s
    | None => Fault (OutOfBounds (Z.of_nat (length b)))
    end
  else Fault (OutOfBounds p).

(** The string between two pointers. *)
Definition string_range (b : list Z) (first last : Z) : result (list Z) :=
  if (0 <=? first) && (first <=? last) && (last <=? Z.of_nat (length b))
  then Ok (take (Z.to_nat (last - first)) (drop (Z.to_nat first) b))
  else Fault (OutOfBounds last).

Definition kFastToBufferSize : Z := 32.
Definition kDoubleToBufferSize : Z := 32.
Definition kFloatToBufferSize : Z := 24.

(** A new array of [n] characters; what it holds is what was on the stack. *)
Definition fresh_buffer (junk : list Z) (n : Z) : list Z :=
  take (Z.to_nat n) (junk ++ replicate (Z.to_nat n) 205).

(** * Integers, from the right *)

Definition kFastInt64ToBufferOffset : Z := 21.
Definition kFastInt32ToBufferOffset : Z := 11.

(** [do { *p-- = '0' + i % 10; i /= 10; } while (i > 0)]: the new [p].  Division and
    remainder are those of C++. *)
Definition put_digits_body (l : Z * Z) : ST (list Z) (Z * Z + Z) :=
  let '(p, i) := l in
  poke p (48 + Z.rem i 10);;
  let i := Z.quot i 10 in
  mret (if 0 <? i then inl (p - 1, i) else inr (p - 1)).

(** Twenty digits are enough for 64 bits. *)
Definition put_digits (p i : Z) : ST (list Z) Z := st_loop 20 put_digits_body (p, i).

(** [FastInt64ToBuffer] and its duplicate for 32 bits, at their width and offset. *)
Definition FastIntToBuffer (w offset i : Z) : ST (list Z) Z :=
  let p := offset in
  poke p 0;;
  let p := p - 1 in
  if 0 <=? i then
    p ← put_digits p i; mret (p + 1)
  else if -10 <? i then
    let i := swrap w (- i) in
    poke p (48 + i);;
    let p := p - 1 in
    poke p 45;;
    mret p
  else
    (* Make sure we aren't at MIN_INT, in which case we can't say i = -i *)
    let i := swrap w (i + 10) in
    let i := swrap w (- i) in
    poke p (48 + Z.rem i 10);;
    let p := p - 1 in
    (* Undo what we did a moment ago *)
    let i := swrap w (Z.quot i 10 + 1) in
    p ← put_digits p i;
    poke p 45;;
    mret p.

Definition FastInt64ToBuffer (i : Z) : ST (list Z) Z := FastIntToBuffer 64 kFastInt64ToBufferOffset i.
Definition FastInt32ToBuffer (i : Z) : ST (list Z) Z := FastIntToBuffer 32 kFastInt32ToBufferOffset i.

(** * Hexadecimal *)

Definition hexdigits : list Z := [48; 49; 50; 51; 52; 53; 54; 55; 56; 57; 97; 98; 99; 100; 101; 102].

(** [GOOGLE_CHECK] ends the process. *)
Definition FastHexToBuffer (i : Z) : ST (list Z) Z :=
  if i <? 0 then st_fault AssertFailed
  else
    poke 21 0;;
    p ← st_loop 16 (fun l : Z * Z =>
      let '(p, i) := l in
      d ← st_lift (tbl hexdigits (Z.land i 15));
      poke p d;;
      let i := Z.shiftr i 4 in
      mret (if 0 <? i then inl (p - 1, i) else inr (p - 1))) (20, i);
    mret (p + 1).

(** The loop from [i = num_byte - 1] down to 0; [n] is [i + 1]. *)
Fixpoint hex_loop (n : nat) (value : Z) : ST (list Z) unit :=
  match n with
  | O => mret tt
  | S i =>
      d ← st_lift (tbl hexdigits (Z.land (u32 value) 0xf));
      poke (Z.of_nat i) d;;
      hex_loop i (Z.shiftr value 4)
  end.

(** It returns [buffer]. *)
Definition InternalFastHexToBuffer (value num_byte : Z) : ST (list Z) Z :=
  poke num_byte 0;;
  hex_loop (Z.to_nat num_byte) value;;
  mret 0.

Definition FastHex64ToBuffer (value : Z) : ST (list Z) Z := InternalFastHexToBuffer value 16.
Definition FastHex32ToBuffer (value : Z) : ST (list Z) Z := InternalFastHexToBuffer value 8.

(** * Integers, from the left *)

Definition two_ASCII_digits : list (Z * Z) :=
  [(48, 48); (48, 49); (48, 50); (48, 51); (48, 52);
   (48, 53); (48, 54); (48, 55); (48, 56); (48, 57);
   (49, 48); (49, 49); (49, 50); (49, 51); (49, 52);
   (49, 53); (49, 54); (49, 55); (49, 56); (49, 57);
   (50, 48); (50, 49); (50, 50); (50, 51); (50, 52);
   (50, 53); (50, 54); (50, 55); (50, 56); (50, 57);
   (51, 48); (51, 49); (51, 50); (51, 51); (51, 52);
   (51, 53); (51, 54); (51, 55); (51, 56); (51, 57);
   (52, 48); (52, 49); (52, 50); (52, 51); (52, 52);
   (52, 53); (52, 54); (52, 55); (52, 56); (52, 57);
   (53, 48); (53, 49); (53, 50); (53, 51); (53, 52);
   (53, 53); (53, 54); (53, 55); (53, 56); (53, 57);
   (54, 48); (54, 49); (54, 50); (54, 51); (54, 52);
   (54, 53); (54, 54); (54, 55); (54, 56); (54, 57);
   (55, 48); (55, 49); (55, 50); (55, 51); (55, 52);
   (55, 53); (55, 54); (55, 55); (55, 56); (55, 57);
   (56, 48); (56, 49); (56, 50); (56, 51); (56, 52);
   (56, 53); (56, 54); (56, 55); (56, 56); (56, 57);
   (57, 48); (57, 49); (57, 50); (57, 51); (57, 52);
   (57, 53); (57, 54); (57, 55); (57, 56); (57, 57)].

(** [ASCII_digits = two_ASCII_digits\[digits\]], two characters and [buffer += 2]. *)
Definition put_two (digits buffer : Z) : ST (list Z) Z :=
  d ← st_lift (tbl two_ASCII_digits digits);
  poke buffer (fst (d : Z * Z));;
  poke (buffer + 1) (snd d);;
  mret (buffer + 2).

(** The labels of [FastUInt32ToBufferLeft], from the last to the first; [u -= digits * n] is
    arithmetic of [uint32]. *)
Definition label_done (buffer : Z) : ST (list Z) Z := poke buffer 0;; mret buffer.
Definition label_lt100 (u buffer : Z) : ST (list Z) Z :=
  buffer ← put_two u buffer; label_done buffer.
Definition label_sublt100 (u digits buffer : Z) : ST (list Z) Z :=
  label_lt100 (u32 (u - digits * 100)) buffer.
Definition label_lt10_000 (u buffer : Z) : ST (list Z) Z :=
  let digits := u / 100 in
  buffer ← put_two digits buffer; label_sublt100 u digits buffer.
Definition label_sublt10_000 (u digits buffer : Z) : ST (list Z) Z :=
  label_lt10_000 (u32 (u - digits * 10000)) buffer.
Definition label_lt1_000_000 (u buffer : Z) : ST (list Z) Z :=
  let digits := u / 10000 in
  buffer ← put_two digits buffer; label_sublt10_000 u digits buffer.
Definition label_sublt1_000_000 (u digits buffer : Z) : ST (list Z) Z :=
  label_lt1_000_000 (u32 (u - digits * 1000000)) buffer.
Definition label_lt100_000_000 (u buffer : Z) : ST (list Z) Z :=
  let digits := u / 1000000 in
  buffer ← put_two digits buffer; label_sublt1_000_000 u digits buffer.
Definition label_sublt100_000_000 (u digits buffer : Z) : ST (list Z) Z :=
  label_lt100_000_000 (u32 (u - digits * 100000000)) buffer.

(** It returns the end of the text. *)
Definition FastUInt32ToBufferLeft (u buffer : Z) : ST (list Z) Z :=
  let one digits := poke buffer (48 + digits) in
  if 1000000000 <=? u then
    let digits := u / 100000000 in
    buffer ← put_two digits buffer; label_sublt100_000_000 u digits buffer
  else if u <? 100 then
    if 10 <=? u then label_lt100 u buffer else one u;; label_done (buffer + 1)
  else if u <? 10000 then
    if 1000 <=? u then label_lt10_000 u buffer
    else let digits := u / 100 in one digits;; label_sublt100 u digits (buffer + 1)
  else if u <? 1000000 then
    if 100000 <=? u then label_lt1_000_000 u buffer
    else let digits := u / 10000 in one digits;; label_sublt10_000 u digits (buffer + 1)
  else if u <? 100000000 then
    if 10000000 <=? u then label_lt100_000_000 u buffer
    else let digits := u / 1000000 in one digits;; label_sublt1_000_000 u digits (buffer + 1)
  else
    let digits := u / 100000000 in one digits;; label_sublt100_000_000 u digits (buffer + 1).

(** [u = -i] at 32 bits. *)
Definition FastInt32ToBufferLeft (i buffer : Z) : ST (list Z) Z :=
  if i <? 0 then poke buffer 45;; FastUInt32ToBufferLeft (u32 (s32 (- i))) (buffer + 1)
  else FastUInt32ToBufferLeft (u32 i) buffer.

(** The nine digits behind the recursive call: [u -= digits * n] for every pair. *)
Fixpoint put_pairs (ns : list Z) (u buffer : Z) : ST (list Z) Z :=
  match ns with
  | [] =>
      poke buffer (48 + u);;
      poke (buffer + 1) 0;;
      mret (buffer + 1)
  | n :: ns =>
      let digits := u / n in
      buffer ← put_two digits buffer;
      put_pairs ns (u32 (u - digits * n)) buffer
  end.

Fixpoint FastUInt64ToBufferLeft (fuel : nat) (u64_ buffer : Z) : ST (list Z) Z :=
  match fuel with
  | O => st_fault OutOfFuel
  | S fuel =>
      let u := u32 u64_ in
      if u =? u64_ then FastUInt32ToBufferLeft u buffer
      else
        let top_11_digits := u64_ / 1000000000 in
        buffer ← FastUInt64ToBufferLeft fuel top_11_digits buffer;
        put_pairs [10000000; 100000; 1000; 10] (u32 (u64_ - top_11_digits * 1000000000)) buffer
  end.

(** Every call takes nine digits off: three are enough for 64 bits. *)
Definition left_calls : nat := 3.

Definition FastInt64ToBufferLeft (i buffer : Z) : ST (list Z) Z :=
  if i <? 0 then
    poke buffer 45;; FastUInt64ToBufferLeft left_calls (u64 (s64 (- i))) (buffer + 1)
  else FastUInt64ToBufferLeft left_calls (u64 i) buffer.

(** * [SimpleItoa] *)

Section SimpleItoa.
(** What the stack holds. *)
Context (junk : list Z).

(** [char buffer\[kFastToBufferSize\]], a text from a pointer on. *)
Definition with_buffer (f : ST (list Z) Z) : result (list Z) :=
  r ← f (fresh_buffer junk kFastToBufferSize);
  let '(p, buffer) := r in c_string buffer p.
(** The same with a pointer to its end. *)
Definition with_buffer_left (f : ST (list Z) Z) : result (list Z) :=
  r ← f (fresh_buffer junk kFastToBufferSize);
  let '(p, buffer) := r in string_range buffer 0 p.

(** The overloads, by the type of the argument; [long] has four bytes. *)
Definition SimpleItoa_int (i : Z) : result (list Z) := with_buffer (FastInt32ToBuffer i).
Definition SimpleItoa_unsigned_int (i : Z) : result (list Z) :=
  with_buffer_left (FastUInt32ToBufferLeft i 0).
Definition SimpleItoa_long (i : Z) : result (list Z) := with_buffer (FastInt32ToBuffer i).
Definition SimpleItoa_unsigned_long (i : Z) : result (list Z) :=
  with_buffer_left (FastUInt32ToBufferLeft i 0).
Definition SimpleItoa_long_long (i : Z) : result (list Z) := with_buffer (FastInt64ToBuffer i).
Definition SimpleItoa_unsigned_long_long (i : Z) : result (list Z) :=
  with_buffer_left (FastUInt64ToBufferLeft left_calls i 0).
End SimpleItoa.
