(* ===== verification/Numerals.v ===== *)
(** Numerals as lists of characters: [fixed] with a given number of digits, [decimal] without
    leading zeros, [int_text] with a sign; their values, and the lemmas about texts that are
    written into buffers. *)

From S2P Require Import Prelude StrUtil.

(** * Digits *)

Definition dec_digit (d : Z) : Z := 48 + d.
Definition hex_digit (d : Z) : Z := if d <? 10 then 48 + d else 87 + d.

(** The last [k] digits. *)
Fixpoint fixed (base : Z) (digit : Z -> Z) (k : nat) (n : Z) : list Z :=
  match k with
  | O => []
  | S k => fixed base digit k (n / base) ++ [digit (n mod base)]
  end.

(** All the digits, up to [k]. *)
Fixpoint decimal (k : nat) (n : Z) : list Z :=
  match k with
  | O => []
  | S k => (if n <? 10 then [] else decimal k (n / 10)) ++ [dec_digit (n mod 10)]
  end.

(** An integer of up to 64 bits. *)
Definition int_text (i : Z) : list Z :=
  if i <? 0 then 45 :: decimal 20 (- i) else decimal 20 i.

Definition digits_value (base : Z) (value : Z -> Z) (l : list Z) : Z :=
  foldl (fun a c => a * base + value c) 0 l.

Lemma fixed_length base digit k n : length (fixed base digit k n) = k.
Proof. revert n. induction k as [|k IH]; intros n; [done|]. cbn. rewrite length_app, IH. cbn. lia. Qed.

Lemma fixed_split base digit a b n : 0 < base ->
  fixed base digit (a + b) n =
  fixed base digit a (n / base ^ Z.of_nat b) ++ fixed base digit b (n mod base ^ Z.of_nat b).
Proof.
  intros Hb. revert n. induction b as [|b IH]; intros n.
  - rewrite Nat.add_0_r. change (base ^ Z.of_nat 0) with 1. by rewrite Z.div_1_r, app_nil_r.
  - rewrite Nat.add_succ_r. cbn [fixed]. rewrite IH, app_assoc.
    assert (0 < base ^ Z.of_nat b) as Hp by (apply Z.pow_pos_nonneg; lia).
    assert (base ^ Z.of_nat (S b) = base * base ^ Z.of_nat b) as Ep
      by (rewrite <- Z.pow_succ_r by lia; f_equal; lia).
    rewrite Ep, Z.div_div by lia. f_equal; [f_equal|].
    + rewrite Z.rem_mul_r by lia. f_equal.
      rewrite Z.add_comm, Z.mul_comm, Z.div_add_l by lia.
      rewrite (Z.div_small (n mod base)) by (apply Z.mod_pos_bound; lia). by rewrite Z.add_0_r.
    + f_equal. f_equal. rewrite Z.rem_mul_r by lia.
      rewrite Z.add_mod, Z.mul_comm, Z.mod_mul, Z.add_0_r, !Z.mod_mod by lia. done.
Qed.

Lemma fixed_decimal k n : 10 ^ (Z.of_nat k - 1) <= n < 10 ^ Z.of_nat k -> (0 < k)%nat ->
  decimal k n = fixed 10 dec_digit k n.
Proof.
  revert n. induction k as [|k IH]; intros n Hn Hk; [lia|]. cbn [decimal fixed]. f_equal.
  destruct k as [|k]; [destruct (Z.ltb_spec n 10); [done|cbn in *; lia]|].
  replace (Z.of_nat (S (S k)) - 1) with (Z.of_nat (S k)) in Hn by lia.
  assert (10 ^ Z.of_nat (S k) = 10 * 10 ^ (Z.of_nat (S k) - 1)) as E1
    by (rewrite <- Z.pow_succ_r by lia; f_equal; lia).
  assert (10 ^ Z.of_nat (S (S k)) = 10 * 10 ^ Z.of_nat (S k)) as E2
    by (rewrite <- Z.pow_succ_r by lia; f_equal; lia).
  assert (0 < 10 ^ (Z.of_nat (S k) - 1)) by (apply Z.pow_pos_nonneg; lia).
  destruct (Z.ltb_spec n 10); [lia|]. apply IH; [|lia]. split.
  - apply Z.div_le_lower_bound; lia.
  - apply Z.div_lt_upper_bound; lia.
Qed.

(** More places than digits. *)
Lemma decimal_more k k' n : 0 <= n < 10 ^ Z.of_nat k -> (0 < k <= k')%nat -> decimal k' n = decimal k n.
Proof.
  revert k' n. induction k as [|k IH]; intros k' n Hn Hk; [lia|].
  destruct k' as [|k']; [lia|]. cbn [decimal]. f_equal. destruct (Z.ltb_spec n 10) as [|Hge]; [done|].
  assert (10 ^ Z.of_nat (S k) = 10 * 10 ^ Z.of_nat k) as E
    by (rewrite <- Z.pow_succ_r by lia; f_equal; lia).
  apply IH.
  - split; [apply Z.div_pos; lia|]. apply Z.div_lt_upper_bound; lia.
  - destruct k; [cbn in Hn; lia|lia].
Qed.

(** The digits in front of the last [b]. *)
Lemma decimal_app k b n : 10 ^ Z.of_nat b <= n -> 
  decimal (k + b) n = decimal k (n / 10 ^ Z.of_nat b) ++ fixed 10 dec_digit b (n mod 10 ^ Z.of_nat b).
Proof.
  revert n. induction b as [|b IH]; intros n Hn.
  - rewrite Nat.add_0_r, app_nil_r. change (10 ^ Z.of_nat 0) with 1. by rewrite Z.div_1_r.
  - rewrite Nat.add_succ_r. cbn [decimal fixed].
    assert (0 < 10 ^ Z.of_nat b) as Hp by (apply Z.pow_pos_nonneg; lia).
    assert (10 ^ Z.of_nat (S b) = 10 * 10 ^ Z.of_nat b) as Ep
      by (rewrite <- Z.pow_succ_r by lia; f_equal; lia).
    rewrite Ep in *. destruct (Z.ltb_spec n 10) as [|_]; [lia|].
    rewrite IH, <- app_assoc, Z.div_div by (lia || (apply Z.div_le_lower_bound; lia)).
    f_equal. rewrite Z.rem_mul_r by lia. f_equal; [|f_equal; f_equal].
    + f_equal. rewrite Z.add_comm, Z.mul_comm, Z.div_add_l by lia.
      rewrite (Z.div_small (n mod 10)) by (apply Z.mod_pos_bound; lia). by rewrite Z.add_0_r.
    + rewrite Z.add_mod, (Z.mul_comm 10), Z.mod_mul, Z.add_0_r, !Z.mod_mod by lia. done.
Qed.

Lemma decimal_length k n : (length (decimal k n) <= k)%nat.
Proof.
  revert n. induction k as [|k IH]; intros n; [done|]. cbn. rewrite length_app. cbn.
  specialize (IH (n / 10)). destruct (n <? 10); cbn; lia.
Qed.

Lemma decimal_nonempty k n : (0 < k)%nat -> (0 < length (decimal k n))%nat.
Proof. destruct k; [lia|]. intros _. cbn. rewrite length_app. cbn. lia. Qed.

(** No zero in front. *)
Lemma decimal_head k n : 0 < n < 10 ^ Z.of_nat k -> exists c l, decimal k n = c :: l /\ c <> 48.
Proof.
  revert n. induction k as [|k IH]; intros n Hn; [cbn in Hn; lia|]. cbn [decimal].
  assert (10 ^ Z.of_nat (S k) = 10 * 10 ^ Z.of_nat k) as Ep by (rewrite <- Z.pow_succ_r by lia; f_equal; lia).
  destruct (Z.ltb_spec n 10).
  - exists (dec_digit (n mod 10)), []. split; [done|]. rewrite Z.mod_small by lia. unfold dec_digit. lia.
  - destruct (IH (n / 10)) as (c & l & -> & Hc); [|by exists c, (l ++ [dec_digit (n mod 10)])]. split.
    + apply Z.div_str_pos. lia.
    + apply Z.div_lt_upper_bound; lia.
Qed.

(** * Characters and values *)

Definition is_dec (c : Z) : Prop := 48 <= c <= 57.

Lemma decimal_chars k n : 0 <= n -> Forall is_dec (decimal k n).
Proof.
  revert n. induction k as [|k IH]; intros n Hn; [constructor|]. cbn. apply Forall_app. split.
  - destruct (n <? 10); [constructor|]. apply IH. apply Z.div_pos; lia.
  - constructor; [|constructor]. unfold is_dec, dec_digit.
    pose proof (Z.mod_pos_bound n 10 ltac:(lia)). lia.
Qed.

Lemma decimal_value k n : 0 <= n < 10 ^ Z.of_nat k -> (0 < k)%nat ->
  digits_value 10 (fun c => c - 48) (decimal k n) = n.
Proof.
  unfold digits_value. revert n. induction k as [|k IH]; intros n Hn Hk; [lia|].
  cbn [decimal]. rewrite foldl_app. cbn [foldl].
  pose proof (Z.div_mod n 10 ltac:(lia)) as Hd. unfold dec_digit.
  destruct (Z.ltb_spec n 10) as [Hlt|Hge].
  - cbn [foldl]. rewrite Z.mod_small by lia. lia.
  - assert (10 ^ Z.of_nat (S k) = 10 * 10 ^ Z.of_nat k) as E
      by (rewrite <- Z.pow_succ_r by lia; f_equal; lia).
    rewrite IH; [lia| |destruct k; [cbn in Hn; lia|lia]].
    split; [apply Z.div_pos; lia|apply Z.div_lt_upper_bound; lia].
Qed.

Lemma int_text_chars i : Forall (fun c => is_dec c \/ c = 45) (int_text i).
Proof.
  assert (forall n, 0 <= n -> Forall (fun c => is_dec c \/ c = 45) (decimal 20 n)) as H.
  { intros n Hn. eapply Forall_impl; [by apply decimal_chars|]. by left. }
  unfold int_text. destruct (Z.ltb_spec i 0); [constructor; [by right|]|]; apply H; lia.
Qed.

(** Different integers have different texts. *)
Lemma int_text_inj i j : - 10 ^ 20 < i < 10 ^ 20 -> - 10 ^ 20 < j < 10 ^ 20 ->
  int_text i = int_text j -> i = j.
Proof.
  assert (forall n, 0 <= n -> head (decimal 20 n) <> Some 45) as Hh.
  { intros n Hn E. pose proof (decimal_chars 20 n Hn) as Hc.
    destruct (decimal 20 n) as [|c l]; [done|]. injection E as ->.
    apply Forall_cons in Hc as [Hc _]. unfold is_dec in Hc. lia. }
  assert (forall n m, 0 <= n < 10 ^ 20 -> 0 <= m < 10 ^ 20 -> decimal 20 n = decimal 20 m -> n = m) as Hd.
  { intros n m Hn Hm E. rewrite <- (decimal_value 20 n), <- (decimal_value 20 m), E by (done || lia). done. }
  intros Hi Hj. unfold int_text. destruct (Z.ltb_spec i 0), (Z.ltb_spec j 0).
  - intros E. apply (app_inv_head [45]), Hd in E; lia.
  - intros E. by destruct (Hh j ltac:(lia)); rewrite <- E.
  - intros E. by destruct (Hh i ltac:(lia)); rewrite E.
  - apply Hd; lia.
Qed.

(** * Texts in buffers *)

Lemma poke_insert (b : list Z) (p : nat) c : (p < length b)%nat ->
  poke (Z.of_nat p) c b = Ok (tt, <[p := c]> b).
Proof.
  intros Hp. unfold poke. destruct (Z.leb_spec 0 (Z.of_nat p)); [|lia].
  destruct (Z.ltb_spec (Z.of_nat p) (Z.of_nat (length b))); [|lia]. by rewrite Nat2Z.id.
Qed.

(** In front of a text, and behind it. *)
Lemma poke_front (b : list Z) p c t : (p < length b)%nat ->
  poke (Z.of_nat p) c (list_inserts (S p) t b) = Ok (tt, list_inserts p (c :: t) b).
Proof. intros Hp. by rewrite poke_insert by (by rewrite length_inserts). Qed.

Lemma inserts_snoc (b : list Z) p t c :
  <[(p + length t)%nat := c]> (list_inserts p t b) = list_inserts p (t ++ [c]) b.
Proof.
  revert p. induction t as [|x t IH]; intros p; cbn.
  - by rewrite Nat.add_0_r.
  - rewrite <- IH. rewrite list_insert_insert_ne by lia. f_equal. f_equal. lia.
Qed.

Lemma poke_back (b : list Z) p c t q : (p + length t < length b)%nat -> q = Z.of_nat (p + length t) ->
  poke q c (list_inserts p t b) = Ok (tt, list_inserts p (t ++ [c]) b).
Proof.
  intros Hp ->. rewrite poke_insert by (by rewrite length_inserts). by rewrite inserts_snoc.
Qed.

(** One more character. *)
Lemma poke_next c t (b : list Z) q : (length t < length b)%nat -> q = Z.of_nat (length t) ->
  poke q c (list_inserts 0 t b) = Ok (tt, list_inserts 0 (t ++ [c]) b).
Proof. intros Hb ->. by apply poke_back. Qed.

(** A character elsewhere stays, and what is written over does not matter. *)
Lemma inserts_away (b : list Z) p t i c : (i < p \/ p + length t <= i)%nat ->
  list_inserts p t (<[i := c]> b) = <[i := c]> (list_inserts p t b).
Proof.
  revert p. induction t as [|y t IH]; intros p Hi; cbn in *; [done|].
  rewrite IH by lia. by rewrite list_insert_insert_ne by lia.
Qed.

Lemma inserts_over (b : list Z) p t i c : (p <= i < p + length t)%nat ->
  list_inserts p t (<[i := c]> b) = list_inserts p t b.
Proof.
  revert p. induction t as [|x t IH]; intros p Hi; cbn in *; [lia|].
  destruct (decide (i = p)) as [->|]; [|rewrite IH by lia; done].
  rewrite inserts_away by lia. by rewrite list_insert_insert_eq.
Qed.

Lemma drop_inserts (b : list Z) p t : (p + length t <= length b)%nat ->
  drop p (list_inserts p t b) = t ++ drop (p + length t) b.
Proof.
  revert p b. induction t as [|x t IH]; intros p b Hp; cbn in *; [by rewrite Nat.add_0_r|].
  assert (drop p (<[p := x]> (list_inserts (S p) t b)) = x :: drop (S p) (list_inserts (S p) t b)) as ->.
  { rewrite <- (drop_insert_lt _ (S p) p x) by lia.
    apply drop_S, list_lookup_insert_eq. rewrite length_inserts. lia. }
  rewrite IH by lia. by rewrite Nat.add_succ_r.
Qed.

Lemma until_zero_app t r : Forall (fun c => c <> 0) t -> until_zero (t ++ 0 :: r) = Some t.
Proof.
  induction 1 as [|c t Hc _ IH]; [done|]. cbn. destruct (Z.eqb_spec c 0); [done|]. by rewrite IH.
Qed.

(** The characters of a string without a zero. *)
Lemma c_string_whole t : Forall (fun c => c <> 0) t -> c_string (t ++ [0]) 0 = Ok t.
Proof.
  intros Ht. unfold c_string. rewrite length_app. cbn [Z.leb andb length].
  destruct (Z.leb_spec 0 (Z.of_nat (length t + 1))); [|lia]. cbn [andb]. change (Z.to_nat 0) with 0%nat.
  by rewrite drop_0, until_zero_app.
Qed.

(** A text that ends in a zero is read back. *)
Lemma c_string_inserts (b : list Z) p t : Forall (fun c => c <> 0) t ->
  (p + length t < length b)%nat -> c_string (list_inserts p (t ++ [0]) b) (Z.of_nat p) = Ok t.
Proof.
  intros Ht Hp. unfold c_string. rewrite length_inserts, Nat2Z.id.
  destruct (Z.leb_spec 0 (Z.of_nat p)); [|lia].
  destruct (Z.leb_spec (Z.of_nat p) (Z.of_nat (length b))); [|lia]. cbn [andb].
  rewrite drop_inserts by (rewrite length_app; cbn; lia).
  rewrite <- app_assoc. cbn. by rewrite until_zero_app.
Qed.

Lemma string_range_inserts (b : list Z) t r : (length (t ++ r) <= length b)%nat ->
  string_range (list_inserts 0 (t ++ r) b) 0 (Z.of_nat (length t)) = Ok t.
Proof.
  intros Ht. unfold string_range. rewrite length_inserts. rewrite length_app in Ht.
  destruct (Z.leb_spec 0 (Z.of_nat (length t))); [|lia].
  destruct (Z.leb_spec (Z.of_nat (length t)) (Z.of_nat (length b))); [|lia]. cbn [andb Z.leb].
  rewrite Z.sub_0_r, Nat2Z.id. change (Z.to_nat 0) with 0%nat.
  rewrite drop_inserts by (rewrite length_app; lia). by rewrite <- app_assoc, take_app_length.
Qed.

Lemma fresh_buffer_length junk n : 0 <= n -> length (fresh_buffer junk n) = Z.to_nat n.
Proof. intros Hn. unfold fresh_buffer. rewrite length_take, length_app, length_replicate. lia. Qed.
