(* ===== verification/StrUtilProofs.v ===== *)
(** The integer printers against the numerals: what each writes into its buffer, and that it
    stays inside. *)

From S2P Require Import Prelude StrUtil Numerals.

(** * From the right *)

Lemma put_digits_spec k : forall p i t (b : list Z), 0 <= i < 10 ^ Z.of_nat k -> (0 < k)%nat ->
  (length (decimal k i) <= S p <= length b)%nat ->
  st_loop k put_digits_body (Z.of_nat p, i) (list_inserts (S p) t b) =
  Ok (Z.of_nat p - Z.of_nat (length (decimal k i)),
      list_inserts (S p - length (decimal k i)) (decimal k i ++ t) b).
Proof.
  induction k as [|k IH]; intros p i t b Hi Hk Hp; [lia|]. cbn [decimal] in *.
  assert (put_digits_body (Z.of_nat p, i) (list_inserts (S p) t b) =
    Ok (if 0 <? i / 10 then inl (Z.of_nat p - 1, i / 10) else inr (Z.of_nat p - 1),
        list_inserts p (dec_digit (i mod 10) :: t) b)) as Eb.
  { unfold put_digits_body. rewrite Z.rem_mod_nonneg, Z.quot_div_nonneg by lia.
    by rewrite (st_bind_ok _ _ _ _ _ (poke_front b p _ t ltac:(lia))). }
  rewrite length_app in *. cbn [length] in *.
  destruct (Z.ltb_spec i 10) as [Hlt|Hge].
  - rewrite (Z.div_small i 10) in Eb by lia. erewrite st_loop_exit by exact Eb.
    cbn [app length]. do 2 f_equal. f_equal. lia.
  - assert (10 ^ Z.of_nat (S k) = 10 * 10 ^ Z.of_nat k) as E
      by (rewrite <- Z.pow_succ_r by lia; f_equal; lia).
    assert (0 < i / 10) by (apply Z.div_str_pos; lia).
    destruct (Z.ltb_spec 0 (i / 10)); [|lia]. erewrite st_loop_next by exact Eb.
    destruct k as [|k]; [cbn in Hi; lia|].
    pose proof (decimal_nonempty (S k) (i / 10) ltac:(lia)) as Hn.
    destruct p as [|p]; [lia|]. replace (Z.of_nat (S p) - 1) with (Z.of_nat p) by lia.
    rewrite IH; [|split; [lia|apply Z.div_lt_upper_bound; lia]|lia|lia].
    rewrite <- app_assoc. cbn [app]. do 2 f_equal; [lia|]. f_equal. lia.
Qed.

Lemma decimal_20 i : 0 <= i < 10 ^ 20 -> forall k, i < 10 ^ Z.of_nat k -> (0 < k <= 20)%nat ->
  decimal 20 i = decimal k i.
Proof. intros Hi k Hk Hk'. apply decimal_more; [lia|done]. Qed.

(** What the widths allow: the digits fit in front of the offset. *)
Record int_buffer (w offset : Z) (d : nat) : Prop := {
  ib_width : (w = 32 /\ d = 10%nat) \/ (w = 64 /\ d = 19%nat);
  ib_offset : offset = Z.of_nat d + 1 \/ offset = Z.of_nat d + 2
}.

Lemma int_buffer_32 : int_buffer 32 kFastInt32ToBufferOffset 10.
Proof. split; [by left|by left]. Qed.
Lemma int_buffer_64 : int_buffer 64 kFastInt64ToBufferOffset 19.
Proof. split; [by right|by right]. Qed.

Section Right.
Context (w offset : Z) (d : nat) (Hib : int_buffer w offset d).

Lemma width_range i : - 2 ^ (w - 1) <= i < 2 ^ (w - 1) -> - 10 ^ Z.of_nat d < i < 10 ^ Z.of_nat d.
Proof. destruct (ib_width _ _ _ Hib) as [[-> ->]|[-> ->]]; simpl; lia. Qed.

(** The digits of [i] in front of [t]. *)
Lemma put_digits_at (b : list Z) p i t : 0 <= i < 10 ^ Z.of_nat d ->
  (length (decimal 20 i) <= S p)%nat -> (p < length b)%nat ->
  put_digits (Z.of_nat p) i (list_inserts (S p) t b) =
  Ok (Z.of_nat p - Z.of_nat (length (decimal 20 i)),
      list_inserts (S p - length (decimal 20 i)) (decimal 20 i ++ t) b).
Proof.
  intros Hi Hl Hp. apply put_digits_spec; [|lia|lia]. split; [lia|].
  assert (10 ^ Z.of_nat d <= 10 ^ Z.of_nat 20); [|lia].
  apply Z.pow_le_mono_r; [lia|]. destruct (ib_width _ _ _ Hib) as [[_ ->]|[_ ->]]; lia.
Qed.

Lemma digits_fit i : 0 <= i < 10 ^ Z.of_nat d -> (length (decimal 20 i) <= d)%nat.
Proof.
  intros Hi. assert (0 < d <= 20)%nat as Hd by (destruct (ib_width _ _ _ Hib) as [[_ ->]|[_ ->]]; lia).
  rewrite (decimal_more d 20 i Hi Hd). apply decimal_length.
Qed.

Lemma FastIntToBuffer_spec i (b : list Z) : - 2 ^ (w - 1) <= i < 2 ^ (w - 1) ->
  offset < Z.of_nat (length b) ->
  exists p : nat, FastIntToBuffer w offset i b = Ok (Z.of_nat p, list_inserts p (int_text i ++ [0]) b) /\
    (p + length (int_text i) = Z.to_nat offset)%nat.
Proof.
  intros Hi Hb. pose proof (width_range i Hi) as Hr.
  assert (exists o : nat, offset = Z.of_nat (S o) /\ (d <= o)%nat) as (o & Eo & Ho)
    by (exists (Z.to_nat (offset - 1)); destruct (ib_offset _ _ _ Hib); lia).
  assert (0 < w /\ 20 <= 2 ^ (w - 1)) as [Hw Hw'] by (destruct (ib_width _ _ _ Hib) as [[-> _]|[-> _]]; simpl; lia).
  unfold FastIntToBuffer. rewrite Eo. rewrite Eo in Hb.
  rewrite (st_bind_ok _ _ _ _ _ (poke_front b (S o) 0 [] ltac:(lia))). cbv zeta.
  replace (Z.of_nat (S o) - 1) with (Z.of_nat o) by lia. unfold int_text.
  destruct (Z.leb_spec 0 i) as [Hpos|Hneg].
  { destruct (Z.ltb_spec i 0); [lia|]. pose proof (digits_fit i ltac:(lia)) as Hl.
    rewrite (st_bind_ok _ _ _ _ _ (put_digits_at b o i [0] ltac:(lia) ltac:(lia) ltac:(lia))).
    exists (S o - length (decimal 20 i))%nat. split; [|lia].
    unfold mret, ST_ret. f_equal. f_equal. lia. }
  destruct (Z.ltb_spec i 0); [|lia]. pose proof (digits_fit (- i) ltac:(lia)) as Hl.
  destruct (Z.ltb_spec (-10) i) as [Hs|Hs].
  - rewrite (swrap_small w (- i)) by lia. destruct o as [|o]; [destruct (ib_width _ _ _ Hib); lia|].
    rewrite (st_bind_ok _ _ _ _ _ (poke_front b (S o) (48 + - i) [0] ltac:(lia))).
    replace (Z.of_nat (S o) - 1) with (Z.of_nat o) by lia.
    rewrite (st_bind_ok _ _ _ _ _ (poke_front b o 45 _ ltac:(lia))).
    assert (decimal 20 (- i) = [48 + - i]) as ->.
    { rewrite (decimal_more 1 20) by (simpl; lia). cbn. destruct (Z.ltb_spec (- i) 10); [|lia].
      rewrite Z.mod_small by lia. done. }
    exists o. split; [done|]. cbn. lia.
  - set (j := - i) in *.
    rewrite (swrap_small w (i + 10)), (swrap_small w (- (i + 10))) by lia.
    replace (- (i + 10)) with (j - 10) by lia. rewrite Z.rem_mod_nonneg, Z.quot_div_nonneg by lia.
    assert ((j - 10) mod 10 = j mod 10) as ->.
    { replace (j - 10) with (j + (-1) * 10) by lia. by rewrite Z.mod_add by lia. }
    assert ((j - 10) / 10 + 1 = j / 10) as ->.
    { replace (j - 10) with (j + (-1) * 10) by lia. rewrite Z.div_add by lia. lia. }
    assert (0 <= j / 10 <= j) by (split; [apply Z.div_pos; lia|apply Z.div_le_upper_bound; lia]).
    assert (j / 10 < j) by (apply Z.div_lt; lia).
    rewrite (swrap_small w (j / 10) Hw) by lia.
    assert (decimal 20 j = decimal 20 (j / 10) ++ [48 + j mod 10]) as Ej.
    { transitivity (decimal 21 j).
      - symmetry. apply decimal_more; [|lia]. split; [lia|].
        assert (10 ^ Z.of_nat d <= 10 ^ Z.of_nat 20); [|lia].
        apply Z.pow_le_mono_r; [lia|]. destruct (ib_width _ _ _ Hib) as [[_ ->]|[_ ->]]; lia.
      - change (decimal 21 j) with ((if j <? 10 then [] else decimal 20 (j / 10)) ++ [dec_digit (j mod 10)]).
        by destruct (Z.ltb_spec j 10); [lia|]. }
    rewrite Ej, length_app in Hl. cbn [length] in Hl.
    destruct o as [|o]; [destruct (ib_width _ _ _ Hib); lia|].
    rewrite (st_bind_ok _ _ _ _ _ (poke_front b (S o) (48 + j mod 10) [0] ltac:(lia))).
    replace (Z.of_nat (S o) - 1) with (Z.of_nat o) by lia.
    rewrite (st_bind_ok _ _ _ _ _ (put_digits_at b o (j / 10) _ ltac:(lia) ltac:(lia) ltac:(lia))).
    set (l := decimal 20 (j / 10)) in *.
    destruct (S o - length l)%nat as [|p] eqn:Ep; [lia|].
    replace (Z.of_nat o - Z.of_nat (length l)) with (Z.of_nat p) by lia.
    rewrite (st_bind_ok _ _ _ _ _ (poke_front b p 45 _ ltac:(lia))).
    exists p. rewrite Nat2Z.id, Ej. split; [|cbn [length]; rewrite length_app; cbn [length]; lia].
    unfold mret, ST_ret. cbn [app]. by rewrite <- app_assoc.
Qed.
End Right.

(** * From the left *)

Lemma two_digits_table d : 0 <= d < 100 ->
  tbl two_ASCII_digits d = Ok (48 + d / 10, 48 + d mod 10).
Proof.
  intros Hd.
  assert (forallb (fun i => bool_decide (two_ASCII_digits !! i =
      Some (48 + Z.of_nat i / 10, 48 + Z.of_nat i mod 10))) (seq 0 100) = true) as H
    by (vm_compute; reflexivity).
  rewrite forallb_forall in H. specialize (H (Z.to_nat d)).
  rewrite in_seq, bool_decide_eq_true in H. specialize (H ltac:(lia)).
  rewrite Z2Nat.id in H by lia. unfold tbl. destruct (Z.leb_spec 0 d); [|lia]. by rewrite H.
Qed.

Abbreviation digits_of := (fixed 10 dec_digit).

(** Behind a text [t], [f u] writes the last [k] digits of [u] and a zero, and returns where
    the zero is. *)
Definition writes (k : nat) (f : Z -> Z -> ST (list Z) Z) : Prop :=
  forall u t (b : list Z), 0 <= u < 10 ^ Z.of_nat k -> u < 2 ^ 32 -> (length t + k < length b)%nat ->
  f u (Z.of_nat (length t)) (list_inserts 0 t b) =
  Ok (Z.of_nat (length t + k), list_inserts 0 (t ++ digits_of k u ++ [0]) b).

Lemma digits_of_2 d : 0 <= d < 100 -> digits_of 2 d = [48 + d / 10; 48 + d mod 10].
Proof.
  intros Hd. cbn. unfold dec_digit. rewrite (Z.mod_small (d / 10)); [done|].
  split; [apply Z.div_pos; lia|apply Z.div_lt_upper_bound; lia].
Qed.

Lemma put_two_spec d t (b : list Z) : 0 <= d < 100 -> (length t + 2 <= length b)%nat ->
  put_two d (Z.of_nat (length t)) (list_inserts 0 t b) =
  Ok (Z.of_nat (length (t ++ digits_of 2 d)), list_inserts 0 (t ++ digits_of 2 d) b).
Proof.
  intros Hd Hb. unfold put_two. rewrite two_digits_table, digits_of_2 by done.
  rewrite (st_bind_ok _ _ _ _ _ eq_refl). cbn [fst snd].
  rewrite (st_bind_ok _ _ _ tt (list_inserts 0 (t ++ [48 + d / 10]) b)) by (apply poke_next; lia).
  rewrite (st_bind_ok _ _ _ tt (list_inserts 0 ((t ++ [48 + d / 10]) ++ [48 + d mod 10]) b)).
  - rewrite <- app_assoc. unfold mret, ST_ret. rewrite length_app. cbn [app length]. do 2 f_equal. lia.
  - apply poke_next; rewrite length_app; cbn [length]; lia.
Qed.

(** What a label leaves of [u]. *)
Lemma u32_remainder u n : 0 <= u < 2 ^ 32 -> 0 < n -> u32 (u - u / n * n) = u mod n.
Proof.
  intros Hu Hn. replace (u - u / n * n) with (u mod n) by (rewrite Z.mod_eq; lia).
  pose proof (Z.mod_pos_bound u n Hn). pose proof (Z.mod_le u n ltac:(lia) Hn).
  apply u32_small. lia.
Qed.

Section Step.
Context (k : nat) (f : Z -> Z -> ST (list Z) Z) (Hf : writes k f).

Abbreviation P := (10 ^ Z.of_nat k).

Lemma step_range u j : 0 <= u < 10 ^ Z.of_nat (j + k) -> 0 <= u / P < 10 ^ Z.of_nat j.
Proof.
  intros Hu. assert (0 < P) by (apply Z.pow_pos_nonneg; lia).
  rewrite Nat2Z.inj_add, Z.pow_add_r, Z.mul_comm in Hu by lia.
  split; [apply Z.div_pos; lia|apply Z.div_lt_upper_bound; lia].
Qed.

Lemma step_rest u t (b : list Z) : 0 <= u < 2 ^ 32 -> (length t + k < length b)%nat ->
  f (u32 (u - u / P * P)) (Z.of_nat (length t)) (list_inserts 0 t b) =
  Ok (Z.of_nat (length t + k), list_inserts 0 (t ++ digits_of k (u mod P) ++ [0]) b).
Proof.
  intros Hu Hb. assert (0 < P) as HP by (apply Z.pow_pos_nonneg; lia).
  rewrite u32_remainder by done. pose proof (Z.mod_pos_bound u P HP).
  pose proof (Z.mod_le u P ltac:(lia) HP). apply Hf; lia.
Qed.

Lemma writes_two u t (b : list Z) : 0 <= u < 10 ^ Z.of_nat (2 + k) -> u < 2 ^ 32 ->
  (length t + (2 + k) < length b)%nat ->
  (buffer ← put_two (u / P) (Z.of_nat (length t)); f (u32 (u - u / P * P)) buffer)
    (list_inserts 0 t b) =
  Ok (Z.of_nat (length t + (2 + k)), list_inserts 0 (t ++ digits_of (2 + k) u ++ [0]) b).
Proof.
  intros Hu Hu' Hb. pose proof (step_range u 2 Hu) as Hr. change (10 ^ Z.of_nat 2) with 100 in Hr.
  rewrite (st_bind_ok _ _ _ _ _ (put_two_spec (u / P) t b Hr ltac:(lia))).
  rewrite step_rest by (rewrite ?length_app, ?fixed_length; lia).
  rewrite fixed_split by lia. rewrite length_app, fixed_length. do 2 f_equal; [lia|].
  by rewrite <- !app_assoc.
Qed.

Lemma writes_one u t (b : list Z) : 0 <= u < 10 ^ Z.of_nat (1 + k) -> u < 2 ^ 32 ->
  (length t + (1 + k) < length b)%nat ->
  (poke (Z.of_nat (length t)) (48 + u / P);; f (u32 (u - u / P * P)) (Z.of_nat (length t) + 1))
    (list_inserts 0 t b) =
  Ok (Z.of_nat (length t + (1 + k)), list_inserts 0 (t ++ digits_of (1 + k) u ++ [0]) b).
Proof.
  intros Hu Hu' Hb. pose proof (step_range u 1 Hu) as Hr. change (10 ^ Z.of_nat 1) with 10 in Hr.
  rewrite (st_bind_ok _ _ _ tt (list_inserts 0 (t ++ [48 + u / P]) b)) by (apply poke_next; lia).
  replace (Z.of_nat (length t) + 1) with (Z.of_nat (length (t ++ [48 + u / P])))
    by (rewrite length_app; cbn [length]; lia).
  rewrite step_rest by (rewrite ?length_app; cbn [length]; lia).
  rewrite fixed_split by lia. rewrite length_app. cbn [length]. do 2 f_equal; [lia|].
  rewrite <- !app_assoc. do 3 f_equal. cbn. unfold dec_digit. by rewrite Z.mod_small by lia.
Qed.
End Step.

Lemma writes_lt100 : writes 2 label_lt100.
Proof.
  intros u t b Hu _ Hb. change (10 ^ Z.of_nat 2) with 100 in Hu. unfold label_lt100, label_done.
  rewrite (st_bind_ok _ _ _ _ _ (put_two_spec u t b Hu ltac:(lia))).
  rewrite (st_bind_ok _ _ _ tt (list_inserts 0 ((t ++ digits_of 2 u) ++ [0]) b)).
  - rewrite <- app_assoc. unfold mret, ST_ret. by rewrite length_app, fixed_length.
  - apply poke_next; rewrite length_app, fixed_length; lia.
Qed.

Lemma writes_lt10_000 : writes 4 label_lt10_000.
Proof. intros u t b. apply (writes_two 2 _ writes_lt100). Qed.
Lemma writes_lt1_000_000 : writes 6 label_lt1_000_000.
Proof. intros u t b. apply (writes_two 4 _ writes_lt10_000). Qed.
Lemma writes_lt100_000_000 : writes 8 label_lt100_000_000.
Proof. intros u t b. apply (writes_two 6 _ writes_lt1_000_000). Qed.

(** The whole printer. *)
Lemma FastUInt32ToBufferLeft_spec u t (b : list Z) : 0 <= u < 2 ^ 32 ->
  (length t + 10 < length b)%nat ->
  FastUInt32ToBufferLeft u (Z.of_nat (length t)) (list_inserts 0 t b) =
  Ok (Z.of_nat (length (t ++ decimal 20 u)), list_inserts 0 (t ++ decimal 20 u ++ [0]) b).
Proof.
  intros Hu Hb.
  assert (forall k, 10 ^ (Z.of_nat k - 1) <= u < 10 ^ Z.of_nat k -> (0 < k <= 10)%nat ->
    decimal 20 u = digits_of k u /\ length (t ++ digits_of k u) = (length t + k)%nat) as Hd.
  { intros k Hk Hk'. rewrite (decimal_more k 20) by lia. rewrite length_app, fixed_length.
    split; [|done]. apply fixed_decimal; [done|lia]. }
  unfold FastUInt32ToBufferLeft. cbv zeta.
  destruct (Z.leb_spec 1000000000 u).
  { destruct (Hd 10%nat) as [-> ->]; [simpl; lia|lia|].
    apply (writes_two 8 _ writes_lt100_000_000); simpl; lia. }
  destruct (Z.ltb_spec u 100).
  { destruct (Z.leb_spec 10 u).
    - destruct (Hd 2%nat) as [-> ->]; [simpl; lia|lia|]. apply writes_lt100; simpl; lia.
    - assert (decimal 20 u = [48 + u]) as ->.
      { rewrite (decimal_more 1 20) by (simpl; lia). cbn. destruct (Z.ltb_spec u 10); [|lia].
        unfold dec_digit. by rewrite Z.mod_small by lia. }
      rewrite (st_bind_ok _ _ _ tt (list_inserts 0 (t ++ [48 + u]) b)) by (apply poke_next; lia).
      unfold label_done. rewrite length_app. cbn [length].
      rewrite (st_bind_ok _ _ _ tt (list_inserts 0 ((t ++ [48 + u]) ++ [0]) b)).
      + rewrite <- app_assoc. unfold mret, ST_ret. do 2 f_equal. lia.
      + apply poke_next; rewrite ?length_app; cbn [length]; lia. }
  destruct (Z.ltb_spec u 10000).
  { destruct (Z.leb_spec 1000 u).
    - destruct (Hd 4%nat) as [-> ->]; [simpl; lia|lia|]. apply writes_lt10_000; simpl; lia.
    - destruct (Hd 3%nat) as [-> ->]; [simpl; lia|lia|]. apply (writes_one 2 _ writes_lt100); simpl; lia. }
  destruct (Z.ltb_spec u 1000000).
  { destruct (Z.leb_spec 100000 u).
    - destruct (Hd 6%nat) as [-> ->]; [simpl; lia|lia|]. apply writes_lt1_000_000; simpl; lia.
    - destruct (Hd 5%nat) as [-> ->]; [simpl; lia|lia|].
      apply (writes_one 4 _ writes_lt10_000); simpl; lia. }
  destruct (Z.ltb_spec u 100000000).
  { destruct (Z.leb_spec 10000000 u).
    - destruct (Hd 8%nat) as [-> ->]; [simpl; lia|lia|]. apply writes_lt100_000_000; simpl; lia.
    - destruct (Hd 7%nat) as [-> ->]; [simpl; lia|lia|].
      apply (writes_one 6 _ writes_lt1_000_000); simpl; lia. }
  destruct (Hd 9%nat) as [-> ->]; [simpl; lia|lia|].
  apply (writes_one 8 _ writes_lt100_000_000); simpl; lia.
Qed.

Lemma writes_last : writes 1 (fun u buffer => put_pairs [] u buffer).
Proof.
  intros u t b Hu _ Hb. change (10 ^ Z.of_nat 1) with 10 in Hu. cbn [put_pairs].
  rewrite (st_bind_ok _ _ _ tt (list_inserts 0 (t ++ [48 + u]) b)) by (apply poke_next; lia).
  rewrite (st_bind_ok _ _ _ tt (list_inserts 0 ((t ++ [48 + u]) ++ [0]) b)).
  - rewrite <- app_assoc. cbn [fixed app]. unfold dec_digit. rewrite Z.mod_small by lia.
    unfold mret, ST_ret. do 2 f_equal. lia.
  - apply poke_next; rewrite length_app; cbn [length]; lia.
Qed.

Lemma writes_pairs : writes 9 (put_pairs [10000000; 100000; 1000; 10]).
Proof.
  assert (writes 3 (put_pairs [10])) as H3 by (intros u t b; apply (writes_two 1 _ writes_last)).
  assert (writes 5 (put_pairs [1000; 10])) as H5 by (intros u t b; apply (writes_two 3 _ H3)).
  assert (writes 7 (put_pairs [100000; 1000; 10])) as H7 by (intros u t b; apply (writes_two 5 _ H5)).
  intros u t b. apply (writes_two 7 _ H7).
Qed.

Lemma FastUInt64ToBufferLeft_spec fuel : forall u t (b : list Z),
  0 <= u < 2 ^ 32 * 10 ^ (9 * Z.of_nat fuel) -> u < 2 ^ 64 -> (length t + 20 < length b)%nat ->
  FastUInt64ToBufferLeft (S fuel) u (Z.of_nat (length t)) (list_inserts 0 t b) =
  Ok (Z.of_nat (length (t ++ decimal 20 u)), list_inserts 0 (t ++ decimal 20 u ++ [0]) b).
Proof.
  induction fuel as [|fuel IH]; intros u t b Hu Hu' Hb; cbn [FastUInt64ToBufferLeft].
  { change (10 ^ (9 * Z.of_nat 0)) with 1 in Hu.
    rewrite u32_small, Z.eqb_refl by lia. apply FastUInt32ToBufferLeft_spec; lia. }
  pose proof (Z.mod_pos_bound u (2 ^ 32) ltac:(lia)) as Hm.
  destruct (Z.eqb_spec (u32 u) u) as [E|N].
  { rewrite E. apply FastUInt32ToBufferLeft_spec; [|lia]. rewrite <- E. exact Hm. }
  assert (2 ^ 32 <= u) as Hge.
  { destruct (Z.le_gt_cases (2 ^ 32) u); [done|]. destruct N. apply u32_small. lia. }
  assert (10 ^ (9 * Z.of_nat (S fuel)) = 1000000000 * 10 ^ (9 * Z.of_nat fuel)) as Ep.
  { rewrite <- (Z.pow_add_r 10 9) by lia. f_equal. lia. }
  set (top := u / 1000000000).
  assert (0 <= top < 2 ^ 32 * 10 ^ (9 * Z.of_nat fuel)) as Ht.
  { split; [apply Z.div_pos; lia|]. apply Z.div_lt_upper_bound; lia. }
  assert (top <= u) by (apply Z.div_le_upper_bound; lia).
  rewrite (st_bind_ok _ _ _ _ _ (IH top t b Ht ltac:(lia) Hb)).
  pose proof (decimal_app 11 9 u ltac:(change (10 ^ Z.of_nat 9) with 1000000000; lia)) as Ed.
  change (11 + 9)%nat with 20%nat in Ed. change (10 ^ Z.of_nat 9) with 1000000000 in Ed. fold top in Ed.
  assert (top < 10 ^ Z.of_nat 11) as Htop by (apply Z.div_lt_upper_bound; simpl; lia).
  rewrite <- (decimal_more 11 20) in Ed by lia.
  assert (u32 (u - top * 1000000000) = u mod 1000000000) as ->.
  { pose proof (Z.mod_pos_bound u 1000000000 ltac:(lia)).
    replace (u - top * 1000000000) with (u mod 1000000000) by (unfold top; rewrite Z.mod_eq; lia).
    apply u32_small. lia. }
  pose proof (decimal_length 20 u) as Hl. rewrite Ed, length_app, fixed_length in Hl.
  set (t' := t ++ decimal 20 top). 
  assert (length t' + 9 < length b)%nat as Hb' by (unfold t'; rewrite length_app; lia).
  replace (t ++ decimal 20 top ++ [0]) with (t' ++ [0]) by (unfold t'; by rewrite <- app_assoc).
  assert (list_inserts 0 (t' ++ [0]) b = list_inserts 0 t' (<[length t' := 0]> b)) as ->.
  { rewrite <- inserts_snoc. by rewrite inserts_away by lia. }
  pose proof (Z.mod_pos_bound u 1000000000 ltac:(lia)).
  rewrite writes_pairs by (rewrite ?length_insert; simpl; lia).
  rewrite Ed, inserts_over by (rewrite !length_app, fixed_length; cbn [length]; lia).
  unfold t'. rewrite !app_assoc, !length_app, fixed_length. done.
Qed.

(** * Hexadecimal *)

Lemma hexdigits_table d : 0 <= d < 16 -> tbl hexdigits d = Ok (hex_digit d).
Proof.
  intros Hd.
  assert (forallb (fun i => bool_decide (hexdigits !! i = Some (hex_digit (Z.of_nat i)))) (seq 0 16) = true)
    as H by (vm_compute; reflexivity).
  rewrite forallb_forall in H. specialize (H (Z.to_nat d)).
  rewrite in_seq, bool_decide_eq_true in H. specialize (H ltac:(lia)).
  rewrite Z2Nat.id in H by lia. unfold tbl. destruct (Z.leb_spec 0 d); [|lia]. by rewrite H.
Qed.

Lemma hex_loop_spec n : forall value t (b : list Z), (n <= length b)%nat -> 
  hex_loop n value (list_inserts n t b) = Ok (tt, list_inserts 0 (fixed 16 hex_digit n value ++ t) b).
Proof.
  induction n as [|n IH]; intros value t b Hb; [done|]. cbn [hex_loop fixed].
  assert (Z.land (u32 value) 15 = value mod 16) as ->.
  { change 15 with (Z.ones 4). change 16 with (2 ^ 4). rewrite Z.land_ones by lia.
    unfold uwrap. rewrite Z.mod_mod_divide; [done|]. by exists (2 ^ 28). }
  rewrite hexdigits_table by (apply Z.mod_pos_bound; lia). rewrite (st_bind_ok _ _ _ _ _ eq_refl).
  rewrite (st_bind_ok _ _ _ _ _ (poke_front b n _ t ltac:(lia))).
  rewrite Z.shiftr_div_pow2 by lia. change (2 ^ 4) with 16.
  rewrite IH by lia. by rewrite <- app_assoc.
Qed.

Lemma InternalFastHexToBuffer_spec value (n : nat) (b : list Z) : (n < length b)%nat ->
  InternalFastHexToBuffer value (Z.of_nat n) b =
  Ok (0, list_inserts 0 (fixed 16 hex_digit n value ++ [0]) b).
Proof.
  intros Hb. unfold InternalFastHexToBuffer.
  rewrite (st_bind_ok _ _ _ _ _ (poke_front b n 0 [] Hb)), Nat2Z.id.
  by rewrite (st_bind_ok _ _ _ _ _ (hex_loop_spec n value [0] b ltac:(lia))).
Qed.

(** * [SimpleItoa] *)

Lemma fixed_hex_chars k n : Forall (fun c => is_dec c \/ 97 <= c <= 102) (fixed 16 hex_digit k n).
Proof.
  revert n. induction k as [|k IH]; intros n; [constructor|]. cbn. apply Forall_app. split; [apply IH|].
  constructor; [|constructor]. pose proof (Z.mod_pos_bound n 16 ltac:(lia)).
  unfold is_dec, hex_digit. destruct (Z.ltb_spec (n mod 16) 10); lia.
Qed.

Section Texts.
Context (junk : list Z).

Lemma fast_buffer_length : length (fresh_buffer junk kFastToBufferSize) = 32%nat.
Proof. by rewrite fresh_buffer_length. Qed.

Lemma with_buffer_right w offset d i : int_buffer w offset d -> offset < 32 ->
  - 2 ^ (w - 1) <= i < 2 ^ (w - 1) ->
  with_buffer junk (FastIntToBuffer w offset i) = Ok (int_text i).
Proof.
  intros Hib Ho Hi. unfold with_buffer.
  destruct (FastIntToBuffer_spec w offset d Hib i (fresh_buffer junk kFastToBufferSize) Hi) as (p & E & Hp).
  { rewrite fast_buffer_length. lia. }
  rewrite (res_bind_ok _ _ _ E). apply c_string_inserts.
  - eapply Forall_impl; [apply int_text_chars|]. unfold is_dec. simpl. lia.
  - rewrite fast_buffer_length. pose proof (ib_offset _ _ _ Hib). lia.
Qed.

Lemma with_buffer_left_spec f u : 0 <= u ->
  (forall b, length b = 32%nat -> f b = Ok (Z.of_nat (length (decimal 20 u)), list_inserts 0 (decimal 20 u ++ [0]) b)) ->
  with_buffer_left junk f = Ok (int_text u).
Proof.
  intros Hu Hf. unfold with_buffer_left. rewrite (res_bind_ok _ _ _ (Hf _ fast_buffer_length)).
  unfold int_text. destruct (Z.ltb_spec u 0); [lia|]. apply string_range_inserts.
  rewrite fast_buffer_length, length_app. pose proof (decimal_length 20 u). cbn [length]. lia.
Qed.

Lemma SimpleItoa_int_spec i : - 2 ^ 31 <= i < 2 ^ 31 -> SimpleItoa_int junk i = Ok (int_text i).
Proof. by apply (with_buffer_right _ _ _ _ int_buffer_32). Qed.
Lemma SimpleItoa_long_long_spec i : - 2 ^ 63 <= i < 2 ^ 63 -> SimpleItoa_long_long junk i = Ok (int_text i).
Proof. by apply (with_buffer_right _ _ _ _ int_buffer_64). Qed.
Lemma SimpleItoa_unsigned_int_spec u : 0 <= u < 2 ^ 32 -> SimpleItoa_unsigned_int junk u = Ok (int_text u).
Proof.
  intros Hu. apply with_buffer_left_spec; [lia|]. intros b Hb.
  apply (FastUInt32ToBufferLeft_spec u [] b); [done|]. rewrite Hb. simpl. lia.
Qed.
Lemma SimpleItoa_unsigned_long_long_spec u : 0 <= u < 2 ^ 64 ->
  SimpleItoa_unsigned_long_long junk u = Ok (int_text u).
Proof.
  intros Hu. apply with_buffer_left_spec; [lia|]. intros b Hb.
  apply (FastUInt64ToBufferLeft_spec 2 u [] b); [simpl; lia|lia|]. rewrite Hb. simpl. lia.
Qed.

Lemma FastHexToBuffer_text value (n : nat) : (n < 32)%nat ->
  with_buffer junk (InternalFastHexToBuffer value (Z.of_nat n)) = Ok (fixed 16 hex_digit n value).
Proof.
  intros Hn. unfold with_buffer.
  rewrite (res_bind_ok _ _ _ (InternalFastHexToBuffer_spec value n (fresh_buffer junk kFastToBufferSize)
    ltac:(rewrite fast_buffer_length; lia))).
  apply (c_string_inserts _ 0).
  - eapply Forall_impl; [apply fixed_hex_chars|]. unfold is_dec. simpl. lia.
  - rewrite fast_buffer_length, fixed_length. lia.
Qed.
End Texts.
