(* ===== verification/Escape.v ===== *)
(** C escapes (google/protobuf/stubs/strutil.cc): [CEscapeInternal] and its callers, and
    [UnescapeCEscapeSequences]. *)

From S2P Require Import Prelude StrUtil Numerals.

(** * Characters *)

(** The two functions that the file defines in place of the macros of ctype.h: an argument is a
    [char], so that it is below zero for bytes above 127. *)
Definition isxdigit (c : Z) : bool :=
  ((48 <=? c) && (c <=? 57)) || ((97 <=? c) && (c <=? 102)) || ((65 <=? c) && (c <=? 70)).
Definition isprint (c : Z) : bool := (0x20 <=? c) && (c <=? 0x7E).

(** * Escaping *)

Fixpoint poke_all (p : Z) (text : list Z) : ST (list Z) unit :=
  match text with
  | [] => mret tt
  | c :: text => poke p c;; poke_all (p + 1) text
  end.

(** [sprintf] writes the text and a zero. *)
Definition sprintf (p : Z) (text : list Z) : ST (list Z) unit := poke_all p (text ++ [0]).

(** The formats [\\x%02x] and [\\%03o]. *)
Definition hex_escape (c : Z) : list Z := [92; 120; hex_digit (c / 16); hex_digit (c mod 16)].
Definition octal_escape (c : Z) : list Z := [92; 48 + c / 64; 48 + c / 8 mod 8; 48 + c mod 8].

(** The cases of the [switch]: the letter behind the backslash. *)
Definition two_letter (c : Z) : option Z :=
  if c =? 10 then Some 110
  else if c =? 13 then Some 114
  else if c =? 9 then Some 116
  else if (c =? 34) || (c =? 39) || (c =? 92) then Some c
  else None.

(** [(!utf8_safe || static_cast<uint8>( *src) < 0x80) && (!isprint( *src) || (last_hex_escape &&
    isxdigit( *src)))] *)
Definition must_escape (utf8_safe last_hex_escape : bool) (c : Z) : bool :=
  (negb utf8_safe || (c <? 0x80)) && (negb (isprint (s8 c)) || last_hex_escape && isxdigit (s8 c)).

(** The loop; [None] is the result -1. *)
Fixpoint cescape_loop (dest_len : Z) (use_hex utf8_safe : bool) (src : list Z) (used : Z)
    (last_hex_escape : bool) : ST (list Z) (option Z) :=
  match src with
  | [] => mret (Some used)
  | c :: src =>
      if dest_len - used <? 2 then mret None
      else
        match two_letter c with
        | Some l =>
            poke used 92;;
            poke (used + 1) l;;
            cescape_loop dest_len use_hex utf8_safe src (used + 2) false
        | None =>
            if must_escape utf8_safe last_hex_escape c then
              if dest_len - used <? 4 then mret None
              else
                sprintf used (if use_hex then hex_escape c else octal_escape c);;
                cescape_loop dest_len use_hex utf8_safe src (used + 4) use_hex
            else
              poke used c;;
              cescape_loop dest_len use_hex utf8_safe src (used + 1) false
        end
  end.

(** The state is the array [dest]. *)
Definition CEscapeInternal (src : list Z) (dest_len : Z) (use_hex utf8_safe : bool)
    : ST (list Z) (option Z) :=
  r ← cescape_loop dest_len use_hex utf8_safe src 0 false;
  match r with
  | None => mret None
  | Some used => if dest_len - used <? 1 then mret None else poke used 0;; mret (Some used)
  end.

Definition CEscapeString (src : list Z) (dest_len : Z) : ST (list Z) (option Z) :=
  CEscapeInternal src dest_len false false.

Section Strings.
Context (junk : list Z).

(** The body of the three functions; a result below zero fails their assert. *)
Definition escape_to_string (use_hex utf8_safe : bool) (src : list Z) : result (list Z) :=
  let dest_length := s32 (Z.of_nat (length src) * 4 + 1) in
  r ← CEscapeInternal src dest_length use_hex utf8_safe (fresh_buffer junk dest_length);
  match r with
  | (Some len, dest) => string_range dest 0 len
  | (None, _) => Fault AssertFailed
  end.

Definition CEscape (src : list Z) : result (list Z) := escape_to_string false false src.
Definition Utf8SafeCEscape (src : list Z) : result (list Z) := escape_to_string false true src.
Definition CHexEscape (src : list Z) : result (list Z) := escape_to_string true false src.
End Strings.

(** * Unescaping *)

Definition IS_OCTAL_DIGIT (c : Z) : bool := (48 <=? c) && (c <=? 55).

Definition hex_digit_to_int (c : Z) : Z := Z.land (if 57 <? c then c + 9 else c) 0xf.

(** The letters of one character. *)
Definition simple_escape (e : Z) : option Z :=
  if e =? 97 then Some 7
  else if e =? 98 then Some 8
  else if e =? 102 then Some 12
  else if e =? 110 then Some 10
  else if e =? 114 then Some 13
  else if e =? 116 then Some 9
  else if e =? 118 then Some 11
  else if (e =? 92) || (e =? 63) || (e =? 39) || (e =? 34) then Some e
  else None.

(** [if ( IS_OCTAL_DIGIT(p\[1\]) ) ch = ch * 8 + *++p - '0'], on the rest of the text. *)
Definition octal_step (x : Z * list Z) : Z * list Z :=
  match x with
  | (ch, c :: p) => if IS_OCTAL_DIGIT c then (u8 (ch * 8 + c - 48), p) else x
  | _ => x
  end.

(** [while (isxdigit(p\[1\])) ch = (ch << 4) + hex_digit_to_int( *++p)]: the end of the text is
    no digit. *)
Fixpoint read_hex (ch : Z) (p : list Z) : Z * list Z :=
  match p with
  | [] => (ch, [])
  | c :: p' =>
      if isxdigit (s8 c) then read_hex (u32 (u32 (Z.shiftl ch 4) + hex_digit_to_int c)) p' else (ch, p)
  end.

(** The text behind [source] up to its zero, into the array [dest], another one: one round
    for every character or escape.  The result is the length. *)
Fixpoint unescape_loop (fuel : nat) (p : list Z) (d : Z) : ST (list Z) Z :=
  match fuel with
  | O => st_fault OutOfFuel
  | S fuel =>
      match p with
      | [] => poke d 0;; mret d
      | c :: p =>
          if negb (c =? 92) then poke d c;; unescape_loop fuel p (d + 1)
          else
            match p with
            | [] => poke d 0;; mret d
            | e :: p =>
                match simple_escape e with
                | Some v => poke d v;; unescape_loop fuel p (d + 1)
                | None =>
                    if IS_OCTAL_DIGIT e then
                      let '(ch, p) := octal_step (octal_step (e - 48, p)) in
                      poke d ch;; unescape_loop fuel p (d + 1)
                    else if (e =? 120) || (e =? 88) then
                      if match p with [] => false | c :: _ => isxdigit (s8 c) end then
                        let '(ch, p) := read_hex 0 p in
                        poke d (u8 ch);; unescape_loop fuel p (d + 1)
                      else unescape_loop fuel p d
                    else unescape_loop fuel p d
                end
            end
      end
  end.

Definition UnescapeCEscapeSequences (source : list Z) : ST (list Z) Z :=
  unescape_loop (S (length source)) source 0.

(** [src.c_str()] ends at the first zero. *)
Definition UnescapeCEscapeString (junk src : list Z) : result (list Z) :=
  source ← c_string (src ++ [0]) 0;
  r ← UnescapeCEscapeSequences source (fresh_buffer junk (Z.of_nat (length src) + 1));
  let '(len, unescaped) := r in string_range unescaped 0 len.
