(* ===== verification/EscapeProofs.v ===== *)
(** The escape functions against [escaped], the text as a function of the characters, and the
    round trip. *)

From S2P Require Import Prelude StrUtil Numerals Escape.

(** * The text *)

Definition four_letter (use_hex : bool) (c : Z) : list Z :=
  if use_hex then hex_escape c else octal_escape c.

(** [last]: the character before was given in hexadecimal. *)
Fixpoint escaped (use_hex utf8_safe last : bool) (src : list Z) : list Z :=
  match src with
  | [] => []
  | c :: src =>
      match two_letter c with
      | Some l => 92 :: l :: escaped use_hex utf8_safe false src
      | None =>
          if must_escape utf8_safe last c then four_letter use_hex c ++ escaped use_hex utf8_safe use_hex src
          else c :: escaped use_hex utf8_safe false src
      end
  end.

Lemma four_letter_length use_hex c : length (four_letter use_hex c) = 4%nat.
Proof. by destruct use_hex. Qed.

Lemma escaped_length use_hex utf8_safe last src :
  (length src <= length (escaped use_hex utf8_safe last src) <= 4 * length src)%nat.
Proof.
  revert last. induction src as [|c src IH]; intros last; cbn [escaped]; [cbn; lia|].
  destruct (two_letter c); [|destruct (must_escape utf8_safe last c)]; cbn; rewrite ?length_app, ?four_letter_length.
  - specialize (IH false). lia.
  - specialize (IH use_hex). lia.
  - specialize (IH false). lia.
Qed.

(** The bytes of a text, case by case. *)
Lemma byte_cases (P : Z -> bool) : forallb (fun n => P (Z.of_nat n)) (seq 0 256) = true ->
  forall c, is_byte c -> P c = true.
Proof.
  intros H c Hc. rewrite forallb_forall in H. unfold is_byte in Hc.
  replace c with (Z.of_nat (Z.to_nat c)) by lia. apply H, in_seq. lia.
Qed.

Definition print_char (c : Z) : bool := (32 <=? c) && (c <=? 126).

Lemma two_letter_print c l : two_letter c = Some l -> print_char l = true.
Proof.
  unfold two_letter. destruct (c =? 10); [by intros [= <-]|]. destruct (c =? 13); [by intros [= <-]|].
  destruct (c =? 9); [by intros [= <-]|].
  destruct (Z.eqb_spec c 34) as [->|]; [by intros [= <-]|].
  destruct (Z.eqb_spec c 39) as [->|]; [by intros [= <-]|].
  by destruct (Z.eqb_spec c 92) as [->|]; [intros [= <-]|].
Qed.

Lemma four_letter_print use_hex c : is_byte c -> forallb print_char (four_letter use_hex c) = true.
Proof.
  destruct use_hex; [apply (byte_cases (fun c => forallb print_char (four_letter true c)))
                    |apply (byte_cases (fun c => forallb print_char (four_letter false c)))];
    by vm_compute.
Qed.

(** Everything that is written can be printed, a double quote only behind a backslash. *)
Lemma escaped_print use_hex last src : Forall is_byte src ->
  Forall (fun c => print_char c = true) (escaped use_hex false last src).
Proof.
  intros H. revert last. induction H as [|c src Hc _ IH]; intros last; cbn [escaped]; [constructor|].
  destruct (two_letter c) as [l|] eqn:E.
  - constructor; [done|]. constructor; [by eapply two_letter_print|apply IH].
  - destruct (must_escape false last c) eqn:Em.
    + apply Forall_app. split; [|apply IH]. apply Forall_forall. intros x Hx.
      pose proof (four_letter_print use_hex c Hc) as Hf. rewrite forallb_forall in Hf.
      by apply Hf, list_elem_of_In.
    + constructor; [|apply IH]. unfold must_escape in Em. cbn [negb orb andb] in Em.
      apply orb_false_iff in Em as [Em _]. apply negb_false_iff in Em.
      assert (implb (isprint (s8 c)) (print_char c) = true) as Hi.
      { clear E Em. revert c Hc.
        by apply (byte_cases (fun c => implb (isprint (s8 c)) (print_char c))); vm_compute. }
      by rewrite Em in Hi.
Qed.

(** * Escaping *)

Lemma poke_all_spec text t (b : list Z) q : (length t + length text <= length b)%nat ->
  q = Z.of_nat (length t) ->
  poke_all q text (list_inserts 0 t b) = Ok (tt, list_inserts 0 (t ++ text) b).
Proof.
  revert t q. induction text as [|c text IH]; intros t q Hb ->; cbn [poke_all length] in *; [by rewrite app_nil_r|].
  rewrite (st_bind_ok _ _ _ tt (list_inserts 0 (t ++ [c]) b)) by (apply poke_back; [cbn; lia|done]).
  rewrite IH; [by rewrite <- app_assoc|rewrite length_app; cbn; lia|rewrite length_app; cbn; lia].
Qed.

(** A zero behind the text is in the buffer, not in the text. *)
Lemma inserts_zero t (b : list Z) : (length t < length b)%nat ->
  exists b', length b' = length b /\ list_inserts 0 (t ++ [0]) b = list_inserts 0 t b'.
Proof.
  intros Hb. exists (<[length t := 0]> b). rewrite length_insert. split; [done|].
  rewrite <- inserts_snoc. by rewrite inserts_away by lia.
Qed.

(** A text that is one character too long for the zero. *)
Lemma sprintf_over text t (b : list Z) q : (length t + length text = length b)%nat ->
  q = Z.of_nat (length t) ->
  sprintf q text (list_inserts 0 t b) = Fault (OutOfBounds (Z.of_nat (length b))).
Proof.
  unfold sprintf. revert t q. induction text as [|c text IH]; intros t q Hb ->; cbn [app poke_all length] in *.
  - apply st_bind_fault. unfold poke. rewrite length_inserts.
    destruct (Z.leb_spec 0 (Z.of_nat (length t))); [|lia].
    destruct (Z.ltb_spec (Z.of_nat (length t)) (Z.of_nat (length b))); [lia|]. cbn [andb]. do 2 f_equal. lia.
  - rewrite (st_bind_ok _ _ _ tt (list_inserts 0 (t ++ [c]) b)) by (apply poke_back; [cbn; lia|done]).
    apply IH; rewrite length_app; cbn; lia.
Qed.

(** With [room] characters left: one that is given with four letters meets exactly four. *)
Fixpoint overrun (use_hex utf8_safe last : bool) (room : Z) (src : list Z) : bool :=
  match src with
  | [] => false
  | c :: src =>
      match two_letter c with
      | Some _ => overrun use_hex utf8_safe false (room - 2) src
      | None =>
          if must_escape utf8_safe last c then (room =? 4) || overrun use_hex utf8_safe use_hex (room - 4) src
          else overrun use_hex utf8_safe false (room - 1) src
      end
  end.

Lemma overrun_small use_hex utf8_safe src : forall last room, room < 4 ->
  overrun use_hex utf8_safe last room src = false.
Proof.
  induction src as [|c src IH]; intros last room Hr; cbn [overrun]; [done|].
  destruct (two_letter c); [apply IH; lia|]. destruct (must_escape _ _ _); [|apply IH; lia].
  destruct (Z.eqb_spec room 4); [lia|]. apply IH. lia.
Qed.

(** What becomes of the array [b] that holds [t] when [e] is to be added. *)
Definition outcome (over : bool) (t e b : list Z) (run : result (option Z * list Z)) : Prop :=
  let n := Z.of_nat (length b) in
  if over then run = Fault (OutOfBounds n)
  else if Z.of_nat (length (t ++ e)) <? n then
    exists b', length b' = length b /\
      run = Ok (Some (Z.of_nat (length (t ++ e))), list_inserts 0 (t ++ e) b')
  else exists o b', length b' = length b /\ run = Ok (o, b') /\ (o = None \/ o = Some n).

Lemma outcome_none over t e (b : list Z) : over = false -> (length b <= length (t ++ e))%nat ->
  outcome over t e b (Ok (None, list_inserts 0 t b)).
Proof.
  intros -> Hl. unfold outcome. destruct (Z.ltb_spec (Z.of_nat (length (t ++ e))) (Z.of_nat (length b))); [lia|].
  exists None, (list_inserts 0 t b). rewrite length_inserts. by repeat split; try left.
Qed.

Lemma outcome_more over t u e (b b1 : list Z) run : length b1 = length b ->
  outcome over (t ++ u) e b1 run -> outcome over t (u ++ e) b run.
Proof. intros Hb. unfold outcome. by rewrite <- app_assoc, Hb. Qed.

Lemma cescape_loop_spec use_hex utf8_safe src : forall last t (b : list Z), (length t <= length b)%nat ->
  outcome (overrun use_hex utf8_safe last (Z.of_nat (length b) - Z.of_nat (length t)) src)
    t (escaped use_hex utf8_safe last src) b
    (cescape_loop (Z.of_nat (length b)) use_hex utf8_safe src (Z.of_nat (length t)) last (list_inserts 0 t b)).
Proof.
  induction src as [|c src IH]; intros last t b Ht; cbn [cescape_loop escaped overrun].
  { unfold outcome. rewrite app_nil_r. destruct (Z.ltb_spec (Z.of_nat (length t)) (Z.of_nat (length b))).
    - by exists b.
    - exists (Some (Z.of_nat (length t))), (list_inserts 0 t b). rewrite length_inserts.
      repeat split. right. f_equal. lia. }
  assert (forall last' u (b1 : list Z), length b1 = length b -> (length t + length u <= length b)%nat ->
    outcome (overrun use_hex utf8_safe last' (Z.of_nat (length b) - Z.of_nat (length t) - Z.of_nat (length u)) src)
      t (u ++ escaped use_hex utf8_safe last' src) b
      (cescape_loop (Z.of_nat (length b)) use_hex utf8_safe src (Z.of_nat (length t) + Z.of_nat (length u)) last'
        (list_inserts 0 (t ++ u) b1))) as Hnext.
  { intros last' u b1 E1 Hu. apply (outcome_more _ _ _ _ _ b1); [done|].
    pose proof (IH last' (t ++ u) b1) as H'. rewrite E1, length_app, Nat2Z.inj_add, Z.sub_add_distr in H'. apply H'. lia. }
  clear IH. destruct (Z.ltb_spec (Z.of_nat (length b) - Z.of_nat (length t)) 2).
  { apply outcome_none.
    - destruct (two_letter c); [apply overrun_small; lia|]. destruct (must_escape _ _ _); [|apply overrun_small; lia].
      destruct (Z.eqb_spec (Z.of_nat (length b) - Z.of_nat (length t)) 4); [lia|]. apply overrun_small. lia.
    - rewrite length_app. destruct (two_letter c); [cbn; lia|].
      destruct (must_escape _ _ _); [rewrite length_app, four_letter_length|cbn]; lia. }
  destruct (two_letter c) as [l|].
  - rewrite (st_bind_ok _ _ _ tt (list_inserts 0 (t ++ [92]) b)) by (apply poke_next; lia).
    rewrite (st_bind_ok _ _ _ tt (list_inserts 0 ((t ++ [92]) ++ [l]) b))
      by (apply poke_next; rewrite length_app; cbn; lia).
    rewrite <- app_assoc. apply (Hnext false [92; l] b); [done|cbn; lia].
  - destruct (must_escape utf8_safe last c).
    + pose proof (four_letter_length use_hex c) as H4. change (if use_hex then _ else _) with (four_letter use_hex c).
      destruct (Z.ltb_spec (Z.of_nat (length b) - Z.of_nat (length t)) 4).
      { apply outcome_none; [|rewrite !length_app; lia].
        destruct (Z.eqb_spec (Z.of_nat (length b) - Z.of_nat (length t)) 4); [lia|]. apply overrun_small. lia. }
      destruct (Z.eqb_spec (Z.of_nat (length b) - Z.of_nat (length t)) 4); cbn [orb].
      { unfold outcome. apply st_bind_fault, sprintf_over; lia. }
      destruct (inserts_zero (t ++ four_letter use_hex c) b) as (b1 & E1 & H1); [rewrite length_app; lia|].
      unfold sprintf. rewrite (st_bind_ok _ _ _ tt (list_inserts 0 (t ++ four_letter use_hex c) b1)).
      2:{ rewrite poke_all_spec, app_assoc by (rewrite ?length_app; cbn [length]; lia). by rewrite H1. }
      pose proof (Hnext use_hex (four_letter use_hex c) b1 E1 ltac:(lia)) as H'. by rewrite H4 in H'.
    + rewrite (st_bind_ok _ _ _ tt (list_inserts 0 (t ++ [c]) b)) by (apply poke_next; lia).
      apply (Hnext false [c] b); [done|cbn; lia].
Qed.

(** The whole function on any array. *)
Lemma CEscapeInternal_spec use_hex utf8_safe src (b : list Z) :
  let n := Z.of_nat (length b) in
  let t := escaped use_hex utf8_safe false src in
  if overrun use_hex utf8_safe false n src then
    CEscapeInternal src n use_hex utf8_safe b = Fault (OutOfBounds n)
  else if Z.of_nat (length t) <? n then
    exists b', length b' = length b /\ CEscapeInternal src n use_hex utf8_safe b =
      Ok (Some (Z.of_nat (length t)), list_inserts 0 (t ++ [0]) b')
  else exists b', length b' = length b /\ CEscapeInternal src n use_hex utf8_safe b = Ok (None, b').
Proof.
  intros n t. pose proof (cescape_loop_spec use_hex utf8_safe src false [] b ltac:(cbn; lia)) as H.
  cbn [length app list_inserts] in H. unfold outcome in H. cbn [app] in H. change (Z.of_nat 0) with 0 in H.
  rewrite Z.sub_0_r in H. fold n t in H. unfold CEscapeInternal.
  destruct (overrun _ _ _ _ _); [by apply st_bind_fault|]. destruct (Z.ltb_spec (Z.of_nat (length t)) n).
  - destruct H as (b' & E' & H). exists b'. split; [done|]. rewrite (st_bind_ok _ _ _ _ _ H).
    destruct (Z.ltb_spec (n - Z.of_nat (length t)) 1); [lia|].
    by rewrite (st_bind_ok _ _ _ tt (list_inserts 0 (t ++ [0]) b')) by (apply poke_next; lia).
  - destruct H as (o & b' & E' & H & Ho). exists b'. split; [done|]. rewrite (st_bind_ok _ _ _ _ _ H).
    destruct Ho as [->| ->]; [done|]. by rewrite Z.sub_diag.
Qed.

(** Four characters for each and one for the zero are always enough. *)
Lemma overrun_room use_hex utf8_safe src : forall last room, 4 * Z.of_nat (length src) < room ->
  overrun use_hex utf8_safe last room src = false.
Proof.
  induction src as [|c src IH]; intros last room Hr; cbn [overrun length] in *; [done|].
  destruct (two_letter c); [apply IH; lia|]. destruct (must_escape _ _ _); [|apply IH; lia].
  destruct (Z.eqb_spec room 4); [lia|]. apply IH. lia.
Qed.

(** The three functions compute the text. *)
Lemma escape_to_string_spec junk use_hex utf8_safe src : Z.of_nat (length src) < 2 ^ 28 ->
  escape_to_string junk use_hex utf8_safe src = Ok (escaped use_hex utf8_safe false src).
Proof.
  intros Hl. unfold escape_to_string. rewrite s32_small by lia.
  set (n := Z.of_nat (length src) * 4 + 1).
  pose proof (fresh_buffer_length junk n ltac:(lia)) as Hb. set (b := fresh_buffer junk n) in *.
  pose proof (escaped_length use_hex utf8_safe false src) as He.
  pose proof (CEscapeInternal_spec use_hex utf8_safe src b) as H. cbv zeta in H.
  rewrite overrun_room in H by lia. replace (Z.of_nat (length b)) with n in H by lia.
  set (t := escaped use_hex utf8_safe false src) in *.
  destruct (Z.ltb_spec (Z.of_nat (length t)) n); [|lia]. destruct H as (b' & E' & H).
  rewrite (res_bind_ok _ _ _ H). apply string_range_inserts. rewrite length_app. cbn [length]. lia.
Qed.

(** * Unescaping *)

(** The pieces of one round. *)
Lemma two_letter_back c l : two_letter c = Some l -> simple_escape l = Some c.
Proof.
  unfold two_letter. destruct (Z.eqb_spec c 10) as [->|]; [by intros [= <-]|].
  destruct (Z.eqb_spec c 13) as [->|]; [by intros [= <-]|].
  destruct (Z.eqb_spec c 9) as [->|]; [by intros [= <-]|].
  destruct (Z.eqb_spec c 34) as [->|]; [by intros [= <-]|].
  destruct (Z.eqb_spec c 39) as [->|]; [by intros [= <-]|].
  by destruct (Z.eqb_spec c 92) as [->|]; [intros [= <-]|].
Qed.

Lemma octal_read c rest : is_byte c ->
  octal_step (octal_step (48 + c / 64 - 48, (48 + c / 8 mod 8) :: (48 + c mod 8) :: rest)) = (c, rest).
Proof.
  intros Hc. unfold octal_step, IS_OCTAL_DIGIT.
  pose proof (Z.mod_pos_bound (c / 8) 8 ltac:(lia)). pose proof (Z.mod_pos_bound c 8 ltac:(lia)).
  destruct (Z.leb_spec 48 (48 + c / 8 mod 8)), (Z.leb_spec (48 + c / 8 mod 8) 55); try lia. cbn [andb].
  destruct (Z.leb_spec 48 (48 + c mod 8)), (Z.leb_spec (48 + c mod 8) 55); try lia. cbn [andb].
  f_equal. apply Z.eqb_eq. clear -Hc. revert c Hc.
  apply (byte_cases (fun c => u8 (u8 ((48 + c / 64 - 48) * 8 + (48 + c / 8 mod 8) - 48) * 8 +
    (48 + c mod 8) - 48) =? c)). by vm_compute.
Qed.

Lemma octal_first c : is_byte c -> simple_escape (48 + c / 64) = None /\ IS_OCTAL_DIGIT (48 + c / 64) = true.
Proof.
  intros Hc. assert (bool_decide (simple_escape (48 + c / 64) = None) && IS_OCTAL_DIGIT (48 + c / 64) = true) as H'.
  { revert c Hc. apply (byte_cases (fun c => bool_decide (simple_escape (48 + c / 64) = None) && IS_OCTAL_DIGIT (48 + c / 64))).
    by vm_compute. }
  apply andb_true_iff in H' as [H1 H2]. by apply bool_decide_eq_true in H1.
Qed.

Lemma hex_read c rest : is_byte c ->
  match rest with [] => True | x :: _ => is_byte x /\ isxdigit (s8 x) = false end ->
  isxdigit (s8 (hex_digit (c / 16))) = true /\
  read_hex 0 (hex_digit (c / 16) :: hex_digit (c mod 16) :: rest) = (c, rest).
Proof.
  intros Hc Hr.
  assert (let h := hex_digit (c / 16) in let l := hex_digit (c mod 16) in
    (0 <=? h) && (h <? 256) && (0 <=? l) && (l <? 256) &&
    isxdigit (s8 h) && isxdigit (s8 l) && (u32 (u32 (Z.shiftl (u32 (u32 (Z.shiftl 0 4) + hex_digit_to_int h)) 4) +
      hex_digit_to_int l) =? c) = true) as H'.
  { cbv zeta. revert c Hc. apply (byte_cases (fun c => (0 <=? hex_digit (c / 16)) && (hex_digit (c / 16) <? 256) &&
      (0 <=? hex_digit (c mod 16)) && (hex_digit (c mod 16) <? 256) &&
      isxdigit (s8 (hex_digit (c / 16))) && isxdigit (s8 (hex_digit (c mod 16))) &&
      (u32 (u32 (Z.shiftl (u32 (u32 (Z.shiftl 0 4) + hex_digit_to_int (hex_digit (c / 16)))) 4) +
        hex_digit_to_int (hex_digit (c mod 16))) =? c))). by vm_compute. }
  cbv zeta in H'. set (h := hex_digit (c / 16)) in *. set (l := hex_digit (c mod 16)) in *.
  rewrite !andb_true_iff, !Z.leb_le, !Z.ltb_lt, Z.eqb_eq in H'.
  destruct H' as ((((((H1 & H2) & H3) & H4) & H5) & H6) & H7).
  split; [exact H5|]. cbn [read_hex]. rewrite H5, H6, H7.
  destruct rest as [|x rest]; [done|]. destruct Hr as [Hx Ex]. cbn [read_hex]. by rewrite Ex.
Qed.

(** Behind a hexadecimal escape no digit follows. *)
Lemma escaped_head src : Forall is_byte src ->
  match escaped true false true src with [] => True | x :: _ => is_byte x /\ isxdigit (s8 x) = false end.
Proof.
  intros Hs. destruct src as [|c src]; [done|]. apply Forall_cons in Hs as [Hc _]. cbn [escaped].
  destruct (two_letter c); [by split|]. destruct (must_escape false true c) eqn:Em; [by split|].
  split; [done|]. unfold must_escape in Em. cbn [negb orb andb] in Em. by apply orb_false_iff in Em as [_ Em].
Qed.

Lemma unescape_spec use_hex utf8_safe src : (use_hex = true -> utf8_safe = false) ->
  forall fuel last t (b : list Z), Forall is_byte src ->
  (length (escaped use_hex utf8_safe last src) < fuel)%nat -> (length t + length src < length b)%nat ->
  unescape_loop fuel (escaped use_hex utf8_safe last src) (Z.of_nat (length t)) (list_inserts 0 t b) =
  Ok (Z.of_nat (length (t ++ src)), list_inserts 0 ((t ++ src) ++ [0]) b).
Proof.
  intros Hu. induction src as [|c src IH]; intros fuel last t b Hs Hf Hb;
    (destruct fuel as [|fuel]; [cbn in Hf; lia|]).
  { cbn [escaped unescape_loop]. rewrite app_nil_r.
    by rewrite (st_bind_ok _ _ _ tt (list_inserts 0 (t ++ [0]) b)) by (apply poke_next; cbn in *; lia). }
  apply Forall_cons in Hs as [Hc Hs]. cbn [escaped length] in *.
  assert (forall fuel last', (length (escaped use_hex utf8_safe last' src) < fuel)%nat ->
    (poke (Z.of_nat (length t)) c;; unescape_loop fuel (escaped use_hex utf8_safe last' src)
      (Z.of_nat (length t) + 1)) (list_inserts 0 t b) =
    Ok (Z.of_nat (length (t ++ c :: src)), list_inserts 0 ((t ++ c :: src) ++ [0]) b)) as Hnext.
  { intros fuel' last' Hf'. rewrite (st_bind_ok _ _ _ tt (list_inserts 0 (t ++ [c]) b)) by (apply poke_next; lia).
    replace (Z.of_nat (length t) + 1) with (Z.of_nat (length (t ++ [c]))) by (rewrite length_app; cbn; lia).
    rewrite IH by (rewrite ?length_app; cbn; done || lia). by rewrite <- app_assoc. }
  destruct (two_letter c) as [l|] eqn:El.
  { cbn [unescape_loop length] in *. change (92 =? 92) with true. cbn [negb].
    rewrite (two_letter_back _ _ El). apply Hnext. lia. }
  destruct (must_escape utf8_safe last c).
  - rewrite length_app, four_letter_length in Hf. destruct use_hex.
    + cbn [four_letter hex_escape app unescape_loop]. change (92 =? 92) with true. cbn [negb].
      change (simple_escape 120) with (@None Z). change (IS_OCTAL_DIGIT 120) with false.
      change ((120 =? 120) || (120 =? 88)) with true. cbv iota.
      pose proof (escaped_head src Hs) as Hh. rewrite (Hu eq_refl) in *.
      destruct (hex_read c _ Hc Hh) as [E1 E2]. rewrite E1, E2.
      replace (u8 c) with c by (symmetry; by apply uwrap_small). apply Hnext. lia.
    + cbn [four_letter octal_escape app unescape_loop]. change (92 =? 92) with true. cbn [negb].
      destruct (octal_first c Hc) as [-> ->]. rewrite octal_read by done. apply Hnext. lia.
  - cbn [unescape_loop length] in *.
    assert ((c =? 92) = false) as ->.
    { unfold two_letter in El. destruct (c =? 10), (c =? 13), (c =? 9); try done.
      by destruct (c =? 92); [rewrite orb_true_r in El|]. }
    cbn [negb]. apply Hnext. lia.
Qed.

(** No character of the text is zero. *)
Lemma escaped_nonzero use_hex utf8_safe last src : Forall is_byte src ->
  Forall (fun c => c <> 0) (escaped use_hex utf8_safe last src).
Proof.
  intros Hs. revert last. induction Hs as [|c src Hc _ IH]; intros last; cbn [escaped]; [constructor|].
  destruct (two_letter c) as [l|] eqn:E.
  - constructor; [done|]. constructor; [|apply IH]. apply two_letter_print in E. intros ->. done.
  - destruct (must_escape utf8_safe last c) eqn:Em.
    + apply Forall_app. split; [|apply IH]. apply Forall_forall. intros x Hx ->.
      pose proof (four_letter_print use_hex c Hc) as Hf. rewrite forallb_forall in Hf.
      apply list_elem_of_In, Hf in Hx. done.
    + constructor; [|apply IH]. intros ->. by destruct utf8_safe.
Qed.

Lemma unescape_escape_spec junk use_hex utf8_safe src : (use_hex = true -> utf8_safe = false) ->
  Forall is_byte src ->
  UnescapeCEscapeString junk (escaped use_hex utf8_safe false src) = Ok src.
Proof.
  intros Hu Hs. unfold UnescapeCEscapeString. set (t := escaped use_hex utf8_safe false src).
  assert (c_string (t ++ [0]) 0 = Ok t) as Ec.
  { by apply c_string_whole, escaped_nonzero. }
  rewrite (res_bind_ok _ _ _ Ec).
  pose proof (escaped_length use_hex utf8_safe false src) as Hl. fold t in Hl.
  pose proof (fresh_buffer_length junk (Z.of_nat (length t) + 1) ltac:(lia)) as Hb.
  set (b := fresh_buffer junk (Z.of_nat (length t) + 1)) in *.
  pose proof (unescape_spec use_hex utf8_safe src Hu (S (length t)) false [] b Hs) as E. fold t in E.
  specialize (E ltac:(lia) ltac:(cbn; lia)). cbn [app length list_inserts] in E.
  unfold UnescapeCEscapeSequences. rewrite (res_bind_ok _ _ _ E).
  apply string_range_inserts. rewrite length_app. cbn [length]. lia.
Qed.
