(* ===== verification/FloatText.v ===== *)
(** Floating point numbers to text (google/protobuf/stubs/strutil.cc): [FloatToBuffer],
    [DoubleToBuffer] and what they use.  [snprintf] with [%.*g] and [strtod] are those of the C
    locale, correctly rounded, ties to even; doubles are the standard library's IEEE 754
    specification at 53 bits.  At the end, what these texts look like ([plain_number]) and what
    reading them back gives ([reread_float]). *)

From S2P Require Import Prelude Float32 StrUtil Numerals.

(** * Doubles *)

Definition float64 : Type := spec_float.

Definition f64_of_bits (w : Z) : float64 :=
  let s := Z.testbit w 63 in
  let e := bits w 52 11 in
  let m := bits w 0 52 in
  if e =? 2047 then (if m =? 0 then S754_infinity s else S754_nan)
  else
    match (if e =? 0 then m else m + 2 ^ 52) with
    | Zpos p => S754_finite s p (Z.max e 1 - 1075)
    | _ => S754_zero s
    end.

(** The conversion to [float]. *)
Definition f32_of_f64 (d : float64) : float32 :=
  match d with S754_finite s m e => binary_round 24 128 s m e | d => d end.

(** * [snprintf] with [%.*g] *)

(** The exponent of the first digit of [num / den]: the first power of ten from [x] down that
    is not above it. *)
Fixpoint find_exponent (fuel : nat) (x num den : Z) : Z :=
  match fuel with
  | O => x
  | S fuel =>
      if (if 0 <=? x then den * 10 ^ x <=? num else den <=? num * 10 ^ (- x)) then x
      else find_exponent fuel (x - 1) num den
  end.

(** The nearest integer, the even one of two. *)
Definition round_even (num den : Z) : Z :=
  let q := num / den in
  let r := num mod den in
  if 2 * r <? den then q
  else if den <? 2 * r then q + 1
  else if Z.even q then q else q + 1.

(** [prec] digits of [num / den] as an integer, and the exponent of the first. *)
Definition sig_digits (fuel : nat) (top prec num den : Z) : Z * Z :=
  let x := find_exponent fuel top num den in
  let k := prec - 1 - x in
  let d := if 0 <=? k then round_even (num * 10 ^ k) den else round_even num (den * 10 ^ (- k)) in
  if d =? 10 ^ prec then (10 ^ (prec - 1), x + 1) else (d, x).

(** Without the zeros at its end. *)
Fixpoint strip (l : list Z) : list Z :=
  match l with
  | [] => []
  | c :: l => match strip l with [] => if c =? 48 then [] else [c] | l => c :: l end
  end.

(** The point and what is behind it, if anything. *)
Definition fraction (l : list Z) : list Z := match strip l with [] => [] | l => 46 :: l end.

(** An exponent has at least two digits. *)
Definition exponent_text (x : Z) : list Z :=
  [101; if x <? 0 then 45 else 43] ++
  (if Z.abs x <? 100 then fixed 10 dec_digit 2 (Z.abs x) else fixed 10 dec_digit 3 (Z.abs x)).

Definition g_text (prec d x : Z) : list Z :=
  let ds := fixed 10 dec_digit (Z.to_nat prec) d in
  if (-4 <=? x) && (x <? prec) then
    if 0 <=? x then take (Z.to_nat (x + 1)) ds ++ fraction (drop (Z.to_nat (x + 1)) ds)
    else 48 :: fraction (replicate (Z.to_nat (- x - 1)) 48 ++ ds)
  else take 1 ds ++ fraction (drop 1 ds) ++ exponent_text x.

(** A finite number; [fuel] and [top] are for its exponents. *)
Definition print_g (fuel : nat) (top prec : Z) (f : spec_float) : list Z :=
  match f with
  | S754_zero s => (if s then [45] else []) ++ [48]
  | S754_finite s m e =>
      let '(num, den) := if 0 <=? e then (Zpos m * 2 ^ e, 1) else (Zpos m, 2 ^ (- e)) in
      let '(d, x) := sig_digits fuel top prec num den in
      (if s then [45] else []) ++ g_text prec d x
  | _ => []
  end.

(** The decimal exponents of [float] and [double]. *)
Definition print_g32 : Z -> float32 -> list Z := print_g 90 39.
Definition print_g64 : Z -> float64 -> list Z := print_g 640 309.

(** [snprintf] into an array of [size] characters. *)
Definition snprintf (size : Z) (text : list Z) : list Z := take (Z.to_nat (size - 1)) text.

(** * [strtod] *)

Fixpoint digits_prefix (l : list Z) (acc count : Z) : Z * Z * list Z :=
  match l with
  | c :: l' =>
      if (48 <=? c) && (c <=? 57) then digits_prefix l' (acc * 10 + (c - 48)) (count + 1)
      else (acc, count, l)
  | [] => (acc, count, [])
  end.

Definition signed_prefix (l : list Z) : bool * list Z :=
  match l with
  | 45 :: l => (true, l)
  | 43 :: l => (false, l)
  | _ => (false, l)
  end.

(** The exponent behind [e] or [E]; without a digit the number ends in front of the letter. *)
Definition scan_exponent (l : list Z) : Z * list Z :=
  match l with
  | c :: l' =>
      if (c =? 101) || (c =? 69) then
        let '(n, l') := signed_prefix l' in
        let '(x, count, rest) := digits_prefix l' 0 0 in
        if count =? 0 then (0, l) else (if n then - x else x, rest)
      else (0, l)
  | [] => (0, [])
  end.

(** Sign, digits and decimal exponent of a number in decimal notation, and where it ends; without
    a digit there is no number.  No caller passes spaces, hexadecimal notation or the names of
    the special values. *)
Definition scan_decimal (str : list Z) : bool * Z * Z * list Z :=
  let '(s, l) := signed_prefix str in
  let '(m, n, l) := digits_prefix l 0 0 in
  let '(m, k, l) := match l with 46 :: l => digits_prefix l m 0 | _ => (m, 0, l) end in
  if n + k =? 0 then (false, 0, 0, str)
  else let '(x, l) := scan_exponent l in (s, m, x - k, l).

(** The nearest [double] of [m * 10 ^ x]. *)
Definition f64_of_decimal (s : bool) (m x : Z) : float64 :=
  match m with
  | Zpos p =>
      match 10 ^ Z.abs x with
      | Zpos q =>
          if 0 <=? x then binary_round 53 1024 s (p * q) 0
          else SFdiv 53 1024 (S754_finite s p 0) (S754_finite false q 0)
      | _ => S754_nan
      end
  | _ => S754_zero s
  end.

(** The value, where the number ends, and whether [errno] stays zero. *)
Definition strtod (str : list Z) : float64 * list Z * bool :=
  let '(s, m, x, rest) := scan_decimal str in
  let d := f64_of_decimal s m x in
  (d, rest, match d with S754_finite _ _ _ => true | S754_zero _ => m =? 0 | _ => false end).

(** The branch of [_WIN32]. *)
Definition safe_strtof (str : list Z) : bool * float32 :=
  let '(d, rest, no_error) := strtod str in
  (bool_decide (str <> []) && bool_decide (rest = []) && no_error, f32_of_f64 d).

(** * The printers *)

Definition FLT_DIG : Z := 6.
Definition DBL_DIG : Z := 15.

Definition IsValidFloatChar (c : Z) : bool :=
  ((48 <=? c) && (c <=? 57)) || (c =? 101) || (c =? 69) || (c =? 43) || (c =? 45).

(** The valid characters in front, and behind the first other one the others dropped up to the
    next valid one. *)
Fixpoint skip_invalid (l : list Z) : list Z :=
  match l with
  | c :: l' => if IsValidFloatChar c then l else skip_invalid l'
  | [] => []
  end.
Fixpoint replace_radix (l : list Z) : list Z :=
  match l with
  | [] => []
  | c :: l => if IsValidFloatChar c then c :: replace_radix l else 46 :: skip_invalid l
  end.
Definition DelocalizeRadix (buffer : list Z) : list Z :=
  if bool_decide (46 ∈ buffer) then buffer else replace_radix buffer.

Definition text_inf : list Z := [105; 110; 102].
Definition text_nan : list Z := [110; 97; 110].

(** The text in [buffer]. *)
Definition FloatToBuffer (value : float32) : list Z :=
  match value with
  | S754_infinity false => text_inf
  | S754_infinity true => 45 :: text_inf
  | S754_nan => text_nan
  | _ =>
      let buffer := snprintf kFloatToBufferSize (print_g32 FLT_DIG value) in
      let '(ok, parsed_value) := safe_strtof buffer in
      let buffer :=
        if negb ok || negb (SFeqb parsed_value value)
        then snprintf kFloatToBufferSize (print_g32 (FLT_DIG + 2) value) else buffer in
      DelocalizeRadix buffer
  end.

Definition DoubleToBuffer (value : float64) : list Z :=
  match value with
  | S754_infinity false => text_inf
  | S754_infinity true => 45 :: text_inf
  | S754_nan => text_nan
  | _ =>
      let buffer := snprintf kDoubleToBufferSize (print_g64 DBL_DIG value) in
      let '(parsed_value, _, _) := strtod buffer in
      let buffer :=
        if negb (SFeqb parsed_value value)
        then snprintf kDoubleToBufferSize (print_g64 (DBL_DIG + 2) value) else buffer in
      DelocalizeRadix buffer
  end.

(** The arguments are given by their bits. *)
Definition SimpleFtoa (value : Z) : list Z := FloatToBuffer (f32_of_bits value).
Definition SimpleDtoa (value : Z) : list Z := DoubleToBuffer (f64_of_bits value).

(** The characters of the texts of floating point numbers, their length, and that the text of a
    [float] does not determine it. *)

(** Digits, the letters of the special values and of the exponent, the point and the signs. *)
Definition number_char (c : Z) : Prop := is_dec c \/ c ∈ [43; 45; 46; 97; 101; 102; 105; 110].

Abbreviation number_text := (Forall number_char).

Lemma fixed_dec_text k n : number_text (fixed 10 dec_digit k n).
Proof.
  revert n. induction k as [|k IH]; intros n; [constructor|]. cbn. apply Forall_app. split; [apply IH|].
  constructor; [|constructor]. left. unfold is_dec, dec_digit.
  pose proof (Z.mod_pos_bound n 10 ltac:(lia)). lia.
Qed.

Lemma in_chars c : c ∈ [43; 45; 46; 97; 101; 102; 105; 110] -> number_char c.
Proof. by right. Qed.

Ltac number_chars := repeat constructor; apply in_chars; repeat constructor.

Lemma strip_text (P : Z -> Prop) l : Forall P l -> Forall P (strip l).
Proof.
  induction 1 as [|c l Hc Hl IH]; [constructor|]. cbn. destruct (strip l); [|by constructor].
  destruct (c =? 48); by repeat constructor.
Qed.

Lemma strip_length l : (length (strip l) <= length l)%nat.
Proof. induction l as [|c l IH]; [done|]. cbn. destruct (strip l); [destruct (c =? 48)|]; cbn in *; lia. Qed.

Lemma fraction_text l : number_text l -> number_text (fraction l).
Proof.
  intros Hl. apply strip_text in Hl. unfold fraction. destruct (strip l); [constructor|].
  constructor; [apply in_chars; repeat constructor|done].
Qed.

Lemma fraction_length l : (length (fraction l) <= S (length l))%nat.
Proof. unfold fraction. pose proof (strip_length l). destruct (strip l); cbn in *; lia. Qed.

Lemma exponent_chars x : number_text (exponent_text x).
Proof.
  unfold exponent_text. apply Forall_app. split; [destruct (x <? 0); number_chars|].
  destruct (Z.abs x <? 100); apply fixed_dec_text.
Qed.

Lemma g_text_chars prec d x : number_text (g_text prec d x).
Proof.
  unfold g_text. pose proof (fixed_dec_text (Z.to_nat prec) d) as H.
  destruct ((-4 <=? x) && (x <? prec)); [destruct (0 <=? x)|].
  - apply Forall_app. split; [by apply Forall_take|]. by apply fraction_text, Forall_drop.
  - constructor; [left; unfold is_dec; lia|]. apply fraction_text, Forall_app. split; [|done].
    apply Forall_replicate. left. unfold is_dec. lia.
  - apply Forall_app. split; [by apply Forall_take|]. apply Forall_app.
    split; [by apply fraction_text, Forall_drop|apply exponent_chars].
Qed.

Lemma print_g_chars fuel top prec f : number_text (print_g fuel top prec f).
Proof.
  destruct f as [s|s| |s m e]; cbn [print_g]; [|constructor..|].
  - apply Forall_app. split; [destruct s; number_chars|]. constructor; [|constructor].
    left. unfold is_dec. lia.
  - destruct (if 0 <=? e then _ else _) as [num den], (sig_digits fuel top prec num den) as [d x].
    apply Forall_app. split; [destruct s; number_chars|apply g_text_chars].
Qed.

Lemma skip_invalid_text (P : Z -> Prop) l : Forall P l -> Forall P (skip_invalid l).
Proof. induction 1 as [|c l Hc Hl IH]; cbn; [constructor|]. destruct (IsValidFloatChar c); [by constructor|done]. Qed.

Lemma delocalize_text l : number_text l -> number_text (DelocalizeRadix l).
Proof.
  intros Hl. unfold DelocalizeRadix. case_bool_decide; [done|].
  induction Hl as [|c l Hc Hl IH]; cbn; [constructor|]. destruct (IsValidFloatChar c).
  - constructor; [done|]. apply IH. intros Hin. by destruct H; right.
  - constructor; [apply in_chars; repeat constructor|by apply skip_invalid_text].
Qed.

Lemma FloatToBuffer_chars value : number_text (FloatToBuffer value).
Proof.
  assert (forall f prec, number_text (snprintf kFloatToBufferSize (print_g32 prec f))) as H.
  { intros f prec. apply Forall_take, print_g_chars. }
  unfold FloatToBuffer. destruct value as [s|s| |s m e]; try (destruct s); try number_chars;
    destruct (safe_strtof _) as [ok parsed]; apply delocalize_text; destruct (_ || _); apply H.
Qed.

Lemma DoubleToBuffer_chars value : number_text (DoubleToBuffer value).
Proof.
  assert (forall f prec, number_text (snprintf kDoubleToBufferSize (print_g64 prec f))) as H.
  { intros f prec. apply Forall_take, print_g_chars. }
  unfold DoubleToBuffer. destruct value as [s|s| |s m e]; try (destruct s); try number_chars;
    destruct (strtod _) as [[parsed rest] ok]; apply delocalize_text; destruct (negb _); apply H.
Qed.

(** * [snprintf] does not cut a text off *)

Lemma find_exponent_range fuel x num den :
  x - Z.of_nat fuel <= find_exponent fuel x num den <= x.
Proof.
  revert x. induction fuel as [|fuel IH]; intros x; cbn [find_exponent]; [lia|].
  destruct (if 0 <=? x then _ else _); [lia|]. specialize (IH (x - 1)). lia.
Qed.

Lemma g_text_length prec d x : 0 < prec -> (length (g_text prec d x) <= Z.to_nat prec + 6)%nat.
Proof.
  intros Hp. unfold g_text. set (ds := fixed 10 dec_digit (Z.to_nat prec) d).
  assert (length ds = Z.to_nat prec) as Hd by apply fixed_length.
  destruct (Z.leb_spec (-4) x), (Z.ltb_spec x prec); cbn [andb].
  - destruct (Z.leb_spec 0 x).
    + rewrite length_app, length_take. pose proof (fraction_length (drop (Z.to_nat (x + 1)) ds)) as Hf.
      rewrite length_drop in Hf. lia.
    + cbn [length]. pose proof (fraction_length (replicate (Z.to_nat (- x - 1)) 48 ++ ds)) as Hf.
      rewrite length_app, length_replicate in Hf. lia.
  - pose proof (fraction_length (drop 1 ds)) as Hf. rewrite length_drop in Hf.
    rewrite !length_app, length_take. unfold exponent_text. rewrite length_app. cbn [length].
    destruct (Z.abs x <? 100); rewrite fixed_length; lia.
  - pose proof (fraction_length (drop 1 ds)) as Hf. rewrite length_drop in Hf.
    rewrite !length_app, length_take. unfold exponent_text. rewrite length_app. cbn [length].
    destruct (Z.abs x <? 100); rewrite fixed_length; lia.
  - pose proof (fraction_length (drop 1 ds)) as Hf. rewrite length_drop in Hf.
    rewrite !length_app, length_take. unfold exponent_text. rewrite length_app. cbn [length].
    destruct (Z.abs x <? 100); rewrite fixed_length; lia.
Qed.

Lemma print_g_length fuel top prec f : 0 < prec -> (length (print_g fuel top prec f) <= Z.to_nat prec + 7)%nat.
Proof.
  intros Hp. destruct f as [s|s| |s m e]; cbn [print_g length]; [destruct s; cbn; lia|lia|lia|].
  destruct (if 0 <=? e then _ else _) as [num den], (sig_digits fuel top prec num den) as [d x].
  pose proof (g_text_length prec d x Hp). rewrite length_app. destruct s; cbn [length]; lia.
Qed.

(** The asserts on the result of [snprintf] hold. *)
Lemma snprintf_float prec f : 0 < prec <= 8 ->
  snprintf kFloatToBufferSize (print_g32 prec f) = print_g32 prec f.
Proof.
  intros Hp. unfold snprintf. apply take_ge. pose proof (print_g_length 90 39 prec f ltac:(lia)).
  unfold print_g32, kFloatToBufferSize. lia.
Qed.
Lemma snprintf_double prec f : 0 < prec <= 17 ->
  snprintf kDoubleToBufferSize (print_g64 prec f) = print_g64 prec f.
Proof.
  intros Hp. unfold snprintf. apply take_ge. pose proof (print_g_length 640 309 prec f ltac:(lia)).
  unfold print_g64, kDoubleToBufferSize. lia.
Qed.

(** * The form of the texts, and what [strtod] makes of them *)

Definition digits (l : list Z) : Prop := Forall is_dec l.

(** The decimal notations that are printed: digits, a point with digits, an exponent with its
    sign. *)
Definition point_ok (l : list Z) : Prop := l = [] \/ exists ds, l = 46 :: ds /\ digits ds.
Definition exponent_ok (l : list Z) : Prop :=
  l = [] \/ exists sign d ds, l = 101 :: sign :: d :: ds /\ (sign = 45 \/ sign = 43) /\ is_dec d /\ digits ds.


(** Whether [num / den] is at least [10 ^ x]. *)
Definition reaches (x num den : Z) : bool := if 0 <=? x then den * 10 ^ x <=? num else den <=? num * 10 ^ (- x).

Lemma reaches_spec x num den : reaches x num den = true <-> den * 10 ^ Z.max x 0 <= num * 10 ^ Z.max (- x) 0.
Proof.
  unfold reaches. destruct (Z.leb_spec 0 x).
  - rewrite Z.leb_le, (Z.max_l x 0), (Z.max_r (- x) 0), Z.mul_1_r by lia. done.
  - rewrite Z.leb_le, (Z.max_r x 0), (Z.max_l (- x) 0), Z.mul_1_r by lia. done.
Qed.

Lemma find_exponent_spec fuel num den : forall x, reaches (x - Z.of_nat fuel) num den = true -> reaches (x + 1) num den = false ->
  let r := find_exponent fuel x num den in reaches r num den = true /\ reaches (r + 1) num den = false.
Proof.
  induction fuel as [|fuel IH]; intros x Hlow Htop; cbn [find_exponent].
  - cbv zeta. rewrite Z.sub_0_r in Hlow. done.
  - cbv zeta. fold (reaches x num den). destruct (reaches x num den) eqn:Ex; [done|]. apply IH.
    + by replace (x - 1 - Z.of_nat fuel) with (x - Z.of_nat (S fuel)) by lia.
    + by replace (x - 1 + 1) with x by lia.
Qed.

Lemma scale_reaches p x num den : 0 <= p -> 0 < den -> 0 < num -> let k := p - x in
  (reaches x num den = true <-> den * 10 ^ Z.max (- k) 0 * 10 ^ p <= num * 10 ^ Z.max k 0).
Proof.
  intros Hp Hd Hn k. rewrite reaches_spec. set (c := Z.max k 0 - Z.max (- x) 0). assert (0 <= c) by lia.
  assert (0 < 10 ^ c) by (apply Z.pow_pos_nonneg; lia).
  rewrite (Z.mul_le_mono_pos_r _ _ (10 ^ c)) by done. rewrite <- !Z.mul_assoc, <- !Z.pow_add_r by lia.
  replace (Z.max x 0 + c) with (Z.max (- k) 0 + p) by lia. by replace (Z.max (- x) 0 + c) with (Z.max k 0) by lia.
Qed.

Lemma round_even_bounds a b lo hi : 0 < b -> b * lo <= a -> a < b * hi -> lo <= round_even a b <= hi.
Proof.
  intros Hb Hlo Hhi. unfold round_even.
  assert (lo <= a / b) by (apply Z.div_le_lower_bound; lia). assert (a / b < hi) by (apply Z.div_lt_upper_bound; lia).
  destruct (2 * (a mod b) <? b); [lia|]. destruct (b <? 2 * (a mod b)); [lia|]. destruct (Z.even (a / b)); lia.
Qed.

(** All the digits count. *)
Lemma sig_digits_bounds fuel top prec num den : 0 < prec -> 0 < den -> 0 < num ->
  reaches (top - Z.of_nat fuel) num den = true -> reaches (top + 1) num den = false ->
  10 ^ (prec - 1) <= fst (sig_digits fuel top prec num den) < 10 ^ prec.
Proof.
  intros Hp Hd Hn Hlow Htop. unfold sig_digits. destruct (find_exponent_spec fuel num den top Hlow Htop) as [H1 H2].
  set (x := find_exponent fuel top num den) in *. cbv zeta. set (k := prec - 1 - x).
  set (d := if 0 <=? k then _ else _).
  assert (d = round_even (num * 10 ^ Z.max k 0) (den * 10 ^ Z.max (- k) 0)) as Ed.
  { unfold d. destruct (Z.leb_spec 0 k).
    - by rewrite (Z.max_l k 0), (Z.max_r (- k) 0), Z.mul_1_r by lia.
    - by rewrite (Z.max_r k 0), (Z.max_l (- k) 0), Z.mul_1_r by lia. }
  apply (scale_reaches (prec - 1) x) in H1; [|lia..]. fold k in H1.
  assert (num * 10 ^ Z.max k 0 < den * 10 ^ Z.max (- k) 0 * 10 ^ prec) as H3.
  { apply Z.nle_gt. intros Hle. pose proof (proj2 (scale_reaches prec (x + 1) num den ltac:(lia) Hd Hn)) as Hr.
    replace (prec - (x + 1)) with k in Hr by lia. rewrite Hr in H2; done. }
  assert (0 < 10 ^ Z.max (- k) 0) by (apply Z.pow_pos_nonneg; lia).
  pose proof (round_even_bounds _ (den * 10 ^ Z.max (- k) 0) _ _ ltac:(nia) H1 H3) as Hb. rewrite <- Ed in Hb.
  assert (10 ^ prec = 10 * 10 ^ (prec - 1)) as Ep by (rewrite <- Z.pow_succ_r by lia; f_equal; lia).
  assert (0 < 10 ^ (prec - 1)) by (apply Z.pow_pos_nonneg; lia).
  destruct (Z.eqb_spec d (10 ^ prec)); cbn [fst]; lia.
Qed.

Lemma fixed_digits k n : digits (fixed 10 dec_digit k n).
Proof.
  revert n. induction k as [|k IH]; intros n; [constructor|]. cbn. apply Forall_app. split; [apply IH|].
  constructor; [|constructor]. unfold is_dec, dec_digit. pose proof (Z.mod_pos_bound n 10 ltac:(lia)). lia.
Qed.

Lemma fraction_ok l : digits l -> point_ok (fraction l).
Proof.
  intros Hl. apply strip_text in Hl. unfold fraction. destruct (strip l); [by left|]. right. eauto.
Qed.

Lemma exponent_text_ok x : exponent_ok (exponent_text x).
Proof.
  right. unfold exponent_text. set (sign := if x <? 0 then 45 else 43).
  assert (sign = 45 \/ sign = 43) as Hs by (unfold sign; destruct (x <? 0); auto).
  assert (forall k n, exists d ds, fixed 10 dec_digit (S k) n = d :: ds /\ is_dec d /\ digits ds) as Hf.
  { intros k n. pose proof (fixed_digits (S k) n) as Hd. pose proof (fixed_length 10 dec_digit (S k) n) as Hl.
    destruct (fixed 10 dec_digit (S k) n) as [|d ds]; [done|]. apply Forall_cons in Hd as [? ?]. eauto. }
  destruct (Z.abs x <? 100).
  - destruct (Hf 1%nat (Z.abs x)) as (d & ds & -> & ? & ?). exists sign, d, ds. done.
  - destruct (Hf 2%nat (Z.abs x)) as (d & ds & -> & ? & ?). exists sign, d, ds. done.
Qed.

(** A number as it is printed: up to eight digits, none of them a zero in front. *)
Record plain_number (ds point exponent : list Z) : Prop := {
  pn_digits : digits ds;
  pn_some : ds <> [];
  pn_zero : hd 0 ds = 48 -> length ds = 1%nat;
  pn_length : (length ds <= 8)%nat;
  pn_point : point_ok point;
  pn_exponent : exponent_ok exponent
}.

Lemma g_text_number prec d x : 0 < prec <= 8 -> 10 ^ (prec - 1) <= d < 10 ^ prec ->
  exists ds point exponent, g_text prec d x = ds ++ point ++ exponent /\ plain_number ds point exponent.
Proof.
  intros Hp Hd. unfold g_text. set (all := fixed 10 dec_digit (Z.to_nat prec) d).
  assert (digits all) as Hall by apply fixed_digits.
  assert (length all = Z.to_nat prec) as Hlen by apply fixed_length.
  assert (exists c l, all = c :: l /\ c <> 48) as (c & l & El & Hc).
  { assert (Z.of_nat (Z.to_nat prec) = prec) as Ez by lia.
    assert (0 < 10 ^ (prec - 1)) by (apply Z.pow_pos_nonneg; lia).
    unfold all. rewrite <- fixed_decimal by (rewrite ?Ez; lia). apply decimal_head. rewrite Ez. lia. }
  assert (forall k, (0 < k)%nat -> digits (take k all) /\ take k all <> [] /\ (hd 0 (take k all) = 48 -> length (take k all) = 1%nat) /\
    (length (take k all) <= 8)%nat) as Hk.
  { intros k Hk. destruct k as [|k]; [lia|]. split_and!; [by apply Forall_take|by rewrite El|rewrite El; intros Hh; by destruct Hc|rewrite length_take; lia]. }
  destruct (Z.leb_spec (-4) x), (Z.ltb_spec x prec); cbn [andb].
  2-4: exists (take 1 all), (fraction (drop 1 all)), (exponent_text x); destruct (Hk 1%nat ltac:(lia)) as (? & ? & ? & ?);
    (split; [done|]); split; [done..|by apply fraction_ok, Forall_drop|apply exponent_text_ok].
  destruct (Z.leb_spec 0 x).
  - exists (take (Z.to_nat (x + 1)) all), (fraction (drop (Z.to_nat (x + 1)) all)), [].
    destruct (Hk (Z.to_nat (x + 1)) ltac:(lia)) as (? & ? & ? & ?). rewrite app_nil_r. split; [done|].
    split; [done..|by apply fraction_ok, Forall_drop|by left].
  - eexists [48], _, []. rewrite app_nil_r. split; [done|]. split; [constructor; [unfold is_dec; lia|constructor]|done|done|cbn; lia| |by left].
    apply fraction_ok, Forall_app. split; [|done]. apply Forall_replicate. unfold is_dec. lia.
Qed.

Lemma f32_bits_bounds v s m e : 0 <= v < 2 ^ 32 -> f32_of_bits v = S754_finite s m e -> Zpos m < 2 ^ 24 /\ -149 <= e <= 104.
Proof.
  intros Hv. unfold f32_of_bits. pose proof (bits_range v 0 23 ltac:(lia)) as Hm. pose proof (bits_range v 23 8 ltac:(lia)) as He.
  cbv zeta. set (w := bits v 0 23) in *. set (x := bits v 23 8) in *.
  destruct (Z.eqb_spec x 255) as [|Hx]; [by destruct (w =? 0)|]. set (k := if x =? 0 then w else w + 2 ^ 23).
  assert (0 <= k < 2 ^ 24) by (unfold k; destruct (x =? 0); lia).
  destruct k as [|p|p]; [done| |done]. intros [= _ <- <-]. lia.
Qed.

Lemma range_reaches m e : Zpos m < 2 ^ 24 -> -149 <= e <= 104 ->
  let '(num, den) := if 0 <=? e then (Zpos m * 2 ^ e, 1) else (Zpos m, 2 ^ (- e)) in
  0 < den /\ 0 < num /\ reaches (39 - Z.of_nat 90) num den = true /\ reaches (39 + 1) num den = false.
Proof.
  intros Hm He. destruct (Z.leb_spec 0 e).
  - assert (0 < 2 ^ e) by (apply Z.pow_pos_nonneg; lia). assert (2 ^ e <= 2 ^ 104) by (apply Z.pow_le_mono_r; lia).
    split_and!; [lia|nia| |].
    + change (reaches (39 - Z.of_nat 90) (Zpos m * 2 ^ e) 1) with (1 <=? (Zpos m * 2 ^ e) * 10 ^ 51). nia.
    + change (reaches (39 + 1) (Zpos m * 2 ^ e) 1) with (1 * 10 ^ 40 <=? Zpos m * 2 ^ e). nia.
  - assert (0 < 2 ^ (- e)) by (apply Z.pow_pos_nonneg; lia). assert (2 ^ (- e) <= 2 ^ 149) by (apply Z.pow_le_mono_r; lia).
    split_and!; [lia|lia| |].
    + change (reaches (39 - Z.of_nat 90) (Zpos m) (2 ^ (- e))) with (2 ^ (- e) <=? Zpos m * 10 ^ 51). lia.
    + change (reaches (39 + 1) (Zpos m) (2 ^ (- e))) with (2 ^ (- e) * 10 ^ 40 <=? Zpos m). nia.
Qed.

Definition sign_text (s : bool) : list Z := if s then [45] else [].

(** What is printed of a finite number, and of any. *)
Lemma print_g32_number prec s m e : 0 < prec <= 8 -> Zpos m < 2 ^ 24 -> -149 <= e <= 104 ->
  exists ds point exponent, print_g32 prec (S754_finite s m e) = sign_text s ++ ds ++ point ++ exponent /\
    plain_number ds point exponent.
Proof.
  intros Hp Hm He. unfold print_g32, print_g. pose proof (range_reaches m e Hm He) as Hr.
  destruct (if 0 <=? e then _ else _) as [num den]. destruct Hr as (Hd & Hn & Hlow & Htop).
  pose proof (sig_digits_bounds 90 39 prec num den ltac:(lia) Hd Hn Hlow Htop) as Hb.
  destruct (sig_digits 90 39 prec num den) as [d x]. cbn [fst] in Hb.
  destruct (g_text_number prec d x Hp Hb) as (ds & point & exponent & -> & Hpn). exists ds, point, exponent. done.
Qed.

Lemma plain_chars ds point exponent : plain_number ds point exponent ->
  Forall (fun c => IsValidFloatChar c = true \/ c = 46) (ds ++ point ++ exponent).
Proof.
  intros [Hd _ _ _ Hp He].
  assert (forall l, digits l -> Forall (fun c => IsValidFloatChar c = true \/ c = 46) l) as H.
  { intros l Hl. eapply Forall_impl; [exact Hl|]. unfold is_dec, IsValidFloatChar. intros c Hc. left. lia. }
  apply Forall_app. split; [by apply H|]. apply Forall_app. split.
  - destruct Hp as [->|(fs & -> & Hf)]; [constructor|]. constructor; [by right|by apply H].
  - destruct He as [->|(sign & d & fs & -> & Hs & Hdd & Hf)]; [constructor|]. constructor; [by left|].
    constructor; [destruct Hs as [-> | ->]; by left|]. by apply H; constructor.
Qed.

Lemma DelocalizeRadix_plain t : Forall (fun c => IsValidFloatChar c = true \/ c = 46) t -> DelocalizeRadix t = t.
Proof.
  intros Ht. unfold DelocalizeRadix. case_bool_decide as Hin; [done|]. induction Ht as [|c t Hc Ht IH]; [done|]. cbn.
  destruct Hc as [-> | ->]; [|by destruct Hin; left]. f_equal. apply IH. intros H. by destruct Hin; right.
Qed.

Lemma SimpleFtoa_shape v : 0 <= v < 2 ^ 32 -> exists s body, SimpleFtoa v = sign_text s ++ body /\
  (body = text_inf \/ body = text_nan \/ exists ds point exponent, body = ds ++ point ++ exponent /\ plain_number ds point exponent).
Proof.
  intros Hv. unfold SimpleFtoa, FloatToBuffer. destruct (f32_of_bits v) as [s|s| |s m e] eqn:Ef.
  - exists s, [48]. split; [by destruct s|]. right. right. exists [48], [], []. split; [done|].
    split; [constructor; [unfold is_dec; lia|constructor]|done|done|cbn; lia|by left|by left].
  - exists s, text_inf. split; [by destruct s|by left].
  - exists false, text_nan. split; [done|by right; left].
  - destruct (f32_bits_bounds v s m e Hv Ef) as [Hm He]. destruct (safe_strtof _) as [ok parsed]. cbv zeta.
    assert (exists ds point exponent, (if negb ok || negb (SFeqb parsed (S754_finite s m e))
      then snprintf kFloatToBufferSize (print_g32 (FLT_DIG + 2) (S754_finite s m e))
      else snprintf kFloatToBufferSize (print_g32 FLT_DIG (S754_finite s m e))) = sign_text s ++ ds ++ point ++ exponent /\
      plain_number ds point exponent) as (ds & point & exponent & -> & Hpn).
    { destruct (_ || _); rewrite snprintf_float by (unfold FLT_DIG; lia); apply print_g32_number; (done || unfold FLT_DIG; lia). }
    exists s, (ds ++ point ++ exponent). split; [|right; right; by exists ds, point, exponent].
    apply DelocalizeRadix_plain. apply Forall_app. split; [|by apply plain_chars]. destruct s; [by constructor; [left|]|constructor].
Qed.

(** ** What [strtod] makes of them *)

Definition no_digit (l : list Z) : Prop := is_dec (hd 0 l) -> False.

Lemma digits_prefix_spec ds r : digits ds -> no_digit r -> forall acc count, exists x,
  digits_prefix (ds ++ r) acc count = (x, count + Z.of_nat (length ds), r).
Proof.
  intros Hds Hr. induction Hds as [|d ds Hd _ IH]; intros acc count.
  - exists acc. destruct r as [|c r]; [by rewrite Z.add_0_r|]. cbn. unfold no_digit, is_dec in Hr. cbn in Hr.
    destruct (Z.leb_spec 48 c), (Z.leb_spec c 57); cbn [andb]; rewrite ?Z.add_0_r; done || (destruct Hr; lia).
  - cbn [app digits_prefix]. unfold is_dec in Hd. destruct (Z.leb_spec 48 d), (Z.leb_spec d 57); try lia. cbn [andb].
    destruct (IH (acc * 10 + (d - 48)) (count + 1)) as [x ->]. exists x. cbn [length]. do 2 f_equal. lia.
Qed.

Lemma digits_prefix_value ds acc count : digits ds ->
  digits_prefix ds acc count = (foldl (fun a c => a * 10 + (c - 48)) acc ds, count + Z.of_nat (length ds), []).
Proof.
  intros Hds. revert acc count. induction Hds as [|d ds Hd _ IH]; intros acc count; [by rewrite Z.add_0_r|].
  cbn [digits_prefix foldl]. unfold is_dec in Hd. destruct (Z.leb_spec 48 d), (Z.leb_spec d 57); try lia. cbn [andb].
  rewrite IH. cbn [length]. do 2 f_equal. lia.
Qed.

Lemma signed_digits ds r : digits ds -> ds <> [] -> signed_prefix (ds ++ r) = (false, ds ++ r).
Proof.
  intros Hds Hne. destruct ds as [|d ds]; [done|]. apply Forall_cons in Hds as [Hd _]. unfold is_dec in Hd. cbn [app signed_prefix].
  generalize (ds ++ r). intros l. destruct d as [|p|p]; [done| |done]. do 6 (destruct p as [p|p|]; try done || lia).
Qed.

Lemma scan_exponent_spec exponent : exponent_ok exponent -> exists x, scan_exponent exponent = (x, []).
Proof.
  intros [->|(sign & d & ds & -> & Hs & Hd & Hds)]; [by exists 0|]. cbn [scan_exponent Z.eqb orb].
  assert (digits (d :: ds)) as Hall by by constructor.
  assert (signed_prefix (sign :: d :: ds) = (bool_decide (sign = 45), d :: ds)) as -> by by destruct Hs as [-> | ->].
  rewrite digits_prefix_value by done. destruct (Z.eqb_spec (0 + Z.of_nat (length (d :: ds))) 0); [cbn in *; lia|].
  by destruct (bool_decide _); eexists.
Qed.

Lemma strtod_plain ds point exponent : plain_number ds point exponent ->
  exists d ok, strtod (ds ++ point ++ exponent) = (d, [], ok).
Proof.
  intros [Hd Hne _ _ Hp He]. unfold strtod, scan_decimal. rewrite signed_digits by done.
  assert (no_digit (point ++ exponent)) as Hnd.
  { unfold no_digit, is_dec. destruct Hp as [->|(? & -> & _)]; [|cbn; lia]. destruct He as [->|(? & ? & ? & -> & _)]; cbn; lia. }
  destruct (digits_prefix_spec ds (point ++ exponent) Hd Hnd 0 0) as [x ->].
  assert (no_digit exponent) as Hne'.
  { unfold no_digit, is_dec. destruct He as [->|(? & ? & ? & -> & _)]; cbn; lia. }
  assert (0 < Z.of_nat (length ds)) by (destruct ds; [done|cbn; lia]).
  destruct (scan_exponent_spec exponent He) as [ex Hex].
  assert (exists x' k, (match point ++ exponent with 46 :: l => digits_prefix l x 0 | _ => (x, 0, point ++ exponent) end) = (x', k, exponent) /\ 0 <= k)
    as (x' & k & -> & Hk).
  { destruct Hp as [->|(fs & -> & Hfs)]; cbn [app].
    - exists x, 0. split; [|done]. destruct He as [->|(? & ? & ? & -> & _)]; done.
    - destruct (digits_prefix_spec fs exponent Hfs Hne' x 0) as [x' ->]. exists x', (0 + Z.of_nat (length fs)). split; [done|lia]. }
  destruct (Z.eqb_spec (0 + Z.of_nat (length ds) + k) 0); [lia|]. rewrite Hex. eauto.
Qed.

(** The double that a text stands for. *)
Definition unsigned_double (t : list Z) : float64 :=
  if bool_decide (t = text_inf) then S754_infinity false
  else if bool_decide (t = text_nan) then S754_nan
  else fst (fst (strtod t)).
Definition text_double (t : list Z) : float64 :=
  match t with 45 :: t => SFopp (unsigned_double t) | _ => unsigned_double t end.

(** A [float] that is printed and read. *)
Definition reread_float (nan_bits v : Z) : Z := bits_of_f32 nan_bits (f32_of_f64 (text_double (SimpleFtoa v))).

Lemma plain_value ds : digits ds -> ds <> [] ->
  fst (fst (strtod ds)) = f64_of_decimal false (digits_value 10 (fun c => c - 48) ds) 0.
Proof.
  intros Hd Hne. unfold strtod, scan_decimal. rewrite <- (app_nil_r ds) at 1. rewrite signed_digits by done. rewrite app_nil_r.
  rewrite digits_prefix_value by done. cbn [Z.add].
  assert (0 < Z.of_nat (length ds)) by (destruct ds; [done|cbn; lia]).
  destruct (Z.eqb_spec (0 + Z.of_nat (length ds) + 0) 0); [lia|]. done.
Qed.
