(* ===== verification/Tokenizer.v ===== *)
(** The tokenizer of the text format (google/protobuf/io/tokenizer.h, tokenizer.cc) over the
    buffers of an input stream, and [NoLocaleStrtod] (io/strtod.cc). *)

From Stdlib Require Import String.
From S2P Require Import Prelude CMem Coded StrUtil FloatText.

(** * Character classes *)

(** A character is given by its byte; [char] is signed. *)
Definition Whitespace (c : Z) : bool :=
  (c =? 32) || (c =? 10) || (c =? 9) || (c =? 13) || (c =? 11) || (c =? 12).
Definition WhitespaceNoNewline (c : Z) : bool :=
  (c =? 32) || (c =? 9) || (c =? 13) || (c =? 11) || (c =? 12).
Definition Unprintable (c : Z) : bool := (s8 c <? 32) && (0 <? s8 c).
Definition Digit (c : Z) : bool := (48 <=? c) && (c <=? 57).
Definition OctalDigit (c : Z) : bool := (48 <=? c) && (c <=? 55).
Definition HexDigit (c : Z) : bool :=
  ((48 <=? c) && (c <=? 57)) || ((97 <=? c) && (c <=? 102)) || ((65 <=? c) && (c <=? 70)).
Definition Letter (c : Z) : bool :=
  ((97 <=? c) && (c <=? 122)) || ((65 <=? c) && (c <=? 90)) || (c =? 95).
Definition Alphanumeric (c : Z) : bool :=
  ((97 <=? c) && (c <=? 122)) || ((65 <=? c) && (c <=? 90)) || ((48 <=? c) && (c <=? 57)) || (c =? 95).
Definition EscapeLetter (c : Z) : bool :=
  bool_decide (c ∈ [97; 98; 102; 110; 114; 116; 118; 92; 63; 39; 34]).

Definition DigitValue (digit : Z) : Z :=
  if (48 <=? digit) && (digit <=? 57) then digit - 48
  else if (97 <=? digit) && (digit <=? 122) then digit - 97 + 10
  else if (65 <=? digit) && (digit <=? 90) then digit - 65 + 10
  else -1.

Definition TranslateEscape (c : Z) : Z :=
  if c =? 97 then 7
  else if c =? 98 then 8
  else if c =? 102 then 12
  else if c =? 110 then 10
  else if c =? 114 then 13
  else if c =? 116 then 9
  else if c =? 118 then 11
  else if (c =? 92) || (c =? 63) || (c =? 39) || (c =? 34) then c
  else 63.

(** * Interfaces *)

(** [Next] hands out the bytes of a buffer. *)
Class ZeroCopyInputStream (T : Type) := {
  input_Next : T -> result (option (list Z) * T);
  input_BackUp : Z -> T -> result T
}.

(** An [ArrayInputStream] over the memory [m]. *)
Definition array_input (m : mem) : ZeroCopyInputStream ArrayInputStream := {|
  input_Next a :=
    let '(r, a) := ArrayInputStream_Next a in
    match r with
    | Some (data, size) => bs ← load_bytes m data (Z.to_nat size); Ok (Some bs, a)
    | None => Ok (None, a)
    end;
  input_BackUp := ArrayInputStream_BackUp
|}.

Class ErrorCollector (E : Type) := {
  CollectError : Z -> Z -> list Z -> E -> E
}.

(** * Tokens *)

Inductive TokenType :=
  | TYPE_START
  | TYPE_END
  | TYPE_IDENTIFIER
  | TYPE_INTEGER
  | TYPE_FLOATING
  | TYPE_STRING_LITERAL
  | TYPE_SYMBOL.

#[export] Instance TokenType_eq_dec : EqDecision TokenType.
Proof. solve_decision. Defined.

Record Token := mktoken {
  tok_type : TokenType;
  tok_text : list Z;
  tok_line : Z;
  tok_column : Z;
  tok_end_column : Z
}.

Inductive CommentStyle := CPP_COMMENT_STYLE | SH_COMMENT_STYLE.
Inductive NextCommentStatus := LINE_COMMENT | BLOCK_COMMENT | SLASH_NOT_COMMENT | NO_COMMENT.

(** Which string [record_target_] points to: the text of the current token or that of a
    comment. *)
Inductive recording := RecordToken | RecordContent.

Definition kTabWidth : Z := 8.

Section Tokenizer.
Context {T E : Type} `{ZeroCopyInputStream T, ErrorCollector E}.

(** A null [buffer_] or [record_target_] is [None]; [content_] is the string that the text of a
    comment is recorded in. *)
Record Tokenizer := mktokenizer {
  current_ : Token;
  previous_ : Token;
  tk_input_ : T;
  error_collector_ : E;
  current_char_ : Z;
  tk_buffer_ : option (list Z);
  tk_buffer_size_ : Z;
  buffer_pos_ : Z;
  read_error_ : bool;
  line_ : Z;
  column_ : Z;
  record_target_ : option recording;
  record_start_ : Z;
  content_ : list Z;
  allow_f_after_float_ : bool;
  comment_style_ : CommentStyle
}.

Abbreviation Tok := (ST Tokenizer).

Definition set_tokens (current previous : Token) (s : Tokenizer) : Tokenizer :=
  mktokenizer current previous (tk_input_ s) (error_collector_ s) (current_char_ s) (tk_buffer_ s)
    (tk_buffer_size_ s) (buffer_pos_ s) (read_error_ s) (line_ s) (column_ s) (record_target_ s)
    (record_start_ s) (content_ s) (allow_f_after_float_ s) (comment_style_ s).
Definition set_collector (e : E) (s : Tokenizer) : Tokenizer :=
  mktokenizer (current_ s) (previous_ s) (tk_input_ s) e (current_char_ s) (tk_buffer_ s)
    (tk_buffer_size_ s) (buffer_pos_ s) (read_error_ s) (line_ s) (column_ s) (record_target_ s)
    (record_start_ s) (content_ s) (allow_f_after_float_ s) (comment_style_ s).
Definition set_source (input : T) (c : Z) (buffer : option (list Z)) (size pos : Z) (err : bool)
    (s : Tokenizer) : Tokenizer :=
  mktokenizer (current_ s) (previous_ s) input (error_collector_ s) c buffer size pos err
    (line_ s) (column_ s) (record_target_ s) (record_start_ s) (content_ s)
    (allow_f_after_float_ s) (comment_style_ s).
Definition set_position (line column : Z) (s : Tokenizer) : Tokenizer :=
  mktokenizer (current_ s) (previous_ s) (tk_input_ s) (error_collector_ s) (current_char_ s)
    (tk_buffer_ s) (tk_buffer_size_ s) (buffer_pos_ s) (read_error_ s) line column
    (record_target_ s) (record_start_ s) (content_ s) (allow_f_after_float_ s) (comment_style_ s).
Definition set_record (target : option recording) (start : Z) (s : Tokenizer) : Tokenizer :=
  mktokenizer (current_ s) (previous_ s) (tk_input_ s) (error_collector_ s) (current_char_ s)
    (tk_buffer_ s) (tk_buffer_size_ s) (buffer_pos_ s) (read_error_ s) (line_ s) (column_ s)
    target start (content_ s) (allow_f_after_float_ s) (comment_style_ s).
Definition set_content (content : list Z) (s : Tokenizer) : Tokenizer :=
  mktokenizer (current_ s) (previous_ s) (tk_input_ s) (error_collector_ s) (current_char_ s)
    (tk_buffer_ s) (tk_buffer_size_ s) (buffer_pos_ s) (read_error_ s) (line_ s) (column_ s)
    (record_target_ s) (record_start_ s) content (allow_f_after_float_ s) (comment_style_ s).
Definition set_options (allow_f : bool) (style : CommentStyle) (s : Tokenizer) : Tokenizer :=
  mktokenizer (current_ s) (previous_ s) (tk_input_ s) (error_collector_ s) (current_char_ s)
    (tk_buffer_ s) (tk_buffer_size_ s) (buffer_pos_ s) (read_error_ s) (line_ s) (column_ s)
    (record_target_ s) (record_start_ s) (content_ s) allow_f style.

Definition set_current (t : Token) (s : Tokenizer) : Tokenizer := set_tokens t (previous_ s) s.
Definition set_char (c : Z) (s : Tokenizer) : Tokenizer :=
  set_source (tk_input_ s) c (tk_buffer_ s) (tk_buffer_size_ s) (buffer_pos_ s) (read_error_ s) s.
Definition set_text (text : list Z) (t : Token) : Token :=
  mktoken (tok_type t) text (tok_line t) (tok_column t) (tok_end_column t).
Definition set_type (type : TokenType) (t : Token) : Token :=
  mktoken type (tok_text t) (tok_line t) (tok_column t) (tok_end_column t).

(** [record_target_->append(piece)]. *)
Definition append_target (piece : list Z) : Tok unit :=
  s ← st_get;
  match record_target_ s with
  | None => st_fault NullDeref
  | Some RecordToken => st_put (set_current (set_text (tok_text (current_ s) ++ piece) (current_ s)) s)
  | Some RecordContent => st_put (set_content (content_ s ++ piece) s)
  end.

(** [record_target_->append(buffer_ + record_start_, n)]. *)
Definition append_record (n : Z) : Tok unit :=
  s ← st_get;
  match tk_buffer_ s with
  | None => st_fault NullDeref
  | Some buffer =>
      piece ← st_lift (string_range buffer (record_start_ s) (record_start_ s + n));
      append_target piece
  end.

(** Rounds of each loop: more than the stream has characters and empty buffers. *)
Context (rounds : nat).

(** [do ... while (buffer_size_ == 0)]. *)
Definition refresh_body (_ : unit) : Tok (unit + unit) :=
  s ← st_get;
  r ← st_lift (input_Next (tk_input_ s));
  match r with
  | (None, input) => st_put (set_source input 0 None 0 0 true s);; mret (inr tt)
  | (Some [], input) =>
      st_put (set_source input (current_char_ s) None 0 0 (read_error_ s) s);; mret (inl tt)
  | (Some ((c :: _) as data), input) =>
      st_put (set_source input c (Some data) (Z.of_nat (length data)) 0 (read_error_ s) s);;
      mret (inr tt)
  end.

Definition Refresh : Tok unit :=
  s ← st_get;
  if read_error_ s then st_put (set_char 0 s)
  else
    (if bool_decide (record_target_ s <> None) && (record_start_ s <? tk_buffer_size_ s) then
       append_record (tk_buffer_size_ s - record_start_ s);;
       st_modify (fun s => set_record (record_target_ s) 0 s)
     else mret tt : Tok unit);;
    st_loop rounds refresh_body tt.

(** Line and column are [int]s that wrap around; the position in the buffer is at most its
    [int] size, and behind the end of the stream it counts the calls. *)
Definition NextChar : Tok unit :=
  s ← st_get;
  let s := if current_char_ s =? 10 then set_position (s32 (line_ s + 1)) 0 s
           else if current_char_ s =? 9 then
             set_position (line_ s) (s32 (column_ s + (kTabWidth - Z.rem (column_ s) kTabWidth))) s
           else set_position (line_ s) (s32 (column_ s + 1)) s in
  let pos := buffer_pos_ s + 1 in
  let s := set_source (tk_input_ s) (current_char_ s) (tk_buffer_ s) (tk_buffer_size_ s) pos (read_error_ s) s in
  if pos <? tk_buffer_size_ s then
    match tk_buffer_ s with
    | None => st_fault NullDeref
    | Some buffer => c ← st_lift (peek buffer pos); st_put (set_char c s)
    end
  else st_put s;; Refresh.

Definition RecordTo (target : recording) : Tok unit :=
  st_modify (fun s => set_record (Some target) (buffer_pos_ s) s).

Definition StopRecording : Tok unit :=
  s ← st_get;
  (if buffer_pos_ s =? record_start_ s then mret tt
   else append_record (buffer_pos_ s - record_start_ s) : Tok unit);;
  st_modify (set_record None (-1)).

Definition StartToken : Tok unit :=
  st_modify (fun s => set_current (mktoken TYPE_START [] (line_ s) (column_ s)
                                     (tok_end_column (current_ s))) s);;
  RecordTo RecordToken.

Definition EndToken : Tok unit :=
  StopRecording;;
  st_modify (fun s => let t := current_ s in
    set_current (mktoken (tok_type t) (tok_text t) (tok_line t) (tok_column t) (column_ s)) s).

Definition AddError (message : list Z) : Tok unit :=
  st_modify (fun s => set_collector (CollectError (line_ s) (column_ s) message (error_collector_ s)) s).

(** * Consuming characters *)

(** [current_char_]. *)
Definition get_char : Tok Z := s ← st_get; mret (current_char_ s).

Definition LookingAtClass (InClass : Z -> bool) : Tok bool := c ← get_char; mret (InClass c).

Definition TryConsumeOne (InClass : Z -> bool) : Tok bool :=
  c ← get_char;
  if InClass c then NextChar;; mret true else mret false.

Definition TryConsume (c : Z) : Tok bool := TryConsumeOne (fun x => x =? c).

Definition consume_body (InClass : Z -> bool) (_ : unit) : Tok (unit + unit) :=
  c ← get_char;
  if InClass c then NextChar;; mret (inl tt) else mret (inr tt).

Definition ConsumeZeroOrMore (InClass : Z -> bool) : Tok unit :=
  st_loop rounds (consume_body InClass) tt.

Definition ConsumeOneOrMore (InClass : Z -> bool) (error : list Z) : Tok unit :=
  c ← get_char;
  if negb (InClass c) then AddError error
  else NextChar;; ConsumeZeroOrMore InClass.

(** [TryA() || TryB()], and [!TryA() || !TryB() || ...] negated. *)
Definition orelse (a b : Tok bool) : Tok bool := r ← a; if (r : bool) then mret true else b.
Definition all_of (l : list (Tok bool)) : Tok bool :=
  foldr (fun (a rest : Tok bool) => r ← a; if (r : bool) then rest else mret false) (mret true) l.

(** What is behind the backslash of an escape sequence. *)
Definition consume_escape : Tok unit :=
  r ← TryConsumeOne EscapeLetter;
  if (r : bool) then mret tt
  else
    r ← TryConsumeOne OctalDigit;
    if (r : bool) then mret tt
    else
      r ← orelse (TryConsume 120) (TryConsume 88);
      if (r : bool) then
        r ← TryConsumeOne HexDigit;
        if (r : bool) then mret tt else AddError (text "Expected hex digits for escape sequence.")
      else
        r ← TryConsume 117;
        if (r : bool) then
          r ← all_of [TryConsumeOne HexDigit; TryConsumeOne HexDigit; TryConsumeOne HexDigit;
                      TryConsumeOne HexDigit];
          if (r : bool) then mret tt
          else AddError (text "Expected four hex digits for \u escape sequence.")
        else
          r ← TryConsume 85;
          if (r : bool) then
            r ← all_of [TryConsume 48; TryConsume 48; orelse (TryConsume 48) (TryConsume 49);
                        TryConsumeOne HexDigit; TryConsumeOne HexDigit; TryConsumeOne HexDigit;
                        TryConsumeOne HexDigit; TryConsumeOne HexDigit];
            if (r : bool) then mret tt
            else AddError (text "Expected eight hex digits up to 10ffff for \U escape sequence")
          else AddError (text "Invalid escape sequence in string literal.").

Definition string_body (delimiter : Z) (_ : unit) : Tok (unit + unit) :=
  c ← get_char;
  if (c =? 0) || (c =? 10) then
    AddError (text "String literals cannot cross line boundaries.");; mret (inr tt)
  else if c =? 92 then NextChar;; consume_escape;; mret (inl tt)
  else if c =? delimiter then NextChar;; mret (inr tt)
  else NextChar;; mret (inl tt).

Definition ConsumeString (delimiter : Z) : Tok unit := st_loop rounds (string_body delimiter) tt.

(** The decimal case of [ConsumeNumber]: whether the number is a [float]. *)
Definition consume_decimal (started_with_dot : bool) : Tok bool :=
  ConsumeZeroOrMore Digit;;
  dot ← (if started_with_dot then mret true
         else r ← TryConsume 46;
              if (r : bool) then ConsumeZeroOrMore Digit;; mret true else mret false) : Tok bool;
  exponent ← orelse (TryConsume 101) (TryConsume 69);
  (if (exponent : bool) then
     orelse (TryConsume 45) (TryConsume 43);;
     ConsumeOneOrMore Digit ([34] ++ text "e" ++ [34] ++ text " must be followed by exponent.")
   else mret tt : Tok unit);;
  s ← st_get;
  suffix ← (if allow_f_after_float_ s then orelse (TryConsume 102) (TryConsume 70)
            else mret false) : Tok bool;
  mret (dot || exponent || suffix).

Definition ConsumeNumber (started_with_zero started_with_dot : bool) : Tok TokenType :=
  hex ← (if started_with_zero then orelse (TryConsume 120) (TryConsume 88) else mret false) : Tok bool;
  is_float ← (if (hex : bool) then
                ConsumeOneOrMore HexDigit ([34] ++ text "0x" ++ [34] ++ text " must be followed by hex digits.");;
                mret false
              else
                octal ← (if started_with_zero then LookingAtClass Digit else mret false) : Tok bool;
                if (octal : bool) then
                  ConsumeZeroOrMore OctalDigit;;
                  more ← LookingAtClass Digit;
                  (if (more : bool) then
                     AddError (text "Numbers starting with leading zero must be in octal.");;
                     ConsumeZeroOrMore Digit
                   else mret tt : Tok unit);;
                  mret false
                else consume_decimal started_with_dot) : Tok bool;
  c ← get_char;
  (if Letter c then AddError (text "Need space between number and identifier.")
   else if c =? 46 then
     AddError (if (is_float : bool)
               then text "Already saw decimal point or exponent; can't have another one."
               else text "Hex and octal numbers must be integers.")
   else mret tt : Tok unit);;
  mret (if (is_float : bool) then TYPE_FLOATING else TYPE_INTEGER).

(** * Comments *)

(** [content] says whether the text of the comment is recorded. *)
Definition when (b : bool) (m : Tok unit) : Tok unit := if b then m else mret tt.

Definition ConsumeLineComment (content : bool) : Tok unit :=
  when content (RecordTo RecordContent);;
  ConsumeZeroOrMore (fun c => negb (c =? 0) && negb (c =? 10));;
  TryConsume 10;;
  when content StopRecording.

Definition block_body (content : bool) (start_line start_column : Z) (_ : unit) : Tok (unit + unit) :=
  ConsumeZeroOrMore (fun c => negb (c =? 0) && negb (c =? 42) && negb (c =? 47) && negb (c =? 10));;
  newline ← TryConsume 10;
  if (newline : bool) then
    when content StopRecording;;
    ConsumeZeroOrMore WhitespaceNoNewline;;
    r ← all_of [TryConsume 42; TryConsume 47];
    if (r : bool) then mret (inr tt) else when content (RecordTo RecordContent);; mret (inl tt)
  else
    r ← all_of [TryConsume 42; TryConsume 47];
    if (r : bool) then
      when content (StopRecording;;
                    st_modify (fun s => set_content (take (length (content_ s) - 2) (content_ s)) s));;
      mret (inr tt)
    else
      r ← all_of [TryConsume 47; LookingAtClass (fun c => c =? 42)];
      if (r : bool) then
        AddError ([34] ++ text "/*" ++ [34] ++ text " inside block comment.  Block comments cannot be nested.");;
        mret (inl tt)
      else
        c ← get_char;
        if c =? 0 then
          AddError (text "End-of-file inside block comment.");;
          st_modify (fun s => set_collector (CollectError start_line start_column
            (text "  Comment started here.") (error_collector_ s)) s);;
          when content StopRecording;;
          mret (inr tt)
        else mret (inl tt).

Definition ConsumeBlockComment (content : bool) : Tok unit :=
  s ← st_get;
  when content (RecordTo RecordContent);;
  st_loop rounds (block_body content (line_ s) (s32 (column_ s - 2))) tt.

Definition TryConsumeCommentStart : Tok NextCommentStatus :=
  s ← st_get;
  match comment_style_ s with
  | CPP_COMMENT_STYLE =>
      r ← TryConsume 47;
      if (r : bool) then
        line ← TryConsume 47;
        if (line : bool) then mret LINE_COMMENT
        else
          block ← TryConsume 42;
          if (block : bool) then mret BLOCK_COMMENT
          else
            st_modify (fun s => set_current (mktoken TYPE_SYMBOL (text "/") (line_ s)
                                               (s32 (column_ s - 1)) (column_ s)) s);;
            mret SLASH_NOT_COMMENT
      else mret NO_COMMENT
  | SH_COMMENT_STYLE =>
      r ← TryConsume 35;
      mret (if (r : bool) then LINE_COMMENT else NO_COMMENT)
  end.

(** * [Next] *)

Definition assign_type (type : TokenType) : Tok unit :=
  st_modify (fun s => set_current (set_type type (current_ s)) s).

(** The token behind [StartToken]: its type. *)
Definition consume_token : Tok TokenType :=
  r ← TryConsumeOne Letter;
  if (r : bool) then ConsumeZeroOrMore Alphanumeric;; mret TYPE_IDENTIFIER
  else
    r ← TryConsume 48;
    if (r : bool) then ConsumeNumber true false
    else
      r ← TryConsume 46;
      if (r : bool) then
        r ← TryConsumeOne Digit;
        if (r : bool) then
          s ← st_get;
          let '(c, p) := (current_ s, previous_ s) in
          (if bool_decide (tok_type p = TYPE_IDENTIFIER) && (tok_line c =? tok_line p) &&
              (tok_column c =? tok_end_column p)
           then st_modify (fun s => set_collector (CollectError (line_ s) (s32 (column_ s - 2))
                  (text "Need space between identifier and decimal point.") (error_collector_ s)) s)
           else mret tt : Tok unit);;
          ConsumeNumber false true
        else mret TYPE_SYMBOL
      else
        r ← TryConsumeOne Digit;
        if (r : bool) then ConsumeNumber false false
        else
          r ← TryConsume 34;
          if (r : bool) then ConsumeString 34;; mret TYPE_STRING_LITERAL
          else
            r ← TryConsume 39;
            if (r : bool) then ConsumeString 39;; mret TYPE_STRING_LITERAL
            else NextChar;; mret TYPE_SYMBOL.

(** [TryConsumeOne<Unprintable>() || (!read_error_ && TryConsume('\0'))]. *)
Definition skip_control_body (_ : unit) : Tok (unit + unit) :=
  r ← orelse (TryConsumeOne Unprintable)
        (s ← st_get; if read_error_ s then mret false else TryConsume 0);
  mret (if (r : bool) then inl tt else inr tt).

Definition end_of_input : Tok (unit + bool) :=
  st_modify (fun s => set_current (mktoken TYPE_END [] (line_ s) (column_ s) (column_ s)) s);;
  mret (inr false).

(** One round of the loop; [false] is the end of the input. *)
Definition next_body (_ : unit) : Tok (unit + bool) :=
  s ← st_get;
  if read_error_ s then end_of_input
  else
    ConsumeZeroOrMore Whitespace;;
    comment ← TryConsumeCommentStart;
    match comment with
    | LINE_COMMENT => ConsumeLineComment false;; mret (inl tt)
    | BLOCK_COMMENT => ConsumeBlockComment false;; mret (inl tt)
    | SLASH_NOT_COMMENT => mret (inr true)
    | NO_COMMENT =>
        s ← st_get;
        if read_error_ s then end_of_input
        else if Unprintable (current_char_ s) || (current_char_ s =? 0) then
          AddError (text "Invalid control characters encountered in text.");;
          NextChar;;
          st_loop rounds skip_control_body tt;;
          mret (inl tt)
        else
          StartToken;;
          type ← consume_token;
          assign_type type;;
          EndToken;;
          mret (inr true)
    end.

Definition Next : Tok bool :=
  st_modify (fun s => set_tokens (current_ s) (current_ s) s);;
  st_loop rounds next_body tt.

Definition Tokenizer_new (input : T) (error_collector : E) : result Tokenizer :=
  let start := mktoken TYPE_START [] 0 0 0 in
  r ← Refresh (mktokenizer start start input error_collector 0 None 0 0 false 0 0 None (-1) []
                 false CPP_COMMENT_STYLE);
  Ok (snd (r : unit * Tokenizer)).

Definition Tokenizer_destroy (s : Tokenizer) : result T :=
  if buffer_pos_ s <? tk_buffer_size_ s
  then input_BackUp (tk_buffer_size_ s - buffer_pos_ s) (tk_input_ s) else Ok (tk_input_ s).
End Tokenizer.
Arguments Tokenizer : clear implicits.

(** * The values of tokens *)

(** The digits of an integer; a digit that the base does not have ends the process of a debug
    build. *)
Fixpoint integer_loop (base max_value : Z) (l : list Z) (res : Z) : result (option Z) :=
  match l with
  | [] => Ok (Some res)
  | c :: l =>
      let digit := DigitValue c in
      if (digit <? 0) || (base <=? digit) then Fault AssertFailed
      else if (max_value <? digit) || ((max_value - digit) / base <? res) then Ok None
      else integer_loop base max_value l (u64 (res * base + digit))
  end.

(** The text up to its zero; [None] is an overflow. *)
Definition ParseInteger (txt : list Z) (max_value : Z) : result (option Z) :=
  match txt with
  | 48 :: x :: l =>
      if (x =? 120) || (x =? 88) then integer_loop 16 max_value l 0
      else integer_loop 8 max_value txt 0
  | 48 :: _ => integer_loop 8 max_value txt 0
  | _ => integer_loop 10 max_value txt 0
  end.

(** The text with the radix character of the locale in place of the point where [strtod] ended;
    in the C locale that is a point. *)
Definition LocalizeRadix (input radix_pos : list Z) : list Z :=
  take (length input - length radix_pos) input ++ [46] ++ drop 1 radix_pos.

(** The value and where the number ends. *)
Definition NoLocaleStrtod (txt : list Z) : float64 * list Z :=
  let '(res, temp_end, _) := strtod txt in
  match temp_end with
  | 46 :: _ =>
      let localized := LocalizeRadix txt temp_end in
      let '(res, localized_end, _) := strtod localized in
      if (length txt - length temp_end <? length localized - length localized_end)%nat
      then (res, drop (length localized - length localized_end) txt) else (res, temp_end)
  | _ => (res, temp_end)
  end.

(** The value, when the whole text is a number. *)
Definition ParseFloat (txt : list Z) : result float64 :=
  let '(res, l) := NoLocaleStrtod txt in
  let l := match l with
           | c :: l' =>
               if (c =? 101) || (c =? 69) then
                 match l' with s :: l'' => if (s =? 45) || (s =? 43) then l'' else l' | [] => [] end
               else l
           | [] => []
           end in
  let l := match l with c :: l' => if (c =? 102) || (c =? 70) then l' else l | [] => [] end in
  if bool_decide (l <> []) || match txt with 45 :: _ => true | _ => false end
  then Fault AssertFailed else Ok res.

(** * Strings *)

(** The bytes of the word in network order, the last [len] of them. *)
Definition utf8_bytes (tmp : Z) (len : nat) : list Z :=
  drop (4 - len) [bits tmp 24 8; bits tmp 16 8; bits tmp 8 8; bits tmp 0 8].

Definition AppendUTF8 (code_point : Z) : list Z :=
  if code_point <=? 0x7f then utf8_bytes code_point 1
  else if code_point <=? 0x07ff then
    utf8_bytes (Z.lor 0xc080 (Z.lor (Z.shiftl (Z.land code_point 0x07c0) 2) (Z.land code_point 0x3f))) 2
  else if code_point <=? 0xffff then
    utf8_bytes (Z.lor 0xe08080 (Z.lor (Z.shiftl (Z.land code_point 0xf000) 4)
      (Z.lor (Z.shiftl (Z.land code_point 0x0fc0) 2) (Z.land code_point 0x3f)))) 3
  else if code_point <=? 0x1fffff then
    utf8_bytes (Z.lor 0xf0808080 (Z.lor (Z.shiftl (Z.land code_point 0x1c0000) 6)
      (Z.lor (Z.shiftl (Z.land code_point 0x03f000) 4)
        (Z.lor (Z.shiftl (Z.land code_point 0x0fc0) 2) (Z.land code_point 0x3f))))) 4
  else text "\U" ++ Numerals.fixed 16 Numerals.hex_digit 8 code_point.

(** [len] hex digits of a text that ends with its zero. *)
Fixpoint read_hex_digits (ptr : list Z) (len : nat) (res : Z) : option Z :=
  match len, ptr with
  | O, _ => Some res
  | S _, [] => None
  | S len, c :: ptr => read_hex_digits ptr len (u32 (u32 (Z.shiftl res 4) + DigitValue c))
  end.
Definition ReadHexDigits (ptr : list Z) (len : nat) : option Z :=
  match len with O => None | _ => read_hex_digits ptr len 0 end.

Definition IsHeadSurrogate (code_point : Z) : bool := (0xd800 <=? code_point) && (code_point <? 0xdc00).
Definition IsTrailSurrogate (code_point : Z) : bool := (0xdc00 <=? code_point) && (code_point <? 0xe000).
Definition AssembleUTF16 (head_surrogate trail_surrogate : Z) : Z :=
  0x10000 + Z.lor (Z.shiftl (head_surrogate - 0xd800) 10) (trail_surrogate - 0xdc00).

Definition UnicodeLength (key : Z) : nat := if key =? 117 then 4 else if key =? 85 then 8 else 0.

(** The code point and what is behind it, for a text that begins with [u] or [U]. *)
Definition FetchUnicodePoint (ptr : list Z) : option (Z * list Z) :=
  match ptr with
  | [] => None
  | key :: p =>
      let len := UnicodeLength key in
      match ReadHexDigits p len with
      | None => None
      | Some code_point =>
          let p := drop len p in
          match p with
          | 92 :: 117 :: p' =>
              if IsHeadSurrogate code_point then
                match ReadHexDigits p' 4 with
                | Some trail =>
                    if IsTrailSurrogate trail then Some (AssembleUTF16 code_point trail, drop 4 p')
                    else Some (code_point, p)
                | None => Some (code_point, p)
                end
              else Some (code_point, p)
          | _ => Some (code_point, p)
          end
      end
  end.

(** [if (InClass(ptr\[1\])) { ++ptr; code = code * base + DigitValue( *ptr); }]. *)
Definition digit_step (InClass : Z -> bool) (base : Z) (x : Z * list Z) : Z * list Z :=
  match x with
  | (code, c :: p) => if InClass c then (code * base + DigitValue c, p) else x
  | _ => x
  end.

(** The characters behind the opening quote, one round each or for each escape. *)
Fixpoint string_chars (fuel : nat) (quote : Z) (p : list Z) : result (list Z) :=
  match fuel with
  | O => Fault OutOfFuel
  | S fuel =>
      match p with
      | [] => Ok []
      | 92 :: e :: p =>
          if OctalDigit e then
            let '(code, p) := digit_step OctalDigit 8 (digit_step OctalDigit 8 (DigitValue e, p)) in
            cons (u8 code) <$> string_chars fuel quote p
          else if e =? 120 then
            let '(code, p) := digit_step HexDigit 16 (digit_step HexDigit 16 (0, p)) in
            cons (u8 code) <$> string_chars fuel quote p
          else if (e =? 117) || (e =? 85) then
            match FetchUnicodePoint (e :: p) with
            | None => cons e <$> string_chars fuel quote p
            | Some (unicode, p) => app (AppendUTF8 unicode) <$> string_chars fuel quote p
            end
          else cons (TranslateEscape e) <$> string_chars fuel quote p
      | c :: p =>
          if (c =? quote) && bool_decide (p = []) then string_chars fuel quote p
          else cons c <$> string_chars fuel quote p
      end
  end.

(** [text.c_str()] ends at the first zero; an empty text is not a token. *)
Definition ParseStringAppend (txt output : list Z) : result (list Z) :=
  match txt with
  | [] => Fault AssertFailed
  | quote :: _ =>
      source ← c_string (txt ++ [0]) 0;
      chars ← string_chars (S (length txt)) quote (drop 1 source);
      Ok (output ++ chars)
  end.
