(* ===== verification/TextFormat.v ===== *)
(** [TextFormat::Printer] (google/protobuf/text_format.cc) on the classes the program prints:
    the fields of a message as reflection lists them (generated_message_reflection.cc), the
    unknown fields, and [DebugString]. *)

From Stdlib Require Import String.
From stdpp Require Import sorting.
From S2P Require Import Prelude CMem Coded Wire Messages NetMessages.
From S2P Require Import StrUtil Escape FloatText TextGen.

(** * Descriptors *)

Record FieldDescriptor := mkfield {
  fd_index : nat;
  fd_name : list Z;
  fd_number : Z;
  fd_type : FieldType;
  fd_repeated : bool
}.

Record Descriptor := mkdescriptor {
  d_full_name : list Z;
  d_fields : list FieldDescriptor
}.

(** The fields in the order of their declaration. *)
Definition fields_of (l : list (string * Z * FieldType * bool)) : list FieldDescriptor :=
  imap (fun i x => let '(name, number, type, repeated) := x in
                   mkfield i (text name) number type repeated) l.

Definition CNETMsg_Tick_descriptor : Descriptor :=
  mkdescriptor (text "CNETMsg_Tick") (fields_of
    [("tick", 1, TYPE_UINT32, false);
     ("host_computationtime", 4, TYPE_UINT32, false);
     ("host_computationtime_std_deviation", 5, TYPE_UINT32, false);
     ("host_framestarttime_std_deviation", 6, TYPE_UINT32, false)]%string).

Definition CNETMsg_SignonState_descriptor : Descriptor :=
  mkdescriptor (text "CNETMsg_SignonState") (fields_of
    [("signon_state", 1, TYPE_UINT32, false);
     ("spawn_count", 2, TYPE_UINT32, false);
     ("num_server_players", 3, TYPE_UINT32, false);
     ("players_networkids", 4, TYPE_STRING, true);
     ("map_name", 5, TYPE_STRING, false)]%string).

Definition CSVCMsg_ServerInfo_descriptor : Descriptor :=
  mkdescriptor (text "CSVCMsg_ServerInfo") (fields_of
    [("protocol", 1, TYPE_INT32, false);
     ("server_count", 2, TYPE_INT32, false);
     ("is_dedicated", 3, TYPE_BOOL, false);
     ("is_official_valve_server", 4, TYPE_BOOL, false);
     ("is_hltv", 5, TYPE_BOOL, false);
     ("is_replay", 6, TYPE_BOOL, false);
     ("is_redirecting_to_proxy_relay", 21, TYPE_BOOL, false);
     ("c_os", 7, TYPE_INT32, false);
     ("map_crc", 8, TYPE_FIXED32, false);
     ("client_crc", 9, TYPE_FIXED32, false);
     ("string_table_crc", 10, TYPE_FIXED32, false);
     ("max_clients", 11, TYPE_INT32, false);
     ("max_classes", 12, TYPE_INT32, false);
     ("player_slot", 13, TYPE_INT32, false);
     ("tick_interval", 14, TYPE_FLOAT, false);
     ("game_dir", 15, TYPE_STRING, false);
     ("map_name", 16, TYPE_STRING, false);
     ("map_group_name", 17, TYPE_STRING, false);
     ("sky_name", 18, TYPE_STRING, false);
     ("host_name", 19, TYPE_STRING, false);
     ("ugc_map_id", 22, TYPE_UINT64, false)]%string).

Definition CSVCMsg_PacketEntities_descriptor : Descriptor :=
  mkdescriptor (text "CSVCMsg_PacketEntities") (fields_of
    [("max_entries", 1, TYPE_INT32, false);
     ("updated_entries", 2, TYPE_INT32, false);
     ("is_delta", 3, TYPE_BOOL, false);
     ("update_baseline", 4, TYPE_BOOL, false);
     ("baseline", 5, TYPE_INT32, false);
     ("delta_from", 6, TYPE_INT32, false);
     ("entity_data", 7, TYPE_BYTES, false)]%string).

(** * Reflection *)

Definition HasBit (msg : message) (field : FieldDescriptor) : bool := has (fd_index field) msg.
Definition FieldSize (msg : message) (field : FieldDescriptor) : nat :=
  length (get_rep (fd_index field) msg).

(** In place of [sort], which leaves one result as the numbers differ. *)
Definition FieldNumberSorter (a b : FieldDescriptor) : Prop := fd_number a <= fd_number b.
#[export] Instance FieldNumberSorter_dec a b : Decision (FieldNumberSorter a b).
Proof. unfold FieldNumberSorter. apply _. Defined.

(** The objects that are printed are locals, not the default instance, and their classes have no
    extensions. *)
Definition ListFields (D : Descriptor) (msg : message) : list FieldDescriptor :=
  merge_sort FieldNumberSorter
    (filter (fun field => Is_true (if fd_repeated field then negb (FieldSize msg field =? 0)%nat
                                   else HasBit msg field)) (d_fields D)).

(** * The printer *)

Record Printer := mkprinter {
  initial_indent_level_ : Z;
  single_line_mode_ : bool;
  utf8_string_escaping_ : bool
}.

Definition Printer_new : Printer := mkprinter 0 false false.

Section Printer.
Context `{StringGrowth}.
(** What the stack holds in the buffers, and where the characters of strings are. *)
Context (junk : list Z) (data_at : Z).
Context (p : Printer).

Abbreviation Gen := (ST TextGenerator).

(** What ends a field, and what begins and ends a nested one. *)
Definition print_end : Gen unit := Print (if single_line_mode_ p then [32] else [10]).
Definition print_open : Gen unit :=
  if single_line_mode_ p then Print (text " { ") else Print (text " {" ++ [10]);; Indent.
Definition print_close : Gen unit :=
  if single_line_mode_ p then Print (text "} ") else Outdent;; Print (text "}" ++ [10]).

(** The value in double quotes. *)
Definition print_quoted (escaped : result (list Z)) : Gen unit :=
  Print [34];;
  v ← st_lift escaped;
  Print v;;
  Print [34].

(** A set of unknown fields; [fuel] is the depth of the calls, through groups and values that
    can be read as a message. *)
Fixpoint PrintUnknownFields (fuel : nat) (unknown_fields : list UnknownField) : Gen unit :=
  match fuel with
  | O => st_fault OutOfFuel
  | S fuel =>
      foldr (fun field (rest : Gen unit) =>
        (match field with
         | UVarint number varint =>
             field_number ← st_lift (SimpleItoa_int junk number);
             Print field_number;;
             Print (text ": ");;
             value ← st_lift (SimpleItoa_unsigned_long_long junk varint);
             Print value;;
             print_end
         | UFixed32 number fixed32 =>
             field_number ← st_lift (SimpleItoa_int junk number);
             Print field_number;;
             Print (text ": 0x");;
             value ← st_lift (with_buffer junk (FastHex32ToBuffer fixed32));
             Print value;;
             print_end
         | UFixed64 number fixed64 =>
             field_number ← st_lift (SimpleItoa_int junk number);
             Print field_number;;
             Print (text ": 0x");;
             value ← st_lift (with_buffer junk (FastHex64ToBuffer fixed64));
             Print value;;
             print_end
         | ULengthDelimited number value =>
             field_number ← st_lift (SimpleItoa_int junk number);
             Print field_number;;
             embedded ← st_lift (if bool_decide (value = []) then Ok (false, [])
                                 else UnknownFieldSet_ParseFromString data_at value);
             if fst (embedded : bool * list UnknownField) then
               print_open;;
               PrintUnknownFields fuel (snd embedded);;
               print_close
             else
               Print (text ": " ++ [34]);;
               v ← st_lift (CEscape junk value);
               Print v;;
               Print [34];;
               print_end
         | UGroup number group =>
             field_number ← st_lift (SimpleItoa_int junk number);
             Print field_number;;
             print_open;;
             PrintUnknownFields fuel group;;
             print_close
         end : Gen unit);;
        rest) (mret tt) unknown_fields
  end.

(** A value of a field that is not repeated, or the [index]th one. *)
Definition PrintFieldValue (msg : message) (field : FieldDescriptor) (index : nat) : Gen unit :=
  let i := fd_index field in
  let print (r : result (list Z)) : Gen unit := v ← st_lift r; Print v in
  match fd_type field with
  | TYPE_INT32 | TYPE_SINT32 => print (SimpleItoa_int junk (get_int i msg))
  | TYPE_INT64 => print (SimpleItoa_long_long junk (get_int i msg))
  | TYPE_UINT32 | TYPE_FIXED32 => print (SimpleItoa_unsigned_int junk (get_int i msg))
  | TYPE_UINT64 | TYPE_FIXED64 => print (SimpleItoa_unsigned_long_long junk (get_int i msg))
  | TYPE_FLOAT => Print (SimpleFtoa (get_int i msg))
  | TYPE_BOOL => Print (if get_int i msg =? 0 then text "false" else text "true")
  | TYPE_STRING | TYPE_BYTES =>
      v ← st_lift (if fd_repeated field
                   then match get_rep i msg !! index with
                        | Some v => Ok v
                        | None => Fault (TableIndex (Z.of_nat index))
                        end
                   else Ok (get_str i msg));
      print_quoted (if utf8_string_escaping_ p then Utf8SafeCEscape junk v else CEscape junk v)
  end.

Definition PrintFieldName (field : FieldDescriptor) : Gen unit := Print (fd_name field).

(** The fields of the four classes are neither messages nor repeated numbers. *)
Definition PrintField (msg : message) (field : FieldDescriptor) : Gen unit :=
  let count := if fd_repeated field then FieldSize msg field
               else if HasBit msg field then 1%nat else O in
  foldr (fun j (rest : Gen unit) =>
    PrintFieldName field;;
    Print (text ": ");;
    PrintFieldValue msg field j;;
    print_end;;
    rest) (mret tt) (seq 0 count).

Definition PrintMessage (fuel : nat) (D : Descriptor) (msg : message) : Gen unit :=
  foldr (fun field (rest : Gen unit) => PrintField msg field;; rest) (mret tt) (ListFields D msg);;
  PrintUnknownFields fuel (unknown_fields_ msg).

(** [Print(message, output)] with the generator's life time, and [PrintToString] into a string
    of capacity [capacity]. *)
Definition PrintToOutput (fuel : nat) (D : Descriptor) (msg : message) (output : target)
    : result target :=
  r ← PrintMessage fuel D msg (TextGenerator_new output (initial_indent_level_ p));
  TextGenerator_destroy (snd (r : unit * TextGenerator)).

Definition PrintToString (fuel : nat) (D : Descriptor) (msg : message) (capacity : Z)
    : result (list Z) :=
  t ← PrintToOutput fuel D msg (mktarget [] capacity);
  Ok (t_chars t).
End Printer.

(** The capacity of an empty string. *)
Definition empty_capacity : Z := 15.

Section DebugString.
Context `{StringGrowth}.
Context (junk : list Z) (data_at : Z).

Definition DebugString (fuel : nat) (D : Descriptor) (msg : message) : result (list Z) :=
  PrintToString junk data_at Printer_new fuel D msg empty_capacity.

(** Without the space at the end. *)
Definition ShortDebugString (fuel : nat) (D : Descriptor) (msg : message) : result (list Z) :=
  debug_string ← PrintToString junk data_at (mkprinter 0 true false) fuel D msg empty_capacity;
  Ok (match last debug_string with
      | Some c => if c =? 32 then take (length debug_string - 1) debug_string else debug_string
      | None => debug_string
      end).

Definition Utf8DebugString (fuel : nat) (D : Descriptor) (msg : message) : result (list Z) :=
  PrintToString junk data_at (mkprinter 0 false true) fuel D msg empty_capacity.
End DebugString.
