(* ===== verification/TextParser.v ===== *)
(** [TextFormat::Parser] (google/protobuf/text_format.cc): the recursive descent over the tokens
    of a text into a message, through the setters of reflection
    (generated_message_reflection.cc). *)

From Stdlib Require Import String.
From S2P Require Import Prelude CMem Float32 Coded Wire Messages StrUtil FloatText TextFormat Tokenizer.

(** * Where fields are found *)

(** The locations of the values of each field; no field here is a message, so that no tree is
    nested. *)
Definition ParseInfoTree : Type := gmap nat (list (Z * Z)).

Definition RecordLocation (field : FieldDescriptor) (location : Z * Z) (tree : ParseInfoTree) : ParseInfoTree :=
  <[fd_index field := default [] (tree !! fd_index field) ++ [location]]> tree.

(** A wrong kind of index ends the process of a debug build. *)
Definition CheckFieldIndex (field : FieldDescriptor) (index : Z) : result unit :=
  if (fd_repeated field && (index =? -1)) || (negb (fd_repeated field) && negb (index =? -1))
  then Fault AssertFailed else Ok tt.

(** No location is the line -1. *)
Definition GetLocation (field : FieldDescriptor) (index : Z) (tree : ParseInfoTree) : result (Z * Z) :=
  CheckFieldIndex field index;;
  let index := if index =? -1 then 0 else index in
  match tree !! fd_index field with
  | Some locations =>
      if Z.of_nat (length locations) <=? u32 index then Ok (-1, -1) else tbl locations index
  | None => Ok (-1, -1)
  end.

(** * Reflection *)

(** [SetField], [SetString] and [AddString]. *)
Definition SetNumber (field : FieldDescriptor) (v : Z) (msg : message) : message :=
  set_has (fd_index field) (assign (fd_index field) (VInt v) msg).
Definition SetString (field : FieldDescriptor) (v : list Z) (msg : message) : message :=
  assign (fd_index field) (VStr v) (set_has (fd_index field) msg).
Definition AddString (field : FieldDescriptor) (v : list Z) (msg : message) : message :=
  assign (fd_index field) (VRep (get_rep (fd_index field) msg ++ [v])) msg.

Definition HasField (msg : message) (field : FieldDescriptor) : bool := HasBit msg field.

Definition FindFieldByName (D : Descriptor) (key : list Z) : option FieldDescriptor :=
  List.find (fun field => bool_decide (fd_name field = key)) (d_fields D).

(** [extensions_offset_] is -1. *)
Definition FindKnownExtensionByName (name : list Z) : option FieldDescriptor := None.

Definition LowerString (s : list Z) : list Z :=
  (fun c => if (65 <=? c) && (c <=? 90) then c + 32 else c) <$> s.

(** * [ParserImpl] *)

(** A report to the collector, or to the log where there is none; [-1] is no line. *)
Record report := mkreport {
  is_error : bool;
  report_line : Z;
  report_column : Z;
  report_message : list Z
}.

(** What the tokenizer's collector leads to: the flag of the parser, and the reports so far. *)
Record reports := mkreports {
  had_errors_ : bool;
  reported : list report
}.

Definition report_error (line col : Z) (message : list Z) (r : reports) : reports :=
  mkreports true (reported r ++ [mkreport true line col message]).
Definition report_warning (line col : Z) (message : list Z) (r : reports) : reports :=
  mkreports (had_errors_ r) (reported r ++ [mkreport false line col message]).

#[export] Instance parser_collector : ErrorCollector reports := {| CollectError := report_error |}.

Inductive SingularOverwritePolicy := ALLOW_SINGULAR_OVERWRITES | FORBID_SINGULAR_OVERWRITES.

#[export] Instance SingularOverwritePolicy_eq_dec : EqDecision SingularOverwritePolicy.
Proof. solve_decision. Defined.

Definition quote (s : list Z) : list Z := [34] ++ s ++ [34].

Definition kint32max : Z := 0x7FFFFFFF.
Definition kuint32max : Z := 0xFFFFFFFF.
Definition kint64max : Z := 0x7FFFFFFFFFFFFFFF.
Definition kuint64max : Z := 0xFFFFFFFFFFFFFFFF.

Section ParserImpl.
Context {T : Type} `{ZeroCopyInputStream T}.
Context (rounds : nat).

(** The message is the object that the calls have a pointer to. *)
Record ParserImpl := mkparser {
  tokenizer_ : Tokenizer T reports;
  message_ : message;
  parse_info_tree_ : option ParseInfoTree
}.

Abbreviation Parse := (ST ParserImpl).

Definition on_tokens {A} (m : ST (Tokenizer T reports) A) : Parse A :=
  p ← st_get;
  r ← st_lift (m (tokenizer_ p));
  st_put (mkparser (snd (r : A * Tokenizer T reports)) (message_ p) (parse_info_tree_ p));;
  mret (fst r).
Definition on_message (f : message -> message) : Parse unit :=
  st_modify (fun p => mkparser (tokenizer_ p) (f (message_ p)) (parse_info_tree_ p)).

Definition current : Parse Token := p ← st_get; mret (current_ (tokenizer_ p)).
Definition next_token : Parse bool := on_tokens (Next rounds).

Definition ReportErrorAt (line col : Z) (message : list Z) : Parse unit :=
  on_tokens (st_modify (fun s => set_collector (report_error line col message (error_collector_ s)) s)).
Definition ReportWarningAt (line col : Z) (message : list Z) : Parse unit :=
  on_tokens (st_modify (fun s => set_collector (report_warning line col message (error_collector_ s)) s)).
Definition ReportError (message : list Z) : Parse unit :=
  t ← current; ReportErrorAt (tok_line t) (tok_column t) message.
Definition ReportWarning (message : list Z) : Parse unit :=
  t ← current; ReportWarningAt (tok_line t) (tok_column t) message.

(** An error and the result [false]. *)
Definition fail {A} (message : list Z) : Parse (option A) := ReportError message;; mret None.

(** [DO]; a function that returns [true] with a value returns [Some]. *)
Definition DO {A B} (m : Parse (option A)) (k : A -> Parse (option B)) : Parse (option B) :=
  r ← m; match r with Some a => k a | None => mret None end.

Definition LookingAt (s : list Z) : Parse bool := t ← current; mret (bool_decide (tok_text t = s)).
Definition LookingAtType (type : TokenType) : Parse bool :=
  t ← current; mret (bool_decide (tok_type t = type)).

Definition Consume (value : list Z) : Parse (option unit) :=
  t ← current;
  if bool_decide (tok_text t = value) then next_token;; mret (Some tt)
  else fail (text "Expected " ++ quote value ++ text ", found " ++ quote (tok_text t) ++ text ".").

Definition TryConsumeToken (value : list Z) : Parse bool :=
  t ← current;
  if bool_decide (tok_text t = value) then next_token;; mret true else mret false.

Definition ConsumeIdentifier : Parse (option (list Z)) :=
  t ← current;
  if bool_decide (tok_type t = TYPE_IDENTIFIER) then next_token;; mret (Some (tok_text t))
  else fail (text "Expected identifier.").

Definition string_tokens_body (txt : list Z) : Parse (list Z + list Z) :=
  t ← current;
  if bool_decide (tok_type t = TYPE_STRING_LITERAL) then
    txt ← st_lift (ParseStringAppend (tok_text t) txt);
    next_token;;
    mret (inl txt)
  else mret (inr txt).

Definition ParserConsumeString : Parse (option (list Z)) :=
  t ← current;
  if bool_decide (tok_type t = TYPE_STRING_LITERAL)
  then txt ← st_loop rounds string_tokens_body []; mret (Some txt)
  else fail (text "Expected string.").

Definition ConsumeUnsignedInteger (max_value : Z) : Parse (option Z) :=
  t ← current;
  if bool_decide (tok_type t = TYPE_INTEGER) then
    v ← st_lift (ParseInteger (tok_text t) max_value);
    match v with
    | None => fail (text "Integer out of range.")
    | Some v => next_token;; mret (Some v)
    end
  else fail (text "Expected integer.").

Definition ConsumeSignedInteger (max_value : Z) : Parse (option Z) :=
  negative ← TryConsumeToken (text "-");
  DO (ConsumeUnsignedInteger (if (negative : bool) then u64 (max_value + 1) else max_value)) (fun v =>
  mret (Some (if (negative : bool) then s64 (- s64 v) else s64 v))).

Definition ConsumeDouble : Parse (option float64) :=
  negative ← TryConsumeToken (text "-");
  t ← current;
  DO (match tok_type t with
      | TYPE_INTEGER =>
          DO (ConsumeUnsignedInteger kuint64max) (fun v => mret (Some (f64_of_decimal false v 0)))
      | TYPE_FLOATING => v ← st_lift (ParseFloat (tok_text t)); next_token;; mret (Some v)
      | TYPE_IDENTIFIER =>
          let txt := LowerString (tok_text t) in
          if bool_decide (txt = text "inf") || bool_decide (txt = text "infinity")
          then next_token;; mret (Some (S754_infinity false))
          else if bool_decide (txt = text "nan") then next_token;; mret (Some S754_nan)
          else fail (text "Expected double.")
      | _ => fail (text "Expected double.")
      end) (fun v => mret (Some (if (negative : bool) then SFopp v else v))).

(** ** Fields that are skipped *)

Definition skip_strings_body (_ : unit) : Parse (unit + unit) :=
  t ← current;
  if bool_decide (tok_type t = TYPE_STRING_LITERAL) then next_token;; mret (inl tt)
  else mret (inr tt).

Definition SkipFieldValue : Parse (option unit) :=
  t ← current;
  if bool_decide (tok_type t = TYPE_STRING_LITERAL)
  then st_loop rounds skip_strings_body tt;; mret (Some tt)
  else
    has_minus ← TryConsumeToken (text "-");
    t ← current;
    if negb (bool_decide (tok_type t ∈ [TYPE_INTEGER; TYPE_FLOATING; TYPE_IDENTIFIER])) then mret None
    else
      let txt := LowerString (tok_text t) in
      if (has_minus : bool) && bool_decide (tok_type t = TYPE_IDENTIFIER) &&
         negb (bool_decide (txt ∈ [text "inf"; text "infinity"; text "nan"]))
      then fail (text "Invalid float number: " ++ txt)
      else next_token;; mret (Some tt).

(** The rest of an extension's name and the bracket behind it. *)
Definition name_part_body (name : list Z) : Parse (list Z + option (list Z)) :=
  dot ← TryConsumeToken (text ".");
  if (dot : bool) then
    part ← ConsumeIdentifier;
    mret (match part with Some part => inl (name ++ text "." ++ part) | None => inr None end)
  else
    r ← Consume (text "]");
    mret (inr (match r with Some _ => Some name | None => None end)).

Definition extension_name : Parse (option (list Z)) :=
  DO ConsumeIdentifier (fun name => st_loop rounds name_part_body name).

(** [TryConsume(";") || TryConsume(",")]. *)
Definition try_separator : Parse unit :=
  r ← TryConsumeToken (text ";");
  if (r : bool) then mret tt else TryConsumeToken (text ",");; mret tt.

(** [TryConsume(":") && !LookingAt("{") && !LookingAt("<")]. *)
Definition looks_like_value : Parse bool :=
  colon ← TryConsumeToken (text ":");
  if (colon : bool) then
    t ← current; mret (negb (bool_decide (tok_text t = text "{")) && negb (bool_decide (tok_text t = text "<")))
  else mret false.

(** [SkipFieldMessage], with its calls of [SkipField]. *)
Definition skip_fields_body (skip_field : Parse (option unit)) (_ : unit) : Parse (unit + option unit) :=
  t ← current;
  if bool_decide (tok_text t = text ">") || bool_decide (tok_text t = text "}")
  then mret (inr (Some tt))
  else
    r ← skip_field;
    mret (match r with Some _ => inl tt | None => inr None end).

Definition skip_field_message (skip_field : Parse (option unit)) : Parse (option unit) :=
  angle ← TryConsumeToken (text "<");
  DO (if (angle : bool) then mret (Some (text ">"))
      else DO (Consume (text "{")) (fun _ => mret (Some (text "}")))) (fun delimeter =>
  DO (st_loop rounds (skip_fields_body skip_field) tt) (fun _ => Consume delimeter)).

(** [fuel] is the depth of the calls. *)
Fixpoint SkipField (fuel : nat) : Parse (option unit) :=
  match fuel with
  | O => st_fault OutOfFuel
  | S fuel =>
      extension ← TryConsumeToken (text "[");
      DO (if (extension : bool) then extension_name else ConsumeIdentifier) (fun _ =>
      value ← looks_like_value;
      DO (if (value : bool) then SkipFieldValue else skip_field_message (SkipField fuel)) (fun _ =>
      try_separator;; mret (Some tt)))
  end.

Definition SkipFieldMessage (fuel : nat) : Parse (option unit) := skip_field_message (SkipField fuel).

(** ** Values *)

Context (D : Descriptor) (singular_overwrite_policy_ : SingularOverwritePolicy).
Context (allow_unknown_field_ : bool).
(** What a NaN is as a [float]. *)
Context (nan_bits : Z).

(** [SET_FIELD]; of the fields here only strings are repeated. *)
Definition set_number (field : FieldDescriptor) (v : Z) : Parse (option unit) :=
  on_message (SetNumber field v);; mret (Some tt).
Definition set_string (field : FieldDescriptor) (v : list Z) : Parse (option unit) :=
  on_message (if fd_repeated field then AddString field v else SetString field v);; mret (Some tt).

(** By [cpp_type]; no field is an enumeration. *)
Definition ConsumeFieldValue (field : FieldDescriptor) : Parse (option unit) :=
  match fd_type field with
  | TYPE_INT32 | TYPE_SINT32 => DO (ConsumeSignedInteger kint32max) (fun v => set_number field (s32 v))
  | TYPE_UINT32 | TYPE_FIXED32 => DO (ConsumeUnsignedInteger kuint32max) (fun v => set_number field (u32 v))
  | TYPE_INT64 => DO (ConsumeSignedInteger kint64max) (set_number field)
  | TYPE_UINT64 | TYPE_FIXED64 => DO (ConsumeUnsignedInteger kuint64max) (set_number field)
  | TYPE_FLOAT => DO ConsumeDouble (fun v => set_number field (bits_of_f32 nan_bits (f32_of_f64 v)))
  | TYPE_STRING | TYPE_BYTES => DO ParserConsumeString (set_string field)
  | TYPE_BOOL =>
      t ← current;
      if bool_decide (tok_type t = TYPE_INTEGER)
      then DO (ConsumeUnsignedInteger 1) (fun v => set_number field (if v =? 0 then 0 else 1))
      else
        DO ConsumeIdentifier (fun value =>
        if bool_decide (value = text "true") || bool_decide (value = text "t") then set_number field 1
        else if bool_decide (value = text "false") || bool_decide (value = text "f") then set_number field 0
        else fail (text "Invalid value for boolean field " ++ quote (fd_name field) ++ text ". Value: " ++
                   quote value ++ text "."))
  end.

(** [foo: \[1, 2, 3\]] behind the first bracket. *)
Definition short_list_body (field : FieldDescriptor) (_ : unit) : Parse (unit + option unit) :=
  v ← ConsumeFieldValue field;
  match v with
  | None => mret (inr None)
  | Some _ =>
      close ← TryConsumeToken (text "]");
      if (close : bool) then mret (inr (Some tt))
      else
        r ← Consume (text ",");
        mret (match r with Some _ => inl tt | None => inr None end)
  end.

(** ** Fields *)

(** An extension or a name that the descriptor does not have: an error, or a warning. *)
Definition no_such_field (message : list Z) : Parse (option (option FieldDescriptor)) :=
  if allow_unknown_field_ then ReportWarning message;; mret (Some None) else fail message.

(** The name and the field that it stands for.  No field is a group, so that the second lookup,
    in lower case, finds none. *)
Definition consume_field_name : Parse (option (list Z * option FieldDescriptor)) :=
  extension ← TryConsumeToken (text "[");
  if (extension : bool) then
    DO extension_name (fun field_name =>
    DO (match FindKnownExtensionByName field_name with
        | Some field => mret (Some (Some field))
        | None => no_such_field (text "Extension " ++ quote field_name ++ text " is not defined or is not an extension of " ++
                                 quote (d_full_name D) ++ text ".")
        end) (fun field => mret (Some (field_name, field))))
  else
    DO ConsumeIdentifier (fun field_name =>
    DO (match FindFieldByName D field_name with
        | Some field => mret (Some (Some field))
        | None => no_such_field (text "Message type " ++ quote (d_full_name D) ++ text " has no field named " ++
                                 quote field_name ++ text ".")
        end) (fun field => mret (Some (field_name, field)))).

Definition record_location (field : FieldDescriptor) (location : Z * Z) : Parse unit :=
  st_modify (fun p => mkparser (tokenizer_ p) (message_ p)
                        (RecordLocation field location <$> parse_info_tree_ p)).

(** No field is deprecated. *)
Definition ConsumeField : Parse (option unit) :=
  start ← current;
  DO consume_field_name (fun '(field_name, field) =>
  match field with
  | None =>
      value ← looks_like_value;
      if (value : bool) then SkipFieldValue else SkipFieldMessage rounds
  | Some field =>
      p ← st_get;
      if bool_decide (singular_overwrite_policy_ = FORBID_SINGULAR_OVERWRITES) &&
         negb (fd_repeated field) && HasField (message_ p) field
      then fail (text "Non-repeated field " ++ quote field_name ++ text " is specified multiple times.")
      else
        DO (Consume (text ":")) (fun _ =>
        short ← (if fd_repeated field then TryConsumeToken (text "[") else mret false) : Parse bool;
        DO (if (short : bool) then st_loop rounds (short_list_body field) tt
            else ConsumeFieldValue field) (fun _ =>
        try_separator;;
        record_location field (tok_line start, tok_column start);;
        mret (Some tt)))
  end).

(** [Parse]: fields until the end of the text. *)
Definition parse_body (_ : unit) : Parse (unit + bool) :=
  t ← current;
  if bool_decide (tok_type t = TYPE_END) then
    p ← st_get; mret (inr (negb (had_errors_ (error_collector_ (tokenizer_ p)))))
  else
    r ← ConsumeField;
    mret (match r with Some _ => inl tt | None => inr false end).

Definition ParserImpl_Parse : Parse bool := st_loop rounds parse_body tt.

Definition ParseField (field : FieldDescriptor) : Parse bool :=
  r ← ConsumeFieldValue field;
  match r with
  | Some _ => LookingAtType TYPE_END
  | None => mret false
  end.

Definition ParserImpl_new (input : T) (tree : option ParseInfoTree) (msg : message) : result ParserImpl :=
  s ← Tokenizer_new rounds input (mkreports false []);
  r ← Next rounds (set_options true SH_COMMENT_STYLE s);
  Ok (mkparser (snd (r : bool * Tokenizer T reports)) msg tree).

(** * [Parser] *)

(** What a call leaves: the result, the message, the locations, the reports and the stream. *)
Record parsed := mkparsed {
  parse_ok : bool;
  parse_message : message;
  parse_locations : option ParseInfoTree;
  parse_reports : list report;
  parse_input : T
}.

(** The messages have no required fields.  The parser is destroyed behind it. *)
Definition run_impl (parse : Parse bool) (input : T) (tree : option ParseInfoTree) (msg : message)
    : result parsed :=
  impl ← ParserImpl_new input tree msg;
  r ← parse impl;
  let '(ok, impl) := (r : bool * ParserImpl) in
  input ← Tokenizer_destroy (tokenizer_ impl);
  Ok (mkparsed ok (message_ impl) (parse_info_tree_ impl)
        (reported (error_collector_ (tokenizer_ impl))) input).
End ParserImpl.
Arguments ParserImpl : clear implicits.
Arguments parsed : clear implicits.

Section Parser.
Context {T : Type} `{ZeroCopyInputStream T}.
Context (rounds : nat) (K : message_class) (D : Descriptor).
Context (tree : option ParseInfoTree) (allow_unknown_field : bool) (nan_bits : Z).

Definition ParserMerge (input : T) (msg : message) : result (parsed T) :=
  run_impl rounds (ParserImpl_Parse rounds D ALLOW_SINGULAR_OVERWRITES allow_unknown_field nan_bits)
    input tree msg.

Definition ParserParse (input : T) (msg : message) : result (parsed T) :=
  run_impl rounds (ParserImpl_Parse rounds D FORBID_SINGULAR_OVERWRITES allow_unknown_field nan_bits)
    input tree (Clear K msg).

Definition ParseFieldValue (field : FieldDescriptor) (input : T) (msg : message) : result (parsed T) :=
  run_impl rounds (ParseField rounds nan_bits field) input tree msg.
End Parser.

(** From a string at an address. *)
Section Strings.
Context (rounds : nat) (K : message_class) (D : Descriptor).
Context (tree : option ParseInfoTree) (allow_unknown_field : bool) (nan_bits : Z) (data_at : Z).

Definition string_stream (input : list Z) : ArrayInputStream :=
  ArrayInputStream_new data_at (s32 (Z.of_nat (length input))) (-1).

Definition ParserParseFromString (input : list Z) (msg : message) : result (parsed ArrayInputStream) :=
  ParserParse (H := array_input (block data_at input)) rounds K D tree allow_unknown_field nan_bits
    (string_stream input) msg.
Definition ParserMergeFromString (input : list Z) (msg : message) : result (parsed ArrayInputStream) :=
  ParserMerge (H := array_input (block data_at input)) rounds D tree allow_unknown_field nan_bits
    (string_stream input) msg.
Definition ParseFieldValueFromString (field : FieldDescriptor) (input : list Z) (msg : message)
    : result (parsed ArrayInputStream) :=
  ParseFieldValue (H := array_input (block data_at input)) rounds tree nan_bits field
    (string_stream input) msg.
End Strings.

(** The static functions: a [Parser] with the defaults. *)
Definition ParseFromString (rounds : nat) (K : message_class) (D : Descriptor) (nan_bits data_at : Z)
    (input : list Z) (msg : message) : result (parsed ArrayInputStream) :=
  ParserParseFromString rounds K D None false nan_bits data_at input msg.
Definition MergeFromString (rounds : nat) (D : Descriptor) (nan_bits data_at : Z)
    (input : list Z) (msg : message) : result (parsed ArrayInputStream) :=
  ParserMergeFromString rounds D None false nan_bits data_at input msg.
