(* ===== verification/TokenProofs.v ===== *)
(** The tokenizer over its input: what is left to read and what has been recorded, whatever the
    buffers ([reading]); total correctness of stateful computations ([wp]); the tokens of a text that
    the printer can write ([lexes]) and the values of tokens. *)

From Stdlib Require Import String.
From S2P Require Import Prelude CMem Coded StrUtil Numerals Escape EscapeProofs FloatText Tokenizer.


(** * Total correctness up to faults in [F] *)

Definition wp {S A} (F : fault -> Prop) (m : ST S A) (s : S) (Q : A -> S -> Prop) : Prop :=
  match m s with Ok (a, s') => Q a s' | Fault f => F f end.

Definition no_fault : fault -> Prop := fun _ => False.

Section Wp.
Context {S : Type} (F : fault -> Prop).

Lemma wp_ret {A} (a : A) s (Q : A -> S -> Prop) : Q a s -> wp F (mret a) s Q.
Proof. done. Qed.

Lemma wp_bind {A B} (m : ST S A) (k : A -> ST S B) s Q :
  wp F m s (fun a s' => wp F (k a) s' Q) -> wp F (m ≫= k) s Q.
Proof. unfold wp, mbind, ST_bind. by destruct (m s) as [[a s']|f]. Qed.

Lemma wp_unbind {A B} (m : ST S A) (k : A -> ST S B) s Q :
  wp F (m ≫= k) s Q -> wp F m s (fun a s' => wp F (k a) s' Q).
Proof. unfold wp, mbind, ST_bind. by destruct (m s) as [[a s']|f]. Qed.

Lemma wp_seq {A B} (m : ST S A) (k : A -> ST S B) s P Q :
  wp F m s P -> (forall a s', P a s' -> wp F (k a) s' Q) -> wp F (m ≫= k) s Q.
Proof. intros Hm Hk. apply wp_bind. unfold wp in *. destruct (m s) as [[a s']|f]; [by apply Hk|done]. Qed.

Lemma wp_get s (Q : S -> S -> Prop) : Q s s -> wp F st_get s Q.
Proof. done. Qed.

Lemma wp_mono {A} (m : ST S A) s (P Q : A -> S -> Prop) :
  wp F m s P -> (forall a s', P a s' -> Q a s') -> wp F m s Q.
Proof. unfold wp. destruct (m s) as [[a s']|f]; auto. Qed.

Lemma wp_weaken {A} (m : ST S A) s Q : wp no_fault m s Q -> wp F m s Q.
Proof. unfold wp. by destruct (m s) as [[a s']|f]. Qed.

Lemma wp_ok {A} (m : ST S A) s a s' (Q : A -> S -> Prop) : m s = Ok (a, s') -> Q a s' -> wp F m s Q.
Proof. unfold wp. by intros ->. Qed.

Lemma wp_if {A} (b : bool) (m n : ST S A) s Q :
  (b = true -> wp F m s Q) -> (b = false -> wp F n s Q) -> wp F (if b then m else n) s Q.
Proof. destruct b; auto. Qed.

(** A loop whose rounds use up a measure. *)
Lemma wp_loop {L A} (body : L -> ST S (L + A)) (I : nat -> L -> S -> Prop) (Q : A -> S -> Prop) :
  (forall k x s, I k x s -> wp F (body x) s (fun r s' =>
     match r with inl x' => exists k', (k' < k)%nat /\ I k' x' s' | inr a => Q a s' end)) ->
  forall n k x s, I k x s -> (k < n)%nat -> wp F (st_loop n body x) s Q.
Proof.
  intros Hb n. induction n as [|n IH]; intros k x s Hi Hk; [lia|]. cbn [st_loop].
  eapply wp_seq; [apply (Hb k x s Hi)|]. intros [x'|a] s' H; [|done].
  destruct H as (k' & Hk' & Hi'). apply (IH k'); [done|lia].
Qed.
End Wp.

Lemma wp_inv {S A} (m : ST S A) s Q : wp no_fault m s Q -> exists a s', m s = Ok (a, s') /\ Q a s'.
Proof. unfold wp. destruct (m s) as [[a s']|f]; [eauto|done]. Qed.

(** * Input streams *)

(** What is left of the characters, the size of the last buffer, and a bound on the empty buffers
    to come. *)
Class InputLaws (T : Type) `{ZeroCopyInputStream T} := {
  chars_left : T -> list Z;
  handed_out : T -> Z;
  blanks : T -> nat;
  good_input : T -> Prop;
  input_next t : good_input t -> exists r t', input_Next t = Ok (r, t') /\ good_input t' /\
    match r with
    | None => chars_left t = []
    | Some bs => chars_left t = bs ++ chars_left t' /\ handed_out t' = Z.of_nat (length bs) /\
                 (blanks t' <= blanks t)%nat /\ (bs = [] -> blanks t' < blanks t)%nat
    end;
  input_back n t : good_input t -> 0 < n <= handed_out t -> exists t', input_BackUp n t = Ok t'
}.

Section Array.
Context (m : mem) (base : Z) (l : list Z) (Hm : holds m base l).

Record good_array (a : ArrayInputStream) : Prop := {
  ga_data : data_ a = base;
  ga_size : size_ a = Z.of_nat (length l);
  ga_block : 0 < block_size_ a \/ size_ a = 0;
  ga_pos : 0 <= position_ a <= size_ a
}.

Lemma array_next a : good_array a -> exists r a', input_Next (ZeroCopyInputStream := array_input m) a = Ok (r, a') /\
  good_array a' /\
  match r with
  | None => drop (Z.to_nat (position_ a)) l = []
  | Some bs => drop (Z.to_nat (position_ a)) l = bs ++ drop (Z.to_nat (position_ a')) l /\
               last_returned_size_ a' = Z.of_nat (length bs) /\ (0 <= 0)%nat /\ (bs = [] -> 0 < 0)%nat
  end.
Proof.
  intros [Hd Hs Hb Hp]. cbn. unfold ArrayInputStream_Next. destruct (Z.ltb_spec (position_ a) (size_ a)).
  - set (n := Z.min _ _). assert (0 < n <= size_ a - position_ a) as Hn by lia.
    set (bs := take (Z.to_nat n) (drop (Z.to_nat (position_ a)) l)).
    assert (length bs = Z.to_nat n) as Hl by (unfold bs; rewrite length_take, length_drop; lia).
    assert (load_bytes m (data_ a + position_ a) (Z.to_nat n) = Ok bs) as ->.
    { rewrite <- Hl. apply load_bytes_holds. intros i Hi. rewrite Hd.
      unfold bs. rewrite lookup_take_lt, lookup_drop by lia.
      rewrite <- (Hm (Z.to_nat (position_ a) + i)%nat) by lia. f_equal. lia. }
    eexists _, _. split; [done|]. split; [by split; cbn; lia|]. cbn [position_ last_returned_size_].
    split_and!; [|lia|lia|intros ->; cbn in *; lia].
    replace (Z.to_nat (position_ a + n)) with (Z.to_nat (position_ a) + Z.to_nat n)%nat by lia.
    rewrite <- drop_drop. unfold bs. by rewrite take_drop.
  - eexists _, _. split; [done|]. split; [by split; cbn|]. apply drop_ge. lia.
Qed.

Definition array_input_laws : InputLaws ArrayInputStream (H := array_input m).
Proof.
  refine {| chars_left (a : ArrayInputStream) := drop (Z.to_nat (position_ a)) l;
            handed_out := last_returned_size_; blanks _ := 0%nat; good_input := good_array |}.
  - apply array_next.
  - intros n a Ha Hn. cbn. unfold ArrayInputStream_BackUp.
    destruct (Z.ltb_spec 0 (last_returned_size_ a)), (Z.leb_spec n (last_returned_size_ a)),
      (Z.leb_spec 0 n); try lia. eauto.
Defined.
End Array.

(** * What is left to read *)

Section Reading.
Context {T E : Type} `{IL : InputLaws T} `{ErrorCollector E}.
Context (rounds : nat).

Abbreviation Tk := (Tokenizer T E).

(** The current character is in a buffer, or the input has ended. *)
Record live (l : list Z) (s : Tk) : Prop := {
  lv_error : read_error_ s = false;
  lv_buffer : exists pre tail, tk_buffer_ s = Some (pre ++ current_char_ s :: tail) /\
    buffer_pos_ s = Z.of_nat (length pre) /\
    tk_buffer_size_ s = Z.of_nat (length (pre ++ current_char_ s :: tail)) /\
    l = current_char_ s :: tail ++ chars_left (tk_input_ s);
  lv_good : good_input (tk_input_ s);
  lv_handed : handed_out (tk_input_ s) = tk_buffer_size_ s;
  lv_blanks : (blanks (tk_input_ s) < rounds)%nat
}.

Record ended (l : list Z) (s : Tk) : Prop := {
  en_left : l = [];
  en_error : read_error_ s = true;
  en_buffer : tk_buffer_ s = None;
  en_size : tk_buffer_size_ s = 0;
  en_pos : buffer_pos_ s = 0;
  en_char : current_char_ s = 0
}.

(** The text since [StartToken], in the token and in the buffer. *)
Definition recorded (r : option (list Z)) (s : Tk) : Prop :=
  match r with
  | None => record_target_ s = None
  | Some t =>
      record_target_ s = Some RecordToken /\ 0 <= record_start_ s <= buffer_pos_ s /\
      t = tok_text (current_ s) ++
          take (Z.to_nat (buffer_pos_ s - record_start_ s))
            (drop (Z.to_nat (record_start_ s)) (default [] (tk_buffer_ s)))
  end.

Record reading (l : list Z) (r : option (list Z)) (s : Tk) : Prop := {
  rd_source : live l s \/ ended l s;
  rd_recorded : recorded r s
}.

(** What reading characters leaves as it is. *)
Definition still (s : Tk) :=
  (error_collector_ s, allow_f_after_float_ s, comment_style_ s, previous_ s,
   (tok_type (current_ s), tok_line (current_ s), tok_column (current_ s))).

Lemma refresh_loop n : forall s, (n <= rounds)%nat -> read_error_ s = false -> good_input (tk_input_ s) ->
  (blanks (tk_input_ s) < n)%nat ->
  exists input c b size err, let s' := set_source input c b size 0 err s in
    st_loop n refresh_body tt s = Ok (tt, s') /\
    (live (chars_left (tk_input_ s)) s' \/ ended (chars_left (tk_input_ s)) s').
Proof.
  induction n as [|n IH]; intros s Hn He Hg Hb; [lia|].
  destruct (input_next (tk_input_ s) Hg) as (r & t' & En & Hg' & Hr).
  assert (refresh_body tt s = match r with
    | None => Ok (inr tt, set_source t' 0 None 0 0 true s)
    | Some [] => Ok (inl tt, set_source t' (current_char_ s) None 0 0 (read_error_ s) s)
    | Some ((c :: _) as data) => Ok (inr tt, set_source t' c (Some data) (Z.of_nat (length data)) 0 (read_error_ s) s)
    end) as Eb.
  { unfold refresh_body. st_run. rewrite En. by destruct r as [[|c bs]|]. }
  destruct r as [[|c bs]|].
  - destruct Hr as (El & _ & Hle & Hlt). specialize (Hlt eq_refl). rewrite (st_loop_next _ _ _ _ _ _ Eb).
    destruct (IH (set_source t' (current_char_ s) None 0 0 (read_error_ s) s)) as (input & c & b & size & err & E1 & E2);
      [lia|done|done|cbn; lia|].
    exists input, c, b, size, err. rewrite El. split; [exact E1|exact E2].
  - destruct Hr as (El & Eh & Hle & _). exists t', c, (Some (c :: bs)), (Z.of_nat (length (c :: bs))), (read_error_ s).
    split; [by rewrite (st_loop_exit _ _ _ _ _ _ Eb)|]. left. split; cbn; [done| |done|done|lia].
    exists [], bs. by rewrite El.
  - exists t', 0, None, 0, true. split; [by rewrite (st_loop_exit _ _ _ _ _ _ Eb)|]. right. by split.
Qed.

(** The rest of a buffer that ends goes into the token. *)
Lemma Refresh_spec r s : read_error_ s = false -> good_input (tk_input_ s) ->
  (blanks (tk_input_ s) < rounds)%nat -> buffer_pos_ s = tk_buffer_size_ s ->
  tk_buffer_size_ s = Z.of_nat (length (default [] (tk_buffer_ s))) -> recorded r s ->
  (r <> None -> record_start_ s < tk_buffer_size_ s) ->
  exists s', Refresh rounds s = Ok (tt, s') /\ reading (chars_left (tk_input_ s)) r s' /\ still s' = still s /\
    line_ s' = line_ s /\ column_ s' = column_ s /\ tok_end_column (current_ s') = tok_end_column (current_ s) /\
    (r = None -> tok_text (current_ s') = tok_text (current_ s)).
Proof.
  intros He Hg Hb Hp Hs Hr Hst. unfold Refresh. unfold mbind at 1, ST_bind at 1, st_get. rewrite He.
  assert (exists s1, (if bool_decide (record_target_ s <> None) && (record_start_ s <? tk_buffer_size_ s)
    then append_record (tk_buffer_size_ s - record_start_ s);;
         st_modify (fun s => set_record (record_target_ s) 0 s) else mret tt) s = Ok (tt, s1) /\
    read_error_ s1 = false /\ tk_input_ s1 = tk_input_ s /\ still s1 = still s /\ line_ s1 = line_ s /\
    column_ s1 = column_ s /\ tok_end_column (current_ s1) = tok_end_column (current_ s) /\
    (r = None -> tok_text (current_ s1) = tok_text (current_ s)) /\
    match r with None => record_target_ s1 = None | Some t => record_target_ s1 = Some RecordToken /\
      tok_text (current_ s1) = t /\ record_start_ s1 = 0 end) as H1.
  { destruct r as [t|]; cbn [recorded] in Hr.
    - destruct Hr as (Et & Hrange & ->). specialize (Hst ltac:(done)). rewrite Et, bool_decide_true by done.
      destruct (Z.ltb_spec (record_start_ s) (tk_buffer_size_ s)); [|lia]. cbn [andb].
      destruct (tk_buffer_ s) as [b|] eqn:Eb; cbn [default from_option id] in *; [|cbn in Hs; lia].
      unfold append_record, append_target. st_run. rewrite Eb. unfold string_range.
      destruct (Z.leb_spec 0 (record_start_ s)), (Z.leb_spec (record_start_ s) (record_start_ s + (tk_buffer_size_ s - record_start_ s))),
        (Z.leb_spec (record_start_ s + (tk_buffer_size_ s - record_start_ s)) (Z.of_nat (length b))); try lia.
      cbn [andb]. rewrite Et. eexists. split; [done|]. split_and!; try done.
      cbn. do 2 f_equal. lia.
    - rewrite Hr. exists s. by rewrite bool_decide_false by naive_solver. }
  destruct H1 as (s1 & E1 & He1 & Ei1 & Es1 & El1 & Ec1 & Een1 & Htx1 & Hr1).
  rewrite (st_bind_ok _ _ _ _ _ E1).
  destruct (refresh_loop rounds s1) as (input & c & b & size & err & E2 & H2); [lia|done|by rewrite Ei1..|].
  rewrite Ei1 in H2. eexists. split; [exact E2|]. split_and!; [|by rewrite <- Es1|done|done|done|done].
  split; [done|]. destruct r as [t|]; [|done]. destruct Hr1 as (Et & Htx & Hz).
  cbn. rewrite Hz, Htx. split_and!; [done|lia|lia|]. by rewrite app_nil_r.
Qed.

Lemma live_ended l r s : reading l r s -> read_error_ s = bool_decide (l = []).
Proof.
  intros [[Hl|He] _].
  - destruct Hl as [-> (pre & tail & _ & _ & _ & ->) _ _ _]. done.
  - destruct He as [-> -> _ _ _ _]. done.
Qed.

Lemma reading_char l r s : reading l r s -> current_char_ s = default 0 (head l).
Proof.
  intros [[Hl|He] _].
  - by destruct Hl as [_ (pre & tail & _ & _ & _ & ->) _ _ _].
  - by destruct He as [-> _ _ _ _ ->].
Qed.

(** Only these matter for what is left to read. *)
Definition source_of (s : Tk) :=
  (read_error_ s, tk_buffer_ s, buffer_pos_ s, tk_buffer_size_ s, current_char_ s, tk_input_ s).

Lemma source_same l s s' : source_of s' = source_of s -> live l s \/ ended l s -> live l s' \/ ended l s'.
Proof.
  intros E1. injection E1 as H1 H2 H3 H4 H5 H6. intros [[]|[]]; [left|right]; split; by rewrite ?H1, ?H2, ?H3, ?H4, ?H5, ?H6.
Qed.

Definition position_step (c : Z) (p : Z * Z) : Z * Z :=
  let '(line, column) := p in
  if c =? 10 then (s32 (line + 1), 0)
  else if c =? 9 then (line, s32 (column + (kTabWidth - Z.rem column kTabWidth)))
  else (line, s32 (column + 1)).

Lemma NextChar_spec c l r s : reading (c :: l) r s ->
  exists s', NextChar rounds s = Ok (tt, s') /\ reading l ((fun t => t ++ [c]) <$> r) s' /\ still s' = still s /\
    (line_ s', column_ s') = position_step c (line_ s, column_ s) /\
    tok_end_column (current_ s') = tok_end_column (current_ s) /\
    (r = None -> tok_text (current_ s') = tok_text (current_ s)).
Proof.
  intros [[Hl|[? _ _ _ _ _]] Hr]; [|done].
  destruct Hl as [He (pre & tail & Eb & Ep & Es & El) Hg Hh Hb]. injection El as -> El.
  unfold NextChar. unfold mbind at 1, ST_bind at 1, st_get.
  set (c := current_char_ s) in *.
  set (s1 := if c =? 10 then _ else _).
  assert (forall A (f : Tk -> A), (forall a b s, f (set_position a b s) = f s) -> f s1 = f s) as Hf.
  { intros A f Hf. unfold s1. destruct (c =? 10); [|destruct (c =? 9)]; apply Hf. }
  assert ((line_ s1, column_ s1) = position_step c (line_ s, column_ s)) as Hpos.
  { unfold s1, position_step. by destruct (c =? 10), (c =? 9). }
  rewrite !(Hf _ tk_input_), !(Hf _ current_char_), !(Hf _ tk_buffer_), !(Hf _ tk_buffer_size_), !(Hf _ read_error_), !(Hf _ buffer_pos_) by done.
  set (s2 := set_source _ _ _ _ _ _ s1).
  assert (recorded ((fun t => t ++ [c]) <$> r) s2) as Hr2.
  { destruct r as [t|]; cbn in Hr |- *; [|by rewrite (Hf _ record_target_)].
    rewrite (Hf _ record_target_), (Hf _ record_start_), (Hf _ current_) by done.
    destruct Hr as (Et & Hrange & ->). rewrite Eb in *. cbn [default from_option id] in *.
    split_and!; [done|lia|lia|]. rewrite <- app_assoc. f_equal.
    replace (Z.to_nat (buffer_pos_ s + 1 - record_start_ s)) with (S (Z.to_nat (buffer_pos_ s - record_start_ s))) by lia.
    symmetry. apply take_S_r. rewrite lookup_drop.
    replace (Z.to_nat (record_start_ s) + _)%nat with (length pre) by lia. by apply list_lookup_middle. }
  change (tk_buffer_size_ s2) with (tk_buffer_size_ s). change (tk_buffer_ s2) with (tk_buffer_ s).
  destruct (Z.ltb_spec (buffer_pos_ s + 1) (tk_buffer_size_ s)) as [Hlt|Hge].
  - destruct tail as [|d tail]; [rewrite Es, length_app in Hlt; cbn in Hlt; lia|].
    rewrite Eb. unfold peek. destruct (Z.leb_spec 0 (buffer_pos_ s + 1)); [|lia].
    assert ((pre ++ c :: d :: tail) !! Z.to_nat (buffer_pos_ s + 1) = Some d) as ->.
    { replace (Z.to_nat _) with (S (length pre)) by lia. rewrite lookup_app_r by lia.
      by replace (S (length pre) - length pre)%nat with 1%nat by lia. }
    eexists. split; [done|]. split_and!; [|unfold still; by rewrite <- !Hf by done|exact Hpos|by rewrite <- !Hf by done|intros _; by rewrite <- !Hf by done].
    split; [|exact Hr2]. left. split; cbn; [done| |done|done|done].
    exists (pre ++ [c]), tail. rewrite <- app_assoc. split_and!; [by rewrite Eb|rewrite length_app; cbn; lia|done|done].
  - destruct tail as [|d tail]; [|rewrite Es, length_app in Hge; cbn in Hge; lia].
    destruct (Refresh_spec ((fun t => t ++ [c]) <$> r) s2) as (s' & Ex & Hrd & Hst & H1 & H2 & H3 & H4); try done.
    + cbn. rewrite Es, length_app in Hge |- *. cbn in *. lia.
    + cbn. by rewrite Eb.
    + destruct r; [|done]. intros _. cbn. destruct Hr as (_ & Hrange & _). rewrite ?(Hf _ record_start_) by done. rewrite Es, length_app in Hge |- *; cbn in *; lia.
    + exists s'. split; [exact Ex|]. rewrite H1, H2, Hst, H3. split_and!; [by rewrite El| |exact Hpos|by rewrite <- !Hf by done|].
      * unfold still. by rewrite <- !Hf by done.
      * intros ->. rewrite H4 by done. by rewrite <- !Hf by done.
Qed.

(** * Consuming characters *)

Definition first (l : list Z) : Z := default 0 (head l).

Lemma TryConsumeOne_yes (P : Z -> bool) c l r s : reading (c :: l) r s -> P c = true ->
  exists s', TryConsumeOne rounds P s = Ok (true, s') /\ reading l ((fun t => t ++ [c]) <$> r) s' /\ still s' = still s.
Proof.
  intros Hr Hc. unfold TryConsumeOne, get_char. pose proof (reading_char _ _ _ Hr) as Ec. cbn in Ec.
  destruct (NextChar_spec c l r s Hr) as (s' & E1 & Hr' & Hs & _).
  exists s'. split; [|done]. st_run. by rewrite Ec, Hc, E1.
Qed.

Lemma TryConsumeOne_no (P : Z -> bool) l r s : reading l r s -> P (first l) = false ->
  TryConsumeOne rounds P s = Ok (false, s).
Proof.
  intros Hr Hc. unfold TryConsumeOne, get_char. pose proof (reading_char _ _ _ Hr) as Ec.
  st_run. unfold first in Hc. by rewrite Ec, Hc.
Qed.

Lemma consume_loop (P : Z -> bool) a : forall n r rest s, reading (a ++ rest) r s ->
  Forall (fun c => P c = true) a -> P (first rest) = false -> (length a < n)%nat ->
  exists s', st_loop n (consume_body rounds P) tt s = Ok (tt, s') /\
    reading rest ((fun t => t ++ a) <$> r) s' /\ still s' = still s.
Proof.
  induction a as [|c a IH]; intros n r rest s Hr Ha Hrest Hn; (destruct n as [|n]; [cbn in Hn; lia|]).
  - cbn [app] in Hr. exists s. split; [|split; [|done]].
    + apply st_loop_exit. unfold consume_body, get_char. st_run. rewrite (reading_char _ _ _ Hr).
      unfold first in Hrest. by rewrite Hrest.
    + destruct r; [cbn; by rewrite app_nil_r|done].
  - apply Forall_cons in Ha as [Hc Ha]. destruct (NextChar_spec c (a ++ rest) r s Hr) as (s1 & E1 & Hr1 & Hs1 & _).
    destruct (IH n _ rest s1 Hr1 Ha Hrest ltac:(cbn in Hn; lia)) as (s' & E2 & Hr2 & Hs2).
    exists s'. split_and!; [|destruct r; [cbn in *; by rewrite <- app_assoc in Hr2|done]|by rewrite Hs2].
    rewrite <- E2. apply st_loop_next. unfold consume_body, get_char. st_run. rewrite (reading_char _ _ _ Hr).
    cbn. by rewrite Hc, E1.
Qed.

Lemma ConsumeZeroOrMore_spec (P : Z -> bool) a r rest s : reading (a ++ rest) r s ->
  Forall (fun c => P c = true) a -> P (first rest) = false -> (length a < rounds)%nat ->
  exists s', ConsumeZeroOrMore rounds P s = Ok (tt, s') /\
    reading rest ((fun t => t ++ a) <$> r) s' /\ still s' = still s.
Proof. apply consume_loop. Qed.

(** * Tokens *)

Lemma StartToken_spec l s : reading l None s ->
  exists s', StartToken s = Ok (tt, s') /\ reading l (Some []) s' /\
    error_collector_ s' = error_collector_ s /\ allow_f_after_float_ s' = allow_f_after_float_ s /\
    comment_style_ s' = comment_style_ s /\ previous_ s' = previous_ s.
Proof.
  intros [Hsrc Hr]. eexists. split; [done|]. split_and!; [|done..]. split.
  - destruct Hsrc as [[]|[]]; [left|right]; by split.
  - cbn. split_and!; [done| |lia|].
    + destruct Hsrc as [[_ (pre & _ & _ & -> & _) _ _ _]|[_ _ _ _ -> _]]; lia.
    + rewrite Z.sub_diag, take_0. done.
Qed.

Lemma EndToken_spec l t s : reading l (Some t) s ->
  exists s', EndToken s = Ok (tt, s') /\ reading l None s' /\ tok_text (current_ s') = t /\ still s' = still s /\
    (line_ s', column_ s') = (line_ s, column_ s) /\ tok_end_column (current_ s') = column_ s.
Proof.
  intros [Hsrc (Et & Hrange & Ht)]. unfold EndToken, StopRecording.
  assert (exists s1, (if buffer_pos_ s =? record_start_ s then mret tt
      else append_record (buffer_pos_ s - record_start_ s)) s = Ok (tt, s1) /\
    tok_text (current_ s1) = t /\ still s1 = still s /\ tk_buffer_ s1 = tk_buffer_ s /\ buffer_pos_ s1 = buffer_pos_ s /\
    tk_buffer_size_ s1 = tk_buffer_size_ s /\ current_char_ s1 = current_char_ s /\ tk_input_ s1 = tk_input_ s /\
    read_error_ s1 = read_error_ s /\ line_ s1 = line_ s /\ column_ s1 = column_ s)
    as (s1 & E1 & Htx & Hst & H1 & H2 & H3 & H4 & H5 & H6 & H7 & H8).
  { destruct (Z.eqb_spec (buffer_pos_ s) (record_start_ s)) as [Ep|Hne].
    - exists s. split_and!; try done. by rewrite Ht, Ep, Z.sub_diag, take_0, app_nil_r.
    - destruct Hsrc as [[He (pre & tail & Eb & Epos & Es & _) _ _ _]|[_ _ _ _ Ep _]]; [|lia].
      unfold append_record, append_target. st_run. rewrite Eb. unfold string_range.
      assert (buffer_pos_ s <= tk_buffer_size_ s) by (rewrite Es, Epos, length_app; lia).
      destruct (Z.leb_spec 0 (record_start_ s)), (Z.leb_spec (record_start_ s) (record_start_ s + (buffer_pos_ s - record_start_ s))),
        (Z.leb_spec (record_start_ s + (buffer_pos_ s - record_start_ s)) (Z.of_nat (length (pre ++ current_char_ s :: tail)))); try lia.
      cbn [andb]. rewrite Et. eexists. split; [done|]. split_and!; try done.
      cbn. rewrite Ht, Eb. do 2 f_equal. lia. }
  eexists. split.
  { unfold mbind, ST_bind in *. unfold st_get. rewrite E1. done. }
  split_and!; [|done|by rewrite <- Hst|cbn; by rewrite H7, H8|done].
  split; [|done]. destruct Hsrc as [[? Hb ? ? ?]|[]]; [left|right]; split; cbn; rewrite ?H1, ?H2, ?H3, ?H4, ?H5, ?H6; done.
Qed.

(** The rest of a buffer goes back. *)
Lemma destroy_live l s : live l s -> exists t, Tokenizer_destroy s = Ok t.
Proof.
  intros [_ (pre & tail & _ & Hp & Hs & _) Hg Hh _]. unfold Tokenizer_destroy.
  destruct (Z.ltb_spec (buffer_pos_ s) (tk_buffer_size_ s)); [|eauto]. apply input_back; [done|lia].
Qed.

Lemma destroy_reading l r s : reading l r s -> exists t, Tokenizer_destroy s = Ok t.
Proof.
  intros [[Hl|[_ _ _ Hs Hp _]] _]; [by eapply destroy_live|]. unfold Tokenizer_destroy. rewrite Hs, Hp. eauto.
Qed.
End Reading.

(** * Reading characters *)

Section Scan.
Context {T E : Type} `{IL : InputLaws T} `{ErrorCollector E}.
Context (rounds : nat).

Abbreviation Tok := (ST (Tokenizer T E)).

(** A computation reads [txt] in front of [rest]. *)
Definition scans {A} (m : Tok A) (txt rest : list Z) (a : A) : Prop :=
  forall r s, reading rounds (txt ++ rest) r s -> (length (txt ++ rest) < rounds)%nat ->
  exists s', m s = Ok (a, s') /\ reading rounds rest ((fun t => t ++ txt) <$> r) s' /\ still s' = still s.

Lemma scans_none {A} (m : Tok A) rest a :
  (forall r s, reading rounds rest r s -> m s = Ok (a, s)) -> scans m [] rest a.
Proof.
  intros Hm r s Hr _. exists s. split_and!; [by apply (Hm r)| |done]. destruct r; [cbn; by rewrite app_nil_r|done].
Qed.

Lemma scans_ret {A} rest (a : A) : scans (mret a) [] rest a.
Proof. by apply scans_none. Qed.

Lemma scans_bind {A B} (m : Tok A) (k : A -> Tok B) t1 t2 rest a b :
  scans m t1 (t2 ++ rest) a -> scans (k a) t2 rest b -> scans (m ≫= k) (t1 ++ t2) rest b.
Proof.
  intros Hm Hk r s Hr Hl. rewrite <- app_assoc in Hr, Hl. destruct (Hm r s Hr Hl) as (s1 & E1 & Hr1 & Hs1).
  destruct (Hk _ s1 Hr1) as (s2 & E2 & Hr2 & Hs2); [rewrite length_app in Hl; lia|]. exists s2.
  unfold mbind, ST_bind. rewrite E1. split_and!; [done| |congruence].
  destruct r; [cbn in *; by rewrite <- app_assoc in Hr2|done].
Qed.

(** Nothing in front. *)
Lemma scans_after {A B} (m : Tok A) (k : A -> Tok B) txt rest a b :
  scans m [] (txt ++ rest) a -> scans (k a) txt rest b -> scans (m ≫= k) txt rest b.
Proof. apply (scans_bind m k []). Qed.

Lemma scans_last {A B} (m : Tok A) (k : A -> Tok B) txt rest a b :
  scans m txt rest a -> scans (k a) [] rest b -> scans (m ≫= k) txt rest b.
Proof. intros Hm Hk. rewrite <- (app_nil_r txt). by apply (scans_bind m k txt [] rest a). Qed.

Lemma scans_next c rest : scans (NextChar rounds) [c] rest tt.
Proof. intros r s Hr _. destruct (NextChar_spec rounds c rest r s Hr) as (s' & ? & ? & ? & _). eauto. Qed.

Lemma scans_char rest : scans get_char [] rest (first rest).
Proof. apply scans_none. intros r s Hr. unfold get_char. st_run. by rewrite (reading_char _ _ _ _ Hr). Qed.

Lemma scans_yes (P : Z -> bool) c rest : P c = true -> scans (TryConsumeOne rounds P) [c] rest true.
Proof. intros Hc r s Hr _. destruct (TryConsumeOne_yes rounds P c rest r s Hr Hc) as (s' & ? & ? & ?). eauto. Qed.

Lemma scans_no (P : Z -> bool) rest : P (first rest) = false -> scans (TryConsumeOne rounds P) [] rest false.
Proof. intros Hc. apply scans_none. intros r s Hr. by apply (TryConsumeOne_no rounds P rest r s). Qed.

Lemma scans_many (P : Z -> bool) a rest : Forall (fun c => P c = true) a -> P (first rest) = false ->
  scans (ConsumeZeroOrMore rounds P) a rest tt.
Proof.
  intros Ha Hrest r s Hr Hl. apply (ConsumeZeroOrMore_spec rounds P a r rest s); [done..|].
  rewrite length_app in Hl. lia.
Qed.

Lemma scans_or_no a b rest : scans a [] rest false -> scans b [] rest false -> scans (orelse a b) [] rest false.
Proof. intros Ha Hb. by apply (scans_after _ _ _ _ false). Qed.

Lemma scans_or_yes a b txt rest : scans a txt rest true -> scans (orelse a b) txt rest true.
Proof. intros Ha. apply (scans_last _ _ _ _ true); [done|apply scans_ret]. Qed.

Lemma scans_or_second a b txt rest : scans a [] (txt ++ rest) false -> scans b txt rest true ->
  scans (orelse a b) txt rest true.
Proof. intros Ha Hb. by apply (scans_after _ _ _ _ false). Qed.

Lemma first_app t rest : t <> [] -> first (t ++ rest) = first t.
Proof. by destruct t. Qed.

(** ** Numbers *)

Lemma digits_class l : digits l -> Forall (fun c => Digit c = true) l.
Proof. intros Hl. eapply Forall_impl; [done|]. unfold is_dec, Digit. intros c. lia. Qed.

Definition number_type (point exponent : list Z) : TokenType :=
  if bool_decide (point = []) && bool_decide (exponent = []) then TYPE_INTEGER else TYPE_FLOATING.

(** Behind a number there is the end of the line, a space or a colon. *)
Context (rest : list Z) (Hrest : first rest = 10 \/ first rest = 32 \/ first rest = 58).

Ltac first_is H := cbn [app drop] in *; repeat destruct H as [H|H]; rewrite H; done.

Lemma scans_letter_e exponent : exponent_ok exponent ->
  scans (orelse (TryConsume rounds 101) (TryConsume rounds 69)) (take 1 exponent) (drop 1 exponent ++ rest)
    (negb (bool_decide (exponent = []))).
Proof.
  pose proof Hrest as Hr. intros [->|(sign & d & ds & -> & _)]; [|by apply scans_or_yes, scans_yes].
  apply scans_or_no; apply scans_no; first_is Hr.
Qed.

Lemma scans_exponent exponent : exponent_ok exponent ->
  scans (if negb (bool_decide (exponent = [])) then
           orelse (TryConsume rounds 45) (TryConsume rounds 43);;
           ConsumeOneOrMore rounds Digit ([34] ++ text "e" ++ [34] ++ text " must be followed by exponent.")
         else mret tt) (drop 1 exponent) rest tt.
Proof.
  intros [->|(sign & d & ds & -> & Hs & Hd & Hds)]; [apply scans_ret|].
  rewrite bool_decide_false by done. cbn [negb drop]. apply (scans_bind _ _ [sign] (d :: ds) _ true).
  - destruct Hs as [-> | ->]; [by apply scans_or_yes, scans_yes|]. apply scans_or_second; [by apply scans_no|by apply scans_yes].
  - unfold ConsumeOneOrMore. eapply scans_after; [apply scans_char|]. cbn [first head app default from_option id].
    assert (Digit d = true) as -> by (unfold Digit, is_dec in *; lia). cbn [negb].
    apply (scans_bind _ _ [d] ds _ tt); [apply scans_next|]. pose proof Hrest as Hr.
    apply scans_many; [by apply digits_class|first_is Hr].
Qed.

Lemma exponent_first exponent : exponent_ok exponent ->
  first (exponent ++ rest) = 10 \/ first (exponent ++ rest) = 32 \/ first (exponent ++ rest) = 58 \/ first (exponent ++ rest) = 101.
Proof. intros [->|(? & ? & ? & -> & _)]; [|by auto]. destruct Hrest as [|[|]]; auto. Qed.

Lemma point_first point exponent : point_ok point -> exponent_ok exponent ->
  let c := first (point ++ exponent ++ rest) in c = 10 \/ c = 32 \/ c = 58 \/ c = 101 \/ c = 46.
Proof. intros [->|(? & -> & _)] He; [|by cbv zeta; auto]. destruct (exponent_first _ He) as [|[|[|]]]; cbv zeta; auto. Qed.

Lemma scans_suffix {A} (k : bool -> A) :
  scans (s ← st_get; suffix ← (if allow_f_after_float_ s then orelse (TryConsume rounds 102) (TryConsume rounds 70)
                               else mret false) : Tok bool; mret (k suffix)) [] rest (k false).
Proof.
  apply scans_none. intros r s Hr. st_run. destruct (allow_f_after_float_ s); [|done].
  pose proof Hrest as Hf. unfold orelse, TryConsume. st_run.
  rewrite (TryConsumeOne_no rounds (fun x => x =? 102) rest r s Hr) by first_is Hf.
  by rewrite (TryConsumeOne_no rounds (fun x => x =? 70) rest r s Hr) by first_is Hf.
Qed.

Lemma scans_decimal ds point exponent : digits ds -> point_ok point -> exponent_ok exponent ->
  scans (consume_decimal rounds false) (ds ++ point ++ exponent) rest
    (negb (bool_decide (point = []) && bool_decide (exponent = []))).
Proof.
  intros Hds Hp He. pose proof (point_first _ _ Hp He) as Hf. cbv zeta in Hf. pose proof (exponent_first _ He) as Hx.
  unfold consume_decimal. eapply scans_bind.
  { apply scans_many; [by apply digits_class|]. rewrite <- app_assoc. first_is Hf. }
  apply (scans_bind _ _ point exponent _ (negb (bool_decide (point = [])))).
  { destruct Hp as [->|(fs & -> & Hfs)].
    - cbn [app]. eapply scans_after; [apply scans_no; first_is Hx|]. apply scans_ret.
    - apply (scans_bind _ _ [46] fs _ true); [by apply scans_yes|]. eapply scans_last; [|apply scans_ret].
      apply scans_many; [by apply digits_class|]. first_is Hx. }
  rewrite <- (take_drop 1 exponent) at 1. eapply scans_bind; [by apply scans_letter_e|].
  eapply scans_last; [by apply scans_exponent|].
  replace (negb (_ && _)) with (negb (bool_decide (point = [])) || negb (bool_decide (exponent = [])) || false)
    by (by rewrite negb_andb, orb_false_r).
  apply (scans_suffix (fun suffix => _ || suffix)).
Qed.

(** Behind the first digit. *)
Lemma scans_number zero ds point exponent : digits ds -> point_ok point -> exponent_ok exponent ->
  (zero = true -> ds = []) ->
  scans (ConsumeNumber rounds zero false) (ds ++ point ++ exponent) rest (number_type point exponent).
Proof.
  intros Hds Hp He Hz. pose proof (point_first _ _ Hp He) as Hf. cbv zeta in Hf. unfold ConsumeNumber, number_type.
  set (l := ds ++ point ++ exponent).
  assert (zero = true -> l ++ rest = point ++ exponent ++ rest) as Hl.
  { intros E1. unfold l. rewrite (Hz E1). cbn [app]. by rewrite <- app_assoc. }
  eapply (scans_after _ _ _ _ false).
  { destruct zero; [|apply scans_ret]. rewrite Hl by done.
    apply scans_or_no; apply scans_no; first_is Hf. }
  eapply scans_last.
  { eapply (scans_after _ _ _ _ false); [|by apply scans_decimal].
    destruct zero; [|apply scans_ret]. rewrite Hl by done. unfold LookingAtClass.
    eapply scans_after; [apply scans_char|]. replace false with (Digit (first (point ++ exponent ++ rest))); [apply scans_ret|].
    first_is Hf. }
  eapply scans_after; [apply scans_char|]. pose proof Hrest as Hr.
  assert (Letter (first ([] ++ rest)) = false) as -> by first_is Hr.
  assert ((first ([] ++ rest) =? 46) = false) as -> by first_is Hr.
  eapply (scans_after _ _ _ _ tt); [apply scans_ret|]. destruct (_ && _); apply scans_ret.
Qed.

(** ** Strings *)

Lemma scans_loop_next {A} n (body : unit -> Tok (unit + A)) t1 t2 rst a :
  scans (body tt) t1 (t2 ++ rst) (inl tt) -> scans (st_loop n body tt) t2 rst a ->
  scans (st_loop (S n) body tt) (t1 ++ t2) rst a.
Proof. intros Hb Hl. by apply (scans_bind _ _ t1 t2 rst (inl tt)). Qed.

Lemma scans_loop_last {A} n (body : unit -> Tok (unit + A)) txt rst a :
  scans (body tt) txt rst (inr a) -> scans (st_loop (S n) body tt) txt rst a.
Proof. intros Hb. apply (scans_last _ _ txt rst (inr a)); [done|apply scans_ret]. Qed.

Lemma scans_plain c rst : c <> 0 -> c <> 10 -> c <> 92 -> c <> 34 ->
  scans (string_body rounds 34 tt) [c] rst (inl tt).
Proof.
  intros H1 H2 H3 H4. unfold string_body. eapply scans_after; [apply scans_char|]. cbn [first head app default from_option id].
  rewrite <- Z.eqb_neq in *. rewrite H1, H2, H3, H4. cbn [orb].
  apply (scans_last _ _ _ _ tt); [apply scans_next|apply scans_ret].
Qed.

Lemma scans_backslash c rst : EscapeLetter c = true \/ OctalDigit c = true ->
  scans (string_body rounds 34 tt) [92; c] rst (inl tt).
Proof.
  intros Hc. unfold string_body. eapply scans_after; [apply scans_char|]. cbn [first head app default from_option id Z.eqb orb].
  apply (scans_bind _ _ [92] [c] _ tt); [apply scans_next|]. apply (scans_last _ _ _ _ tt); [|apply scans_ret].
  unfold consume_escape. destruct (EscapeLetter c) eqn:El.
  - apply (scans_last _ _ _ _ true); [by apply scans_yes|apply scans_ret].
  - destruct Hc as [|Hc]; [done|]. apply (scans_after _ _ _ _ false); [by apply scans_no|].
    apply (scans_last _ _ _ _ true); [by apply scans_yes|apply scans_ret].
Qed.

Lemma two_letter_escape c l : two_letter c = Some l -> EscapeLetter l = true /\ TranslateEscape l = c /\ OctalDigit l = false /\ 
  l <> 120 /\ l <> 117 /\ l <> 85.
Proof.
  unfold two_letter.
  repeat match goal with |- context [c =? ?k] => destruct (Z.eqb_spec c k) as [->|_]; [intros [= <-]; split_and!; done || lia|] end.
  done.
Qed.

(** A character that is not escaped, an escape with a letter, or one in octal. *)
Lemma escaped_cases c : is_byte c ->
  match two_letter c with
  | Some l => EscapeLetter l = true /\ TranslateEscape l = c /\ OctalDigit l = false /\ l <> 120 /\ l <> 117 /\ l <> 85
  | None =>
      if must_escape false false c then True
      else c <> 0 /\ c <> 10 /\ c <> 92 /\ c <> 34
  end.
Proof.
  intros Hc. destruct (two_letter c) as [l|] eqn:El; [by apply two_letter_escape|].
  destruct (must_escape false false c) eqn:Em; [done|]. split_and!; intros ->; done.
Qed.

(** Three digits. *)
Lemma octal_range c : is_byte c ->
  OctalDigit (48 + c / 64) = true /\ OctalDigit (48 + c / 8 mod 8) = true /\ OctalDigit (48 + c mod 8) = true.
Proof.
  unfold is_byte, OctalDigit. intros Hc.
  assert (0 <= c / 64 < 4) by (split; [apply Z.div_pos; lia|apply Z.div_lt_upper_bound; lia]).
  pose proof (Z.mod_pos_bound (c / 8) 8 ltac:(lia)). pose proof (Z.mod_pos_bound c 8 ltac:(lia)). split_and!; lia.
Qed.

Lemma scans_digit c rst : OctalDigit c = true -> scans (string_body rounds 34 tt) [c] rst (inl tt).
Proof. unfold OctalDigit. intros Hc. apply scans_plain; lia. Qed.

Lemma scans_string src : Forall is_byte src -> forall n rst, (length (escaped false false false src) < n)%nat ->
  scans (st_loop n (string_body rounds 34) tt) (escaped false false false src ++ [34]) rst tt.
Proof.
  induction 1 as [|c src Hc _ IH]; intros n rst Hn.
  - destruct n as [|n]; [cbn in Hn; lia|]. apply scans_loop_last. unfold string_body.
    eapply scans_after; [apply scans_char|]. cbn [escaped first head app default from_option id Z.eqb orb].
    apply (scans_last _ _ _ _ tt); [apply scans_next|apply scans_ret].
  - cbn [escaped] in *. pose proof (escaped_cases c Hc) as Hk. destruct (two_letter c) as [l|] eqn:El.
    + destruct Hk as (Hl & _). cbn [length] in Hn. destruct n as [|n]; [lia|].
      change ((92 :: l :: ?t) ++ [34]) with ([92; l] ++ (t ++ [34])). apply scans_loop_next; [by apply scans_backslash; left|].
      apply IH. lia.
    + destruct (must_escape false false c).
      * rewrite length_app in Hn. cbn [four_letter octal_escape length] in Hn.
        destruct n as [|[|[|n]]]; [lia..|]. destruct (octal_range c Hc) as (H1 & H2 & H3).
        change ((four_letter false c ++ ?t) ++ [34]) with
          ([92; 48 + c / 64] ++ ([48 + c / 8 mod 8] ++ ([48 + c mod 8] ++ (t ++ [34])))).
        apply scans_loop_next; [by apply scans_backslash; right|]. apply scans_loop_next; [by apply scans_digit|].
        apply scans_loop_next; [by apply scans_digit|]. apply IH. lia.
      * cbn [length] in Hn. destruct n as [|n]; [lia|]. destruct Hk as (H1 & H2 & H3 & H4).
        change ((c :: ?t) ++ [34]) with ([c] ++ (t ++ [34])). apply scans_loop_next; [by apply scans_plain|]. apply IH. lia.
Qed.

(** ** Tokens *)

Definition ident (l : list Z) : Prop := exists c l', l = c :: l' /\ Letter c = true /\ Forall (fun c => Alphanumeric c = true) l'.

Lemma token_identifier l rst : ident l -> Alphanumeric (first rst) = false ->
  scans (consume_token rounds) l rst TYPE_IDENTIFIER.
Proof.
  intros (c & l' & -> & Hc & Hl) Hr. unfold consume_token. apply (scans_bind _ _ [c] l' _ true); [by apply scans_yes|].
  apply (scans_last _ _ _ _ tt); [by apply scans_many|apply scans_ret].
Qed.

Lemma token_number ds point exponent : digits ds -> ds <> [] -> (hd 0 ds = 48 -> length ds = 1%nat) ->
  point_ok point -> exponent_ok exponent ->
  scans (consume_token rounds) (ds ++ point ++ exponent) rest (number_type point exponent).
Proof.
  intros Hds Hne Hz Hp He. destruct ds as [|d ds]; [done|]. apply Forall_cons in Hds as [Hd Hds]. cbn [hd length] in Hz.
  unfold consume_token. apply (scans_after _ _ _ _ false).
  { apply scans_no. cbn. unfold is_dec, Letter in *. lia. }
  destruct (Z.eqb_spec d 48) as [->|Hd0].
  - apply (scans_bind _ _ [48] (ds ++ point ++ exponent) _ true); [by apply scans_yes|].
    apply scans_number; [done..|]. intros _. destruct ds; [done|]. specialize (Hz eq_refl). done.
  - apply (scans_after _ _ _ _ false); [apply scans_no; cbn; lia|].
    apply (scans_after _ _ _ _ false); [apply scans_no; cbn; unfold is_dec in Hd; lia|].
    apply (scans_bind _ _ [d] (ds ++ point ++ exponent) _ true); [apply scans_yes; unfold is_dec, Digit in *; lia|].
    by apply scans_number.
Qed.

Lemma token_string src rst : Forall is_byte src -> (length (escaped false false false src) < rounds)%nat ->
  scans (consume_token rounds) ([34] ++ escaped false false false src ++ [34]) rst TYPE_STRING_LITERAL.
Proof.
  intros Hs Hl. unfold consume_token. do 4 (apply (scans_after _ _ _ _ false); [by apply scans_no|]).
  apply (scans_bind _ _ [34] _ _ true); [by apply scans_yes|].
  apply (scans_last _ _ _ _ tt); [by apply scans_string|apply scans_ret].
Qed.

Lemma token_symbol c rst : c = 58 \/ c = 45 -> scans (consume_token rounds) [c] rst TYPE_SYMBOL.
Proof.
  intros Hc. unfold consume_token. do 6 (apply (scans_after _ _ _ _ false); [apply scans_no; cbn; destruct Hc as [-> | ->]; done|]).
  apply (scans_last _ _ _ _ tt); [apply scans_next|apply scans_ret].
Qed.
End Scan.

(** * [Next] *)

Section Next.
Context {T E : Type} `{IL : InputLaws T} `{ErrorCollector E}.
Context (rounds : nat).

Abbreviation Tk := (Tokenizer T E).

(** In front of a token of a text without comments that begin with a slash. *)
Record ready (e : E) (l : list Z) (s : Tk) : Prop := {
  rd_reading : reading rounds l None s;
  rd_style : comment_style_ s = SH_COMMENT_STYLE;
  rd_collector : error_collector_ s = e;
  rd_length : (length l < rounds)%nat
}.

Lemma reading_same l (s s' : Tk) : source_of s' = source_of s -> record_target_ s' = record_target_ s ->
  reading rounds l None s -> reading rounds l None s'.
Proof. intros Hs Ht [Hsrc Hr]. split; [by apply (source_same rounds _ s)|]. cbn in *. congruence. Qed.

(** The character that a token begins with. *)
Definition opens (c : Z) : Prop := Whitespace c = false /\ c <> 35 /\ Unprintable c = false /\ c <> 0.

Lemma next_body_token ws txt rst ty s : Forall (fun c => Whitespace c = true) ws -> opens (first txt) -> txt <> [] ->
  scans rounds (consume_token rounds) txt rst ty ->
  reading rounds (ws ++ txt ++ rst) None s -> comment_style_ s = SH_COMMENT_STYLE -> (length (ws ++ txt ++ rst) < rounds)%nat ->
  exists s', next_body rounds tt s = Ok (inr true, s') /\ reading rounds rst None s' /\
    tok_type (current_ s') = ty /\ tok_text (current_ s') = txt /\
    error_collector_ s' = error_collector_ s /\ comment_style_ s' = comment_style_ s.
Proof.
  intros Hws (O1 & O2 & O3 & O4) Hne Hm Hr Hst Hl.
  assert (first (txt ++ rst) = first txt) as Hf by by apply first_app.
  assert (read_error_ s = false) as He.
  { rewrite (live_ended _ _ _ _ Hr). apply bool_decide_false. intros Hn. apply app_eq_nil in Hn as [_ Hn]. by apply app_eq_nil in Hn as [? _]. }
  destruct (ConsumeZeroOrMore_spec rounds Whitespace ws None (txt ++ rst) s) as (s1 & E1 & Hr1 & Hs1);
    [done|done|by rewrite Hf|rewrite length_app in Hl; lia|]. cbn in Hr1.
  assert (read_error_ s1 = false) as He1.
  { rewrite (live_ended _ _ _ _ Hr1). apply bool_decide_false. intros Hn. by apply app_eq_nil in Hn as [? _]. }
  pose proof (reading_char _ _ _ _ Hr1) as Hc1. fold (first (txt ++ rst)) in Hc1. rewrite Hf in Hc1.
  injection Hs1 as F1 F2 F3 F4 _ _ _.
  assert (TryConsumeOne rounds (fun c => c =? 35) s1 = Ok (false, s1)) as E2.
  { apply (TryConsumeOne_no rounds _ (txt ++ rst) None); [done|]. rewrite Hf. lia. }
  destruct (StartToken_spec rounds _ s1 Hr1) as (s2 & E3 & Hr2 & G1 & G2 & G3 & G4).
  destruct (Hm (Some []) s2 Hr2) as (s3 & E4 & Hr3 & Hs3); [rewrite length_app in Hl; lia|]. cbn in Hr3.
  set (s4 := set_current (set_type ty (current_ s3)) s3).
  assert (reading rounds rst (Some txt) s4) as Hr4.
  { destruct Hr3 as [Hsrc Hr3]. split; [by apply (source_same rounds _ s3)|exact Hr3]. }
  destruct (EndToken_spec rounds rst txt s4 Hr4) as (s5 & E5 & Hr5 & Htx & Hs5 & _).
  injection Hs3 as K1 K2 K3 K4 _ _ _. injection Hs5 as L1 L2 L3 L4 L5 _ _.
  exists s5. split_and!; [|done|exact L5|done|congruence|congruence].
  unfold next_body. st_run. rewrite He, E1. unfold TryConsumeCommentStart, TryConsume. st_run. rewrite F3, Hst. rewrite E2.
  st_run. rewrite He1, Hc1. assert (Unprintable (first txt) || (first txt =? 0) = false) as -> by (rewrite O3; lia).
  rewrite E3, E4. unfold assign_type. st_run. fold s4. by rewrite E5.
Qed.

Lemma Next_token e ws txt rst ty s : Forall (fun c => Whitespace c = true) ws -> opens (first txt) -> txt <> [] ->
  scans rounds (consume_token rounds) txt rst ty -> ready e (ws ++ txt ++ rst) s ->
  exists s', Next rounds s = Ok (true, s') /\ ready e rst s' /\ tok_type (current_ s') = ty /\ tok_text (current_ s') = txt.
Proof.
  intros Hws Ho Hne Hm [Hr Hst Hc Hl]. unfold Next. set (s1 := set_tokens (current_ s) (current_ s) s).
  destruct (next_body_token ws txt rst ty s1) as (s' & E1 & Hr' & Hty & Htx & Hc' & Hst'); try done; [by apply (reading_same _ s)|].
  exists s'. split_and!; [|split; [done|by rewrite Hst'|by rewrite Hc'|rewrite !length_app in Hl; lia]|done|done].
  destruct rounds; [lia|]. st_run. fold s1. by rewrite (st_loop_exit _ _ _ _ _ _ E1).
Qed.

Lemma end_of_input_spec e s : ready e [] s -> exists s', end_of_input s = Ok (inr false, s') /\ ready e [] s' /\
  tok_type (current_ s') = TYPE_END /\ tok_text (current_ s') = [].
Proof.
  intros [Hr Hst Hc Hl]. eexists. split; [done|]. split_and!; [|done..]. split; [by apply (reading_same _ s)|done..].
Qed.

Lemma next_body_end e ws s : Forall (fun c => Whitespace c = true) ws -> ready e ws s ->
  exists s', next_body rounds tt s = Ok (inr false, s') /\ ready e [] s' /\
    tok_type (current_ s') = TYPE_END /\ tok_text (current_ s') = [].
Proof.
  intros Hws Hs. pose proof Hs as [Hr Hst Hc Hl]. unfold next_body. st_run.
  rewrite (live_ended _ _ _ _ Hr). case_bool_decide as Hn; [subst; by apply end_of_input_spec|].
  destruct (ConsumeZeroOrMore_spec rounds Whitespace ws None [] s) as (s1 & -> & Hr1 & Hs1);
    [by rewrite app_nil_r|done|done|done|]. cbn in Hr1. injection Hs1 as F1 F2 F3 F4 _ _ _.
  unfold TryConsumeCommentStart, TryConsume. st_run. rewrite F3, Hst, (TryConsumeOne_no rounds _ [] None s1 Hr1 eq_refl).
  st_run. rewrite (live_ended _ _ _ _ Hr1). cbn [bool_decide decide_rel].
  apply end_of_input_spec. split; [done|congruence|congruence|cbn; lia].
Qed.

Lemma Next_end e ws s : Forall (fun c => Whitespace c = true) ws -> ready e ws s ->
  exists s', Next rounds s = Ok (false, s') /\ ready e [] s' /\ tok_type (current_ s') = TYPE_END /\ tok_text (current_ s') = [].
Proof.
  intros Hws Hs. unfold Next. set (s1 := set_tokens (current_ s) (current_ s) s).
  assert (ready e ws s1) as Hs1 by (destruct Hs; split; [by apply (reading_same _ s)|done..]).
  destruct (next_body_end e ws s1 Hws Hs1) as (s' & E1 & Hr & Hty & Htx). exists s'. split_and!; [|done..].
  pose proof (rd_length _ _ _ Hs). destruct rounds; [lia|]. st_run. fold s1. by rewrite (st_loop_exit _ _ _ _ _ _ E1).
Qed.

(** The next token of a text, and what is behind it. *)
Inductive lexes : list Z -> TokenType -> list Z -> list Z -> Prop :=
  | lexes_end ws : Forall (fun c => Whitespace c = true) ws -> lexes ws TYPE_END [] []
  | lexes_token ws txt rst ty : Forall (fun c => Whitespace c = true) ws -> opens (first txt) -> txt <> [] ->
      scans rounds (T := T) (E := E) (consume_token rounds) txt rst ty -> lexes (ws ++ txt ++ rst) ty txt rst.

Lemma Next_lexes e l ty txt rst s : lexes l ty txt rst -> ready e l s ->
  exists b s', Next rounds s = Ok (b, s') /\ ready e rst s' /\ tok_type (current_ s') = ty /\ tok_text (current_ s') = txt.
Proof.
  intros [ws Hws|ws t r y Hws Ho Hne Hm] Hs.
  - destruct (Next_end e ws s Hws Hs) as (s' & ? & ? & ? & ?). eauto 7.
  - destruct (Next_token e ws t r y s Hws Ho Hne Hm Hs) as (s' & ? & ? & ? & ?). eauto 7.
Qed.
End Next.

(** * The values of tokens *)

Lemma digits_fold_mono l : digits l -> forall res, 0 <= res -> res <= foldl (fun a c => a * 10 + (c - 48)) res l.
Proof.
  induction 1 as [|c l Hc _ IH]; intros res Hr; cbn [foldl]; [lia|]. unfold is_dec in Hc.
  specialize (IH (res * 10 + (c - 48)) ltac:(lia)). lia.
Qed.

Lemma digit_value c : is_dec c -> DigitValue c = c - 48.
Proof. unfold is_dec, DigitValue. intros Hc. destruct (Z.leb_spec 48 c), (Z.leb_spec c 57); done || lia. Qed.

Lemma integer_loop_spec l max_value : digits l -> max_value < 2 ^ 64 -> forall res, 0 <= res ->
  foldl (fun a c => a * 10 + (c - 48)) res l <= max_value ->
  integer_loop 10 max_value l res = Ok (Some (foldl (fun a c => a * 10 + (c - 48)) res l)).
Proof.
  intros Hl Hmax. induction Hl as [|c l Hc Hl IH]; intros res Hr Hv; [done|]. cbn [integer_loop foldl] in *.
  pose proof (digits_fold_mono l Hl (res * 10 + (c - 48))) as Hm. rewrite digit_value by done. unfold is_dec in Hc.
  specialize (Hm ltac:(lia)). destruct (Z.ltb_spec (c - 48) 0), (Z.leb_spec 10 (c - 48)); try lia. cbn [orb].
  destruct (Z.ltb_spec max_value (c - 48)); [lia|]. cbn [orb].
  destruct (Z.ltb_spec ((max_value - (c - 48)) / 10) res) as [Hlt|_].
  { assert (res <= (max_value - (c - 48)) / 10) by (apply Z.div_le_lower_bound; lia). lia. }
  unfold u64. rewrite Z.mod_small by lia. apply IH; lia.
Qed.

Lemma decimal_zero : decimal 20 0 = [48].
Proof. done. Qed.

Lemma ParseInteger_ten c l max_value : c <> 48 -> ParseInteger (c :: l) max_value = integer_loop 10 max_value (c :: l) 0.
Proof.
  intros Hc. unfold ParseInteger. generalize (integer_loop 10 max_value (c :: l) 0), (integer_loop 8 max_value (c :: l) 0).
  intros x y. destruct c as [|p|p]; [done| |done]. do 6 (destruct p as [p|p|]; try done).
Qed.

Lemma ParseInteger_decimal n max_value : 0 <= n <= max_value -> max_value < 2 ^ 64 ->
  ParseInteger (decimal 20 n) max_value = Ok (Some n).
Proof.
  intros Hn Hmax. destruct (Z.eq_dec n 0) as [->|Hn0].
  { rewrite decimal_zero. change (ParseInteger [48] max_value) with
      (if (max_value <? 0) || ((max_value - 0) / 8 <? 0) then Ok None else Ok (Some 0)).
    assert (0 <= (max_value - 0) / 8) by (apply Z.div_pos; lia).
    by replace ((max_value <? 0) || ((max_value - 0) / 8 <? 0)) with false by lia. }
  assert (10 ^ Z.of_nat 20 = 100000000000000000000) as Ep by reflexivity.
  destruct (decimal_head 20 n) as (c & l & El & Hc); [lia|].
  pose proof (decimal_value 20 n ltac:(lia) ltac:(lia)) as Hv. pose proof (decimal_chars 20 n ltac:(lia)) as Hd.
  unfold digits_value in Hv. rewrite El in *. transitivity (integer_loop 10 max_value (c :: l) 0).
  - by apply ParseInteger_ten.
  - rewrite (integer_loop_spec (c :: l) max_value Hd Hmax 0); [by rewrite Hv|lia|]. rewrite Hv. lia.
Qed.

(** ** Strings *)

Lemma digit_step_octal c code p : OctalDigit c = true -> digit_step OctalDigit 8 (code, c :: p) = (code * 8 + (c - 48), p).
Proof.
  intros Hc. unfold digit_step. rewrite Hc. rewrite digit_value; [done|]. unfold OctalDigit, is_dec in *. lia.
Qed.

Lemma octal_code c : is_byte c -> u8 (((48 + c / 64 - 48) * 8 + (48 + c / 8 mod 8 - 48)) * 8 + (48 + c mod 8 - 48)) = c.
Proof.
  intros Hc. apply Z.eqb_eq. revert c Hc.
  apply (byte_cases (fun c => u8 (((48 + c / 64 - 48) * 8 + (48 + c / 8 mod 8 - 48)) * 8 + (48 + c mod 8 - 48)) =? c)).
  by vm_compute.
Qed.

Lemma string_chars_plain fuel c p : c <> 92 -> c <> 34 ->
  string_chars (S fuel) 34 (c :: p) = cons c <$> string_chars fuel 34 p.
Proof.
  intros H1 H2. cbn [string_chars]. rewrite <- Z.eqb_neq in H2. rewrite H2. cbn [andb].
  generalize (cons c <$> string_chars fuel 34 p). intros x.
  destruct c as [|q|q]; [done| |done]. do 7 (destruct q as [q|q|]; try done).
Qed.

Lemma string_chars_spec src : Forall is_byte src -> forall fuel, (length (escaped false false false src) + 1 < fuel)%nat ->
  string_chars fuel 34 (escaped false false false src ++ [34]) = Ok src.
Proof.
  induction 1 as [|c src Hc _ IH]; intros fuel Hf.
  - destruct fuel as [|[|fuel]]; [lia|cbn in Hf; lia|done].
  - cbn [escaped] in *. pose proof (escaped_cases c Hc) as Hk. destruct (two_letter c) as [l|] eqn:El.
    + destruct Hk as (_ & Ht & Ho & H1 & H2 & H3). cbn [length] in Hf. destruct fuel as [|fuel]; [lia|].
      cbn [app string_chars]. rewrite Ho. rewrite <- Z.eqb_neq in H1, H2, H3. rewrite H1, H2, H3, Ht. cbn [orb].
      by rewrite IH by lia.
    + destruct (must_escape false false c).
      * rewrite length_app in Hf. cbn [four_letter octal_escape length] in Hf. destruct fuel as [|fuel]; [lia|].
        destruct (octal_range c Hc) as (H1 & H2 & H3). cbn [four_letter octal_escape app string_chars]. rewrite H1.
        rewrite !digit_step_octal by done. rewrite digit_value by (unfold OctalDigit, is_dec in *; lia).
        rewrite octal_code by done. by rewrite IH by lia.
      * cbn [length] in Hf. destruct fuel as [|fuel]; [lia|]. destruct Hk as (H1 & H2 & H3 & H4).
        assert (string_chars (S fuel) 34 ((c :: escaped false false false src) ++ [34]) =
          cons c <$> string_chars fuel 34 (escaped false false false src ++ [34])) as ->; [|by rewrite IH by lia].
        by apply string_chars_plain.
Qed.

Lemma ParseStringAppend_spec src : Forall is_byte src ->
  ParseStringAppend ([34] ++ escaped false false false src ++ [34]) [] = Ok src.
Proof.
  intros Hs. set (body := escaped false false false src ++ [34]).
  change (ParseStringAppend ([34] ++ body) []) with
    (source ← c_string ((34 :: body) ++ [0]) 0;
     chars ← string_chars (S (length (34 :: body))) 34 (drop 1 source); Ok ([] ++ chars)).
  rewrite c_string_whole; [|constructor; [done|]; apply Forall_app; split; [by apply escaped_nonzero|by repeat constructor]].
  cbn [mbind result_bind]. change (drop 1 (34 :: body)) with body. unfold body at 2.
  rewrite string_chars_spec; [done|done|]. unfold body. cbn [length]. rewrite length_app. cbn. lia.
Qed.

(** ** Numbers *)

Lemma ParseFloat_plain ds point exponent : plain_number ds point exponent ->
  ParseFloat (ds ++ point ++ exponent) = Ok (fst (fst (strtod (ds ++ point ++ exponent)))).
Proof.
  intros Hpn. destruct (strtod_plain _ _ _ Hpn) as (d & ok & Es). unfold ParseFloat, NoLocaleStrtod. rewrite Es.
  cbn [fst]. rewrite bool_decide_false by auto. cbn [orb].
  destruct Hpn as [Hd Hne _ _ _ _]. destruct ds as [|c ds]; [done|]. apply Forall_cons in Hd as [Hc _]. unfold is_dec in Hc.
  cbn [app]. generalize (ds ++ point ++ exponent). intros l. destruct c as [|p|p]; [done| |done]. do 6 (destruct p as [p|p|]; try done || lia).
Qed.

Lemma ParseInteger_plain ds max_value : digits ds -> ds <> [] -> (hd 0 ds = 48 -> length ds = 1%nat) -> (length ds <= 8)%nat ->
  10 ^ 8 <= max_value < 2 ^ 64 -> ParseInteger ds max_value = Ok (Some (digits_value 10 (fun c => c - 48) ds)).
Proof.
  intros Hd Hne Hz Hl Hmax.
  assert (forall l a, digits l -> 0 <= a -> foldl (fun a c => a * 10 + (c - 48)) a l < (a + 1) * 10 ^ Z.of_nat (length l)) as Hb.
  { intros l. induction l as [|c l IH]; intros a Hll Ha; [cbn; lia|]. apply Forall_cons in Hll as [Hc Hll]. unfold is_dec in Hc.
    cbn [foldl length]. specialize (IH (a * 10 + (c - 48)) Hll ltac:(lia)).
    assert (10 ^ Z.of_nat (S (length l)) = 10 * 10 ^ Z.of_nat (length l)) as -> by (rewrite <- Z.pow_succ_r by lia; f_equal; lia).
    assert (0 < 10 ^ Z.of_nat (length l)) by (apply Z.pow_pos_nonneg; lia). nia. }
  destruct ds as [|c ds]; [done|]. destruct (Z.eqb_spec c 48) as [->|Hc].
  - specialize (Hz eq_refl). destruct ds; [|done]. by apply (ParseInteger_decimal 0); lia.
  - rewrite ParseInteger_ten by done. specialize (Hb (c :: ds) 0 Hd ltac:(lia)).
    assert (10 ^ Z.of_nat (length (c :: ds)) <= 10 ^ 8) by (apply Z.pow_le_mono_r; lia).
    apply integer_loop_spec; [done|lia|lia|]. lia.
Qed.
