(* ===== verification/ParserRuns.v ===== *)
(** Whatever the text, the tokenizer and the parser come to an end without leaving a buffer: every
    round of every loop uses up characters or tokens. *)

From Stdlib Require Import String.
From S2P Require Import Prelude CMem Coded Wire Messages StrUtil FloatText TextFormat Tokenizer TextParser TokenProofs.

(** * The tokenizer *)

Section Tokens.
Context {T E : Type} `{IL : InputLaws T} `{ErrorCollector E}.
Context (rounds : nat).
(** What holds of the reports so far. *)
Context (I : E -> Prop) (I_error : forall line col message e, I e -> I (CollectError line col message e)).

Abbreviation Tk := (Tokenizer T E).
Abbreviation Tok := (ST Tk).

(** At most [n] characters are left; whether a token is recorded. *)
Definition within (n : nat) (rec : bool) (s : Tk) : Prop :=
  I (error_collector_ s) /\
  exists l r, reading rounds l r s /\ (length l <= n < rounds)%nat /\ bool_decide (is_Some r) = rec.

Lemma within_more n k rec s : within n rec s -> (n <= k < rounds)%nat -> within k rec s.
Proof. intros (Hi & l & r & Hr & Hl & Hs) Hk. split; [done|]. exists l, r. split_and!; [done|lia|lia|done]. Qed.

Lemma within_rounds n rec s : within n rec s -> (n < rounds)%nat.
Proof. intros (_ & l & r & _ & Hl & _). lia. Qed.

(** A computation that reads on, with a result in [V]. *)
Definition secure {A} (V : A -> Prop) (m : Tok A) : Prop :=
  forall n rec s, within n rec s -> wp no_fault m s (fun a s' => V a /\ within n rec s').

Definition anything {A} (_ : A) : Prop := True.

Lemma secure_weaken {A} (V W : A -> Prop) m : secure V m -> (forall a, V a -> W a) -> secure W m.
Proof. intros Hm HVW n rec s Hw. eapply wp_mono; [by apply Hm|]. intros a s' [? ?]. auto. Qed.

Lemma secure_ret {A} (V : A -> Prop) a : V a -> secure V (mret a).
Proof. intros Ha n rec s Hw. by apply wp_ret. Qed.

Lemma secure_bind {A B} V (W : B -> Prop) (m : Tok A) (k : A -> Tok B) :
  secure V m -> (forall a, V a -> secure W (k a)) -> secure W (m ≫= k).
Proof.
  intros Hm Hk n rec s Hw. eapply wp_seq; [by apply Hm|]. intros a s' [Ha Hw']. by apply (Hk a Ha).
Qed.

Lemma secure_get : secure anything st_get.
Proof. by intros n rec s Hw. Qed.

Lemma secure_char : secure anything get_char.
Proof. by intros n rec s Hw. Qed.

Lemma secure_modify f : (forall s, source_of (f s) = source_of s /\ record_target_ (f s) = record_target_ s /\
  record_start_ (f s) = record_start_ s /\ tok_text (current_ (f s)) = tok_text (current_ s)) ->
  (forall s, I (error_collector_ s) -> I (error_collector_ (f s))) ->
  secure anything (st_modify f).
Proof.
  intros Hf HI n rec s (Hi & l & r & [Hsrc Hr] & Hl & Hs). destruct (Hf s) as (H1 & H2 & H3 & H4).
  split; [done|]. split; [by apply HI|]. exists l, r. split_and!; [|lia|lia|done]. split; [by apply (source_same rounds _ s)|].
  injection H1 as _ H5 H6 _ _ _. destruct r; cbn in Hr |- *; by rewrite ?H2, ?H3, ?H4, ?H5, ?H6.
Qed.

Lemma secure_error message : secure anything (AddError message).
Proof. apply secure_modify; [done|]. intros s Hs. by apply I_error. Qed.

(** The first character is there. *)
Lemma next_char n rec s : within n rec s -> read_error_ s = false ->
  (0 < n)%nat /\ wp no_fault (NextChar rounds) s (fun _ s' => within (pred n) rec s').
Proof.
  intros (Hi & l & r & Hr & Hl & Hs) He. rewrite (live_ended _ _ _ _ Hr) in He. apply bool_decide_eq_false in He.
  destruct l as [|c l]; [done|]. cbn in Hl. split; [lia|].
  destruct (NextChar_spec rounds c l r s Hr) as (s' & E1 & Hr' & Hst & _). apply (wp_ok _ _ _ tt s' _ E1).
  split; [by injection Hst as -> _|]. exists l, ((fun t => t ++ [c]) <$> r). split_and!; [done|lia|lia|by destruct r].
Qed.

Lemma nonzero_live n rec s : within n rec s -> current_char_ s <> 0 -> read_error_ s = false.
Proof.
  intros (_ & l & r & Hr & _) Hc. rewrite (live_ended _ _ _ _ Hr). rewrite (reading_char _ _ _ _ Hr) in Hc.
  by destruct l.
Qed.

(** A character of a class, which zero is not in. *)
Lemma class_char n rec s (P : Z -> bool) : P 0 = false -> within n rec s -> P (current_char_ s) = true ->
  (0 < n)%nat /\ wp no_fault (NextChar rounds) s (fun _ s' => within (pred n) rec s').
Proof.
  intros HP Hw Hc. apply next_char; [done|]. apply (nonzero_live n rec s Hw). intros E1. by rewrite E1, HP in Hc.
Qed.

(** What [TryConsumeOne] leaves: one character less, or everything. *)
Lemma try_char n rec s (P : Z -> bool) : P 0 = false -> within n rec s ->
  wp no_fault (TryConsumeOne rounds P) s (fun b s' =>
    if b then (0 < n)%nat /\ within (pred n) rec s' else s' = s /\ P (current_char_ s) = false).
Proof.
  intros HP Hw. unfold TryConsumeOne, get_char. st_run. unfold wp. destruct (P (current_char_ s)) eqn:Ec; [|done].
  destruct (class_char n rec s P HP Hw Ec) as [Hn Hx]. unfold wp in Hx. by destruct (NextChar rounds s) as [[? ?]|].
Qed.

Lemma secure_try (P : Z -> bool) : P 0 = false -> secure anything (TryConsumeOne rounds P).
Proof.
  intros HP n rec s Hw. eapply wp_mono; [by apply (try_char n rec)|]. intros [|] s'; [|by intros [-> _]].
  intros [Hn Hw']. split; [done|]. eapply within_more; [done|]. apply within_rounds in Hw. lia.
Qed.

(** * Loops *)

(** A round uses up characters or ends the loop. *)
Definition advances {A} (V : A -> Prop) (body : Tok (unit + A)) : Prop :=
  forall n rec s, within n rec s -> wp no_fault body s (fun r s' =>
    match r with inl _ => exists k, (k < n)%nat /\ within k rec s' | inr a => V a /\ within n rec s' end).

Lemma secure_loop {A} (V : A -> Prop) (body : unit -> Tok (unit + A)) : advances V (body tt) ->
  secure V (st_loop rounds body tt).
Proof.
  intros Hb n rec s Hw. pose proof (within_rounds _ _ _ Hw) as Hn.
  apply (wp_loop _ _ (fun k _ s => within k rec s /\ (k <= n)%nat) _) with (k := n); [|split; [done|lia]|done].
  intros k [] s0 [Hw0 Hk]. eapply wp_mono; [by apply (Hb k rec)|]. intros [[]|a] s'.
  - intros (k' & Hk' & Hw'). exists k'. split_and!; [lia|done|lia].
  - intros [Ha Hw']. split; [done|]. by apply (within_more k).
Qed.

(** The first character of a round, then anything that keeps. *)
Lemma advances_next {A} (V : A -> Prop) (m : Tok (unit + A)) n rec s : within n rec s -> read_error_ s = false ->
  secure (fun r => match r with inl _ => True | inr a => V a end) m ->
  wp no_fault (NextChar rounds;; m) s (fun r s' =>
    match r with inl _ => exists k, (k < n)%nat /\ within k rec s' | inr a => V a /\ within n rec s' end).
Proof.
  intros Hw He Hm. destruct (next_char n rec s Hw He) as [Hn Hx]. eapply wp_seq; [exact Hx|]. intros [] s' Hw'.
  eapply wp_mono; [by apply (Hm (pred n) rec)|]. intros [[]|a] s'' [Ha Hw''].
  - exists (pred n). split; [lia|done].
  - split; [done|]. apply (within_more (pred n)); [done|]. apply within_rounds in Hw. lia.
Qed.

Lemma span_stops (P : Z -> bool) n rec s : P 0 = false -> within n rec s ->
  wp no_fault (ConsumeZeroOrMore rounds P) s (fun _ s' => within n rec s' /\ P (current_char_ s') = false).
Proof.
  intros HP Hw. pose proof (within_rounds _ _ _ Hw) as Hn.
  apply (wp_loop _ _ (fun k _ s => within k rec s /\ (k <= n)%nat) _) with (k := n); [|split; [done|lia]|done].
  intros k [] s0 [Hw0 Hk]. unfold consume_body, get_char. apply wp_bind, wp_bind, wp_get, wp_ret.
  apply wp_if; intros Hc; [|apply wp_ret; split; [by apply (within_more k)|done]].
  destruct (class_char k rec s0 P HP Hw0 Hc) as [Hk0 Hx]. eapply wp_seq; [exact Hx|]. intros [] s' Hw'.
  apply wp_ret. exists (pred k). split; [lia|]. split; [done|lia].
Qed.

Lemma secure_span (P : Z -> bool) : P 0 = false -> secure anything (ConsumeZeroOrMore rounds P).
Proof. intros HP n rec s Hw. eapply wp_mono; [by apply span_stops|]. by intros [] s' [Hw' _]. Qed.

Lemma secure_when b (m : Tok unit) : secure anything m -> secure anything (when b m).
Proof. destruct b; [done|]. intros _. by apply secure_ret. Qed.

Lemma secure_if {A} (V : A -> Prop) (b : bool) (m m' : Tok A) : secure V m -> secure V m' -> secure V (if b then m else m').
Proof. by destruct b. Qed.

Lemma secure_orelse a b : secure anything a -> secure anything b -> secure anything (orelse a b).
Proof. intros Ha Hb. eapply secure_bind; [done|]. intros [|] _; [by apply secure_ret|done]. Qed.

Lemma secure_all l : Forall (secure anything) l -> secure anything (all_of l).
Proof.
  induction 1 as [|a l Ha _ IH]; [by apply secure_ret|]. cbn. eapply secure_bind; [done|].
  intros [|] _; [done|by apply secure_ret].
Qed.
End Tokens.

Create HintDb reads.
#[export] Hint Resolve secure_get secure_char secure_error secure_try secure_span secure_when secure_orelse : reads.
#[export] Hint Extern 1 (_ = false) => reflexivity : reads.

(** Follows the shape of a computation. *)
Ltac keep := repeat first
  [ solve [auto with reads nocore]
  | apply secure_ret; first [done | by intros ?]
  | apply secure_if
  | apply secure_modify; [by intros ? | intros ? ?; cbn; by auto]
  | apply secure_orelse
  | apply secure_all; repeat constructor
  | eapply secure_bind; [solve [auto with reads nocore] | intros ? _]
  | eapply (secure_bind _ _ anything); [ | intros ? _] ].

(** * The functions of the tokenizer *)

Section Functions.
Context {T E : Type} `{IL : InputLaws T} `{ErrorCollector E}.
Context (rounds : nat).
Context (I : E -> Prop) (I_error : forall line col message e, I e -> I (CollectError line col message e)).

Abbreviation secure := (secure (T := T) (E := E) rounds I).
Abbreviation within := (within (T := T) (E := E) rounds I).
#[local] Hint Resolve I_error : core.

Lemma secure_one_or_more (P : Z -> bool) error : P 0 = false -> secure anything (ConsumeOneOrMore rounds P error).
Proof.
  intros HP n rec s Hw. unfold ConsumeOneOrMore, get_char. apply wp_bind, wp_bind, wp_get, wp_ret.
  apply wp_if; intros Hc; [by apply secure_error|]. apply negb_false_iff in Hc.
  destruct (class_char rounds I n rec s P HP Hw Hc) as [Hn Hx]. eapply wp_seq; [exact Hx|]. intros [] s' Hw'.
  eapply wp_mono; [by apply (secure_span rounds I P HP (pred n) rec)|]. intros [] s'' [_ Hw''].
  split; [done|]. apply (within_more rounds I (pred n)); [done|]. apply within_rounds in Hw. lia.
Qed.
#[local] Hint Resolve secure_one_or_more : reads.

Lemma secure_looking (P : Z -> bool) : secure anything (LookingAtClass P).
Proof. unfold LookingAtClass. keep. Qed.
#[local] Hint Resolve secure_looking : reads.

Lemma secure_escape : secure anything (consume_escape rounds).
Proof. unfold consume_escape, TryConsume. keep. Qed.

Lemma secure_string delimiter : delimiter <> 0 -> secure anything (ConsumeString rounds delimiter).
Proof.
  intros Hd. apply secure_loop. intros n rec s Hw. unfold string_body, get_char. apply wp_bind, wp_bind, wp_get, wp_ret.
  assert (current_char_ s <> 0 -> read_error_ s = false) as Hlive by apply (nonzero_live rounds I n rec s Hw).
  repeat (apply wp_if; intros ?Hc).
  - eapply wp_seq; [by apply (secure_error rounds I I_error _ n rec)|]. intros [] s' [_ Hw']. by apply wp_ret.
  - apply advances_next; [done|apply Hlive; lia|]. eapply secure_bind; [apply secure_escape|]. intros ? _. by apply secure_ret.
  - apply advances_next; [done|apply Hlive; lia|]. by apply secure_ret.
  - apply advances_next; [done|apply Hlive; lia|]. by apply secure_ret.
Qed.

Lemma secure_decimal started_with_dot : secure anything (consume_decimal rounds started_with_dot).
Proof. unfold consume_decimal, TryConsume. keep. Qed.
#[local] Hint Resolve secure_decimal : reads.

Definition not_end (t : TokenType) : Prop := t <> TYPE_END.

Lemma secure_number started_with_zero started_with_dot :
  secure not_end (ConsumeNumber rounds started_with_zero started_with_dot).
Proof.
  unfold ConsumeNumber, TryConsume.
  eapply (secure_bind _ _ anything); [keep|]. intros hex _.
  eapply (secure_bind _ _ anything); [keep|]. intros is_float _.
  eapply (secure_bind _ _ anything); [keep|]. intros c _.
  eapply (secure_bind _ _ anything); [keep|]. intros ? _.
  apply secure_ret. by destruct is_float.
Qed.

Lemma secure_comment : secure anything (ConsumeLineComment rounds false).
Proof. unfold ConsumeLineComment, TryConsume, when. keep. Qed.

Lemma secure_block : secure anything (ConsumeBlockComment rounds false).
Proof.
  unfold ConsumeBlockComment. eapply (secure_bind _ _ anything); [apply secure_get|]. intros s0 _.
  eapply (secure_bind _ _ anything); [keep|]. intros _ _. apply secure_loop.
  intros n rec s Hw. unfold block_body, TryConsume, when.
  eapply wp_seq; [by apply (span_stops rounds I _ n rec)|]. intros [] s1 [Hw1 Hstop].
  assert (forall (m : ST (Tokenizer T E) (unit + unit)) s', (0 < n)%nat /\ within (pred n) rec s' -> secure anything m ->
    wp no_fault m s' (fun r s'' => match r with inl _ => exists k, (k < n)%nat /\ within k rec s''
                                  | inr a => anything a /\ within n rec s'' end)) as Hrest.
  { intros m s' [Hn Hw'] Hm. eapply wp_mono; [by apply (Hm (pred n) rec)|]. intros [[]|[]] s'' [_ Hw''].
    - exists (pred n). split; [lia|done].
    - split; [done|]. apply (within_more rounds I (pred n)); [done|]. apply within_rounds in Hw. lia. }
  eapply wp_seq; [by apply (try_char rounds I n rec)|]. intros [|] s'; [intros Hs'; apply Hrest; [done|]; keep|].
  intros [-> H10]. cbn [all_of foldr]. apply wp_bind.
  eapply wp_seq; [by apply (try_char rounds I n rec)|].
  intros [|] s'; [intros Hs'; apply wp_unbind, Hrest; [done|]; keep|]. intros [-> H42]. apply wp_ret. cbn beta iota. apply wp_bind.
  eapply wp_seq; [by apply (try_char rounds I n rec)|].
  intros [|] s'; [intros Hs'; apply wp_unbind, Hrest; [done|]; keep|]. intros [-> H47]. apply wp_ret. cbn beta iota.
  unfold get_char. apply wp_bind, wp_bind, wp_get, wp_ret. apply wp_if; intros Hc; [|lia].
  eapply wp_mono.
  { refine (secure_bind rounds I anything (fun r : unit + unit => match r with inl _ => False | inr _ => True end)
      _ _ (secure_error rounds I I_error _) _ n rec s1 Hw1).
    intros _ _. eapply (secure_bind _ _ anything); [keep|]. intros _ _.
    eapply (secure_bind _ _ anything); [keep|]. intros _ _. by apply secure_ret. }
  intros [[]|[]] s' [? ?]; done.
Qed.

(** * Tokens *)

(** A token was read, or the input has ended. *)
Definition next_done (n : nat) (r : bool) (s : Tokenizer T E) : Prop :=
  if r then tok_type (current_ s) <> TYPE_END /\ exists k, (k < n)%nat /\ within k false s
  else tok_type (current_ s) = TYPE_END /\ tok_text (current_ s) = [] /\ within 0 false s.

Lemma token_try (P : Z -> bool) (yes no : ST (Tokenizer T E) TokenType) n s Q :
  (forall ty s', not_end ty -> (0 < n)%nat -> within (pred n) true s' -> Q ty s') ->
  P 0 = false -> within n true s -> secure not_end yes -> wp no_fault no s Q ->
  wp no_fault (r ← TryConsumeOne rounds P; if (r : bool) then yes else no) s Q.
Proof.
  intros HQ HP Hw Hyes Hno. eapply wp_seq; [by apply (try_char rounds I n true)|]. intros [|] s'; [|by intros [-> _]].
  intros [Hn Hw']. eapply wp_mono; [by apply (Hyes (pred n) true)|]. intros ty s'' [Hty Hw'']. by apply HQ.
Qed.

Lemma consume_token_spec n s : within n true s -> read_error_ s = false ->
  wp no_fault (consume_token rounds) s (fun ty s' => not_end ty /\ exists k, (k < n)%nat /\ within k true s').
Proof.
  intros Hw He. unfold consume_token, TryConsume.
  repeat (apply (token_try _ _ _ n); [intros ty s' Hty Hn Hw'; split; [done|]; exists (pred n); split; [lia|done]
    |done|done| |]).
  - eapply (secure_bind _ _ anything); [keep|]. intros _ _. by apply secure_ret.
  - apply secure_number.
  - eapply (secure_bind _ _ anything); [keep|]. intros [|] _; [|by apply secure_ret].
    eapply (secure_bind _ _ anything); [keep|]. intros s1 _. cbv zeta.
    eapply (secure_bind _ _ anything); [keep|]. intros _ _. apply secure_number.
  - apply secure_number.
  - eapply (secure_bind _ _ anything); [by apply secure_string|]. intros _ _. by apply secure_ret.
  - eapply (secure_bind _ _ anything); [by apply secure_string|]. intros _ _. by apply secure_ret.
  - destruct (next_char rounds I n true s Hw He) as [Hn Hx]. eapply wp_seq; [exact Hx|]. intros [] s' Hw'.
    apply wp_ret. split; [done|]. exists (pred n). split; [lia|done].
Qed.

Lemma comment_start n s : within n false s ->
  wp no_fault (TryConsumeCommentStart rounds) s (fun r s' =>
    match r with
    | NO_COMMENT => s' = s
    | SLASH_NOT_COMMENT => (0 < n)%nat /\ within (pred n) false s' /\ tok_type (current_ s') <> TYPE_END
    | _ => (0 < n)%nat /\ within (pred n) false s'
    end).
Proof.
  intros Hw. unfold TryConsumeCommentStart. apply wp_bind, wp_get. destruct (comment_style_ s).
  - eapply wp_seq; [by apply (try_char rounds I n false)|]. intros [|] s'; [|by intros [-> _]]. intros [Hn Hw'].
    eapply wp_seq; [by apply (secure_try rounds I _ eq_refl (pred n) false)|]. intros [|] s1 [_ Hw1]; [by apply wp_ret|].
    eapply wp_seq; [by apply (secure_try rounds I _ eq_refl (pred n) false)|]. intros [|] s2 [_ Hw2]; [by apply wp_ret|].
    apply wp_bind. unfold st_modify, wp. split_and!; [done| |done].
    destruct Hw2 as (Hi & l & [t|] & [Hsrc Hr] & Hl & Hs); [done|]. split; [exact Hi|]. exists l, None. split_and!; [|lia|lia|done].
    split; [by apply (source_same rounds _ s2)|done].
  - eapply wp_seq; [by apply (try_char rounds I n false)|]. intros [|] s'; [|intros [-> _]; by apply wp_ret].
    intros [Hn Hw']. by apply wp_ret.
Qed.

Lemma end_spec n s : within n false s -> read_error_ s = true ->
  wp no_fault end_of_input s (fun r s' => match r with inl _ => False | inr r => next_done n r s' end).
Proof.
  intros (Hi & l & [t|] & [Hsrc Hr] & Hl & Hs) He; [done|].
  assert (l = []) as ->.
  { assert (reading rounds l None s) as H1 by by split. rewrite (live_ended _ _ _ _ H1) in He.
    by apply bool_decide_eq_true in He. }
  unfold end_of_input, wp. cbn. split_and!; [done|done|]. split; [exact Hi|]. exists [], None. split_and!; [|cbn; lia|lia|done].
  split; [by apply (source_same rounds _ s)|done].
Qed.

Lemma secure_control : secure anything (st_loop rounds (skip_control_body rounds) tt).
Proof.
  apply secure_loop. intros n rec s Hw. unfold skip_control_body, orelse. apply wp_bind, wp_bind.
  eapply wp_mono; [by apply (try_char rounds I n rec)|]. intros [|] s'.
  { intros [Hn Hw']. apply wp_ret, wp_ret. exists (pred n). split; [lia|done]. }
  intros [-> _]. apply wp_bind, wp_get. apply wp_if; intros He; [by apply wp_ret, wp_ret|].
  unfold TryConsume, TryConsumeOne, get_char. apply wp_bind, wp_bind, wp_get, wp_ret.
  apply wp_if; intros Hc; [|by apply wp_ret, wp_ret]. destruct (next_char rounds I n rec s Hw He) as [Hn Hx].
  eapply wp_seq; [exact Hx|]. intros [] s' Hw'. apply wp_ret, wp_ret. exists (pred n). split; [lia|done].
Qed.

(** A whole token. *)
Lemma token_spec n s : within n false s -> read_error_ s = false ->
  wp no_fault (StartToken;; type ← consume_token rounds; assign_type type;; EndToken;; mret (inr true : unit + bool)) s
    (fun r s' => match r with inl _ => False | inr r => next_done n r s' end).
Proof.
  intros (Hi & l & [t|] & Hr & Hl & Hs) He; [done|].
  destruct (StartToken_spec rounds l s Hr) as (s1 & E1 & Hr1 & Ec & _).
  assert (within n true s1) as Hw1.
  { split; [by rewrite Ec|]. exists l, (Some []). split_and!; [done|lia|lia|done]. }
  assert (read_error_ s1 = false) as He1.
  { rewrite (live_ended _ _ _ _ Hr1). by rewrite (live_ended _ _ _ _ Hr) in He. }
  eapply wp_seq; [exact (wp_ok _ _ _ _ _ (fun (_ : unit) s' => s' = s1) E1 eq_refl)|]. intros [] ? ->.
  eapply wp_seq; [by apply (consume_token_spec n)|]. intros ty s2 (Hty & k & Hk & Hw2).
  unfold assign_type. apply wp_bind. unfold st_modify at 1. unfold wp at 1.
  destruct Hw2 as (Hi2 & l2 & [t|] & Hr2 & Hl2 & Hs2); [|done].
  assert (reading rounds l2 (Some t) (set_current (set_type ty (current_ s2)) s2)) as Hr3.
  { destruct Hr2 as [Hsrc Hr2]. split; [by apply (source_same rounds _ s2)|exact Hr2]. }
  destruct (EndToken_spec rounds l2 t _ Hr3) as (s4 & E4 & Hr4 & _ & Hst & _).
  eapply wp_seq; [exact (wp_ok _ _ _ _ _ (fun (_ : unit) s' => s' = s4) E4 eq_refl)|]. intros [] ? ->.
  apply wp_ret. split.
  - unfold still in Hst. injection Hst as _ _ _ _ -> _ _. exact Hty.
  - exists k. split; [done|]. split; [injection Hst as -> _; exact Hi2|]. exists l2, None. split_and!; [done|lia|lia|done].
Qed.

Lemma next_round n s : within n false s -> wp no_fault (next_body rounds tt) s (fun r s' =>
  match r with inl _ => exists k, (k < n)%nat /\ within k false s' | inr r => next_done n r s' end).
Proof.
  intros Hw. unfold next_body. apply wp_bind, wp_get. apply wp_if; intros He.
  { eapply wp_mono; [by apply end_spec|]. by intros [] s' ?. }
  eapply wp_seq; [by apply (secure_span rounds I Whitespace eq_refl n false)|]. intros [] s1 [_ Hw1].
  eapply wp_seq; [by apply comment_start|]. intros [| | |] s2.
  - intros [Hn Hw2]. eapply wp_seq; [by apply (secure_comment (pred n) false)|]. intros [] s3 [_ Hw3]. apply wp_ret.
    exists (pred n). split; [lia|done].
  - intros [Hn Hw2]. eapply wp_seq; [by apply (secure_block (pred n) false)|]. intros [] s3 [_ Hw3]. apply wp_ret.
    exists (pred n). split; [lia|done].
  - intros (Hn & Hw2 & Hty). apply wp_ret. split; [done|]. exists (pred n). split; [lia|done].
  - intros ->. apply wp_bind, wp_get. apply wp_if; intros He1.
    { eapply wp_mono; [by apply end_spec|]. by intros [] s' ?. }
    apply wp_if; intros Hc.
    + apply wp_bind. unfold AddError at 1, st_modify at 1, wp at 1. cbn beta.
      set (s3 := set_collector _ s1).
      assert (within n false s3) as Hw3 by apply (secure_error rounds I I_error (text "Invalid control characters encountered in text."%string) n false s1 Hw1).
      destruct (next_char rounds I n false s3 Hw3 He1) as [Hn Hx]. eapply wp_seq; [exact Hx|]. intros [] s4 Hw4.
      eapply wp_seq; [by apply (secure_control (pred n) false)|]. intros [] s5 [_ Hw5]. apply wp_ret.
      exists (pred n). split; [lia|done].
    + eapply wp_mono; [by apply (token_spec n)|]. by intros [] s' ?.
Qed.

Lemma Next_total n s : within n false s -> wp no_fault (Next rounds) s (next_done n).
Proof.
  intros Hw. pose proof (within_rounds _ _ _ _ _ Hw) as Hn. unfold Next. apply wp_bind. unfold st_modify at 1, wp at 1.
  set (s1 := set_tokens _ _ s).
  assert (within n false s1) as Hw1.
  { destruct Hw as (Hi & l & [t|] & [Hsrc Hr] & Hl & Hs); [done|]. split; [exact Hi|]. exists l, None. split_and!; [|lia|lia|done].
    split; [by apply (source_same rounds _ s)|done]. }
  clearbody s1. clear Hw s.
  apply (wp_loop _ _ (fun k _ s => within k false s /\ (k <= n)%nat) _) with (k := n); [|split; [done|lia]|done].
  intros k [] s0 [Hw0 Hk]. eapply wp_mono; [by apply (next_round k)|]. intros [[]|r] s'.
  - intros (k' & Hk' & Hw'). exists k'. split_and!; [lia|done|lia].
  - destruct r; [|done]. intros (Hty & k' & Hk' & Hw'). split; [done|]. exists k'. split; [lia|done].
Qed.
End Functions.

(** * The parser *)

(** The flag says whether an error was reported. *)
Definition consistent (c : reports) : Prop := had_errors_ c = existsb is_error (reported c).

Lemma consistent_error line col message c : consistent c -> consistent (report_error line col message c).
Proof. intros _. unfold consistent. cbn. by rewrite existsb_app, orb_true_r. Qed.

Lemma consistent_warning line col message c : consistent c -> consistent (report_warning line col message c).
Proof. intros Hc. unfold consistent in *. cbn. by rewrite existsb_app, Hc, orb_false_r. Qed.

Section Parser.
Context {T : Type} `{IL : InputLaws T} (rounds : nat).
(** The measures considered. *)
Context (bound : nat).

Abbreviation P := (ParserImpl T).
Abbreviation left_over := (within (E := reports) rounds consistent).

(** The faults that a text can lead to are failing asserts. *)
Definition asserts (f : fault) : Prop := f = AssertFailed.

(** Fewer than [n] characters and tokens are left. *)
Definition at_token (n : nat) (p : P) : Prop :=
  (n < bound)%nat /\
  (tok_type (current_ (tokenizer_ p)) = TYPE_END /\ tok_text (current_ (tokenizer_ p)) = [] /\ left_over 0 false (tokenizer_ p) \/
   tok_type (current_ (tokenizer_ p)) <> TYPE_END /\ exists k, (k < n)%nat /\ left_over k false (tokenizer_ p)).

Lemma at_token_more n k p : at_token n p -> (n <= k < bound)%nat -> at_token k p.
Proof. intros [Hn [He|(Hty & i & Hi & Hw)]] Hk; split; [lia|by left|lia|]. right. split; [done|]. exists i. split; [lia|done]. Qed.

Lemma at_token_bound n p : at_token n p -> (n < bound)%nat.
Proof. by intros [? _]. Qed.

Definition flagged (p : P) : Prop := had_errors_ (error_collector_ (tokenizer_ p)) = true.

(** A computation that keeps its place or goes on. *)
Definition stays {A} (m : ST P A) : Prop :=
  forall n p, at_token n p -> wp asserts m p (fun _ p' => at_token n p').

(** One that succeeds, or fails with an error; [silent] failures need not report one. *)
Definition goes {A} (silent : bool) (m : ST P (option A)) : Prop :=
  forall n p, at_token n p -> wp asserts m p (fun r p' => at_token n p' /\ (r = None -> silent = true \/ flagged p')).

(** One that succeeds only with a token, from one state or from any. *)
Definition eats_at {A} (silent : bool) (m : ST P (option A)) (n : nat) (p : P) : Prop :=
  wp asserts m p (fun r p' =>
    match r with
    | Some _ => exists k, (k < n)%nat /\ at_token k p'
    | None => at_token n p' /\ (silent = true \/ flagged p')
    end).
Definition eats {A} (silent : bool) (m : ST P (option A)) : Prop := forall n p, at_token n p -> eats_at silent m n p.

Lemma eats_goes {A} silent (m : ST P (option A)) : eats silent m -> goes silent m.
Proof.
  intros Hm n p Hp. eapply wp_mono; [by apply Hm|]. intros [a|] p'; [|by intros [? ?]].
  intros (k & Hk & Hp'). split; [|done]. eapply at_token_more; [done|]. apply at_token_bound in Hp. lia.
Qed.

Lemma stays_ret {A} (a : A) : stays (mret a).
Proof. by intros n p Hp. Qed.

Lemma stays_bind {A B} (m : ST P A) (k : A -> ST P B) : stays m -> (forall a, stays (k a)) -> stays (m ≫= k).
Proof. intros Hm Hk n p Hp. eapply wp_seq; [by apply Hm|]. intros a p' Hp'. by apply Hk. Qed.

Lemma goes_stays {A} silent (m : ST P (option A)) : goes silent m -> stays m.
Proof. intros Hm n p Hp. eapply wp_mono; [by apply Hm|]. by intros a p' [? _]. Qed.

Lemma goes_some {A} silent (a : A) : goes silent (mret (Some a)).
Proof. by intros n p Hp. Qed.

Lemma goes_bind {A B} silent (m : ST P A) (k : A -> ST P (option B)) :
  stays m -> (forall a, goes silent (k a)) -> goes silent (m ≫= k).
Proof. intros Hm Hk n p Hp. eapply wp_seq; [by apply Hm|]. intros a p' Hp'. by apply Hk. Qed.

Lemma eats_bind {A B} silent (m : ST P A) (k : A -> ST P (option B)) :
  stays m -> (forall a, eats silent (k a)) -> eats silent (m ≫= k).
Proof. intros Hm Hk n p Hp. eapply wp_seq; [by apply Hm|]. intros a p' Hp'. by apply Hk. Qed.

Lemma goes_DO {A B} silent (m : ST P (option A)) (k : A -> ST P (option B)) :
  goes silent m -> (forall a, goes silent (k a)) -> goes silent (DO m k).
Proof.
  intros Hm Hk n p Hp. unfold DO. eapply wp_seq; [by apply Hm|]. intros [a|] p' [Hp' Hf]; [by apply Hk|].
  apply wp_ret. split; [done|]. intros _. by apply Hf.
Qed.

Lemma eats_at_DO {A B} silent (m : ST P (option A)) (k : A -> ST P (option B)) n p : at_token n p ->
  eats_at silent m n p -> (forall a, goes silent (k a)) -> eats_at silent (DO m k) n p.
Proof.
  intros Hp Hm Hk. unfold DO. eapply wp_seq; [exact Hm|]. intros [a|] p'; [|by intros [? ?]; apply wp_ret].
  intros (i & Hi & Hp'). eapply wp_mono; [by apply (Hk a i)|]. intros [b|] p'' [Hp'' Hf]; [by exists i|].
  split; [|by apply Hf]. apply (at_token_more i); [done|]. apply at_token_bound in Hp. lia.
Qed.

Lemma eats_DO {A B} silent (m : ST P (option A)) (k : A -> ST P (option B)) :
  eats silent m -> (forall a, goes silent (k a)) -> eats silent (DO m k).
Proof. intros Hm Hk n p Hp. apply eats_at_DO; [done|by apply Hm|done]. Qed.

Lemma eats_later {A B} silent (m : ST P (option A)) (k : A -> ST P (option B)) :
  goes silent m -> (forall a, eats silent (k a)) -> eats silent (DO m k).
Proof.
  intros Hm Hk n p Hp. unfold DO. eapply wp_seq; [by apply Hm|]. intros [a|] p' [Hp' Hf]; [by apply Hk|].
  apply wp_ret. split; [done|]. by apply Hf.
Qed.

(** ** Tokens *)

Lemma next_eats n p : at_token n p -> tok_type (current_ (tokenizer_ p)) <> TYPE_END ->
  wp asserts (next_token rounds) p (fun _ p' => exists k, (k < n)%nat /\ at_token k p').
Proof.
  intros [Hn [(Hty & _)|(_ & k & Hk & Hw)]] Hne; [done|]. unfold next_token, on_tokens.
  apply wp_bind, wp_get, wp_bind. pose proof (Next_total rounds consistent consistent_error k _ Hw) as Hx.
  unfold wp, st_lift in *. destruct (Next rounds (tokenizer_ p)) as [[r s']|f]; [|done].
  exists k. split; [done|]. split; [lia|]. cbn. destruct r; [|by left]. right. destruct Hx as (Hty & j & Hj & Hw').
  split; [done|]. exists j. by split.
Qed.

Lemma stays_next : stays (next_token rounds).
Proof.
  intros n p Hp. destruct (decide (tok_type (current_ (tokenizer_ p)) = TYPE_END)) as [Ee|Hne].
  - destruct Hp as [Hn [(_ & _ & Hw)|[? _]]]; [|done]. unfold next_token, on_tokens. apply wp_bind, wp_get, wp_bind.
    pose proof (Next_total rounds consistent consistent_error 0 _ Hw) as Hx.
    unfold wp, st_lift in *. destruct (Next rounds (tokenizer_ p)) as [[r s']|f]; [|done].
    split; [done|]. left. destruct r; [|done]. destruct Hx as (_ & j & Hj & _). lia.
  - eapply wp_mono; [by apply next_eats|]. intros r p' (k & Hk & Hp'). apply (at_token_more k); [done|].
    apply at_token_bound in Hp. lia.
Qed.

Lemma stays_current : stays current.
Proof. by intros n p Hp. Qed.

Lemma stays_reports f : (forall c, consistent c -> consistent (f c)) ->
  stays (on_tokens (st_modify (fun s => set_collector (f (error_collector_ s)) s))).
Proof.
  intros Hf n p [Hn Hp]. unfold on_tokens. apply wp_bind, wp_get, wp_bind. split; [done|]. cbn.
  assert (forall k, left_over k false (tokenizer_ p) -> left_over k false (set_collector (f (error_collector_ (tokenizer_ p))) (tokenizer_ p))) as Hw.
  { intros k (Hi & l & [t|] & [Hsrc Hr] & Hl & Hs); [done|]. split; [by apply Hf|]. exists l, None. split_and!; [|lia|lia|done].
    split; [by apply (source_same rounds _ (tokenizer_ p))|done]. }
  destruct Hp as [(H1 & H2 & H3)|(H1 & k & Hk & H3)]; [left|right]; [by auto|]. split; [done|]. exists k. auto.
Qed.

Lemma eats_fail {A} silent message : eats (A := A) silent (fail message).
Proof.
  intros n p Hp. unfold fail, ReportError, ReportErrorAt. apply wp_bind, wp_bind.
  pose proof (stays_reports (report_error (tok_line (current_ (tokenizer_ p))) (tok_column (current_ (tokenizer_ p))) message)
    (consistent_error _ _ _) n p Hp) as Hx.
  apply wp_bind, wp_get. unfold wp in *. cbn in *. split; [exact Hx|by right].
Qed.

Lemma stays_warning message : stays (ReportWarning message).
Proof.
  unfold ReportWarning, ReportWarningAt. apply stays_bind; [apply stays_current|]. intros t.
  apply (stays_reports (report_warning _ _ message)), consistent_warning.
Qed.

Lemma eats_next {A} silent (a : A) n p : at_token n p -> tok_type (current_ (tokenizer_ p)) <> TYPE_END ->
  eats_at silent (next_token rounds;; mret (Some a)) n p.
Proof. intros Hp Hne. eapply wp_seq; [by apply next_eats|]. intros r p' Hp'. by apply wp_ret. Qed.

(** What depends on the current token. *)
Lemma eats_current {A} silent (k : Token -> ST P (option A)) :
  (forall n p, at_token n p -> eats_at silent (k (current_ (tokenizer_ p))) n p) -> eats silent (t ← current; k t).
Proof. intros Hk n p Hp. apply wp_bind. unfold current. apply wp_bind, wp_get, wp_ret. by apply Hk. Qed.

(** The current token is taken when it is of a kind that the end is not. *)
Lemma eats_token {A} silent (ok : Token -> bool) (v : Token -> A) message :
  (forall t, ok t = true -> tok_type t = TYPE_END -> tok_text t <> []) ->
  eats silent (t ← current; if ok t then next_token rounds;; mret (Some (v t)) else fail (message t)).
Proof.
  intros Hok. apply eats_current. intros n p Hp. destruct (ok _) eqn:Ht; [|by apply eats_fail].
  apply eats_next; [done|]. destruct Hp as [_ [(Hty & Htx & _)|[? _]]]; [|done]. by destruct (Hok _ Ht Hty).
Qed.

Lemma stays_try value : stays (TryConsumeToken rounds value).
Proof.
  unfold TryConsumeToken. apply stays_bind; [apply stays_current|]. intros t. destruct (bool_decide _); [|by apply stays_ret].
  apply stays_bind; [apply stays_next|]. intros _. by apply stays_ret.
Qed.

Lemma eats_Consume silent value : value <> [] -> eats silent (Consume rounds value).
Proof.
  intros Hv. apply (eats_token silent (fun t => bool_decide (tok_text t = value)) (fun _ => tt)
    (fun t => text "Expected " ++ quote value ++ text ", found " ++ quote (tok_text t) ++ text ".")).
  intros t Ht _. apply bool_decide_eq_true in Ht. by rewrite Ht.
Qed.

Lemma eats_identifier silent : eats silent (ConsumeIdentifier rounds).
Proof.
  apply (eats_token silent (fun t => bool_decide (tok_type t = TYPE_IDENTIFIER)) tok_text (fun _ => text "Expected identifier.")).
  intros t Ht%bool_decide_eq_true Hty. congruence.
Qed.

(** ** Values *)

Lemma lift_asserts {A B} (r : result A) (k : A -> ST P B) p Q :
  match r with Ok a => wp asserts (k a) p Q | Fault f => asserts f end -> wp asserts (st_lift r ≫= k) p Q.
Proof. destruct r as [a|f]; [|done]. intros Hk. by apply wp_bind. Qed.

Lemma lift_eats {A B} silent (r : result A) (k : A -> ST P (option B)) n p :
  match r with Ok a => eats_at silent (k a) n p | Fault f => asserts f end -> eats_at silent (st_lift r ≫= k) n p.
Proof. apply lift_asserts. Qed.

Lemma integer_loop_asserts base max_value l : forall res,
  match integer_loop base max_value l res with Ok _ => True | Fault f => asserts f end.
Proof.
  induction l as [|c l IH]; intros res; [done|]. cbn. destruct ((_ <? 0) || _); [done|].
  destruct ((_ <? _) || _); [done|]. apply IH.
Qed.

Lemma ParseInteger_asserts txt max_value :
  match ParseInteger txt max_value with Ok _ => True | Fault f => asserts f end.
Proof.
  unfold ParseInteger. repeat case_match; try done; subst.
  all: match goal with E : integer_loop ?b ?m ?l ?r = _ |- _ => pose proof (integer_loop_asserts b m l r) as Hx; by rewrite E in Hx end.
Qed.

Lemma eats_unsigned silent max_value : eats silent (ConsumeUnsignedInteger rounds max_value).
Proof.
  apply eats_current. intros n p Hp. destruct (bool_decide _) eqn:Ht; [|by apply eats_fail]. apply lift_eats.
  pose proof (ParseInteger_asserts (tok_text (current_ (tokenizer_ p))) max_value) as Hx.
  destruct (ParseInteger _ _) as [[v|]|f]; [|by apply eats_fail|done].
  apply eats_next; [done|]. apply bool_decide_eq_true in Ht. congruence.
Qed.

Lemma eats_signed silent max_value : eats silent (ConsumeSignedInteger rounds max_value).
Proof.
  unfold ConsumeSignedInteger. apply eats_bind; [apply stays_try|]. intros negative.
  apply eats_DO; [apply eats_unsigned|]. intros v. apply goes_some.
Qed.

Lemma ParseFloat_asserts txt : match ParseFloat txt with Ok _ => True | Fault f => asserts f end.
Proof. unfold ParseFloat. destruct (NoLocaleStrtod txt) as [v l]. by destruct (_ || _). Qed.

Lemma eats_double silent : eats silent (ConsumeDouble rounds).
Proof.
  unfold ConsumeDouble. apply eats_bind; [apply stays_try|]. intros negative. apply eats_current. intros n p Hp.
  apply eats_at_DO; [done| |intros v; apply goes_some].
  destruct (tok_type (current_ (tokenizer_ p))) eqn:Ety; try by apply eats_fail.
  - destruct (_ || _); [apply eats_next; [done|congruence]|]. destruct (bool_decide _); [|by apply eats_fail].
    apply eats_next; [done|congruence].
  - apply eats_DO; [apply eats_unsigned|intros v; apply goes_some|done].
  - apply lift_eats. pose proof (ParseFloat_asserts (tok_text (current_ (tokenizer_ p)))) as Hx.
    destruct (ParseFloat _); [|done]. apply eats_next; [done|congruence].
Qed.

(** ** Strings *)

Lemma digit_step_length InClass base x : (length (snd (digit_step InClass base x)) <= length (snd x))%nat.
Proof. destruct x as [code [|c p]]; cbn; [lia|]. destruct (InClass c); cbn; lia. Qed.

Lemma FetchUnicodePoint_length key p v p' : FetchUnicodePoint (key :: p) = Some (v, p') -> (length p' <= length p)%nat.
Proof.
  unfold FetchUnicodePoint. destruct (ReadHexDigits p _) as [c|]; [|done].
  assert (length (drop (UnicodeLength key) p) <= length p)%nat as Hd by (rewrite length_drop; lia).
  intros Hx. repeat case_match; simplify_eq; rewrite ?length_drop; cbn [length] in *; lia.
Qed.

Lemma string_chars_ok quote fuel : forall p, (length p < fuel)%nat -> exists v, string_chars fuel quote p = Ok v.
Proof.
  induction fuel as [|fuel IH]; intros p Hp; [lia|].
  assert (forall (f : list Z -> list Z) q, (length q < fuel)%nat -> exists v, f <$> string_chars fuel quote q = Ok v) as Hf.
  { intros f q Hq. destruct (IH q Hq) as [v ->]. by exists (f v). }
  destruct p as [|c p]; [by exists []|]. cbn [length] in Hp.
  assert (exists v, (if (c =? quote) && bool_decide (p = []) then string_chars fuel quote p
    else cons c <$> string_chars fuel quote p) = Ok v) as Hplain.
  { destruct (_ && _); [apply IH; lia|apply Hf; lia]. }
  destruct (decide (c = 92)) as [->|Hc].
  - destruct p as [|e p]; [exact Hplain|]. cbn [length] in Hp. cbn [string_chars].
    destruct (OctalDigit e).
    { pose proof (digit_step_length OctalDigit 8 (digit_step OctalDigit 8 (DigitValue e, p))) as H1.
      pose proof (digit_step_length OctalDigit 8 (DigitValue e, p)) as H2. cbn [snd] in H2.
      destruct (digit_step OctalDigit 8 (digit_step OctalDigit 8 (DigitValue e, p))) as [code q]. cbn [snd] in H1. apply Hf. lia. }
    destruct (e =? 120).
    { pose proof (digit_step_length HexDigit 16 (digit_step HexDigit 16 (0, p))) as H1.
      pose proof (digit_step_length HexDigit 16 (0, p)) as H2. cbn [snd] in H2.
      destruct (digit_step HexDigit 16 (digit_step HexDigit 16 (0, p))) as [code q]. cbn [snd] in H1. apply Hf. lia. }
    destruct ((e =? 117) || (e =? 85)); [|apply Hf; lia].
    destruct (FetchUnicodePoint (e :: p)) as [[v q]|] eqn:Ef; [|apply Hf; lia].
    apply FetchUnicodePoint_length in Ef. apply Hf. lia.
  - destruct Hplain as [v Hv]. exists v. rewrite <- Hv.
    destruct c as [|c|c]; try done. cbn [string_chars].
    repeat (destruct c as [c|c|]; try done).
Qed.

Lemma until_zero_length txt : exists v, until_zero (txt ++ [0]) = Some v /\ (length v <= length txt)%nat.
Proof.
  induction txt as [|c txt (v & E & Hv)]; [by exists []|]. cbn. destruct (c =? 0); [exists []; cbn; split; [done|lia]|].
  rewrite E. exists (c :: v). cbn. split; [done|lia].
Qed.

Lemma ParseStringAppend_asserts txt output : match ParseStringAppend txt output with Ok _ => True | Fault f => asserts f end.
Proof.
  unfold ParseStringAppend. destruct txt as [|q txt]; [done|].
  destruct (until_zero_length (q :: txt)) as (v & E & Hv).
  assert (c_string ((q :: txt) ++ [0]) 0 = Ok v) as ->.
  { unfold c_string. destruct (Z.leb_spec 0 (Z.of_nat (length ((q :: txt) ++ [0])))); [|lia]. cbn [andb Z.leb Z.compare].
    change (drop (Z.to_nat 0) ((q :: txt) ++ [0])) with ((q :: txt) ++ [0]). by rewrite E. }
  destruct (string_chars_ok q (S (length (q :: txt))) (drop 1 v)) as [cs Ec]; [rewrite length_drop; lia|].
  cbn [mbind result_bind]. by rewrite Ec.
Qed.

(** ** Loops *)

Context (bound_rounds : (bound <= rounds)%nat).

(** A loop whose rounds take tokens. *)
Definition round_eats {L A} (body : L -> ST P (L + A)) : Prop := forall x n p, at_token n p ->
  wp asserts (body x) p (fun r p' =>
    match r with inl _ => exists k, (k < n)%nat /\ at_token k p' | inr _ => at_token n p' end).

Lemma loop_fuel {L A} (body : L -> ST P (L + A)) : round_eats body -> forall m x n p, at_token n p -> (n < m)%nat ->
  wp asserts (st_loop m body x) p (fun _ p' => at_token n p').
Proof.
  intros Hb m x n p Hp Hm. pose proof (at_token_bound _ _ Hp) as Hn.
  apply (wp_loop _ _ (fun k _ p => at_token k p /\ (k <= n)%nat) _) with (k := n); [|split; [done|lia]|lia].
  intros k x0 p0 [Hp0 Hk]. eapply wp_mono; [by apply Hb|]. intros [x1|a] p'.
  - intros (k' & Hk' & Hp'). exists k'. split_and!; [lia|done|lia].
  - intros Hp'. by apply (at_token_more k).
Qed.

(** One that goes round at least once takes a token. *)
Lemma loop_eats {L A B} silent (body : L -> ST P (L + A)) x n p (f : A -> B) : at_token n p -> round_eats body ->
  wp asserts (body x) p (fun r p' => match r with inl _ => exists k, (k < n)%nat /\ at_token k p' | inr _ => False end) ->
  eats_at silent (a ← st_loop rounds body x; mret (Some (f a))) n p.
Proof.
  intros Hp Hb H1. pose proof (at_token_bound _ _ Hp) as Hn. assert (st_loop rounds body x = st_loop (S (pred rounds)) body x) as -> by (f_equal; lia).
  apply wp_bind. cbn [st_loop]. apply wp_bind. eapply wp_mono; [exact H1|]. intros [x'|a] p'; [|done].
  intros (k & Hk & Hp'). eapply wp_mono; [apply (loop_fuel body Hb (pred rounds) x' k p' Hp'); lia|].
  intros a p'' Hp''. apply wp_ret. exists k. by split.
Qed.

Lemma goes_loop {L A} silent (body : L -> ST P (L + option A)) :
  (forall x n p, at_token n p -> wp asserts (body x) p (fun r p' =>
     match r with inl _ => exists k, (k < n)%nat /\ at_token k p'
             | inr a => at_token n p' /\ (a = None -> silent = true \/ flagged p') end)) ->
  forall x, goes silent (st_loop rounds body x).
Proof.
  intros Hb x n p Hp. pose proof (at_token_bound _ _ Hp) as Hn.
  apply (wp_loop _ _ (fun k _ p => at_token k p /\ (k <= n)%nat) _) with (k := n); [|split; [done|lia]|lia].
  intros k x0 p0 [Hp0 Hk]. eapply wp_mono; [by apply Hb|]. intros [x1|a] p'.
  - intros (k' & Hk' & Hp'). exists k'. split_and!; [lia|done|lia].
  - intros [Hp' Ha]. split; [|done]. by apply (at_token_more k).
Qed.

Lemma tokens_round txt n p : at_token n p -> tok_type (current_ (tokenizer_ p)) = TYPE_STRING_LITERAL ->
  wp asserts (string_tokens_body rounds txt) p (fun r p' =>
    match r with inl _ => exists k, (k < n)%nat /\ at_token k p' | inr _ => False end).
Proof.
  intros Hp Ht. unfold string_tokens_body, current. apply wp_bind, wp_bind, wp_get, wp_ret.
  rewrite bool_decide_true by done. apply lift_asserts.
  pose proof (ParseStringAppend_asserts (tok_text (current_ (tokenizer_ p))) txt) as Hx.
  destruct (ParseStringAppend _ _); [|done]. eapply wp_seq; [apply next_eats; [done|congruence]|].
  intros r p' Hp'. by apply wp_ret.
Qed.

Lemma tokens_rounds : round_eats (string_tokens_body rounds).
Proof.
  intros txt n p Hp. destruct (decide (tok_type (current_ (tokenizer_ p)) = TYPE_STRING_LITERAL)) as [Ht|Ht].
  - eapply wp_mono; [by apply tokens_round|]. by intros [x|a].
  - unfold string_tokens_body, current. apply wp_bind, wp_bind, wp_get, wp_ret. rewrite bool_decide_false by done.
    by apply wp_ret.
Qed.

Lemma eats_string silent : eats silent (ParserConsumeString rounds).
Proof.
  apply eats_current. intros n p Hp. case_bool_decide as Ht; [|by apply eats_fail].
  apply (loop_eats silent (string_tokens_body rounds) [] n p id Hp tokens_rounds), tokens_round; done.
Qed.

Lemma skip_round n p : at_token n p -> tok_type (current_ (tokenizer_ p)) = TYPE_STRING_LITERAL ->
  wp asserts (skip_strings_body rounds tt) p (fun r p' =>
    match r with inl _ => exists k, (k < n)%nat /\ at_token k p' | inr _ => False end).
Proof.
  intros Hp Ht. unfold skip_strings_body, current. apply wp_bind, wp_bind, wp_get, wp_ret.
  rewrite bool_decide_true by done. eapply wp_seq; [apply next_eats; [done|congruence]|].
  intros r p' Hp'. by apply wp_ret.
Qed.

Lemma skip_rounds : round_eats (skip_strings_body rounds).
Proof.
  intros [] n p Hp. destruct (decide (tok_type (current_ (tokenizer_ p)) = TYPE_STRING_LITERAL)) as [Ht|Ht].
  - eapply wp_mono; [by apply skip_round|]. by intros [x|a].
  - unfold skip_strings_body, current. apply wp_bind, wp_bind, wp_get, wp_ret. rewrite bool_decide_false by done.
    by apply wp_ret.
Qed.

(** ** Fields that are skipped *)

Lemma eats_skip_value : eats true (SkipFieldValue rounds).
Proof.
  apply eats_current. intros n p Hp. case_bool_decide as Ht.
  { apply (loop_eats true (skip_strings_body rounds) tt n p (fun _ => tt) Hp skip_rounds), skip_round; done. }
  refine (eats_bind true _ _ (stays_try _) _ n p Hp). intros has_minus. apply eats_current. clear n p Hp Ht. intros n p Hp.
  destruct (negb _) eqn:Hk; [by split; [|left]|]. cbv zeta. destruct (_ && _); [by apply eats_fail|].
  apply eats_next; [done|]. apply negb_false_iff, bool_decide_eq_true in Hk. intros Ee. rewrite Ee in Hk.
  by repeat (apply elem_of_cons in Hk as [Hk|Hk]; [done|]); apply elem_of_nil in Hk.
Qed.

Lemma goes_Consume silent value : goes silent (Consume rounds value).
Proof.
  unfold Consume. apply goes_bind; [apply stays_current|]. intros t. destruct (bool_decide _).
  - apply goes_bind; [apply stays_next|]. intros _. apply goes_some.
  - apply eats_goes, eats_fail.
Qed.

Lemma goes_name_parts silent name : goes silent (st_loop rounds (name_part_body rounds) name).
Proof.
  apply goes_loop. clear name. intros name n p Hp. unfold name_part_body.
  eapply wp_seq; [by apply stays_try|]. intros [|] p1 Hp1.
  - eapply wp_seq; [by apply (eats_identifier silent)|]. intros [part|] p2; [intros Hp2; by apply wp_ret|].
    intros [Hp2 Hf]. by apply wp_ret.
  - eapply wp_seq; [by apply (goes_Consume silent)|]. intros [[]|] p2 [Hp2 Hf]; apply wp_ret; (split; [done|]); [done|].
    intros _. by apply Hf.
Qed.

Lemma eats_extension_name silent : eats silent (extension_name rounds).
Proof. apply eats_DO; [apply eats_identifier|]. apply goes_name_parts. Qed.

Lemma stays_separator : stays (try_separator rounds).
Proof.
  unfold try_separator. apply stays_bind; [apply stays_try|]. intros [|]; [apply stays_ret|].
  apply stays_bind; [apply stays_try|]. intros ?. apply stays_ret.
Qed.

Lemma stays_looks : stays (looks_like_value rounds).
Proof.
  unfold looks_like_value. apply stays_bind; [apply stays_try|]. intros [|]; [|apply stays_ret].
  apply stays_bind; [apply stays_current|]. intros t. apply stays_ret.
Qed.

Lemma goes_skip_message skip : eats true skip -> goes true (skip_field_message rounds skip).
Proof.
  intros Hs. unfold skip_field_message. apply goes_bind; [apply stays_try|]. intros angle. apply goes_DO.
  { destruct angle; [apply goes_some|]. apply goes_DO; [apply goes_Consume|]. intros _. apply goes_some. }
  intros delimeter. apply goes_DO; [|intros _; apply goes_Consume].
  apply goes_loop. intros [] n p Hp. unfold skip_fields_body, current. apply wp_bind, wp_bind, wp_get, wp_ret.
  apply wp_if; intros Ht; [by apply wp_ret|]. eapply wp_seq; [by apply Hs|]. intros [[]|] p'; intros Hp'; apply wp_ret; [done|].
  destruct Hp' as [Hp' Hf]. by split.
Qed.

Lemma goes_skip_rest skip : goes true skip -> goes true (
  value ← looks_like_value rounds;
  DO (if (value : bool) then SkipFieldValue rounds else skip) (fun _ =>
  try_separator rounds;; mret (Some tt))).
Proof.
  intros Hs. apply goes_bind; [apply stays_looks|]. intros value. apply goes_DO.
  { destruct value; [apply eats_goes, eats_skip_value|done]. }
  intros _. apply goes_bind; [apply stays_separator|]. intros _. apply goes_some.
Qed.

(** ** Fields *)

Context (D : Descriptor) (policy : SingularOverwritePolicy) (allow_unknown : bool) (nan_bits : Z).

Lemma stays_message f : stays (on_message f).
Proof. by intros n p Hp. Qed.

Lemma goes_set silent f : goes silent (on_message f;; mret (Some tt)).
Proof. apply goes_bind; [apply stays_message|]. intros _. apply goes_some. Qed.

Lemma eats_value silent field : eats silent (ConsumeFieldValue rounds nan_bits field).
Proof.
  unfold ConsumeFieldValue, set_number, set_string. destruct (fd_type field);
    try (apply eats_DO; [first [apply eats_signed|apply eats_unsigned|apply eats_double|apply eats_string]|intros v; apply goes_set]).
  apply eats_bind; [apply stays_current|]. intros t. destruct (bool_decide _).
  - apply eats_DO; [apply eats_unsigned|intros v; apply goes_set].
  - apply eats_DO; [apply eats_identifier|]. intros v. destruct (_ || _); [apply goes_set|].
    destruct (_ || _); [apply goes_set|apply eats_goes, eats_fail].
Qed.

Lemma goes_list silent field : goes silent (st_loop rounds (short_list_body rounds nan_bits field) tt).
Proof.
  apply goes_loop. intros [] n p Hp. unfold short_list_body. eapply wp_seq; [by apply (eats_value silent)|].
  intros [[]|] p1; [|by intros [? ?]; apply wp_ret]. intros (k & Hk & Hp1).
  assert (forall i p', at_token i p' -> (i <= k)%nat -> at_token n p') as Hmore.
  { intros i p' Hp' Hi. apply (at_token_more i); [done|]. apply at_token_bound in Hp. lia. }
  eapply wp_seq; [by apply (stays_try _ k)|]. intros [|] p2 Hp2; [apply wp_ret; split; [by apply (Hmore k)|done]|].
  eapply wp_seq; [by apply (goes_Consume silent _ k)|]. intros [[]|] p3 [Hp3 Hf]; apply wp_ret; [by exists k|].
  split; [by apply (Hmore k)|]. intros _. by apply Hf.
Qed.

Lemma goes_no_such silent message : goes silent (no_such_field allow_unknown message).
Proof.
  unfold no_such_field. destruct allow_unknown; [|apply eats_goes, eats_fail].
  apply goes_bind; [apply stays_warning|]. intros _. apply goes_some.
Qed.

Lemma eats_field_name silent : eats silent (consume_field_name rounds D allow_unknown).
Proof.
  unfold consume_field_name. apply eats_bind; [apply stays_try|]. intros [|].
  - apply eats_DO; [apply eats_extension_name|]. intros name. apply goes_DO; [apply goes_no_such|]. intros f. apply goes_some.
  - apply eats_DO; [apply eats_identifier|]. intros name. apply goes_DO; [|intros f; apply goes_some].
    destruct (FindFieldByName D name); [apply goes_some|apply goes_no_such].
Qed.

(** Without unknown fields, only those of the descriptor come out. *)
Lemma field_name_known n p r p' : at_token n p -> allow_unknown = false ->
  consume_field_name rounds D allow_unknown p = Ok (Some (r, None), p') -> False.
Proof.
  intros _ ->. unfold consume_field_name, no_such_field, fail, DO. intros E.
  apply st_bind_inv in E as ([|] & p1 & _ & E).
  - apply st_bind_inv in E as ([name|] & p2 & _ & E); [|done]. cbn in E.
    apply st_bind_inv in E as (o & p3 & E3 & E). apply st_bind_inv in E3 as (? & ? & _ & [= <- <-]). done.
  - apply st_bind_inv in E as ([name|] & p2 & _ & E); [|done].
    apply st_bind_inv in E as (o & p3 & E3 & E). destruct (FindFieldByName D name); [injection E3 as <- <-; done|].
    apply st_bind_inv in E3 as (? & ? & _ & [= <- <-]). done.
Qed.

Lemma goes_known_field silent (field : FieldDescriptor) (field_name : list Z) (start : Token) : goes silent (
  p ← st_get;
  if bool_decide (policy = FORBID_SINGULAR_OVERWRITES) && negb (fd_repeated field) && HasField (message_ p) field
  then fail (text "Non-repeated field " ++ quote field_name ++ text " is specified multiple times.")
  else
    DO (Consume rounds (text ":")) (fun _ =>
    short ← (if fd_repeated field then TryConsumeToken rounds (text "[") else mret false) : ST P bool;
    DO (if (short : bool) then st_loop rounds (short_list_body rounds nan_bits field) tt
        else ConsumeFieldValue rounds nan_bits field) (fun _ =>
    try_separator rounds;;
    record_location field (tok_line start, tok_column start);;
    mret (Some tt)))).
Proof.
  apply goes_bind; [by intros n p Hp|]. intros p. destruct (_ && _); [apply eats_goes, eats_fail|].
  apply goes_DO; [apply goes_Consume|]. intros _. apply goes_bind.
  { destruct (fd_repeated field); [apply stays_try|apply stays_ret]. }
  intros short. apply goes_DO; [destruct short; [apply goes_list|apply eats_goes, eats_value]|]. intros _.
  apply goes_bind; [apply stays_separator|]. intros _. apply goes_bind; [by intros n p' Hp'|]. intros _. apply goes_some.
Qed.
End Parser.

Section Fields.
Context {T : Type} `{IL : InputLaws T} (rounds : nat).

Lemma at_token_change b b' n (p : ParserImpl T) : at_token rounds b n p -> (n < b')%nat -> at_token rounds b' n p.
Proof. intros [_ Hp] Hn. by split. Qed.

Lemma eats_skip fuel : (fuel <= rounds)%nat -> eats rounds fuel true (SkipField rounds fuel).
Proof.
  induction fuel as [|fuel IH]; intros Hfuel n p Hp; [destruct Hp; lia|].
  cbn [SkipField]. eapply wp_seq; [by apply (stays_try rounds (S fuel))|]. intros ext p1 Hp1.
  unfold DO at 1. eapply wp_seq.
  { refine ((_ : eats rounds (S fuel) true (if ext then extension_name rounds else ConsumeIdentifier rounds)) n p1 Hp1).
    destruct ext; [by apply eats_extension_name|by apply eats_identifier]. }
  intros [a|] p2; [|intros [? ?]; by apply wp_ret]. intros (k & Hk & Hp2).
  assert (k < fuel)%nat as Hkf by (destruct Hp; lia).
  eapply wp_mono; [apply (goes_skip_rest rounds fuel ltac:(lia) (skip_field_message rounds (SkipField rounds fuel)))|].
  - apply goes_skip_message; [lia|]. apply IH. lia.
  - by apply (at_token_change (S fuel)).
  - intros [[]|] p3 [Hp3 Hf].
    + exists k. split; [done|]. apply (at_token_change fuel); [done|lia].
    + split; [|by apply Hf]. apply (at_token_more rounds (S fuel) k); [apply (at_token_change fuel); [done|lia]|destruct Hp; lia].
Qed.

Context (D : Descriptor) (policy : SingularOverwritePolicy) (allow_unknown : bool) (nan_bits : Z).

Lemma eats_field : eats rounds rounds allow_unknown (ConsumeField rounds D policy allow_unknown nan_bits).
Proof.
  unfold ConsumeField. apply eats_bind; [by apply stays_current|]. intros start n p Hp. unfold DO at 1.
  pose proof (eats_field_name rounds rounds ltac:(lia) D allow_unknown allow_unknown n p Hp) as Hx.
  apply wp_bind. unfold eats_at, wp in Hx. unfold wp at 1.
  destruct (consume_field_name rounds D allow_unknown p) as [[[[name [field|]]|] p1]|f] eqn:Ec; [| | |done].
  - destruct Hx as (k & Hk & Hp1). eapply wp_mono; [by apply (goes_known_field rounds rounds ltac:(lia) policy nan_bits allow_unknown field name start k p1)|].
    intros [[]|] p2 [Hp2 Hf]; [by exists k|]. split; [|by apply Hf].
    apply (at_token_more rounds rounds k); [done|]. destruct Hp. lia.
  - destruct allow_unknown; [|by destruct (field_name_known rounds rounds D false n p name p1 Hp eq_refl Ec)].
    destruct Hx as (k & Hk & Hp1). assert (goes rounds rounds true (value ← looks_like_value rounds;
      if (value : bool) then SkipFieldValue rounds else SkipFieldMessage rounds rounds)) as Hg.
    { apply goes_bind; [by apply stays_looks|]. intros [|]; [by apply eats_goes, eats_skip_value|].
      apply goes_skip_message; [done|]. by apply eats_skip. }
    eapply wp_mono; [by apply (Hg k)|]. intros [[]|] p2 [Hp2 Hf]; [by exists k|]. split; [|by apply Hf].
    apply (at_token_more rounds rounds k); [done|]. destruct Hp. lia.
  - destruct Hx as [Hp1 Hf]. by apply wp_ret.
Qed.

(** The result says whether an error was reported; [silent] failures need none. *)
Lemma parse_spec n p : at_token rounds rounds n p ->
  wp asserts (ParserImpl_Parse rounds D policy allow_unknown nan_bits) p (fun r p' =>
    at_token rounds rounds n p' /\ (r = true -> ~ flagged p') /\ (r = false -> allow_unknown = true \/ flagged p')).
Proof.
  intros Hp. unfold ParserImpl_Parse.
  apply (wp_loop _ _ (fun k _ p => at_token rounds rounds k p /\ (k <= n)%nat) _) with (k := n); [|split; [done|lia]|by destruct Hp].
  intros k [] p0 [Hp0 Hk]. unfold parse_body, current. apply wp_bind, wp_bind, wp_get, wp_ret. apply wp_if; intros Ht.
  - apply wp_bind, wp_get, wp_ret. split; [apply (at_token_more rounds rounds k); [done|destruct Hp; lia]|].
    unfold flagged. destruct (had_errors_ _); cbn; split; try done. by right.
  - eapply wp_seq; [by apply eats_field|]. intros [[]|] p1.
    + intros (i & Hi & Hp1). apply wp_ret. exists i. split_and!; [done|done|lia].
    + intros [Hp1 Hf]. apply wp_ret. split; [apply (at_token_more rounds rounds k); [done|destruct Hp; lia]|]. by split.
Qed.

(** No fault but that of a failing assert; a call that succeeds has reported no error, one that
    fails has, unless unknown fields are allowed. *)
Definition sound_call (r : result (parsed T)) : Prop :=
  match r with
  | Ok r => (parse_ok r = true -> existsb is_error (parse_reports r) = false) /\
            (parse_ok r = false -> allow_unknown = true \/ existsb is_error (parse_reports r) = true)
  | Fault f => asserts f
  end.

(** A call: the parser is built, runs and is destroyed. *)
Lemma run_spec input tree msg : good_input input -> (blanks input < rounds)%nat -> (length (chars_left input) < rounds)%nat ->
  sound_call (run_impl rounds (ParserImpl_Parse rounds D policy allow_unknown nan_bits) input tree msg).
Proof.
  intros Hg Hb Hl. unfold sound_call, run_impl, ParserImpl_new, Tokenizer_new.
  set (s0 := mktokenizer _ _ input _ _ _ _ _ _ _ _ _ _ _ _ _).
  destruct (Refresh_spec rounds None s0) as (s & E1 & Hr & Hs & _); try done. rewrite E1. cbn [mbind result_bind snd].
  change (chars_left (tk_input_ s0)) with (chars_left input) in Hr.
  assert (within rounds consistent (length (chars_left input)) false (set_options true SH_COMMENT_STYLE s)) as Hw.
  { split; [by cbn; injection Hs as -> _|]. exists (chars_left input), None. split_and!; [|lia|lia|done].
    destruct Hr as [Hsrc Hr]. split; [by apply (source_same rounds _ s)|exact Hr]. }
  pose proof (Next_total rounds consistent consistent_error _ _ Hw) as Hn. apply wp_inv in Hn as (r & s1 & E2 & Hn).
  rewrite E2. cbn [mbind result_bind snd].
  assert (at_token rounds rounds (length (chars_left input)) (mkparser s1 msg tree)) as Hp.
  { split; [done|]. destruct r; [by right|by left]. }
  pose proof (parse_spec _ _ Hp) as Hx. unfold wp in Hx.
  destruct (ParserImpl_Parse rounds D policy allow_unknown nan_bits (mkparser s1 msg tree)) as [[ok p']|f]; [|exact Hx].
  cbn [mbind result_bind]. destruct Hx as ((_ & Hp') & Hok & Hno). unfold flagged in *.
  assert (exists k, within rounds consistent k false (tokenizer_ p')) as (k & Hc & l & rd & Hrd & _).
  { destruct Hp' as [(_ & _ & ?)|(_ & k & _ & ?)]; eauto. }
  destruct (destroy_reading rounds _ _ _ Hrd) as [t ->]. cbn. rewrite <- Hc. split; [|exact Hno].
  intros Ht. by apply not_true_is_false, Hok.
Qed.
End Fields.
