(* ===== verification/ParserSim.v ===== *)
(** Two input streams with the same characters, cut into buffers in any two ways, make the
    tokenizer and the parser do the same: a simulation, function by function. *)

From Stdlib Require Import String.
From S2P Require Import Prelude CMem Coded Wire Messages StrUtil FloatText TextFormat Tokenizer TextParser TokenProofs ParserRuns.

(** * Related computations *)

(** Equal results and related states, or the same fault. *)
Definition related {S1 S2 A} (R : S1 -> S2 -> Prop) (x : result (A * S1)) (y : result (A * S2)) : Prop :=
  match x, y with
  | Ok (a, s1), Ok (b, s2) => a = b /\ R s1 s2
  | Fault f, Fault g => f = g
  | _, _ => False
  end.

Definition parallel {S1 S2 A} (R R' : S1 -> S2 -> Prop) (m1 : ST S1 A) (m2 : ST S2 A) : Prop :=
  forall s1 s2, R s1 s2 -> related R' (m1 s1) (m2 s2).

Section Sim.
Context {S1 S2 : Type}.
Implicit Types R : S1 -> S2 -> Prop.

Lemma parallel_ret {A} R (a : A) : parallel R R (mret a) (mret a).
Proof. by intros s1 s2 HR. Qed.

Lemma parallel_fault {A} R R' f : parallel (A := A) R R' (st_fault f) (st_fault f).
Proof. by intros s1 s2 HR. Qed.

Lemma parallel_bind {A B} R R' R'' (m1 : ST S1 A) (m2 : ST S2 A) (k1 : A -> ST S1 B) (k2 : A -> ST S2 B) :
  parallel R R' m1 m2 -> (forall a, parallel R' R'' (k1 a) (k2 a)) -> parallel R R'' (m1 ≫= k1) (m2 ≫= k2).
Proof.
  intros Hm Hk s1 s2 HR. specialize (Hm s1 s2 HR). unfold mbind, ST_bind.
  destruct (m1 s1) as [[a s1']|f], (m2 s2) as [[b s2']|g]; cbn in Hm; try done.
  destruct Hm as [<- HR']. by apply Hk.
Qed.

Lemma parallel_get {B} R R' (k1 : S1 -> ST S1 B) (k2 : S2 -> ST S2 B) :
  (forall s1 s2, R s1 s2 -> related R' (k1 s1 s1) (k2 s2 s2)) -> parallel R R' (st_get ≫= k1) (st_get ≫= k2).
Proof. intros Hk s1 s2 HR. by apply Hk. Qed.

Lemma parallel_if {A} R R' (b : bool) (m1 n1 : ST S1 A) (m2 n2 : ST S2 A) :
  parallel R R' m1 m2 -> parallel R R' n1 n2 -> parallel R R' (if b then m1 else n1) (if b then m2 else n2).
Proof. by destruct b. Qed.

Lemma parallel_lift {A} R (r : result A) : parallel R R (st_lift r) (st_lift r).
Proof. intros s1 s2 HR. unfold st_lift. by destruct r. Qed.

Lemma parallel_loop {L A} R (b1 : L -> ST S1 (L + A)) (b2 : L -> ST S2 (L + A)) n :
  (forall x, parallel R R (b1 x) (b2 x)) -> forall x, parallel R R (st_loop n b1 x) (st_loop n b2 x).
Proof.
  intros Hb. induction n as [|n IH]; intros x; [apply parallel_fault|]. cbn. eapply parallel_bind; [apply Hb|].
  intros [x'|a]; [apply IH|apply parallel_ret].
Qed.
End Sim.

(** * The tokenizer *)

Section Tokens.
Context {T1 T2 E : Type} `{IL1 : InputLaws T1} `{IL2 : InputLaws T2} {EC : ErrorCollector E}.
Context (rounds : nat).

Abbreviation Tk1 := (Tokenizer T1 E).
Abbreviation Tk2 := (Tokenizer T2 E).

(** What does not depend on the buffers. *)
Definition common {T} (s : Tokenizer T E) :=
  (still s, (line_ s, column_ s), (record_target_ s, current_char_ s, read_error_ s), tok_end_column (current_ s)).

(** The end of the input, where a pointer may run on. *)
Record at_end {T} (s : Tokenizer T E) : Prop := {
  ae_error : read_error_ s = true;
  ae_buffer : tk_buffer_ s = None;
  ae_size : tk_buffer_size_ s = 0;
  ae_pos : 0 <= buffer_pos_ s;
  ae_char : current_char_ s = 0
}.

Definition gone (rec : bool) (s1 : Tk1) (s2 : Tk2) : Prop :=
  at_end s1 /\ at_end s2 /\ buffer_pos_ s1 = buffer_pos_ s2 /\ (rec = true -> record_start_ s1 = record_start_ s2).

(** [rec] says whether a token is recorded. *)
Record same (rec : bool) (s1 : Tk1) (s2 : Tk2) : Prop := {
  sm_common : common s1 = common s2;
  sm_source : (exists l, live rounds l s1 /\ live rounds l s2) \/ gone rec s1 s2;
  sm_text : if rec then exists t, recorded (Some t) s1 /\ recorded (Some t) s2
            else record_target_ s1 = None /\ tok_text (current_ s1) = tok_text (current_ s2)
}.

Lemma same_fields rec s1 s2 : same rec s1 s2 ->
  error_collector_ s1 = error_collector_ s2 /\ allow_f_after_float_ s1 = allow_f_after_float_ s2 /\
  comment_style_ s1 = comment_style_ s2 /\ previous_ s1 = previous_ s2 /\ line_ s1 = line_ s2 /\ column_ s1 = column_ s2 /\
  record_target_ s1 = record_target_ s2 /\ current_char_ s1 = current_char_ s2 /\ read_error_ s1 = read_error_ s2 /\
  tok_type (current_ s1) = tok_type (current_ s2) /\ tok_line (current_ s1) = tok_line (current_ s2) /\
  tok_column (current_ s1) = tok_column (current_ s2) /\ tok_end_column (current_ s1) = tok_end_column (current_ s2).
Proof. intros [Hc _ _]. unfold common, still in Hc. injection Hc. intros. by split_and!. Qed.

(** States that read the same are the same. *)
Lemma same_reading l (t : option (list Z)) s1 s2 : reading rounds l t s1 -> reading rounds l t s2 ->
  still s1 = still s2 -> (line_ s1, column_ s1) = (line_ s2, column_ s2) ->
  tok_end_column (current_ s1) = tok_end_column (current_ s2) ->
  (t = None -> tok_text (current_ s1) = tok_text (current_ s2)) -> same (bool_decide (is_Some t)) s1 s2.
Proof.
  intros L1 L2 Hst Hpos Hend Htx.
  assert (record_target_ s1 = record_target_ s2) as Ht.
  { destruct L1 as [_ L1], L2 as [_ L2]. destruct t; cbn in L1, L2; [|congruence].
    destruct L1 as [-> _], L2 as [-> _]. done. }
  split.
  - unfold common. rewrite Hst, Hpos, Hend, Ht, (reading_char _ _ _ _ L1), (reading_char _ _ _ _ L2).
    by rewrite (live_ended _ _ _ _ L1), (live_ended _ _ _ _ L2).
  - destruct L1 as [[Hl1|He1] Hr1], L2 as [[Hl2|He2] Hr2]; [left; by exists l| | |right].
    + destruct He2 as [-> _ _ _ _ _]. by destruct Hl1 as [_ (? & ? & _ & _ & _ & ?) _ _ _].
    + destruct He1 as [-> _ _ _ _ _]. by destruct Hl2 as [_ (? & ? & _ & _ & _ & ?) _ _ _].
    + destruct He1 as [_ A1 A2 A3 A4 A5], He2 as [_ B1 B2 B3 B4 B5].
      split_and!; [split; [done..|lia|done]|split; [done..|lia|done]|congruence|].
      intros Hb. destruct t; [|done]. cbn in Hr1, Hr2. lia.
  - destruct t as [t|]; cbn.
    + exists t. destruct L1 as [_ L1], L2 as [_ L2]. done.
    + destruct L1 as [_ L1]. split; [done|by apply Htx].
Qed.

Lemma recorded_reading rec s1 s2 l : same rec s1 s2 -> live rounds l s1 -> live rounds l s2 ->
  exists t, bool_decide (is_Some t) = rec /\ reading rounds l t s1 /\ reading rounds l t s2.
Proof.
  intros Hs L1 L2. pose proof (same_fields _ _ _ Hs) as Hf. destruct Hs as [_ _ Ht]. destruct rec.
  - destruct Ht as (t & Hr1 & Hr2). exists (Some t). split_and!; [done|split; [by left|done]|split; [by left|done]].
  - exists None. split_and!; [done|split; [by left|]..]; cbn; [by destruct Ht|]. destruct Ht as [Ht _]. destruct Hf as (_ & _ & _ & _ & _ & _ & Hf & _).
    congruence.
Qed.

Lemma NextChar_end {T} `{ZeroCopyInputStream T} (s : Tokenizer T E) : at_end s -> NextChar rounds s =
  Ok (tt, set_source (tk_input_ s) 0 None 0 (buffer_pos_ s + 1) true (set_position (line_ s) (s32 (column_ s + 1)) s)).
Proof.
  intros [He Hb Hs Hp Hc]. destruct s. cbn in *. subst. unfold NextChar, Refresh. st_run. cbn.
  destruct (Z.ltb_spec (buffer_pos_ + 1) 0); [lia|done].
Qed.

Lemma parallel_next rec : parallel (same rec) (same rec) (NextChar rounds) (NextChar rounds).
Proof.
  intros s1 s2 Hs. destruct (sm_source _ _ _ Hs) as [(l & L1 & L2)|(A1 & A2 & Hp & Hst)].
  - destruct (recorded_reading rec s1 s2 l Hs L1 L2) as (t & <- & R1 & R2).
    destruct l as [|c l]; [by destruct L1 as [_ (? & ? & _ & _ & _ & ?) _ _ _]|].
    destruct (NextChar_spec rounds c l t s1 R1) as (s1' & E1 & R1' & F1 & P1 & Q1 & X1).
    destruct (NextChar_spec rounds c l t s2 R2) as (s2' & E2 & R2' & F2 & P2 & Q2 & X2).
    rewrite E1, E2. split; [done|]. destruct (same_fields _ _ _ Hs) as (C1 & C2 & C3 & C4 & C5 & C6 & C7 & C8 & C9 & C10 & C11 & C12 & C13).
    pose proof (same_reading l _ s1' s2' R1' R2') as Hx.
    replace (bool_decide (is_Some t)) with (bool_decide (is_Some ((fun t => t ++ [c]) <$> t))) by by destruct t.
    apply Hx; [rewrite F1, F2; unfold still; congruence|rewrite P1, P2; congruence|congruence|].
    intros Ht. destruct t; [done|]. rewrite X1, X2 by done. by destruct (sm_text _ _ _ Hs).
  - rewrite (NextChar_end s1 A1), (NextChar_end s2 A2). split; [done|].
    destruct (same_fields _ _ _ Hs) as (C1 & C2 & C3 & C4 & C5 & C6 & C7 & C8 & C9 & C10 & C11 & C12 & C13).
    destruct A1 as [a1 a2 a3 a4 a5], A2 as [b1 b2 b3 b4 b5]. split.
    + unfold common, still. cbn. congruence.
    + right. split_and!; [split; cbn; try done; lia|split; cbn; try done; lia|cbn; lia|done].
    + destruct rec; [|exact (sm_text _ _ _ Hs)]. destruct (sm_text _ _ _ Hs) as (t & R1 & R2). exists t.
      cbn in R1, R2 |- *. rewrite a2 in R1. rewrite b2 in R2. cbn [default] in *. rewrite drop_nil, take_nil in *.
      destruct R1 as (? & ? & ?), R2 as (? & ? & ?). split_and!; try done; first [lia | by rewrite drop_nil, take_nil].
Qed.

(** Changes that do not touch the buffers. *)
Definition kept {T} (s s' : Tokenizer T E) : Prop :=
  source_of s' = source_of s /\ record_target_ s' = record_target_ s /\ record_start_ s' = record_start_ s.

Lemma live_same {T} `{ZC : ZeroCopyInputStream T, !InputLaws T} l (s s' : Tokenizer T E) : source_of s' = source_of s ->
  live rounds l s -> live rounds l s'.
Proof. intros Fs. injection Fs as F1 F2 F3 F4 F5 F6. intros []. split; by rewrite ?F1, ?F2, ?F3, ?F4, ?F5, ?F6. Qed.

Lemma live_pos {T} `{ZC : ZeroCopyInputStream T, !InputLaws T} l (s : Tokenizer T E) : live rounds l s -> 0 <= buffer_pos_ s.
Proof. intros [_ (pre & _ & _ & -> & _) _ _ _]. lia. Qed.

Lemma end_same {T} `{ZC : ZeroCopyInputStream T} (s s' : Tokenizer T E) : source_of s' = source_of s -> at_end s -> at_end s'.
Proof. intros Fs. injection Fs as F1 F2 F3 F4 F5 F6. intros []. split; by rewrite ?F1, ?F2, ?F3, ?F4, ?F5, ?F6. Qed.

Lemma same_update rec s1 s2 s1' s2' : same rec s1 s2 -> kept s1 s1' -> kept s2 s2' -> common s1' = common s2' ->
  (if rec then tok_text (current_ s1') = tok_text (current_ s1) /\ tok_text (current_ s2') = tok_text (current_ s2)
   else tok_text (current_ s1') = tok_text (current_ s2')) ->
  same rec s1' s2'.
Proof.
  intros [_ Hsrc Ht] (K1 & K2 & K3) (L1 & L2 & L3) Hc Hx.
  pose proof K1 as M1. pose proof L1 as M2.
  injection M1 as K4 K5 K6 K7 K8 K9. injection M2 as L4 L5 L6 L7 L8 L9. split; [done|..].
  - destruct Hsrc as [(l & A1 & A2)|(A1 & A2 & Hp & Hst)].
    + left. exists l. split; by eapply live_same.
    + right. split_and!; [by eapply end_same..|congruence|]. intros Hr. rewrite K3, L3. by apply Hst.
  - destruct rec.
    + destruct Ht as (t & R1 & R2), Hx as [X1 X2]. exists t. cbn in R1, R2 |- *.
      by rewrite K2, K3, K5, K6, L2, L3, L5, L6, X1, X2.
    + rewrite K2. by destruct Ht.
Qed.

Definition accord rec {A} (m1 : ST Tk1 A) (m2 : ST Tk2 A) : Prop := parallel (same rec) (same rec) m1 m2.

Lemma accord_bind rec {A B} (m1 : ST Tk1 A) m2 (k1 : A -> ST Tk1 B) k2 :
  accord rec m1 m2 -> (forall a, accord rec (k1 a) (k2 a)) -> accord rec (m1 ≫= k1) (m2 ≫= k2).
Proof. apply parallel_bind. Qed.

Lemma accord_ret rec {A} (a : A) : accord rec (mret a) (mret a).
Proof. apply parallel_ret. Qed.

Lemma accord_if rec {A} (b : bool) (m1 n1 : ST Tk1 A) m2 n2 :
  accord rec m1 m2 -> accord rec n1 n2 -> accord rec (if b then m1 else n1) (if b then m2 else n2).
Proof. apply parallel_if. Qed.

Lemma accord_loop rec {A} (b1 : unit -> ST Tk1 (unit + A)) b2 n :
  accord rec (b1 tt) (b2 tt) -> accord rec (st_loop n b1 tt) (st_loop n b2 tt).
Proof. intros Hb. apply parallel_loop. by intros []. Qed.

Lemma accord_next rec : accord rec (NextChar rounds) (NextChar rounds).
Proof. apply parallel_next. Qed.

Lemma accord_modify rec f g : (forall s1 s2, same rec s1 s2 -> same rec (f s1) (g s2)) ->
  accord rec (st_modify f) (st_modify g).
Proof. intros Hf s1 s2 HR. split; [done|by apply Hf]. Qed.

Lemma same_collector rec e s1 s2 : same rec s1 s2 -> same rec (set_collector e s1) (set_collector e s2).
Proof.
  intros Hs. pose proof (same_fields _ _ _ Hs) as (C1 & C2 & C3 & C4 & C5 & C6 & C7 & C8 & C9 & C10 & C11 & C12 & C13).
  apply (same_update rec s1 s2); [done..| |].
  - unfold common, still. cbn. congruence.
  - destruct rec; [done|]. by destruct (sm_text _ _ _ Hs).
Qed.

Lemma accord_report rec (f : Z * Z -> E -> E) : accord rec
  (st_modify (fun s => set_collector (f (line_ s, column_ s) (error_collector_ s)) s))
  (st_modify (fun s => set_collector (f (line_ s, column_ s) (error_collector_ s)) s)).
Proof.
  apply accord_modify. intros s1 s2 Hs. destruct (same_fields _ _ _ Hs) as (C1 & _ & _ & _ & C5 & C6 & _).
  rewrite C1, C5, C6. by apply same_collector.
Qed.

Lemma accord_error rec message : accord rec (AddError message) (AddError message).
Proof. apply (accord_report rec (fun p => CollectError p.1 p.2 message)). Qed.

Lemma accord_char rec : accord rec get_char get_char.
Proof. intros s1 s2 Hs. split; [|done]. by destruct (same_fields _ _ _ Hs) as (_ & _ & _ & _ & _ & _ & _ & C8 & _). Qed.

Lemma accord_get rec {A} (k1 : Tk1 -> ST Tk1 A) k2 :
  (forall s1 s2, same rec s1 s2 -> related (same rec) (k1 s1 s1) (k2 s2 s2)) -> accord rec (st_get ≫= k1) (st_get ≫= k2).
Proof. apply parallel_get. Qed.

Lemma accord_at rec {A} (m1 : ST Tk1 A) m2 s1 s2 : same rec s1 s2 -> accord rec m1 m2 ->
  related (same rec) (m1 s1) (m2 s2).
Proof. intros Hs Hm. by apply Hm. Qed.

Ltac accord_step := first
  [ simple apply accord_ret | simple apply accord_error | simple apply accord_next | simple apply accord_char
  | simple apply accord_if | simple apply accord_bind; [|intros ?] ].
Ltac agreeing := repeat first [assumption | accord_step].

Lemma accord_try rec (P : Z -> bool) : accord rec (TryConsumeOne rounds P) (TryConsumeOne rounds P).
Proof. unfold TryConsumeOne. agreeing. Qed.

Lemma accord_one rec c : accord rec (TryConsume rounds c) (TryConsume rounds c).
Proof. apply accord_try. Qed.

Lemma accord_more rec (P : Z -> bool) : accord rec (ConsumeZeroOrMore rounds P) (ConsumeZeroOrMore rounds P).
Proof. apply accord_loop. unfold consume_body. agreeing. Qed.

Lemma accord_some rec (P : Z -> bool) message :
  accord rec (ConsumeOneOrMore rounds P message) (ConsumeOneOrMore rounds P message).
Proof. unfold ConsumeOneOrMore. agreeing. apply accord_more. Qed.

Lemma accord_orelse rec (a1 b1 : ST Tk1 bool) a2 b2 : accord rec a1 a2 -> accord rec b1 b2 ->
  accord rec (orelse a1 b1) (orelse a2 b2).
Proof. intros Ha Hb. unfold orelse. agreeing. Qed.

Lemma accord_all rec (l1 : list (ST Tk1 bool)) l2 : Forall2 (accord rec) l1 l2 -> accord rec (all_of l1) (all_of l2).
Proof. induction 1; cbn; agreeing. Qed.

Lemma accord_looking rec (P : Z -> bool) : accord rec (LookingAtClass P) (LookingAtClass P).
Proof. unfold LookingAtClass. agreeing. Qed.

Ltac accord_chars := repeat first
  [ assumption | simple apply accord_orelse | simple apply accord_all | simple apply Forall2_cons_2 | simple apply Forall2_nil_2 | simple apply accord_looking | simple apply accord_one | simple apply accord_try | simple apply accord_more
  | simple apply accord_some | accord_step ].

Lemma accord_escape rec : accord rec (consume_escape rounds) (consume_escape rounds).
Proof. unfold consume_escape. accord_chars. Qed.

Lemma accord_string rec delimiter : accord rec (ConsumeString rounds delimiter) (ConsumeString rounds delimiter).
Proof. apply accord_loop. unfold string_body. accord_chars. apply accord_escape. Qed.

Lemma accord_decimal rec dot : accord rec (consume_decimal rounds dot) (consume_decimal rounds dot).
Proof.
  unfold consume_decimal. accord_chars. apply accord_get. intros s1 s2 Hs.
  destruct (same_fields _ _ _ Hs) as (_ & -> & _). apply accord_at; [done|]. accord_chars.
Qed.

Lemma accord_number rec zero dot : accord rec (ConsumeNumber rounds zero dot) (ConsumeNumber rounds zero dot).
Proof.
  unfold ConsumeNumber. accord_chars. apply accord_decimal.
Qed.

(** ** Comments *)

Lemma accord_line : accord false (ConsumeLineComment rounds false) (ConsumeLineComment rounds false).
Proof. unfold ConsumeLineComment, when. accord_chars. Qed.

Lemma accord_block : accord false (ConsumeBlockComment rounds false) (ConsumeBlockComment rounds false).
Proof.
  unfold ConsumeBlockComment. apply accord_get. intros s1 s2 Hs.
  destruct (same_fields _ _ _ Hs) as (_ & _ & _ & _ & -> & -> & _). apply accord_at; [done|].
  unfold when. accord_chars. apply accord_loop. unfold block_body, when. accord_chars.
  apply (accord_report false (fun _ => CollectError (line_ s2) (s32 (column_ s2 - 2)) (text "  Comment started here."))).
Qed.

(** Another current token, where none is recorded. *)
Lemma accord_token (f : Z * Z -> Token) :
  accord false (st_modify (fun s => set_current (f (line_ s, column_ s)) s))
              (st_modify (fun s => set_current (f (line_ s, column_ s)) s)).
Proof.
  apply accord_modify. intros s1 s2 Hs. destruct (same_fields _ _ _ Hs) as (C1 & C2 & C3 & C4 & C5 & C6 & C7 & C8 & C9 & _).
  rewrite C5, C6. apply (same_update false s1 s2); [done..| |done].
  unfold common, still. cbn. congruence.
Qed.

Lemma accord_comment : accord false (TryConsumeCommentStart rounds) (TryConsumeCommentStart rounds).
Proof.
  unfold TryConsumeCommentStart. apply accord_get. intros s1 s2 Hs.
  destruct (same_fields _ _ _ Hs) as (_ & _ & -> & _). destruct (comment_style_ s2); (apply accord_at; [done|]); accord_chars.
  apply (accord_token (fun p => mktoken TYPE_SYMBOL (text "/") p.1 (s32 (p.2 - 1)) p.2)).
Qed.

(** ** [Next] *)

Lemma parallel_start : parallel (same false) (same true) StartToken StartToken.
Proof.
  intros s1 s2 Hs. split; [done|]. destruct (same_fields _ _ _ Hs) as (C1 & C2 & C3 & C4 & C5 & C6 & C7 & C8 & C9 & _ & _ & _ & C13).
  assert (0 <= buffer_pos_ s1 /\ 0 <= buffer_pos_ s2) as [P1 P2].
  { destruct (sm_source _ _ _ Hs) as [(l & L1 & L2)|([] & [] & _)]; [|done].
    split; by eapply live_pos. }
  split.
  - unfold common, still. cbn. congruence.
  - destruct (sm_source _ _ _ Hs) as [(l & [] & [])|([] & [] & Hp & _)]; [left; exists l; split; by split|right].
    split_and!; [by split..|done|]. by intros _.
  - exists []. cbn. rewrite !Z.sub_diag, !take_0. split_and!; done || lia.
Qed.

Lemma EndToken_end {T} `{ZeroCopyInputStream T} (s : Tokenizer T E) t : at_end s -> recorded (Some t) s ->
  EndToken s = if buffer_pos_ s =? record_start_ s
    then Ok (tt, set_record None (-1) (set_current (mktoken (tok_type (current_ s)) (tok_text (current_ s)) (tok_line (current_ s))
           (tok_column (current_ s)) (column_ s)) s))
    else Fault NullDeref.
Proof.
  intros [He Hb Hs Hp Hc] _. destruct s. cbn in *. subst. unfold EndToken, StopRecording, append_record. st_run. cbn.
  by destruct (_ =? _).
Qed.

Lemma parallel_end : parallel (same true) (same false) EndToken EndToken.
Proof.
  intros s1 s2 Hs. destruct (same_fields _ _ _ Hs) as (C1 & C2 & C3 & C4 & C5 & C6 & C7 & C8 & C9 & C10 & C11 & C12 & C13).
  destruct (sm_text _ _ _ Hs) as (t & R1 & R2). destruct (sm_source _ _ _ Hs) as [(l & L1 & L2)|(A1 & A2 & Hp & Hst)].
  - destruct (EndToken_spec rounds l t s1 ltac:(split; [by left|done])) as (s1' & E1 & Q1 & T1' & S1 & P1 & N1).
    destruct (EndToken_spec rounds l t s2 ltac:(split; [by left|done])) as (s2' & E2 & Q2 & T2' & S2 & P2 & N2).
    rewrite E1, E2. split; [done|]. apply (same_reading l None); [done..| | | |].
    + rewrite S1, S2. unfold still. congruence.
    + congruence.
    + congruence.
    + congruence.
  - rewrite (EndToken_end s1 t A1 R1), (EndToken_end s2 t A2 R2), Hp, (Hst eq_refl).
    destruct (_ =? _); [|done]. split; [done|].
    assert (tok_text (current_ s1) = tok_text (current_ s2)) as Ht.
    { destruct A1 as [_ B1 _ _ _], A2 as [_ B2 _ _ _], R1 as (_ & _ & X1), R2 as (_ & _ & X2).
      rewrite B1 in X1. rewrite B2 in X2. cbn in X1, X2. rewrite drop_nil, take_nil, app_nil_r in X1, X2. congruence. }
    split; [unfold common, still; cbn; congruence|right|done]. destruct A1, A2.
    split_and!; [by split..|done|done].
Qed.

Lemma accord_type type : accord true (assign_type type) (assign_type type).
Proof.
  apply accord_modify. intros s1 s2 Hs. pose proof (same_fields _ _ _ Hs) as (C1 & C2 & C3 & C4 & C5 & C6 & C7 & C8 & C9 & C10 & C11 & C12 & C13).
  apply (same_update true s1 s2); [done..| |done]. unfold common, still. cbn. congruence.
Qed.

Lemma accord_consume : accord true (consume_token rounds) (consume_token rounds).
Proof.
  unfold consume_token.
  repeat first [simple apply accord_number | simple apply accord_string | progress accord_chars].
  apply accord_get. intros s1 s2 Hs.
  destruct (same_fields _ _ _ Hs) as (_ & _ & _ & -> & _ & _ & _ & _ & _ & _ & -> & -> & _). apply accord_at; [done|].
  accord_chars; [|apply accord_number].
  apply (accord_report true (fun p => CollectError p.1 (s32 (p.2 - 2)) (text "Need space between identifier and decimal point."))).
Qed.

Lemma accord_end : accord false end_of_input end_of_input.
Proof. unfold end_of_input. accord_chars. apply (accord_token (fun p => mktoken TYPE_END [] p.1 p.2 p.2)). Qed.

Lemma accord_control : accord false (st_loop rounds (skip_control_body rounds) tt) (st_loop rounds (skip_control_body rounds) tt).
Proof.
  apply accord_loop. unfold skip_control_body. accord_chars. apply accord_get. intros s1 s2 Hs.
  destruct (same_fields _ _ _ Hs) as (_ & _ & _ & _ & _ & _ & _ & _ & -> & _). apply accord_at; [done|]. accord_chars.
Qed.

Lemma accord_round : accord false (next_body rounds tt) (next_body rounds tt).
Proof.
  unfold next_body. apply accord_get. intros s1 s2 Hs.
  destruct (same_fields _ _ _ Hs) as (_ & _ & _ & _ & _ & _ & _ & _ & -> & _). apply accord_at; [done|].
  accord_chars; [apply accord_end|apply accord_comment|]. destruct a0; accord_chars; [apply accord_line|apply accord_block|].
  apply accord_get. intros r1 r2 Hr. destruct (same_fields _ _ _ Hr) as (_ & _ & _ & _ & _ & _ & _ & -> & -> & _).
  apply accord_at; [done|]. apply accord_if; [apply accord_end|].
  apply accord_if; [accord_chars; apply accord_control|].
  eapply parallel_bind; [apply parallel_start|intros _]. apply (parallel_bind _ (same true)); [apply accord_consume|intros type].
  apply (parallel_bind _ (same true)); [apply accord_type|intros _]. eapply parallel_bind; [apply parallel_end|intros _]. apply accord_ret.
Qed.

Lemma same_current s1 s2 : same false s1 s2 -> current_ s1 = current_ s2.
Proof.
  intros Hs. destruct (same_fields _ _ _ Hs) as (_ & _ & _ & _ & _ & _ & _ & _ & _ & C10 & C11 & C12 & C13).
  destruct (sm_text _ _ _ Hs) as [_ Ht]. destruct (current_ s1), (current_ s2). cbn in *. congruence.
Qed.

Lemma accord_Next : accord false (Next rounds) (Next rounds).
Proof.
  unfold Next. apply accord_bind; [|intros _; apply accord_loop, accord_round].
  apply accord_modify. intros s1 s2 Hs. pose proof (same_current _ _ Hs) as Hc.
  destruct (same_fields _ _ _ Hs) as (C1 & C2 & C3 & C4 & C5 & C6 & C7 & C8 & C9 & _). rewrite Hc.
  apply (same_update false s1 s2); [done..| |done]. unfold common, still. cbn. congruence.
Qed.

(** ** The beginning and the end *)

Lemma related_new t1 t2 (e : E) : good_input t1 -> good_input t2 -> (blanks t1 < rounds)%nat -> (blanks t2 < rounds)%nat ->
  chars_left t1 = chars_left t2 ->
  exists s1 s2, Tokenizer_new rounds t1 e = Ok s1 /\ Tokenizer_new rounds t2 e = Ok s2 /\ same false s1 s2.
Proof.
  intros G1 G2 B1 B2 Hl. unfold Tokenizer_new.
  set (x1 := mktokenizer _ _ t1 _ _ _ _ _ _ _ _ _ _ _ _ _). set (x2 := mktokenizer _ _ t2 _ _ _ _ _ _ _ _ _ _ _ _ _).
  destruct (Refresh_spec rounds None x1) as (s1 & E1 & Q1 & S1 & P1 & C1 & N1 & T1'); try done.
  destruct (Refresh_spec rounds None x2) as (s2 & E2 & Q2 & S2 & P2 & C2 & N2 & T2'); try done.
  rewrite E1, E2. exists s1, s2. split_and!; [done..|].
  change (chars_left (tk_input_ x1)) with (chars_left t1) in Q1. rewrite Hl in Q1.
  apply (same_reading _ None s1 s2 Q1 Q2); [by rewrite S1, S2|by rewrite P1, C1, P2, C2|by rewrite N1, N2|].
  intros _. by rewrite T1', T2'.
Qed.

Lemma destroy_end {T} `{ZC : ZeroCopyInputStream T} (s : Tokenizer T E) :
  at_end s -> exists t, Tokenizer_destroy s = Ok t.
Proof.
  intros [_ _ Hs Hp _]. unfold Tokenizer_destroy. destruct (Z.ltb_spec (buffer_pos_ s) (tk_buffer_size_ s)); [lia|eauto].
Qed.

Lemma same_destroy rec s1 s2 : same rec s1 s2 ->
  exists t1 t2, Tokenizer_destroy s1 = Ok t1 /\ Tokenizer_destroy s2 = Ok t2.
Proof.
  intros [_ [(l & L1 & L2)|(A1 & A2 & _)] _].
  - destruct (destroy_live rounds _ _ L1) as [t1 ->], (destroy_live rounds _ _ L2) as [t2 ->]. eauto.
  - destruct (destroy_end _ A1) as [t1 ->], (destroy_end _ A2) as [t2 ->]. eauto.
Qed.
End Tokens.

(** * The parser *)

Section Parser.
Context {T1 T2 : Type} `{IL1 : InputLaws T1} `{IL2 : InputLaws T2}.
Context (rounds : nat).

Abbreviation P1 := (ParserImpl T1).
Abbreviation P2 := (ParserImpl T2).

Definition alike (p1 : P1) (p2 : P2) : Prop :=
  same rounds false (tokenizer_ p1) (tokenizer_ p2) /\ message_ p1 = message_ p2 /\ parse_info_tree_ p1 = parse_info_tree_ p2.

Definition match_up {A} (m1 : ST P1 A) (m2 : ST P2 A) : Prop := parallel alike alike m1 m2.

Lemma match_bind {A B} (m1 : ST P1 A) m2 (k1 : A -> ST P1 B) k2 :
  match_up m1 m2 -> (forall a, match_up (k1 a) (k2 a)) -> match_up (m1 ≫= k1) (m2 ≫= k2).
Proof. apply parallel_bind. Qed.

Lemma match_ret {A} (a : A) : match_up (mret a) (mret a).
Proof. apply parallel_ret. Qed.

Lemma match_if {A} (b : bool) (m1 n1 : ST P1 A) m2 n2 :
  match_up m1 m2 -> match_up n1 n2 -> match_up (if b then m1 else n1) (if b then m2 else n2).
Proof. apply parallel_if. Qed.

Lemma match_lift {A} (r : result A) : match_up (st_lift r) (st_lift r).
Proof. apply parallel_lift. Qed.

Lemma match_loop {L A} (b1 : L -> ST P1 (L + A)) b2 n x :
  (forall x, match_up (b1 x) (b2 x)) -> match_up (st_loop n b1 x) (st_loop n b2 x).
Proof. intros Hb. by apply parallel_loop. Qed.

Lemma match_at {A} (m1 : ST P1 A) m2 p1 p2 : alike p1 p2 -> match_up m1 m2 -> related alike (m1 p1) (m2 p2).
Proof. intros Ha Hm. by apply Hm. Qed.

Lemma match_tokens {A} (m1 : ST (Tokenizer T1 reports) A) m2 : accord rounds false m1 m2 ->
  match_up (on_tokens m1) (on_tokens m2).
Proof.
  intros Hm p1 p2 (Hs & Hmsg & Htree). specialize (Hm _ _ Hs). unfold on_tokens. st_run. unfold st_lift.
  destruct (m1 (tokenizer_ p1)) as [[a s1]|f], (m2 (tokenizer_ p2)) as [[b s2]|g]; cbn in Hm; try done.
  destruct Hm as [<- Hs']. done.
Qed.

Lemma match_message f : match_up (on_message f) (on_message f).
Proof. intros p1 p2 (Hs & Hmsg & Htree). split; [done|]. split_and!; [done|cbn; congruence|done]. Qed.

Lemma match_current : match_up current current.
Proof. intros p1 p2 Ha. split; [|done]. destruct Ha as [Hs _]. apply (same_current _ _ _ Hs). Qed.

Lemma match_next : match_up (next_token rounds) (next_token rounds).
Proof. apply match_tokens, accord_Next. Qed.

Lemma match_report f : match_up (on_tokens (st_modify (fun s => set_collector (f (error_collector_ s)) s)))
  (on_tokens (st_modify (fun s => set_collector (f (error_collector_ s)) s))).
Proof. apply match_tokens. apply (accord_report rounds false (fun _ => f)). Qed.

Lemma match_DO {A B} (m1 : ST P1 (option A)) m2 (k1 : A -> ST P1 (option B)) k2 :
  match_up m1 m2 -> (forall a, match_up (k1 a) (k2 a)) -> match_up (DO m1 k1) (DO m2 k2).
Proof. intros Hm Hk. apply match_bind; [done|]. intros [a|]; [apply Hk|apply match_ret]. Qed.

Lemma match_error message : match_up (ReportError message) (ReportError message).
Proof. apply match_bind; [apply match_current|]. intros t. apply (match_report (report_error (tok_line t) (tok_column t) message)). Qed.

Lemma match_warning message : match_up (ReportWarning message) (ReportWarning message).
Proof. apply match_bind; [apply match_current|]. intros t. apply (match_report (report_warning (tok_line t) (tok_column t) message)). Qed.

Lemma match_fail {A} message : match_up (fail (A := A) message) (fail message).
Proof. apply match_bind; [apply match_error|]. intros _. apply match_ret. Qed.

Ltac match_step := first
  [ simple apply match_ret | simple apply match_fail | simple apply match_warning | simple apply match_next
  | simple apply match_current | simple apply match_lift | simple apply match_message
  | simple apply match_if | simple apply match_DO; [|intros ?] | simple apply match_loop; intros ?
  | simple apply match_bind; [|intros ?]
  | match goal with |- match_up (match ?x with _ => _ end) _ => destruct x end ].
Ltac matching := repeat first [assumption | match_step].

Lemma match_try value : match_up (TryConsumeToken rounds value) (TryConsumeToken rounds value).
Proof. unfold TryConsumeToken. matching. Qed.

Lemma match_consume value : match_up (Consume rounds value) (Consume rounds value).
Proof. unfold Consume. matching. Qed.

Lemma match_identifier : match_up (ConsumeIdentifier rounds) (ConsumeIdentifier rounds).
Proof. unfold ConsumeIdentifier. matching. Qed.

Lemma match_unsigned n : match_up (ConsumeUnsignedInteger rounds n) (ConsumeUnsignedInteger rounds n).
Proof. unfold ConsumeUnsignedInteger. matching. Qed.

Ltac parsing := repeat first
  [ assumption | simple apply match_try | simple apply match_consume | simple apply match_identifier
  | simple apply match_unsigned | match_step ].

Lemma match_string : match_up (ParserConsumeString rounds) (ParserConsumeString rounds).
Proof. unfold ParserConsumeString, string_tokens_body. parsing. Qed.

Lemma match_signed n : match_up (ConsumeSignedInteger rounds n) (ConsumeSignedInteger rounds n).
Proof. unfold ConsumeSignedInteger. parsing. Qed.

Lemma match_double : match_up (ConsumeDouble rounds) (ConsumeDouble rounds).
Proof. unfold ConsumeDouble. parsing. Qed.

Lemma match_skip_value : match_up (SkipFieldValue rounds) (SkipFieldValue rounds).
Proof. unfold SkipFieldValue, skip_strings_body. parsing. Qed.

Lemma match_extension : match_up (extension_name rounds) (extension_name rounds).
Proof. unfold extension_name, name_part_body. parsing. Qed.

Lemma match_separator : match_up (try_separator rounds) (try_separator rounds).
Proof. unfold try_separator. parsing. Qed.

Lemma match_looks : match_up (looks_like_value rounds) (looks_like_value rounds).
Proof. unfold looks_like_value. parsing. Qed.

Lemma match_skip_message (f1 : ST P1 (option unit)) f2 : match_up f1 f2 ->
  match_up (skip_field_message rounds f1) (skip_field_message rounds f2).
Proof. intros Hf. unfold skip_field_message, skip_fields_body. parsing. Qed.

Lemma match_skip fuel : match_up (SkipField rounds fuel) (SkipField rounds fuel).
Proof.
  induction fuel as [|fuel IH]; cbn [SkipField]; [apply parallel_fault|].
  parsing; auto using match_extension, match_looks, match_skip_value, match_skip_message, match_separator.
Qed.

Section Message.
Context (D : Descriptor) (policy : SingularOverwritePolicy) (allow_unknown : bool) (nan_bits : Z).

Lemma match_value field : match_up (ConsumeFieldValue rounds nan_bits field) (ConsumeFieldValue rounds nan_bits field).
Proof.
  unfold ConsumeFieldValue, set_number, set_string. parsing; auto using match_signed, match_double, match_string.
Qed.

Lemma match_name : match_up (consume_field_name rounds D allow_unknown) (consume_field_name rounds D allow_unknown).
Proof. unfold consume_field_name, no_such_field. parsing; apply match_extension. Qed.

Lemma match_location field location : match_up (record_location field location) (record_location field location).
Proof. intros p1 p2 (Hs & Hmsg & Htree). split; [done|]. split_and!; [done|done|cbn; congruence]. Qed.

Lemma match_list field u : match_up (short_list_body rounds nan_bits field u) (short_list_body rounds nan_bits field u).
Proof. unfold short_list_body. parsing. apply match_value. Qed.

Lemma match_field : match_up (ConsumeField rounds D policy allow_unknown nan_bits)
  (ConsumeField rounds D policy allow_unknown nan_bits).
Proof.
  unfold ConsumeField. apply match_bind; [apply match_current|]. intros start. apply match_DO; [apply match_name|].
  intros [name [field|]].
  - apply parallel_get. intros p1 p2 Ha. pose proof Ha as (_ & -> & _).
    apply match_at; [done|]. parsing; auto using match_list, match_value, match_separator, match_location.
  - unfold SkipFieldMessage. parsing; auto using match_looks, match_skip_value, match_skip_message, match_skip.
Qed.

Lemma match_parse : match_up (ParserImpl_Parse rounds D policy allow_unknown nan_bits)
  (ParserImpl_Parse rounds D policy allow_unknown nan_bits).
Proof.
  apply match_loop. intros []. unfold parse_body. apply match_bind; [apply match_current|]. intros t. apply match_if.
  - apply parallel_get. intros p1 p2 Ha. pose proof Ha as (Hs & _ & _).
    destruct (same_fields _ _ _ _ Hs) as (-> & _). by apply match_at, match_ret.
  - apply match_bind; [apply match_field|]. intros [?|]; apply match_ret.
Qed.

Lemma match_parse_field field : match_up (ParseField rounds nan_bits field) (ParseField rounds nan_bits field).
Proof. unfold ParseField, LookingAtType. parsing. apply match_value. Qed.
End Message.

(** Two streams with the same characters. *)
Definition equal_inputs (t1 : T1) (t2 : T2) : Prop :=
  good_input t1 /\ good_input t2 /\ (blanks t1 < rounds)%nat /\ (blanks t2 < rounds)%nat /\ chars_left t1 = chars_left t2.

Lemma new_alike t1 t2 tree msg : equal_inputs t1 t2 ->
  match ParserImpl_new rounds t1 tree msg, ParserImpl_new rounds t2 tree msg with
  | Ok p1, Ok p2 => alike p1 p2
  | Fault f, Fault g => f = g
  | _, _ => False
  end.
Proof.
  intros (G1 & G2 & B1 & B2 & Hl). unfold ParserImpl_new.
  destruct (related_new rounds t1 t2 (mkreports false []) G1 G2 B1 B2 Hl) as (s1 & s2 & -> & -> & Hs).
  cbn [mbind result_bind]. assert (same rounds false (set_options true SH_COMMENT_STYLE s1) (set_options true SH_COMMENT_STYLE s2)) as Hs'.
  { pose proof (same_fields _ _ _ _ Hs) as (C1 & C2 & C3 & C4 & C5 & C6 & C7 & C8 & C9 & C10 & C11 & C12 & C13).
    apply (same_update rounds false s1 s2); [done..| |by destruct (sm_text _ _ _ _ Hs)]. unfold common, still. cbn. congruence. }
  pose proof (accord_Next rounds _ _ Hs') as Hn.
  destruct (Next rounds (set_options true SH_COMMENT_STYLE s1)) as [[? ?]|], (Next rounds (set_options true SH_COMMENT_STYLE s2)) as [[? ?]|]; cbn in *; try done.
  by destruct Hn as [<- Hn].
Qed.

(** What a call leaves, without the stream. *)
Definition outcome {T} (r : parsed T) := (parse_ok r, parse_message r, parse_locations r, parse_reports r).

Definition same_outcome (x : result (parsed T1)) (y : result (parsed T2)) : Prop :=
  match x, y with
  | Ok a, Ok b => outcome a = outcome b
  | Fault f, Fault g => f = g
  | _, _ => False
  end.

Lemma run_alike (m1 : ST P1 bool) m2 t1 t2 tree msg : equal_inputs t1 t2 -> match_up m1 m2 ->
  same_outcome (run_impl rounds m1 t1 tree msg) (run_impl rounds m2 t2 tree msg).
Proof.
  intros Ht Hm. unfold run_impl. pose proof (new_alike t1 t2 tree msg Ht) as Hn.
  destruct (ParserImpl_new rounds t1 tree msg) as [p1|], (ParserImpl_new rounds t2 tree msg) as [p2|]; try done.
  cbn [mbind result_bind]. specialize (Hm _ _ Hn).
  destruct (m1 p1) as [[a q1]|], (m2 p2) as [[b q2]|]; cbn in Hm; try done. destruct Hm as (<- & Hs & Hmsg & Htree).
  cbn [mbind result_bind]. destruct (same_destroy _ _ _ _ Hs) as (u1 & u2 & -> & ->). cbn.
  destruct (same_fields _ _ _ _ Hs) as (-> & _). unfold outcome. cbn. by rewrite Hmsg, Htree.
Qed.
End Parser.

