(* ===== verification/Descriptors.v ===== *)
(** The descriptors that the generated code registers (src/generated_proto/
    netmessages_public.pb.cc, the string that [InternalAddGeneratedFile] is called with): the
    bytes of its messages, their reading as a [DescriptorProto], and the tables of
    [TextFormat] as what is read. *)

From S2P Require Import Prelude CMem Coded Wire Messages NetMessages NetClasses UserClasses.
From S2P Require Import UnknownSpec TextFormat.

Definition CNETMsg_Tick_bytes : list Z :=
  [10; 12; 67; 78; 69; 84; 77; 115; 103; 95; 84; 105; 99; 107; 18; 12; 10; 4; 116; 105; 99; 107;
   24; 1; 32; 1; 40; 13; 18; 28; 10; 20; 104; 111; 115; 116; 95; 99; 111; 109; 112; 117; 116; 97;
   116; 105; 111; 110; 116; 105; 109; 101; 24; 4; 32; 1; 40; 13; 18; 42; 10; 34; 104; 111; 115;
   116; 95; 99; 111; 109; 112; 117; 116; 97; 116; 105; 111; 110; 116; 105; 109; 101; 95; 115; 116;
   100; 95; 100; 101; 118; 105; 97; 116; 105; 111; 110; 24; 5; 32; 1; 40; 13; 18; 41; 10; 33; 104;
   111; 115; 116; 95; 102; 114; 97; 109; 101; 115; 116; 97; 114; 116; 116; 105; 109; 101; 95; 115;
   116; 100; 95; 100; 101; 118; 105; 97; 116; 105; 111; 110; 24; 6; 32; 1; 40; 13].

Definition CNETMsg_SignonState_bytes : list Z :=
  [10; 19; 67; 78; 69; 84; 77; 115; 103; 95; 83; 105; 103; 110; 111; 110; 83; 116; 97; 116; 101;
   18; 20; 10; 12; 115; 105; 103; 110; 111; 110; 95; 115; 116; 97; 116; 101; 24; 1; 32; 1; 40; 13;
   18; 19; 10; 11; 115; 112; 97; 119; 110; 95; 99; 111; 117; 110; 116; 24; 2; 32; 1; 40; 13; 18;
   26; 10; 18; 110; 117; 109; 95; 115; 101; 114; 118; 101; 114; 95; 112; 108; 97; 121; 101; 114;
   115; 24; 3; 32; 1; 40; 13; 18; 26; 10; 18; 112; 108; 97; 121; 101; 114; 115; 95; 110; 101; 116;
   119; 111; 114; 107; 105; 100; 115; 24; 4; 32; 3; 40; 9; 18; 16; 10; 8; 109; 97; 112; 95; 110;
   97; 109; 101; 24; 5; 32; 1; 40; 9].

Definition CSVCMsg_ServerInfo_bytes : list Z :=
  [10; 18; 67; 83; 86; 67; 77; 115; 103; 95; 83; 101; 114; 118; 101; 114; 73; 110; 102; 111; 18;
   16; 10; 8; 112; 114; 111; 116; 111; 99; 111; 108; 24; 1; 32; 1; 40; 5; 18; 20; 10; 12; 115;
   101; 114; 118; 101; 114; 95; 99; 111; 117; 110; 116; 24; 2; 32; 1; 40; 5; 18; 20; 10; 12; 105;
   115; 95; 100; 101; 100; 105; 99; 97; 116; 101; 100; 24; 3; 32; 1; 40; 8; 18; 32; 10; 24; 105;
   115; 95; 111; 102; 102; 105; 99; 105; 97; 108; 95; 118; 97; 108; 118; 101; 95; 115; 101; 114;
   118; 101; 114; 24; 4; 32; 1; 40; 8; 18; 15; 10; 7; 105; 115; 95; 104; 108; 116; 118; 24; 5; 32;
   1; 40; 8; 18; 17; 10; 9; 105; 115; 95; 114; 101; 112; 108; 97; 121; 24; 6; 32; 1; 40; 8; 18;
   37; 10; 29; 105; 115; 95; 114; 101; 100; 105; 114; 101; 99; 116; 105; 110; 103; 95; 116; 111;
   95; 112; 114; 111; 120; 121; 95; 114; 101; 108; 97; 121; 24; 21; 32; 1; 40; 8; 18; 12; 10; 4;
   99; 95; 111; 115; 24; 7; 32; 1; 40; 5; 18; 15; 10; 7; 109; 97; 112; 95; 99; 114; 99; 24; 8; 32;
   1; 40; 7; 18; 18; 10; 10; 99; 108; 105; 101; 110; 116; 95; 99; 114; 99; 24; 9; 32; 1; 40; 7;
   18; 24; 10; 16; 115; 116; 114; 105; 110; 103; 95; 116; 97; 98; 108; 101; 95; 99; 114; 99; 24;
   10; 32; 1; 40; 7; 18; 19; 10; 11; 109; 97; 120; 95; 99; 108; 105; 101; 110; 116; 115; 24; 11;
   32; 1; 40; 5; 18; 19; 10; 11; 109; 97; 120; 95; 99; 108; 97; 115; 115; 101; 115; 24; 12; 32; 1;
   40; 5; 18; 19; 10; 11; 112; 108; 97; 121; 101; 114; 95; 115; 108; 111; 116; 24; 13; 32; 1; 40;
   5; 18; 21; 10; 13; 116; 105; 99; 107; 95; 105; 110; 116; 101; 114; 118; 97; 108; 24; 14; 32; 1;
   40; 2; 18; 16; 10; 8; 103; 97; 109; 101; 95; 100; 105; 114; 24; 15; 32; 1; 40; 9; 18; 16; 10;
   8; 109; 97; 112; 95; 110; 97; 109; 101; 24; 16; 32; 1; 40; 9; 18; 22; 10; 14; 109; 97; 112; 95;
   103; 114; 111; 117; 112; 95; 110; 97; 109; 101; 24; 17; 32; 1; 40; 9; 18; 16; 10; 8; 115; 107;
   121; 95; 110; 97; 109; 101; 24; 18; 32; 1; 40; 9; 18; 17; 10; 9; 104; 111; 115; 116; 95; 110;
   97; 109; 101; 24; 19; 32; 1; 40; 9; 18; 18; 10; 10; 117; 103; 99; 95; 109; 97; 112; 95; 105;
   100; 24; 22; 32; 1; 40; 4].

Definition CSVCMsg_PacketEntities_bytes : list Z :=
  [10; 22; 67; 83; 86; 67; 77; 115; 103; 95; 80; 97; 99; 107; 101; 116; 69; 110; 116; 105; 116;
   105; 101; 115; 18; 19; 10; 11; 109; 97; 120; 95; 101; 110; 116; 114; 105; 101; 115; 24; 1; 32;
   1; 40; 5; 18; 23; 10; 15; 117; 112; 100; 97; 116; 101; 100; 95; 101; 110; 116; 114; 105; 101;
   115; 24; 2; 32; 1; 40; 5; 18; 16; 10; 8; 105; 115; 95; 100; 101; 108; 116; 97; 24; 3; 32; 1;
   40; 8; 18; 23; 10; 15; 117; 112; 100; 97; 116; 101; 95; 98; 97; 115; 101; 108; 105; 110; 101;
   24; 4; 32; 1; 40; 8; 18; 16; 10; 8; 98; 97; 115; 101; 108; 105; 110; 101; 24; 5; 32; 1; 40; 5;
   18; 18; 10; 10; 100; 101; 108; 116; 97; 95; 102; 114; 111; 109; 24; 6; 32; 1; 40; 5; 18; 19;
   10; 11; 101; 110; 116; 105; 116; 121; 95; 100; 97; 116; 97; 24; 7; 32; 1; 40; 12].

(** * Reading a descriptor *)

(** The numbers of [FieldDescriptorProto::Type], of the types that occur. *)
Definition type_of_number (n : Z) : option FieldType :=
  if n =? 2 then Some TYPE_FLOAT
  else if n =? 3 then Some TYPE_INT64
  else if n =? 4 then Some TYPE_UINT64
  else if n =? 5 then Some TYPE_INT32
  else if n =? 6 then Some TYPE_FIXED64
  else if n =? 7 then Some TYPE_FIXED32
  else if n =? 8 then Some TYPE_BOOL
  else if n =? 9 then Some TYPE_STRING
  else if n =? 12 then Some TYPE_BYTES
  else if n =? 13 then Some TYPE_UINT32
  else if n =? 17 then Some TYPE_SINT32
  else None.

Definition LABEL_REPEATED : Z := 3.

Definition varints_of (number : Z) (us : list UnknownField) : list Z :=
  omap (fun u => match u with UVarint n v => if n =? number then Some v else None | _ => None end) us.

Definition strings_of (number : Z) (us : list UnknownField) : list (list Z) :=
  omap (fun u => match u with ULengthDelimited n v => if n =? number then Some v else None | _ => None end) us.

(** A [FieldDescriptorProto]: name = 1, number = 3, label = 4, type = 5. *)
Definition field_of_bytes (index : nat) (bs : list Z) : option FieldDescriptor :=
  us ← unknown_fields_of bs;
  name ← last (strings_of 1 us);
  number ← last (varints_of 3 us);
  label ← last (varints_of 4 us);
  type ← last (varints_of 5 us);
  t ← type_of_number type;
  Some (mkfield index name number t (label =? LABEL_REPEATED)).

(** A [DescriptorProto]: name = 1, field = 2. *)
Definition descriptor_of_bytes (bs : list Z) : option Descriptor :=
  us ← unknown_fields_of bs;
  name ← last (strings_of 1 us);
  fields ← mapM id (imap field_of_bytes (strings_of 2 us));
  Some (mkdescriptor name fields).

(** The tables are what is registered. *)
Lemma descriptors_registered :
  descriptor_of_bytes CNETMsg_Tick_bytes = Some CNETMsg_Tick_descriptor /\
  descriptor_of_bytes CNETMsg_SignonState_bytes = Some CNETMsg_SignonState_descriptor /\
  descriptor_of_bytes CSVCMsg_ServerInfo_bytes = Some CSVCMsg_ServerInfo_descriptor /\
  descriptor_of_bytes CSVCMsg_PacketEntities_bytes = Some CSVCMsg_PacketEntities_descriptor.
Proof. repeat split; vm_compute; reflexivity. Qed.

(** The descriptors that the generated code registers for the classes of [NetClasses] and
    [UserClasses]: their bytes in the strings that [InternalAddGeneratedFile] is called with in
    src/generated_proto/netmessages_public.pb.cc and cstrike15_usermessages_public.pb.cc, each with
    its class. *)

(** * netmessages_public.pb.cc *)

Definition CMsgVector_bytes : list Z :=
  [10; 10; 67; 77; 115; 103; 86; 101; 99; 116; 111; 114; 18; 9; 10; 1; 120; 24; 1; 32; 1; 40; 2;
   18; 9; 10; 1; 121; 24; 2; 32; 1; 40; 2; 18; 9; 10; 1; 122; 24; 3; 32; 1; 40; 2].

Definition CMsgVector2D_bytes : list Z :=
  [10; 12; 67; 77; 115; 103; 86; 101; 99; 116; 111; 114; 50; 68; 18; 9; 10; 1; 120; 24; 1; 32; 1;
   40; 2; 18; 9; 10; 1; 121; 24; 2; 32; 1; 40; 2].

Definition CMsgQAngle_bytes : list Z :=
  [10; 10; 67; 77; 115; 103; 81; 65; 110; 103; 108; 101; 18; 9; 10; 1; 120; 24; 1; 32; 1; 40; 2;
   18; 9; 10; 1; 121; 24; 2; 32; 1; 40; 2; 18; 9; 10; 1; 122; 24; 3; 32; 1; 40; 2].

Definition CMsgRGBA_bytes : list Z :=
  [10; 8; 67; 77; 115; 103; 82; 71; 66; 65; 18; 9; 10; 1; 114; 24; 1; 32; 1; 40; 5; 18; 9; 10; 1;
   103; 24; 2; 32; 1; 40; 5; 18; 9; 10; 1; 98; 24; 3; 32; 1; 40; 5; 18; 9; 10; 1; 97; 24; 4; 32;
   1; 40; 5].

Definition CNETMsg_StringCmd_bytes : list Z :=
  [10; 17; 67; 78; 69; 84; 77; 115; 103; 95; 83; 116; 114; 105; 110; 103; 67; 109; 100; 18; 15;
   10; 7; 99; 111; 109; 109; 97; 110; 100; 24; 1; 32; 1; 40; 9].

Definition CMsg_CVars_CVar_bytes : list Z :=
  [10; 4; 67; 86; 97; 114; 18; 12; 10; 4; 110; 97; 109; 101; 24; 1; 32; 1; 40; 9; 18; 13; 10; 5;
   118; 97; 108; 117; 101; 24; 2; 32; 1; 40; 9].

Definition CNETMsg_NOP_bytes : list Z :=
  [10; 11; 67; 78; 69; 84; 77; 115; 103; 95; 78; 79; 80].

Definition CNETMsg_Disconnect_bytes : list Z :=
  [10; 18; 67; 78; 69; 84; 77; 115; 103; 95; 68; 105; 115; 99; 111; 110; 110; 101; 99; 116; 18;
   12; 10; 4; 116; 101; 120; 116; 24; 1; 32; 1; 40; 9].

Definition CNETMsg_File_bytes : list Z :=
  [10; 12; 67; 78; 69; 84; 77; 115; 103; 95; 70; 105; 108; 101; 18; 19; 10; 11; 116; 114; 97;
   110; 115; 102; 101; 114; 95; 105; 100; 24; 1; 32; 1; 40; 5; 18; 17; 10; 9; 102; 105; 108; 101;
   95; 110; 97; 109; 101; 24; 2; 32; 1; 40; 9; 18; 27; 10; 19; 105; 115; 95; 114; 101; 112; 108;
   97; 121; 95; 100; 101; 109; 111; 95; 102; 105; 108; 101; 24; 3; 32; 1; 40; 8; 18; 12; 10; 4;
   100; 101; 110; 121; 24; 4; 32; 1; 40; 8].

Definition CSVCMsg_ClassInfo_class_t_bytes : list Z :=
  [10; 7; 99; 108; 97; 115; 115; 95; 116; 18; 16; 10; 8; 99; 108; 97; 115; 115; 95; 105; 100; 24;
   1; 32; 1; 40; 5; 18; 23; 10; 15; 100; 97; 116; 97; 95; 116; 97; 98; 108; 101; 95; 110; 97;
   109; 101; 24; 2; 32; 1; 40; 9; 18; 18; 10; 10; 99; 108; 97; 115; 115; 95; 110; 97; 109; 101;
   24; 3; 32; 1; 40; 9].

Definition CSVCMsg_SendTable_sendprop_t_bytes : list Z :=
  [10; 10; 115; 101; 110; 100; 112; 114; 111; 112; 95; 116; 18; 12; 10; 4; 116; 121; 112; 101;
   24; 1; 32; 1; 40; 5; 18; 16; 10; 8; 118; 97; 114; 95; 110; 97; 109; 101; 24; 2; 32; 1; 40; 9;
   18; 13; 10; 5; 102; 108; 97; 103; 115; 24; 3; 32; 1; 40; 5; 18; 16; 10; 8; 112; 114; 105; 111;
   114; 105; 116; 121; 24; 4; 32; 1; 40; 5; 18; 15; 10; 7; 100; 116; 95; 110; 97; 109; 101; 24;
   5; 32; 1; 40; 9; 18; 20; 10; 12; 110; 117; 109; 95; 101; 108; 101; 109; 101; 110; 116; 115;
   24; 6; 32; 1; 40; 5; 18; 17; 10; 9; 108; 111; 119; 95; 118; 97; 108; 117; 101; 24; 7; 32; 1;
   40; 2; 18; 18; 10; 10; 104; 105; 103; 104; 95; 118; 97; 108; 117; 101; 24; 8; 32; 1; 40; 2;
   18; 16; 10; 8; 110; 117; 109; 95; 98; 105; 116; 115; 24; 9; 32; 1; 40; 5].

Definition CSVCMsg_Print_bytes : list Z :=
  [10; 13; 67; 83; 86; 67; 77; 115; 103; 95; 80; 114; 105; 110; 116; 18; 12; 10; 4; 116; 101;
   120; 116; 24; 1; 32; 1; 40; 9].

Definition CSVCMsg_SetPause_bytes : list Z :=
  [10; 16; 67; 83; 86; 67; 77; 115; 103; 95; 83; 101; 116; 80; 97; 117; 115; 101; 18; 14; 10; 6;
   112; 97; 117; 115; 101; 100; 24; 1; 32; 1; 40; 8].

Definition CSVCMsg_SetView_bytes : list Z :=
  [10; 15; 67; 83; 86; 67; 77; 115; 103; 95; 83; 101; 116; 86; 105; 101; 119; 18; 20; 10; 12;
   101; 110; 116; 105; 116; 121; 95; 105; 110; 100; 101; 120; 24; 1; 32; 1; 40; 5].

Definition CSVCMsg_CreateStringTable_bytes : list Z :=
  [10; 25; 67; 83; 86; 67; 77; 115; 103; 95; 67; 114; 101; 97; 116; 101; 83; 116; 114; 105; 110;
   103; 84; 97; 98; 108; 101; 18; 12; 10; 4; 110; 97; 109; 101; 24; 1; 32; 1; 40; 9; 18; 19; 10;
   11; 109; 97; 120; 95; 101; 110; 116; 114; 105; 101; 115; 24; 2; 32; 1; 40; 5; 18; 19; 10; 11;
   110; 117; 109; 95; 101; 110; 116; 114; 105; 101; 115; 24; 3; 32; 1; 40; 5; 18; 28; 10; 20;
   117; 115; 101; 114; 95; 100; 97; 116; 97; 95; 102; 105; 120; 101; 100; 95; 115; 105; 122; 101;
   24; 4; 32; 1; 40; 8; 18; 22; 10; 14; 117; 115; 101; 114; 95; 100; 97; 116; 97; 95; 115; 105;
   122; 101; 24; 5; 32; 1; 40; 5; 18; 27; 10; 19; 117; 115; 101; 114; 95; 100; 97; 116; 97; 95;
   115; 105; 122; 101; 95; 98; 105; 116; 115; 24; 6; 32; 1; 40; 5; 18; 13; 10; 5; 102; 108; 97;
   103; 115; 24; 7; 32; 1; 40; 5; 18; 19; 10; 11; 115; 116; 114; 105; 110; 103; 95; 100; 97; 116;
   97; 24; 8; 32; 1; 40; 12].

Definition CSVCMsg_UpdateStringTable_bytes : list Z :=
  [10; 25; 67; 83; 86; 67; 77; 115; 103; 95; 85; 112; 100; 97; 116; 101; 83; 116; 114; 105; 110;
   103; 84; 97; 98; 108; 101; 18; 16; 10; 8; 116; 97; 98; 108; 101; 95; 105; 100; 24; 1; 32; 1;
   40; 5; 18; 27; 10; 19; 110; 117; 109; 95; 99; 104; 97; 110; 103; 101; 100; 95; 101; 110; 116;
   114; 105; 101; 115; 24; 2; 32; 1; 40; 5; 18; 19; 10; 11; 115; 116; 114; 105; 110; 103; 95;
   100; 97; 116; 97; 24; 3; 32; 1; 40; 12].

Definition CSVCMsg_VoiceInit_bytes : list Z :=
  [10; 17; 67; 83; 86; 67; 77; 115; 103; 95; 86; 111; 105; 99; 101; 73; 110; 105; 116; 18; 15;
   10; 7; 113; 117; 97; 108; 105; 116; 121; 24; 1; 32; 1; 40; 5; 18; 13; 10; 5; 99; 111; 100;
   101; 99; 24; 2; 32; 1; 40; 9].

Definition CSVCMsg_VoiceData_bytes : list Z :=
  [10; 17; 67; 83; 86; 67; 77; 115; 103; 95; 86; 111; 105; 99; 101; 68; 97; 116; 97; 18; 14; 10;
   6; 99; 108; 105; 101; 110; 116; 24; 1; 32; 1; 40; 5; 18; 17; 10; 9; 112; 114; 111; 120; 105;
   109; 105; 116; 121; 24; 2; 32; 1; 40; 8; 18; 12; 10; 4; 120; 117; 105; 100; 24; 3; 32; 1; 40;
   6; 18; 20; 10; 12; 97; 117; 100; 105; 98; 108; 101; 95; 109; 97; 115; 107; 24; 4; 32; 1; 40;
   5; 18; 18; 10; 10; 118; 111; 105; 99; 101; 95; 100; 97; 116; 97; 24; 5; 32; 1; 40; 12].

Definition CSVCMsg_Prefetch_bytes : list Z :=
  [10; 16; 67; 83; 86; 67; 77; 115; 103; 95; 80; 114; 101; 102; 101; 116; 99; 104; 18; 19; 10;
   11; 115; 111; 117; 110; 100; 95; 105; 110; 100; 101; 120; 24; 1; 32; 1; 40; 5].

Definition CSVCMsg_GetCvarValue_bytes : list Z :=
  [10; 20; 67; 83; 86; 67; 77; 115; 103; 95; 71; 101; 116; 67; 118; 97; 114; 86; 97; 108; 117;
   101; 18; 14; 10; 6; 99; 111; 111; 107; 105; 101; 24; 1; 32; 1; 40; 5; 18; 17; 10; 9; 99; 118;
   97; 114; 95; 110; 97; 109; 101; 24; 2; 32; 1; 40; 9].

Definition CSVCMsg_Menu_bytes : list Z :=
  [10; 12; 67; 83; 86; 67; 77; 115; 103; 95; 77; 101; 110; 117; 18; 19; 10; 11; 100; 105; 97;
   108; 111; 103; 95; 116; 121; 112; 101; 24; 1; 32; 1; 40; 5; 18; 23; 10; 15; 109; 101; 110;
   117; 95; 107; 101; 121; 95; 118; 97; 108; 117; 101; 115; 24; 2; 32; 1; 40; 12].

Definition CSVCMsg_UserMessage_bytes : list Z :=
  [10; 19; 67; 83; 86; 67; 77; 115; 103; 95; 85; 115; 101; 114; 77; 101; 115; 115; 97; 103; 101;
   18; 16; 10; 8; 109; 115; 103; 95; 116; 121; 112; 101; 24; 1; 32; 1; 40; 5; 18; 16; 10; 8; 109;
   115; 103; 95; 100; 97; 116; 97; 24; 2; 32; 1; 40; 12].

Definition CSVCMsg_GameEvent_key_t_bytes : list Z :=
  [10; 5; 107; 101; 121; 95; 116; 18; 12; 10; 4; 116; 121; 112; 101; 24; 1; 32; 1; 40; 5; 18; 18;
   10; 10; 118; 97; 108; 95; 115; 116; 114; 105; 110; 103; 24; 2; 32; 1; 40; 9; 18; 17; 10; 9;
   118; 97; 108; 95; 102; 108; 111; 97; 116; 24; 3; 32; 1; 40; 2; 18; 16; 10; 8; 118; 97; 108;
   95; 108; 111; 110; 103; 24; 4; 32; 1; 40; 5; 18; 17; 10; 9; 118; 97; 108; 95; 115; 104; 111;
   114; 116; 24; 5; 32; 1; 40; 5; 18; 16; 10; 8; 118; 97; 108; 95; 98; 121; 116; 101; 24; 6; 32;
   1; 40; 5; 18; 16; 10; 8; 118; 97; 108; 95; 98; 111; 111; 108; 24; 7; 32; 1; 40; 8; 18; 18; 10;
   10; 118; 97; 108; 95; 117; 105; 110; 116; 54; 52; 24; 8; 32; 1; 40; 4; 18; 19; 10; 11; 118;
   97; 108; 95; 119; 115; 116; 114; 105; 110; 103; 24; 9; 32; 1; 40; 12].

Definition CSVCMsg_GameEventList_key_t_bytes : list Z :=
  [10; 5; 107; 101; 121; 95; 116; 18; 12; 10; 4; 116; 121; 112; 101; 24; 1; 32; 1; 40; 5; 18; 12;
   10; 4; 110; 97; 109; 101; 24; 2; 32; 1; 40; 9].

Definition CSVCMsg_TempEntities_bytes : list Z :=
  [10; 20; 67; 83; 86; 67; 77; 115; 103; 95; 84; 101; 109; 112; 69; 110; 116; 105; 116; 105; 101;
   115; 18; 16; 10; 8; 114; 101; 108; 105; 97; 98; 108; 101; 24; 1; 32; 1; 40; 8; 18; 19; 10; 11;
   110; 117; 109; 95; 101; 110; 116; 114; 105; 101; 115; 24; 2; 32; 1; 40; 5; 18; 19; 10; 11;
   101; 110; 116; 105; 116; 121; 95; 100; 97; 116; 97; 24; 3; 32; 1; 40; 12].

Definition CSVCMsg_Sounds_sounddata_t_bytes : list Z :=
  [10; 11; 115; 111; 117; 110; 100; 100; 97; 116; 97; 95; 116; 18; 16; 10; 8; 111; 114; 105; 103;
   105; 110; 95; 120; 24; 1; 32; 1; 40; 17; 18; 16; 10; 8; 111; 114; 105; 103; 105; 110; 95; 121;
   24; 2; 32; 1; 40; 17; 18; 16; 10; 8; 111; 114; 105; 103; 105; 110; 95; 122; 24; 3; 32; 1; 40;
   17; 18; 14; 10; 6; 118; 111; 108; 117; 109; 101; 24; 4; 32; 1; 40; 13; 18; 19; 10; 11; 100;
   101; 108; 97; 121; 95; 118; 97; 108; 117; 101; 24; 5; 32; 1; 40; 2; 18; 23; 10; 15; 115; 101;
   113; 117; 101; 110; 99; 101; 95; 110; 117; 109; 98; 101; 114; 24; 6; 32; 1; 40; 5; 18; 20; 10;
   12; 101; 110; 116; 105; 116; 121; 95; 105; 110; 100; 101; 120; 24; 7; 32; 1; 40; 5; 18; 15;
   10; 7; 99; 104; 97; 110; 110; 101; 108; 24; 8; 32; 1; 40; 5; 18; 13; 10; 5; 112; 105; 116; 99;
   104; 24; 9; 32; 1; 40; 5; 18; 13; 10; 5; 102; 108; 97; 103; 115; 24; 10; 32; 1; 40; 5; 18; 17;
   10; 9; 115; 111; 117; 110; 100; 95; 110; 117; 109; 24; 11; 32; 1; 40; 13; 18; 24; 10; 16; 115;
   111; 117; 110; 100; 95; 110; 117; 109; 95; 104; 97; 110; 100; 108; 101; 24; 12; 32; 1; 40; 7;
   18; 22; 10; 14; 115; 112; 101; 97; 107; 101; 114; 95; 101; 110; 116; 105; 116; 121; 24; 13;
   32; 1; 40; 5; 18; 19; 10; 11; 114; 97; 110; 100; 111; 109; 95; 115; 101; 101; 100; 24; 14; 32;
   1; 40; 5; 18; 19; 10; 11; 115; 111; 117; 110; 100; 95; 108; 101; 118; 101; 108; 24; 15; 32; 1;
   40; 5; 18; 19; 10; 11; 105; 115; 95; 115; 101; 110; 116; 101; 110; 99; 101; 24; 16; 32; 1; 40;
   8; 18; 18; 10; 10; 105; 115; 95; 97; 109; 98; 105; 101; 110; 116; 24; 17; 32; 1; 40; 8].

(** * cstrike15_usermessages_public.pb.cc *)

Definition CCSUsrMsg_VGUIMenu_Subkey_bytes : list Z :=
  [10; 6; 83; 117; 98; 107; 101; 121; 18; 12; 10; 4; 110; 97; 109; 101; 24; 1; 32; 1; 40; 9; 18;
   11; 10; 3; 115; 116; 114; 24; 2; 32; 1; 40; 9].

Definition CCSUsrMsg_Geiger_bytes : list Z :=
  [10; 16; 67; 67; 83; 85; 115; 114; 77; 115; 103; 95; 71; 101; 105; 103; 101; 114; 18; 13; 10;
   5; 114; 97; 110; 103; 101; 24; 1; 32; 1; 40; 5].

Definition CCSUsrMsg_Train_bytes : list Z :=
  [10; 15; 67; 67; 83; 85; 115; 114; 77; 115; 103; 95; 84; 114; 97; 105; 110; 18; 13; 10; 5; 116;
   114; 97; 105; 110; 24; 1; 32; 1; 40; 5].

Definition CCSUsrMsg_HudText_bytes : list Z :=
  [10; 17; 67; 67; 83; 85; 115; 114; 77; 115; 103; 95; 72; 117; 100; 84; 101; 120; 116; 18; 12;
   10; 4; 116; 101; 120; 116; 24; 1; 32; 1; 40; 9].

Definition CCSUsrMsg_SayText_bytes : list Z :=
  [10; 17; 67; 67; 83; 85; 115; 114; 77; 115; 103; 95; 83; 97; 121; 84; 101; 120; 116; 18; 15;
   10; 7; 101; 110; 116; 95; 105; 100; 120; 24; 1; 32; 1; 40; 5; 18; 12; 10; 4; 116; 101; 120;
   116; 24; 2; 32; 1; 40; 9; 18; 12; 10; 4; 99; 104; 97; 116; 24; 3; 32; 1; 40; 8; 18; 19; 10;
   11; 116; 101; 120; 116; 97; 108; 108; 99; 104; 97; 116; 24; 4; 32; 1; 40; 8].

Definition CCSUsrMsg_SayText2_bytes : list Z :=
  [10; 18; 67; 67; 83; 85; 115; 114; 77; 115; 103; 95; 83; 97; 121; 84; 101; 120; 116; 50; 18;
   15; 10; 7; 101; 110; 116; 95; 105; 100; 120; 24; 1; 32; 1; 40; 5; 18; 12; 10; 4; 99; 104; 97;
   116; 24; 2; 32; 1; 40; 8; 18; 16; 10; 8; 109; 115; 103; 95; 110; 97; 109; 101; 24; 3; 32; 1;
   40; 9; 18; 14; 10; 6; 112; 97; 114; 97; 109; 115; 24; 4; 32; 3; 40; 9; 18; 19; 10; 11; 116;
   101; 120; 116; 97; 108; 108; 99; 104; 97; 116; 24; 5; 32; 1; 40; 8].

Definition CCSUsrMsg_TextMsg_bytes : list Z :=
  [10; 17; 67; 67; 83; 85; 115; 114; 77; 115; 103; 95; 84; 101; 120; 116; 77; 115; 103; 18; 15;
   10; 7; 109; 115; 103; 95; 100; 115; 116; 24; 1; 32; 1; 40; 5; 18; 14; 10; 6; 112; 97; 114; 97;
   109; 115; 24; 3; 32; 3; 40; 9].

Definition CCSUsrMsg_Shake_bytes : list Z :=
  [10; 15; 67; 67; 83; 85; 115; 114; 77; 115; 103; 95; 83; 104; 97; 107; 101; 18; 15; 10; 7; 99;
   111; 109; 109; 97; 110; 100; 24; 1; 32; 1; 40; 5; 18; 23; 10; 15; 108; 111; 99; 97; 108; 95;
   97; 109; 112; 108; 105; 116; 117; 100; 101; 24; 2; 32; 1; 40; 2; 18; 17; 10; 9; 102; 114; 101;
   113; 117; 101; 110; 99; 121; 24; 3; 32; 1; 40; 2; 18; 16; 10; 8; 100; 117; 114; 97; 116; 105;
   111; 110; 24; 4; 32; 1; 40; 2].

Definition CCSUsrMsg_Rumble_bytes : list Z :=
  [10; 16; 67; 67; 83; 85; 115; 114; 77; 115; 103; 95; 82; 117; 109; 98; 108; 101; 18; 13; 10; 5;
   105; 110; 100; 101; 120; 24; 1; 32; 1; 40; 5; 18; 12; 10; 4; 100; 97; 116; 97; 24; 2; 32; 1;
   40; 5; 18; 13; 10; 5; 102; 108; 97; 103; 115; 24; 3; 32; 1; 40; 5].

Definition CCSUsrMsg_CloseCaption_bytes : list Z :=
  [10; 22; 67; 67; 83; 85; 115; 114; 77; 115; 103; 95; 67; 108; 111; 115; 101; 67; 97; 112; 116;
   105; 111; 110; 18; 12; 10; 4; 104; 97; 115; 104; 24; 1; 32; 1; 40; 13; 18; 16; 10; 8; 100;
   117; 114; 97; 116; 105; 111; 110; 24; 2; 32; 1; 40; 5; 18; 19; 10; 11; 102; 114; 111; 109; 95;
   112; 108; 97; 121; 101; 114; 24; 3; 32; 1; 40; 8].

Definition CCSUsrMsg_CloseCaptionDirect_bytes : list Z :=
  [10; 28; 67; 67; 83; 85; 115; 114; 77; 115; 103; 95; 67; 108; 111; 115; 101; 67; 97; 112; 116;
   105; 111; 110; 68; 105; 114; 101; 99; 116; 18; 12; 10; 4; 104; 97; 115; 104; 24; 1; 32; 1; 40;
   13; 18; 16; 10; 8; 100; 117; 114; 97; 116; 105; 111; 110; 24; 2; 32; 1; 40; 5; 18; 19; 10; 11;
   102; 114; 111; 109; 95; 112; 108; 97; 121; 101; 114; 24; 3; 32; 1; 40; 8].

Definition CCSUsrMsg_SendAudio_bytes : list Z :=
  [10; 19; 67; 67; 83; 85; 115; 114; 77; 115; 103; 95; 83; 101; 110; 100; 65; 117; 100; 105; 111;
   18; 19; 10; 11; 114; 97; 100; 105; 111; 95; 115; 111; 117; 110; 100; 24; 1; 32; 1; 40; 9].

Definition CCSUsrMsg_RawAudio_bytes : list Z :=
  [10; 18; 67; 67; 83; 85; 115; 114; 77; 115; 103; 95; 82; 97; 119; 65; 117; 100; 105; 111; 18;
   13; 10; 5; 112; 105; 116; 99; 104; 24; 1; 32; 1; 40; 5; 18; 14; 10; 6; 101; 110; 116; 105;
   100; 120; 24; 2; 32; 1; 40; 5; 18; 16; 10; 8; 100; 117; 114; 97; 116; 105; 111; 110; 24; 3;
   32; 1; 40; 2; 18; 22; 10; 14; 118; 111; 105; 99; 101; 95; 102; 105; 108; 101; 110; 97; 109;
   101; 24; 4; 32; 1; 40; 9].

Definition CCSUsrMsg_VoiceMask_PlayerMask_bytes : list Z :=
  [10; 10; 80; 108; 97; 121; 101; 114; 77; 97; 115; 107; 18; 23; 10; 15; 103; 97; 109; 101; 95;
   114; 117; 108; 101; 115; 95; 109; 97; 115; 107; 24; 1; 32; 1; 40; 5; 18; 17; 10; 9; 98; 97;
   110; 95; 109; 97; 115; 107; 115; 24; 2; 32; 1; 40; 5].

Definition CCSUsrMsg_RadioText_bytes : list Z :=
  [10; 19; 67; 67; 83; 85; 115; 114; 77; 115; 103; 95; 82; 97; 100; 105; 111; 84; 101; 120; 116;
   18; 15; 10; 7; 109; 115; 103; 95; 100; 115; 116; 24; 1; 32; 1; 40; 5; 18; 14; 10; 6; 99; 108;
   105; 101; 110; 116; 24; 2; 32; 1; 40; 5; 18; 16; 10; 8; 109; 115; 103; 95; 110; 97; 109; 101;
   24; 3; 32; 1; 40; 9; 18; 14; 10; 6; 112; 97; 114; 97; 109; 115; 24; 4; 32; 3; 40; 9].

Definition CCSUsrMsg_HintText_bytes : list Z :=
  [10; 18; 67; 67; 83; 85; 115; 114; 77; 115; 103; 95; 72; 105; 110; 116; 84; 101; 120; 116; 18;
   12; 10; 4; 116; 101; 120; 116; 24; 1; 32; 1; 40; 9].

Definition CCSUsrMsg_KeyHintText_bytes : list Z :=
  [10; 21; 67; 67; 83; 85; 115; 114; 77; 115; 103; 95; 75; 101; 121; 72; 105; 110; 116; 84; 101;
   120; 116; 18; 13; 10; 5; 104; 105; 110; 116; 115; 24; 1; 32; 3; 40; 9].

Definition CCSUsrMsg_ProcessSpottedEntityUpdate_SpottedEntityUpdate_bytes : list Z :=
  [10; 19; 83; 112; 111; 116; 116; 101; 100; 69; 110; 116; 105; 116; 121; 85; 112; 100; 97; 116;
   101; 18; 18; 10; 10; 101; 110; 116; 105; 116; 121; 95; 105; 100; 120; 24; 1; 32; 1; 40; 5; 18;
   16; 10; 8; 99; 108; 97; 115; 115; 95; 105; 100; 24; 2; 32; 1; 40; 5; 18; 16; 10; 8; 111; 114;
   105; 103; 105; 110; 95; 120; 24; 3; 32; 1; 40; 5; 18; 16; 10; 8; 111; 114; 105; 103; 105; 110;
   95; 121; 24; 4; 32; 1; 40; 5; 18; 16; 10; 8; 111; 114; 105; 103; 105; 110; 95; 122; 24; 5; 32;
   1; 40; 5; 18; 15; 10; 7; 97; 110; 103; 108; 101; 95; 121; 24; 6; 32; 1; 40; 5; 18; 15; 10; 7;
   100; 101; 102; 117; 115; 101; 114; 24; 7; 32; 1; 40; 8; 18; 26; 10; 18; 112; 108; 97; 121;
   101; 114; 95; 104; 97; 115; 95; 100; 101; 102; 117; 115; 101; 114; 24; 8; 32; 1; 40; 8; 18;
   21; 10; 13; 112; 108; 97; 121; 101; 114; 95; 104; 97; 115; 95; 99; 52; 24; 9; 32; 1; 40; 8].

Definition CCSUsrMsg_ReloadEffect_bytes : list Z :=
  [10; 22; 67; 67; 83; 85; 115; 114; 77; 115; 103; 95; 82; 101; 108; 111; 97; 100; 69; 102; 102;
   101; 99; 116; 18; 14; 10; 6; 101; 110; 116; 105; 100; 120; 24; 1; 32; 1; 40; 5; 18; 15; 10; 7;
   97; 99; 116; 97; 110; 105; 109; 24; 2; 32; 1; 40; 5].

Definition CCSUsrMsg_AdjustMoney_bytes : list Z :=
  [10; 21; 67; 67; 83; 85; 115; 114; 77; 115; 103; 95; 65; 100; 106; 117; 115; 116; 77; 111; 110;
   101; 121; 18; 14; 10; 6; 97; 109; 111; 117; 110; 116; 24; 1; 32; 1; 40; 5].

Definition CCSUsrMsg_KillCam_bytes : list Z :=
  [10; 17; 67; 67; 83; 85; 115; 114; 77; 115; 103; 95; 75; 105; 108; 108; 67; 97; 109; 18; 16;
   10; 8; 111; 98; 115; 95; 109; 111; 100; 101; 24; 1; 32; 1; 40; 5; 18; 20; 10; 12; 102; 105;
   114; 115; 116; 95; 116; 97; 114; 103; 101; 116; 24; 2; 32; 1; 40; 5; 18; 21; 10; 13; 115; 101;
   99; 111; 110; 100; 95; 116; 97; 114; 103; 101; 116; 24; 3; 32; 1; 40; 5].

Definition CCSUsrMsg_DesiredTimescale_bytes : list Z :=
  [10; 26; 67; 67; 83; 85; 115; 114; 77; 115; 103; 95; 68; 101; 115; 105; 114; 101; 100; 84; 105;
   109; 101; 115; 99; 97; 108; 101; 18; 25; 10; 17; 100; 101; 115; 105; 114; 101; 100; 95; 116;
   105; 109; 101; 115; 99; 97; 108; 101; 24; 1; 32; 1; 40; 2; 18; 29; 10; 21; 100; 117; 114; 97;
   116; 105; 111; 110; 95; 114; 101; 97; 108; 116; 105; 109; 101; 95; 115; 101; 99; 24; 2; 32; 1;
   40; 2; 18; 25; 10; 17; 105; 110; 116; 101; 114; 112; 111; 108; 97; 116; 111; 114; 95; 116;
   121; 112; 101; 24; 3; 32; 1; 40; 5; 18; 24; 10; 16; 115; 116; 97; 114; 116; 95; 98; 108; 101;
   110; 100; 95; 116; 105; 109; 101; 24; 4; 32; 1; 40; 2].

Definition CCSUsrMsg_CurrentTimescale_bytes : list Z :=
  [10; 26; 67; 67; 83; 85; 115; 114; 77; 115; 103; 95; 67; 117; 114; 114; 101; 110; 116; 84; 105;
   109; 101; 115; 99; 97; 108; 101; 18; 21; 10; 13; 99; 117; 114; 95; 116; 105; 109; 101; 115;
   99; 97; 108; 101; 24; 1; 32; 1; 40; 2].

Definition CCSUsrMsg_AchievementEvent_bytes : list Z :=
  [10; 26; 67; 67; 83; 85; 115; 114; 77; 115; 103; 95; 65; 99; 104; 105; 101; 118; 101; 109; 101;
   110; 116; 69; 118; 101; 110; 116; 18; 19; 10; 11; 97; 99; 104; 105; 101; 118; 101; 109; 101;
   110; 116; 24; 1; 32; 1; 40; 5; 18; 13; 10; 5; 99; 111; 117; 110; 116; 24; 2; 32; 1; 40; 5; 18;
   15; 10; 7; 117; 115; 101; 114; 95; 105; 100; 24; 3; 32; 1; 40; 5].

Definition CCSUsrMsg_MatchEndConditions_bytes : list Z :=
  [10; 28; 67; 67; 83; 85; 115; 114; 77; 115; 103; 95; 77; 97; 116; 99; 104; 69; 110; 100; 67;
   111; 110; 100; 105; 116; 105; 111; 110; 115; 18; 17; 10; 9; 102; 114; 97; 103; 108; 105; 109;
   105; 116; 24; 1; 32; 1; 40; 5; 18; 20; 10; 12; 109; 112; 95; 109; 97; 120; 114; 111; 117; 110;
   100; 115; 24; 2; 32; 1; 40; 5; 18; 19; 10; 11; 109; 112; 95; 119; 105; 110; 108; 105; 109;
   105; 116; 24; 3; 32; 1; 40; 5; 18; 20; 10; 12; 109; 112; 95; 116; 105; 109; 101; 108; 105;
   109; 105; 116; 24; 4; 32; 1; 40; 5].

Definition CCSUsrMsg_DisplayInventory_bytes : list Z :=
  [10; 26; 67; 67; 83; 85; 115; 114; 77; 115; 103; 95; 68; 105; 115; 112; 108; 97; 121; 73; 110;
   118; 101; 110; 116; 111; 114; 121; 18; 15; 10; 7; 100; 105; 115; 112; 108; 97; 121; 24; 1; 32;
   1; 40; 8; 18; 15; 10; 7; 117; 115; 101; 114; 95; 105; 100; 24; 2; 32; 1; 40; 5].

Definition CCSUsrMsg_CallVoteFailed_bytes : list Z :=
  [10; 24; 67; 67; 83; 85; 115; 114; 77; 115; 103; 95; 67; 97; 108; 108; 86; 111; 116; 101; 70;
   97; 105; 108; 101; 100; 18; 14; 10; 6; 114; 101; 97; 115; 111; 110; 24; 1; 32; 1; 40; 5; 18;
   12; 10; 4; 116; 105; 109; 101; 24; 2; 32; 1; 40; 5].

Definition CCSUsrMsg_VoteStart_bytes : list Z :=
  [10; 19; 67; 67; 83; 85; 115; 114; 77; 115; 103; 95; 86; 111; 116; 101; 83; 116; 97; 114; 116;
   18; 12; 10; 4; 116; 101; 97; 109; 24; 1; 32; 1; 40; 5; 18; 15; 10; 7; 101; 110; 116; 95; 105;
   100; 120; 24; 2; 32; 1; 40; 5; 18; 17; 10; 9; 118; 111; 116; 101; 95; 116; 121; 112; 101; 24;
   3; 32; 1; 40; 5; 18; 16; 10; 8; 100; 105; 115; 112; 95; 115; 116; 114; 24; 4; 32; 1; 40; 9;
   18; 19; 10; 11; 100; 101; 116; 97; 105; 108; 115; 95; 115; 116; 114; 24; 5; 32; 1; 40; 9; 18;
   22; 10; 14; 111; 116; 104; 101; 114; 95; 116; 101; 97; 109; 95; 115; 116; 114; 24; 6; 32; 1;
   40; 9; 18; 22; 10; 14; 105; 115; 95; 121; 101; 115; 95; 110; 111; 95; 118; 111; 116; 101; 24;
   7; 32; 1; 40; 8].

Definition CCSUsrMsg_VotePass_bytes : list Z :=
  [10; 18; 67; 67; 83; 85; 115; 114; 77; 115; 103; 95; 86; 111; 116; 101; 80; 97; 115; 115; 18;
   12; 10; 4; 116; 101; 97; 109; 24; 1; 32; 1; 40; 5; 18; 17; 10; 9; 118; 111; 116; 101; 95; 116;
   121; 112; 101; 24; 2; 32; 1; 40; 5; 18; 16; 10; 8; 100; 105; 115; 112; 95; 115; 116; 114; 24;
   3; 32; 1; 40; 9; 18; 19; 10; 11; 100; 101; 116; 97; 105; 108; 115; 95; 115; 116; 114; 24; 4;
   32; 1; 40; 9].

Definition CCSUsrMsg_VoteFailed_bytes : list Z :=
  [10; 20; 67; 67; 83; 85; 115; 114; 77; 115; 103; 95; 86; 111; 116; 101; 70; 97; 105; 108; 101;
   100; 18; 12; 10; 4; 116; 101; 97; 109; 24; 1; 32; 1; 40; 5; 18; 14; 10; 6; 114; 101; 97; 115;
   111; 110; 24; 2; 32; 1; 40; 5].

Definition CCSUsrMsg_VoteSetup_bytes : list Z :=
  [10; 19; 67; 67; 83; 85; 115; 114; 77; 115; 103; 95; 86; 111; 116; 101; 83; 101; 116; 117; 112;
   18; 24; 10; 16; 112; 111; 116; 101; 110; 116; 105; 97; 108; 95; 105; 115; 115; 117; 101; 115;
   24; 1; 32; 3; 40; 9].

Definition CCSUsrMsg_SendLastKillerDamageToClient_bytes : list Z :=
  [10; 38; 67; 67; 83; 85; 115; 114; 77; 115; 103; 95; 83; 101; 110; 100; 76; 97; 115; 116; 75;
   105; 108; 108; 101; 114; 68; 97; 109; 97; 103; 101; 84; 111; 67; 108; 105; 101; 110; 116; 18;
   22; 10; 14; 110; 117; 109; 95; 104; 105; 116; 115; 95; 103; 105; 118; 101; 110; 24; 1; 32; 1;
   40; 5; 18; 20; 10; 12; 100; 97; 109; 97; 103; 101; 95; 103; 105; 118; 101; 110; 24; 2; 32; 1;
   40; 5; 18; 22; 10; 14; 110; 117; 109; 95; 104; 105; 116; 115; 95; 116; 97; 107; 101; 110; 24;
   3; 32; 1; 40; 5; 18; 20; 10; 12; 100; 97; 109; 97; 103; 101; 95; 116; 97; 107; 101; 110; 24;
   4; 32; 1; 40; 5].

Definition CCSUsrMsg_ItemPickup_bytes : list Z :=
  [10; 20; 67; 67; 83; 85; 115; 114; 77; 115; 103; 95; 73; 116; 101; 109; 80; 105; 99; 107; 117;
   112; 18; 12; 10; 4; 105; 116; 101; 109; 24; 1; 32; 1; 40; 9].

Definition CCSUsrMsg_ShowMenu_bytes : list Z :=
  [10; 18; 67; 67; 83; 85; 115; 114; 77; 115; 103; 95; 83; 104; 111; 119; 77; 101; 110; 117; 18;
   24; 10; 16; 98; 105; 116; 115; 95; 118; 97; 108; 105; 100; 95; 115; 108; 111; 116; 115; 24; 1;
   32; 1; 40; 5; 18; 20; 10; 12; 100; 105; 115; 112; 108; 97; 121; 95; 116; 105; 109; 101; 24; 2;
   32; 1; 40; 5; 18; 19; 10; 11; 109; 101; 110; 117; 95; 115; 116; 114; 105; 110; 103; 24; 3; 32;
   1; 40; 9].

Definition CCSUsrMsg_BarTime_bytes : list Z :=
  [10; 17; 67; 67; 83; 85; 115; 114; 77; 115; 103; 95; 66; 97; 114; 84; 105; 109; 101; 18; 12;
   10; 4; 116; 105; 109; 101; 24; 1; 32; 1; 40; 9].

Definition CCSUsrMsg_AmmoDenied_bytes : list Z :=
  [10; 20; 67; 67; 83; 85; 115; 114; 77; 115; 103; 95; 65; 109; 109; 111; 68; 101; 110; 105; 101;
   100; 18; 15; 10; 7; 97; 109; 109; 111; 73; 100; 120; 24; 1; 32; 1; 40; 5].

Definition CCSUsrMsg_MarkAchievement_bytes : list Z :=
  [10; 25; 67; 67; 83; 85; 115; 114; 77; 115; 103; 95; 77; 97; 114; 107; 65; 99; 104; 105; 101;
   118; 101; 109; 101; 110; 116; 18; 19; 10; 11; 97; 99; 104; 105; 101; 118; 101; 109; 101; 110;
   116; 24; 1; 32; 1; 40; 9].

Definition CCSUsrMsg_ItemDrop_bytes : list Z :=
  [10; 18; 67; 67; 83; 85; 115; 114; 77; 115; 103; 95; 73; 116; 101; 109; 68; 114; 111; 112; 18;
   14; 10; 6; 105; 116; 101; 109; 105; 100; 24; 1; 32; 1; 40; 3; 18; 13; 10; 5; 100; 101; 97;
   116; 104; 24; 2; 32; 1; 40; 8].

Definition CCSUsrMsg_GlowPropTurnOff_bytes : list Z :=
  [10; 25; 67; 67; 83; 85; 115; 114; 77; 115; 103; 95; 71; 108; 111; 119; 80; 114; 111; 112; 84;
   117; 114; 110; 79; 102; 102; 18; 14; 10; 6; 101; 110; 116; 105; 100; 120; 24; 1; 32; 1; 40;
   5].

Definition CCSUsrMsg_RoundBackupFilenames_bytes : list Z :=
  [10; 30; 67; 67; 83; 85; 115; 114; 77; 115; 103; 95; 82; 111; 117; 110; 100; 66; 97; 99; 107;
   117; 112; 70; 105; 108; 101; 110; 97; 109; 101; 115; 18; 13; 10; 5; 99; 111; 117; 110; 116;
   24; 1; 32; 1; 40; 5; 18; 13; 10; 5; 105; 110; 100; 101; 120; 24; 2; 32; 1; 40; 5; 18; 16; 10;
   8; 102; 105; 108; 101; 110; 97; 109; 101; 24; 3; 32; 1; 40; 9; 18; 16; 10; 8; 110; 105; 99;
   101; 110; 97; 109; 101; 24; 4; 32; 1; 40; 9].

Definition CCSUsrMsg_ResetHud_bytes : list Z :=
  [10; 18; 67; 67; 83; 85; 115; 114; 77; 115; 103; 95; 82; 101; 115; 101; 116; 72; 117; 100; 18;
   13; 10; 5; 114; 101; 115; 101; 116; 24; 1; 32; 1; 40; 8].

Definition CCSUsrMsg_GameTitle_bytes : list Z :=
  [10; 19; 67; 67; 83; 85; 115; 114; 77; 115; 103; 95; 71; 97; 109; 101; 84; 105; 116; 108; 101;
   18; 13; 10; 5; 100; 117; 109; 109; 121; 24; 1; 32; 1; 40; 5].

Definition CCSUsrMsg_RequestState_bytes : list Z :=
  [10; 22; 67; 67; 83; 85; 115; 114; 77; 115; 103; 95; 82; 101; 113; 117; 101; 115; 116; 83; 116;
   97; 116; 101; 18; 13; 10; 5; 100; 117; 109; 109; 121; 24; 1; 32; 1; 40; 5].

Definition CCSUsrMsg_StopSpectatorMode_bytes : list Z :=
  [10; 27; 67; 67; 83; 85; 115; 114; 77; 115; 103; 95; 83; 116; 111; 112; 83; 112; 101; 99; 116;
   97; 116; 111; 114; 77; 111; 100; 101; 18; 13; 10; 5; 100; 117; 109; 109; 121; 24; 1; 32; 1;
   40; 5].

Definition CCSUsrMsg_DisconnectToLobby_bytes : list Z :=
  [10; 27; 67; 67; 83; 85; 115; 114; 77; 115; 103; 95; 68; 105; 115; 99; 111; 110; 110; 101; 99;
   116; 84; 111; 76; 111; 98; 98; 121; 18; 13; 10; 5; 100; 117; 109; 109; 121; 24; 1; 32; 1; 40;
   5].

Definition CCSUsrMsg_WarmupHasEnded_bytes : list Z :=
  [10; 24; 67; 67; 83; 85; 115; 114; 77; 115; 103; 95; 87; 97; 114; 109; 117; 112; 72; 97; 115;
   69; 110; 100; 101; 100; 18; 13; 10; 5; 100; 117; 109; 109; 121; 24; 1; 32; 1; 40; 5].

Definition CCSUsrMsg_ClientInfo_bytes : list Z :=
  [10; 20; 67; 67; 83; 85; 115; 114; 77; 115; 103; 95; 67; 108; 105; 101; 110; 116; 73; 110; 102;
   111; 18; 13; 10; 5; 100; 117; 109; 109; 121; 24; 1; 32; 1; 40; 5].

(** * The classes with their descriptors *)

Definition net_registered : list (message_class * list Z) :=
  [(CNETMsg_Tick, CNETMsg_Tick_bytes);
   (CNETMsg_SignonState, CNETMsg_SignonState_bytes);
   (CSVCMsg_ServerInfo, CSVCMsg_ServerInfo_bytes);
   (CSVCMsg_PacketEntities, CSVCMsg_PacketEntities_bytes);
   (CMsgVector, CMsgVector_bytes);
   (CMsgVector2D, CMsgVector2D_bytes);
   (CMsgQAngle, CMsgQAngle_bytes);
   (CMsgRGBA, CMsgRGBA_bytes);
   (CNETMsg_StringCmd, CNETMsg_StringCmd_bytes);
   (CMsg_CVars_CVar, CMsg_CVars_CVar_bytes);
   (CNETMsg_NOP, CNETMsg_NOP_bytes);
   (CNETMsg_Disconnect, CNETMsg_Disconnect_bytes);
   (CNETMsg_File, CNETMsg_File_bytes);
   (CSVCMsg_ClassInfo_class_t, CSVCMsg_ClassInfo_class_t_bytes);
   (CSVCMsg_SendTable_sendprop_t, CSVCMsg_SendTable_sendprop_t_bytes);
   (CSVCMsg_Print, CSVCMsg_Print_bytes);
   (CSVCMsg_SetPause, CSVCMsg_SetPause_bytes);
   (CSVCMsg_SetView, CSVCMsg_SetView_bytes);
   (CSVCMsg_CreateStringTable, CSVCMsg_CreateStringTable_bytes);
   (CSVCMsg_UpdateStringTable, CSVCMsg_UpdateStringTable_bytes);
   (CSVCMsg_VoiceInit, CSVCMsg_VoiceInit_bytes);
   (CSVCMsg_VoiceData, CSVCMsg_VoiceData_bytes);
   (CSVCMsg_Prefetch, CSVCMsg_Prefetch_bytes);
   (CSVCMsg_GetCvarValue, CSVCMsg_GetCvarValue_bytes);
   (CSVCMsg_Menu, CSVCMsg_Menu_bytes);
   (CSVCMsg_UserMessage, CSVCMsg_UserMessage_bytes);
   (CSVCMsg_GameEvent_key_t, CSVCMsg_GameEvent_key_t_bytes);
   (CSVCMsg_GameEventList_key_t, CSVCMsg_GameEventList_key_t_bytes);
   (CSVCMsg_TempEntities, CSVCMsg_TempEntities_bytes);
   (CSVCMsg_Sounds_sounddata_t, CSVCMsg_Sounds_sounddata_t_bytes)].

Definition user_registered : list (message_class * list Z) :=
  [(CCSUsrMsg_VGUIMenu_Subkey, CCSUsrMsg_VGUIMenu_Subkey_bytes);
   (CCSUsrMsg_Geiger, CCSUsrMsg_Geiger_bytes);
   (CCSUsrMsg_Train, CCSUsrMsg_Train_bytes);
   (CCSUsrMsg_HudText, CCSUsrMsg_HudText_bytes);
   (CCSUsrMsg_SayText, CCSUsrMsg_SayText_bytes);
   (CCSUsrMsg_SayText2, CCSUsrMsg_SayText2_bytes);
   (CCSUsrMsg_TextMsg, CCSUsrMsg_TextMsg_bytes);
   (CCSUsrMsg_Shake, CCSUsrMsg_Shake_bytes);
   (CCSUsrMsg_Rumble, CCSUsrMsg_Rumble_bytes);
   (CCSUsrMsg_CloseCaption, CCSUsrMsg_CloseCaption_bytes);
   (CCSUsrMsg_CloseCaptionDirect, CCSUsrMsg_CloseCaptionDirect_bytes);
   (CCSUsrMsg_SendAudio, CCSUsrMsg_SendAudio_bytes);
   (CCSUsrMsg_RawAudio, CCSUsrMsg_RawAudio_bytes);
   (CCSUsrMsg_VoiceMask_PlayerMask, CCSUsrMsg_VoiceMask_PlayerMask_bytes);
   (CCSUsrMsg_RadioText, CCSUsrMsg_RadioText_bytes);
   (CCSUsrMsg_HintText, CCSUsrMsg_HintText_bytes);
   (CCSUsrMsg_KeyHintText, CCSUsrMsg_KeyHintText_bytes);
   (CCSUsrMsg_ProcessSpottedEntityUpdate_SpottedEntityUpdate, CCSUsrMsg_ProcessSpottedEntityUpdate_SpottedEntityUpdate_bytes);
   (CCSUsrMsg_ReloadEffect, CCSUsrMsg_ReloadEffect_bytes);
   (CCSUsrMsg_AdjustMoney, CCSUsrMsg_AdjustMoney_bytes);
   (CCSUsrMsg_KillCam, CCSUsrMsg_KillCam_bytes);
   (CCSUsrMsg_DesiredTimescale, CCSUsrMsg_DesiredTimescale_bytes);
   (CCSUsrMsg_CurrentTimescale, CCSUsrMsg_CurrentTimescale_bytes);
   (CCSUsrMsg_AchievementEvent, CCSUsrMsg_AchievementEvent_bytes);
   (CCSUsrMsg_MatchEndConditions, CCSUsrMsg_MatchEndConditions_bytes);
   (CCSUsrMsg_DisplayInventory, CCSUsrMsg_DisplayInventory_bytes);
   (CCSUsrMsg_CallVoteFailed, CCSUsrMsg_CallVoteFailed_bytes);
   (CCSUsrMsg_VoteStart, CCSUsrMsg_VoteStart_bytes);
   (CCSUsrMsg_VotePass, CCSUsrMsg_VotePass_bytes);
   (CCSUsrMsg_VoteFailed, CCSUsrMsg_VoteFailed_bytes);
   (CCSUsrMsg_VoteSetup, CCSUsrMsg_VoteSetup_bytes);
   (CCSUsrMsg_SendLastKillerDamageToClient, CCSUsrMsg_SendLastKillerDamageToClient_bytes);
   (CCSUsrMsg_ItemPickup, CCSUsrMsg_ItemPickup_bytes);
   (CCSUsrMsg_ShowMenu, CCSUsrMsg_ShowMenu_bytes);
   (CCSUsrMsg_BarTime, CCSUsrMsg_BarTime_bytes);
   (CCSUsrMsg_AmmoDenied, CCSUsrMsg_AmmoDenied_bytes);
   (CCSUsrMsg_MarkAchievement, CCSUsrMsg_MarkAchievement_bytes);
   (CCSUsrMsg_ItemDrop, CCSUsrMsg_ItemDrop_bytes);
   (CCSUsrMsg_GlowPropTurnOff, CCSUsrMsg_GlowPropTurnOff_bytes);
   (CCSUsrMsg_RoundBackupFilenames, CCSUsrMsg_RoundBackupFilenames_bytes);
   (CCSUsrMsg_ResetHud, CCSUsrMsg_ResetHud_bytes);
   (CCSUsrMsg_GameTitle, CCSUsrMsg_GameTitle_bytes);
   (CCSUsrMsg_RequestState, CCSUsrMsg_RequestState_bytes);
   (CCSUsrMsg_StopSpectatorMode, CCSUsrMsg_StopSpectatorMode_bytes);
   (CCSUsrMsg_DisconnectToLobby, CCSUsrMsg_DisconnectToLobby_bytes);
   (CCSUsrMsg_WarmupHasEnded, CCSUsrMsg_WarmupHasEnded_bytes);
   (CCSUsrMsg_ClientInfo, CCSUsrMsg_ClientInfo_bytes)].
