(* ===== verification/TextGenProofs.v ===== *)
(** The generator against [render], the text as a function of what is printed: the buffers of
    the growing string do not show. *)

From S2P Require Import Prelude CMem TextGen.

(** * The text *)

(** Every line begins with the indent. *)
Fixpoint render (start : bool) (indent text : list Z) : list Z :=
  match text with
  | [] => []
  | c :: text => (if start then indent else []) ++ c :: render (c =? 10) indent text
  end.

(** Whether the next character begins a line. *)
Definition ends (start : bool) (text : list Z) : bool :=
  match last text with Some c => c =? 10 | None => start end.

Lemma ends_app start t u : ends start (t ++ u) = ends (ends start t) u.
Proof.
  unfold ends. rewrite last_app. by destruct (last u).
Qed.

Lemma ends_cons start c t : ends start (c :: t) = ends (c =? 10) t.
Proof. unfold ends. rewrite last_cons. by destruct (last t). Qed.

Lemma render_app start indent t u :
  render start indent (t ++ u) = render start indent t ++ render (ends start t) indent u.
Proof.
  revert start. induction t as [|c t IH]; intros start; [done|]. cbn [app render].
  by rewrite IH, ends_cons, <- app_assoc.
Qed.

(** A text within a line. *)
Lemma render_line indent start t : 10 ∉ t -> t <> [] ->
  render start indent t = (if start then indent else []) ++ t.
Proof.
  intros Hn Ht. assert (render false indent t = t) as E.
  { clear Ht. induction t as [|c t IH]; [done|]. apply not_elem_of_cons in Hn as [Hc Hn].
    cbn [render app]. destruct (Z.eqb_spec c 10); [done|]. by rewrite IH. }
  destruct start; [|done]. destruct t as [|c t]; [done|]. cbn [render] in *. by injection E as ->.
Qed.

Section Proofs.
Context `{StringGrowthLaws}.

(** What has been written, and the buffer behind it. *)
Record written (out : list Z) (g : TextGenerator) : Prop := {
  wr_chars : exists spare, t_chars (g_output g) = out ++ spare /\
    Z.of_nat (length spare) = g_buffer_size g;
  wr_buffer : g_buffer g = Z.of_nat (length out);
  wr_failed : g_failed g = false;
  wr_size : Z.of_nat (length (t_chars (g_output g))) <= t_capacity (g_output g);
  wr_capacity : t_capacity (g_output g) <= 4 * Z.of_nat (length out) + 64
}.

(** The longest text, half a gigabyte. *)
Definition text_limit : Z := 2 ^ 29 - 16.

Lemma store_at_spare out spare data : (length data <= length spare)%nat ->
  store_at (out ++ spare) (Z.of_nat (length out)) data = Ok ((out ++ data) ++ drop (length data) spare).
Proof.
  intros Hl. unfold store_at. rewrite length_app.
  destruct (Z.leb_spec (Z.of_nat (length out) + Z.of_nat (length data))
    (Z.of_nat (length out + length spare))); [|lia].
  rewrite Nat2Z.id, take_app_length, <- app_assoc. f_equal. f_equal. f_equal.
  by rewrite drop_app_add.
Qed.

(** The copy in front of what is left of the buffer. *)
Lemma copy_spec out spare data g : t_chars (g_output g) = out ++ spare ->
  g_buffer g = Z.of_nat (length out) -> (length data <= length spare)%nat ->
  copy_to_buffer data g =
  Ok (tt, set_output (mktarget ((out ++ data) ++ drop (length data) spare) (t_capacity (g_output g)))
            (g_buffer g) (g_buffer_size g) g).
Proof.
  intros Hc Hb Hl. unfold copy_to_buffer. destruct data as [|c data].
  - rewrite app_nil_r, drop_0, <- Hc. by destruct g as [[] ? ? ? ? ? ?].
  - rewrite (st_bind_ok _ _ _ _ _ eq_refl), Hc, Hb, store_at_spare by done. done.
Qed.

(** A new buffer behind a full one. *)
Lemma Next_spec out capacity : Z.of_nat (length out) < text_limit ->
  Z.of_nat (length out) <= capacity <= 4 * Z.of_nat (length out) + 64 ->
  exists spare capacity', StringOutputStream_Next (mktarget out capacity) =
      Ok (Z.of_nat (length out), Z.of_nat (length spare), mktarget (out ++ spare) capacity') /\
    (0 < length spare)%nat /\ Z.of_nat (length (out ++ spare)) <= capacity' <= 4 * Z.of_nat (length out) + 64.
Proof.
  unfold text_limit. intros Ho Hc. unfold StringOutputStream_Next. cbn [t_chars t_capacity].
  rewrite (s32_small (Z.of_nat (length out))) by lia. unfold string_resize. cbn [t_chars t_capacity].
  set (n := if Z.of_nat (length out) <? capacity then capacity
            else Z.max (s32 (Z.of_nat (length out) * 2)) (kMinimumSize + 0)).
  assert (Z.of_nat (length out) < n < 2 ^ 31 /\ (n <= capacity \/ 16 <= n /\ capacity <= n) /\
    n <= 2 * Z.of_nat (length out) + 64 + capacity) as (Hn & Hn' & _).
  { unfold n, kMinimumSize. destruct (Z.ltb_spec (Z.of_nat (length out)) capacity); [lia|].
    rewrite s32_small by lia. lia. }
  assert (n <= capacity \/ n <= 2 * Z.of_nat (length out) + 16) as Hn2.
  { unfold n, kMinimumSize. destruct (Z.ltb_spec (Z.of_nat (length out)) capacity); [lia|].
    rewrite s32_small by lia. lia. }
  exists (replicate (Z.to_nat n - length out) 0).
  destruct (Z.ltb_spec n 0); [lia|].
  assert (resize (Z.to_nat n) 0 out = out ++ replicate (Z.to_nat n - length out) 0) as ->.
  { rewrite resize_spec, take_ge by lia. done. }
  rewrite (res_bind_ok _ _ _ eq_refl). cbn [t_chars]. rewrite length_app, length_replicate.
  rewrite s32_small by lia.
  destruct (Z.leb_spec n capacity).
  - exists capacity. split; [|lia]. do 3 f_equal. lia.
  - exists (grow capacity n). pose proof (grow_enough capacity n).
    pose proof (grow_bounded capacity n ltac:(lia) ltac:(lia)).
    split; [|lia]. do 3 f_equal. lia.
Qed.

(** The rest of the generator's state. *)
Definition same_line (g g' : TextGenerator) : Prop :=
  g_at_start_of_line g' = g_at_start_of_line g /\ g_indent g' = g_indent g /\
  g_initial_indent_level g' = g_initial_indent_level g.

(** A round that fills the buffer, and the last one. *)
Lemma write_body_next out data g : written out g -> g_buffer_size g < Z.of_nat (length data) ->
  Z.of_nat (length out + length data) < text_limit ->
  exists g', write_body data g = Ok (inl (drop (Z.to_nat (g_buffer_size g)) data), g') /\
    written (out ++ take (Z.to_nat (g_buffer_size g)) data) g' /\ 0 < g_buffer_size g' /\ same_line g g'.
Proof.
  intros [(spare & Hc & Hs) Hb Hf Hz Hcap] Hl Hlim. unfold write_body.
  rewrite (st_bind_ok _ _ _ _ _ eq_refl).
  destruct (Z.ltb_spec (g_buffer_size g) (Z.of_nat (length data))); [|lia].
  destruct (Z.ltb_spec (g_buffer_size g) 0); [lia|].
  set (d := take (Z.to_nat (g_buffer_size g)) data).
  assert (length d = length spare) as Hd by (unfold d; rewrite length_take; lia).
  rewrite (st_bind_ok _ _ _ _ _ (copy_spec out spare d g Hc Hb ltac:(lia))).
  rewrite Hd, drop_ge, app_nil_r by lia. rewrite (st_bind_ok _ _ _ _ _ eq_refl).
  cbn [g_output set_output].
  destruct (Next_spec (out ++ d) (t_capacity (g_output g))) as (sp & cap & E & Hsp & Hcp).
  { rewrite length_app. unfold text_limit in *. lia. }
  { rewrite length_app. rewrite Hc, length_app in Hz. lia. }
  rewrite E. rewrite (st_bind_ok _ _ _ _ _ eq_refl). eexists. split; [reflexivity|].
  split; [|split; [cbn; lia|done]]. constructor; cbn.
  - by exists sp.
  - done.
  - done.
  - lia.
  - lia.
Qed.

Lemma write_body_last out data g : written out g -> Z.of_nat (length data) <= g_buffer_size g ->
  exists g', write_body data g = Ok (inr tt, g') /\ written (out ++ data) g' /\ same_line g g'.
Proof.
  intros [(spare & Hc & Hs) Hb Hf Hz Hcap] Hl. unfold write_body.
  rewrite (st_bind_ok _ _ _ _ _ eq_refl).
  destruct (Z.ltb_spec (g_buffer_size g) (Z.of_nat (length data))); [lia|].
  rewrite (st_bind_ok _ _ _ _ _ (copy_spec out spare data g Hc Hb ltac:(lia))).
  eexists. split; [reflexivity|]. split; [|done]. rewrite Hc, !length_app in Hz.
  constructor; cbn; rewrite ?length_app, ?length_drop; try done; try lia.
  exists (drop (length data) spare). split; [done|]. rewrite length_drop. lia.
Qed.

Lemma write_loop n : forall out data g, written out g ->
  Z.of_nat (length out + length data) < text_limit ->
  (length data + (if (0 <? g_buffer_size g)%Z then 0 else 1) < n)%nat ->
  exists g', st_loop n write_body data g = Ok (tt, g') /\ written (out ++ data) g' /\ same_line g g'.
Proof.
  induction n as [|n IH]; intros out data g Hw Hlim Hn; [lia|].
  assert (0 <= g_buffer_size g) as H0.
  { destruct (wr_chars _ _ Hw) as (spare & _ & Hs). lia. }
  destruct (Z.lt_ge_cases (g_buffer_size g) (Z.of_nat (length data))) as [Hl|Hl].
  - destruct (write_body_next out data g Hw Hl Hlim) as (g1 & E & Hw1 & Hp & Hs1).
    set (k := Z.to_nat (g_buffer_size g)) in *.
    destruct (IH (out ++ take k data) (drop k data) g1 Hw1) as (g2 & E2 & Hw2 & Hs2).
    + rewrite length_app, length_take, length_drop. lia.
    + rewrite length_drop. destruct (Z.ltb_spec 0 (g_buffer_size g1)); [|lia].
      destruct (Z.ltb_spec 0 (g_buffer_size g)); lia.
    + exists g2. rewrite (st_loop_next _ _ _ _ _ _ E). split; [done|].
      rewrite <- app_assoc, take_drop in Hw2. split; [done|].
      destruct Hs1 as (? & ? & ?), Hs2 as (? & ? & ?). split; [congruence|split; congruence].
  - destruct (write_body_last out data g Hw Hl) as (g' & E & Hw' & Hs').
    exists g'. by rewrite (st_loop_exit _ _ _ _ _ _ E).
Qed.

Lemma write_data_spec out data g : written out g -> Z.of_nat (length out + length data) < text_limit ->
  exists g', write_data data g = Ok (tt, g') /\ written (out ++ data) g' /\ same_line g g'.
Proof. intros Hw Hl. apply write_loop; [done|done|]. destruct (0 <? g_buffer_size g); lia. Qed.

(** * Printing *)

(** The text so far, whether a line begins, and the indent. *)
Record printed (out : list Z) (start : bool) (indent : list Z) (g : TextGenerator) : Prop := {
  pn_written : written out g;
  pn_start : g_at_start_of_line g = start;
  pn_indent : g_indent g = indent;
  pn_level : g_initial_indent_level g = 0
}.

Lemma printed_same out start indent g g' out' : printed out start indent g -> same_line g g' ->
  written out' g' -> printed out' start indent g'.
Proof. intros [H1 H2 H3 H4] (E1 & E2 & E3) Hw. constructor; congruence. Qed.

Lemma printed_start b out start indent g : printed out start indent g ->
  printed out b indent (set_at_start b g).
Proof. intros [[] H2 H3 H4]. by split. Qed.

Lemma Write_spec out start indent data g : printed out start indent g -> data <> [] ->
  let t := (if start then indent else []) ++ data in
  Z.of_nat (length out + length t) < text_limit ->
  exists g', Write data g = Ok (tt, g') /\ printed (out ++ t) false indent g'.
Proof.
  intros Hp Hd t Hl. unfold Write. rewrite (st_bind_ok _ _ _ _ _ eq_refl).
  rewrite (wr_failed _ _ (pn_written _ _ _ _ Hp)), (pn_start _ _ _ _ Hp).
  destruct data as [|c data]; [done|]. set (dat := c :: data) in *. clearbody dat.
  assert (exists g1, (if start then
       st_put (set_at_start false g);; match g_indent g with [] => mret tt | i => write_data i end
     else mret tt) g = Ok (tt, g1) /\
     printed (out ++ (if start then indent else [])) false indent g1) as (g1 & E1 & H1).
  { pose proof (printed_start false _ _ _ _ Hp) as Hp'. destruct start.
    - rewrite (st_bind_ok _ _ _ tt (set_at_start false g)) by done.
      rewrite (pn_indent _ _ _ _ Hp). unfold t in Hl. rewrite length_app in Hl.
      destruct indent as [|i indent].
      + exists (set_at_start false g). by rewrite app_nil_r.
      + destruct (write_data_spec out (i :: indent) (set_at_start false g)) as (g1 & E1 & Hw1 & Hs1);
          [apply Hp'|lia|]. exists g1. split; [done|]. by eapply printed_same.
    - exists g. rewrite app_nil_r. by split. }
  rewrite (st_bind_ok _ _ _ _ _ E1). unfold t in *. rewrite length_app in Hl.
  destruct (write_data_spec _ dat g1 (pn_written _ _ _ _ H1)) as (g2 & E2 & Hw2 & Hs2).
  { rewrite length_app. lia. }
  exists g2. split; [done|]. rewrite <- app_assoc in Hw2. by eapply printed_same.
Qed.

(** A piece of text up to the end of its line. *)
Lemma Write_render out start indent data g : printed out start indent g ->
  10 ∉ take (length data - 1) data ->
  Z.of_nat (length out + length (render start indent data)) < text_limit ->
  exists g', Write data g = Ok (tt, g') /\
    printed (out ++ render start indent data) (match data with [] => start | _ => false end) indent g'.
Proof.
  intros Hp Hn Hl. destruct data as [|c data].
  - exists g. rewrite app_nil_r. split; [|done].
    unfold Write. rewrite (st_bind_ok _ _ _ _ _ eq_refl). by destruct (g_failed g).
  - assert (render start indent (c :: data) = (if start then indent else []) ++ c :: data) as E.
    { clear Hl Hp. revert start c Hn. induction data as [|x data IH]; intros start c Hn; [done|].
      cbn [length Nat.sub take] in Hn. apply not_elem_of_cons in Hn as [Hc Hn].
      cbn [render]. destruct (Z.eqb_spec c 10); [done|]. f_equal. f_equal.
      pose proof (IH false x) as E. cbn [render app] in E. apply E. 
      cbn [length]. by rewrite Nat.sub_succ, Nat.sub_0_r. }
    rewrite E in *. by apply Write_spec.
Qed.

Lemma print_from_spec text : forall line out start indent g, printed out start indent g -> 10 ∉ line ->
  Z.of_nat (length out + length (render start indent (line ++ text))) < text_limit ->
  exists g', print_from line text g = Ok (tt, g') /\
    printed (out ++ render start indent (line ++ text)) (ends start (line ++ text)) indent g'.
Proof.
  induction text as [|c text IH]; intros line out start indent g Hp Hn Hl; cbn [print_from].
  - rewrite app_nil_r in *.
    destruct (Write_render out start indent line g Hp) as (g' & E & Hp'); [|done|].
    { intros Hin. apply Hn. rewrite <- (take_drop (length line - 1) line). apply elem_of_app. by left. }
    exists g'. split; [done|]. unfold ends.
    destruct (last line) as [x|] eqn:Ex; [|apply last_None in Ex as ->; done].
    apply last_Some in Ex as [l' ->]. destruct (Z.eqb_spec x 10) as [->|].
    + destruct Hn. apply elem_of_app. right. by apply list_elem_of_singleton.
    + by destruct l'.
  - destruct (Z.eqb_spec c 10) as [->|Hc].
    + replace (line ++ 10 :: text) with ((line ++ [10]) ++ text) in * by (by rewrite <- app_assoc).
      rewrite render_app, length_app in Hl.
      destruct (Write_render out start indent (line ++ [10]) g Hp) as (g1 & E1 & Hp1).
      { rewrite length_app. cbn [length]. rewrite Nat.add_sub, take_app_length. done. }
      { lia. }
      rewrite (st_bind_ok _ _ _ _ _ E1). rewrite (st_bind_ok _ _ _ tt (set_at_start true g1)) by done.
      assert (ends start (line ++ [10]) = true) as Ee by (unfold ends; by rewrite last_snoc).
      destruct (IH [] _ _ _ _ (printed_start true _ _ _ _ Hp1)) as (g2 & E2 & Hp2).
      { apply not_elem_of_nil. }
      { rewrite Ee in Hl. cbn [app]. rewrite length_app. lia. }
      exists g2. split; [done|]. rewrite render_app, (ends_app start (line ++ [10])), Ee, app_assoc. exact Hp2.
    + replace (line ++ c :: text) with ((line ++ [c]) ++ text) in * by (by rewrite <- app_assoc).
      apply IH; [done| |done]. intros Hin. apply elem_of_app in Hin as [Hin|Hin]; [done|].
      apply list_elem_of_singleton in Hin. congruence.
Qed.

Lemma Print_spec text out start indent g : printed out start indent g ->
  Z.of_nat (length out + length (render start indent text)) < text_limit ->
  exists g', Print text g = Ok (tt, g') /\
    printed (out ++ render start indent text) (ends start text) indent g'.
Proof. intros Hp Hl. apply (print_from_spec text []); [done|apply not_elem_of_nil|done]. Qed.

Lemma Indent_spec out start indent g : printed out start indent g ->
  exists g', Indent g = Ok (tt, g') /\ printed out start (indent ++ [32; 32]) g'.
Proof.
  intros [[] H2 H3 H4]. eexists. split; [reflexivity|]. split; cbn; [done|done|by rewrite H3|done].
Qed.

Lemma Outdent_spec out start indent g : printed out start (indent ++ [32; 32]) g ->
  exists g', Outdent g = Ok (tt, g') /\ printed out start indent g'.
Proof.
  intros [[] H2 H3 H4]. unfold Outdent. rewrite (st_bind_ok _ _ _ _ _ eq_refl), H3, H4, length_app.
  cbn [length]. destruct (Z.eqb_spec (Z.of_nat (length indent + 2)) 0); [lia|].
  destruct (Z.ltb_spec (Z.of_nat (length indent + 2)) (0 * 2)); [lia|]. cbn [orb].
  replace (Z.to_nat (Z.of_nat (length indent + 2) - 2)) with (length indent) by lia.
  rewrite take_app_length. eexists. split; [reflexivity|]. by split.
Qed.

(** * The life of a generator *)

Lemma new_printed capacity : 0 <= capacity <= 64 ->
  printed [] true [] (TextGenerator_new (mktarget [] capacity) 0).
Proof.
  intros Hc. split; cbn; try done. split; cbn; try done; try lia. by exists [].
Qed.

(** What the buffer has too much is given back. *)
Lemma destroy_spec out start indent g : printed out start indent g ->
  exists t, TextGenerator_destroy g = Ok t /\ t_chars t = out.
Proof.
  intros [[(spare & Hc & Hs) Hb Hf Hz Hcap] _ _ _]. unfold TextGenerator_destroy. rewrite Hf.
  cbn [negb andb]. destruct (Z.ltb_spec 0 (g_buffer_size g)) as [Hp|Hp].
  - unfold StringOutputStream_BackUp, string_resize. rewrite Hc, length_app in *.
    destruct (Z.leb_spec 0 (g_buffer_size g)); [|lia].
    destruct (Z.leb_spec (g_buffer_size g) (Z.of_nat (length out + length spare))); [|lia]. cbn [andb].
    destruct (Z.ltb_spec (Z.of_nat (length out + length spare) - g_buffer_size g) 0); [lia|].
    eexists. split; [reflexivity|]. cbn [t_chars].
    replace (Z.to_nat (Z.of_nat (length out + length spare) - g_buffer_size g)) with (length out) by lia.
    rewrite resize_le by (rewrite length_app; lia). by rewrite take_app_length.
  - exists (g_output g). split; [done|]. rewrite Hc. destruct spare; [by rewrite app_nil_r|].
    cbn [length] in Hs. lia.
Qed.
End Proofs.
