(* ===== verification/CodedOutProofs.v ===== *)
(** [CodedOutputStream] against the array writers: whatever the sizes of the buffers, what is
    written through them is what the writers to an array write, up to the end of the storage. *)

From S2P Require Import Prelude CMem Coded Wire Messages StreamClasses TextGen TextGenProofs CodedOut.
From S2P Require Import CodedSpec CodedWrite WireTrip MsgTables MsgSize.

(** * What an output stream promises *)

(** [stored] is what the stream's storage holds up to the end of the last buffer, [limit] the
    size up to which it surely hands out buffers; a [hard] limit is one that it never exceeds.
    [returned] is the most that can be given back. *)
Class OutputLaws (T : Type) `{ZeroCopyOutputStream T} := {
  stored : T -> list Z;
  sound : T -> Prop;
  limit : T -> Z;
  returned : T -> Z;
  hard : Prop;
  sound_size t : sound t -> Z.of_nat (length (stored t)) < 2 ^ 31;
  sound_count t : sound t -> ByteCount t = Z.of_nat (length (stored t));
  sound_limit t : hard -> sound t -> Z.of_nat (length (stored t)) <= limit t;
  next_more t : sound t -> Z.of_nat (length (stored t)) < limit t ->
    exists spare t', Next t = Ok (Some (Z.of_nat (length (stored t)), Z.of_nat (length spare)), t') /\
      (0 < length spare)%nat /\ sound t' /\ stored t' = stored t ++ spare /\
      limit t' = limit t /\ Z.of_nat (length spare) <= returned t';
  next_end t : hard -> sound t -> limit t <= Z.of_nat (length (stored t)) ->
    exists t', Next t = Ok (None, t') /\ sound t' /\ stored t' = stored t /\ limit t' = limit t;
  lend_stored t a old c bs : sound t -> stored t = a ++ old ++ c -> length old = length bs ->
    exists t', lend (Z.of_nat (length a)) bs t = Ok t' /\ sound t' /\ stored t' = a ++ bs ++ c /\
      limit t' = limit t /\ returned t' = returned t;
  backup_stored t out spare : sound t -> stored t = out ++ spare ->
    0 < Z.of_nat (length spare) <= returned t ->
    exists t', BackUp (Z.of_nat (length spare)) t = Ok t' /\ stored t' = out /\
      ByteCount t' = Z.of_nat (length out)
}.

Lemma store_at_middle (a old c bs : list Z) : length old = length bs ->
  store_at (a ++ old ++ c) (Z.of_nat (length a)) bs = Ok (a ++ bs ++ c).
Proof.
  intros Hl. unfold store_at. rewrite !length_app.
  destruct (Z.leb_spec (Z.of_nat (length a) + Z.of_nat (length bs))
    (Z.of_nat (length a + (length old + length c)))); [|lia].
  by rewrite Nat2Z.id, take_app_length, drop_app_add, <- Hl, drop_app_length.
Qed.

(** ** Arrays *)

Record array_sound (a : ArrayOutputStream) : Prop := {
  as_position : 0 <= ao_position a <= ao_size a;
  as_size : ao_size a <= Z.of_nat (length (ao_data a));
  as_int : ao_size a < 2 ^ 31;
  as_block : 0 < ao_block_size a \/ ao_size a = 0
}.

Definition array_stored (a : ArrayOutputStream) : list Z := take (Z.to_nat (ao_position a)) (ao_data a).

Lemma array_stored_length a : array_sound a -> Z.of_nat (length (array_stored a)) = ao_position a.
Proof. intros [H1 H2 _ _]. unfold array_stored. rewrite length_take. lia. Qed.

Lemma array_next_more a : array_sound a -> Z.of_nat (length (array_stored a)) < ao_size a ->
  exists spare t', ArrayOutputStream_Next a =
      Ok (Some (Z.of_nat (length (array_stored a)), Z.of_nat (length spare)), t') /\
    (0 < length spare)%nat /\ array_sound t' /\ array_stored t' = array_stored a ++ spare /\
    ao_size t' = ao_size a /\ Z.of_nat (length spare) <= ao_last_returned_size t'.
Proof.
  intros Ha Hl. rewrite (array_stored_length a Ha) in *. destruct Ha as [H1 H2 H3 H4].
  unfold ArrayOutputStream_Next. destruct (Z.ltb_spec (ao_position a) (ao_size a)); [|lia].
  set (n := Z.min (ao_block_size a) (ao_size a - ao_position a)).
  exists (take (Z.to_nat n) (drop (Z.to_nat (ao_position a)) (ao_data a))).
  eexists. rewrite length_take, length_drop.
  assert (Z.of_nat (Z.to_nat n `min` (length (ao_data a) - Z.to_nat (ao_position a))) = n) as -> by lia.
  split; [done|]. split; [lia|]. split; [constructor; cbn; lia|]. split; [|cbn; split; [done|lia]].
  unfold array_stored. cbn [ao_position ao_data]. rewrite Z2Nat.inj_add by lia.
  by rewrite <- take_take_drop.
Qed.

#[export] Program Instance array_laws : OutputLaws ArrayOutputStream := {|
  stored := array_stored;
  sound := array_sound;
  limit := ao_size;
  returned := ao_last_returned_size;
  hard := True
|}.
Next Obligation. intros a Ha. rewrite array_stored_length by done. destruct Ha; lia. Qed.
Next Obligation. intros a Ha. by rewrite array_stored_length. Qed.
Next Obligation. intros a _ Ha. rewrite array_stored_length by done. apply Ha. Qed.
Next Obligation. exact array_next_more. Qed.
Next Obligation.
  intros a _ Ha Hl. rewrite array_stored_length in Hl by done. cbn. unfold ArrayOutputStream_Next.
  destruct (Z.ltb_spec (ao_position a) (ao_size a)); [lia|]. eexists. split; [done|].
  split; [|done]. destruct Ha. by constructor.
Qed.
Next Obligation.
  intros a x old c bs Ha Hs Hl. pose proof (array_stored_length a Ha) as Hp. cbn.
  assert (ao_data a = x ++ old ++ (c ++ drop (Z.to_nat (ao_position a)) (ao_data a))) as Hd.
  { rewrite <- (take_drop (Z.to_nat (ao_position a)) (ao_data a)) at 1.
    fold (array_stored a). by rewrite Hs, <- !app_assoc. }
  rewrite Hs, !length_app in Hp.
  rewrite Hd, (res_bind_ok _ _ _ (store_at_middle _ _ _ _ Hl)).
  eexists. split; [done|]. destruct Ha as [H1 H2 H3 H4].
  assert (length (x ++ bs ++ c ++ drop (Z.to_nat (ao_position a)) (ao_data a)) = length (ao_data a)) as Hn.
  { rewrite Hd at 2. rewrite !length_app. lia. }
  split; [constructor; cbn; rewrite ?Hn; lia|]. split; [|done].
  unfold array_stored. cbn [ao_position ao_data].
  rewrite (app_assoc bs), (app_assoc x). apply take_app_length'. rewrite !length_app. lia.
Qed.
Next Obligation.
  intros a out spare Ha Hs Hl. pose proof (array_stored_length a Ha) as Hp. cbn in *.
  unfold ArrayOutputStream_BackUp. rewrite Hs, length_app in Hp.
  destruct (Z.ltb_spec 0 (ao_last_returned_size a)); [|lia].
  destruct (Z.leb_spec (Z.of_nat (length spare)) (ao_last_returned_size a)); [|lia].
  destruct (Z.leb_spec 0 (Z.of_nat (length spare))); [|lia]. eexists. split; [done|].
  unfold array_stored, ArrayOutputStream_ByteCount. cbn [ao_position ao_data]. split; [|lia].
  transitivity (take (length out) (array_stored a)).
  - unfold array_stored. rewrite take_take. f_equal. lia.
  - by rewrite Hs, take_app_length.
Qed.

(** ** Strings *)

Section Strings.
Context `{StringGrowthLaws}.

Definition string_sound (t : target) : Prop :=
  Z.of_nat (length (t_chars t)) <= t_capacity t <= 4 * Z.of_nat (length (t_chars t)) + 64 /\
  Z.of_nat (length (t_chars t)) < 2 ^ 31.

#[export] Program Instance string_laws : OutputLaws target := {|
  stored := t_chars;
  sound := string_sound;
  limit := fun _ => text_limit;
  returned := fun t => Z.of_nat (length (t_chars t));
  hard := False
|}.
Next Obligation. by intros t [_ Ht]. Qed.
Next Obligation. done. Qed.
Next Obligation. done. Qed.
Next Obligation.
  intros [out capacity] [Hc Hs] Hl. cbn in *.
  destruct (Next_spec out capacity Hl Hc) as (spare & capacity' & E & Hn & Hc').
  exists spare, (mktarget (out ++ spare) capacity'). rewrite E. cbn. split; [done|]. split; [done|].
  rewrite length_app in *. unfold text_limit in *. repeat split; cbn; rewrite ?length_app; try lia.
Qed.
Next Obligation. done. Qed.
Next Obligation.
  intros [chars capacity] x old c bs [Hc Hs] Hx Hl. cbn in *. subst chars.
  rewrite (res_bind_ok _ _ _ (store_at_middle _ _ _ _ Hl)). eexists. split; [done|].
  assert (length (x ++ bs ++ c) = length (x ++ old ++ c)) as Hn by (rewrite !length_app; lia).
  repeat split; cbn; rewrite ?Hn; lia || done.
Qed.
Next Obligation.
  intros [chars capacity] out spare [Hc Hs] Hx Hl. cbn in *. subst chars. rewrite length_app in *.
  unfold StringOutputStream_BackUp. cbn [t_chars]. rewrite length_app.
  destruct (Z.leb_spec 0 (Z.of_nat (length spare))); [|lia].
  destruct (Z.leb_spec (Z.of_nat (length spare)) (Z.of_nat (length out + length spare))); [|lia]. cbn [andb].
  unfold string_resize. destruct (Z.ltb_spec (Z.of_nat (length out + length spare) - Z.of_nat (length spare)) 0); [lia|].
  eexists. split; [done|]. cbn [t_chars].
  replace (Z.to_nat (Z.of_nat (length out + length spare) - Z.of_nat (length spare))) with (length out) by lia.
  rewrite resize_le, take_app_length by (rewrite length_app; lia). done.
Qed.
End Strings.

(** * The stream as the bytes that were written *)

Section Emits.
Context {T : Type} `{OutputLaws T}.

(** [base] was in the storage before; [w] is what was written since.  Up to the limit it is all
    there, with a buffer behind it; what does not fit is an error. *)
Definition rep (lim : Z) (base w : list Z) (o : CodedOutputStream T) : Prop :=
  sound (output_ o) /\ limit (output_ o) = lim /\
  if Z.of_nat (length (base ++ w)) <=? lim then
    had_error_ o = false /\ exists spare,
      stored (output_ o) = base ++ w ++ spare /\ buffer_size_ o = Z.of_nat (length spare) /\
      total_bytes_ o = Z.of_nat (length w) + Z.of_nat (length spare) /\
      (spare = [] /\ out_buffer_ o = None \/
       out_buffer_ o = Some (Z.of_nat (length (base ++ w))) /\
       Z.of_nat (length spare) <= returned (output_ o))
  else
    hard /\ had_error_ o = true /\ buffer_size_ o = 0 /\ out_buffer_ o = None /\
    Z.of_nat (length base) <= lim /\
    stored (output_ o) = base ++ take (Z.to_nat (lim - Z.of_nat (length base))) w /\
    total_bytes_ o = lim - Z.of_nat (length base).

(** [m] writes [bs]. *)
Definition emits (m : Output T unit) (bs : list Z) : Prop := forall lim base w o,
  rep lim base w o -> hard \/ Z.of_nat (length (base ++ w ++ bs)) <= lim ->
  exists o', m o = Ok (tt, o') /\ rep lim base (w ++ bs) o'.

Lemma emits_nil : emits (mret tt) [].
Proof. intros lim base w o Hr _. exists o. by rewrite app_nil_r. Qed.

Lemma emits_seq m m' bs bs' : emits m bs -> emits m' bs' -> emits (m;; m') (bs ++ bs').
Proof.
  intros Hm Hm' lim base w o Hr Hl.
  destruct (Hm lim base w o Hr) as (o1 & E1 & Hr1).
  { destruct Hl; [by left|right]. rewrite !length_app in *. lia. }
  destruct (Hm' lim base (w ++ bs) o1 Hr1) as (o2 & E2 & Hr2).
  { by rewrite <- app_assoc. }
  exists o2. rewrite (st_bind_ok _ _ _ _ _ E1). by rewrite app_assoc.
Qed.

Lemma emits_fold {A} (f : A -> Output T unit) (g : A -> list Z) l rest tail :
  (forall x, x ∈ l -> emits (f x) (g x)) -> emits rest tail ->
  emits (foldr (fun x (rest : Output T unit) => f x;; rest) rest l) (mjoin (g <$> l) ++ tail).
Proof.
  intros Hf Hr. induction l as [|x l IH]; [done|]. cbn. rewrite <- app_assoc.
  apply emits_seq; [apply Hf; by left|]. apply IH. intros y Hy. apply Hf. by right.
Qed.

(** Bytes that fit in the buffer. *)
Lemma copy_spare lim base w o spare bs : rep lim base w o ->
  stored (output_ o) = base ++ w ++ spare -> buffer_size_ o = Z.of_nat (length spare) ->
  had_error_ o = false -> Z.of_nat (length (base ++ w)) <= lim -> (length bs <= length spare)%nat ->
  exists t', copy_out bs o = Ok (tt, mkoutput t' (out_buffer_ o) (buffer_size_ o) (total_bytes_ o) false) /\
    sound t' /\ limit t' = lim /\ stored t' = base ++ (w ++ bs) ++ drop (length bs) spare /\
    returned t' = returned (output_ o).
Proof.
  intros (Hs & Hlim & Hr) Hst Hsz He Hfit Hl.
  destruct (Z.leb_spec (Z.of_nat (length (base ++ w))) lim); [|lia].
  destruct Hr as (_ & spare' & Hst' & Hsz' & _ & Hb).
  assert (length spare' = length spare) as Hn by lia.
  unfold copy_out. destruct bs as [|b bs].
  - exists (output_ o). rewrite app_nil_r, drop_0, <- He. by destruct o.
  - destruct Hb as [[-> _]|[Hb Hret]]; [cbn in *; lia|]. rewrite (st_bind_ok _ _ _ _ _ eq_refl), Hb.
    destruct (lend_stored (output_ o) (base ++ w) (take (length (b :: bs)) spare) (drop (length (b :: bs)) spare)
      (b :: bs) Hs) as (t' & E & Ht & Hst2 & Hl2 & Hret2).
    { by rewrite take_drop, <- app_assoc. }
    { rewrite length_take. lia. }
    exists t'. rewrite (st_lift_ok _ _ _ _ E). rewrite Hlim in Hl2. rewrite He. split; [done|].
    repeat split; try done. by rewrite Hst2, <- !app_assoc.
Qed.

Lemma direct_emits lim base w o bs : rep lim base w o -> Z.of_nat (length bs) <= buffer_size_ o ->
  (length bs <> 0)%nat -> hard \/ Z.of_nat (length (base ++ w ++ bs)) <= lim ->
  exists o', (copy_out bs;; OutAdvance (Z.of_nat (length bs))) o = Ok (tt, o') /\ rep lim base (w ++ bs) o'.
Proof.
  intros Hr Hl Hn Hor. pose proof Hr as (Hs & Hlim & Hr'). revert Hr'.
  destruct (Z.leb_spec (Z.of_nat (length (base ++ w))) lim); intros Hr'; [|destruct Hr' as (_ & _ & Hz & _); lia].
  destruct Hr' as (He & spare & Hst & Hsz & Htot & Hb).
  destruct (copy_spare lim base w o spare bs Hr Hst Hsz He) as (t' & E & Ht & Hlim' & Hst' & Hret); [done|lia|].
  eexists. rewrite (st_bind_ok _ _ _ _ _ E). split; [done|]. split; [done|]. split; [done|].
  cbn [output_ had_error_ buffer_size_ total_bytes_ out_buffer_].
  assert (Z.of_nat (length (base ++ w ++ bs)) <= lim) as Hfit.
  { destruct Hor as [Hh|]; [|done]. pose proof (sound_limit (output_ o) Hh Hs) as Hle. rewrite Hst, Hlim in Hle.
    rewrite !length_app in *. lia. }
  destruct (Z.leb_spec (Z.of_nat (length (base ++ w ++ bs))) lim); [|lia]. split; [done|].
  exists (drop (length bs) spare). rewrite Hst'. split; [done|]. rewrite length_drop, length_app.
  split; [lia|]. split; [lia|]. right. destruct Hb as [[-> _]|[-> Hret']]; [cbn in *; lia|]. cbn.
  rewrite !length_app. split; [f_equal; lia|]. rewrite Hret. lia.
Qed.

(** A new buffer behind a full one, or the end of the storage. *)
Lemma refresh_spec lim base w o : sound (output_ o) -> limit (output_ o) = lim ->
  stored (output_ o) = base ++ w -> total_bytes_ o = Z.of_nat (length w) -> had_error_ o = false ->
  hard /\ Z.of_nat (length (base ++ w)) <= lim \/ Z.of_nat (length (base ++ w)) < lim ->
  (exists o', OutRefresh o = Ok (true, o') /\ rep lim base w o' /\ 0 < buffer_size_ o') \/
  (exists o', OutRefresh o = Ok (false, o') /\ forall bs, bs <> [] -> rep lim base (w ++ bs) o').
Proof.
  intros Hs Hlim Hst Htot He Hor. unfold OutRefresh.
  destruct (Z.lt_ge_cases (Z.of_nat (length (base ++ w))) lim) as [Hlt|Hge].
  - left. destruct (next_more (output_ o) Hs ltac:(by rewrite Hst, Hlim))
      as (spare & t & E & Hn & Ht & Hst' & Hlim' & Hret).
    pose proof (sound_size t Ht) as Hsz. rewrite Hst', Hst in Hsz. rewrite !length_app in Hsz.
    eexists. rewrite (st_bind_ok _ _ _ _ _ eq_refl), (st_lift_ok _ _ _ _ E). split; [done|].
    cbn [buffer_size_]. split; [|lia]. split; [done|]. cbn [output_ had_error_ buffer_size_ total_bytes_ out_buffer_].
    split; [by rewrite Hlim'|]. destruct (Z.leb_spec (Z.of_nat (length (base ++ w))) lim); [|lia].
    split; [done|]. exists spare. rewrite Hst', Hst, <- app_assoc. split; [done|]. split; [done|].
    rewrite Htot, s32_small by lia. split; [done|]. by right.
  - right. destruct Hor as [[Hh Hle]|]; [|lia].
    destruct (next_end (output_ o) Hh Hs ltac:(by rewrite Hst, Hlim)) as (t & E & Ht & Hst' & Hlim').
    eexists. rewrite (st_bind_ok _ _ _ _ _ eq_refl), (st_lift_ok _ _ _ _ E). split; [done|]. intros bs Hbs.
    split; [done|]. cbn [output_ had_error_ buffer_size_ total_bytes_ out_buffer_]. split; [by rewrite Hlim'|].
    assert (length bs <> 0)%nat by (by destruct bs). rewrite !length_app in *.
    destruct (Z.leb_spec (Z.of_nat (length base + (length w + length bs))) lim); [lia|].
    split; [done|]. split; [done|]. split; [done|]. split; [done|]. split; [lia|]. rewrite Hst', Hst. split; [|lia].
    f_equal. rewrite take_app_length' by lia. done.
Qed.

(** Behind an error every refresh fails again. *)
Lemma overrun_refresh lim base w o : rep lim base w o -> lim < Z.of_nat (length (base ++ w)) ->
  exists o', OutRefresh o = Ok (false, o') /\ forall bs, rep lim base (w ++ bs) o'.
Proof.
  intros (Hs & Hlim & Hr) Hlt. destruct (Z.leb_spec (Z.of_nat (length (base ++ w))) lim); [lia|].
  destruct Hr as (Hh & He & Hz & Hn & Hb & Hst & Htot).
  assert (Z.of_nat (length (stored (output_ o))) = lim) as Hsl.
  { rewrite Hst. rewrite !length_app in *. rewrite length_take. lia. }
  destruct (next_end (output_ o) Hh Hs ltac:(by rewrite Hsl, Hlim)) as (t & E & Ht & Hst' & Hlim').
  unfold OutRefresh. eexists. rewrite (st_bind_ok _ _ _ _ _ eq_refl), (st_lift_ok _ _ _ _ E).
  split; [done|]. intros bs. split; [done|]. cbn [output_ had_error_ buffer_size_ total_bytes_].
  split; [by rewrite Hlim'|]. rewrite app_assoc, length_app.
  destruct (Z.leb_spec (Z.of_nat (length (base ++ w) + length bs)) lim); [lia|].
  repeat (split; [done|]). rewrite Hst', Hst. split; [|done]. f_equal.
  rewrite take_app_le by (rewrite !length_app in *; lia). done.
Qed.

(** The rounds a buffer needs besides those that the bytes need. *)
Definition first_rounds (o : CodedOutputStream T) : nat := if buffer_size_ o =? 0 then 2 else 1.

Lemma write_raw_exit data o o' : Z.of_nat (length data) <= buffer_size_ o ->
  (copy_out data;; OutAdvance (Z.of_nat (length data))) o = Ok (tt, o') ->
  write_raw_body data o = Ok (inr tt, o').
Proof.
  intros Hl E. unfold write_raw_body. rewrite (st_bind_ok _ _ _ _ _ eq_refl).
  destruct (Z.ltb_spec (buffer_size_ o) (Z.of_nat (length data))); [lia|].
  revert E. unfold mbind, ST_bind. destruct (copy_out data o) as [[[] o1]|]; [|done]. by intros [= <-].
Qed.

Lemma write_raw_more data o o1 b o2 : 0 <= buffer_size_ o < Z.of_nat (length data) ->
  copy_out (take (Z.to_nat (buffer_size_ o)) data) o = Ok (tt, o1) -> OutRefresh o1 = Ok (b, o2) ->
  write_raw_body data o =
  Ok (if b : bool then inl (drop (Z.to_nat (buffer_size_ o)) data) else inr tt, o2).
Proof.
  intros Hl E1 E2. unfold write_raw_body. rewrite (st_bind_ok _ _ _ _ _ eq_refl).
  destruct (Z.ltb_spec (buffer_size_ o) (Z.of_nat (length data))); [|lia].
  destruct (Z.ltb_spec (buffer_size_ o) 0); [lia|].
  rewrite (st_bind_ok _ _ _ _ _ E1), (st_bind_ok _ _ _ _ _ E2). done.
Qed.

(** No bytes, wherever the stream is. *)
Lemma advance_none lim base w o : rep lim base w o ->
  exists o', (copy_out [];; OutAdvance 0) o = Ok (tt, o') /\ rep lim base w o'.
Proof.
  intros (Hs & Hlim & Hr). eexists. split; [done|]. split; [done|]. split; [done|].
  cbn [output_ had_error_ buffer_size_ total_bytes_ out_buffer_]. rewrite Z.sub_0_r.
  destruct (_ <=? lim).
  - destruct Hr as (He & spare & Hst & Hsz & Htot & Hb). split; [done|]. exists spare. repeat (split; [done|]).
    destruct Hb as [[-> ->]|[-> Hret]]; [by left|right]. cbn. by rewrite Z.add_0_r.
  - destruct Hr as (Hh & He & Hz & -> & Hb). by repeat (split; [done|]).
Qed.

Lemma write_raw_loop lim base fuel : forall data w o, rep lim base w o ->
  hard \/ Z.of_nat (length (base ++ w ++ data)) <= lim -> (length data + first_rounds o <= fuel)%nat ->
  exists o', st_loop fuel write_raw_body data o = Ok (tt, o') /\ rep lim base (w ++ data) o'.
Proof.
  induction fuel as [|fuel IH]; intros data w o Hr Hor Hf; unfold first_rounds in Hf;
    [destruct (buffer_size_ o =? 0); lia|].
  pose proof Hr as (Hs & Hlim & Hr').
  assert (0 <= buffer_size_ o) as Hb0.
  { destruct (_ <=? lim); [destruct Hr' as (_ & spare & _ & -> & _)|destruct Hr' as (_ & _ & -> & _)]; lia. }
  destruct (Z.le_gt_cases (Z.of_nat (length data)) (buffer_size_ o)) as [Hle|Hgt].
  { destruct data as [|c data].
    - destruct (advance_none lim base w o Hr) as (o' & E & Hr2). exists o'. rewrite app_nil_r. split; [|done].
      by apply st_loop_exit, write_raw_exit.
    - destruct (direct_emits lim base w o (c :: data) Hr Hle) as (o' & E & Hr2); [done|done|].
      exists o'. split; [|done]. by apply st_loop_exit, write_raw_exit. }
  destruct (Z.leb_spec (Z.of_nat (length (base ++ w))) lim) as [Hfit|Hover].
  - destruct Hr' as (He & spare & Hst & Hsz & Htot & Hb).
    assert (Z.to_nat (buffer_size_ o) = length spare) as Hk by lia.
    rewrite Hsz in Hf, Hgt. set (bs := take (length spare) data).
    assert (length bs = length spare) as Hbs by (unfold bs; rewrite length_take; lia).
    destruct (copy_spare lim base w o spare bs Hr Hst Hsz He Hfit ltac:(lia)) as (t & E & Ht & Hlt & Hst' & Hret).
    rewrite Hbs, drop_all, app_nil_r in Hst'. unfold bs in E. rewrite <- Hk in E.
    destruct (refresh_spec lim base (w ++ bs)
      (mkoutput t (out_buffer_ o) (buffer_size_ o) (total_bytes_ o) false)) as [(o' & E2 & Hr2 & Hp)|(o' & E2 & Hr2)];
      try done; cbn [output_ total_bytes_].
    + rewrite length_app. lia.
    + destruct Hor as [Hh|Hl]; [left|right].
      * split; [done|]. pose proof (sound_limit t Hh Ht) as Hle. by rewrite Hst', Hlt in Hle.
      * rewrite !length_app in *. lia.
    + destruct (IH (drop (length spare) data) (w ++ bs) o' Hr2) as (o2 & E3 & Hr3).
      { by rewrite <- app_assoc; unfold bs; rewrite take_drop. }
      { unfold first_rounds. rewrite length_drop. destruct (Z.eqb_spec (buffer_size_ o') 0); [lia|].
        destruct (Z.eqb_spec (Z.of_nat (length spare)) 0); lia. }
      exists o2. unfold bs in Hr3. rewrite <- app_assoc, take_drop in Hr3. split; [|done]. rewrite <- E3.
      apply st_loop_next. by rewrite (write_raw_more data o _ _ _ ltac:(lia) E E2), Hk.
    + exists o'. split.
      * apply st_loop_exit. by rewrite (write_raw_more data o _ _ _ ltac:(lia) E E2).
      * rewrite <- (take_drop (length spare) data). fold bs. rewrite app_assoc.
        apply Hr2. intros Hd. apply (f_equal length) in Hd. rewrite length_drop in Hd. cbn in Hd. lia.
  - destruct (overrun_refresh lim base w o Hr ltac:(lia)) as (o' & E & Hr2). exists o'. split; [|apply Hr2].
    apply st_loop_exit. refine (write_raw_more data o o false o' ltac:(lia) _ E).
    by destruct Hr' as (_ & _ & -> & _).
Qed.

Lemma WriteRaw_emits bs : emits (WriteRaw bs) bs.
Proof.
  intros lim base w o Hr Hor. apply write_raw_loop; [done..|]. unfold out_rounds, first_rounds.
  destruct (_ =? _); lia.
Qed.

(** * The writers *)

Lemma emits_pick (b : CodedOutputStream T -> bool) bs : (length bs <> 0)%nat ->
  (forall o, b o = true -> Z.of_nat (length bs) <= buffer_size_ o) ->
  emits (o ← st_get;
         if b o then copy_out bs;; OutAdvance (Z.of_nat (length bs)) else WriteRaw bs) bs.
Proof.
  intros Hn Hb lim base w o Hr Hor. rewrite (st_bind_ok _ _ _ _ _ eq_refl).
  destruct (b o) eqn:E; [|by apply WriteRaw_emits]. by apply direct_emits; [|apply Hb|..].
Qed.

Lemma rep_buffer lim base w o : rep lim base w o -> 0 <= buffer_size_ o < 2 ^ 31.
Proof.
  intros (Hs & _ & Hr). pose proof (sound_size _ Hs) as Hl. destruct (_ <=? lim).
  - destruct Hr as (_ & spare & Hst & -> & _). rewrite Hst, !length_app in Hl. lia.
  - destruct Hr as (_ & _ & -> & _). lia.
Qed.

Lemma write_fixed_emits bs : (length bs <> 0)%nat -> emits (write_fixed bs) bs.
Proof.
  intros Hn lim base w o Hr Hor. pose proof (rep_buffer _ _ _ _ Hr) as Hb.
  unfold write_fixed. rewrite (st_bind_ok _ _ _ _ _ eq_refl), (uwrap_small 32) by lia.
  destruct (Z.leb_spec (Z.of_nat (length bs)) (buffer_size_ o)); [by apply direct_emits|by apply WriteRaw_emits].
Qed.

Lemma WriteLittleEndian32_emits v : emits (WriteLittleEndian32 v) (WriteLittleEndian32ToArray v).
Proof. by apply write_fixed_emits. Qed.

Lemma WriteLittleEndian64_emits v : emits (WriteLittleEndian64 v) (WriteLittleEndian64ToArray v).
Proof. by apply write_fixed_emits. Qed.

Lemma varint_bytes_spec n v : 0 <= v -> varint_bytes n v = base128 n v.
Proof.
  revert v. induction n as [|n IH]; intros v Hv; [done|]. cbn [varint_bytes base128].
  destruct (Z.ltb_spec 127 v), (Z.ltb_spec v 128); try lia.
  - rewrite IH by (by apply Z.shiftr_nonneg). rewrite Z.shiftr_div_pow2 by lia. f_equal.
    transitivity (u8 (Z.lor (Z.shiftr v 0) 0x80)).
    + change 0x80 with (Z.shiftl (Z.ones 1) 7). change 0x7F with (Z.ones 7). zbits.
    + rewrite byte_more by lia. change (2 ^ 0) with 1. by rewrite Z.div_1_r.
  - f_equal. change 0x7F with (Z.ones 7). rewrite Z.land_ones, uwrap_small by lia. apply Z.mod_small. lia.
Qed.

Lemma base128_nonempty n v : (n <> 0)%nat -> (length (base128 n v) <> 0)%nat.
Proof. destruct n; [done|]. intros _. cbn. by destruct (v <? 128). Qed.

Lemma base128_length_le n v : (length (base128 n v) <= n)%nat.
Proof. revert v. induction n as [|n IH]; intros v; cbn; [lia|]. destruct (v <? 128); cbn; [lia|]. specialize (IH (v / 128)). lia. Qed.

Lemma WriteVarint32_emits v : 0 <= v < 2 ^ 32 -> emits (WriteVarint32 v) (base128 5 v).
Proof.
  intros Hv lim base w o. unfold WriteVarint32.
  rewrite varint_bytes_spec, WriteVarint32FallbackToArray_spec by lia. change (Z.to_nat kMaxVarint32Bytes) with 5%nat.
  apply (emits_pick (fun o => kMaxVarint32Bytes <=? buffer_size_ o)); [by apply base128_nonempty|].
  intros o' Ho. pose proof (base128_length_le 5 v). unfold kMaxVarint32Bytes in Ho. lia.
Qed.

Lemma WriteVarint64_emits v : 0 <= v < 2 ^ 64 -> emits (WriteVarint64 v) (base128 10 v).
Proof.
  intros Hv lim base w o. unfold WriteVarint64.
  rewrite varint_bytes_spec, WriteVarint64ToArray_spec by lia. change (Z.to_nat kMaxVarintBytes) with 10%nat.
  apply (emits_pick (fun o => kMaxVarintBytes <=? buffer_size_ o)); [by apply base128_nonempty|].
  intros o' Ho. pose proof (base128_length_le 10 v). unfold kMaxVarintBytes in Ho. lia.
Qed.

Lemma WriteVarint32_array v : 0 <= v < 2 ^ 32 -> emits (WriteVarint32 v) (WriteVarint32ToArray v).
Proof. intros Hv. rewrite WriteVarint32ToArray_spec by done. by apply WriteVarint32_emits. Qed.

Lemma WriteVarint64_array v : 0 <= v < 2 ^ 64 -> emits (WriteVarint64 v) (WriteVarint64ToArray v).
Proof. intros Hv. rewrite WriteVarint64ToArray_spec by done. by apply WriteVarint64_emits. Qed.

Lemma WriteVarint32SignExtended_emits v :
  emits (WriteVarint32SignExtended v) (WriteVarint32SignExtendedToArray v).
Proof.
  unfold WriteVarint32SignExtended, WriteVarint32SignExtendedToArray.
  destruct (v <? 0); [apply WriteVarint64_array|apply WriteVarint32_array]; apply (uwrap_range _ v); lia.
Qed.

Lemma CodedWriteString_emits v : Z.of_nat (length v) < 2 ^ 31 -> emits (CodedWriteString v) v.
Proof.
  intros Hv. unfold CodedWriteString. rewrite s32_small by lia.
  destruct (Z.ltb_spec (Z.of_nat (length v)) 0); [lia|]. rewrite Nat2Z.id, firstn_all. apply WriteRaw_emits.
Qed.

Lemma MakeTag_u32 n ty : 0 <= ty < 8 -> 0 <= MakeTag n ty < 2 ^ 32.
Proof. intros Ht. apply lor_range; [lia|apply (uwrap_range 32); lia|lia]. Qed.

Lemma WriteTag_emits n ty : 0 <= ty < 8 -> emits (WriteTag n ty) (WriteTagToArray n ty).
Proof.
  intros Ht. pose proof (MakeTag_u32 n ty Ht). unfold WriteTagToArray. rewrite CodedWriteTagToArray_spec by done.
  by apply WriteVarint32_emits.
Qed.

Lemma length_varint_emits (v : list Z) :
  emits (WriteVarint32 (u32 (Z.of_nat (length v)))) (WriteVarint32ToArray (u32 (Z.of_nat (length v)))).
Proof. apply WriteVarint32_array, (uwrap_range 32). lia. Qed.

Lemma str_payload_emits v : Z.of_nat (length v) < 2 ^ 31 ->
  emits (WriteVarint32 (u32 (Z.of_nat (length v)));; CodedWriteString v) (str_payload v).
Proof. intros Hv. apply emits_seq; [apply length_varint_emits|by apply CodedWriteString_emits]. Qed.

Lemma WriteString_emits n v : Z.of_nat (length v) < 2 ^ 31 -> emits (WriteString n v) (WriteStringToArray n v).
Proof.
  intros Hv. apply emits_seq; [by apply WriteTag_emits|]. unfold INT_MAX. rewrite (uwrap_small 32) by lia.
  destruct (Z.ltb_spec 2147483647 (Z.of_nat (length v))); [lia|].
  pose proof (str_payload_emits v Hv) as He. unfold str_payload in He. by rewrite (uwrap_small 32) in He by lia.
Qed.

Lemma WriteBytes_emits n v : Z.of_nat (length v) < 2 ^ 31 -> emits (WriteBytes n v) (WriteBytesToArray n v).
Proof. exact (WriteString_emits n v). Qed.

(** ** Unknown fields *)

Lemma unknown_emits u : forall depth, unknown_ok depth u = true ->
  emits (SerializeUnknownField u) (SerializeUnknownFieldToArray u).
Proof.
  induction u as [n v|n v|n v|n v|n us IH] using UnknownField_nested_ind; intros depth Hu;
    cbn [unknown_ok] in Hu; apply andb_true_iff in Hu as [_ Hu].
  - apply (emits_seq _ _ (WriteTagToArray n WIRETYPE_VARINT)); [by apply WriteTag_emits|].
    unfold WriteInt64NoTagToArray. rewrite (uwrap_small 64) by lia. apply WriteVarint64_array. lia.
  - apply (emits_seq _ _ (WriteTagToArray n WIRETYPE_FIXED32)); [by apply WriteTag_emits|].
    apply WriteLittleEndian32_emits.
  - apply (emits_seq _ _ (WriteTagToArray n WIRETYPE_FIXED64)); [by apply WriteTag_emits|].
    apply WriteLittleEndian64_emits.
  - apply (emits_seq _ _ (WriteTagToArray n WIRETYPE_LENGTH_DELIMITED)); [by apply WriteTag_emits|].
    by apply str_payload_emits, str_ok_length.
  - apply andb_true_iff in Hu as [_ Hu]. cbn [SerializeUnknownField SerializeUnknownFieldToArray].
    apply (emits_seq _ _ (WriteTagToArray n WIRETYPE_START_GROUP)); [by apply WriteTag_emits|].
    apply emits_seq; [|by apply (WriteTag_emits n WIRETYPE_END_GROUP)].
    rewrite <- (app_nil_r (mjoin _)). apply emits_fold; [|apply emits_nil].
    intros x Hx. rewrite Forall_forall in IH. apply (IH x Hx (depth + 1)). by eapply forallb_elem.
Qed.

Lemma unknown_fields_emits us : (forall u, u ∈ us -> unknown_ok 0 u = true) ->
  emits (SerializeUnknownFields us) (SerializeUnknownFieldsToArray us).
Proof.
  intros Hu. unfold SerializeUnknownFieldsToArray. rewrite <- (app_nil_r (mjoin _)).
  apply emits_fold; [|apply emits_nil]. intros x Hx. by apply (unknown_emits x 0), Hu.
Qed.

(** ** Messages *)

Context `{AW : AliasedWriter T} `{!AliasedWriterLaws T}.

Lemma stream_int_emits t n v : in_range t v = true -> emits (stream_int t n v) (write_int t n v).
Proof.
  intros Hv.
  assert (forall ty m bs, 0 <= ty < 8 -> emits m bs -> emits (WriteTag n ty;; m) (WriteTagToArray n ty ++ bs)) as Htag.
  { intros ty m bs Ht Hm. apply emits_seq; [by apply WriteTag_emits|done]. }
  destruct t; cbn in Hv; try done; apply Htag; try done; unfold WriteInt32NoTag, WriteInt64NoTag, WriteSInt32NoTag;
    (apply WriteVarint32SignExtended_emits || apply WriteLittleEndian32_emits ||
     apply WriteLittleEndian64_emits || apply WriteVarint32_array || apply WriteVarint64_array); 
    first [lia|apply WireZigZag_range; lia|apply (uwrap_range 64); lia|destruct (v =? 0); lia].
Qed.

Lemma stream_str_emits t n v : Z.of_nat (length v) < 2 ^ 31 -> emits (stream_str t n v) (write_str t n v).
Proof. destruct t; intros Hv; (by apply WriteString_emits || by apply WriteBytes_emits || apply emits_nil). Qed.

Lemma stream_aliased_emits t n v : Z.of_nat (length v) < 2 ^ 31 -> emits (stream_aliased t n v) (write_str t n v).
Proof.
  intros Hv. destruct t; cbn; try apply emits_nil; rewrite ?aliased_string, ?aliased_bytes;
    [by apply WriteString_emits|by apply WriteBytes_emits].
Qed.

Lemma stream_field_emits msg w aliased : wf_member msg w = true ->
  emits (stream_field msg (w, aliased)) (write_field msg w).
Proof.
  intros Hw. unfold wf_member in Hw. unfold stream_field, write_field, get_rep, get_str, get_int.
  destruct (members msg !! w_member w) as [[v|v|l]|]; [..|done];
    repeat (apply andb_true_iff in Hw as [Hw ?]); cbn [default from_option] in *.
  - destruct (w_repeated w); [done|]. destruct (has _ _); [|apply emits_nil].
    destruct (is_string (w_type w)); [done|]. by apply stream_int_emits.
  - destruct (w_repeated w); [done|]. destruct (has _ _); [|apply emits_nil]. rewrite H3.
    destruct aliased; [apply stream_aliased_emits|apply stream_str_emits]; by apply str_ok_length.
  - rewrite Hw. rewrite <- (app_nil_r (mjoin _)). apply emits_fold; [|apply emits_nil].
    intros x Hx. apply stream_str_emits, str_ok_length. by eapply forallb_elem.
Qed.

Lemma SerializeWithCachedSizes_emits K ws msg : msg_facts K msg -> fst <$> ws = k_writes K ->
  emits (SerializeWithCachedSizes ws msg) (SerializeWithCachedSizesToArray K msg).
Proof.
  intros Hm Hws. unfold SerializeWithCachedSizes, SerializeWithCachedSizesToArray. rewrite <- Hws.
  rewrite <- list_fmap_compose. apply emits_fold.
  - intros [w aliased] Hw. apply stream_field_emits, (m_member _ _ Hm). rewrite <- Hws.
    by apply (list_elem_of_fmap_2 fst ws (w, aliased)).
  - apply unknown_fields_emits. intros u Hu. apply (m_unknown _ _ Hm) in Hu.
    by apply andb_true_iff in Hu as [Hu _].
Qed.

(** * Whole streams *)

Lemma new_rep t : sound t -> hard \/ Z.of_nat (length (stored t)) < limit t ->
  exists o, CodedOutputStream_new t = Ok o /\ rep (limit t) (stored t) [] o.
Proof.
  intros Ht Hor. unfold CodedOutputStream_new.
  assert (hard /\ Z.of_nat (length (stored t ++ [])) <= limit t \/
          Z.of_nat (length (stored t ++ [])) < limit t) as Hor'.
  { rewrite app_nil_r. destruct Hor as [Hh|]; [left; split; [done|by apply sound_limit]|by right]. }
  destruct (refresh_spec (limit t) (stored t) [] (mkoutput t None 0 0 false) Ht eq_refl)
    as [(o & E & Hr & _)|(o & E & Hr)]; try done; [by rewrite app_nil_r| |].
  - rewrite (res_bind_ok _ _ _ E). eexists. split; [done|]. cbn [snd]. destruct Hr as (Hs & Hl & Hr).
    split; [done|]. split; [done|]. cbn [output_ had_error_ buffer_size_ total_bytes_ out_buffer_].
    assert (Z.of_nat (length (stored t ++ [])) <= limit t) by (destruct Hor' as [[]|]; lia).
    destruct (Z.leb_spec (Z.of_nat (length (stored t ++ []))) (limit t)); [|lia].
    by destruct Hr as (_ & Hr).
  - rewrite (res_bind_ok _ _ _ E). eexists. split; [done|]. cbn [snd].
    assert (Z.of_nat (length (stored t ++ [])) <= limit t) by (destruct Hor' as [[]|]; lia).
    destruct (Hr [0] ltac:(done)) as (Hs & Hl & Hr'). split; [done|]. split; [done|].
    cbn [output_ had_error_ buffer_size_ total_bytes_ out_buffer_].
    destruct (Z.leb_spec (Z.of_nat (length (stored t ++ []))) (limit t)); [|lia].
    split; [done|]. exists [].
    unfold OutRefresh in E. rewrite (st_bind_ok _ _ _ _ _ eq_refl) in E. cbn [output_] in E.
    unfold st_lift in E. revert E. unfold mbind at 1, ST_bind at 1.
    destruct (Next t) as [[[[p n]|] t']|] eqn:En; [done| |done]. intros [= <-].
    cbn [app output_ had_error_ buffer_size_ total_bytes_ out_buffer_] in *.
    destruct (Z.leb_spec (Z.of_nat (length (stored t ++ [0]))) (limit t)).
    + exfalso. rewrite app_nil_r, length_app in *. cbn in *.
      destruct (next_more t Ht ltac:(lia)) as (spare & t2 & E2 & _). by rewrite En in E2.
    + destruct Hr' as (_ & _ & _ & _ & Hle & Hst & Htot). rewrite app_nil_r, length_app in *. cbn [length] in *.
      replace (Z.to_nat (limit t - Z.of_nat (length (stored t)))) with 0%nat in Hst by lia.
      rewrite Hst. cbn [take]. split; [by rewrite app_nil_r|]. split; [done|]. split; [done|]. by left.
Qed.

Lemma destroy_rep lim base w o : rep lim base w o ->
  exists t', CodedOutputStream_destroy o = Ok t' /\
    stored t' = (if Z.of_nat (length (base ++ w)) <=? lim then base ++ w
                 else take (Z.to_nat lim) (base ++ w)) /\
    ByteCount t' = Z.of_nat (length (stored t')).
Proof.
  intros (Hs & Hlim & Hr). unfold CodedOutputStream_destroy.
  destruct (Z.leb_spec (Z.of_nat (length (base ++ w))) lim).
  - destruct Hr as (He & spare & Hst & -> & Htot & Hb). destruct (Z.ltb_spec 0 (Z.of_nat (length spare))).
    + destruct Hb as [[-> _]|[_ Hret]]; [cbn in *; lia|].
      destruct (backup_stored (output_ o) (base ++ w) spare Hs ltac:(by rewrite <- app_assoc) ltac:(lia))
        as (t' & E & Hst' & Hc). exists t'. by rewrite Hst'.
    + exists (output_ o). assert (spare = []) as -> by (destruct spare; [done|cbn in *; lia]).
      rewrite Hst, app_nil_r. split; [done|]. split; [done|].
      rewrite sound_count by done. by rewrite Hst, app_nil_r.
  - destruct Hr as (Hh & He & -> & _ & Hb & Hst & Htot). exists (output_ o). split; [done|].
    split; [|by apply sound_count]. rewrite Hst, take_app.
    rewrite (take_ge base) by lia. f_equal. f_equal. lia.
Qed.

(** The error flag and the count. *)
Lemma rep_error lim base w o : rep lim base w o -> had_error_ o = (lim <? Z.of_nat (length (base ++ w))).
Proof.
  intros (_ & _ & Hr). destruct (Z.leb_spec (Z.of_nat (length (base ++ w))) lim), (Z.ltb_spec lim (Z.of_nat (length (base ++ w))));
    try lia; [by destruct Hr as [-> _]|by destruct Hr as (_ & -> & _)].
Qed.

Lemma rep_count lim base w o : rep lim base w o ->
  OutByteCount o = Z.min (Z.of_nat (length w)) (lim - Z.of_nat (length base)).
Proof.
  intros (_ & _ & Hr). unfold OutByteCount. rewrite length_app in Hr.
  destruct (Z.leb_spec (Z.of_nat (length base + length w)) lim).
  - destruct Hr as (_ & spare & _ & -> & -> & _). lia.
  - destruct Hr as (_ & _ & -> & _ & _ & _ & ->). lia.
Qed.

(** A direct buffer: what its holder writes to it is written. *)
Lemma GetDirect_spec lim base w o size : rep lim base w o -> 0 <= size ->
  exists o1, GetDirectBufferForNBytesAndAdvance size o =
      Ok (if buffer_size_ o <? size then None else out_buffer_ o, o1) /\
    ((buffer_size_ o < size \/ out_buffer_ o = None) /\ rep lim base w o1 \/
     size <= buffer_size_ o /\ Z.of_nat (length (base ++ w)) <= lim /\
     out_buffer_ o = Some (Z.of_nat (length (base ++ w))) /\
     forall bs, Z.of_nat (length bs) = size ->
       exists t', lend (Z.of_nat (length (base ++ w))) bs (output_ o1) = Ok t' /\
         (hard \/ Z.of_nat (length (base ++ w ++ bs)) <= lim ->
          Z.of_nat (length (base ++ w ++ bs)) <= lim /\
          rep lim base (w ++ bs) (mkoutput t' (out_buffer_ o1) (buffer_size_ o1) (total_bytes_ o1) (had_error_ o1)))).
Proof.
  intros Hr Hsize. pose proof Hr as (Hs & Hlim & Hr'). unfold GetDirectBufferForNBytesAndAdvance.
  rewrite (st_bind_ok _ _ _ _ _ eq_refl). destruct (Z.ltb_spec (buffer_size_ o) size).
  { exists o. split; [done|]. left. split; [by left|done]. }
  rewrite (st_bind_ok _ _ _ _ _ eq_refl). eexists. split; [done|].
  cbn [output_ had_error_ buffer_size_ total_bytes_ out_buffer_].
  destruct (out_buffer_ o) as [p|] eqn:Ep.
  - right. split; [done|]. destruct (Z.leb_spec (Z.of_nat (length (base ++ w))) lim);
      [|by destruct Hr' as (_ & _ & _ & Hn & _)]. split; [done|].
    destruct Hr' as (He & spare & Hst & Hsz & Htot & [[_ ?]|[[= ->] Hret]]); [done|]. split; [done|].
    intros bs Hbs.
    destruct (lend_stored (output_ o) (base ++ w) (take (length bs) spare) (drop (length bs) spare) bs Hs)
      as (t' & E & Ht & Hst' & Hl' & Hret'); [by rewrite take_drop, <- app_assoc|rewrite length_take; lia|].
    exists t'. split; [done|]. intros Hor.
    assert (Z.of_nat (length (base ++ w ++ bs)) <= lim) as Hfit.
    { destruct Hor as [Hh|]; [|done]. pose proof (sound_limit (output_ o) Hh Hs) as Hle. rewrite Hst, Hlim in Hle.
      rewrite !length_app in *. lia. }
    split; [done|]. split; [done|]. cbn [output_ had_error_ buffer_size_ total_bytes_ out_buffer_].
    split; [by rewrite Hl'|]. destruct (Z.leb_spec (Z.of_nat (length (base ++ w ++ bs))) lim); [|lia].
    split; [done|]. exists (drop (length bs) spare). rewrite Hst', <- !app_assoc. split; [done|].
    rewrite length_drop, length_app. split; [lia|]. split; [lia|]. right. rewrite Hret'. cbn.
    rewrite !length_app. split; [f_equal; lia|lia].
  - left. split; [by right|]. split; [done|]. split; [done|].
    cbn [output_ had_error_ buffer_size_ total_bytes_ out_buffer_ fmap option_fmap option_map].
    destruct (_ <=? lim).
    + destruct Hr' as (He & spare & Hst & Hsz & Htot & [[-> _]|[? _]]); [|done]. split; [done|]. exists [].
      cbn in Hsz. assert (size = 0) as -> by lia. rewrite Z.sub_0_r. repeat (split; [done|]). by left.
    + destruct Hr' as (Hh & He & Hz & Hn & Hb). assert (size = 0) as -> by lia. rewrite Z.sub_0_r.
      by repeat (split; [done|]).
Qed.

Lemma SerializeToCodedStream_spec K ws msg lim base w o : class_facts K -> msg_facts K msg ->
  fst <$> ws = k_writes K -> rep lim base w o ->
  let bs := SerializeWithCachedSizesToArray K msg in
  Z.of_nat (length bs) < 2 ^ 31 -> hard \/ Z.of_nat (length (base ++ w ++ bs)) <= lim ->
  exists o', SerializeToCodedStream K ws msg o =
      Ok (Z.of_nat (length (base ++ w ++ bs)) <=? lim,
          mkmsg (has_bits_ msg) (members msg) (unknown_fields_ msg) (Z.of_nat (length bs)), o') /\
    rep lim base (w ++ bs) o'.
Proof.
  intros HK Hm Hws Hr bs Hl31 Hor. unfold SerializeToCodedStream.
  pose proof (ByteSize_exact K HK msg Hm Hl31 : fst (ByteSize K msg) = Z.of_nat (length bs)) as Es. unfold ByteSize in *. cbn [fst] in Es. rewrite Es.
  set (msg' := mkmsg _ _ _ (Z.of_nat (length bs))).
  assert (msg_facts K msg') as Hm' by (destruct Hm; by constructor).
  change (SerializeWithCachedSizesToArray K msg') with bs.
  assert (forall o' : CodedOutputStream T, rep lim base (w ++ bs) o' -> had_error_ o' = true ->
    (Z.of_nat (length (base ++ w ++ bs)) <=? lim) = false) as Herr.
  { intros o' Hr' He. rewrite (rep_error _ _ _ _ Hr') in He. lia. }
  destruct (GetDirect_spec lim base w o (Z.of_nat (length bs)) Hr ltac:(lia)) as (o1 & E1 & Hcase).
  rewrite (st_bind_ok _ _ _ _ _ E1). destruct Hcase as [[Hno Hr1]|(Hle & Hfit & Hp & Hd)].
  2:{ destruct (Z.ltb_spec (buffer_size_ o) (Z.of_nat (length bs))); [lia|]. rewrite Hp.
      rewrite (st_bind_ok _ _ _ _ _ eq_refl). destruct (Hd bs eq_refl) as (t' & E2 & Hr2).
      destruct (Hr2 Hor) as [Hfit2 Hr3].
      rewrite (st_lift_ok _ _ _ _ E2), (st_bind_ok _ _ _ _ _ eq_refl), (s32_small (Z.of_nat (length bs))), Z.eqb_refl by lia. eexists. split; [|exact Hr3].
      by destruct (Z.leb_spec (Z.of_nat (length (base ++ w ++ bs))) lim); [|lia]. }
  assert ((if buffer_size_ o <? Z.of_nat (length bs) then None else out_buffer_ o) = None) as ->.
  { destruct Hno as [Hlt| ->]; [|by destruct (_ <? _)]. by destruct (Z.ltb_spec (buffer_size_ o) (Z.of_nat (length bs))); [|lia]. }
  rewrite (st_bind_ok _ _ _ _ _ eq_refl). clear Hr. rename o1 into o2, Hr1 into Hr.
  destruct (SerializeWithCachedSizes_emits K ws msg' Hm' Hws lim base w o2 Hr Hor) as (o' & E2 & Hr2).
  change (SerializeWithCachedSizesToArray K msg') with bs in Hr2.
  rewrite (st_bind_ok _ _ _ _ _ E2), (st_bind_ok _ _ _ _ _ eq_refl).
  exists o'. split; [|done]. pose proof (rep_error _ _ _ _ Hr2) as He.
  pose proof (rep_count _ _ _ _ Hr2) as Hc. pose proof (rep_count _ _ _ _ Hr) as Hc0.
  destruct (had_error_ o') eqn:Eh; [by rewrite (Herr o')|].
  symmetry in He. apply Z.ltb_ge in He. rewrite Hc, Hc0. rewrite !length_app in *.
  match goal with |- context [?a =? ?b] => destruct (Z.eqb_spec a b); [|lia] end.
  by destruct (Z.leb_spec (Z.of_nat (length base + (length w + length bs))) lim); [|lia].
Qed.
End Emits.
