(* ===== verification/TextSpec.v ===== *)
(** The text of a message as a tree: lines and blocks, indented by their depth; the tree of a
    set of unknown fields and of a message; and the proof that the printer writes it. *)

From stdpp Require Import sorting.
From S2P Require Import Prelude CMem Coded CodedSpec CodedStream Wire Messages NetMessages WireSpec MsgSpec WireTrip.
From S2P Require Import MsgTables MsgTrip.
From S2P Require Import UnknownSpec StrUtil Numerals StrUtilProofs Escape EscapeProofs FloatText.
From S2P Require Import TextGen TextGenProofs TextFormat.

(** * Trees *)

Inductive item :=
  | Line (l : list Z)
  | Block (head : list Z) (body : list item).

Definition two_spaces : list Z := [32; 32].

Fixpoint item_text (indent : list Z) (i : item) : list Z :=
  match i with
  | Line l => indent ++ l ++ [10]
  | Block head body =>
      indent ++ head ++ [32; 123; 10] ++ concat (item_text (indent ++ two_spaces) <$> body) ++
      indent ++ [125; 10]
  end.

Definition items_text (indent : list Z) (l : list item) : list Z := concat (item_text indent <$> l).

Lemma items_text_cons indent i l : items_text indent (i :: l) = item_text indent i ++ items_text indent l.
Proof. done. Qed.

Lemma items_text_app indent l k : items_text indent (l ++ k) = items_text indent l ++ items_text indent k.
Proof. unfold items_text. by rewrite fmap_app, concat_app. Qed.

Definition quoted (v : list Z) : list Z := 34 :: v ++ [34].

(** The message that a value can be read as; an empty value is not one. *)
Definition embedded_fields (v : list Z) : option (list UnknownField) :=
  if bool_decide (v = []) then None else unknown_fields_of v.

(** The tree of a set of unknown fields. *)
Fixpoint unknown_items (fuel : nat) (us : list UnknownField) : list item :=
  match fuel with
  | O => []
  | S fuel =>
      (fun u => match u with
       | UVarint n v => Line (int_text n ++ [58; 32] ++ int_text v)
       | UFixed32 n v => Line (int_text n ++ [58; 32; 48; 120] ++ fixed 16 hex_digit 8 v)
       | UFixed64 n v => Line (int_text n ++ [58; 32; 48; 120] ++ fixed 16 hex_digit 16 v)
       | ULengthDelimited n v =>
           match embedded_fields v with
           | Some us => Block (int_text n) (unknown_items fuel us)
           | None => Line (int_text n ++ [58; 32] ++ quoted (escaped false false false v))
           end
       | UGroup n us => Block (int_text n) (unknown_items fuel us)
       end) <$> us
  end.

(** * Weights: a bound of the depth *)

Fixpoint weight (u : UnknownField) : nat :=
  match u with
  | ULengthDelimited _ v => S (length v)
  | UGroup _ us => S (sum_list_with weight us)
  | _ => 1
  end.

Definition weights (us : list UnknownField) : nat := sum_list_with weight us.

Lemma weight_elem u us : u ∈ us -> (weight u <= weights us)%nat.
Proof. unfold weights. induction 1; cbn in *; lia. Qed.

Lemma unknown_weight n :
  (forall depth tag bs u r, unknown_field n depth tag bs = Some (u, r) ->
     (weight u + length r <= length bs)%nat) /\
  (forall depth bs us t r, unknown_group n depth bs = Some (us, t, r) ->
     (S (weights us) + length r <= length bs)%nat).
Proof.
  induction n as [|n [IHf IHg]]; [done|]. split.
  - intros depth tag bs u r E. cbn [unknown_field] in E.
    assert (forall k, 0 < k -> forall v r', little_endian k bs = Some (v, r') -> (1 + length r' <= length bs)%nat) as Hle.
    { intros k Hk v r' El. unfold little_endian in El. destruct (take_bytes k bs) as [[a r1]|] eqn:Et; [|done].
      injection El as _ <-. apply take_bytes_some in Et as [-> Ea]. rewrite length_app. lia. }
    pose proof (wire_type_range tag) as Hw. remember (GetTagWireType tag) as ty eqn:Ety.
    assert (ty = 0 \/ ty = 1 \/ ty = 2 \/ ty = 3 \/ ty = 4 \/ ty = 5 \/ ty = 6 \/ ty = 7)
      as Hty by lia.
    destruct Hty as [->|[->|[->|[->|[->|[->|[->| ->]]]]]]]; try done.
    + apply map_fst_some in E as (v & E & ->). unfold varint64 in E.
      destruct (varint 10 bs) as [[v' r']|] eqn:Ev; [|done]. injection E as _ <-.
      apply varint_suffix in Ev as (a & -> & Ha). rewrite length_app. cbn [weight]. lia.
    + apply map_fst_some in E as (v & E & ->). by apply (Hle 8) in E.
    + apply map_fst_some in E as (v & E & ->). unfold string_of in E.
      destruct (varint32 bs) as [[len r1]|] eqn:Ev; [|done]. apply varint32_split in Ev as (_ & a & -> & Ha).
      apply take_bytes_some in E as [-> _]. rewrite !length_app. cbn [weight]. lia.
    + destruct (depth + 1 <=? default_recursion_limit_); [|done].
      destruct (unknown_group n (depth + 1) bs) as [[[us t] r']|] eqn:Eg; [|done].
      destruct (t =? MakeTag (GetTagFieldNumber tag) WIRETYPE_END_GROUP); [|done].
      injection E as <- <-. by apply IHg in Eg.
    + apply map_fst_some in E as (v & E & ->). by apply (Hle 4) in E.
  - intros depth bs us t r E. cbn [unknown_group] in E.
    destruct (varint32 bs) as [[tag r1]|] eqn:Ev; [|done].
    apply varint32_split in Ev as (Ht & a & -> & Ha). rewrite length_app.
    destruct (tag =? 0); [done|]. destruct (GetTagWireType tag =? WIRETYPE_END_GROUP).
    { injection E as <- _ <-. cbn. lia. }
    destruct (unknown_field n depth tag r1) as [[u r2]|] eqn:Eu; [|done].
    destruct (unknown_group n depth r2) as [[[us2 t2] r3]|] eqn:Eg; [|done].
    injection E as <- _ <-. apply IHf in Eu. apply IHg in Eg. unfold weights in *. cbn [sum_list_with] in *. lia.
Qed.

(** The fields of a set weigh less than the bytes, and are well formed. *)
Lemma unknown_set_facts n : forall bs us, Forall is_byte bs -> unknown_set n bs = Some us ->
  (weights us <= length bs)%nat /\ Forall (fun u => unknown_ok 0 u = true) us.
Proof.
  induction n as [|n IH]; intros bs us Hb E; [done|]. cbn [unknown_set] in E.
  destruct bs as [|b bs]; [injection E as <-; by split; [cbn; lia|]|].
  set (l := b :: bs) in *. clearbody l.
  destruct (varint32 l) as [[t r]|] eqn:Ev; [|done].
  apply varint32_split in Ev as (Ht & a & -> & Ha). rewrite length_app.
  apply Forall_app in Hb as [_ Hb]. destruct (Z.eqb_spec t 0); [done|].
  destruct (GetTagWireType t =? WIRETYPE_END_GROUP); [done|]. cbn [orb] in E.
  destruct (unknown_field n 0 t r) as [[u r']|] eqn:Eu; [|done].
  destruct (proj1 (unknown_typed n) _ _ _ _ _ Ht n0 Hb Eu) as (Hok & _ & a' & ->).
  apply (proj1 (unknown_weight n)) in Eu. apply Forall_app in Hb as [_ Hb].
  destruct (unknown_set n r') as [us'|] eqn:Es; [|done]. injection E as <-.
  destruct (IH _ _ Hb Es) as [Hw Hoks]. split; [|by constructor].
  rewrite length_app in *. unfold weights in *. cbn. lia.
Qed.

Lemma embedded_facts v us : Forall is_byte v -> embedded_fields v = Some us ->
  (weights us <= length v)%nat /\ Forall (fun u => unknown_ok 0 u = true) us.
Proof.
  unfold embedded_fields. case_bool_decide; [done|]. apply unknown_set_facts.
Qed.

(** More fuel than weight does not change the tree. *)
Lemma unknown_items_more n : forall k us, (weights us < n <= k)%nat ->
  Forall (fun u => unknown_ok 0 u = true \/ exists d, unknown_ok d u = true) us ->
  unknown_items k us = unknown_items n us.
Proof.
  induction n as [|n IH]; intros k us Hk Hu; [lia|]. destruct k as [|k]; [lia|].
  cbn [unknown_items]. apply map_ext_in. intros u Hin. apply list_elem_of_In in Hin.
  pose proof (weight_elem u us Hin) as Hw. rewrite Forall_forall in Hu.
  assert (exists d, unknown_ok d u = true) as [d Hok] by (destruct (Hu u Hin); eauto).
  destruct u as [| | |m v|m g]; try done; cbn [unknown_ok weight] in *; apply andb_true_iff in Hok as [_ Hok].
  - destruct (embedded_fields v) as [us'|] eqn:E; [|done]. f_equal.
    destruct (embedded_facts v us' (str_ok_bytes _ Hok) E) as [Hw' Hok'].
    apply IH; [unfold weights in *; lia|]. eapply Forall_impl; [exact Hok'|]. by left.
  - f_equal. apply andb_true_iff in Hok as [_ Hok]. apply IH; [unfold weights in *; lia|].
    apply Forall_forall. intros x Hx. right. exists (d + 1). rewrite forallb_forall in Hok.
    by apply Hok, list_elem_of_In.
Qed.

(** * Printing *)

(** No line break in what is printed. *)
Lemma no_newline (P : Z -> Prop) l : Forall P l -> ~ P 10 -> 10 ∉ l.
Proof. intros Hl H10 Hin. rewrite Forall_forall in Hl. by apply H10, Hl. Qed.

Lemma int_text_line i : 10 ∉ int_text i.
Proof. eapply no_newline; [apply int_text_chars|]. unfold is_dec. lia. Qed.

Lemma hex_line k n : 10 ∉ fixed 16 hex_digit k n.
Proof. eapply no_newline; [apply fixed_hex_chars|]. unfold is_dec. lia. Qed.

Lemma escaped_line v : Forall is_byte v -> 10 ∉ escaped false false false v.
Proof. intros Hv. eapply no_newline; [by apply escaped_print|]. done. Qed.

Ltac no_line := repeat (rewrite not_elem_of_app || rewrite not_elem_of_cons); repeat split;
  try done; try apply not_elem_of_nil; auto using int_text_line, hex_line, escaped_line.

Section Print.
Context `{GL : StringGrowthLaws}.
Context (junk : list Z) (data_at : Z).

Abbreviation Gen := (ST TextGenerator).

(** [c] prints [t] in a line with the given indent. *)
Definition emits (c : Gen unit) (start : bool) (indent t : list Z) : Prop :=
  forall out g, printed out start indent g ->
  Z.of_nat (length out + length (render start indent t)) < text_limit ->
  exists g', c g = Ok (tt, g') /\ printed (out ++ render start indent t) (ends start t) indent g'.

Lemma emits_print start indent t : emits (Print t) start indent t.
Proof. intros out g. apply Print_spec. Qed.

Lemma emits_bind c d start indent t u :
  emits c start indent t -> emits d (ends start t) indent u -> emits (c;; d) start indent (t ++ u).
Proof.
  intros Hc Hd out g Hp Hl. rewrite render_app, length_app in Hl.
  destruct (Hc out g Hp ltac:(lia)) as (g1 & E1 & H1). rewrite (st_bind_ok _ _ _ _ _ E1).
  destruct (Hd _ g1 H1) as (g2 & E2 & H2); [rewrite length_app; lia|].
  exists g2. split; [done|]. by rewrite render_app, ends_app, app_assoc.
Qed.

Lemma emits_lift {A} (r : result A) (k : A -> Gen unit) v start indent t : r = Ok v ->
  emits (k v) start indent t -> emits (v ← st_lift r; k v) start indent t.
Proof. intros -> Hk out g Hp Hl. rewrite (st_bind_ok _ _ _ _ _ eq_refl). by apply Hk. Qed.

(** [c] prints whole lines, indented already. *)
Definition appends (c : Gen unit) (indent t : list Z) : Prop :=
  forall out g, printed out true indent g -> Z.of_nat (length out + length t) < text_limit ->
  exists g', c g = Ok (tt, g') /\ printed (out ++ t) true indent g'.

Lemma appends_nothing indent : appends (mret tt) indent [].
Proof. intros out g Hp _. exists g. by rewrite app_nil_r. Qed.

Lemma appends_bind c d indent t u : appends c indent t -> appends d indent u -> appends (c;; d) indent (t ++ u).
Proof.
  intros Hc Hd out g Hp Hl. rewrite length_app in Hl.
  destruct (Hc out g Hp ltac:(lia)) as (g1 & E1 & H1). rewrite (st_bind_ok _ _ _ _ _ E1).
  destruct (Hd _ g1 H1) as (g2 & E2 & H2); [rewrite length_app; lia|].
  exists g2. by rewrite app_assoc.
Qed.

Lemma render_whole_line indent l : 10 ∉ l -> render true indent (l ++ [10]) = indent ++ l ++ [10].
Proof.
  intros Hn. rewrite render_app. destruct l as [|c l]; [done|].
  rewrite render_line by done. assert (ends true (c :: l) = false) as ->; [|by rewrite <- app_assoc].
  unfold ends. destruct (last (c :: l)) as [x|] eqn:E; [|by apply last_None in E].
  apply last_Some in E as [l' E]. rewrite E in Hn. apply not_elem_of_app in Hn as [_ Hn].
  apply not_elem_of_cons in Hn as [Hn _]. by destruct (Z.eqb_spec x 10).
Qed.

Lemma appends_line c indent l : 10 ∉ l -> emits c true indent (l ++ [10]) -> appends c indent (item_text indent (Line l)).
Proof.
  intros Hn Hc out g Hp Hl. cbn [item_text] in *. rewrite <- render_whole_line in * by done.
  destruct (Hc out g Hp Hl) as (g' & E & H'). exists g'. split; [done|].
  by rewrite ends_app in H'.
Qed.

(** A block: its opening, the lines inside, its end. *)
Lemma open_spec (head indent : list Z) out g : 10 ∉ head -> printed out true indent g ->
  Z.of_nat (length out + length (indent ++ head ++ [32; 123; 10])) < text_limit ->
  exists g', (Print head;; Print [32; 123; 10];; Indent) g = Ok (tt, g') /\
    printed (out ++ indent ++ head ++ [32; 123; 10]) true (indent ++ two_spaces) g'.
Proof.
  intros Hn Hp Hl.
  assert (render true indent (head ++ [32; 123; 10]) = indent ++ head ++ [32; 123; 10]) as Er.
  { change [32; 123; 10] with ([32; 123] ++ [10]). rewrite app_assoc. rewrite render_whole_line; [done|].
    intros Hin. apply elem_of_app in Hin as [Hin|Hin]; [done|].
    repeat (apply elem_of_cons in Hin as [Hin|Hin]; [done|]). by apply elem_of_nil in Hin. }
  destruct (emits_bind _ _ _ _ _ _ (emits_print true indent head) (emits_print (ends true head) indent [32; 123; 10])
    out g Hp) as (g1 & E1 & H1); [by rewrite Er|].
  rewrite Er, ends_app in H1. change (ends _ [32; 123; 10]) with true in H1.
  destruct (Indent_spec _ _ _ _ H1) as (g2 & E2 & H2). exists g2. split; [|exact H2].
  unfold mbind, ST_bind in *. destruct (Print head g) as [[[] g0]|]; [|done]. by rewrite E1.
Qed.

Definition print_block (head : list Z) (body : Gen unit) : Gen unit :=
  Print head;; (Print [32; 123; 10];; Indent);; body;; (Outdent;; Print [125; 10]).
Definition block_text (head indent t : list Z) : list Z :=
  indent ++ head ++ [32; 123; 10] ++ t ++ indent ++ [125; 10].

Lemma print_block_opened head body g g' : (Print head;; Print [32; 123; 10];; Indent) g = Ok (tt, g') ->
  print_block head body g = (body;; (Outdent;; Print [125; 10])) g'.
Proof.
  unfold print_block, mbind, ST_bind. intros E. destruct (Print head g) as [[[] g0]|]; [|done].
  destruct (Print [32; 123; 10] g0) as [[[] g1]|]; [|done]. by rewrite E.
Qed.

Lemma appends_block (head : list Z) body indent t : 10 ∉ head ->
  appends body (indent ++ two_spaces) t -> appends (print_block head body) indent (block_text head indent t).
Proof.
  intros Hn Hb out g Hp Hl. unfold block_text in *.
  assert (render true indent [125; 10] = indent ++ [125; 10]) as Ec.
  { apply (render_whole_line indent [125]). apply not_elem_of_cons. split; [done|apply not_elem_of_nil]. }
  rewrite !length_app in Hl.
  destruct (open_spec head indent out g Hn Hp) as (g2 & E2 & H2); [rewrite !length_app; lia|].
  destruct (Hb _ _ H2) as (g3 & E3 & H3); [rewrite !length_app; lia|].
  destruct (Outdent_spec _ _ _ _ H3) as (g4 & E4 & H4).
  destruct (Print_spec [125; 10] _ _ _ _ H4) as (g5 & E5 & H5).
  { rewrite Ec, !length_app. lia. }
  exists g5. split.
  - rewrite (print_block_opened _ _ _ _ E2). unfold mbind, ST_bind in *. rewrite E3, E4. exact E5.
  - rewrite Ec in H5. rewrite <- !app_assoc in *. exact H5.
Qed.

(** [c] runs out of the depth it is given, as far as the text's length lets it come. *)
Definition too_deep (c : Gen unit) (indent t : list Z) : Prop :=
  forall out g, printed out true indent g -> Z.of_nat (length out + length t) < text_limit ->
  c g = Fault OutOfFuel.

Lemma too_deep_block (head : list Z) body indent t : 10 ∉ head ->
  too_deep body (indent ++ two_spaces) t -> too_deep (print_block head body) indent (block_text head indent t).
Proof.
  intros Hn Hb out g Hp Hl. unfold block_text in *. rewrite !length_app in Hl.
  destruct (open_spec head indent out g Hn Hp) as (g2 & E2 & H2); [rewrite !length_app; lia|].
  rewrite (print_block_opened _ _ _ _ E2). apply st_bind_fault, (Hb _ _ H2). rewrite !length_app. lia.
Qed.

Lemma appends_ext (c d : Gen unit) indent t : (forall g, c g = d g) -> appends c indent t -> appends d indent t.
Proof. intros E Hc out g. rewrite <- E. apply Hc. Qed.

(** [number: value], the value from a computation. *)
Lemma emits_field r head v mid start indent : r = Ok v ->
  emits (Print head;; Print mid;; x ← st_lift r; Print x;; Print [10]) start indent
    (head ++ mid ++ v ++ [10]).
Proof.
  intros E. apply emits_bind; [apply emits_print|]. apply emits_bind; [apply emits_print|].
  eapply emits_lift; [exact E|]. apply emits_bind; apply emits_print.
Qed.

Lemma emits_quoted r v start indent : r = Ok v -> emits (print_quoted r) start indent (quoted v).
Proof.
  intros E. unfold print_quoted, quoted. change (34 :: v ++ [34]) with ([34] ++ v ++ [34]).
  apply emits_bind; [apply emits_print|]. eapply emits_lift; [exact E|].
  apply emits_bind; apply emits_print.
Qed.

Definition print_unknown (fuel : nat) (u : UnknownField) : Gen unit :=
  match u with
  | UVarint number varint =>
      field_number ← st_lift (SimpleItoa_int junk number);
      Print field_number;;
      Print [58; 32];;
      value ← st_lift (SimpleItoa_unsigned_long_long junk varint);
      Print value;;
      Print [10]
  | UFixed32 number fixed32 =>
      field_number ← st_lift (SimpleItoa_int junk number);
      Print field_number;;
      Print [58; 32; 48; 120];;
      value ← st_lift (with_buffer junk (FastHex32ToBuffer fixed32));
      Print value;;
      Print [10]
  | UFixed64 number fixed64 =>
      field_number ← st_lift (SimpleItoa_int junk number);
      Print field_number;;
      Print [58; 32; 48; 120];;
      value ← st_lift (with_buffer junk (FastHex64ToBuffer fixed64));
      Print value;;
      Print [10]
  | ULengthDelimited number value =>
      field_number ← st_lift (SimpleItoa_int junk number);
      Print field_number;;
      embedded ← st_lift (if bool_decide (value = []) then Ok (false, [])
                          else UnknownFieldSet_ParseFromString data_at value);
      if fst (embedded : bool * list UnknownField) then
        (Print [32; 123; 10];; Indent);;
        PrintUnknownFields junk data_at Printer_new fuel (snd embedded);;
        (Outdent;; Print [125; 10])
      else
        Print [58; 32; 34];;
        v ← st_lift (CEscape junk value);
        Print v;;
        Print [34];;
        Print [10]
  | UGroup number group =>
      field_number ← st_lift (SimpleItoa_int junk number);
      Print field_number;;
      (Print [32; 123; 10];; Indent);;
      PrintUnknownFields junk data_at Printer_new fuel group;;
      (Outdent;; Print [125; 10])
  end.

Lemma PrintUnknownFields_unfold fuel us :
  PrintUnknownFields junk data_at Printer_new (S fuel) us =
  foldr (fun u rest => print_unknown fuel u;; rest) (mret tt) us.
Proof. done. Qed.

Lemma lift_after {A B} (c : Gen unit) (r : result A) (k : A -> ST TextGenerator B) v g : r = Ok v ->
  (c;; x ← st_lift r; k x) g = (c;; k v) g.
Proof. intros ->. unfold mbind, ST_bind. by destruct (c g) as [[[] g1]|]. Qed.

Lemma appends_field r head v mid r0 indent : r0 = Ok head -> r = Ok v -> 10 ∉ head -> 10 ∉ mid -> 10 ∉ v ->
  appends (h ← st_lift r0; Print h;; Print mid;; x ← st_lift r; Print x;; Print [10]) indent
    (item_text indent (Line (head ++ mid ++ v))).
Proof.
  intros E0 E H1 H2 H3. apply appends_line.
  - rewrite !not_elem_of_app. done.
  - rewrite <- !app_assoc. eapply emits_lift; [exact E0|]. by apply emits_field.
Qed.

(** What is known of a field: its depth does not matter here. *)
Definition field_ok (u : UnknownField) : Prop := exists d, unknown_ok d u = true.

Lemma field_ok_number u : field_ok u -> SimpleItoa_int junk (u_number u) = Ok (int_text (u_number u)).
Proof.
  intros [d Hok]. destruct (unknown_ok_number _ _ Hok) as [Hn _]. unfold number_ok in Hn.
  apply SimpleItoa_int_spec. lia.
Qed.

Lemma print_unknown_spec fuel u indent : field_ok u -> Z.of_nat (weight u) < 2 ^ 26 -> (weight u <= fuel)%nat ->
  (forall us i, (weights us < fuel)%nat -> Forall field_ok us -> Z.of_nat (weights us) < 2 ^ 26 ->
     appends (PrintUnknownFields junk data_at Printer_new fuel us) i (items_text i (unknown_items fuel us))) ->
  appends (print_unknown fuel u) indent (items_text indent (unknown_items (S fuel) [u])).
Proof.
  intros Hok Hbig Hw IH. pose proof (field_ok_number u Hok) as En. destruct Hok as [d Hok].
  unfold items_text. cbn [unknown_items fmap list_fmap concat]. rewrite app_nil_r.
  destruct u as [n v|n v|n v|n v|n g]; cbn [unknown_ok u_number weight print_unknown] in *;
    apply andb_true_iff in Hok as [_ Hok].
  - apply appends_field; [done| |no_line..]. apply SimpleItoa_unsigned_long_long_spec. lia.
  - apply appends_field; [done| |no_line..]. apply (FastHexToBuffer_text junk v 8). lia.
  - apply appends_field; [done| |no_line..]. apply (FastHexToBuffer_text junk v 16). lia.
  - pose proof (str_ok_bytes _ Hok) as Hb.
    assert (Z.of_nat (length v) < 2 ^ 26) as Hl by lia.
    assert ((if bool_decide (v = []) then Ok (false, []) else UnknownFieldSet_ParseFromString data_at v) =
      Ok (match embedded_fields v with Some us => (true, us) | None => (false, []) end)) as Ee.
    { unfold embedded_fields. case_bool_decide; [done|]. by apply ParseFromString_spec. }
    pose proof (embedded_facts v) as Hf. destruct (embedded_fields v) as [us|].
    + destruct (Hf us Hb eq_refl) as [Hwe Hoks].
      eapply appends_ext; [|apply (appends_block (int_text n) (PrintUnknownFields junk data_at Printer_new fuel us));
        [no_line|apply IH; [lia| |lia]]].
      * intros g. by rewrite (st_lift_ok _ _ _ _ En), (lift_after _ _ _ _ _ Ee).
      * eapply Forall_impl; [exact Hoks|]. intros x. by exists 0.
    + pose proof (escape_to_string_spec junk false false v ltac:(lia)) as Ev.
      eapply appends_ext; [|apply (appends_line (Print (int_text n);; Print [58; 32; 34];;
        x ← st_lift (CEscape junk v); Print x;; Print [34];; Print [10]) indent
        (int_text n ++ [58; 32] ++ quoted (escaped false false false v)))].
      * intros g. by rewrite (st_lift_ok _ _ _ _ En), (lift_after _ _ _ _ _ Ee).
      * unfold quoted. no_line.
      * set (t := escaped false false false v) in *.
        assert ((int_text n ++ [58; 32] ++ quoted t) ++ [10] = int_text n ++ [58; 32; 34] ++ t ++ [34] ++ [10]) as ->
          by (unfold quoted; cbn [app]; rewrite <- !app_assoc; cbn [app]; by rewrite <- app_assoc).
        apply emits_bind; [apply emits_print|]. apply emits_bind; [apply emits_print|].
        eapply emits_lift; [exact Ev|]. apply emits_bind; [apply emits_print|]. apply emits_bind; apply emits_print.
  - apply andb_true_iff in Hok as [_ Hok].
    eapply appends_ext; [|apply (appends_block (int_text n) (PrintUnknownFields junk data_at Printer_new fuel g));
      [no_line|apply IH; [unfold weights; lia| |unfold weights; lia]]].
    + intros g'. by rewrite (st_lift_ok _ _ _ _ En).
    + apply Forall_forall. intros x Hx. exists (d + 1). rewrite forallb_forall in Hok.
      by apply Hok, list_elem_of_In.
Qed.

Lemma PrintUnknownFields_spec fuel : forall us indent, (weights us < fuel)%nat -> Forall field_ok us ->
  Z.of_nat (weights us) < 2 ^ 26 ->
  appends (PrintUnknownFields junk data_at Printer_new fuel us) indent
    (items_text indent (unknown_items fuel us)).
Proof.
  induction fuel as [|fuel IH]; intros us indent Hw Hok Hbig; [lia|].
  rewrite PrintUnknownFields_unfold. revert Hw Hbig.
  induction Hok as [|u us Hu _ IHus]; intros Hw Hbig; [apply appends_nothing|].
  cbn [foldr]. unfold weights in *. cbn [sum_list_with] in *.
  change (unknown_items (S fuel) (u :: us)) with (unknown_items (S fuel) [u] ++ unknown_items (S fuel) us).
  rewrite items_text_app. apply appends_bind.
  - apply print_unknown_spec; [done|lia|lia|exact IH].
  - apply IHus; lia.
Qed.
End Print.

(** * Messages *)

(** The fields in the order of their numbers. *)
Definition sorted_fields (D : Descriptor) : list FieldDescriptor :=
  merge_sort FieldNumberSorter (d_fields D).

Lemma sorted_fields_perm D : sorted_fields D ≡ₚ d_fields D.
Proof. apply (merge_sort_Permutation FieldNumberSorter). Qed.

Definition fd_write (field : FieldDescriptor) : field_write :=
  mkwrite (fd_number field) (fd_index field) (fd_type field) (fd_repeated field).

(** A descriptor names the fields of a class, with names that can be printed in a line. *)
Definition wf_descriptor (K : message_class) (D : Descriptor) : bool :=
  bool_decide (fd_write <$> sorted_fields D = k_writes K) &&
  forallb (fun field => forallb print_char (fd_name field)) (d_fields D) &&
  bool_decide (NoDup (fd_number <$> d_fields D)).

(** The tables of the program. *)
Lemma descriptors_wf :
  wf_descriptor CNETMsg_Tick CNETMsg_Tick_descriptor &&
  wf_descriptor CNETMsg_SignonState CNETMsg_SignonState_descriptor &&
  wf_descriptor CSVCMsg_ServerInfo CSVCMsg_ServerInfo_descriptor &&
  wf_descriptor CSVCMsg_PacketEntities CSVCMsg_PacketEntities_descriptor = true.
Proof. vm_compute. reflexivity. Qed.

Definition number_text_of (t : FieldType) (v : Z) : list Z :=
  match t with
  | TYPE_FLOAT => SimpleFtoa v
  | TYPE_BOOL => if v =? 0 then [102; 97; 108; 115; 101] else [116; 114; 117; 101]
  | _ => int_text v
  end.

Definition string_text (v : list Z) : list Z := quoted (escaped false false false v).

(** The texts of the values of a field. *)
Definition value_texts (msg : message) (field : FieldDescriptor) : list (list Z) :=
  if fd_repeated field then string_text <$> get_rep (fd_index field) msg
  else if HasBit msg field then
    [if is_string (fd_type field) then string_text (get_str (fd_index field) msg)
     else number_text_of (fd_type field) (get_int (fd_index field) msg)]
  else [].

Definition field_items (msg : message) (field : FieldDescriptor) : list item :=
  (fun v => Line (fd_name field ++ [58; 32] ++ v)) <$> value_texts msg field.

Definition message_items (D : Descriptor) (msg : message) : list item :=
  concat (field_items msg <$> sorted_fields D) ++
  unknown_items (S (weights (unknown_fields_ msg))) (unknown_fields_ msg).

(** The text of a message. *)
Definition message_text (D : Descriptor) (msg : message) : list Z :=
  items_text [] (message_items D msg).

(** Sorting what is left of the fields leaves the order of the sorted fields. *)
Lemma StronglySorted_filter {A} (R : A -> A -> Prop) (P : A -> Prop) `{forall x, Decision (P x)} l :
  StronglySorted R l -> StronglySorted R (filter P l).
Proof.
  induction 1 as [|x l _ IH Hx]; [constructor|]. rewrite filter_cons. case_decide; [|done].
  constructor; [done|]. rewrite Forall_forall in *. intros y Hy. apply Hx. by apply list_elem_of_filter in Hy as [_ ?].
Qed.

#[export] Instance FieldNumberSorter_transitive : Transitive FieldNumberSorter.
Proof. intros x y z. unfold FieldNumberSorter. lia. Qed.

#[export] Instance FieldNumberSorter_total : Total FieldNumberSorter.
Proof. intros x y. unfold FieldNumberSorter. lia. Qed.

Lemma fmap_inj_elem {A B} (f : A -> B) l x y : NoDup (f <$> l) -> x ∈ l -> y ∈ l -> f x = f y -> x = y.
Proof.
  intros Hnd Hx Hy E. apply list_elem_of_lookup in Hx as [i Hx]. apply list_elem_of_lookup in Hy as [j Hy].
  assert (i = j) as ->; [|congruence].
  eapply (NoDup_lookup (f <$> l)); [done|by rewrite list_lookup_fmap, Hx|].
  rewrite list_lookup_fmap, Hy. cbn. by rewrite E.
Qed.

Definition listed (msg : message) (field : FieldDescriptor) : bool :=
  if fd_repeated field then negb (FieldSize msg field =? 0)%nat else HasBit msg field.

Lemma ListFields_sorted D msg : NoDup (fd_number <$> d_fields D) ->
  ListFields D msg = filter (fun field => Is_true (listed msg field)) (sorted_fields D).
Proof.
  intros Hnd. unfold ListFields, sorted_fields. fold (listed msg).
  assert (forall x l, x ∈ merge_sort FieldNumberSorter l -> x ∈ l) as Hin.
  { intros x l Hx. by rewrite (merge_sort_Permutation FieldNumberSorter l) in Hx. }
  apply (StronglySorted_unique_strong FieldNumberSorter).
  - intros x y Hx Hy H1 H2. apply Hin, list_elem_of_filter in Hx as [_ Hx].
    apply list_elem_of_filter in Hy as [_ Hy%Hin]. apply (fmap_inj_elem fd_number (d_fields D)); auto.
    unfold FieldNumberSorter in *. lia.
  - apply (StronglySorted_merge_sort FieldNumberSorter).
  - apply StronglySorted_filter, (StronglySorted_merge_sort FieldNumberSorter).
  - rewrite !(merge_sort_Permutation FieldNumberSorter). done.
Qed.

(** What is printed of a message fits the integers of the printer. *)
Definition small_value (v : value) : bool :=
  match v with
  | VInt _ => true
  | VStr s => Z.of_nat (length s) <? 2 ^ 26
  | VRep l => forallb (fun s => Z.of_nat (length s) <? 2 ^ 26) l
  end.

Definition small_message (msg : message) : bool :=
  forallb small_value (members msg) && (Z.of_nat (weights (unknown_fields_ msg)) <? 2 ^ 26).

Lemma number_text_line v : Forall number_char v -> 10 ∉ v.
Proof.
  intros Hv. eapply no_newline; [exact Hv|]. intros [H|H]; [unfold is_dec in H; lia|].
  repeat (apply elem_of_cons in H as [H|H]; [done|]). by apply elem_of_nil in H.
Qed.

Lemma print_char_line v : forallb print_char v = true -> 10 ∉ v.
Proof.
  intros H Hin%list_elem_of_In. rewrite forallb_forall in H. by apply H in Hin.
Qed.

Lemma string_text_line v : Forall is_byte v -> 10 ∉ string_text v.
Proof. intros Hv. unfold string_text, quoted. no_line. Qed.

Lemma number_text_of_line t v : 10 ∉ number_text_of t v.
Proof.
  destruct t; cbn [number_text_of]; auto using int_text_line.
  - apply number_text_line, FloatToBuffer_chars.
  - destruct (v =? 0); no_line.
Qed.

Section Messages.
Context `{GL : StringGrowthLaws}.
Context (junk : list Z) (data_at : Z).
Context (K : message_class) (HK : class_facts K) (msg : message) (Hm : msg_facts K msg).
Context (Hsmall : small_message msg = true).

Abbreviation Gen := (ST TextGenerator).

Lemma small_member i v : members msg !! i = Some v -> small_value v = true.
Proof.
  intros E. unfold small_message in Hsmall. apply andb_true_iff in Hsmall as [H _].
  by eapply forallb_elem, list_elem_of_lookup_2.
Qed.

Lemma quoted_value v indent : str_ok v = true -> Z.of_nat (length v) < 2 ^ 26 ->
  emits (print_quoted (CEscape junk v)) false indent (string_text v).
Proof.
  intros Hv Hl. apply emits_quoted, escape_to_string_spec. lia.
Qed.

Lemma number_value field v indent : is_string (fd_type field) = false ->
  get_int (fd_index field) msg = v -> in_range (fd_type field) v = true ->
  emits (PrintFieldValue junk Printer_new msg field 0) false indent (number_text_of (fd_type field) v).
Proof.
  intros Hs Ev Hr. unfold PrintFieldValue. rewrite Ev.
  assert (forall r t, r = Ok t -> emits (x ← st_lift r; Print x : Gen unit) false indent t) as Hlift.
  { intros r t E. eapply emits_lift; [exact E|apply emits_print]. }
  destruct (fd_type field); try done; cbn [in_range number_text_of] in *.
  all: first [apply Hlift, SimpleItoa_int_spec; lia | apply Hlift, SimpleItoa_unsigned_int_spec; lia
    | apply Hlift, SimpleItoa_long_long_spec; lia
    | apply Hlift, SimpleItoa_unsigned_long_long_spec; lia
    | destruct (v =? 0); apply emits_print | apply emits_print].
Qed.

Lemma name_value_line field (c : Gen unit) indent v : forallb print_char (fd_name field) = true -> 10 ∉ v ->
  (forall ind, emits c false ind v) ->
  appends (PrintFieldName field;; Print [58; 32];; c;; Print [10]) indent
    (item_text indent (Line (fd_name field ++ [58; 32] ++ v))).
Proof.
  intros Hf Hv Hc. apply print_char_line in Hf. apply appends_line; [no_line|].
  rewrite <- !app_assoc. apply emits_bind; [apply emits_print|]. apply emits_bind; [apply emits_print|].
  apply emits_bind; [apply Hc|apply emits_print].
Qed.

(** The values of a field, one line each. *)
Lemma print_values field vs : forallb print_char (fd_name field) = true ->
  (forall j v, vs !! j = Some v -> (10 ∉ v) /\
     (forall ind, emits (PrintFieldValue junk Printer_new msg field j) false ind v)) ->
  forall indent n, appends (foldr (fun j (rest : Gen unit) =>
      PrintFieldName field;; Print [58; 32];; PrintFieldValue junk Printer_new msg field j;;
      Print [10];; rest) (mret tt) (seq n (length vs - n))) indent
    (items_text indent ((fun v => Line (fd_name field ++ [58; 32] ++ v)) <$> drop n vs)).
Proof.
  intros Hf Hv indent n. remember (length vs - n)%nat as k eqn:Ek. revert n Ek.
  induction k as [|k IH]; intros n Ek.
  - rewrite drop_ge by lia. apply appends_nothing.
  - destruct (lookup_lt_is_Some_2 vs n ltac:(lia)) as [v E]. rewrite (drop_S _ _ _ E).
    cbn [fmap list_fmap seq foldr]. rewrite items_text_cons. destruct (Hv _ _ E) as [Hn He].
    eapply appends_ext; [|apply appends_bind; [apply (name_value_line field _ indent v Hf Hn He)|apply IH; lia]].
    intros g. unfold mbind, ST_bind.
    destruct (PrintFieldName field g) as [[[] g1]|]; [|done].
    destruct (Print [58; 32] g1) as [[[] g2]|]; [|done].
    by destruct (PrintFieldValue junk Printer_new msg field n g2) as [[[] g3]|].
Qed.
(** A string of the message, and how its value is printed. *)
Lemma string_value field j v indent : is_string (fd_type field) = true ->
  (if fd_repeated field then get_rep (fd_index field) msg !! j = Some v
   else get_str (fd_index field) msg = v) ->
  str_ok v = true -> Z.of_nat (length v) < 2 ^ 26 ->
  emits (PrintFieldValue junk Printer_new msg field j) false indent (string_text v).
Proof.
  intros Hs Ev Hv Hl. unfold PrintFieldValue.
  destruct (fd_type field); try done; destruct (fd_repeated field); rewrite Ev;
    (eapply emits_lift; [reflexivity|by apply quoted_value]).
Qed.

Lemma value_texts_spec field : fd_write field ∈ k_writes K ->
  forall j t, value_texts msg field !! j = Some t -> (10 ∉ t) /\
    (forall ind, emits (PrintFieldValue junk Printer_new msg field j) false ind t).
Proof.
  intros Hin j t E. pose proof (m_member _ _ Hm _ Hin) as Hw. unfold wf_member in Hw. cbn in Hw.
  unfold value_texts, get_rep, get_str, get_int in E.
  destruct (members msg !! fd_index field) as [[v|v|l]|] eqn:Em; [..|done];
    repeat (apply andb_true_iff in Hw as [Hw ?]); pose proof (small_member _ _ Em) as Hsm;
    cbn [small_value] in Hsm.
  - apply negb_true_iff in Hw. rewrite Hw in E. destruct (HasBit msg field); [|done].
    apply list_lookup_singleton_Some in E as [-> <-]. rewrite (proj1 (negb_true_iff _) H1).
    split; [apply number_text_of_line|]. intros ind. apply number_value; [by apply negb_true_iff| |done].
    unfold get_int. by rewrite Em.
  - apply negb_true_iff in Hw. rewrite Hw in E. destruct (HasBit msg field); [|done].
    apply list_lookup_singleton_Some in E as [-> <-]. rewrite H1. split; [by apply string_text_line, str_ok_bytes|].
    intros ind. apply string_value; [done| |done|lia]. rewrite Hw. unfold get_str. by rewrite Em.
  - rewrite Hw in E. apply list_lookup_fmap_Some in E as (v & -> & Ev).
    apply list_elem_of_lookup_2 in Ev as Hv. 
    assert (str_ok v = true) as Hok by (by eapply forallb_elem).
    apply (forallb_elem _ _ _ Hsm) in Hv. split; [by apply string_text_line, str_ok_bytes|].
    intros ind. apply string_value; [done| |done|lia]. rewrite Hw. unfold get_rep. by rewrite Em.
Qed.

Lemma PrintField_spec field indent : fd_write field ∈ k_writes K -> forallb print_char (fd_name field) = true ->
  appends (PrintField junk Printer_new msg field) indent (items_text indent (field_items msg field)).
Proof.
  intros Hin Hf. pose proof (print_values field _ Hf (value_texts_spec field Hin) indent 0) as H.
  rewrite Nat.sub_0_r, drop_0 in H. unfold PrintField, field_items.
  assert ((if fd_repeated field then FieldSize msg field else if HasBit msg field then 1%nat else 0%nat) =
    length (value_texts msg field)) as ->; [|exact H].
  unfold value_texts, FieldSize. destruct (fd_repeated field); [by rewrite length_fmap|].
  by destruct (HasBit msg field).
Qed.

Context (D : Descriptor) (HD : wf_descriptor K D = true).

Lemma descriptor_facts : fd_write <$> sorted_fields D = k_writes K /\
  Forall (fun field => forallb print_char (fd_name field) = true) (sorted_fields D) /\
  NoDup (fd_number <$> d_fields D).
Proof.
  unfold wf_descriptor in HD. apply andb_true_iff in HD as [H H3]. apply andb_true_iff in H as [H1 H2].
  apply bool_decide_eq_true_1 in H1, H3. split; [done|]. split; [|done].
  apply Forall_forall. intros x Hx. apply (forallb_elem _ _ x H2).
  by rewrite sorted_fields_perm in Hx.
Qed.

(** A field that is not listed has no line. *)
Lemma listed_items l indent : (forall field, field ∈ l -> appends (PrintField junk Printer_new msg field) indent
    (items_text indent (field_items msg field))) ->
  appends (foldr (fun field (rest : Gen unit) => PrintField junk Printer_new msg field;; rest) (mret tt)
    (filter (fun field => Is_true (listed msg field)) l)) indent
    (items_text indent (concat (field_items msg <$> l))).
Proof.
  induction l as [|field l IH]; intros Hl; [apply appends_nothing|].
  cbn [fmap list_fmap concat]. rewrite items_text_app, filter_cons.
  assert (forall f, f ∈ l -> appends (PrintField junk Printer_new msg f) indent (items_text indent (field_items msg f)))
    as Hl' by (intros f Hf; apply Hl; by right).
  case_decide as Hd.
  - apply appends_bind; [apply Hl; by left|by apply IH].
  - assert (field_items msg field = []) as ->; [|by apply IH].
    unfold field_items, value_texts, listed, FieldSize in *.
    destruct (fd_repeated field); [|by destruct (HasBit msg field)].
    by destruct (get_rep (fd_index field) msg).
Qed.

Lemma PrintMessage_spec fuel : (weights (unknown_fields_ msg) < fuel)%nat ->
  appends (PrintMessage junk data_at Printer_new fuel D msg) [] (message_text D msg).
Proof.
  intros Hfuel. destruct descriptor_facts as (Hw & Hn & Hd). unfold PrintMessage, message_text, message_items.
  rewrite items_text_app, ListFields_sorted by done. apply appends_bind.
  - apply listed_items. intros field Hin. apply PrintField_spec.
    + rewrite <- Hw. by apply list_elem_of_fmap_2.
    + rewrite Forall_forall in Hn. by apply Hn.
  - assert (Forall field_ok (unknown_fields_ msg)) as Hu.
    { apply Forall_forall. intros u Hu%(m_unknown _ _ Hm). exists 0. unfold unknown_to in Hu.
      by apply andb_true_iff in Hu as [Hu _]. }
    unfold small_message in Hsmall. apply andb_true_iff in Hsmall as [_ Hs].
    rewrite <- (unknown_items_more _ fuel) by
      first [lia|eapply Forall_impl; [exact Hu|]; intros x [d Hx]; right; by exists d].
    apply PrintUnknownFields_spec; [done|done|lia].
Qed.

Lemma DebugString_text fuel : (weights (unknown_fields_ msg) < fuel)%nat ->
  Z.of_nat (length (message_text D msg)) < text_limit ->
  DebugString junk data_at fuel D msg = Ok (message_text D msg).
Proof.
  intros Hfuel Hl. unfold DebugString, PrintToString, PrintToOutput.
  destruct (PrintMessage_spec fuel Hfuel [] (TextGenerator_new (mktarget [] empty_capacity) 0)) as (g & E & Hp).
  - apply new_printed. unfold empty_capacity. lia.
  - exact Hl.
  - destruct (destroy_spec _ _ _ _ Hp) as (t & Et & Ec). cbn [initial_indent_level_ Printer_new].
    rewrite E. cbn [mbind result_bind snd]. rewrite Et.
    cbn [mbind result_bind]. by rewrite Ec.
Qed.
End Messages.
