(* ===== verification/TextSize.v ===== *)
(** What a parsed message can hold: no string is longer than the bytes it was parsed from, and
    the unknown fields weigh no more, so that its text is within the printer's integers; and
    every byte of a text can be printed. *)

From S2P Require Import Prelude CMem Sniffles Float32 Coded Wire Messages NetMessages CodedSpec.
From S2P Require Import CodedStream WireSpec MsgSpec CodedWrite UnknownSpec WireTrip MsgTables.
From S2P Require Import MsgTrip MsgParser StrUtil Numerals StrUtilProofs Escape EscapeProofs.
From S2P Require Import FloatText TextGen TextGenProofs TextFormat TextSpec.

(** * Sizes *)

Definition value_weight (v : value) : nat :=
  match v with
  | VInt _ => 0
  | VStr s => length s
  | VRep l => sum_list_with (fun s => S (length s)) l
  end.

Definition values_weight (l : list value) : nat := sum_list_with value_weight l.

Definition message_weight (msg : message) : nat :=
  (values_weight (members msg) + weights (unknown_fields_ msg))%nat.

Lemma weights_app a b : weights (a ++ b) = (weights a + weights b)%nat.
Proof. apply sum_list_with_app. Qed.

Lemma value_weight_elem i l v : l !! i = Some v -> (value_weight v <= values_weight l)%nat.
Proof.
  revert i. unfold values_weight. induction l as [|w l IH]; intros [|i] E; try done; cbn in *.
  - injection E as ->. lia.
  - apply IH in E. lia.
Qed.

Lemma values_weight_insert l i v k :
  (value_weight v <= match l !! i with Some w => value_weight w | None => 0 end + k)%nat ->
  (values_weight (<[i := v]> l) <= values_weight l + k)%nat.
Proof.
  revert i. unfold values_weight. induction l as [|w l IH]; intros [|i] E; cbn in *; try lia.
  rewrite <- Nat.add_assoc. by apply Nat.add_le_mono_l, IH.
Qed.

(** After some of [n] bytes, with [rest] of them left. *)
Definition msg_below (n rest : nat) (msg : message) : Prop := (message_weight msg + rest <= n)%nat.

Lemma msg_below_less n k k' msg : (k' <= k)%nat -> msg_below n k msg -> msg_below n k' msg.
Proof. unfold msg_below. lia. Qed.

Lemma assign_below n k r i v msg :
  (value_weight v + r <= match members msg !! i with Some w => value_weight w | None => 0 end + k)%nat -> (r <= k)%nat ->
  msg_below n k msg -> msg_below n r (assign i v msg).
Proof.
  unfold msg_below, message_weight. cbn [assign members unknown_fields_]. intros Hv Hr Hm.
  pose proof (values_weight_insert (members msg) i v (k - r)). lia.
Qed.

Lemma set_has_below n k i msg : msg_below n k msg -> msg_below n k (set_has i msg).
Proof. done. Qed.

Lemma rep_weight i msg v : (value_weight (VRep (get_rep i msg ++ [v])) <=
  match members msg !! i with Some w => value_weight w | None => 0 end + S (length v))%nat.
Proof.
  unfold get_rep. destruct (members msg !! i) as [[w|w|l]|]; cbn; try lia.
  rewrite sum_list_with_app. cbn. lia.
Qed.

Lemma string_of_length bs v r : string_of bs = Some (v, r) -> (length v + length r < length bs)%nat.
Proof.
  unfold string_of. destruct (varint32 bs) as [[len r1]|] eqn:E; [|done].
  intros Et. apply varint32_split in E as (_ & a & -> & Ha).
  apply take_bytes_some in Et as [-> _]. rewrite !length_app. lia.
Qed.

Lemma update_field_below n c bs msg msg' r : update_field c bs msg = Some (msg', r) ->
  msg_below n (length bs) msg -> msg_below n (length r) msg'.
Proof.
  intros E Hm. pose proof (update_field_shorter _ _ _ _ _ E) as Hs. unfold update_field in E.
  destruct (is_string (c_type c)).
  - destruct (string_of bs) as [[v r']|] eqn:Ev; [|done]. injection E as <- <-.
    apply string_of_length in Ev as Hl. destruct (c_repeated c).
    + eapply (assign_below _ (length bs)); [|lia|done]. pose proof (rep_weight (c_member c) msg v). lia.
    + eapply (assign_below _ (length bs)); [cbn; lia|lia|by apply set_has_below].
  - destruct (primitive_of (c_type c) bs) as [[v r']|]; [|done]. injection E as <- <-.
    apply set_has_below. eapply (assign_below _ (length bs)); [cbn; lia|lia|done].
Qed.

Lemma decode_field_below n K t bs msg msg' r : decode_field K t bs msg = Some (msg', r) ->
  msg_below n (length bs) msg -> msg_below n (length r) msg'.
Proof.
  unfold decode_field. destruct (case_of_tag t (k_cases K)) as [c|]; intros E Hm.
  - by eapply update_field_below.
  - apply map_fst_some in E as (u & E & ->). apply (proj1 (unknown_weight _)) in E.
    unfold msg_below, message_weight in *. cbn [add_unknown set_unknown unknown_fields_ members].
    rewrite weights_app. unfold weights at 2. cbn [sum_list_with]. lia.
Qed.

Lemma decode_fields_below n K k : forall bs msg msg', decode_fields k K bs msg = Some msg' ->
  msg_below n (length bs) msg -> msg_below n 0 msg'.
Proof.
  induction k as [|k IH]; intros bs msg msg' E Hm; [done|]. cbn [decode_fields] in E.
  destruct bs as [|b bs]; [by injection E as <-|]. set (l := b :: bs) in *. clearbody l.
  destruct (varint32 l) as [[t r]|] eqn:Ev; [|done]. destruct (stops t); [done|].
  apply varint32_shorter in Ev. apply (msg_below_less _ _ (length r)) in Hm; [|lia].
  destruct (decode_field K t r msg) as [[msg1 r1]|] eqn:Ed; [|done].
  eapply IH; [exact E|]. by eapply decode_field_below.
Qed.

Lemma fresh_below n K : class_facts K -> msg_below n n (mkmsg 0 (members (k_new K)) [] 0).
Proof.
  intros HK. destruct (f_fresh _ HK) as (_ & _ & Hz). unfold msg_below, message_weight. cbn [members unknown_fields_].
  rewrite <- Hz. unfold values_weight. assert (forall l, sum_list_with value_weight (zero_value <$> l) = 0%nat) as ->.
  { induction l as [|v l IH]; [done|]. cbn. rewrite IH. by destruct v. }
  done.
Qed.

Lemma below_small n msg : msg_below n 0 msg -> Z.of_nat n < 2 ^ 26 -> small_message msg = true.
Proof.
  unfold msg_below, message_weight. intros Hm Hn. unfold small_message. apply andb_true_iff. split; [|lia].
  apply forallb_forall. intros v Hv%list_elem_of_In. apply list_elem_of_lookup in Hv as [i Hv].
  apply value_weight_elem in Hv. destruct v as [v|v|l]; cbn in *; [done|lia|].
  apply forallb_forall. intros s Hs%list_elem_of_In.
  assert (S (length s) <= sum_list_with (fun s => S (length s)) l)%nat; [|lia].
  by apply (sum_list_with_in s (fun s => S (length s))).
Qed.

(** * Bytes *)

(** A byte that a terminal shows: printable ASCII, or the end of a line. *)
Definition text_char (c : Z) : bool := print_char c || (c =? 10).

Abbreviation shown := (Forall (fun c => text_char c = true)).

Lemma shown_impl (P : Z -> Prop) l : (forall c, P c -> text_char c = true) -> Forall P l -> shown l.
Proof. intros H Hl. eapply Forall_impl; [exact Hl|exact H]. Qed.

Lemma print_shown l : Forall (fun c => print_char c = true) l -> shown l.
Proof. apply shown_impl. intros c Hc. unfold text_char. by rewrite Hc. Qed.

Lemma number_shown l : Forall number_char l -> shown l.
Proof.
  apply shown_impl. intros c [Hc|Hc]; unfold text_char, print_char.
  - unfold is_dec in Hc. lia.
  - repeat (apply elem_of_cons in Hc as [->|Hc]; [done|]). by apply elem_of_nil in Hc.
Qed.

Lemma int_text_shown i : shown (int_text i).
Proof. eapply shown_impl; [|apply int_text_chars]. unfold is_dec, text_char, print_char. lia. Qed.

Lemma hex_shown k n : shown (fixed 16 hex_digit k n).
Proof. eapply shown_impl; [|apply fixed_hex_chars]. unfold is_dec, text_char, print_char. lia. Qed.

Lemma string_text_shown v : Forall is_byte v -> shown (string_text v).
Proof.
  intros Hv. unfold string_text, quoted. constructor; [done|]. apply Forall_app. split; [|by repeat constructor].
  by apply print_shown, escaped_print.
Qed.

Lemma number_text_of_shown t v : shown (number_text_of t v).
Proof.
  destruct t; cbn [number_text_of]; auto using int_text_shown.
  - apply number_shown, FloatToBuffer_chars.
  - destruct (v =? 0); by repeat constructor.
Qed.

Lemma line_shown indent l : shown indent -> shown l -> shown (item_text indent (Line l)).
Proof. intros Hi Hl. cbn. repeat apply Forall_app_2; [done..|by repeat constructor]. Qed.

Lemma block_shown indent head body : shown indent -> shown head -> shown (items_text (indent ++ two_spaces) body) ->
  shown (item_text indent (Block head body)).
Proof.
  intros Hi Hh Hb. cbn [item_text]. repeat apply Forall_app_2; try done; by repeat constructor.
Qed.

Lemma items_shown indent l : Forall (fun i => shown (item_text indent i)) l -> shown (items_text indent l).
Proof. intros H. unfold items_text. by apply Forall_concat, Forall_fmap. Qed.

Lemma field_line_shown indent k mid t : shown indent -> shown t -> shown mid ->
  shown (item_text indent (Line (int_text k ++ mid ++ t))).
Proof.
  intros Hi Ht Hm. apply line_shown; [done|]. apply Forall_app_2; [apply int_text_shown|].
  by apply Forall_app_2.
Qed.

(** Every field of a set is bytes. *)
Lemma unknown_items_shown n : forall us indent, Forall field_ok us -> shown indent ->
  shown (items_text indent (unknown_items n us)).
Proof.
  induction n as [|n IH]; intros us indent Hu Hi; [constructor|]. apply items_shown. cbn [unknown_items].
  apply Forall_fmap, Forall_forall. intros u Hin. rewrite Forall_forall in Hu. destruct (Hu u Hin) as [d Hok].
  destruct u as [k v|k v|k v|k v|k g]; cbn [unknown_ok] in Hok; apply andb_true_iff in Hok as [_ Hok]; unfold compose.
  - apply field_line_shown; [done|apply int_text_shown|by repeat constructor].
  - apply field_line_shown; [done|apply hex_shown|by repeat constructor].
  - apply field_line_shown; [done|apply hex_shown|by repeat constructor].
  - pose proof (str_ok_bytes _ Hok) as Hb. pose proof (embedded_facts v) as Hf.
    destruct (embedded_fields v) as [us'|].
    + apply block_shown; [done|apply int_text_shown|]. apply IH; [|by apply Forall_app_2; [|repeat constructor]].
      eapply Forall_impl; [apply (Hf _ Hb eq_refl)|]. intros x. by exists 0.
    + apply field_line_shown; [done|by apply string_text_shown|by repeat constructor].
  - apply andb_true_iff in Hok as [_ Hok]. apply block_shown; [done|apply int_text_shown|].
    apply IH; [|by apply Forall_app_2; [|repeat constructor]].
    apply Forall_forall. intros x Hx. exists (d + 1). by apply (forallb_elem _ _ x Hok).
Qed.

Section Message.
Context (K : message_class) (HK : class_facts K) (D : Descriptor) (HD : wf_descriptor K D = true).
Context (msg : message) (Hm : msg_facts K msg).

Lemma value_texts_shown field : fd_write field ∈ k_writes K -> Forall (fun t => shown t) (value_texts msg field).
Proof.
  intros Hin. pose proof (m_member _ _ Hm _ Hin) as Hw. unfold wf_member in Hw. cbn in Hw.
  unfold value_texts, get_rep, get_str, get_int.
  destruct (members msg !! fd_index field) as [[v|v|l]|] eqn:Em; [..|done];
    repeat (apply andb_true_iff in Hw as [Hw ?]).
  - apply negb_true_iff in Hw. rewrite Hw. destruct (HasBit msg field); constructor; [|constructor].
    rewrite (proj1 (negb_true_iff _) H1). apply number_text_of_shown.
  - apply negb_true_iff in Hw. rewrite Hw. destruct (HasBit msg field); constructor; [|constructor].
    rewrite H1. by apply string_text_shown, str_ok_bytes.
  - rewrite Hw. apply Forall_fmap, Forall_forall. intros v Hv.
    by apply string_text_shown, str_ok_bytes, (forallb_elem str_ok l).
Qed.

Lemma message_text_shown : shown (message_text D msg).
Proof.
  destruct (descriptor_facts K D HD) as (Hw & Hn & _). unfold message_text, message_items. rewrite items_text_app.
  apply Forall_app_2.
  - apply items_shown, Forall_concat, Forall_fmap, Forall_forall. intros field Hin. unfold compose, field_items.
    apply Forall_fmap. rewrite Forall_forall in Hn. specialize (Hn _ Hin). cbn in Hn.
    eapply Forall_impl; [apply value_texts_shown|].
    + rewrite <- Hw. by apply list_elem_of_fmap_2.
    + intros t Ht. apply line_shown; [constructor|]. apply Forall_app_2.
      * apply print_shown, Forall_forall. intros c. by apply (forallb_elem print_char).
      * by apply Forall_app_2; [repeat constructor|].
  - apply unknown_items_shown; [|constructor]. apply Forall_forall. intros u Hu%(m_unknown _ _ Hm). exists 0.
    unfold unknown_to in Hu. by apply andb_true_iff in Hu as [Hu _].
Qed.
End Message.

(** * Lengths *)

Lemma int_text_length i : (length (int_text i) <= 21)%nat.
Proof.
  unfold int_text. pose proof (decimal_length 20 i). pose proof (decimal_length 20 (- i)).
  destruct (i <? 0); cbn [length]; lia.
Qed.

Lemma string_text_length v : (length (string_text v) <= 4 * length v + 2)%nat.
Proof.
  unfold string_text, quoted. cbn [length]. rewrite length_app. cbn [length].
  pose proof (escaped_length false false false v). lia.
Qed.

Lemma replace_radix_length l : (length (replace_radix l) <= length l)%nat.
Proof.
  assert (forall l, length (skip_invalid l) <= length l)%nat as Hs.
  { intros k. induction k as [|c k IH]; [done|]. cbn. destruct (IsValidFloatChar c); cbn; lia. }
  induction l as [|c l IH]; [done|]. cbn. specialize (Hs l). destruct (IsValidFloatChar c); cbn; lia.
Qed.

Lemma SimpleFtoa_length v : (length (SimpleFtoa v) <= 23)%nat.
Proof.
  assert (forall t, length (snprintf kFloatToBufferSize t) <= 23)%nat as H.
  { intros t. unfold snprintf. rewrite length_take. change (Z.to_nat (kFloatToBufferSize - 1)) with 23%nat. lia. }
  assert (forall t, length (DelocalizeRadix t) <= length t)%nat as Hd.
  { intros t. unfold DelocalizeRadix. case_bool_decide; [done|]. apply replace_radix_length. }
  unfold SimpleFtoa, FloatToBuffer. destruct (f32_of_bits v) as [s|s| |s m e]; try (destruct s); try (cbn; lia);
    destruct (safe_strtof _) as [ok parsed]; (etrans; [apply Hd|]); destruct (_ || _); apply H.
Qed.

Lemma number_text_of_length t v : (length (number_text_of t v) <= 23)%nat.
Proof.
  pose proof (int_text_length v). pose proof (SimpleFtoa_length v).
  destruct t; cbn [number_text_of]; try lia. destruct (v =? 0); cbn; lia.
Qed.

(** The bound of a text of weight [w] that is indented by [i]: every field has a line, or two
    around what is inside it. *)
Definition text_bound (w i : nat) : nat := (w * (2 * i + 48 + 4 * w))%nat.

Lemma text_bound_add a b i : (text_bound a i + text_bound b i <= text_bound (a + b) i)%nat.
Proof. unfold text_bound. nia. Qed.

Lemma text_bound_nested w i : (2 * i + 26 + text_bound w (i + 2) <= text_bound (S w) i)%nat.
Proof. unfold text_bound. nia. Qed.

Lemma text_bound_mono a b i : (a <= b)%nat -> (text_bound a i <= text_bound b i)%nat.
Proof. unfold text_bound. nia. Qed.

Lemma text_bound_line w i k : (k <= 48 + 4 * w)%nat -> (i + k <= text_bound (S w) i)%nat.
Proof. unfold text_bound. nia. Qed.

Lemma line_length indent l : length (item_text indent (Line l)) = (length indent + (length l + 1))%nat.
Proof. cbn [item_text]. rewrite !length_app. cbn [length]. lia. Qed.

Lemma block_length indent head body : length (item_text indent (Block head body)) =
  (2 * length indent + (length head + 5) + length (items_text (indent ++ two_spaces) body))%nat.
Proof. cbn [item_text]. rewrite !length_app. cbn [length]. unfold items_text. lia. Qed.

Lemma field_line_length indent k mid t w : (length mid <= 4)%nat -> (length t <= 4 * w + 22)%nat ->
  (length (item_text indent (Line (int_text k ++ mid ++ t))) <= text_bound (S w) (length indent))%nat.
Proof.
  intros Hm Ht. rewrite line_length, !length_app. apply text_bound_line. pose proof (int_text_length k). lia.
Qed.

Lemma field_block_length indent k body w : 
  (length (items_text (indent ++ two_spaces) body) <= text_bound w (length indent + 2))%nat ->
  (length (item_text indent (Block (int_text k) body)) <= text_bound (S w) (length indent))%nat.
Proof.
  intros Hb. rewrite block_length. etrans; [|apply text_bound_nested]. pose proof (int_text_length k). lia.
Qed.

Lemma unknown_items_length n : forall us indent, Forall field_ok us ->
  (length (items_text indent (unknown_items n us)) <= text_bound (weights us) (length indent))%nat.
Proof.
  induction n as [|n IH]; intros us indent Hu; [cbn; lia|]. cbn [unknown_items].
  induction Hu as [|u us [d Hok] _ IHus]; [cbn; lia|]. cbn [fmap list_fmap]. rewrite items_text_cons, length_app.
  unfold weights in *. cbn [sum_list_with]. etrans; [apply Nat.add_le_mono; [|exact IHus]|apply text_bound_add].
  clear IHus. assert (forall us, Forall field_ok us -> 
    (length (items_text (indent ++ two_spaces) (unknown_items n us)) <= text_bound (weights us) (length indent + 2))%nat) as Hin.
  { intros vs Hvs. specialize (IH vs (indent ++ two_spaces) Hvs). by rewrite length_app in IH. }
  destruct u as [k v|k v|k v|k v|k g]; cbn [unknown_ok weight] in *; apply andb_true_iff in Hok as [_ Hok].
  - apply field_line_length; [cbn; lia|]. pose proof (int_text_length v). lia.
  - apply field_line_length; [cbn; lia|]. rewrite fixed_length. lia.
  - apply field_line_length; [cbn; lia|]. rewrite fixed_length. lia.
  - pose proof (embedded_facts v) as Hf. destruct (embedded_fields v) as [us'|].
    + destruct (Hf us' (str_ok_bytes _ Hok) eq_refl) as [Hw Hoks]. apply field_block_length.
      etrans; [apply Hin|by apply text_bound_mono]. eapply Forall_impl; [exact Hoks|]. intros x. by exists 0.
    + apply field_line_length; [cbn; lia|]. pose proof (string_text_length v). unfold string_text in *. lia.
  - apply andb_true_iff in Hok as [_ Hok]. apply field_block_length, Hin.
    apply Forall_forall. intros x Hx. exists (d + 1). by apply (forallb_elem _ _ x Hok).
Qed.

(** The fields of the descriptors: at most 21 with names of at most 34 characters. *)
Definition short_descriptor (D : Descriptor) : bool :=
  (length (d_fields D) <=? 21)%nat && forallb (fun field => length (fd_name field) <=? 34)%nat (d_fields D).

Lemma descriptors_short : short_descriptor CNETMsg_Tick_descriptor && short_descriptor CNETMsg_SignonState_descriptor &&
  short_descriptor CSVCMsg_ServerInfo_descriptor && short_descriptor CSVCMsg_PacketEntities_descriptor = true.
Proof. vm_compute. reflexivity. Qed.

Section Bound.
Context (K : message_class) (HK : class_facts K) (D : Descriptor) (HD : wf_descriptor K D = true).
Context (HS : short_descriptor D = true) (msg : message) (Hm : msg_facts K msg).

Definition member_weight (i : nat) : nat := from_option value_weight 0%nat (members msg !! i).

(** A line for the name, and what the strings need. *)
Lemma field_items_length field : fd_write field ∈ k_writes K -> (length (fd_name field) <= 34)%nat ->
  (length (items_text [] (field_items msg field)) <= 60 + 43 * member_weight (fd_index field))%nat.
Proof.
  intros Hin Hn. pose proof (m_member _ _ Hm _ Hin) as Hw. unfold wf_member in Hw. cbn in Hw.
  unfold field_items, value_texts, member_weight, get_rep, get_str, get_int.
  destruct (members msg !! fd_index field) as [[v|v|l]|] eqn:Em; [..|done];
    repeat (apply andb_true_iff in Hw as [Hw ?]).
  - apply negb_true_iff in Hw. rewrite Hw. destruct (HasBit msg field); [|cbn; lia].
    rewrite (proj1 (negb_true_iff _) H1). cbn [fmap list_fmap]. rewrite items_text_cons, length_app, line_length, !length_app.
    pose proof (number_text_of_length (fd_type field) v). cbn. lia.
  - apply negb_true_iff in Hw. rewrite Hw. destruct (HasBit msg field); [|cbn; lia].
    rewrite H1. cbn [fmap list_fmap]. rewrite items_text_cons, length_app, line_length, !length_app.
    pose proof (string_text_length v). change (items_text [] []) with (@nil Z). cbn [length from_option value_weight]. lia.
  - rewrite Hw. clear - Hn. cbn [from_option value_weight]. induction l as [|v l IH]; [cbn; lia|].
    cbn [fmap list_fmap]. rewrite items_text_cons, length_app, line_length, !length_app.
    pose proof (string_text_length v). cbn [length sum_list_with] in *. lia.
Qed.

Lemma concat_items_length (l : list FieldDescriptor) :
  (forall field, field ∈ l -> fd_write field ∈ k_writes K /\ (length (fd_name field) <= 34)%nat) ->
  (length (items_text [] (concat (field_items msg <$> l))) <=
   60 * length l + 43 * sum_list_with member_weight (fd_index <$> l))%nat.
Proof.
  induction l as [|field l IH]; intros Hl; [cbn; lia|]. cbn [fmap list_fmap concat sum_list_with].
  rewrite items_text_app, length_app. destruct (Hl field ltac:(by left)) as [Hin Hn].
  etrans; [apply Nat.add_le_mono; [by apply field_items_length|apply IH; intros f Hf; apply Hl; by right]|].
  cbn [length]. lia.
Qed.

(** The members of the fields are all the members. *)
Lemma members_span l : sum_list_with (fun i => from_option value_weight 0%nat (l !! i)) (seq 0 (length l)) =
  values_weight l.
Proof.
  unfold values_weight. induction l as [|v l IH]; [done|]. cbn [length seq sum_list_with list_lookup lookup from_option].
  f_equal. rewrite <- IH. rewrite <- seq_shift. clear IH. induction (seq 0 (length l)) as [|i s IH]; [done|]. cbn. by rewrite IH.
Qed.

Lemma fields_weight : sum_list_with member_weight (fd_index <$> sorted_fields D) = values_weight (members msg).
Proof.
  destruct (descriptor_facts K D HD) as (Hw & _ & _).
  assert (fd_index <$> sorted_fields D = w_member <$> k_writes K) as ->.
  { rewrite <- Hw, <- list_fmap_compose. done. }
  rewrite <- members_span, (m_length _ _ Hm). destruct (covers_spec _ _ (f_covers _ HK)) as [Hnd Hc].
  apply sum_list_with_Permutation_proper. apply NoDup_Permutation; [done|apply NoDup_seq|].
  intros i. rewrite Hc, elem_of_seq. lia.
Qed.

(** The text of a message: a line for each field, and at most quadratic in the bytes. *)
Lemma message_text_length : (length (message_text D msg) <=
  1260 + 43 * values_weight (members msg) + text_bound (weights (unknown_fields_ msg)) 0)%nat.
Proof.
  unfold message_text, message_items. rewrite items_text_app, length_app.
  destruct (descriptor_facts K D HD) as (Hw & _ & _). apply andb_true_iff in HS as [Hs1 Hs2].
  assert (forall field, field ∈ sorted_fields D -> field ∈ d_fields D) as Hin.
  { intros f Hf. by rewrite sorted_fields_perm in Hf. }
  assert (length (sorted_fields D) <= 21)%nat as Hlen.
  { rewrite sorted_fields_perm. by apply Nat.leb_le. }
  pose proof (concat_items_length (sorted_fields D)) as Hc. rewrite fields_weight in Hc.
  assert (Forall field_ok (unknown_fields_ msg)) as Hu.
  { apply Forall_forall. intros u Hu%(m_unknown _ _ Hm). exists 0. unfold unknown_to in Hu.
    by apply andb_true_iff in Hu as [Hu _]. }
  pose proof (unknown_items_length (S (weights (unknown_fields_ msg))) _ [] Hu) as Hul.
  change (length (@nil Z)) with 0%nat in Hul. etrans; [apply Nat.add_le_mono; [apply Hc|exact Hul]|]; [|lia].
  intros field Hf. split; [rewrite <- Hw; by apply list_elem_of_fmap_2|].
  pose proof (forallb_elem _ _ field Hs2 (Hin _ Hf)) as Hn. by apply Nat.leb_le.
Qed.
End Bound.

(** Sets of unknown fields as strings: what is written is read back; and values inside values,
    which the printer follows as deep as they go. *)

(** * Sets *)

Lemma set_trip us k : Forall (fun u => unknown_ok 0 u = true) us ->
  (group_fuel (SerializeUnknownFieldsToArray us) <= k)%nat ->
  unknown_set k (SerializeUnknownFieldsToArray us) = Some us.
Proof.
  intros Hus. revert k. induction Hus as [|u us Hu Hus IH]; intros k Hk.
  - unfold group_fuel in Hk. by destruct k; [lia|].
  - destruct (unknown_ok_number _ _ Hu) as [Hn Hz].
    pose proof (WriteTag_length (u_number u) (u_type u) Hn (u_type_range u)) as Hl.
    change (SerializeUnknownFieldsToArray (u :: us)) with
      (SerializeUnknownFieldToArray u ++ SerializeUnknownFieldsToArray us) in *.
    rewrite serialize_unknown_split, <- !app_assoc in *. unfold group_fuel in *. rewrite !length_app in Hk.
    destruct k as [|k]; [lia|]. cbn [unknown_set].
    destruct (WriteTagToArray (u_number u) (u_type u) ++ u_payload u ++ SerializeUnknownFieldsToArray us)
      as [|b bs] eqn:Eb; [by apply app_nil in Eb as [Eb _]; rewrite Eb in Hl; cbn in Hl; lia|]. rewrite <- Eb. clear b bs Eb.
    rewrite tag_trip by (done || apply u_type_range). fold (u_tag u).
    destruct (Z.eqb_spec (u_tag u) 0); [done|].
    unfold u_tag at 1. rewrite GetTagWireType_Make by (done || apply u_type_range).
    assert ((u_type u =? WIRETYPE_END_GROUP) = false) as -> by (by destruct u). cbn [orb].
    rewrite (unknown_trip u 0 Hu) by (unfold field_fuel; rewrite length_app; lia).
    by rewrite IH by lia.
Qed.

Lemma unknown_fields_trip us : Forall (fun u => unknown_ok 0 u = true) us ->
  unknown_fields_of (SerializeUnknownFieldsToArray us) = Some us.
Proof. intros Hus. apply set_trip; [done|]. unfold group_fuel, unknown_fuel. lia. Qed.

Lemma set_bytes us : Forall (fun u => unknown_ok 0 u = true) us ->
  Forall is_byte (SerializeUnknownFieldsToArray us).
Proof.
  induction 1 as [|u us Hu _ IH]; [constructor|]. apply Forall_app. split; [|exact IH].
  by apply (unknown_payload_bytes u 0).
Qed.

(** * Values inside values *)

(** A field that holds a field that holds ... [d] times. *)
Fixpoint nested (d : nat) : UnknownField :=
  match d with
  | O => UVarint 2 0
  | S d => ULengthDelimited 2 (SerializeUnknownFieldToArray (nested d))
  end.

Definition nested_bytes (d : nat) : list Z := SerializeUnknownFieldToArray (nested d).

Lemma base128_short n v : 0 <= v < 2 ^ 28 -> (length (base128 (S (S (S (S n)))) v) <= 4)%nat.
Proof.
  intros Hv. cbn [base128]. destruct (Z.ltb_spec v 128); [cbn; lia|].
  destruct (Z.ltb_spec (v / 128) 128); [cbn; lia|].
  destruct (Z.ltb_spec (v / 128 / 128) 128); [cbn; lia|].
  destruct (Z.ltb_spec (v / 128 / 128 / 128) 128) as [|Hge]; [cbn; lia|].
  assert (v / 128 / 128 / 128 < 128); [|lia]. do 3 (apply Z.div_lt_upper_bound; [lia|]). lia.
Qed.

Lemma nested_length d : Z.of_nat (5 * d + 2) < 2 ^ 28 -> (length (nested_bytes d) <= 5 * d + 2)%nat.
Proof.
  induction d as [|d IH]; intros Hd; [vm_compute; lia|]. specialize (IH ltac:(lia)).
  assert (nested_bytes (S d) = WriteBytesToArray 2 (nested_bytes d)) as -> by done.
  unfold WriteBytesToArray. rewrite !length_app. rewrite WriteVarint32ToArray_spec by (rewrite u32_small; lia).
  rewrite u32_small by lia. pose proof (base128_short 1 (Z.of_nat (length (nested_bytes d))) ltac:(lia)).
  change (length (WriteTagToArray 2 WIRETYPE_LENGTH_DELIMITED)) with 1%nat. lia.
Qed.

Lemma nested_ok d : Z.of_nat (5 * d + 2) < 2 ^ 28 -> unknown_ok 0 (nested d) = true /\ Forall is_byte (nested_bytes d).
Proof.
  induction d as [|d IH]; intros Hd; [split; [done|]|].
  { change (nested_bytes 0) with [16; 0]. repeat constructor; unfold is_byte; lia. }
  destruct (IH ltac:(lia)) as [_ Hb]. pose proof (nested_length d ltac:(lia)).
  assert (unknown_ok 0 (nested (S d)) = true) as Hok; [|split; [done|by apply (unknown_payload_bytes _ 0)]].
  cbn [unknown_ok nested]. apply andb_true_iff. split; [done|]. unfold str_ok. apply andb_true_iff. split.
  - apply forallb_forall. intros b Hin%list_elem_of_In. rewrite Forall_forall in Hb. specialize (Hb b Hin).
    unfold is_byte, byte_ok in *. lia.
  - fold (nested_bytes d). lia.
Qed.

Lemma nested_fields d : Z.of_nat (5 * d + 2) < 2 ^ 28 -> unknown_fields_of (nested_bytes d) = Some [nested d].
Proof.
  intros Hd. destruct (nested_ok d Hd) as [Hok _].
  assert (nested_bytes d = SerializeUnknownFieldsToArray [nested d]) as ->.
  { unfold SerializeUnknownFieldsToArray. cbn. by rewrite app_nil_r. }
  apply unknown_fields_trip. by constructor.
Qed.

(** The class of a tick takes such a value as an unknown field. *)
Lemma nested_decodes d : Z.of_nat (5 * d + 2) < 2 ^ 28 ->
  decode_message CNETMsg_Tick (nested_bytes d) (fresh CNETMsg_Tick) =
  Some (mkmsg 0 (members (fresh CNETMsg_Tick)) [nested d] 0).
Proof.
  intros Hd. destruct (nested_ok d Hd) as [Hok _].
  set (msg := mkmsg 0 (members (fresh CNETMsg_Tick)) [nested d] 0).
  assert (SerializeWithCachedSizesToArray CNETMsg_Tick msg = nested_bytes d) as <-.
  { transitivity (SerializeUnknownFieldToArray (nested d) ++ []); [reflexivity|apply app_nil_r]. }
  apply (decode_serialized CNETMsg_Tick msg 0); [by apply (class_of_facts net_Tick)|].
  apply wf_msg_facts. unfold wf_msg. cbn. rewrite andb_true_r. unfold unknown_to. rewrite Hok. by destruct d.
Qed.

(** * The depth of the printer *)

(** What is printed of them: a block in a block in a block ... *)
Fixpoint nested_item (d : nat) : item :=
  match d with
  | O => Line [50; 58; 32; 48]
  | S d => Block [50] [nested_item d]
  end.

Definition nested_text (indent : list Z) (d : nat) : list Z := item_text indent (nested_item d).

Lemma nested_text_block indent d : nested_text indent (S d) = block_text [50] indent (nested_text (indent ++ two_spaces) d).
Proof. unfold nested_text, block_text. cbn [nested_item item_text fmap list_fmap concat]. by rewrite app_nil_r. Qed.

Lemma nested_text_length d : forall indent,
  (length (nested_text indent d) = 2 * d * d + 6 * d + 5 + (2 * d + 1) * length indent)%nat.
Proof.
  induction d as [|d IH]; intros indent.
  - unfold nested_text. cbn [nested_item item_text]. rewrite !length_app. cbn. lia.
  - rewrite nested_text_block. unfold block_text. rewrite !length_app, IH, length_app. cbn. lia.
Qed.

Lemma nested_embedded d : Z.of_nat (5 * d + 2) < 2 ^ 28 -> embedded_fields (nested_bytes d) = Some [nested d].
Proof.
  intros Hd. unfold embedded_fields. rewrite bool_decide_eq_false_2; [by apply nested_fields|].
  intros E. pose proof (nested_fields d Hd) as Hn. by rewrite E in Hn.
Qed.

Lemma nested_items d : Z.of_nat (5 * d + 2) < 2 ^ 28 -> forall fuel, (d < fuel)%nat ->
  unknown_items fuel [nested d] = [nested_item d].
Proof.
  induction d as [|d IH]; intros Hd fuel Hf; (destruct fuel as [|fuel]; [lia|]).
  - reflexivity.
  - cbn [nested nested_item unknown_items fmap list_fmap]. fold (nested_bytes d).
    rewrite nested_embedded by lia. by rewrite IH by lia.
Qed.

Lemma nested_long d : (d < length (nested_bytes d))%nat.
Proof.
  induction d as [|d IH]; [vm_compute; lia|].
  assert (nested_bytes (S d) = WriteBytesToArray 2 (nested_bytes d)) as -> by done.
  unfold WriteBytesToArray. rewrite !length_app. change (length (WriteTagToArray 2 WIRETYPE_LENGTH_DELIMITED)) with 1%nat. lia.
Qed.

Lemma nested_weight d : (d <= weights [nested d])%nat.
Proof.
  unfold weights. cbn [sum_list_with]. destruct d as [|d]; [lia|]. cbn [nested weight]. fold (nested_bytes d).
  pose proof (nested_long d). lia.
Qed.

Section Depth.
Context `{GL : StringGrowthLaws}.
Context (junk : list Z) (data_at : Z).

Abbreviation Gen := (ST TextGenerator).
Abbreviation print_fields := (PrintUnknownFields junk data_at Printer_new).

(** A value inside a value is a call inside a call. *)
Lemma nested_step d fuel g : Z.of_nat (5 * d + 2) < 2 ^ 26 ->
  print_fields (S fuel) [nested (S d)] g = print_block [50] (print_fields fuel [nested d]) g.
Proof.
  intros Hd. destruct (nested_ok d ltac:(lia)) as [_ Hb]. pose proof (nested_length d ltac:(lia)) as Hl.
  rewrite PrintUnknownFields_unfold. cbn [foldr]. set (c := print_unknown _ _ _ _).
  transitivity (c g); [unfold mbind, ST_bind; by destruct (c g) as [[[] ?]|]|].
  unfold c. cbn [nested print_unknown]. fold (nested_bytes d). unfold print_block.
  rewrite (st_lift_ok _ _ _ _ (SimpleItoa_int_spec junk 2 ltac:(lia))).
  rewrite (lift_after _ _ _ (true, [nested d])); [done|].
  rewrite bool_decide_eq_false_2 by (intros E; pose proof (nested_long d) as Hn; rewrite E in Hn; cbn in Hn; lia).
  rewrite ParseFromString_spec by (done || lia). by rewrite nested_fields by lia.
Qed.

Lemma nested_printed d : Z.of_nat (5 * d + 2) < 2 ^ 26 -> forall fuel indent, (d < fuel)%nat ->
  appends (print_fields fuel [nested d]) indent (nested_text indent d).
Proof.
  induction d as [|d IH]; intros Hd fuel indent Hf; (destruct fuel as [|fuel]; [lia|]).
  - rewrite PrintUnknownFields_unfold. cbn [foldr nested]. rewrite <- (app_nil_r (nested_text indent 0)).
    apply appends_bind; [|apply appends_nothing].
    apply (appends_field _ [50] [48] [58; 32]); [by apply SimpleItoa_int_spec| |no_line..].
    by apply SimpleItoa_unsigned_long_long_spec.
  - rewrite nested_text_block. eapply appends_ext; [intros g; symmetry; by apply nested_step; lia|].
    apply appends_block; [no_line|]. apply IH; lia.
Qed.

Lemma nested_too_deep d : Z.of_nat (5 * d + 2) < 2 ^ 26 -> forall fuel indent, (fuel <= d)%nat ->
  too_deep (print_fields fuel [nested d]) indent (nested_text indent d).
Proof.
  induction d as [|d IH]; intros Hd fuel indent Hf; (destruct fuel as [|fuel]; [by intros out g|]); [lia|].
  rewrite nested_text_block. intros out g Hp Hl. rewrite nested_step by lia. revert out g Hp Hl.
  apply too_deep_block; [no_line|]. apply IH; lia.
Qed.

(** The tick that holds it. *)
Definition nested_tick (d : nat) : message := mkmsg 0 (members (fresh CNETMsg_Tick)) [nested d] 0.

Lemma nested_tick_text d : Z.of_nat (5 * d + 2) < 2 ^ 28 ->
  message_text CNETMsg_Tick_descriptor (nested_tick d) = nested_text [] d.
Proof.
  intros Hd. unfold message_text, message_items. cbn [unknown_fields_ nested_tick].
  rewrite (nested_items d Hd) by (pose proof (nested_weight d); lia).
  assert (concat (field_items (nested_tick d) <$> sorted_fields CNETMsg_Tick_descriptor) = []) as -> by reflexivity.
  unfold items_text, nested_text. cbn. by rewrite app_nil_r.
Qed.

Lemma nested_DebugString d fuel : Z.of_nat (2 * d * d + 6 * d + 5) < text_limit ->
  DebugString junk data_at fuel CNETMsg_Tick_descriptor (nested_tick d) =
  if (fuel <=? d)%nat then Fault OutOfFuel else Ok (nested_text [] d).
Proof.
  intros Hd. assert (Z.of_nat (5 * d + 2) < 2 ^ 26) as Hd' by (unfold text_limit in Hd; nia).
  pose proof (nested_text_length d []) as Hl. cbn [length] in Hl.
  pose proof (new_printed empty_capacity ltac:(unfold empty_capacity; lia)) as Hp.
  unfold DebugString, PrintToString, PrintToOutput, PrintMessage.
  assert (ListFields CNETMsg_Tick_descriptor (nested_tick d) = []) as -> by reflexivity.
  cbn [foldr unknown_fields_ nested_tick initial_indent_level_ Printer_new]. rewrite (st_bind_ok _ _ _ _ _ eq_refl).
  destruct (Nat.leb_spec fuel d) as [Hf|Hf].
  - by rewrite (nested_too_deep d Hd' fuel [] Hf _ _ Hp) by (cbn [length]; lia).
  - destruct (nested_printed d Hd' fuel [] Hf _ _ Hp) as (g & E & Hg); [cbn [length]; lia|].
    destruct (destroy_spec _ _ _ _ Hg) as (t & Et & Ec). rewrite E. cbn [mbind result_bind snd]. rewrite Et.
    cbn [mbind result_bind]. by rewrite Ec.
Qed.
End Depth.
