(* ===== verification/MsgPrint.v ===== *)
(** What reaches the console: the formats of [outf] in [packet_loop_handler]
    (src/Sniffles/sniffles.cpp) and [MsgPrintf] (src/Sniffles/str.h), on the text that
    [DebugString] makes of a message. *)

From Stdlib Require Import String.
From S2P Require Import Prelude CMem Ice IceProofs Tins Sniffles Packets Handler Coded Wire.
From S2P Require Import Messages NetMessages WireSpec MsgSpec MsgTables MsgTrip MsgSize.
From S2P Require Import MsgParser StrUtil Numerals StrUtilProofs Escape EscapeProofs FloatText.
From S2P Require Import TextGen TextFormat TextGenProofs TextSpec TextSize.

(** What [IPv4Address::to_string] makes of an address: the library's code is not part of the
    tree. *)
Class AddressText := address_to_string : Z -> list Z.

(** What [%i] reads where the argument is an object of the class [small_uint<4>], a byte in a
    slot of four. *)
Class VarargSlot := object_slot : Z -> Z.

(** [%i] and [%d], of an argument that is read as an [int]. *)
Definition format_int (arg : Z) : list Z := int_text (s32 arg).

(** [%s] of the characters behind [c_str()]. *)
Definition format_c_str (s : list Z) : result (list Z) := c_string (s ++ [0]) 0.

(** [Message::GetTypeName]. *)
Definition GetTypeName (D : Descriptor) : list Z := d_full_name D.

(** [MsgPrintf(msg, size, fmt, text)] with the format of all its calls. *)
Definition MsgPrintf (D : Descriptor) (size : Z) (debug_string : list Z) : result (list Z) :=
  name ← format_c_str (GetTypeName D);
  body ← format_c_str debug_string;
  Ok (text "---- " ++ name ++ text " (" ++ format_int size ++ text " bytes) -----------------" ++ [10] ++
      body).

(** The descriptor that [GetDescriptor] of each class returns. *)
Definition descriptor_of (k : Z) : option Descriptor :=
  if k =? net_Tick then Some CNETMsg_Tick_descriptor
  else if k =? net_SignonState then Some CNETMsg_SignonState_descriptor
  else if k =? svc_ServerInfo then Some CSVCMsg_ServerInfo_descriptor
  else if k =? svc_PacketEntities then Some CSVCMsg_PacketEntities_descriptor
  else None.

Section Console.
Context `{StringGrowth} `{AddressText} `{VarargSlot}.
Context (junk : list Z) (data_at : Z).

(** [MsgPrintf(msg, bufferSize, format, msg.DebugString().c_str())]; the calls of the printer
    are nested no deeper than the unknown fields weigh. *)
Definition message_printf (k size : Z) (msg : message) : result (list Z) :=
  match descriptor_of k with
  | Some D =>
      debug_string ← DebugString junk data_at (S (weights (unknown_fields_ msg))) D msg;
      MsgPrintf D size debug_string
  | None => Ok []
  end.

(** The characters of one call. *)
Definition event_text (e : event message) : result (list Z) :=
  match e with
  | OPacket id => Ok ([10] ++ text "packet " ++ format_int id ++ text ":" ++ [10])
  | OVersion v => Ok (text "  ver: " ++ format_int (object_slot v) ++ [10])
  | OSrcAddr addr port =>
      a ← format_c_str (address_to_string addr);
      Ok (text "  src addr: " ++ a ++ text ":" ++ format_int port ++ [10])
  | ODstAddr addr port =>
      a ← format_c_str (address_to_string addr);
      Ok (text "  dst addr: " ++ a ++ text ":" ++ format_int port ++ [10])
  | OPayloadSize n => Ok (text "  payload size: " ++ format_int n ++ [10])
  | ODeltaOffset n => Ok (text "  deltaOffset: " ++ format_int n ++ [10])
  | ODataFinalSize n => Ok (text "  dataFinalSize: " ++ format_int n ++ [10])
  | OMsg k size msg => message_printf k size msg
  end.

(** All that is printed. *)
Fixpoint console_text (out : list (event message)) : result (list Z) :=
  match out with
  | [] => Ok []
  | e :: out =>
      t ← event_text e;
      rest ← console_text out;
      Ok (t ++ rest)
  end.
End Console.

(** The console output as a function of what is printed: no call fails, every byte can be
    shown, for all the messages that the parser can give. *)

(** An address as text is characters that can be printed. *)
Class AddressTextLaws (A : AddressText) :=
  address_print a : Forall (fun c => print_char c = true) (address_to_string a).

(** Dotted quads, the address in the order of its bytes. *)
Definition dotted_quad : AddressText := fun a =>
  int_text (Z.land a 255) ++ [46] ++ int_text (Z.land (Z.shiftr a 8) 255) ++ [46] ++
  int_text (Z.land (Z.shiftr a 16) 255) ++ [46] ++ int_text (Z.land (Z.shiftr a 24) 255).

#[export] Instance dotted_quad_laws : AddressTextLaws dotted_quad.
Proof.
  intros a. unfold address_to_string, dotted_quad.
  assert (forall n, Forall (fun c => print_char c = true) (int_text n)) as Hi.
  { intros n. eapply Forall_impl; [apply int_text_chars|]. unfold is_dec, print_char. intros x. simpl. lia. }
  repeat (apply Forall_app_2; [apply Hi|]; apply Forall_app_2; [by repeat constructor|]). apply Hi.
Qed.

(** The descriptor of a class belongs to it. *)
Lemma descriptor_of_class k K : class_of k = Some K -> exists D, descriptor_of k = Some D /\
  wf_descriptor K D = true /\ forallb print_char (d_full_name D) = true /\ short_descriptor D = true.
Proof.
  pose proof descriptors_wf as H. repeat (apply andb_true_iff in H as [H ?]).
  pose proof descriptors_short as S. repeat (apply andb_true_iff in S as [S ?]).
  unfold class_of, descriptor_of. intros E.
  repeat (destruct (k =? _); [injection E as <-; eexists; split; [reflexivity|by repeat split]|]). done.
Qed.

(** What the console shows of an event. *)
Definition message_lines (D : Descriptor) (size : Z) (msg : message) : list Z :=
  text "---- " ++ d_full_name D ++ text " (" ++ int_text (s32 size) ++
  text " bytes) -----------------" ++ [10] ++ message_text D msg.

Section Console.
Context `{GL : StringGrowthLaws} `{AL : AddressTextLaws} `{VS : VarargSlot}.
Context (junk : list Z) (data_at : Z).

Definition event_lines (e : event message) : list Z :=
  match e with
  | OPacket id => [10] ++ text "packet " ++ int_text (s32 id) ++ text ":" ++ [10]
  | OVersion v => text "  ver: " ++ int_text (s32 (object_slot v)) ++ [10]
  | OSrcAddr addr port =>
      text "  src addr: " ++ address_to_string addr ++ text ":" ++ int_text (s32 port) ++ [10]
  | ODstAddr addr port =>
      text "  dst addr: " ++ address_to_string addr ++ text ":" ++ int_text (s32 port) ++ [10]
  | OPayloadSize n => text "  payload size: " ++ int_text (s32 n) ++ [10]
  | ODeltaOffset n => text "  deltaOffset: " ++ int_text (s32 n) ++ [10]
  | ODataFinalSize n => text "  dataFinalSize: " ++ int_text (s32 n) ++ [10]
  | OMsg k size msg =>
      match descriptor_of k with
      | Some D => message_lines D size msg
      | None => []
      end
  end.

(** A message whose text fits a string. *)
Definition printable (k : Z) (msg : message) : Prop :=
  exists K, class_of k = Some K /\ msg_facts K msg /\ small_message msg = true /\
    (forall D, descriptor_of k = Some D -> Z.of_nat (length (message_text D msg)) < text_limit).

Definition event_printable (e : event message) : Prop :=
  match e with OMsg k _ msg => printable k msg | _ => True end.

Lemma shown_nonzero l : shown l -> Forall (fun c => c <> 0) l.
Proof. intros H. eapply Forall_impl; [exact H|]. intros c Hc ->. done. Qed.

Lemma format_shown l : shown l -> format_c_str l = Ok l.
Proof. intros H. by apply c_string_whole, shown_nonzero. Qed.

Lemma message_printf_spec k size msg : printable k msg -> exists D,
  descriptor_of k = Some D /\
  message_printf junk data_at k size msg = Ok (message_lines D size msg) /\ shown (message_lines D size msg).
Proof.
  intros (K & Ek & Hm & Hs & Hl). destruct (descriptor_of_class k K Ek) as (D & ED & HD & Hname & _).
  exists D. split; [done|]. pose proof (class_of_facts k K Ek) as HK.
  assert (shown (d_full_name D)) as Hn.
  { apply print_shown, Forall_forall. intros c. by apply (forallb_elem print_char). }
  pose proof (message_text_shown K D HD msg Hm) as Ht. split.
  - unfold message_printf. rewrite ED, (res_bind_ok _ _ _ (DebugString_text junk data_at K msg Hm Hs D HD _
      (Nat.lt_succ_diag_r _) (Hl D ED))).
    unfold MsgPrintf, GetTypeName. by rewrite (res_bind_ok _ _ _ (format_shown _ Hn)), (res_bind_ok _ _ _ (format_shown _ Ht)).
  - unfold message_lines. repeat (apply Forall_app_2; [first [done|apply int_text_shown|by repeat constructor]|]). done.
Qed.

Lemma event_text_spec e : event_printable e -> event_text junk data_at e = Ok (event_lines e) /\ shown (event_lines e).
Proof.
  intros He. destruct e as [n|n|a p|a p|n|n|n|k size msg]; cbn [event_printable] in He.
  8:{ destruct (message_printf_spec k size msg He) as (D & ED & H). cbn [event_text event_lines]. by rewrite ED. }
  all: cbn [event_text event_lines]; unfold format_int;
    try (rewrite (res_bind_ok _ _ _ (format_shown _ (print_shown _ (address_print a)))));
    (split; [done|]).
  all: repeat first [apply Forall_app_2; [first [apply int_text_shown|apply print_shown, address_print|by repeat constructor]|]
    | by repeat constructor].
Qed.

Lemma console_text_spec evs : Forall event_printable evs ->
  console_text junk data_at evs = Ok (concat (event_lines <$> evs)) /\ shown (concat (event_lines <$> evs)).
Proof.
  induction 1 as [|e evs He _ [IH Hs]]; [by split; [|constructor]|].
  destruct (event_text_spec e He) as [E Hse]. cbn [console_text fmap list_fmap concat].
  rewrite (res_bind_ok _ _ _ E), (res_bind_ok _ _ _ IH). split; [done|]. by apply Forall_app_2.
Qed.
End Console.

(** * Parsed messages *)

(** The bytes from which a message can come whose text is known to fit a string. *)
Definition short_message : Z := 11500.

Lemma below_printable k K msg n : class_of k = Some K -> msg_facts K msg -> msg_below n 0 msg ->
  Z.of_nat n <= short_message -> printable k msg.
Proof.
  intros Ek Hm Hb Hn. unfold short_message in Hn. pose proof (class_of_facts k K Ek) as HK.
  exists K. split; [done|]. split; [done|]. split; [eapply below_small; [done|lia]|].
  intros D ED. destruct (descriptor_of_class k K Ek) as (D' & ED' & HD & _ & HS).
  rewrite ED in ED'. injection ED' as <-. pose proof (message_text_length K HK D HD HS msg Hm) as Hl.
  unfold msg_below, message_weight, text_bound, text_limit in *. nia.
Qed.

(** What [decode] of the message parser gives. *)
Lemma decoded_below `{TR : TagReader} slack k bs msg : Forall is_byte bs ->
  decode (MessageParser := message_parser slack) k bs = Some msg ->
  exists K, class_of k = Some K /\ msg_facts K msg /\ msg_below (length bs) 0 msg.
Proof.
  intros Hb E. cbn [decode message_parser] in E. destruct (class_of k) as [K|] eqn:Ek; [|done].
  cbn [mbind option_bind] in E. pose proof (class_of_facts k K Ek) as HK.
  rewrite (class_of_new k K Ek) in E. exists K. split; [done|].
  unfold decode_message in E. split; [by eapply decode_fields_typed, E; [..|apply fresh_facts]|].
  eapply decode_fields_below; [exact E|by apply fresh_below].
Qed.
