(* ===== verification/TextTrip.v ===== *)
(** What [TextFormat] prints the parser reads back: the tokens of the printed text, the values of
    fields, the lines, the message. *)

From Stdlib Require Import String.
From S2P Require Import Prelude CMem Float32 Coded Wire Messages NetMessages StrUtil Numerals Escape EscapeProofs.
From S2P Require Import FloatText Tokenizer TextFormat TextParser TokenProofs ParserRuns.
From S2P Require Import WireTrip MsgTables MsgTrip MsgSize MsgParser TextSpec MsgPrint.

(** * Values *)

Section Values.
Context {T : Type} `{IL : InputLaws T}.
Context (rounds : nat) (nan_bits : Z).

Abbreviation P := (ParserImpl T).
Abbreviation lexes := (lexes (T := T) (E := reports) rounds).

(** The parser at a token, nothing reported so far. *)
Record at_tok (ty : TokenType) (txt rst : list Z) (msg : message) (p : P) : Prop := {
  at_type : tok_type (current_ (tokenizer_ p)) = ty;
  at_text : tok_text (current_ (tokenizer_ p)) = txt;
  at_ready : ready rounds (mkreports false []) rst (tokenizer_ p);
  at_message : message_ p = msg;
  at_tree : parse_info_tree_ p = None
}.

(** A computation that reads on without a fault. *)
Definition leads {A} (m : ST P A) (p : P) (a : A) (Q : P -> Prop) : Prop :=
  wp no_fault m p (fun b p' => b = a /\ Q p').

Lemma leads_bind {A B} (m : ST P A) (k : A -> ST P B) p a b Q R :
  leads m p a Q -> (forall p', Q p' -> leads (k a) p' b R) -> leads (m ≫= k) p b R.
Proof. intros Hm Hk. eapply wp_seq; [exact Hm|]. intros a' p' [-> HQ]. by apply Hk. Qed.

Lemma leads_ret {A} (a : A) p Q : Q p -> leads (mret a) p a Q.
Proof. intros HQ. by apply wp_ret. Qed.

Lemma leads_get {B} (k : P -> ST P B) p b Q : leads (k p) p b Q -> leads (st_get ≫= k) p b Q.
Proof. done. Qed.

Lemma leads_current ty txt rst msg p {B} (k : Token -> ST P B) b Q : at_tok ty txt rst msg p ->
  (forall t, tok_type t = ty -> tok_text t = txt -> leads (k t) p b Q) -> leads (current ≫= k) p b Q.
Proof. intros [Ht Hx _ _ _] Hk. unfold leads. apply wp_bind, wp_bind, wp_get, wp_ret. by apply Hk. Qed.

Lemma leads_DO {A B} (m : ST P (option A)) (k : A -> ST P (option B)) p a b Q R :
  leads m p (Some a) Q -> (forall p', Q p' -> leads (k a) p' b R) -> leads (DO m k) p b R.
Proof. intros Hm Hk. by eapply leads_bind. Qed.

Lemma leads_next ty txt rst msg ty' txt' rst' p {B} (m : ST P B) b Q : at_tok ty txt rst msg p -> lexes rst ty' txt' rst' ->
  (forall p', at_tok ty' txt' rst' msg p' -> leads m p' b Q) -> leads (next_token rounds;; m) p b Q.
Proof.
  intros [Ht Hx Hr Hm Htr] Hl Hk. destruct (Next_lexes rounds _ _ _ _ _ _ Hl Hr) as (r & s' & E1 & Hr' & Ht' & Hx').
  unfold leads. apply wp_bind. unfold next_token, on_tokens, wp. st_run. rewrite E1. cbn. apply Hk. by split.
Qed.

Lemma leads_lift {A B} (r : result A) (k : A -> ST P B) v p b Q : r = Ok v -> leads (k v) p b Q ->
  leads (st_lift r ≫= k) p b Q.
Proof. intros -> Hk. exact Hk. Qed.

Lemma Consume_leads value rst msg ty' txt' rst' ty p : at_tok ty value rst msg p -> lexes rst ty' txt' rst' ->
  leads (Consume rounds value) p (Some tt) (at_tok ty' txt' rst' msg).
Proof.
  intros Ha Hl. unfold Consume. eapply leads_current; [exact Ha|]. intros t _ Hx. rewrite bool_decide_true by done.
  eapply leads_next; [done..|]. intros p' Hp. by apply leads_ret.
Qed.

Lemma try_yes value rst msg ty' txt' rst' ty p : at_tok ty value rst msg p -> lexes rst ty' txt' rst' ->
  leads (TryConsumeToken rounds value) p true (at_tok ty' txt' rst' msg).
Proof.
  intros Ha Hl. unfold TryConsumeToken. eapply leads_current; [exact Ha|]. intros t _ Hx. rewrite bool_decide_true by done.
  eapply leads_next; [done..|]. intros p' Hp. by apply leads_ret.
Qed.

Lemma try_no value ty txt rst msg p : at_tok ty txt rst msg p -> txt <> value ->
  leads (TryConsumeToken rounds value) p false (at_tok ty txt rst msg).
Proof.
  intros Ha Hne. unfold TryConsumeToken. eapply leads_current; [exact Ha|]. intros t _ Hx. rewrite bool_decide_false by congruence.
  by apply leads_ret.
Qed.

Lemma unsigned_leads n max_value txt rst msg ty' txt' rst' p : at_tok TYPE_INTEGER txt rst msg p -> lexes rst ty' txt' rst' ->
  ParseInteger txt max_value = Ok (Some n) ->
  leads (ConsumeUnsignedInteger rounds max_value) p (Some n) (at_tok ty' txt' rst' msg).
Proof.
  intros Ha Hl Hn. unfold ConsumeUnsignedInteger. eapply leads_current; [exact Ha|]. intros t Ht Hx.
  rewrite bool_decide_true by done. rewrite Hx. eapply leads_lift; [exact Hn|]. cbn beta iota.
  eapply leads_next; [done..|]. intros p' Hp. by apply leads_ret.
Qed.

Lemma identifier_leads txt rst msg ty' txt' rst' p : at_tok TYPE_IDENTIFIER txt rst msg p -> lexes rst ty' txt' rst' ->
  leads (ConsumeIdentifier rounds) p (Some txt) (at_tok ty' txt' rst' msg).
Proof.
  intros Ha Hl. unfold ConsumeIdentifier. eapply leads_current; [exact Ha|]. intros t Ht Hx.
  rewrite bool_decide_true by done. eapply leads_next; [done..|]. intros p' Hp. rewrite Hx. by apply leads_ret.
Qed.

(** ** What the value of a line is read as *)

(** From the first token behind the colon to the first one of the next line. *)
Definition reads_as {A} (m : ST P (option A)) (vt : list Z) (a : A) : Prop :=
  forall tail ty txt rst, lexes (10 :: tail) ty txt rst -> ty <> TYPE_STRING_LITERAL ->
  (length (vt ++ 10%Z :: tail) < rounds)%nat ->
  exists ty0 txt0 rst0, lexes (32 :: vt ++ 10 :: tail) ty0 txt0 rst0 /\ txt0 <> text "[" /\
    forall msg p, at_tok ty0 txt0 rst0 msg p -> leads m p (Some a) (at_tok ty txt rst msg).

Lemma lexes_space l ty txt rst : lexes l ty txt rst -> lexes (32 :: l) ty txt rst.
Proof.
  intros [ws Hws|ws t r y Hws Ho Hne Hm].
  - constructor. by constructor.
  - change (32 :: ws ++ t ++ r) with ((32 :: ws) ++ t ++ r). constructor; [by constructor|done..].
Qed.

Lemma lexes_here txt rst ty : opens (first txt) -> txt <> [] -> scans rounds (T := T) (E := reports) (consume_token rounds) txt rst ty ->
  lexes (txt ++ rst) ty txt rst.
Proof. intros Ho Hne Hm. apply (lexes_token rounds []); [constructor|done..]. Qed.

Lemma opens_range c : 36 <= c <= 122 \/ c = 34 -> opens c.
Proof.
  intros Hc. assert (s8 c = c) as Hs by (apply swrap_small; lia). unfold opens, Whitespace, Unprintable. rewrite Hs. lia.
Qed.

Lemma lexes_digits ds point exponent rest : digits ds -> ds <> [] -> (hd 0 ds = 48 -> length ds = 1%nat) ->
  point_ok point -> exponent_ok exponent -> first rest = 10 \/ first rest = 32 \/ first rest = 58 ->
  lexes ((ds ++ point ++ exponent) ++ rest) (number_type point exponent) (ds ++ point ++ exponent) rest.
Proof.
  intros Hd Hne Hz Hp He Hr. apply lexes_here.
  - rewrite first_app by done. destruct ds as [|d ds]; [done|]. apply Forall_cons in Hd as [Hd _]. unfold is_dec in Hd.
    apply opens_range. cbn. lia.
  - intros Hn. apply app_eq_nil in Hn as [? _]. done.
  - by apply token_number.
Qed.

Lemma not_bracket ds r : digits ds -> ds <> [] -> ds ++ r <> text "[".
Proof.
  intros Hd Hne Heq. destruct ds as [|d ds]; [done|]. apply Forall_cons in Hd as [Hd _]. unfold is_dec in Hd.
  injection Heq as -> _. lia.
Qed.

Lemma decimal_plain n : 0 <= n < 2 ^ 64 ->
  digits (decimal 20 n) /\ decimal 20 n <> [] /\ (hd 0 (decimal 20 n) = 48 -> length (decimal 20 n) = 1%nat).
Proof.
  intros Hn. assert (10 ^ Z.of_nat 20 = 100000000000000000000) as Ep by reflexivity. split_and!.
  - apply decimal_chars. lia.
  - pose proof (decimal_nonempty 20 n ltac:(lia)). by destruct (decimal 20 n); [cbn in *; lia|].
  - destruct (Z.eq_dec n 0) as [->|Hn0]; [done|]. destruct (decimal_head 20 n) as (c & l & -> & Hc); [lia|]. by intros Hh; destruct Hc.
Qed.

Lemma lexes_decimal n rest : 0 <= n < 2 ^ 64 -> first rest = 10 \/ first rest = 32 \/ first rest = 58 ->
  lexes (decimal 20 n ++ rest) TYPE_INTEGER (decimal 20 n) rest.
Proof.
  intros Hn Hr. destruct (decimal_plain n Hn) as (Hd & Hne & Hz).
  pose proof (lexes_digits (decimal 20 n) [] [] rest Hd Hne Hz ltac:(by left) ltac:(by left) Hr) as Hl.
  cbn [app] in Hl. rewrite app_nil_r in Hl. exact Hl.
Qed.

Lemma unsigned_reads n max_value : 0 <= n <= max_value -> max_value < 2 ^ 64 ->
  reads_as (ConsumeUnsignedInteger rounds max_value) (decimal 20 n) n.
Proof.
  intros Hn Hmax tail ty txt rst Hl Hty Hlen. exists TYPE_INTEGER, (decimal 20 n), (10 :: tail).
  destruct (decimal_plain n ltac:(lia)) as (Hd & Hne & _). split_and!.
  - apply lexes_space, lexes_decimal; [lia|by left].
  - rewrite <- (app_nil_r (decimal 20 n)). by apply not_bracket.
  - intros msg p Hp. eapply unsigned_leads; [done..|]. by apply ParseInteger_decimal.
Qed.

Lemma lexes_minus l : lexes (45 :: l) TYPE_SYMBOL [45] l.
Proof. apply (lexes_here [45]); [by apply opens_range; cbn; lia|done|by apply token_symbol; right]. Qed.

Lemma signed_reads n max_value : - (max_value + 1) <= n <= max_value -> 0 <= max_value < 2 ^ 63 ->
  reads_as (ConsumeSignedInteger rounds max_value) (int_text n) n.
Proof.
  intros Hn Hmax tail ty txt rst Hl Hty Hlen. unfold int_text in *. destruct (Z.ltb_spec n 0).
  - exists TYPE_SYMBOL, [45], (decimal 20 (- n) ++ 10 :: tail). split_and!; [apply lexes_space, lexes_minus|done|].
    intros msg p Hp. unfold ConsumeSignedInteger. eapply leads_bind; [eapply try_yes; [exact Hp|apply lexes_decimal; [lia|by left]]|].
    intros p1 Hp1. cbn beta. assert (u64 (max_value + 1) = max_value + 1) as -> by (unfold u64; apply Z.mod_small; lia).
    eapply leads_DO; [eapply unsigned_leads; [done..|]; apply ParseInteger_decimal; lia|]. intros p2 Hp2. cbn beta.
    assert (s64 (- s64 (- n)) = n) as ->; [|by apply leads_ret].
    destruct (Z.eq_dec n (- 2 ^ 63)) as [->|]; [done|].
    rewrite !swrap_small by (rewrite ?swrap_small by lia; lia). lia.
  - exists TYPE_INTEGER, (decimal 20 n), (10 :: tail). destruct (decimal_plain n ltac:(lia)) as (Hd & Hne & _). split_and!.
    + apply lexes_space, lexes_decimal; [lia|by left].
    + rewrite <- (app_nil_r (decimal 20 n)). by apply not_bracket.
    + intros msg p Hp. unfold ConsumeSignedInteger. eapply leads_bind; [eapply try_no; [exact Hp|]|].
      * rewrite <- (app_nil_r (decimal 20 n)). intros Heq. destruct (decimal 20 n) as [|d ds]; [done|].
        apply Forall_cons in Hd as [Hd _]. unfold is_dec in Hd. injection Heq as -> _. lia.
      * intros p1 Hp1. cbn beta. eapply leads_DO; [eapply unsigned_leads; [done..|]; apply ParseInteger_decimal; lia|].
        intros p2 Hp2. cbn beta. rewrite swrap_small by lia. by apply leads_ret.
Qed.

Lemma leads_loop {L A} (body : L -> ST P (L + A)) n x p a Q : (0 < n)%nat ->
  leads (r ← body x; match r with inl y => st_loop (pred n) body y | inr b => mret b end) p a Q ->
  leads (st_loop n body x) p a Q.
Proof. destruct n; [lia|done]. Qed.

Lemma string_reads src : Forall is_byte src ->
  reads_as (ParserConsumeString rounds) ([34] ++ escaped false false false src ++ [34]) src.
Proof.
  intros Hs tail ty txt rst Hl Hty Hlen. set (vt := [34] ++ escaped false false false src ++ [34]) in *.
  exists TYPE_STRING_LITERAL, vt, (10 :: tail). split_and!; [|by destruct src|].
  - apply lexes_space. unfold vt. apply lexes_here; [by apply opens_range; cbn; lia|done|]. apply token_string; [done|].
    unfold vt in Hlen. rewrite !length_app in Hlen. cbn in Hlen. lia.
  - intros msg p Hp. assert (1 < rounds)%nat as Hr.
    { unfold vt in Hlen. rewrite !length_app in Hlen. cbn in Hlen. lia. }
    unfold ParserConsumeString. eapply leads_current; [exact Hp|]. intros t Ht _. rewrite bool_decide_true by done.
    apply (leads_bind _ _ _ src _ (at_tok ty txt rst msg)); [|intros p' Hp'; by apply leads_ret].
    apply leads_loop; [lia|].
    apply (leads_bind _ _ _ (inl src) _ (at_tok ty txt rst msg)).
    { unfold string_tokens_body. eapply leads_current; [exact Hp|]. intros t1 Ht1 Hx1. rewrite bool_decide_true by done. rewrite Hx1.
      eapply leads_lift; [by apply ParseStringAppend_spec|]. eapply leads_next; [done..|]. intros p' Hp'. by apply leads_ret. }
    intros p' Hp'. cbn beta iota. apply leads_loop; [lia|].
    apply (leads_bind _ _ _ (inr src) _ (at_tok ty txt rst msg)); [|intros p'' Hp''; by apply leads_ret].
    unfold string_tokens_body. eapply leads_current; [exact Hp'|]. intros t2 Ht2 _. rewrite bool_decide_false by congruence. by apply leads_ret.
Qed.

(** A name in front of the end of the line. *)
Lemma lexes_ident l tail : ident l -> Alphanumeric (first tail) = false -> lexes (l ++ tail) TYPE_IDENTIFIER l tail.
Proof.
  intros Hl Ht. pose proof Hl as (c & l' & -> & Hc & _). apply lexes_here; [|done|by apply token_identifier].
  apply opens_range. cbn. unfold Letter in Hc. lia.
Qed.

Definition double_value (negative : bool) (v : float64) : float64 := if negative then SFopp v else v.

(** What follows the sign. *)
Definition double_body (body : list Z) (v : float64) : Prop := forall tail ty txt rst,
  lexes (10 :: tail) ty txt rst ->
  exists ty0 txt0, lexes (body ++ 10 :: tail) ty0 txt0 (10 :: tail) /\ txt0 <> text "[" /\ txt0 <> text "-" /\
    forall msg t p, tok_type t = ty0 -> tok_text t = txt0 -> at_tok ty0 txt0 (10 :: tail) msg p ->
    leads (match tok_type t with
           | TYPE_INTEGER => DO (ConsumeUnsignedInteger rounds kuint64max) (fun v => mret (Some (f64_of_decimal false v 0)))
           | TYPE_FLOATING => v ← st_lift (ParseFloat (tok_text t)); next_token rounds;; mret (Some v)
           | TYPE_IDENTIFIER =>
               let txt := LowerString (tok_text t) in
               if bool_decide (txt = text "inf") || bool_decide (txt = text "infinity")
               then next_token rounds;; mret (Some (S754_infinity false))
               else if bool_decide (txt = text "nan") then next_token rounds;; mret (Some S754_nan)
               else fail (text "Expected double.")
           | _ => fail (text "Expected double.")
           end) p (Some v) (at_tok ty txt rst msg).

Lemma special_body body v : (body = text_inf /\ v = S754_infinity false) \/ (body = text_nan /\ v = S754_nan) ->
  double_body body v.
Proof.
  intros Hb tail ty txt rst Hl. exists TYPE_IDENTIFIER, body.
  assert (ident body) as Hi.
  { destruct Hb as [[-> _]|[-> _]]; (eexists _, _; split_and!; [done|done|by repeat constructor]). }
  split_and!; [by apply lexes_ident|by destruct Hb as [[-> _]|[-> _]]..|].
  intros msg t p Ht Hx Hp. rewrite Ht, Hx. destruct Hb as [[-> ->]|[-> ->]];
    (eapply leads_next; [done..|]; intros p' Hp'; by apply leads_ret).
Qed.

Lemma plain_body ds point exponent : plain_number ds point exponent ->
  double_body (ds ++ point ++ exponent) (fst (fst (strtod (ds ++ point ++ exponent)))).
Proof.
  intros Hpn tail ty txt rst Hl. pose proof Hpn as [Hd Hne Hz H8 Hp He].
  exists (number_type point exponent), (ds ++ point ++ exponent).
  assert (forall c r, ds ++ r = [c] -> is_dec c) as Hc.
  { intros c r Heq. destruct ds as [|d ds]; [done|]. apply Forall_cons in Hd as [Hd _]. by injection Heq as -> _. }
  split_and!; [by apply lexes_digits; auto|intros Heq; apply (Hc 91) in Heq; unfold is_dec in Heq; lia|intros Heq; apply (Hc 45) in Heq; unfold is_dec in Heq; lia|].
  intros msg t p Ht Hx Hpt. rewrite Ht. unfold number_type in *. case_bool_decide as E1; [case_bool_decide as E2|]; cbn [andb] in *.
  - subst point exponent. rewrite !app_nil_r in *. eapply leads_DO.
    { eapply unsigned_leads; [done..|]. apply ParseInteger_plain; [done..|unfold kuint64max; lia]. }
    intros p' Hp'. cbn beta. rewrite plain_value by done. by apply leads_ret.
  - rewrite Hx. eapply leads_lift; [by apply ParseFloat_plain|]. eapply leads_next; [done..|]. intros p' Hp'. by apply leads_ret.
  - rewrite Hx. eapply leads_lift; [by apply ParseFloat_plain|]. eapply leads_next; [done..|]. intros p' Hp'. by apply leads_ret.
Qed.

Lemma sign_reads s body v : double_body body v ->
  reads_as (ConsumeDouble rounds) (sign_text s ++ body) (double_value s v).
Proof.
  intros Hb tail ty txt rst Hl Hty Hlen.
  destruct (Hb tail ty txt rst Hl) as (ty0 & txt0 & Hl0 & Hne & Hne' & Hk). destruct s.
  - exists TYPE_SYMBOL, [45], (body ++ 10 :: tail). split_and!; [apply lexes_space, lexes_minus|done|].
    intros msg p Hp. unfold ConsumeDouble. eapply leads_bind; [by eapply try_yes|]. intros p1 Hp1.
    eapply leads_current; [exact Hp1|]. intros t Ht Hx. eapply leads_DO; [by apply (Hk msg t)|]. intros p2 Hp2. by apply leads_ret.
  - exists ty0, txt0, (10 :: tail). split_and!; [by apply lexes_space|done|].
    intros msg p Hp. unfold ConsumeDouble. eapply leads_bind; [by eapply try_no|]. intros p1 Hp1.
    eapply leads_current; [exact Hp1|]. intros t Ht Hx. eapply leads_DO; [by apply (Hk msg t)|]. intros p2 Hp2. by apply leads_ret.
Qed.

Lemma no_minus ds point exponent l : plain_number ds point exponent -> ds ++ point ++ exponent <> 45 :: l.
Proof.
  intros [Hd Hne _ _ _ _] Heq. destruct ds as [|d ds]; [done|]. apply Forall_cons in Hd as [Hd _]. unfold is_dec in Hd.
  injection Heq as -> _. lia.
Qed.

Lemma plain_not_special ds point exponent : plain_number ds point exponent ->
  ds ++ point ++ exponent <> text_inf /\ ds ++ point ++ exponent <> text_nan.
Proof.
  intros [Hd Hne _ _ _ _]. destruct ds as [|d ds]; [done|]. apply Forall_cons in Hd as [Hd _]. unfold is_dec in Hd.
  split; intros Heq; injection Heq as -> _; lia.
Qed.

Lemma unsigned_plain ds point exponent : plain_number ds point exponent ->
  unsigned_double (ds ++ point ++ exponent) = fst (fst (strtod (ds ++ point ++ exponent))).
Proof.
  intros Hpn. destruct (plain_not_special _ _ _ Hpn) as [H1 H2]. unfold unsigned_double. by rewrite !bool_decide_false.
Qed.

Lemma float_reads v : 0 <= v < 2 ^ 32 -> reads_as (ConsumeDouble rounds) (SimpleFtoa v) (text_double (SimpleFtoa v)).
Proof.
  intros Hv. destruct (SimpleFtoa_shape v Hv) as (s & body & -> & Hb).
  assert (double_body body (unsigned_double body)) as Hd.
  { destruct Hb as [->|[->|(ds & point & exponent & -> & Hpn)]]; [apply special_body; auto..|].
    rewrite unsigned_plain by done. by apply plain_body. }
  assert (text_double (sign_text s ++ body) = double_value s (unsigned_double body)) as ->; [|by apply sign_reads].
  destruct s; [done|]. destruct Hb as [->|[->|(ds & point & exponent & -> & Hpn)]]; [done..|].
  cbn [sign_text app double_value]. set (t := ds ++ point ++ exponent) in *.
  assert (forall l, t <> 45 :: l) as Hm by (intros l; by apply no_minus).
  destruct t as [|c t]; [done|]. unfold text_double. destruct c as [|q|q]; [done| |done].
  do 6 (destruct q as [q|q|]; try done). by destruct (Hm t).
Qed.

(** ** Fields *)

(** What the value of a line does to the message. *)
Definition stores (field : FieldDescriptor) (vt : list Z) (f : message -> message) : Prop :=
  forall tail ty txt rst, lexes (10 :: tail) ty txt rst -> ty <> TYPE_STRING_LITERAL ->
  (length (vt ++ 10%Z :: tail) < rounds)%nat ->
  exists ty0 txt0 rst0, lexes (32 :: vt ++ 10 :: tail) ty0 txt0 rst0 /\ txt0 <> text "[" /\
    forall msg p, at_tok ty0 txt0 rst0 msg p ->
    leads (ConsumeFieldValue rounds nan_bits field) p (Some tt) (at_tok ty txt rst (f msg)).

Lemma stores_read {A} field (m : ST P (option A)) vt a k f : ConsumeFieldValue rounds nan_bits field = DO m k ->
  reads_as m vt a ->
  (forall ty txt rst msg p, at_tok ty txt rst msg p -> leads (k a) p (Some tt) (at_tok ty txt rst (f msg))) ->
  stores field vt f.
Proof.
  intros Hf Hm Hk tail ty txt rst Hl Hty Hlen. destruct (Hm tail ty txt rst Hl Hty Hlen) as (ty0 & txt0 & rst0 & Hl0 & Hne & Hr).
  exists ty0, txt0, rst0. split_and!; [done..|]. intros msg p Hp. rewrite Hf. eapply leads_DO; [by apply Hr|]. intros p' Hp'. by apply Hk.
Qed.

Lemma on_message_leads f ty txt rst msg p : at_tok ty txt rst msg p ->
  leads (on_message f;; mret (Some tt)) p (Some tt) (at_tok ty txt rst (f msg)).
Proof. intros [Ht Hx Hr Hm Htr]. split; [done|]. split; cbn; done || congruence. Qed.

Lemma set_number_leads field v ty txt rst msg p : at_tok ty txt rst msg p ->
  leads (set_number field v) p (Some tt) (at_tok ty txt rst (SetNumber field v msg)).
Proof. apply on_message_leads. Qed.

Lemma bool_reads v : (v = 0 \/ v = 1) -> forall field, fd_type field = TYPE_BOOL ->
  stores field (number_text_of TYPE_BOOL v) (SetNumber field v).
Proof.
  intros Hv field Hty tail ty txt rst Hl Hne Hlen. set (vt := number_text_of TYPE_BOOL v) in *.
  assert (ident vt) as Hi.
  { unfold vt. destruct Hv as [-> | ->]; (eexists _, _; split_and!; [done|done|by repeat constructor]). }
  exists TYPE_IDENTIFIER, vt, (10 :: tail). split_and!; [by apply lexes_space, lexes_ident|by destruct Hv as [-> | ->]|].
  intros msg p Hp. unfold ConsumeFieldValue. rewrite Hty. eapply leads_current; [exact Hp|]. intros t Ht _.
  rewrite bool_decide_false by congruence. eapply leads_DO; [by eapply identifier_leads|]. intros p' Hp'. cbn beta.
  unfold vt. destruct Hv as [-> | ->]; by apply set_number_leads.
Qed.

Lemma number_stores field v : is_string (fd_type field) = false -> in_range (fd_type field) v = true ->
  (fd_type field = TYPE_FLOAT -> reread_float nan_bits v = v) ->
  stores field (number_text_of (fd_type field) v) (SetNumber field v).
Proof.
  intros Hs Hr Hf.
  assert (forall max w, 0 <= max < 2 ^ 63 -> - (max + 1) <= v <= max -> w v = v ->
    ConsumeFieldValue rounds nan_bits field = DO (ConsumeSignedInteger rounds max) (fun v => set_number field (w v)) ->
    stores field (int_text v) (SetNumber field v)) as Hsigned.
  { intros max w Hm Hv Hw Hc. eapply stores_read; [exact Hc|by apply signed_reads|]. intros. cbn beta. rewrite Hw. by apply set_number_leads. }
  assert (forall max w, max < 2 ^ 64 -> 0 <= v <= max -> w v = v ->
    ConsumeFieldValue rounds nan_bits field = DO (ConsumeUnsignedInteger rounds max) (fun v => set_number field (w v)) ->
    stores field (int_text v) (SetNumber field v)) as Hunsigned.
  { intros max w Hm Hv Hw Hc. assert (int_text v = decimal 20 v) as -> by (unfold int_text; destruct (Z.ltb_spec v 0); [lia|done]).
    eapply stores_read; [exact Hc|by apply unsigned_reads|]. intros. cbn beta. rewrite Hw. by apply set_number_leads. }
  unfold ConsumeFieldValue in *. destruct (fd_type field) eqn:Ety; cbn [number_text_of in_range is_string] in *; try done.
  - eapply stores_read; [by unfold ConsumeFieldValue; rewrite Ety|apply float_reads; lia|]. intros. cbn beta.
    assert (bits_of_f32 nan_bits (f32_of_f64 (text_double (SimpleFtoa v))) = v) as -> by by apply Hf.
    by apply set_number_leads.
  - apply (Hsigned kint64max id); [done|unfold kint64max; lia|done..].
  - apply (Hunsigned kuint64max id); [done|unfold kuint64max; lia|done..].
  - apply (Hsigned kint32max s32); [done|unfold kint32max; lia|by apply s32_small; lia|done].
  - apply (Hunsigned kuint64max id); [done|unfold kuint64max; lia|done..].
  - apply (Hunsigned kuint32max u32); [done|unfold kuint32max; lia|by apply Z.mod_small; lia|done].
  - by apply bool_reads; [lia|].
  - apply (Hunsigned kuint32max u32); [done|unfold kuint32max; lia|by apply Z.mod_small; lia|done].
  - apply (Hsigned kint32max s32); [done|unfold kint32max; lia|by apply s32_small; lia|done].
Qed.

Definition put_string (field : FieldDescriptor) (v : list Z) : message -> message :=
  if fd_repeated field then AddString field v else SetString field v.

Lemma string_stores field v : is_string (fd_type field) = true -> Forall is_byte v ->
  stores field (string_text v) (put_string field v).
Proof.
  intros Hs Hv. apply (stores_read field (ParserConsumeString rounds) _ v (set_string field)).
  - unfold ConsumeFieldValue. by destruct (fd_type field).
  - by apply (string_reads v).
  - intros. by apply on_message_leads.
Qed.
End Values.

(** * Lines *)

(** Every field has a name that is a token, and no two have the same. *)
Definition ident_text (l : list Z) : bool :=
  match l with c :: l => Letter c && forallb Alphanumeric l | [] => false end.
Definition named_descriptor (D : Descriptor) : bool :=
  forallb (fun field => ident_text (fd_name field)) (d_fields D) && bool_decide (NoDup (fd_name <$> d_fields D)).

Lemma ident_text_spec l : ident_text l = true -> ident l.
Proof.
  destruct l as [|c l]; [done|]. intros Hl. apply andb_true_iff in Hl as [Hc Hl]. exists c, l. split_and!; [done..|].
  apply Forall_forall. intros x Hx. rewrite forallb_forall in Hl. by apply Hl, list_elem_of_In.
Qed.

Section Lines.
Context {T : Type} `{IL : InputLaws T}.
Context (rounds : nat) (nan_bits : Z) (D : Descriptor) (HD : named_descriptor D = true).
Context (policy : SingularOverwritePolicy) (allow_unknown : bool).

Abbreviation lexes := (lexes (T := T) (E := reports) rounds).

Lemma field_name field : field ∈ d_fields D -> ident (fd_name field) /\ FindFieldByName D (fd_name field) = Some field.
Proof.
  intros Hf. unfold named_descriptor in HD. apply andb_true_iff in HD as [Hn Hd]. apply bool_decide_eq_true in Hd. split.
  - apply ident_text_spec. rewrite forallb_forall in Hn. by apply Hn, list_elem_of_In.
  - unfold FindFieldByName. destruct (List.find _ _) as [g|] eqn:Eg.
    + apply find_some in Eg as [Hg Hx]. apply bool_decide_eq_true in Hx. apply list_elem_of_In in Hg.
      f_equal. by apply (fmap_inj_elem fd_name (d_fields D)).
    + apply list_elem_of_In in Hf. apply (find_none _ _ Eg) in Hf. by apply bool_decide_eq_false in Hf.
Qed.

Definition line : Type := FieldDescriptor * list Z.

(** What is behind the lines, and its first token. *)
Context (fin : list Z) (fin_type : TokenType) (fin_token fin_rest : list Z).
Context (Hfin : lexes fin fin_type fin_token fin_rest).
Context (Hplain : fin_type <> TYPE_STRING_LITERAL /\ fin_token <> text ";" /\ fin_token <> text ",").

Definition line_text (l : line) : list Z := fd_name (fst l) ++ [58; 32] ++ snd l ++ [10].
Definition lines_text (ls : list line) : list Z := concat (line_text <$> ls) ++ fin.

(** The first token of lines. *)
Definition lines_type (ls : list line) : TokenType := match ls with [] => fin_type | _ => TYPE_IDENTIFIER end.
Definition lines_token (ls : list line) : list Z := match ls with [] => fin_token | l :: _ => fd_name (fst l) end.
Definition lines_rest (ls : list line) : list Z :=
  match ls with [] => fin_rest | l :: ls => 58 :: 32 :: snd l ++ 10 :: lines_text ls end.

Abbreviation at_lines ls := (at_tok rounds (T := T) (lines_type ls) (lines_token ls) (lines_rest ls)).

Lemma lines_cons l ls : lines_text (l :: ls) = fd_name (fst l) ++ lines_rest (l :: ls).
Proof. unfold lines_text, line_text. cbn [fmap list_fmap concat lines_rest]. by rewrite <- !app_assoc. Qed.

Lemma lines_count ls : (length ls <= length (lines_text ls))%nat.
Proof.
  induction ls as [|l ls IH]; [cbn; lia|]. rewrite lines_cons, length_app. cbn [lines_rest length].
  rewrite length_app. cbn [length]. lia.
Qed.

Lemma lexes_lines ls : Forall (fun l => fst l ∈ d_fields D) ls ->
  lexes (lines_text ls) (lines_type ls) (lines_token ls) (lines_rest ls).
Proof.
  destruct ls as [|l ls]; intros Hl; [exact Hfin|]. apply Forall_cons in Hl as [Hl _].
  rewrite lines_cons. by apply lexes_ident; [apply field_name|].
Qed.

Lemma lexes_newline l ty txt rst : lexes l ty txt rst -> lexes (10 :: l) ty txt rst.
Proof.
  intros [ws Hws|ws t r y Hws Ho Hne Hm]; [constructor; by constructor|].
  change (10 :: ws ++ t ++ r) with ((10 :: ws) ++ t ++ r). constructor; [by constructor|done..].
Qed.

(** A field that may be set. *)
Definition settable (field : FieldDescriptor) (msg : message) : Prop :=
  policy = ALLOW_SINGULAR_OVERWRITES \/ fd_repeated field = true \/ HasField msg field = false.

Lemma separator_leads ls msg p : Forall (fun l => fst l ∈ d_fields D) ls -> at_lines ls msg p ->
  leads (try_separator rounds) p tt (at_lines ls msg).
Proof.
  intros Hl Hp.
  assert (lines_token ls <> text ";" /\ lines_token ls <> text ",") as [H1 H2].
  { destruct ls as [|l ls]; [by destruct Hplain as (_ & ? & ?)|]. apply Forall_cons in Hl as [Hl _]. destruct (field_name _ Hl) as [(c & r & Hx & Hc & _) _].
    cbn [lines_token]. rewrite Hx. split; intros Heq; injection Heq as -> _; done. }
  unfold try_separator. eapply leads_bind; [by eapply try_no|]. intros p1 Hp1. cbn beta iota.
  eapply leads_bind; [by eapply try_no|]. intros p2 Hp2. by apply leads_ret.
Qed.

Lemma field_leads field vt f ls msg p : Forall (fun l => fst l ∈ d_fields D) ((field, vt) :: ls) ->
  stores rounds nan_bits (T := T) field vt f -> settable field msg -> (length (lines_text ((field, vt) :: ls)) < rounds)%nat ->
  at_lines ((field, vt) :: ls) msg p ->
  leads (ConsumeField rounds D policy allow_unknown nan_bits) p (Some tt) (at_lines ls (f msg)).
Proof.
  intros Hall Hst Hset Hlen Hp. pose proof Hall as Hall'. apply Forall_cons in Hall' as [Hf Hls]. cbn [fst] in Hf.
  destruct (field_name field Hf) as [Hid Hfind]. pose proof Hid as (c0 & r0 & Hx & Hc0 & _).
  assert (lexes (lines_rest ((field, vt) :: ls)) TYPE_SYMBOL [58] (32 :: vt ++ 10 :: lines_text ls)) as Hcolon.
  { apply (lexes_here rounds [58]); [by apply opens_range; cbn; lia|done|by apply token_symbol; left]. }
  destruct (Hst (lines_text ls) (lines_type ls) (lines_token ls) (lines_rest ls)) as (ty0 & txt0 & rst0 & Hv & Hne & Hk).
  { by apply lexes_newline, lexes_lines. }
  { destruct ls; [apply Hplain|done]. }
  { rewrite lines_cons, length_app in Hlen. cbn [lines_rest snd length] in Hlen. lia. }
  unfold ConsumeField. eapply leads_current; [exact Hp|]. intros t0 _ _.
  eapply (leads_DO _ _ _ (fd_name field, Some field) _ (at_tok rounds TYPE_SYMBOL [58] _ msg)).
  { unfold consume_field_name. eapply leads_bind; [eapply try_no; [exact Hp|]|].
    - cbn [lines_token fst]. rewrite Hx. intros Heq. injection Heq as -> _. done.
    - intros p1 Hp1. cbn beta iota. eapply leads_DO; [by eapply identifier_leads|]. intros p2 Hp2. cbn [lines_token fst].
      rewrite Hfind. eapply leads_DO; [by apply leads_ret|]. intros p3 Hp3. by apply leads_ret. }
  intros p1 Hp1. cbn beta iota. apply leads_get.
  assert (bool_decide (policy = FORBID_SINGULAR_OVERWRITES) && negb (fd_repeated field) && HasField (message_ p1) field = false) as ->.
  { rewrite (at_message _ _ _ _ _ _ Hp1). destruct Hset as [-> | [-> | ->]]; by rewrite ?andb_false_r. }
  eapply (leads_DO _ _ _ tt _ (at_tok rounds ty0 txt0 rst0 msg)); [by eapply Consume_leads|].
  intros p2 Hp2. eapply (leads_bind _ _ _ false _ (at_tok rounds ty0 txt0 rst0 msg)).
  { destruct (fd_repeated field); [by eapply try_no|by apply leads_ret]. }
  intros p3 Hp3. cbn beta iota. eapply (leads_DO _ _ _ tt); [by apply Hk|]. intros p4 Hp4. cbn beta.
  eapply leads_bind; [by apply separator_leads|]. intros p5 Hp5. cbn beta.
  destruct Hp5 as [Ht Htx Hr Hm Htr]. split; [done|]. split; cbn; [done..|]. by rewrite Htr.
Qed.

(** What lines do to a message. *)
Inductive writes : list line -> message -> message -> Prop :=
  | writes_none msg : writes [] msg msg
  | writes_line field vt f ls msg msg' : field ∈ d_fields D -> stores rounds nan_bits (T := T) field vt f -> settable field msg ->
      writes ls (f msg) msg' -> writes ((field, vt) :: ls) msg msg'.

Lemma writes_fields ls msg msg' : writes ls msg msg' -> Forall (fun l => fst l ∈ d_fields D) ls.
Proof. induction 1; by constructor. Qed.

(** The loop, from the lines to what is behind them. *)
Lemma parse_lines ls msg msg' (Q : bool -> ParserImpl T -> Prop) : writes ls msg msg' ->
  (forall n p, (0 < n)%nat -> at_lines [] msg' p ->
     wp no_fault (st_loop n (parse_body rounds D policy allow_unknown nan_bits) tt) p Q) ->
  forall n p, at_lines ls msg p -> (length (lines_text ls) < rounds)%nat -> (length ls < n)%nat ->
  wp no_fault (st_loop n (parse_body rounds D policy allow_unknown nan_bits) tt) p Q.
Proof.
  intros Hw HQ. induction Hw as [msg|field vt f ls msg msg' Hf Hst Hset Hw IH]; intros n p Hp Hlen Hn; [by apply HQ; [cbn in Hn; lia|]|].
  pose proof (writes_fields _ _ _ Hw) as Hls. destruct n as [|n]; [cbn in Hn; lia|]. cbn [st_loop].
  assert (leads (parse_body rounds D policy allow_unknown nan_bits tt) p (inl tt) (at_lines ls (f msg))) as Hb.
  { unfold parse_body. eapply leads_current; [exact Hp|]. intros t Ht _.
    rewrite bool_decide_false by (rewrite Ht; done). eapply leads_bind; [apply (field_leads field vt f ls); [by constructor|done..]|].
    intros p' Hp'. by apply leads_ret. }
  eapply wp_seq; [exact Hb|]. intros r p' [-> Hp']. apply (IH HQ); [done| |cbn in Hn; lia].
  rewrite lines_cons, length_app in Hlen. cbn [lines_rest length] in Hlen. rewrite length_app in Hlen. cbn [length] in Hlen. lia.
Qed.

(** Where the parser stops. *)
Record stopped (msg : message) (C : list report -> Prop) (p : ParserImpl T) : Prop := {
  sp_message : message_ p = msg;
  sp_tree : parse_info_tree_ p = None;
  sp_reports : C (reported (error_collector_ (tokenizer_ p)));
  sp_reading : exists l, reading rounds l None (tokenizer_ p)
}.

(** A call on a stream that holds the lines. *)
Lemma run_lines ls msg msg' (input : T) ok C : writes ls msg msg' ->
  (forall n p, (0 < n)%nat -> at_lines [] msg' p ->
     wp no_fault (st_loop n (parse_body rounds D policy allow_unknown nan_bits) tt) p (fun b p' => b = ok /\ stopped msg' C p')) ->
  good_input input -> (blanks input < rounds)%nat ->
  chars_left input = lines_text ls -> (length (lines_text ls) < rounds)%nat ->
  exists reports input', run_impl rounds (ParserImpl_Parse rounds D policy allow_unknown nan_bits) input None msg =
    Ok (mkparsed ok msg' None reports input') /\ C reports.
Proof.
  intros Hw HQ Hg Hb Hc Hlen. pose proof (writes_fields _ _ _ Hw) as Hls. unfold run_impl, ParserImpl_new, Tokenizer_new.
  set (s0 := mktokenizer _ _ input _ _ _ _ _ _ _ _ _ _ _ _ _).
  destruct (Refresh_spec rounds None s0) as (s & E1 & Hr & Hs & _); try done. rewrite E1. cbn [mbind result_bind snd].
  change (chars_left (tk_input_ s0)) with (chars_left input) in Hr. rewrite Hc in Hr.
  assert (ready rounds (mkreports false []) (lines_text ls) (set_options true SH_COMMENT_STYLE s)) as Hready.
  { split; [by apply (reading_same rounds _ s)|done| |done]. cbn. by injection Hs as -> _. }
  destruct (Next_lexes rounds _ _ _ _ _ _ (lexes_lines ls Hls) Hready) as (b & s1 & E2 & Hr1 & Ht1 & Hx1).
  rewrite E2. cbn [mbind result_bind snd].
  assert (at_lines ls msg (mkparser s1 msg None)) as Hp by by split.
  pose proof (lines_count ls) as Hcount.
  pose proof (parse_lines ls msg msg' _ Hw HQ rounds _ Hp Hlen ltac:(lia)) as Hl. apply wp_inv in Hl as (r & p' & E3 & -> & Hp').
  unfold ParserImpl_Parse. rewrite E3. cbn [mbind result_bind].
  destruct Hp' as [Hm' Htr' Hrep [l Hr']]. destruct (destroy_reading rounds _ _ _ Hr') as [t E4]. rewrite E4, Hm', Htr'. eauto.
Qed.

(** The end of the text. *)
Lemma end_stops msg n p : fin_type = TYPE_END -> (0 < n)%nat -> at_lines [] msg p ->
  wp no_fault (st_loop n (parse_body rounds D policy allow_unknown nan_bits) tt) p
    (fun b p' => b = true /\ stopped msg (fun r => r = []) p').
Proof.
  intros Hend Hn Hp. destruct n as [|n]; [lia|]. cbn [st_loop].
  assert (leads (parse_body rounds D policy allow_unknown nan_bits tt) p (inr true) (at_lines [] msg)) as Hb.
  { unfold parse_body. eapply leads_current; [exact Hp|]. intros t Ht _. rewrite bool_decide_true by (by rewrite Ht).
    apply leads_get. rewrite (rd_collector _ _ _ _ (at_ready _ _ _ _ _ _ Hp)). by apply leads_ret. }
  eapply wp_seq; [exact Hb|]. intros r p' [-> [_ _ [Hr _ Hc _] Hm Htr]]. apply wp_ret. split; [done|]. split; [done..| |by eexists].
  by rewrite Hc.
Qed.

(** Something that is no name. *)
Definition no_name (r : list report) : Prop :=
  exists line column, r = [mkreport true line column (text "Expected identifier.")].

Lemma number_stops msg n p : fin_type = TYPE_INTEGER -> fin_token <> text "[" -> (0 < n)%nat -> at_lines [] msg p ->
  wp no_fault (st_loop n (parse_body rounds D policy allow_unknown nan_bits) tt) p
    (fun b p' => b = false /\ stopped msg no_name p').
Proof.
  intros Hty Hne Hn Hp. destruct n as [|n]; [lia|]. cbn [st_loop].
  assert (leads (parse_body rounds D policy allow_unknown nan_bits tt) p (inr false) (stopped msg no_name)) as Hb.
  { unfold parse_body. eapply leads_current; [exact Hp|]. intros t Ht _. cbn [lines_type] in Ht.
    rewrite bool_decide_false by (rewrite Ht, Hty; done).
    apply (leads_bind _ _ _ None _ (stopped msg no_name)); [|intros p' Hp'; by apply leads_ret].
    unfold ConsumeField. eapply leads_current; [exact Hp|]. intros t0 _ _.
    apply (leads_bind _ _ _ None _ (stopped msg no_name)); [|intros p' Hp'; by apply leads_ret].
    unfold consume_field_name. eapply leads_bind; [by eapply try_no|]. intros p1 Hp1. cbn beta iota.
    apply (leads_bind _ _ _ None _ (stopped msg no_name)); [|intros p' Hp'; by apply leads_ret].
    unfold ConsumeIdentifier. eapply leads_current; [exact Hp1|]. intros t1 Ht1 _. cbn [lines_type] in Ht1.
    rewrite bool_decide_false by (rewrite Ht1, Hty; done). destruct Hp1 as [_ _ [Hr _ Hc _] Hm Htr].
    split; [done|]. split; cbn; [done..| |].
    - rewrite Hc. by eexists _, _.
    - eexists. by apply (reading_same rounds _ (tokenizer_ p1)). }
  eapply wp_seq; [exact Hb|]. intros r p' [-> Hp']. apply wp_ret. done.
Qed.
End Lines.

(** * Messages *)

Section Messages.
Context {T : Type} `{IL : InputLaws T}.
Context (rounds : nat) (nan_bits : Z).
Context (K : message_class) (HK : class_facts K) (D : Descriptor) (HW : wf_descriptor K D = true) (HD : named_descriptor D = true).
Context (policy : SingularOverwritePolicy).
Context (from : message) (Hfrom : msg_facts K from).

(** The floats that are present are those that their texts give back. *)
Definition floats_kept : Prop := forall field, field ∈ d_fields D -> fd_type field = TYPE_FLOAT -> HasBit from field = true ->
  reread_float nan_bits (get_int (fd_index field) from) = get_int (fd_index field) from.

Context (Hfloat : floats_kept).

Abbreviation writes := (writes (T := T) rounds nan_bits D policy).

Definition field_lines (field : FieldDescriptor) : list line := (fun v => (field, v)) <$> value_texts from field.

Lemma string_lines field l ls msg msg' l0 : field ∈ d_fields D -> fd_repeated field = true -> is_string (fd_type field) = true ->
  Forall (fun v => str_ok v = true) l -> members msg !! fd_index field = Some (VRep l0) ->
  writes ls (assign (fd_index field) (VRep (l0 ++ l)) msg) msg' ->
  writes (((fun v => (field, v)) <$> (string_text <$> l)) ++ ls) msg msg'.
Proof.
  intros Hf Hr Hs Hl. revert msg l0. induction Hl as [|v l Hv Hl IH]; intros msg l0 Hm Hw.
  - rewrite app_nil_r in Hw. replace msg with (assign (fd_index field) (VRep l0) msg); [done|].
    destruct msg as [b ms u c]. cbn in Hm |- *. unfold assign. cbn. f_equal. by apply list_insert_id.
  - cbn [fmap list_fmap app].
    apply (writes_line _ _ _ _ _ _ (put_string field v)); [done|by apply string_stores; [|by apply str_ok_bytes]|by right; left|].
    assert (put_string field v msg = assign (fd_index field) (VRep (l0 ++ [v])) msg) as ->.
    { unfold put_string, AddString, get_rep. by rewrite Hr, Hm. }
    apply (IH _ (l0 ++ [v])).
    + unfold assign. cbn. apply list_lookup_insert_eq. by eapply lookup_lt_Some.
    + replace (assign _ _ (assign _ _ msg)) with (assign (fd_index field) (VRep (l0 ++ v :: l)) msg); [done|].
      unfold assign. cbn. f_equal. rewrite list_insert_insert_eq. by rewrite <- app_assoc.
Qed.

(** The lines of a field merge it. *)
Lemma field_lines_write field ls msg msg' : field ∈ d_fields D -> fd_write field ∈ k_writes K -> kind_ok msg (fd_write field) ->
  (policy = ALLOW_SINGULAR_OVERWRITES \/ has (fd_index field) msg = false) ->
  writes ls (merge_one from msg (fd_index field)) msg' -> writes (field_lines field ++ ls) msg msg'.
Proof.
  intros Hf Hw Hk Hset Hrest. pose proof (m_member _ _ Hfrom _ Hw) as Hm. unfold wf_member in Hm. unfold kind_ok in Hk.
  unfold merge_one in Hrest. cbn [fd_write w_member w_repeated w_type] in *. unfold field_lines, value_texts, HasBit.
  assert (settable policy field msg) as Hsettable by (destruct Hset; [by left|by right; right]).
  destruct (members from !! fd_index field) as [[v|v|l]|] eqn:Em; [..|done].
  - repeat (apply andb_true_iff in Hm as [Hm ?]). apply negb_true_iff in Hm. rewrite Hm.
    destruct (has (fd_index field) from) eqn:Eh; [|done]. cbn [fmap list_fmap app].
    assert (is_string (fd_type field) = false) as Hns by by apply negb_true_iff. rewrite Hns. unfold get_int. rewrite Em.
    apply (writes_line _ _ _ _ _ _ (SetNumber field v)); [done| |done|done]. apply number_stores; [done|done|].
    intros Ht. specialize (Hfloat field Hf Ht Eh). unfold get_int in Hfloat. by rewrite Em in Hfloat.
  - repeat (apply andb_true_iff in Hm as [Hm ?]). apply negb_true_iff in Hm. rewrite Hm.
    destruct (has (fd_index field) from) eqn:Eh; [|done]. cbn [fmap list_fmap app].
    assert (is_string (fd_type field) = true) as Hns by done. rewrite Hns. unfold get_str. rewrite Em.
    apply (writes_line _ _ _ _ _ _ (put_string field v)); [done|by apply string_stores; [|by apply str_ok_bytes]|done|].
    unfold put_string. rewrite Hm. exact Hrest.
  - repeat (apply andb_true_iff in Hm as [Hm ?]). rewrite Hm. unfold get_rep. rewrite Em.
    destruct (members msg !! fd_index field) as [[x|x|l0]|] eqn:Eg; [by destruct Hk as [Hk _]; rewrite Hm in Hk..| |done].
    unfold get_rep in Hrest. rewrite Eg in Hrest. apply (string_lines field l ls msg msg' l0); [done..| |done|done].
    apply Forall_forall. intros x Hx. by eapply forallb_elem.
Qed.

Definition message_lines (fs : list FieldDescriptor) : list line := concat (field_lines <$> fs).

Lemma fields_write fs msg : (forall field, field ∈ fs -> field ∈ d_fields D /\ fd_write field ∈ k_writes K) ->
  NoDup (fd_index <$> fs) -> kinds K msg ->
  (policy = ALLOW_SINGULAR_OVERWRITES \/ forall field, field ∈ fs -> has (fd_index field) msg = false) ->
  writes (message_lines fs) msg (foldl (merge_one from) msg (fd_index <$> fs)).
Proof.
  revert msg. induction fs as [|field fs IH]; intros msg Hfs Hd Hk Hset; [constructor|].
  cbn [fmap list_fmap] in Hd. apply NoDup_cons in Hd as [Hni Hd]. destruct (Hfs field ltac:(by left)) as [Hf Hw].
  unfold message_lines. cbn [fmap list_fmap concat foldl]. apply field_lines_write; [done|done|by apply Hk| |].
  - destruct Hset as [|Hset]; [by left|right; apply Hset; by left].
  - apply IH; [intros g Hg; apply Hfs; by right|done| |].
    + intros w' Hw'. apply (merge_one_kind K HK from msg (fd_write field)); [exact (wf_msg_kinds K _ Hfrom _ Hw)|done|done|by apply Hk].
    + destruct Hset as [|Hset]; [by left|right]. intros g Hg.
      assert (fd_index field <> fd_index g) as Hne by (intros Heq; apply Hni; rewrite Heq; by apply list_elem_of_fmap_2).
      rewrite (proj2 (merge_one_ne from msg _ _ Hne)). apply Hset. by right.
Qed.

(** The unknown fields behind the lines. *)
Definition unknown_text : list Z :=
  items_text [] (unknown_items (S (weights (unknown_fields_ from))) (unknown_fields_ from)).

Lemma message_lines_text : lines_text unknown_text (message_lines (sorted_fields D)) = message_text D from.
Proof.
  unfold message_text, message_items. rewrite items_text_app. unfold lines_text. fold unknown_text. f_equal.
  unfold message_lines, items_text. induction (sorted_fields D) as [|field fs IH]; [done|].
  cbn [fmap list_fmap concat]. rewrite !fmap_app, !concat_app, IH. f_equal. unfold field_lines, field_items.
  rewrite <- !list_fmap_compose. f_equal. apply list_fmap_ext. intros i v _. unfold line_text. cbn.
  by rewrite <- !app_assoc.
Qed.

(** They begin with a number. *)
Lemma unknown_first u us : unknown_fields_ from = u :: us -> exists n rest, 0 <= n < 2 ^ 64 /\
  unknown_text = decimal 20 n ++ rest /\ (first rest = 10 \/ first rest = 32 \/ first rest = 58).
Proof.
  intros Hu. assert (unknown_to K u = true) as Hok by (apply (m_unknown _ _ Hfrom); rewrite Hu; by left).
  unfold unknown_to in Hok. apply andb_true_iff in Hok as [Hok _]. destruct (unknown_ok_number _ _ Hok) as [Hn _].
  unfold number_ok in Hn. unfold unknown_text, items_text. rewrite Hu.
  assert (int_text (u_number u) = decimal 20 (u_number u)) as Hi by (unfold int_text; destruct (Z.ltb_spec (u_number u) 0); [lia|done]).
  exists (u_number u). cbn [unknown_items fmap list_fmap concat].
  destruct u as [n v|n v|n v|n v|n g]; cbn [u_number] in *; rewrite ?Hi; [| | |destruct (embedded_fields v)|];
    cbn [item_text app]; eexists; rewrite <- !app_assoc; (split; [lia|]); (split; [reflexivity|]); cbn; auto.
Qed.

Lemma sorted_facts : (forall field, field ∈ sorted_fields D -> field ∈ d_fields D /\ fd_write field ∈ k_writes K) /\
  fd_index <$> sorted_fields D = w_member <$> k_writes K /\ NoDup (fd_index <$> sorted_fields D).
Proof.
  destruct (descriptor_facts K D HW) as (Hw & _).
  assert (fd_index <$> sorted_fields D = w_member <$> k_writes K) as Hi by (rewrite <- Hw, <- list_fmap_compose; done).
  split_and!; [|done|].
  - intros field Hf. split; [by rewrite <- sorted_fields_perm|]. rewrite <- Hw. by apply list_elem_of_fmap_2.
  - rewrite Hi. by destruct (covers_spec _ _ (f_covers _ HK)).
Qed.

(** What a parser that may set the fields makes of the text: the fields, and an error if there
    are unknown fields behind them. *)
Lemma parse_message_text msg (input : T) : kinds K msg -> 0 <= has_bits_ msg ->
  (policy = ALLOW_SINGULAR_OVERWRITES \/ has_bits_ msg = 0) ->
  good_input input -> (blanks input < rounds)%nat -> chars_left input = message_text D from ->
  (length (message_text D from) < rounds)%nat -> forall allow_unknown,
  exists reports input', run_impl rounds (ParserImpl_Parse rounds D policy allow_unknown nan_bits) input None msg =
    Ok (mkparsed (bool_decide (unknown_fields_ from = [])) (MergeFrom K (set_unknown [] from) msg) None reports input') /\
    if bool_decide (unknown_fields_ from = []) then reports = [] else no_name reports.
Proof.
  intros Hk Hb Hset Hg Hbl Hc Hlen allow_unknown. destruct sorted_facts as (Hfs & Hi & Hd).
  rewrite <- message_lines_text in Hc, Hlen.
  assert (MergeFrom K (set_unknown [] from) msg = foldl (merge_one from) msg (fd_index <$> sorted_fields D)) as ->.
  { rewrite (MergeFrom_writes K HK) by (done || by apply (wf_msg_kinds K from)). rewrite Hi.
    replace (foldl (merge_one (set_unknown [] from)) msg (w_member <$> k_writes K)) with
      (foldl (merge_one from) msg (w_member <$> k_writes K)) by done. cbn [unknown_fields_ set_unknown]. rewrite app_nil_r.
    destruct (fold_merge_frame from (w_member <$> k_writes K) msg) as (_ & <- & _). by destruct (foldl _ _ _). }
  assert (writes (message_lines (sorted_fields D)) msg (foldl (merge_one from) msg (fd_index <$> sorted_fields D))) as Hw.
  { apply fields_write; [done..|]. destruct Hset as [|Hset]; [by left|right]. intros field _. unfold has. rewrite Hset. apply Z.bits_0. }
  destruct (unknown_fields_ from) as [|u us] eqn:Eu.
  - assert (unknown_text = []) as Et by (unfold unknown_text; by rewrite Eu). rewrite Et in *.
    apply (run_lines rounds nan_bits D HD policy allow_unknown [] TYPE_END [] []
      (lexes_end rounds [] ltac:(constructor)) ltac:(done) (message_lines (sorted_fields D))); [done| |done..].
    intros n p Hn Hp. by eapply end_stops.
  - destruct (unknown_first u us Eu) as (n & rest & Hn & Et & Hr).
    assert (lexes (T := T) (E := reports) rounds unknown_text TYPE_INTEGER (decimal 20 n) rest) as Hl.
    { rewrite Et. by apply lexes_decimal. }
    destruct (decimal_plain n Hn) as (Hdg & Hne & _).
    assert (forall c, is_dec c \/ decimal 20 n <> [c]) as Hdc.
    { intros c. destruct (decimal 20 n) as [|d ds]; [by right|]. apply Forall_cons in Hdg as [Hdg _].
      destruct (decide (d = c)) as [->|]; [by left|right; congruence]. }
    assert (TYPE_INTEGER <> TYPE_STRING_LITERAL /\ decimal 20 n <> text ";" /\ decimal 20 n <> text ",") as Hplain.
    { split_and!; [done|destruct (Hdc 59) as [Hx|Hx]; [unfold is_dec in Hx; lia|exact Hx]|destruct (Hdc 44) as [Hx|Hx]; [unfold is_dec in Hx; lia|exact Hx]]. }
    apply (run_lines rounds nan_bits D HD policy allow_unknown unknown_text TYPE_INTEGER (decimal 20 n) rest Hl Hplain
      (message_lines (sorted_fields D))); [done| |done..].
    intros k p Hk' Hp. eapply number_stops; [done..| |done|exact Hp]. destruct (Hdc 91) as [Hx|Hx]; [unfold is_dec in Hx; lia|exact Hx].
Qed.
End Messages.

(** * Strings *)

(** The stream over a string, at its beginning. *)
Lemma string_stream_good data_at l : Z.of_nat (length l) < 2 ^ 31 -> good_array data_at l (string_stream data_at l).
Proof.
  intros Hl. unfold string_stream. rewrite s32_small by lia.
  split; cbn; try done; [|lia]. destruct l; [by right|left; cbn; lia].
Qed.

(** The descriptors of the program. *)
Lemma descriptor_named k D : descriptor_of k = Some D -> named_descriptor D = true.
Proof.
  unfold descriptor_of. repeat (destruct (k =? _); [intros [= <-]; vm_compute; reflexivity|]). done.
Qed.

Section Program.
Context (rounds : nat) (nan_bits data_at : Z) (k : Z) (K : message_class) (D : Descriptor) (from : message).
Context (Hk : class_of k = Some K) (HD : descriptor_of k = Some D) (Hfrom : msg_facts K from).
Context (Hfloat : floats_kept nan_bits D from).
Context (Hlen : Z.of_nat (length (message_text D from)) < 2 ^ 31) (Hrounds : (length (message_text D from) < rounds)%nat).

(** Parsing the text of a message, with either policy. *)
Lemma parse_text_string policy allow_unknown msg : kinds K msg -> 0 <= has_bits_ msg ->
  (policy = ALLOW_SINGULAR_OVERWRITES \/ has_bits_ msg = 0) ->
  exists reports input', run_impl (H := array_input (block data_at (message_text D from))) rounds
    (ParserImpl_Parse (H := array_input (block data_at (message_text D from))) rounds D policy allow_unknown nan_bits)
    (string_stream data_at (message_text D from)) None msg =
    Ok (mkparsed (bool_decide (unknown_fields_ from = [])) (MergeFrom K (set_unknown [] from) msg) None reports input') /\
    if bool_decide (unknown_fields_ from = []) then reports = [] else no_name reports.
Proof.
  intros Hkd Hb Hset. pose proof (class_of_facts k K Hk) as HK.
  destruct (descriptor_of_class k K Hk) as (D' & E & HW & _). rewrite HD in E. injection E as <-.
  apply (parse_message_text (IL := array_input_laws _ data_at (message_text D from) (holds_blit _ _ _))
    rounds nan_bits K HK D HW (descriptor_named k D HD) policy from Hfrom Hfloat); try done.
  - by apply string_stream_good.
  - cbn. lia.
Qed.

Lemma cleared_kinds msg : msg_facts K msg -> kinds K (Clear K msg) /\ has_bits_ (Clear K msg) = 0.
Proof.
  intros Hm. pose proof (class_of_facts k K Hk) as HK. rewrite (Clear_new_object K HK msg Hm). split; [|done].
  exact (wf_msg_kinds K _ (proj1 (wf_msg_facts K _) (f_new _ HK))).
Qed.

(** Into a cleared message, merging copies. *)
Lemma merge_cleared msg : msg_facts K msg -> MergeFrom K (set_unknown [] from) (Clear K msg) =
  mkmsg (has_bits_ from) (members from) [] (cached_size_ msg).
Proof.
  intros Hm. pose proof (class_of_facts k K Hk) as HK. rewrite (Clear_new_object K HK msg Hm).
  assert (msg_facts K (set_unknown [] from)) as Hf.
  { destruct Hfrom as [H1 H2 H3 H4]. split; [done|exact H2|done|]. intros u Hu. by apply not_elem_of_nil in Hu. }
  by rewrite (MergeFrom_fresh K HK _ _ Hf).
Qed.
End Program.
