(* ===== verification/TextProps.v ===== *)
(** The properties of the text of messages: what the console shows, the text of
    parsed messages, its bytes and its length, the depth of the printer, escaping, numerals,
    floating point texts, sets of unknown fields and descriptors; and texts that are read back,
    whatever they are and whatever the buffers of the stream. *)

From Stdlib Require Import String.
From S2P Require Import Prelude CMem BitRead Ice IceProofs Tins Sniffles Packets Handler SniffProps.
From S2P Require Import Coded CodedSpec Wire Messages NetMessages WireSpec MsgSpec WireTrip MsgTables MsgTrip MsgParser MsgProps.
From S2P Require Import Main ProgramProps UnknownSpec Float32 StrUtil Numerals StrUtilProofs Escape EscapeProofs.
From S2P Require Import FloatText Tokenizer TextGen TextGenProofs TextFormat Descriptors TextSpec TextSize MsgPrint.
From S2P Require Import TextParser TokenProofs ParserRuns ParserSim TextTrip.

(** The numbers of the samples need no more than their byte. *)
#[local] Instance plain_slot : VarargSlot := fun v => v.

(** * The console *)

(** A message that the parser of its class reads from at most 11500 bytes; the other lines are
    of numbers and addresses, whatever they are. *)
Definition event_decoded `{TR : TagReader} (e : event message) : Prop :=
  match e with
  | OMsg k _ msg => exists bs, Forall is_byte bs /\
      decode (MessageParser := message_parser 0) k bs = Some msg /\ Z.of_nat (length bs) <= short_message
  | _ => True
  end.

Lemma decoded_printable `{TR : TagReader} e : event_decoded e -> event_printable e.
Proof.
  destruct e as [| | | | | | |k z msg]; try done. intros (bs & Hb & Hd & Hl). cbn [event_printable].
  destruct (decoded_below 0 k bs msg Hb Hd) as (K & Ek & Hm & Hw). by eapply below_printable.
Qed.

(** C6: the console.  Whatever lines the handler prints, with any numbers and addresses and in any
    order, and whatever messages among them, each of which the parser of its class reads from
    bytes of the network, at most 11500 of them: the calls of [printf] write, byte for byte, these
    lines and the texts of the messages, in order; none of the calls that make the texts fails, and
    every byte written is printable ASCII or ends a line, whatever strings and unknown fields the
    messages hold. *)
Theorem console_text_exact `{TR : TagReader} `{GL : StringGrowthLaws} `{AL : AddressTextLaws}
    `{VS : VarargSlot} junk data_at evs :
  Forall event_decoded evs ->
  console_text junk data_at evs = Ok (concat (event_lines <$> evs)) /\
  Forall (fun c => text_char c = true) (concat (event_lines <$> evs)).
Proof.
  intros Hs. apply console_text_spec. eapply Forall_impl; [exact Hs|]. intros e. apply decoded_printable.
Qed.

(** What a capture of [ProgramProps] shows are such lines, if the messages are short. *)
Definition event_short (e : event message) : Prop :=
  match e with OMsg _ size _ => size <= short_message | _ => True end.

Lemma prints_decoded `{TR : TagReader} s :
  sent_ok s -> Forall event_short (prints s) -> Forall event_decoded (prints s).
Proof.
  destruct s as [[k msg]|x]; [|constructor]. intros (K & Ek & Hw) Hs%Forall_inv. constructor; [|constructor].
  exists (snd (serialize (k, msg))). pose proof (serialize_ok (k, msg) (ex_intro _ K (conj Ek Hw))) as [_ Hb].
  split; [exact Hb|]. split; [|exact Hs]. cbn [decode message_parser]. cbn [fst snd] in *. unfold serialize.
  cbn [fst snd]. rewrite Ek. cbn [mbind option_bind]. rewrite (class_of_new _ _ Ek). unfold fresh.
  apply decode_serialized; [by eapply class_of_facts|by apply wf_msg_facts].
Qed.

Lemma payload_events_decoded `{TR : TagReader} plain : Forall event_decoded (payload_events plain).
Proof.
  unfold payload_events. destruct plain as [|d l]; [constructor|].
  constructor; [done|]. constructor; [done|]. destruct (offset_ok _); by repeat constructor.
Qed.

Lemma shows_decoded `{TR : TagReader} sbox k fuel x v :
  shows sbox k fuel x v -> Forall event_short (v_events v) -> Forall event_decoded (v_events v).
Proof.
  intros Hx Hs. destruct Hx as [|ip udp payload plain|old ip udp h msgs filler payload pkt _ _ _ Hm];
    cbn [v_events] in *; [constructor| |]; (apply Forall_app_2; [by repeat constructor|]);
    [apply payload_events_decoded|]. apply Forall_app_2; [apply payload_events_decoded|].
  destruct (flags_pass _); [|constructor]. apply Forall_app in Hs as [_ [_ Hs]%Forall_app].
  clear - Hm Hs. induction Hm as [|s msgs Hs1 _ IH]; [constructor|].
  cbn [fmap list_fmap concat] in *. apply Forall_app in Hs as [H1 H2].
  apply Forall_app_2; [by apply prints_decoded|by apply IH].
Qed.

(** What the console shows of the sample capture. *)
Lemma console_text_exact_witness :
  console_text (H := usual_growth) (H0 := dotted_quad) [] 4096 (reject_events ++ sample_events) =
    Ok (concat (event_lines (A := dotted_quad) <$> (reject_events ++ sample_events))).
Proof.
  apply (console_text_exact (TR := plain_tag_reader)).
  apply Forall_app_2; [by repeat constructor|]. apply Forall_app_2; [by repeat constructor|].
  constructor; [done|]. constructor; [done|]. constructor; [done|].
  constructor; [|constructor; [|constructor]].
  - exists (snd (serialize (net_Tick, sample_tick))). split; [|split; [reflexivity|vm_compute; done]].
    apply (serialize_ok (net_Tick, sample_tick)). apply (Forall_inv sample_objects_ok).
  - exists (snd (serialize (net_SignonState, sample_signon))). split; [|split; [reflexivity|vm_compute; done]].
    apply (serialize_ok (net_SignonState, sample_signon)). apply (Forall_inv (Forall_inv_tail sample_objects_ok)).
Defined.

(** * The text of a message *)

(** C7: refinement.  Of any bytes that a class's parser accepts - bytes from the network, with
    whatever strings, unknown fields, groups and values inside values - [DebugString] comes to
    an end and returns the tree of the message: a line [name: value] for every field that is
    present, in the order of the field numbers, then the unknown fields by number, with blocks
    for groups and for values that are themselves messages.  Buffers, growth of the string,
    pieces and indentation never show.  The text must stay below half a gigabyte. *)
Theorem DebugString_refines `{TR : TagReader} `{GL : StringGrowthLaws}
    slack junk data_at k bs msg D fuel :
  Forall is_byte bs -> Z.of_nat (length bs) < 2 ^ 26 ->
  decode (MessageParser := message_parser slack) k bs = Some msg -> descriptor_of k = Some D ->
  Z.of_nat (length (message_text D msg)) < text_limit -> (length bs < fuel)%nat ->
  DebugString junk data_at fuel D msg = Ok (message_text D msg).
Proof.
  intros Hb Hl E ED Ht Hf. destruct (decoded_below slack k bs msg Hb E) as (K & Ek & Hm & Hw).
  destruct (descriptor_of_class k K Ek) as (D' & ED' & HD & _). rewrite ED in ED'. injection ED' as <-.
  apply (DebugString_text junk data_at K msg Hm (below_small _ _ Hw Hl) D HD); [|done].
  unfold msg_below, message_weight in Hw. lia.
Qed.

(** A sign-on with a map name that needs escapes and two fields that its class does not know:
    one whose value is a message, one whose value is none. *)
Definition odd_signon : list Z := [8; 2; 42; 3; 97; 34; 200; 58; 2; 8; 1; 66; 2; 255; 255].
Definition odd_message : message :=
  mkmsg 0x11 [VInt 2; VInt 0; VInt 0; VRep []; VStr [97; 34; 200]]
    [ULengthDelimited 7 [8; 1]; ULengthDelimited 8 [255; 255]] 0.

(** Lines, with a backquote for the quotation mark. *)
Definition text_of_lines (l : list string) : list Z :=
  concat ((fun s => (fun c => if c =? 96 then 34 else c) <$> (text s ++ [10])) <$> l).

Lemma DebugString_refines_witness :
  DebugString (H := usual_growth) [] 4096 16 CNETMsg_SignonState_descriptor odd_message =
  Ok (text_of_lines ["signon_state: 2"; "map_name: `a\`\310`"; "7 {"; "  1: 1"; "}"; "8: `\377\377`"]%string).
Proof.
  assert (Forall is_byte odd_signon) as Hb by (repeat constructor; unfold is_byte; lia).
  rewrite (DebugString_refines (TR := plain_tag_reader) (GL := usual_growth_laws)
    0 [] 4096 net_SignonState odd_signon odd_message CNETMsg_SignonState_descriptor 16 Hb).
  - vm_compute. reflexivity.
  - vm_compute. reflexivity.
  - vm_compute. reflexivity.
  - reflexivity.
  - vm_compute. reflexivity.
  - cbn. lia.
Defined.

(** C8: bounds.  The text of a message that comes from [n] bytes has at most 4 n^2 + 91 n + 1260
    characters - a line for each of the 21 fields, four characters for a byte, an indentation
    that grows with the nesting - so that up to 11500 bytes no message makes [DebugString]
    fail. *)
Theorem DebugString_bounded `{TR : TagReader} `{GL : StringGrowthLaws}
    slack junk data_at k bs msg D :
  Forall is_byte bs -> decode (MessageParser := message_parser slack) k bs = Some msg ->
  descriptor_of k = Some D ->
  let n := Z.of_nat (length bs) in
  Z.of_nat (length (message_text D msg)) <= 4 * n * n + 91 * n + 1260 /\
  (n <= short_message -> exists t, DebugString junk data_at (S (length bs)) D msg = Ok t /\
     Z.of_nat (length t) <= 4 * n * n + 91 * n + 1260).
Proof.
  intros Hb E ED n. destruct (decoded_below slack k bs msg Hb E) as (K & Ek & Hm & Hw).
  pose proof (class_of_facts k K Ek) as HK.
  destruct (descriptor_of_class k K Ek) as (D' & ED' & HD & _ & HS). rewrite ED in ED'. injection ED' as <-.
  assert (Z.of_nat (length (message_text D msg)) <= 4 * n * n + 91 * n + 1260) as Hl.
  { pose proof (message_text_length K HK D HD HS msg Hm) as Hl.
    unfold msg_below, message_weight, text_bound, n in *. nia. }
  split; [done|]. intros Hn. exists (message_text D msg). split; [|done]. unfold short_message in Hn.
  apply (DebugString_text junk data_at K msg Hm (below_small _ _ Hw ltac:(unfold n in *; lia)) D HD).
  - unfold msg_below, message_weight in Hw. lia.
  - unfold text_limit. nia.
Qed.

Lemma DebugString_bounded_witness :
  exists t, DebugString (H := usual_growth) [] 4096 16 CNETMsg_SignonState_descriptor
    odd_message = Ok t /\ Z.of_nat (length t) <= 3525.
Proof.
  assert (Forall is_byte odd_signon) as Hb by (repeat constructor; unfold is_byte; lia).
  apply (DebugString_bounded (TR := plain_tag_reader) (GL := usual_growth_laws)
    0 [] 4096 net_SignonState odd_signon odd_message CNETMsg_SignonState_descriptor Hb); done.
Defined.

(** C24: the depth.  The parser limits groups to 100 levels, the printer limits nothing: for every
    [d] whose text is not too long for a string there is a message of at most 5 d + 2 bytes, which [ParseFromArray] accepts, whose unknown
    field is a message in a message and so on, and printing it takes exactly d + 1 calls of
    [PrintUnknownFields] inside each other: with that depth the whole text of 2 d^2 + 6 d + 5
    characters comes out, with any smaller one the depth, and nothing else, is what fails.  A datagram
    of 50 kilobytes is enough for ten thousand calls. *)
Theorem nested_values_recurse `{TR : TagReader} `{GL : StringGrowthLaws} slack junk data_at d :
  Z.of_nat (2 * d * d + 6 * d + 5) < text_limit ->
  exists bs msg, Forall is_byte bs /\ (length bs <= 5 * d + 2)%nat /\
    decode (MessageParser := message_parser slack) net_Tick bs = Some msg /\
    length (message_text CNETMsg_Tick_descriptor msg) = (2 * d * d + 6 * d + 5)%nat /\
    (forall fuel, DebugString junk data_at fuel CNETMsg_Tick_descriptor msg =
       if (fuel <=? d)%nat then Fault OutOfFuel else Ok (message_text CNETMsg_Tick_descriptor msg)).
Proof.
  intros Hd. assert (Z.of_nat (5 * d + 2) < 2 ^ 26) as Hd' by (unfold text_limit in Hd; nia).
  exists (nested_bytes d), (nested_tick d).
  split; [by apply (nested_ok d ltac:(lia))|]. split; [apply nested_length; lia|].
  split; [apply nested_decodes; lia|]. rewrite nested_tick_text by lia. split.
  - rewrite nested_text_length. cbn [length]. lia.
  - intros fuel. by apply nested_DebugString.
Qed.

Lemma nested_values_recurse_witness :
  exists bs msg, Forall is_byte bs /\ (length bs <= 5 * 1000 + 2)%nat /\
    decode (MessageParser := message_parser (H := plain_tag_reader) 0) net_Tick bs = Some msg /\
    DebugString (H := usual_growth) [] 4096 1000 CNETMsg_Tick_descriptor msg = Fault OutOfFuel /\
    DebugString (H := usual_growth) [] 4096 1001 CNETMsg_Tick_descriptor msg =
      Ok (message_text CNETMsg_Tick_descriptor msg).
Proof.
  destruct (nested_values_recurse (TR := plain_tag_reader) (GL := usual_growth_laws) 0 [] 4096 1000)
    as (bs & msg & Hb & Hl & Hdec & _ & Hf).
  - unfold text_limit. lia.
  - exists bs, msg. split; [exact Hb|]. split; [exact Hl|]. split; [exact Hdec|]. split; rewrite Hf; [|].
    + by destruct (Nat.leb_spec 1000 1000); [|lia].
    + by destruct (Nat.leb_spec 1001 1000); [lia|].
Defined.

(** * Escaping *)

(** C25: round trip.  [CEscape], [Utf8SafeCEscape] and [CHexEscape] never leave the array they
    allot, whatever the bytes, and [UnescapeCEscapeString] gives the bytes back - a hexadecimal
    escape in front of a hexadecimal digit included; what [CEscape] and [CHexEscape] return is
    printable ASCII. *)
Theorem escape_roundtrip junk junk' src :
  Forall is_byte src -> Z.of_nat (length src) < 2 ^ 28 ->
  exists c u h, CEscape junk src = Ok c /\ Utf8SafeCEscape junk src = Ok u /\ CHexEscape junk src = Ok h /\
    UnescapeCEscapeString junk' c = Ok src /\ UnescapeCEscapeString junk' u = Ok src /\
    UnescapeCEscapeString junk' h = Ok src /\
    Forall (fun x => print_char x = true) c /\ Forall (fun x => print_char x = true) h.
Proof.
  intros Hs Hl. do 3 eexists. do 3 (split; [by apply escape_to_string_spec|]).
  do 3 (split; [by apply unescape_escape_spec|]). split; by apply escaped_print.
Qed.

Lemma escape_roundtrip_witness :
  exists c h, CEscape [] [1; 49; 34; 233] = Ok c /\
    CHexEscape [] [1; 49; 34; 233] = Ok h /\ h <> c /\
    UnescapeCEscapeString [] c = Ok [1; 49; 34; 233] /\
    UnescapeCEscapeString [] h = Ok [1; 49; 34; 233].
Proof.
  destruct (escape_roundtrip [] [] [1; 49; 34; 233]) as (c & u & h & Ec & _ & Eh & H1 & _ & H2 & _).
  - repeat constructor; unfold is_byte; lia.
  - cbn. lia.
  - exists c, h. do 2 (split; [done|]). split; [|done]. intros ->. vm_compute in Ec, Eh. congruence.
Defined.

(** C40: errors.  [CEscapeInternal] on any array of any size: the text and a zero where both
    fit, the result -1 where they do not - except that it asks for four characters before
    [sprintf] writes four and a zero, so that a character without an own letter which finds
    exactly four left ([overrun]) writes the zero behind the array.  The arrays that the callers
    allot are large enough for this never to happen. *)
Theorem CEscapeInternal_exact use_hex utf8_safe src dest :
  let n := Z.of_nat (length dest) in
  let t := escaped use_hex utf8_safe false src in
  let run := CEscapeInternal src n use_hex utf8_safe dest in
  (overrun use_hex utf8_safe false n src = true -> run = Fault (OutOfBounds n)) /\
  (overrun use_hex utf8_safe false n src = false -> Z.of_nat (length t) < n ->
     exists rest, length (t ++ 0 :: rest) = length dest /\
       run = Ok (Some (Z.of_nat (length t)), t ++ 0 :: rest)) /\
  (overrun use_hex utf8_safe false n src = false -> n <= Z.of_nat (length t) ->
     exists dest', length dest' = length dest /\ run = Ok (None, dest')) /\
  (4 * Z.of_nat (length src) < n -> overrun use_hex utf8_safe false n src = false /\ Z.of_nat (length t) < n).
Proof.
  intros n t run. pose proof (CEscapeInternal_spec use_hex utf8_safe src dest) as H. cbv zeta in H.
  fold n t run in H. split; [by intros E; rewrite E in H|]. split; [|split].
  - intros E Hl. rewrite E in H. destruct (Z.ltb_spec (Z.of_nat (length t)) n); [|lia].
    destruct H as (b' & Eb & H). exists (drop (length (t ++ [0])) b').
    rewrite <- (drop_0 (list_inserts 0 _ b')), drop_inserts, <- app_assoc in H by (rewrite length_app; cbn; lia).
    split; [|exact H].
    rewrite !length_app in *. cbn [length] in *. rewrite length_drop. lia.
  - intros E Hl. rewrite E in H. by destruct (Z.ltb_spec (Z.of_nat (length t)) n); [lia|].
  - intros Hr. split; [by apply overrun_room|]. pose proof (escaped_length use_hex utf8_safe false src). unfold t. lia.
Qed.

Lemma CEscapeInternal_exact_witness :
  CEscapeInternal [65; 7] 5 false false [0; 0; 0; 0; 0] = Fault (OutOfBounds 5).
Proof. apply (CEscapeInternal_exact false false [65; 7] [0; 0; 0; 0; 0]). reflexivity. Defined.

(** * Numbers *)

(** Equivalence.  [SimpleItoa] of every integer type - two digits at a time from tables, out
    of the middle of a chain of labels, from either end of a buffer, with the smallest integers
    apart - gives the plain decimal numeral, and never leaves its buffer of 32 characters;
    numerals of different integers differ. *)
Theorem SimpleItoa_decimal junk :
  (forall i, - 2 ^ 31 <= i < 2 ^ 31 -> SimpleItoa_int junk i = Ok (int_text i) /\
     SimpleItoa_long junk i = Ok (int_text i)) /\
  (forall u, 0 <= u < 2 ^ 32 -> SimpleItoa_unsigned_int junk u = Ok (int_text u) /\
     SimpleItoa_unsigned_long junk u = Ok (int_text u)) /\
  (forall i, - 2 ^ 63 <= i < 2 ^ 63 -> SimpleItoa_long_long junk i = Ok (int_text i)) /\
  (forall u, 0 <= u < 2 ^ 64 -> SimpleItoa_unsigned_long_long junk u = Ok (int_text u)) /\
  (forall i j, - 2 ^ 63 <= i < 2 ^ 64 -> - 2 ^ 63 <= j < 2 ^ 64 -> int_text i = int_text j -> i = j).
Proof.
  split; [intros i Hi; split; by apply SimpleItoa_int_spec|].
  split; [intros u Hu; split; by apply SimpleItoa_unsigned_int_spec|].
  split; [intros i; apply SimpleItoa_long_long_spec|].
  split; [intros u; apply SimpleItoa_unsigned_long_long_spec|].
  intros i j Hi Hj. apply int_text_inj; lia.
Qed.

Lemma SimpleItoa_decimal_witness :
  SimpleItoa_int [] (- 2147483648) = Ok [45; 50; 49; 52; 55; 52; 56; 51; 54; 52; 56].
Proof.
  destruct (SimpleItoa_decimal []) as [H _]. destruct (H (- 2147483648) ltac:(lia)) as [E _]. exact E.
Defined.

(** Error.  The text of a [float] always fits its buffer, as the asserts say, consists of
    digits, a sign, a dot and the letters of e, inf and nan, and is not cut off - but its eight
    digits do not tell all floats apart, as the header of the functions promises. *)
Theorem float_text_fits_not_exact :
  (forall v, Z.of_nat (length (SimpleFtoa v)) < kFloatToBufferSize /\ Forall number_char (SimpleFtoa v)) /\
  (forall prec f, 0 < prec <= FLT_DIG + 2 -> snprintf kFloatToBufferSize (print_g32 prec f) = print_g32 prec f) /\
  (forall prec f, 0 < prec <= DBL_DIG + 2 -> snprintf kDoubleToBufferSize (print_g64 prec f) = print_g64 prec f) /\
  (SimpleFtoa 0x447FFFFF = SimpleFtoa 0x447FFFFE /\ f32_of_bits 0x447FFFFF <> f32_of_bits 0x447FFFFE).
Proof.
  split; [intros v; split; [pose proof (SimpleFtoa_length v); unfold kFloatToBufferSize; lia|apply FloatToBuffer_chars]|].
  split; [intros prec f; apply snprintf_float|]. split; [intros prec f; apply snprintf_double|].
  split; [vm_compute; reflexivity|]. vm_compute. congruence.
Qed.

(** * Unknown fields and descriptors *)

(** Round trip.  [UnknownFieldSet::ParseFromString] - through an array stream, its buffers,
    limits and the give-back of the rest - computes the reference decoder of a sequence of
    fields, for all bytes and without a fault; so it restores every set that
    [SerializeUnknownFieldsToArray] writes. *)
Theorem unknown_fields_from_string data :
  (forall bs, Forall is_byte bs -> Z.of_nat (length bs) < 2 ^ 26 ->
     UnknownFieldSet_ParseFromString data bs =
     Ok (match unknown_fields_of bs with Some us => (true, us) | None => (false, []) end)) /\
  (forall us, forallb (unknown_ok 0) us = true ->
     Z.of_nat (length (SerializeUnknownFieldsToArray us)) < 2 ^ 26 ->
     UnknownFieldSet_ParseFromString data (SerializeUnknownFieldsToArray us) = Ok (true, us)).
Proof.
  split; [intros bs; apply ParseFromString_spec|]. intros us Hus Hl.
  assert (Forall (fun u => unknown_ok 0 u = true) us) as Hu.
  { apply Forall_forall. intros u. by apply (forallb_elem (unknown_ok 0)). }
  by rewrite ParseFromString_spec, unknown_fields_trip by (done || by apply set_bytes).
Qed.

Lemma unknown_fields_from_string_witness :
  UnknownFieldSet_ParseFromString 4096
    (SerializeUnknownFieldsToArray [UVarint 3 300; UGroup 4 [UFixed32 1 7; ULengthDelimited 2 [104; 105]]]) =
  Ok (true, [UVarint 3 300; UGroup 4 [UFixed32 1 7; ULengthDelimited 2 [104; 105]]]).
Proof. apply (unknown_fields_from_string 4096); [reflexivity|vm_compute; reflexivity]. Defined.

(** Equivalence.  The names, numbers, types and labels by which the printer goes are those
    of the descriptors that the generated code registers as bytes, and they agree, field by
    field, with the tables of the parser and the writer of the class, which are separate code. *)
Theorem descriptors_agree K D bs :
  In (K, D, bs) [(CNETMsg_Tick, CNETMsg_Tick_descriptor, CNETMsg_Tick_bytes);
    (CNETMsg_SignonState, CNETMsg_SignonState_descriptor, CNETMsg_SignonState_bytes);
    (CSVCMsg_ServerInfo, CSVCMsg_ServerInfo_descriptor, CSVCMsg_ServerInfo_bytes);
    (CSVCMsg_PacketEntities, CSVCMsg_PacketEntities_descriptor, CSVCMsg_PacketEntities_bytes)] ->
  descriptor_of_bytes bs = Some D /\ fd_write <$> sorted_fields D = k_writes K /\
  case_write <$> k_cases K = k_writes K /\ NoDup (fd_number <$> d_fields D).
Proof.
  pose proof descriptors_wf as H. repeat (apply andb_true_iff in H as [H ?]).
  pose proof classes_wf as C. repeat (apply andb_true_iff in C as [C ?]).
  destruct descriptors_registered as (R1 & R2 & R3 & R4).
  assert (forall K D bs, wf_class K = true -> wf_descriptor K D = true -> descriptor_of_bytes bs = Some D ->
    descriptor_of_bytes bs = Some D /\ fd_write <$> sorted_fields D = k_writes K /\
    case_write <$> k_cases K = k_writes K /\ NoDup (fd_number <$> d_fields D)) as Hall.
  { intros K' D' bs' HK HD HR. destruct (descriptor_facts K' D' HD) as (Hw & _ & Hn).
    split; [done|]. split; [done|]. split; [apply (f_link _ (wf_class_facts _ HK))|done]. }
  intros [[= <- <- <-]|[[= <- <- <-]|[[= <- <- <-]|[[= <- <- <-]|[]]]]]; by apply Hall.
Qed.

Lemma descriptors_agree_witness :
  descriptor_of_bytes CNETMsg_Tick_bytes = Some CNETMsg_Tick_descriptor.
Proof. apply (descriptors_agree CNETMsg_Tick CNETMsg_Tick_descriptor CNETMsg_Tick_bytes). by left. Defined.

(** * Texts that are read *)

(** C9: round trip.  What [DebugString] prints of a message without unknown fields
    [ParseFromString] reads back - into any message, without a report, all fields and has-bits
    as they were - and [MergeFromString] merges, as [MergeFrom] does.  Names, negative numbers,
    escapes, octal digits, repeated strings and the notations of floats go through the printer,
    the tokenizer and the parser; of a [float] the text's value comes back, so that those of the
    message are asked to be among the ones that their text determines. *)
Theorem DebugString_ParseFromString `{GL : StringGrowthLaws} junk data_at text_at k K D from msg rounds nan_bits :
  class_of k = Some K -> descriptor_of k = Some D -> msg_facts K from -> msg_facts K msg ->
  unknown_fields_ from = [] -> small_message from = true -> floats_kept nan_bits D from ->
  Z.of_nat (length (message_text D from)) < text_limit -> (length (message_text D from) < rounds)%nat ->
  exists txt input input', DebugString junk data_at 1 D from = Ok txt /\
    ParseFromString rounds K D nan_bits text_at txt msg =
      Ok (mkparsed true (mkmsg (has_bits_ from) (members from) [] (cached_size_ msg)) None [] input) /\
    MergeFromString rounds D nan_bits text_at txt msg = Ok (mkparsed true (MergeFrom K from msg) None [] input').
Proof.
  intros Hk HD Hf Hm Hu Hs Hfl Hl Hr. destruct (descriptor_of_class k K Hk) as (D' & E & HW & _). rewrite HD in E. injection E as <-.
  assert (Z.of_nat (length (message_text D from)) < 2 ^ 31) as Hl' by (unfold text_limit in Hl; lia).
  destruct (cleared_kinds k K Hk msg Hm) as [Hck Hcb].
  destruct (parse_text_string rounds nan_bits text_at k K D from Hk HD Hf Hfl Hl' Hr FORBID_SINGULAR_OVERWRITES false (Clear K msg))
    as (r1 & i1 & E1 & H1); [done|lia|by right|].
  destruct (parse_text_string rounds nan_bits text_at k K D from Hk HD Hf Hfl Hl' Hr ALLOW_SINGULAR_OVERWRITES false msg)
    as (r2 & i2 & E2 & H2); [exact (wf_msg_kinds K _ Hm)|apply (m_bits _ _ Hm)|by left|].
  rewrite bool_decide_true in E1, H1, E2, H2 by done. subst r1 r2. exists (message_text D from), i1, i2. split_and!.
  - apply (DebugString_text junk data_at K from Hf Hs D HW); [rewrite Hu; cbn; lia|done].
  - unfold ParseFromString, ParserParseFromString, ParserParse. rewrite E1. by rewrite (merge_cleared k K from Hk Hf msg Hm).
  - unfold MergeFromString, ParserMergeFromString, ParserMerge. rewrite E2. replace (set_unknown [] from) with from; [done|].
    destruct from. cbn in *. by subst.
Qed.

(** A server whose name needs escapes, with a negative slot, a large number and a tick interval
    of 0.015625 seconds. *)
Definition sample_server : message :=
  mkmsg 0x18c0a5
    [VInt 13764; VInt 0; VInt 1; VInt 0; VInt 0; VInt 0; VInt 0; VInt 119; VInt 0; VInt 0; VInt 0; VInt 0; VInt 0;
     VInt 0; VInt 0x3c800000; VStr [99; 115; 34; 10; 200; 56]; VStr []; VStr []; VStr []; VStr [92]; VInt 0xFFFFFFFFFFFFFFFF] [] 0.

Definition set_slot (v : Z) (msg : message) : message := set_has 13 (assign 13 (VInt v) msg).

Lemma DebugString_ParseFromString_witness :
  let from := set_slot (-1) sample_server in
  exists txt input input', DebugString (H := usual_growth) [] 4096 1 CSVCMsg_ServerInfo_descriptor from = Ok txt /\
    ParseFromString 1000 CSVCMsg_ServerInfo CSVCMsg_ServerInfo_descriptor 0x7fc00000 8192 txt sample_server =
      Ok (mkparsed true (mkmsg (has_bits_ from) (members from) [] 0) None [] input) /\
    MergeFromString 1000 CSVCMsg_ServerInfo_descriptor 0x7fc00000 8192 txt sample_server =
      Ok (mkparsed true (MergeFrom CSVCMsg_ServerInfo from sample_server) None [] input').
Proof.
  apply (DebugString_ParseFromString (GL := usual_growth_laws) [] 4096 8192 svc_ServerInfo CSVCMsg_ServerInfo
    CSVCMsg_ServerInfo_descriptor (set_slot (-1) sample_server) sample_server 1000 0x7fc00000).
  - reflexivity.
  - reflexivity.
  - apply wf_msg_facts. vm_compute. reflexivity.
  - apply wf_msg_facts. vm_compute. reflexivity.
  - reflexivity.
  - reflexivity.
  - intros field Hf Ht Hb. vm_compute in Hf.
    repeat (apply elem_of_cons in Hf as [->|Hf]; [try discriminate Ht; vm_compute; reflexivity|]). by apply not_elem_of_nil in Hf.
  - vm_compute. reflexivity.
  - apply Nat.ltb_lt. vm_compute. reflexivity.
Defined.

(** C12: error.  The unknown fields that [DebugString] prints are what [Parse] cannot read:
    the text of a message that has any ends every parse of it with the result [false] and the
    one report that an identifier is expected, whether unknown fields are allowed or not; by then
    all the fields that are known are in the message. *)
Theorem unknown_fields_not_parsed `{GL : StringGrowthLaws} junk data_at text_at k K D from msg rounds nan_bits fuel allow_unknown :
  class_of k = Some K -> descriptor_of k = Some D -> msg_facts K from -> msg_facts K msg ->
  unknown_fields_ from <> [] -> small_message from = true -> floats_kept nan_bits D from ->
  Z.of_nat (length (message_text D from)) < text_limit -> (length (message_text D from) < rounds)%nat ->
  (weights (unknown_fields_ from) < fuel)%nat ->
  exists txt line column input, DebugString junk data_at fuel D from = Ok txt /\
    ParserParseFromString rounds K D None allow_unknown nan_bits text_at txt msg =
      Ok (mkparsed false (mkmsg (has_bits_ from) (members from) [] (cached_size_ msg)) None
        [mkreport true line column (text "Expected identifier.")] input).
Proof.
  intros Hk HD Hf Hm Hu Hs Hfl Hl Hr Hw. destruct (descriptor_of_class k K Hk) as (D' & E & HW & _). rewrite HD in E. injection E as <-.
  assert (Z.of_nat (length (message_text D from)) < 2 ^ 31) as Hl' by (unfold text_limit in Hl; lia).
  destruct (cleared_kinds k K Hk msg Hm) as [Hck Hcb].
  destruct (parse_text_string rounds nan_bits text_at k K D from Hk HD Hf Hfl Hl' Hr FORBID_SINGULAR_OVERWRITES allow_unknown (Clear K msg))
    as (r1 & i1 & E1 & H1); [done|lia|by right|].
  rewrite bool_decide_false in E1, H1 by done. destruct H1 as (line & column & ->).
  exists (message_text D from), line, column, i1. split.
  - by apply (DebugString_text junk data_at K from Hf Hs D HW).
  - unfold ParserParseFromString, ParserParse. rewrite E1. by rewrite (merge_cleared k K from Hk Hf msg Hm).
Qed.

Lemma unknown_fields_not_parsed_witness : exists txt line column input,
  DebugString (H := usual_growth) [] 4096 16 CNETMsg_SignonState_descriptor odd_message = Ok txt /\
  ParserParseFromString 1000 CNETMsg_SignonState CNETMsg_SignonState_descriptor None true 0 8192 txt odd_message =
    Ok (mkparsed false (mkmsg (has_bits_ odd_message) (members odd_message) [] 0) None
      [mkreport true line column (text "Expected identifier.")] input).
Proof.
  apply (unknown_fields_not_parsed (GL := usual_growth_laws) [] 4096 8192 net_SignonState CNETMsg_SignonState
    CNETMsg_SignonState_descriptor odd_message odd_message 1000 0 16 true).
  - reflexivity.
  - reflexivity.
  - apply wf_msg_facts. vm_compute. reflexivity.
  - apply wf_msg_facts. vm_compute. reflexivity.
  - discriminate.
  - reflexivity.
  - intros field Hf Ht Hb. vm_compute in Hf.
    repeat (apply elem_of_cons in Hf as [->|Hf]; [discriminate Ht|]). by apply not_elem_of_nil in Hf.
  - vm_compute. reflexivity.
  - apply Nat.ltb_lt. vm_compute. reflexivity.
  - cbn. lia.
Defined.

(** C10: termination.  Whatever the text - control characters, open strings and comments, numbers
    and names of any length, nested groups that are skipped - and however a stream cuts it into
    buffers, [Parse] and [Merge] come to an end, leave no buffer, dereference no null pointer and
    read no more than is there; rounds as many as characters are enough for every loop.  The only
    fault is a failing assert, which a debug build does meet; otherwise the result is [true] only
    if no error was reported and [false] only if one was, or unknown fields are allowed. *)
Theorem Parse_total `{IL : InputLaws T} rounds K D tree allow_unknown nan_bits (input : T) msg :
  good_input input -> (blanks input < rounds)%nat -> (length (chars_left input) < rounds)%nat ->
  sound_call allow_unknown (ParserParse rounds K D tree allow_unknown nan_bits input msg) /\
  sound_call allow_unknown (ParserMerge rounds D tree allow_unknown nan_bits input msg).
Proof. intros Hg Hb Hl. split; by apply run_spec. Qed.

(** A string as the only buffer, and in buffers of [n] characters. *)
Definition cut_stream (data_at n : Z) (l : list Z) : ArrayInputStream :=
  ArrayInputStream_new data_at (Z.of_nat (length l)) n.

Lemma cut_stream_good data_at n l : 0 < n -> good_array data_at l (cut_stream data_at n l).
Proof. intros Hn. unfold cut_stream, ArrayInputStream_new. destruct (Z.ltb_spec 0 n); [|lia]. split; cbn; (done || lia || by left). Qed.

(** A number that the tokenizer takes for an octal one and the parser's assert does not. *)
Definition octal_text : list Z := text "tick: 089".

Lemma Parse_total_witness :
  let parse := ParserParse (H := array_input (block 4096 octal_text)) 10 CNETMsg_Tick CNETMsg_Tick_descriptor None false 0
    (cut_stream 4096 2 octal_text) (k_new CNETMsg_Tick) in
  sound_call false parse /\ parse = Fault AssertFailed.
Proof.
  split; [|vm_compute; reflexivity].
  refine (proj1 (Parse_total (IL := array_input_laws _ 4096 octal_text (holds_blit _ _ _)) 10 CNETMsg_Tick CNETMsg_Tick_descriptor
    None false 0 (cut_stream 4096 2 octal_text) (k_new CNETMsg_Tick) _ _ _)).
  - by apply cut_stream_good.
  - cbn. lia.
  - apply Nat.ltb_lt. vm_compute. reflexivity.
Defined.

(** C11: equivalence.  The buffers of the stream never show: on any two streams with the same
    characters - of any classes, cut into buffers anywhere, inside names, escapes and comments,
    with empty buffers between - [Parse], [Merge] and [ParseFieldValueFromString] give the same result, the
    same message, the same locations and the same reports at the same lines and columns, or meet
    the same fault. *)
Theorem buffers_do_not_show `{IL1 : InputLaws T1} `{IL2 : InputLaws T2} rounds K D tree allow_unknown nan_bits field
    (input1 : T1) (input2 : T2) msg : equal_inputs rounds input1 input2 ->
  same_outcome (ParserParse rounds K D tree allow_unknown nan_bits input1 msg)
               (ParserParse rounds K D tree allow_unknown nan_bits input2 msg) /\
  same_outcome (ParserMerge rounds D tree allow_unknown nan_bits input1 msg)
               (ParserMerge rounds D tree allow_unknown nan_bits input2 msg) /\
  same_outcome (ParseFieldValue rounds tree nan_bits field input1 msg)
               (ParseFieldValue rounds tree nan_bits field input2 msg).
Proof.
  intros Hi. split; [|split]; (apply run_alike; [exact Hi|]);
    [apply match_parse|apply match_parse|apply match_parse_field].
Qed.

(** Two lines, a comment and an error, in buffers of three characters and in one. *)
Definition sample_text : list Z := text "tick: 5 # five" ++ [10] ++ text "host_computationtime: 'x'".

Lemma buffers_do_not_show_witness :
  let parse n := ParserParse (H := array_input (block 4096 sample_text)) 100 CNETMsg_Tick CNETMsg_Tick_descriptor (Some ∅) false 0
    (cut_stream 4096 n sample_text) (k_new CNETMsg_Tick) in
  same_outcome (parse 3) (parse 1000) /\
  (parse_reports <$> parse 3) = Ok [mkreport true 1 22 (text "Expected integer.")].
Proof.
  split; [|vm_compute; reflexivity].
  refine (proj1 (buffers_do_not_show (IL1 := array_input_laws _ 4096 sample_text (holds_blit _ _ _))
    (IL2 := array_input_laws _ 4096 sample_text (holds_blit _ _ _)) 100 CNETMsg_Tick CNETMsg_Tick_descriptor (Some ∅) false 0
    (mkfield 0 [] 1 TYPE_UINT32 false) (cut_stream 4096 3 sample_text) (cut_stream 4096 1000 sample_text) (k_new CNETMsg_Tick) _)).
  split; [by apply cut_stream_good|]. split; [by apply cut_stream_good|]. split; [cbn; lia|]. split; [cbn; lia|]. reflexivity.
Defined.
