(* ===== verification/Objects.v ===== *)
(** Message objects as the program holds them: string members are pointers
    ([ArenaStringPtr] of google/protobuf/arenastring.h without arenas) to one shared empty string or
    to a string of the object's own.  The accessors and the life cycle that the generated code
    gives every class (src/generated_proto/netmessages_public.pb.h and .pb.cc, with
    [CNETMsg_SignonState] as the example), over the tables of [Messages]. *)

From S2P Require Import Prelude CMem Coded Wire Messages StrUtil.

(** * Strings on the heap *)

Record string_heap := mkheap {
  strings : gmap Z (list Z);
  next_string : Z
}.

(** [GetEmptyStringAlreadyInited()]. *)
Definition default_value : Z := 0.

Definition empty_heap : string_heap := mkheap {[default_value := []]} 1.

Definition read_string (p : Z) : ST string_heap (list Z) := fun h =>
  match strings h !! p with Some v => Ok (v, h) | None => Fault (OutOfBounds p) end.

(** [std::string::operator=], [assign] and [clear]. *)
Definition write_string (p : Z) (v : list Z) : ST string_heap unit := fun h =>
  match strings h !! p with
  | Some _ => Ok (tt, mkheap (<[p := v]> (strings h)) (next_string h))
  | None => Fault (OutOfBounds p)
  end.

(** [new std::string(v)]. *)
Definition new_string (v : list Z) : ST string_heap Z := fun h =>
  Ok (next_string h, mkheap (<[next_string h := v]> (strings h)) (next_string h + 1)).

(** [delete]. *)
Definition delete_string (p : Z) : ST string_heap unit := fun h =>
  match strings h !! p with
  | Some _ => Ok (tt, mkheap (delete p (strings h)) (next_string h))
  | None => Fault (OutOfBounds p)
  end.

(** * [ArenaStringPtr] *)

(** The argument [ptr] is [ptr_] before the call; a method that changes [ptr_] returns it. *)
Definition CreateInstanceNoArena (initial_value : option (list Z)) : ST string_heap Z :=
  match initial_value with
  | Some v => new_string v
  | None => new_string []
  end.

Definition SetNoArena (ptr : Z) (value : list Z) : ST string_heap Z :=
  if ptr =? default_value then CreateInstanceNoArena (Some value)
  else write_string ptr value;; mret ptr.

Definition GetNoArena (ptr : Z) : ST string_heap (list Z) := read_string ptr.

(** The pointer that is returned is [ptr_]. *)
Definition MutableNoArena (ptr : Z) : ST string_heap Z :=
  if ptr =? default_value then
    v ← read_string default_value; CreateInstanceNoArena (Some v)
  else mret ptr.

(** What is returned, [None] for null, and [ptr_]. *)
Definition ReleaseNoArena (ptr : Z) : option Z * Z :=
  if ptr =? default_value then (None, ptr) else (Some ptr, default_value).

Definition SetAllocatedNoArena (ptr : Z) (value : option Z) : ST string_heap Z :=
  (if ptr =? default_value then mret tt else delete_string ptr : ST string_heap unit);;
  mret (match value with Some p => p | None => default_value end).

Definition DestroyNoArena (ptr : Z) : ST string_heap unit :=
  if ptr =? default_value then mret tt else delete_string ptr.

Definition ClearToEmptyNoArena (ptr : Z) : ST string_heap unit :=
  if ptr =? default_value then mret tt else write_string ptr [].

Definition AssignWithDefault (me other : Z) : ST string_heap Z :=
  if me =? other then mret me
  else v ← GetNoArena other; SetNoArena me v.

(** * Objects *)

(** A number, [ptr_], or the strings of a repeated field, whose own storage
    (repeated_field.h) is not modelled. *)
Inductive slot :=
  | Num (v : Z)
  | Ptr (p : Z)
  | Strs (l : list (list Z)).

Record object := mkobj {
  o_has_bits : Z;
  slots : list slot;
  o_unknown : list UnknownField;
  o_cached_size : Z
}.

Definition set_slot (i : nat) (s : slot) (o : object) : object :=
  mkobj (o_has_bits o) (<[i := s]> (slots o)) (o_unknown o) (o_cached_size o).
Definition with_bits (b : Z) (o : object) : object :=
  mkobj b (slots o) (o_unknown o) (o_cached_size o).

Definition has_field (i : nat) (o : object) : bool :=
  negb (Z.land (o_has_bits o) (Z.shiftl 1 (Z.of_nat i)) =? 0).
Definition set_has_field (i : nat) (o : object) : object :=
  with_bits (Z.lor (o_has_bits o) (Z.shiftl 1 (Z.of_nat i))) o.
Definition clear_has_field (i : nat) (o : object) : object :=
  with_bits (Z.ldiff (o_has_bits o) (Z.shiftl 1 (Z.of_nat i))) o.

Abbreviation OnStrings := (ST string_heap).

(** The string member [i] with a method of [ArenaStringPtr]. *)
Definition on_pointer (i : nat) (c : Z -> OnStrings Z) (o : object) : OnStrings object :=
  match slots o !! i with
  | Some (Ptr p) => p' ← c p; mret (set_slot i (Ptr p') o)
  | _ => st_fault AssertFailed
  end.

(** ** Optional numbers *)

Definition number (i : nat) (o : object) : result Z :=
  match slots o !! i with Some (Num v) => Ok v | _ => Fault AssertFailed end.
Definition set_number (i : nat) (v : Z) (o : object) : object :=
  set_slot i (Num v) (set_has_field i o).
Definition clear_number (i : nat) (o : object) : object :=
  clear_has_field i (set_slot i (Num 0) o).

(** ** Optional strings *)

Definition get_string (i : nat) (o : object) : OnStrings (list Z) :=
  match slots o !! i with Some (Ptr p) => GetNoArena p | _ => st_fault AssertFailed end.
Definition set_string (i : nat) (v : list Z) (o : object) : OnStrings object :=
  on_pointer i (fun p => SetNoArena p v) (set_has_field i o).
(** From a null-terminated string, and from [size] bytes. *)
Definition set_string_char (i : nat) (value : list Z) (o : object) : OnStrings object :=
  v ← st_lift (c_string value 0); set_string i v o.
Definition set_string_pointer (i : nat) (value : list Z) (size : nat) (o : object)
    : OnStrings object :=
  if (size <=? length value)%nat then set_string i (take size value) o
  else st_fault (OutOfBounds (Z.of_nat (length value))).
Definition clear_string (i : nat) (o : object) : OnStrings object :=
  o ← on_pointer i (fun p => ClearToEmptyNoArena p;; mret p) o;
  mret (clear_has_field i o).
(** The object and the pointer that is returned. *)
Definition mutable_string (i : nat) (o : object) : OnStrings (Z * object) :=
  o ← on_pointer i MutableNoArena (set_has_field i o);
  match slots o !! i with Some (Ptr p) => mret (p, o) | _ => st_fault AssertFailed end.
Definition release_string (i : nat) (o : object) : OnStrings (option Z * object) :=
  match slots o !! i with
  | Some (Ptr p) =>
      let '(released, p') := ReleaseNoArena p in
      mret (released, set_slot i (Ptr p') (clear_has_field i o))
  | _ => st_fault AssertFailed
  end.
Definition set_allocated_string (i : nat) (value : option Z) (o : object) : OnStrings object :=
  let o := match value with Some _ => set_has_field i o | None => clear_has_field i o end in
  on_pointer i (fun p => SetAllocatedNoArena p value) o.

(** ** Repeated strings *)

Definition repeated (i : nat) (o : object) : result (list (list Z)) :=
  match slots o !! i with Some (Strs l) => Ok l | _ => Fault AssertFailed end.
Definition repeated_size (i : nat) (o : object) : result Z :=
  l ← repeated i o; mret (Z.of_nat (length l)).
Definition get_repeated (i j : nat) (o : object) : result (list Z) :=
  l ← repeated i o;
  match l !! j with Some v => Ok v | None => Fault (TableIndex (Z.of_nat j)) end.
Definition set_repeated (i j : nat) (v : list Z) (o : object) : result object :=
  l ← repeated i o;
  if (j <? length l)%nat then Ok (set_slot i (Strs (<[j := v]> l)) o)
  else Fault (TableIndex (Z.of_nat j)).
Definition add_repeated (i : nat) (v : list Z) (o : object) : result object :=
  l ← repeated i o; Ok (set_slot i (Strs (l ++ [v])) o).
Definition clear_repeated (i : nat) (o : object) : result object :=
  l ← repeated i o; Ok (set_slot i (Strs []) o).

(** ** The life of an object *)

Definition new_slot (v : value) : slot :=
  match v with VInt v => Num v | VStr _ => Ptr default_value | VRep l => Strs l end.

Definition SharedCtor (K : message_class) : object :=
  mkobj 0 (new_slot <$> members (k_new K)) [] 0.

Definition SharedDtor (o : object) : OnStrings unit :=
  foldr (fun s (rest : OnStrings unit) =>
    (match s with Ptr p => DestroyNoArena p | _ => mret tt end : OnStrings unit);; rest)
    (mret tt) (slots o).

Fixpoint run_steps {A} (step : A -> object -> OnStrings object) (l : list A) (o : object)
    : OnStrings object :=
  match l with [] => mret o | a :: l => o ← step a o; run_steps step l o end.

Definition zero_slot (i : nat) (o : object) : OnStrings object :=
  match slots o !! i with
  | Some (Num _) => mret (set_slot i (Num 0) o)
  | _ => st_fault AssertFailed
  end.

Definition object_clear_step (layout : list nat) (st : clear_step) (o : object)
    : OnStrings object :=
  match st with
  | CZero first last => run_steps zero_slot (span layout first last) o
  | CReset i => zero_slot i o
  | CString i =>
      if has_field i o then on_pointer i (fun p => ClearToEmptyNoArena p;; mret p) o else mret o
  | CRepeated i => st_lift (clear_repeated i o)
  end.

Definition object_clear_group (layout : list nat) (g : option Z * list clear_step) (o : object)
    : OnStrings object :=
  match fst g with
  | Some mask => if Z.land (o_has_bits o) mask =? 0 then mret o
                 else run_steps (object_clear_step layout) (snd g) o
  | None => run_steps (object_clear_step layout) (snd g) o
  end.

Definition ObjectClear (K : message_class) (o : object) : OnStrings object :=
  o ← run_steps (object_clear_group (k_layout K)) (k_clear K) o;
  mret (mkobj 0 (slots o) [] (o_cached_size o)).

Definition object_merge_member (from : object) (i : nat) (o : object) : OnStrings object :=
  if has_field i from then
    match slots from !! i with
    | Some (Num v) => mret (set_number i v o)
    | Some (Ptr q) => on_pointer i (fun p => AssignWithDefault p q) (set_has_field i o)
    | _ => st_fault AssertFailed
    end
  else mret o.

Definition object_merge_step (from : object) (st : merge_step) (o : object) : OnStrings object :=
  match st with
  | MGroup mask items =>
      if Z.land (o_has_bits from) mask =? 0 then mret o
      else run_steps (object_merge_member from) items o
  | MRepeated i =>
      l ← st_lift (repeated i from); l' ← st_lift (repeated i o);
      mret (set_slot i (Strs (l' ++ l)) o)
  end.

(** Between different objects; of the object itself, [MergeFrom] ends the program and [CopyFrom]
    and [Swap] do nothing, as [run_op] says. *)
Definition ObjectMergeFrom (K : message_class) (from o : object) : OnStrings object :=
  o ← run_steps (object_merge_step from) (k_merge K) o;
  mret (mkobj (o_has_bits o) (slots o) (o_unknown o ++ o_unknown from) (o_cached_size o)).

Definition ObjectCopyFrom (K : message_class) (from o : object) : OnStrings object :=
  o ← ObjectClear K o; ObjectMergeFrom K from o.

Definition InternalSwap (a b : object) : object * object := (b, a).

(** * A program with objects of one class *)

(** The strings that the program has from [release_...] or made for [set_allocated_...] are in
    [client]. *)
Record world := mkworld {
  heap_of : string_heap;
  objects : gmap nat object;
  client : list Z
}.

Definition start : world := mkworld empty_heap ∅ [].

(** [WriteMutable] is a write through the pointer that [mutable_...] returns.  A program that keeps
    that pointer after other calls on the object is outside the model. *)
Inductive op :=
  | NewObject (id : nat)
  | CopyObject (src id : nat)
  | DestroyObject (id : nat)
  | SetNumber (id i : nat) (v : Z)
  | ClearNumber (id i : nat)
  | SetString (id i : nat) (v : list Z)
  | ClearString (id i : nat)
  | WriteMutable (id i : nat) (v : list Z)
  | ReleaseString (id i : nat)
  | SetAllocated (id i k : nat)
  | SetAllocatedNull (id i : nat)
  | NewString (v : list Z)
  | DeleteString (k : nat)
  | AddRepeated (id i : nat) (v : list Z)
  | SetRepeated (id i j : nat) (v : list Z)
  | ClearRepeated (id i : nat)
  | ClearObject (id : nat)
  | MergeObject (from id : nat)
  | CopyInto (from id : nat)
  | SwapObjects (a b : nat).

Definition find_object (id : nat) (w : world) : result object :=
  match objects w !! id with Some o => Ok o | None => Fault NullDeref end.

Definition put_object (id : nat) (o : object) (h : string_heap) (w : world) : world :=
  mkworld h (<[id := o]> (objects w)) (client w).

Definition on_object (id : nat) (c : object -> OnStrings object) (w : world) : result world :=
  o ← find_object id w;
  r ← c o (heap_of w);
  Ok (put_object id (fst (r : object * string_heap)) (snd r) w).

(** The program's [k]th string, and the others. *)
Definition take_client (k : nat) (w : world) : result (Z * list Z) :=
  match client w !! k with
  | Some p => Ok (p, delete k (client w))
  | None => Fault NullDeref
  end.

Definition run_op (K : message_class) (c : op) (w : world) : result world :=
  match c with
  | NewObject id => Ok (put_object id (SharedCtor K) (heap_of w) w)
  | CopyObject src id =>
      from ← find_object src w;
      r ← ObjectMergeFrom K from (SharedCtor K) (heap_of w);
      Ok (put_object id (fst (r : object * string_heap)) (snd r) w)
  | DestroyObject id =>
      o ← find_object id w;
      r ← SharedDtor o (heap_of w);
      Ok (mkworld (snd (r : unit * string_heap)) (delete id (objects w)) (client w))
  | SetNumber id i v => on_object id (fun o => mret (set_number i v o)) w
  | ClearNumber id i => on_object id (fun o => mret (clear_number i o)) w
  | SetString id i v => on_object id (set_string i v) w
  | ClearString id i => on_object id (clear_string i) w
  | WriteMutable id i v =>
      on_object id (fun o => r ← mutable_string i o;
        write_string (fst (r : Z * object)) v;; mret (snd r)) w
  | ReleaseString id i =>
      o ← find_object id w;
      r ← release_string i o (heap_of w);
      let '((released, o), h) := (r : (option Z * object) * string_heap) in
      Ok (mkworld h (<[id := o]> (objects w)) (option_list released ++ client w))
  | SetAllocated id i k =>
      pk ← take_client k w;
      on_object id (set_allocated_string i (Some (fst (pk : Z * list Z))))
        (mkworld (heap_of w) (objects w) (snd pk))
  | SetAllocatedNull id i => on_object id (set_allocated_string i None) w
  | NewString v =>
      r ← new_string v (heap_of w);
      Ok (mkworld (snd (r : Z * string_heap)) (objects w) (fst r :: client w))
  | DeleteString k =>
      pk ← take_client k w;
      r ← delete_string (fst (pk : Z * list Z)) (heap_of w);
      Ok (mkworld (snd (r : unit * string_heap)) (objects w) (snd pk))
  | AddRepeated id i v => on_object id (fun o => st_lift (add_repeated i v o)) w
  | SetRepeated id i j v => on_object id (fun o => st_lift (set_repeated i j v o)) w
  | ClearRepeated id i => on_object id (fun o => st_lift (clear_repeated i o)) w
  | ClearObject id => on_object id (ObjectClear K) w
  | MergeObject from id =>
      if (from =? id)%nat then Fault AssertFailed
      else source ← find_object from w; on_object id (ObjectMergeFrom K source) w
  | CopyInto from id =>
      if (from =? id)%nat then Ok w
      else source ← find_object from w; on_object id (ObjectCopyFrom K source) w
  | SwapObjects a b =>
      if (a =? b)%nat then Ok w
      else
        x ← find_object a w; y ← find_object b w;
        let '(x, y) := InternalSwap x y in
        Ok (mkworld (heap_of w) (<[b := y]> (<[a := x]> (objects w))) (client w))
  end.
