(* ===== verification/ObjectProofs.v ===== *)
(** The strings of message objects: who owns which, what the methods of [ArenaStringPtr] and the
    accessors do to them, and that an object seen through the heap is the [message] on which
    [Messages] has the same operations. *)

From S2P Require Import Prelude CMem Coded Wire Messages WireSpec MsgSpec WireTrip MsgTables.
From S2P Require Import MsgTrip MsgSize StrUtil Objects.

(** * Ownership *)

(** The strings of the heap: the shared empty one and those that somebody owns, in the list [L]. *)
Record owned_by (h : string_heap) (L : list Z) : Prop := {
  h_default : strings h !! default_value = Some [];
  h_nodup : NoDup (default_value :: L);
  h_live : forall p, is_Some (strings h !! p) <-> p ∈ default_value :: L;
  h_next : forall p, is_Some (strings h !! p) -> p < next_string h
}.

#[export] Instance owned_by_proper h : Proper ((≡ₚ) ==> iff) (owned_by h).
Proof.
  assert (forall L L', L ≡ₚ L' -> owned_by h L -> owned_by h L') as H.
  { intros L L' HL [H1 H2 H3 H4]. constructor; [done|by rewrite <- HL| |done].
    intros p. by rewrite <- HL. }
  intros L L' HL. split; apply H; [done|by symmetry].
Qed.

Lemma empty_owned : owned_by empty_heap [].
Proof.
  constructor.
  - apply lookup_singleton_eq.
  - apply NoDup_singleton.
  - intros p. unfold empty_heap. cbn [strings]. rewrite list_elem_of_singleton.
    destruct (decide (p = default_value)) as [->|Hp].
    + rewrite lookup_singleton_eq. naive_solver.
    + rewrite lookup_singleton_ne by done. split; [by intros []|done].
  - intros p. unfold empty_heap. cbn [strings next_string].
    destruct (decide (p = default_value)) as [->|Hp]; [by compute|].
    rewrite lookup_singleton_ne by done. by intros [].
Qed.

(** The strings outside [p] that others hold keep their contents. *)
Definition frame (R : list Z) (h h' : string_heap) : Prop :=
  forall q, q ∈ default_value :: R -> strings h' !! q = strings h !! q.

Lemma frame_refl R h : frame R h h.
Proof. done. Qed.

Lemma frame_trans R h h' h'' : frame R h h' -> frame R h' h'' -> frame R h h''.
Proof. intros H H' q Hq. rewrite (H' q Hq). by apply H. Qed.

Lemma frame_mono R R' h h' : R' ⊆ R -> frame R h h' -> frame R' h h'.
Proof.
  intros Hs H q Hq. apply H. apply elem_of_cons in Hq as [->|Hq]; [left|right; by apply Hs].
Qed.

Create HintDb objects.
#[export] Hint Resolve frame_refl : objects.

Lemma read_owned h L p : owned_by h L -> p ∈ default_value :: L ->
  exists v, read_string p h = Ok (v, h) /\ strings h !! p = Some v.
Proof.
  intros H Hp. apply (h_live _ _ H) in Hp as [v E]. exists v. unfold read_string. by rewrite E.
Qed.

Lemma new_owned h L v : owned_by h L -> exists p h',
  new_string v h = Ok (p, h') /\ owned_by h' (p :: L) /\ strings h' !! p = Some v /\
  p <> default_value /\ frame L h h'.
Proof.
  intros H. exists (next_string h), (mkheap (<[next_string h := v]> (strings h)) (next_string h + 1)).
  assert (forall q, q ∈ default_value :: L -> q <> next_string h) as Hfresh.
  { intros q Hq. apply (h_live _ _ H), (h_next _ _ H) in Hq. lia. }
  split; [done|]. split; [|split; [apply lookup_insert_eq|split; [|]]].
  - constructor; cbn [strings next_string].
    + rewrite lookup_insert_ne; [apply (h_default _ _ H)|].
      intros E. apply (Hfresh default_value); [by left|done].
    + assert (next_string h ∉ default_value :: L) as Hn by (intros Hn; by apply (Hfresh _ Hn)).
      pose proof (h_nodup _ _ H) as Hd. apply not_elem_of_cons in Hn as [Hn1 Hn2].
      apply NoDup_cons in Hd as [Hd1 Hd2]. apply NoDup_cons. split; [|by apply NoDup_cons].
      apply not_elem_of_cons. split; [by apply not_eq_sym|done].
    + intros p. destruct (decide (p = next_string h)) as [->|Hp].
      * rewrite lookup_insert_eq. split; [intros _; right; left|by eexists].
      * rewrite lookup_insert_ne by done. rewrite (h_live _ _ H), !elem_of_cons. naive_solver.
    + intros p. destruct (decide (p = next_string h)) as [Hp|Hp]; [lia|].
      rewrite lookup_insert_ne by done. intros Hs%(h_next _ _ H). lia.
  - intros E. apply (Hfresh default_value); [by left|done].
  - intros q Hq. cbn [strings]. apply lookup_insert_ne. by apply not_eq_sym, Hfresh.
Qed.

Lemma write_owned h L p v : owned_by h (p :: L) -> exists h',
  write_string p v h = Ok (tt, h') /\ owned_by h' (p :: L) /\ strings h' !! p = Some v /\
  frame L h h'.
Proof.
  intros H. assert (p ∈ default_value :: p :: L) as Hp by (right; left).
  apply (h_live _ _ H) in Hp as [u E]. unfold write_string. rewrite E.
  eexists. split; [done|]. pose proof (h_nodup _ _ H) as Hd.
  apply NoDup_cons in Hd as [Hd1 Hd2]. apply NoDup_cons in Hd2 as [Hd2 Hd3].
  apply not_elem_of_cons in Hd1 as [Hd1 Hd4].
  assert (forall q, is_Some (<[p := v]> (strings h) !! q) <-> is_Some (strings h !! q)) as Hs.
  { intros q. destruct (decide (q = p)) as [->|Hq].
    - rewrite lookup_insert_eq, E. split; by eexists.
    - by rewrite lookup_insert_ne. }
  split; [|split; [apply lookup_insert_eq|]].
  - constructor; cbn [strings next_string].
    + rewrite lookup_insert_ne by done. apply (h_default _ _ H).
    + apply (h_nodup _ _ H).
    + intros q. rewrite Hs. apply (h_live _ _ H).
    + intros q Hq%Hs. by apply (h_next _ _ H).
  - intros q Hq. cbn [strings]. apply lookup_insert_ne. intros <-.
    by apply elem_of_cons in Hq as [Hq|Hq].
Qed.

Lemma delete_owned h L p : owned_by h (p :: L) -> exists h',
  delete_string p h = Ok (tt, h') /\ owned_by h' L /\ frame L h h'.
Proof.
  intros H. assert (p ∈ default_value :: p :: L) as Hp by (right; left).
  apply (h_live _ _ H) in Hp as [u E]. unfold delete_string. rewrite E.
  eexists. split; [done|]. pose proof (h_nodup _ _ H) as Hd.
  apply NoDup_cons in Hd as [Hd1 Hd2]. apply NoDup_cons in Hd2 as [Hd2 Hd3].
  apply not_elem_of_cons in Hd1 as [Hd1 Hd4].
  split; [constructor; cbn [strings next_string]|].
  - rewrite lookup_delete_ne by done. apply (h_default _ _ H).
  - by apply NoDup_cons.
  - intros q. destruct (decide (q = p)) as [->|Hq].
    + rewrite lookup_delete_eq, elem_of_cons. split; [by intros []|]. intros [|]; by subst.
    + rewrite lookup_delete_ne, (h_live _ _ H), !elem_of_cons by done. naive_solver.
  - intros q. destruct (decide (q = p)) as [->|Hq].
    + rewrite lookup_delete_eq. by intros [].
    + rewrite lookup_delete_ne by done. apply (h_next _ _ H).
  - intros q Hq. cbn [strings]. apply lookup_delete_ne. intros <-.
    by apply elem_of_cons in Hq as [Hq|Hq].
Qed.

(** * [ArenaStringPtr] *)

(** What a pointer owns. *)
Definition own (p : Z) : list Z := if decide (p = default_value) then [] else [p].

Lemma own_default : own default_value = [].
Proof. done. Qed.

Lemma own_other p : p <> default_value -> own p = [p].
Proof. intros H. unfold own. by rewrite decide_False. Qed.

(** A case per state of a pointer. *)
Ltac pointer_cases p :=
  destruct (Z.eqb_spec p default_value);
  [subst p; rewrite ?own_default in * | rewrite ?(own_other p) in * by assumption];
  cbn [app] in *.

(** A call that leaves a pointer to [v] and the strings of others alone. *)
Definition points (R : list Z) (h : string_heap) (c : ST string_heap Z) (v : list Z) : Prop :=
  exists p h', c h = Ok (p, h') /\ owned_by h' (own p ++ R) /\ strings h' !! p = Some v /\
    frame R h h'.

Lemma points_new R h v : owned_by h R -> points R h (new_string v) v.
Proof.
  intros H. destruct (new_owned h R v H) as (p & h' & E & Ho & Ev & Hp & Hf).
  exists p, h'. by rewrite own_other.
Qed.

Lemma points_write p R h v : owned_by h (p :: R) -> points R h (write_string p v;; mret p) v.
Proof.
  intros H. destruct (write_owned h R p v H) as (h' & E & Ho & Ev & Hf).
  exists p, h'. rewrite (st_bind_ok _ _ _ _ _ E). split; [done|].
  assert (p <> default_value) as Hp.
  { intros ->. pose proof (h_nodup _ _ H) as Hd. apply NoDup_cons in Hd as [Hd _]. apply Hd. by left. }
  by rewrite own_other.
Qed.

Lemma points_same p R h v : owned_by h (own p ++ R) -> strings h !! p = Some v ->
  points R h (mret p) v.
Proof. intros H E. by exists p, h. Qed.

Section Pointers.
Context (h : string_heap) (p : Z) (R : list Z).
Hypothesis H : owned_by h (own p ++ R).

Lemma pointer_value : exists v, strings h !! p = Some v.
Proof.
  apply (h_live _ _ H). pointer_cases p; [by left|right; by left].
Qed.

Lemma SetNoArena_points v : points R h (SetNoArena p v) v.
Proof. unfold SetNoArena. pointer_cases p; [by apply points_new|by apply points_write]. Qed.

Lemma ClearToEmpty_points : points R h (ClearToEmptyNoArena p;; mret p) [].
Proof.
  unfold ClearToEmptyNoArena. pointer_cases p; [|by apply points_write].
  exists default_value, h. split; [done|]. split; [done|]. split; [apply (h_default _ _ H)|done].
Qed.

Lemma Mutable_points v : strings h !! p = Some v -> points R h (MutableNoArena p) v.
Proof.
  intros E. unfold MutableNoArena. pointer_cases p; [|apply points_same; [|done]; by rewrite own_other].
  assert (v = []) as -> by (pose proof (h_default _ _ H); congruence).
  destruct (points_new R h [] H) as (p' & h' & E' & Hp). exists p', h'.
  split; [|done]. unfold read_string. rewrite <- E'.
  apply st_bind_ok. by rewrite (h_default _ _ H).
Qed.

Lemma AssignWithDefault_points q v : strings h !! q = Some v -> points R h (AssignWithDefault p q) v.
Proof.
  intros E. unfold AssignWithDefault. destruct (Z.eqb_spec p q) as [->|Hne].
  - by apply points_same.
  - destruct (SetNoArena_points v) as (p' & h' & E' & Hp). exists p', h'. split; [|done].
    rewrite <- E'. apply st_bind_ok. unfold GetNoArena, read_string. by rewrite E.
Qed.

Lemma Destroy_owned : exists h', DestroyNoArena p h = Ok (tt, h') /\ owned_by h' R /\ frame R h h'.
Proof.
  unfold DestroyNoArena. pointer_cases p; [by exists h|]. by apply delete_owned.
Qed.
End Pointers.

Lemma SetAllocated_none h p R : owned_by h (own p ++ R) ->
  points R h (SetAllocatedNoArena p None) [].
Proof.
  intros H. destruct (Destroy_owned h p R H) as (h' & E & Ho & Hf).
  exists default_value, h'. split; [unfold SetAllocatedNoArena; by rewrite (st_bind_ok _ _ _ _ _ E)|].
  split; [done|]. split; [apply (h_default _ _ Ho)|done].
Qed.

Lemma SetAllocated_some h p q R v : owned_by h (own p ++ q :: R) -> strings h !! q = Some v ->
  points R h (SetAllocatedNoArena p (Some q)) v.
Proof.
  intros H Ev. destruct (Destroy_owned h p _ H) as (h' & E & Ho & Hf).
  exists q, h'. split; [unfold SetAllocatedNoArena; by rewrite (st_bind_ok _ _ _ _ _ E)|].
  assert (q <> default_value) as Hq.
  { intros ->. pose proof (h_nodup _ _ Ho) as Hd. apply NoDup_cons in Hd as [Hd _]. apply Hd. by left. }
  rewrite own_other by done. split; [done|]. split.
  - rewrite (Hf q); [done|]. right. left.
  - eapply frame_mono; [|exact Hf]. set_solver.
Qed.

(** * Objects *)

Definition slot_own (s : slot) : list Z := match s with Ptr p => own p | _ => [] end.

(** The strings of an object. *)
Definition owns (o : object) : list Z := mjoin (slot_own <$> slots o).

Definition slot_value (h : string_heap) (s : slot) : value :=
  match s with
  | Num v => VInt v
  | Ptr p => VStr (default [] (strings h !! p))
  | Strs l => VRep l
  end.

(** The object as a message of [Messages]. *)
Definition view (h : string_heap) (o : object) : message :=
  mkmsg (o_has_bits o) (slot_value h <$> slots o) (o_unknown o) (o_cached_size o).

Lemma slot_split o i s : slots o !! i = Some s -> exists R0,
  (forall s', owns (set_slot i s' o) ≡ₚ slot_own s' ++ R0) /\
  (forall j q, j <> i -> slots o !! j = Some (Ptr q) -> q ∈ default_value :: R0).
Proof.
  intros E. exists (mjoin (slot_own <$> take i (slots o)) ++ mjoin (slot_own <$> drop (S i) (slots o))).
  pose proof (lookup_lt_Some _ _ _ E) as Hi. split.
  - intros s'. unfold owns, set_slot. cbn [slots]. rewrite insert_take_drop by done.
    rewrite fmap_app, join_app. cbn [fmap list_fmap mjoin list_join].
    apply Permutation_app_swap_app.
  - intros j q Hj Ej. unfold own. apply elem_of_cons.
    destruct (decide (q = default_value)) as [|Hq]; [by left|right].
    assert (q ∈ slot_own (Ptr q)) as Hin by (simpl; rewrite own_other by done; by left).
    apply elem_of_app. destruct (decide (j < i)%nat); [left|right]; apply list_elem_of_join;
      exists (slot_own (Ptr q)); split; try done; apply list_elem_of_fmap_2.
    + apply (list_elem_of_lookup_2 _ j). by rewrite lookup_take_lt.
    + apply (list_elem_of_lookup_2 _ (j - S i)). rewrite lookup_drop. rewrite <- Ej. f_equal. lia.
Qed.

Lemma set_slot_same o i s : slots o !! i = Some s -> set_slot i s o = o.
Proof. intros E. unfold set_slot. rewrite list_insert_id by done. by destruct o. Qed.

Lemma view_lookup h o i : members (view h o) !! i = slot_value h <$> slots o !! i.
Proof. apply list_lookup_fmap. Qed.

(** Another value in one slot. *)
Lemma view_set_slot h h' o i s : (i < length (slots o))%nat ->
  (forall j s, j <> i -> slots o !! j = Some s -> slot_value h' s = slot_value h s) ->
  view h' (set_slot i s o) = assign i (slot_value h' s) (view h o).
Proof.
  intros Hi Hj. unfold view, assign, set_slot. cbn [o_has_bits slots o_unknown o_cached_size].
  f_equal. cbn [members]. rewrite list_fmap_insert. apply list_eq. intros j.
  destruct (decide (i = j)) as [->|Hne].
  - by rewrite !list_lookup_insert_eq by (by rewrite length_fmap).
  - rewrite !list_lookup_insert_ne, !list_lookup_fmap by done.
    destruct (slots o !! j) as [s'|] eqn:E; [|done]. cbn [fmap option_fmap option_map].
    f_equal. by apply (Hj j).
Qed.

(** A computation that turns an object into one that is seen as [msg] and leaves to others what is
    theirs. *)
Definition becomes (R : list Z) (h : string_heap) (c : ST string_heap object) (msg : message) : Prop :=
  exists o h', c h = Ok (o, h') /\ owned_by h' (owns o ++ R) /\ view h' o = msg /\ frame R h h'.

Lemma becomes_ret R h o : owned_by h (owns o ++ R) -> becomes R h (mret o) (view h o).
Proof. intros H. by exists o, h. Qed.

Lemma becomes_bind R h c (k : object -> ST string_heap object) msg msg' : becomes R h c msg ->
  (forall o h', owned_by h' (owns o ++ R) -> view h' o = msg -> frame R h h' ->
    becomes R h' (k o) msg') -> becomes R h (c ≫= k) msg'.
Proof.
  intros (o & h' & E & Ho & Ev & Hf) Hk.
  destruct (Hk o h' Ho Ev Hf) as (o' & h'' & E' & Ho' & Ev' & Hf').
  exists o', h''. rewrite (st_bind_ok _ _ _ _ _ E). by repeat (split; [done|]; try eapply frame_trans).
Qed.

(** The methods of [ArenaStringPtr], on the member of an object.  [L] is what others own before,
    [R] what they own afterwards. *)
Lemma on_pointer_becomes L R h o i p c v : owned_by h (owns o ++ L) -> slots o !! i = Some (Ptr p) ->
  (forall R0, owned_by h (own p ++ R0 ++ L) -> points (R0 ++ R) h (c p) v) ->
  becomes R h (on_pointer i c o) (assign i (VStr v) (view h o)).
Proof.
  intros H E Hc. destruct (slot_split o i (Ptr p) E) as (R0 & Ho & Hj).
  pose proof (lookup_lt_Some _ _ _ E) as Hi.
  assert (owned_by h (own p ++ R0 ++ L)) as H0.
  { rewrite (assoc_L (++)). change (own p) with (slot_own (Ptr p)).
    by rewrite <- (Ho (Ptr p)), set_slot_same. }
  destruct (Hc R0 H0) as (p' & h' & Ec & Hp & Ev & Hf).
  exists (set_slot i (Ptr p') o), h'. unfold on_pointer. rewrite E.
  split; [by rewrite (st_bind_ok _ _ _ _ _ Ec)|]. split; [by rewrite (Ho (Ptr p')), <- (assoc_L (++))|].
  split; [|eapply frame_mono; [|exact Hf]; set_solver].
  rewrite (view_set_slot h); [simpl; by rewrite Ev|done|].
  intros j [|q|] Hne Ej; [done| |done]. simpl. rewrite (Hf q); [done|].
  specialize (Hj j q Hne Ej). set_solver.
Qed.

(** * Accessors *)

Definition clear_has (i : nat) (msg : message) : message :=
  mkmsg (Z.ldiff (has_bits_ msg) (Z.shiftl 1 (Z.of_nat i))) (members msg) (unknown_fields_ msg)
    (cached_size_ msg).

(** A member with its has-bit, and a member without. *)
Definition put (i : nat) (v : value) (msg : message) : message := assign i v (set_has i msg).
Definition erase (i : nat) (v : value) (msg : message) : message := clear_has i (assign i v msg).

Lemma has_field_view h i o : has_field i o = has i (view h o).
Proof.
  unfold has_field, has. cbn [view has_bits_]. set (b := o_has_bits o). set (n := Z.of_nat i).
  assert (forall k, Z.testbit (Z.shiftl 1 n) k = (k =? n)) as Hone.
  { intros k. rewrite Z.shiftl_mul_pow2, Z.mul_1_l, Z.pow2_bits_eqb by lia. apply Z.eqb_sym. }
  destruct (Z.testbit b n) eqn:E.
  - apply negb_true_iff, Z.eqb_neq. intros H. assert (Z.testbit 0 n = true) as H0; [|by rewrite Z.bits_0 in H0].
    by rewrite <- H, Z.land_spec, E, Hone, Z.eqb_refl.
  - apply negb_false_iff, Z.eqb_eq, Z.bits_inj. intros k. rewrite Z.land_spec, Hone, Z.bits_0.
    destruct (Z.eqb_spec k n) as [->|]; [by rewrite E|apply andb_false_r].
Qed.

(** The slot of a member of the view. *)
Lemma view_slot h o i v : members (view h o) !! i = Some v -> exists s,
  slots o !! i = Some s /\ v = slot_value h s.
Proof. rewrite view_lookup. destruct (slots o !! i) as [s|]; [|done]. intros [= <-]. by exists s. Qed.

Section Accessors.
Context (R : list Z) (h : string_heap) (o : object) (i : nat).
Hypothesis H : owned_by h (owns o ++ R).

(** A slot that is not a pointer. *)
Lemma pure_slot s s' : slots o !! i = Some s -> slot_own s = [] -> slot_own s' = [] ->
  owned_by h (owns (set_slot i s' o) ++ R) /\
  view h (set_slot i s' o) = assign i (slot_value h s') (view h o).
Proof.
  intros E Es Es'. destruct (slot_split o i s E) as (R0 & Ho & _). split.
  - pose proof (Ho s) as Hs. rewrite set_slot_same, Es in Hs by done.
    by rewrite (Ho s'), Es', <- Hs.
  - apply view_set_slot; [by eapply lookup_lt_Some|done].
Qed.

Lemma set_number_view u v : slots o !! i = Some (Num u) ->
  owned_by h (owns (set_number i v o) ++ R) /\ view h (set_number i v o) = put i (VInt v) (view h o).
Proof.
  intros E. destruct (pure_slot (Num u) (Num v) E eq_refl eq_refl) as [Ho Ev]. split; [done|].
  change (view h (set_number i v o)) with (set_has i (view h (set_slot i (Num v) o))). by rewrite Ev.
Qed.

Lemma clear_number_view u : slots o !! i = Some (Num u) ->
  owned_by h (owns (clear_number i o) ++ R) /\ view h (clear_number i o) = erase i (VInt 0) (view h o).
Proof.
  intros E. destruct (pure_slot (Num u) (Num 0) E eq_refl eq_refl) as [Ho Ev]. split; [done|].
  change (view h (clear_number i o)) with (clear_has i (view h (set_slot i (Num 0) o))). by rewrite Ev.
Qed.

Context (p : Z).
Hypothesis E : slots o !! i = Some (Ptr p).

Lemma set_string_becomes v : becomes R h (set_string i v o) (put i (VStr v) (view h o)).
Proof.
  apply (on_pointer_becomes R R h (set_has_field i o) i p); [done|done|].
  intros R0 H0. by apply SetNoArena_points.
Qed.

Lemma clear_string_becomes : becomes R h (clear_string i o) (erase i (VStr []) (view h o)).
Proof.
  eapply becomes_bind.
  - apply (on_pointer_becomes R R h o i p _ []); [done|done|]. intros R0 H0. by apply ClearToEmpty_points.
  - intros o' h' Ho Ev Hf. exists (clear_has_field i o'), h'. split; [done|]. split; [done|].
    split; [|done]. change (view h' (clear_has_field i o')) with (clear_has i (view h' o')). by rewrite Ev.
Qed.

Lemma release_string_view : exists r o', release_string i o h = Ok ((r, o'), h) /\
  owned_by h (owns o' ++ from_option own [] r ++ R) /\ view h o' = erase i (VStr []) (view h o) /\
  match r with Some q => q = p /\ q <> default_value | None => p = default_value end.
Proof.
  unfold release_string. rewrite E. destruct (slot_split o i (Ptr p) E) as (R0 & Ho & Hj).
  pose proof (lookup_lt_Some _ _ _ E) as Hi.
  pose proof (Ho (Ptr p)) as Hp. rewrite set_slot_same in Hp by done. cbn [slot_own] in Hp.
  assert (owned_by h (own p ++ R0 ++ R)) as H0 by (by rewrite (assoc_L (++)), <- Hp).
  assert (view h (set_slot i (Ptr default_value) (clear_has_field i o)) = erase i (VStr []) (view h o)) as Ev.
  { rewrite (view_set_slot h h (clear_has_field i o)) by done. cbn [slot_value].
    by rewrite (h_default _ _ H). }
  assert (owns (set_slot i (Ptr default_value) (clear_has_field i o)) ≡ₚ R0) as Hd.
  { exact (Ho (Ptr default_value)). }
  unfold ReleaseNoArena. destruct (Z.eqb_spec p default_value) as [Ep|Ep].
  - exists None, (set_slot i (Ptr p) (clear_has_field i o)). split; [done|]. subst p. split; [|done].
    cbn [from_option app]. by rewrite Hd.
  - exists (Some p), (set_slot i (Ptr default_value) (clear_has_field i o)). split; [done|].
    split; [|done]. rewrite Hd. cbn [from_option]. by rewrite Permutation_app_swap_app.
Qed.

Lemma set_allocated_none_becomes :
  becomes R h (set_allocated_string i None o) (erase i (VStr []) (view h o)).
Proof.
  apply (on_pointer_becomes R R h (clear_has_field i o) i p); [done|done|].
  intros R0 H0. by apply SetAllocated_none.
Qed.
End Accessors.

Lemma set_allocated_some_becomes R h o i p q v : owned_by h (owns o ++ q :: R) ->
  slots o !! i = Some (Ptr p) -> strings h !! q = Some v ->
  becomes R h (set_allocated_string i (Some q) o) (put i (VStr v) (view h o)).
Proof.
  intros H E Ev. apply (on_pointer_becomes (q :: R) R h (set_has_field i o) i p); [done|done|].
  intros R0 H0. apply SetAllocated_some; [|done]. by rewrite Permutation_middle.
Qed.

(** ** What the accessors return *)

Lemma number_view h o i v : number i o = Ok v -> get_int i (view h o) = v.
Proof.
  unfold number, get_int. rewrite view_lookup.
  destruct (slots o !! i) as [[u|p|l]|]; try done. by intros [= ->].
Qed.

Lemma get_string_view h o i v h' : get_string i o h = Ok (v, h') ->
  h' = h /\ get_str i (view h o) = v.
Proof.
  unfold get_string, get_str, GetNoArena, read_string. rewrite view_lookup.
  destruct (slots o !! i) as [[u|p|l]|]; try done. cbn [fmap option_fmap option_map slot_value].
  destruct (strings h !! p) as [s|]; [|done]. by intros [= -> ->].
Qed.

Lemma repeated_view h o i l : repeated i o = Ok l ->
  get_rep i (view h o) = l /\ repeated_size i o = Ok (Z.of_nat (length l)) /\
  forall j, get_repeated i j o = match l !! j with Some v => Ok v | None => Fault (TableIndex (Z.of_nat j)) end.
Proof.
  intros E. unfold repeated_size, get_repeated. rewrite E. split; [|done].
  unfold repeated, get_rep in *. rewrite view_lookup.
  destruct (slots o !! i) as [[u|p|l']|]; try done. by injection E as ->.
Qed.

(** ** Writing through the pointer of [mutable_...] *)

Lemma on_pointer_inv i c o h o' h' : on_pointer i c o h = Ok (o', h') ->
  exists p q, slots o !! i = Some (Ptr p) /\ c p h = Ok (q, h') /\ o' = set_slot i (Ptr q) o.
Proof.
  unfold on_pointer. destruct (slots o !! i) as [[|p|]|]; try done.
  intros (q & s' & E & E')%st_bind_inv. injection E' as <- <-. by exists p, q.
Qed.

Lemma Mutable_other h p R q h' : owned_by h (own p ++ R) -> MutableNoArena p h = Ok (q, h') ->
  q <> default_value.
Proof.
  intros H. unfold MutableNoArena. destruct (Z.eqb_spec p default_value) as [->|Hp].
  - intros (v & s' & E & E')%st_bind_inv. unfold read_string in E. rewrite (h_default _ _ H) in E.
    injection E as <- <-. injection E' as <- <-.
    assert (default_value < next_string h); [|lia].
    apply (h_next _ _ H). rewrite (h_default _ _ H). by eexists.
  - by intros [= <- <-].
Qed.

Lemma mutable_string_view R h o i p : owned_by h (owns o ++ R) -> slots o !! i = Some (Ptr p) ->
  exists q o' h', mutable_string i o h = Ok ((q, o'), h') /\ owned_by h' (owns o' ++ R) /\
    view h' o' = put i (VStr (get_str i (view h o))) (view h o) /\ frame R h h' /\
    slots o' !! i = Some (Ptr q) /\ q <> default_value.
Proof.
  intros H E. pose proof (lookup_lt_Some _ _ _ E) as Hi.
  destruct (slot_split o i (Ptr p) E) as (R0 & Hs & _).
  assert (owned_by h (own p ++ R0 ++ R)) as H0.
  { rewrite (assoc_L (++)). change (own p) with (slot_own (Ptr p)). by rewrite <- (Hs (Ptr p)), set_slot_same. }
  destruct (pointer_value h p _ H0) as [v Ev].
  assert (get_str i (view h o) = v) as ->.
  { unfold get_str. rewrite view_lookup, E. simpl. by rewrite Ev. }
  destruct (on_pointer_becomes R R h (set_has_field i o) i p MutableNoArena v) as (o' & h' & Em & Ho & Hv & Hf);
    [done|done|intros R1 H1; by apply Mutable_points|].
  destruct (on_pointer_inv _ _ _ _ _ _ Em) as (p' & q & Ep & Ec & Eo). cbn in Ep.
  assert (p' = p) as -> by congruence.
  assert (slots o' !! i = Some (Ptr q)) as Eq by (rewrite Eo; by apply list_lookup_insert_eq).
  exists q, o', h'. unfold mutable_string. rewrite (st_bind_ok _ _ _ _ _ Em), Eq.
  repeat (split; [done|]). by eapply Mutable_other.
Qed.

Lemma write_slot R h o i q v : owned_by h (owns o ++ R) -> slots o !! i = Some (Ptr q) ->
  q <> default_value -> becomes R h (write_string q v;; mret o) (assign i (VStr v) (view h o)).
Proof.
  intros H E Hq. destruct (on_pointer_becomes R R h o i q (fun p => write_string p v;; mret p) v H E)
    as (o' & h' & Em & Hp).
  { intros R0 H0. rewrite own_other in H0 by done. by apply points_write. }
  destruct (on_pointer_inv _ _ _ _ _ _ Em) as (p' & q' & Ep & Ec & ->).
  assert (p' = q) as -> by congruence.
  apply st_bind_inv in Ec as ([] & h1 & Ew & Er). injection Er as <- <-.
  rewrite set_slot_same in Hp by done. exists o, h1. split; [by rewrite (st_bind_ok _ _ _ _ _ Ew)|done].
Qed.

(** ** The destructor *)

Lemma SharedDtor_owned R h o : owned_by h (owns o ++ R) -> exists h',
  SharedDtor o h = Ok (tt, h') /\ owned_by h' R /\ frame R h h'.
Proof.
  unfold SharedDtor, owns. revert h. induction (slots o) as [|s l IH]; intros h H; [by exists h|].
  cbn [fmap list_fmap mjoin list_join foldr] in *. rewrite <- (assoc_L (++)) in H.
  assert (exists h', (match s with Ptr p => DestroyNoArena p | _ => mret tt end : ST string_heap unit) h =
    Ok (tt, h') /\ owned_by h' (mjoin (slot_own <$> l) ++ R) /\
    frame (mjoin (slot_own <$> l) ++ R) h h') as (h1 & E1 & H1 & F1).
  { destruct s as [v|p|v]; [by exists h| |by exists h]. by apply Destroy_owned. }
  destruct (IH h1 H1) as (h2 & E2 & H2 & F2). exists h2. rewrite (st_bind_ok _ _ _ _ _ E1).
  split; [done|]. split; [done|]. eapply frame_trans; [|exact F2].
  eapply frame_mono; [|exact F1]. set_solver.
Qed.

(** What happens to others leaves an object as it is seen. *)
Lemma view_frame R h h' o : frame R h h' -> owns o ⊆ R -> view h' o = view h o.
Proof.
  intros Hf Ho. unfold view. f_equal. apply list_fmap_ext. intros i s E.
  destruct s as [|p|]; [done| |done]. simpl. rewrite (Hf p); [done|].
  apply elem_of_cons. destruct (decide (p = default_value)) as [|Hp]; [by left|right].
  apply Ho, list_elem_of_join. exists (slot_own (Ptr p)). split.
  - simpl. rewrite own_other by done. by left.
  - apply list_elem_of_fmap_2. by eapply list_elem_of_lookup_2.
Qed.

(** [Clear], [MergeFrom] and [CopyFrom] on objects with their strings on the heap do what the
    functions of [Messages] of the same names do on messages. *)

(** Steps that each do what a function does, under an invariant of the message and a property of the
    heap that other objects' changes leave alone. *)
Lemma run_steps_becomes {A} (R : list Z) (I : string_heap -> Prop) (P : message -> Prop)
    (step : A -> object -> ST string_heap object) (f : message -> A -> message) (l : list A) :
  (forall h h', I h -> frame R h h' -> I h') ->
  (forall a h o, a ∈ l -> I h -> owned_by h (owns o ++ R) -> P (view h o) ->
     becomes R h (step a o) (f (view h o) a) /\ P (f (view h o) a)) ->
  forall h o, I h -> owned_by h (owns o ++ R) -> P (view h o) ->
  becomes R h (run_steps step l o) (foldl f (view h o) l) /\ P (foldl f (view h o) l).
Proof.
  intros HI. induction l as [|a l IH]; intros Hstep h o Hh Ho Hp; [split; [by apply becomes_ret|done]|].
  destruct (Hstep a h o) as [Hb Hp']; [by left|done..|]. cbn [run_steps foldl].
  assert (forall h' o', I h' -> owned_by h' (owns o' ++ R) -> view h' o' = f (view h o) a ->
    becomes R h' (run_steps step l o') (foldl f (f (view h o) a) l) /\ P (foldl f (f (view h o) a) l)) as Hl.
  { intros h' o' Hh' Ho' Ev. rewrite <- Ev. apply IH; [|done..|by rewrite Ev].
    intros a' h'' o'' Ha. apply Hstep. by right. }
  split.
  - eapply becomes_bind; [exact Hb|]. intros o' h' Ho' Ev Hf. apply Hl; [by eapply HI|done..].
  - destruct Hb as (o' & h' & _ & Ho' & Ev & Hf). apply (Hl h' o'); [by eapply HI|done..].
Qed.

Section Class.
Context (K : message_class).
Hypothesis HK : class_facts K.

(** ** The slots of an object of the class *)

Lemma optional_slot h o i w : kinds K (view h o) -> write_of K i = Some w -> w_repeated w = false ->
  if is_string (w_type w) then exists p, slots o !! i = Some (Ptr p)
  else exists v, slots o !! i = Some (Num v).
Proof.
  intros Hk Ew Hr. apply write_of_in in Ew as [Hw <-]. specialize (Hk w Hw). unfold kind_ok in Hk.
  rewrite view_lookup in Hk. destruct (slots o !! w_member w) as [[v|p|l]|]; cbn in Hk.
  - destruct Hk as [_ ->]. by exists v.
  - destruct Hk as [_ ->]. by exists p.
  - congruence.
  - done.
Qed.

Lemma repeated_slot h o i : kinds K (view h o) -> is_repeated K i = true ->
  exists l, slots o !! i = Some (Strs l).
Proof.
  unfold is_repeated. intros Hk Hr. destruct (write_of K i) as [w|] eqn:Ew; [|done].
  apply write_of_in in Ew as [Hw <-]. specialize (Hk w Hw). unfold kind_ok in Hk.
  rewrite view_lookup in Hk. destruct (slots o !! w_member w) as [[v|p|l]|]; cbn in Hk.
  - destruct Hk; congruence.
  - destruct Hk; congruence.
  - by exists l.
  - done.
Qed.

(** A value of the same kind. *)
Lemma kinds_assign msg i v u : kinds K msg -> members msg !! i = Some u -> zero_value v = zero_value u ->
  kinds K (assign i v msg).
Proof.
  intros Hk E Hz w Hw. specialize (Hk w Hw). unfold kind_ok in *. unfold assign. cbn [members].
  destruct (decide (i = w_member w)) as [->|Hne].
  - rewrite list_lookup_insert_eq by (by eapply lookup_lt_Some). rewrite E in Hk.
    destruct v, u; done.
  - by rewrite list_lookup_insert_ne.
Qed.

Lemma kinds_bits msg b : kinds K msg ->
  kinds K (mkmsg b (members msg) (unknown_fields_ msg) (cached_size_ msg)).
Proof. done. Qed.

Section Frame.
Context (R : list Z).

Abbreviation does h c msg := (becomes R h c msg /\ kinds K msg).

(** A new value in a slot that is not a pointer. *)
Lemma slot_does h o i s s' : owned_by h (owns o ++ R) -> kinds K (view h o) ->
  slots o !! i = Some s -> slot_own s = [] -> slot_own s' = [] ->
  zero_value (slot_value h s') = zero_value (slot_value h s) ->
  does h (mret (set_slot i s' o)) (assign i (slot_value h s') (view h o)).
Proof.
  intros Ho Hk E Es Es' Hz. destruct (pure_slot R h o i Ho s s' E Es Es') as [Ho' Ev]. split.
  - rewrite <- Ev. by apply becomes_ret.
  - eapply kinds_assign; [done|by rewrite view_lookup, E|done].
Qed.

Lemma pointer_does h o i p c v : owned_by h (owns o ++ R) -> kinds K (view h o) ->
  slots o !! i = Some (Ptr p) ->
  (forall R0, owned_by h (own p ++ R0 ++ R) -> points (R0 ++ R) h (c p) v) ->
  does h (on_pointer i c o) (assign i (VStr v) (view h o)).
Proof.
  intros Ho Hk E Hc. split; [by eapply on_pointer_becomes|].
  eapply kinds_assign; [done|by rewrite view_lookup, E|done].
Qed.

(** ** [Clear] *)

Lemma zero_slot_does h o i w : owned_by h (owns o ++ R) -> kinds K (view h o) ->
  write_of K i = Some w -> w_repeated w = false -> is_string (w_type w) = false ->
  does h (zero_slot i o) (zero_member i (view h o)).
Proof.
  intros Ho Hk Ew Hr Hs. pose proof (optional_slot h o i w Hk Ew Hr) as Hslot. rewrite Hs in Hslot.
  destruct Hslot as [v E]. unfold zero_slot, zero_member. rewrite E, view_lookup, E.
  by apply (slot_does h o i (Num v) (Num 0)).
Qed.

Lemma clear_step_does mask st h o : wf_clear_step K mask st = true ->
  owned_by h (owns o ++ R) -> kinds K (view h o) ->
  does h (object_clear_step (k_layout K) st o) (run_clear_step (k_layout K) st (view h o)).
Proof.
  intros Hst Ho Hk.
  assert (forall i, (match write_of K i with
      | Some w => negb (is_string (w_type w)) && negb (w_repeated w) | None => false end) &&
      match mask with Some b => Z.testbit b (Z.of_nat i) | None => true end = true ->
    forall h o, owned_by h (owns o ++ R) -> kinds K (view h o) ->
    does h (zero_slot i o) (zero_member i (view h o))) as Hzero.
  { intros i H h' o' Ho' Hk'. apply andb_true_iff in H as [H _].
    destruct (write_of K i) as [w|] eqn:Ew; [|done]. apply andb_true_iff in H as [Hs Hr].
    by eapply zero_slot_does; [..|by apply negb_true_iff|by apply negb_true_iff]. }
  destruct st as [first last|i|i|i]; cbn [object_clear_step run_clear_step].
  - apply (run_steps_becomes R (fun _ => True) (kinds K) zero_slot
      (fun msg i => zero_member i msg)); [done| |done..].
    intros i h' o' Hi _ Ho' Hk'. apply Hzero; [|done..].
    assert (forallb (fun i => match write_of K i with
      | Some w => negb (is_string (w_type w)) && negb (w_repeated w) | None => false end &&
      match mask with Some b => Z.testbit b (Z.of_nat i) | None => true end)
      (span (k_layout K) first last) = true) as Hall by (by destruct mask).
    by apply (forallb_elem _ _ i Hall).
  - apply Hzero; [|done..]. destruct mask; cbn in Hst; by rewrite andb_true_r in Hst.
  - rewrite (has_field_view h). destruct (has i (view h o)); [|split; [by apply becomes_ret|done]].
    assert (exists w, write_of K i = Some w /\ is_string (w_type w) = true /\ w_repeated w = false)
      as (w & Ew & Hs & Hr).
    { cbn [wf_clear_step] in Hst. destruct (write_of K i) as [w|]; [|by destruct mask].
      assert (is_string (w_type w) && negb (w_repeated w) = true) as H
        by (destruct mask; by apply andb_true_iff in Hst as [? _]).
      apply andb_true_iff in H as [? ?%negb_true_iff]. by exists w. }
    pose proof (optional_slot h o i w Hk Ew Hr) as Hslot. rewrite Hs in Hslot. destruct Hslot as [p E].
    apply (pointer_does h o i p); [done..|]. intros R0 H0. by apply ClearToEmpty_points.
  - assert (is_repeated K i = true) as Hr by (by destruct mask).
    destruct (repeated_slot h o i Hk Hr) as [l E]. unfold clear_repeated, repeated. rewrite E.
    exact (slot_does h o i (Strs l) (Strs []) Ho Hk E eq_refl eq_refl eq_refl).
Qed.

Lemma clear_group_does g h o : forallb (wf_clear_step K (fst g)) (snd g) = true ->
  owned_by h (owns o ++ R) -> kinds K (view h o) ->
  does h (object_clear_group (k_layout K) g o) (run_clear_group (k_layout K) g (view h o)).
Proof.
  intros Hg Ho Hk. unfold object_clear_group, run_clear_group.
  assert (does h (run_steps (object_clear_step (k_layout K)) (snd g) o)
    (foldl (fun msg st => run_clear_step (k_layout K) st msg) (view h o) (snd g))) as Hrun.
  { apply (run_steps_becomes R (fun _ => True) (kinds K)); [done| |done..].
    intros st h' o' Hin _ Ho' Hk'. apply (clear_step_does (fst g)); [|done..].
    by apply (forallb_elem _ _ st Hg). }
  destruct (fst g) as [mask|]; [|exact Hrun]. cbn [view has_bits_].
  destruct (Z.land (o_has_bits o) mask =? 0); [|exact Hrun]. split; [by apply becomes_ret|done].
Qed.

Lemma Clear_does h o : owned_by h (owns o ++ R) -> kinds K (view h o) ->
  does h (ObjectClear K o) (Clear K (view h o)).
Proof.
  intros Ho Hk. unfold ObjectClear, Clear.
  destruct (run_steps_becomes R (fun _ => True) (kinds K) (object_clear_group (k_layout K))
    (fun msg g => run_clear_group (k_layout K) g msg) (k_clear K)) with (h := h) (o := o)
    as [Hb Hk']; [done| |done..|].
  { intros g h' o' Hin _. apply clear_group_does. by apply (forallb_elem _ _ g (f_clear _ HK)). }
  split; [|exact Hk']. eapply becomes_bind; [exact Hb|]. intros o' h' Ho' Ev Hf.
  rewrite <- Ev. exact (becomes_ret R h' (mkobj 0 (slots o') [] (o_cached_size o')) Ho').
Qed.

(** ** [MergeFrom] *)

Section Merge.
Context (from : object).
Hypothesis Hown : owns from ⊆ R.

Lemma merge_member_does i mask h o : in_mask K mask i = true ->
  owned_by h (owns o ++ R) -> kinds K (view h from) -> kinds K (view h o) ->
  does h (object_merge_member from i o) (merge_member (view h from) i (view h o)).
Proof.
  intros Hm Ho Hf Hk. unfold object_merge_member, merge_member. rewrite (has_field_view h).
  destruct (has i (view h from)) eqn:Eh; [|split; [by apply becomes_ret|done]].
  unfold in_mask in Hm. apply andb_true_iff in Hm as [_ Hm].
  destruct (write_of K i) as [w|] eqn:Ew; [|done]. apply negb_true_iff in Hm.
  pose proof (optional_slot h from i w Hf Ew Hm) as Hsf.
  pose proof (optional_slot h o i w Hk Ew Hm) as Hso. rewrite view_lookup.
  destruct (is_string (w_type w)).
  - destruct Hsf as [q Eq], Hso as [p Ep]. rewrite Eq. cbn [fmap option_fmap option_map slot_value].
    apply (pointer_does h (set_has_field i o) i p); [done|done|done|].
    intros R0 H0. apply AssignWithDefault_points; [done|].
    assert (q ∈ default_value :: owns o ++ R) as Hq.
    { destruct (decide (q = default_value)) as [->|Hne]; [by left|right].
      apply elem_of_app. right. apply Hown, list_elem_of_join. exists (slot_own (Ptr q)). split.
      - cbn [slot_own]. rewrite own_other by done. by left.
      - apply list_elem_of_fmap_2. by eapply list_elem_of_lookup_2. }
    apply (h_live _ _ Ho) in Hq as [v Ev]. by rewrite Ev.
  - destruct Hsf as [v Ev], Hso as [u Eu]. rewrite Ev. cbn [fmap option_fmap option_map slot_value].
    exact (slot_does h (set_has_field i o) i (Num u) (Num v) Ho Hk Eu eq_refl eq_refl eq_refl).
Qed.

Lemma from_steady msg h h' : view h from = msg -> frame R h h' -> view h' from = msg.
Proof. intros <- Hf. by eapply view_frame. Qed.

Lemma merge_step_does st h o : wf_merge_step K st = true ->
  owned_by h (owns o ++ R) -> kinds K (view h from) -> kinds K (view h o) ->
  does h (object_merge_step from st o) (run_merge_step (view h from) (view h o) st).
Proof.
  intros Hst Ho Hf Hk. destruct st as [mask items|i]; cbn [object_merge_step run_merge_step].
  - cbn [view has_bits_]. fold (view h from).
    destruct (Z.land (o_has_bits from) mask =? 0); [split; [by apply becomes_ret|done]|].
    apply (run_steps_becomes R (fun h' => view h' from = view h from) (kinds K)
      (object_merge_member from) (fun msg i => merge_member (view h from) i msg));
      [intros h1 h2; apply from_steady| |done..].
    intros i h' o' Hi Ef Ho' Hk'. rewrite <- Ef in Hf |- *.
    apply (merge_member_does i mask); [by apply (forallb_elem _ _ i Hst)|done..].
  - destruct (repeated_slot h from i Hf Hst) as [l El], (repeated_slot h o i Hk Hst) as [l' El'].
    assert (get_rep i (view h from) = l /\ get_rep i (view h o) = l') as [-> ->].
    { unfold get_rep. by rewrite !view_lookup, El, El'. }
    unfold repeated. rewrite El, El'.
    exact (slot_does h o i (Strs l') (Strs (l' ++ l)) Ho Hk El' eq_refl eq_refl eq_refl).
Qed.

Lemma MergeFrom_does h o : owned_by h (owns o ++ R) -> kinds K (view h from) -> kinds K (view h o) ->
  does h (ObjectMergeFrom K from o) (MergeFrom K (view h from) (view h o)).
Proof.
  intros Ho Hf Hk. unfold ObjectMergeFrom, MergeFrom.
  destruct (run_steps_becomes R (fun h' => view h' from = view h from) (kinds K) (object_merge_step from)
    (run_merge_step (view h from)) (k_merge K)) with (h := h) (o := o) as [Hb Hk'];
    [intros h1 h2; apply from_steady| |done..|].
  { intros st h' o' Hin Ef Ho' Hk'. rewrite <- Ef in Hf |- *. apply merge_step_does; [|done..].
    by apply (forallb_elem _ _ st (f_merge _ HK)). }
  split; [|exact Hk']. eapply becomes_bind; [exact Hb|]. intros o' h' Ho' Ev _. rewrite <- Ev.
  exact (becomes_ret R h' (mkobj (o_has_bits o') (slots o') (o_unknown o' ++ o_unknown from)
    (o_cached_size o')) Ho').
Qed.

(** ** [CopyFrom] *)

Lemma CopyFrom_does h o : owned_by h (owns o ++ R) -> kinds K (view h from) -> kinds K (view h o) ->
  does h (ObjectCopyFrom K from o) (CopyFrom K (view h from) (view h o)).
Proof.
  intros Ho Hf Hk. destruct (Clear_does h o Ho Hk) as [Hb Hkc]. unfold ObjectCopyFrom, CopyFrom.
  assert (forall h' o', owned_by h' (owns o' ++ R) -> view h' o' = Clear K (view h o) -> frame R h h' ->
    does h' (ObjectMergeFrom K from o') (MergeFrom K (view h from) (Clear K (view h o)))) as Hm.
  { intros h' o' Ho' Ev Hfr. rewrite <- (from_steady _ h h' eq_refl Hfr) in Hf |- *.
    rewrite <- Ev. apply MergeFrom_does; [done..|by rewrite Ev]. }
  split.
  - eapply becomes_bind; [exact Hb|]. intros o' h' Ho' Ev Hfr. by apply Hm.
  - destruct Hb as (o' & h' & _ & Ho' & Ev & Hfr). by apply (Hm h' o').
Qed.
End Merge.
End Frame.

(** ** The constructor *)

Lemma SharedCtor_owns : owns (SharedCtor K) = [].
Proof.
  unfold owns, SharedCtor. cbn [slots]. induction (members (k_new K)) as [|v l IH]; [done|].
  change (slot_own (new_slot v) ++ mjoin (slot_own <$> (new_slot <$> l)) = []). rewrite IH.
  by destruct v.
Qed.

Lemma SharedCtor_view R h : owned_by h R ->
  view h (SharedCtor K) = mkmsg 0 (members (k_new K)) [] 0.
Proof.
  intros H. unfold view, SharedCtor. cbn [slots o_has_bits o_unknown o_cached_size]. f_equal.
  destruct (f_fresh _ HK) as (_ & _ & Hz). rewrite <- Hz at 2. rewrite <- list_fmap_compose.
  rewrite <- Hz at 1. rewrite <- list_fmap_compose. apply list_fmap_ext. intros i v _.
  destruct v; simpl; [done| |done]. by rewrite (h_default _ _ H).
Qed.
End Class.
