(* ===== verification/ObjectRun.v ===== *)
(** Programs that work with message objects, against a specification without a heap: what they may
    do, what a program step is on messages as values, and that [run_op] never goes wrong, keeps the
    objects well formed and the strings in order, and does what the specification says. *)

From S2P Require Import Prelude CMem Coded CodedStream Wire Messages WireSpec WireTrip MsgSpec MsgTables MsgTrip MsgSize MsgParser.
From S2P Require Import StrUtil Objects ObjectProofs.

(** * The specification *)

(** The messages, and the strings of the program. *)
Definition contents : Type := gmap nat message * list (list Z).

(** The member [i] is a field of this kind. *)
Definition is_field (K : message_class) (i : nat) (rep str : bool) : bool :=
  match write_of K i with
  | Some w => Bool.eqb (w_repeated w) rep && Bool.eqb (is_string (w_type w)) str
  | None => false
  end.

Definition number_fits (K : message_class) (i : nat) (v : Z) : bool :=
  match write_of K i with Some w => in_range (w_type w) v | None => false end.

Definition present (id : nat) (a : contents) : bool := bool_decide (is_Some (fst a !! id)).

(** What a program may do: use objects that there are, members with the accessors of their type,
    values that the types can hold, and strings that it owns. *)
Definition op_ok (K : message_class) (c : op) (a : contents) : bool :=
  match c with
  | NewObject id => negb (present id a)
  | CopyObject src id => present src a && negb (present id a)
  | DestroyObject id | ClearObject id => present id a
  | SetNumber id i v => present id a && is_field K i false false && number_fits K i v
  | ClearNumber id i => present id a && is_field K i false false
  | SetString id i v | WriteMutable id i v => present id a && is_field K i false true && str_ok v
  | ClearString id i | ReleaseString id i | SetAllocatedNull id i =>
      present id a && is_field K i false true
  | SetAllocated id i k =>
      present id a && is_field K i false true &&
      match snd a !! k with Some v => str_ok v | None => false end
  | NewString v => true
  | DeleteString k => (k <? length (snd a))%nat
  | AddRepeated id i v => present id a && is_field K i true true && str_ok v
  | SetRepeated id i j v =>
      present id a && is_field K i true true && str_ok v &&
      match fst a !! id with Some m => (j <? length (get_rep i m))%nat | None => false end
  | ClearRepeated id i => present id a && is_field K i true true
  | MergeObject from id => present from a && present id a && negb (from =? id)%nat
  | CopyInto from id | SwapObjects from id => present from a && present id a
  end.

(** A copy keeps the cached size of the object it goes to. *)
Definition copied (m : message) (cached : Z) : message :=
  mkmsg (has_bits_ m) (members m) (unknown_fields_ m) cached.

(** The outcomes of a step: [release_...] of a member that is empty may return null. *)
Definition spec_op (K : message_class) (c : op) (a : contents) : list contents :=
  let '(ms, cs) := a in
  let update id f := [(alter f id ms, cs)] in
  match c with
  | NewObject id => [(<[id := fresh K]> ms, cs)]
  | CopyObject src id =>
      match ms !! src with Some m => [(<[id := copied m 0]> ms, cs)] | None => [] end
  | DestroyObject id => [(delete id ms, cs)]
  | SetNumber id i v => update id (put i (VInt v))
  | ClearNumber id i => update id (erase i (VInt 0))
  | SetString id i v | WriteMutable id i v => update id (put i (VStr v))
  | ClearString id i | SetAllocatedNull id i => update id (erase i (VStr []))
  | ReleaseString id i =>
      match ms !! id with
      | Some m =>
          (alter (erase i (VStr [])) id ms, get_str i m :: cs) ::
          (if bool_decide (get_str i m = []) then update id (erase i (VStr [])) else [])
      | None => []
      end
  | SetAllocated id i k =>
      match cs !! k with
      | Some v => [(alter (put i (VStr v)) id ms, delete k cs)]
      | None => []
      end
  | NewString v => [(ms, v :: cs)]
  | DeleteString k => [(ms, delete k cs)]
  | AddRepeated id i v => update id (fun m => assign i (VRep (get_rep i m ++ [v])) m)
  | SetRepeated id i j v => update id (fun m => assign i (VRep (<[j := v]> (get_rep i m))) m)
  | ClearRepeated id i => update id (assign i (VRep []))
  | ClearObject id => update id (fun m => mkmsg 0 (members (k_new K)) [] (cached_size_ m))
  | MergeObject from id =>
      match ms !! from with Some m => update id (MergeFrom K m) | None => [] end
  | CopyInto from id =>
      match ms !! from with Some m => update id (fun m' => copied m (cached_size_ m')) | None => [] end
  | SwapObjects a b =>
      match ms !! a, ms !! b with Some x, Some y => [(<[b := x]> (<[a := y]> ms), cs)] | _, _ => [] end
  end.

(** * What the heap shows *)

Definition string_at (h : string_heap) (p : Z) : list Z := default [] (strings h !! p).

Definition contents_of (w : world) : contents :=
  (view (heap_of w) <$> objects w, string_at (heap_of w) <$> client w).

Definition objects_own (os : gmap nat object) : list Z := mjoin (owns <$> (map_to_list os).*2).

(** Who owns the strings. *)
Definition all_owned (w : world) : list Z := objects_own (objects w) ++ client w.

Inductive reachable (K : message_class) : world -> Prop :=
  | reach_start : reachable K start
  | reach_step w c w' : reachable K w -> op_ok K c (contents_of w) = true ->
      run_op K c w = Ok w' -> reachable K w'.

Lemma objects_own_insert os id o : os !! id = None ->
  objects_own (<[id := o]> os) ≡ₚ owns o ++ objects_own os.
Proof.
  intros E. unfold objects_own. rewrite map_to_list_insert by done. reflexivity.
Qed.

Lemma objects_own_put os id o :
  objects_own (<[id := o]> os) ≡ₚ owns o ++ objects_own (delete id os).
Proof. by rewrite <- insert_delete_eq, objects_own_insert by apply lookup_delete_eq. Qed.

Lemma objects_own_split os id o : os !! id = Some o ->
  objects_own os ≡ₚ owns o ++ objects_own (delete id os).
Proof. intros E. rewrite <- (insert_id os id o) at 1 by done. apply objects_own_put. Qed.

Lemma owns_objects os id o : os !! id = Some o -> owns o ⊆ objects_own os.
Proof. intros E p Hp. rewrite (objects_own_split _ _ _ E). by apply elem_of_app; left. Qed.

(** * The invariant *)

Section Class.
Context (K : message_class).
Hypothesis HK : class_facts K.

Record good (w : world) : Prop := {
  g_owned : owned_by (heap_of w) (all_owned w);
  g_typed : forall id o, objects w !! id = Some o -> msg_facts K (view (heap_of w) o)
}.

Lemma start_good : good start.
Proof. constructor; [apply empty_owned|done]. Qed.

(** An object is replaced; what others have stays. *)
Lemma object_changes w id o' h' cl : good w ->
  let R := objects_own (delete id (objects w)) ++ cl in
  owned_by h' (owns o' ++ R) -> frame (objects_own (delete id (objects w))) (heap_of w) h' ->
  msg_facts K (view h' o') ->
  let w' := mkworld h' (<[id := o']> (objects w)) cl in
  good w' /\ fst (contents_of w') = <[id := view h' o']> (fst (contents_of w)).
Proof.
  intros Hw R Ho Hf Ht w'.
  assert (forall id' o, id' <> id -> objects w !! id' = Some o -> view h' o = view (heap_of w) o) as Hv.
  { intros id' o Hne E. eapply view_frame; [exact Hf|]. apply (owns_objects _ id').
    by rewrite lookup_delete_ne. }
  split; [constructor; cbn [w' heap_of objects client]|].
  - unfold all_owned. cbn [w' objects client]. by rewrite objects_own_put, <- (assoc_L (++)).
  - intros id' o. destruct (decide (id' = id)) as [->|Hne].
    + rewrite lookup_insert_eq. by intros [= <-].
    + rewrite lookup_insert_ne by done. intros E. rewrite (Hv id' o Hne E). by eapply g_typed.
  - apply map_eq. intros id'. cbn [contents_of fst w' heap_of objects].
    destruct (decide (id' = id)) as [->|Hne].
    + by rewrite lookup_fmap, !lookup_insert_eq.
    + rewrite lookup_fmap, !lookup_insert_ne, lookup_fmap by done.
      destruct (objects w !! id') as [o|] eqn:E; [|done]. cbn. by rewrite (Hv id' o Hne E).
Qed.

Lemma client_values R h h' cl : frame R h h' -> cl ⊆ R -> string_at h' <$> cl = string_at h <$> cl.
Proof.
  intros Hf Hs. apply list_fmap_ext. intros i p E. unfold string_at.
  rewrite (Hf p); [done|]. right. apply Hs. by eapply list_elem_of_lookup_2.
Qed.

Lemma good_split w id o : good w -> objects w !! id = Some o ->
  owned_by (heap_of w) (owns o ++ objects_own (delete id (objects w)) ++ client w).
Proof.
  intros Hw E. pose proof (g_owned _ Hw) as H. unfold all_owned in H.
  by rewrite (objects_own_split _ _ _ E), <- (assoc_L (++)) in H.
Qed.

Lemma alter_at {A} (f : A -> A) (m : gmap nat A) id x : m !! id = Some x -> alter f id m = <[id := f x]> m.
Proof.
  intros E. apply map_eq. intros j. destruct (decide (j = id)) as [->|Hne].
  - by rewrite lookup_alter_eq, E, lookup_insert_eq.
  - by rewrite lookup_alter_ne, lookup_insert_ne.
Qed.

Lemma on_object_runs w id o c msg : good w -> objects w !! id = Some o ->
  becomes (objects_own (delete id (objects w)) ++ client w) (heap_of w) (c o) msg ->
  msg_facts K msg ->
  exists w', on_object id c w = Ok w' /\ good w' /\
    contents_of w' = (<[id := msg]> (fst (contents_of w)), snd (contents_of w)).
Proof.
  intros Hw E (o' & h' & Ec & Ho & Ev & Hf) Ht. exists (put_object id o' h' w).
  split; [unfold on_object, find_object; rewrite E; cbn; by rewrite Ec|].
  destruct (object_changes w id o' h' (client w) Hw Ho) as [Hg Hc];
    [eapply frame_mono; [|exact Hf]; set_solver|by rewrite Ev|].
  split; [done|]. rewrite (surjective_pairing (contents_of (put_object _ _ _ _))).
  f_equal; [by rewrite <- Ev|]. cbn [contents_of snd put_object heap_of client].
  eapply client_values; [exact Hf|]. set_solver.
Qed.

(** * The messages stay well formed *)

Lemma put_facts msg i v w : msg_facts K msg -> write_of K i = Some w -> w_repeated w = false ->
  (match v with
   | VInt n => negb (is_string (w_type w)) && in_range (w_type w) n
   | VStr s => is_string (w_type w) && str_ok s
   | VRep _ => false
   end) = true -> msg_facts K (put i v msg).
Proof.
  intros Hm Ew Hr Hv. apply write_of_in in Ew as [Hw <-].
  pose proof (member_bound K HK w Hw) as Hi. rewrite <- (m_length _ _ Hm) in Hi.
  apply (facts_change K HK msg w v true Hm Hw). unfold wf_member.
  change (members (set_has ?i ?x)) with (members x).
  rewrite members_assign_eq, has_set_same, Hr by done.
  destruct v; [| |done]; cbn [negb andb orb]; by rewrite andb_true_r.
Qed.

Lemma has_clear_has i j msg : has j (clear_has i msg) = has j msg && negb (bool_decide (i = j)).
Proof.
  unfold has, clear_has. cbn [has_bits_]. rewrite Z.ldiff_spec. f_equal. f_equal.
  rewrite Z.shiftl_mul_pow2, Z.mul_1_l, Z.pow2_bits_eqb by lia.
  destruct (decide (i = j)) as [->|Hne]; [by rewrite Z.eqb_refl, bool_decide_eq_true_2|].
  rewrite bool_decide_eq_false_2 by done. apply Z.eqb_neq. lia.
Qed.

Lemma ldiff_range a b n : 0 <= a < 2 ^ n -> 0 <= n -> 0 <= b -> 0 <= Z.ldiff a b < 2 ^ n.
Proof.
  intros Ha Hn Hb. assert (0 <= Z.ldiff a b) by (apply Z.ldiff_nonneg; lia). split; [done|].
  rewrite <- (Z.mod_small a (2 ^ n)), <- Z.land_ones by done.
  assert (Z.ldiff (Z.land a (Z.ones n)) b = Z.land (Z.ldiff a b) (Z.ones n)) as ->.
  { apply Z.bits_inj'. intros k Hk. rewrite Z.ldiff_spec, !Z.land_spec, Z.ldiff_spec.
    destruct (Z.testbit a k), (Z.testbit b k), (Z.testbit (Z.ones n) k); done. }
  rewrite Z.land_ones by done. apply Z.mod_pos_bound. lia.
Qed.

Lemma erase_facts msg i v w : msg_facts K msg -> write_of K i = Some w -> w_repeated w = false ->
  v = (if is_string (w_type w) then VStr [] else VInt 0) -> msg_facts K (erase i v msg).
Proof.
  intros Hm Ew Hr ->. apply write_of_in in Ew as [Hw <-].
  pose proof (member_bound K HK w Hw) as Hi. pose proof Hi as Hi'. rewrite <- (m_length _ _ Hm) in Hi'.
  constructor.
  - rewrite <- (m_length _ _ Hm). apply length_insert.
  - intros w' Hw'. unfold wf_member, erase. rewrite has_clear_has, has_assign.
    change (members (clear_has ?i ?x)) with (members x).
    destruct (decide (w_member w = w_member w')) as [E|E].
    + rewrite (member_inj K HK w' w Hw' Hw (eq_sym E)).
      rewrite members_assign_eq, bool_decide_eq_true_2, andb_false_r, Hr by done.
      by destruct (w_type w).
    + rewrite members_assign_ne by done. rewrite bool_decide_eq_false_2, andb_true_r by done.
      apply (m_member _ _ Hm w' Hw').
  - apply ldiff_range; [apply (m_bits _ _ Hm)|lia|]. rewrite Z.shiftl_mul_pow2, Z.mul_1_l by lia.
    apply Z.pow_nonneg. lia.
  - apply (m_unknown _ _ Hm).
Qed.

Lemma repeated_facts msg i l w : msg_facts K msg -> write_of K i = Some w -> w_repeated w = true ->
  forallb str_ok l = true -> msg_facts K (assign i (VRep l) msg).
Proof.
  intros Hm Ew Hr Hl. apply write_of_in in Ew as [Hw <-].
  pose proof (member_bound K HK w Hw) as Hi. rewrite <- (m_length _ _ Hm) in Hi.
  apply (facts_change K HK msg w (VRep l) false Hm Hw). unfold wf_member.
  destruct (get_rep_ok K msg w Hm Hw Hr) as [_ Hh]. destruct (f_writes _ HK w Hw) as [_ Hs].
  by rewrite members_assign_eq, has_assign, Hr, (Hs Hr), Hl, Hh by done.
Qed.

Lemma MergeFrom_facts a msg : msg_facts K a -> msg_facts K msg -> msg_facts K (MergeFrom K a msg).
Proof.
  intros Ha Hm. pose proof (serialize_bytes K HK a Ha) as Hb.
  pose proof (decode_serialize K HK a [] msg Ha (wf_msg_kinds _ _ Hm) (proj1 (m_bits _ _ Hm))
    (Forall_nil_2 _)) as E. rewrite app_nil_r in E.
  by eapply (decode_fields_typed K HK); [exact Hb|exact Hm|exact E].
Qed.

Lemma copied_facts msg c : msg_facts K msg -> msg_facts K (copied msg c).
Proof. intros [H1 H2 H3 H4]. by constructor. Qed.

(** * One step *)

Lemma present_object w id : present id (contents_of w) = true -> exists o, objects w !! id = Some o.
Proof.
  intros H%bool_decide_eq_true_1. cbn [contents_of fst] in H. rewrite lookup_fmap in H.
  destruct (objects w !! id) as [o|]; [by exists o|by destruct H].
Qed.

Lemma is_field_write i rep str : is_field K i rep str = true ->
  exists w, write_of K i = Some w /\ w_repeated w = rep /\ is_string (w_type w) = str.
Proof.
  unfold is_field. destruct (write_of K i) as [w|]; [|done].
  intros [H1%eqb_prop H2%eqb_prop]%andb_true_iff. by exists w.
Qed.

Definition runs (c : op) (w : world) : Prop := exists w',
  run_op K c w = Ok w' /\ good w' /\ contents_of w' ∈ spec_op K c (contents_of w).

(** A step on one object. *)
Lemma object_step w id o c f : good w -> objects w !! id = Some o ->
  becomes (objects_own (delete id (objects w)) ++ client w) (heap_of w) (c o) (f (view (heap_of w) o)) ->
  msg_facts K (f (view (heap_of w) o)) ->
  exists w', on_object id c w = Ok w' /\ good w' /\
    contents_of w' ∈ [(alter f id (fst (contents_of w)), snd (contents_of w))].
Proof.
  intros Hw E Hb Ht. destruct (on_object_runs w id o c _ Hw E Hb Ht) as (w' & Er & Hg & Ec).
  exists w'. split; [done|]. split; [done|]. apply list_elem_of_singleton. rewrite Ec. f_equal.
  symmetry. apply alter_at. cbn [contents_of fst]. by rewrite lookup_fmap, E.
Qed.

Section Steps.
Context (w : world) (id i : nat) (o : object).
Hypothesis Hw : good w.
Hypothesis E : objects w !! id = Some o.

Let Ho := good_split w id o Hw E.
Let Ht := g_typed w Hw id o E.
Let Hk := wf_msg_kinds K _ Ht.

Lemma number_steps : is_field K i false false = true ->
  (forall v, number_fits K i v = true -> runs (SetNumber id i v) w) /\ runs (ClearNumber id i) w.
Proof.
  intros (x & Ew & Hr & Hs)%is_field_write.
  pose proof (optional_slot K (heap_of w) o i x Hk Ew Hr) as H. rewrite Hs in H. destruct H as [u Eu].
  split.
  - intros v Hv. unfold number_fits in Hv. rewrite Ew in Hv.
    apply (object_step w id o (fun o => mret (set_number i v o)) (put i (VInt v)) Hw E).
    + destruct (set_number_view _ _ o i Ho u v Eu) as [Ho' <-]. by apply becomes_ret.
    + apply (put_facts _ i (VInt v) x Ht Ew Hr). by rewrite Hs, Hv.
  - apply (object_step w id o (fun o => mret (clear_number i o)) (erase i (VInt 0)) Hw E).
    + destruct (clear_number_view _ _ o i Ho u Eu) as [Ho' <-]. by apply becomes_ret.
    + apply (erase_facts _ i (VInt 0) x Ht Ew Hr). by rewrite Hs.
Qed.

Lemma string_steps : is_field K i false true = true ->
  (forall v, str_ok v = true -> runs (SetString id i v) w /\ runs (WriteMutable id i v) w) /\
  runs (ClearString id i) w /\ runs (SetAllocatedNull id i) w.
Proof.
  intros (x & Ew & Hr & Hs)%is_field_write.
  pose proof (optional_slot K (heap_of w) o i x Hk Ew Hr) as H. rewrite Hs in H. destruct H as [p Ep].
  assert (msg_facts K (erase i (VStr []) (view (heap_of w) o))) as He
    by (apply (erase_facts _ i (VStr []) x Ht Ew Hr); by rewrite Hs).
  split; [intros v Hv; assert (msg_facts K (put i (VStr v) (view (heap_of w) o))) as Hp
    by (apply (put_facts _ i (VStr v) x Ht Ew Hr); by rewrite Hs, Hv); split|split].
  - apply (object_step w id o (set_string i v) (put i (VStr v)) Hw E); [|exact Hp].
    by eapply set_string_becomes.
  - refine (object_step w id o _ (put i (VStr v)) Hw E _ Hp).
    destruct (mutable_string_view _ _ o i p Ho Ep) as (q & o1 & h1 & Em & Ho1 & Ev & Hf & Eq & Hq).
    destruct (write_slot _ h1 o1 i q v Ho1 Eq Hq) as (o2 & h2 & E2 & Ho2 & Ev2 & Hf2).
    exists o2, h2. rewrite (st_bind_ok _ _ _ _ _ Em). split; [exact E2|]. split; [done|].
    split; [|by eapply frame_trans]. rewrite Ev2, Ev. unfold put, assign. cbn. by rewrite list_insert_insert_eq.
  - apply (object_step w id o (clear_string i) (erase i (VStr [])) Hw E); [|exact He].
    by eapply clear_string_becomes.
  - apply (object_step w id o (set_allocated_string i None) (erase i (VStr [])) Hw E); [|exact He].
    by eapply set_allocated_none_becomes.
Qed.

Lemma release_step : is_field K i false true = true -> runs (ReleaseString id i) w.
Proof.
  intros (x & Ew & Hr & Hs)%is_field_write.
  pose proof (optional_slot K (heap_of w) o i x Hk Ew Hr) as H. rewrite Hs in H. destruct H as [p Ep].
  assert (msg_facts K (erase i (VStr []) (view (heap_of w) o))) as He
    by (apply (erase_facts _ i (VStr []) x Ht Ew Hr); by rewrite Hs).
  destruct (release_string_view _ _ o i Ho p Ep) as (r & o' & Er & Ho' & Ev & Hp).
  assert (get_str i (view (heap_of w) o) = string_at (heap_of w) p) as Eg.
  { unfold get_str. by rewrite view_lookup, Ep. }
  assert (fst (contents_of w) !! id = Some (view (heap_of w) o)) as Em
    by (cbn [contents_of fst]; by rewrite lookup_fmap, E).
  destruct (object_changes w id o' (heap_of w) (option_list r ++ client w) Hw) as [Hg Hc];
    [|done|by rewrite Ev|].
  { revert Ho'. destruct r as [q|]; cbn [from_option option_list app]; [|done].
    destruct Hp as [-> Hq]. rewrite own_other by done. cbn [app].
    intros H. by rewrite <- (Permutation_middle (objects_own _) (client w) p). }
  eexists. split; [unfold run_op, find_object; rewrite E; cbn; rewrite Er; reflexivity|].
  split; [exact Hg|]. rewrite (surjective_pairing (contents_of (mkworld _ _ _))), Hc, Ev.
  set (ms := fst (contents_of w)) in *. set (cs := snd (contents_of w)).
  change (contents_of w) with (ms, cs). cbn [spec_op]. rewrite Em, Eg.
  rewrite (alter_at _ _ _ _ Em). destruct r as [q|].
  - destruct Hp as [-> _]. left.
  - subst p. assert (string_at (heap_of w) default_value = []) as ->
      by (unfold string_at; by rewrite (h_default _ _ Ho)).
    rewrite bool_decide_eq_true_2 by done. right. left.
Qed.

Lemma allocated_step k v : is_field K i false true = true -> snd (contents_of w) !! k = Some v ->
  str_ok v = true -> runs (SetAllocated id i k) w.
Proof.
  intros (x & Ew & Hr & Hs)%is_field_write Ev Hv.
  pose proof (optional_slot K (heap_of w) o i x Hk Ew Hr) as H. rewrite Hs in H. destruct H as [p Ep].
  cbn [contents_of snd] in Ev. rewrite list_lookup_fmap in Ev.
  destruct (client w !! k) as [q|] eqn:Eq; [|done]. injection Ev as Ev.
  assert (client w ≡ₚ q :: delete k (client w)) as Hcl by (by apply delete_Permutation).
  assert (owned_by (heap_of w) (owns o ++ q :: objects_own (delete id (objects w)) ++ delete k (client w))) as Ho1.
  { rewrite Permutation_middle, <- Hcl. exact Ho. }
  assert (strings (heap_of w) !! q = Some v) as Esv.
  { assert (q ∈ default_value :: owns o ++ q :: objects_own (delete id (objects w)) ++ delete k (client w))
      as Hq by set_solver. apply (h_live _ _ Ho1) in Hq as [u Eu]. unfold string_at in Ev. rewrite Eu in Ev.
    simpl in Ev. congruence. }
  destruct (set_allocated_some_becomes _ _ o i p q v Ho1 Ep Esv) as (o' & h' & Ec & Ho' & Evw & Hf).
  assert (msg_facts K (put i (VStr v) (view (heap_of w) o))) as Hp
    by (apply (put_facts _ i (VStr v) x Ht Ew Hr); by rewrite Hs, Hv).
  destruct (object_changes w id o' h' (delete k (client w)) Hw Ho') as [Hg Hc];
    [eapply frame_mono; [|exact Hf]; set_solver|by rewrite Evw|].
  eexists. split; [unfold run_op, take_client, on_object, find_object; rewrite Eq; cbn; rewrite E; cbn;
    rewrite Ec; reflexivity|].
  split; [exact Hg|]. rewrite (surjective_pairing (contents_of (put_object _ _ _ _))).
  assert (fst (contents_of w) !! id = Some (view (heap_of w) o)) as Em
    by (cbn [contents_of fst]; by rewrite lookup_fmap, E).
  set (ms := fst (contents_of w)) in *. set (cs := snd (contents_of w)) in *.
  change (contents_of w) with (ms, cs). cbn [spec_op].
  assert (cs !! k = Some v) as ->.
  { unfold cs. cbn [contents_of snd]. rewrite list_lookup_fmap, Eq. cbn. by rewrite Ev. }
  rewrite (alter_at _ _ _ _ Em). apply list_elem_of_singleton.
  f_equal; [rewrite <- Evw; exact Hc|].
  unfold cs. cbn [contents_of snd put_object heap_of client]. rewrite <- list_fmap_delete.
  eapply client_values; [exact Hf|]. set_solver.
Qed.

Lemma repeated_steps : is_field K i true true = true ->
  (forall v, str_ok v = true -> runs (AddRepeated id i v) w /\
    forall j, (j < length (get_rep i (view (heap_of w) o)))%nat -> runs (SetRepeated id i j v) w) /\
  runs (ClearRepeated id i) w.
Proof.
  intros (x & Ew & Hr & Hs)%is_field_write.
  destruct (repeated_slot K (heap_of w) o i Hk) as [l El]; [by unfold is_repeated; rewrite Ew|].
  assert (get_rep i (view (heap_of w) o) = l) as Eg by (unfold get_rep; by rewrite view_lookup, El).
  assert (forallb str_ok l = true) as Hl.
  { rewrite <- Eg. pose proof (write_of_in K i x Ew) as [Hx <-]. by apply (get_rep_ok K _ x Ht Hx Hr). }
  assert (forall l' (r : object -> result object) f, forallb str_ok l' = true ->
    r o = Ok (set_slot i (Strs l') o) -> f (view (heap_of w) o) = assign i (VRep l') (view (heap_of w) o) ->
    exists w', on_object id (fun o => st_lift (r o)) w = Ok w' /\ good w' /\
      contents_of w' ∈ [(alter f id (fst (contents_of w)), snd (contents_of w))]) as Hrun.
  { intros l' r f Hl' Er Ef. apply (object_step w id o _ f Hw E); rewrite Ef; [|by eapply repeated_facts].
    destruct (pure_slot _ _ o i Ho (Strs l) (Strs l') El eq_refl eq_refl) as [Ho' Ev].
    cbn [slot_value] in Ev. rewrite <- Ev, Er. by apply becomes_ret. }
  split; [intros v Hv; split; [|intros j Hj]|].
  - apply (Hrun (l ++ [v]) (add_repeated i v)); [by rewrite forallb_app, Hl; simpl; rewrite Hv| |by rewrite Eg].
    unfold add_repeated, repeated. by rewrite El.
  - rewrite Eg in Hj. apply (Hrun (<[j := v]> l) (set_repeated i j v)); [| |by rewrite Eg].
    + apply forallb_forall. intros s [n En]%list_elem_of_In%list_elem_of_lookup.
      apply list_lookup_insert_Some in En as [(_ & <- & _)|[_ En]]; [done|].
      by eapply (forallb_elem _ _ s Hl), list_elem_of_lookup_2.
    + unfold set_repeated, repeated. rewrite El, (res_bind_ok _ _ l eq_refl).
      assert ((j <? length l)%nat = true) as -> by (by apply Nat.ltb_lt). done.
  - apply (Hrun [] (clear_repeated i)); [done| |done]. unfold clear_repeated, repeated. by rewrite El.
Qed.

Lemma clear_object_step : runs (ClearObject id) w.
Proof.
  destruct (Clear_does K HK _ (heap_of w) o Ho Hk) as [Hb _].
  rewrite (Clear_new_object K HK _ Ht) in Hb.
  apply (object_step w id o (ObjectClear K) (fun m => mkmsg 0 (members (k_new K)) [] (cached_size_ m)) Hw E);
    [exact Hb|by apply new_facts].
Qed.

(** From another object. *)
Section From.
Context (from : nat) (o2 : object).
Hypothesis E2 : objects w !! from = Some o2.
Hypothesis Hne : from <> id.

Lemma other_owns : owns o2 ⊆ objects_own (delete id (objects w)) ++ client w.
Proof.
  intros p Hp. apply elem_of_app. left. eapply (owns_objects _ from o2); [|exact Hp].
  by rewrite lookup_delete_ne.
Qed.

Let Ht2 := g_typed w Hw from o2 E2.
Let Hk2 := wf_msg_kinds K _ Ht2.

Lemma from_contents : fst (contents_of w) !! from = Some (view (heap_of w) o2).
Proof. cbn [contents_of fst]. by rewrite lookup_fmap, E2. Qed.

Lemma merge_object_step : runs (MergeObject from id) w.
Proof.
  destruct (MergeFrom_does K HK _ o2 other_owns (heap_of w) o Ho Hk2 Hk) as [Hb _].
  destruct (object_step w id o (ObjectMergeFrom K o2) (MergeFrom K (view (heap_of w) o2)) Hw E Hb)
    as (w' & Er & Hg & Hc); [by apply MergeFrom_facts|].
  exists w'. unfold run_op, find_object. rewrite (proj2 (Nat.eqb_neq _ _) Hne), E2.
  split; [exact Er|]. split; [done|]. pose proof from_contents as Ef.
  set (ms := fst (contents_of w)) in *. set (cs := snd (contents_of w)) in *.
  change (contents_of w) with (ms, cs). cbn [spec_op]. by rewrite Ef.
Qed.

Lemma copy_into_step : runs (CopyInto from id) w.
Proof.
  destruct (CopyFrom_does K HK _ o2 other_owns (heap_of w) o Ho Hk2 Hk) as [Hb _].
  unfold CopyFrom in Hb. rewrite (Clear_new_object K HK _ Ht), (MergeFrom_fresh K HK _ _ Ht2) in Hb.
  destruct (object_step w id o (ObjectCopyFrom K o2)
    (fun m => copied (view (heap_of w) o2) (cached_size_ m)) Hw E Hb)
    as (w' & Er & Hg & Hc); [by apply copied_facts|].
  exists w'. unfold run_op, find_object. rewrite (proj2 (Nat.eqb_neq _ _) Hne), E2.
  split; [exact Er|]. split; [done|]. pose proof from_contents as Ef.
  set (ms := fst (contents_of w)) in *. set (cs := snd (contents_of w)) in *.
  change (contents_of w) with (ms, cs). cbn [spec_op]. by rewrite Ef.
Qed.
End From.

Lemma copy_into_self : runs (CopyInto id id) w.
Proof.
  exists w. unfold run_op. rewrite Nat.eqb_refl. split; [done|]. split; [done|].
  assert (fst (contents_of w) !! id = Some (view (heap_of w) o)) as Em
    by (cbn [contents_of fst]; by rewrite lookup_fmap, E).
  set (ms := fst (contents_of w)) in *. set (cs := snd (contents_of w)) in *.
  change (contents_of w) with (ms, cs). cbn [spec_op]. rewrite Em. apply list_elem_of_singleton.
  rewrite (alter_at _ _ _ _ Em). f_equal. symmetry. apply insert_id. rewrite Em. by f_equal.
Qed.

Lemma destroy_step : runs (DestroyObject id) w.
Proof.
  destruct (SharedDtor_owned _ (heap_of w) o Ho) as (h' & Ed & Ho' & Hf).
  eexists. split; [unfold run_op, find_object; rewrite E; cbn; rewrite Ed; reflexivity|].
  assert (forall id' o', delete id (objects w) !! id' = Some o' -> view h' o' = view (heap_of w) o') as Hv.
  { intros id' o' E'. eapply view_frame; [exact Hf|]. intros p Hp. apply elem_of_app. left.
    by eapply owns_objects. }
  split; [constructor; [exact Ho'|]|].
  - intros id' o' E'. cbn [heap_of objects snd] in *. rewrite (Hv _ _ E').
    apply lookup_delete_Some in E' as [_ E']. by eapply g_typed.
  - apply list_elem_of_singleton. unfold contents_of. cbn [heap_of objects client snd]. f_equal.
    + rewrite <- fmap_delete. apply map_eq. intros id'. rewrite !lookup_fmap.
      destruct (delete id (objects w) !! id') as [o'|] eqn:E'; [|done].
      change (Some (view h' o') = Some (view (heap_of w) o')). by rewrite (Hv _ _ E').
    + eapply client_values; [exact Hf|]. set_solver.
Qed.
End Steps.

(** ** Creation, strings, swapping *)

(** A new object; nobody else's strings change. *)
Lemma object_appears w id o' h' : good w -> objects w !! id = None ->
  owned_by h' (owns o' ++ all_owned w) -> frame (all_owned w) (heap_of w) h' ->
  msg_facts K (view h' o') ->
  let w' := put_object id o' h' w in
  good w' /\ contents_of w' = (<[id := view h' o']> (fst (contents_of w)), snd (contents_of w)).
Proof.
  intros Hw E Ho Hf Ht w'. unfold all_owned in *.
  destruct (object_changes w id o' h' (client w) Hw) as [Hg Hc];
    [by rewrite delete_id|rewrite delete_id by done; eapply frame_mono; [|exact Hf]; set_solver|done|].
  split; [exact Hg|]. rewrite (surjective_pairing (contents_of w')). f_equal; [exact Hc|].
  cbn [contents_of snd w' put_object heap_of client]. eapply client_values; [exact Hf|]. set_solver.
Qed.

Lemma new_object_step w id : good w -> objects w !! id = None -> runs (NewObject id) w.
Proof.
  intros Hw E. pose proof (g_owned _ Hw) as Ho.
  pose proof (SharedCtor_view K HK _ _ Ho) as Ev. fold (fresh K) in Ev.
  destruct (object_appears w id (SharedCtor K) (heap_of w) Hw E) as [Hg Hc];
    [by rewrite SharedCtor_owns|done|rewrite Ev; by apply fresh_facts|].
  eexists. split; [reflexivity|]. split; [exact Hg|].
  set (ms := fst (contents_of w)) in *. set (cs := snd (contents_of w)) in *.
  change (contents_of w) with (ms, cs). cbn [spec_op]. apply list_elem_of_singleton. by rewrite Hc, Ev.
Qed.

Lemma copy_object_step w src id o : good w -> objects w !! src = Some o -> objects w !! id = None ->
  runs (CopyObject src id) w.
Proof.
  intros Hw Es E. pose proof (g_owned _ Hw) as Ho. pose proof (g_typed _ Hw _ _ Es) as Ht.
  pose proof (SharedCtor_view K HK _ _ Ho) as Ev. fold (fresh K) in Ev.
  destruct (MergeFrom_does K HK (all_owned w) o) with (h := heap_of w) (o := SharedCtor K)
    as [(o' & h' & Er & Ho' & Ev' & Hf) _];
    [intros p Hp; apply elem_of_app; left; by eapply owns_objects|by rewrite SharedCtor_owns
    |by apply wf_msg_kinds|rewrite Ev; by apply wf_msg_kinds, fresh_facts|].
  rewrite Ev in Ev'. unfold fresh in Ev'. rewrite (MergeFrom_fresh K HK _ _ Ht) in Ev'.
  destruct (object_appears w id o' h' Hw E Ho' Hf) as [Hg Hc];
    [rewrite Ev'; by apply copied_facts|].
  eexists. split; [unfold run_op, find_object; rewrite Es; cbn; rewrite Er; reflexivity|].
  split; [exact Hg|]. pose proof (from_contents w src o Es) as Em.
  set (ms := fst (contents_of w)) in *. set (cs := snd (contents_of w)) in *.
  change (contents_of w) with (ms, cs). cbn [spec_op]. rewrite Em. apply list_elem_of_singleton.
  cbn [fst snd]. by rewrite Hc, Ev'.
Qed.

(** The objects stay as they are, while the program's strings change. *)
Lemma client_changes w h' cl : good w -> owned_by h' (objects_own (objects w) ++ cl) ->
  frame (objects_own (objects w)) (heap_of w) h' ->
  let w' := mkworld h' (objects w) cl in good w' /\ fst (contents_of w') = fst (contents_of w).
Proof.
  intros Hw Ho Hf w'.
  assert (forall id o, objects w !! id = Some o -> view h' o = view (heap_of w) o) as Hv
    by (intros id o E; eapply view_frame; [exact Hf|]; by eapply owns_objects).
  split; [constructor; [exact Ho|]|].
  - intros id o E. cbn [w' heap_of objects] in *. rewrite (Hv id o E). by eapply g_typed.
  - cbn [contents_of fst w' heap_of objects]. apply map_eq. intros id. rewrite !lookup_fmap.
    destruct (objects w !! id) as [o|] eqn:E; [|done].
    change (Some (view h' o) = Some (view (heap_of w) o)). by rewrite (Hv id o E).
Qed.

Lemma new_string_step w v : good w -> runs (NewString v) w.
Proof.
  intros Hw. destruct (new_owned _ _ v (g_owned _ Hw)) as (p & h' & Er & Ho & Ev & _ & Hf).
  destruct (client_changes w h' (p :: client w) Hw) as [Hg Hc];
    [by rewrite <- Permutation_middle|eapply frame_mono; [|exact Hf]; unfold all_owned; set_solver|].
  eexists. split; [unfold run_op; rewrite Er; reflexivity|]. split; [exact Hg|].
  rewrite (surjective_pairing (contents_of (mkworld _ _ _))). cbn [fst snd]. rewrite Hc.
  apply list_elem_of_singleton. f_equal. cbn [contents_of snd heap_of client].
  rewrite fmap_cons. f_equal; [unfold string_at; by rewrite Ev|].
  eapply client_values; [exact Hf|]. unfold all_owned. set_solver.
Qed.

Lemma delete_string_step w k : good w -> (k < length (snd (contents_of w)))%nat -> runs (DeleteString k) w.
Proof.
  intros Hw Hk. cbn [contents_of snd] in Hk. rewrite length_fmap in Hk.
  destruct (lookup_lt_is_Some_2 _ _ Hk) as [p Ep].
  assert (owned_by (heap_of w) (p :: objects_own (objects w) ++ delete k (client w))) as Ho.
  { rewrite Permutation_middle, <- delete_Permutation by done. apply (g_owned _ Hw). }
  destruct (delete_owned _ _ p Ho) as (h' & Er & Ho' & Hf).
  destruct (client_changes w h' (delete k (client w)) Hw Ho') as [Hg Hc];
    [eapply frame_mono; [|exact Hf]; set_solver|].
  eexists. split; [unfold run_op, take_client; rewrite Ep; cbn; rewrite Er; reflexivity|].
  split; [exact Hg|].
  rewrite (surjective_pairing (contents_of (mkworld _ _ _))). cbn [fst snd]. rewrite Hc.
  apply list_elem_of_singleton. f_equal. cbn [contents_of snd heap_of client].
  rewrite <- list_fmap_delete. eapply client_values; [exact Hf|]. set_solver.
Qed.

Lemma swap_step w a b x y : good w -> objects w !! a = Some x -> objects w !! b = Some y ->
  runs (SwapObjects a b) w.
Proof.
  intros Hw Ea Eb. unfold runs, run_op.
  pose proof (from_contents w a x Ea) as Ma. pose proof (from_contents w b y Eb) as Mb.
  set (ms := fst (contents_of w)) in *. set (cs := snd (contents_of w)).
  change (contents_of w) with (ms, cs). cbn [spec_op]. rewrite Ma, Mb.
  destruct (Nat.eqb_spec a b) as [->|Hne].
  - exists w. split; [done|]. split; [done|]. apply list_elem_of_singleton.
    change (contents_of w) with (ms, cs). assert (x = y) as -> by congruence.
    by rewrite (insert_id ms b (view (heap_of w) y)), insert_id by done.
  - unfold find_object. rewrite Ea, Eb. eexists. split; [reflexivity|].
    assert (objects_own (<[b := x]> (<[a := y]> (objects w))) ≡ₚ objects_own (objects w)) as Hp.
    { rewrite objects_own_put, delete_insert_ne, objects_own_put by done.
      rewrite delete_delete, (objects_own_split _ _ _ Ea), (objects_own_split (delete a _) b y)
        by (by rewrite lookup_delete_ne).
      done. }
    split; [constructor|].
    + unfold all_owned. cbn [objects client heap_of]. rewrite Hp. apply (g_owned _ Hw).
    + intros id o. cbn [objects heap_of]. intros [[<- <-]|[_ [[<- <-]|[_ E]]%lookup_insert_Some]]%lookup_insert_Some;
        by eapply g_typed.
    + apply list_elem_of_singleton. unfold contents_of. cbn [objects client heap_of].
      f_equal. by rewrite !fmap_insert.
Qed.

(** * Every step *)

Lemma absent_object w id : present id (contents_of w) = false -> objects w !! id = None.
Proof.
  intros H%bool_decide_eq_false_1. cbn [contents_of fst] in H. rewrite lookup_fmap in H.
  destruct (objects w !! id); [|done]. exfalso. apply H. by eexists.
Qed.

(** Splits what [op_ok] asks for. *)
Ltac split_ok :=
  repeat match goal with
  | H : _ && _ = true |- _ => apply andb_true_iff in H as [H ?]
  | H : negb _ = true |- _ => apply negb_true_iff in H
  | H : present ?id _ = true |- _ => apply present_object in H as [? ?]
  | H : present ?id _ = false |- _ => apply absent_object in H
  end.

Lemma every_step w c : good w -> op_ok K c (contents_of w) = true -> runs c w.
Proof.
  intros Hw Hc. destruct c; cbn [op_ok] in Hc; split_ok.
  - by apply new_object_step.
  - by eapply copy_object_step.
  - by eapply destroy_step.
  - by eapply number_steps.
  - by eapply number_steps.
  - by eapply string_steps.
  - by eapply string_steps.
  - by eapply string_steps.
  - by eapply release_step.
  - destruct (snd (contents_of w) !! k) as [v|] eqn:Ev; [|done]. by eapply allocated_step.
  - by eapply string_steps.
  - by apply new_string_step.
  - apply delete_string_step; [done|]. by apply Nat.ltb_lt.
  - by eapply repeated_steps.
  - match goal with H : match fst (contents_of w) !! id with _ => _ end = true |- _ =>
      cbn [contents_of fst] in H; rewrite lookup_fmap in H end.
    destruct (objects w !! id) as [o|] eqn:Eo; [|done].
    eapply repeated_steps; [done|exact Eo|done|done|by apply Nat.ltb_lt].
  - by eapply repeated_steps.
  - by eapply clear_object_step.
  - eapply merge_object_step; [done|eassumption..|by apply Nat.eqb_neq].
  - destruct (decide (from = id)) as [->|Hne]; [by eapply copy_into_self|by eapply copy_into_step].
  - by eapply swap_step.
Qed.

Lemma reachable_good w : reachable K w -> good w.
Proof.
  induction 1 as [|w c w' Hr Hw Hok Er]; [apply start_good|].
  destruct (every_step w c Hw Hok) as (w2 & E2 & Hg & _). congruence.
Qed.
End Class.
