(* ===== verification/ClassProps.v ===== *)
(** The properties of the message classes as a whole: every class of the two generated files whose
    fields are numbers and strings, and programs that work with message objects. *)

From Stdlib Require Import String.
From S2P Require Import Prelude CMem Coded CodedStream Wire Messages NetMessages NetClasses UserClasses WireSpec MsgSpec MsgTables.
From S2P Require Import MsgTrip MsgParser MsgProps TextFormat TextSpec Descriptors.
From S2P Require Import StrUtil Objects ObjectProofs ObjectRun.

(** * The generated classes *)

(** The tables of a class against its descriptor. *)
Definition class_agrees (p : message_class * list Z) : bool :=
  wf_class (fst p) &&
  match descriptor_of_bytes (snd p) with Some D => wf_descriptor (fst p) D | None => false end.

Lemma registered_agree : forallb class_agrees (net_registered ++ user_registered) = true.
Proof. vm_compute. reflexivity. Qed.

Lemma registered_class K bs : In (K, bs) (net_registered ++ user_registered) ->
  wf_class K = true /\ exists D, descriptor_of_bytes bs = Some D /\ wf_descriptor K D = true.
Proof.
  intros Hin. pose proof registered_agree as H. rewrite forallb_forall in H.
  specialize (H _ Hin). unfold class_agrees in H. cbn [fst snd] in H.
  apply andb_true_iff in H as [HK HD]. split; [done|].
  destruct (descriptor_of_bytes bs) as [D|]; [by exists D|done].
Qed.

(** C28: equivalence.  In each of the 77 generated classes with fields that are numbers and strings,
    the parser, the writer and the descriptor that is registered as bytes - three separate pieces of
    code - name the same fields with the same numbers, types and labels; and so every object of the
    class, if its bytes are fewer than two gigabytes, is written whole into an array of their number,
    and comes back from the bytes, if they are fewer than 64 megabytes, whatever object they are
    parsed into. *)
Theorem generated_classes_agree `{TR : TagReader} {HT : TagReaderLaws} K bs :
  In (K, bs) (net_registered ++ user_registered) ->
  (exists D, descriptor_of_bytes bs = Some D /\ fd_write <$> sorted_fields D = k_writes K /\
     case_write <$> k_cases K = k_writes K /\ NoDup (fd_number <$> d_fields D)) /\
  (forall m p from msg fuel, wf_msg K from = true -> wf_msg K msg = true ->
     let wire := SerializeWithCachedSizesToArray K from in
     (Z.of_nat (length wire) < 2 ^ 31 ->
      SerializeToArray K (Z.of_nat (length wire)) from =
        Ok (Some wire, mkmsg (has_bits_ from) (members from) (unknown_fields_ from) (Z.of_nat (length wire)))) /\
     (holds m p wire -> Z.of_nat (length wire) < 2 ^ 26 -> (2 * length wire + 2 <= fuel)%nat ->
      MsgParseFromArray m fuel K p (Z.of_nat (length wire)) msg =
        Ok (true, mkmsg (has_bits_ from) (members from) (unknown_fields_ from) (cached_size_ msg)))).
Proof.
  intros Hin. destruct (registered_class K bs Hin) as (HK & D & ED & HD).
  pose proof (wf_class_facts _ HK) as HF. split.
  - exists D. destruct (descriptor_facts K D HD) as (Hw & _ & Hn). repeat (split; [done|]). split; [|done].
    apply (f_link _ HF).
  - intros m p from msg fuel Hf Hm wire. split.
    + intros Hl. rewrite (serialize_exact K HK) by done. by rewrite Z.ltb_irrefl.
    + by apply (parse_restores K HK).
Qed.

(** Voice data with a client, an identifier of 64 bits and three bytes of sound. *)
Definition sample_voice : message :=
  mkmsg 21 [VInt 3; VInt 0; VInt (2 ^ 56 + 5); VInt 0; VStr [1; 2; 255]] [] 0.

Lemma generated_classes_agree_witness :
  let wire := SerializeWithCachedSizesToArray CSVCMsg_VoiceData sample_voice in
  MsgParseFromArray (H := plain_tag_reader) (block 4096 wire) 100 CSVCMsg_VoiceData 4096
    (Z.of_nat (length wire)) CSVCMsg_VoiceData_SharedCtor = Ok (true, sample_voice).
Proof.
  destruct (@generated_classes_agree plain_tag_reader plain_tag_laws CSVCMsg_VoiceData CSVCMsg_VoiceData_bytes)
    as [_ H].
  - unfold net_registered. cbn [app In]. repeat first [left; reflexivity | right].
  - apply (H (block 4096 (SerializeWithCachedSizesToArray CSVCMsg_VoiceData sample_voice)) 4096 sample_voice
      CSVCMsg_VoiceData_SharedCtor 100%nat); [reflexivity|reflexivity|apply holds_blit|reflexivity|].
    vm_compute. repeat constructor.
Defined.

(** * Programs with message objects *)

Section Objects.
Context (K : message_class) (HK : wf_class K = true).

(** C26: invariant.  After any sequence of creations, copies, assignments, accessor calls, releases,
    hand-overs, merges, swaps and destructions, the objects are well formed, the empty string that
    all objects share is still empty, and every other string on the heap belongs to exactly one
    member of one object or to the program: none is owned twice, freed too early or lost.  So when
    the objects are destroyed and the program has freed its own strings, nothing is left. *)
Theorem objects_invariant w : reachable K w ->
  (forall id msg, fst (contents_of w) !! id = Some msg -> wf_msg K msg = true) /\
  strings (heap_of w) !! default_value = Some [] /\
  NoDup (default_value :: all_owned w) /\
  (forall p, is_Some (strings (heap_of w) !! p) <-> p ∈ default_value :: all_owned w) /\
  (objects w = ∅ -> client w = [] -> strings (heap_of w) = {[default_value := []]}).
Proof.
  intros Hr. pose proof (wf_class_facts _ HK) as HF. destruct (reachable_good K HF w Hr) as [Ho Ht].
  split; [|split; [apply (h_default _ _ Ho)|split; [apply (h_nodup _ _ Ho)|split; [apply (h_live _ _ Ho)|]]]].
  - intros id msg E. cbn [contents_of fst] in E. rewrite lookup_fmap in E.
    destruct (objects w !! id) as [o|] eqn:Eo; [|done]. injection E as <-.
    apply wf_msg_facts. by eapply Ht.
  - intros Eo Ec. pose proof (h_live _ _ Ho) as Hl. unfold all_owned in Hl. rewrite Eo, Ec in Hl.
    apply map_eq. intros p. destruct (decide (p = default_value)) as [->|Hp].
    + rewrite lookup_singleton_eq. apply (h_default _ _ Ho).
    + rewrite lookup_singleton_ne by done. destruct (strings (heap_of w) !! p) as [v|] eqn:E; [|done].
      assert (p ∈ [default_value]) as Hin%list_elem_of_singleton by (apply Hl; by rewrite E). done.
Qed.

(** C27: refinement.  Every step that a program may take on objects - members of the right type,
    values in range, strings that it owns - runs without a fault, and the messages and strings are
    afterwards what the specification on values says, which has no heap: pointers, the shared empty
    string, strings that are reused and objects that share nothing never show. *)
Theorem objects_refine w c : reachable K w -> op_ok K c (contents_of w) = true ->
  exists w', run_op K c w = Ok w' /\ reachable K w' /\ contents_of w' ∈ spec_op K c (contents_of w).
Proof.
  intros Hr Hok. pose proof (wf_class_facts _ HK) as HF.
  destruct (every_step K HF w c (reachable_good K HF w Hr) Hok) as (w' & E & _ & Hc).
  exists w'. split; [done|]. split; [by eapply reach_step|done].
Qed.
End Objects.

(** A program: its steps one after the other, each of them allowed. *)
Fixpoint run_ops (K : message_class) (cs : list op) (w : world) : result world :=
  match cs with
  | [] => Ok w
  | c :: cs =>
      if op_ok K c (contents_of w) then w ← run_op K c w; run_ops K cs w
      else Fault InvalidParameter
  end.

Lemma run_ops_reachable K cs w w' : reachable K w -> run_ops K cs w = Ok w' -> reachable K w'.
Proof.
  revert w. induction cs as [|c cs IH]; intros w Hr E; [by injection E as <-|]. cbn [run_ops] in E.
  destruct (op_ok K c (contents_of w)) eqn:Hok; [|done].
  destruct (run_op K c w) as [w1|f] eqn:E1; [|done]. apply (IH w1); [by eapply reach_step|done].
Qed.

(** A sign-on is filled in and copied, the copy's map name goes to the program and from there to a
    third object, the first takes over the third; then all is given back. *)
Definition sample_program : list op :=
  [NewObject 0; SetNumber 0 0 2; SetString 0 4 [100; 101]; AddRepeated 0 3 [88]; CopyObject 0 1;
   ReleaseString 1 4; NewObject 2; SetAllocated 2 4 0; WriteMutable 2 4 [122]; SwapObjects 1 2;
   MergeObject 1 0].

Definition sample_end : list op :=
  [NewString [1]; DestroyObject 2; ClearObject 1; SetAllocatedNull 1 4; DestroyObject 1; CopyInto 0 0;
   DestroyObject 0; DeleteString 0].

Lemma objects_invariant_witness : exists w,
  run_ops CNETMsg_SignonState (sample_program ++ sample_end) start = Ok w /\
  strings (heap_of w) = {[default_value := []]}.
Proof.
  destruct (run_ops CNETMsg_SignonState (sample_program ++ sample_end) start) as [w|f] eqn:E;
    [|vm_compute in E; discriminate].
  exists w. split; [reflexivity|].
  destruct (objects_invariant CNETMsg_SignonState eq_refl w
    (run_ops_reachable _ _ _ _ (reach_start _) E)) as (_ & _ & _ & _ & H).
  vm_compute in E. injection E as <-. apply H; reflexivity.
Defined.

Lemma objects_refine_witness : exists w w',
  run_ops CNETMsg_SignonState sample_program start = Ok w /\
  run_op CNETMsg_SignonState (ClearString 0 4) w = Ok w' /\
  (get_str 4 <$> fst (contents_of w') !! 0%nat) = Some [].
Proof.
  destruct (run_ops CNETMsg_SignonState sample_program start) as [w|f] eqn:E;
    [|vm_compute in E; discriminate].
  destruct (objects_refine CNETMsg_SignonState eq_refl w (ClearString 0 4)
    (run_ops_reachable _ _ _ _ (reach_start _) E)) as (w' & Ew & _ & Hc).
  - vm_compute in E. injection E as <-. reflexivity.
  - exists w, w'. split; [reflexivity|]. split; [exact Ew|].
    vm_compute in E. injection E as <-. vm_compute in Ew. injection Ew as <-. reflexivity.
Defined.
