(* ===== verification/StreamProps.v ===== *)
(** The properties of serialising through streams: any sequence of writes against the writers to
    an array, and the messages of the generated classes, whose stream writers are separate code. *)

From S2P Require Import Prelude CMem Coded Wire Messages NetMessages NetClasses UserClasses StreamClasses TextGen TextGenProofs.
From S2P Require Import CodedOut CodedOutProofs CodedSpec CodedWrite WireTrip MsgTables MsgSize MsgTrip.

(** * Sequences of writes *)

Inductive write_op :=
  | OpRaw (data : list Z)
  | OpString (str : list Z)
  | OpLittleEndian32 (value : Z)
  | OpLittleEndian64 (value : Z)
  | OpVarint32 (value : Z)
  | OpVarint64 (value : Z)
  | OpVarint32SignExtended (value : Z)
  | OpTag (value : Z).

(** The values of the parameter types. *)
Definition op_ok (op : write_op) : bool :=
  match op with
  | OpRaw v | OpString v => Z.of_nat (length v) <? 2 ^ 31
  | OpVarint32 v | OpTag v => (0 <=? v) && (v <? 2 ^ 32)
  | OpVarint64 v => (0 <=? v) && (v <? 2 ^ 64)
  | _ => true
  end.

Definition run_op {T} `{ZeroCopyOutputStream T} (op : write_op) : Output T unit :=
  match op with
  | OpRaw v => WriteRaw v
  | OpString v => CodedWriteString v
  | OpLittleEndian32 v => WriteLittleEndian32 v
  | OpLittleEndian64 v => WriteLittleEndian64 v
  | OpVarint32 v => WriteVarint32 v
  | OpVarint64 v => WriteVarint64 v
  | OpVarint32SignExtended v => WriteVarint32SignExtended v
  | OpTag v => CodedWriteTag v
  end.

Definition run_ops {T} `{ZeroCopyOutputStream T} (ops : list write_op) : Output T unit :=
  foldr (fun op (rest : Output T unit) => run_op op;; rest) (mret tt) ops.

(** What the writer to an array writes. *)
Definition op_bytes (op : write_op) : list Z :=
  match op with
  | OpRaw v | OpString v => v
  | OpLittleEndian32 v => WriteLittleEndian32ToArray v
  | OpLittleEndian64 v => WriteLittleEndian64ToArray v
  | OpVarint32 v => WriteVarint32ToArray v
  | OpVarint64 v => WriteVarint64ToArray v
  | OpVarint32SignExtended v => WriteVarint32SignExtendedToArray v
  | OpTag v => CodedWriteTagToArray v
  end.

Section Streams.
Context {T : Type} `{OutputLaws T}.

Lemma run_op_emits op : op_ok op = true -> emits (run_op op) (op_bytes op).
Proof.
  destruct op; cbn [op_ok run_op op_bytes]; intros Hop.
  - apply WriteRaw_emits.
  - apply CodedWriteString_emits. lia.
  - apply WriteLittleEndian32_emits.
  - apply WriteLittleEndian64_emits.
  - apply WriteVarint32_array. lia.
  - apply WriteVarint64_array. lia.
  - apply WriteVarint32SignExtended_emits.
  - rewrite CodedWriteTagToArray_spec by lia. apply WriteVarint32_emits. lia.
Qed.

Lemma run_ops_emits ops : Forall (fun op => op_ok op = true) ops -> emits (run_ops ops) (mjoin (op_bytes <$> ops)).
Proof.
  intros Hops. rewrite <- (app_nil_r (mjoin _)). apply emits_fold; [|apply emits_nil].
  intros op Hop. rewrite Forall_forall in Hops. by apply run_op_emits, Hops.
Qed.

(** C23: refinement.  Any writes through a [CodedOutputStream], whatever buffers the stream below
    hands out - single bytes, the whole array, a growing string -, leave in its storage what the
    writers to an array write, one after the other, cut off where a bounded storage ends; the
    error flag says exactly whether it was cut off, [ByteCount] what is there, and the destructor
    gives back the rest of the last buffer.  The fast paths, the slow paths through [WriteRaw],
    and the writes behind an error do not show. *)
Theorem CodedOutputStream_refines ops t : Forall (fun op => op_ok op = true) ops -> sound t ->
  let bs := mjoin (op_bytes <$> ops) in
  hard \/ Z.of_nat (length (stored t ++ bs)) < limit t ->
  exists o o' t', CodedOutputStream_new t = Ok o /\ run_ops ops o = Ok (tt, o') /\
    CodedOutputStream_destroy o' = Ok t' /\
    had_error_ o' = (limit t <? Z.of_nat (length (stored t ++ bs))) /\
    OutByteCount o' = Z.min (Z.of_nat (length bs)) (limit t - Z.of_nat (length (stored t))) /\
    stored t' = take (Z.to_nat (limit t)) (stored t ++ bs) /\
    ByteCount t' = Z.of_nat (length (stored t')).
Proof.
  intros Hops Ht bs Hor. destruct (new_rep t Ht) as (o & E & Hr).
  { destruct Hor as [|Hl]; [by left|right]. rewrite length_app in Hl. lia. }
  destruct (run_ops_emits ops Hops (limit t) (stored t) [] o Hr) as (o' & E' & Hr').
  { destruct Hor as [|Hl]; [by left|right]. cbn [app]. fold bs. lia. }
  cbn [app] in Hr'. fold bs in Hr'. destruct (destroy_rep _ _ _ _ Hr') as (t' & E2 & Hst & Hc).
  exists o, o', t'. split; [done|]. split; [done|]. split; [done|].
  split; [by apply rep_error in Hr'|]. split; [by apply rep_count in Hr'|]. split; [|done].
  rewrite Hst. destruct (Z.leb_spec (Z.of_nat (length (stored t ++ bs))) (limit t)); [|done].
  rewrite take_ge by lia. done.
Qed.
End Streams.

(** An array of eight bytes in blocks of three, and nine bytes for it. *)
Definition small_array : ArrayOutputStream := ArrayOutputStream_new (replicate 8 0) 8 3.
Definition nine_bytes : list write_op := [OpVarint32 300; OpLittleEndian32 0x04030201; OpRaw [9; 8; 7]].

Lemma CodedOutputStream_refines_witness :
  exists o o' t', CodedOutputStream_new small_array = Ok o /\ run_ops nine_bytes o = Ok (tt, o') /\
    CodedOutputStream_destroy o' = Ok t' /\ had_error_ o' = true /\ OutByteCount o' = 8 /\
    stored t' = [172; 2; 1; 2; 3; 4; 9; 8] /\ ByteCount t' = 8.
Proof.
  destruct (CodedOutputStream_refines nine_bytes small_array) as (o & o' & t' & E1 & E2 & E3 & He & Hc & Hst & Hb).
  - repeat constructor.
  - constructor; cbn; lia.
  - by left.
  - exists o, o', t'. repeat (split; [done|]). by rewrite Hb, Hst.
Defined.

(** * Messages *)

(** The statements of a class against the fields that its array writer writes. *)
Definition stream_agrees (p : message_class * list (field_write * bool)) : bool :=
  wf_class (fst p) && bool_decide (fst <$> snd p = k_writes (fst p)).

Lemma streams_agree : forallb stream_agrees stream_classes = true.
Proof. vm_compute. reflexivity. Qed.

Lemma stream_class K ws : In (K, ws) stream_classes -> class_facts K /\ fst <$> ws = k_writes K.
Proof.
  intros Hin. pose proof streams_agree as H. rewrite forallb_forall in H. specialize (H _ Hin).
  apply andb_true_iff in H as [HK Hw]. split; [by apply wf_class_facts|by eapply bool_decide_eq_true_1].
Qed.

Lemma AppendToString_exact K msg output : class_facts K -> msg_facts K msg ->
  let bs := SerializeWithCachedSizesToArray K msg in
  Z.of_nat (length (output ++ bs)) < 2 ^ 31 ->
  AppendToString K msg output =
  Ok (true, mkmsg (has_bits_ msg) (members msg) (unknown_fields_ msg) (Z.of_nat (length bs)), output ++ bs).
Proof.
  intros HK Hm bs Hl.
  assert (fst (ByteSize K msg) = Z.of_nat (length bs)) as Es.
  { apply (ByteSize_exact K HK msg Hm). fold bs. rewrite length_app in Hl. lia. }
  unfold AppendToString, ByteSize in *. cbn [fst] in Es. rewrite Es.
  change (SerializeWithCachedSizesToArray K (mkmsg _ _ _ _)) with bs. rewrite length_app in Hl.
  rewrite !s32_small by (rewrite ?s32_small; lia).
  destruct (Z.ltb_spec (Z.of_nat (length output) + Z.of_nat (length bs)) 0); [lia|].
  rewrite resize_spec, take_ge by lia.
  set (pad := replicate _ 0).
  assert (length pad = length bs) as Hp by (unfold pad; rewrite length_replicate; lia).
  rewrite <- (app_nil_r pad).
  by rewrite (res_bind_ok _ _ _ (store_at_middle output pad [] bs Hp)), app_nil_r, Z.eqb_refl.
Qed.

(** C22: equivalence.  In each of the 77 generated classes the stream writer
    [SerializeWithCachedSizes] and the array writer [SerializeWithCachedSizesToArray], separate
    code over separate writers of fields, write the same bytes: [SerializeToZeroCopyStream]
    through buffers of any sizes, in one direct write or piece by piece, stores exactly the bytes
    that [SerializeToArray] writes, reports failure exactly when a bounded storage is too small,
    and never finds the size inconsistent; and so does [AppendToString].  The bytes are fewer than
    two gigabytes, so that the size does not wrap around. *)
Theorem SerializeToZeroCopyStream_exact {T} `{OL : OutputLaws T, AW : AliasedWriter T} `{!AliasedWriterLaws T}
    K ws msg t : In (K, ws) stream_classes -> wf_msg K msg = true -> sound t ->
  let bs := SerializeWithCachedSizesToArray K msg in
  let msg' := mkmsg (has_bits_ msg) (members msg) (unknown_fields_ msg) (Z.of_nat (length bs)) in
  (Z.of_nat (length bs) < 2 ^ 31 -> hard \/ Z.of_nat (length (stored t ++ bs)) < limit t ->
   exists t', SerializeToZeroCopyStream K ws msg t =
       Ok (Z.of_nat (length (stored t ++ bs)) <=? limit t, msg', t') /\
     stored t' = take (Z.to_nat (limit t)) (stored t ++ bs) /\
     ByteCount t' = Z.of_nat (length (stored t'))) /\
  (forall output, Z.of_nat (length (output ++ bs)) < 2 ^ 31 ->
     AppendToString K msg output = Ok (true, msg', output ++ bs)).
Proof.
  intros Hin Hm%wf_msg_facts Ht bs msg'. destruct (stream_class K ws Hin) as [HK Hws].
  split; [|intros output Hl; by apply AppendToString_exact].
  intros Hl31 Hor. destruct (new_rep t Ht) as (o & E & Hr).
  { destruct Hor as [|Hl]; [by left|right]. rewrite length_app in Hl. lia. }
  destruct (SerializeToCodedStream_spec K ws msg (limit t) (stored t) [] o HK Hm Hws Hr Hl31) as (o' & E' & Hr').
  { destruct Hor as [|Hl]; [by left|right]. cbn [app]. fold bs. lia. }
  cbn [app] in *. fold bs in E', Hr'. fold msg' in E'. destruct (destroy_rep _ _ _ _ Hr') as (t' & E2 & Hst & Hc).
  exists t'. unfold SerializeToZeroCopyStream. rewrite (res_bind_ok _ _ _ E), (res_bind_ok _ _ _ E').
  cbn [fst snd]. rewrite (res_bind_ok _ _ _ E2). split; [done|]. split; [|done].
  rewrite Hst. destruct (Z.leb_spec (Z.of_nat (length (stored t ++ bs))) (limit t)); [|done].
  rewrite take_ge by lia. done.
Qed.

(** A tick in single bytes, and in an array that is one byte too small. *)
Definition stream_tick : message := mkmsg 3 [VInt 5; VInt 300; VInt 0; VInt 0] [UVarint 9 1] 0.

Lemma SerializeToZeroCopyStream_exact_witness :
  (exists t', SerializeToZeroCopyStream (H0 := copying_writer) CNETMsg_Tick CNETMsg_Tick_stream
     stream_tick (ArrayOutputStream_new (replicate 6 0) 6 1) =
     Ok (false, mkmsg 3 [VInt 5; VInt 300; VInt 0; VInt 0] [UVarint 9 1] 7, t') /\
     stored t' = [8; 5; 32; 172; 2; 72]).
Proof.
  destruct (SerializeToZeroCopyStream_exact (AW := copying_writer) CNETMsg_Tick CNETMsg_Tick_stream stream_tick
    (ArrayOutputStream_new (replicate 6 0) 6 1)) as [H _].
  - left. reflexivity.
  - vm_compute. reflexivity.
  - constructor; cbn; lia.
  - destruct (H ltac:(vm_compute; reflexivity) ltac:(by left)) as (t' & E & Hst & _). exists t'. split; [exact E|exact Hst].
Defined.
